(* ===== verification/_CoqProject ===== *)
-Q . S2P
Prelude.v
Pow2.v
ListNode.v
Timer.v
KState.v
Sched.v
Resched.v
Wait.v
Thread.v
Sync.v
Machine.v
Objects.v
Trace.v
Cbuf.v
Align.v
Pmm.v
PmmSpec.v
Vmm.v
VmmSpec.v
Vm.v
Port.v
PortSpec.v
PortCalls.v
Heap.v
HeapIndex.v
HeapLists.v
HeapGeom.v
HeapSpec.v
HeapFree.v
HeapTrim.v
HeapBytes.v
HeapCalls.v
HeapPages.v
HeapTheorems.v
LibcMem.v
LibcString.v
LibcStdlib.v
LibcSort.v
LibcPrintf.v
LibcPrintfSpec.v
LibcTheorems.v
Arm64Mmu.v
Arm64Spec.v
Arm64Map.v
Arm64Aspace.v
Arm64Pages.v
Arm64Theorems.v
