(* ===== verification/Prelude.v ===== *)
(** * A verification of the punkt kernel

    The kernel under [src/punkt] runs threads on several cpus, gives them mutexes, semaphores, events, ports and
    timers, and manages physical and virtual memory.  This library translates those parts, function by function, and proves that they
    do what their headers promise.  Pure code is a function; code with state is a computation of the
    monad [M] below, whose outcome is a value with the new state or a fault: a failed assertion, a panic, a bad pointer,
    a loop that has not ended.  [wp m Q s] says that [m] runs from [s] to its end without a fault and that [Q] holds then, so every
    statement with [wp] is one of total correctness.

    ** The parts and the files

    - [Prelude]: the monad, its tactic [wp_step] and the lemmas all files share.  [Pow2] ([top/include/lk/pow2.h]) and
      [Align] ([lib/libc/include/stdlib.h], [vm/include/vm/vm.h]) are arithmetic on words.
    - [ListNode] ([top/include/lk/list.h]): module [Nodes] is the pointer code on a heap of nodes, module [Family] the
      sequences the other files use, module [Refine] the proof that the first implements the second.
    - [Timer] ([kernel/timer.c]): a queue of timers per cpu, the wrapping clock and [timer_tick], over any state that
      contains the timers (class [HasTimers]).
    - [KState], [Sched], [Resched], [Wait], [Thread] ([kernel/thread.c], [kernel/mp.c], [top/main.c]): the record
      [kstate] is the state of the scheduler.  [Sched] has the run queues, [thread_resched] and what ends in it and the
      invariant [sinv]; [Resched] proves them; [Wait] has wait queues and sleeping; [Thread] the life of a thread and the boot sequence.
    - [Sync] ([kernel/mutex.c], [kernel/semaphore.c], [kernel/event.c]), [Machine], [Objects], [Trace]: the objects on top of the wait
      queues; a step relation in which any number of cpus interleave calls, switches, timer interrupts and preemption;
      what holds in every reachable state; runs that can be evaluated.
    - [Cbuf] ([lib/cbuf]): circular buffers over an event, which is a class that the events of [Sync] implement.
    - [Pmm], [PmmSpec] ([vm/pmm.c], [vm/bootalloc.c]): arenas of physical pages.  [Vmm], [VmmSpec] ([vm/vmm.c]): address spaces and
      regions, over the page allocator and the page tables of the architecture (class [Mmu] with the laws
      [MmuLaws]).  [Vm] ([vm/vm.c]): start-up and the translation of addresses.
    - [Port], [PortSpec], [PortCalls] ([kernel/port.c]): named ports, read ports and groups over the wait queues (class
      [PortWaits] with the laws [PortWaitsLaws], which the wait queues of [Wait] satisfy).
    - [Heap] ([lib/heap]): the functions of [cmpctmalloc.c], [page_alloc.c] and [heap_wrapper.c] on words of memory, over
      whatever gives it pages (class [PageOps] with the laws [PageLaws]).  [HeapIndex] has the size classes, [HeapLists] the free lists that
      run through the free areas and the bits over them, [HeapGeom] the areas as a map from addresses (the ghost state of the proofs),
      [HeapSpec] the invariant [inv] and allocation, [HeapFree] freeing and [memalign], [HeapTrim] trimming, [HeapBytes] the bytes of blocks and
      [memcpy], [HeapCalls] the store of blocks that the callers see and the proof that the heap implements it, [HeapPages] the page
      allocator as the source of pages, [HeapTheorems] the theorems and a machine to run them on.
    - [LibcMem], [LibcString] ([lib/libc/string], [lib/libc/ctype.c]): the functions on bytes and strings, on memory as a map from
      addresses to bytes.  [LibcStdlib] ([lib/libc/atoi.c], [strtol.c], [strtoll.c], [rand.c], [bsearch.c]): numbers in strings, random
      numbers and binary search.  [LibcSort] ([lib/libc/qsort.c]): sorting, over any function that orders elements (class
      [Comparator]).  [LibcPrintf] ([lib/libc/printf.c]): the engine of formatted output, with doubles, and what prints into a buffer;
      [LibcPrintfSpec] has the text a format and its arguments stand for ([render]) and the proof that the engine hands it to any
      output function that takes bytes in order (class [Output]).  [LibcTheorems] has the theorems.
    - [Arm64Mmu] ([arch/arm64/mmu.c]): the page tables of the arm64 port, as lists of descriptors in a store by address, with pages from [Pmm].
      [Arm64Spec] has the trees that the tables stand for, what the hardware finds in them ([look]) and the proof of unmapping; [Arm64Map]
      mapping, over any source of tables (class [TableSource]); [Arm64Aspace] the invariant [sys] over all address spaces and the calls;
      [Arm64Pages] the page allocator as the source of tables; [Arm64Theorems] the theorems and a machine to run them on.

    ** How state and code correspond

    A pointer to an object is a name, and the objects are finite maps from names; [NULL] is [None].  A list head with its nodes is a
    sequence of the family of its kind, as [ListNode] justifies.  Integers are [Z] with the wrap-around of their width written out
    ([u32], [u64]).  The heap itself works on memory as a map from addresses to words; for the other parts, memory from the heap is an
    argument of the call that asks for it, [None] when there is none.  A lock
    makes what runs under it one step.  A function that can switch threads is two definitions, up to the switch
    ([..._enter], or the name itself) and after it ([..._return]), and other steps come in between.

    ** What the theorems show

    - No legal call faults, in any order and interleaving, and each component's invariant holds in every reachable state:
      [kernel_never_faults], [threads_are_where_they_belong], [port_sound], [vmm_sound], [pmm_sound],
      [lk_main_establishes_invariant].
    - Synchronisation: mutual exclusion and exact counts ([mutex_excludes], [mutex_count_exact], [semaphore_counts],
      [event_signals]), wake-ups that are not lost ([mutex_handed_on]) and the runs with timeouts in which they
      are ([mutex_timeout_loses_wakeup], [semaphore_timeout_loses_post]).
    - Scheduling: the best thread runs, in turn and for its quantum ([get_top_thread_picks_best],
      [thread_resched_completes], [thread_yield_round_robin], [thread_preempt_respects_quantum]), threads start, end and
      are joined ([thread_create_outcome], [thread_exit_ends], [exit_join_roundtrip]), and timers fire in order ([timer_set_keeps_order],
      [timer_tick_fires_due]).
    - Data structures implement their abstractions: [list_h_refines_sequences], [cbuf_refines_queue], [round_up_pow2_least].
    - Memory: allocation is exact, complete and undone by freeing ([pmm_alloc_contiguous_exact], [pmm_kpages_roundtrip],
      [alloc_spot_first_fit], [vmm_alloc_exact], [vmm_alloc_free_roundtrip], [vmm_reserve_space_exact]); start-up keeps the kernel's own
      pages ([vm_init_preheap_takes_kernel], [vm_init_postheap_reserves]); the two translations of addresses agree ([translation_agrees]).
    - The heap: over the page allocator it serves any number of calls as a store of separate blocks would, with their bytes
      ([kernel_heap_serves]); its size classes and searches are exact ([buckets_fit], [find_nonempty_bucket_least]) and free areas
      are joined ([cmpct_free_coalesces]).
    - Ports: a write reaches every reader with room, a read takes the oldest packet, and packets survive the last reader
      ([port_write_delivers], [port_read_takes_oldest], [port_reopen_keeps_packets]).
    - The C library: sorting sorts ([qsort_sorts]), searching finds ([bsearch_finds], [strstr_finds_first]), moves of overlapping bytes are
      exact ([memmove_copies]), numbers are read exactly ([strtol_exact]), what is printed is the text of the format
      ([snprintf_prints]), and numbers that are printed are read back ([sprintf_strtol_roundtrip]).
    - The arm64 page tables: no legal call faults ([arm64_mmu_sound]); looking up, mapping and unmapping agree, and nothing but the range
      changes ([arm64_map_exact], [arm64_unmap_exact], [arm64_map_unmap_roundtrip]); mapping succeeds when there is memory for the tables
      ([arm64_map_succeeds]).
    - Defects of the code, as theorems: [port_group_remove_breaks_close], [thread_unblock_outcome], [cbuf_read_nothing_spins], the two
      lost wake-ups, and of the heap [trim_twice_breaks], [large_failure_keeps_lock], [large_block_short] and [sizes_not_looked_at],
      and of the C library [bsearch_leaves_array], [strlcat_overruns], [printf_left_drops_sign] and [printf_fraction_carry],
      and of the page tables [arm64_unmap_takes_block], [arm64_failed_map_leaves_tables] and [arm64_bad_flags_mapped].

    ** Bounds and fuel

    Loops that are not structural take fuel, and the theorems show that it is enough: 32 passes of [get_top_thread], one per bit of
    the bitmap; two passes of [timer_tick] per queued timer, since a periodic timer is queued again once; one more than the length of
    the list for loops that empty one; one pass per page of the arena for the searches of the page allocator; one pass of a read from
    a port up to its wait; 25 turns of the loop that grows the heap by half as much each time; one turn of [cmpct_trim] per 32 bytes
    that are free, the least a free area has.  A blocking [cbuf_read] can go round for ever, and its theorem says when.
    Loops over strings have one turn more than memory has bytes, [qsort] one level per element, the digits of a fraction eleven turns.
    The page tables have four levels: four turns of the lookup, and 513 turns per level for mapping and unmapping, one per descriptor and the end.
    Their pages and what they map lie below 2^48, the addresses a descriptor can hold.
    Arrays that are sorted and regions that are moved are shorter than 2^31 bytes, since the code counts them with [int].
    Timeouts are infinite or below 2^30 ms, half of what the comparison of wrapped times can tell apart; pages are of 4 KiB.

    ** Not modelled

    - The architecture other than the page tables of arm64, platforms, targets and device drivers: registers, assembly, memory-mapped
      devices.  What the modelled code needs of them is a parameter: the one-shot timer, the initial mappings, the addresses of the image, the first
      page table of the kernel.  The virtual memory manager is over page tables with the laws of [Mmu], whatever the architecture.
    - The self-test, the dump and the console command of the heap, and the fill patterns of a debug build of it.  The rules in
      [legal] of [HeapCalls] say what the heap does not survive: a second trim, large requests without memory, [NULL] inside [memalign] and [realloc].
    - Code that only prints: the console commands, the dumps of [kernel/debug.c] and of the memory managers.
    - The libraries that no modelled code calls: block devices, file systems, the network stack, graphics, parsers of firmware
      tables, the streams of the C library and the functions that print to them, the applications and the imported code.
    - [port_group_remove] is modelled but not among the calls of [port_sound]: after it the invariant does not hold.
    - The races the code leaves open between a test and the lock that follows it in [port_group_add] and [port_group_remove]; the second half
      of [port_create] is a step of its own. *)

From stdpp Require Import base gmap list fin_maps strings numbers.
From Stdlib Require Import ZArith Lia.

Declare Scope punkt_scope.
Delimit Scope punkt_scope with punkt.
Open Scope Z_scope.
Open Scope punkt_scope.

(** ** Machine integers *)

Definition u32 (x : Z) : Z := x mod 2 ^ 32.
Definition u64 (x : Z) : Z := x mod 2 ^ 64.

(** Two's complement reading of the low 32 bits, as the conversion to
    [int32_t] does it. *)
Definition s32 (x : Z) : Z :=
  let y := u32 x in if y <? 2 ^ 31 then y else y - 2 ^ 32.
Definition s64 (x : Z) : Z := let y := u64 x in if y <? 2 ^ 63 then y else y - 2 ^ 64.

Definition bit (n : Z) : Z := Z.shiftl 1 n.
Definition bit_set (m n : Z) : Z := u32 (Z.lor m (bit n)).
Definition bit_clear (m n : Z) : Z := u32 (Z.land m (Z.lnot (bit n))).

Lemma u32_range x : 0 <= u32 x < 2 ^ 32.
Proof. apply Z.mod_pos_bound. lia. Qed.

Lemma u32_small x : 0 <= x < 2 ^ 32 -> u32 x = x.
Proof. apply Z.mod_small. Qed.

Lemma u32_idemp x : u32 (u32 x) = u32 x.
Proof. apply u32_small, u32_range. Qed.

Lemma s32_range x : - 2 ^ 31 <= s32 x < 2 ^ 31.
Proof. unfold s32. pose proof (u32_range x). destruct (Z.ltb_spec (u32 x) (2 ^ 31)); lia. Qed.

(** The signed reading of a difference that fits in 32 bits is the
    difference itself. *)
Lemma s32_small x : - 2 ^ 31 <= x < 2 ^ 31 -> s32 x = x.
Proof.
  intros H. unfold s32, u32.
  destruct (decide (0 <= x)).
  - rewrite Z.mod_small by lia. destruct (Z.ltb_spec x (2 ^ 31)); lia.
  - replace (x mod 2 ^ 32) with (x + 2 ^ 32).
    + destruct (Z.ltb_spec (x + 2 ^ 32) (2 ^ 31)); lia.
    + symmetry. rewrite <- (Z.mod_add x 1) by lia. apply Z.mod_small. lia.
Qed.

Lemma s32_sub_u32_l a b : s32 (u32 a - b) = s32 (a - b).
Proof. unfold s32, u32. by rewrite Zminus_mod_idemp_l. Qed.

Lemma s32_sub_u32_r a b : s32 (a - u32 b) = s32 (a - b).
Proof. unfold s32, u32. by rewrite Zminus_mod_idemp_r. Qed.

Lemma u32_testbit x n : Z.testbit (u32 x) n = Z.testbit x n && (n <? 32).
Proof.
  unfold u32. destruct (Z.ltb_spec n 32).
  - rewrite Z.mod_pow2_bits_low by lia. by rewrite andb_true_r.
  - rewrite Z.mod_pow2_bits_high by lia. by rewrite andb_false_r.
Qed.

Lemma bit_testbit n i : 0 <= n -> Z.testbit (bit n) i = (i =? n).
Proof.
  intros Hn. unfold bit. rewrite Z.shiftl_1_l.
  rewrite Z.pow2_bits_eqb by done. apply Z.eqb_sym.
Qed.

Lemma bit_set_spec m n i :
  0 <= n < 32 -> Z.testbit (bit_set m n) i =
    (Z.testbit m i && (i <? 32)) || (i =? n).
Proof.
  intros Hn. unfold bit_set. rewrite u32_testbit, Z.lor_spec, bit_testbit by lia.
  destruct (Z.testbit m i), (Z.eqb_spec i n), (Z.ltb_spec i 32); simpl; lia.
Qed.

Lemma bit_clear_spec m n i :
  0 <= n < 32 -> 0 <= i -> Z.testbit (bit_clear m n) i =
    (Z.testbit m i && (i <? 32)) && negb (i =? n).
Proof.
  intros Hn Hi. unfold bit_clear.
  rewrite u32_testbit, Z.land_spec, Z.lnot_spec, bit_testbit by lia.
  destruct (Z.testbit m i), (Z.eqb_spec i n), (Z.ltb_spec i 32); simpl; lia.
Qed.

Lemma bit_set_range m n : 0 <= bit_set m n < 2 ^ 32.
Proof. apply u32_range. Qed.

Lemma bit_clear_range m n : 0 <= bit_clear m n < 2 ^ 32.
Proof. apply u32_range. Qed.

(** ** Status codes ([lk/err.h]) *)

Definition NO_ERROR : Z := 0.
Definition ERR_GENERIC : Z := -1.
Definition ERR_NOT_FOUND : Z := -2.
Definition ERR_NOT_READY : Z := -3.
Definition ERR_NO_MSG : Z := -4.
Definition ERR_NO_MEMORY : Z := -5.
Definition ERR_INVALID_ARGS : Z := -8.
Definition ERR_NOT_ENOUGH_BUFFER : Z := -9.
Definition ERR_NOT_SUSPENDED : Z := -10.
Definition ERR_OBJECT_DESTROYED : Z := -11.
Definition ERR_NOT_BLOCKED : Z := -12.
Definition ERR_TIMED_OUT : Z := -13.
Definition ERR_ALREADY_EXISTS : Z := -14.
Definition ERR_NOT_ALLOWED : Z := -17.
Definition ERR_TOO_BIG : Z := -25.
Definition ERR_CANCELLED : Z := -26.
Definition ERR_BUSY : Z := -33.
Definition ERR_THREAD_DETACHED : Z := -34.
Definition ERR_BAD_HANDLE : Z := -42.
Definition ERR_PARTIAL_WRITE : Z := -44.
Definition ERR_OUT_OF_RANGE : Z := -37.

(** ** Faults and the state monad

    Kernel code runs on an explicit state.  A failed [DEBUG_ASSERT], a call of
    [panic], the use of a pointer to nothing and an exhausted loop bound are
    faults; every other error of the code is a status value. *)

Inductive fault :=
| AssertFail
| Panic
| BadPointer
| OutOfFuel.

#[export] Instance fault_eq_dec : EqDecision fault.
Proof. solve_decision. Defined.

Inductive outcome (S A : Type) :=
| Done (a : A) (s : S)
| Fault (f : fault).
Arguments Done {S A} a s.
Arguments Fault {S A} f.

Definition M (S A : Type) : Type := S -> outcome S A.

Section Monad.
Context {S : Type}.

Definition ret {A} (a : A) : M S A := fun s => Done a s.
Definition bind {A B} (m : M S A) (f : A -> M S B) : M S B :=
  fun s => match m s with Done a s' => f a s' | Fault e => Fault e end.
Definition fail {A} (e : fault) : M S A := fun _ => Fault e.
Definition gets {A} (f : S -> A) : M S A := fun s => Done (f s) s.
Definition modify (f : S -> S) : M S unit := fun s => Done tt (f s).
Definition massert (b : bool) : M S unit := if b then ret tt else fail AssertFail.
Definition deref {A} (o : option A) : M S A :=
  match o with Some a => ret a | None => fail BadPointer end.
Definition when (b : bool) (m : M S unit) : M S unit := if b then m else ret tt.

(** Total-correctness weakest precondition: [m] runs from [s] to the end with no
    fault, and the result and the final state satisfy [Q]. *)
Definition wp {A} (m : M S A) (Q : A -> S -> Prop) (s : S) : Prop :=
  match m s with Done a s' => Q a s' | Fault _ => False end.

Lemma wp_ret {A} (a : A) Q s : Q a s -> wp (ret a) Q s.
Proof. done. Qed.

Lemma wp_bind {A B} (m : M S A) (f : A -> M S B) Q s :
  wp m (fun a s' => wp (f a) Q s') s -> wp (bind m f) Q s.
Proof. unfold wp, bind. by destruct (m s). Qed.

Lemma wp_gets {A} (f : S -> A) Q s : Q (f s) s -> wp (gets f) Q s.
Proof. done. Qed.

Lemma wp_modify f Q s : Q tt (f s) -> wp (modify f) Q s.
Proof. done. Qed.

Lemma wp_massert b Q s : b = true -> Q tt s -> wp (massert b) Q s.
Proof. by intros ->. Qed.

Lemma wp_deref {A} (o : option A) a Q s : o = Some a -> Q a s -> wp (deref o) Q s.
Proof. by intros ->. Qed.

Lemma wp_mono {A} (m : M S A) (P Q : A -> S -> Prop) s :
  wp m P s -> (forall a s', P a s' -> Q a s') -> wp m Q s.
Proof. unfold wp. destruct (m s); auto. Qed.

Lemma wp_conj {A} (m : M S A) (P Q : A -> S -> Prop) s :
  wp m P s -> wp m Q s -> wp m (fun a s' => P a s' /\ Q a s') s.
Proof. unfold wp. by destruct (m s). Qed.

Lemma wp_when b m Q s :
  (b = true -> wp m Q s) -> (b = false -> Q tt s) -> wp (when b m) Q s.
Proof. destruct b; intros H1 H2; [by apply H1 | by apply H2]. Qed.

(** A run and its weakest precondition. *)
Lemma wp_done {A} (m : M S A) Q s : wp m Q s <-> exists a s', m s = Done a s' /\ Q a s'.
Proof. unfold wp. destruct (m s); naive_solver. Qed.

Lemma bind_ret_l {A B} (a : A) (f : A -> M S B) s : bind (ret a) f s = f a s.
Proof. done. Qed.

Lemma bind_assoc {A B C} (m : M S A) (f : A -> M S B) (g : B -> M S C) s :
  bind (bind m f) g s = bind m (fun a => bind (f a) g) s.
Proof. unfold bind. by destruct (m s). Qed.

Lemma bind_ext {A B} (m : M S A) (f g : A -> M S B) s :
  (forall a s', f a s' = g a s') -> bind m f s = bind m g s.
Proof. intros Hfg. unfold bind. destruct (m s); [apply Hfg|done]. Qed.

(** Reasoning about the first two actions of a sequence together. *)
Lemma wp_bind_assoc {A B C} (m : M S A) (f : A -> M S B) (g : M S C) Q s :
  wp (bind m f) (fun _ s' => wp g Q s') s -> wp (bind m (fun a => bind (f a) (fun _ => g))) Q s.
Proof. unfold wp, bind. destruct (m s) as [a s'|]; [|done]. by destruct (f a s'). Qed.

Lemma wp_bind_ret {A} (m : M S A) Q s : wp (bind m ret) Q s -> wp m Q s.
Proof. unfold wp, bind. by destruct (m s). Qed.
End Monad.

Notation "'do' x <- m ; k" := (bind m (fun x => k))
  (at level 10, x name, m at level 100, k at level 200,
   format "'do'  x  <-  m ;  '/' k") : punkt_scope.
Notation "'do' ' p <- m ; k" := (bind m (fun x => match x with p => k end))
  (at level 10, p pattern, m at level 100, k at level 200) : punkt_scope.
Notation "m ;; k" := (bind m (fun _ => k))
  (at level 100, k at level 200, right associativity) : punkt_scope.

(** One step of a proof about [wp]; the side conditions of assertions and pointers
    are tried with what is at hand. *)
Ltac wp_step :=
  lazymatch goal with
  | |- wp (bind _ _) _ _ => apply wp_bind
  | |- wp (ret _) _ _ => apply wp_ret
  | |- wp (gets _) _ _ => apply wp_gets
  | |- wp (modify _) _ _ => apply wp_modify
  | |- wp (massert _) _ _ => apply wp_massert
  | |- wp (deref _) _ _ => eapply wp_deref
  | |- wp (when _ _) _ _ => apply wp_when
  | |- wp (if ?b then _ else _) _ _ => destruct b eqn:?
  | |- wp (match ?x with _ => _ end) _ _ => destruct x eqn:?
  end; cbv beta.

Create HintDb punkt.
#[export] Hint Resolve u32_range s32_range bit_set_range bit_clear_range : punkt.
