(* ===== verification/Pow2.v ===== *)
(** * Powers of two

    The routines of [lk/pow2.h] on 32-bit words, and what they compute. *)

From stdpp Require Import base numbers.
From S2P Require Import Prelude.

(** [__builtin_clz] of a word that is not zero. *)
Definition builtin_clz (val : Z) : Z := 31 - Z.log2 val.

Definition ispow2 (val : Z) : bool := Z.land (u32 (val - 1)) val =? 0.

Definition log2_uint (val : Z) : Z := if val =? 0 then 0 else u32 (4 * 8 - 1 - builtin_clz val).

Definition valpow2 (valp2 : Z) : Z := u32 (Z.shiftl 1 valp2).

Definition divpow2 (val divp2 : Z) : Z := Z.shiftr val divp2.

Definition modpow2 (val modp2 : Z) : Z := Z.land val (Z.shiftl 1 modp2 - 1).

Definition round_up_pow2_u32 (v : Z) : Z :=
  let v := u32 (v - 1) in
  let v := Z.lor v (Z.shiftr v 1) in
  let v := Z.lor v (Z.shiftr v 2) in
  let v := Z.lor v (Z.shiftr v 4) in
  let v := Z.lor v (Z.shiftr v 8) in
  let v := Z.lor v (Z.shiftr v 16) in
  u32 (v + 1).

Lemma valpow2_pow n : 0 <= n < 32 -> valpow2 n = 2 ^ n.
Proof.
  intros Hn. unfold valpow2. rewrite Z.shiftl_1_l. apply u32_small.
  split; [lia|]. apply Z.pow_lt_mono_r; lia.
Qed.

Lemma divpow2_div val n : 0 <= n -> divpow2 val n = val / 2 ^ n.
Proof. apply Z.shiftr_div_pow2. Qed.

Lemma modpow2_mod val n : 0 <= n -> modpow2 val n = val mod 2 ^ n.
Proof.
  intros Hn. unfold modpow2. rewrite Z.shiftl_1_l, Z.sub_1_r, <- Z.ones_equiv. by apply Z.land_ones.
Qed.

Lemma modpow2_u32 x n : 0 <= n <= 32 -> modpow2 (u32 x) n = x mod 2 ^ n.
Proof.
  intros Hn. rewrite modpow2_mod by lia. unfold u32. apply Z.mod_mod_divide.
  exists (2 ^ (32 - n)). rewrite <- Z.pow_add_r by lia. f_equal. lia.
Qed.

Lemma ispow2_pow n : 0 <= n < 32 -> ispow2 (2 ^ n) = true.
Proof.
  intros Hn. unfold ispow2. apply Z.eqb_eq. assert (2 ^ n < 2 ^ 32) by (apply Z.pow_lt_mono_r; lia).
  rewrite u32_small by lia. rewrite Z.sub_1_r, <- Z.ones_equiv, Z.land_comm, Z.land_ones by lia. apply Z_mod_same_full.
Qed.

(** A word the test accepts is a power of two, or zero. *)
Lemma ispow2_true val : 0 < val < 2 ^ 32 -> ispow2 val = true -> val = 2 ^ Z.log2 val.
Proof.
  intros Hv. unfold ispow2. rewrite Z.eqb_eq, u32_small by lia. intros Hl.
  pose proof (Z.log2_spec val ltac:(lia)) as [Hlo Hhi]. pose proof (Z.log2_nonneg val) as Hnn.
  apply Z.le_antisymm; [|done]. apply Z.nlt_ge. intros Hlt.
  assert (Z.log2 (val - 1) = Z.log2 val) as El by (apply Z.log2_unique; lia).
  assert (Z.testbit (Z.land (val - 1) val) (Z.log2 val) = true) as Ht.
  { rewrite Z.land_spec, Z.bit_log2 by lia. rewrite <- El, Z.bit_log2; [done|]. lia. }
  rewrite Hl, Z.bits_0 in Ht. done.
Qed.

Lemma log2_uint_log2 val : 0 < val < 2 ^ 32 -> log2_uint val = Z.log2 val.
Proof.
  intros Hv. unfold log2_uint, builtin_clz. destruct (Z.eqb_spec val 0); [lia|].
  pose proof (Z.log2_nonneg val). assert (Z.log2 val < 32) by (apply Z.log2_lt_pow2; lia).
  rewrite u32_small by lia. lia.
Qed.

(** ** Rounding up

    After the steps by 1, 2, ..., [n]/2 a bit is set if one of the [n] bits from it up was. *)
Definition smeared (n v x : Z) : Prop :=
  0 <= x /\ forall i, 0 <= i -> Z.testbit x i = true <-> exists j, 0 <= j < n /\ Z.testbit v (i + j) = true.

Lemma smear_step n m v x : 0 < n -> m = 2 * n -> smeared n v x -> smeared m v (Z.lor x (Z.shiftr x n)).
Proof.
  intros Hn -> [Hx Hs]. split; [apply Z.lor_nonneg; split; [done|by apply Z.shiftr_nonneg]|]. intros i Hi.
  rewrite Z.lor_spec, orb_true_iff, Z.shiftr_spec, !Hs by lia. split.
  - intros [(j & Hj & Hb)|(j & Hj & Hb)]; [exists j; split; [lia|done]|]. exists (n + j). split; [lia|].
    by replace (i + (n + j)) with (i + n + j) by lia.
  - intros (j & Hj & Hb). destruct (Z.lt_ge_cases j n); [left; exists j; split; [lia|done]|right].
    exists (j - n). split; [lia|]. by replace (i + n + (j - n)) with (i + j) by lia.
Qed.

Lemma smeared_ones v x : 0 < v < 2 ^ 32 -> smeared 32 v x -> x = Z.ones (Z.log2 v + 1).
Proof.
  intros Hv [Hx Hs]. pose proof (Z.log2_nonneg v) as Hnn. assert (Z.log2 v < 32) by (apply Z.log2_lt_pow2; lia).
  apply Z.bits_inj'. intros i Hi. apply eq_true_iff_eq. rewrite Hs by done. split.
  - intros (j & Hj & Hb). apply Z.ones_spec_low. split; [done|].
    destruct (Z.lt_ge_cases (Z.log2 v) (i + j)); [rewrite Z.bits_above_log2 in Hb by lia; done|lia].
  - intros Ho. assert (i <= Z.log2 v) as Hle.
    { destruct (Z.lt_ge_cases (Z.log2 v) i); [|done]. rewrite Z.ones_spec_high in Ho by lia. done. }
    exists (Z.log2 v - i). split; [lia|]. replace (i + (Z.log2 v - i)) with (Z.log2 v) by lia. apply Z.bit_log2. lia.
Qed.

(** [round_up_pow2_u32] gives the least power of two that is not below a value from 1 to
    2^31; above that, where there is none in a word, and for 0, it gives 0. *)
Theorem round_up_pow2_least v (Hv : 0 <= v < 2 ^ 32) :
  if (0 <? v) && (v <=? 2 ^ 31)
  then exists n, 0 <= n < 32 /\ round_up_pow2_u32 v = 2 ^ n /\ v <= 2 ^ n /\
         (forall m, 0 <= m -> v <= 2 ^ m -> n <= m)
  else round_up_pow2_u32 v = 0.
Proof.
  assert (forall u, 0 < u < 2 ^ 32 -> u32 (v - 1) = u -> round_up_pow2_u32 v = u32 (2 ^ (Z.log2 u + 1))) as Hr.
  { intros u Hu Eu. unfold round_up_pow2_u32. rewrite Eu.
    assert (smeared 1 u u) as H1.
    { split; [lia|]. intros i Hi. split; [intros Hb; exists 0; by rewrite Z.add_0_r|].
      intros (j & Hj & Hb). replace (i + j) with i in Hb by lia. done. }
    apply (smear_step 1 2) in H1; [|done..]. apply (smear_step 2 4) in H1; [|done..].
    apply (smear_step 4 8) in H1; [|done..]. apply (smear_step 8 16) in H1; [|done..].
    apply (smear_step 16 32) in H1; [|done..].
    apply (smeared_ones u) in H1; [|done]. cbv zeta. rewrite H1, Z.ones_equiv. f_equal. lia. }
  destruct (Z.ltb_spec 0 v) as [H0|H0]; simpl; [|by replace v with 0 by lia].
  destruct (Z.eq_dec v 1) as [->|H1].
  { exists 0. split_and!; [lia|lia|done|lia|lia]. }
  pose proof (Hr (v - 1) ltac:(lia) ltac:(apply u32_small; lia)) as Er.
  pose proof (Z.log2_spec (v - 1) ltac:(lia)) as [Hlo Hhi]. rewrite <- Z.add_1_r in Hhi.
  pose proof (Z.log2_nonneg (v - 1)) as Hnn. destruct (Z.leb_spec v (2 ^ 31)) as [Hle|Hgt].
  - exists (Z.log2 (v - 1) + 1). assert (Z.log2 (v - 1) < 31) by (apply Z.log2_lt_pow2; lia).
    assert (2 ^ (Z.log2 (v - 1) + 1) < 2 ^ 32) by (apply Z.pow_lt_mono_r; lia).
    rewrite Er, u32_small by lia. split_and!; [lia|lia|done|lia|].
    intros m Hm Hv2. apply Z.nlt_ge. intros Hlt.
    assert (2 ^ m <= 2 ^ Z.log2 (v - 1)) by (apply Z.pow_le_mono_r; lia). lia.
  - assert (Z.log2 (v - 1) = 31) as E by (apply Z.log2_unique; lia). by rewrite Er, E.
Qed.

Lemma round_up_pow2_least_witness : exists n, 0 <= n < 32 /\ round_up_pow2_u32 1000 = 2 ^ n /\ 1000 <= 2 ^ n.
Proof.
  destruct (round_up_pow2_least 1000 ltac:(lia)) as (n & Hn & Hr & Hle & _). exists n. split; [exact Hn|]. split; [exact Hr|exact Hle].
Defined.
