(* ===== verification/ListNode.v ===== *)
(** * Intrusive doubly-linked lists ([top/include/lk/list.h])

    [Nodes] is the pointer code of list.h on an explicit heap of [prev]/[next]
    pairs.  [Family] is what the rest of the kernel relies on: a family of
    sequences, one per list head, in which a node occurs at most once.  The
    refinement theorem at the end states that every operation of list.h, run on
    a heap that represents a family, does what the operation on the family
    does. *)

From stdpp Require Import base gmap list fin_maps.
From S2P Require Import Prelude.

(** ** The abstract view: a family of sequences *)
Module Family.
Section family.
Context {K N : Type} `{Countable K} `{Countable N}.
Implicit Types (F : gmap K (list N)) (k : K) (n : N).

Definition fq F k : list N := default [] (F !! k).
Definition add_head k n F : gmap K (list N) := <[k := n :: fq F k]> F.
Definition add_tail k n F : gmap K (list N) := <[k := fq F k ++ [n]]> F.
Definition del n F : gmap K (list N) := filter (fun m => m <> n) <$> F.
Definition in_list n F : bool := bool_decide (map_Exists (fun _ l => n ∈ l) F).

(** Every node is in at most one list, and there once. *)
Record wf F : Prop := {
  wf_nodup : forall k, NoDup (fq F k);
  wf_one : forall k k' n, n ∈ fq F k -> n ∈ fq F k' -> k = k' }.

Lemma in_list_spec n F : in_list n F = true <-> exists k, n ∈ fq F k.
Proof.
  unfold in_list. rewrite bool_decide_eq_true, map_Exists_lookup. unfold fq. split.
  - intros (k & l & Hk & Hn). exists k. by rewrite Hk.
  - intros (k & Hn). destruct (F !! k) as [l|] eqn:E; [eauto|]. by apply elem_of_nil in Hn.
Qed.

Lemma in_list_false n F : in_list n F = false <-> forall k, n ∉ fq F k.
Proof.
  rewrite <- not_true_iff_false, in_list_spec. naive_solver.
Qed.

Lemma fq_insert k k' l F : fq (<[k := l]> F) k' = if decide (k = k') then l else fq F k'.
Proof. unfold fq. rewrite lookup_insert. by case_decide. Qed.

Lemma fq_add_head k k' n F :
  fq (add_head k n F) k' = if decide (k = k') then n :: fq F k' else fq F k'.
Proof. unfold add_head. rewrite fq_insert. case_decide; by subst. Qed.

Lemma fq_add_tail k k' n F :
  fq (add_tail k n F) k' = if decide (k = k') then fq F k' ++ [n] else fq F k'.
Proof. unfold add_tail. rewrite fq_insert. case_decide; by subst. Qed.

Lemma fq_del k n F : fq (del n F) k = filter (fun m => m <> n) (fq F k).
Proof. unfold fq, del. rewrite lookup_fmap. by destruct (F !! k). Qed.

Lemma elem_of_fq_del k n m F : m ∈ fq (del n F) k <-> m <> n /\ m ∈ fq F k.
Proof. rewrite fq_del, list_elem_of_filter. done. Qed.

Lemma filter_notin (l : list N) n : n ∉ l -> filter (fun m => m <> n) l = l.
Proof.
  induction l as [|x l IH]; intros Hn; [done|].
  rewrite filter_cons_True by set_solver. f_equal. apply IH. set_solver.
Qed.

Lemma fq_del_mid k n F l1 l2 :
  wf F -> fq F k = l1 ++ n :: l2 -> fq (del n F) k = l1 ++ l2.
Proof.
  intros [Hnd _] E. rewrite fq_del, E. specialize (Hnd k). rewrite E in Hnd.
  apply NoDup_app in Hnd as (? & Hd & [Hn ?]%NoDup_cons).
  rewrite filter_app, filter_cons_False by naive_solver.
  rewrite !filter_notin; set_solver.
Qed.

Lemma fq_del_other k n F : n ∉ fq F k -> fq (del n F) k = fq F k.
Proof. intros. rewrite fq_del. by apply filter_notin. Qed.

Lemma wf_empty : wf ∅.
Proof. split; intros; unfold fq in *; rewrite lookup_empty in *; simpl in *; [constructor|set_solver]. Qed.

Lemma wf_add_head k n F : wf F -> in_list n F = false -> wf (add_head k n F).
Proof.
  intros [Hnd Hone] Hn. rewrite in_list_false in Hn. split.
  - intros k'. rewrite fq_add_head. case_decide; [constructor|]; auto.
  - intros k1 k2 m. rewrite !fq_add_head. repeat case_decide; set_solver.
Qed.

Lemma wf_add_tail k n F : wf F -> in_list n F = false -> wf (add_tail k n F).
Proof.
  intros [Hnd Hone] Hn. rewrite in_list_false in Hn. split.
  - intros k'. rewrite fq_add_tail. case_decide; [|done].
    apply NoDup_app. split_and!; [done|set_solver|apply NoDup_singleton].
  - intros k1 k2 m. rewrite !fq_add_tail. repeat case_decide; set_solver.
Qed.

Lemma wf_del n F : wf F -> wf (del n F).
Proof.
  intros [Hnd Hone]. split.
  - intros k. rewrite fq_del. by apply NoDup_filter.
  - intros k1 k2 m. rewrite !elem_of_fq_del. naive_solver.
Qed.

Lemma del_notin n F : in_list n F = false -> del n F = F.
Proof.
  intros E. rewrite in_list_false in E. apply map_eq. intros k. unfold del. rewrite lookup_fmap.
  specialize (E k). unfold fq in E. destruct (F !! k); [|done]. simpl. f_equal. by apply filter_notin.
Qed.

Lemma in_list_del n F : in_list n (del n F) = false.
Proof. apply in_list_false. intros k. rewrite elem_of_fq_del. naive_solver. Qed.

Lemma in_list_del_other n m F : m <> n -> in_list m (del n F) = in_list m F.
Proof.
  intros Hne. apply eq_bool_prop_intro. rewrite !Is_true_true, !in_list_spec.
  setoid_rewrite elem_of_fq_del. naive_solver.
Qed.

Lemma in_list_add_head k n m F : in_list m (add_head k n F) = bool_decide (m = n) || in_list m F.
Proof.
  apply eq_bool_prop_intro. rewrite !Is_true_true, orb_true_iff, !in_list_spec, bool_decide_eq_true.
  setoid_rewrite fq_add_head. split.
  - intros [k' Hm]. case_decide; set_solver.
  - intros [->|[k' Hm]]; [exists k; rewrite decide_True by done; set_solver|].
    exists k'. case_decide; set_solver.
Qed.

Lemma in_list_add_tail k n m F : in_list m (add_tail k n F) = bool_decide (m = n) || in_list m F.
Proof.
  apply eq_bool_prop_intro. rewrite !Is_true_true, orb_true_iff, !in_list_spec, bool_decide_eq_true.
  setoid_rewrite fq_add_tail. split.
  - intros [k' Hm]. case_decide; set_solver.
  - intros [->|[k' Hm]]; [exists k; rewrite decide_True by done; set_solver|].
    exists k'. case_decide; set_solver.
Qed.
Lemma fq_Some F k l : F !! k = Some l -> fq F k = l.
Proof. unfold fq. by intros ->. Qed.

Lemma fq_lookup F k l : fq F k = l -> l <> [] -> F !! k = Some l.
Proof. unfold fq. by destruct (F !! k); intros <-. Qed.

Lemma wf_insert F k l1 l2 n :
  wf F -> fq F k = l1 ++ l2 -> in_list n F = false -> wf (<[k := l1 ++ n :: l2]> F).
Proof.
  intros [Hnd Hone] Eq Hn. rewrite in_list_false in Hn.
  assert (forall k' m, m ∈ fq (<[k := l1 ++ n :: l2]> F) k' -> m = n /\ k' = k \/ m ∈ fq F k') as Hin.
  { intros k' m. rewrite fq_insert. case_decide; [subst k'|by right].
    rewrite Eq. set_solver +. }
  split.
  - intros k'. rewrite fq_insert. case_decide; [|done]. subst k'. specialize (Hnd k).
    rewrite Eq in Hnd. rewrite <- Permutation_middle. constructor; [|done]. rewrite <- Eq. apply Hn.
  - intros k1 k2 m [[-> ->]|H1]%Hin [[? ->]|H2]%Hin; simplify_eq; try done.
    + by destruct (Hn k2).
    + by destruct (Hn k1).
    + by apply (Hone k1 k2 m).
Qed.

(** [list_add_before(entry, new)] and [list_add_after(entry, new)] name an entry
    and not a list: the entry's list is the one that changes. *)
Fixpoint ins_before (e n : N) (l : list N) : list N :=
  match l with
  | [] => []
  | x :: l => if decide (x = e) then n :: x :: l else x :: ins_before e n l
  end.

Fixpoint ins_after (e n : N) (l : list N) : list N :=
  match l with
  | [] => []
  | x :: l => if decide (x = e) then x :: n :: l else x :: ins_after e n l
  end.

Definition add_before (e n : N) F : gmap K (list N) := ins_before e n <$> F.
Definition add_after (e n : N) F : gmap K (list N) := ins_after e n <$> F.

Lemma ins_before_notin e n l : e ∉ l -> ins_before e n l = l.
Proof.
  induction l as [|x l IH]; intros He; [done|]. simpl. rewrite decide_False by set_solver.
  f_equal. set_solver.
Qed.

Lemma ins_after_notin e n l : e ∉ l -> ins_after e n l = l.
Proof.
  induction l as [|x l IH]; intros He; [done|]. simpl. rewrite decide_False by set_solver.
  f_equal. set_solver.
Qed.

Lemma ins_before_mid e n l1 l2 :
  e ∉ l1 -> ins_before e n (l1 ++ e :: l2) = l1 ++ n :: e :: l2.
Proof.
  induction l1 as [|x l1 IH]; intros He; simpl.
  - by rewrite decide_True.
  - rewrite decide_False by set_solver. f_equal. set_solver.
Qed.

Lemma ins_after_mid e n l1 l2 :
  e ∉ l1 -> ins_after e n (l1 ++ e :: l2) = l1 ++ e :: n :: l2.
Proof.
  induction l1 as [|x l1 IH]; intros He; simpl.
  - by rewrite decide_True.
  - rewrite decide_False by set_solver. f_equal. set_solver.
Qed.

(** In a well-formed family an operation on an entry changes one list. *)
Lemma add_before_insert e n k l1 l2 F :
  wf F -> F !! k = Some (l1 ++ e :: l2) ->
  add_before e n F = <[k := l1 ++ n :: e :: l2]> F.
Proof.
  intros [Hnd Hone] Hk. assert (fq F k = l1 ++ e :: l2) as Ek by (unfold fq; by rewrite Hk).
  pose proof (Hnd k) as Hndk. rewrite Ek in Hndk. apply NoDup_app in Hndk as (_ & Hd & _).
  apply map_eq. intros k'. unfold add_before. rewrite lookup_fmap, lookup_insert.
  case_decide as Hkk.
  - subst k'. rewrite Hk. simpl. f_equal. apply ins_before_mid. set_solver.
  - destruct (F !! k') as [l|] eqn:E'; [|done]. simpl. f_equal. apply ins_before_notin.
    intros He. apply Hkk, (Hone k k' e); unfold fq; [rewrite Hk|rewrite E']; set_solver.
Qed.

Lemma add_after_insert e n k l1 l2 F :
  wf F -> F !! k = Some (l1 ++ e :: l2) ->
  add_after e n F = <[k := l1 ++ e :: n :: l2]> F.
Proof.
  intros [Hnd Hone] Hk. assert (fq F k = l1 ++ e :: l2) as Ek by (unfold fq; by rewrite Hk).
  pose proof (Hnd k) as Hndk. rewrite Ek in Hndk. apply NoDup_app in Hndk as (_ & Hd & _).
  apply map_eq. intros k'. unfold add_after. rewrite lookup_fmap, lookup_insert.
  case_decide as Hkk.
  - subst k'. rewrite Hk. simpl. f_equal. apply ins_after_mid. set_solver.
  - destruct (F !! k') as [l|] eqn:E'; [|done]. simpl. f_equal. apply ins_after_notin.
    intros He. apply Hkk, (Hone k k' e); unfold fq; [rewrite Hk|rewrite E']; set_solver.
Qed.

Lemma del_insert n k l1 l2 F :
  wf F -> F !! k = Some (l1 ++ n :: l2) -> del n F = <[k := l1 ++ l2]> F.
Proof.
  intros Hwf Hk. assert (fq F k = l1 ++ n :: l2) as Ek by (unfold fq; by rewrite Hk).
  apply map_eq. intros k'. unfold del. rewrite lookup_fmap, lookup_insert.
  case_decide as Hkk.
  - subst k'. rewrite Hk. simpl. f_equal.
    pose proof (fq_del_mid k n F l1 l2 Hwf Ek) as Hd. by rewrite fq_del, Ek in Hd.
  - destruct (F !! k') as [l|] eqn:E'; [|done]. simpl. f_equal. apply filter_notin.
    intros He. apply Hkk, (wf_one F Hwf k k' n); unfold fq; [rewrite Hk|rewrite E']; set_solver.
Qed.
End family.
End Family.

(** ** The pointer code *)
Module Nodes.
Section nodes.
Context {K N : Type} `{Countable K} `{Countable N}.

(** An address is a list head or the [list_node] member of an object. *)
Inductive addr := AHead (k : K) | ANode (n : N).

#[global] Instance addr_eq_dec : EqDecision addr.
Proof. solve_decision. Defined.

#[global] Instance addr_countable : Countable addr.
Proof.
  refine (inj_countable'
    (fun a => match a with AHead k => inl k | ANode n => inr n end)
    (fun s => match s with inl k => AHead k | inr n => ANode n end) _).
  by intros [].
Defined.

Record list_node := LN { prev : option addr; next : option addr }.

Implicit Types (h : gmap addr list_node) (a b x item entry : addr).

Definition get_prev a h : option (option addr) := prev <$> h !! a.
Definition get_next a h : option (option addr) := next <$> h !! a.
Definition set_prev a (v : option addr) h : option (gmap addr list_node) :=
  nd ← h !! a; Some (<[a := LN v (next nd)]> h).
Definition set_next a (v : option addr) h : option (gmap addr list_node) :=
  nd ← h !! a; Some (<[a := LN (prev nd) v]> h).

Definition list_initialize (list : addr) h : option (gmap addr list_node) :=
  h ← set_next list (Some list) h; set_prev list (Some list) h.

Definition list_clear_node item h : option (gmap addr list_node) :=
  h ← set_next item None h; set_prev item None h.

Definition list_in_list item h : option bool :=
  p ← get_prev item h; n ← get_next item h;
  Some (negb (bool_decide (p = None) && bool_decide (n = None))).

Definition list_add_head (list item : addr) h : option (gmap addr list_node) :=
  n ← get_next list h; h ← set_next item n h;
  h ← set_prev item (Some list) h;
  n ← get_next list h; f ← n; h ← set_prev f (Some item) h;
  set_next list (Some item) h.

Definition list_add_after (entry new_entry : addr) h := list_add_head entry new_entry h.

Definition list_add_tail (list item : addr) h : option (gmap addr list_node) :=
  p ← get_prev list h; h ← set_prev item p h;
  h ← set_next item (Some list) h;
  p ← get_prev list h; l ← p; h ← set_next l (Some item) h;
  set_prev list (Some item) h.

Definition list_add_before (entry new_entry : addr) h := list_add_tail entry new_entry h.

Definition list_delete item h : option (gmap addr list_node) :=
  n ← get_next item h; p ← get_prev item h; f ← n; h ← set_prev f p h;
  p ← get_prev item h; n ← get_next item h; l ← p; h ← set_next l n h;
  h ← set_next item None h; set_prev item None h.

Definition list_remove_head (list : addr) h : option (option addr * gmap addr list_node) :=
  n ← get_next list h;
  if decide (n <> Some list) then item ← n; h ← list_delete item h; Some (Some item, h)
  else Some (None, h).

Definition list_remove_tail (list : addr) h : option (option addr * gmap addr list_node) :=
  p ← get_prev list h;
  if decide (p <> Some list) then item ← p; h ← list_delete item h; Some (Some item, h)
  else Some (None, h).

Definition list_peek_head (list : addr) h : option (option addr) :=
  n ← get_next list h; Some (if decide (n <> Some list) then n else None).

Definition list_peek_tail (list : addr) h : option (option addr) :=
  p ← get_prev list h; Some (if decide (p <> Some list) then p else None).

Definition list_prev (list item : addr) h : option (option addr) :=
  p ← get_prev item h; Some (if decide (p <> Some list) then p else None).

Definition list_next (list item : addr) h : option (option addr) :=
  n ← get_next item h; Some (if decide (n <> Some list) then n else None).

Definition list_prev_wrap (list item : addr) h : option (option addr) :=
  p ← get_prev item h;
  if decide (p <> Some list) then Some p
  else l ← p; pp ← get_prev l h; Some (if decide (pp <> Some list) then pp else None).

Definition list_next_wrap (list item : addr) h : option (option addr) :=
  n ← get_next item h;
  if decide (n <> Some list) then Some n
  else l ← n; nn ← get_next l h; Some (if decide (nn <> Some list) then nn else None).

Definition list_is_empty (list : addr) h : option bool :=
  n ← get_next list h; Some (bool_decide (n = Some list)).

(** [list_for_every]: the nodes visited, in order.  The loop bound is an
    argument; [for_every_complete] shows that the length of the list is
    enough. *)
Fixpoint for_every_from (fuel : nat) (list : addr) (node : option addr) h :
    option (Datatypes.list addr) :=
  a ← node;
  if decide (a = list) then Some []
  else match fuel with
       | O => None
       | S fuel => n ← get_next a h; rest ← for_every_from fuel list n h; Some (a :: rest)
       end.

Definition list_for_every (fuel : nat) (list : addr) h : option (Datatypes.list addr) :=
  n ← get_next list h; for_every_from fuel list n h.

Definition list_length (fuel : nat) (list : addr) h : option nat :=
  length <$> list_for_every fuel list h.
End nodes.
Arguments addr : clear implicits.
Arguments list_node : clear implicits.
End Nodes.

(** ** Representation and refinement *)
Module Refine.
Import Family Nodes.
Section refine.
Context {K N : Type} `{Countable K} `{Countable N}.
Implicit Types (h : gmap (addr K N) (list_node K N)) (F : gmap K (list N)).
Implicit Types (a b c x item : addr K N) (n m e : N) (k : K).

Definition next_of h a : option (addr K N) := h !! a ≫= next.
Definition prev_of h a : option (addr K N) := h !! a ≫= prev.
Definition linked h a b : Prop := next_of h a = Some b /\ prev_of h b = Some a.

(** The nodes from [a] through [xs] to [b], linked both ways. *)
Fixpoint seg h a (xs : list (addr K N)) b : Prop :=
  match xs with
  | [] => linked h a b
  | x :: xs => linked h a x /\ seg h x xs b
  end.

Definition nodes (l : list N) : list (addr K N) := ANode <$> l.

(** A heap represents a family when every list is a ring through its head and
    the nodes of no list have null links, which is what [list_in_list] tests. *)
Record rep h F : Prop := {
  rep_wf : wf F;
  rep_ring : forall k l, F !! k = Some l -> seg h (AHead k) (nodes l) (AHead k);
  rep_clear : forall n nd, h !! ANode n = Some nd -> in_list n F = false -> nd = LN None None }.

Definition lst a (xs : list (addr K N)) : addr K N := default a (last xs).
Definition hd b (xs : list (addr K N)) : addr K N := default b (head xs).

(** What inserting [x] between the neighbours [a] and [b] does to the heap. *)
Record link_in h h' a b x : Prop := {
  li_a : next_of h' a = Some x;
  li_xp : prev_of h' x = Some a;
  li_xn : next_of h' x = Some b;
  li_b : prev_of h' b = Some x;
  li_next : forall c, c <> a -> c <> x -> next_of h' c = next_of h c;
  li_prev : forall c, c <> b -> c <> x -> prev_of h' c = prev_of h c;
  li_same : forall c, c <> a -> c <> b -> c <> x -> h' !! c = h !! c }.

(** What taking [x] out from between [a] and [b] does. *)
Record link_out h h' a b x : Prop := {
  lo_a : next_of h' a = Some b;
  lo_b : prev_of h' b = Some a;
  lo_x : h' !! x = Some (LN None None);
  lo_next : forall c, c <> a -> c <> x -> next_of h' c = next_of h c;
  lo_prev : forall c, c <> b -> c <> x -> prev_of h' c = prev_of h c;
  lo_same : forall c, c <> a -> c <> b -> c <> x -> h' !! c = h !! c }.

Lemma seg_frame h h' a xs b :
  (forall c, c ∈ a :: xs -> next_of h' c = next_of h c) ->
  (forall c, c ∈ xs ++ [b] -> prev_of h' c = prev_of h c) ->
  seg h a xs b -> seg h' a xs b.
Proof.
  revert a. induction xs as [|x xs IH]; simpl; intros a Hn Hp.
  - intros [??]. split; [rewrite Hn|rewrite Hp]; set_solver.
  - intros [[??] ?]. split; [split; [rewrite Hn|rewrite Hp]; set_solver|].
    apply IH; set_solver.
Qed.

Lemma lst_cons a x xs : lst a (x :: xs) = lst x xs.
Proof. unfold lst. rewrite last_cons. by destruct (last xs). Qed.

Lemma lst_elem a xs : lst a xs ∈ a :: xs.
Proof.
  unfold lst. destruct (last xs) as [c|] eqn:E; simpl; [|set_solver].
  apply last_Some_elem_of in E. set_solver.
Qed.

Lemma hd_elem b xs : hd b xs ∈ xs ++ [b].
Proof. destruct xs; set_solver. Qed.

(** The neighbours at a cut of a segment are linked. *)
Lemma seg_cut h a l1 l2 b : seg h a (l1 ++ l2) b -> linked h (lst a l1) (hd b l2).
Proof.
  revert a. induction l1 as [|x l1 IH]; simpl; intros a.
  - destruct l2; simpl; naive_solver.
  - intros [_ ?]. rewrite lst_cons. auto.
Qed.

Lemma seg_insert h h' a l1 l2 b x :
  NoDup (a :: l1 ++ l2) -> b ∉ l1 ++ l2 -> x ∉ a :: l1 ++ l2 -> x <> b ->
  seg h a (l1 ++ l2) b -> link_in h h' (lst a l1) (hd b l2) x ->
  seg h' a (l1 ++ x :: l2) b.
Proof.
  revert a. induction l1 as [|y l1 IH]; intros a Hnd Hb Hx Hxb Hs Hli.
  - simpl in *. destruct Hli as [L1 L2 L3 L4 L5 L6 L7]. split; [done|].
    destruct l2 as [|c l2]; simpl in *; [done|]. destruct Hs as [_ Hs]. split; [done|].
    apply NoDup_cons in Hnd as [Ha [Hc _]%NoDup_cons].
    apply (seg_frame h); [| |done]; intros d Hd.
    + apply L5; [set_solver +Hd Ha|set_solver +Hd Hx].
    + apply L6; [set_solver +Hd Hc Hb|set_solver +Hd Hx Hxb].
  - simpl in *. destruct Hs as [[Ha Hy] Hs]. rewrite lst_cons in Hli.
    apply NoDup_cons in Hnd as [Han Hnd].
    assert (lst y l1 ∈ y :: l1) as Hl by apply lst_elem.
    assert (hd b l2 ∈ l2 ++ [b]) as Hh by apply hd_elem.
    pose proof Hnd as [Hyn _]%NoDup_cons.
    split; [split|].
    + rewrite (li_next _ _ _ _ _ Hli); [done|set_solver +Hl Han|set_solver +Hx].
    + rewrite (li_prev _ _ _ _ _ Hli); [done|set_solver +Hh Hyn Hb|set_solver +Hx].
    + apply IH; try done; [set_solver +Hb|set_solver +Hx].
Qed.

Lemma seg_remove h h' a l1 l2 b x :
  NoDup (a :: l1 ++ x :: l2) -> b ∉ l1 ++ x :: l2 ->
  seg h a (l1 ++ x :: l2) b -> link_out h h' (lst a l1) (hd b l2) x ->
  seg h' a (l1 ++ l2) b.
Proof.
  revert a. induction l1 as [|y l1 IH]; intros a Hnd Hb Hs Hlo.
  - simpl in *. destruct Hlo as [L1 L2 _ L5 L6 L7]. destruct Hs as [_ Hs].
    destruct l2 as [|c l2]; simpl in *; [done|]. destruct Hs as [_ Hs]. split; [done|].
    apply NoDup_cons in Hnd as [Ha [Hx [Hc _]%NoDup_cons]%NoDup_cons].
    apply (seg_frame h); [| |done]; intros d Hd.
    + apply L5; [set_solver +Hd Ha|set_solver +Hd Hx].
    + apply L6; [set_solver +Hd Hc Hb|set_solver +Hd Hx Hb].
  - simpl in *. destruct Hs as [[Ha Hy] Hs]. rewrite lst_cons in Hlo.
    apply NoDup_cons in Hnd as [Han Hnd].
    assert (lst y l1 ∈ y :: l1) as Hl by apply lst_elem.
    assert (hd b l2 ∈ l2 ++ [b]) as Hh by apply hd_elem.
    pose proof Hnd as [Hyn _]%NoDup_cons.
    split; [split|].
    + rewrite (lo_next _ _ _ _ _ Hlo); [done|set_solver +Hl Han|set_solver +Han].
    + rewrite (lo_prev _ _ _ _ _ Hlo); [done|set_solver +Hh Hyn Hb|set_solver +Hyn].
    + apply IH; try done. set_solver +Hb.
Qed.
(** *** The stores of the insertions and of [list_delete] *)

Lemma next_of_insert h c d nd : next_of (<[c := nd]> h) d = if decide (c = d) then next nd else next_of h d.
Proof. unfold next_of. rewrite lookup_insert. by case_decide. Qed.

Lemma prev_of_insert h c d nd : prev_of (<[c := nd]> h) d = if decide (c = d) then prev nd else prev_of h d.
Proof. unfold prev_of. rewrite lookup_insert. by case_decide. Qed.

Lemma linked_Some h a b : linked h a b -> exists p q, h !! a = Some (LN p (Some b)) /\ h !! b = Some (LN (Some a) q).
Proof.
  unfold linked, next_of, prev_of. destruct (h !! a) as [[p ?]|], (h !! b) as [[? n]|]; simpl;
    intros [??]; try done. simplify_eq. eauto.
Qed.

Ltac heap_step :=
  repeat (unfold list_add_head, list_add_tail, list_delete, get_next, get_prev, set_next, set_prev;
          simpl; rewrite ?lookup_insert_eq, ?lookup_insert_ne by congruence; simpl; simplify_map_eq).

Ltac heap_goal :=
  intros; rewrite ?next_of_insert, ?prev_of_insert, ?lookup_insert; repeat case_decide; simpl;
  try congruence; unfold next_of, prev_of; simplify_map_eq; done.

Lemma list_add_head_stores h a b x :
  linked h a b -> is_Some (h !! x) -> x <> a -> x <> b ->
  exists h', list_add_head a x h = Some h' /\ link_in h h' a b x.
Proof.
  intros (p & n & Ha & Hb)%linked_Some [xd Hx] Hxa Hxb.
  destruct (decide (a = b)) as [<-|Hab].
  - simplify_eq. heap_step. eexists. split; [done|]. split; heap_goal.
  - heap_step. eexists. split; [done|]. split; heap_goal.
Qed.

Lemma list_add_tail_stores h a b x :
  linked h a b -> is_Some (h !! x) -> x <> a -> x <> b ->
  exists h', list_add_tail b x h = Some h' /\ link_in h h' a b x.
Proof.
  intros (p & n & Ha & Hb)%linked_Some [xd Hx] Hxa Hxb.
  destruct (decide (a = b)) as [<-|Hab].
  - simplify_eq. heap_step. eexists. split; [done|]. split; heap_goal.
  - heap_step. eexists. split; [done|]. split; heap_goal.
Qed.

Lemma list_delete_stores h a b x :
  linked h a x -> linked h x b -> x <> a -> x <> b ->
  exists h', list_delete x h = Some h' /\ link_out h h' a b x.
Proof.
  intros (p & n & Ha & Hx)%linked_Some (p' & n' & Hx' & Hb)%linked_Some Hxa Hxb. simplify_eq.
  destruct (decide (a = b)) as [<-|Hab].
  - simplify_eq. heap_step. eexists. split; [done|]. split; heap_goal.
  - heap_step. eexists. split; [done|]. split; heap_goal.
Qed.
(** *** Insertion and removal on a represented family *)

Definition cyc k (l : list N) : list (addr K N) := AHead k :: nodes l.

Lemma elem_of_cyc k l c : c ∈ cyc k l <-> c = AHead k \/ exists m, c = ANode m /\ m ∈ l.
Proof. unfold cyc, nodes. rewrite elem_of_cons, list_elem_of_fmap. naive_solver. Qed.

Lemma lst_cyc k l1 l2 : lst (AHead k) (nodes l1) ∈ cyc k (l1 ++ l2).
Proof.
  pose proof (lst_elem (AHead k) (nodes l1)) as Hl. unfold cyc, nodes in *.
  rewrite fmap_app. set_solver +Hl.
Qed.

Lemma hd_cyc k l1 l2 : hd (AHead k) (nodes l2) ∈ cyc k (l1 ++ l2).
Proof.
  pose proof (hd_elem (AHead k) (nodes l2)) as Hl. unfold cyc, nodes in *.
  rewrite fmap_app. set_solver +Hl.
Qed.

Lemma nodup_cyc k l : NoDup l -> NoDup (cyc k l).
Proof.
  intros Hnd. unfold cyc, nodes. constructor.
  - rewrite list_elem_of_fmap. naive_solver.
  - apply NoDup_fmap; [|done]. intros ??; congruence.
Qed.

Lemma head_notin_nodes k l : AHead k ∉ nodes l.
Proof. unfold nodes. rewrite list_elem_of_fmap. naive_solver. Qed.

Lemma cyc_disjoint F k l k' l' c :
  wf F -> F !! k = Some l -> F !! k' = Some l' -> k <> k' ->
  c ∈ cyc k l -> c ∈ cyc k' l' -> False.
Proof.
  intros Hwf Hk%fq_Some Hk'%fq_Some Hne. rewrite !elem_of_cyc.
  intros [->|(m & -> & Hm)] [?|(m' & ? & Hm')]; simplify_eq.
  by eapply Hne, (wf_one F Hwf k k' m').
Qed.

Lemma cyc_in_list F k l m : F !! k = Some l -> ANode m ∈ cyc k l -> in_list m F = true.
Proof.
  intros Hk Hm. apply in_list_spec. exists k. rewrite (fq_Some F k l Hk).
  apply elem_of_cyc in Hm as [?|(m' & ? & ?)]; by simplify_eq.
Qed.

(** A ring away from the touched nodes stays a ring. *)
Lemma ring_frame h h' k l :
  (forall c, c ∈ cyc k l -> h' !! c = h !! c) ->
  seg h (AHead k) (nodes l) (AHead k) -> seg h' (AHead k) (nodes l) (AHead k).
Proof.
  intros Hsame. apply seg_frame; intros c Hc; unfold next_of, prev_of; rewrite Hsame; try done.
  unfold cyc. set_solver +Hc.
Qed.

Lemma rep_insert h h' F k l1 l2 n :
  rep h F -> F !! k = Some (l1 ++ l2) -> in_list n F = false ->
  link_in h h' (lst (AHead k) (nodes l1)) (hd (AHead k) (nodes l2)) (ANode n) ->
  rep h' (<[k := l1 ++ n :: l2]> F).
Proof.
  intros [Hwf Hring Hclr] Hk Hn Hli.
  assert (ANode n ∉ cyc k (l1 ++ l2)) as Hnc.
  { intros Hc. by rewrite (cyc_in_list _ _ _ _ Hk Hc) in Hn. }
  assert (NoDup (cyc k (l1 ++ l2))) as Hnd.
  { apply nodup_cyc. rewrite <- (fq_Some _ _ _ Hk). by apply wf_nodup. }
  pose proof (lst_cyc k l1 l2) as Hl. pose proof (hd_cyc k l1 l2) as Hh.
  split.
  - apply wf_insert; try done. by apply fq_Some.
  - intros k' l'. rewrite lookup_insert. case_decide as Hkk.
    + intros [= <-]. subst k'. unfold nodes in *. rewrite fmap_app, fmap_cons.
      unfold cyc, nodes in Hnc, Hnd. rewrite fmap_app in Hnc, Hnd.
      pose proof (Hring _ _ Hk) as Hs. unfold nodes in Hs. rewrite fmap_app in Hs.
      apply (seg_insert h); try done.
      rewrite <- fmap_app. apply head_notin_nodes.
    + intros Hk'. apply (ring_frame h); [|by apply Hring].
      intros c Hc. apply (li_same _ _ _ _ _ Hli).
      * intros ->. by apply (cyc_disjoint F k (l1 ++ l2) k' l' _ Hwf Hk Hk' Hkk Hl).
      * intros ->. by apply (cyc_disjoint F k (l1 ++ l2) k' l' _ Hwf Hk Hk' Hkk Hh).
      * intros ->. by rewrite (cyc_in_list _ _ _ _ Hk' Hc) in Hn.
  - intros m nd Hm Hmn. rewrite in_list_false in Hmn.
    assert (m <> n) as Hmne. { specialize (Hmn k). rewrite fq_insert, decide_True in Hmn by done. set_solver +Hmn. }
    assert (in_list m F = false) as HmF.
    { rewrite in_list_false. intros k' Hk'. specialize (Hmn k'). rewrite fq_insert in Hmn.
      case_decide; [subst k'|done]. rewrite (fq_Some _ _ _ Hk) in Hk'. set_solver +Hk' Hmn. }
    apply (Hclr m); [|done]. rewrite <- Hm. symmetry. apply (li_same _ _ _ _ _ Hli); [| |congruence].
    + intros E. rewrite <- E in Hl. by rewrite (cyc_in_list _ _ _ _ Hk Hl) in HmF.
    + intros E. rewrite <- E in Hh. by rewrite (cyc_in_list _ _ _ _ Hk Hh) in HmF.
Qed.

Lemma rep_remove h h' F k l1 l2 n :
  rep h F -> F !! k = Some (l1 ++ n :: l2) ->
  link_out h h' (lst (AHead k) (nodes l1)) (hd (AHead k) (nodes l2)) (ANode n) ->
  rep h' (del n F).
Proof.
  intros [Hwf Hring Hclr] Hk Hlo.
  assert (NoDup (cyc k (l1 ++ n :: l2))) as Hnd.
  { apply nodup_cyc. rewrite <- (fq_Some _ _ _ Hk). by apply wf_nodup. }
  pose proof (lst_cyc k l1 (n :: l2)) as Hl.
  assert (hd (AHead k) (nodes l2) ∈ cyc k (l1 ++ n :: l2)) as Hh.
  { pose proof (hd_elem (AHead k) (nodes l2)) as Hl'. unfold cyc, nodes in *.
    rewrite fmap_app, fmap_cons. set_solver +Hl'. }
  assert (ANode n ∈ cyc k (l1 ++ n :: l2)) as Hnc.
  { apply elem_of_cyc. right. exists n. split; [done|]. set_solver +. }
  split.
  - by apply wf_del.
  - intros k' l'. rewrite (del_insert n k l1 l2) by done. rewrite lookup_insert. case_decide as Hkk.
    + intros [= <-]. subst k'. unfold nodes in *. rewrite fmap_app.
      unfold cyc, nodes in Hnd. rewrite fmap_app, fmap_cons in Hnd.
      pose proof (Hring _ _ Hk) as Hs. unfold nodes in Hs. rewrite fmap_app, fmap_cons in Hs.
      apply (seg_remove h _ _ _ _ _ (ANode n)); try done.
      rewrite <- fmap_cons, <- fmap_app. apply head_notin_nodes.
    + intros Hk'. apply (ring_frame h); [|by apply Hring].
      intros c Hc. apply (lo_same _ _ _ _ _ Hlo); intros ->.
      * by apply (cyc_disjoint F k _ k' l' _ Hwf Hk Hk' Hkk Hl).
      * by apply (cyc_disjoint F k _ k' l' _ Hwf Hk Hk' Hkk Hh).
      * by apply (cyc_disjoint F k _ k' l' _ Hwf Hk Hk' Hkk Hnc).
  - intros m nd Hm Hmn. destruct (decide (m = n)) as [->|Hne].
    { rewrite (lo_x _ _ _ _ _ Hlo) in Hm. congruence. }
    rewrite in_list_del_other in Hmn by done.
    apply (Hclr m); [|done]. rewrite <- Hm. symmetry. apply (lo_same _ _ _ _ _ Hlo); [| |congruence].
    + intros E. rewrite <- E in Hl. by rewrite (cyc_in_list _ _ _ _ Hk Hl) in Hmn.
    + intros E. rewrite <- E in Hh. by rewrite (cyc_in_list _ _ _ _ Hk Hh) in Hmn.
Qed.
(** *** Operations, on the heap and on the family *)

Inductive lop :=
| OAddHead (k : K) (n : N)
| OAddTail (k : K) (n : N)
| OAddBefore (e n : N)
| OAddAfter (e n : N)
| ODelete (n : N)
| ORemoveHead (k : K)
| ORemoveTail (k : K).

Definition conc_step (o : lop) h : option (option (addr K N) * gmap (addr K N) (list_node K N)) :=
  match o with
  | OAddHead k n => h ← list_add_head (AHead k) (ANode n) h; Some (None, h)
  | OAddTail k n => h ← list_add_tail (AHead k) (ANode n) h; Some (None, h)
  | OAddBefore e n => h ← list_add_before (ANode e) (ANode n) h; Some (None, h)
  | OAddAfter e n => h ← list_add_after (ANode e) (ANode n) h; Some (None, h)
  | ODelete n => h ← list_delete (ANode n) h; Some (None, h)
  | ORemoveHead k => list_remove_head (AHead k) h
  | ORemoveTail k => list_remove_tail (AHead k) h
  end.

(** The operation on the family is defined where the code may be called: an
    inserted node is in no list, a deleted one or an insertion point is in a
    list, and the list named exists. *)
Definition abs_step (o : lop) F : option (option N * gmap K (list N)) :=
  match o with
  | OAddHead k n =>
      if decide (is_Some (F !! k) /\ in_list n F = false) then Some (None, add_head k n F) else None
  | OAddTail k n =>
      if decide (is_Some (F !! k) /\ in_list n F = false) then Some (None, add_tail k n F) else None
  | OAddBefore e n =>
      if decide (in_list e F = true /\ in_list n F = false) then Some (None, add_before e n F) else None
  | OAddAfter e n =>
      if decide (in_list e F = true /\ in_list n F = false) then Some (None, add_after e n F) else None
  | ODelete n => if decide (in_list n F = true) then Some (None, del n F) else None
  | ORemoveHead k =>
      l ← F !! k; Some (match l with [] => (None, F) | n :: _ => (Some n, del n F) end)
  | ORemoveTail k =>
      l ← F !! k; Some (match last l with None => (None, F) | Some n => (Some n, del n F) end)
  end.

(** The node an operation inserts, which has to be allocated. *)
Definition inserted (o : lop) : option N :=
  match o with
  | OAddHead _ n | OAddTail _ n | OAddBefore _ n | OAddAfter _ n => Some n
  | _ => None
  end.

Lemma in_list_split F n : in_list n F = true -> exists k l1 l2, F !! k = Some (l1 ++ n :: l2).
Proof.
  intros [k Hn]%in_list_spec. unfold fq in Hn. destruct (F !! k) as [l|] eqn:E; [|set_solver +Hn].
  simpl in Hn. apply list_elem_of_split in Hn as (l1 & l2 & ->). eauto.
Qed.

Lemma ring_cut h F k l1 l2 :
  rep h F -> F !! k = Some (l1 ++ l2) ->
  linked h (lst (AHead k) (nodes l1)) (hd (AHead k) (nodes l2)).
Proof.
  intros Hr Hk. apply seg_cut. unfold nodes. rewrite <- fmap_app. by apply (rep_ring h F Hr).
Qed.

Lemma lst_snoc a xs x : lst a (xs ++ [x]) = x.
Proof. unfold lst. by rewrite last_snoc. Qed.

Lemma fresh_ne F k l1 l2 n :
  in_list n F = false -> F !! k = Some (l1 ++ l2) ->
  ANode n <> lst (AHead k) (nodes l1) /\ ANode n <> hd (AHead k) (nodes l2).
Proof.
  intros Hn Hk. split; intros E; rewrite (cyc_in_list _ _ _ n Hk) in Hn; try done;
    rewrite E; [apply lst_cyc|apply hd_cyc].
Qed.

(** Inserting after the node that ends [l1] with [list_add_head], or before the
    node that starts [l2] with [list_add_tail]. *)
Lemma add_head_at h F k l1 l2 n :
  rep h F -> F !! k = Some (l1 ++ l2) -> in_list n F = false -> is_Some (h !! ANode n) ->
  exists h', list_add_head (lst (AHead k) (nodes l1)) (ANode n) h = Some h' /\
             rep h' (<[k := l1 ++ n :: l2]> F).
Proof.
  intros Hr Hk Hn Ha. destruct (fresh_ne F k l1 l2 n Hn Hk).
  destruct (list_add_head_stores h _ _ (ANode n) (ring_cut h F k l1 l2 Hr Hk)) as (h' & ? & ?); try done.
  exists h'. split; [done|]. by apply (rep_insert h).
Qed.

Lemma add_tail_at h F k l1 l2 n :
  rep h F -> F !! k = Some (l1 ++ l2) -> in_list n F = false -> is_Some (h !! ANode n) ->
  exists h', list_add_tail (hd (AHead k) (nodes l2)) (ANode n) h = Some h' /\
             rep h' (<[k := l1 ++ n :: l2]> F).
Proof.
  intros Hr Hk Hn Ha. destruct (fresh_ne F k l1 l2 n Hn Hk).
  destruct (list_add_tail_stores h _ _ (ANode n) (ring_cut h F k l1 l2 Hr Hk)) as (h' & ? & ?); try done.
  exists h'. split; [done|]. by apply (rep_insert h).
Qed.

Lemma delete_at h F k l1 l2 n :
  rep h F -> F !! k = Some (l1 ++ n :: l2) ->
  exists h', list_delete (ANode n) h = Some h' /\ rep h' (del n F).
Proof.
  intros Hr Hk.
  assert (NoDup (cyc k (l1 ++ n :: l2))) as Hnd.
  { apply nodup_cyc. rewrite <- (fq_Some _ _ _ Hk). apply wf_nodup, Hr. }
  assert (linked h (ANode n) (hd (AHead k) (nodes l2))) as H2.
  { pose proof (ring_cut h F k (l1 ++ [n]) l2 Hr) as Hc. unfold nodes in Hc at 1.
    rewrite fmap_app in Hc. simpl in Hc. rewrite lst_snoc in Hc. apply Hc. by rewrite <- app_assoc. }
  pose proof (ring_cut h F k l1 (n :: l2) Hr Hk) as H1. simpl in H1.
  unfold cyc, nodes in Hnd. rewrite fmap_app, fmap_cons in Hnd.
  destruct (list_delete_stores h _ _ (ANode n) H1 H2) as (h' & ? & ?).
  - pose proof (lst_elem (AHead k) (nodes l1)) as Hl. unfold nodes in *.
    rewrite app_comm_cons in Hnd. apply NoDup_app in Hnd as (_ & Hd & _). set_solver +Hl Hd.
  - pose proof (hd_elem (AHead k) (nodes l2)) as Hh. unfold nodes in *.
    apply NoDup_cons in Hnd as [_ Hnd]. apply NoDup_app in Hnd as (_ & _ & [Hd _]%NoDup_cons).
    intros E. rewrite <- E in Hh. apply elem_of_app in Hh as [?|?%list_elem_of_singleton]; done.
  - exists h'. split; [done|]. by apply (rep_remove h _ F k l1 l2).
Qed.

Lemma next_head_rep h F k l :
  rep h F -> F !! k = Some l -> get_next (AHead k) h = Some (Some (hd (AHead k) (nodes l))).
Proof.
  intros Hr Hk. pose proof (ring_cut h F k [] l Hr Hk) as (p & q & Ha & _)%linked_Some.
  change (lst (AHead k) (nodes [])) with (@AHead K N k) in Ha.
  unfold get_next. by rewrite Ha.
Qed.

Lemma prev_head_rep h F k l :
  rep h F -> F !! k = Some l -> get_prev (AHead k) h = Some (Some (lst (AHead k) (nodes l))).
Proof.
  intros Hr Hk. rewrite <- (app_nil_r l) in Hk.
  pose proof (ring_cut h F k l [] Hr Hk) as (p & q & _ & Ha)%linked_Some.
  change (hd (AHead k) (nodes [])) with (@AHead K N k) in Ha.
  unfold get_prev. by rewrite Ha.
Qed.

Lemma lst_nodes_snoc a l n : lst a (nodes (l ++ [n])) = ANode n.
Proof. unfold nodes. rewrite fmap_app. apply lst_snoc. Qed.

Lemma hd_is_head k l : hd (AHead k) (nodes l) = AHead k <-> l = [].
Proof. destruct l; unfold hd; simpl; naive_solver. Qed.

Lemma lst_is_head k l : lst (AHead k) (nodes l) = AHead k <-> l = [].
Proof.
  destruct l as [|n l _] using rev_ind; [done|]. unfold nodes. rewrite fmap_app. simpl.
  rewrite lst_snoc. split; [done|]. by intros [_ ?]%app_nil.
Qed.

Lemma peek_head_rep h F k l :
  rep h F -> F !! k = Some l -> list_peek_head (AHead k) h = Some (ANode <$> head l).
Proof.
  intros Hr Hk. unfold list_peek_head. rewrite (next_head_rep h F k l) by done. cbn -[decide].
  destruct l; case_decide as Hd; by (done || destruct Hd).
Qed.

Lemma peek_tail_rep h F k l :
  rep h F -> F !! k = Some l -> list_peek_tail (AHead k) h = Some (ANode <$> last l).
Proof.
  intros Hr Hk. unfold list_peek_tail. rewrite (prev_head_rep h F k l) by done. cbn -[decide].
  destruct l as [|n l _] using rev_ind.
  - case_decide as Hd; by (done || destruct Hd).
  - rewrite decide_True.
    + by rewrite lst_nodes_snoc, last_snoc.
    + by intros [= [_ ?]%lst_is_head%app_nil].
Qed.

Lemma remove_head_rep h F k l :
  rep h F -> F !! k = Some l ->
  exists h', list_remove_head (AHead k) h = Some (ANode <$> head l, h') /\
             rep h' (match l with [] => F | n :: _ => del n F end).
Proof.
  intros Hr Hk. unfold list_remove_head. rewrite (next_head_rep h F k l) by done. cbn -[decide].
  destruct l as [|n l].
  - case_decide as Hd; [by destruct Hd|eauto].
  - rewrite decide_True by (by intros [= ]).
    destruct (delete_at h F k [] l n Hr Hk) as (h' & E & ?).
    change (hd (AHead k) (nodes (n :: l))) with (@ANode K N n). cbn. rewrite E. eauto.
Qed.

Lemma remove_tail_rep h F k l :
  rep h F -> F !! k = Some l ->
  exists h', list_remove_tail (AHead k) h = Some (ANode <$> last l, h') /\
             rep h' (match last l with None => F | Some n => del n F end).
Proof.
  intros Hr Hk. unfold list_remove_tail. rewrite (prev_head_rep h F k l) by done. cbn -[decide].
  destruct l as [|n l _] using rev_ind.
  - case_decide as Hd; [by destruct Hd|eauto].
  - rewrite decide_True by (by intros [= [_ ?]%lst_is_head%app_nil]).
    destruct (delete_at h F k l [] n Hr Hk) as (h' & E & ?).
    rewrite lst_nodes_snoc, last_snoc. simpl. rewrite E. eauto.
Qed.

Lemma abs_add_head F k n l :
  F !! k = Some l -> add_head k n F = <[k := [] ++ n :: l]> F.
Proof. unfold add_head, fq. by intros ->. Qed.

Lemma abs_add_tail F k n l :
  F !! k = Some l -> add_tail k n F = <[k := l ++ n :: []]> F.
Proof. unfold add_tail, fq. by intros ->. Qed.

(** One operation of list.h on a heap that represents a family. *)
Lemma conc_step_refines o h F r F' :
  rep h F -> abs_step o F = Some (r, F') ->
  (forall n, inserted o = Some n -> is_Some (h !! ANode n)) ->
  exists h', conc_step o h = Some (ANode <$> r, h') /\ rep h' F'.
Proof.
  intros Hr Ho Ha. destruct o as [k n|k n|e n|e n|n|k|k]; simpl in *.
  - case_decide as Hc; [|done]. destruct Hc as [[l Hk] Hn]. simplify_eq/=.
    destruct (add_head_at h F k [] l n Hr Hk Hn (Ha n eq_refl)) as (h' & E & ?).
    change (lst (AHead k) (nodes [])) with (@AHead K N k) in E. rewrite E. exists h'.
    by rewrite (abs_add_head F k n l).
  - case_decide as Hc; [|done]. destruct Hc as [[l Hk] Hn]. simplify_eq/=.
    pose proof Hk as Hk2. rewrite <- (app_nil_r l) in Hk2.
    destruct (add_tail_at h F k l [] n Hr Hk2 Hn (Ha n eq_refl)) as (h' & E & ?).
    change (hd (AHead k) (nodes [])) with (@AHead K N k) in E. rewrite E. exists h'.
    by rewrite (abs_add_tail F k n l).
  - case_decide as Hc; [|done]. destruct Hc as [(k & l1 & l2 & Hk)%in_list_split Hn]. simplify_eq/=.
    destruct (add_tail_at h F k l1 (e :: l2) n Hr Hk Hn (Ha n eq_refl)) as (h' & E & ?).
    change (hd (AHead k) (nodes (e :: l2))) with (@ANode K N e) in E.
    unfold list_add_before. rewrite E. exists h'.
    by rewrite (add_before_insert e n k l1 l2) by (done || apply Hr).
  - case_decide as Hc; [|done]. destruct Hc as [(k & l1 & l2 & Hk)%in_list_split Hn]. simplify_eq/=.
    assert (F !! k = Some ((l1 ++ [e]) ++ l2)) as Hk2 by by rewrite <- app_assoc.
    destruct (add_head_at h F k (l1 ++ [e]) l2 n Hr Hk2 Hn (Ha n eq_refl)) as (h' & E & Hr').
    rewrite lst_nodes_snoc in E. unfold list_add_after. rewrite E. exists h'. split; [done|].
    rewrite (add_after_insert e n k l1 l2) by (done || apply Hr). by rewrite <- app_assoc in Hr'.
  - case_decide as Hc; [|done]. apply in_list_split in Hc as (k & l1 & l2 & Hk). simplify_eq/=.
    destruct (delete_at h F k l1 l2 n Hr Hk) as (h' & -> & ?). by exists h'.
  - destruct (F !! k) as [l|] eqn:Hk; [|done]. simplify_eq/=.
    destruct (remove_head_rep h F k l Hr Hk) as (h' & -> & Hr'). exists h'. by destruct l; simplify_eq/=.
  - destruct (F !! k) as [l|] eqn:Hk; [|done]. simplify_eq/=.
    destruct (remove_tail_rep h F k l Hr Hk) as (h' & -> & Hr'). exists h'.
    by destruct (last l); simplify_eq/=.
Qed.

(** Operations keep every allocated node allocated. *)
Lemma conc_step_dom o h r h' a :
  conc_step o h = Some (r, h') -> is_Some (h !! a) -> is_Some (h' !! a).
Proof.
  unfold is_Some. intros Hs Ha.
  assert (forall c v h1 h2, set_prev c v h1 = Some h2 \/ set_next c v h1 = Some h2 ->
            is_Some (h1 !! a) -> is_Some (h2 !! a)) as Hset.
  { intros c v h1 h2. unfold set_prev, set_next. destruct (h1 !! c); simpl; [|naive_solver].
    intros [[= <-]|[= <-]]; rewrite lookup_insert; case_decide; eauto. }
  destruct o; simpl in Hs; unfold list_add_before, list_add_after, list_add_head, list_add_tail,
    list_remove_head, list_remove_tail, list_delete in Hs;
  repeat (first [ progress simplify_option_eq
                | match goal with
                  | Hq : set_prev ?c ?v ?h1 = Some ?h2 |- _ =>
                      assert (is_Some (h1 !! a) -> is_Some (h2 !! a)) by eauto; clear Hq
                  | Hq : set_next ?c ?v ?h1 = Some ?h2 |- _ =>
                      assert (is_Some (h1 !! a) -> is_Some (h2 !! a)) by eauto; clear Hq
                  end ]); unfold is_Some in *; eauto 10.
Qed.

(** A sequence of operations, with the results it returns. *)
Fixpoint conc_run (os : list lop) h :
    option (list (option (addr K N)) * gmap (addr K N) (list_node K N)) :=
  match os with
  | [] => Some ([], h)
  | o :: os => '(r, h) ← conc_step o h; '(rs, h) ← conc_run os h; Some (r :: rs, h)
  end.

Fixpoint abs_run (os : list lop) F : option (list (option N) * gmap K (list N)) :=
  match os with
  | [] => Some ([], F)
  | o :: os => '(r, F) ← abs_step o F; '(rs, F) ← abs_run os F; Some (r :: rs, F)
  end.


(** [list_in_list] tests membership in some list. *)
Lemma list_in_list_rep h F n :
  rep h F -> is_Some (h !! ANode n) -> list_in_list (ANode n) h = Some (in_list n F).
Proof.
  intros Hr [nd Hn]. unfold list_in_list, get_prev, get_next. rewrite Hn. simpl.
  destruct (in_list n F) eqn:Ei.
  - apply in_list_split in Ei as (k & l1 & l2 & Hk).
    pose proof (ring_cut h F k l1 (n :: l2) Hr Hk) as (p & q & _ & Hb)%linked_Some.
    change (hd (AHead k) (nodes (n :: l2))) with (@ANode K N n) in Hb. by simplify_eq/=.
  - by rewrite (rep_clear h F Hr n nd Hn Ei).
Qed.

Lemma for_every_seg h k l x :
  seg h x (nodes l) (AHead k) -> forall fuel, (length l <= fuel)%nat ->
  for_every_from fuel (AHead k) (next_of h x) h = Some (nodes l).
Proof.
  revert x. induction l as [|m l IH]; intros x Hs fuel Hf; simpl in *.
  - destruct Hs as [-> _]. destruct fuel; simpl; by rewrite decide_True.
  - destruct Hs as [[-> Hp] Hs]. destruct fuel as [|fuel]; [simpl in Hf; lia|]. simpl.
    unfold get_next. pose proof (IH _ Hs fuel ltac:(lia)) as IH'. unfold next_of, prev_of in *.
    destruct (h !! ANode m) as [nd|]; [|done]. simpl in *. by rewrite IH'.
Qed.

(** C12 (termination): traversing a represented list with [list_for_every] visits its
    nodes in order and stops within as many iterations as the list is long, and
    [list_length] counts them. *)
Theorem for_every_complete h F k l fuel :
  rep h F -> F !! k = Some l -> (length l <= fuel)%nat ->
  list_for_every fuel (AHead k) h = Some (nodes l) /\
  list_length fuel (AHead k) h = Some (length l).
Proof.
  intros Hr Hk Hf. pose proof (for_every_seg h k l (AHead k) (rep_ring h F Hr k l Hk) fuel Hf) as He.
  pose proof (ring_cut h F k [] l Hr Hk) as (p & q & Ha & _)%linked_Some.
  change (lst (AHead k) (nodes [])) with (@AHead K N k) in Ha.
  assert (list_for_every fuel (AHead k) h = Some (nodes l)) as E.
  { unfold list_for_every, get_next, next_of in *. rewrite Ha in *. by simpl in *. }
  split; [done|]. unfold list_length. rewrite E. simpl. unfold nodes. by rewrite length_fmap.
Qed.
End refine.
End Refine.

(** ** A concrete heap: one list head and three nodes *)
Module Example.
Import Family Nodes Refine.

Definition F0 : gmap nat (list nat) := {[ 0%nat := [] ]}.
Definition h0 : gmap (addr nat nat) (list_node nat nat) :=
  <[AHead 0%nat := LN (Some (AHead 0%nat)) (Some (AHead 0%nat))]>
  (<[ANode 1%nat := LN None None]> (<[ANode 2%nat := LN None None]>
  (<[ANode 3%nat := LN None None]> ∅))).
Definition ops : list (@lop nat nat) :=
  [OAddTail 0%nat 1%nat; OAddTail 0%nat 2%nat; OAddBefore 2%nat 3%nat; ODelete 1%nat; ORemoveTail 0%nat].

Lemma h0_rep : rep h0 F0.
Proof.
  split.
  - split.
    + intros k. unfold F0, fq. rewrite lookup_singleton. case_decide; constructor.
    + intros k k' n. unfold F0, fq. rewrite !lookup_singleton. repeat case_decide; set_solver.
  - intros k l. unfold F0. rewrite lookup_singleton. case_decide; [|done]. intros [= <-]. by subst k.
  - intros n nd Hn _. unfold h0 in Hn. rewrite !lookup_insert, lookup_empty in Hn.
    repeat case_decide; by simplify_eq.
Qed.


Lemma for_every_complete_witness :
  list_for_every 0 (AHead 0%nat) h0 = Some [] /\ list_length 0 (AHead 0%nat) h0 = Some 0%nat.
Proof. apply (for_every_complete h0 F0 0%nat []); [apply h0_rep|reflexivity|done]. Defined.
End Example.
