(* ===== verification/Timer.v ===== *)
(** * The timer queue ([kernel/timer.c], [kernel/include/kernel/timer.h])

    Each cpu has a queue of timers in the order of their scheduled times, and a
    one-shot hardware timer programmed for the head of the queue (the
    [PLATFORM_HAS_DYNAMIC_TIMER] configuration).  Times are 32-bit milliseconds that
    wrap around; they are compared with the [TIME_*] macros, which read a difference
    as a signed number.  The callbacks are code of other components: [timer_tick] is
    defined over any state that contains the timer state and any meaning of the
    callbacks. *)

From stdpp Require Import base gmap list fin_maps.
From Stdlib Require Import Sorted.
From S2P Require Import Prelude ListNode.
Import Family.

(** [TIME_GTE], [TIME_LTE], [TIME_GT], [TIME_LT] of sys/types.h. *)
Definition TIME_GTE (a b : Z) : bool := 0 <=? s32 (a - b).
Definition TIME_LTE (a b : Z) : bool := s32 (a - b) <=? 0.
Definition TIME_GT (a b : Z) : bool := 0 <? s32 (a - b).
Definition TIME_LT (a b : Z) : bool := s32 (a - b) <? 0.

Definition INFINITE_TIME : Z := 2 ^ 32 - 1.
Definition TIMER_MAGIC : Z := 0x74696D72.

Inductive handler_return := INT_NO_RESCHEDULE | INT_RESCHEDULE.

#[export] Instance handler_return_eq_dec : EqDecision handler_return.
Proof. solve_decision. Defined.

Section timer.
(** Timer objects are named by [T]; [C] is what a callback pointer and its argument
    stand for. *)
Context {T C : Type} `{Countable T}.

Record timer := Timer {
  tm_magic : Z;
  tm_scheduled_time : Z;
  tm_periodic_time : Z;
  tm_callback : option C }.

(** [ts_hw] is the deadline the one-shot timer of a cpu is programmed for, none when
    it is stopped; [ts_now] is what [current_time] reads. *)
Record tstate := TState {
  ts_timers : gmap T timer;
  ts_queue : gmap nat (list T);
  ts_hw : gmap nat Z;
  ts_now : Z }.

Definition set_timers (f : gmap T timer -> gmap T timer) (s : tstate) : tstate :=
  TState (f (ts_timers s)) (ts_queue s) (ts_hw s) (ts_now s).
Definition set_queue (f : gmap nat (list T) -> gmap nat (list T)) (s : tstate) : tstate :=
  TState (ts_timers s) (f (ts_queue s)) (ts_hw s) (ts_now s).
Definition set_hw (f : gmap nat Z -> gmap nat Z) (s : tstate) : tstate :=
  TState (ts_timers s) (ts_queue s) (f (ts_hw s)) (ts_now s).

Definition current_time (s : tstate) : Z := ts_now s.

(** The platform's one-shot timer: programmed for [delay] from now, or stopped. *)
Definition platform_set_oneshot_timer (cpu : nat) (now delay : Z) : M tstate unit :=
  modify (set_hw (<[cpu := u32 (now + delay)]>)).
Definition platform_stop_timer (cpu : nat) : M tstate unit := modify (set_hw (delete cpu)).

Definition TIMER_INITIAL_VALUE : timer := Timer TIMER_MAGIC 0 0 None.

(** Clearing the links of a queued timer would corrupt the queue. *)
Definition timer_initialize (t : T) : M tstate unit :=
  do q <- gets ts_queue;
  if in_list t q then fail BadPointer
  else modify (set_timers (<[t := TIMER_INITIAL_VALUE]>)).

Definition get_timer (t : T) : M tstate timer := do s <- gets ts_timers; deref (s !! t).

(** The loop of [insert_timer_in_queue]: the first entry that is later. *)
Fixpoint find_later (tms : gmap T timer) (sched : Z) (q : list T) : option (option T) :=
  match q with
  | [] => Some None
  | e :: q =>
      tm ← tms !! e;
      if TIME_GT (tm_scheduled_time tm) sched then Some (Some e) else find_later tms sched q
  end.

Definition insert_timer_in_queue (cpu : nat) (t : T) : M tstate unit :=
  do tm <- get_timer t;
  do s <- gets id;
  do o <- deref (find_later (ts_timers s) (tm_scheduled_time tm) (fq (ts_queue s) cpu));
  modify (set_queue (match o with Some e => add_before e t | None => add_tail cpu t end)).

Definition peek_head (cpu : nat) (s : tstate) : option T := head (fq (ts_queue s) cpu).

Definition timer_set (cpu : nat) (t : T) (delay period : Z) (cb : C) : M tstate unit :=
  do tm <- get_timer t;
  massert (tm_magic tm =? TIMER_MAGIC) ;;
  do q <- gets ts_queue;
  if in_list t q then fail Panic
  else
    do now <- gets current_time;
    modify (set_timers (<[t := Timer (tm_magic tm) (u32 (now + delay)) period (Some cb)]>)) ;;
    insert_timer_in_queue cpu t ;;
    do h <- gets (peek_head cpu);
    when (bool_decide (h = Some t)) (platform_set_oneshot_timer cpu now delay).

Definition timer_set_oneshot (cpu : nat) (t : T) (delay : Z) (cb : C) : M tstate unit :=
  timer_set cpu t (if delay =? 0 then 1 else delay) 0 cb.

Definition timer_set_periodic (cpu : nat) (t : T) (period : Z) (cb : C) : M tstate unit :=
  let period := if period =? 0 then 1 else period in
  timer_set cpu t period period cb.

(** The last part of [timer_cancel]: the head of the queue may have changed. *)
Definition cancel_reprogram (cpu : nat) (oldhead : option T) : M tstate unit :=
  do newhead <- gets (peek_head cpu);
  match newhead with
  | None => platform_stop_timer cpu
  | Some h =>
      when (bool_decide (newhead <> oldhead))
        (do hm <- get_timer h;
         do now <- gets current_time;
         platform_set_oneshot_timer cpu now
           (if TIME_LT (tm_scheduled_time hm) now then 0 else u32 (tm_scheduled_time hm - now)))
  end.

Definition timer_cancel (cpu : nat) (t : T) : M tstate unit :=
  do tm <- get_timer t;
  massert (tm_magic tm =? TIMER_MAGIC) ;;
  do oldhead <- gets (peek_head cpu);
  do q <- gets ts_queue;
  when (in_list t q) (modify (set_queue (del t))) ;;
  modify (set_timers (<[t := Timer (tm_magic tm) (tm_scheduled_time tm) 0 None]>)) ;;
  cancel_reprogram cpu oldhead.

(** ** The tick

    [fire] is the meaning of the callbacks on a state [S] that contains the timer
    state. *)
Class HasTimers (S : Type) := {
  get_ts : S -> tstate;
  put_ts : tstate -> S -> S;
  get_put_ts : forall t s, get_ts (put_ts t s) = t;
  put_get_ts : forall s, put_ts (get_ts s) s = s;
  put_put_ts : forall t t' s, put_ts t (put_ts t' s) = put_ts t s }.

Definition lift_ts {S} `{HasTimers S} {A} (m : M tstate A) : M S A :=
  fun s => match m (get_ts s) with
           | Done a t => Done a (put_ts t s)
           | Fault f => Fault f
           end.

Section tick.
Context {S : Type} `{HasTimers S}.
Variable fire : C -> T -> Z -> M S handler_return.

(** One pass of the loop of [timer_tick]: [None] when it breaks out of it. *)
Definition tick_once (cpu : nat) (now : Z) : M S (option handler_return) :=
  do h <- gets (fun s => peek_head cpu (get_ts s));
  match h with
  | None => ret None
  | Some t =>
      do tm <- lift_ts (get_timer t);
      if TIME_LT now (tm_scheduled_time tm) then ret None
      else
        massert (tm_magic tm =? TIMER_MAGIC) ;;
        lift_ts (modify (set_queue (del t))) ;;
        do cb <- deref (tm_callback tm);
        do r <- fire cb t now;
        when (0 <? tm_periodic_time tm)
          (do q <- gets (fun s => ts_queue (get_ts s));
           do tm <- lift_ts (get_timer t);
           when (negb (in_list t q) && (0 <? tm_periodic_time tm))
             (let sched := u32 (tm_scheduled_time tm + tm_periodic_time tm) in
              let sched := if TIME_LT sched now then u32 (now + tm_periodic_time tm) else sched in
              lift_ts (modify (set_timers
                (<[t := Timer (tm_magic tm) sched (tm_periodic_time tm) (tm_callback tm)]>))) ;;
              lift_ts (insert_timer_in_queue cpu t))) ;;
        ret (Some r)
  end.

Fixpoint tick_loop (fuel : nat) (cpu : nat) (now : Z) (r : handler_return) : M S handler_return :=
  match fuel with
  | O => fail OutOfFuel
  | Datatypes.S fuel =>
      do o <- tick_once cpu now;
      match o with
      | None => ret r
      | Some r' => tick_loop fuel cpu now (match r' with INT_RESCHEDULE => INT_RESCHEDULE | _ => r end)
      end
  end.

Definition timer_tick (fuel : nat) (cpu : nat) (now : Z) : M S handler_return :=
  do r <- tick_loop fuel cpu now INT_NO_RESCHEDULE;
  do h <- gets (fun s => peek_head cpu (get_ts s));
  match h with
  | None => ret r
  | Some t =>
      do tm <- lift_ts (get_timer t);
      massert (TIME_GT (tm_scheduled_time tm) now) ;;
      lift_ts (platform_set_oneshot_timer cpu now (u32 (tm_scheduled_time tm - now))) ;;
      ret r
  end.
End tick.

(** [timer_init]: an empty queue for each of the [n] cpus. *)
Definition timer_init (n : nat) (now : Z) : tstate :=
  TState ∅ (list_to_map ((fun c => (c, [])) <$> seq 0 n)) ∅ now.
End timer.
Arguments timer : clear implicits.
Arguments tstate T C {_ _}.

(** ** Order and well-formedness of the queues *)
Section order.
Context {T C : Type} `{Countable T}.
Implicit Types (s : tstate T C) (tms : gmap T (timer C)) (W now : Z) (t e : T).

(** The distance of a time from a reference point, and the times for which the
    distance orders as the [TIME_*] macros do. *)
Definition rel W x : Z := s32 (x - W).
Definition near W x : Prop := - 2 ^ 30 <= rel W x < 2 ^ 30.

Lemma s32_mod a : exists k, s32 a = a + k * 2 ^ 32.
Proof.
  unfold s32, u32. pose proof (Z.div_mod a (2 ^ 32) ltac:(lia)).
  destruct (a mod 2 ^ 32 <? 2 ^ 31); [exists (- (a / 2 ^ 32))|exists (- (a / 2 ^ 32) - 1)]; lia.
Qed.

Lemma near_sub W a b : near W a -> near W b -> s32 (a - b) = rel W a - rel W b.
Proof.
  unfold near, rel. intros Ha Hb.
  destruct (s32_mod (a - W)) as [ka Ea], (s32_mod (b - W)) as [kb Eb].
  rewrite <- (s32_small (s32 (a - W) - s32 (b - W))) by lia.
  rewrite Ea, Eb. unfold s32, u32.
  replace (a - W + ka * 2 ^ 32 - (b - W + kb * 2 ^ 32)) with (a - b + (ka - kb) * 2 ^ 32) by lia.
  by rewrite Z.mod_add by lia.
Qed.

Lemma TIME_GT_rel W a b : near W a -> near W b -> TIME_GT a b = (rel W b <? rel W a).
Proof. intros. unfold TIME_GT. rewrite (near_sub W) by done. lia. Qed.

Lemma TIME_LT_rel W a b : near W a -> near W b -> TIME_LT a b = (rel W a <? rel W b).
Proof. intros. unfold TIME_LT. rewrite (near_sub W) by done. lia. Qed.

Lemma rel_u32 W x : rel W (u32 x) = rel W x.
Proof. apply s32_sub_u32_l. Qed.

Lemma rel_add now d : - 2 ^ 31 <= d < 2 ^ 31 -> rel now (now + d) = d.
Proof. intros. unfold rel. replace (now + d - now) with d by lia. by apply s32_small. Qed.

Lemma rel_self now : rel now now = 0.
Proof. unfold rel. by rewrite Z.sub_diag. Qed.

Definition sched tms t : Z := default 0 (tm_scheduled_time <$> tms !! t).
Definition period tms t : Z := default 0 (tm_periodic_time <$> tms !! t).
Definition key W tms t : Z := rel W (sched tms t).

(** A timer that may be in a queue. *)
Definition timer_ok W tms t : Prop :=
  exists tm, tms !! t = Some tm /\ tm_magic tm = TIMER_MAGIC /\ is_Some (tm_callback tm) /\
    near W (tm_scheduled_time tm) /\ 0 <= tm_scheduled_time tm < 2 ^ 32 /\
    0 <= tm_periodic_time tm < 2 ^ 30.

(** Every queued timer is a valid object scheduled within a quarter of the range of
    the clock around [W], a timer is in one queue, and the queues are in order. *)
Record tinv W s : Prop := {
  ti_wf : wf (ts_queue s);
  ti_ok : forall cpu t, t ∈ fq (ts_queue s) cpu -> timer_ok W (ts_timers s) t;
  ti_sorted : forall cpu, StronglySorted (fun a b => key W (ts_timers s) a <= key W (ts_timers s) b)
                            (fq (ts_queue s) cpu) }.

Lemma sched_Some tms t tm : tms !! t = Some tm -> sched tms t = tm_scheduled_time tm.
Proof. unfold sched. by intros ->. Qed.

Lemma key_Some W tms t tm : tms !! t = Some tm -> key W tms t = rel W (tm_scheduled_time tm).
Proof. intros. unfold key. by rewrite (sched_Some _ _ tm). Qed.

Lemma sched_insert_ne tms t t' tm : t <> t' -> sched (<[t := tm]> tms) t' = sched tms t'.
Proof. intros. unfold sched. by rewrite lookup_insert_ne. Qed.

Lemma key_insert_ne W tms t t' tm : t <> t' -> key W (<[t := tm]> tms) t' = key W tms t'.
Proof. intros. unfold key. by rewrite sched_insert_ne. Qed.

Lemma timer_ok_insert_ne W tms t t' tm :
  t <> t' -> timer_ok W tms t' -> timer_ok W (<[t := tm]> tms) t'.
Proof. intros Hne (tm' & ? & ?). exists tm'. by rewrite lookup_insert_ne. Qed.

(** Sorting depends on the keys of the members only. *)
Lemma sorted_ext (f g : T -> Z) (l : list T) :
  (forall t, t ∈ l -> f t = g t) ->
  StronglySorted (fun a b => f a <= f b) l -> StronglySorted (fun a b => g a <= g b) l.
Proof.
  induction l as [|x l IH]; intros Hfg; [constructor|].
  intros [Hs Hall]%StronglySorted_inv. constructor.
  - apply IH; [|done]. intros; apply Hfg. set_solver.
  - rewrite Forall_forall in *. intros y Hy. rewrite <- !Hfg by set_solver. auto.
Qed.

Lemma sorted_insert (f : T -> Z) (l1 l2 : list T) t :
  StronglySorted (fun a b => f a <= f b) (l1 ++ l2) ->
  (forall a, a ∈ l1 -> f a <= f t) -> (forall b, b ∈ l2 -> f t < f b) ->
  StronglySorted (fun a b => f a <= f b) (l1 ++ t :: l2).
Proof.
  induction l1 as [|x l1 IH]; simpl; intros Hs H1 H2.
  - constructor; [done|]. apply Forall_forall. intros b Hb. specialize (H2 b Hb). lia.
  - apply StronglySorted_inv in Hs as [Hs Hall]. constructor.
    + apply IH; [done| |done]. intros; apply H1. set_solver.
    + rewrite Forall_forall in *. intros b Hb. apply elem_of_app in Hb as [Hb|Hb].
      * apply Hall. set_solver.
      * apply elem_of_cons in Hb as [->|Hb]; [apply H1; set_solver|]. apply Hall. set_solver.
Qed.

Lemma sorted_remove (R : T -> T -> Prop) (l1 l2 : list T) t :
  StronglySorted R (l1 ++ t :: l2) -> StronglySorted R (l1 ++ l2).
Proof.
  induction l1 as [|x l1 IH]; simpl.
  - by intros [? _]%StronglySorted_inv.
  - intros [Hs Hall]%StronglySorted_inv. constructor; [auto|].
    rewrite Forall_forall in *. intros b Hb. apply Hall. set_solver.
Qed.

Lemma sorted_filter (R : T -> T -> Prop) (P : T -> Prop) `{forall x, Decision (P x)} (l : list T) :
  StronglySorted R l -> StronglySorted R (filter P l).
Proof.
  induction 1 as [|x l Hs IH Hall]; [constructor|]. rewrite filter_cons. case_decide; [|done].
  constructor; [done|]. rewrite Forall_forall in *. intros b [_ Hb]%list_elem_of_filter. auto.
Qed.

(** The search of [insert_timer_in_queue] cuts a sorted queue where the new timer goes:
    after the entries that are not later, before the ones that are. *)
Lemma find_later_cut W tms x (q : list T) :
  near W x -> (forall e, e ∈ q -> timer_ok W tms e) ->
  StronglySorted (fun a b => key W tms a <= key W tms b) q ->
  exists o l1 l2, find_later tms x q = Some o /\ q = l1 ++ l2 /\ o = head l2 /\
    (forall a, a ∈ l1 -> key W tms a <= rel W x) /\ (forall b, b ∈ l2 -> rel W x < key W tms b).
Proof.
  intros Hx. induction q as [|e q IH]; intros Hok Hs.
  - exists None, [], []. simpl. split_and!; try done; set_solver.
  - apply StronglySorted_inv in Hs as [Hs Hall].
    destruct (Hok e) as (tm & He & _ & _ & Hnear & _); [set_solver|].
    simpl. rewrite He. simpl. rewrite (TIME_GT_rel W) by done.
    pose proof (key_Some W tms e tm He) as Hke.
    destruct (Z.ltb_spec (rel W x) (rel W (tm_scheduled_time tm))).
    + exists (Some e), [], (e :: q). split_and!; try done; [set_solver|].
      rewrite Forall_forall in Hall. intros b [->|Hb]%elem_of_cons; [lia|].
      specialize (Hall b Hb). lia.
    + destruct IH as (o & l1 & l2 & -> & -> & -> & H1 & H2); [set_solver|done|].
      exists (head l2), (e :: l1), l2. split_and!; try done.
      intros a [->|Ha]%elem_of_cons; [lia|auto].
Qed.

(** *** Inserting *)

Lemma insert_timer_wp W cpu t tm s (Q : unit -> tstate T C -> Prop) :
  tinv W s -> ts_timers s !! t = Some tm -> near W (tm_scheduled_time tm) ->
  (forall l1 l2, fq (ts_queue s) cpu = l1 ++ l2 ->
     (forall a, a ∈ l1 -> key W (ts_timers s) a <= key W (ts_timers s) t) ->
     (forall b, b ∈ l2 -> key W (ts_timers s) t < key W (ts_timers s) b) ->
     Q tt (set_queue (fun q => <[cpu := l1 ++ t :: l2]> q) s)) ->
  wp (insert_timer_in_queue cpu t) Q s.
Proof.
  intros Hinv Ht Hnear HQ.
  destruct (find_later_cut W (ts_timers s) (tm_scheduled_time tm) (fq (ts_queue s) cpu))
    as (o & l1 & l2 & Ho & Hq & Hoh & H1 & H2); [done|by apply (ti_ok W s Hinv)|by apply (ti_sorted W s Hinv)|].
  unfold insert_timer_in_queue, get_timer. repeat wp_step; [done|done|]. rewrite <- (key_Some W (ts_timers s) t tm Ht) in H1, H2.
  specialize (HQ l1 l2 Hq H1 H2). destruct l2 as [|e l2]; simpl in Hoh; subst o.
  - rewrite app_nil_r in Hq. unfold set_queue, add_tail, id in *. by rewrite Hq.
  - unfold set_queue, id in *. rewrite (add_before_insert e t cpu l1 l2); [done|apply Hinv|].
    by apply fq_lookup; [|destruct l1].
Qed.

Lemma tinv_insert W cpu t s l1 l2 :
  tinv W s -> timer_ok W (ts_timers s) t -> in_list t (ts_queue s) = false ->
  fq (ts_queue s) cpu = l1 ++ l2 ->
  (forall a, a ∈ l1 -> key W (ts_timers s) a <= key W (ts_timers s) t) ->
  (forall b, b ∈ l2 -> key W (ts_timers s) t < key W (ts_timers s) b) ->
  tinv W (set_queue (fun q => <[cpu := l1 ++ t :: l2]> q) s).
Proof.
  intros [Hwf Hok Hs] Ht Hn Hq H1 H2. split; simpl.
  - by apply wf_insert.
  - intros c a. rewrite fq_insert. case_decide; [|apply Hok].
    rewrite elem_of_app, elem_of_cons. intros Ha. destruct (decide (a = t)) as [->|Hne]; [done|].
    apply (Hok cpu). rewrite Hq. set_solver +Ha Hne.
  - intros c. rewrite fq_insert. case_decide; [|apply Hs]. apply sorted_insert; [|done|done].
    rewrite <- Hq. apply Hs.
Qed.

(** Changing an object that is in no queue. *)
Lemma tinv_update W t tm s :
  tinv W s -> in_list t (ts_queue s) = false -> tinv W (set_timers (<[t := tm]>) s).
Proof.
  intros [Hwf Hok Hs] Hn. rewrite in_list_false in Hn. split; simpl; [done| |].
  - intros cpu a Ha. apply timer_ok_insert_ne; [|by apply (Hok cpu)]. intros ->. by apply (Hn cpu).
  - intros cpu. apply (sorted_ext (key W (ts_timers s))); [|apply Hs].
    intros a Ha. rewrite key_insert_ne; [done|]. intros ->. by apply (Hn cpu).
Qed.

Lemma tinv_del W t s : tinv W s -> tinv W (set_queue (del t) s).
Proof.
  intros [Hwf Hok Hs]. split; simpl.
  - by apply wf_del.
  - intros cpu a [_ Ha]%elem_of_fq_del. by apply (Hok cpu).
  - intros cpu. rewrite fq_del. by apply sorted_filter.
Qed.

Lemma tinv_hw W f s : tinv W s -> tinv W (set_hw f s).
Proof. by intros [Hwf Hok Hs]. Qed.

(** *** Setting and cancelling *)

(** No timer is missed: on every cpu with a queued timer, the one-shot timer is
    programmed for no later than the head of the queue, or is due already. *)
Definition armed now s : Prop :=
  forall cpu t, peek_head cpu s = Some t ->
    exists d, ts_hw s !! cpu = Some d /\ rel now d <= Z.max 0 (key now (ts_timers s) t).

(** What [timer_set] does to the queue of its cpu. *)
Definition inserted_at cpu t s s' : Prop :=
  exists l1 l2, fq (ts_queue s) cpu = l1 ++ l2 /\ fq (ts_queue s') cpu = l1 ++ t :: l2 /\
    forall c, c <> cpu -> fq (ts_queue s') c = fq (ts_queue s) c.

Lemma armed_key now s s' :
  armed now s ->
  (forall cpu t, peek_head cpu s' = Some t ->
     (exists d, ts_hw s' !! cpu = Some d /\ rel now d <= Z.max 0 (key now (ts_timers s') t)) \/
     (exists t0, peek_head cpu s = Some t0 /\ ts_hw s' !! cpu = ts_hw s !! cpu /\
        key now (ts_timers s) t0 <= key now (ts_timers s') t)) ->
  armed now s'.
Proof.
  intros Ha Hs' cpu t Ht. destruct (Hs' cpu t Ht) as [?|(t0 & Ht0 & -> & Hk)]; [done|].
  destruct (Ha cpu t0 Ht0) as (d & ? & ?). exists d. split; [done|lia].
Qed.

Lemma peek_head_queued cpu t s : peek_head cpu s = Some t -> t ∈ fq (ts_queue s) cpu.
Proof. unfold peek_head. destruct (fq (ts_queue s) cpu); simpl; intros; simplify_eq. set_solver. Qed.

Lemma peek_inserted cpu t c t0 s s' :
  inserted_at cpu t s s' -> in_list t (ts_queue s) = false -> peek_head c s' = Some t0 ->
  (t0 = t /\ c = cpu) \/ (t0 <> t /\ peek_head c s = Some t0).
Proof.
  intros (l1 & l2 & Hq1 & Hq2 & Hqc) Hn Ht0. rewrite in_list_false in Hn.
  destruct (decide (c = cpu)) as [->|Hne].
  - specialize (Hn cpu). unfold peek_head in *. rewrite Hq2 in Ht0. rewrite Hq1 in *.
    destruct l1 as [|x l1]; simpl in *; simplify_eq; [by left|right]. set_solver +Hn.
  - right. unfold peek_head in *. rewrite Hqc in Ht0 by done. split; [|done].
    intros ->. by apply (Hn c), peek_head_queued.
Qed.

Lemma armed_update now t tm s :
  armed now s -> in_list t (ts_queue s) = false -> armed now (set_timers (<[t := tm]>) s).
Proof.
  intros Ha Hn c h Hh. destruct (Ha c h Hh) as (d & Hd & Hle). exists d. split; [done|]. simpl.
  rewrite key_insert_ne; [done|]. rewrite in_list_false in Hn. intros <-. apply (Hn c).
  unfold peek_head in Hh. simpl in Hh. destruct (fq (ts_queue s) c); [done|]. simpl in Hh. simplify_eq. set_solver +.
Qed.

Lemma armed_insert now cpu t tm s s' :
  armed now s -> inserted_at cpu t s s' -> in_list t (ts_queue s) = false ->
  ts_timers s' = <[t := tm]> (ts_timers s) ->
  (forall c, c <> cpu -> ts_hw s' !! c = ts_hw s !! c) ->
  (if bool_decide (peek_head cpu s' = Some t) then ts_hw s' !! cpu = Some (tm_scheduled_time tm)
   else ts_hw s' !! cpu = ts_hw s !! cpu) ->
  armed now s'.
Proof.
  intros Ha Hins Hn Htm Hhw Hcpu. apply (armed_key now s); [done|]. intros c t0 Ht0.
  destruct (peek_inserted cpu t c t0 s s') as [[-> ->]|[Hne Hold]]; [done..| |].
  - left. rewrite bool_decide_true in Hcpu by done. eexists. split; [done|].
    rewrite Htm, (key_Some _ _ t tm) by apply lookup_insert_eq. lia.
  - right. exists t0. split_and!; [done| |rewrite Htm, key_insert_ne by done; lia].
    destruct (decide (c = cpu)) as [->|]; [|auto]. rewrite bool_decide_false in Hcpu by congruence. done.
Qed.

Lemma timer_set_wp cpu t tm delay per cb s :
  tinv (ts_now s) s -> armed (ts_now s) s ->
  ts_timers s !! t = Some tm -> tm_magic tm = TIMER_MAGIC -> in_list t (ts_queue s) = false ->
  0 <= delay < 2 ^ 30 -> 0 <= per < 2 ^ 30 ->
  wp (timer_set cpu t delay per cb)
     (fun _ s' => tinv (ts_now s) s' /\ armed (ts_now s) s' /\ inserted_at cpu t s s' /\
        ts_timers s' = <[t := Timer TIMER_MAGIC (u32 (ts_now s + delay)) per (Some cb)]> (ts_timers s) /\
        ts_now s' = ts_now s) s.
Proof.
  intros Hinv Harm Ht Hm Hn Hd Hp. set (now := ts_now s) in *.
  set (tm' := Timer TIMER_MAGIC (u32 (now + delay)) per (Some cb)).
  set (s1 := set_timers (<[t := tm']>) s).
  assert (tinv now s1) as Hinv1 by by apply tinv_update.
  assert (rel now (u32 (now + delay)) = delay) as Hrel by (rewrite rel_u32; apply rel_add; lia).
  assert (ts_timers s1 !! t = Some tm') as Ht1 by apply lookup_insert_eq.
  assert (timer_ok now (ts_timers s1) t) as Hok1.
  { exists tm'. pose proof (u32_range (now + delay)). unfold near. simpl. rewrite Hrel.
    split_and!; try done; lia. }
  unfold timer_set, get_timer. repeat wp_step; [done|rewrite Hm; apply Z.eqb_refl|congruence|].
  repeat wp_step. rewrite Hm. fold now. fold tm'. change (set_timers _ s) with s1.
  apply (insert_timer_wp now cpu t tm'); [done|done|unfold near; simpl; lia|].
  intros l1 l2 Hq H1 H2. set (s2 := set_queue (fun q => <[cpu := l1 ++ t :: l2]> q) s1).
  assert (tinv now s2) as Hinv2 by (by apply tinv_insert).
  assert (forall s', ts_queue s' = ts_queue s2 -> inserted_at cpu t s s') as Hins.
  { intros s' E. exists l1, l2. rewrite E. split_and!; [done| |]; simpl; [|intros c Hc]; rewrite fq_insert;
      [by rewrite decide_True|by rewrite decide_False]. }
  repeat wp_step; intros Hh; repeat wp_step; split_and!; auto using tinv_hw;
    apply (armed_insert now cpu t tm' s); auto; simpl; change (peek_head cpu (set_hw _ s2)) with (peek_head cpu s2).
  - intros c Hc. by rewrite lookup_insert_ne.
  - rewrite Hh. by rewrite lookup_insert_eq.
  - by rewrite Hh.
Qed.

Lemma sorted_head_le (f : T -> Z) (l : list T) h0 x :
  StronglySorted (fun a b => f a <= f b) l -> head l = Some h0 -> x ∈ l -> f h0 <= f x.
Proof.
  intros Hs Hh Hx. destruct l as [|y l]; simplify_eq/=. apply StronglySorted_inv in Hs as [_ Hall].
  rewrite Forall_forall in Hall. apply elem_of_cons in Hx as [->|Hx]; [lia|auto].
Qed.

(** Taking a timer out leaves a head that is no earlier. *)
Lemma cancel_head now t tm s s' c t0 :
  tinv now s -> ts_queue s' = del t (ts_queue s) ->
  ts_timers s' = <[t := tm]> (ts_timers s) -> peek_head c s' = Some t0 ->
  exists t1, peek_head c s = Some t1 /\ key now (ts_timers s) t1 <= key now (ts_timers s') t0.
Proof.
  intros Hinv Hq Htm Ht0%peek_head_queued. rewrite Hq in Ht0.
  apply elem_of_fq_del in Ht0 as [Hne Hin].
  destruct (peek_head c s) as [t1|] eqn:E1.
  - exists t1. split; [done|]. rewrite Htm, key_insert_ne by done.
    by apply (sorted_head_le _ _ _ _ (ti_sorted now s Hinv c)).
  - unfold peek_head in E1. destruct (fq (ts_queue s) c); [set_solver +Hin|done].
Qed.

Lemma cancel_reprogram_wp cpu t tm s s' :
  tinv (ts_now s) s -> armed (ts_now s) s -> tinv (ts_now s) s' ->
  ts_queue s' = del t (ts_queue s) -> ts_timers s' = <[t := tm]> (ts_timers s) ->
  ts_hw s' = ts_hw s -> ts_now s' = ts_now s ->
  wp (cancel_reprogram cpu (peek_head cpu s))
     (fun _ s'' => armed (ts_now s) s'' /\ exists hw, s'' = set_hw (fun _ => hw) s') s'.
Proof.
  intros Hinv Harm Hinv' Hq Htm Hhw Hnow. set (now := ts_now s) in *.
  pose proof (fun c t0 => cancel_head now t tm s s' c t0 Hinv Hq Htm) as Hhead.
  unfold cancel_reprogram, platform_stop_timer, platform_set_oneshot_timer, get_timer.
  wp_step. wp_step. destruct (peek_head cpu s') as [h|] eqn:Eh.
  - destruct (ti_ok now s' Hinv' cpu h) as (hm & Hh & _ & _ & Hnear & _); [by apply peek_head_queued|].
    apply wp_when; intros Hb.
    + repeat wp_step; [done|]. split; [|by eexists]. apply (armed_key now s); [done|].
      intros c t0 Ht0. change (peek_head c s' = Some t0) in Ht0.
      destruct (decide (c = cpu)) as [->|Hc].
      * left. rewrite Eh in Ht0. injection Ht0 as <-. simpl. rewrite lookup_insert_eq. eexists. split; [done|].
        rewrite (key_Some now _ h hm) by done. unfold current_time. rewrite Hnow. fold now. rewrite rel_u32.
        destruct (TIME_LT _ _); [rewrite rel_add; lia|].
        replace (rel now _) with (rel now (tm_scheduled_time hm)); [lia|].
        unfold rel, u32, s32, u32. symmetry.
        replace (now + (tm_scheduled_time hm - now) mod 2 ^ 32 - now) with ((tm_scheduled_time hm - now) mod 2 ^ 32) by lia.
        by rewrite Zmod_mod.
      * right. destruct (Hhead c t0 Ht0) as (t1 & ? & ?). exists t1. simpl.
        rewrite lookup_insert_ne by done. by rewrite Hhw.
    + split; [|exists (ts_hw s'); by destruct s']. apply (armed_key now s); [done|]. intros c t0 Ht0.
      right. destruct (Hhead c t0 Ht0) as (t1 & ? & ?). exists t1. by rewrite Hhw.
  - wp_step. split; [|by eexists]. apply (armed_key now s); [done|]. intros c t0 Ht0. right.
    change (peek_head c s' = Some t0) in Ht0. destruct (Hhead c t0 Ht0) as (t1 & ? & ?). exists t1.
    destruct (decide (c = cpu)) as [->|Hc]; [congruence|]. simpl. rewrite lookup_delete_ne by done. by rewrite Hhw.
Qed.

Lemma timer_cancel_wp cpu t tm s :
  tinv (ts_now s) s -> armed (ts_now s) s ->
  ts_timers s !! t = Some tm -> tm_magic tm = TIMER_MAGIC ->
  wp (timer_cancel cpu t)
     (fun _ s' => tinv (ts_now s) s' /\ armed (ts_now s) s' /\ ts_queue s' = del t (ts_queue s) /\
        ts_timers s' = <[t := Timer TIMER_MAGIC (tm_scheduled_time tm) 0 None]> (ts_timers s) /\
        ts_now s' = ts_now s) s.
Proof.
  intros Hinv Harm Ht Hm. set (tm' := Timer TIMER_MAGIC (tm_scheduled_time tm) 0 None).
  set (s2 := set_timers (<[t := tm']>) (set_queue (del t) s)).
  assert (tinv (ts_now s) s2) as Hinv2 by (apply tinv_update; [by apply tinv_del|apply in_list_del]).
  assert (wp (cancel_reprogram cpu (peek_head cpu s))
     (fun _ s' => tinv (ts_now s) s' /\ armed (ts_now s) s' /\ ts_queue s' = del t (ts_queue s) /\
        ts_timers s' = <[t := tm']> (ts_timers s) /\ ts_now s' = ts_now s) s2) as Hrep.
  { eapply wp_mono; [by apply (cancel_reprogram_wp cpu t tm' s s2)|].
    intros _ s' [? [hw ->]]. split_and!; try done. by apply tinv_hw. }
  unfold timer_cancel, get_timer. do 4 wp_step; [done|]. do 2 wp_step; [rewrite Hm; apply Z.eqb_refl|].
  repeat wp_step; intros Hl; rewrite Hm; fold tm'; repeat wp_step; [done|].
  replace (set_timers _ s) with s2; [done|]. unfold s2, set_queue, set_timers. simpl. by rewrite del_notin.
Qed.
End order.

(** ** The tick fires what is due *)
Section tick_facts.
Context {T C : Type} `{Countable T} {S : Type} `{!@HasTimers T C _ _ S}.
Variable fire : C -> T -> Z -> M S handler_return.

(** What a pass of the loop on [cpu] that fires [t] does to the timers. *)
Record refired (cpu : nat) (t : T) (ts ts' : tstate T C) : Prop := {
  rf_now : ts_now ts' = ts_now ts;
  rf_hw : ts_hw ts' = ts_hw ts;
  rf_timers : forall x, x <> t -> ts_timers ts' !! x = ts_timers ts !! x;
  rf_queued : forall x, x <> t -> in_list x (ts_queue ts') = in_list x (ts_queue ts);
  rf_other : forall c, c <> cpu -> fq (ts_queue ts') c = fq (ts_queue ts) c;
  rf_obj : forall tm, ts_timers ts !! t = Some tm ->
             exists sched, ts_timers ts' !! t =
               Some (Timer (tm_magic tm) sched (tm_periodic_time tm) (tm_callback tm));
  rf_again : in_list t (ts_queue ts') = true -> 0 < period (ts_timers ts) t }.

(** [J fs] is what holds of the state after the callbacks of the timers [fs] have run on [cpu];
    a callback leaves the timers alone and keeps it, whether or not its timer is put back. *)
Variable cpu : nat.
Variable J : list T -> S -> Prop.
Variable time : Z.
Hypothesis J_hw : forall fs s f,
  J fs s -> armed time (set_hw f (get_ts s)) -> J fs (put_ts (set_hw f (get_ts s)) s).
Hypothesis fire_spec : forall fs cb t tm s,
  J fs s -> t ∈ fq (ts_queue (get_ts s)) cpu -> ts_timers (get_ts s) !! t = Some tm -> tm_callback tm = Some cb ->
  wp (fire cb t time)
     (fun _ s' => get_ts s' = set_queue (del t) (get_ts s) /\
        forall ts', refired cpu t (get_ts s) ts' -> tinv time ts' -> armed time ts' -> J (fs ++ [t]) (put_ts ts' s'))
     (put_ts (set_queue (del t) (get_ts s)) s).

Implicit Types (s : S) (ts : tstate T C) (now : Z) (t : T).

Lemma lift_ts_wp {A} (m : M (tstate T C) A) (Q : A -> S -> Prop) s :
  wp m (fun a ts => Q a (put_ts ts s)) (get_ts s) -> wp (lift_ts m) Q s.
Proof. unfold wp, lift_ts. by destruct (m (get_ts s)). Qed.

Lemma rel_plus now x p :
  - 2 ^ 31 <= rel now x + p < 2 ^ 31 -> rel now (x + p) = rel now x + p.
Proof.
  intros Hr. unfold rel in *. rewrite <- (s32_small (s32 (x - now) + p)) by done.
  destruct (s32_mod (x - now)) as [k ->]. unfold s32, u32.
  replace (x - now + k * 2 ^ 32 + p) with (x + p - now + k * 2 ^ 32) by lia.
  by rewrite Z.mod_add by lia.
Qed.

(** The next time of a periodic timer that fires at [now], as a distance from [now]. *)
Definition rearm (k p : Z) : Z := if k + p <? 0 then p else k + p.

(** What a tick on [cpu] leaves alone. *)
Definition elsewhere ts ts' : Prop :=
  ts_now ts' = ts_now ts /\
  forall c, c <> cpu -> fq (ts_queue ts') c = fq (ts_queue ts) c /\ ts_hw ts' !! c = ts_hw ts !! c /\
    forall x, x ∈ fq (ts_queue ts) c -> ts_timers ts' !! x = ts_timers ts !! x.

Lemma elsewhere_refl ts : elsewhere ts ts.
Proof. done. Qed.

Lemma elsewhere_trans ts1 ts2 ts3 : elsewhere ts1 ts2 -> elsewhere ts2 ts3 -> elsewhere ts1 ts3.
Proof.
  intros [N1 H1] [N2 H2]. split; [congruence|]. intros c Hc. destruct (H1 c Hc) as (A1 & A2 & A3), (H2 c Hc) as (B1 & B2 & B3).
  split_and!; [congruence|congruence|]. intros x Hx. rewrite B3 by (by rewrite A1). auto.
Qed.

Lemma refired_elsewhere now t ts ts' :
  tinv now ts -> t ∈ fq (ts_queue ts) cpu -> refired cpu t ts ts' -> elsewhere ts ts'.
Proof.
  intros Hi Hin [R1 R2 R3 R4 R5 _ _]. split; [done|]. intros c Hc. split_and!; [auto|by rewrite R2|].
  intros x Hx. apply R3. intros ->. by apply Hc, (wf_one _ (ti_wf now ts Hi) c cpu t).
Qed.

(** One pass of the loop over a due head: what is left of the timer state. *)
Definition fired_once now t (q : list T) ts ts' : Prop :=
  tinv now ts' /\ (forall x, x <> t -> ts_timers ts' !! x = ts_timers ts !! x) /\
  period (ts_timers ts') t = period (ts_timers ts) t /\
  ((period (ts_timers ts) t = 0 /\ fq (ts_queue ts') cpu = q) \/
   (0 < period (ts_timers ts) t /\
    key now (ts_timers ts') t = rearm (key now (ts_timers ts) t) (period (ts_timers ts) t) /\
    exists l1 l2, q = l1 ++ l2 /\ fq (ts_queue ts') cpu = l1 ++ t :: l2 /\
      (forall a, a ∈ l1 -> key now (ts_timers ts') a <= key now (ts_timers ts') t) /\
      (forall b, b ∈ l2 -> key now (ts_timers ts') t < key now (ts_timers ts') b))).

Lemma fq_del_head c t q (F : gmap nat (list T)) : wf F -> fq F c = t :: q -> fq (del t F) c = q.
Proof. intros Hwf Hq. by apply (fq_del_mid c t F [] q). Qed.

(** The re-armed object is valid and lies [rearm] ahead. *)
Lemma rearm_object now (tm : timer C) :
  near now (tm_scheduled_time tm) -> rel now (tm_scheduled_time tm) <= 0 ->
  0 < tm_periodic_time tm < 2 ^ 30 ->
  let sched := u32 (tm_scheduled_time tm + tm_periodic_time tm) in
  let sched := if TIME_LT sched now then u32 (now + tm_periodic_time tm) else sched in
  rel now sched = rearm (rel now (tm_scheduled_time tm)) (tm_periodic_time tm) /\
  near now sched /\ 0 <= sched < 2 ^ 32.
Proof.
  intros Hnear Hdue Hp sched0 sched. unfold near, rearm in *.
  assert (rel now sched0 = rel now (tm_scheduled_time tm) + tm_periodic_time tm) as E0.
  { unfold sched0. rewrite rel_u32. apply rel_plus. lia. }
  assert (TIME_LT sched0 now = (rel now sched0 <? 0)) as El.
  { unfold TIME_LT. fold (rel now sched0). done. }
  assert (rel now sched = if rel now (tm_scheduled_time tm) + tm_periodic_time tm <? 0
          then tm_periodic_time tm else rel now (tm_scheduled_time tm) + tm_periodic_time tm) as E.
  { unfold sched. rewrite El, E0. destruct (rel now (tm_scheduled_time tm) + tm_periodic_time tm <? 0); [|exact E0]. rewrite rel_u32. apply rel_add. lia. }
  split; [done|]. split.
  - rewrite E. destruct (Z.ltb_spec (rel now (tm_scheduled_time tm) + tm_periodic_time tm) 0); lia.
  - unfold sched. destruct (TIME_LT _ _); apply u32_range.
Qed.

Lemma refired_del now t tm ts :
  tinv now ts -> t ∈ fq (ts_queue ts) cpu -> ts_timers ts !! t = Some tm -> refired cpu t ts (set_queue (del t) ts).
Proof.
  intros Hi Hin Ht. split; try done; simpl.
  - intros x Hx. by apply in_list_del_other.
  - intros c Hc. apply fq_del_other. intros Hin'. by apply Hc, (wf_one _ (ti_wf now ts Hi) c cpu t).
  - intros tm0 Ht0. exists (tm_scheduled_time tm0). by destruct tm0.
  - by rewrite in_list_del.
Qed.

Lemma refired_put now t tm tm' ts (l1 l2 : list T) :
  tinv now ts -> t ∈ fq (ts_queue ts) cpu -> ts_timers ts !! t = Some tm -> 0 < tm_periodic_time tm ->
  tm_magic tm' = tm_magic tm -> tm_periodic_time tm' = tm_periodic_time tm -> tm_callback tm' = tm_callback tm ->
  fq (del t (ts_queue ts)) cpu = l1 ++ l2 ->
  refired cpu t ts (set_queue (<[cpu := l1 ++ t :: l2]>) (set_timers (<[t := tm']>) (set_queue (del t) ts))).
Proof.
  intros Hi Hin Ht Hp E1 E2 E3 Hq. destruct (refired_del now t tm ts Hi Hin Ht) as [R1 R2 R3 R4 R5 R6 R7].
  split; try done; simpl in *.
  - intros x Hx. by rewrite lookup_insert_ne.
  - intros x Hx. rewrite <- R4 by done. apply eq_true_iff_eq. rewrite !in_list_spec.
    split; intros [c Hc]; exists c; rewrite fq_insert in *; case_decide; subst; rewrite ?Hq in *; set_solver.
  - intros c Hc. rewrite fq_insert, decide_False by done. auto.
  - intros tm0 Ht0. rewrite Ht in Ht0. injection Ht0 as <-. exists (tm_scheduled_time tm').
    rewrite lookup_insert_eq. destruct tm'; simpl in *. congruence.
  - intros _. unfold period. by rewrite Ht.
Qed.

(** The hardware stays armed while the due timers are fired. *)
Lemma refired_armed now t q ts ts' :
  armed now ts -> fq (ts_queue ts) cpu = t :: q -> key now (ts_timers ts) t <= 0 -> tinv now ts ->
  refired cpu t ts ts' -> armed now ts'.
Proof.
  intros Ha Hq Hk Hi Hrf c h Hh. pose proof Hrf as [_ Ehw _ _ _ _ _]. rewrite Ehw.
  destruct (refired_elsewhere now t ts ts' Hi ltac:(rewrite Hq; set_solver +) Hrf) as [_ He].
  destruct (decide (c = cpu)) as [->|Hc].
  - destruct (Ha cpu t) as (d & Hd & Hle); [unfold peek_head; by rewrite Hq|]. exists d. split; [done|]. lia.
  - destruct (He c Hc) as (E1 & _ & E3). unfold peek_head in Hh. rewrite E1 in Hh.
    destruct (Ha c h Hh) as (d & Hd & Hle). exists d. split; [done|].
    unfold key, sched in *. by rewrite (E3 h) by (by apply peek_head_queued).
Qed.

Lemma tick_once_due t q fs s :
  tinv time (get_ts s) -> armed time (get_ts s) -> J fs s -> fq (ts_queue (get_ts s)) cpu = t :: q ->
  key time (ts_timers (get_ts s)) t <= 0 ->
  wp (tick_once fire cpu time)
     (fun o s' => is_Some o /\ J (fs ++ [t]) s' /\ refired cpu t (get_ts s) (get_ts s') /\
        fired_once time t q (get_ts s) (get_ts s')) s.
Proof.
  set (now := time). intros Hinv Harm HJ Hq Hdue. set (ts := get_ts s) in *.
  assert (t ∈ fq (ts_queue ts) cpu) as Hin by (rewrite Hq; set_solver +).
  destruct (ti_ok now ts Hinv cpu t Hin) as (tm & Ht & Hm & [cb Hcb] & Hnear & Hrng & Hp).
  pose proof (key_Some now _ t tm Ht) as Hkey. rewrite Hkey in Hdue.
  assert (period (ts_timers ts) t = tm_periodic_time tm) as Hper by (unfold period; by rewrite Ht).
  set (ts1 := set_queue (del t) ts).
  assert (tinv now ts1) as Hinv1 by by apply tinv_del.
  assert (fq (ts_queue ts1) cpu = q) as Hq1 by (apply fq_del_head; [apply Hinv|done]).
  unfold tick_once. wp_step. wp_step. unfold peek_head. fold ts. rewrite Hq. simpl.
  wp_step. apply lift_ts_wp. fold ts. unfold get_timer at 1. do 3 wp_step; [exact Ht|].
  assert (put_ts ts s = s) as -> by apply put_get_ts.
  assert (TIME_LT now (tm_scheduled_time tm) = false) as ->.
  { rewrite (TIME_LT_rel now), rel_self; [lia|unfold near; rewrite rel_self; lia|done]. }
  do 2 wp_step; [rewrite Hm; apply Z.eqb_refl|]. wp_step. apply lift_ts_wp. wp_step. fold ts ts1.
  do 2 wp_step; [done|]. wp_step. eapply wp_mono; [by apply (fire_spec fs cb t tm)|].
  intros r s2 [Hts2 HJ2]. change (get_ts s2 = ts1) in Hts2. fold ts in HJ2.
  wp_step. apply wp_when; intros Hpos.
  - do 2 wp_step. rewrite Hts2. wp_step. apply lift_ts_wp. unfold get_timer. rewrite Hts2.
    do 3 wp_step; [exact Ht|].
    replace (put_ts ts1 s2) with s2 by (rewrite <- Hts2; symmetry; apply put_get_ts).
    change (ts_queue ts1) with (del t (ts_queue ts)). rewrite in_list_del, Hpos. cbn [negb andb when].
    destruct (rearm_object now tm) as (Hre & Hnear' & Hrng'); [done|done|lia|].
    set (sc := if TIME_LT _ _ then _ else _) in *. cbv zeta.
    set (tm' := Timer _ sc _ _). set (ts2 := set_timers (<[t := tm']>) ts1).
    assert (tinv now ts2) as Hinv2 by (apply tinv_update; [done|apply in_list_del]).
    assert (ts_timers ts2 !! t = Some tm') as Ht2 by apply lookup_insert_eq.
    assert (timer_ok now (ts_timers ts2) t) as Hok2.
    { exists tm'. split_and!; try done; simpl; lia. }
    wp_step. apply lift_ts_wp. wp_step. rewrite Hts2. fold ts2. apply lift_ts_wp. rewrite get_put_ts.
    apply (insert_timer_wp now cpu t tm'); [done|done|done|]. intros l1 l2 Hl H1 H2. wp_step.
    rewrite get_put_ts, put_put_ts. split; [by eexists|].
    pose proof (refired_put now t tm tm' ts l1 l2 Hinv Hin Ht ltac:(lia) eq_refl eq_refl eq_refl Hl) as Hrf.
    assert (in_list t (ts_queue ts2) = false) as Hnin by apply in_list_del.
    assert (tinv now (set_queue (<[cpu := l1 ++ t :: l2]>) ts2)) as Hinv3 by by apply tinv_insert.
    split; [apply HJ2; [done|done|by apply (refired_armed now t q ts); [..|by rewrite Hkey| |]]|]. split; [done|].
    split; [done|]. split; [intros x Hx; simpl; by rewrite lookup_insert_ne|].
    split; [unfold period; simpl; by rewrite lookup_insert_eq, Ht|]. right. rewrite Hper. split; [lia|].
    split; [change (ts_timers (set_queue _ ts2)) with (ts_timers ts2);
            rewrite (key_Some now _ t tm' Ht2), Hkey; done|].
    exists l1, l2. split; [by rewrite <- Hl|]. split; [simpl; by rewrite fq_insert, decide_True|]. done.
  - wp_step. split; [by eexists|]. rewrite Hts2.
    assert (refired cpu t ts ts1) as Hrf by by apply (refired_del now t tm).
    assert (armed now ts1) as Harm1 by (apply (refired_armed now t q ts); [done|done|by rewrite Hkey|done|done]).
    split; [specialize (HJ2 ts1 Hrf Hinv1 Harm1); rewrite <- Hts2, put_get_ts in HJ2; done|]. split; [done|]. split; [done|]. split; [done|].
    split; [done|]. left. split; [lia|done].
Qed.

(** The queue of the cpu during the loop: timers due that have not fired, periodic
    timers that have fired and are due again at [now], timers of the future. *)
Record phase now ts (A B D : list T) : Prop := {
  ph_inv : tinv now ts;
  ph_queue : fq (ts_queue ts) cpu = A ++ B ++ D;
  ph_due : forall t, t ∈ A -> key now (ts_timers ts) t <= 0;
  ph_again : forall t, t ∈ B -> key now (ts_timers ts) t = 0 /\ 0 < period (ts_timers ts) t;
  ph_later : forall t, t ∈ D -> 0 < key now (ts_timers ts) t }.

(** Periodic timers whose next time is [now] itself. *)
Definition again now ts (A : list T) : list T :=
  filter (fun t => 0 < period (ts_timers ts) t /\
                   key now (ts_timers ts) t + period (ts_timers ts) t = 0) A.

Lemma again_ext now ts ts' (A : list T) :
  (forall x, x ∈ A -> key now (ts_timers ts') x = key now (ts_timers ts) x /\
                      period (ts_timers ts') x = period (ts_timers ts) x) ->
  again now ts' A = again now ts A.
Proof.
  unfold again. induction A as [|x A IH]; intros Hx; [done|].
  destruct (Hx x ltac:(set_solver +)) as [Ek Ep]. rewrite !filter_cons, Ek, Ep.
  rewrite IH; [done|]. intros y Hy. apply Hx. set_solver +Hy.
Qed.

Lemma rearm_nonneg k p : k <= 0 -> 0 < p -> 0 <= rearm k p /\ (rearm k p = 0 <-> k + p = 0).
Proof. intros. unfold rearm. destruct (Z.ltb_spec (k + p) 0); lia. Qed.

Lemma cut_at_zero (f : T -> Z) (k : Z) (l1 l2 X Y : list T) :
  l1 ++ l2 = X ++ Y -> 0 <= k -> (forall x, x ∈ X -> f x <= 0) -> (forall b, b ∈ l2 -> k < f b) ->
  exists Y1, l1 = X ++ Y1 /\ Y = Y1 ++ l2.
Proof.
  intros E Hk HX Hl2. destruct (app_eq_inv _ _ _ _ E) as [(Z & -> & ->)|(Z & -> & ->)]; [eauto|].
  destruct Z as [|z Z]; [exists []; by rewrite !app_nil_r|].
  specialize (HX z ltac:(set_solver +)). specialize (Hl2 z ltac:(set_solver +)). lia.
Qed.

Lemma lookup_agree t ts ts' x :
  (forall x, x <> t -> ts_timers ts' !! x = ts_timers ts !! x) -> x <> t ->
  (forall now, key now (ts_timers ts') x = key now (ts_timers ts) x) /\
  period (ts_timers ts') x = period (ts_timers ts) x.
Proof. intros Hs Hx. unfold key, sched, period. by rewrite Hs. Qed.

Lemma fq_nodup ts now : tinv now ts -> NoDup (fq (ts_queue ts) cpu).
Proof. intros Hi. apply wf_nodup, Hi. Qed.

(** A pass over a timer that is due for the first time. *)
Lemma phase_step_due now ts ts' t A B D :
  phase now ts (t :: A) B D -> fired_once now t (A ++ B ++ D) ts ts' ->
  exists D', phase now ts' A (B ++ again now ts [t]) D' /\ again now ts' A = again now ts A.
Proof.
  intros [Hi Hq HA HB HD] (Hi' & Hsame & Hper & Hcase).
  pose proof (fq_nodup ts now Hi) as Hnd. rewrite Hq in Hnd. simpl in Hnd.
  apply NoDup_cons in Hnd as [Htn _].
  assert (forall x, x ∈ A ++ B ++ D -> (forall w, key w (ts_timers ts') x = key w (ts_timers ts) x) /\
            period (ts_timers ts') x = period (ts_timers ts) x) as Hag.
  { intros x Hx. apply (lookup_agree t); [done|]. intros ->. done. }
  assert (again now ts' A = again now ts A) as Hagain.
  { apply again_ext. intros x Hx. destruct (Hag x ltac:(set_solver +Hx)) as [-> ->]. done. }
  assert (forall x, x ∈ A -> key now (ts_timers ts') x <= 0) as HA'.
  { intros x Hx. rewrite (proj1 (Hag x ltac:(set_solver +Hx))). apply HA. set_solver +Hx. }
  assert (forall x, x ∈ B -> key now (ts_timers ts') x = 0 /\ 0 < period (ts_timers ts') x) as HB'.
  { intros x Hx. destruct (Hag x ltac:(set_solver +Hx)) as [-> ->]. auto. }
  assert (forall x, x ∈ D -> 0 < key now (ts_timers ts') x) as HD'.
  { intros x Hx. rewrite (proj1 (Hag x ltac:(set_solver +Hx))). auto. }
  pose proof (HA t ltac:(set_solver +)) as Hdue. unfold again. rewrite filter_cons.
  destruct Hcase as [[Hp0 Hq']|(Hpp & Hk & l1 & l2 & Hl & Hq' & H1 & H2)].
  - exists D. rewrite decide_False by lia. rewrite app_nil_r. by split.
  - destruct (rearm_nonneg _ _ Hdue Hpp) as [Hre0 Hre]. rewrite <- Hk in Hre0, Hre.
    destruct (cut_at_zero (key now (ts_timers ts')) (key now (ts_timers ts') t) l1 l2 (A ++ B) D) as (Y & -> & ->);
      [by rewrite <- app_assoc|done| |done|].
    { intros x [Hx|Hx]%elem_of_app; [auto|]. destruct (HB' x Hx). lia. }
    case_decide as Hz.
    + assert (Y = []) as ->.
      { destruct Y as [|y Y]; [done|]. specialize (H1 y ltac:(set_solver +)).
        specialize (HD' y ltac:(set_solver +)). lia. }
      exists l2. split; [|done]. simpl in *. rewrite app_nil_r in *. split; [done| |done| |done].
      * rewrite Hq'. by rewrite <- !app_assoc.
      * intros x [Hx|Hx]%elem_of_app; [auto|]. apply list_elem_of_singleton in Hx as ->. lia.
    + exists (Y ++ t :: l2). rewrite app_nil_r. split; [|done]. split; [done| |done|done|].
      * rewrite Hq'. by rewrite <- !app_assoc.
      * intros x Hx. destruct (decide (x = t)) as [->|Hne]; [lia|apply HD'; set_solver +Hx Hne].
Qed.

(** A pass over a timer that is due again: it moves to the future. *)
Lemma phase_step_again now ts ts' t B D :
  phase now ts [] (t :: B) D -> fired_once now t (B ++ D) ts ts' ->
  exists D', phase now ts' [] B D'.
Proof.
  intros Hph Hf. pose proof Hph as [Hi Hq HA HB HD]. destruct (HB t ltac:(set_solver +)) as [Hk0 Hp].
  destruct (phase_step_due now ts ts' t [] B D) as (D' & HD' & _).
  - split; try done; [intros x Hx|intros x Hx; apply HB; set_solver +Hx].
    apply list_elem_of_singleton in Hx as ->. lia.
  - done.
  - exists D'. unfold again in HD'. rewrite filter_cons_False in HD' by lia.
    by rewrite filter_nil, app_nil_r in HD'.
Qed.

Lemma tick_once_none now s :
  tinv now (get_ts s) ->
  (forall t, t ∈ fq (ts_queue (get_ts s)) cpu -> 0 < key now (ts_timers (get_ts s)) t) ->
  wp (tick_once fire cpu now) (fun o s' => o = None /\ s' = s) s.
Proof.
  intros Hinv Hlater. unfold tick_once. wp_step. wp_step. unfold peek_head.
  destruct (fq (ts_queue (get_ts s)) cpu) as [|t q] eqn:Hq; simpl; [by wp_step|].
  destruct (ti_ok now _ Hinv cpu t) as (tm & Ht & _ & _ & Hnear & _); [rewrite Hq; set_solver +|].
  wp_step. apply lift_ts_wp. unfold get_timer. do 3 wp_step; [exact Ht|].
  specialize (Hlater t ltac:(set_solver +)). rewrite (key_Some now _ t tm Ht) in Hlater.
  rewrite (TIME_LT_rel now), rel_self; [|unfold near; rewrite rel_self; lia|done].
  rewrite (proj2 (Z.ltb_lt _ _) Hlater). wp_step. by rewrite put_get_ts.
Qed.

Lemma tick_loop_wp fuel r A B D fs s :
  J fs s -> armed time (get_ts s) -> phase time (get_ts s) A B D -> (2 * length A + length B < fuel)%nat ->
  wp (tick_loop fire fuel cpu time r)
     (fun _ s' => J (fs ++ A ++ B ++ again time (get_ts s) A) s' /\ elsewhere (get_ts s) (get_ts s') /\ armed time (get_ts s') /\
        exists D', phase time (get_ts s') [] [] D') s.
Proof.
  revert r A B D fs s. induction fuel as [|fuel IH]; intros r A B D fs s HJ Harm Hph Hf; [lia|].
  destruct Hph as [Hi Hq HA HB HD] eqn:Hph0. clear Hph0. cbn [tick_loop]. wp_step.
  destruct A as [|t A]; [destruct B as [|t B]|].
  - eapply wp_mono; [apply tick_once_none; [done|by rewrite Hq]|]. intros o s' [-> ->]. wp_step.
    rewrite app_nil_r. split_and!; [done|apply elsewhere_refl|done|eauto].
  - eapply wp_mono; [apply (tick_once_due t (B ++ D) fs); [done|done|done|done|]|].
    { destruct (HB t ltac:(set_solver +)). lia. }
    intros o s' ([r' ->] & HJ' & Hrf & Hf1).
    assert (armed time (get_ts s')) as Harm'.
    { apply (refired_armed time t (B ++ D) (get_ts s)); try done. destruct (HB t ltac:(set_solver +)). lia. }
    destruct (phase_step_again time _ _ t B D Hph Hf1) as (D' & Hph').
    eapply wp_mono; [apply (IH _ [] B D' _ _ HJ'); [done|done|simpl in *; lia]|].
    intros ? s2 (HJ2 & He2 & ? & ?). split_and!; [by rewrite <- app_assoc in HJ2| |done|done].
    eapply elsewhere_trans; [|done]. apply (refired_elsewhere time t); [done|rewrite Hq; set_solver +|done].
  - eapply wp_mono; [apply (tick_once_due t (A ++ B ++ D) fs); [done|done|done|done|apply HA; set_solver +]|].
    intros o s' ([r' ->] & HJ' & Hrf & Hf1).
    assert (armed time (get_ts s')) as Harm'.
    { apply (refired_armed time t (A ++ B ++ D) (get_ts s)); try done. apply HA. set_solver +. }
    destruct (phase_step_due time _ _ t A B D Hph Hf1) as (D' & Hph' & Hag).
    eapply wp_mono; [apply (IH _ A (B ++ again time (get_ts s) [t]) D' _ _ HJ'); [done|done|]|].
    + rewrite length_app. pose proof (length_filter (fun t => 0 < period (ts_timers (get_ts s)) t /\
        key time (ts_timers (get_ts s)) t + period (ts_timers (get_ts s)) t = 0) [t]) as Hl.
      unfold again. simpl in *. lia.
    + intros ? s2 (HJ2 & He2 & ? & ?). split_and!; [| |done|done].
      * rewrite Hag in HJ2. unfold again at 1. change (t :: A) with ([t] ++ A). rewrite filter_app.
        fold (again time (get_ts s) [t]). fold (again time (get_ts s) A). by rewrite <- !app_assoc in *.
      * eapply elsewhere_trans; [|done]. apply (refired_elsewhere time t); [done|rewrite Hq; set_solver +|done].
Qed.

(** A sorted queue is what is due followed by what is not. *)
Lemma due_prefix (f : T -> Z) (q : list T) :
  StronglySorted (fun a b => f a <= f b) q ->
  exists D, q = filter (fun t => f t <= 0) q ++ D /\ forall t, t ∈ D -> 0 < f t.
Proof.
  induction 1 as [|x q Hs IH Hall]; [exists []; split; [done|set_solver]|].
  rewrite filter_cons. case_decide as Hx.
  - destruct IH as (D & Hq & HD). exists D. split; [simpl; by rewrite <- Hq|done].
  - exists (x :: q). assert (filter (fun t => f t <= 0) q = []) as ->.
    { clear -Hx Hall. induction q as [|y q IH]; [done|]. apply Forall_cons in Hall as [??].
      rewrite filter_cons_False by lia. auto. }
    split; [done|]. rewrite Forall_forall in Hall. intros t [->|Ht]%elem_of_cons; [lia|].
    specialize (Hall t Ht). lia.
Qed.

(** After a tick the hardware of every cpu is armed as before, and that of this one anew. *)
Lemma tick_armed now ts ts' :
  armed now ts -> tinv now ts' -> elsewhere ts ts' ->
  (forall t, peek_head cpu ts' = Some t ->
     exists tm, ts_timers ts' !! t = Some tm /\ ts_hw ts' !! cpu = Some (tm_scheduled_time tm)) ->
  armed now ts'.
Proof.
  intros Ha Hi [_ He] Hh c t Ht. destruct (decide (c = cpu)) as [->|Hc].
  - destruct (Hh t Ht) as (tm & Htm & Hhw). exists (tm_scheduled_time tm). split; [done|].
    rewrite (key_Some now _ t tm Htm). lia.
  - destruct (He c Hc) as (E1 & E2 & E3). unfold peek_head in Ht. rewrite E1 in Ht.
    assert (t ∈ fq (ts_queue ts) c) as Hin by by apply peek_head_queued.
    destruct (Ha c t Ht) as (d & Hd & Hle). exists d. rewrite E2. split; [done|].
    unfold key, sched in *. by rewrite (E3 t Hin).
Qed.

(** [timer_tick], given callbacks that leave the timers alone: it terminates within
    two passes per queued timer, runs the callbacks of the due timers in the order of
    the queue and then those of the periodic timers that are due again at this very
    time, and leaves only future timers, with the hardware programmed for the first. *)
Lemma timer_tick_wp fuel s :
  J [] s -> armed time (get_ts s) -> tinv time (get_ts s) -> (2 * length (fq (ts_queue (get_ts s)) cpu) < fuel)%nat ->
  let due := filter (fun t => key time (ts_timers (get_ts s)) t <= 0) (fq (ts_queue (get_ts s)) cpu) in
  wp (timer_tick fire fuel cpu time)
     (fun _ s' => J (due ++ again time (get_ts s) due) s' /\ elsewhere (get_ts s) (get_ts s') /\ tinv time (get_ts s') /\ armed time (get_ts s') /\
        (forall t, t ∈ fq (ts_queue (get_ts s')) cpu -> 0 < key time (ts_timers (get_ts s')) t) /\
        (forall t, peek_head cpu (get_ts s') = Some t ->
           exists tm, ts_timers (get_ts s') !! t = Some tm /\
             ts_hw (get_ts s') !! cpu = Some (tm_scheduled_time tm))) s.
Proof.
  intros HJ Harm Hinv Hfuel due.
  destruct (due_prefix _ _ (ti_sorted time _ Hinv cpu)) as (D & Hq & HD). fold due in Hq.
  assert (phase time (get_ts s) due [] D) as Hph.
  { split; try done; [|set_solver +]. by intros t [? _]%list_elem_of_filter. }
  assert (length due <= length (fq (ts_queue (get_ts s)) cpu))%nat by apply length_filter.
  unfold timer_tick. wp_step. eapply wp_mono; [apply (tick_loop_wp fuel _ due [] D []); [done|done|done|simpl; lia]|].
  intros r s' (HJ' & He' & Harm' & D' & [Hi' Hq' _ _ HD']). simpl in Hq', HJ'. wp_step. wp_step.
  destruct (peek_head cpu (get_ts s')) as [t|] eqn:Eh.
  - pose proof (peek_head_queued _ _ _ Eh) as Hin.
    destruct (ti_ok time _ Hi' cpu t Hin) as (tm & Ht & _ & _ & Hnear & Hrng & _).
    wp_step. apply lift_ts_wp. unfold get_timer. do 3 wp_step; [exact Ht|]. rewrite put_get_ts.
    assert (0 < rel time (tm_scheduled_time tm)) as Hpos.
    { rewrite <- (key_Some time _ t tm Ht). apply HD'. by rewrite Hq' in Hin. }
    do 2 wp_step; [rewrite (TIME_GT_rel time), rel_self; [lia|done|unfold near; rewrite rel_self; lia]|].
    wp_step. apply lift_ts_wp. unfold platform_set_oneshot_timer. do 2 wp_step. rewrite get_put_ts.
    assert (u32 (time + u32 (tm_scheduled_time tm - time)) = tm_scheduled_time tm) as Eu.
    { unfold u32. rewrite Zplus_mod_idemp_r. replace (time + (tm_scheduled_time tm - time)) with (tm_scheduled_time tm) by lia.
      by apply Z.mod_small. }
    rewrite Eu. assert (armed time (set_hw (<[cpu := tm_scheduled_time tm]>) (get_ts s'))) as Harm2.
    { apply (tick_armed time (get_ts s')); [done|by apply tinv_hw| |].
      - split; [done|]. intros c Hc. split_and!; [done| |done]. simpl. by rewrite lookup_insert_ne.
      - intros x Hx. change (peek_head cpu (get_ts s') = Some x) in Hx. rewrite Eh in Hx. injection Hx as <-.
        exists tm. split; [done|]. simpl. apply lookup_insert_eq. }
    split; [by apply J_hw|]. split.
    { destruct He' as [He1 He2]. split; [done|]. intros c Hc. destruct (He2 c Hc) as (? & ? & ?).
      split_and!; [done| |done]. simpl. by rewrite lookup_insert_ne. }
    split; [by apply tinv_hw|]. split; [done|]. split; [intros x Hx; apply HD'; by rewrite <- Hq'|].
    intros x Hx. change (peek_head cpu (get_ts s') = Some x) in Hx. rewrite Eh in Hx. injection Hx as <-.
    exists tm. split; [done|]. simpl. apply lookup_insert_eq.
  - wp_step. split_and!; [done|done|done|done|intros x Hx; apply HD'; by rewrite <- Hq'|by rewrite Eh].
Qed.
End tick_facts.

(** ** Properties *)
Section properties.
Context {T C : Type} `{Countable T}.
Implicit Types (s : tstate T C) (t : T).

(** C32. C24 (invariant): setting a timer whose object is valid and not queued, with a delay and
    a period below 2^30 ms, never faults; it puts the timer into the queue of
    the calling cpu behind every timer that is not later, keeps all queues in the order of
    the wrapping clock, and keeps the hardware armed no later than each queue's head. *)
Theorem timer_set_keeps_order cpu t tm delay per cb s :
  tinv (ts_now s) s -> armed (ts_now s) s ->
  ts_timers s !! t = Some tm -> tm_magic tm = TIMER_MAGIC -> in_list t (ts_queue s) = false ->
  0 <= delay < 2 ^ 30 -> 0 <= per < 2 ^ 30 ->
  exists s', timer_set cpu t delay per cb s = Done tt s' /\
    tinv (ts_now s) s' /\ armed (ts_now s) s' /\ inserted_at cpu t s s' /\
    sched (ts_timers s') t = u32 (ts_now s + delay).
Proof.
  intros Hi Ha Ht Hm Hn Hd Hp.
  pose proof (timer_set_wp cpu t tm delay per cb s Hi Ha Ht Hm Hn Hd Hp) as Hwp.
  apply wp_done in Hwp as ([] & s' & Hrun & Hi' & Ha' & Hins & Htm & _).
  exists s'. split_and!; try done. rewrite Htm. unfold sched. by rewrite lookup_insert_eq.
Qed.

(** C14 (functional): cancelling a timer takes it out of whatever queue it is in, disarms
    its callback and period so that a running tick does not put it back, and keeps the order of
    the queues and the hardware armed for every remaining head. *)
Theorem timer_cancel_removes cpu t tm s :
  tinv (ts_now s) s -> armed (ts_now s) s ->
  ts_timers s !! t = Some tm -> tm_magic tm = TIMER_MAGIC ->
  exists s', timer_cancel cpu t s = Done tt s' /\
    tinv (ts_now s) s' /\ armed (ts_now s) s' /\ ts_queue s' = del t (ts_queue s) /\
    in_list t (ts_queue s') = false /\
    ts_timers s' !! t = Some (Timer TIMER_MAGIC (tm_scheduled_time tm) 0 None).
Proof.
  intros Hi Ha Ht Hm. pose proof (timer_cancel_wp cpu t tm s Hi Ha Ht Hm) as Hwp.
  apply wp_done in Hwp as ([] & s' & Hrun & Hi' & Ha' & Hq & Htm & _).
  exists s'. rewrite Hq, Htm, in_list_del, lookup_insert_eq. done.
Qed.
End properties.


(** ** A concrete queue across the wrap of the clock *)
Module TimerExample.
Definition st := tstate nat nat.

(** Timer 1 is due, timer 2 is due and periodic with its next time at [now], timer 3 is
    beyond the wrap, timer 4 is not queued. *)
Definition tms : gmap nat (timer nat) :=
  <[1%nat := Timer TIMER_MAGIC (2 ^ 32 - 30) 0 (Some 10%nat)]>
  (<[2%nat := Timer TIMER_MAGIC (2 ^ 32 - 20) 10 (Some 20%nat)]>
  (<[3%nat := Timer TIMER_MAGIC 5 0 (Some 30%nat)]>
  (<[4%nat := Timer TIMER_MAGIC 0 0 None]> ∅))).
Definition now0 : Z := 2 ^ 32 - 10.
Definition s0 : st := TState tms {[ 0%nat := [1%nat; 2%nat; 3%nat] ]} {[ 0%nat := 2 ^ 32 - 30 ]} now0.

Lemma s0_queue c : fq (ts_queue s0) c = if decide (c = 0%nat) then [1%nat; 2%nat; 3%nat] else [].
Proof. unfold s0, fq. simpl. rewrite lookup_singleton. repeat case_decide; done. Qed.

Lemma s0_inv : tinv now0 s0.
Proof.
  split.
  - split; intros k; rewrite !s0_queue.
    + case_decide; repeat (constructor; [set_solver|]); constructor.
    + intros k' n. rewrite !s0_queue. repeat case_decide; set_solver.
  - intros cpu t. rewrite s0_queue. case_decide; [|set_solver]. intros Ht.
    repeat (apply elem_of_cons in Ht as [->|Ht]; [eexists; split; [reflexivity|]; unfold near; vm_compute;
      repeat split; try done; by eexists|]). by apply elem_of_nil in Ht.
  - intros cpu. rewrite s0_queue. case_decide; repeat constructor; vm_compute; done.
Qed.

Lemma s0_armed : armed now0 s0.
Proof.
  intros cpu t. unfold peek_head. rewrite s0_queue. case_decide as Hc; [|done]. intros [= <-]. subst cpu.
  exists (2 ^ 32 - 30). split; [reflexivity|]. vm_compute. done.
Qed.

Lemma timer_set_keeps_order_witness :
  exists s', timer_set 0 4%nat 12 0 40%nat s0 = Done tt s' /\
    tinv now0 s' /\ armed now0 s' /\ inserted_at 0 4%nat s0 s' /\ sched (ts_timers s') 4%nat = 2.
Proof.
  apply (timer_set_keeps_order 0 4%nat (Timer TIMER_MAGIC 0 0 None) 12 0 40%nat s0);
    [apply s0_inv|apply s0_armed|reflexivity|reflexivity|reflexivity|lia|lia].
Defined.

Lemma timer_cancel_removes_witness :
  exists s', timer_cancel 0 1%nat s0 = Done tt s' /\
    tinv now0 s' /\ armed now0 s' /\ ts_queue s' = del 1%nat (ts_queue s0) /\
    in_list 1%nat (ts_queue s') = false /\
    ts_timers s' !! 1%nat = Some (Timer TIMER_MAGIC (2 ^ 32 - 30) 0 None).
Proof.
  apply (timer_cancel_removes 0 1%nat (Timer TIMER_MAGIC (2 ^ 32 - 30) 0 (Some 10%nat)) s0);
    [apply s0_inv|apply s0_armed|reflexivity|reflexivity].
Defined.

(** A state with a log, and callbacks that write their timer to it. *)
Definition world : Type := st * list nat.

#[export, refine] Instance world_timers : @HasTimers nat nat _ _ world :=
  {| get_ts w := fst w; put_ts ts w := (ts, snd w) |}.
Proof. all: [> reflexivity|intros []; reflexivity|reflexivity]. Defined.

Definition log_fire (cb t : nat) (now : Z) : M world handler_return :=
  modify (fun w => (fst w, snd w ++ [t])) ;; ret INT_NO_RESCHEDULE.

(** The log is the list of the timers that have fired. *)
Definition logged (fs : list nat) (w : world) : Prop := snd w = fs.

Lemma logged_hw fs (s : world) f :
  logged fs s -> armed now0 (set_hw f (get_ts s)) -> logged fs (put_ts (set_hw f (get_ts s)) s).
Proof. done. Qed.

Lemma log_fire_spec fs (cb t : nat) (tm : timer nat) (s : world) :
  logged fs s -> t ∈ fq (ts_queue (get_ts s)) 0%nat -> ts_timers (get_ts s) !! t = Some tm ->
  tm_callback tm = Some cb ->
  wp (log_fire cb t now0)
     (fun _ s' => get_ts s' = set_queue (del t) (get_ts s) /\
        forall ts', refired 0 t (get_ts s) ts' -> tinv now0 ts' -> armed now0 ts' -> logged (fs ++ [t]) (put_ts ts' s'))
     (put_ts (set_queue (del t) (get_ts s)) s).
Proof. intros Hl _ _ _. unfold logged in *. subst fs. by split. Qed.

End TimerExample.
