(* ===== verification/KState.v ===== *)
(** * Kernel state: threads, queues, cpus

    The data of [kernel/include/kernel/thread.h], [wait.h], [mp.h] and [mutex.h] as the
    scheduler uses it, and the functions of [kernel/mp.c].  The configuration modelled is the one with
    [WITH_SMP], [PLATFORM_HAS_DYNAMIC_TIMER] and [LK_DEBUGLEVEL > 1] (assertions, thread
    statistics, stack bounds checks).

    Pointers are names: [tid] for [thread_t *] (the idle threads are the static array,
    the others come from the heap), [wqid] for [wait_queue_t *].  The [queue_node] members
    of the threads form the family [k_queues]: one run queue per priority and one
    queue per wait queue. *)

From stdpp Require Import base gmap list fin_maps strings.
From S2P Require Import Prelude ListNode Timer.

Inductive thread_state :=
| THREAD_SUSPENDED
| THREAD_READY
| THREAD_RUNNING
| THREAD_BLOCKED
| THREAD_SLEEPING
| THREAD_DEATH.

#[export] Instance thread_state_eq_dec : EqDecision thread_state.
Proof. solve_decision. Defined.

Definition THREAD_FLAG_DETACHED : Z := 1.
Definition THREAD_FLAG_FREE_STACK : Z := 2.
Definition THREAD_FLAG_FREE_STRUCT : Z := 4.
Definition THREAD_FLAG_REAL_TIME : Z := 8.
Definition THREAD_FLAG_IDLE : Z := 16.
Definition THREAD_FLAG_DEBUG_STACK_BOUNDS_CHECK : Z := 32.

Definition THREAD_MAGIC : Z := 0x74687264.
Definition WAIT_QUEUE_MAGIC : Z := 0x77616974.

Definition NUM_PRIORITIES : Z := 32.
Definition LOWEST_PRIORITY : Z := 0.
Definition HIGHEST_PRIORITY : Z := NUM_PRIORITIES - 1.
Definition IDLE_PRIORITY : Z := LOWEST_PRIORITY.
Definition DEFAULT_PRIORITY : Z := NUM_PRIORITIES / 2.

Definition STACK_DEBUG_WORD : Z := 0x99999999.
Definition THREAD_STACK_PADDING_SIZE : Z := 256.

(** [_idle_threads[cpu]], or a thread structure of the heap or of a caller. *)
Inductive tid := TIdle (cpu : nat) | TThr (n : nat).

#[export] Instance tid_eq_dec : EqDecision tid.
Proof. solve_decision. Defined.

#[export] Instance tid_countable : Countable tid.
Proof.
  refine (inj_countable'
    (fun t => match t with TIdle c => inl c | TThr n => inr n end)
    (fun s => match s with inl c => TIdle c | inr n => TThr n end) _).
  by intros [].
Defined.

(** The wait queues: the [retcode_wait_queue] of a thread and the [wait] member of a mutex,
    a semaphore, an event or a port. *)
Inductive wqid :=
| WRetcode (t : tid)
| WMutex (n : nat)
| WSem (n : nat)
| WEvent (n : nat)
| WPort (n : nat).

#[export] Instance wqid_eq_dec : EqDecision wqid.
Proof. solve_decision. Defined.

#[export] Instance wqid_countable : Countable wqid.
Proof.
  refine (inj_countable'
    (fun w => match w with
              | WRetcode t => inl t
              | WMutex n => inr (0%nat, n)
              | WSem n => inr (1%nat, n)
              | WEvent n => inr (2%nat, n)
              | WPort n => inr (3%nat, n)
              end)
    (fun s => match s with
              | inl t => WRetcode t
              | inr (0%nat, n) => WMutex n
              | inr (1%nat, n) => WSem n
              | inr (2%nat, n) => WEvent n
              | inr (_, n) => WPort n
              end) _).
  by intros [].
Defined.

(** The lists a [queue_node] can be in. *)
Inductive qid := RunQ (p : Z) | WaitQ (w : wqid).

#[export] Instance qid_eq_dec : EqDecision qid.
Proof. solve_decision. Defined.

#[export] Instance qid_countable : Countable qid.
Proof.
  refine (inj_countable'
    (fun q => match q with RunQ p => inl p | WaitQ w => inr w end)
    (fun s => match s with inl p => RunQ p | inr w => WaitQ w end) _).
  by intros [].
Defined.

(** The timers of the scheduler: the preemption timer of a cpu and the stack
    variables of [thread_sleep] and [wait_queue_block]; and their callbacks. *)
Inductive ktimer := TmPreempt (cpu : nat) | TmSleep (t : tid) | TmWait (t : tid).

#[export] Instance ktimer_eq_dec : EqDecision ktimer.
Proof. solve_decision. Defined.

#[export] Instance ktimer_countable : Countable ktimer.
Proof.
  refine (inj_countable'
    (fun x => match x with TmPreempt c => inl c | TmSleep t => inr (inl t) | TmWait t => inr (inr t) end)
    (fun s => match s with inl c => TmPreempt c | inr (inl t) => TmSleep t | inr (inr t) => TmWait t end) _).
  by intros [].
Defined.

Inductive kcallback := CbTick | CbSleep (t : tid) | CbWaitTimeout (t : tid).

Record thread := Thread {
  t_magic : Z;
  t_priority : Z;
  t_state : thread_state;
  t_remaining_quantum : Z;
  t_flags : Z;
  t_curr_cpu : Z;
  t_pinned_cpu : Z;
  t_aspace : option Z;
  t_blocking_wait_queue : option wqid;
  t_wait_queue_block_ret : Z;
  t_stack : option Z;
  t_stack_size : Z;
  t_stack_guard : list Z;
  t_entry : Z;
  t_arg : Z;
  t_retcode : Z;
  t_tls : list Z;
  t_name : string;
  t_total_run_time : Z;
  t_last_run_timestamp : Z;
  t_schedules : Z }.

Definition set_magic (v : Z) (th : thread) : thread :=
  Thread v (t_priority th) (t_state th) (t_remaining_quantum th) (t_flags th) (t_curr_cpu th)
    (t_pinned_cpu th) (t_aspace th) (t_blocking_wait_queue th) (t_wait_queue_block_ret th)
    (t_stack th) (t_stack_size th) (t_stack_guard th) (t_entry th) (t_arg th) (t_retcode th)
    (t_tls th) (t_name th) (t_total_run_time th) (t_last_run_timestamp th) (t_schedules th).
Definition set_priority (v : Z) (th : thread) : thread :=
  Thread (t_magic th) v (t_state th) (t_remaining_quantum th) (t_flags th) (t_curr_cpu th)
    (t_pinned_cpu th) (t_aspace th) (t_blocking_wait_queue th) (t_wait_queue_block_ret th)
    (t_stack th) (t_stack_size th) (t_stack_guard th) (t_entry th) (t_arg th) (t_retcode th)
    (t_tls th) (t_name th) (t_total_run_time th) (t_last_run_timestamp th) (t_schedules th).
Definition set_state (v : thread_state) (th : thread) : thread :=
  Thread (t_magic th) (t_priority th) v (t_remaining_quantum th) (t_flags th) (t_curr_cpu th)
    (t_pinned_cpu th) (t_aspace th) (t_blocking_wait_queue th) (t_wait_queue_block_ret th)
    (t_stack th) (t_stack_size th) (t_stack_guard th) (t_entry th) (t_arg th) (t_retcode th)
    (t_tls th) (t_name th) (t_total_run_time th) (t_last_run_timestamp th) (t_schedules th).
Definition set_remaining_quantum (v : Z) (th : thread) : thread :=
  Thread (t_magic th) (t_priority th) (t_state th) v (t_flags th) (t_curr_cpu th)
    (t_pinned_cpu th) (t_aspace th) (t_blocking_wait_queue th) (t_wait_queue_block_ret th)
    (t_stack th) (t_stack_size th) (t_stack_guard th) (t_entry th) (t_arg th) (t_retcode th)
    (t_tls th) (t_name th) (t_total_run_time th) (t_last_run_timestamp th) (t_schedules th).
Definition set_flags (v : Z) (th : thread) : thread :=
  Thread (t_magic th) (t_priority th) (t_state th) (t_remaining_quantum th) v (t_curr_cpu th)
    (t_pinned_cpu th) (t_aspace th) (t_blocking_wait_queue th) (t_wait_queue_block_ret th)
    (t_stack th) (t_stack_size th) (t_stack_guard th) (t_entry th) (t_arg th) (t_retcode th)
    (t_tls th) (t_name th) (t_total_run_time th) (t_last_run_timestamp th) (t_schedules th).
Definition set_curr_cpu (v : Z) (th : thread) : thread :=
  Thread (t_magic th) (t_priority th) (t_state th) (t_remaining_quantum th) (t_flags th) v
    (t_pinned_cpu th) (t_aspace th) (t_blocking_wait_queue th) (t_wait_queue_block_ret th)
    (t_stack th) (t_stack_size th) (t_stack_guard th) (t_entry th) (t_arg th) (t_retcode th)
    (t_tls th) (t_name th) (t_total_run_time th) (t_last_run_timestamp th) (t_schedules th).
Definition set_pinned_cpu (v : Z) (th : thread) : thread :=
  Thread (t_magic th) (t_priority th) (t_state th) (t_remaining_quantum th) (t_flags th)
    (t_curr_cpu th) v (t_aspace th) (t_blocking_wait_queue th) (t_wait_queue_block_ret th)
    (t_stack th) (t_stack_size th) (t_stack_guard th) (t_entry th) (t_arg th) (t_retcode th)
    (t_tls th) (t_name th) (t_total_run_time th) (t_last_run_timestamp th) (t_schedules th).
Definition set_aspace (v : option Z) (th : thread) : thread :=
  Thread (t_magic th) (t_priority th) (t_state th) (t_remaining_quantum th) (t_flags th)
    (t_curr_cpu th) (t_pinned_cpu th) v (t_blocking_wait_queue th) (t_wait_queue_block_ret th)
    (t_stack th) (t_stack_size th) (t_stack_guard th) (t_entry th) (t_arg th) (t_retcode th)
    (t_tls th) (t_name th) (t_total_run_time th) (t_last_run_timestamp th) (t_schedules th).
Definition set_blocking_wait_queue (v : option wqid) (th : thread) : thread :=
  Thread (t_magic th) (t_priority th) (t_state th) (t_remaining_quantum th) (t_flags th)
    (t_curr_cpu th) (t_pinned_cpu th) (t_aspace th) v (t_wait_queue_block_ret th) (t_stack th)
    (t_stack_size th) (t_stack_guard th) (t_entry th) (t_arg th) (t_retcode th) (t_tls th)
    (t_name th) (t_total_run_time th) (t_last_run_timestamp th) (t_schedules th).
Definition set_wait_queue_block_ret (v : Z) (th : thread) : thread :=
  Thread (t_magic th) (t_priority th) (t_state th) (t_remaining_quantum th) (t_flags th)
    (t_curr_cpu th) (t_pinned_cpu th) (t_aspace th) (t_blocking_wait_queue th) v (t_stack th)
    (t_stack_size th) (t_stack_guard th) (t_entry th) (t_arg th) (t_retcode th) (t_tls th)
    (t_name th) (t_total_run_time th) (t_last_run_timestamp th) (t_schedules th).
Definition set_stack_guard (v : list Z) (th : thread) : thread :=
  Thread (t_magic th) (t_priority th) (t_state th) (t_remaining_quantum th) (t_flags th)
    (t_curr_cpu th) (t_pinned_cpu th) (t_aspace th) (t_blocking_wait_queue th)
    (t_wait_queue_block_ret th) (t_stack th) (t_stack_size th) v (t_entry th) (t_arg th)
    (t_retcode th) (t_tls th) (t_name th) (t_total_run_time th) (t_last_run_timestamp th)
    (t_schedules th).
Definition set_retcode (v : Z) (th : thread) : thread :=
  Thread (t_magic th) (t_priority th) (t_state th) (t_remaining_quantum th) (t_flags th)
    (t_curr_cpu th) (t_pinned_cpu th) (t_aspace th) (t_blocking_wait_queue th)
    (t_wait_queue_block_ret th) (t_stack th) (t_stack_size th) (t_stack_guard th) (t_entry th)
    (t_arg th) v (t_tls th) (t_name th) (t_total_run_time th) (t_last_run_timestamp th)
    (t_schedules th).
Definition set_name (v : string) (th : thread) : thread :=
  Thread (t_magic th) (t_priority th) (t_state th) (t_remaining_quantum th) (t_flags th)
    (t_curr_cpu th) (t_pinned_cpu th) (t_aspace th) (t_blocking_wait_queue th)
    (t_wait_queue_block_ret th) (t_stack th) (t_stack_size th) (t_stack_guard th) (t_entry th)
    (t_arg th) (t_retcode th) (t_tls th) v (t_total_run_time th) (t_last_run_timestamp th)
    (t_schedules th).
Definition set_total_run_time (v : Z) (th : thread) : thread :=
  Thread (t_magic th) (t_priority th) (t_state th) (t_remaining_quantum th) (t_flags th)
    (t_curr_cpu th) (t_pinned_cpu th) (t_aspace th) (t_blocking_wait_queue th)
    (t_wait_queue_block_ret th) (t_stack th) (t_stack_size th) (t_stack_guard th) (t_entry th)
    (t_arg th) (t_retcode th) (t_tls th) (t_name th) v (t_last_run_timestamp th) (t_schedules
    th).
Definition set_last_run_timestamp (v : Z) (th : thread) : thread :=
  Thread (t_magic th) (t_priority th) (t_state th) (t_remaining_quantum th) (t_flags th)
    (t_curr_cpu th) (t_pinned_cpu th) (t_aspace th) (t_blocking_wait_queue th)
    (t_wait_queue_block_ret th) (t_stack th) (t_stack_size th) (t_stack_guard th) (t_entry th)
    (t_arg th) (t_retcode th) (t_tls th) (t_name th) (t_total_run_time th) v (t_schedules th).
Definition set_schedules (v : Z) (th : thread) : thread :=
  Thread (t_magic th) (t_priority th) (t_state th) (t_remaining_quantum th) (t_flags th)
    (t_curr_cpu th) (t_pinned_cpu th) (t_aspace th) (t_blocking_wait_queue th)
    (t_wait_queue_block_ret th) (t_stack th) (t_stack_size th) (t_stack_guard th) (t_entry th)
    (t_arg th) (t_retcode th) (t_tls th) (t_name th) (t_total_run_time th) (t_last_run_timestamp
    th) v.

Record wait_queue := WaitQueue { wq_magic : Z; wq_count : Z }.

Record mp_state := MpState { active_cpus : Z; idle_cpus : Z; realtime_cpus : Z }.

(** [struct thread_stats], the part the scheduler writes. *)
Record cpu_stats := CpuStats {
  st_idle_time : Z;
  st_last_idle_timestamp : Z;
  st_reschedules : Z;
  st_context_switches : Z;
  st_preempts : Z;
  st_yields : Z }.

(** What has been given back to the heap, by [heap_delayed_free] or by [free]. *)
Inductive freed := FreeStack (delayed : bool) (a : Z) | FreeThread (delayed : bool) (t : tid).

(** The state under [thread_lock]: [k_ipis] are the masks sent to
    [arch_mp_send_ipi], last first; [k_mmu] is the address space each cpu runs on;
    [k_now_hires] is what [current_time_hires] reads. *)
Record kstate := KState {
  k_threads : gmap tid thread;
  k_thread_list : list tid;
  k_queues : gmap qid (list tid);
  k_bitmap : Z;
  k_waits : gmap wqid wait_queue;
  k_current : gmap nat tid;
  k_mp : mp_state;
  k_ipis : list Z;
  k_timers : tstate ktimer kcallback;
  k_mmu : gmap nat (option Z);
  k_stats : gmap nat cpu_stats;
  k_now_hires : Z;
  k_freed : list freed }.

Definition on_threads (f : gmap tid thread -> gmap tid thread) (k : kstate) : kstate :=
  KState (f (k_threads k)) (k_thread_list k) (k_queues k) (k_bitmap k) (k_waits k) (k_current
    k) (k_mp k) (k_ipis k) (k_timers k) (k_mmu k) (k_stats k) (k_now_hires k) (k_freed k).
Definition on_thread_list (f : list tid -> list tid) (k : kstate) : kstate :=
  KState (k_threads k) (f (k_thread_list k)) (k_queues k) (k_bitmap k) (k_waits k) (k_current
    k) (k_mp k) (k_ipis k) (k_timers k) (k_mmu k) (k_stats k) (k_now_hires k) (k_freed k).
Definition on_queues (f : gmap qid (list tid) -> gmap qid (list tid)) (k : kstate) : kstate :=
  KState (k_threads k) (k_thread_list k) (f (k_queues k)) (k_bitmap k) (k_waits k) (k_current
    k) (k_mp k) (k_ipis k) (k_timers k) (k_mmu k) (k_stats k) (k_now_hires k) (k_freed k).
Definition on_bitmap (f : Z -> Z) (k : kstate) : kstate :=
  KState (k_threads k) (k_thread_list k) (k_queues k) (f (k_bitmap k)) (k_waits k) (k_current
    k) (k_mp k) (k_ipis k) (k_timers k) (k_mmu k) (k_stats k) (k_now_hires k) (k_freed k).
Definition on_waits (f : gmap wqid wait_queue -> gmap wqid wait_queue) (k : kstate) : kstate :=
  KState (k_threads k) (k_thread_list k) (k_queues k) (k_bitmap k) (f (k_waits k)) (k_current
    k) (k_mp k) (k_ipis k) (k_timers k) (k_mmu k) (k_stats k) (k_now_hires k) (k_freed k).
Definition on_current (f : gmap nat tid -> gmap nat tid) (k : kstate) : kstate :=
  KState (k_threads k) (k_thread_list k) (k_queues k) (k_bitmap k) (k_waits k) (f (k_current
    k)) (k_mp k) (k_ipis k) (k_timers k) (k_mmu k) (k_stats k) (k_now_hires k) (k_freed
    k).
Definition on_mp (f : mp_state -> mp_state) (k : kstate) : kstate :=
  KState (k_threads k) (k_thread_list k) (k_queues k) (k_bitmap k) (k_waits k) (k_current k)
    (f (k_mp k)) (k_ipis k) (k_timers k) (k_mmu k) (k_stats k) (k_now_hires k) (k_freed
    k).
Definition on_ipis (f : list Z -> list Z) (k : kstate) : kstate :=
  KState (k_threads k) (k_thread_list k) (k_queues k) (k_bitmap k) (k_waits k) (k_current k)
    (k_mp k) (f (k_ipis k)) (k_timers k) (k_mmu k) (k_stats k) (k_now_hires k) (k_freed
    k).
Definition on_timers (f : tstate ktimer kcallback -> tstate ktimer kcallback) (k : kstate) : kstate :=
  KState (k_threads k) (k_thread_list k) (k_queues k) (k_bitmap k) (k_waits k) (k_current k)
    (k_mp k) (k_ipis k) (f (k_timers k)) (k_mmu k) (k_stats k) (k_now_hires k) (k_freed
    k).
Definition on_mmu (f : gmap nat (option Z) -> gmap nat (option Z)) (k : kstate) : kstate :=
  KState (k_threads k) (k_thread_list k) (k_queues k) (k_bitmap k) (k_waits k) (k_current k)
    (k_mp k) (k_ipis k) (k_timers k) (f (k_mmu k)) (k_stats k) (k_now_hires k) (k_freed
    k).
Definition on_stats (f : gmap nat cpu_stats -> gmap nat cpu_stats) (k : kstate) : kstate :=
  KState (k_threads k) (k_thread_list k) (k_queues k) (k_bitmap k) (k_waits k) (k_current k)
    (k_mp k) (k_ipis k) (k_timers k) (k_mmu k) (f (k_stats k)) (k_now_hires k) (k_freed
    k).
Definition on_freed (f : list freed -> list freed) (k : kstate) : kstate :=
  KState (k_threads k) (k_thread_list k) (k_queues k) (k_bitmap k) (k_waits k) (k_current k)
    (k_mp k) (k_ipis k) (k_timers k) (k_mmu k) (k_stats k) (k_now_hires k) (f (k_freed
    k)).

(** ** Access to threads, wait queues and the current thread *)

Definition get_thread (t : tid) : M kstate thread := do m <- gets k_threads; deref (m !! t).
Definition upd_thread (t : tid) (f : thread -> thread) : M kstate unit :=
  do th <- get_thread t; modify (on_threads (<[t := f th]>)).
Definition get_wait (w : wqid) : M kstate wait_queue := do m <- gets k_waits; deref (m !! w).
Definition upd_wait (w : wqid) (f : wait_queue -> wait_queue) : M kstate unit :=
  do wq <- get_wait w; modify (on_waits (<[w := f wq]>)).
Definition get_current_thread (cpu : nat) : M kstate tid := do m <- gets k_current; deref (m !! cpu).

#[export, refine] Instance kstate_timers : @HasTimers ktimer kcallback _ _ kstate :=
  {| get_ts k := k_timers k; put_ts ts k := on_timers (fun _ => ts) k |}.
Proof. all: [> reflexivity|intros []; reflexivity|reflexivity]. Defined.

Definition ktimers {A} (m : M (tstate ktimer kcallback) A) : M kstate A := lift_ts m.

(** Flag tests of kernel/thread.c. *)
Definition has_flag (th : thread) (f : Z) : bool := negb (Z.land (t_flags th) f =? 0).
Definition thread_is_realtime (th : thread) : bool :=
  has_flag th THREAD_FLAG_REAL_TIME && (DEFAULT_PRIORITY <? t_priority th).
Definition thread_is_idle (th : thread) : bool := has_flag th THREAD_FLAG_IDLE.
Definition thread_is_real_time_or_idle (th : thread) : bool :=
  has_flag th (Z.lor THREAD_FLAG_REAL_TIME THREAD_FLAG_IDLE).

(** ** [kernel/mp.c] *)

Definition MP_CPU_ALL_BUT_LOCAL : Z := 2 ^ 32 - 1.
Definition MP_RESCHEDULE_FLAG_REALTIME : Z := 1.

(** The mask [mp_reschedule] sends, none when it is empty. *)
Definition mp_reschedule_mask (m : mp_state) (cpu : nat) (target flags : Z) : Z :=
  let target := Z.land target (active_cpus m) in
  let target := if Z.land flags MP_RESCHEDULE_FLAG_REALTIME =? 0
                then Z.land target (Z.lnot (realtime_cpus m)) else target in
  Z.land target (Z.lnot (bit (Z.of_nat cpu))).

Definition mp_reschedule (cpu : nat) (target flags : Z) : M kstate unit :=
  do m <- gets k_mp;
  let target := mp_reschedule_mask m cpu target flags in
  when (negb (target =? 0)) (modify (on_ipis (cons target))).

(** The argument is not used by the code. *)
Definition mp_set_curr_cpu_active (cpu : nat) (active : bool) : M kstate unit :=
  modify (on_mp (fun m =>
    MpState (bit_set (active_cpus m) (Z.of_nat cpu)) (idle_cpus m) (realtime_cpus m))).

Definition mp_set_cpu_idle (cpu : nat) : M kstate unit :=
  modify (on_mp (fun m => MpState (active_cpus m) (bit_set (idle_cpus m) (Z.of_nat cpu)) (realtime_cpus m))).
Definition mp_set_cpu_busy (cpu : nat) : M kstate unit :=
  modify (on_mp (fun m => MpState (active_cpus m) (bit_clear (idle_cpus m) (Z.of_nat cpu)) (realtime_cpus m))).
Definition mp_set_cpu_realtime (cpu : nat) : M kstate unit :=
  modify (on_mp (fun m => MpState (active_cpus m) (idle_cpus m) (bit_set (realtime_cpus m) (Z.of_nat cpu)))).
Definition mp_set_cpu_non_realtime (cpu : nat) : M kstate unit :=
  modify (on_mp (fun m => MpState (active_cpus m) (idle_cpus m) (bit_clear (realtime_cpus m) (Z.of_nat cpu)))).

Definition mp_mbx_reschedule_irq (k : kstate) (cpu : nat) : handler_return :=
  if negb (Z.land (active_cpus (k_mp k)) (bit (Z.of_nat cpu)) =? 0) then INT_RESCHEDULE
  else INT_NO_RESCHEDULE.
