(* ===== verification/Sched.v ===== *)
(** * The scheduler ([kernel/thread.c]: run queues, rescheduling, yielding)

    Every operation runs under [thread_lock] on the cpu it is given; the ones that
    switch threads leave the new thread in [k_current]. *)

From stdpp Require Import base gmap list fin_maps strings.
From S2P Require Import Prelude ListNode Timer KState.
Import Family.

Definition state_is (th : thread) (s : thread_state) : bool := bool_decide (t_state th = s).

(** ** Run queues *)

Definition run_queue_index (p : Z) : M kstate unit :=
  if (0 <=? p) && (p <? NUM_PRIORITIES) then ret tt else fail BadPointer.

Definition insert_in_run_queue_head (t : tid) : M kstate unit :=
  do th <- get_thread t;
  massert (t_magic th =? THREAD_MAGIC) ;;
  massert (state_is th THREAD_READY) ;;
  do q <- gets k_queues;
  massert (negb (in_list t q)) ;;
  run_queue_index (t_priority th) ;;
  modify (on_queues (add_head (RunQ (t_priority th)) t)) ;;
  modify (on_bitmap (fun b => bit_set b (t_priority th))).

Definition insert_in_run_queue_tail (t : tid) : M kstate unit :=
  do th <- get_thread t;
  massert (t_magic th =? THREAD_MAGIC) ;;
  massert (state_is th THREAD_READY) ;;
  do q <- gets k_queues;
  massert (negb (in_list t q)) ;;
  run_queue_index (t_priority th) ;;
  modify (on_queues (add_tail (RunQ (t_priority th)) t)) ;;
  modify (on_bitmap (fun b => bit_set b (t_priority th))).

Definition wakeup_cpu_for_thread (cpu : nat) (t : tid) : M kstate unit :=
  do th <- get_thread t;
  if t_pinned_cpu th <? 0 then mp_reschedule cpu MP_CPU_ALL_BUT_LOCAL 0
  else mp_reschedule cpu (u32 (bit (t_pinned_cpu th))) 0.

(** May the thread run on the cpu? *)
Definition eligible (cpu : nat) (th : thread) : bool :=
  (t_pinned_cpu th <? 0) || (t_pinned_cpu th =? Z.of_nat cpu).

(** The walk of [get_top_thread] over one run queue. *)
Fixpoint first_eligible (ths : gmap tid thread) (cpu : nat) (l : list tid) : option (option tid) :=
  match l with
  | [] => Some None
  | t :: l =>
      th ← ths !! t;
      if eligible cpu th then Some (Some t) else first_eligible ths cpu l
  end.

Fixpoint top_loop (fuel : nat) (cpu : nat) (local_run_queue_bitmap : Z) : M kstate tid :=
  if local_run_queue_bitmap =? 0 then ret (TIdle cpu)
  else match fuel with
  | O => fail OutOfFuel
  | S fuel =>
      let next_queue := Z.log2 local_run_queue_bitmap in
      do k <- gets id;
      do o <- deref (first_eligible (k_threads k) cpu (fq (k_queues k) (RunQ next_queue)));
      match o with
      | Some newthread =>
          modify (on_queues (del newthread)) ;;
          do q <- gets (fun k => fq (k_queues k) (RunQ next_queue));
          when (bool_decide (q = [])) (modify (on_bitmap (fun b => bit_clear b next_queue))) ;;
          ret newthread
      | None => top_loop fuel cpu (bit_clear local_run_queue_bitmap next_queue)
      end
  end.

(** [sizeof(run_queue_bitmap) * 8 - 1 - __builtin_clz(b)] is the binary logarithm of a
    non-zero 32-bit number; the loop clears one bit per pass, so 32 passes are enough. *)
Definition get_top_thread (cpu : nat) : M kstate tid :=
  do b <- gets k_bitmap; top_loop 32 cpu b.

(** ** Rescheduling *)

Definition stats_upd (cpu : nat) (f : cpu_stats -> cpu_stats) : M kstate unit :=
  do m <- gets k_stats; do st <- deref (m !! cpu); modify (on_stats (<[cpu := f st]>)).

Definition inc_reschedules (st : cpu_stats) : cpu_stats :=
  CpuStats (st_idle_time st) (st_last_idle_timestamp st) (st_reschedules st + 1)
    (st_context_switches st) (st_preempts st) (st_yields st).
Definition inc_context_switches (st : cpu_stats) : cpu_stats :=
  CpuStats (st_idle_time st) (st_last_idle_timestamp st) (st_reschedules st)
    (st_context_switches st + 1) (st_preempts st) (st_yields st).
Definition inc_preempts (st : cpu_stats) : cpu_stats :=
  CpuStats (st_idle_time st) (st_last_idle_timestamp st) (st_reschedules st)
    (st_context_switches st) (st_preempts st + 1) (st_yields st).
Definition inc_yields (st : cpu_stats) : cpu_stats :=
  CpuStats (st_idle_time st) (st_last_idle_timestamp st) (st_reschedules st)
    (st_context_switches st) (st_preempts st) (st_yields st + 1).
Definition end_idle (now : Z) (st : cpu_stats) : cpu_stats :=
  CpuStats (st_idle_time st + (now - st_last_idle_timestamp st)) (st_last_idle_timestamp st)
    (st_reschedules st) (st_context_switches st) (st_preempts st) (st_yields st).
Definition begin_idle (now : Z) (st : cpu_stats) : cpu_stats :=
  CpuStats (st_idle_time st) now (st_reschedules st) (st_context_switches st) (st_preempts st)
    (st_yields st).

(** The [WITH_SMP] part: what the cpus are known to be up to. *)
Definition resched_mp (cpu : nat) (newthread : tid) : M kstate unit :=
  do nth <- get_thread newthread;
  (if thread_is_idle nth then mp_set_cpu_idle cpu else mp_set_cpu_busy cpu) ;;
  (if thread_is_realtime nth then mp_set_cpu_realtime cpu else mp_set_cpu_non_realtime cpu).

(** The [THREAD_STATS] part. *)
Definition resched_stats (cpu : nat) (oldthread newthread : tid) : M kstate unit :=
  stats_upd cpu inc_context_switches ;;
  do now <- gets k_now_hires;
  do oth <- get_thread oldthread;
  (if thread_is_idle oth then stats_upd cpu (end_idle now)
   else upd_thread oldthread
          (fun th => set_total_run_time (t_total_run_time th + (now - t_last_run_timestamp th)) th)) ;;
  do nth <- get_thread newthread;
  (if thread_is_idle nth then stats_upd cpu (begin_idle now)
   else upd_thread newthread
          (fun th => set_schedules (t_schedules th + 1) (set_last_run_timestamp now th))).

(** The [PLATFORM_HAS_DYNAMIC_TIMER] part: the preemption timer runs while an ordinary
    thread does. *)
Definition resched_preempt_timer (cpu : nat) (oldthread newthread : tid) : M kstate unit :=
  do oth <- get_thread oldthread;
  do nth <- get_thread newthread;
  if thread_is_real_time_or_idle nth then
    when (negb (thread_is_real_time_or_idle oth)) (ktimers (timer_cancel cpu (TmPreempt cpu)))
  else
    when (thread_is_real_time_or_idle oth)
      (ktimers (timer_set_periodic cpu (TmPreempt cpu) 10 CbTick)).

(** The [THREAD_STACK_BOUNDS_CHECK] part: the padding words at the bottom of the stack. *)
Definition resched_stack_check (oldthread : tid) : M kstate unit :=
  do oth <- get_thread oldthread;
  when (has_flag oth THREAD_FLAG_DEBUG_STACK_BOUNDS_CHECK)
    (if forallb (fun w => w =? STACK_DEBUG_WORD) (t_stack_guard oth) then ret tt else fail Panic).

Definition resched_aspace (cpu : nat) (oldthread newthread : tid) : M kstate unit :=
  do oth <- get_thread oldthread;
  do nth <- get_thread newthread;
  when (bool_decide (t_aspace nth <> t_aspace oth))
    (modify (on_mmu (<[cpu := t_aspace nth]>))).

(** The part of [thread_resched] after the new thread is known to be another one. *)
Definition resched_switch (cpu : nat) (oldthread newthread : tid) : M kstate unit :=
  upd_thread newthread
    (fun th => if t_remaining_quantum th <=? 0 then set_remaining_quantum 5 th else th) ;;
  upd_thread oldthread (set_curr_cpu (-1)) ;;
  upd_thread newthread (set_curr_cpu (Z.of_nat cpu)) ;;
  resched_mp cpu newthread ;;
  resched_stats cpu oldthread newthread ;;
  resched_preempt_timer cpu oldthread newthread ;;
  modify (on_current (<[cpu := newthread]>)) ;;
  resched_stack_check oldthread ;;
  resched_aspace cpu oldthread newthread.

Definition thread_resched (cpu : nat) : M kstate unit :=
  do current_thread <- get_current_thread cpu;
  do cth <- get_thread current_thread;
  massert (negb (state_is cth THREAD_RUNNING)) ;;
  stats_upd cpu inc_reschedules ;;
  do newthread <- get_top_thread cpu;
  upd_thread newthread (set_state THREAD_RUNNING) ;;
  let oldthread := current_thread in
  if decide (newthread = oldthread) then ret tt
  else resched_switch cpu oldthread newthread.

Definition thread_yield (cpu : nat) : M kstate unit :=
  do current_thread <- get_current_thread cpu;
  do th <- get_thread current_thread;
  massert (t_magic th =? THREAD_MAGIC) ;;
  massert (state_is th THREAD_RUNNING) ;;
  stats_upd cpu inc_yields ;;
  upd_thread current_thread (fun th => set_remaining_quantum 0 (set_state THREAD_READY th)) ;;
  when (negb (thread_is_idle th)) (insert_in_run_queue_tail current_thread) ;;
  thread_resched cpu.

Definition thread_preempt (cpu : nat) : M kstate unit :=
  do current_thread <- get_current_thread cpu;
  do th <- get_thread current_thread;
  massert (t_magic th =? THREAD_MAGIC) ;;
  massert (state_is th THREAD_RUNNING) ;;
  when (negb (thread_is_idle th)) (stats_upd cpu inc_preempts) ;;
  upd_thread current_thread (set_state THREAD_READY) ;;
  when (negb (thread_is_idle th))
    (if 0 <? t_remaining_quantum th then insert_in_run_queue_head current_thread
     else insert_in_run_queue_tail current_thread) ;;
  thread_resched cpu.

Definition thread_block (cpu : nat) : M kstate unit :=
  do current_thread <- get_current_thread cpu;
  do th <- get_thread current_thread;
  massert (t_magic th =? THREAD_MAGIC) ;;
  massert (state_is th THREAD_BLOCKED) ;;
  massert (negb (thread_is_idle th)) ;;
  thread_resched cpu.

Definition thread_unblock (cpu : nat) (t : tid) (resched : bool) : M kstate unit :=
  do th <- get_thread t;
  massert (t_magic th =? THREAD_MAGIC) ;;
  massert (state_is th THREAD_BLOCKED) ;;
  massert (negb (thread_is_idle th)) ;;
  upd_thread t (set_state THREAD_READY) ;;
  insert_in_run_queue_head t ;;
  wakeup_cpu_for_thread cpu t ;;
  when resched (thread_resched cpu).

Definition thread_timer_tick (cpu : nat) : M kstate handler_return :=
  do current_thread <- get_current_thread cpu;
  do th <- get_thread current_thread;
  if thread_is_real_time_or_idle th then ret INT_NO_RESCHEDULE
  else
    upd_thread current_thread (set_remaining_quantum (t_remaining_quantum th - 1)) ;;
    ret (if t_remaining_quantum th - 1 <=? 0 then INT_RESCHEDULE else INT_NO_RESCHEDULE).

Definition clamp_priority (priority : Z) : Z :=
  let priority := if priority <=? IDLE_PRIORITY then IDLE_PRIORITY + 1 else priority in
  if HIGHEST_PRIORITY <? priority then HIGHEST_PRIORITY else priority.

Definition thread_set_priority (cpu : nat) (priority : Z) : M kstate unit :=
  do current_thread <- get_current_thread cpu;
  upd_thread current_thread
    (fun th => set_state THREAD_READY (set_priority (clamp_priority priority) th)) ;;
  insert_in_run_queue_head current_thread ;;
  thread_resched cpu.

Definition thread_set_real_time (cpu : nat) (t : option tid) : M kstate Z :=
  match t with
  | None => ret ERR_INVALID_ARGS
  | Some t =>
      do th <- get_thread t;
      massert (t_magic th =? THREAD_MAGIC) ;;
      do cur <- get_current_thread cpu;
      when (bool_decide (t = cur)) (ktimers (timer_cancel cpu (TmPreempt cpu))) ;;
      upd_thread t (fun th => set_flags (Z.lor (t_flags th) THREAD_FLAG_REAL_TIME) th) ;;
      ret NO_ERROR
  end.

Definition thread_set_name (cpu : nat) (name : string) : M kstate unit :=
  do current_thread <- get_current_thread cpu;
  upd_thread current_thread (set_name (String.substring 0 31 name)).

(** ** The invariant of the scheduler

    [L] is the set of threads in transit, taken off one place and not yet put on another;
    [off] is the cpu in the middle of a switch, whose current thread is not running any
    more.  Between operations [L] is empty and [off] is [None]. *)

Definition is_idle_tid (t : tid) : bool := match t with TIdle _ => true | TThr _ => false end.

(** What being in a queue says about a thread. *)
Definition member_ok (q : qid) (th : thread) : Prop :=
  t_magic th = THREAD_MAGIC /\ thread_is_idle th = false /\
  match q with
  | RunQ p => t_state th = THREAD_READY /\ t_priority th = p
  | WaitQ w => t_state th = THREAD_BLOCKED /\ t_blocking_wait_queue th = Some w
  end.

(** Where the state of a thread says it is. *)
Definition placed (qs : gmap qid (list tid)) (cur : gmap nat tid) (off : option nat)
    (t : tid) (th : thread) : Prop :=
  match t_state th with
  | THREAD_READY => thread_is_idle th = false -> t ∈ fq qs (RunQ (t_priority th))
  | THREAD_BLOCKED => exists w, t_blocking_wait_queue th = Some w /\ t ∈ fq qs (WaitQ w)
  | THREAD_RUNNING => exists cpu, cur !! cpu = Some t /\ off <> Some cpu
  | _ => True
  end.

Record sinv_ (L : gset tid) (off : option nat) (ths : gmap tid thread) (qs : gmap qid (list tid))
    (bm : Z) (ws : gmap wqid wait_queue) (cur : gmap nat tid) : Prop := {
  si_wf : wf qs;
  si_range : 0 <= bm < 2 ^ 32;
  si_bitmap : forall p, 0 <= p < 32 -> Z.testbit bm p = true <-> fq qs (RunQ p) <> [];
  si_member : forall q t, t ∈ fq qs q -> t ∉ L /\ exists th, ths !! t = Some th /\ member_ok q th;
  si_placed : forall t th, ths !! t = Some th -> t ∉ L -> placed qs cur off t th;
  si_prio : forall t th, ths !! t = Some th -> 0 <= t_priority th < 32;
  si_idle : forall t th, ths !! t = Some th -> thread_is_idle th = is_idle_tid t /\
              forall c, t = TIdle c -> t_pinned_cpu th = Z.of_nat c;
  si_count : forall w, fq qs (WaitQ w) <> [] \/ is_Some (ws !! w) ->
               exists wq, ws !! w = Some wq /\ wq_count wq = Z.of_nat (length (fq qs (WaitQ w))) /\
                 (fq qs (WaitQ w) <> [] -> wq_magic wq = WAIT_QUEUE_MAGIC);
  si_current : forall cpu t, cur !! cpu = Some t ->
                 exists th, ths !! t = Some th /\ eligible cpu th = true /\
                   (off <> Some cpu -> t ∉ L /\ t_state th = THREAD_RUNNING /\ t_magic th = THREAD_MAGIC);
  si_inj : forall c1 c2 t, cur !! c1 = Some t -> cur !! c2 = Some t -> c1 = c2;
  si_cpu : forall cpu, is_Some (cur !! cpu) ->
             exists th, ths !! TIdle cpu = Some th /\ t_magic th = THREAD_MAGIC /\
               (TIdle cpu ∉ L -> t_state th = THREAD_READY \/ t_state th = THREAD_RUNNING) }.

Definition sinv (L : gset tid) (off : option nat) (k : kstate) : Prop :=
  sinv_ L off (k_threads k) (k_queues k) (k_bitmap k) (k_waits k) (k_current k).

(** What the invariant reads of a thread. *)
Definition same_key (th th' : thread) : Prop :=
  t_magic th' = t_magic th /\ t_priority th' = t_priority th /\ t_state th' = t_state th /\
  thread_is_idle th' = thread_is_idle th /\ t_pinned_cpu th' = t_pinned_cpu th /\
  t_blocking_wait_queue th' = t_blocking_wait_queue th.

Section invariant.
Implicit Types (L : gset tid) (off : option nat) (ths : gmap tid thread) (qs : gmap qid (list tid)).
Implicit Types (bm : Z) (ws : gmap wqid wait_queue) (cur : gmap nat tid) (t : tid) (th : thread).

Lemma has_flag_same th th' f : t_flags th' = t_flags th -> has_flag th' f = has_flag th f.
Proof. unfold has_flag. by intros ->. Qed.

Lemma same_key_member q th th' : same_key th th' -> member_ok q th -> member_ok q th'.
Proof.
  intros (E1 & E2 & E3 & E4 & E5 & E6). unfold member_ok. rewrite E4. destruct q; by rewrite E1, ?E2, E3, ?E6.
Qed.

Lemma same_key_placed qs cur off t th th' :
  same_key th th' -> placed qs cur off t th -> placed qs cur off t th'.
Proof.
  intros (E1 & E2 & E3 & E4 & E5 & E6). unfold placed. by rewrite E2, E3, E4, E6.
Qed.

(** The lookups of a map with one entry changed. *)
Lemma lookup_upd (m : gmap tid thread) t th' t0 th0 :
  <[t := th']> m !! t0 = Some th0 -> (t0 = t /\ th0 = th') \/ (t0 <> t /\ m !! t0 = Some th0).
Proof. rewrite lookup_insert. case_decide; intros; simplify_eq; eauto. Qed.

(** Writing fields the scheduler does not read. *)
Lemma sinv_same_key L off ths qs bm ws cur t th th' :
  sinv_ L off ths qs bm ws cur -> ths !! t = Some th -> same_key th th' ->
  sinv_ L off (<[t := th']> ths) qs bm ws cur.
Proof.
  intros [S1 S2 S3 S4 S5 S6 S7 S8 S9 S10 S11] Ht Hk. split; try done.
  - intros q t0 Hin. destruct (S4 q t0 Hin) as [HL (th0 & Ht0 & Hm)]. split; [done|].
    destruct (decide (t = t0)) as [->|Hne].
    + exists th'. rewrite lookup_insert_eq. split; [done|]. simplify_eq. by apply (same_key_member q th).
    + exists th0. by rewrite lookup_insert_ne.
  - intros t0 th0 [[-> ->]|[Hne Ht0]]%lookup_upd HL; [|by apply S5].
    apply (same_key_placed _ _ _ _ th); [done|]. by apply S5.
  - intros t0 th0 [[-> ->]|[Hne Ht0]]%lookup_upd; [|by apply (S6 t0)].
    destruct Hk as (_ & -> & _). by apply (S6 t).
  - intros t0 th0 [[-> ->]|[Hne Ht0]]%lookup_upd; [|by apply (S7 t0)].
    destruct Hk as (_ & _ & _ & -> & -> & _). by apply (S7 t).
  - intros cpu t0 Hc. destruct (S9 cpu t0 Hc) as (th0 & Ht0 & He & Hr).
    destruct (decide (t = t0)) as [->|Hne].
    + exists th'. rewrite lookup_insert_eq. simplify_eq. destruct Hk as (E1 & _ & E3 & _ & E5 & _).
      unfold eligible in *. by rewrite E1, E3, E5.
    + exists th0. by rewrite lookup_insert_ne.
  - intros cpu Hc. destruct (S11 cpu Hc) as (th0 & Ht0 & Hm & Hs).
    destruct (decide (t = TIdle cpu)) as [->|Hne].
    + exists th'. rewrite lookup_insert_eq. simplify_eq. destruct Hk as (E1 & _ & E3 & _).
      by rewrite E1, E3.
    + exists th0. by rewrite lookup_insert_ne.
Qed.

(** A thread in no place may be changed at will, as long as it keeps its cpu. *)
Definition same_home th th' : Prop :=
  thread_is_idle th' = thread_is_idle th /\ t_pinned_cpu th' = t_pinned_cpu th /\
  (0 <= t_priority th < 32 -> 0 <= t_priority th' < 32).

Lemma same_home_refl th : same_home th th.
Proof. done. Qed.

Lemma sinv_limbo_upd L off ths qs bm ws cur t th th' :
  sinv_ L off ths qs bm ws cur -> t ∈ L -> ths !! t = Some th -> same_home th th' ->
  (is_idle_tid t = true -> t_magic th' = THREAD_MAGIC) ->
  sinv_ L off (<[t := th']> ths) qs bm ws cur.
Proof.
  intros [S1 S2 S3 S4 S5 S6 S7 S8 S9 S10 S11] HL Ht (Hi & Hp & Hr) Hm. split; try done.
  - intros q t0 Hin. destruct (S4 q t0 Hin) as [HL0 (th0 & Ht0 & ?)]. split; [done|].
    exists th0. rewrite lookup_insert_ne; [done|]. by intros ->.
  - intros t0 th0 [[-> ->]|[Hne Ht0]]%lookup_upd HL0; [done|by apply S5].
  - intros t0 th0 [[-> ->]|[Hne Ht0]]%lookup_upd; [|by apply (S6 t0)]. by apply Hr, (S6 t).
  - intros t0 th0 [[-> ->]|[Hne Ht0]]%lookup_upd; [|by apply (S7 t0)]. rewrite Hi, Hp. by apply S7.
  - intros cpu t0 Hc. destruct (S9 cpu t0 Hc) as (th0 & Ht0 & He & Hrun).
    destruct (decide (t = t0)) as [->|Hne].
    + exists th'. rewrite lookup_insert_eq. simplify_eq. unfold eligible in *. rewrite Hp.
      split_and!; [done|done|]. intros Ho. by destruct (Hrun Ho).
    + exists th0. by rewrite lookup_insert_ne.
  - intros cpu Hc. destruct (S11 cpu Hc) as (th0 & Ht0 & Hm0 & Hs).
    destruct (decide (t = TIdle cpu)) as [->|Hne].
    + exists th'. rewrite lookup_insert_eq. split_and!; [done|by apply Hm|done].
    + exists th0. by rewrite lookup_insert_ne.
Qed.

(** Taking the running thread off its cpu. *)
Lemma sinv_take_current L ths qs bm ws cur cpu t :
  sinv_ L None ths qs bm ws cur -> cur !! cpu = Some t ->
  sinv_ ({[t]} ∪ L) (Some cpu) ths qs bm ws cur.
Proof.
  intros [S1 S2 S3 S4 S5 S6 S7 S8 S9 S10 S11] Hc.
  destruct (S9 cpu t Hc) as (th & Ht & He & Hrun). destruct (Hrun ltac:(done)) as (HtL & Hst & Hmg).
  split; try done.
  - intros q t0 Hin. destruct (S4 q t0 Hin) as [HL0 (th0 & Ht0 & Hm)]. split; [|eauto].
    intros [->%elem_of_singleton|?]%elem_of_union; [|done]. simplify_eq.
    destruct Hm as (_ & _ & Hm). destruct q; destruct Hm; congruence.
  - intros t0 th0 Ht0 [Hne HL0]%not_elem_of_union. pose proof (S5 t0 th0 Ht0 HL0) as Hp. unfold placed in *.
    destruct (t_state th0); try done. destruct Hp as (c & Hc0 & _). exists c. split; [done|].
    intros [= <-]. rewrite Hc in Hc0. injection Hc0 as <-. set_solver +Hne.
  - intros c t0 Hc0. destruct (S9 c t0 Hc0) as (th0 & Ht0 & He0 & Hr0). exists th0. split_and!; [done|done|].
    intros Ho. destruct (Hr0 ltac:(done)) as (? & ? & ?). split_and!; [|done|done].
    intros [->%elem_of_singleton|?]%elem_of_union; [|done]. apply Ho. f_equal. by apply (S10 cpu c t).
  - intros c Hc0. destruct (S11 c Hc0) as (th0 & Ht0 & Hm0 & Hs0). exists th0. split_and!; [done|done|].
    intros [_ ?]%not_elem_of_union. auto.
Qed.

(** A thread in transit whose state asks for no place arrives. *)
Lemma sinv_settle L off ths qs bm ws cur t th :
  sinv_ ({[t]} ∪ L) off ths qs bm ws cur -> t ∉ L -> ths !! t = Some th ->
  match t_state th with
  | THREAD_READY => thread_is_idle th = true
  | THREAD_SUSPENDED | THREAD_SLEEPING | THREAD_DEATH => thread_is_idle th = false
  | _ => False
  end ->
  sinv_ L off ths qs bm ws cur.
Proof.
  intros [S1 S2 S3 S4 S5 S6 S7 S8 S9 S10 S11] HtL Ht Hst. split; try done.
  - intros q t0 Hin. destruct (S4 q t0 Hin) as [HL0 ?]. split; [set_solver +HL0|done].
  - intros t0 th0 Ht0 HL0. destruct (decide (t0 = t)) as [->|Hne]; [|apply S5; [done|set_solver +HL0 Hne]].
    simplify_eq. unfold placed. destruct (t_state th); try done. by rewrite Hst.
  - intros c t0 Hc0. destruct (S9 c t0 Hc0) as (th0 & Ht0 & He0 & Hr0). exists th0. split_and!; [done|done|].
    intros Ho. destruct (Hr0 Ho) as (? & ? & ?). split_and!; [set_solver|done|done].
  - intros c Hc0. destruct (S11 c Hc0) as (th0 & Ht0 & Hm0 & Hs0). exists th0. split_and!; [done|done|].
    intros HL0. destruct (decide (TIdle c = t)) as [<-|Hne]; [|apply Hs0; set_solver +HL0 Hne].
    destruct (S7 _ _ Ht) as [Hi _]. simpl in Hi. rewrite Hi in Hst. rewrite Ht in Ht0. injection Ht0 as <-.
    destruct (t_state th); try done. by left.
Qed.

(** A ready thread in transit goes into its run queue. *)
Lemma sinv_enqueue_run L off ths qs bm ws cur t th l1 l2 :
  sinv_ ({[t]} ∪ L) off ths qs bm ws cur -> t ∉ L -> ths !! t = Some th ->
  t_state th = THREAD_READY -> t_magic th = THREAD_MAGIC -> thread_is_idle th = false ->
  fq qs (RunQ (t_priority th)) = l1 ++ l2 ->
  sinv_ L off ths (<[RunQ (t_priority th) := l1 ++ t :: l2]> qs) (bit_set bm (t_priority th)) ws cur.
Proof.
  intros [S1 S2 S3 S4 S5 S6 S7 S8 S9 S10 S11] HtL Ht Hst Hmg Hi Hq.
  assert (in_list t qs = false) as Hn.
  { apply in_list_false. intros q Hin. destruct (S4 q t Hin) as [? _]. set_solver. }
  assert (forall q t0, t0 ∈ fq (<[RunQ (t_priority th) := l1 ++ t :: l2]> qs) q <->
            (t0 = t /\ q = RunQ (t_priority th)) \/ t0 ∈ fq qs q) as Hmem.
  { intros q t0. rewrite fq_insert. case_decide; [subst q|naive_solver]. rewrite Hq. set_solver +. }
  pose proof (S6 t th Ht) as Hp. split; try done.
  - by apply wf_insert.
  - apply bit_set_range.
  - intros p Hp'. rewrite bit_set_spec by done. rewrite fq_insert. case_decide as Hpe.
    + injection Hpe as <-. rewrite Z.eqb_refl, orb_true_r. split; [|done]. by destruct l1.
    + rewrite (proj2 (Z.ltb_lt p 32)), andb_true_r by lia. rewrite (proj2 (Z.eqb_neq p _)), orb_false_r by congruence.
      by apply S3.
  - intros q t0 [[-> ->]|Hin]%Hmem.
    + split; [done|]. exists th. split; [done|]. by repeat split.
    + destruct (S4 q t0 Hin) as [HL0 ?]. split; [set_solver +HL0|done].
  - intros t0 th0 Ht0 HL0. destruct (decide (t0 = t)) as [->|Hne].
    + simplify_eq. unfold placed. rewrite Hst. intros _. apply Hmem. by left.
    + pose proof (S5 t0 th0 Ht0 ltac:(set_solver +HL0 Hne)) as Hpl. unfold placed in *.
      destruct (t_state th0); try done; [intros Hid; apply Hmem; auto|].
      destruct Hpl as (w & ? & ?). exists w. split; [done|]. apply Hmem. by right.
  - intros w. rewrite fq_insert. case_decide; [done|]. apply S8.
  - intros c t0 Hc0. destruct (S9 c t0 Hc0) as (th0 & Ht0 & He0 & Hr0). exists th0. split_and!; [done|done|].
    intros Ho. destruct (Hr0 Ho) as (? & ? & ?). split_and!; [set_solver|done|done].
  - intros c Hc0. destruct (S11 c Hc0) as (th0 & Ht0 & Hm0 & Hs0). exists th0. split_and!; [done|done|].
    intros HL0. apply Hs0. intros [E%elem_of_singleton|?]%elem_of_union; [|done]. subst t.
    destruct (S7 _ _ Ht) as [E _]. simpl in E. congruence.
Qed.

(** Taking a node out of its list moves every other thread nowhere. *)
Lemma member_del qs q t0 t : t0 ∈ fq (del t qs) q <-> t0 <> t /\ t0 ∈ fq qs q.
Proof. apply elem_of_fq_del. Qed.

Lemma placed_del qs cur off t t0 th0 :
  t0 <> t -> placed qs cur off t0 th0 -> placed (del t qs) cur off t0 th0.
Proof.
  intros Hne. unfold placed. destruct (t_state th0); try done.
  - intros Hp Hi. apply member_del. auto.
  - intros (w & ? & ?). exists w. split; [done|]. by apply member_del.
Qed.

(** The part that removing from a run queue and from a wait queue share. *)
Lemma sinv_del_common L off ths qs bm ws cur q t :
  sinv_ L off ths qs bm ws cur -> t ∈ fq qs q ->
  (forall q' t0, t0 ∈ fq (del t qs) q' -> t0 ∉ {[t]} ∪ L /\ exists th, ths !! t0 = Some th /\ member_ok q' th) /\
  (forall t0 th, ths !! t0 = Some th -> t0 ∉ {[t]} ∪ L -> placed (del t qs) cur off t0 th) /\
  (forall cpu t0, cur !! cpu = Some t0 -> exists th, ths !! t0 = Some th /\ eligible cpu th = true /\
     (off <> Some cpu -> t0 ∉ {[t]} ∪ L /\ t_state th = THREAD_RUNNING /\ t_magic th = THREAD_MAGIC)) /\
  (forall cpu, is_Some (cur !! cpu) -> exists th, ths !! TIdle cpu = Some th /\ t_magic th = THREAD_MAGIC /\
     (TIdle cpu ∉ {[t]} ∪ L -> t_state th = THREAD_READY \/ t_state th = THREAD_RUNNING)).
Proof.
  intros [S1 S2 S3 S4 S5 S6 S7 S8 S9 S10 S11] Hin.
  destruct (S4 q t Hin) as [HtL (th & Ht & Hm)]. split_and!.
  - intros q' t0 [Hne Hin0]%member_del. destruct (S4 q' t0 Hin0) as [HL0 ?]. split; [set_solver +Hne HL0|done].
  - intros t0 th0 Ht0 [Hne HL0]%not_elem_of_union. apply placed_del; [set_solver +Hne|]. by apply S5.
  - intros c t0 Hc0. destruct (S9 c t0 Hc0) as (th0 & Ht0 & He0 & Hr0). exists th0. split_and!; [done|done|].
    intros Ho. destruct (Hr0 Ho) as (? & Hst & ?). split_and!; [|done|done].
    intros [->%elem_of_singleton|?]%elem_of_union; [|done]. simplify_eq.
    destruct Hm as (_ & _ & Hm). destruct q; destruct Hm; congruence.
  - intros c Hc0. destruct (S11 c Hc0) as (th0 & Ht0 & Hm0 & Hs0). exists th0. split_and!; [done|done|].
    intros [_ ?]%not_elem_of_union. auto.
Qed.

Lemma fq_del_same qs q q' t : wf qs -> t ∈ fq qs q -> q' <> q -> fq (del t qs) q' = fq qs q'.
Proof. intros Hwf Hin Hne. apply fq_del_other. intros Hin'. by apply Hne, (wf_one qs Hwf q' q t). Qed.

Lemma sinv_dequeue_run L off ths qs bm ws cur p t l1 l2 :
  sinv_ L off ths qs bm ws cur -> fq qs (RunQ p) = l1 ++ t :: l2 ->
  sinv_ ({[t]} ∪ L) off ths (del t qs)
    (if bool_decide (l1 ++ l2 = []) then bit_clear bm p else bm) ws cur.
Proof.
  intros Hs Hq. assert (t ∈ fq qs (RunQ p)) as Hin by (rewrite Hq; set_solver +).
  destruct (sinv_del_common _ _ _ _ _ _ _ _ _ Hs Hin) as (C1 & C2 & C3 & C4).
  destruct Hs as [S1 S2 S3 S4 S5 S6 S7 S8 S9 S10 S11].
  destruct (S4 _ _ Hin) as [_ (th & Ht & _ & _ & _ & Hp)]. pose proof (S6 t th Ht) as Hr. rewrite Hp in Hr.
  pose proof (fq_del_mid _ _ _ _ _ S1 Hq) as Hd. split; try done.
  - by apply wf_del.
  - case_bool_decide; [apply bit_clear_range|done].
  - intros p' Hp'. destruct (decide (p' = p)) as [->|Hne].
    + rewrite Hd. case_bool_decide as He.
      * rewrite bit_clear_spec by lia. rewrite Z.eqb_refl, andb_false_r. split; [done|by intros []].
      * split; [done|]. intros _. apply S3; [lia|]. rewrite Hq. by destruct l1.
    + rewrite (fq_del_same qs (RunQ p)) by (done || congruence). rewrite <- (S3 p' Hp').
      case_bool_decide; [|done]. rewrite bit_clear_spec by lia.
      rewrite (proj2 (Z.ltb_lt p' 32)), andb_true_r by lia. by rewrite (proj2 (Z.eqb_neq p' p)), andb_true_r.
  - intros w. rewrite (fq_del_same qs (RunQ p)) by done. apply S8.
Qed.

Lemma sinv_dequeue_wait L off ths qs bm ws cur w wq t l1 l2 :
  sinv_ L off ths qs bm ws cur -> fq qs (WaitQ w) = l1 ++ t :: l2 -> ws !! w = Some wq ->
  sinv_ ({[t]} ∪ L) off ths (del t qs) bm (<[w := WaitQueue (wq_magic wq) (wq_count wq - 1)]> ws) cur.
Proof.
  intros Hs Hq Hw. assert (t ∈ fq qs (WaitQ w)) as Hin by (rewrite Hq; set_solver +).
  destruct (sinv_del_common _ _ _ _ _ _ _ _ _ Hs Hin) as (C1 & C2 & C3 & C4).
  destruct Hs as [S1 S2 S3 S4 S5 S6 S7 S8 S9 S10 S11].
  pose proof (fq_del_mid _ _ _ _ _ S1 Hq) as Hd. split; try done.
  - by apply wf_del.
  - intros p' Hp'. rewrite (fq_del_same qs (WaitQ w)) by done. by apply S3.
  - intros w' Hw'. destruct (decide (w' = w)) as [->|Hne].
    + rewrite lookup_insert_eq, Hd. eexists. split; [done|]. simpl.
      destruct (S8 w) as (wq' & Hwq' & Hc & Hmg); [by right|]. simplify_eq. rewrite Hq in Hc, Hmg.
      rewrite length_app in *. simpl in *. split; [lia|]. intros _. apply Hmg. by destruct l1.
    + rewrite lookup_insert_ne by done. rewrite (fq_del_same qs (WaitQ w)) in * by (done || congruence).
      apply S8. rewrite lookup_insert_ne in Hw' by done. done.
Qed.

Lemma sinv_enqueue_wait L off ths qs bm ws cur w wq t th :
  sinv_ ({[t]} ∪ L) off ths qs bm ws cur -> t ∉ L -> ths !! t = Some th ->
  t_state th = THREAD_BLOCKED -> t_blocking_wait_queue th = Some w ->
  t_magic th = THREAD_MAGIC -> thread_is_idle th = false ->
  ws !! w = Some wq -> wq_magic wq = WAIT_QUEUE_MAGIC ->
  sinv_ L off ths (add_tail (WaitQ w) t qs) bm
    (<[w := WaitQueue (wq_magic wq) (wq_count wq + 1)]> ws) cur.
Proof.
  intros [S1 S2 S3 S4 S5 S6 S7 S8 S9 S10 S11] HtL Ht Hst Hb Hmg Hi Hw Hwm.
  assert (in_list t qs = false) as Hn.
  { apply in_list_false. intros q Hin. destruct (S4 q t Hin) as [? _]. set_solver. }
  assert (forall q t0, t0 ∈ fq (add_tail (WaitQ w) t qs) q <->
            (t0 = t /\ q = WaitQ w) \/ t0 ∈ fq qs q) as Hmem.
  { intros q t0. rewrite fq_add_tail. case_decide; [subst q|naive_solver]. set_solver +. }
  split; try done.
  - by apply wf_add_tail.
  - intros p Hp. rewrite fq_add_tail. case_decide; [done|]. by apply S3.
  - intros q t0 [[-> ->]|Hin]%Hmem.
    + split; [done|]. exists th. split; [done|]. by repeat split.
    + destruct (S4 q t0 Hin) as [HL0 ?]. split; [set_solver +HL0|done].
  - intros t0 th0 Ht0 HL0. destruct (decide (t0 = t)) as [->|Hne].
    + simplify_eq. unfold placed. rewrite Hst. exists w. split; [done|]. apply Hmem. by left.
    + pose proof (S5 t0 th0 Ht0 ltac:(set_solver +HL0 Hne)) as Hpl. unfold placed in *.
      destruct (t_state th0); try done; [intros Hid; apply Hmem; auto|].
      destruct Hpl as (w' & ? & ?). exists w'. split; [done|]. apply Hmem. by right.
  - intros w' Hw'. rewrite fq_add_tail in *. destruct (decide (w' = w)) as [->|Hne].
    + rewrite decide_True, lookup_insert_eq by done. eexists. split; [done|]. simpl.
      destruct (S8 w) as (wq' & Hwq' & Hc & _); [by right|]. simplify_eq.
      rewrite length_app. simpl. split; [lia|done].
    + rewrite decide_False, lookup_insert_ne in * by congruence. by apply S8.
  - intros c t0 Hc0. destruct (S9 c t0 Hc0) as (th0 & Ht0 & He0 & Hr0). exists th0. split_and!; [done|done|].
    intros Ho. destruct (Hr0 Ho) as (? & ? & ?). split_and!; [set_solver|done|done].
  - intros c Hc0. destruct (S11 c Hc0) as (th0 & Ht0 & Hm0 & Hs0). exists th0. split_and!; [done|done|].
    intros HL0. apply Hs0. intros [E%elem_of_singleton|?]%elem_of_union; [|done]. subst t.
    destruct (S7 _ _ Ht) as [E _]. simpl in E. congruence.
Qed.

(** The chosen thread becomes the current one and the switch is over. *)
Lemma sinv_switch L ths qs bm ws cur cpu t th :
  sinv_ ({[t]} ∪ L) (Some cpu) ths qs bm ws cur -> t ∉ L -> ths !! t = Some th ->
  t_state th = THREAD_RUNNING -> t_magic th = THREAD_MAGIC -> eligible cpu th = true ->
  (forall c, cur !! c = Some t -> c = cpu) -> is_Some (cur !! cpu) ->
  sinv_ L None ths qs bm ws (<[cpu := t]> cur).
Proof.
  intros [S1 S2 S3 S4 S5 S6 S7 S8 S9 S10 S11] HtL Ht Hst Hmg He Hone Hcpu. split; try done.
  - intros q t0 Hin. destruct (S4 q t0 Hin) as [HL0 ?]. split; [set_solver +HL0|done].
  - intros t0 th0 Ht0 HL0. destruct (decide (t0 = t)) as [->|Hne].
    + simplify_eq. unfold placed. rewrite Hst. exists cpu. by rewrite lookup_insert_eq.
    + pose proof (S5 t0 th0 Ht0 ltac:(set_solver +HL0 Hne)) as Hpl. unfold placed in *.
      destruct (t_state th0); try done. destruct Hpl as (c & Hc & Ho). exists c.
      rewrite lookup_insert_ne; [done|congruence].
  - intros c t0. rewrite lookup_insert. case_decide as Hcc.
    + intros [= <-]. subst c. exists th. done.
    + intros Hc0. destruct (S9 c t0 Hc0) as (th0 & Ht0 & He0 & Hr0). exists th0. split_and!; [done|done|].
      intros _. destruct (Hr0 ltac:(congruence)) as (? & ? & ?). split_and!; [set_solver|done|done].
  - intros c1 c2 t0. rewrite !lookup_insert. repeat case_decide; intros; simplify_eq; auto.
    + symmetry. by apply Hone.
    + by apply (S10 c1 c2 t0).
  - intros c. rewrite lookup_insert. intros Hc.
    assert (is_Some (cur !! c)) as Hc' by (case_decide; subst; done).
    destruct (S11 c Hc') as (th0 & Ht0 & Hm0 & Hs0). exists th0. split_and!; [done|done|].
    intros HL0. destruct (decide (TIdle c = t)) as [<-|Hne]; [|apply Hs0; set_solver +HL0 Hne].
    rewrite Ht in Ht0. injection Ht0 as <-. by right.
Qed.
End invariant.

(** ** Choosing the next thread *)

(** No thread of the list may run on the cpu. *)
Definition none_eligible (ths : gmap tid thread) (cpu : nat) (l : list tid) : Prop :=
  forall t th, t ∈ l -> ths !! t = Some th -> eligible cpu th = false.

(** The thread that has to run next on a cpu: of the threads that may run there, the
    first in the queue of the highest priority; the idle thread when there is none. *)
Definition top_ready (k : kstate) (cpu : nat) (t : tid) (p : Z) (l1 l2 : list tid) : Prop :=
  fq (k_queues k) (RunQ p) = l1 ++ t :: l2 /\
  (exists th, k_threads k !! t = Some th /\ eligible cpu th = true) /\
  none_eligible (k_threads k) cpu l1 /\
  (forall p', p < p' -> none_eligible (k_threads k) cpu (fq (k_queues k) (RunQ p'))).

Definition top_idle (k : kstate) (cpu : nat) (t : tid) : Prop :=
  t = TIdle cpu /\ forall p, none_eligible (k_threads k) cpu (fq (k_queues k) (RunQ p)).

(** The state after the thread is taken out of its run queue. *)
Definition unqueued (k : kstate) (t : tid) (p : Z) (l1 l2 : list tid) : kstate :=
  on_bitmap (fun b => if bool_decide (l1 ++ l2 = []) then bit_clear b p else b) (on_queues (del t) k).

Section top.
Implicit Types (k : kstate) (t : tid) (L : gset tid).

Lemma first_eligible_spec (ths : gmap tid thread) cpu (l : list tid) :
  (forall t, t ∈ l -> is_Some (ths !! t)) ->
  (first_eligible ths cpu l = Some None /\ none_eligible ths cpu l) \/
  (exists t th l1 l2, first_eligible ths cpu l = Some (Some t) /\ l = l1 ++ t :: l2 /\
     ths !! t = Some th /\ eligible cpu th = true /\ none_eligible ths cpu l1).
Proof.
  induction l as [|x l IH]; intros Hl; [left; split; [done|intros ???; set_solver]|].
  destruct (Hl x) as [th Hx]; [set_solver +|]. simpl. rewrite Hx. simpl.
  destruct (eligible cpu th) eqn:He.
  - right. exists x, th, [], l. split_and!; try done. intros ???; set_solver.
  - destruct IH as [[-> Hn]|(t & th' & l1 & l2 & -> & -> & ? & ? & Hn)]; [set_solver +Hl| |].
    + left. split; [done|]. intros t0 th0 [->|Hin]%elem_of_cons ?; [congruence|by apply (Hn t0)].
    + right. exists t, th', (x :: l1), l2. split_and!; try done.
      intros t0 th0 [->|Hin]%elem_of_cons ?; [congruence|by apply (Hn t0)].
Qed.

Lemma runq_none L off k p : sinv L off k -> Z.testbit (k_bitmap k) p = false -> 0 <= p ->
  fq (k_queues k) (RunQ p) = [].
Proof.
  intros Hs Hb Hp. destruct (decide (p < 32)).
  - destruct (fq (k_queues k) (RunQ p)) eqn:E; [done|]. exfalso.
    rewrite (proj2 (si_bitmap _ _ _ _ _ _ _ Hs p ltac:(lia))) in Hb; [done|by rewrite E].
  - destruct (fq (k_queues k) (RunQ p)) as [|t l] eqn:E; [done|]. exfalso.
    destruct (si_member _ _ _ _ _ _ _ Hs (RunQ p) t) as [_ (th & Ht & _ & _ & _ & Hpr)]; [rewrite E; set_solver +|].
    pose proof (si_prio _ _ _ _ _ _ _ Hs t th Ht). lia.
Qed.

Lemma runq_neg L off k p : sinv L off k -> p < 0 -> fq (k_queues k) (RunQ p) = [].
Proof.
  intros Hs Hp. destruct (fq (k_queues k) (RunQ p)) as [|t l] eqn:E; [done|]. exfalso.
  destruct (si_member _ _ _ _ _ _ _ Hs (RunQ p) t) as [_ (th & Ht & _ & _ & _ & Hpr)]; [rewrite E; set_solver +|].
  pose proof (si_prio _ _ _ _ _ _ _ Hs t th Ht). lia.
Qed.

Lemma none_eligible_nil ths cpu : none_eligible ths cpu [].
Proof. intros ???. set_solver. Qed.

Lemma bit_clear_top b n : 0 < b < 2 ^ 32 -> b < 2 ^ Z.of_nat (S n) -> 
  0 <= bit_clear b (Z.log2 b) < 2 ^ Z.of_nat n.
Proof.
  intros Hb Hn. assert (0 <= Z.log2 b < 32) as Hl.
  { split; [apply Z.log2_nonneg|]. apply Z.log2_lt_pow2; lia. }
  pose proof (bit_clear_range b (Z.log2 b)) as Hr. split; [lia|].
  destruct (decide (bit_clear b (Z.log2 b) = 0)) as [->|Hnz]; [lia|].
  assert (Z.log2 b <= Z.of_nat n) as Hln.
  { apply Z.lt_succ_r. replace (Z.succ (Z.of_nat n)) with (Z.of_nat (S n)) by lia. apply Z.log2_lt_pow2; lia. }
  apply Z.lt_le_trans with (2 ^ Z.log2 b); [|apply Z.pow_le_mono_r; lia].
  apply Z.log2_lt_pow2; [lia|].
  destruct (Z.lt_ge_cases (Z.log2 (bit_clear b (Z.log2 b))) (Z.log2 b)) as [|Hge]; [done|exfalso].
  pose proof (Z.bit_log2 (bit_clear b (Z.log2 b)) ltac:(lia)) as Ht.
  rewrite bit_clear_spec in Ht by (lia || apply Z.log2_nonneg).
  apply andb_true_iff in Ht as [[Ht _]%andb_true_iff Hne]. apply negb_true_iff, Z.eqb_neq in Hne.
  rewrite Z.bits_above_log2 in Ht; [done|lia|lia].
Qed.

Lemma top_loop_wp L off k cpu fuel b (Q : tid -> kstate -> Prop) :
  sinv L off k -> 0 <= b < 2 ^ 32 -> b < 2 ^ Z.of_nat fuel ->
  (forall p, 0 <= p -> Z.testbit b p = false -> none_eligible (k_threads k) cpu (fq (k_queues k) (RunQ p))) ->
  (forall t p l1 l2, top_ready k cpu t p l1 l2 -> Q t (unqueued k t p l1 l2)) ->
  (top_idle k cpu (TIdle cpu) -> Q (TIdle cpu) k) ->
  wp (top_loop fuel cpu b) Q k.
Proof.
  intros Hs. revert b. induction fuel as [|fuel IH]; intros b Hb Hf Hnone HQ HQi.
  { assert (b = 0) as -> by (simpl in Hf; lia). simpl. apply HQi. split; [done|]. intros p.
    destruct (decide (0 <= p)); [by apply Hnone, Z.testbit_0_l|].
    rewrite (runq_neg L off) by (done || lia). apply none_eligible_nil. }
  cbn [top_loop]. destruct (Z.eqb_spec b 0) as [->|Hnz].
  { apply HQi. split; [done|]. intros p.
    destruct (decide (0 <= p)); [by apply Hnone, Z.testbit_0_l|].
    rewrite (runq_neg L off) by (done || lia). apply none_eligible_nil. }
  assert (0 <= Z.log2 b < 32) as Hl.
  { split; [apply Z.log2_nonneg|]. apply Z.log2_lt_pow2; lia. }
  set (nq := Z.log2 b) in *.
  destruct (first_eligible_spec (k_threads k) cpu (fq (k_queues k) (RunQ nq)))
    as [[Hfe Hno]|(t & th & l1 & l2 & Hfe & Hq & Ht & He & Hno)].
  { intros t Hin. destruct (si_member _ _ _ _ _ _ _ Hs _ t Hin) as [_ (th & ? & _)]. eauto. }
  - do 4 wp_step; [exact Hfe|]. apply IH; [| | |done|done].
    + apply bit_clear_range.
    + apply bit_clear_top; lia.
    + intros p Hp. rewrite bit_clear_spec by lia. destruct (Z.eqb_spec p nq) as [->|Hne]; [done|].
      rewrite andb_true_r. intros Hbit. apply Hnone; [done|].
      apply andb_false_iff in Hbit as [?|?%Z.ltb_ge]; [done|].
      apply Z.bits_above_log2; [lia|]. lia.
  - do 4 wp_step; [exact Hfe|].
    assert (top_ready k cpu t nq l1 l2) as Htop.
    { split_and!; [done|eauto|done|]. intros p' Hp'. apply Hnone; [lia|]. apply Z.bits_above_log2; lia. }
    specialize (HQ t nq l1 l2 Htop). cbv beta iota. do 4 wp_step. unfold unqueued in HQ.
    assert (fq (del t (k_queues k)) (RunQ nq) = l1 ++ l2) as Hd by (apply fq_del_mid; [apply Hs|done]).
    wp_step. simpl. rewrite Hd. apply wp_when; intros Hbd; rewrite Hbd in HQ; repeat wp_step; [done|].
    by destruct k.
Qed.

(** The bitmap is an index of the run queues, so the choice is the best of all of them. *)
Lemma get_top_thread_wp L off k cpu (Q : tid -> kstate -> Prop) :
  sinv L off k ->
  (forall t p l1 l2, top_ready k cpu t p l1 l2 -> Q t (unqueued k t p l1 l2)) ->
  (top_idle k cpu (TIdle cpu) -> Q (TIdle cpu) k) ->
  wp (get_top_thread cpu) Q k.
Proof.
  intros Hs HQ HQi. unfold get_top_thread. do 2 wp_step.
  pose proof (si_range _ _ _ _ _ _ _ Hs) as Hr.
  apply (top_loop_wp L off); [done|done|change (Z.of_nat 32) with 32; lia| |done|done].
  intros p Hp Hb. rewrite (runq_none L off k p Hs Hb Hp). apply none_eligible_nil.
Qed.
End top.

(** ** What the bookkeeping of a switch leaves alone *)

(** Two versions of a thread that differ in the quantum, the cpu it was last on and its
    statistics only. *)
Definition core_eq (th th' : thread) : Prop :=
  t_magic th' = t_magic th /\ t_priority th' = t_priority th /\ t_flags th' = t_flags th /\
  t_pinned_cpu th' = t_pinned_cpu th /\ t_aspace th' = t_aspace th /\
  t_blocking_wait_queue th' = t_blocking_wait_queue th /\
  t_wait_queue_block_ret th' = t_wait_queue_block_ret th /\ t_stack th' = t_stack th /\
  t_stack_guard th' = t_stack_guard th /\ t_retcode th' = t_retcode th.

Definition threads_rel (R : tid -> thread -> thread -> Prop) (m m' : gmap tid thread) : Prop :=
  forall t, match m !! t, m' !! t with
            | Some th, Some th' => R t th th'
            | None, None => True
            | _, _ => False
            end.

Definition same_state (t : tid) (th th' : thread) : Prop := core_eq th th' /\ t_state th' = t_state th.

Record quiet (k k' : kstate) : Prop := {
  qu_threads : threads_rel same_state (k_threads k) (k_threads k');
  qu_queues : k_queues k' = k_queues k;
  qu_bitmap : k_bitmap k' = k_bitmap k;
  qu_waits : k_waits k' = k_waits k;
  qu_current : k_current k' = k_current k;
  qu_list : k_thread_list k' = k_thread_list k;
  qu_timers : k_timers k' = k_timers k;
  qu_mmu : k_mmu k' = k_mmu k;
  qu_freed : k_freed k' = k_freed k;
  qu_stats : forall cpu, is_Some (k_stats k !! cpu) -> is_Some (k_stats k' !! cpu) }.

(** The parts of the kernel state around the queues: timers, statistics, stack guards,
    address spaces. *)
Record aux_ (ths : gmap tid thread) (cur : gmap nat tid) (ts : tstate ktimer kcallback)
    (mmu : gmap nat (option Z)) (stats : gmap nat cpu_stats) : Prop := {
  ax_timers : tinv (ts_now ts) ts;
  ax_armed : armed (ts_now ts) ts;
  ax_stats : forall cpu, is_Some (cur !! cpu) -> is_Some (stats !! cpu);
  ax_preempt_obj : forall cpu, is_Some (cur !! cpu) ->
                     exists tm, ts_timers ts !! TmPreempt cpu = Some tm /\ tm_magic tm = TIMER_MAGIC;
  ax_preempt : forall cpu t th, cur !! cpu = Some t -> ths !! t = Some th ->
                 thread_is_real_time_or_idle th = true -> in_list (TmPreempt cpu) (ts_queue ts) = false;
  ax_guard : forall t th, ths !! t = Some th -> has_flag th THREAD_FLAG_DEBUG_STACK_BOUNDS_CHECK = true ->
               forallb (fun w => w =? STACK_DEBUG_WORD) (t_stack_guard th) = true;
  ax_mmu : forall cpu t th, cur !! cpu = Some t -> ths !! t = Some th ->
             default None (mmu !! cpu) = t_aspace th;
  ax_tick : forall cpu, in_list (TmPreempt cpu) (ts_queue ts) = true ->
              exists tm, ts_timers ts !! TmPreempt cpu = Some tm /\ tm_callback tm = Some CbTick }.

Definition aux (k : kstate) : Prop :=
  aux_ (k_threads k) (k_current k) (k_timers k) (k_mmu k) (k_stats k).

Section quiet.
Implicit Types (k : kstate) (t : tid) (th : thread) (L : gset tid).

Lemma core_eq_refl th : core_eq th th.
Proof. repeat split. Qed.

Lemma core_eq_trans a b c : core_eq a b -> core_eq b c -> core_eq a c.
Proof. unfold core_eq. intros (?&?&?&?&?&?&?&?&?&?) (?&?&?&?&?&?&?&?&?&?). repeat split; congruence. Qed.

Lemma threads_rel_refl R m : (forall t th, R t th th) -> threads_rel R m m.
Proof. intros HR t. destruct (m !! t); auto. Qed.

Lemma threads_rel_trans R m1 m2 m3 :
  (forall t a b c, R t a b -> R t b c -> R t a c) ->
  threads_rel R m1 m2 -> threads_rel R m2 m3 -> threads_rel R m1 m3.
Proof.
  intros HR H1 H2 t. specialize (H1 t). specialize (H2 t).
  destruct (m1 !! t), (m2 !! t), (m3 !! t); naive_solver.
Qed.

Lemma threads_rel_insert (R : tid -> thread -> thread -> Prop) m t th th' :
  (forall t th, R t th th) -> m !! t = Some th -> R t th th' -> threads_rel R m (<[t := th']> m).
Proof.
  intros HR Ht Hr t0. rewrite lookup_insert. case_decide; [subst; by rewrite Ht|].
  destruct (m !! t0); auto.
Qed.

Lemma threads_rel_Some R m m' t th :
  threads_rel R m m' -> m !! t = Some th -> exists th', m' !! t = Some th' /\ R t th th'.
Proof. intros HR Ht. specialize (HR t). rewrite Ht in HR. destruct (m' !! t); naive_solver. Qed.

Lemma threads_rel_Some_inv R m m' t th' :
  threads_rel R m m' -> m' !! t = Some th' -> exists th, m !! t = Some th /\ R t th th'.
Proof. intros HR Ht. specialize (HR t). rewrite Ht in HR. destruct (m !! t); naive_solver. Qed.

Lemma threads_rel_dom R m m' t : threads_rel R m m' -> is_Some (m' !! t) <-> is_Some (m !! t).
Proof. intros HR. specialize (HR t). destruct (m !! t), (m' !! t); naive_solver. Qed.

Lemma same_state_key t th th' : same_state t th th' -> same_key th th'.
Proof.
  intros [(?&?&?&?&?&?&?&?&?) ?]. split_and!; try congruence. by apply has_flag_same.
Qed.

Lemma quiet_refl k : quiet k k.
Proof. split; try done. apply threads_rel_refl. repeat split. Qed.

Lemma quiet_trans k1 k2 k3 : quiet k1 k2 -> quiet k2 k3 -> quiet k1 k3.
Proof.
  intros [A1 A2 A3 A4 A5 A6 A7 A8 A9 A10] [B1 B2 B3 B4 B5 B6 B7 B8 B9 B10].
  split; try congruence; [|auto].
  eapply threads_rel_trans; [|done|done].
  intros t a b c [Hc1 Hs1] [Hc2 Hs2]. split; [by apply (core_eq_trans a b c)|congruence].
Qed.

(** The scheduler invariant and the rest do not see quiet changes. *)
Lemma sinv_quiet L off k k' : quiet k k' -> sinv L off k -> sinv L off k'.
Proof.
  intros [Hth Hq Hb Hw Hc _ _ _ _ _] [S1 S2 S3 S4 S5 S6 S7 S8 S9 S10 S11]. unfold sinv.
  rewrite Hq, Hb, Hw, Hc. split; try done.
  - intros q t Hin. destruct (S4 q t Hin) as [? (th & Ht & Hm)]. split; [done|].
    destruct (threads_rel_Some _ _ _ _ _ Hth Ht) as (th' & Ht' & Hs). exists th'. split; [done|].
    by apply (same_key_member q th), Hm; apply (same_state_key t).
  - intros t th' Ht' HL. destruct (threads_rel_Some_inv _ _ _ _ _ Hth Ht') as (th & Ht & Hs).
    apply (same_key_placed _ _ _ _ th); [by apply (same_state_key t)|by apply S5].
  - intros t th' Ht'. destruct (threads_rel_Some_inv _ _ _ _ _ Hth Ht') as (th & Ht & Hs).
    apply same_state_key in Hs as (_ & -> & _). by apply (S6 t).
  - intros t th' Ht'. destruct (threads_rel_Some_inv _ _ _ _ _ Hth Ht') as (th & Ht & Hs).
    apply same_state_key in Hs as (_ & _ & _ & -> & -> & _). by apply (S7 t).
  - intros cpu t Hcpu. destruct (S9 cpu t Hcpu) as (th & Ht & He & Hr).
    destruct (threads_rel_Some _ _ _ _ _ Hth Ht) as (th' & Ht' & Hs). exists th'.
    apply same_state_key in Hs as (E1 & _ & E3 & _ & E5 & _). unfold eligible in *. by rewrite E1, E3, E5.
  - intros cpu Hcpu. destruct (S11 cpu Hcpu) as (th & Ht & Hm & Hs).
    destruct (threads_rel_Some _ _ _ _ _ Hth Ht) as (th' & Ht' & Hst). exists th'.
    apply same_state_key in Hst as (E1 & _ & E3 & _). by rewrite E1, E3.
Qed.

Lemma aux_quiet k k' : quiet k k' -> aux k -> aux k'.
Proof.
  intros [Hth _ _ _ Hc _ Ht Hm _ Hst] [A1 A2 A3 A4 A5 A6 A7 A8]. unfold aux. rewrite Hc, Ht, Hm.
  split; try done; [auto|..].
  - intros cpu t th' Hcpu Ht' Hrt. destruct (threads_rel_Some_inv _ _ _ _ _ Hth Ht') as (th & Hth0 & [Hce _]).
    apply (A5 cpu t th); [done|done|]. unfold thread_is_real_time_or_idle in *.
    rewrite (has_flag_same th) in Hrt; [done|apply Hce].
  - intros t th' Ht'. destruct (threads_rel_Some_inv _ _ _ _ _ Hth Ht') as (th & Hth0 & [Hce _]).
    destruct Hce as (_&_&E&_&_&_&_&_&->&_). rewrite (has_flag_same th) by done. by apply (A6 t).
  - intros cpu t th' Hcpu Ht'. destruct (threads_rel_Some_inv _ _ _ _ _ Hth Ht') as (th & Hth0 & [Hce _]).
    destruct Hce as (_&_&_&_&->&_). by apply (A7 cpu t).
Qed.

(** Steps that are quiet. *)
Lemma quiet_upd k t th f :
  k_threads k !! t = Some th -> core_eq th (f th) -> t_state (f th) = t_state th ->
  quiet k (on_threads (<[t := f th]>) k).
Proof.
  intros Ht Hc Hs. split; try done. apply (threads_rel_insert _ _ t th); [|done|done].
  by repeat split.
Qed.

Lemma upd_thread_wp k t th f (Q : unit -> kstate -> Prop) :
  k_threads k !! t = Some th -> Q tt (on_threads (<[t := f th]>) k) -> wp (upd_thread t f) Q k.
Proof. intros Ht HQ. unfold upd_thread, get_thread. by repeat wp_step. Qed.

Lemma get_thread_wp k t th (Q : thread -> kstate -> Prop) :
  k_threads k !! t = Some th -> Q th k -> wp (get_thread t) Q k.
Proof. intros Ht HQ. unfold get_thread. by repeat wp_step. Qed.

Lemma get_current_wp k cpu t (Q : tid -> kstate -> Prop) :
  k_current k !! cpu = Some t -> Q t k -> wp (get_current_thread cpu) Q k.
Proof. intros Ht HQ. unfold get_current_thread. by repeat wp_step. Qed.

Lemma quiet_thread k k' t th :
  quiet k k' -> k_threads k !! t = Some th ->
  exists th', k_threads k' !! t = Some th' /\ core_eq th th' /\ t_state th' = t_state th.
Proof. intros Hq Ht. by apply (threads_rel_Some _ _ _ _ _ (qu_threads k k' Hq)). Qed.

Lemma stats_upd_wp k cpu f :
  is_Some (k_stats k !! cpu) -> wp (stats_upd cpu f) (fun _ k' => quiet k k' /\ k_threads k' = k_threads k) k.
Proof.
  intros [st Hst]. unfold stats_upd. repeat wp_step; [done|]. split; [|done].
  split; try done; [apply threads_rel_refl; repeat split|].
  intros c Hc. simpl. rewrite lookup_insert. case_decide; [eauto|done].
Qed.

Lemma quiet_mp k f : quiet k (on_mp f k).
Proof. split; try done. apply threads_rel_refl. repeat split. Qed.

Lemma quiet_ipis k f : quiet k (on_ipis f k).
Proof. split; try done. apply threads_rel_refl. repeat split. Qed.
End quiet.
#[export] Hint Resolve quiet_refl quiet_mp quiet_ipis core_eq_refl : punkt.
