(* ===== verification/Resched.v ===== *)
(** * Rescheduling: the proofs of [thread_resched] and of the operations that end in it

    From any state in which the current thread has been put away, [thread_resched] runs
    to the end without a failed assertion or a panic, picks the thread that has to run
    next and restores the invariant of the scheduler. *)

From stdpp Require Import base gmap list fin_maps strings.
From S2P Require Import Prelude ListNode Timer KState Sched.
Import Family.

Section switch.
Implicit Types (k : kstate) (t : tid) (th : thread) (L : gset tid).

Lemma in_list_inserted cpu (t t' : ktimer) (s s' : tstate ktimer kcallback) :
  inserted_at cpu t s s' -> t' <> t -> in_list t' (ts_queue s') = in_list t' (ts_queue s).
Proof.
  intros (l1 & l2 & H1 & H2 & H3) Hne. apply eq_true_iff_eq. rewrite !in_list_spec.
  split; intros [c Hc]; exists c; (destruct (decide (c = cpu)) as [->|Hcc];
    [|specialize (H3 c Hcc); congruence]).
  - rewrite H1. rewrite H2 in Hc. set_solver +Hc Hne.
  - rewrite H2. rewrite H1 in Hc. set_solver +Hc.
Qed.

Lemma resched_mp_wp k cpu t th :
  k_threads k !! t = Some th -> wp (resched_mp cpu t) (fun _ k' => quiet k k') k.
Proof.
  intros Ht. unfold resched_mp. wp_step. apply (get_thread_wp _ _ th); [done|].
  unfold mp_set_cpu_idle, mp_set_cpu_busy, mp_set_cpu_realtime, mp_set_cpu_non_realtime.
  destruct (thread_is_idle th), (thread_is_realtime th); repeat wp_step;
    (eapply quiet_trans; apply quiet_mp).
Qed.

(** A statistics update of a thread or of the cpu. *)
Lemma stats_or_upd_wp k cpu t th b f g :
  is_Some (k_stats k !! cpu) -> k_threads k !! t = Some th ->
  core_eq th (g th) -> t_state (g th) = t_state th ->
  wp (if b : bool then stats_upd cpu f else upd_thread t g) (fun _ k' => quiet k k') k.
Proof.
  intros Hst Ht Hc Hs. destruct b.
  - eapply wp_mono; [by apply stats_upd_wp|]. by intros _ k' [? _].
  - apply (upd_thread_wp _ _ th); [done|]. by apply quiet_upd.
Qed.

Lemma resched_stats_wp k cpu old new oth nth :
  is_Some (k_stats k !! cpu) -> k_threads k !! old = Some oth -> k_threads k !! new = Some nth ->
  wp (resched_stats cpu old new) (fun _ k' => quiet k k') k.
Proof.
  intros Hst Ho Hn. unfold resched_stats. wp_step.
  eapply wp_mono; [by apply stats_upd_wp|]. intros _ k1 [Q1 E1]. wp_step. wp_step. wp_step.
  apply (get_thread_wp _ _ oth); [by rewrite E1|]. wp_step. rewrite <- E1 in Ho, Hn.
  eapply wp_mono.
  { apply (stats_or_upd_wp k1 cpu old oth); [by apply (qu_stats _ _ Q1)|done|repeat split|done]. }
  intros ? k2 Q2. wp_step. destruct (quiet_thread _ _ _ _ Q2 Hn) as (nth' & Hn' & _ & _).
  apply (get_thread_wp _ _ nth'); [done|]. eapply wp_mono.
  { apply (stats_or_upd_wp k2 cpu new nth'); [by apply (qu_stats _ _ Q2), (qu_stats _ _ Q1)|done|repeat split|done]. }
  intros ? k3 Q3. apply (quiet_trans k k2); [by apply (quiet_trans k k1)|done].
Qed.

(** What the preemption timer of the cpu becomes when threads are switched. *)
Record preempt_switched (k : kstate) (cpu : nat) (nth : thread) (ts' : tstate ktimer kcallback) : Prop := {
  ps_inv : tinv (ts_now ts') ts';
  ps_armed : armed (ts_now ts') ts';
  ps_now : ts_now ts' = ts_now (k_timers k);
  ps_obj : forall t : ktimer, t <> TmPreempt cpu -> ts_timers ts' !! t = ts_timers (k_timers k) !! t;
  ps_self : exists tm, ts_timers ts' !! TmPreempt cpu = Some tm /\ tm_magic tm = TIMER_MAGIC;
  ps_queued : forall t : ktimer, t <> TmPreempt cpu -> in_list t (ts_queue ts') = in_list t (ts_queue (k_timers k));
  ps_off : thread_is_real_time_or_idle nth = true -> in_list (TmPreempt cpu) (ts_queue ts') = false;
  ps_tick : in_list (TmPreempt cpu) (ts_queue ts') = true ->
              exists tm, ts_timers ts' !! TmPreempt cpu = Some tm /\ tm_callback tm = Some CbTick }.

Lemma on_timers_same k : on_timers (fun _ => k_timers k) k = k.
Proof. by destruct k. Qed.

Lemma preempt_cancel_wp k cpu nth :
  aux k -> is_Some (k_current k !! cpu) ->
  wp (ktimers (timer_cancel cpu (TmPreempt cpu)))
    (fun _ k' => exists ts', k' = on_timers (fun _ => ts') k /\ preempt_switched k cpu nth ts') k.
Proof.
  intros [A1 A2 A3 A4 A5 A6 A7 A8] Hcur. destruct (A4 cpu Hcur) as (tm & Htm & Hmg).
  apply lift_ts_wp. eapply wp_mono; [by apply (timer_cancel_wp cpu _ tm)|].
  intros _ ts' (I & R & Eq & Et & En). exists ts'. split; [done|].
  split; rewrite ?En, ?Eq, ?Et; try done.
  - intros t Hne. by rewrite lookup_insert_ne.
  - rewrite lookup_insert_eq. eauto.
  - intros t Hne. by apply in_list_del_other.
  - intros _. apply in_list_del.
  - by rewrite in_list_del.
Qed.

Lemma resched_preempt_timer_wp k cpu old new oth nth :
  aux k -> k_current k !! cpu = Some old -> k_threads k !! old = Some oth -> k_threads k !! new = Some nth ->
  wp (resched_preempt_timer cpu old new)
    (fun _ k' => exists ts', k' = on_timers (fun _ => ts') k /\ preempt_switched k cpu nth ts') k.
Proof.
  intros Haux Hcur Ho Hn. unfold resched_preempt_timer. wp_step. apply (get_thread_wp _ _ oth); [done|].
  wp_step. apply (get_thread_wp _ _ nth); [done|].
  pose proof Haux as [A1 A2 A3 A4 A5 A6 A7 A8]. destruct (A4 cpu ltac:(eauto)) as (tm & Htm & Hmg).
  destruct (thread_is_real_time_or_idle nth) eqn:Hrn; apply wp_when; intros Hro.
  - apply preempt_cancel_wp; eauto.
  - apply negb_false_iff in Hro. exists (k_timers k). rewrite on_timers_same. split; [done|].
    split; try done; [eauto| |by apply A8]. intros _. by apply (A5 cpu old oth).
  - apply lift_ts_wp. unfold timer_set_periodic.
    eapply wp_mono; [apply (timer_set_wp cpu _ tm); try done; by apply (A5 cpu old oth)|].
    intros _ ts' (I & R & Hins & Et & En). exists ts'. split; [done|].
    split; rewrite ?En, ?Et; try done.
    + intros t Hne. by rewrite lookup_insert_ne.
    + rewrite lookup_insert_eq. eauto.
    + intros t Hne. by eapply in_list_inserted.
    + congruence.
    + intros _. rewrite lookup_insert_eq. by eexists.
  - exists (k_timers k). rewrite on_timers_same. split; [done|]. split; try done; [eauto|congruence|by apply A8].
Qed.

(** After the switch the surroundings are those of the new thread. *)
Lemma aux_switched k cpu old new oth nth ts' mmu' :
  aux k -> k_current k !! cpu = Some old -> k_threads k !! old = Some oth -> k_threads k !! new = Some nth ->
  preempt_switched k cpu nth ts' ->
  mmu' = (if bool_decide (t_aspace nth <> t_aspace oth) then <[cpu := t_aspace nth]> (k_mmu k) else k_mmu k) ->
  aux_ (k_threads k) (<[cpu := new]> (k_current k)) ts' mmu' (k_stats k).
Proof.
  intros [A1 A2 A3 A4 A5 A6 A7 A8] Hcur Ho Hn [P1 P2 P3 P4 P5 P6 P7 P8] ->.
  assert (forall c, is_Some (<[cpu := new]> (k_current k) !! c) -> is_Some (k_current k !! c)) as Hc.
  { intros c. rewrite lookup_insert. case_decide; [subst; eauto|done]. }
  split; try done.
  - intros c Hs. by apply A3, Hc.
  - intros c Hs. destruct (decide (c = cpu)) as [->|Hne]; [done|].
    rewrite P4 by congruence. by apply A4, Hc.
  - intros c t th. rewrite lookup_insert. case_decide as E.
    + subst c. intros [= <-] Hth. rewrite Hn in Hth. by injection Hth as <-.
    + intros Hct Hth Hrt. rewrite P6 by congruence. by apply (A5 c t th).
  - intros c t th. rewrite lookup_insert. case_decide as E.
    + subst c. intros [= <-] Hth. rewrite Hn in Hth. injection Hth as <-. case_bool_decide as Ha.
      * by rewrite lookup_insert_eq.
      * rewrite (A7 cpu old oth) by done. destruct (decide (t_aspace nth = t_aspace oth)); done.
    + intros Hct Hth. rewrite <- (A7 c t th) by done. case_bool_decide; [|done].
      by rewrite lookup_insert_ne.
  - intros c Hin. destruct (decide (c = cpu)) as [->|Hne]; [by apply P8|].
    rewrite P6 in Hin by congruence. rewrite P4 by congruence. by apply A8.
Qed.
End switch.

(** What [thread_resched] does to the rest of the kernel when it picks [t]. *)
Definition is_top (k : kstate) (cpu : nat) (t : tid) : Prop :=
  (exists p l1 l2, top_ready k cpu t p l1 l2) \/ top_idle k cpu t.

Definition switched_thread (t t0 : tid) (th th' : thread) : Prop :=
  core_eq th th' /\ t_state th' = if decide (t0 = t) then THREAD_RUNNING else t_state th.

Record resched_post (k : kstate) (cpu : nat) (t : tid) (k' : kstate) : Prop := {
  rp_top : is_top k cpu t;
  rp_current : k_current k' = <[cpu := t]> (k_current k);
  rp_threads : threads_rel (switched_thread t) (k_threads k) (k_threads k');
  rp_queues : k_queues k' = del t (k_queues k);
  rp_waits : k_waits k' = k_waits k;
  rp_list : k_thread_list k' = k_thread_list k;
  rp_freed : k_freed k' = k_freed k;
  rp_now : ts_now (k_timers k') = ts_now (k_timers k);
  rp_timer : forall x : ktimer, x <> TmPreempt cpu ->
               ts_timers (k_timers k') !! x = ts_timers (k_timers k) !! x /\
               in_list x (ts_queue (k_timers k')) = in_list x (ts_queue (k_timers k)) }.

(** What the surroundings depend on in a thread. *)
Definition aux_eq (th th' : thread) : Prop :=
  thread_is_real_time_or_idle th' = thread_is_real_time_or_idle th /\
  has_flag th' THREAD_FLAG_DEBUG_STACK_BOUNDS_CHECK = has_flag th THREAD_FLAG_DEBUG_STACK_BOUNDS_CHECK /\
  t_aspace th' = t_aspace th /\ t_stack_guard th' = t_stack_guard th.

Section resched.
Implicit Types (k : kstate) (t : tid) (th : thread) (L : gset tid).

Lemma aux_core ths ths' cur ts mmu stats :
  threads_rel (fun _ => aux_eq) ths ths' -> aux_ ths cur ts mmu stats -> aux_ ths' cur ts mmu stats.
Proof.
  intros Hr [A1 A2 A3 A4 A5 A6 A7 A8]. split; try done.
  - intros cpu t th' Hcpu Ht'. destruct (threads_rel_Some_inv _ _ _ _ _ Hr Ht') as (th & Hth0 & -> & _).
    by apply (A5 cpu t th).
  - intros t th' Ht'. destruct (threads_rel_Some_inv _ _ _ _ _ Hr Ht') as (th & Hth0 & _ & -> & _ & ->).
    by apply (A6 t).
  - intros cpu t th' Hcpu Ht'. destruct (threads_rel_Some_inv _ _ _ _ _ Hr Ht') as (th & Hth0 & _ & _ & -> & _).
    by apply (A7 cpu t).
Qed.

Lemma aux_upd k t th th' :
  aux k -> k_threads k !! t = Some th -> aux_eq th th' -> aux (on_threads (<[t := th']>) k).
Proof.
  intros Ha Ht He. unfold aux. simpl. apply (aux_core (k_threads k)); [|done].
  apply (threads_rel_insert _ _ t th); [by repeat split|done|done].
Qed.

(** The quiet part of the switch: quantum, cpu numbers, the masks of mp.c, statistics. *)
Lemma quiet_upd_wp k k1 t th f :
  quiet k k1 -> k_threads k !! t = Some th -> (forall th, core_eq th (f th) /\ t_state (f th) = t_state th) ->
  wp (upd_thread t f) (fun _ k' => quiet k k') k1.
Proof.
  intros Hq Ht Hf. destruct (quiet_thread _ _ _ _ Hq Ht) as (th' & Ht' & _).
  apply (upd_thread_wp _ _ th'); [done|]. apply (quiet_trans k k1); [done|]. apply quiet_upd; [done|apply Hf..].
Qed.

Lemma resched_switch_wp k cpu old new oth nth (Q : unit -> kstate -> Prop) :
  aux k -> k_current k !! cpu = Some old -> k_threads k !! old = Some oth -> k_threads k !! new = Some nth ->
  (forall k1 ts' mmu', quiet k k1 -> preempt_switched k cpu nth ts' ->
     aux_ (k_threads k1) (<[cpu := new]> (k_current k)) ts' mmu' (k_stats k1) ->
     Q tt (on_mmu (fun _ => mmu') (on_current (<[cpu := new]>) (on_timers (fun _ => ts') k1)))) ->
  wp (resched_switch cpu old new) Q k.
Proof.
  intros Haux Hcur Ho Hn HQ. unfold resched_switch. wp_step.
  eapply wp_mono; [apply (quiet_upd_wp k k new nth); [apply quiet_refl|done|]|].
  { intros th. case_match; repeat split. }
  intros ? k1 Q1. wp_step. eapply wp_mono; [apply (quiet_upd_wp k k1 old oth); [done|done|by repeat split]|].
  intros ? k2 Q2. wp_step. eapply wp_mono; [apply (quiet_upd_wp k k2 new nth); [done|done|by repeat split]|].
  intros ? k3 Q3. wp_step. destruct (quiet_thread _ _ _ _ Q3 Hn) as (nth3 & Hn3 & _).
  eapply wp_mono; [by apply (resched_mp_wp _ _ _ nth3)|]. intros ? k4 Q4. apply (quiet_trans k) in Q4; [|done].
  destruct (quiet_thread _ _ _ _ Q4 Hn) as (nth4 & Hn4 & _), (quiet_thread _ _ _ _ Q4 Ho) as (oth4 & Ho4 & _).
  wp_step. eapply wp_mono; [apply (resched_stats_wp _ _ _ _ oth4 nth4); [|done|done]|].
  { apply (qu_stats _ _ Q4), (ax_stats _ _ _ _ _ Haux). eauto. }
  intros ? k5 Q5. apply (quiet_trans k) in Q5; [|done].
  destruct (quiet_thread _ _ _ _ Q5 Hn) as (nth5 & Hn5 & Hcn & _), (quiet_thread _ _ _ _ Q5 Ho) as (oth5 & Ho5 & Hco & _).
  pose proof (aux_quiet _ _ Q5 Haux) as Haux5. rewrite <- (qu_current _ _ Q5) in Hcur.
  wp_step. eapply wp_mono; [by apply (resched_preempt_timer_wp _ _ _ _ oth5 nth5)|].
  intros ? k6 (ts' & -> & Hps). wp_step. wp_step. wp_step. unfold resched_stack_check.
  wp_step. apply (get_thread_wp _ _ oth5); [done|].
  assert (forall mmu', mmu' = (if bool_decide (t_aspace nth5 <> t_aspace oth5)
            then <[cpu := t_aspace nth5]> (k_mmu k5) else k_mmu k5) ->
          Q tt (on_mmu (fun _ => mmu') (on_current (<[cpu := new]>) (on_timers (fun _ => ts') k5)))) as HQ5.
  { intros mmu' Hm. apply HQ; [done| |].
    - destruct Hps as [P1 P2 P3 P4 P5 P6 P7 P8]. rewrite (qu_timers _ _ Q5) in *. split; try done.
      intros Hrt. apply P7. unfold thread_is_real_time_or_idle in *.
      rewrite (has_flag_same nth); [done|apply Hcn].
    - rewrite <- (qu_current _ _ Q5). by apply (aux_switched k5 cpu old new oth5 nth5). }
  assert (wp (resched_aspace cpu old new) Q (on_current <[cpu:=new]> (on_timers (fun _ => ts') k5))) as Has.
  { unfold resched_aspace. wp_step. apply (get_thread_wp _ _ oth5); [done|]. wp_step.
    apply (get_thread_wp _ _ nth5); [done|]. apply wp_when; intros Hb.
    - wp_step. apply (HQ5 _ ltac:(rewrite Hb; reflexivity)).
    - specialize (HQ5 _ ltac:(rewrite Hb; reflexivity)). by destruct k5. }
  apply wp_when; intros Hf; [|done].
  rewrite (ax_guard _ _ _ _ _ Haux5 old oth5 Ho5 Hf). by wp_step.
Qed.

(** The idle thread of the cpu is taken directly. *)
Lemma sinv_take_idle ths qs bm ws cur cpu th :
  sinv_ ∅ (Some cpu) ths qs bm ws cur -> ths !! TIdle cpu = Some th ->
  sinv_ {[TIdle cpu]} (Some cpu) ths qs bm ws cur /\ in_list (TIdle cpu) qs = false.
Proof.
  intros [S1 S2 S3 S4 S5 S6 S7 S8 S9 S10 S11] Ht.
  destruct (S7 _ _ Ht) as [Hi Hpin]. simpl in Hi. specialize (Hpin cpu eq_refl).
  assert (forall q t, t ∈ fq qs q -> t <> TIdle cpu) as Hq.
  { intros q t Hin ->. destruct (S4 q _ Hin) as [_ (th' & Ht' & _ & Hf & _)]. simplify_eq. congruence. }
  split; [|apply in_list_false; intros q Hin; by apply (Hq q _ Hin)].
  split; try done.
  - intros q t Hin. destruct (S4 q t Hin) as [_ ?]. pose proof (Hq q t Hin). split; [set_solver|done].
  - intros t th0 Ht0 HL. apply S5; [done|set_solver +].
  - intros c t Hc. destruct (S9 c t Hc) as (th0 & Ht0 & He & Hr). exists th0. split_and!; [done|done|].
    intros Ho. destruct (Hr Ho) as (_ & ? & ?). split_and!; [|done|done]. intros ->%elem_of_singleton.
    simplify_eq. unfold eligible in He. apply orb_true_iff in He as [?%Z.ltb_lt|?%Z.eqb_eq]; [lia|].
    apply Ho. f_equal. lia.
  - intros c Hc. destruct (S11 c Hc) as (th0 & Ht0 & Hm & Hs). exists th0. split_and!; [done|done|].
    intros _. apply Hs. set_solver +.
Qed.

(** The thread [get_top_thread] has picked, not yet marked as running. *)
Record picked (k : kstate) (cpu : nat) (t : tid) (k' : kstate) : Prop := {
  pk_inv : sinv {[t]} (Some cpu) k';
  pk_top : is_top k cpu t;
  pk_same : k' = on_bitmap (fun _ => k_bitmap k') (on_queues (del t) k);
  pk_thread : exists th, k_threads k !! t = Some th /\ t_magic th = THREAD_MAGIC /\ eligible cpu th = true;
  pk_only : forall c, k_current k !! c = Some t -> c = cpu }.

Lemma get_top_picked k cpu :
  sinv ∅ (Some cpu) k -> is_Some (k_current k !! cpu) ->
  wp (get_top_thread cpu) (fun t k' => picked k cpu t k') k.
Proof.
  intros Hs Hcur. apply (get_top_thread_wp ∅ (Some cpu)); [done| |].
  - intros t p l1 l2 Htop. pose proof Htop as (Hq & (th & Ht & He) & _).
    assert (t ∈ fq (k_queues k) (RunQ p)) as Hin by (rewrite Hq; set_solver +).
    destruct (si_member _ _ _ _ _ _ _ Hs _ t Hin) as [_ (th' & Ht' & Hmg & _ & Hst & _)]. simplify_eq.
    split; [|left; eauto|done|by exists th|].
    + pose proof (sinv_dequeue_run _ _ _ _ _ _ _ _ _ _ _ Hs Hq) as Hd. by rewrite union_empty_r_L in Hd.
    + intros c Hc. destruct (si_current _ _ _ _ _ _ _ Hs c t Hc) as (th' & Ht'' & _ & Hr). simplify_eq.
      destruct (decide (c = cpu)) as [|Hne]; [done|]. destruct Hr as (_ & ? & _); congruence.
  - intros Htop. destruct (si_cpu _ _ _ _ _ _ _ Hs cpu Hcur) as (th & Ht & Hmg & _).
    destruct (sinv_take_idle _ _ _ _ _ _ _ Hs Ht) as [Hs' Hn].
    destruct (si_idle _ _ _ _ _ _ _ Hs _ _ Ht) as [_ Hpin]. specialize (Hpin cpu eq_refl).
    split; [done|by right| | |].
    + unfold on_queues, on_bitmap. simpl. rewrite (del_notin (TIdle cpu) (k_queues k)) by done. by destruct k.
    + exists th. split_and!; [done|done|]. unfold eligible. lia.
    + intros c Hc. destruct (si_current _ _ _ _ _ _ _ Hs c _ Hc) as (th' & Ht' & He & _). simplify_eq.
      unfold eligible in He. lia.
Qed.

(** Marking the picked thread as running and making it current. *)
Lemma picked_running k cpu t k' th :
  picked k cpu t k' -> k_threads k !! t = Some th -> is_Some (k_current k !! cpu) ->
  let k2 := on_threads (<[t := set_state THREAD_RUNNING th]>) k' in
  threads_rel (switched_thread t) (k_threads k) (k_threads k2) /\
  forall k3, quiet k2 k3 ->
    sinv_ ∅ None (k_threads k3) (k_queues k3) (k_bitmap k3) (k_waits k3) (<[cpu := t]> (k_current k3)).
Proof.
  intros [P1 P2 P3 (th' & Ht' & Hmg & He) P5] Ht Hcur k2. rewrite Ht in Ht'. injection Ht' as <-.
  assert (k_threads k' = k_threads k /\ k_current k' = k_current k) as [E1 E2] by (rewrite P3; done).
  split.
  - unfold k2. simpl. rewrite E1. intros t0. rewrite lookup_insert. case_decide as Hc.
    + subst t0. rewrite Ht. split; [repeat split|by rewrite decide_True].
    + destruct (k_threads k !! t0); [|done]. split; [repeat split|by rewrite decide_False].
  - intros k3 Hq3. assert (sinv {[t]} (Some cpu) k2) as Hs2.
    { apply (sinv_limbo_upd {[t]} (Some cpu) _ _ _ _ _ t th); [done|set_solver +|by rewrite E1| |by intros].
      by split_and!. }
    apply (sinv_quiet _ _ _ _ Hq3) in Hs2.
    assert (k_threads k2 !! t = Some (set_state THREAD_RUNNING th)) as Ht2 by apply lookup_insert_eq.
    destruct (quiet_thread _ _ _ _ Hq3 Ht2) as (th3 & Ht3 & Hce & Hst).
    assert (k_current k3 = k_current k) as E3 by (rewrite (qu_current _ _ Hq3); done). rewrite E3 in *.
    apply (sinv_switch ∅ _ _ _ _ _ _ t th3); [|set_solver +|done|done| | |done|done].
    + rewrite union_empty_r_L. unfold sinv in Hs2. by rewrite E3 in Hs2.
    + destruct Hce as (-> & _). done.
    + destruct Hce as (_&_&_&E&_). unfold eligible in *. by rewrite E.
Qed.

Lemma switched_trans t m1 m2 m3 :
  threads_rel (switched_thread t) m1 m2 -> threads_rel same_state m2 m3 -> threads_rel (switched_thread t) m1 m3.
Proof.
  intros H1 H2 t0. specialize (H1 t0). specialize (H2 t0).
  destruct (m1 !! t0), (m2 !! t0), (m3 !! t0); try done.
  destruct H1 as [? ?], H2 as [? ?]. split; [by eapply core_eq_trans|congruence].
Qed.

(** With the current thread put away, [thread_resched] always completes, and it
    installs the thread that has to run next. *)
Lemma thread_resched_wp k cpu cur cth :
  sinv ∅ (Some cpu) k -> aux k -> k_current k !! cpu = Some cur ->
  k_threads k !! cur = Some cth -> t_state cth <> THREAD_RUNNING ->
  wp (thread_resched cpu)
    (fun _ k' => exists t, sinv ∅ None k' /\ aux k' /\ resched_post k cpu t k') k.
Proof.
  intros Hs Haux Hcur Hct Hst. unfold thread_resched. wp_step. apply (get_current_wp _ _ cur); [done|].
  wp_step. apply (get_thread_wp _ _ cth); [done|]. do 2 wp_step.
  { unfold state_is. by rewrite bool_decide_false. }
  wp_step. eapply wp_mono; [apply stats_upd_wp, (ax_stats _ _ _ _ _ Haux); eauto|].
  intros _ k1 [Q1 E1]. apply (sinv_quiet _ _ _ _ Q1) in Hs. apply (aux_quiet _ _ Q1) in Haux.
  assert (forall t k', resched_post k1 cpu t k' -> resched_post k cpu t k') as Hback.
  { destruct Q1 as [B1 B2 B3 B4 B5 B6 B7 B8 B9 B10]. intros t k' [C1 C2 C3 C4 C5 C6 C7 C8 C9].
    split; unfold is_top, top_ready, top_idle in *; rewrite ?B2, ?B4, ?B5, ?B6, ?B7, ?B9, ?E1 in *; done. }
  rewrite <- (qu_current _ _ Q1) in Hcur. rewrite <- E1 in Hct. clear Q1 E1.
  wp_step. eapply wp_mono; [apply get_top_picked; [done|eauto]|]. intros t k2 Hp.
  pose proof (pk_thread _ _ _ _ Hp) as (th & Ht & _ & _).
  destruct (picked_running _ _ _ _ _ Hp Ht ltac:(eauto)) as [Hrel Hsw].
  pose proof (pk_same _ _ _ _ Hp) as E2. pose proof (pk_top _ _ _ _ Hp) as Htop.
  wp_step. apply (upd_thread_wp _ _ th); [by rewrite E2|].
  set (k3 := on_threads (<[t := set_state THREAD_RUNNING th]>) k2) in *.
  assert (aux k3) as Haux3.
  { unfold aux, k3. simpl. rewrite E2. simpl. apply (aux_core (k_threads k1)); [|done].
    apply (threads_rel_insert _ _ t th); [by repeat split|done|by repeat split]. }
  assert (k_current k3 !! cpu = Some cur) as Hcur3 by (unfold k3; simpl; rewrite E2; done).
  destruct (decide (t = cur)) as [->|Hne].
  - wp_step. exists cur. split; [|split; [done|apply Hback]].
    + specialize (Hsw k3 (quiet_refl k3)). rewrite insert_id in Hsw by done. done.
    + unfold k3 in *. rewrite E2 in Hrel |- *. split; try done. simpl. rewrite insert_id; [done|].
      by rewrite E2 in Hcur3.
  - assert (k_threads k3 !! cur = Some cth) as Hct3.
    { unfold k3. simpl. rewrite lookup_insert_ne by done. by rewrite E2. }
    apply (resched_switch_wp _ _ _ _ cth (set_state THREAD_RUNNING th)); [done|done|done|apply lookup_insert_eq|].
    intros k4 ts' mmu' Q4 Hps Haux4. exists t. split; [exact (Hsw k4 Q4)|]. split.
    { unfold aux. simpl. by rewrite (qu_current _ _ Q4). }
    apply Hback. destruct Q4 as [B1 B2 B3 B4 B5 B6 B7 B8 B9 B10]. destruct Hps as [P1 P2 P3 P4 P5 P6 P7 P8].
    unfold k3 in *. rewrite E2 in *. split; simpl in *; try done; [by rewrite B5| |auto].
    by apply (switched_trans _ _ _ _ Hrel B1).
Qed.
End resched.

(** ** Operations of the running thread *)

(** A ready thread at the head or the tail of the run queue of its priority. *)
Definition enqueued (at_head : bool) (t : tid) (p : Z) (k : kstate) : kstate :=
  on_bitmap (fun b => bit_set b p)
    (on_queues (if at_head then add_head (RunQ p) t else add_tail (RunQ p) t) k).

(** The state in which the current thread, now [th'], has been put away. *)
Definition put_away (at_head : bool) (cur : tid) (th' : thread) (k : kstate) : kstate :=
  let k := on_threads (<[cur := th']>) k in
  if thread_is_idle th' then k else enqueued at_head cur (t_priority th') k.

Section ops.
Implicit Types (k : kstate) (t : tid) (th : thread) (L : gset tid).

Lemma insert_in_run_queue_wp L off (at_head : bool) k t th :
  sinv ({[t]} ∪ L) off k -> t ∉ L -> k_threads k !! t = Some th ->
  t_state th = THREAD_READY -> t_magic th = THREAD_MAGIC -> thread_is_idle th = false ->
  wp (if at_head then insert_in_run_queue_head t else insert_in_run_queue_tail t)
    (fun _ k' => k' = enqueued at_head t (t_priority th) k /\ sinv L off k') k.
Proof.
  intros Hs HtL Ht Hst Hmg Hi.
  assert (in_list t (k_queues k) = false) as Hn.
  { apply in_list_false. intros q Hin. destruct (si_member _ _ _ _ _ _ _ Hs q t Hin). set_solver. }
  pose proof (si_prio _ _ _ _ _ _ _ Hs t th Ht) as Hp.
  assert (sinv L off (enqueued at_head t (t_priority th) k)) as Hs'.
  { destruct at_head.
    - by apply (sinv_enqueue_run L off _ _ _ _ _ t th [] (fq (k_queues k) (RunQ (t_priority th)))).
    - apply (sinv_enqueue_run L off _ _ _ _ _ t th (fq (k_queues k) (RunQ (t_priority th))) []); try done.
      by rewrite app_nil_r. }
  assert (state_is th THREAD_READY = true) as Hb by (unfold state_is; by rewrite bool_decide_true).
  assert ((0 <=? t_priority th) && (t_priority th <? NUM_PRIORITIES) = true) as Hpb by (unfold NUM_PRIORITIES; lia).
  destruct at_head; unfold insert_in_run_queue_head, insert_in_run_queue_tail, run_queue_index;
    wp_step; (apply (get_thread_wp _ _ th); [done|]); rewrite Hpb;
    (do 2 wp_step; [by rewrite Hmg|]); (do 2 wp_step; [done|]); do 2 wp_step;
    (do 2 wp_step; [by rewrite Hn|]); repeat wp_step; done.
Qed.

(** [L] moves the running thread in transit, with new contents. *)
Lemma sinv_stop_current L k cpu cur th th' :
  sinv L None k -> k_current k !! cpu = Some cur -> k_threads k !! cur = Some th ->
  same_home th th' -> t_magic th' = t_magic th ->
  sinv ({[cur]} ∪ L) (Some cpu) (on_threads (<[cur := th']>) k).
Proof.
  intros Hs Hcur Ht Hh Hm. apply (sinv_limbo_upd _ _ _ _ _ _ _ cur th); [by apply sinv_take_current|set_solver +|done|done|].
  intros _. rewrite Hm. destruct (si_current _ _ _ _ _ _ _ Hs cpu cur Hcur) as (th0 & Ht0 & _ & Hr).
  rewrite Ht in Ht0. injection Ht0 as <-. by destruct (Hr ltac:(done)) as (_ & _ & ?).
Qed.

Lemma current_in_transit L k cpu cur :
  sinv L None k -> k_current k !! cpu = Some cur -> cur ∉ L.
Proof.
  intros Hs Hcur. destruct (si_current _ _ _ _ _ _ _ Hs cpu cur Hcur) as (th & Ht & _ & Hr).
  by destruct (Hr ltac:(done)) as (? & _ & _).
Qed.

Lemma current_running L k cpu cur :
  sinv L None k -> k_current k !! cpu = Some cur ->
  exists th, k_threads k !! cur = Some th /\ t_state th = THREAD_RUNNING /\ t_magic th = THREAD_MAGIC.
Proof.
  intros Hs Hcur. destruct (si_current _ _ _ _ _ _ _ Hs cpu cur Hcur) as (th & Ht & _ & Hr).
  destruct (Hr ltac:(done)) as (_ & ? & ?). eauto.
Qed.

Lemma put_away_wp k cpu cur th th' (at_head : bool) :
  sinv ∅ None k -> aux k -> k_current k !! cpu = Some cur -> k_threads k !! cur = Some th ->
  same_home th th' -> t_magic th' = t_magic th -> aux_eq th th' -> t_state th' = THREAD_READY ->
  wp (when (negb (thread_is_idle th'))
        (if at_head then insert_in_run_queue_head cur else insert_in_run_queue_tail cur) ;;
      thread_resched cpu)
    (fun _ k' => exists t, sinv ∅ None k' /\ aux k' /\ resched_post (put_away at_head cur th' k) cpu t k')
    (on_threads (<[cur := th']>) k).
Proof.
  intros Hs Haux Hcur Ht Hh Hm Hae Hst.
  destruct (current_running _ _ _ _ Hs Hcur) as (th0 & Ht0 & _ & Hmg0). rewrite Ht in Ht0. injection Ht0 as <-.
  pose proof (sinv_stop_current _ _ _ _ _ th' Hs Hcur Ht Hh Hm) as Hs1. pose proof (aux_upd _ _ _ th' Haux Ht Hae) as Haux1.
  set (k1 := on_threads _ k) in *. assert (k_threads k1 !! cur = Some th') as Ht1 by apply lookup_insert_eq.
  unfold put_away. fold k1. wp_step. apply wp_when; intros Hi.
  - apply negb_true_iff in Hi. rewrite Hi.
    eapply wp_mono; [apply (insert_in_run_queue_wp ∅ (Some cpu) at_head k1 cur th'); try done; congruence|].
    intros _ k2 [-> Hs2]. apply (thread_resched_wp _ _ cur th'); try done. congruence.
  - apply negb_false_iff in Hi. rewrite Hi. apply (thread_resched_wp _ _ cur th'); try done; [|congruence].
    apply (sinv_settle ∅ (Some cpu) _ _ _ _ _ cur th'); [done|set_solver +|done|by rewrite Hst].
Qed.

(** No thread that could run on the cpu is kept waiting by a thread of lower priority. *)
Definition runs_best (k : kstate) (cpu : nat) : Prop :=
  forall t th t0 th0, k_current k !! cpu = Some t -> k_threads k !! t = Some th ->
    k_threads k !! t0 = Some th0 -> t_state th0 = THREAD_READY -> thread_is_idle th0 = false ->
    eligible cpu th0 = true -> thread_is_idle th = false /\ t_priority th0 <= t_priority th.

Lemma resched_runs_best L off k cpu t k' :
  sinv L off k -> sinv ∅ None k' -> resched_post k cpu t k' -> runs_best k' cpu.
Proof.
  intros Hs Hs' [R1 R2 R3 R4 _ _ _ _ _] t' th' t0 th0 Hc Ht' Ht0 Hst0 Hi0 He0.
  rewrite R2, lookup_insert_eq in Hc. injection Hc as <-.
  destruct (threads_rel_Some_inv _ _ _ _ _ R3 Ht0) as (th1 & Ht1 & Hc1 & Hst1).
  destruct (threads_rel_Some_inv _ _ _ _ _ R3 Ht') as (th2 & Ht2 & Hc2 & Hst2).
  pose proof (si_placed _ _ _ _ _ _ _ Hs' t0 th0 Ht0 ltac:(set_solver +)) as Hp. unfold placed in Hp.
  rewrite Hst0 in Hp. specialize (Hp Hi0). rewrite R4 in Hp. apply elem_of_fq_del in Hp as [Hne Hp].
  assert (eligible cpu th1 = true) as He1.
  { unfold eligible in *. destruct Hc1 as (_&_&_&<-&_). done. }
  assert (forall p, none_eligible (k_threads k) cpu (fq (k_queues k) (RunQ p)) -> t_priority th0 <> p) as Hno.
  { intros p Hn <-. rewrite (Hn t0 th1 Hp Ht1) in He1. done. }
  destruct R1 as [(p & l1 & l2 & Hq & _ & _ & Hhi)|[_ Hnone]]; [|by destruct (Hno _ (Hnone (t_priority th0)))].
  assert (t ∈ fq (k_queues k) (RunQ p)) as Hin by (rewrite Hq; set_solver +).
  destruct (si_member _ _ _ _ _ _ _ Hs _ _ Hin) as [_ (th3 & Ht3 & _ & Hi3 & _ & Hp3)].
  rewrite Ht2 in Ht3. injection Ht3 as <-. destruct Hc2 as (_ & Epr & Efl & _). split.
  - unfold thread_is_idle in *. by rewrite (has_flag_same th2).
  - rewrite Epr, Hp3. destruct (decide (p < t_priority th0)) as [Hlt|]; [|lia].
    by destruct (Hno _ (Hhi _ Hlt)).
Qed.

Lemma stats_upd_frame k cpu f :
  is_Some (k_stats k !! cpu) ->
  wp (stats_upd cpu f) (fun _ k' => quiet k k' /\ exists g, k' = on_stats g k) k.
Proof.
  intros Hst. pose proof (stats_upd_wp k cpu f Hst) as Hw. destruct Hst as [st Hst]. revert Hw.
  unfold stats_upd, wp, bind, gets, deref, modify. simpl. rewrite Hst. simpl. intros [? _]. eauto.
Qed.

(** What an operation that puts the running thread away and reschedules guarantees. *)
Definition moved_on (at_head : bool) (k : kstate) (cpu : nat) (cur : tid) (th' : thread) (k' : kstate) : Prop :=
  sinv ∅ None k' /\ aux k' /\ runs_best k' cpu /\
  exists t, resched_post (put_away at_head cur th' k) cpu t k'.

Lemma resched_post_stats b cur th' g k cpu t k' :
  resched_post (put_away b cur th' (on_stats g k)) cpu t k' -> resched_post (put_away b cur th' k) cpu t k'.
Proof.
  unfold put_away. destruct (thread_is_idle th'); intros [R1 R2 R3 R4 R5 R6 R7 R8 R9]; by split.
Qed.

Lemma sinv_put_away k cpu cur th th' (b : bool) :
  sinv ∅ None k -> k_current k !! cpu = Some cur -> k_threads k !! cur = Some th ->
  same_home th th' -> t_magic th' = t_magic th -> t_state th' = THREAD_READY ->
  sinv ∅ (Some cpu) (put_away b cur th' k).
Proof.
  intros Hs Hcur Ht Hh Hm Hst.
  destruct (current_running _ _ _ _ Hs Hcur) as (th0 & Ht0 & _ & Hmg). rewrite Ht in Ht0. injection Ht0 as <-.
  pose proof (sinv_stop_current _ _ _ _ _ th' Hs Hcur Ht Hh Hm) as Hs1. unfold put_away.
  set (k1 := on_threads _ k) in *. assert (k_threads k1 !! cur = Some th') as Ht1 by apply lookup_insert_eq.
  destruct (thread_is_idle th') eqn:Hi.
  - apply (sinv_settle ∅ (Some cpu) _ _ _ _ _ cur th'); [done|set_solver +|done|by rewrite Hst].
  - assert (wp (if b then insert_in_run_queue_head cur else insert_in_run_queue_tail cur)
      (fun _ k' => k' = enqueued b cur (t_priority th') k1 /\ sinv ∅ (Some cpu) k') k1) as Hw
      by (apply insert_in_run_queue_wp; (done || congruence)).
    apply wp_done in Hw as (? & k2 & _ & -> & Hk). done.
Qed.

Lemma put_away_moved k cpu cur th th' (at_head : bool) :
  sinv ∅ None k -> aux k -> k_current k !! cpu = Some cur -> k_threads k !! cur = Some th ->
  same_home th th' -> t_magic th' = t_magic th -> aux_eq th th' -> t_state th' = THREAD_READY ->
  wp (when (negb (thread_is_idle th'))
        (if at_head then insert_in_run_queue_head cur else insert_in_run_queue_tail cur) ;;
      thread_resched cpu)
    (fun _ k' => moved_on at_head k cpu cur th' k')
    (on_threads (<[cur := th']>) k).
Proof.
  intros Hs Haux Hcur Ht Hh Hm Hae Hst. eapply wp_mono; [by apply (put_away_wp k cpu cur th th')|].
  intros _ k' (t & Hs' & Haux' & Hpost). split_and!; [done|done| |eauto].
  eapply resched_runs_best; [|done|done]. by apply (sinv_put_away k cpu cur th).
Qed.

Lemma thread_yield_wp k cpu cur th :
  sinv ∅ None k -> aux k -> k_current k !! cpu = Some cur -> k_threads k !! cur = Some th ->
  wp (thread_yield cpu)
    (fun _ k' => moved_on false k cpu cur (set_remaining_quantum 0 (set_state THREAD_READY th)) k') k.
Proof.
  intros Hs Haux Hcur Ht. destruct (current_running _ _ _ _ Hs Hcur) as (th0 & Ht0 & Hst & Hmg).
  rewrite Ht in Ht0. injection Ht0 as <-.
  unfold thread_yield. wp_step. apply (get_current_wp _ _ cur); [done|]. wp_step. apply (get_thread_wp _ _ th); [done|].
  do 2 wp_step; [by rewrite Hmg|]. do 2 wp_step; [unfold state_is; by rewrite bool_decide_true|].
  wp_step. eapply wp_mono; [apply stats_upd_frame, (ax_stats _ _ _ _ _ Haux); eauto|].
  intros _ k1 [Q1 [g ->]]. wp_step. apply (upd_thread_wp _ _ th); [done|].
  eapply wp_mono; [apply (put_away_moved (on_stats g k) cpu cur th (set_remaining_quantum 0 (set_state THREAD_READY th)) false); try done|].
  - by eapply aux_quiet.
  - intros _ k' (? & ? & ? & t & ?). split_and!; try done. exists t. by eapply resched_post_stats.
Qed.

Lemma thread_preempt_wp k cpu cur th :
  sinv ∅ None k -> aux k -> k_current k !! cpu = Some cur -> k_threads k !! cur = Some th ->
  wp (thread_preempt cpu)
    (fun _ k' => moved_on (0 <? t_remaining_quantum th) k cpu cur (set_state THREAD_READY th) k') k.
Proof.
  intros Hs Haux Hcur Ht. destruct (current_running _ _ _ _ Hs Hcur) as (th0 & Ht0 & Hst & Hmg).
  rewrite Ht in Ht0. injection Ht0 as <-.
  unfold thread_preempt. wp_step. apply (get_current_wp _ _ cur); [done|]. wp_step. apply (get_thread_wp _ _ th); [done|].
  do 2 wp_step; [by rewrite Hmg|]. do 2 wp_step; [unfold state_is; by rewrite bool_decide_true|].
  assert (forall g, quiet k (on_stats g k) ->
    wp (upd_thread cur (set_state THREAD_READY) ;;
        when (negb (thread_is_idle th))
          (if 0 <? t_remaining_quantum th then insert_in_run_queue_head cur else insert_in_run_queue_tail cur) ;;
        thread_resched cpu)
      (fun _ k' => moved_on (0 <? t_remaining_quantum th) k cpu cur (set_state THREAD_READY th) k') (on_stats g k)) as Hgo.
  { intros g Q1. wp_step. apply (upd_thread_wp _ _ th); [done|].
    eapply wp_mono; [apply (put_away_moved (on_stats g k) cpu cur th (set_state THREAD_READY th)); try done|].
    - by eapply aux_quiet.
    - intros _ k' (? & ? & ? & t & ?). split_and!; try done. exists t. by eapply resched_post_stats. }
  wp_step. apply wp_when; intros _.
  - eapply wp_mono; [apply stats_upd_frame, (ax_stats _ _ _ _ _ Haux); eauto|].
    intros _ k1 [Q1 [g ->]]. by apply Hgo.
  - specialize (Hgo id). replace (on_stats id k) with k in Hgo by by destruct k. apply Hgo, quiet_refl.
Qed.

Lemma clamp_priority_range p : 1 <= clamp_priority p <= 31.
Proof. unfold clamp_priority, IDLE_PRIORITY, LOWEST_PRIORITY, HIGHEST_PRIORITY, NUM_PRIORITIES. repeat case_match; lia. Qed.

Lemma thread_set_priority_wp k cpu cur th p :
  sinv ∅ None k -> aux k -> k_current k !! cpu = Some cur -> k_threads k !! cur = Some th ->
  thread_is_idle th = false ->
  wp (thread_set_priority cpu p)
    (fun _ k' => moved_on true k cpu cur (set_state THREAD_READY (set_priority (clamp_priority p) th)) k') k.
Proof.
  intros Hs Haux Hcur Ht Hi. unfold thread_set_priority. wp_step. apply (get_current_wp _ _ cur); [done|].
  wp_step. apply (upd_thread_wp _ _ th); [done|].
  pose proof (put_away_moved k cpu cur th (set_state THREAD_READY (set_priority (clamp_priority p) th)) true) as Hw.
  unfold thread_is_idle in Hw, Hi. rewrite (has_flag_same th), Hi in Hw by done. apply Hw; try done.
  split_and!; try done. intros _. pose proof (clamp_priority_range p). simpl. lia.
Qed.
End ops.

(** ** Deciding the invariant of a concrete state *)

Definition placed_b (qs : gmap qid (list tid)) (cur : gmap nat tid) (off : option nat) (t : tid) (th : thread) : bool :=
  match t_state th with
  | THREAD_READY => thread_is_idle th || bool_decide (t ∈ fq qs (RunQ (t_priority th)))
  | THREAD_BLOCKED =>
      match t_blocking_wait_queue th with Some w => bool_decide (t ∈ fq qs (WaitQ w)) | None => false end
  | THREAD_RUNNING => existsb (fun p => bool_decide (snd p = t) && bool_decide (off <> Some (fst p))) (map_to_list cur)
  | _ => true
  end.

Definition member_b (q : qid) (th : thread) : bool :=
  (t_magic th =? THREAD_MAGIC) && negb (thread_is_idle th) &&
  match q with
  | RunQ p => state_is th THREAD_READY && (t_priority th =? p)
  | WaitQ w => state_is th THREAD_BLOCKED && bool_decide (t_blocking_wait_queue th = Some w)
  end.

Definition thread_b (off : option nat) (k : kstate) (p : tid * thread) : bool :=
  let '(t, th) := p in
  placed_b (k_queues k) (k_current k) off t th && (0 <=? t_priority th) && (t_priority th <? 32) &&
  eqb (thread_is_idle th) (is_idle_tid t) &&
  match t with TIdle c => t_pinned_cpu th =? Z.of_nat c | TThr _ => true end.

Definition cpu_b (off : option nat) (k : kstate) (p : nat * tid) : bool :=
  let '(cpu, t) := p in
  match k_threads k !! t, k_threads k !! TIdle cpu with
  | Some th, Some ith =>
      eligible cpu th &&
      (bool_decide (off = Some cpu) || (state_is th THREAD_RUNNING && (t_magic th =? THREAD_MAGIC))) &&
      (t_magic ith =? THREAD_MAGIC) && (state_is ith THREAD_READY || state_is ith THREAD_RUNNING)
  | _, _ => false
  end.

Definition queue_b (k : kstate) (p : qid * list tid) : bool :=
  let '(q, l) := p in
  bool_decide (NoDup l) &&
  forallb (fun t => match k_threads k !! t with Some th => member_b q th | None => false end) l &&
  match q with WaitQ w => bool_decide (l = []) || bool_decide (is_Some (k_waits k !! w)) | RunQ _ => true end.

Definition wait_b (k : kstate) (p : wqid * wait_queue) : bool :=
  let '(w, wq) := p in
  (wq_count wq =? Z.of_nat (length (fq (k_queues k) (WaitQ w)))) &&
  (bool_decide (fq (k_queues k) (WaitQ w) = []) || (wq_magic wq =? WAIT_QUEUE_MAGIC)).

Definition check_sinv (off : option nat) (k : kstate) : bool :=
  bool_decide (NoDup (map_to_list (k_queues k) ≫= snd)) &&
  (0 <=? k_bitmap k) && (k_bitmap k <? 2 ^ 32) &&
  forallb (fun p => eqb (Z.testbit (k_bitmap k) (Z.of_nat p))
                        (negb (bool_decide (fq (k_queues k) (RunQ (Z.of_nat p)) = [])))) (seq 0 32) &&
  forallb (queue_b k) (map_to_list (k_queues k)) && forallb (thread_b off k) (map_to_list (k_threads k)) &&
  forallb (wait_b k) (map_to_list (k_waits k)) && forallb (cpu_b off k) (map_to_list (k_current k)) &&
  bool_decide (NoDup (snd <$> map_to_list (k_current k))).

Section check.
Implicit Types (k : kstate).

Lemma forallb_map {K V} `{Countable K} (f : K * V -> bool) (m : gmap K V) i v :
  forallb f (map_to_list m) = true -> m !! i = Some v -> f (i, v) = true.
Proof. rewrite forallb_forall. intros Hf Hi. apply Hf, list_elem_of_In, elem_of_map_to_list, Hi. Qed.

Lemma NoDup_snd_inj {K V} `{Countable K} (m : gmap K V) i j v :
  NoDup (snd <$> map_to_list m) -> m !! i = Some v -> m !! j = Some v -> i = j.
Proof.
  intros Hn Hi Hj. apply elem_of_map_to_list in Hi, Hj.
  apply list_elem_of_lookup in Hi as [a Ha], Hj as [b Hb].
  assert (a = b) as ->; [|congruence].
  eapply NoDup_lookup; [exact Hn| |]; rewrite list_lookup_fmap, ?Ha, ?Hb; done.
Qed.

Lemma NoDup_bind_wf {K N} `{Countable K} `{EqDecision N} (F : gmap K (list N)) :
  NoDup (map_to_list F ≫= snd) -> wf F.
Proof.
  intros Hn.
  assert (forall q l, F !! q = Some l -> exists a b, map_to_list F = a ++ (q, l) :: b) as Hs.
  { intros q l Hq. apply elem_of_map_to_list in Hq. by apply list_elem_of_split in Hq. }
  assert (forall q l, F !! q = Some l -> NoDup l) as Hd.
  { intros q l Hq. destruct (Hs q l Hq) as (a & b & E). rewrite E, bind_app, bind_cons in Hn. simpl in Hn.
    apply NoDup_app in Hn as (_ & _ & Hn). by apply NoDup_app in Hn as (? & _). }
  split.
  - intros q. unfold fq. destruct (F !! q) as [l|] eqn:E; [by apply (Hd q)|apply NoDup_nil_2].
  - intros q1 q2 n H1 H2. unfold fq in *.
    destruct (F !! q1) as [l1|] eqn:E1; [|simpl in H1; set_solver +H1].
    destruct (F !! q2) as [l2|] eqn:E2; [|simpl in H2; set_solver +H2]. simpl in *.
    destruct (decide (q1 = q2)) as [|Hne]; [done|exfalso].
    destruct (Hs q1 l1 E1) as (a & b & E). apply elem_of_map_to_list in E2. rewrite E in E2, Hn.
    rewrite bind_app, bind_cons in Hn. simpl in Hn. apply NoDup_app in Hn as (_ & Hab & Hn).
    apply NoDup_app in Hn as (_ & Hlb & _). rewrite elem_of_app, elem_of_cons in E2.
    destruct E2 as [E2|[E2|E2]]; [|congruence|].
    + apply (Hab n); [apply list_elem_of_bind; exists (q2, l2); done|set_solver +H1].
    + apply (Hlb n); [done|]. apply list_elem_of_bind. exists (q2, l2). done.
Qed.

Lemma member_b_ok q th : member_b q th = true -> member_ok q th.
Proof.
  unfold member_b, member_ok, state_is. rewrite !andb_true_iff, negb_true_iff, Z.eqb_eq. intros [[? ?] Hq].
  split_and!; [done|done|]. destruct q; apply andb_true_iff in Hq as [?%bool_decide_eq_true Hx];
    [apply Z.eqb_eq in Hx|apply bool_decide_eq_true in Hx]; done.
Qed.

Lemma placed_b_ok qs cur off t th : placed_b qs cur off t th = true -> placed qs cur off t th.
Proof.
  unfold placed_b, placed. destruct (t_state th); try done.
  - intros [->|?%bool_decide_eq_true]%orb_true_iff; done.
  - rewrite existsb_exists. intros ([c t'] & Hin%list_elem_of_In & [?%bool_decide_eq_true ?%bool_decide_eq_true]%andb_true_iff).
    apply elem_of_map_to_list in Hin. simpl in *. subst. eauto.
  - destruct (t_blocking_wait_queue th) as [w|]; [|done]. intros ?%bool_decide_eq_true. eauto.
Qed.

Lemma check_sinv_ok off k : check_sinv off k = true -> sinv ∅ off k.
Proof.
  unfold check_sinv. rewrite !andb_true_iff, !bool_decide_eq_true, Z.leb_le, Z.ltb_lt.
  intros [[[[[[[[Hn Hb1] Hb2] Hbm] Hq] Hth] Hw] Hc] Hi].
  assert (forall q t, t ∈ fq (k_queues k) q -> queue_b k (q, fq (k_queues k) q) = true) as Hqb.
  { intros q t. unfold fq. destruct (k_queues k !! q) as [l|] eqn:E; [|simpl; set_solver +].
    intros _. by apply (forallb_map _ _ _ _ Hq E). }
  pose proof (fun t th => forallb_map _ _ t th Hth) as Hth'. cbv beta delta [thread_b] in Hth'.
  setoid_rewrite andb_true_iff in Hth'. setoid_rewrite andb_true_iff in Hth'.
  pose proof (fun c t => forallb_map _ _ c t Hc) as Hc'. unfold cpu_b in Hc'. split; try done.
  - by apply NoDup_bind_wf.
  - intros p Hp. rewrite forallb_forall in Hbm.
    specialize (Hbm (Z.to_nat p) ltac:(apply in_seq; lia)). rewrite Z2Nat.id in Hbm by lia.
    apply eqb_prop in Hbm. rewrite Hbm, negb_true_iff, bool_decide_eq_false. done.
  - intros q t Hin. split; [set_solver +|]. specialize (Hqb q t Hin). simpl in Hqb.
    rewrite !andb_true_iff, forallb_forall in Hqb. destruct Hqb as [[_ Hl] _].
    specialize (Hl t ltac:(by apply list_elem_of_In)). destruct (k_threads k !! t) as [th|]; [|done].
    eauto using member_b_ok.
  - intros t th Ht _. apply placed_b_ok. specialize (Hth' t th Ht). rewrite !andb_true_iff in Hth'. apply Hth'.
  - intros t th Ht. specialize (Hth' t th Ht). rewrite !andb_true_iff in Hth'. lia.
  - intros t th Ht. specialize (Hth' t th Ht). rewrite !andb_true_iff in Hth'. destruct Hth' as [[_ He] Hm].
    split; [by apply eqb_prop|]. intros c ->. lia.
  - intros w [Hne|[wq Hwq]].
    + destruct (fq (k_queues k) (WaitQ w)) as [|t l] eqn:E; [done|].
      specialize (Hqb (WaitQ w) t ltac:(rewrite E; set_solver +)). rewrite E in Hqb. simpl in Hqb.
      apply andb_true_iff in Hqb as [_ [wq Hwq]%bool_decide_eq_true].
      pose proof (forallb_map _ _ _ _ Hw Hwq) as Hwb. unfold wait_b in Hwb. rewrite E in Hwb.
      apply andb_true_iff in Hwb as [?%Z.eqb_eq ?]. exists wq. split_and!; [done|done|]. intros _. simpl in *. lia.
    + pose proof (forallb_map _ _ _ _ Hw Hwq) as Hwb. unfold wait_b in Hwb.
      apply andb_true_iff in Hwb as [?%Z.eqb_eq Ho]. exists wq. split_and!; [done|done|].
      intros Hne. apply orb_true_iff in Ho as [?%bool_decide_eq_true|?%Z.eqb_eq]; done.
  - intros cpu t Hcur. specialize (Hc' cpu t Hcur). destruct (k_threads k !! t) as [th|]; [|done].
    destruct (k_threads k !! TIdle cpu) as [ith|]; [|done]. rewrite !andb_true_iff in Hc'.
    destruct Hc' as [[[He Ho] _] _]. exists th. split_and!; [done|done|]. intros Hoff.
    apply orb_true_iff in Ho as [?%bool_decide_eq_true|[?%bool_decide_eq_true ?%Z.eqb_eq]%andb_true_iff]; [done|].
    split_and!; [set_solver +|done|done].
  - intros c1 c2 t. by apply NoDup_snd_inj.
  - intros cpu [t Hcur]. specialize (Hc' cpu t Hcur). destruct (k_threads k !! t) as [th|]; [|done].
    destruct (k_threads k !! TIdle cpu) as [ith|]; [|done]. rewrite !andb_true_iff in Hc'.
    destruct Hc' as [[_ Hm%Z.eqb_eq] Ho]. exists ith. split_and!; [done|done|]. intros _.
    unfold state_is in Ho. apply orb_true_iff in Ho as [?%bool_decide_eq_true|?%bool_decide_eq_true]; auto.
Qed.

(** The surroundings of a concrete state with no pending timer. *)
Definition check_aux (k : kstate) : bool :=
  forallb (fun p => bool_decide (snd p = [])) (map_to_list (ts_queue (k_timers k))) &&
  forallb (fun p : nat * tid =>
    bool_decide (is_Some (k_stats k !! fst p)) &&
    match ts_timers (k_timers k) !! TmPreempt (fst p), k_threads k !! snd p with
    | Some tm, Some th => (tm_magic tm =? TIMER_MAGIC) &&
                          bool_decide (default None (k_mmu k !! fst p) = t_aspace th)
    | _, _ => false
    end) (map_to_list (k_current k)) &&
  forallb (fun p : tid * thread =>
    negb (has_flag (snd p) THREAD_FLAG_DEBUG_STACK_BOUNDS_CHECK) ||
    forallb (fun w => w =? STACK_DEBUG_WORD) (t_stack_guard (snd p))) (map_to_list (k_threads k)).

Lemma check_aux_ok k : check_aux k = true -> aux k.
Proof.
  unfold check_aux. rewrite !andb_true_iff. intros [[Hq Hc] Hth].
  assert (forall c, fq (ts_queue (k_timers k)) c = []) as Hnil.
  { intros c. unfold fq. destruct (ts_queue (k_timers k) !! c) as [l|] eqn:E; [|done].
    pose proof (forallb_map _ _ _ _ Hq E) as Hb. by apply bool_decide_eq_true in Hb. }
  assert (forall t, in_list t (ts_queue (k_timers k)) = false) as Hno.
  { intros t. apply in_list_false. intros c. rewrite Hnil. set_solver +. }
  pose proof (fun c t => forallb_map _ _ c t Hc) as Hc'. simpl in Hc'. unfold aux. split.
  - split; [split|..].
    + intros c. rewrite Hnil. apply NoDup_nil_2.
    + intros c1 c2 n. rewrite Hnil. set_solver +.
    + intros c t. rewrite Hnil. set_solver +.
    + intros c. rewrite Hnil. constructor.
  - intros c t. unfold peek_head. by rewrite Hnil.
  - intros c [t Hcur]. specialize (Hc' c t Hcur). apply andb_true_iff in Hc' as [?%bool_decide_eq_true _]. done.
  - intros c [t Hcur]. specialize (Hc' c t Hcur). apply andb_true_iff in Hc' as [_ Hm].
    destruct (ts_timers (k_timers k) !! TmPreempt c) as [tm|]; [|done]. exists tm.
    destruct (k_threads k !! t); [|done]. apply andb_true_iff in Hm as [?%Z.eqb_eq _]. done.
  - intros. apply Hno.
  - intros t th Ht Hf. pose proof (forallb_map _ _ _ _ Hth Ht) as Hb. simpl in Hb. by rewrite Hf in Hb.
  - intros c t th Hcur Ht. specialize (Hc' c t Hcur). apply andb_true_iff in Hc' as [_ Hm]. rewrite Ht in Hm.
    destruct (ts_timers (k_timers k) !! TmPreempt c); [|done].
    apply andb_true_iff in Hm as [_ ?%bool_decide_eq_true]. done.
  - intros c. by rewrite Hno.
Qed.
End check.

(** ** What the scheduler guarantees *)

(** On any state of the scheduler [get_top_thread] returns the thread that has to run
    next on the cpu: the first thread of the highest priority queue that may run there, or
    the idle thread when no queued thread may; and it does nothing but take that thread out
    of its queue and clear the bit of the queue when it becomes empty. *)
Theorem get_top_thread_picks_best L off k cpu :
  sinv L off k ->
  wp (get_top_thread cpu)
    (fun t k' => (exists p l1 l2, top_ready k cpu t p l1 l2 /\ k' = unqueued k t p l1 l2) \/
                 (top_idle k cpu t /\ k' = k)) k.
Proof.
  intros Hs. apply (get_top_thread_wp L off); [done| |].
  - intros t p l1 l2 Ht. left. by exists p, l1, l2.
  - intros Ht. by right.
Qed.

(** Once the running thread of a cpu has been put away, [thread_resched] completes without
    a failed assertion or a panic, in a state in which the invariant of the scheduler and of
    its surroundings hold again, the thread that has to run next is the current one, and no
    thread that could run on the cpu is kept waiting by one of lower priority. *)
Theorem thread_resched_completes k cpu cur cth :
  sinv ∅ (Some cpu) k -> aux k -> k_current k !! cpu = Some cur ->
  k_threads k !! cur = Some cth -> t_state cth <> THREAD_RUNNING ->
  wp (thread_resched cpu)
    (fun _ k' => sinv ∅ None k' /\ aux k' /\ runs_best k' cpu /\ exists t, resched_post k cpu t k') k.
Proof.
  intros Hs Haux Hcur Ht Hst. eapply wp_mono; [by apply (thread_resched_wp k cpu cur cth)|].
  intros _ k' (t & Hs' & Haux' & Hp). split_and!; [done|done| |eauto].
  by apply (resched_runs_best ∅ (Some cpu) k cpu t k').
Qed.

(** Which of the threads that may run are chosen after the running thread was put away. *)
Lemma moved_on_current at_head k cpu cur th' k' t :
  moved_on at_head k cpu cur th' k' -> k_current k' !! cpu = Some t ->
  is_top (put_away at_head cur th' k) cpu t.
Proof.
  intros (_ & _ & _ & t' & Hp) Ht. rewrite (rp_current _ _ _ _ Hp), lookup_insert_eq in Ht.
  injection Ht as <-. apply (rp_top _ _ _ _ Hp).
Qed.

Lemma current_not_queued k cpu cur q :
  sinv ∅ None k -> k_current k !! cpu = Some cur -> cur ∉ fq (k_queues k) q.
Proof.
  intros Hs Hc Hin. destruct (current_running _ _ _ _ Hs Hc) as (th & Ht & Hst & _).
  destruct (si_member _ _ _ _ _ _ _ Hs q cur Hin) as [_ (th' & Ht' & _ & _ & Hm)]. simplify_eq.
  destruct q; destruct Hm; congruence.
Qed.

Lemma last_split {A} (l1 l2 l : list A) x : x ∉ l -> l1 ++ x :: l2 = l ++ [x] -> l1 = l.
Proof.
  intros Hx. destruct l2 as [|y l2 _] using rev_ind; [by intros [? _]%app_inj_tail|].
  rewrite app_comm_cons, app_assoc. intros [<- _]%app_inj_tail. set_solver.
Qed.

(** A thread put at the tail of its queue is not chosen while another one of its
    priority or a higher one may run. *)
Lemma tail_not_top k cpu cur th th' t0 th0 :
  sinv ∅ None k -> k_current k !! cpu = Some cur -> k_threads k !! cur = Some th ->
  thread_is_idle th = false -> thread_is_idle th' = false ->
  k_threads k !! t0 = Some th0 -> t_state th0 = THREAD_READY -> thread_is_idle th0 = false ->
  eligible cpu th0 = true -> t_priority th' <= t_priority th0 ->
  ~ is_top (put_away false cur th' k) cpu cur.
Proof.
  intros Hs Hcur Ht Hi Hi' Ht0 Hst0 Hi0 He Hp.
  pose proof (si_placed _ _ _ _ _ _ _ Hs t0 th0 Ht0 ltac:(set_solver +)) as Hin.
  unfold placed in Hin. rewrite Hst0 in Hin. specialize (Hin Hi0).
  pose proof (fun q => current_not_queued _ _ _ q Hs Hcur) as Hq.
  assert (t0 <> cur) as Hne by (intros ->; by apply (Hq _ Hin)).
  assert (<[cur := th']> (k_threads k) !! t0 = Some th0) as Ht0' by by rewrite lookup_insert_ne.
  unfold put_away. rewrite Hi'. intros [(p & l1 & l2 & Heq & _ & Hno & Hhi)|[E _]].
  2:{ destruct (si_idle _ _ _ _ _ _ _ Hs cur th Ht) as [Hx _]. subst cur. simpl in Hx. congruence. }
  simpl in Heq, Hno, Hhi. rewrite fq_add_tail in Heq. case_decide as Hpp.
  - assert (p = t_priority th') as -> by congruence. symmetry in Heq. apply last_split in Heq; [|apply Hq].
    destruct (decide (t_priority th' = t_priority th0)) as [E|].
    + rewrite (Hno t0 th0) in He; [done| |done]. by rewrite Heq, E.
    + rewrite (Hhi (t_priority th0) ltac:(lia) t0 th0) in He; [done| |done].
      rewrite fq_add_tail, decide_False by congruence. done.
  - apply (Hq (RunQ p)). rewrite Heq. set_solver +.
Qed.

(** A thread put at the head of its queue is chosen unless one of a higher priority may run. *)
Lemma head_is_top k cpu cur th th' t :
  sinv ∅ None k -> k_current k !! cpu = Some cur -> k_threads k !! cur = Some th ->
  thread_is_idle th' = false -> t_pinned_cpu th' = t_pinned_cpu th ->
  (forall t0 th0, k_threads k !! t0 = Some th0 -> t_state th0 = THREAD_READY -> thread_is_idle th0 = false ->
     eligible cpu th0 = true -> t_priority th0 <= t_priority th') ->
  is_top (put_away true cur th' k) cpu t -> t = cur.
Proof.
  intros Hs Hcur Ht Hi Hpin Hmax. unfold put_away. rewrite Hi.
  assert (eligible cpu th' = true) as He'.
  { destruct (si_current _ _ _ _ _ _ _ Hs cpu cur Hcur) as (th0 & Ht0 & He & _). rewrite Ht in Ht0.
    injection Ht0 as <-. unfold eligible in *. by rewrite Hpin. }
  assert (forall l, cur ∈ l -> ~ none_eligible (<[cur := th']> (k_threads k)) cpu l) as Hcne.
  { intros l Hl Hn. rewrite (Hn cur th' Hl) in He'; [done|apply lookup_insert_eq]. }
  assert (cur ∈ fq (add_head (RunQ (t_priority th')) cur (k_queues k)) (RunQ (t_priority th'))) as Hin.
  { rewrite fq_add_head, decide_True by done. set_solver +. }
  intros [(p & l1 & l2 & Heq & (th1 & Ht1 & He1) & Hno & Hhi)|[_ Hno]]; simpl in *.
  2:{ by destruct (Hcne _ Hin (Hno (t_priority th'))). }
  destruct (decide (t = cur)) as [|Hne]; [done|exfalso]. rewrite lookup_insert_ne in Ht1 by done.
  destruct (decide (p < t_priority th')) as [Hlt|Hge]; [by apply (Hcne _ Hin), Hhi|].
  rewrite fq_add_head in Heq. case_decide as Hpp.
  - destruct l1 as [|x l1]; simpl in Heq; [congruence|]. injection Heq as <- _.
    apply (Hcne (cur :: l1)); [set_solver +|done].
  - assert (t ∈ fq (k_queues k) (RunQ p)) as Hin1 by (rewrite Heq; set_solver +).
    destruct (si_member _ _ _ _ _ _ _ Hs _ _ Hin1) as [_ (th2 & Ht2 & _ & Hi2 & Hst2 & Hp2)].
    rewrite Ht1 in Ht2. injection Ht2 as <-. specialize (Hmax t th1 Ht1 Hst2 Hi2 He1).
    apply Hpp. f_equal. lia.
Qed.

(** A thread that yields goes behind the threads of its priority: [thread_yield] completes
    with the invariant restored and the best thread running, and while another thread of the
    same or a higher priority is ready and may run on the cpu, the one that yielded does not
    get the cpu back. *)
Theorem thread_yield_round_robin k cpu cur th :
  sinv ∅ None k -> aux k -> k_current k !! cpu = Some cur -> k_threads k !! cur = Some th ->
  thread_is_idle th = false ->
  wp (thread_yield cpu)
    (fun _ k' => sinv ∅ None k' /\ aux k' /\ runs_best k' cpu /\
       forall t0 th0, k_threads k !! t0 = Some th0 -> t_state th0 = THREAD_READY ->
         thread_is_idle th0 = false -> eligible cpu th0 = true -> t_priority th <= t_priority th0 ->
         k_current k' !! cpu <> Some cur) k.
Proof.
  intros Hs Haux Hcur Ht Hi. eapply wp_mono; [by apply (thread_yield_wp k cpu cur th)|].
  intros ? k' Hm. cbv beta in Hm. pose proof Hm as (? & ? & ? & _). split_and!; try done.
  intros t0 th0 Ht0 Hst0 Hi0 He0 Hp Hc. apply (moved_on_current _ _ _ _ _ _ _ Hm) in Hc.
  by apply (tail_not_top k cpu cur th (set_remaining_quantum 0 (set_state THREAD_READY th)) t0 th0) in Hc.
Qed.

(** Preemption respects the time slice: [thread_preempt] completes with the invariant
    restored and the best thread running; a thread with quantum left keeps the cpu unless a
    thread of a strictly higher priority may run on it, and a thread whose quantum is used up
    loses it to any thread of its own priority. *)
Theorem thread_preempt_respects_quantum k cpu cur th :
  sinv ∅ None k -> aux k -> k_current k !! cpu = Some cur -> k_threads k !! cur = Some th ->
  thread_is_idle th = false ->
  wp (thread_preempt cpu)
    (fun _ k' => sinv ∅ None k' /\ aux k' /\ runs_best k' cpu /\
       (0 < t_remaining_quantum th ->
        (forall t0 th0, k_threads k !! t0 = Some th0 -> t_state th0 = THREAD_READY ->
           thread_is_idle th0 = false -> eligible cpu th0 = true -> t_priority th0 <= t_priority th) ->
        k_current k' !! cpu = Some cur) /\
       (t_remaining_quantum th <= 0 ->
        forall t0 th0, k_threads k !! t0 = Some th0 -> t_state th0 = THREAD_READY ->
          thread_is_idle th0 = false -> eligible cpu th0 = true -> t_priority th <= t_priority th0 ->
          k_current k' !! cpu <> Some cur)) k.
Proof.
  intros Hs Haux Hcur Ht Hi. eapply wp_mono; [by apply (thread_preempt_wp k cpu cur th)|].
  intros ? k' Hm. cbv beta in Hm. pose proof Hm as (? & ? & ? & t & Hp). pose proof (rp_current _ _ _ _ Hp) as Hc.
  change (k_current k' = <[cpu := t]> (k_current (put_away (0 <? t_remaining_quantum th) cur (set_state THREAD_READY th) k))) in Hc.
  assert (k_current k' !! cpu = Some t) as Ht' by (rewrite Hc; apply lookup_insert_eq).
  apply (moved_on_current _ _ _ _ _ _ _ Hm) in Ht' as Htop. split_and!; try done.
  - intros Hq Hmax. rewrite Ht'. f_equal. rewrite (proj2 (Z.ltb_lt _ _) Hq) in Htop.
    by apply (head_is_top k cpu cur th (set_state THREAD_READY th)).
  - intros Hq t0 th0 Ht0 Hst0 Hi0 He0 Hpr Hcc. rewrite Ht' in Hcc. injection Hcc as ->.
    rewrite (proj2 (Z.ltb_ge _ _) Hq) in Htop.
    by apply (tail_not_top k cpu cur th (set_state THREAD_READY th) t0 th0) in Htop.
Qed.

(** [thread_set_priority] clamps the priority to 1..31, whatever it is given, and takes
    effect at once: it completes with the invariant restored, the thread has the new priority,
    and it keeps the cpu exactly when no thread of a strictly higher priority than the new one
    may run there. *)
Theorem thread_set_priority_takes_effect k cpu cur th p :
  sinv ∅ None k -> aux k -> k_current k !! cpu = Some cur -> k_threads k !! cur = Some th ->
  thread_is_idle th = false ->
  1 <= clamp_priority p <= 31 /\ (1 <= p <= 31 -> clamp_priority p = p) /\
  wp (thread_set_priority cpu p)
    (fun _ k' => sinv ∅ None k' /\ aux k' /\ runs_best k' cpu /\
       (exists th', k_threads k' !! cur = Some th' /\ t_priority th' = clamp_priority p) /\
       (k_current k' !! cpu = Some cur <->
        forall t0 th0, k_threads k !! t0 = Some th0 -> t_state th0 = THREAD_READY ->
          thread_is_idle th0 = false -> eligible cpu th0 = true -> t_priority th0 <= clamp_priority p)) k.
Proof.
  intros Hs Haux Hcur Ht Hi. split; [apply clamp_priority_range|]. split.
  { unfold clamp_priority, IDLE_PRIORITY, LOWEST_PRIORITY, HIGHEST_PRIORITY, NUM_PRIORITIES.
    intros. repeat case_match; lia. }
  eapply wp_mono; [by apply (thread_set_priority_wp k cpu cur th)|].
  set (th1 := set_state THREAD_READY (set_priority (clamp_priority p) th)).
  assert (thread_is_idle th1 = false) as Hi1 by done.
  intros ? k' Hm. cbv beta in Hm. pose proof Hm as (? & ? & Hbest & t & Hp). pose proof (rp_current _ _ _ _ Hp) as Hc.
  assert (k_threads (put_away true cur th1 k) = <[cur := th1]> (k_threads k)) as Eth
    by (unfold put_away; rewrite Hi1; done).
  assert (k_current k' !! cpu = Some t) as Ht' by (rewrite Hc; apply lookup_insert_eq).
  apply (moved_on_current _ _ _ _ _ _ _ Hm) in Ht' as Htop.
  pose proof (rp_threads _ _ _ _ Hp) as Hr. rewrite Eth in Hr.
  destruct (threads_rel_Some _ _ _ cur th1 Hr ltac:(apply lookup_insert_eq)) as (th' & Hth' & Hce & _).
  assert (t_priority th' = clamp_priority p) as Epr by (destruct Hce as (_ & -> & _); done).
  split_and!; try done; [eauto|]. split.
  - intros Hcc t0 th0 Ht0 Hst0 Hi0 He0. rewrite Ht' in Hcc. injection Hcc as ->.
    assert (t0 <> cur) as Hne.
    { intros ->. destruct (current_running _ _ _ _ Hs Hcur) as (? & ? & ? & _). congruence. }
    destruct (threads_rel_Some _ _ _ t0 th0 Hr ltac:(by rewrite lookup_insert_ne)) as (th0' & Ht0' & Hce0 & Hst0').
    rewrite decide_False in Hst0' by done. destruct Hce0 as (_&E1&E2&E3&_).
    destruct (Hbest cur th' t0 th0' Ht' Hth' Ht0') as [_ Hle]; [congruence| | |lia].
    + unfold thread_is_idle. by rewrite (has_flag_same th0).
    + unfold eligible in *. by rewrite E3.
  - intros Hmax. rewrite Ht'. f_equal. by apply (head_is_top k cpu cur th th1).
Qed.

Lemma quiet_mp_reschedule k cpu target flags : wp (mp_reschedule cpu target flags) (fun _ k' => quiet k k') k.
Proof. unfold mp_reschedule. wp_step. wp_step. apply wp_when; intros _; [wp_step|]; auto with punkt. Qed.

Lemma wakeup_cpu_wp k cpu t th :
  k_threads k !! t = Some th -> wp (wakeup_cpu_for_thread cpu t) (fun _ k' => quiet k k') k.
Proof.
  intros Ht. unfold wakeup_cpu_for_thread. wp_step. apply (get_thread_wp _ _ th); [done|].
  case_match; apply quiet_mp_reschedule.
Qed.

(** Asking for a reschedule is calling [thread_resched] at the end. *)
Lemma thread_unblock_resched k cpu t :
  thread_unblock cpu t true k = bind (thread_unblock cpu t false) (fun _ => thread_resched cpu) k.
Proof. unfold thread_unblock, bind, when, ret. by repeat (case_match; simplify_eq). Qed.

Lemma thread_resched_running k cpu cur th :
  k_current k !! cpu = Some cur -> k_threads k !! cur = Some th -> t_state th = THREAD_RUNNING ->
  thread_resched cpu k = Fault AssertFail.
Proof.
  intros Hcur Ht Hst.
  unfold thread_resched, get_current_thread, get_thread, bind, gets, deref, ret, massert, state_is, fail.
  by rewrite Hcur, Ht, Hst.
Qed.

Lemma thread_unblock_wp k cpu t th :
  sinv {[t]} None k -> k_threads k !! t = Some th ->
  t_magic th = THREAD_MAGIC -> t_state th = THREAD_BLOCKED -> thread_is_idle th = false ->
  wp (thread_unblock cpu t false)
    (fun _ k' => sinv ∅ None k' /\ k_current k' = k_current k /\
       k_queues k' = add_head (RunQ (t_priority th)) t (k_queues k)) k.
Proof.
  intros Hs Ht Hmg Hst Hi.
  set (th' := set_state THREAD_READY th). set (k1 := on_threads (<[t := th']>) k).
  assert (sinv ({[t]} ∪ ∅) None k1) as Hs1.
  { rewrite union_empty_r_L. by apply (sinv_limbo_upd _ _ _ _ _ _ _ t th); [|set_solver +| | |]. }
  assert (k_threads k1 !! t = Some th') as Ht1 by apply lookup_insert_eq.
  unfold thread_unblock. wp_step. apply (get_thread_wp _ _ th); [done|].
  do 2 wp_step; [by rewrite Hmg|]. do 2 wp_step; [unfold state_is; by rewrite bool_decide_true|].
  do 2 wp_step; [by rewrite Hi|]. wp_step. apply (upd_thread_wp _ _ th); [done|]. wp_step.
  eapply wp_mono; [by apply (insert_in_run_queue_wp ∅ None true k1 t th')|]. intros _ k2 [-> Hs2].
  wp_step. eapply wp_mono; [by apply (wakeup_cpu_wp _ _ _ th')|]. intros ? k3 Hq.
  split_and!; [by apply (sinv_quiet _ _ _ _ Hq)|apply (qu_current _ _ Hq)|apply (qu_queues _ _ Hq)].
Qed.

(** [thread_unblock] makes a thread that blocked by itself ready at the head of its run
    queue and keeps the invariant; asked to reschedule as well, it always fails the assertion
    of [thread_resched] that the current thread is not running, because nothing puts the
    current thread away first. *)
Theorem thread_unblock_outcome k cpu cur t th :
  sinv {[t]} None k -> k_current k !! cpu = Some cur -> k_threads k !! t = Some th ->
  t_magic th = THREAD_MAGIC -> t_state th = THREAD_BLOCKED -> thread_is_idle th = false ->
  wp (thread_unblock cpu t false)
    (fun _ k' => sinv ∅ None k' /\ k_current k' = k_current k /\
       k_queues k' = add_head (RunQ (t_priority th)) t (k_queues k)) k /\
  thread_unblock cpu t true k = Fault AssertFail.
Proof.
  intros Hs Hcur Ht Hmg Hst Hi. pose proof (thread_unblock_wp k cpu t th Hs Ht Hmg Hst Hi) as Hw.
  split; [done|]. apply wp_done in Hw as (u & k' & Hrun & Hs' & Hc & _).
  rewrite thread_unblock_resched. unfold bind. rewrite Hrun. rewrite <- Hc in Hcur.
  destruct (current_running _ _ _ _ Hs' Hcur) as (cth & Hct & Hcst & _). by eapply thread_resched_running.
Qed.

(** A new thread structure belongs nowhere yet. *)
Lemma sinv_new L off ths qs bm ws cur t th :
  sinv_ L off ths qs bm ws cur -> ths !! t = None ->
  0 <= t_priority th < 32 -> thread_is_idle th = is_idle_tid t ->
  (forall c, t = TIdle c -> t_pinned_cpu th = Z.of_nat c) ->
  sinv_ ({[t]} ∪ L) off (<[t := th]> ths) qs bm ws cur.
Proof.
  intros [S1 S2 S3 S4 S5 S6 S7 S8 S9 S10 S11] Hn Hp Hi Hpin. split; try done.
  - intros q t0 Hin. destruct (S4 q t0 Hin) as [HL (th0 & Ht0 & ?)].
    assert (t0 <> t) as Hne by congruence. split; [set_solver +HL Hne|]. exists th0. by rewrite lookup_insert_ne.
  - intros t0 th0 [[-> ->]|[Hne Ht0]]%lookup_upd HL; [set_solver +HL|]. apply S5; [done|set_solver +HL].
  - intros t0 th0 [[-> ->]|[Hne Ht0]]%lookup_upd; [done|by apply (S6 t0)].
  - intros t0 th0 [[-> ->]|[Hne Ht0]]%lookup_upd; [done|by apply S7].
  - intros c t0 Hc. destruct (S9 c t0 Hc) as (th0 & Ht0 & He & Hr). exists th0.
    assert (t0 <> t) as Hne by congruence. rewrite lookup_insert_ne by done. split_and!; [done|done|].
    intros Ho. destruct (Hr Ho) as (? & ? & ?). split_and!; [set_solver|done|done].
  - intros c Hc. destruct (S11 c Hc) as (th0 & Ht0 & Hm & Hs). exists th0.
    assert (TIdle c <> t) as Hne by congruence. rewrite lookup_insert_ne by done. split_and!; [done|done|].
    intros HL. apply Hs. set_solver +HL.
Qed.

(** A thread that is suspended or asleep leaves that state. *)
Lemma sinv_unpark L off ths qs bm ws cur t th th' :
  sinv_ L off ths qs bm ws cur -> t ∉ L -> ths !! t = Some th ->
  t_state th = THREAD_SUSPENDED \/ t_state th = THREAD_SLEEPING ->
  same_home th th' -> t_magic th' = THREAD_MAGIC ->
  sinv_ ({[t]} ∪ L) off (<[t := th']> ths) qs bm ws cur.
Proof.
  intros Hs HtL Ht Hst Hh Hm. apply (sinv_limbo_upd _ _ _ _ _ _ _ t th); [|set_solver +|done|done|done].
  destruct Hs as [S1 S2 S3 S4 S5 S6 S7 S8 S9 S10 S11]. split; try done.
  - intros q t0 Hin. destruct (S4 q t0 Hin) as [HL (th0 & Ht0 & Hmo)]. split; [|eauto].
    intros [->%elem_of_singleton|?]%elem_of_union; [|done]. simplify_eq.
    destruct Hmo as (_ & _ & Hmo). destruct q; destruct Hmo, Hst; congruence.
  - intros t0 th0 Ht0 HL. apply S5; [done|set_solver +HL].
  - intros c t0 Hc. destruct (S9 c t0 Hc) as (th0 & Ht0 & He & Hr). exists th0. split_and!; [done|done|].
    intros Ho. destruct (Hr Ho) as (? & ? & ?). split_and!; [|done|done].
    intros [->%elem_of_singleton|?]%elem_of_union; [|done]. simplify_eq. destruct Hst; congruence.
  - intros c Hc. destruct (S11 c Hc) as (th0 & Ht0 & Hm0 & Hs0). exists th0. split_and!; [done|done|].
    intros HL. apply Hs0. set_solver +HL.
Qed.

(** ** A machine of two cpus *)
Module SchedExample.

Definition mk_thread (prio flags pinned quantum : Z) (st : thread_state) (w : option wqid) : thread :=
  Thread THREAD_MAGIC prio st quantum flags (-1) pinned None w 0 None 0 [] 0 0 0 [] "t" 0 0 0.

(** Thread 0 runs on cpu 0, whose idle thread is ready; cpu 1 is idle; thread 1 is ready and
    has the same priority, thread 2 is ready and pinned to cpu 1, thread 3 waits. *)
Definition machine : kstate :=
  KState
    {[ TIdle 0 := mk_thread 0 THREAD_FLAG_IDLE 0 0 THREAD_READY None;
       TIdle 1 := mk_thread 0 THREAD_FLAG_IDLE 1 0 THREAD_RUNNING None;
       TThr 0 := mk_thread 16 0 (-1) 3 THREAD_RUNNING None;
       TThr 1 := mk_thread 16 0 (-1) 5 THREAD_READY None;
       TThr 2 := mk_thread 20 0 1 5 THREAD_READY None;
       TThr 3 := mk_thread 18 0 (-1) 5 THREAD_BLOCKED (Some (WMutex 0)) ]}
    [TThr 0; TThr 1; TThr 2; TThr 3]
    {[ RunQ 16 := [TThr 1]; RunQ 20 := [TThr 2]; WaitQ (WMutex 0) := [TThr 3] ]}
    (2 ^ 16 + 2 ^ 20)
    {[ WMutex 0 := WaitQueue WAIT_QUEUE_MAGIC 1 ]}
    {[ 0%nat := TThr 0; 1%nat := TIdle 1 ]}
    (MpState 3 2 0) []
    (TState {[ TmPreempt 0 := Timer TIMER_MAGIC 0 0 None; TmPreempt 1 := Timer TIMER_MAGIC 0 0 None ]}
       ∅ ∅ 100)
    ∅ {[ 0%nat := CpuStats 0 0 0 0 0 0; 1%nat := CpuStats 0 0 0 0 0 0 ]} 0 [].

Lemma machine_sinv : sinv ∅ None machine.
Proof. apply check_sinv_ok. by vm_compute. Qed.

Lemma machine_aux : aux machine.
Proof. apply check_aux_ok. by vm_compute. Qed.

(** The same machine with thread 0 about to be switched away from cpu 0. *)
Definition leaving : kstate := put_away false (TThr 0) (mk_thread 16 0 (-1) 0 THREAD_READY None) machine.

Lemma leaving_sinv : sinv ∅ (Some 0%nat) leaving.
Proof. apply check_sinv_ok. by vm_compute. Qed.

Lemma leaving_aux : aux leaving.
Proof. apply check_aux_ok. by vm_compute. Qed.

(** Thread 4 has blocked without a wait queue. *)
Definition by_hand : kstate :=
  on_threads (<[TThr 4 := mk_thread 10 0 (-1) 5 THREAD_BLOCKED None]>) machine.

Lemma by_hand_sinv : sinv {[TThr 4]} None by_hand.
Proof.
  rewrite <- (union_empty_r_L {[TThr 4]}). apply sinv_new; try done. exact machine_sinv.
Qed.

(** The thread a cpu is left with. *)
Definition now_on (cpu : nat) (o : outcome kstate unit) : option tid :=
  match o with Done _ k => k_current k !! cpu | Fault _ => None end.

Lemma get_top_thread_picks_best_witness :
  exists t k', get_top_thread 0 leaving = Done t k' /\ t = TThr 1.
Proof.
  destruct (proj1 (wp_done _ _ _) (get_top_thread_picks_best _ _ _ 0 leaving_sinv)) as (t & k' & Hr & _).
  assert (match get_top_thread 0 leaving with Done t _ => Some t | _ => None end = Some (TThr 1)) as Hn
    by (vm_compute; reflexivity).
  rewrite Hr in Hn. exists t, k'. split; [exact Hr|congruence].
Defined.

Lemma thread_resched_completes_witness :
  exists u k', thread_resched 0 leaving = Done u k' /\ sinv ∅ None k' /\ k_current k' !! 0%nat = Some (TThr 1).
Proof.
  destruct (proj1 (wp_done _ _ _) (thread_resched_completes leaving 0 (TThr 0)
    (mk_thread 16 0 (-1) 0 THREAD_READY None) leaving_sinv leaving_aux eq_refl eq_refl ltac:(done)))
    as (u & k' & Hr & Hs & _).
  assert (now_on 0 (thread_resched 0 leaving) = Some (TThr 1)) as Hn by (vm_compute; reflexivity).
  rewrite Hr in Hn. exists u, k'. exact (conj Hr (conj Hs Hn)).
Defined.

Lemma thread_yield_round_robin_witness :
  exists u k', thread_yield 0 machine = Done u k' /\ k_current k' !! 0%nat <> Some (TThr 0).
Proof.
  destruct (proj1 (wp_done _ _ _) (thread_yield_round_robin machine 0 (TThr 0)
    (mk_thread 16 0 (-1) 3 THREAD_RUNNING None) machine_sinv machine_aux eq_refl eq_refl eq_refl))
    as (u & k' & Hr & _ & _ & _ & Hrr).
  exists u, k'. split; [done|]. by apply (Hrr (TThr 1) (mk_thread 16 0 (-1) 5 THREAD_READY None)).
Defined.

Lemma thread_preempt_respects_quantum_witness :
  exists u k', thread_preempt 0 machine = Done u k' /\ sinv ∅ None k' /\ k_current k' !! 0%nat = Some (TThr 0).
Proof.
  destruct (proj1 (wp_done _ _ _) (thread_preempt_respects_quantum machine 0 (TThr 0)
    (mk_thread 16 0 (-1) 3 THREAD_RUNNING None) machine_sinv machine_aux eq_refl eq_refl eq_refl))
    as (u & k' & Hr & Hs & _ & _ & _ & _).
  assert (now_on 0 (thread_preempt 0 machine) = Some (TThr 0)) as Hn by (vm_compute; reflexivity).
  rewrite Hr in Hn. exists u, k'. exact (conj Hr (conj Hs Hn)).
Defined.

Lemma thread_set_priority_takes_effect_witness :
  exists u k', thread_set_priority 0 (-7) machine = Done u k' /\ sinv ∅ None k' /\ k_current k' !! 0%nat = Some (TThr 1).
Proof.
  destruct (thread_set_priority_takes_effect machine 0 (TThr 0)
    (mk_thread 16 0 (-1) 3 THREAD_RUNNING None) (-7) machine_sinv machine_aux eq_refl eq_refl eq_refl)
    as (_ & _ & Hw).
  destruct (proj1 (wp_done _ _ _) Hw) as (u & k' & Hr & Hs & _).
  assert (now_on 0 (thread_set_priority 0 (-7) machine) = Some (TThr 1)) as Hn by (vm_compute; reflexivity).
  rewrite Hr in Hn. exists u, k'. exact (conj Hr (conj Hs Hn)).
Defined.

Lemma thread_unblock_outcome_witness : thread_unblock 0 (TThr 4) true by_hand = Fault AssertFail.
Proof.
  exact (proj2 (thread_unblock_outcome by_hand 0 (TThr 0) (TThr 4)
    (mk_thread 10 0 (-1) 5 THREAD_BLOCKED None) by_hand_sinv eq_refl eq_refl eq_refl eq_refl eq_refl)).
Defined.
End SchedExample.
