(* ===== verification/Wait.v ===== *)
(** * Wait queues and sleeping ([kernel/thread.c], [kernel/include/kernel/wait.h])

    A function that blocks is modelled in two parts: up to the call of [thread_resched],
    which switches to another thread, and from the return of that call, which happens when
    the thread is scheduled again, maybe on another cpu and after other threads have run. *)

From stdpp Require Import base gmap list fin_maps strings.
From S2P Require Import Prelude ListNode Timer KState Sched Resched.
Import Family.

Definition WAIT_QUEUE_INITIAL_VALUE : wait_queue := WaitQueue WAIT_QUEUE_MAGIC 0.

Definition wq_set_magic (v : Z) (wq : wait_queue) : wait_queue := WaitQueue v (wq_count wq).
Definition wq_add (d : Z) (wq : wait_queue) : wait_queue := WaitQueue (wq_magic wq) (wq_count wq + d).

(** Initialising a queue with threads on it would lose them. *)
Definition wait_queue_init (w : wqid) : M kstate unit :=
  do q <- gets (fun k => fq (k_queues k) (WaitQ w));
  if bool_decide (q = []) then modify (on_waits (<[w := WAIT_QUEUE_INITIAL_VALUE]>))
  else fail BadPointer.

(** Part of [wait_queue_block] up to the switch: [Some] of what it returns at once, or
    [None] when the thread has been switched away. *)
Definition wait_queue_block_enter (cpu : nat) (w : wqid) (timeout : Z) : M kstate (option Z) :=
  do current_thread <- get_current_thread cpu;
  do wq <- get_wait w;
  massert (wq_magic wq =? WAIT_QUEUE_MAGIC) ;;
  do cth <- get_thread current_thread;
  massert (state_is cth THREAD_RUNNING) ;;
  if timeout =? 0 then ret (Some ERR_TIMED_OUT)
  else
    modify (on_queues (add_tail (WaitQ w) current_thread)) ;;
    upd_wait w (wq_add 1) ;;
    upd_thread current_thread (fun th =>
      set_wait_queue_block_ret NO_ERROR (set_blocking_wait_queue (Some w) (set_state THREAD_BLOCKED th))) ;;
    when (negb (timeout =? INFINITE_TIME))
      (ktimers (timer_initialize (TmWait current_thread)) ;;
       ktimers (timer_set_oneshot cpu (TmWait current_thread) timeout (CbWaitTimeout current_thread))) ;;
    thread_resched cpu ;;
    ret None.

(** The rest of it, when [current_thread] runs again, on [cpu]. *)
Definition wait_queue_block_return (cpu : nat) (timeout : Z) : M kstate Z :=
  do current_thread <- get_current_thread cpu;
  when (negb (timeout =? INFINITE_TIME)) (ktimers (timer_cancel cpu (TmWait current_thread))) ;;
  do th <- get_thread current_thread;
  ret (t_wait_queue_block_ret th).

(** What [wait_queue_wake_one] and [wait_queue_wake_all] do to the thread they take off. *)
Definition wake_thread (w : wqid) (t : tid) (wait_queue_error : Z) : M kstate unit :=
  upd_wait w (wq_add (-1)) ;;
  do th <- get_thread t;
  massert (state_is th THREAD_BLOCKED) ;;
  upd_thread t (fun th =>
    set_blocking_wait_queue None (set_wait_queue_block_ret wait_queue_error (set_state THREAD_READY th))).

(** [list_remove_head_type(&wait->list, ...)]. *)
Definition remove_head (w : wqid) : M kstate (option tid) :=
  do q <- gets (fun k => fq (k_queues k) (WaitQ w));
  match q with
  | [] => ret None
  | t :: _ => modify (on_queues (del t)) ;; ret (Some t)
  end.

Definition ready_current (current_thread : tid) : M kstate unit :=
  upd_thread current_thread (set_state THREAD_READY) ;;
  insert_in_run_queue_head current_thread.

Definition wait_queue_wake_one (cpu : nat) (w : wqid) (reschedule : bool) (wait_queue_error : Z) : M kstate Z :=
  do current_thread <- get_current_thread cpu;
  do wq <- get_wait w;
  massert (wq_magic wq =? WAIT_QUEUE_MAGIC) ;;
  do o <- remove_head w;
  match o with
  | None => ret 0
  | Some t =>
      wake_thread w t wait_queue_error ;;
      when reschedule (ready_current current_thread) ;;
      insert_in_run_queue_head t ;;
      wakeup_cpu_for_thread cpu t ;;
      when reschedule (thread_resched cpu) ;;
      ret 1
  end.

(** The loop of [wait_queue_wake_all]: the number of threads woken and the cpus to notify. *)
Fixpoint wake_loop (fuel : nat) (w : wqid) (wait_queue_error : Z) (n cpu_mask : Z) : M kstate (Z * Z) :=
  match fuel with
  | O => fail OutOfFuel
  | S fuel =>
      do o <- remove_head w;
      match o with
      | None => ret (n, cpu_mask)
      | Some t =>
          wake_thread w t wait_queue_error ;;
          do th <- get_thread t;
          let cpu_mask := if t_pinned_cpu th <? 0 then MP_CPU_ALL_BUT_LOCAL
                          else Z.lor cpu_mask (u32 (bit (t_pinned_cpu th))) in
          insert_in_run_queue_head t ;;
          wake_loop fuel w wait_queue_error (n + 1) cpu_mask
      end
  end.

Definition wait_queue_wake_all (cpu : nat) (w : wqid) (reschedule : bool) (wait_queue_error : Z) : M kstate Z :=
  do current_thread <- get_current_thread cpu;
  do wq <- get_wait w;
  massert (wq_magic wq =? WAIT_QUEUE_MAGIC) ;;
  when (reschedule && (0 <? wq_count wq)) (ready_current current_thread) ;;
  do q <- gets (fun k => fq (k_queues k) (WaitQ w));
  do ' (n, cpu_mask) <- wake_loop (S (length q)) w wait_queue_error 0 0;
  do wq <- get_wait w;
  massert (wq_count wq =? 0) ;;
  when (0 <? n)
    (mp_reschedule cpu cpu_mask 0 ;;
     when reschedule (thread_resched cpu)) ;;
  ret n.

(** [wait_queue_destroy] up to the return of [wait_queue_wake_all], and the assignment
    after it. *)
Definition wait_queue_destroy_enter (cpu : nat) (w : wqid) (reschedule : bool) : M kstate Z :=
  do wq <- get_wait w;
  massert (wq_magic wq =? WAIT_QUEUE_MAGIC) ;;
  wait_queue_wake_all cpu w reschedule ERR_OBJECT_DESTROYED.

Definition wait_queue_destroy_return (w : wqid) : M kstate unit := upd_wait w (wq_set_magic 0).

Definition thread_unblock_from_wait_queue (cpu : nat) (t : tid) (wait_queue_error : Z) : M kstate Z :=
  do th <- get_thread t;
  massert (t_magic th =? THREAD_MAGIC) ;;
  if negb (state_is th THREAD_BLOCKED) then ret ERR_NOT_BLOCKED
  else
    match t_blocking_wait_queue th with
    | None => fail AssertFail
    | Some w =>
        do wq <- get_wait w;
        massert (wq_magic wq =? WAIT_QUEUE_MAGIC) ;;
        do q <- gets k_queues;
        massert (in_list t q) ;;
        modify (on_queues (del t)) ;;
        upd_wait w (wq_add (-1)) ;;
        upd_thread t (fun th =>
          set_wait_queue_block_ret wait_queue_error
            (set_state THREAD_READY (set_blocking_wait_queue None th))) ;;
        insert_in_run_queue_head t ;;
        wakeup_cpu_for_thread cpu t ;;
        ret NO_ERROR
    end.

Definition wait_queue_timeout_handler (cpu : nat) (t : tid) : M kstate handler_return :=
  do th <- get_thread t;
  massert (t_magic th =? THREAD_MAGIC) ;;
  do r <- thread_unblock_from_wait_queue cpu t ERR_TIMED_OUT;
  ret (if NO_ERROR <=? r then INT_RESCHEDULE else INT_NO_RESCHEDULE).

(** [thread_sleep] up to the switch; nothing follows it. *)
Definition thread_sleep (cpu : nat) (delay : Z) : M kstate unit :=
  do current_thread <- get_current_thread cpu;
  do th <- get_thread current_thread;
  massert (t_magic th =? THREAD_MAGIC) ;;
  massert (state_is th THREAD_RUNNING) ;;
  massert (negb (thread_is_idle th)) ;;
  ktimers (timer_initialize (TmSleep current_thread)) ;;
  ktimers (timer_set_oneshot cpu (TmSleep current_thread) delay (CbSleep current_thread)) ;;
  upd_thread current_thread (set_state THREAD_SLEEPING) ;;
  thread_resched cpu.

Definition thread_sleep_handler (t : tid) : M kstate handler_return :=
  do th <- get_thread t;
  massert (t_magic th =? THREAD_MAGIC) ;;
  massert (state_is th THREAD_SLEEPING) ;;
  upd_thread t (set_state THREAD_READY) ;;
  insert_in_run_queue_head t ;;
  ret INT_RESCHEDULE.

(** What the timers of the kernel call. *)
Definition fire (cpu : nat) (cb : kcallback) (x : ktimer) (now : Z) : M kstate handler_return :=
  match cb with
  | CbTick => thread_timer_tick cpu
  | CbSleep t => thread_sleep_handler t
  | CbWaitTimeout t => wait_queue_timeout_handler cpu t
  end.

(** ** What waking threads does

    [calm W err cpu k k']: the threads of [W] have been taken off their wait queues with
    the result [err], the scheduler of [cpu] may have switched threads, and nothing else
    that blocked, sleeping or dead threads can observe has changed. *)

Definition base_eq (th th' : thread) : Prop :=
  t_magic th' = t_magic th /\ t_flags th' = t_flags th /\
  t_pinned_cpu th' = t_pinned_cpu th /\ t_aspace th' = t_aspace th /\ t_stack th' = t_stack th /\
  t_stack_guard th' = t_stack_guard th /\ t_retcode th' = t_retcode th.

(** The states a thread leaves only by an operation on itself. *)
Definition parked (s : thread_state) : option thread_state :=
  match s with THREAD_SUSPENDED | THREAD_SLEEPING | THREAD_DEATH => Some s | _ => None end.

Definition calm_thread (W : list tid) (err : Z) (t : tid) (th th' : thread) : Prop :=
  base_eq th th' /\ parked (t_state th') = parked (t_state th) /\
  t_wait_queue_block_ret th' = if decide (t ∈ W) then err else t_wait_queue_block_ret th.

Record calm (W : list tid) (err : Z) (cpu : nat) (k k' : kstate) : Prop := {
  cm_threads : threads_rel (calm_thread W err) (k_threads k) (k_threads k');
  cm_waitq : forall w, fq (k_queues k') (WaitQ w) = filter (fun t => t ∉ W) (fq (k_queues k) (WaitQ w));
  cm_magic : forall w, wq_magic <$> k_waits k' !! w = wq_magic <$> k_waits k !! w;
  cm_current : forall c, c <> cpu -> k_current k' !! c = k_current k !! c;
  cm_has_current : is_Some (k_current k !! cpu) -> is_Some (k_current k' !! cpu);
  cm_list : k_thread_list k' = k_thread_list k;
  cm_freed : k_freed k' = k_freed k;
  cm_now : ts_now (k_timers k') = ts_now (k_timers k);
  cm_timer : forall x : ktimer, (forall c, x <> TmPreempt c) ->
               ts_timers (k_timers k') !! x = ts_timers (k_timers k) !! x /\
               in_list x (ts_queue (k_timers k')) = in_list x (ts_queue (k_timers k)) }.

Section calm.
Implicit Types (k : kstate) (t : tid) (th : thread) (L : gset tid) (W : list tid).

Lemma filter_notin_nil (l : list tid) : filter (fun t => t ∉ ([] : list tid)) l = l.
Proof. induction l as [|x l IH]; [done|]. rewrite filter_cons, decide_True by set_solver +. by rewrite IH. Qed.

Lemma filter_notin_none W (l : list tid) : (forall t, t ∈ W -> t ∉ l) -> filter (fun t => t ∉ W) l = l.
Proof.
  induction l as [|x l IH]; intros Hn; [done|]. rewrite filter_cons, decide_True.
  - rewrite IH; [done|]. intros t Ht Hin. apply (Hn t Ht). set_solver +Hin.
  - intros Hx. apply (Hn x Hx). set_solver +.
Qed.

Lemma base_eq_refl th : base_eq th th.
Proof. by repeat split. Qed.

Lemma base_eq_trans a b c : base_eq a b -> base_eq b c -> base_eq a c.
Proof. unfold base_eq. intros (?&?&?&?&?&?&?) (?&?&?&?&?&?&?). repeat split; congruence. Qed.

Lemma core_base th th' : core_eq th th' -> base_eq th th'.
Proof. intros (?&?&?&?&?&?&?&?&?&?). by repeat split. Qed.

Lemma calm_refl err cpu k : calm [] err cpu k k.
Proof.
  split; try done; [|intros; by rewrite filter_notin_nil].
  apply threads_rel_refl. intros t th. split_and!; [apply base_eq_refl|done|]. by rewrite decide_False by set_solver +.
Qed.

Lemma calm_trans W1 W2 err cpu k1 k2 k3 :
  calm W1 err cpu k1 k2 -> calm W2 err cpu k2 k3 -> calm (W1 ++ W2) err cpu k1 k3.
Proof.
  intros [A1 A2 A3 A4 A5 A6 A7 A8 A9] [B1 B2 B3 B4 B5 B6 B7 B8 B9]. split; try congruence.
  - intros t. specialize (A1 t). specialize (B1 t).
    destruct (k_threads k1 !! t) as [a|], (k_threads k2 !! t) as [b|], (k_threads k3 !! t) as [c|]; try done.
    destruct A1 as (Ab & Ap & Ar), B1 as (Bb & Bp & Br). split_and!; [by apply (base_eq_trans a b)|congruence|].
    rewrite Br, Ar. repeat case_decide; try done; set_solver.
  - intros w. rewrite B2, A2, list_filter_filter. apply list_filter_iff. intros t. rewrite elem_of_app. tauto.
  - intros c Hc. rewrite B4, A4; done.
  - auto.
  - intros x Hx. destruct (A9 x Hx) as [<- <-]. by apply B9.
Qed.

(** With nobody woken, any result will do. *)
Lemma calm_nil err err' cpu k k' : calm [] err cpu k k' -> calm [] err' cpu k k'.
Proof. intros [A1 A2 A3 A4 A5 A6 A7 A8 A9]. by split. Qed.

Lemma calm_trans_l W err cpu k1 k2 k3 :
  calm [] err cpu k1 k2 -> calm W err cpu k2 k3 -> calm W err cpu k1 k3.
Proof. apply (calm_trans [] W). Qed.

Lemma calm_trans_r W err cpu k1 k2 k3 :
  calm W err cpu k1 k2 -> calm [] err cpu k2 k3 -> calm W err cpu k1 k3.
Proof. intros H1 H2. rewrite <- (app_nil_r W). by apply (calm_trans W [] err cpu k1 k2). Qed.

Lemma calm_quiet err cpu k k' : quiet k k' -> calm [] err cpu k k'.
Proof.
  intros [A1 A2 A3 A4 A5 A6 A7 A8 A9 A10]. split; try congruence.
  - intros t. specialize (A1 t). destruct (k_threads k !! t), (k_threads k' !! t); try done.
    destruct A1 as [Hc Hs]. split_and!; [by apply core_base|congruence|].
    rewrite decide_False by set_solver +. apply Hc.
  - intros w. by rewrite A2, filter_notin_nil.
  - intros x _. by rewrite A7.
Qed.

(** Rewriting one thread that keeps its result and whether it is parked. *)
Lemma calm_upd err cpu k t th th' :
  k_threads k !! t = Some th -> base_eq th th' -> parked (t_state th') = parked (t_state th) ->
  t_wait_queue_block_ret th' = t_wait_queue_block_ret th ->
  calm [] err cpu k (on_threads (<[t := th']>) k).
Proof.
  intros Ht Hb Hp Hr. destruct (calm_refl err cpu k) as [A1 A2 A3 A4 A5 A6 A7 A8 A9]. split; try done.
  apply (threads_rel_insert _ _ t th); [|done|].
  - intros t0 th0. split_and!; [apply base_eq_refl|done|]. by rewrite decide_False by set_solver +.
  - split_and!; [done|done|]. by rewrite decide_False by set_solver +.
Qed.

Lemma calm_enqueued err cpu b t p k : calm [] err cpu k (enqueued b t p k).
Proof.
  destruct (calm_refl err cpu k) as [A1 A2 A3 A4 A5 A6 A7 A8 A9]. split; try done.
  intros w. rewrite <- A2. unfold enqueued. simpl. destruct b; rewrite ?fq_add_head, ?fq_add_tail, decide_False; done.
Qed.

(** A switch wakes nobody. *)
Lemma calm_resched err cpu k t k' :
  sinv ∅ (Some cpu) k -> resched_post k cpu t k' -> is_Some (k_current k !! cpu) -> calm [] err cpu k k'.
Proof.
  intros Hs [R1 R2 R3 R4 R5 R6 R7 R8 R9] Hcur.
  assert (forall w, t ∉ fq (k_queues k) (WaitQ w)) as Hnw.
  { intros w Hin. destruct R1 as [(p & l1 & l2 & Hq & _)|[-> _]].
    - assert (t ∈ fq (k_queues k) (RunQ p)) as Hin' by (rewrite Hq; set_solver +).
      by pose proof (wf_one _ (si_wf _ _ _ _ _ _ _ Hs) _ _ _ Hin Hin').
    - destruct (si_member _ _ _ _ _ _ _ Hs _ _ Hin) as [_ (th & Ht & _ & Hf & _)].
      destruct (si_idle _ _ _ _ _ _ _ Hs _ _ Ht) as [Hi _]. simpl in Hi. congruence. }
  assert (forall th, k_threads k !! t = Some th -> parked (t_state th) = None) as Hpk.
  { intros th Ht. destruct R1 as [(p & l1 & l2 & Hq & _)|[-> _]].
    - assert (t ∈ fq (k_queues k) (RunQ p)) as Hin' by (rewrite Hq; set_solver +).
      destruct (si_member _ _ _ _ _ _ _ Hs _ _ Hin') as [_ (th' & Ht' & _ & _ & E & _)].
      rewrite Ht in Ht'. injection Ht' as <-. by rewrite E.
    - destruct (si_cpu _ _ _ _ _ _ _ Hs cpu Hcur) as (th' & Ht' & _ & E).
      rewrite Ht in Ht'. injection Ht' as <-. destruct (E ltac:(set_solver +)) as [->| ->]; done. }
  split; try done.
  - intros t0. specialize (R3 t0).
    destruct (k_threads k !! t0) as [th|] eqn:E, (k_threads k' !! t0) as [th'|] eqn:E'; try done.
    destruct R3 as [Hc Hst]. split_and!; [by apply core_base| |].
    + rewrite Hst. case_decide; [|done]. subst t0. by rewrite (Hpk th).
    + rewrite decide_False by set_solver +. apply Hc.
  - intros w. rewrite R4, filter_notin_nil. by apply fq_del_other.
  - intros w. by rewrite R5.
  - intros c Hc. by rewrite R2, lookup_insert_ne.
  - intros _. rewrite R2, lookup_insert_eq. eauto.
  - intros x Hx. by apply R9.
Qed.
End calm.

Section wait_proofs.
Implicit Types (k : kstate) (t cur : tid) (th : thread) (L : gset tid) (W : list tid).

Lemma get_wait_wp k w wq (Q : wait_queue -> kstate -> Prop) :
  k_waits k !! w = Some wq -> Q wq k -> wp (get_wait w) Q k.
Proof. intros Hw HQ. unfold get_wait. by repeat wp_step. Qed.

Lemma upd_wait_wp k w wq f (Q : unit -> kstate -> Prop) :
  k_waits k !! w = Some wq -> Q tt (on_waits (<[w := f wq]>) k) -> wp (upd_wait w f) Q k.
Proof. intros Hw HQ. unfold upd_wait. wp_step. by apply (get_wait_wp _ _ wq). Qed.

(** Steps under the lock that touch threads and queues only. *)
Record local_step (k k' : kstate) : Prop := {
  ls_threads : threads_rel (fun _ => aux_eq) (k_threads k) (k_threads k');
  ls_current : k_current k' = k_current k;
  ls_timers : k_timers k' = k_timers k;
  ls_mmu : k_mmu k' = k_mmu k;
  ls_stats : k_stats k' = k_stats k }.

Lemma aux_eq_refl th : aux_eq th th.
Proof. done. Qed.

Lemma aux_eq_trans a b c : aux_eq a b -> aux_eq b c -> aux_eq a c.
Proof. unfold aux_eq. intros (?&?&?&?) (?&?&?&?). split_and!; congruence. Qed.

Lemma local_refl k : local_step k k.
Proof. split; try done. apply threads_rel_refl. done. Qed.

Lemma local_trans k1 k2 k3 : local_step k1 k2 -> local_step k2 k3 -> local_step k1 k3.
Proof.
  intros [A1 A2 A3 A4 A5] [B1 B2 B3 B4 B5]. split; try congruence.
  eapply threads_rel_trans; [|done|done]. intros _ a b c. apply aux_eq_trans.
Qed.

Lemma local_upd k t th th' :
  k_threads k !! t = Some th -> aux_eq th th' -> local_step k (on_threads (<[t := th']>) k).
Proof. intros Ht He. split; try done. by apply (threads_rel_insert _ _ t th). Qed.

Lemma local_enqueued k b t p : local_step k (enqueued b t p k).
Proof. split; try done. apply threads_rel_refl. done. Qed.

Lemma aux_local k k' : local_step k k' -> aux k -> aux k'.
Proof. intros [A1 A2 A3 A4 A5] Ha. unfold aux. rewrite A2, A3, A4, A5. by apply (aux_core (k_threads k)). Qed.

(** Taking a thread off a wait queue. *)
Definition woken (err : Z) (th : thread) : thread :=
  set_blocking_wait_queue None (set_wait_queue_block_ret err (set_state THREAD_READY th)).

Definition wake_state (w : wqid) (wq : wait_queue) (t : tid) (th' : thread) (k : kstate) : kstate :=
  on_threads (<[t := th']>) (on_waits (<[w := wq_add (-1) wq]>) (on_queues (del t) k)).

Lemma sinv_wake L off k w wq t th l1 l2 err :
  sinv L off k -> fq (k_queues k) (WaitQ w) = l1 ++ t :: l2 -> k_waits k !! w = Some wq ->
  k_threads k !! t = Some th -> sinv ({[t]} ∪ L) off (wake_state w wq t (woken err th) k).
Proof.
  intros Hs Hq Hw Ht. pose proof (sinv_dequeue_wait _ _ _ _ _ _ _ _ _ _ _ _ Hs Hq Hw) as Hd.
  apply (sinv_limbo_upd _ _ _ _ _ _ _ t th); [done|set_solver +|done|done|].
  intros Hi. assert (t ∈ fq (k_queues k) (WaitQ w)) as Hin by (rewrite Hq; set_solver +).
  destruct (si_member _ _ _ _ _ _ _ Hs _ _ Hin) as [_ (th' & Ht' & Hmg & _)]. simplify_eq. done.
Qed.

Lemma calm_wake err cpu k w wq t th l1 l2 L off :
  sinv L off k -> fq (k_queues k) (WaitQ w) = l1 ++ t :: l2 -> k_waits k !! w = Some wq ->
  k_threads k !! t = Some th -> calm [t] err cpu k (wake_state w wq t (woken err th) k).
Proof.
  intros Hs Hq Hw Ht. assert (t ∈ fq (k_queues k) (WaitQ w)) as Hin by (rewrite Hq; set_solver +).
  destruct (si_member _ _ _ _ _ _ _ Hs _ _ Hin) as [_ (th' & Ht' & _ & _ & Hst & _)]. simplify_eq.
  split; try done.
  - intros t0. simpl. rewrite lookup_insert. case_decide as E.
    + subst t0. rewrite Ht. split_and!; [by repeat split|by rewrite Hst|]. by rewrite decide_True by set_solver +.
    + destruct (k_threads k !! t0); [|done]. split_and!; [apply base_eq_refl|done|].
      rewrite decide_False; [done|set_solver +E].
  - intros w0. simpl. rewrite fq_del. apply list_filter_iff. intros t0. set_solver +.
  - intros w0. simpl. rewrite lookup_insert. case_decide; [subst; by rewrite Hw|done].
Qed.

(** The waker's steps on the thread it has removed from the list. *)
Lemma wake_thread_wp L off k w wq t th l1 l2 err (Q : unit -> kstate -> Prop) :
  sinv L off k -> fq (k_queues k) (WaitQ w) = l1 ++ t :: l2 -> k_waits k !! w = Some wq ->
  k_threads k !! t = Some th -> Q tt (wake_state w wq t (woken err th) k) ->
  wp (wake_thread w t err) Q (on_queues (del t) k).
Proof.
  intros Hs Hq Hw Ht HQ. assert (t ∈ fq (k_queues k) (WaitQ w)) as Hin by (rewrite Hq; set_solver +).
  destruct (si_member _ _ _ _ _ _ _ Hs _ _ Hin) as [_ (th' & Ht' & _ & _ & Hst & _)].
  rewrite Ht in Ht'. injection Ht' as <-.
  unfold wake_thread. wp_step. apply (upd_wait_wp _ _ wq); [done|]. wp_step. apply (get_thread_wp _ _ th); [done|]. do 2 wp_step; [unfold state_is; by rewrite bool_decide_true|].
  by apply (upd_thread_wp _ _ th).
Qed.

Lemma woken_ready err th : member_ok (RunQ (t_priority th)) (woken err th) <->
  t_magic th = THREAD_MAGIC /\ thread_is_idle th = false.
Proof. unfold member_ok. simpl. naive_solver. Qed.

(** ... and its entering the run queue. *)
Lemma wake_insert_wp L off k w wq t th l1 l2 err cpu :
  sinv L off k -> fq (k_queues k) (WaitQ w) = l1 ++ t :: l2 -> k_waits k !! w = Some wq ->
  k_threads k !! t = Some th ->
  wp (insert_in_run_queue_head t)
    (fun _ k' => k' = enqueued true t (t_priority th) (wake_state w wq t (woken err th) k) /\
       sinv L off k' /\ calm [t] err cpu k k' /\ local_step k k')
    (wake_state w wq t (woken err th) k).
Proof.
  intros Hs Hq Hw Ht. assert (t ∈ fq (k_queues k) (WaitQ w)) as Hin by (rewrite Hq; set_solver +).
  destruct (si_member _ _ _ _ _ _ _ Hs _ _ Hin) as [HtL (th' & Ht' & Hmg & Hi & _ & _)].
  rewrite Ht in Ht'. injection Ht' as <-.
  eapply wp_mono; [apply (insert_in_run_queue_wp L off true _ t (woken err th)); try done|].
  - by apply (sinv_wake L off k w wq t th l1 l2).
  - apply lookup_insert_eq.
  - intros _ k' [-> Hs']. split_and!; [done|done| |].
    + apply (calm_trans_r _ _ _ _ (wake_state w wq t (woken err th) k)); [by eapply calm_wake|apply calm_enqueued].
    + apply (local_trans _ (wake_state w wq t (woken err th) k)); [|apply local_enqueued].
      split; try done. by apply (threads_rel_insert _ _ t th).
Qed.

(** The running thread made ready before a switch. *)
Lemma ready_current_wp L k cpu cur th err :
  sinv L None k -> k_current k !! cpu = Some cur -> k_threads k !! cur = Some th -> thread_is_idle th = false ->
  wp (ready_current cur)
    (fun _ k' => k' = enqueued true cur (t_priority th) (on_threads (<[cur := set_state THREAD_READY th]>) k) /\
       sinv L (Some cpu) k' /\ calm [] err cpu k k' /\ local_step k k') k.
Proof.
  intros Hs Hcur Ht Hi. destruct (current_running _ _ _ _ Hs Hcur) as (th' & Ht' & Hst & Hmg).
  rewrite Ht in Ht'. injection Ht' as <-. pose proof (current_in_transit _ _ _ _ Hs Hcur) as HnL.
  unfold ready_current. wp_step. apply (upd_thread_wp _ _ th); [done|].
  eapply wp_mono; [apply (insert_in_run_queue_wp L (Some cpu) true _ cur (set_state THREAD_READY th)); try done|].
  - by apply (sinv_stop_current L k cpu cur th).
  - apply lookup_insert_eq.
  - intros _ k' [-> Hs']. split_and!; [done|done| |].
    + eapply calm_trans_l; [|apply calm_enqueued]. apply (calm_upd _ _ _ _ th); try done. by rewrite Hst.
    + apply (local_trans _ (on_threads (<[cur := set_state THREAD_READY th]>) k)); [|apply local_enqueued].
      by apply (local_upd _ _ th).
Qed.

Lemma remove_head_wp k w (Q : option tid -> kstate -> Prop) :
  match fq (k_queues k) (WaitQ w) with
  | [] => Q None k
  | t :: _ => Q (Some t) (on_queues (del t) k)
  end -> wp (remove_head w) Q k.
Proof. intros HQ. unfold remove_head. do 2 wp_step. destruct (fq (k_queues k) (WaitQ w)); by repeat wp_step. Qed.

(** A queue with threads on it is a live object, with the threads where they should be. *)
Lemma waiter_facts L off k w t l1 l2 :
  sinv L off k -> fq (k_queues k) (WaitQ w) = l1 ++ t :: l2 ->
  t ∉ L /\ (exists wq, k_waits k !! w = Some wq /\ wq_magic wq = WAIT_QUEUE_MAGIC) /\
  (exists th, k_threads k !! t = Some th /\ t_state th = THREAD_BLOCKED /\ t_magic th = THREAD_MAGIC /\
     thread_is_idle th = false /\ t_blocking_wait_queue th = Some w) /\
  forall c, off <> Some c -> k_current k !! c <> Some t.
Proof.
  intros Hs Hq. assert (t ∈ fq (k_queues k) (WaitQ w)) as Hin by (rewrite Hq; set_solver +).
  destruct (si_member _ _ _ _ _ _ _ Hs _ _ Hin) as [HtL (th & Ht & Hmg & Hi & Hst & Hb)].
  destruct (si_count _ _ _ _ _ _ _ Hs w) as (wq & Hwq & _ & Hm).
  { left. rewrite Hq. by destruct l1. }
  split_and!; [done| |by exists th|].
  - exists wq. split; [done|]. apply Hm. rewrite Hq. by destruct l1.
  - intros c Ho Hc. destruct (si_current _ _ _ _ _ _ _ Hs c t Hc) as (th' & Ht' & _ & Hr).
    destruct (Hr Ho) as (_ & ? & _). congruence.
Qed.

(** Ending an operation with a switch. *)
Lemma finish_resched_wp (b : bool) k cpu cur th W err k0 :
  sinv ∅ (if b then Some cpu else None) k -> aux k -> k_current k !! cpu = Some cur ->
  k_threads k !! cur = Some th -> (b = true -> t_state th <> THREAD_RUNNING) -> calm W err cpu k0 k ->
  wp (when b (thread_resched cpu))
    (fun _ k' => sinv ∅ None k' /\ aux k' /\ calm W err cpu k0 k' /\
       if b then runs_best k' cpu else k_current k' = k_current k) k.
Proof.
  intros Hs Haux Hcur Ht Hst Hc. apply wp_when; intros ->; [|done].
  eapply wp_mono; [apply (thread_resched_wp k cpu cur th); auto|].
  intros _ k' (t' & Hs' & Haux' & Hp). split_and!; [done|done| |].
  - apply (calm_trans_r _ _ _ _ k); [done|]. apply (calm_resched _ _ _ t'); eauto.
  - by apply (resched_runs_best ∅ (Some cpu) k cpu t').
Qed.

Lemma wait_queue_wake_one_wp k cpu w wq (reschedule : bool) err cur th :
  sinv ∅ None k -> aux k -> k_current k !! cpu = Some cur -> k_threads k !! cur = Some th ->
  (reschedule = true -> thread_is_idle th = false) ->
  k_waits k !! w = Some wq -> wq_magic wq = WAIT_QUEUE_MAGIC ->
  wp (wait_queue_wake_one cpu w reschedule err)
    (fun r k' => match fq (k_queues k) (WaitQ w) with
       | [] => r = 0 /\ k' = k
       | t :: _ => r = 1 /\ sinv ∅ None k' /\ aux k' /\ calm [t] err cpu k k' /\
           if reschedule then runs_best k' cpu else k_current k' = k_current k
       end) k.
Proof.
  intros Hs Haux Hcur Ht Hi Hw Hwm. unfold wait_queue_wake_one.
  wp_step. apply (get_current_wp _ _ cur); [done|]. wp_step. apply (get_wait_wp _ _ wq); [done|].
  do 2 wp_step; [by rewrite Hwm|]. wp_step. apply remove_head_wp.
  destruct (fq (k_queues k) (WaitQ w)) as [|t l] eqn:Hq; [by wp_step|]. cbv beta iota.
  destruct (waiter_facts _ _ _ _ t [] l Hs Hq) as (_ & _ & (tht & Htt & Hst & Hmt & Hit & _) & Hnc).
  assert (t <> cur) as Hne by (intros ->; by destruct (Hnc cpu ltac:(done))).
  wp_step. apply (wake_thread_wp ∅ None k w wq t tht [] l); [done..|].
  set (k1 := wake_state w wq t (woken err tht) k).
  assert (sinv ({[t]} ∪ ∅) None k1) as Hs1 by by apply (sinv_wake ∅ None k w wq t tht [] l).
  assert (calm [t] err cpu k k1) as Hc1 by by apply (calm_wake err cpu k w wq t tht [] l ∅ None).
  assert (local_step k k1) as Hl1 by (split; try done; by apply (threads_rel_insert _ _ t tht)).
  assert (k_threads k1 !! cur = Some th) as Hcur1 by (unfold k1; simpl; by rewrite lookup_insert_ne).
  assert (wp (when reschedule (ready_current cur))
    (fun _ k2 => sinv ({[t]} ∪ ∅) (if reschedule then Some cpu else None) k2 /\ calm [t] err cpu k k2 /\
       local_step k k2 /\ k_threads k2 !! t = Some (woken err tht) /\
       exists th2, k_threads k2 !! cur = Some th2 /\ (reschedule = true -> t_state th2 <> THREAD_RUNNING)) k1) as Hrc.
  { apply wp_when; intros ->.
    - eapply wp_mono; [by apply (ready_current_wp ({[t]} ∪ ∅) k1 cpu cur th err); auto|].
      intros _ k2 (-> & Hs2 & Hc2 & Hl2). split_and!; [done|by eapply calm_trans_r|by eapply local_trans| |].
      + simpl. rewrite lookup_insert_ne by done. apply lookup_insert_eq.
      + eexists. split; [apply lookup_insert_eq|done].
    - split_and!; try done; [apply lookup_insert_eq|]. by exists th. }
  wp_step. eapply wp_mono; [exact Hrc|]. intros ? k2 (Hs2 & Hc2 & Hl2 & Ht2 & th2 & Hcur2 & Hst2).
  wp_step. eapply wp_mono.
  { apply (insert_in_run_queue_wp ∅ (if reschedule then Some cpu else None) true k2 t (woken err tht)); done. }
  intros ? k3 [-> Hs3]. wp_step. eapply wp_mono; [by apply (wakeup_cpu_wp _ _ _ (woken err tht))|].
  intros ? k4 Hq4. destruct (quiet_thread _ _ _ _ Hq4 Hcur2) as (th4 & Hcur4 & _ & Hst4).
  wp_step. eapply wp_mono.
  { apply (finish_resched_wp reschedule k4 cpu cur th4 [t] err k); [by apply (sinv_quiet _ _ _ _ Hq4)| | |done| |].
    - apply (aux_quiet _ _ Hq4), (aux_local _ _ (local_enqueued _ _ _ _)), (aux_local _ _ Hl2). done.
    - rewrite (qu_current _ _ Hq4). simpl. by rewrite (ls_current _ _ Hl2).
    - intros Hr. rewrite Hst4. auto.
    - eapply calm_trans_r; [eapply calm_trans_r; [exact Hc2|apply calm_enqueued]|exact (calm_quiet _ _ _ _ Hq4)]. }
  intros ? k5 (Hs5 & Haux5 & Hc5 & Hend). wp_step. split_and!; [done|done|done|done|].
  destruct reschedule; [done|]. rewrite Hend, (qu_current _ _ Hq4). apply (ls_current _ _ Hl2).
Qed.

Lemma filter_notin_self (l : list tid) : filter (fun t => t ∉ l) l = [].
Proof. apply elem_of_nil_inv. intros x. rewrite list_elem_of_filter. tauto. Qed.

(** The loop empties the queue in as many passes as there are threads. *)
Lemma wake_loop_wp L off w err cpu l : forall k fuel n mask,
  sinv L off k -> is_Some (k_waits k !! w) -> fq (k_queues k) (WaitQ w) = l -> (length l < fuel)%nat ->
  wp (wake_loop fuel w err n mask)
    (fun r k' => fst r = n + Z.of_nat (length l) /\ sinv L off k' /\ calm l err cpu k k' /\ local_step k k' /\
       fq (k_queues k') (WaitQ w) = [] /\ forall t, t ∉ l -> k_threads k' !! t = k_threads k !! t) k.
Proof.
  induction l as [|t l IH]; intros k fuel n mask Hs [wq Hw] Hq Hf;
    (destruct fuel as [|fuel]; [simpl in Hf; lia|]); cbn [wake_loop]; wp_step; apply remove_head_wp; rewrite Hq.
  - wp_step. split_and!; [simpl; lia|done|apply calm_refl|apply local_refl|done|done].
  - cbv beta iota. destruct (waiter_facts _ _ _ _ t [] l Hs Hq) as (HtL & _ & (th & Ht & _ & _ & Hi & _) & _).
    wp_step. apply (wake_thread_wp L off k w wq t th [] l); [done..|].
    wp_step. apply (get_thread_wp _ _ (woken err th)); [apply lookup_insert_eq|]. cbv zeta.
    wp_step. eapply wp_mono; [by apply (wake_insert_wp L off k w wq t th [] l err cpu)|].
    intros ? k1 (Ek1 & Hs1 & Hc1 & Hl1).
    assert (fq (k_queues k1) (WaitQ w) = l) as Hq1.
    { subst k1. unfold enqueued. simpl. rewrite fq_add_head, decide_False by done.
      exact (fq_del_mid _ _ _ [] l (si_wf _ _ _ _ _ _ _ Hs) Hq). }
    eapply wp_mono; [apply IH; [done| |done|simpl in Hf; lia]|].
    { subst k1. simpl. rewrite lookup_insert_eq. eauto. }
    intros [n' m'] k2 (En & Hs2 & Hc2 & Hl2 & Hnil & Hoth). simpl in En |- *.
    split_and!; [lia|done|by apply (calm_trans [t] l err cpu k k1)|by apply (local_trans k k1)|done|].
    intros t0 Hn. apply not_elem_of_cons in Hn as [Hn1 Hn2]. rewrite Hoth by done. subst k1. simpl.
    by rewrite lookup_insert_ne.
Qed.

Lemma wait_queue_wake_all_wp k cpu w wq (reschedule : bool) err cur th :
  sinv ∅ None k -> aux k -> k_current k !! cpu = Some cur -> k_threads k !! cur = Some th ->
  (reschedule = true -> thread_is_idle th = false) ->
  k_waits k !! w = Some wq -> wq_magic wq = WAIT_QUEUE_MAGIC ->
  wp (wait_queue_wake_all cpu w reschedule err)
    (fun r k' => r = Z.of_nat (length (fq (k_queues k) (WaitQ w))) /\ sinv ∅ None k' /\ aux k' /\
       calm (fq (k_queues k) (WaitQ w)) err cpu k k' /\ fq (k_queues k') (WaitQ w) = [] /\
       (reschedule = false \/ fq (k_queues k) (WaitQ w) = [] -> k_current k' = k_current k)) k.
Proof.
  intros Hs Haux Hcur Ht Hi Hw Hwm. set (l := fq (k_queues k) (WaitQ w)).
  destruct (si_count _ _ _ _ _ _ _ Hs w ltac:(right; eauto)) as (wq' & Hw' & Hcnt & _). simplify_eq. fold l in Hcnt.
  unfold wait_queue_wake_all. wp_step. apply (get_current_wp _ _ cur); [done|]. wp_step.
  apply (get_wait_wp _ _ wq); [done|]. do 2 wp_step; [by rewrite Hwm|].
  set (b := reschedule && (0 <? wq_count wq)).
  assert (b = reschedule && (0 <? Z.of_nat (length l))) as Hb by (unfold b; by rewrite Hcnt).
  assert (wp (when b (ready_current cur))
    (fun _ k1 => sinv ∅ (if b then Some cpu else None) k1 /\ calm [] err cpu k k1 /\ local_step k k1 /\
       k_waits k1 = k_waits k /\ exists th1, k_threads k1 !! cur = Some th1 /\ (b = true -> t_state th1 <> THREAD_RUNNING)) k) as Hrc.
  { apply wp_when; intros Hbt; rewrite Hbt.
    - apply andb_true_iff in Hbt as [Hr _]. eapply wp_mono; [by apply (ready_current_wp ∅ k cpu cur th err); auto|].
      intros _ k1 (-> & Hs1 & Hc1 & Hl1). split_and!; try done. eexists. split; [apply lookup_insert_eq|done].
    - split_and!; [done|apply calm_refl|apply local_refl|done|]. by exists th. }
  wp_step. eapply wp_mono; [exact Hrc|]. intros ? k1 (Hs1 & Hc1 & Hl1 & Ew1 & th1 & Hcur1 & Hst1). wp_step. wp_step.
  assert (fq (k_queues k1) (WaitQ w) = l) as Hq1 by by rewrite (cm_waitq _ _ _ _ _ Hc1), filter_notin_nil.
  wp_step. eapply wp_mono; [apply (wake_loop_wp ∅ (if b then Some cpu else None) w err cpu l); [done| |done|rewrite Hq1; lia]|].
  { rewrite Ew1. eauto. }
  intros [n mask] k2 (En & Hs2 & Hc2 & Hl2 & Hnil & Hoth). simpl in En. subst n.
  assert (cur ∉ l) as Hcl.
  { unfold l. intros Hin. by apply (current_not_queued _ _ _ (WaitQ w) Hs Hcur). }
  apply (calm_trans_l _ _ _ _ _ _ Hc1) in Hc2. apply (local_trans _ _ _ Hl1) in Hl2. rewrite <- Hoth in Hcur1 by done.
  destruct (si_count _ _ _ _ _ _ _ Hs2 w) as (wq2 & Hw2 & Hcnt2 & _).
  { right. apply fmap_is_Some with wq_magic. rewrite (cm_magic _ _ _ _ _ Hc2 w), Hw. eauto. }
  wp_step. apply (get_wait_wp _ _ wq2); [done|]. rewrite Hnil in Hcnt2. simpl in Hcnt2.
  do 2 wp_step; [by rewrite Hcnt2|]. wp_step.
  apply wp_when; intros Hn.
  - wp_step. eapply wp_mono; [apply quiet_mp_reschedule|]. intros ? k3 Hq3.
    destruct (quiet_thread _ _ _ _ Hq3 Hcur1) as (th3 & Hcur3 & _ & Hst3).
    assert (b = reschedule) as Eb by (rewrite Hb; rewrite Z.add_0_l in Hn; by rewrite Hn, andb_true_r).
    rewrite Eb in *. eapply wp_mono.
    { apply (finish_resched_wp reschedule k3 cpu cur th3 l err k); [by apply (sinv_quiet _ _ _ _ Hq3)| | |done| |].
      - by apply (aux_quiet _ _ Hq3), (aux_local _ _ Hl2).
      - by rewrite (qu_current _ _ Hq3), (ls_current _ _ Hl2).
      - intros Hr. rewrite Hst3. auto.
      - eapply calm_trans_r; [exact Hc2|exact (calm_quiet _ _ _ _ Hq3)]. }
    intros ? k4 (Hs4 & Haux4 & Hc4 & Hend). wp_step. split_and!; [lia|done|done|done| |].
    + rewrite (cm_waitq _ _ _ _ _ Hc4). apply filter_notin_self.
    + intros [->|El]; [by rewrite Hend, (qu_current _ _ Hq3), (ls_current _ _ Hl2)|].
      fold l in El. rewrite El in Hn. done.
  - wp_step. assert (b = false) as Eb by (rewrite Hb; rewrite Z.add_0_l in Hn; by rewrite Hn, andb_false_r).
    rewrite Eb in *. split_and!; [lia|done|by apply (aux_local _ _ Hl2)|done|done|intros _; apply (ls_current _ _ Hl2)].
Qed.

(** Whatever the timers are replaced with, what surrounds the queues is kept. *)
Definition keeps_aux k k' : Prop :=
  forall ts, aux (on_timers (fun _ => ts) k) -> aux (on_timers (fun _ => ts) k').

Lemma keeps_local k k' : local_step k k' -> keeps_aux k k'.
Proof. intros [A1 A2 A3 A4 A5] ts. by apply aux_local. Qed.

Lemma keeps_quiet k k' : quiet k k' -> keeps_aux k k'.
Proof. intros [A1 A2 A3 A4 A5 A6 A7 A8 A9 A10] ts. by apply aux_quiet. Qed.

(** Taking one thread out of whatever queue it waits on. *)
Lemma thread_unblock_from_wait_queue_wp k cpu t th err :
  sinv ∅ None k -> k_threads k !! t = Some th -> t_magic th = THREAD_MAGIC ->
  wp (thread_unblock_from_wait_queue cpu t err)
    (fun r k' => sinv ∅ None k' /\ keeps_aux k k' /\ k_current k' = k_current k /\ k_timers k' = k_timers k /\
       if state_is th THREAD_BLOCKED then r = NO_ERROR /\ calm [t] err cpu k k'
       else r = ERR_NOT_BLOCKED /\ k' = k) k.
Proof.
  intros Hs Ht Hmg. unfold thread_unblock_from_wait_queue. wp_step. apply (get_thread_wp _ _ th); [done|].
  do 2 wp_step; [by rewrite Hmg|]. destruct (state_is th THREAD_BLOCKED) eqn:Hb; simpl; [|wp_step; split_and!; [done|by intros ts|done..]].
  apply bool_decide_eq_true in Hb.
  pose proof (si_placed _ _ _ _ _ _ _ Hs t th Ht ltac:(set_solver +)) as Hp. unfold placed in Hp. rewrite Hb in Hp.
  destruct Hp as (w & Hbw & Hin). rewrite Hbw. apply list_elem_of_split in Hin as (l1 & l2 & Hq).
  destruct (waiter_facts _ _ _ _ t l1 l2 Hs Hq) as (_ & (wq & Hw & Hwm) & _ & _).
  wp_step. apply (get_wait_wp _ _ wq); [done|]. do 2 wp_step; [by rewrite Hwm|]. wp_step. wp_step.
  do 2 wp_step. { apply in_list_spec. exists (WaitQ w). rewrite Hq. set_solver +. }
  wp_step. wp_step. wp_step. apply (upd_wait_wp _ _ wq); [done|]. wp_step. apply (upd_thread_wp _ _ th); [done|].
  wp_step. eapply wp_mono; [by apply (wake_insert_wp ∅ None k w wq t th l1 l2 err cpu)|].
  intros ? k1 (Ek1 & Hs1 & Hc1 & Hl1). wp_step. eapply wp_mono.
  { apply (wakeup_cpu_wp _ _ _ (woken err th)). subst k1. apply lookup_insert_eq. }
  intros ? k2 Hq2. wp_step. split_and!.
  - by apply (sinv_quiet _ _ _ _ Hq2).
  - intros ts Ha. by apply (keeps_quiet _ _ Hq2), (keeps_local _ _ Hl1).
  - rewrite (qu_current _ _ Hq2). apply (ls_current _ _ Hl1).
  - rewrite (qu_timers _ _ Hq2). apply (ls_timers _ _ Hl1).
  - done.
  - eapply calm_trans_r; [exact Hc1|exact (calm_quiet _ _ _ _ Hq2)].
Qed.

Lemma wait_queue_timeout_handler_wp k cpu t th :
  sinv ∅ None k -> k_threads k !! t = Some th -> t_magic th = THREAD_MAGIC ->
  wp (wait_queue_timeout_handler cpu t)
    (fun r k' => sinv ∅ None k' /\ keeps_aux k k' /\ k_current k' = k_current k /\ k_timers k' = k_timers k /\
       if state_is th THREAD_BLOCKED then r = INT_RESCHEDULE /\ calm [t] ERR_TIMED_OUT cpu k k'
       else r = INT_NO_RESCHEDULE /\ k' = k) k.
Proof.
  intros Hs Ht Hmg. unfold wait_queue_timeout_handler. wp_step. apply (get_thread_wp _ _ th); [done|].
  do 2 wp_step; [by rewrite Hmg|]. wp_step. eapply wp_mono; [by apply thread_unblock_from_wait_queue_wp|].
  intros r k' (? & ? & ? & ? & Hr). wp_step. split_and!; try done.
  destruct (state_is th THREAD_BLOCKED); destruct Hr as [-> ?]; done.
Qed.

(** ** Blocking *)

(** The timers of the kernel that belong to a thread. *)
Definition other_timers (x : ktimer) (ts ts' : tstate ktimer kcallback) : Prop :=
  forall y : ktimer, (forall c, y <> TmPreempt c) -> y <> x ->
    ts_timers ts' !! y = ts_timers ts !! y /\ in_list y (ts_queue ts') = in_list y (ts_queue ts).

Definition is_pending (x : ktimer) (cb : kcallback) (ts : tstate ktimer kcallback) : Prop :=
  in_list x (ts_queue ts) = true /\
  exists tm, ts_timers ts !! x = Some tm /\ tm_magic tm = TIMER_MAGIC /\ tm_callback tm = Some cb /\
    tm_periodic_time tm = 0.

(** Setting up a timer that lives on the stack of the thread. *)
Lemma stack_timer_wp k cpu x delay cb :
  aux k -> (forall c, x <> TmPreempt c) -> in_list x (ts_queue (k_timers k)) = false -> 0 <= delay < 2 ^ 30 ->
  wp (ktimers (timer_initialize x) ;; ktimers (timer_set_oneshot cpu x delay cb))
    (fun _ k' => exists ts', k' = on_timers (fun _ => ts') k /\ aux k' /\ is_pending x cb ts' /\
       other_timers x (k_timers k) ts' /\ (forall c, in_list (TmPreempt c) (ts_queue ts') = in_list (TmPreempt c) (ts_queue (k_timers k))) /\
       ts_now ts' = ts_now (k_timers k)) k.
Proof.
  intros [A1 A2 A3 A4 A5 A6 A7 A8] Hx Hn Hd.
  wp_step. apply lift_ts_wp. unfold timer_initialize. do 2 wp_step. change (get_ts k) with (k_timers k).
  rewrite Hn. wp_step. apply lift_ts_wp. unfold timer_set_oneshot.
  change (get_ts (put_ts _ k)) with (set_timers (<[x := TIMER_INITIAL_VALUE]>) (k_timers k)).
  set (s1 := set_timers _ (k_timers k)).
  eapply wp_mono.
  { apply (timer_set_wp cpu x TIMER_INITIAL_VALUE); [|by apply armed_update|apply lookup_insert_eq|done|done| |lia].
    - by apply tinv_update.
    - destruct (delay =? 0); lia. }
  intros ? ts' (I & R & Hins & Et & En). exists ts'.
  assert (forall y, y <> x -> in_list y (ts_queue ts') = in_list y (ts_queue (k_timers k))) as Hother.
  { intros y Hy. by rewrite (in_list_inserted _ _ _ _ _ Hins Hy). }
  assert (forall y, y <> x -> ts_timers ts' !! y = ts_timers (k_timers k) !! y) as Hobj.
  { intros y Hy. rewrite Et. simpl. by rewrite !lookup_insert_ne by done. }
  split_and!; [done| | |intros y _ Hy; split; [by apply Hobj|by apply Hother]|intros c; by apply Hother|done].
  - split; simpl; rewrite ?En; try done.
    + intros c Hc. rewrite Hobj by auto. by apply A4.
    + intros c t th Hc Ht Hrt. rewrite Hother by auto. by apply (A5 c t th).
    + intros c. rewrite Hother, Hobj by auto. apply A8.
  - split.
    + apply in_list_spec. destruct Hins as (l1 & l2 & _ & Hq & _). exists cpu. rewrite Hq. set_solver +.
    + rewrite Et, lookup_insert_eq. by eexists.
Qed.

(** The state in which the running thread has been put on a wait queue. *)
Definition blocked (w : wqid) (th : thread) : thread :=
  set_wait_queue_block_ret NO_ERROR (set_blocking_wait_queue (Some w) (set_state THREAD_BLOCKED th)).

Definition block_state (w : wqid) (wq : wait_queue) (cur : tid) (th : thread) (k : kstate) : kstate :=
  on_threads (<[cur := blocked w th]>) (on_waits (<[w := wq_add 1 wq]>) (on_queues (add_tail (WaitQ w) cur) k)).

Definition block_thread (w : wqid) (cur t : tid) (th th' : thread) : Prop :=
  base_eq th th' /\
  if decide (t = cur) then t_state th' = THREAD_BLOCKED /\ t_blocking_wait_queue th' = Some w /\
                           t_wait_queue_block_ret th' = NO_ERROR
  else parked (t_state th') = parked (t_state th) /\ t_wait_queue_block_ret th' = t_wait_queue_block_ret th.

Record blocked_post (cpu : nat) (w : wqid) (timeout : Z) (cur : tid) (k k' : kstate) : Prop := {
  bp_threads : threads_rel (block_thread w cur) (k_threads k) (k_threads k');
  bp_waitq : forall w', fq (k_queues k') (WaitQ w') =
               if decide (w' = w) then fq (k_queues k) (WaitQ w) ++ [cur] else fq (k_queues k) (WaitQ w');
  bp_magic : forall w', wq_magic <$> k_waits k' !! w' = wq_magic <$> k_waits k !! w';
  bp_current : forall c, c <> cpu -> k_current k' !! c = k_current k !! c;
  bp_has_current : is_Some (k_current k' !! cpu);
  bp_list : k_thread_list k' = k_thread_list k;
  bp_freed : k_freed k' = k_freed k;
  bp_now : ts_now (k_timers k') = ts_now (k_timers k);
  bp_timers : other_timers (TmWait cur) (k_timers k) (k_timers k');
  bp_timeout : if timeout =? INFINITE_TIME
               then ts_timers (k_timers k') !! TmWait cur = ts_timers (k_timers k) !! TmWait cur /\
                    in_list (TmWait cur) (ts_queue (k_timers k')) = false
               else is_pending (TmWait cur) (CbWaitTimeout cur) (k_timers k') }.

Lemma sinv_block k cpu w wq cur th :
  sinv ∅ None k -> k_current k !! cpu = Some cur -> k_threads k !! cur = Some th -> thread_is_idle th = false ->
  k_waits k !! w = Some wq -> wq_magic wq = WAIT_QUEUE_MAGIC ->
  sinv ∅ (Some cpu) (block_state w wq cur th k).
Proof.
  intros Hs Hcur Ht Hi Hw Hwm. destruct (current_running _ _ _ _ Hs Hcur) as (th' & Ht' & _ & Hmg).
  rewrite Ht in Ht'. injection Ht' as <-.
  pose proof (sinv_stop_current ∅ k cpu cur th (blocked w th) Hs Hcur Ht ltac:(done) ltac:(done)) as Hs1.
  apply (sinv_enqueue_wait ∅ (Some cpu) _ _ _ _ _ w wq cur (blocked w th)); try done. apply lookup_insert_eq.
Qed.

(** The thread picked next is not one that has just blocked, gone to sleep or died. *)
Lemma top_runnable k cpu t th :
  sinv ∅ (Some cpu) k -> is_top k cpu t -> is_Some (k_current k !! cpu) -> k_threads k !! t = Some th ->
  t_state th = THREAD_READY \/ t_state th = THREAD_RUNNING.
Proof.
  intros Hs [(p & l1 & l2 & Hq & _)|[-> _]] Hcur Ht.
  - assert (t ∈ fq (k_queues k) (RunQ p)) as Hin by (rewrite Hq; set_solver +).
    destruct (si_member _ _ _ _ _ _ _ Hs _ _ Hin) as [_ (th' & Ht' & _ & _ & E & _)].
    rewrite Ht in Ht'. injection Ht' as <-. by left.
  - destruct (si_cpu _ _ _ _ _ _ _ Hs cpu Hcur) as (th' & Ht' & _ & E).
    rewrite Ht in Ht'. injection Ht' as <-. apply E. set_solver +.
Qed.

(** A thread that is put away in another state than ready stays in it across the switch. *)
Lemma resched_keeps_state k cpu cur th t k' :
  sinv ∅ (Some cpu) k -> k_current k !! cpu = Some cur -> k_threads k !! cur = Some th ->
  t_state th <> THREAD_READY -> t_state th <> THREAD_RUNNING -> resched_post k cpu t k' ->
  exists th', k_threads k' !! cur = Some th' /\ core_eq th th' /\ t_state th' = t_state th.
Proof.
  intros Hs Hcur Ht H1 H2 Hp. destruct (threads_rel_Some _ _ _ _ _ (rp_threads _ _ _ _ Hp) Ht) as (th' & Ht' & Hc & Hst).
  exists th'. split_and!; [done|done|]. rewrite Hst. case_decide as E; [|done]. subst t. exfalso.
  by destruct (top_runnable k cpu cur th Hs (rp_top _ _ _ _ Hp) ltac:(eauto) Ht).
Qed.

(** The timeout, if there is one. *)
Lemma block_timer_wp k cpu cur timeout :
  aux k -> timeout = INFINITE_TIME \/ 0 <= timeout < 2 ^ 30 ->
  in_list (TmWait cur) (ts_queue (k_timers k)) = false ->
  wp (when (negb (timeout =? INFINITE_TIME))
      (ktimers (timer_initialize (TmWait cur)) ;;
       ktimers (timer_set_oneshot cpu (TmWait cur) timeout (CbWaitTimeout cur))))
    (fun _ k' => exists ts', k' = on_timers (fun _ => ts') k /\ aux k' /\ ts_now ts' = ts_now (k_timers k) /\
       other_timers (TmWait cur) (k_timers k) ts' /\
       if timeout =? INFINITE_TIME
       then ts_timers ts' !! TmWait cur = ts_timers (k_timers k) !! TmWait cur /\ in_list (TmWait cur) (ts_queue ts') = false
       else is_pending (TmWait cur) (CbWaitTimeout cur) ts') k.
Proof.
  intros Ha Ht Hn. destruct (Z.eqb_spec timeout INFINITE_TIME) as [E|E]; simpl.
  - exists (k_timers k). rewrite on_timers_same. split_and!; try done.
  - destruct Ht as [|Ht]; [done|]. eapply wp_mono; [by apply stack_timer_wp|].
    intros ? k' (ts' & -> & ? & ? & ? & _ & ?). exists ts'. by split_and!.
Qed.

Lemma calm_blocked_post k cpu w wq cur th timeout ts' k3 :
  k_threads k !! cur = Some th -> k_waits k !! w = Some wq -> is_Some (k_current k !! cpu) ->
  ts_now ts' = ts_now (k_timers k) -> other_timers (TmWait cur) (k_timers k) ts' ->
  (if timeout =? INFINITE_TIME
   then ts_timers ts' !! TmWait cur = ts_timers (k_timers k) !! TmWait cur /\ in_list (TmWait cur) (ts_queue ts') = false
   else is_pending (TmWait cur) (CbWaitTimeout cur) ts') ->
  calm [] 0 cpu (on_timers (fun _ => ts') (block_state w wq cur th k)) k3 ->
  (forall th3, k_threads k3 !! cur = Some th3 -> t_state th3 = THREAD_BLOCKED /\ t_blocking_wait_queue th3 = Some w) ->
  blocked_post cpu w timeout cur k k3.
Proof.
  intros Ht Hw Hcur En Hot Hto [C1 C2 C3 C4 C5 C6 C7 C8 C9] Hst. split; simpl in *; try congruence.
  - intros t. specialize (C1 t). rewrite lookup_insert in C1. case_decide as E.
    + subst t. destruct (k_threads k3 !! cur) as [th3|]; [|done]. rewrite Ht. destruct C1 as (Hb & _ & Hr).
      split; [done|]. rewrite decide_True by done. destruct (Hst th3 eq_refl). by split_and!.
    + destruct (k_threads k !! t), (k_threads k3 !! t); try done. destruct C1 as (Hb & Hp & Hr).
      split; [done|]. by rewrite decide_False by done.
  - intros w'. rewrite C2, filter_notin_nil, fq_add_tail. repeat case_decide; congruence.
  - intros w'. rewrite C3, lookup_insert. case_decide; [subst; by rewrite Hw|done].
  - auto.
  - auto.
  - intros y Hy Hne. destruct (C9 y Hy) as [-> ->]. by apply Hot.
  - destruct (C9 (TmWait cur) ltac:(done)) as [E1 E2]. unfold is_pending in *. by rewrite E1, E2.
Qed.

Lemma wait_queue_block_enter_wp k cpu w wq cur th timeout :
  sinv ∅ None k -> aux k -> k_current k !! cpu = Some cur -> k_threads k !! cur = Some th ->
  thread_is_idle th = false -> k_waits k !! w = Some wq -> wq_magic wq = WAIT_QUEUE_MAGIC ->
  timeout = INFINITE_TIME \/ 0 <= timeout < 2 ^ 30 -> in_list (TmWait cur) (ts_queue (k_timers k)) = false ->
  wp (wait_queue_block_enter cpu w timeout)
    (fun r k' => if timeout =? 0 then r = Some ERR_TIMED_OUT /\ k' = k
       else r = None /\ sinv ∅ None k' /\ aux k' /\ runs_best k' cpu /\ blocked_post cpu w timeout cur k k') k.
Proof.
  intros Hs Haux Hcur Ht Hi Hw Hwm Hto Hnt.
  destruct (current_running _ _ _ _ Hs Hcur) as (th' & Ht' & Hst & Hmg). rewrite Ht in Ht'. injection Ht' as <-.
  unfold wait_queue_block_enter. wp_step. apply (get_current_wp _ _ cur); [done|].
  wp_step. apply (get_wait_wp _ _ wq); [done|]. do 2 wp_step; [by rewrite Hwm|].
  wp_step. apply (get_thread_wp _ _ th); [done|]. do 2 wp_step; [unfold state_is; by rewrite bool_decide_true|].
  destruct (timeout =? 0); [by wp_step|]. wp_step. wp_step. wp_step. apply (upd_wait_wp _ _ wq); [done|].
  wp_step. apply (upd_thread_wp _ _ th); [done|]. fold (block_state w wq cur th k) (blocked w th).
  set (k1 := on_threads _ _). change k1 with (block_state w wq cur th k) in *.
  pose proof (sinv_block k cpu w wq cur th Hs Hcur Ht Hi Hw Hwm) as Hs1.
  assert (aux (block_state w wq cur th k)) as Haux1.
  { eapply aux_local; [|exact Haux]. split; try done. by apply (threads_rel_insert _ _ cur th). }
  wp_step. eapply wp_mono; [by apply (block_timer_wp (block_state w wq cur th k))|].
  intros ? k2 (ts' & -> & Haux2 & En & Hot & Hto'). wp_step.
  eapply wp_mono; [apply (thread_resched_wp _ cpu cur (blocked w th)); [exact Hs1|done|done|apply lookup_insert_eq|done]|].
  intros ? k3 (t' & Hs3 & Haux3 & Hp). wp_step. split_and!; [done|done|done| |].
  { apply (resched_runs_best ∅ (Some cpu) (on_timers (fun _ => ts') (block_state w wq cur th k)) cpu t');
      [exact Hs1|done|done]. }
  assert (calm [] 0 cpu (on_timers (fun _ => ts') (block_state w wq cur th k)) k3) as Hc.
  { apply (calm_resched _ _ _ t'); [exact Hs1|done|]. simpl. eauto. }
  apply (calm_blocked_post k cpu w wq cur th timeout ts'); [done|done|eauto|exact En|exact Hot|exact Hto'|exact Hc|].
  destruct (resched_keeps_state (on_timers (fun _ => ts') (block_state w wq cur th k)) _ cur (blocked w th) _ _ Hs1 Hcur ltac:(apply lookup_insert_eq) ltac:(done) ltac:(done) Hp)
    as (th3 & Ht3 & Hce & Hst3).
  intros th4 Ht4. rewrite Ht3 in Ht4. injection Ht4 as <-. split; [done|apply Hce].
Qed.

(** What remains of [wait_queue_block] when the thread runs again. *)
Lemma wait_queue_block_return_wp k cpu cur th timeout :
  sinv ∅ None k -> aux k -> k_current k !! cpu = Some cur -> k_threads k !! cur = Some th ->
  (timeout <> INFINITE_TIME ->
     exists tm, ts_timers (k_timers k) !! TmWait cur = Some tm /\ tm_magic tm = TIMER_MAGIC) ->
  wp (wait_queue_block_return cpu timeout)
    (fun r k' => r = t_wait_queue_block_ret th /\ sinv ∅ None k' /\ aux k' /\
       (exists ts', k' = on_timers (fun _ => ts') k) /\ other_timers (TmWait cur) (k_timers k) (k_timers k') /\
       ts_now (k_timers k') = ts_now (k_timers k) /\
       (if timeout =? INFINITE_TIME then k' = k else in_list (TmWait cur) (ts_queue (k_timers k')) = false)) k.
Proof.
  intros Hs Haux Hcur Ht Hobj. unfold wait_queue_block_return. wp_step. apply (get_current_wp _ _ cur); [done|].
  destruct (Z.eqb_spec timeout INFINITE_TIME) as [E|E]; simpl; wp_step.
  - wp_step. wp_step. apply (get_thread_wp _ _ th); [done|]. wp_step. split_and!; try done.
    exists (k_timers k). by rewrite on_timers_same.
  - destruct (Hobj E) as (tm & Htm & Hmg). destruct Haux as [A1 A2 A3 A4 A5 A6 A7 A8].
    apply lift_ts_wp. eapply wp_mono; [by apply (timer_cancel_wp cpu (TmWait cur) tm)|].
    intros ? ts' (I & R & Eq & Et & En). wp_step. apply (get_thread_wp _ _ th); [done|]. wp_step.
    split_and!; [done|done| |by exists ts'| |done|]; simpl.
    + split; simpl; rewrite ?En, ?Eq, ?Et; try done.
      * intros c Hc. rewrite lookup_insert_ne by done. by apply A4.
      * intros c t th0 Hc Ht0 Hrt. rewrite in_list_del_other by done. by apply (A5 c t th0).
      * intros c. rewrite in_list_del_other, lookup_insert_ne by done. apply A8.
    + intros y _ Hne. rewrite Eq, Et, in_list_del_other, lookup_insert_ne by done. done.
    + rewrite Eq. apply in_list_del.
Qed.

Definition sleep_thread (cur t : tid) (th th' : thread) : Prop :=
  base_eq th th' /\
  (if decide (t = cur) then t_state th' = THREAD_SLEEPING else parked (t_state th') = parked (t_state th)) /\
  t_wait_queue_block_ret th' = t_wait_queue_block_ret th.

Record slept_post (cpu : nat) (cur : tid) (k k' : kstate) : Prop := {
  sp_threads : threads_rel (sleep_thread cur) (k_threads k) (k_threads k');
  sp_waitq : forall w, fq (k_queues k') (WaitQ w) = fq (k_queues k) (WaitQ w);
  sp_magic : forall w, wq_magic <$> k_waits k' !! w = wq_magic <$> k_waits k !! w;
  sp_current : forall c, c <> cpu -> k_current k' !! c = k_current k !! c;
  sp_list : k_thread_list k' = k_thread_list k;
  sp_freed : k_freed k' = k_freed k;
  sp_now : ts_now (k_timers k') = ts_now (k_timers k);
  sp_timers : other_timers (TmSleep cur) (k_timers k) (k_timers k');
  sp_timer : is_pending (TmSleep cur) (CbSleep cur) (k_timers k');
  sp_has_current : is_Some (k_current k' !! cpu) }.

Lemma thread_sleep_wp k cpu cur th delay :
  sinv ∅ None k -> aux k -> k_current k !! cpu = Some cur -> k_threads k !! cur = Some th ->
  thread_is_idle th = false -> 0 <= delay < 2 ^ 30 -> in_list (TmSleep cur) (ts_queue (k_timers k)) = false ->
  wp (thread_sleep cpu delay)
    (fun _ k' => sinv ∅ None k' /\ aux k' /\ runs_best k' cpu /\ slept_post cpu cur k k') k.
Proof.
  intros Hs Haux Hcur Ht Hi Hd Hn.
  destruct (current_running _ _ _ _ Hs Hcur) as (th' & Ht' & Hst & Hmg). rewrite Ht in Ht'. injection Ht' as <-.
  unfold thread_sleep. wp_step. apply (get_current_wp _ _ cur); [done|]. wp_step. apply (get_thread_wp _ _ th); [done|].
  do 2 wp_step; [by rewrite Hmg|]. do 2 wp_step; [unfold state_is; by rewrite bool_decide_true|].
  do 2 wp_step; [by rewrite Hi|].
  apply wp_bind_assoc. eapply wp_mono; [by apply (stack_timer_wp k cpu (TmSleep cur) delay (CbSleep cur))|].
  intros ? k1 (ts' & -> & Haux1 & Hpend & Hot & _ & En).
  set (k1 := on_timers (fun _ => ts') k) in *. wp_step. apply (upd_thread_wp _ _ th); [done|].
  set (sl := set_state THREAD_SLEEPING th). set (k2 := on_threads (<[cur := sl]>) k1).
  assert (sinv ∅ (Some cpu) k2) as Hs2.
  { apply (sinv_settle ∅ (Some cpu) _ _ _ _ _ cur sl); [|set_solver +|apply lookup_insert_eq|done].
    by apply (sinv_stop_current ∅ k1 cpu cur th). }
  assert (aux k2) as Haux2 by by apply (aux_upd _ _ th).
  assert (k_threads k2 !! cur = Some sl) as Ht2 by apply lookup_insert_eq.
  eapply wp_mono; [by apply (thread_resched_wp k2 cpu cur sl)|]. intros ? k3 (t' & Hs3 & Haux3 & Hp).
  destruct (resched_keeps_state k2 cpu cur sl t' k3 Hs2 Hcur Ht2 ltac:(done) ltac:(done) Hp) as (th3 & Ht3 & Hce3 & Hst3).
  split_and!; [done|done|by apply (resched_runs_best ∅ (Some cpu) k2 cpu t')|].
  pose proof (calm_resched 0 cpu k2 t' k3 Hs2 Hp ltac:(eauto)) as [C1 C2 C3 C4 C5 C6 C7 C8 C9].
  split; simpl in *; try done; [|intros w; by rewrite C2, filter_notin_nil|congruence| | |apply C5; eauto].
  - intros t. specialize (C1 t). rewrite lookup_insert in C1. case_decide as E.
    + subst t. rewrite Ht3 in *. rewrite Ht. destruct C1 as (Hb & _ & Hr). split_and!; [done| |done].
      by rewrite decide_True by done.
    + destruct (k_threads k !! t), (k_threads k3 !! t); try done. destruct C1 as (Hb & Hpk & Hr).
      split_and!; [done| |done]. by rewrite decide_False by done.
  - intros y Hy Hne. destruct (C9 y Hy) as [-> ->]. by apply Hot.
  - destruct (C9 (TmSleep cur) ltac:(done)) as [E1 E2]. unfold is_pending in *. by rewrite E1, E2.
Qed.

(** The sleeping thread goes to the head of its run queue. *)
Lemma thread_sleep_handler_wp k t th :
  sinv ∅ None k -> k_threads k !! t = Some th -> t_magic th = THREAD_MAGIC -> t_state th = THREAD_SLEEPING ->
  thread_is_idle th = false ->
  wp (thread_sleep_handler t)
    (fun r k' => r = INT_RESCHEDULE /\ sinv ∅ None k' /\ local_step k k' /\
       k' = enqueued true t (t_priority th) (on_threads (<[t := set_state THREAD_READY th]>) k)) k.
Proof.
  intros Hs Ht Hmg Hst Hi. unfold thread_sleep_handler. wp_step. apply (get_thread_wp _ _ th); [done|].
  do 2 wp_step; [by rewrite Hmg|]. do 2 wp_step; [unfold state_is; by rewrite bool_decide_true|].
  wp_step. apply (upd_thread_wp _ _ th); [done|]. wp_step.
  eapply wp_mono; [apply (insert_in_run_queue_wp ∅ None true _ t (set_state THREAD_READY th)); try done|].
  - apply (sinv_unpark ∅ None _ _ _ _ _ t th); [done|set_solver +|done|by right|done|done].
  - apply lookup_insert_eq.
  - intros ? k' [-> Hs']. wp_step. split_and!; try done.
    apply (local_trans _ (on_threads (<[t := set_state THREAD_READY th]>) k)); [|apply local_enqueued].
    by apply (local_upd _ _ th).
Qed.
End wait_proofs.
