(* ===== verification/Thread.v ===== *)
(** * The life of a thread ([kernel/thread.c], [top/main.c])

    Creating, starting, joining, detaching and ending threads, and the boot sequence that
    sets up the idle threads.  [malloc] belongs to the heap: its results are arguments. *)

From stdpp Require Import base gmap list fin_maps strings.
From S2P Require Import Prelude ListNode Timer KState Sched Resched Wait.
Import Family.

(** The [memset] of a structure that is in use would corrupt the lists it is in. *)
Definition init_thread_struct (t : tid) (name : string) : M kstate unit :=
  do k <- gets id;
  if in_list t (k_queues k) || bool_decide (t ∈ k_thread_list k) ||
     negb (bool_decide (fq (k_queues k) (WaitQ (WRetcode t)) = []))
  then fail BadPointer
  else modify (on_threads (<[t :=
    Thread THREAD_MAGIC 0 THREAD_SUSPENDED 0 0 0 (-1) None None 0 None 0 [] 0 0 0 []
      (String.substring 0 31 name) 0 0 0]>)).

(** The words of the padding below the stack, filled with [STACK_DEBUG_BYTE]. *)
Definition debug_padding : list Z := repeat STACK_DEBUG_WORD (Z.to_nat (THREAD_STACK_PADDING_SIZE / 4)).

(** The fields [thread_create_etc] sets after [init_thread_struct]. *)
Definition created (th : thread) (entry arg priority : Z) (stk : Z) (guard : list Z) (stack_size flags : Z)
    (tls : list Z) : thread :=
  Thread (t_magic th) priority THREAD_SUSPENDED (t_remaining_quantum th) flags (-1) (t_pinned_cpu th)
    None None NO_ERROR (Some stk) stack_size guard entry arg 0 tls (t_name th)
    (t_total_run_time th) (t_last_run_timestamp th) (t_schedules th).

(** [new_t] and [new_stack] are what the two calls of [malloc] return. *)
Definition thread_create_etc (cpu : nat) (t : option tid) (name : string) (entry arg priority : Z)
    (stack : option Z) (stack_size : Z) (new_t : option tid) (new_stack : option Z) : M kstate (option tid) :=
  match (match t with Some t => Some (t, 0) | None => (fun t => (t, THREAD_FLAG_FREE_STRUCT)) <$> new_t end) with
  | None => ret None
  | Some (t, flags) =>
      init_thread_struct t name ;;
      wait_queue_init (WRetcode t) ;;
      match stack with
      | None =>
          let stack_size := stack_size + THREAD_STACK_PADDING_SIZE in
          let flags := Z.lor flags THREAD_FLAG_DEBUG_STACK_BOUNDS_CHECK in
          match new_stack with
          | None =>
              when (negb (Z.land flags THREAD_FLAG_FREE_STRUCT =? 0))
                (modify (on_threads (delete t)) ;; modify (on_waits (delete (WRetcode t))) ;;
                 modify (on_freed (cons (FreeThread false t)))) ;;
              ret None
          | Some stk =>
              do cur <- get_current_thread cpu;
              do cth <- get_thread cur;
              upd_thread t (fun th => created th entry arg priority stk debug_padding stack_size
                (Z.lor flags THREAD_FLAG_FREE_STACK) (t_tls cth)) ;;
              modify (on_thread_list (cons t)) ;;
              ret (Some t)
          end
      | Some stk =>
          do cur <- get_current_thread cpu;
          do cth <- get_thread cur;
          upd_thread t (fun th => created th entry arg priority stk [] stack_size flags (t_tls cth)) ;;
          modify (on_thread_list (cons t)) ;;
          ret (Some t)
      end
  end.

Definition thread_create (cpu : nat) (name : string) (entry arg priority stack_size : Z)
    (new_t : option tid) (new_stack : option Z) : M kstate (option tid) :=
  thread_create_etc cpu None name entry arg priority None stack_size new_t new_stack.

Definition thread_resume (cpu : nat) (t : tid) (ints_disabled : bool) : M kstate Z :=
  do th <- get_thread t;
  massert (t_magic th =? THREAD_MAGIC) ;;
  massert (negb (state_is th THREAD_DEATH)) ;;
  when (state_is th THREAD_SUSPENDED)
    (upd_thread t (set_state THREAD_READY) ;; insert_in_run_queue_head t) ;;
  wakeup_cpu_for_thread cpu t ;;
  when (state_is th THREAD_SUSPENDED && negb ints_disabled) (thread_yield cpu) ;;
  ret NO_ERROR.

(** The end of [thread_join]: the thread is dead and is taken apart.  The result is the
    status and the return code. *)
Definition thread_reap (t : tid) : M kstate (Z * option Z) :=
  do th <- get_thread t;
  massert (t_magic th =? THREAD_MAGIC) ;;
  massert (state_is th THREAD_DEATH) ;;
  massert (bool_decide (t_blocking_wait_queue th = None)) ;;
  do q <- gets k_queues;
  massert (negb (in_list t q)) ;;
  modify (on_thread_list (filter (fun t' => t' <> t))) ;;
  upd_thread t (set_magic 0) ;;
  match t_stack th with
  | Some a => when (has_flag th THREAD_FLAG_FREE_STACK) (modify (on_freed (cons (FreeStack false a))))
  | None => ret tt
  end ;;
  when (has_flag th THREAD_FLAG_FREE_STRUCT)
    (modify (on_threads (delete t)) ;; modify (on_waits (delete (WRetcode t))) ;;
     modify (on_freed (cons (FreeThread false t)))) ;;
  ret (NO_ERROR, Some (t_retcode th)).

(** [thread_join] up to its end or the switch: [None] when the caller has been switched
    away. *)
Definition thread_join_enter (cpu : nat) (t : tid) (timeout : Z) : M kstate (option (Z * option Z)) :=
  do th <- get_thread t;
  massert (t_magic th =? THREAD_MAGIC) ;;
  if has_flag th THREAD_FLAG_DETACHED then ret (Some (ERR_THREAD_DETACHED, None))
  else if negb (state_is th THREAD_DEATH) then
    do o <- wait_queue_block_enter cpu (WRetcode t) timeout;
    match o with
    | None => ret None
    | Some err => if err <? 0 then ret (Some (err, None)) else do r <- thread_reap t; ret (Some r)
    end
  else do r <- thread_reap t; ret (Some r).

(** ... and from the return of the switch. *)
Definition thread_join_return (cpu : nat) (t : tid) (timeout : Z) : M kstate (Z * option Z) :=
  do err <- wait_queue_block_return cpu timeout;
  if err <? 0 then ret (err, None) else thread_reap t.

(** The call of [thread_join] on a dead thread does not block. *)
Definition thread_detach (cpu : nat) (t : tid) : M kstate Z :=
  do th <- get_thread t;
  massert (t_magic th =? THREAD_MAGIC) ;;
  wait_queue_wake_all cpu (WRetcode t) false ERR_THREAD_DETACHED ;;
  if state_is th THREAD_DEATH then
    upd_thread t (fun th => set_flags (Z.land (t_flags th) (u32 (Z.lnot THREAD_FLAG_DETACHED))) th) ;;
    do o <- thread_join_enter cpu t 0;
    ret (match o with Some (r, _) => r | None => NO_ERROR end)
  else
    upd_thread t (fun th => set_flags (Z.lor (t_flags th) THREAD_FLAG_DETACHED) th) ;;
    ret NO_ERROR.

Definition thread_detach_and_resume (cpu : nat) (t : tid) (ints_disabled : bool) : M kstate Z :=
  do err <- thread_detach cpu t;
  if err <? 0 then ret err else thread_resume cpu t ints_disabled.

(** [thread_exit] up to the switch, from which it does not come back. *)
Definition thread_exit (cpu : nat) (retcode : Z) : M kstate unit :=
  do cur <- get_current_thread cpu;
  do th <- get_thread cur;
  massert (t_magic th =? THREAD_MAGIC) ;;
  massert (state_is th THREAD_RUNNING) ;;
  massert (negb (thread_is_idle th)) ;;
  upd_thread cur (fun th => set_retcode retcode (set_state THREAD_DEATH th)) ;;
  (if has_flag th THREAD_FLAG_DETACHED then
     modify (on_thread_list (filter (fun t' => t' <> cur))) ;;
     upd_thread cur (set_magic 0) ;;
     match t_stack th with
     | Some a =>
         when (has_flag th THREAD_FLAG_FREE_STACK)
           (modify (on_freed (cons (FreeStack true a))) ;;
            upd_thread cur (fun th =>
              set_flags (Z.land (t_flags th) (u32 (Z.lnot THREAD_FLAG_DEBUG_STACK_BOUNDS_CHECK))) th))
     | None => ret tt
     end ;;
     when (has_flag th THREAD_FLAG_FREE_STRUCT) (modify (on_freed (cons (FreeThread true cur))))
   else wait_queue_wake_all cpu (WRetcode cur) false 0 ;; ret tt) ;;
  thread_resched cpu.

(** ** Boot *)

Definition SMP_MAX_CPUS : nat := 4.

(** Memory as the loader leaves it. *)
Definition zeroed (now : Z) : kstate :=
  KState ∅ [] ∅ 0 ∅ ∅ (MpState 0 0 0) [] (timer_init SMP_MAX_CPUS now) ∅
    (list_to_map ((fun c => (c, CpuStats 0 0 0 0 0 0)) <$> seq 0 SMP_MAX_CPUS)) 0 [].

(** The half constructed thread that covers the running code of a cpu. *)
Definition cover_cpu (cpu : nat) (flags : Z) : M kstate unit :=
  upd_thread (TIdle cpu) (fun th =>
    set_pinned_cpu (Z.of_nat cpu) (set_curr_cpu (Z.of_nat cpu)
      (set_flags flags (set_state THREAD_RUNNING (set_priority HIGHEST_PRIORITY th))))) ;;
  wait_queue_init (WRetcode (TIdle cpu)) ;;
  modify (on_thread_list (cons (TIdle cpu))) ;;
  modify (on_current (<[cpu := TIdle cpu]>)).

Definition thread_init_early : M kstate unit :=
  modify (on_queues (fun _ => list_to_map ((fun p => (RunQ (Z.of_nat p), [])) <$> seq 0 32))) ;;
  modify (on_thread_list (fun _ => [])) ;;
  init_thread_struct (TIdle 0) "bootstrap" ;;
  cover_cpu 0 THREAD_FLAG_DETACHED.

Fixpoint init_preempt_timers (cpus : list nat) : M kstate unit :=
  match cpus with
  | [] => ret tt
  | c :: cpus => ktimers (timer_initialize (TmPreempt c)) ;; init_preempt_timers cpus
  end.

Definition thread_init : M kstate unit := init_preempt_timers (seq 0 SMP_MAX_CPUS).

(** Up to the call of [idle_thread_routine]. *)
Definition thread_become_idle (cpu : nat) (name : string) : M kstate unit :=
  do t <- get_current_thread cpu;
  thread_set_name cpu name ;;
  upd_thread t (fun th =>
    set_pinned_cpu (Z.of_nat cpu) (set_flags (Z.lor (t_flags th) THREAD_FLAG_IDLE) (set_priority IDLE_PRIORITY th))) ;;
  mp_set_curr_cpu_active cpu true ;;
  mp_set_cpu_idle cpu ;;
  thread_yield cpu.

Definition thread_secondary_cpu_init_early (cpu : nat) (name : string) : M kstate unit :=
  init_thread_struct (TIdle cpu) name ;;
  cover_cpu cpu (Z.lor THREAD_FLAG_DETACHED THREAD_FLAG_IDLE).

Definition thread_secondary_cpu_entry (cpu : nat) : M kstate unit :=
  do t <- get_current_thread cpu;
  upd_thread t (set_priority IDLE_PRIORITY) ;;
  mp_set_curr_cpu_active cpu true ;;
  mp_set_cpu_idle cpu ;;
  thread_yield cpu.

(** The thread operations of [lk_main]: the start of the first cpu, with the results of
    the two calls of [malloc] that [thread_create] makes. *)
Definition lk_main (entry : Z) (new_t : tid) (new_stack : Z) : M kstate unit :=
  thread_init_early ;;
  thread_init ;;
  do o <- thread_create 0 "bootstrap2" entry 0 DEFAULT_PRIORITY 8192 (Some new_t) (Some new_stack);
  do t <- deref o;
  upd_thread t (set_pinned_cpu 0) ;;
  thread_detach 0 t ;;
  thread_resume 0 t true ;;
  thread_become_idle 0 "idle 0".

(** ** Steps of the invariant that creating and freeing take *)
Section lifecycle.
Implicit Types (k : kstate) (t : tid) (th : thread) (L : gset tid).

(** A wait queue nobody is on can be initialised or dropped. *)
Lemma sinv_init_wait L off ths qs bm ws cur w :
  sinv_ L off ths qs bm ws cur -> fq qs (WaitQ w) = [] ->
  sinv_ L off ths qs bm (<[w := WAIT_QUEUE_INITIAL_VALUE]> ws) cur.
Proof.
  intros [S1 S2 S3 S4 S5 S6 S7 S8 S9 S10 S11] Hq. split; try done.
  intros w'. rewrite lookup_insert. case_decide as E; [|by apply S8]. subst w'.
  intros _. eexists. split; [done|]. by rewrite Hq.
Qed.

Lemma sinv_drop_wait L off ths qs bm ws cur w :
  sinv_ L off ths qs bm ws cur -> fq qs (WaitQ w) = [] -> sinv_ L off ths qs bm (delete w ws) cur.
Proof.
  intros [S1 S2 S3 S4 S5 S6 S7 S8 S9 S10 S11] Hq. split; try done.
  intros w'. rewrite lookup_delete. case_decide as E; [|by apply S8]. subst w'.
  rewrite Hq. intros [?|[? ?]]; done.
Qed.

(** A thread structure that is in no queue and on no cpu can be freed. *)
Lemma sinv_free L off ths qs bm ws cur t :
  sinv_ L off ths qs bm ws cur -> in_list t qs = false -> (forall c, cur !! c <> Some t) -> is_idle_tid t = false ->
  sinv_ L off (delete t ths) qs bm ws cur.
Proof.
  intros [S1 S2 S3 S4 S5 S6 S7 S8 S9 S10 S11] Hq Hc Hi. rewrite in_list_false in Hq.
  assert (forall t0 th0, delete t ths !! t0 = Some th0 -> ths !! t0 = Some th0) as Hd.
  { intros t0 th0 Ht0. by apply lookup_delete_Some in Ht0 as [_ ?]. }
  split; try done; eauto.
  - intros q t0 Hin. destruct (S4 q t0 Hin) as [HL (th0 & Ht0 & Hm)]. split; [done|]. exists th0.
    split; [|done]. rewrite lookup_delete_ne; [done|]. intros <-. by apply (Hq q).
  - intros c t0 Hc0. destruct (S9 c t0 Hc0) as (th0 & Ht0 & ?). exists th0.
    split; [|done]. rewrite lookup_delete_ne; [done|]. intros <-. by apply (Hc c).
  - intros c Hc0. destruct (S11 c Hc0) as (th0 & Ht0 & ?). exists th0.
    split; [|done]. rewrite lookup_delete_ne; [done|]. by intros ->.
Qed.

(** Changing what the invariant does not read of a dead or suspended thread. *)
Lemma sinv_parked_upd L off ths qs bm ws cur t th th' :
  sinv_ L off ths qs bm ws cur -> t ∉ L -> ths !! t = Some th ->
  is_Some (parked (t_state th)) -> t_state th' = t_state th -> same_home th th' -> is_idle_tid t = false ->
  sinv_ L off (<[t := th']> ths) qs bm ws cur.
Proof.
  intros [S1 S2 S3 S4 S5 S6 S7 S8 S9 S10 S11] HL Ht Hp Hst (Hi & Hpin & Hr) Hid.
  assert (forall q, t ∉ fq qs q) as Hnq.
  { intros q Hin. destruct (S4 q t Hin) as [_ (th0 & Ht0 & _ & _ & Hm)]. simplify_eq.
    destruct Hp as [? Hp]. destruct q; destruct Hm as [E _]; rewrite E in Hp; done. }
  split; try done.
  - intros q t0 Hin. destruct (S4 q t0 Hin) as [HL0 (th0 & Ht0 & Hm)]. split; [done|]. exists th0.
    split; [|done]. rewrite lookup_insert_ne; [done|]. intros <-. by apply (Hnq q).
  - intros t0 th0 [[-> ->]|[Hne Ht0]]%lookup_upd HL0; [|by apply S5].
    unfold placed. rewrite Hst. destruct Hp as [? Hp]. by destruct (t_state th).
  - intros t0 th0 [[-> ->]|[Hne Ht0]]%lookup_upd; [by apply Hr, (S6 t)|by apply (S6 t0)].
  - intros t0 th0 [[-> ->]|[Hne Ht0]]%lookup_upd; [rewrite Hi, Hpin; by apply S7|by apply S7].
  - intros c t0 Hc0. destruct (S9 c t0 Hc0) as (th0 & Ht0 & He & Hr0).
    destruct (decide (t0 = t)) as [->|Hne]; [|exists th0; by rewrite lookup_insert_ne].
    exists th'. rewrite lookup_insert_eq. simplify_eq. unfold eligible in *. rewrite Hpin.
    split_and!; [done|done|]. intros Ho. destruct (Hr0 Ho) as (_ & E & _). destruct Hp as [? Hp]. by rewrite E in Hp.
  - intros c Hc0. destruct (S11 c Hc0) as (th0 & Ht0 & ?). exists th0.
    split; [|done]. rewrite lookup_insert_ne; [done|]. by intros ->.
Qed.

(** The surroundings when a thread comes or goes. *)
Lemma aux_add k t th :
  aux k -> k_threads k !! t = None -> (forall c, k_current k !! c <> Some t) ->
  (has_flag th THREAD_FLAG_DEBUG_STACK_BOUNDS_CHECK = true ->
     forallb (fun w => w =? STACK_DEBUG_WORD) (t_stack_guard th) = true) ->
  aux_ (<[t := th]> (k_threads k)) (k_current k) (k_timers k) (k_mmu k) (k_stats k).
Proof.
  intros [A1 A2 A3 A4 A5 A6 A7 A8] Hn Hc Hg. split; try done.
  - intros c t0 th0 Hc0 [[-> ->]|[Hne Ht0]]%lookup_upd; [by destruct (Hc c)|by apply (A5 c t0)].
  - intros t0 th0 [[-> ->]|[Hne Ht0]]%lookup_upd; [done|by apply (A6 t0)].
  - intros c t0 th0 Hc0 [[-> ->]|[Hne Ht0]]%lookup_upd; [by destruct (Hc c)|by apply (A7 c t0)].
Qed.

Lemma aux_remove k t :
  aux k -> aux_ (delete t (k_threads k)) (k_current k) (k_timers k) (k_mmu k) (k_stats k).
Proof.
  intros [A1 A2 A3 A4 A5 A6 A7 A8]. split; try done; intros *.
  - intros Hc0 [_ Ht0]%lookup_delete_Some. by apply (A5 cpu t0).
  - intros [_ Ht0]%lookup_delete_Some. by apply (A6 t0).
  - intros Hc0 [_ Ht0]%lookup_delete_Some. by apply (A7 cpu t0).
Qed.

(** A structure that is free for use. *)
Definition fresh (k : kstate) (t : tid) : Prop :=
  k_threads k !! t = None /\ t ∉ k_thread_list k /\ k_waits k !! WRetcode t = None /\
  fq (k_queues k) (WaitQ (WRetcode t)) = [] /\ is_idle_tid t = false.

Lemma fresh_not_queued L off k t q : sinv L off k -> fresh k t -> t ∉ fq (k_queues k) q.
Proof.
  intros Hs (Hn & _) Hin. destruct (si_member _ _ _ _ _ _ _ Hs q t Hin) as [_ (th & Ht & _)]. congruence.
Qed.

Lemma fresh_not_current L off k t c : sinv L off k -> fresh k t -> k_current k !! c <> Some t.
Proof.
  intros Hs (Hn & _) Hc. destruct (si_current _ _ _ _ _ _ _ Hs c t Hc) as (th & Ht & _). congruence.
Qed.

Lemma fresh_init_wp k t name (Q : unit -> kstate -> Prop) :
  sinv ∅ None k -> fresh k t ->
  Q tt (on_waits (<[WRetcode t := WAIT_QUEUE_INITIAL_VALUE]>) (on_threads (<[t :=
      Thread THREAD_MAGIC 0 THREAD_SUSPENDED 0 0 0 (-1) None None 0 None 0 [] 0 0 0 []
        (String.substring 0 31 name) 0 0 0]>) k)) ->
  wp (init_thread_struct t name ;; wait_queue_init (WRetcode t)) Q k.
Proof.
  intros Hs Hf HQ. pose proof Hf as (Hn & Hl & Hw & Hq & Hi). unfold init_thread_struct, wait_queue_init.
  wp_step. do 2 wp_step.
  assert (in_list t (k_queues k) = false) as Hnq.
  { apply in_list_false. intros q. by apply (fresh_not_queued ∅ None). }
  change (id k) with k. rewrite Hnq. rewrite (bool_decide_false (t ∈ k_thread_list k)), (bool_decide_true (fq _ _ = [])) by done. simpl.
  wp_step. wp_step. wp_step. simpl. rewrite bool_decide_true by done. by wp_step.
Qed.

(** The finished thread satisfies the invariant, whatever priority in range it was given. *)
Lemma sinv_created k t th :
  sinv ∅ None k -> fresh k t -> 0 <= t_priority th < 32 -> t_state th = THREAD_SUSPENDED -> thread_is_idle th = false ->
  sinv_ ∅ None (<[t := th]> (k_threads k)) (k_queues k) (k_bitmap k)
    (<[WRetcode t := WAIT_QUEUE_INITIAL_VALUE]> (k_waits k)) (k_current k).
Proof.
  intros Hs Hf Hp Hst Hid. pose proof Hf as (Hn & Hl & Hw & Hq & Hi). apply sinv_init_wait; [|done].
  apply (sinv_settle ∅ None _ _ _ _ _ t th); [|set_solver +|apply lookup_insert_eq|by rewrite Hst].
  apply sinv_new; try done; [by rewrite Hid, Hi|]. intros c ->. done.
Qed.

(** What a successful [thread_create_etc] has made of the structure [t]. *)
Record created_post (k : kstate) (t : tid) (entry arg priority : Z) (k' : kstate) (th : thread) : Prop := {
  cr_lookup : k_threads k' = <[t := th]> (k_threads k);
  cr_list : k_thread_list k' = t :: k_thread_list k;
  cr_state : t_state th = THREAD_SUSPENDED /\ t_magic th = THREAD_MAGIC /\ t_priority th = priority /\
             t_entry th = entry /\ t_arg th = arg /\ t_pinned_cpu th = -1 /\ t_retcode th = 0 /\
             t_blocking_wait_queue th = None;
  cr_rest : k_queues k' = k_queues k /\ k_current k' = k_current k /\ k_timers k' = k_timers k /\ k_freed k' = k_freed k }.

(** The last part, common to a stack from the caller and one from the heap. *)
Lemma create_finish_wp k cpu cur cth t name entry arg priority stk guard size flags :
  sinv ∅ None k -> aux k -> k_current k !! cpu = Some cur -> k_threads k !! cur = Some cth ->
  fresh k t -> 0 <= priority < 32 -> Z.land flags THREAD_FLAG_IDLE = 0 ->
  (Z.land flags THREAD_FLAG_DEBUG_STACK_BOUNDS_CHECK <> 0 -> forallb (fun w => w =? STACK_DEBUG_WORD) guard = true) ->
  wp (do cur <- get_current_thread cpu; do cth <- get_thread cur;
      upd_thread t (fun th => created th entry arg priority stk guard size flags (t_tls cth)) ;;
      modify (on_thread_list (cons t)) ;; ret (Some t))
    (fun r k' => r = Some t /\ sinv ∅ None k' /\ aux k' /\
       exists th, created_post k t entry arg priority k' th /\ t_flags th = flags /\ t_stack th = Some stk)
    (on_waits (<[WRetcode t := WAIT_QUEUE_INITIAL_VALUE]>) (on_threads (<[t :=
      Thread THREAD_MAGIC 0 THREAD_SUSPENDED 0 0 0 (-1) None None 0 None 0 [] 0 0 0 []
        (String.substring 0 31 name) 0 0 0]>) k)).
Proof.
  intros Hs Haux Hcur Hct Hf Hp Hfl Hg. wp_step. apply (get_current_wp _ _ cur); [done|].
  assert (cur <> t) as Hne by (intros ->; by apply (fresh_not_current _ _ _ _ cpu Hs Hf)).
  wp_step. apply (get_thread_wp _ _ cth); [simpl; by rewrite lookup_insert_ne|].
  wp_step. eapply upd_thread_wp; [apply lookup_insert_eq|]. do 3 wp_step.
  set (th := created _ _ _ _ _ _ _ _ _).
  assert (thread_is_idle th = false) as Hid by (unfold thread_is_idle, has_flag; simpl; by rewrite Hfl).
  split_and!; [done| | |].
  - unfold sinv. simpl. rewrite insert_insert_eq. by apply sinv_created.
  - unfold aux. simpl. rewrite insert_insert_eq. apply aux_add; [done|apply Hf| |].
    + intros c. by apply (fresh_not_current ∅ None).
    + unfold has_flag. simpl. intros Hb. apply Hg. apply negb_true_iff, Z.eqb_neq in Hb. done.
  - exists th. split; [|done]. split; simpl; try done. by rewrite insert_insert_eq.
Qed.

(** Creating a thread either fails and leaves the threads, the thread list and the run
    queues as they were, or gives a suspended thread at the head of the thread list, in no
    queue, with the entry point, argument and priority asked for and a guarded stack, its
    flags recording what has to be freed when it ends; the invariant of the scheduler holds
    either way. *)
Theorem thread_create_outcome k cpu cur cth t name entry arg priority size new_stack :
  sinv ∅ None k -> aux k -> k_current k !! cpu = Some cur -> k_threads k !! cur = Some cth ->
  fresh k t -> 0 <= priority < 32 ->
  wp (thread_create cpu name entry arg priority size (Some t) new_stack)
    (fun r k' => sinv ∅ None k' /\ aux k' /\
       match new_stack with
       | None => r = None /\ k_threads k' = k_threads k /\ k_thread_list k' = k_thread_list k /\
                 k_queues k' = k_queues k /\ k_freed k' = FreeThread false t :: k_freed k
       | Some stk => r = Some t /\ exists th, created_post k t entry arg priority k' th /\
           t_flags th = Z.lor THREAD_FLAG_FREE_STRUCT
                          (Z.lor THREAD_FLAG_FREE_STACK THREAD_FLAG_DEBUG_STACK_BOUNDS_CHECK) /\
           t_stack th = Some stk
       end) k.
Proof.
  intros Hs Haux Hcur Hct Hf Hp. pose proof Hf as (Hn & Hl & Hw & Hq & Hi).
  unfold thread_create, thread_create_etc. cbn [fmap option_fmap option_map].
  apply wp_bind_assoc. apply fresh_init_wp; [done|done|]. destruct new_stack as [stk|].
  - eapply wp_mono; [by apply (create_finish_wp k cpu cur cth t)|].
    intros r k' (-> & Hs' & Haux' & th & Hc & Hfl & Hst). split_and!; try done. by exists th.
  - cbv zeta. change (Z.land _ THREAD_FLAG_FREE_STRUCT) with 4. cbn [negb when Z.eqb].
    repeat wp_step. unfold sinv, aux. simpl. rewrite delete_insert_id, delete_insert_id by done. by split_and!.
Qed.

(** Waking every waiter without a switch works in the middle of an operation, too. *)
Lemma wake_all_stay_wp L off k cpu w wq err cur :
  sinv L off k -> k_current k !! cpu = Some cur -> k_waits k !! w = Some wq -> wq_magic wq = WAIT_QUEUE_MAGIC ->
  wp (wait_queue_wake_all cpu w false err)
    (fun r k' => r = Z.of_nat (length (fq (k_queues k) (WaitQ w))) /\ sinv L off k' /\ (aux k -> aux k') /\
       calm (fq (k_queues k) (WaitQ w)) err cpu k k' /\ k_current k' = k_current k /\ k_timers k' = k_timers k /\
       forall t th, t ∉ fq (k_queues k) (WaitQ w) -> k_threads k !! t = Some th ->
         exists th', k_threads k' !! t = Some th' /\ core_eq th th' /\ t_state th' = t_state th) k.
Proof.
  intros Hs Hcur Hw Hwm. set (l := fq (k_queues k) (WaitQ w)).
  unfold wait_queue_wake_all. wp_step. apply (get_current_wp _ _ cur); [done|]. wp_step.
  apply (get_wait_wp _ _ wq); [done|]. do 2 wp_step; [by rewrite Hwm|]. cbn [when andb]. do 4 wp_step.
  wp_step. eapply wp_mono; [apply (wake_loop_wp L off w err cpu l); [done|eauto|done|fold l; lia]|].
  intros [n mask] k2 (En & Hs2 & Hc2 & Hl2 & Hnil & Hoth). simpl in En. subst n.
  destruct (si_count _ _ _ _ _ _ _ Hs2 w) as (wq2 & Hw2 & Hcnt2 & _).
  { right. apply fmap_is_Some with wq_magic. rewrite (cm_magic _ _ _ _ _ Hc2 w), Hw. eauto. }
  wp_step. apply (get_wait_wp _ _ wq2); [done|]. rewrite Hnil in Hcnt2. simpl in Hcnt2.
  do 2 wp_step; [by rewrite Hcnt2|]. wp_step.
  assert (forall k3, quiet k2 k3 -> 0 + Z.of_nat (length l) = Z.of_nat (length l) /\ sinv L off k3 /\ (aux k -> aux k3) /\
      calm l err cpu k k3 /\ k_current k3 = k_current k /\ k_timers k3 = k_timers k /\
      forall t th, t ∉ l -> k_threads k !! t = Some th ->
        exists th', k_threads k3 !! t = Some th' /\ core_eq th th' /\ t_state th' = t_state th) as Hend.
  { intros k3 Hq3. split_and!.
    - lia.
    - by apply (sinv_quiet _ _ _ _ Hq3).
    - intros Ha. by apply (aux_quiet _ _ Hq3), (aux_local _ _ Hl2).
    - eapply calm_trans_r; [exact Hc2|exact (calm_quiet _ _ _ _ Hq3)].
    - by rewrite (qu_current _ _ Hq3), (ls_current _ _ Hl2).
    - by rewrite (qu_timers _ _ Hq3), (ls_timers _ _ Hl2).
    - intros t th Hn Ht. rewrite <- Hoth in Ht by done. by apply (quiet_thread _ _ _ _ Hq3). }
  apply wp_when; intros Hn.
  - wp_step. eapply wp_mono; [apply quiet_mp_reschedule|]. intros ? k3 Hq3. wp_step. wp_step. by apply Hend.
  - wp_step. apply Hend, quiet_refl.
Qed.

(** [thread_resume] makes a suspended thread ready, or already running if it was called
    with interrupts enabled, in which case the best thread runs afterwards; on any other live
    thread it changes nothing but the interrupts sent to other cpus.  It returns [NO_ERROR] in
    every case, and the invariant holds. *)
Theorem thread_resume_starts k cpu cur cth t th ints_disabled :
  sinv ∅ None k -> aux k -> k_current k !! cpu = Some cur -> k_threads k !! cur = Some cth ->
  k_threads k !! t = Some th -> t_magic th = THREAD_MAGIC -> t_state th <> THREAD_DEATH -> thread_is_idle th = false ->
  wp (thread_resume cpu t ints_disabled)
    (fun r k' => r = NO_ERROR /\ sinv ∅ None k' /\ aux k' /\
       if state_is th THREAD_SUSPENDED
       then (exists th', k_threads k' !! t = Some th' /\ base_eq th th' /\
               (t_state th' = THREAD_READY \/ t_state th' = THREAD_RUNNING)) /\
            (ints_disabled = false -> runs_best k' cpu)
       else quiet k k') k.
Proof.
  intros Hs Haux Hcur Hct Ht Hmg Hnd Hi. unfold thread_resume. wp_step. apply (get_thread_wp _ _ th); [done|].
  do 2 wp_step; [by rewrite Hmg|]. do 2 wp_step; [unfold state_is; by rewrite bool_decide_false|].
  unfold state_is. destruct (decide (t_state th = THREAD_SUSPENDED)) as [Hst|Hst];
    [rewrite bool_decide_true by done|rewrite bool_decide_false by done]; simpl.
  2:{ wp_step. wp_step. wp_step. eapply wp_mono; [by apply (wakeup_cpu_wp _ _ _ th)|]. intros ? k1 Hq1. do 3 wp_step.
      split_and!; [done|by apply (sinv_quiet _ _ _ _ Hq1)|by apply (aux_quiet _ _ Hq1)|done]. }
  assert (cur <> t) as Hne.
  { intros ->. destruct (current_running _ _ _ _ Hs Hcur) as (? & ? & ? & _). congruence. }
  set (th1 := set_state THREAD_READY th). set (k1 := on_threads (<[t := th1]>) k).
  wp_step. wp_step. apply (upd_thread_wp _ _ th); [done|]. fold k1.
  eapply wp_mono; [apply (insert_in_run_queue_wp ∅ None true k1 t th1); try done|].
  { apply (sinv_unpark ∅ None _ _ _ _ _ t th); [done|set_solver +|done|by left|done|done]. }
  { apply lookup_insert_eq. }
  intros ? k2 [Ek2 Hs2]. assert (aux k2) as Haux2.
  { subst k2. apply (aux_local _ _ (local_enqueued _ _ _ _)). by apply (aux_upd _ _ th). }
  assert (k_threads k2 !! t = Some th1) as Ht2 by (subst k2; apply lookup_insert_eq).
  assert (k_threads k2 !! cur = Some cth) as Hct2 by (subst k2; simpl; by rewrite lookup_insert_ne).
  wp_step. eapply wp_mono; [by apply (wakeup_cpu_wp _ _ _ th1)|]. intros ? k3 Hq3.
  apply (sinv_quiet _ _ _ _ Hq3) in Hs2. apply (aux_quiet _ _ Hq3) in Haux2.
  destruct (quiet_thread _ _ _ _ Hq3 Ht2) as (th3 & Ht3 & Hc3 & Hst3).
  destruct (quiet_thread _ _ _ _ Hq3 Hct2) as (cth3 & Hct3 & _ & _).
  assert (k_current k3 !! cpu = Some cur) as Hcur3 by (rewrite (qu_current _ _ Hq3); subst k2; done).
  assert (base_eq th th3) as Hb3 by (apply core_base in Hc3; by destruct th).
  wp_step. destruct ints_disabled; simpl.
  - wp_step. wp_step. split_and!; [done|done|done| |done]. exists th3. split_and!; [done|done|left; by rewrite Hst3].
  - eapply wp_mono; [by apply (thread_yield_wp k3 cpu cur cth3)|]. intros ? k4 (Hs4 & Haux4 & Hb4 & t' & Hp). wp_step.
    split_and!; [done|done|done| |done].
    destruct (threads_rel_Some _ _ _ t th3 (rp_threads _ _ _ _ Hp)) as (th4 & Ht4 & Hc4 & Hst4).
    { unfold put_away, enqueued. case_match; simpl; by rewrite lookup_insert_ne. }
    exists th4. split_and!; [done|apply (base_eq_trans th th3); [done|by apply core_base]|].
    rewrite Hst4. case_decide; [by right|left; by rewrite Hst3].
Qed.

(** The thread as [thread_exit] leaves it before the switch. *)
Definition dead (retcode : Z) (th : thread) : thread :=
  let th' := set_retcode retcode (set_state THREAD_DEATH th) in
  if has_flag th THREAD_FLAG_DETACHED then
    let th' := set_magic 0 th' in
    if has_flag th THREAD_FLAG_FREE_STACK && bool_decide (is_Some (t_stack th))
    then set_flags (Z.land (t_flags th) (u32 (Z.lnot THREAD_FLAG_DEBUG_STACK_BOUNDS_CHECK))) th'
    else th'
  else th'.

(** What is given to [heap_delayed_free]. *)
Definition exit_freed (cur : tid) (th : thread) : list freed :=
  (if has_flag th THREAD_FLAG_FREE_STRUCT then [FreeThread true cur] else []) ++
  match t_stack th with
  | Some a => if has_flag th THREAD_FLAG_FREE_STACK then [FreeStack true a] else []
  | None => []
  end.

Lemma land_lnot_check f g :
  Z.land g 32 = 0 -> 0 <= g < 2 ^ 32 ->
  Z.land (Z.land f (u32 (Z.lnot THREAD_FLAG_DEBUG_STACK_BOUNDS_CHECK))) g = Z.land f g.
Proof.
  intros Hg Hg'. apply Z.bits_inj'. intros n Hn. rewrite !Z.land_spec.
  destruct (decide (n = 5)) as [->|Hne].
  - assert (Z.testbit g 5 = false) as ->; [|by rewrite !andb_false_r].
    assert (Z.testbit (Z.land g 32) 5 = false) as E by by rewrite Hg. rewrite Z.land_spec in E.
    change (Z.testbit 32 5) with true in E. by rewrite andb_true_r in E.
  - destruct (decide (n < 32)) as [Hlt|].
    + rewrite u32_testbit by lia. change (Z.lnot THREAD_FLAG_DEBUG_STACK_BOUNDS_CHECK) with (Z.lnot (2 ^ 5)).
      rewrite Z.lnot_spec, Z.pow2_bits_eqb by lia. rewrite (proj2 (Z.eqb_neq 5 n)) by lia.
      rewrite (proj2 (Z.ltb_lt n 32)) by lia. simpl. by rewrite !andb_true_r.
    + rewrite (Z.bits_above_log2 g n), !andb_false_r; [done|lia|].
      destruct (decide (g = 0)) as [->|]; [simpl; lia|]. apply Z.log2_lt_pow2; [lia|].
      apply Z.lt_le_trans with (2 ^ 32); [lia|]. apply Z.pow_le_mono_r; lia.
Qed.

Lemma dead_flag retcode th g : Z.land g 32 = 0 -> 0 <= g < 2 ^ 32 -> has_flag (dead retcode th) g = has_flag th g.
Proof.
  intros Hg Hg'. unfold has_flag, dead. repeat case_match; try done. simpl. by rewrite land_lnot_check.
Qed.

Lemma dead_same_home retcode th : same_home th (dead retcode th).
Proof.
  split_and!; [by apply dead_flag| |].
  - unfold dead. by repeat case_match.
  - unfold dead. by repeat case_match.
Qed.

Lemma dead_fields retcode th :
  t_state (dead retcode th) = THREAD_DEATH /\ t_retcode (dead retcode th) = retcode /\
  t_aspace (dead retcode th) = t_aspace th /\ t_stack_guard (dead retcode th) = t_stack_guard th /\
  t_stack (dead retcode th) = t_stack th /\ t_blocking_wait_queue (dead retcode th) = t_blocking_wait_queue th /\
  t_magic (dead retcode th) = if has_flag th THREAD_FLAG_DETACHED then 0 else t_magic th.
Proof. unfold dead. repeat case_match; by split_and!. Qed.

Lemma dead_guard retcode th :
  has_flag (dead retcode th) THREAD_FLAG_DEBUG_STACK_BOUNDS_CHECK = true ->
  has_flag th THREAD_FLAG_DEBUG_STACK_BOUNDS_CHECK = true.
Proof.
  unfold has_flag, dead. repeat case_match; try done. simpl. rewrite <- Z.land_assoc.
  change (Z.land (u32 _) THREAD_FLAG_DEBUG_STACK_BOUNDS_CHECK) with 0. by rewrite Z.land_0_r.
Qed.

(** The surroundings when the running thread dies. *)
Lemma aux_dead k cpu cur th retcode :
  aux k -> k_current k !! cpu = Some cur -> k_threads k !! cur = Some th ->
  aux_ (<[cur := dead retcode th]> (k_threads k)) (k_current k) (k_timers k) (k_mmu k) (k_stats k).
Proof.
  intros [A1 A2 A3 A4 A5 A6 A7 A8] Hc Ht. destruct (dead_fields retcode th) as (_ & _ & Ea & Eg & _). split; try done.
  - intros c t0 th0 Hc0 [[-> ->]|[Hne Ht0]]%lookup_upd; [|by apply (A5 c t0)].
    unfold thread_is_real_time_or_idle. rewrite dead_flag by done. by apply (A5 c cur th).
  - intros t0 th0 [[-> ->]|[Hne Ht0]]%lookup_upd; [|by apply (A6 t0)].
    intros Hf%dead_guard. rewrite Eg. by apply (A6 cur).
  - intros c t0 th0 Hc0 [[-> ->]|[Hne Ht0]]%lookup_upd; [rewrite Ea; by apply (A7 c cur)|by apply (A7 c t0)].
Qed.

Lemma sinv_dead k cpu cur th retcode :
  sinv ∅ None k -> k_current k !! cpu = Some cur -> k_threads k !! cur = Some th -> thread_is_idle th = false ->
  sinv_ ∅ (Some cpu) (<[cur := dead retcode th]> (k_threads k)) (k_queues k) (k_bitmap k) (k_waits k) (k_current k).
Proof.
  intros Hs Hcur Ht Hi. pose proof (si_idle _ _ _ _ _ _ _ Hs cur th Ht) as [Hid _].
  apply (sinv_settle ∅ (Some cpu) _ _ _ _ _ cur (dead retcode th)); [|set_solver +|apply lookup_insert_eq|].
  - apply (sinv_limbo_upd _ _ _ _ _ _ _ cur th); [by apply sinv_take_current|set_solver +|done|apply dead_same_home|].
    rewrite <- Hid, Hi. done.
  - destruct (dead_fields retcode th) as (-> & _). unfold thread_is_idle. by rewrite dead_flag.
Qed.

(** The teardown of a detached thread in [thread_exit]. *)
Lemma exit_detached_wp k cur th retcode (Q : unit -> kstate -> Prop) :
  has_flag th THREAD_FLAG_DETACHED = true ->
  Q tt (on_freed (app (exit_freed cur th)) (on_thread_list (filter (fun t' => t' <> cur))
          (on_threads (<[cur := dead retcode th]>) k))) ->
  wp (modify (on_thread_list (filter (fun t' => t' <> cur))) ;;
      upd_thread cur (set_magic 0) ;;
      match t_stack th with
      | Some a =>
          when (has_flag th THREAD_FLAG_FREE_STACK)
            (modify (on_freed (cons (FreeStack true a))) ;;
             upd_thread cur (fun th =>
               set_flags (Z.land (t_flags th) (u32 (Z.lnot THREAD_FLAG_DEBUG_STACK_BOUNDS_CHECK))) th))
      | None => ret tt
      end ;;
      when (has_flag th THREAD_FLAG_FREE_STRUCT) (modify (on_freed (cons (FreeThread true cur))))) Q
    (on_threads (<[cur := set_retcode retcode (set_state THREAD_DEATH th)]>) k).
Proof.
  intros Hd HQ. destruct k. unfold exit_freed, dead in HQ. rewrite Hd in HQ. simpl in HQ. wp_step. wp_step. wp_step.
  eapply upd_thread_wp; [apply lookup_insert_eq|]. unfold on_thread_list, on_threads at 1. simpl.
  rewrite insert_insert_eq. wp_step.
  destruct (t_stack th) as [a|] eqn:Hst; [destruct (has_flag th THREAD_FLAG_FREE_STACK) eqn:Hfs|].
  - simpl in HQ. cbn [when]. wp_step. wp_step. eapply upd_thread_wp; [apply lookup_insert_eq|].
    unfold on_freed, on_threads. simpl. rewrite insert_insert_eq.
    apply wp_when; intros Hft; rewrite Hft in HQ; exact HQ.
  - simpl in HQ. cbn [when]. wp_step. apply wp_when; intros Hft; rewrite Hft in HQ; exact HQ.
  - rewrite andb_false_r in HQ. wp_step. apply wp_when; intros Hft; rewrite Hft in HQ; exact HQ.
Qed.

(** Switching away from a dead thread. *)
Lemma dead_resched_wp k cpu cur th retcode k2 :
  k_current k !! cpu = Some cur -> sinv ∅ (Some cpu) k2 -> aux k2 -> k_current k2 = k_current k ->
  (exists th2, k_threads k2 !! cur = Some th2 /\ core_eq (dead retcode th) th2 /\ t_state th2 = THREAD_DEATH) ->
  wp (thread_resched cpu) (fun _ k' => sinv ∅ None k' /\ aux k' /\ runs_best k' cpu /\
    (forall c, k_current k' !! c <> Some cur) /\
    (exists th', k_threads k' !! cur = Some th' /\ core_eq (dead retcode th) th' /\ t_state th' = THREAD_DEATH) /\
    calm [] 0 cpu k2 k') k2.
Proof.
  intros Hcur Hs2 Haux2 Hc2 (th2 & Ht2 & Hce2 & Hst2). rewrite <- Hc2 in Hcur.
  eapply wp_mono; [by apply (thread_resched_wp k2 cpu cur th2); [..|congruence]|].
  intros ? k' (t' & Hs' & Haux' & Hp).
  destruct (resched_keeps_state k2 cpu cur th2 t' k') as (th' & Ht' & Hce & Hst'); [done|done|done|congruence|congruence|done|].
  split_and!; [done|done|by apply (resched_runs_best ∅ (Some cpu) k2 cpu t')| | |by apply (calm_resched _ _ _ t'); eauto].
  - intros c Hc. destruct (current_running _ _ _ _ Hs' Hc) as (? & ? & ? & _). congruence.
  - exists th'. split_and!; [done|by apply (core_eq_trans _ th2)|congruence].
Qed.

(** A thread that was woken is not blocked and has the result it was woken with. *)
Lemma calm_woken W err cpu k k' t :
  sinv ∅ None k' -> calm W err cpu k k' -> t ∈ W -> is_Some (k_threads k !! t) ->
  exists th', k_threads k' !! t = Some th' /\ t_wait_queue_block_ret th' = err /\ t_state th' <> THREAD_BLOCKED.
Proof.
  intros Hs' Hc Hin [th Ht]. destruct (threads_rel_Some _ _ _ t th (cm_threads _ _ _ _ _ Hc) Ht) as (th' & Ht' & _ & _ & Hr).
  exists th'. rewrite decide_True in Hr by done. split_and!; [done|done|]. intros Hb.
  pose proof (si_placed _ _ _ _ _ _ _ Hs' t th' Ht' ltac:(set_solver +)) as Hp. unfold placed in Hp. rewrite Hb in Hp.
  destruct Hp as (w & _ & Hinw). rewrite (cm_waitq _ _ _ _ _ Hc) in Hinw. by apply list_elem_of_filter in Hinw as [? _].
Qed.

(** What [thread_exit] of [cur] leaves behind. *)
Record exit_post (k : kstate) (cpu : nat) (cur : tid) (th : thread) (retcode : Z) (k' : kstate) : Prop := {
  ex_inv : sinv ∅ None k';
  ex_aux : aux k';
  ex_best : runs_best k' cpu;
  ex_off : forall c, k_current k' !! c <> Some cur;
  ex_dead : exists th', k_threads k' !! cur = Some th' /\ core_eq (dead retcode th) th' /\ t_state th' = THREAD_DEATH;
  ex_list : k_thread_list k' = if has_flag th THREAD_FLAG_DETACHED
              then filter (fun t => t <> cur) (k_thread_list k) else k_thread_list k;
  ex_freed : k_freed k' = if has_flag th THREAD_FLAG_DETACHED then exit_freed cur th ++ k_freed k else k_freed k;
  ex_joiners : has_flag th THREAD_FLAG_DETACHED = false ->
    (forall t, t ∈ fq (k_queues k) (WaitQ (WRetcode cur)) ->
       exists th', k_threads k' !! t = Some th' /\ t_wait_queue_block_ret th' = NO_ERROR /\ t_state th' <> THREAD_BLOCKED) /\
    fq (k_queues k') (WaitQ (WRetcode cur)) = [] }.

Lemma thread_exit_wp k cpu cur th wq retcode :
  sinv ∅ None k -> aux k -> k_current k !! cpu = Some cur -> k_threads k !! cur = Some th ->
  thread_is_idle th = false -> k_waits k !! WRetcode cur = Some wq -> wq_magic wq = WAIT_QUEUE_MAGIC ->
  wp (thread_exit cpu retcode) (fun _ k' => exit_post k cpu cur th retcode k') k.
Proof.
  intros Hs Haux Hcur Ht Hi Hw Hwm.
  destruct (current_running _ _ _ _ Hs Hcur) as (th0 & Ht0 & Hst & Hmg). rewrite Ht in Ht0. injection Ht0 as <-.
  unfold thread_exit. wp_step. apply (get_current_wp _ _ cur); [done|]. wp_step. apply (get_thread_wp _ _ th); [done|].
  do 2 wp_step; [by rewrite Hmg|]. do 2 wp_step; [unfold state_is; by rewrite bool_decide_true|].
  do 2 wp_step; [by rewrite Hi|]. wp_step. apply (upd_thread_wp _ _ th); [done|].
  destruct (dead_fields retcode th) as (Dst & Dret & _ & _ & _ & _ & Dmg).
  pose proof (fun k2 => dead_resched_wp k cpu cur th retcode k2 Hcur) as Hgo.
  wp_step. destruct (has_flag th THREAD_FLAG_DETACHED) eqn:Hd.
  - apply (exit_detached_wp k cur th retcode); [done|].
    eapply wp_mono; [apply Hgo; [exact (sinv_dead k cpu cur th retcode Hs Hcur Ht Hi)|exact (aux_dead k cpu cur th retcode Haux Hcur Ht)|done|]|].
    { exists (dead retcode th). split_and!; [apply lookup_insert_eq|apply core_eq_refl|done]. }
    intros ? k' (? & ? & ? & ? & ? & Hc). split; rewrite ?Hd; try done;
      [apply (cm_list _ _ _ _ _ Hc)|apply (cm_freed _ _ _ _ _ Hc)].
  - wp_step. replace (set_retcode retcode (set_state THREAD_DEATH th)) with (dead retcode th) by (unfold dead; by rewrite Hd).
    set (k1 := on_threads (<[cur := dead retcode th]>) k).
    eapply wp_mono; [apply (wake_all_stay_wp ∅ (Some cpu) k1 cpu (WRetcode cur) wq 0 cur); [exact (sinv_dead k cpu cur th retcode Hs Hcur Ht Hi)|done..]|].
    intros ? k2 (_ & Hs2 & Haux2 & Hc2 & Ec2 & _ & Hoth). wp_step.
    eapply wp_mono; [apply Hgo; [done|apply Haux2; exact (aux_dead k cpu cur th retcode Haux Hcur Ht)|done|]|].
    { destruct (Hoth cur (dead retcode th)) as (th2 & Ht2 & Hce2 & Hst2).
      - exact (current_not_queued k cpu cur _ Hs Hcur).
      - apply lookup_insert_eq.
      - exists th2. split_and!; [done|done|congruence]. }
    intros ? k' (Hs' & ? & ? & ? & ? & Hc). pose proof (calm_trans_r _ _ _ _ _ _ Hc2 Hc) as Hc3.
    split; rewrite ?Hd; try done; [apply (cm_list _ _ _ _ _ Hc3)|apply (cm_freed _ _ _ _ _ Hc3)|].
    intros _. split; [|rewrite (cm_waitq _ _ _ _ _ Hc3); apply filter_notin_self].
    intros t Hin. assert (t <> cur) as Hne by (intros ->; by apply (current_not_queued _ cpu _ _ Hs Hcur) in Hin).
    apply (calm_woken _ _ _ _ _ t Hs' Hc3 Hin).
    destruct (si_member _ _ _ _ _ _ _ Hs _ _ Hin) as [_ (tt0 & Htt & _)]. exists tt0. simpl. by rewrite lookup_insert_ne.
Qed.

(** [thread_exit] completes: the thread is dead with its return code and no cpu runs it any
    more, the best thread runs instead and the invariant holds.  A detached thread has left the
    thread list and what the heap has to take back has been handed over; otherwise the list is
    unchanged and every thread that was waiting to join it has been woken without an error. *)
Theorem thread_exit_ends k cpu cur th wq retcode :
  sinv ∅ None k -> aux k -> k_current k !! cpu = Some cur -> k_threads k !! cur = Some th ->
  thread_is_idle th = false -> k_waits k !! WRetcode cur = Some wq -> wq_magic wq = WAIT_QUEUE_MAGIC ->
  wp (thread_exit cpu retcode) (fun _ k' => exit_post k cpu cur th retcode k') k.
Proof. apply thread_exit_wp. Qed.

(** What [thread_join] frees when it takes a dead thread apart. *)
Definition reap_freed (t : tid) (th : thread) : list freed :=
  (if has_flag th THREAD_FLAG_FREE_STRUCT then [FreeThread false t] else []) ++
  match t_stack th with
  | Some a => if has_flag th THREAD_FLAG_FREE_STACK then [FreeStack false a] else []
  | None => []
  end.

Record reap_post (k : kstate) (t : tid) (th : thread) (k' : kstate) : Prop := {
  re_inv : sinv ∅ None k';
  re_aux : aux k -> aux k';
  re_list : k_thread_list k' = filter (fun t' => t' <> t) (k_thread_list k);
  re_freed : k_freed k' = reap_freed t th ++ k_freed k;
  re_gone : if has_flag th THREAD_FLAG_FREE_STRUCT then k_threads k' !! t = None
            else k_threads k' !! t = Some (set_magic 0 th);
  re_rest : k_queues k' = k_queues k /\ k_current k' = k_current k /\ k_timers k' = k_timers k /\
            forall t', t' <> t -> k_threads k' !! t' = k_threads k !! t' }.

Lemma thread_reap_wp k t th :
  sinv ∅ None k -> k_threads k !! t = Some th -> t_magic th = THREAD_MAGIC -> t_state th = THREAD_DEATH ->
  t_blocking_wait_queue th = None -> is_idle_tid t = false -> fq (k_queues k) (WaitQ (WRetcode t)) = [] ->
  wp (thread_reap t) (fun r k' => r = (NO_ERROR, Some (t_retcode th)) /\ reap_post k t th k') k.
Proof.
  intros Hs Ht Hmg Hst Hb Hi Hq.
  assert (in_list t (k_queues k) = false) as Hnq.
  { apply in_list_false. intros q Hin. destruct (si_member _ _ _ _ _ _ _ Hs q t Hin) as [_ (th' & Ht' & _ & _ & Hm)].
    rewrite Ht in Ht'. injection Ht' as <-. destruct q; destruct Hm; congruence. }
  assert (forall c, k_current k !! c <> Some t) as Hnc.
  { intros c Hc. destruct (current_running _ _ _ _ Hs Hc) as (? & ? & ? & _). congruence. }
  assert (sinv_ ∅ None (<[t := set_magic 0 th]> (k_threads k)) (k_queues k) (k_bitmap k) (k_waits k) (k_current k)) as Hs1.
  { apply (sinv_parked_upd _ _ _ _ _ _ _ t th); try done. by rewrite Hst. }
  assert (aux k -> aux_ (<[t := set_magic 0 th]> (k_threads k)) (k_current k) (k_timers k) (k_mmu k) (k_stats k)) as Ha1.
  { intros Ha. exact (aux_upd k t th (set_magic 0 th) Ha Ht ltac:(done)). }
  unfold thread_reap. wp_step. apply (get_thread_wp _ _ th); [done|].
  do 2 wp_step; [by rewrite Hmg|]. do 2 wp_step; [unfold state_is; by rewrite bool_decide_true|].
  do 2 wp_step; [by rewrite bool_decide_true|]. wp_step. wp_step. do 2 wp_step; [by rewrite Hnq|].
  wp_step. wp_step. wp_step. apply (upd_thread_wp _ _ th); [done|].
  set (k1 := on_threads (<[t := set_magic 0 th]>) (on_thread_list (filter (fun t' => t' <> t)) k)).
  set (fs := match t_stack th with
             | Some a => if has_flag th THREAD_FLAG_FREE_STACK then [FreeStack false a] else []
             | None => [] end).
  wp_step. assert (forall Q : unit -> kstate -> Prop, Q tt (on_freed (app fs) k1) ->
    wp (match t_stack th with
        | Some a => when (has_flag th THREAD_FLAG_FREE_STACK) (modify (on_freed (cons (FreeStack false a))))
        | None => ret tt end) Q k1) as Hfs.
  { intros Q HQ. unfold fs in HQ. destruct (t_stack th); [|exact HQ]. apply wp_when; intros Hf; rewrite Hf in HQ; exact HQ. }
  apply Hfs. wp_step. apply wp_when; intros Hft; repeat wp_step; (split; [done|]).
  - split; unfold sinv, aux, reap_freed; simpl; rewrite ?Hft; try done.
    + rewrite delete_insert_eq. apply sinv_drop_wait; [|done]. by apply sinv_free.
    + intros Ha. rewrite delete_insert_eq. by apply aux_remove.
    + apply lookup_delete_eq.
    + split_and!; try done. intros t' Hne. by rewrite delete_insert_eq, lookup_delete_ne.
  - split; unfold sinv, aux, reap_freed; simpl; rewrite ?Hft; try done.
    + apply lookup_insert_eq.
    + split_and!; try done. intros t' Hne. by rewrite lookup_insert_ne.
Qed.

(** Joining a dead thread does not block. *)
Lemma thread_join_dead_wp k cpu t th timeout :
  sinv ∅ None k -> k_threads k !! t = Some th -> t_magic th = THREAD_MAGIC -> t_state th = THREAD_DEATH ->
  has_flag th THREAD_FLAG_DETACHED = false -> t_blocking_wait_queue th = None -> is_idle_tid t = false ->
  fq (k_queues k) (WaitQ (WRetcode t)) = [] ->
  wp (thread_join_enter cpu t timeout)
    (fun o k' => o = Some (NO_ERROR, Some (t_retcode th)) /\ reap_post k t th k') k.
Proof.
  intros Hs Ht Hmg Hst Hd Hb Hi Hq. unfold thread_join_enter. wp_step. apply (get_thread_wp _ _ th); [done|].
  do 2 wp_step; [by rewrite Hmg|]. rewrite Hd. unfold state_is. rewrite bool_decide_true by done. simpl.
  wp_step. eapply wp_mono; [by apply (thread_reap_wp k t th)|]. intros r k' [-> Hp]. by wp_step.
Qed.

(** C34. C31 (round trip): the value a thread ends with is the value a thread that joins it gets.
    After [thread_exit retcode] of a thread that is not detached and that nobody waits for yet, a
    [thread_join] by any thread, on any cpu and with any timeout, returns [NO_ERROR] and
    [retcode] at once; the dead thread is off the thread list, its stack and structure have been
    freed if they came from the heap, and the invariant holds. *)
Theorem exit_join_roundtrip k cpu cur th wq retcode c timeout :
  sinv ∅ None k -> aux k -> k_current k !! cpu = Some cur -> k_threads k !! cur = Some th ->
  thread_is_idle th = false -> k_waits k !! WRetcode cur = Some wq -> wq_magic wq = WAIT_QUEUE_MAGIC ->
  has_flag th THREAD_FLAG_DETACHED = false -> t_blocking_wait_queue th = None ->
  wp (thread_exit cpu retcode ;; thread_join_enter c cur timeout)
    (fun o k' => o = Some (NO_ERROR, Some retcode) /\ sinv ∅ None k' /\ aux k' /\
       k_thread_list k' = filter (fun t => t <> cur) (k_thread_list k) /\
       k_freed k' = reap_freed cur th ++ k_freed k /\
       (has_flag th THREAD_FLAG_FREE_STRUCT = true -> k_threads k' !! cur = None)) k.
Proof.
  intros Hs Haux Hcur Ht Hi Hw Hwm Hd Hb. destruct (current_running _ _ _ _ Hs Hcur) as (th0 & Ht0 & _ & Hmg).
  rewrite Ht in Ht0. injection Ht0 as <-. pose proof (si_idle _ _ _ _ _ _ _ Hs cur th Ht) as [Hid _].
  wp_step. eapply wp_mono; [by apply (thread_exit_wp k cpu cur th wq)|].
  intros ? k1 [E1 E2 E3 E4 (th1 & Ht1 & Hce & Hst1) E6 E7 E8]. rewrite Hd in E6, E7. destruct (E8 Hd) as [_ Hq].
  destruct (dead_fields retcode th) as (_ & Dret & _ & _ & Dstk & Db & Dmg). rewrite Hd in Dmg.
  assert (t_flags (dead retcode th) = t_flags th) as Dfl by (unfold dead; by rewrite Hd).
  destruct Hce as (Cm & _ & Cf & _ & _ & Cb & _ & Cs & _ & Cr).
  assert (forall f, has_flag th1 f = has_flag th f) as Hfl by (intros f; apply has_flag_same; congruence).
  eapply wp_mono; [apply (thread_join_dead_wp k1 c cur th1); try congruence; by rewrite ?Hfl|].
  intros o k' [-> [R1 R2 R3 R4 R5 _]]. split_and!; [by rewrite Cr, Dret|done|auto|by rewrite R3, E6| |].
  - rewrite R4, E7. unfold reap_freed. by rewrite !Hfl, Cs, Dstk.
  - intros Hf. by rewrite Hfl, Hf in R5.
Qed.

Lemma flags_set_detached th : has_flag (set_flags (Z.lor (t_flags th) THREAD_FLAG_DETACHED) th) THREAD_FLAG_DETACHED = true.
Proof.
  unfold has_flag. simpl. apply negb_true_iff, Z.eqb_neq. intros E.
  change (Z.land (Z.lor (t_flags th) 1) 1 = 0) in E.
  assert (Z.testbit (Z.land (Z.lor (t_flags th) 1) 1) 0 = false) as Hb by by rewrite E.
  rewrite Z.land_spec, Z.lor_spec in Hb. change (Z.testbit 1 0) with true in Hb. by rewrite orb_true_r in Hb.
Qed.

(** Changing the detached flag is seen by neither the scheduler nor its surroundings. *)
Lemma detach_flag_ok th f :
  f = Z.lor (t_flags th) THREAD_FLAG_DETACHED \/ f = Z.land (t_flags th) (u32 (Z.lnot THREAD_FLAG_DETACHED)) ->
  forall g, Z.land g 1 = 0 -> 0 <= g < 2 ^ 32 -> has_flag (set_flags f th) g = has_flag th g.
Proof.
  intros Hf g Hg Hg'. unfold has_flag. simpl. f_equal. f_equal.
  destruct Hf as [-> | ->]; [|change THREAD_FLAG_DETACHED with 1; rewrite <- Z.land_assoc].
  - rewrite Z.land_lor_distr_l. change THREAD_FLAG_DETACHED with 1. by rewrite (Z.land_comm 1 g), Hg, Z.lor_0_r.
  - f_equal. apply Z.bits_inj'. intros n Hn. rewrite Z.land_spec, u32_testbit, Z.lnot_spec by done.
    destruct (decide (n = 0)) as [->|Hn0].
    + assert (Z.testbit (Z.land g 1) 0 = false) as E by by rewrite Hg. rewrite Z.land_spec in E.
      change (Z.testbit 1 0) with true in E. rewrite andb_true_r in E. by rewrite E, andb_false_r.
    + change 1 with (2 ^ 0). rewrite Z.pow2_bits_eqb, (proj2 (Z.eqb_neq 0 n)) by lia. simpl.
      destruct (Z.ltb_spec n 32); [done|]. simpl.
      rewrite Z.bits_above_log2; [done|lia|]. destruct (decide (g = 0)) as [->|]; [simpl; lia|].
      apply Z.log2_lt_pow2; [lia|]. apply Z.lt_le_trans with (2 ^ 32); [lia|]. apply Z.pow_le_mono_r; lia.
Qed.

Lemma detach_flag_step k t th f :
  sinv ∅ None k -> k_threads k !! t = Some th ->
  f = Z.lor (t_flags th) THREAD_FLAG_DETACHED \/ f = Z.land (t_flags th) (u32 (Z.lnot THREAD_FLAG_DETACHED)) ->
  sinv ∅ None (on_threads (<[t := set_flags f th]>) k) /\ (aux k -> aux (on_threads (<[t := set_flags f th]>) k)).
Proof.
  intros Hs Ht Hf. pose proof (detach_flag_ok th f Hf) as Hg. split.
  - apply (sinv_same_key _ _ _ _ _ _ _ _ th); [done|done|]. split_and!; try done. by apply Hg.
  - intros Ha. apply (aux_upd _ _ th); [done|done|]. split_and!; try done; by apply Hg.
Qed.

(** [thread_detach] of a live thread marks it detached, and of a dead one takes it apart as
    [thread_join] would; in both cases every thread that was waiting to join it is woken with
    [ERR_THREAD_DETACHED], the call returns [NO_ERROR] and the invariant holds. *)
Theorem thread_detach_outcome k cpu cur t th wq :
  sinv ∅ None k -> aux k -> k_current k !! cpu = Some cur -> k_threads k !! t = Some th ->
  t_magic th = THREAD_MAGIC -> is_idle_tid t = false ->
  k_waits k !! WRetcode t = Some wq -> wq_magic wq = WAIT_QUEUE_MAGIC ->
  (t_state th = THREAD_DEATH -> t_blocking_wait_queue th = None) ->
  wp (thread_detach cpu t)
    (fun r k' => r = NO_ERROR /\ sinv ∅ None k' /\ aux k' /\ k_current k' = k_current k /\
       (forall j, j ∈ fq (k_queues k) (WaitQ (WRetcode t)) ->
          exists th', k_threads k' !! j = Some th' /\ t_wait_queue_block_ret th' = ERR_THREAD_DETACHED /\
            t_state th' <> THREAD_BLOCKED) /\
       if state_is th THREAD_DEATH
       then k_thread_list k' = filter (fun t' => t' <> t) (k_thread_list k) /\
            k_freed k' = reap_freed t th ++ k_freed k
       else exists th', k_threads k' !! t = Some th' /\ has_flag th' THREAD_FLAG_DETACHED = true) k.
Proof.
  intros Hs Haux Hcur Ht Hmg Hid Hw Hwm Hb. unfold thread_detach. wp_step. apply (get_thread_wp _ _ th); [done|].
  do 2 wp_step; [by rewrite Hmg|]. wp_step.
  eapply wp_mono; [by apply (wake_all_stay_wp ∅ None k cpu (WRetcode t) wq ERR_THREAD_DETACHED cur)|].
  intros ? k1 (_ & Hs1 & Haux1 & Hc1 & Ec1 & _ & Hoth). specialize (Haux1 Haux).
  destruct (threads_rel_Some _ _ _ t th (cm_threads _ _ _ _ _ Hc1) Ht) as (th1 & Ht1 & Hb1 & Hpk & _).
  assert (forall j, j ∈ fq (k_queues k) (WaitQ (WRetcode t)) ->
    exists th', k_threads k1 !! j = Some th' /\ t_wait_queue_block_ret th' = ERR_THREAD_DETACHED /\ t_state th' <> THREAD_BLOCKED) as Hj.
  { intros j Hin. apply (calm_woken _ _ _ _ _ j Hs1 Hc1 Hin).
    destruct (si_member _ _ _ _ _ _ _ Hs _ _ Hin) as [_ (thj & Htj & _)]. eauto. }
  destruct (state_is th THREAD_DEATH) eqn:Hst.
  - apply bool_decide_eq_true in Hst.
    assert (t ∉ fq (k_queues k) (WaitQ (WRetcode t))) as Hnj.
    { intros Hin. destruct (si_member _ _ _ _ _ _ _ Hs _ _ Hin) as [_ (th' & Ht' & _ & _ & ? & _)]. congruence. }
    destruct (Hoth t th Hnj Ht) as (th2 & Ht2 & Hce & Hst2). rewrite Ht1 in Ht2. injection Ht2 as <-.
    wp_step. apply (upd_thread_wp _ _ th1); [done|].
    set (f := Z.land (t_flags th1) _). destruct (detach_flag_step k1 t th1 f Hs1 Ht1 ltac:(by right)) as [Hs2 Haux2].
    pose proof (detach_flag_ok th1 f ltac:(by right)) as Hfl.
    wp_step. destruct Hb1 as (Em & Ef & _ & _ & Es & _). destruct Hce as (_ & _ & _ & _ & _ & Cb & _).
    eapply wp_mono; [apply (thread_join_dead_wp _ cpu t (set_flags f th1)); [done|apply lookup_insert_eq|simpl; congruence..| |simpl; rewrite Cb; auto|done|]|].
    + unfold has_flag, f. simpl. rewrite <- Z.land_assoc. change (Z.land (u32 _) THREAD_FLAG_DETACHED) with 0. by rewrite Z.land_0_r.
    + simpl. rewrite (cm_waitq _ _ _ _ _ Hc1). apply filter_notin_self.
    + intros o k' [-> [R1 R2 R3 R4 _ (R6 & R7 & _ & R9)]]. wp_step. split_and!; [done|done|by auto|by rewrite R7| | |].
      * intros j Hin. rewrite R9 by (by intros ->). simpl. rewrite lookup_insert_ne by (by intros ->). auto.
      * rewrite R3. simpl. by rewrite (cm_list _ _ _ _ _ Hc1).
      * rewrite R4. simpl. rewrite (cm_freed _ _ _ _ _ Hc1). f_equal. unfold reap_freed. rewrite !Hfl by done. simpl.
        rewrite Es. by rewrite !(has_flag_same th th1).
  - wp_step. apply (upd_thread_wp _ _ th1); [done|]. wp_step.
    set (f := Z.lor (t_flags th1) _). destruct (detach_flag_step k1 t th1 f Hs1 Ht1 ltac:(by left)) as [Hs2 Haux2].
    split_and!; [done|done|by auto|done| |].
    + intros j Hin. destruct (Hj j Hin) as (thj & Htj & ? & ?). simpl. destruct (decide (j = t)) as [->|Hne].
      * rewrite Ht1 in Htj. injection Htj as <-. exists (set_flags f th1). by rewrite lookup_insert_eq.
      * exists thj. by rewrite lookup_insert_ne.
    + exists (set_flags f th1). split; [apply lookup_insert_eq|apply flags_set_detached].
Qed.
End lifecycle.

(** ** The boot sequence *)

(** [lk_main] up to the yield of the idle thread. *)
Definition boot_prefix (entry : Z) (new_stack : Z) : M kstate unit :=
  thread_init_early ;;
  thread_init ;;
  do o <- thread_create 0 "bootstrap2" entry 0 DEFAULT_PRIORITY 8192 (Some (TThr 0)) (Some new_stack);
  do t <- deref o;
  upd_thread t (set_pinned_cpu 0) ;;
  thread_detach 0 t ;;
  thread_resume 0 t true ;;
  do t <- get_current_thread 0;
  thread_set_name 0 "idle 0" ;;
  upd_thread t (fun th =>
    set_pinned_cpu (Z.of_nat 0) (set_flags (Z.lor (t_flags th) THREAD_FLAG_IDLE) (set_priority IDLE_PRIORITY th))) ;;
  mp_set_curr_cpu_active 0 true ;;
  mp_set_cpu_idle 0.

(** The prefix runs and ends in a state that satisfies the invariants, whatever the entry
    point, the address of the stack and the time. *)
Lemma boot_prefix_runs entry new_stack now :
  match boot_prefix entry new_stack (zeroed now) with
  | Done _ k => check_sinv None k && check_aux k && bool_decide (k_current k !! 0%nat = Some (TIdle 0))
  | Fault _ => false
  end = true.
Proof. vm_compute. reflexivity. Qed.

Lemma lk_main_split entry new_stack k :
  lk_main entry (TThr 0) new_stack k = bind (boot_prefix entry new_stack) (fun _ => thread_yield 0) k.
Proof.
  unfold lk_main, boot_prefix, thread_become_idle.
  do 11 (rewrite bind_assoc; apply bind_ext; intros ? ?). reflexivity.
Qed.


(** ** Threads of the example machine *)
Module ThreadExample.
Import SchedExample.

(** The machine of two cpus with a thread 4 that waits to join thread 0 and a suspended
    thread 5. *)
Definition busy : kstate :=
  on_threads (<[TThr 5 := mk_thread 12 0 (-1) 5 THREAD_SUSPENDED None]>)
  (on_threads (<[TThr 4 := mk_thread 17 0 (-1) 5 THREAD_BLOCKED (Some (WRetcode (TThr 0)))]>)
  (on_queues (<[WaitQ (WRetcode (TThr 0)) := [TThr 4]]>)
  (on_waits (<[WRetcode (TThr 0) := WaitQueue WAIT_QUEUE_MAGIC 1]>) machine))).

Lemma busy_sinv : sinv ∅ None busy.
Proof. apply check_sinv_ok. by vm_compute. Qed.

Lemma busy_aux : aux busy.
Proof. apply check_aux_ok. by vm_compute. Qed.

(** The same before anyone joins. *)
Definition calm_machine : kstate := on_waits (<[WRetcode (TThr 0) := WAIT_QUEUE_INITIAL_VALUE]>) machine.

Lemma calm_machine_sinv : sinv ∅ None calm_machine.
Proof. apply check_sinv_ok. by vm_compute. Qed.

Lemma calm_machine_aux : aux calm_machine.
Proof. apply check_aux_ok. by vm_compute. Qed.

Lemma busy_fresh : fresh busy (TThr 9).
Proof. split_and!; vm_compute; try reflexivity. set_solver. Qed.

Lemma thread_create_outcome_witness :
  exists r k', thread_create 0 "worker" 77 5 16 4096 (Some (TThr 9)) (Some 65536) busy = Done r k' /\
    r = Some (TThr 9) /\ sinv ∅ None k'.
Proof.
  destruct (proj1 (wp_done _ _ _) (thread_create_outcome busy 0 (TThr 0)
    (mk_thread 16 0 (-1) 3 THREAD_RUNNING None) (TThr 9) "worker" 77 5 16 4096 (Some 65536)
    busy_sinv busy_aux eq_refl eq_refl busy_fresh ltac:(lia))) as (r & k' & Hr & Hs & _ & Hres & _).
  exists r, k'. exact (conj Hr (conj Hres Hs)).
Defined.

Lemma thread_resume_starts_witness :
  exists r k', thread_resume 0 (TThr 5) false busy = Done r k' /\ r = NO_ERROR /\ sinv ∅ None k'.
Proof.
  destruct (proj1 (wp_done _ _ _) (thread_resume_starts busy 0 (TThr 0)
    (mk_thread 16 0 (-1) 3 THREAD_RUNNING None) (TThr 5) (mk_thread 12 0 (-1) 5 THREAD_SUSPENDED None) false
    busy_sinv busy_aux eq_refl eq_refl eq_refl eq_refl ltac:(done) eq_refl)) as (r & k' & Hr & Hres & Hs & _).
  exists r, k'. exact (conj Hr (conj Hres Hs)).
Defined.

Lemma thread_exit_ends_witness :
  exists u k', thread_exit 0 42 busy = Done u k' /\ sinv ∅ None k' /\
    exists th', k_threads k' !! TThr 4 = Some th' /\ t_wait_queue_block_ret th' = NO_ERROR.
Proof.
  destruct (proj1 (wp_done _ _ _) (thread_exit_ends busy 0 (TThr 0)
    (mk_thread 16 0 (-1) 3 THREAD_RUNNING None) (WaitQueue WAIT_QUEUE_MAGIC 1) 42
    busy_sinv busy_aux eq_refl eq_refl eq_refl eq_refl eq_refl)) as (u & k' & Hr & [Hs _ _ _ _ _ _ Hj]).
  destruct (proj1 (Hj eq_refl) (TThr 4)) as (th' & Ht' & Hb & _); [vm_compute; set_solver|].
  exists u, k'. split; [exact Hr|]. split; [exact Hs|]. exists th'. exact (conj Ht' Hb).
Defined.

Lemma exit_join_roundtrip_witness :
  exists o k', (thread_exit 0 42 ;; thread_join_enter 1 (TThr 0) 10) calm_machine = Done o k' /\
    o = Some (NO_ERROR, Some 42).
Proof.
  destruct (proj1 (wp_done _ _ _) (exit_join_roundtrip calm_machine 0 (TThr 0)
    (mk_thread 16 0 (-1) 3 THREAD_RUNNING None) WAIT_QUEUE_INITIAL_VALUE 42 1 10
    calm_machine_sinv calm_machine_aux eq_refl eq_refl eq_refl eq_refl eq_refl eq_refl eq_refl))
    as (o & k' & Hr & Ho & _).
  exists o, k'. exact (conj Hr Ho).
Defined.

Lemma thread_detach_outcome_witness :
  exists r k', thread_detach 0 (TThr 0) busy = Done r k' /\ r = NO_ERROR /\ sinv ∅ None k' /\
    exists th', k_threads k' !! TThr 4 = Some th' /\ t_wait_queue_block_ret th' = ERR_THREAD_DETACHED.
Proof.
  destruct (proj1 (wp_done _ _ _) (thread_detach_outcome busy 0 (TThr 0) (TThr 0)
    (mk_thread 16 0 (-1) 3 THREAD_RUNNING None) (WaitQueue WAIT_QUEUE_MAGIC 1)
    busy_sinv busy_aux eq_refl eq_refl eq_refl eq_refl eq_refl eq_refl ltac:(done)))
    as (r & k' & Hr & Hres & Hs & _ & _ & Hj & _).
  destruct (Hj (TThr 4)) as (th' & Ht' & Hb & _); [vm_compute; set_solver|].
  exists r, k'. split; [exact Hr|]. split; [exact Hres|]. split; [exact Hs|]. exists th'. exact (conj Ht' Hb).
Defined.
End ThreadExample.
