(* ===== verification/Sync.v ===== *)
(** * Mutexes, semaphores and events ([kernel/mutex.c], [semaphore.c], [event.c])

    The operations on the state of the kernel extended with the objects.  An operation that
    may call [thread_resched] is given in two parts: [_enter], up to the return of that call
    or to the end if it makes none, and [_return], what the thread does when it runs again.
    The result of the first part is [None] when [thread_resched] was called, and [Some] of what
    the function returns otherwise. *)

From stdpp Require Import base gmap list fin_maps strings.
From S2P Require Import Prelude ListNode Timer KState Sched Resched Wait Thread.
Import Family.

Definition MUTEX_MAGIC : Z := 0x6D757478.
Definition SEMAPHORE_MAGIC : Z := 0x73656D61.
Definition EVENT_MAGIC : Z := 0x65766E74.
Definition EVENT_FLAG_AUTOUNSIGNAL : Z := 1.

Record mutex := Mutex { m_magic : Z; m_holder : option tid; m_count : Z }.
Record semaphore := Semaphore { s_magic : Z; s_count : Z }.
Record event := Event { e_magic : Z; e_signaled : bool; e_flags : Z }.

(** The kernel with its objects, which are named by numbers; their wait queues are in the
    kernel state. *)
Record os := Os {
  o_k : kstate;
  o_mutexes : gmap nat mutex;
  o_sems : gmap nat semaphore;
  o_events : gmap nat event }.

Definition on_k (f : kstate -> kstate) (o : os) : os := Os (f (o_k o)) (o_mutexes o) (o_sems o) (o_events o).
Definition on_mutexes (f : gmap nat mutex -> gmap nat mutex) (o : os) : os :=
  Os (o_k o) (f (o_mutexes o)) (o_sems o) (o_events o).
Definition on_sems (f : gmap nat semaphore -> gmap nat semaphore) (o : os) : os :=
  Os (o_k o) (o_mutexes o) (f (o_sems o)) (o_events o).
Definition on_events (f : gmap nat event -> gmap nat event) (o : os) : os :=
  Os (o_k o) (o_mutexes o) (o_sems o) (f (o_events o)).

Definition kern {A} (m : M kstate A) : M os A :=
  fun o => match m (o_k o) with Done a k => Done a (on_k (fun _ => k) o) | Fault f => Fault f end.

Definition get_mutex (m : nat) : M os mutex := do ms <- gets o_mutexes; deref (ms !! m).
Definition set_mutex (m : nat) (mu : mutex) : M os unit := modify (on_mutexes (<[m := mu]>)).
Definition get_sem (s : nat) : M os semaphore := do ss <- gets o_sems; deref (ss !! s).
Definition set_sem (s : nat) (se : semaphore) : M os unit := modify (on_sems (<[s := se]>)).
Definition get_event (e : nat) : M os event := do es <- gets o_events; deref (es !! e).
Definition set_event (e : nat) (ev : event) : M os unit := modify (on_events (<[e := ev]>)).

(** ** Mutexes *)

Definition mutex_init (m : nat) : M os unit :=
  set_mutex m (Mutex MUTEX_MAGIC None 0) ;; kern (wait_queue_init (WMutex m)).

Definition mutex_destroy_enter (cpu : nat) (m : nat) : M os (option Z) :=
  do mu <- get_mutex m;
  massert (m_magic mu =? MUTEX_MAGIC) ;;
  do cur <- kern (get_current_thread cpu);
  if bool_decide (is_Some (m_holder mu)) && bool_decide (m_holder mu <> Some cur) then fail Panic
  else
    set_mutex m (Mutex 0 (m_holder mu) 0) ;;
    do n <- kern (wait_queue_destroy_enter cpu (WMutex m) true);
    if 0 <? n then ret None
    else kern (wait_queue_destroy_return (WMutex m)) ;; ret (Some 0).

Definition mutex_destroy_return (m : nat) : M os Z :=
  kern (wait_queue_destroy_return (WMutex m)) ;; ret 0.

(** What follows the return of [wait_queue_block] in [mutex_acquire_timeout]. *)
Definition mutex_acquire_finish (cpu : nat) (m : nat) (r : Z) : M os Z :=
  (if r <? NO_ERROR then
     when (r =? ERR_TIMED_OUT)
       (do mu <- get_mutex m; set_mutex m (Mutex (m_magic mu) (m_holder mu) (m_count mu - 1)))
   else
     do cur <- kern (get_current_thread cpu);
     do mu <- get_mutex m;
     set_mutex m (Mutex (m_magic mu) (Some cur) (m_count mu))) ;;
  ret r.

(** [mutex_threading_ready] is set and interrupts are enabled. *)
Definition mutex_acquire_timeout_enter (cpu : nat) (m : nat) (timeout : Z) : M os (option Z) :=
  do mu <- get_mutex m;
  massert (m_magic mu =? MUTEX_MAGIC) ;;
  do cur <- kern (get_current_thread cpu);
  if bool_decide (m_holder mu = Some cur) then fail Panic
  else
    set_mutex m (Mutex (m_magic mu) (m_holder mu) (m_count mu + 1)) ;;
    if 1 <? m_count mu + 1 then
      do o <- kern (wait_queue_block_enter cpu (WMutex m) timeout);
      match o with
      | None => ret None
      | Some r => do r <- mutex_acquire_finish cpu m r; ret (Some r)
      end
    else
      do r <- mutex_acquire_finish cpu m NO_ERROR; ret (Some r).

Definition mutex_acquire_timeout_return (cpu : nat) (m : nat) (timeout : Z) : M os Z :=
  do r <- kern (wait_queue_block_return cpu timeout);
  mutex_acquire_finish cpu m r.

Definition mutex_release_enter (cpu : nat) (m : nat) : M os (option Z) :=
  do mu <- get_mutex m;
  massert (m_magic mu =? MUTEX_MAGIC) ;;
  do cur <- kern (get_current_thread cpu);
  if bool_decide (m_holder mu <> Some cur) then fail Panic
  else
    set_mutex m (Mutex (m_magic mu) None (m_count mu - 1)) ;;
    if 1 <=? m_count mu - 1 then
      do n <- kern (wait_queue_wake_one cpu (WMutex m) true NO_ERROR);
      ret (if 0 <? n then None else Some NO_ERROR)
    else ret (Some NO_ERROR).

Definition is_mutex_held (mu : mutex) (cur : tid) : bool := bool_decide (m_holder mu = Some cur).

(** ** Semaphores *)

Definition sem_init (s : nat) (value : Z) : M os unit :=
  set_sem s (Semaphore SEMAPHORE_MAGIC value) ;; kern (wait_queue_init (WSem s)).

Definition sem_destroy_enter (cpu : nat) (s : nat) : M os (option Z) :=
  do se <- get_sem s;
  set_sem s (Semaphore (s_magic se) 0) ;;
  do n <- kern (wait_queue_destroy_enter cpu (WSem s) true);
  if 0 <? n then ret None
  else kern (wait_queue_destroy_return (WSem s)) ;; ret (Some 0).

Definition sem_destroy_return (s : nat) : M os Z :=
  kern (wait_queue_destroy_return (WSem s)) ;; ret 0.

(** The value of [sem_post] is that of [wait_queue_wake_one]. *)
Definition sem_post_enter (cpu : nat) (s : nat) (resched : bool) : M os (option Z) :=
  do se <- get_sem s;
  set_sem s (Semaphore (s_magic se) (s_count se + 1)) ;;
  if s_count se + 1 <=? 0 then
    do n <- kern (wait_queue_wake_one cpu (WSem s) resched NO_ERROR);
    ret (if resched && (0 <? n) then None else Some n)
  else ret (Some 0).

Definition sem_wait_enter (cpu : nat) (s : nat) : M os (option Z) :=
  do se <- get_sem s;
  set_sem s (Semaphore (s_magic se) (s_count se - 1)) ;;
  if s_count se - 1 <? 0 then kern (wait_queue_block_enter cpu (WSem s) INFINITE_TIME)
  else ret (Some NO_ERROR).

Definition sem_wait_return (cpu : nat) : M os Z := kern (wait_queue_block_return cpu INFINITE_TIME).

Definition sem_trywait (s : nat) : M os Z :=
  do se <- get_sem s;
  if s_count se <=? 0 then ret ERR_NOT_READY
  else set_sem s (Semaphore (s_magic se) (s_count se - 1)) ;; ret NO_ERROR.

Definition sem_timedwait_finish (s : nat) (r : Z) : M os Z :=
  when (r <? NO_ERROR)
    (when (r =? ERR_TIMED_OUT)
       (do se <- get_sem s; set_sem s (Semaphore (s_magic se) (s_count se + 1)))) ;;
  ret r.

Definition sem_timedwait_enter (cpu : nat) (s : nat) (timeout : Z) : M os (option Z) :=
  do se <- get_sem s;
  set_sem s (Semaphore (s_magic se) (s_count se - 1)) ;;
  if s_count se - 1 <? 0 then
    do o <- kern (wait_queue_block_enter cpu (WSem s) timeout);
    match o with
    | None => ret None
    | Some r => do r <- sem_timedwait_finish s r; ret (Some r)
    end
  else ret (Some NO_ERROR).

Definition sem_timedwait_return (cpu : nat) (s : nat) (timeout : Z) : M os Z :=
  do r <- kern (wait_queue_block_return cpu timeout);
  sem_timedwait_finish s r.

(** ** Events *)

Definition event_init (e : nat) (initial : bool) (flags : Z) : M os unit :=
  set_event e (Event EVENT_MAGIC initial flags) ;; kern (wait_queue_init (WEvent e)).

Definition event_destroy_enter (cpu : nat) (e : nat) : M os (option Z) :=
  do ev <- get_event e;
  massert (e_magic ev =? EVENT_MAGIC) ;;
  set_event e (Event 0 false 0) ;;
  do n <- kern (wait_queue_destroy_enter cpu (WEvent e) true);
  if 0 <? n then ret None
  else kern (wait_queue_destroy_return (WEvent e)) ;; ret (Some 0).

Definition event_destroy_return (e : nat) : M os Z :=
  kern (wait_queue_destroy_return (WEvent e)) ;; ret 0.

Definition autounsignal (ev : event) : bool := negb (Z.land (e_flags ev) EVENT_FLAG_AUTOUNSIGNAL =? 0).

Definition event_wait_timeout_enter (cpu : nat) (e : nat) (timeout : Z) : M os (option Z) :=
  do ev <- get_event e;
  massert (e_magic ev =? EVENT_MAGIC) ;;
  if e_signaled ev then
    when (autounsignal ev) (set_event e (Event (e_magic ev) false (e_flags ev))) ;;
    ret (Some NO_ERROR)
  else kern (wait_queue_block_enter cpu (WEvent e) timeout).

Definition event_wait_timeout_return (cpu : nat) (timeout : Z) : M os Z :=
  kern (wait_queue_block_return cpu timeout).

Definition event_signal_enter (cpu : nat) (e : nat) (reschedule : bool) : M os (option Z) :=
  do ev <- get_event e;
  massert (e_magic ev =? EVENT_MAGIC) ;;
  if e_signaled ev then ret (Some NO_ERROR)
  else if autounsignal ev then
    do n <- kern (wait_queue_wake_one cpu (WEvent e) reschedule NO_ERROR);
    if n <=? 0 then set_event e (Event (e_magic ev) true (e_flags ev)) ;; ret (Some NO_ERROR)
    else ret (if reschedule then None else Some NO_ERROR)
  else
    set_event e (Event (e_magic ev) true (e_flags ev)) ;;
    do n <- kern (wait_queue_wake_all cpu (WEvent e) reschedule NO_ERROR);
    ret (if reschedule && (0 <? n) then None else Some NO_ERROR).

Definition event_unsignal (e : nat) : M os Z :=
  do ev <- get_event e;
  massert (e_magic ev =? EVENT_MAGIC) ;;
  set_event e (Event (e_magic ev) false (e_flags ev)) ;;
  ret NO_ERROR.
