(* ===== verification/Machine.v ===== *)
(** * The kernel as a machine

    Threads on several cpus call the operations of the kernel, are switched away in the middle
    of them, are woken, time out and are preempted, in any order the lock allows.  A step is
    the part of an operation between two points where [thread_lock] can change hands:
    - a running thread calls an operation; it either returns or is switched away by
      [thread_resched], and then what is left of it is kept as a frame;
    - after a switch the lock still belongs to the cpu, and the thread switched to goes on with
      its own frame, which ends with the release of the lock;
    - the timer of a cpu fires, and the thread is preempted if a callback asked for it.
    The theorems are about every reachable state: no step fails, and the objects keep the
    promises of their headers. *)

From stdpp Require Import base gmap list fin_maps strings.
From S2P Require Import Prelude ListNode Timer KState Sched Resched Wait Thread Sync.
Import Family.

(** What is left of an operation whose thread was switched away. *)
Inductive frame :=
| FNone (r : Z)
| FAcquire (m : nat) (timeout : Z)
| FSemWait (s : nat)
| FSemTimed (s : nat) (timeout : Z)
| FEventWait (e : nat) (timeout : Z).

(** The operations threads call. *)
Inductive call :=
| Yield
| Sleep (delay : Z)
| SetPriority (p : Z)
| Acquire (m : nat) (timeout : Z)
| Release (m : nat)
| SemWait (s : nat)
| SemTryWait (s : nat)
| SemTimedWait (s : nat) (timeout : Z)
| SemPost (s : nat) (resched : bool)
| EventWait (e : nat) (timeout : Z)
| EventSignal (e : nat) (reschedule : bool)
| EventUnsignal (e : nat).

Definition always {A} (m : M os unit) (a : A) : M os A := m ;; ret a.

Definition enter (cpu : nat) (c : call) : M os (option Z) :=
  match c with
  | Yield => always (kern (thread_yield cpu)) None
  | Sleep delay => always (kern (thread_sleep cpu delay)) None
  | SetPriority p => always (kern (thread_set_priority cpu p)) None
  | Acquire m timeout => mutex_acquire_timeout_enter cpu m timeout
  | Release m => mutex_release_enter cpu m
  | SemWait s => sem_wait_enter cpu s
  | SemTryWait s => do r <- sem_trywait s; ret (Some r)
  | SemTimedWait s timeout => sem_timedwait_enter cpu s timeout
  | SemPost s resched => sem_post_enter cpu s resched
  | EventWait e timeout => event_wait_timeout_enter cpu e timeout
  | EventSignal e reschedule => event_signal_enter cpu e reschedule
  | EventUnsignal e => do r <- event_unsignal e; ret (Some r)
  end.

(** The frame of an operation that was switched away. *)
Definition frame_of (c : call) : frame :=
  match c with
  | Acquire m timeout => FAcquire m timeout
  | SemWait s => FSemWait s
  | SemTimedWait s timeout => FSemTimed s timeout
  | EventWait e timeout => FEventWait e timeout
  | SemPost _ _ => FNone 1
  | _ => FNone 0
  end.

Definition resume (cpu : nat) (f : frame) : M os Z :=
  match f with
  | FNone r => ret r
  | FAcquire m timeout => mutex_acquire_timeout_return cpu m timeout
  | FSemWait s => sem_wait_return cpu
  | FSemTimed s timeout => sem_timedwait_return cpu s timeout
  | FEventWait e timeout => event_wait_timeout_return cpu timeout
  end.

(** What happens to threads: a call, its return at once, its return after a switch. *)
Inductive observation :=
| Called (t : tid) (c : call)
| Returned (t : tid) (c : call) (r : Z)
| Resumed (t : tid) (f : frame) (r : Z).

(** [w_lock] is the cpu that holds [thread_lock] after a switch; [w_log] is what has
    happened, last first. *)
Record world := World {
  w_os : os;
  w_pend : gmap tid frame;
  w_lock : option nat;
  w_log : list observation }.

Definition w_k (w : world) : kstate := o_k (w_os w).

(** The calls the headers allow: an object must be initialised, a thread does not acquire a
    mutex it holds and releases only what it holds, delays stay within a quarter of the range
    of the clock, the idle thread does not call. *)
Definition timeout_ok (timeout : Z) : Prop := timeout = INFINITE_TIME \/ 0 <= timeout < 2 ^ 30.

Definition call_ok (o : os) (cur : tid) (c : call) : Prop :=
  is_idle_tid cur = false /\
  match c with
  | Sleep delay => 0 <= delay < 2 ^ 30
  | Acquire m timeout => timeout_ok timeout /\
      exists mu, o_mutexes o !! m = Some mu /\ m_holder mu <> Some cur
  | Release m => exists mu, o_mutexes o !! m = Some mu /\ m_holder mu = Some cur
  | SemTimedWait s timeout => timeout_ok timeout /\ is_Some (o_sems o !! s)
  | SemWait s | SemTryWait s | SemPost s _ => is_Some (o_sems o !! s)
  | EventWait e timeout => timeout_ok timeout /\ is_Some (o_events o !! e)
  | EventSignal e _ | EventUnsignal e => is_Some (o_events o !! e)
  | _ => True
  end.

(** The interrupt of the timer of a cpu at time [now]. *)
Definition timer_irq (cpu : nat) (now : Z) : M kstate handler_return :=
  modify (on_timers (fun ts => TState (ts_timers ts) (ts_queue ts) (ts_hw ts) now)) ;;
  do n <- gets (fun k => length (fq (ts_queue (k_timers k)) cpu));
  timer_tick (fire cpu) (S (2 * n)) cpu now.

(** The interrupt handler preempts the thread if a callback asked for it. *)
Definition interrupt (cpu : nat) (now : Z) : M kstate handler_return :=
  do r <- timer_irq cpu now;
  match r with
  | INT_RESCHEDULE => thread_preempt cpu ;; ret r
  | INT_NO_RESCHEDULE => ret r
  end.

Inductive step : world -> world -> Prop :=
| step_return cpu cur c w r o :
    w_lock w = None -> k_current (w_k w) !! cpu = Some cur -> call_ok (w_os w) cur c ->
    enter cpu c (w_os w) = Done (Some r) o ->
    step w (World o (w_pend w) None (Returned cur c r :: Called cur c :: w_log w))
| step_switch cpu cur c w o :
    w_lock w = None -> k_current (w_k w) !! cpu = Some cur -> call_ok (w_os w) cur c ->
    enter cpu c (w_os w) = Done None o ->
    step w (World o (<[cur := frame_of c]> (w_pend w)) (Some cpu) (Called cur c :: w_log w))
| step_resume cpu cur f w r o :
    w_lock w = Some cpu -> k_current (w_k w) !! cpu = Some cur -> w_pend w !! cur = Some f ->
    resume cpu f (w_os w) = Done r o ->
    step w (World o (delete cur (w_pend w)) None (Resumed cur f r :: w_log w))
| step_interrupt cpu cur now w k :
    w_lock w = None -> k_current (w_k w) !! cpu = Some cur ->
    tinv now (k_timers (w_k w)) -> armed now (k_timers (w_k w)) ->
    interrupt cpu now (w_k w) = Done INT_NO_RESCHEDULE k ->
    step w (World (on_k (fun _ => k) (w_os w)) (w_pend w) None (w_log w))
| step_preempt cpu cur now w k :
    w_lock w = None -> k_current (w_k w) !! cpu = Some cur ->
    tinv now (k_timers (w_k w)) -> armed now (k_timers (w_k w)) ->
    interrupt cpu now (w_k w) = Done INT_RESCHEDULE k ->
    step w (World (on_k (fun _ => k) (w_os w)) (<[cur := FNone 0]> (w_pend w)) (Some cpu) (w_log w)).

(** ** The invariant of the machine *)

(** The wait queue a frame waits on and its timeout. *)
Definition frame_wait (f : frame) : option (wqid * Z) :=
  match f with
  | FNone _ => None
  | FAcquire m timeout => Some (WMutex m, timeout)
  | FSemWait s => Some (WSem s, INFINITE_TIME)
  | FSemTimed s timeout => Some (WSem s, timeout)
  | FEventWait e timeout => Some (WEvent e, timeout)
  end.

(** The callback of a timer of a thread. *)
Definition timer_callback_of (x : ktimer) : kcallback :=
  match x with TmPreempt _ => CbTick | TmSleep t => CbSleep t | TmWait t => CbWaitTimeout t end.

(** Threads and frames: a thread has a frame exactly when it is not running, waits where its frame
    says, and has pending timers only for what it is doing. *)
Record kw (k : kstate) (pend : gmap tid frame) (lock : option nat) : Prop := {
  kw_inv : sinv ∅ None k;
  kw_aux : aux k;
  kw_running : forall c t, k_current k !! c = Some t -> lock <> Some c -> pend !! t = None;
  kw_stopped : forall t, is_Some (k_threads k !! t) -> (forall c, k_current k !! c = Some t -> lock = Some c) ->
                 is_Some (pend !! t);
  kw_pend : forall t, is_Some (pend !! t) -> is_Some (k_threads k !! t);
  kw_lock : forall c, lock = Some c -> is_Some (k_current k !! c);
  kw_wait : forall t w, t ∈ fq (k_queues k) (WaitQ w) ->
              exists f timeout, pend !! t = Some f /\ frame_wait f = Some (w, timeout);
  kw_magic : forall t th, k_threads k !! t = Some th -> t_magic th = THREAD_MAGIC;
  kw_timer : forall x, (forall c, x <> TmPreempt c) -> in_list x (ts_queue (k_timers k)) = true ->
               exists tm, ts_timers (k_timers k) !! x = Some tm /\
                 tm_callback tm = Some (timer_callback_of x) /\ tm_periodic_time tm = 0;
  kw_tmwait : forall t, in_list (TmWait t) (ts_queue (k_timers k)) = true ->
                exists f w timeout, pend !! t = Some f /\ frame_wait f = Some (w, timeout) /\ timeout <> INFINITE_TIME;
  kw_obj : forall t f w timeout, pend !! t = Some f -> frame_wait f = Some (w, timeout) -> timeout <> INFINITE_TIME ->
             exists tm, ts_timers (k_timers k) !! TmWait t = Some tm /\ tm_magic tm = TIMER_MAGIC;
  kw_sleep : forall t, in_list (TmSleep t) (ts_queue (k_timers k)) = true ->
               is_idle_tid t = false /\ exists th, k_threads k !! t = Some th /\ t_state th = THREAD_SLEEPING }.

Section kw.
Implicit Types (k : kstate) (pend : gmap tid frame) (t cur : tid) (W : list tid).

Lemma kw_current_pend k pend cpu cur :
  kw k pend None -> k_current k !! cpu = Some cur -> pend !! cur = None.
Proof. intros Hk Hc. by apply (kw_running _ _ _ Hk cpu). Qed.

Lemma kw_no_timers k pend cpu cur :
  kw k pend None -> k_current k !! cpu = Some cur ->
  in_list (TmWait cur) (ts_queue (k_timers k)) = false /\ in_list (TmSleep cur) (ts_queue (k_timers k)) = false.
Proof.
  intros Hk Hc. pose proof (kw_current_pend _ _ _ _ Hk Hc) as Hp. split; apply not_true_iff_false; intros Hin.
  - destruct (kw_tmwait _ _ _ Hk cur Hin) as (f & w & to & Hf & _). congruence.
  - destruct (kw_sleep _ _ _ Hk cur Hin) as [Hni (th & Ht & Hst)].
    destruct (current_running _ _ _ _ (kw_inv _ _ _ Hk) Hc) as (? & ? & ? & _). congruence.
Qed.

Lemma kw_idle k pend lock cur : kw k pend lock -> is_idle_tid cur = false ->
  forall th, k_threads k !! cur = Some th -> thread_is_idle th = false.
Proof.
  intros Hk Hi th Ht. destruct (si_idle _ _ _ _ _ _ _ (kw_inv _ _ _ Hk) cur th Ht) as [-> _]. done.
Qed.

Lemma calm_dom W err cpu k k' t : calm W err cpu k k' -> is_Some (k_threads k' !! t) <-> is_Some (k_threads k !! t).
Proof.
  intros Hc. apply (threads_rel_dom _ _ _ t (cm_threads _ _ _ _ _ Hc)).
Qed.

(** What a wake-up, a switch or both leave of the facts on frames that stay. *)
Lemma kw_calm_common W err cpu k k' pend lock :
  kw k pend lock -> calm W err cpu k k' ->
  (forall t w, t ∈ fq (k_queues k') (WaitQ w) -> exists f timeout, pend !! t = Some f /\ frame_wait f = Some (w, timeout)) /\
  (forall t th, k_threads k' !! t = Some th -> t_magic th = THREAD_MAGIC) /\
  (forall x, (forall c, x <> TmPreempt c) -> in_list x (ts_queue (k_timers k')) = true ->
     exists tm, ts_timers (k_timers k') !! x = Some tm /\ tm_callback tm = Some (timer_callback_of x) /\ tm_periodic_time tm = 0) /\
  (forall t, in_list (TmWait t) (ts_queue (k_timers k')) = true ->
     exists f w timeout, pend !! t = Some f /\ frame_wait f = Some (w, timeout) /\ timeout <> INFINITE_TIME) /\
  (forall t f w timeout, pend !! t = Some f -> frame_wait f = Some (w, timeout) -> timeout <> INFINITE_TIME ->
     exists tm, ts_timers (k_timers k') !! TmWait t = Some tm /\ tm_magic tm = TIMER_MAGIC) /\
  (forall t, in_list (TmSleep t) (ts_queue (k_timers k')) = true ->
     is_idle_tid t = false /\ exists th, k_threads k' !! t = Some th /\ t_state th = THREAD_SLEEPING).
Proof.
  intros Hk Hc. split_and!.
  - intros t w Hin. rewrite (cm_waitq _ _ _ _ _ Hc) in Hin. apply list_elem_of_filter in Hin as [_ Hin].
    by apply (kw_wait _ _ _ Hk).
  - intros t th' Ht'. destruct (threads_rel_Some_inv _ _ _ _ _ (cm_threads _ _ _ _ _ Hc) Ht') as (th & Ht & (-> & _) & _).
    by apply (kw_magic _ _ _ Hk t).
  - intros x Hx. destruct (cm_timer _ _ _ _ _ Hc x Hx) as [-> ->]. by apply (kw_timer _ _ _ Hk).
  - intros t. destruct (cm_timer _ _ _ _ _ Hc (TmWait t) ltac:(done)) as [_ ->]. by apply (kw_tmwait _ _ _ Hk).
  - intros t. destruct (cm_timer _ _ _ _ _ Hc (TmWait t) ltac:(done)) as [-> _]. by apply (kw_obj _ _ _ Hk).
  - intros t. destruct (cm_timer _ _ _ _ _ Hc (TmSleep t) ltac:(done)) as [_ ->]. intros Hin.
    destruct (kw_sleep _ _ _ Hk t Hin) as [Hni (th & Ht & Hst)].
    destruct (threads_rel_Some _ _ _ _ _ (cm_threads _ _ _ _ _ Hc) Ht) as (th' & Ht' & _ & Hp & _).
    split; [done|]. exists th'. split; [done|]. rewrite Hst in Hp. by destruct (t_state th').
Qed.

(** Nobody is switched: threads may have been woken. *)
Lemma kw_stay W err cpu k k' pend :
  kw k pend None -> sinv ∅ None k' -> aux k' -> calm W err cpu k k' -> k_current k' = k_current k -> kw k' pend None.
Proof.
  intros Hk Hs' Ha' Hc Ec. destruct (kw_calm_common _ _ _ _ _ _ _ Hk Hc) as (C1 & C2 & C3 & C4 & C5 & C6).
  split; try done; rewrite ?Ec.
  - apply (kw_running _ _ _ Hk).
  - intros t Ht. rewrite calm_dom in Ht by done. by apply (kw_stopped _ _ _ Hk).
  - intros t Ht. rewrite calm_dom by done. by apply (kw_pend _ _ _ Hk).
Qed.

(** The running thread was switched away, or picked again, with nothing left to wait for. *)
Lemma kw_switch W err cpu k k' pend cur r :
  kw k pend None -> k_current k !! cpu = Some cur -> sinv ∅ None k' -> aux k' -> calm W err cpu k k' ->
  kw k' (<[cur := FNone r]> pend) (Some cpu).
Proof.
  intros Hk Hcur Hs' Ha' Hc. destruct (kw_calm_common _ _ _ _ _ _ _ Hk Hc) as (C1 & C2 & C3 & C4 & C5 & C6).
  pose proof (kw_current_pend _ _ _ _ Hk Hcur) as Hpn. split; try done.
  - intros c t Hct Hl. assert (c <> cpu) as Hne by congruence. rewrite (cm_current _ _ _ _ _ Hc c Hne) in Hct.
    rewrite lookup_insert_ne; [by apply (kw_running _ _ _ Hk c)|]. intros <-.
    by apply Hne, (si_inj _ _ _ _ _ _ _ (kw_inv _ _ _ Hk) c cpu cur).
  - intros t Ht Hst. rewrite lookup_insert. case_decide as E; [eauto|]. rewrite calm_dom in Ht by done.
    apply (kw_stopped _ _ _ Hk); [done|]. intros c Hct. destruct (decide (c = cpu)) as [->|Hne]; [congruence|].
    rewrite <- (cm_current _ _ _ _ _ Hc c Hne) in Hct. specialize (Hst c Hct). congruence.
  - intros t Ht. rewrite calm_dom by done. rewrite lookup_insert in Ht. case_decide as E.
    + subst t. destruct (current_running _ _ _ _ (kw_inv _ _ _ Hk) Hcur) as (? & ? & _). eauto.
    + by apply (kw_pend _ _ _ Hk).
  - intros c [= <-]. apply (cm_has_current _ _ _ _ _ Hc). eauto.
  - intros t w Hin. destruct (C1 t w Hin) as (f & to & Hf & Hw). exists f, to. rewrite lookup_insert_ne; [done|congruence].
  - intros t Hin. destruct (C4 t Hin) as (f & w & to & Hf & Hw & Hto). exists f, w, to.
    rewrite lookup_insert_ne; [done|congruence].
  - intros t f w to. rewrite lookup_insert. case_decide; [intros [= <-]; done|by apply C5].
Qed.

(** The running thread has blocked. *)
Lemma kw_block cpu w timeout k k' pend cur f :
  kw k pend None -> k_current k !! cpu = Some cur -> sinv ∅ None k' -> aux k' ->
  blocked_post cpu w timeout cur k k' -> frame_wait f = Some (w, timeout) ->
  kw k' (<[cur := f]> pend) (Some cpu).
Proof.
  intros Hk Hcur Hs' Ha' [B1 B2 B3 B4 B5 B6 B7 B8 B9 B10] Hf.
  pose proof (kw_current_pend _ _ _ _ Hk Hcur) as Hpn. destruct (kw_no_timers _ _ _ _ Hk Hcur) as [Hnw Hns].
  assert (forall t, is_Some (k_threads k' !! t) <-> is_Some (k_threads k !! t)) as Hdom.
  { intros t. by apply (threads_rel_dom _ _ _ t B1). }
  split; try done.
  - intros c t Hct Hl. assert (c <> cpu) as Hne by congruence. rewrite (B4 c Hne) in Hct.
    rewrite lookup_insert_ne; [by apply (kw_running _ _ _ Hk c)|]. intros <-.
    by apply Hne, (si_inj _ _ _ _ _ _ _ (kw_inv _ _ _ Hk) c cpu cur).
  - intros t Ht Hst. rewrite lookup_insert. case_decide as E; [eauto|]. rewrite Hdom in Ht.
    apply (kw_stopped _ _ _ Hk); [done|]. intros c Hct. destruct (decide (c = cpu)) as [->|Hne]; [congruence|].
    rewrite <- (B4 c Hne) in Hct. specialize (Hst c Hct). congruence.
  - intros t Ht. rewrite Hdom. rewrite lookup_insert in Ht. case_decide as E.
    + subst t. destruct (current_running _ _ _ _ (kw_inv _ _ _ Hk) Hcur) as (? & ? & _). eauto.
    + by apply (kw_pend _ _ _ Hk).
  - intros c [= <-]. done.
  - intros t w' Hin. rewrite B2 in Hin. destruct (decide (t = cur)) as [->|Hne].
    + exists f, timeout. rewrite lookup_insert_eq. split; [done|]. case_decide as E; [by subst w'|].
      by apply (current_not_queued _ _ _ _ (kw_inv _ _ _ Hk) Hcur) in Hin.
    + rewrite lookup_insert_ne by done. apply (kw_wait _ _ _ Hk). case_decide; [|done]. subst w'. set_solver +Hin Hne.
  - intros t th' Ht'. destruct (threads_rel_Some_inv _ _ _ _ _ B1 Ht') as (th & Ht & (-> & _) & _).
    by apply (kw_magic _ _ _ Hk t).
  - intros x Hx Hin. destruct (decide (x = TmWait cur)) as [->|Hne].
    + destruct (timeout =? INFINITE_TIME); [destruct B10; congruence|]. destruct B10 as [_ (tm & ? & ? & ? & ?)]. by exists tm.
    + destruct (B9 x Hx Hne) as [Eo Eq]. rewrite Eo. rewrite Eq in Hin. by apply (kw_timer _ _ _ Hk).
  - intros t Hin. destruct (decide (t = cur)) as [->|Hne].
    + exists f, w, timeout. rewrite lookup_insert_eq. split_and!; [done|done|]. intros ->. rewrite Z.eqb_refl in B10.
      destruct B10. congruence.
    + destruct (B9 (TmWait t) ltac:(done) ltac:(congruence)) as [_ Eq]. rewrite Eq in Hin.
      rewrite lookup_insert_ne by done. by apply (kw_tmwait _ _ _ Hk).
  - intros t g w' to Hg Hgw Hto. destruct (decide (t = cur)) as [->|Hne].
    + rewrite lookup_insert_eq in Hg. injection Hg as <-. rewrite Hf in Hgw. injection Hgw as <- <-.
      rewrite (proj2 (Z.eqb_neq _ _) Hto) in B10. destruct B10 as [_ (tm & ? & ? & _)]. by exists tm.
    + rewrite lookup_insert_ne in Hg by done. destruct (B9 (TmWait t) ltac:(done) ltac:(congruence)) as [-> _].
      by apply (kw_obj _ _ _ Hk t g w' to).
  - intros t Hin. destruct (B9 (TmSleep t) ltac:(done) ltac:(done)) as [_ Eq]. rewrite Eq in Hin.
    destruct (kw_sleep _ _ _ Hk t Hin) as [Hni (th & Ht & Hst)].
    destruct (threads_rel_Some _ _ _ _ _ B1 Ht) as (th' & Ht' & _ & Hp). split; [done|]. exists th'. split; [done|].
    case_decide as E; [subst t; congruence|]. destruct Hp as [Hp _]. rewrite Hst in Hp. by destruct (t_state th').
Qed.

(** The running thread has gone to sleep. *)
Lemma kw_slept cpu k k' pend cur r :
  kw k pend None -> k_current k !! cpu = Some cur -> is_idle_tid cur = false ->
  sinv ∅ None k' -> aux k' -> slept_post cpu cur k k' -> kw k' (<[cur := FNone r]> pend) (Some cpu).
Proof.
  intros Hk Hcur Hnc Hs' Ha' [B1 B2 B3 B4 B5 B6 B7 B8 B9 B10].
  pose proof (kw_current_pend _ _ _ _ Hk Hcur) as Hpn. destruct (kw_no_timers _ _ _ _ Hk Hcur) as [Hnw Hns].
  assert (forall t, is_Some (k_threads k' !! t) <-> is_Some (k_threads k !! t)) as Hdom.
  { intros t. by apply (threads_rel_dom _ _ _ t B1). }
  split; try done.
  - intros c t Hct Hl. assert (c <> cpu) as Hne by congruence. rewrite (B4 c Hne) in Hct.
    rewrite lookup_insert_ne; [by apply (kw_running _ _ _ Hk c)|]. intros <-.
    by apply Hne, (si_inj _ _ _ _ _ _ _ (kw_inv _ _ _ Hk) c cpu cur).
  - intros t Ht Hst. rewrite lookup_insert. case_decide as E; [eauto|]. rewrite Hdom in Ht.
    apply (kw_stopped _ _ _ Hk); [done|]. intros c Hct. destruct (decide (c = cpu)) as [->|Hne]; [congruence|].
    rewrite <- (B4 c Hne) in Hct. specialize (Hst c Hct). congruence.
  - intros t Ht. rewrite Hdom. rewrite lookup_insert in Ht. case_decide as E.
    + subst t. destruct (current_running _ _ _ _ (kw_inv _ _ _ Hk) Hcur) as (? & ? & _). eauto.
    + by apply (kw_pend _ _ _ Hk).
  - intros c [= <-]. done.
  - intros t w Hin. rewrite B2 in Hin. destruct (kw_wait _ _ _ Hk t w Hin) as (f & to & Hf & Hw). exists f, to.
    rewrite lookup_insert_ne; [done|congruence].
  - intros t th' Ht'. destruct (threads_rel_Some_inv _ _ _ _ _ B1 Ht') as (th & Ht & (-> & _) & _).
    by apply (kw_magic _ _ _ Hk t).
  - intros x Hx Hin. destruct (decide (x = TmSleep cur)) as [->|Hne].
    + destruct B9 as [_ (tm & ? & ? & ? & ?)]. by exists tm.
    + destruct (B8 x Hx Hne) as [Eo Eq]. rewrite Eo. rewrite Eq in Hin. by apply (kw_timer _ _ _ Hk).
  - intros t Hin. destruct (B8 (TmWait t) ltac:(done) ltac:(done)) as [_ Eq]. rewrite Eq in Hin.
    destruct (kw_tmwait _ _ _ Hk t Hin) as (f & w & to & Hf & Hrest). exists f, w, to.
    rewrite lookup_insert_ne; [done|congruence].
  - intros t g w' to. destruct (B8 (TmWait t) ltac:(done) ltac:(done)) as [-> _]. rewrite lookup_insert.
    case_decide; [intros [= <-]; done|by apply (kw_obj _ _ _ Hk)].
  - intros t Hin. destruct (decide (t = cur)) as [->|Hne].
    + destruct (current_running _ _ _ _ (kw_inv _ _ _ Hk) Hcur) as (th & Ht & _).
      destruct (threads_rel_Some _ _ _ _ _ B1 Ht) as (th' & Ht' & _ & Hp & _). split; [done|]. exists th'. by rewrite decide_True in Hp.
    + destruct (B8 (TmSleep t) ltac:(done) ltac:(congruence)) as [_ Eq]. rewrite Eq in Hin.
      destruct (kw_sleep _ _ _ Hk t Hin) as [Hni (th & Ht & Hst)].
      destruct (threads_rel_Some _ _ _ _ _ B1 Ht) as (th' & Ht' & _ & Hp & _). split; [done|]. exists th'. split; [done|].
      rewrite decide_False, Hst in Hp by done. by destruct (t_state th').
Qed.

(** The thread a cpu has switched to ends its operation and releases the lock. *)
Lemma kw_return cpu k k' ts' pend cur :
  kw k pend (Some cpu) -> k_current k !! cpu = Some cur -> k' = on_timers (fun _ => ts') k -> aux k' ->
  other_timers (TmWait cur) (k_timers k) ts' -> in_list (TmWait cur) (ts_queue ts') = false ->
  kw k' (delete cur pend) None.
Proof.
  intros Hk Hcur -> Ha' Hot Hnw. pose proof (kw_inv _ _ _ Hk) as Hs.
  destruct (current_running _ _ _ _ Hs Hcur) as (cth & Hct & Hcst & _). split; try done; simpl.
  - intros c t Hct' _. rewrite lookup_delete. case_decide; [done|]. apply (kw_running _ _ _ Hk c); [done|]. congruence.
  - intros t Ht Hst. rewrite lookup_delete_ne.
    + apply (kw_stopped _ _ _ Hk); [done|]. intros c Hc. by specialize (Hst c Hc).
    + intros <-. by specialize (Hst cpu Hcur).
  - intros t. rewrite lookup_delete. case_decide; [by intros []|]. by apply (kw_pend _ _ _ Hk).
  - intros t w Hin. destruct (kw_wait _ _ _ Hk t w Hin) as (f & to & Hf & Hw). exists f, to.
    rewrite lookup_delete_ne; [done|]. intros <-. by apply (current_not_queued _ _ _ _ Hs Hcur) in Hin.
  - apply (kw_magic _ _ _ Hk).
  - intros x Hx Hin. destruct (decide (x = TmWait cur)) as [->|Hne]; [congruence|].
    destruct (Hot x Hx Hne) as [Eo Eq]. rewrite Eo. rewrite Eq in Hin. by apply (kw_timer _ _ _ Hk).
  - intros t Hin. destruct (decide (t = cur)) as [->|Hne]; [congruence|].
    destruct (Hot (TmWait t) ltac:(done) ltac:(congruence)) as [_ Eq]. rewrite Eq in Hin.
    rewrite lookup_delete_ne by done. by apply (kw_tmwait _ _ _ Hk).
  - intros t g w' to. rewrite lookup_delete. case_decide; [done|].
    destruct (Hot (TmWait t) ltac:(done) ltac:(congruence)) as [-> _]. by apply (kw_obj _ _ _ Hk).
  - intros t Hin. destruct (Hot (TmSleep t) ltac:(done) ltac:(done)) as [_ Eq]. rewrite Eq in Hin. by apply (kw_sleep _ _ _ Hk).
Qed.

(** What waiting threads can observe of a step: who has been woken, and with what. *)
Record seen W (err : Z) k k' : Prop := {
  sn_threads : threads_rel (fun t th th' => base_eq th th' /\
                 t_wait_queue_block_ret th' = if decide (t ∈ W) then err else t_wait_queue_block_ret th)
                 (k_threads k) (k_threads k');
  sn_waitq : forall w, fq (k_queues k') (WaitQ w) = filter (fun t => t ∉ W) (fq (k_queues k) (WaitQ w));
  sn_magic : forall w, wq_magic <$> k_waits k' !! w = wq_magic <$> k_waits k !! w }.

Lemma calm_seen W err cpu k k' : calm W err cpu k k' -> seen W err k k'.
Proof.
  intros [A1 A2 A3 _ _ _ _ _ _]. split; try done. intros t. specialize (A1 t).
  destruct (k_threads k !! t), (k_threads k' !! t); try done. destruct A1 as (? & _ & ?). done.
Qed.

Lemma seen_trans W1 W2 err k1 k2 k3 : seen W1 err k1 k2 -> seen W2 err k2 k3 -> seen (W1 ++ W2) err k1 k3.
Proof.
  intros [A1 A2 A3] [B1 B2 B3]. split; try congruence.
  - intros t. specialize (A1 t). specialize (B1 t).
    destruct (k_threads k1 !! t) as [a|], (k_threads k2 !! t) as [b|], (k_threads k3 !! t) as [c|]; try done.
    destruct A1 as (Ab & Ar), B1 as (Bb & Br). split_and!; [by apply (base_eq_trans a b)|].
    rewrite Br, Ar. repeat case_decide; try done; set_solver.
  - intros w. rewrite B2, A2, list_filter_filter. apply list_filter_iff. intros t. rewrite elem_of_app. tauto.
Qed.

Lemma seen_refl err k : seen [] err k k.
Proof. apply (calm_seen [] err 0), calm_refl. Qed.

(** A thread that is put away and switched is woken by nobody. *)
Lemma moved_on_calm b k cpu cur th th' err k' :
  sinv ∅ None k -> k_current k !! cpu = Some cur -> k_threads k !! cur = Some th ->
  same_home th th' -> base_eq th th' -> t_state th' = THREAD_READY ->
  t_wait_queue_block_ret th' = t_wait_queue_block_ret th ->
  moved_on b k cpu cur th' k' -> calm [] err cpu k k'.
Proof.
  intros Hs Hcur Ht Hh Hb Hst Hr (_ & _ & _ & t & Hp).
  destruct (current_running _ _ _ _ Hs Hcur) as (th0 & Ht0 & Hst0 & _). rewrite Ht in Ht0. injection Ht0 as <-.
  apply (calm_trans_l _ _ _ _ (put_away b cur th' k)).
  - unfold put_away. assert (calm [] err cpu k (on_threads (<[cur := th']>) k)).
    { apply (calm_upd _ _ _ _ th); try done. by rewrite Hst, Hst0. }
    destruct (thread_is_idle th'); [done|]. eapply calm_trans_l; [done|apply calm_enqueued].
  - apply (calm_resched _ _ _ t); [|done|].
    + apply (sinv_put_away k cpu cur th th'); try done. apply Hb.
    + unfold put_away. destruct (thread_is_idle th'); simpl; eauto.
Qed.

Lemma aux_refired cpu x k ts' :
  aux k -> x ∈ fq (ts_queue (k_timers k)) cpu -> refired cpu x (k_timers k) ts' ->
  tinv (ts_now (k_timers k)) ts' -> armed (ts_now (k_timers k)) ts' -> aux (on_timers (fun _ => ts') k).
Proof.
  intros [A1 A2 A3 A4 A5 A6 A7 A8] Hx [R1 R2 R3 R4 R5 R6 R7] Hi Ha.
  assert (forall y, in_list y (ts_queue ts') = true -> in_list y (ts_queue (k_timers k)) = true) as Hsub.
  { intros y Hy. destruct (decide (y = x)) as [->|Hne]; [apply in_list_spec; eauto|by rewrite <- R4]. }
  split; simpl; rewrite ?R1; try done.
  - intros c Hc. destruct (A4 c Hc) as (tm & Htm & Hmg). destruct (decide (TmPreempt c = x)) as [E|Hne].
    + subst x. destruct (R6 tm Htm) as [sc ->]. by eexists.
    + rewrite R3 by done. eauto.
  - intros c t th Hc Ht Hr. apply not_true_iff_false. intros Hin%Hsub. by rewrite (A5 c t th) in Hin.
  - intros c Hin%Hsub. destruct (A8 c Hin) as (tm & Htm & Hcb). destruct (decide (TmPreempt c = x)) as [E|Hne].
    + subst x. destruct (R6 tm Htm) as [sc ->]. by eexists.
    + rewrite R3 by done. eauto.
Qed.

(** One callback: [x] has fired, [k1] is what it left, [ts'] the timers after it. *)
Lemma kw_fired cpu x k k1 ts' pend W err :
  kw k pend None -> x ∈ fq (ts_queue (k_timers k)) cpu -> refired cpu x (k_timers k) ts' ->
  tinv (ts_now (k_timers k)) ts' -> armed (ts_now (k_timers k)) ts' ->
  sinv ∅ None k1 -> keeps_aux k k1 -> seen W err k k1 -> k_current k1 = k_current k ->
  (forall t, TmSleep t <> x -> forall th th1, k_threads k !! t = Some th -> k_threads k1 !! t = Some th1 ->
     t_state th = THREAD_SLEEPING -> t_state th1 = THREAD_SLEEPING) ->
  kw (on_timers (fun _ => ts') k1) pend None.
Proof.
  intros Hk Hx Hrf Hi Ha Hs1 Hka [S1 S2 S3] Ec Hsl.
  assert (forall t, is_Some (k_threads k1 !! t) <-> is_Some (k_threads k !! t)) as Hdom.
  { intros t. by apply (threads_rel_dom _ _ _ t S1). }
  pose proof Hrf as [R1 R2 R3 R4 R5 R6 R7].
  assert (forall y, in_list y (ts_queue ts') = true -> in_list y (ts_queue (k_timers k)) = true) as Hsub.
  { intros y Hy. destruct (decide (y = x)) as [->|Hne]; [apply in_list_spec; eauto|by rewrite <- R4]. }
  assert (forall y, (forall c, y <> TmPreempt c) -> in_list y (ts_queue ts') = true -> y <> x) as Honce.
  { intros y Hy Hin ->. destruct (kw_timer _ _ _ Hk x Hy (Hsub _ Hin)) as (tm & Htm & _ & Hper).
    specialize (R7 Hin). unfold period in R7. rewrite Htm in R7. simpl in R7. lia. }
  split; simpl; rewrite ?Ec; try done.
  - by apply Hka, (aux_refired cpu x); [apply (kw_aux _ _ _ Hk)|..].
  - apply (kw_running _ _ _ Hk).
  - intros t Ht. rewrite Hdom in Ht. by apply (kw_stopped _ _ _ Hk).
  - intros t Ht. rewrite Hdom. by apply (kw_pend _ _ _ Hk).
  - intros t w Hin. rewrite S2 in Hin. apply list_elem_of_filter in Hin as [_ Hin]. by apply (kw_wait _ _ _ Hk).
  - intros t th' Ht'. destruct (threads_rel_Some_inv _ _ _ _ _ S1 Ht') as (th & Ht & (-> & _) & _).
    by apply (kw_magic _ _ _ Hk t).
  - intros y Hy Hin. rewrite R3 by (by apply Honce). apply (kw_timer _ _ _ Hk); auto.
  - intros t Hin. apply (kw_tmwait _ _ _ Hk), Hsub, Hin.
  - intros t f w to Hf Hw Hto. destruct (kw_obj _ _ _ Hk t f w to Hf Hw Hto) as (tm & Htm & Hmg).
    destruct (decide (TmWait t = x)) as [E|Hne]; [|rewrite R3 by done; eauto].
    subst x. destruct (R6 tm Htm) as [sc ->]. by eexists.
  - intros t Hin. destruct (kw_sleep _ _ _ Hk t (Hsub _ Hin)) as [Hni (th & Ht & Hst)].
    destruct (threads_rel_Some _ _ _ _ _ S1 Ht) as (th1 & Ht1 & _). split; [done|]. exists th1. split; [done|].
    apply (Hsl t (Honce (TmSleep t) ltac:(done) Hin) th th1 Ht Ht1 Hst).
Qed.

(** The threads a timer may wake: they wait, with a timeout. *)
Definition timed pend k W : Prop :=
  forall t, t ∈ W -> exists f w timeout, t ∈ fq (k_queues k) (WaitQ w) /\ pend !! t = Some f /\
    frame_wait f = Some (w, timeout) /\ timeout <> INFINITE_TIME.

Lemma timed_nil pend k : timed pend k [].
Proof. intros t Hin. set_solver +Hin. Qed.

(** The state of the kernel while the due timers of a cpu are fired at [now]. *)
Definition firing (now : Z) (pend : gmap tid frame) (k0 k : kstate) : Prop :=
  kw k pend None /\ ts_now (k_timers k) = now /\ k_current k = k_current k0 /\
  exists W, seen W ERR_TIMED_OUT k0 k /\ timed pend k0 W.

Lemma firing_hw now pend k0 k f :
  firing now pend k0 k -> armed now (set_hw f (k_timers k)) ->
  firing now pend k0 (on_timers (fun _ => set_hw f (k_timers k)) k).
Proof.
  intros ([K1 K2 K3 K4 K5 K6 K7 K8 K9 K10 K11 K12] & En & Ec & W & S & Hw) Ha. split_and!; [|done|done|].
  - split; try done. destruct K2 as [A1 A2 A3 A4 A5 A6 A7 A8]. split; try done; simpl; [|by rewrite En].
    by apply tinv_hw.
  - exists W. split; [|done]. by destruct S.
Qed.

Lemma seen_timers W err f k k' : seen W err (on_timers f k) k' -> seen W err k k'.
Proof. intros [A1 A2 A3]. by split. Qed.

(** A callback that wakes [W'], all of them waiting when it was called. *)
Lemma firing_step cpu x now k0 k k1 pend W' :
  firing now pend k0 k -> x ∈ fq (ts_queue (k_timers k)) cpu ->
  sinv ∅ None k1 -> keeps_aux k k1 -> seen W' ERR_TIMED_OUT k k1 -> k_current k1 = k_current k ->
  timed pend k W' ->
  (forall t, TmSleep t <> x -> forall th th1, k_threads k !! t = Some th -> k_threads k1 !! t = Some th1 ->
     t_state th = THREAD_SLEEPING -> t_state th1 = THREAD_SLEEPING) ->
  forall ts', refired cpu x (k_timers k) ts' -> tinv now ts' -> armed now ts' ->
    firing now pend k0 (on_timers (fun _ => ts') k1).
Proof.
  intros (Hk & En & Ec & W & S & Hw) Hx Hs1 Hka S1 Ec1 Hw1 Hsl ts' Hrf Hi Ha. rewrite <- En in Hi, Ha. split_and!.
  - by apply (kw_fired cpu x k k1 ts' pend W' ERR_TIMED_OUT).
  - simpl. by rewrite (rf_now _ _ _ _ Hrf).
  - simpl. congruence.
  - exists (W ++ W'). split.
    + pose proof (seen_trans _ _ _ _ _ _ S S1) as [? ? ?]. by split.
    + intros t [Ht|Ht]%elem_of_app; [by apply Hw|]. destruct (Hw1 t Ht) as (f & w & to & Hin & ?). exists f, w, to.
      rewrite (sn_waitq _ _ _ _ S) in Hin. by apply list_elem_of_filter in Hin as [_ ?]; split.
Qed.

(** What a callback of [x] leaves, whatever becomes of its timer. *)
Definition fire_post cpu now pend k0 k (x : ktimer) (k' : kstate) : Prop :=
  k_timers k' = set_queue (del x) (k_timers k) /\
  forall ts', refired cpu x (k_timers k) ts' -> tinv now ts' -> armed now ts' ->
    firing now pend k0 (on_timers (fun _ => ts') k').

Definition unlinked (x : ktimer) k : kstate := on_timers (fun _ => set_queue (del x) (k_timers k)) k.

Lemma fire_tick_wp cpu now pend k0 c cur k :
  k_current k !! cpu = Some cur -> firing now pend k0 k -> TmPreempt c ∈ fq (ts_queue (k_timers k)) cpu ->
  wp (thread_timer_tick cpu) (fun _ => fire_post cpu now pend k0 k (TmPreempt c)) (unlinked (TmPreempt c) k).
Proof.
  intros Hcur Hf Hx. pose proof Hf as (Hk & _). pose proof (kw_inv _ _ _ Hk) as Hs.
  destruct (current_running _ _ _ _ Hs Hcur) as (th & Ht & Hst & Hmg). unfold thread_timer_tick.
  wp_step. apply (get_current_wp _ _ cur); [done|]. wp_step. apply (get_thread_wp _ _ th); [done|].
  assert (forall k2, quiet (unlinked (TmPreempt c) k) k2 -> fire_post cpu now pend k0 k (TmPreempt c) k2) as Hq.
  { intros k2 Hq2. split; [apply (qu_timers _ _ Hq2)|].
    apply (firing_step cpu (TmPreempt c) now k0 k k2 pend []); try done.
    - by apply (sinv_quiet _ _ _ _ Hq2).
    - exact (keeps_quiet _ _ Hq2).
    - exact (seen_timers _ _ _ _ _ (calm_seen _ _ _ _ _ (calm_quiet ERR_TIMED_OUT cpu _ _ Hq2))).
    - apply (qu_current _ _ Hq2).
    - apply timed_nil.
    - intros t _ th0 th1 H0 H1 Hsl. destruct (quiet_thread _ _ _ _ Hq2 H0) as (th2 & H2 & _ & E). congruence. }
  destruct (thread_is_real_time_or_idle th); [wp_step; apply Hq, quiet_refl|].
  wp_step. apply (upd_thread_wp _ _ th); [done|]. wp_step. apply Hq. by apply (quiet_upd _ _ th).
Qed.

Lemma fire_sleep_wp cpu now pend k0 t k :
  firing now pend k0 k -> TmSleep t ∈ fq (ts_queue (k_timers k)) cpu ->
  wp (thread_sleep_handler t) (fun _ => fire_post cpu now pend k0 k (TmSleep t)) (unlinked (TmSleep t) k).
Proof.
  intros Hf Hx. pose proof Hf as (Hk & _). pose proof (kw_inv _ _ _ Hk) as Hs.
  destruct (kw_sleep _ _ _ Hk t) as [Hni (th & Ht & Hst)]; [apply in_list_spec; eauto|].
  pose proof (kw_magic _ _ _ Hk t th Ht) as Hmg.
  assert (thread_is_idle th = false) as Hi by by apply (kw_idle k pend None t).
  eapply wp_mono; [by apply (thread_sleep_handler_wp (unlinked (TmSleep t) k) t th)|]. intros ? k2 (_ & Hs2 & Hl & Ek2).
  split; [by subst k2|]. apply (firing_step cpu (TmSleep t) now k0 k k2 pend []); try done.
  - exact (keeps_local _ _ Hl).
  - subst k2. split; try done.
    + apply (threads_rel_insert _ _ t th); [|done|]; intros; (split; [apply base_eq_refl|by rewrite decide_False by set_solver +])
        || (split; [done|by rewrite decide_False by set_solver +]).
    + intros w. rewrite (cm_waitq _ _ _ _ _ (calm_enqueued 0 0 true t (t_priority th) _)). done.
  - by subst k2.
  - apply timed_nil.
  - intros t' Hne th0 th1 H0 H1 Hsl. subst k2. simpl in H1. rewrite lookup_insert_ne in H1 by congruence. congruence.
Qed.

Lemma fire_wait_wp cpu now pend k0 t k :
  firing now pend k0 k -> TmWait t ∈ fq (ts_queue (k_timers k)) cpu ->
  wp (wait_queue_timeout_handler cpu t) (fun _ => fire_post cpu now pend k0 k (TmWait t)) (unlinked (TmWait t) k).
Proof.
  intros Hf Hx. pose proof Hf as (Hk & _). pose proof (kw_inv _ _ _ Hk) as Hs.
  destruct (kw_tmwait _ _ _ Hk t) as (f & w & to & Hpf & Hfw & Hto); [apply in_list_spec; eauto|].
  destruct (kw_pend _ _ _ Hk t ltac:(eauto)) as [th Ht]. set (k1 := unlinked (TmWait t) k).
  eapply wp_mono; [apply (wait_queue_timeout_handler_wp k1 cpu t th); [done|done|by apply (kw_magic _ _ _ Hk t)]|].
  intros ? k2 (Hs2 & Hka & Ec & Et & Hr). split; [done|].
  destruct (state_is th THREAD_BLOCKED) eqn:Hb; destruct Hr as [_ Hr].
  - apply (firing_step cpu (TmWait t) now k0 k k2 pend [t]); try done.
    + exact (seen_timers _ _ _ _ _ (calm_seen _ _ _ _ _ Hr)).
    + intros t' ->%list_elem_of_singleton. apply bool_decide_eq_true in Hb.
      pose proof (si_placed _ _ _ _ _ _ _ Hs t th Ht ltac:(set_solver +)) as Hp. unfold placed in Hp. rewrite Hb in Hp.
      destruct Hp as (w' & _ & Hin). destruct (kw_wait _ _ _ Hk t w' Hin) as (f' & to' & Hf' & Hw').
      exists f, w, to. split_and!; try done. rewrite Hpf in Hf'. injection Hf' as <-. rewrite Hfw in Hw'. by injection Hw' as <- _.
    + intros t' _ th0 th1 H0 H1 Hsl.
      destruct (threads_rel_Some _ _ _ _ _ (cm_threads _ _ _ _ _ Hr) H0) as (th2 & H2 & _ & Hpk & _).
      rewrite H1 in H2. injection H2 as <-. rewrite Hsl in Hpk. by destruct (t_state th1).
  - subst k2. apply (firing_step cpu (TmWait t) now k0 k k1 pend []); try done.
    + exact (seen_timers _ _ _ _ _ (seen_refl _ _)).
    + apply timed_nil.
    + intros t' _ th0 th1 H0 H1 Hsl. simpl in H1. congruence.
Qed.

Lemma fire_wp cpu now pend k0 cb x tm k :
  is_Some (k_current k !! cpu) -> firing now pend k0 k -> x ∈ fq (ts_queue (k_timers k)) cpu ->
  ts_timers (k_timers k) !! x = Some tm -> tm_callback tm = Some cb ->
  wp (fire cpu cb x now) (fun _ => fire_post cpu now pend k0 k x) (unlinked x k).
Proof.
  intros [cur Hcur] Hf Hx Htm Hcb. pose proof Hf as (Hk & _).
  assert (in_list x (ts_queue (k_timers k)) = true) as Hin by (apply in_list_spec; eauto).
  assert (cb = timer_callback_of x) as ->.
  { destruct x as [c|t|t].
    - destruct (ax_tick _ _ _ _ _ (kw_aux _ _ _ Hk) c Hin) as (tm' & ? & ?). simpl. congruence.
    - destruct (kw_timer _ _ _ Hk (TmSleep t) ltac:(done) Hin) as (tm' & ? & ? & _). congruence.
    - destruct (kw_timer _ _ _ Hk (TmWait t) ltac:(done) Hin) as (tm' & ? & ? & _). congruence. }
  destruct x as [c|t|t]; [by apply (fire_tick_wp _ _ _ _ _ cur)|by apply fire_sleep_wp|by apply fire_wait_wp].
Qed.

(** The whole interrupt of a timer. *)
Lemma timer_irq_wp cpu now pend k :
  is_Some (k_current k !! cpu) -> kw k pend None -> tinv now (k_timers k) -> armed now (k_timers k) ->
  wp (timer_irq cpu now) (fun _ => firing now pend k) k.
Proof.
  intros Hcur Hk Hi Ha. unfold timer_irq. wp_step. wp_step.
  set (k1 := on_timers (fun ts => TState (ts_timers ts) (ts_queue ts) (ts_hw ts) now) k). wp_step. wp_step.
  assert (tinv now (k_timers k1)) as Hi1 by (by destruct Hi).
  assert (firing now pend k k1) as Hf.
  { destruct Hk as [K1 [A1 A2 A3 A4 A5 A6 A7 A8] K3 K4 K5 K6 K7 K8 K9 K10 K11 K12].
    split_and!; [by split|done|done|]. exists []. split; [|apply timed_nil].
    destruct (seen_refl ERR_TIMED_OUT k) as [? ? ?]. by split. }
  eapply wp_mono.
  - apply (timer_tick_wp (fire cpu) cpu (fun _ k' => is_Some (k_current k' !! cpu) /\ firing now pend k k') now).
    + intros _ k' f [Hc Hf'] Ha'. split; [done|by apply firing_hw].
    + intros _ cb x tm k' [Hc Hf'] Hx Htm Hcb. eapply wp_mono; [by apply (fire_wp cpu now pend k cb x tm k')|].
      intros ? k2 [Et Hp]. split; [done|]. intros ts' Hrf Hi' Ha'. specialize (Hp ts' Hrf Hi' Ha'). split; [|done].
      destruct Hp as (_ & _ & Ec & _). destruct Hf' as (_ & _ & Ec' & _). simpl in *. by rewrite Ec, <- Ec'.
    + by split.
    + done.
    + done.
    + simpl. lia.
  - intros ? k' ([_ Hf'] & _). done.
Qed.

(** The interrupt, with the preemption it may end in. *)
Lemma interrupt_wp cpu now pend cur k :
  k_current k !! cpu = Some cur -> kw k pend None -> tinv now (k_timers k) -> armed now (k_timers k) ->
  wp (interrupt cpu now)
    (fun r k' => (exists W, seen W ERR_TIMED_OUT k k' /\ timed pend k W) /\
       match r with
       | INT_NO_RESCHEDULE => kw k' pend None
       | INT_RESCHEDULE => kw k' (<[cur := FNone 0]> pend) (Some cpu)
       end) k.
Proof.
  intros Hcur Hk Hi Ha. unfold interrupt. wp_step. eapply wp_mono; [by apply (timer_irq_wp cpu now pend); eauto|].
  intros r k1 (Hk1 & _ & Ec & W & S & Hw). destruct r; [wp_step; eauto|].
  assert (k_current k1 !! cpu = Some cur) as Hcur1 by by rewrite Ec.
  destruct (current_running _ _ _ _ (kw_inv _ _ _ Hk1) Hcur1) as (th & Ht & _).
  wp_step. eapply wp_mono; [apply (thread_preempt_wp k1 cpu cur th); [apply Hk1|apply Hk1|done|done]|].
  intros ? k2 Hm. wp_step.
  assert (calm [] ERR_TIMED_OUT cpu k1 k2) as Hc.
  { eapply (moved_on_calm _ _ _ _ th (set_state THREAD_READY th)); [apply Hk1|done..| |exact Hm]; done. }
  destruct Hm as (Hs2 & Ha2 & _). split; [|by apply (kw_switch [] ERR_TIMED_OUT cpu k1 k2 pend cur)].
  exists W. split; [|done]. rewrite <- (app_nil_r W). by eapply seen_trans, calm_seen.
Qed.

(** The operations of the scheduler and of wait queues, by a thread that is not idle. *)
Definition alive k (w : wqid) : Prop := wq_magic <$> k_waits k !! w = Some WAIT_QUEUE_MAGIC.

Section caller.
Context (cpu : nat) (cur : tid) (pend : gmap tid frame) (k : kstate).
Context (Hk : kw k pend None) (Hcur : k_current k !! cpu = Some cur) (Hni : is_idle_tid cur = false).

Lemma caller_thread : exists th, k_threads k !! cur = Some th /\ thread_is_idle th = false.
Proof using Hk Hcur Hni.
  destruct (current_running _ _ _ _ (kw_inv _ _ _ Hk) Hcur) as (th & Ht & _). exists th. split; [done|].
  by apply (kw_idle k pend None cur).
Qed.

Lemma moved_on_switched b th th' r k' :
  k_threads k !! cur = Some th -> same_home th th' -> base_eq th th' -> t_state th' = THREAD_READY ->
  t_wait_queue_block_ret th' = t_wait_queue_block_ret th -> moved_on b k cpu cur th' k' ->
  kw k' (<[cur := FNone r]> pend) (Some cpu) /\ seen [] NO_ERROR k k'.
Proof using Hk Hcur.
  intros Ht Hh Hb Hst Hr Hm.
  pose proof (moved_on_calm b k cpu cur th th' NO_ERROR k' (kw_inv _ _ _ Hk) Hcur Ht Hh Hb Hst Hr Hm) as Hc.
  destruct Hm as (Hs & Ha & _). split; [by apply (kw_switch [] NO_ERROR cpu k k')|by eapply calm_seen].
Qed.

Lemma yield_wp r :
  wp (thread_yield cpu) (fun _ k' => kw k' (<[cur := FNone r]> pend) (Some cpu) /\ seen [] NO_ERROR k k') k.
Proof using Hk Hcur Hni.
  destruct caller_thread as (th & Ht & Hi).
  eapply wp_mono; [apply (thread_yield_wp k cpu cur th); [apply Hk|apply Hk|done|done]|].
  intros ? k' Hm. by eapply (moved_on_switched _ th); [..|exact Hm].
Qed.

Lemma set_priority_wp p r :
  wp (thread_set_priority cpu p) (fun _ k' => kw k' (<[cur := FNone r]> pend) (Some cpu) /\ seen [] NO_ERROR k k') k.
Proof using Hk Hcur Hni.
  destruct caller_thread as (th & Ht & Hi).
  eapply wp_mono; [apply (thread_set_priority_wp k cpu cur th); [apply Hk|apply Hk|done|done|done]|].
  intros ? k' Hm. eapply (moved_on_switched _ th); [..|exact Hm]; try done.
  split_and!; try done. intros _. pose proof (clamp_priority_range p). simpl. lia.
Qed.

Lemma sleep_wp delay r : 0 <= delay < 2 ^ 30 ->
  wp (thread_sleep cpu delay) (fun _ k' => kw k' (<[cur := FNone r]> pend) (Some cpu) /\ seen [] NO_ERROR k k') k.
Proof using Hk Hcur Hni.
  intros Hd. destruct caller_thread as (th & Ht & Hi). destruct (kw_no_timers _ _ _ _ Hk Hcur) as [_ Hns].
  eapply wp_mono; [apply (thread_sleep_wp k cpu cur th delay); [apply Hk|apply Hk|done..]|].
  intros ? k' (Hs & Ha & Hb & Hp). split.
  - by apply (kw_slept cpu k k' pend cur).
  - destruct Hp as [P1 P2 P3 _ _ _ _ _ _ _]. split; [| |done].
    + intros t. specialize (P1 t). destruct (k_threads k !! t), (k_threads k' !! t); try done.
      destruct P1 as (? & _ & ?). by rewrite decide_False by set_solver +.
    + intros w. by rewrite P2, filter_notin_nil.
Qed.

Lemma block_wp w timeout f : alive k w -> timeout_ok timeout -> frame_wait f = Some (w, timeout) ->
  wp (wait_queue_block_enter cpu w timeout)
    (fun r k' => if timeout =? 0 then r = Some ERR_TIMED_OUT /\ k' = k
       else r = None /\ kw k' (<[cur := f]> pend) (Some cpu) /\ blocked_post cpu w timeout cur k k') k.
Proof using Hk Hcur Hni.
  intros Hal Hto Hf. destruct caller_thread as (th & Ht & Hi). destruct (kw_no_timers _ _ _ _ Hk Hcur) as [Hnw _].
  unfold alive in Hal. destruct (k_waits k !! w) as [wq|] eqn:Hw; [|done]. injection Hal as Hal.
  eapply wp_mono; [apply (wait_queue_block_enter_wp k cpu w wq cur th timeout); [apply Hk|apply Hk|done..]|].
  intros r k'. destruct (timeout =? 0); [done|]. intros (-> & Hs & Ha & _ & Hp). split_and!; [done| |done].
  by apply (kw_block cpu w timeout k k').
Qed.

Lemma wake_one_wp w (reschedule : bool) r0 : alive k w ->
  wp (wait_queue_wake_one cpu w reschedule NO_ERROR)
    (fun r k' => match fq (k_queues k) (WaitQ w) with
       | [] => r = 0 /\ k' = k
       | t :: _ => r = 1 /\ seen [t] NO_ERROR k k' /\
           if reschedule then kw k' (<[cur := FNone r0]> pend) (Some cpu) else kw k' pend None
       end) k.
Proof using Hk Hcur Hni.
  intros Hal. destruct caller_thread as (th & Ht & Hi).
  unfold alive in Hal. destruct (k_waits k !! w) as [wq|] eqn:Hw; [|done]. injection Hal as Hal.
  eapply wp_mono; [apply (wait_queue_wake_one_wp k cpu w wq reschedule NO_ERROR cur th); [apply Hk|apply Hk|done..]|].
  intros r k'. destruct (fq (k_queues k) (WaitQ w)) as [|t q]; [done|]. intros (-> & Hs & Ha & Hc & Hend).
  split_and!; [done|by eapply calm_seen|].
  destruct reschedule; [by apply (kw_switch [t] NO_ERROR cpu k k')|by apply (kw_stay [t] NO_ERROR cpu k k')].
Qed.

Lemma wake_all_wp w (reschedule : bool) r0 : alive k w ->
  wp (wait_queue_wake_all cpu w reschedule NO_ERROR)
    (fun r k' => r = Z.of_nat (length (fq (k_queues k) (WaitQ w))) /\
       seen (fq (k_queues k) (WaitQ w)) NO_ERROR k k' /\
       if reschedule && (0 <? r) then kw k' (<[cur := FNone r0]> pend) (Some cpu) else kw k' pend None) k.
Proof using Hk Hcur Hni.
  intros Hal. destruct caller_thread as (th & Ht & Hi).
  unfold alive in Hal. destruct (k_waits k !! w) as [wq|] eqn:Hw; [|done]. injection Hal as Hal.
  eapply wp_mono; [apply (wait_queue_wake_all_wp k cpu w wq reschedule NO_ERROR cur th); [apply Hk|apply Hk|done..]|].
  intros r k' (-> & Hs & Ha & Hc & _ & Hend). split_and!; [done|by eapply calm_seen|].
  destruct reschedule; simpl.
  - destruct (0 <? _) eqn:E; [by eapply (kw_switch _ NO_ERROR cpu k k')|]. eapply kw_stay; try done. apply Hend. right.
    destruct (fq (k_queues k) (WaitQ w)); [done|]. apply Z.ltb_ge in E. simpl in E. lia.
  - by eapply kw_stay; [..|apply Hend; left].
Qed.
End caller.

(** The end of a wait, by the thread the cpu has switched to. *)
Lemma block_return_wp cpu cur pend k f w timeout th :
  kw k pend (Some cpu) -> k_current k !! cpu = Some cur -> pend !! cur = Some f -> frame_wait f = Some (w, timeout) ->
  k_threads k !! cur = Some th ->
  wp (wait_queue_block_return cpu timeout)
    (fun r k' => r = t_wait_queue_block_ret th /\ kw k' (delete cur pend) None /\
       k_queues k' = k_queues k /\ k_threads k' = k_threads k /\ k_waits k' = k_waits k /\
       k_current k' = k_current k) k.
Proof.
  intros Hk Hcur Hf Hw Ht.
  eapply wp_mono; [apply (wait_queue_block_return_wp k cpu cur th timeout); [apply Hk|apply Hk|done|done|]|].
  { intros Hto. by apply (kw_obj _ _ _ Hk cur f w timeout). }
  intros r k' (-> & Hs & Ha & (ts' & ->) & Hot & _ & Hn). split_and!; try done.
  apply (kw_return cpu k _ ts'); try done. destruct (Z.eqb_spec timeout INFINITE_TIME) as [E|E]; [|done].
  assert (ts' = k_timers k) as -> by (apply (f_equal k_timers) in Hn; exact Hn). apply not_true_iff_false. intros Hin.
  destruct (kw_tmwait _ _ _ Hk cur Hin) as (f' & w' & to & Hf' & Hw' & Hto). congruence.
Qed.

End kw.
