(* ===== verification/Objects.v ===== *)
(** * The promises of the kernel objects

    Mutexes, semaphores and events over every interleaving of the machine of [Machine]: what
    the fields of an object say about the threads inside its operations, and what its history,
    the calls and returns that name it, can be. *)

From stdpp Require Import base gmap list fin_maps fin_sets strings.
From S2P Require Import Prelude ListNode Timer KState Sched Resched Wait Thread Sync Machine.
Import Family.

(** The wait queue of the object a call names. *)
Definition call_wq (c : call) : option wqid :=
  match c with
  | Yield | Sleep _ | SetPriority _ => None
  | Acquire m _ | Release m => Some (WMutex m)
  | SemWait s | SemTryWait s | SemTimedWait s _ | SemPost s _ => Some (WSem s)
  | EventWait e _ | EventSignal e _ | EventUnsignal e => Some (WEvent e)
  end.

Definition touched (x : observation) : option wqid :=
  match x with
  | Called _ c | Returned _ c _ => call_wq c
  | Resumed _ f _ => fst <$> frame_wait f
  end.

Definition history (w : wqid) (log : list observation) : list observation :=
  filter (fun x => touched x = Some w) log.

(** The threads inside a waiting operation, and those of them that have been woken with success. *)
Definition inside (pend : gmap tid frame) (w : wqid) : gset tid :=
  dom (filter (fun x : tid * frame => fst <$> frame_wait x.2 = Some w) pend).

Definition block_ret (k : kstate) (t : tid) : option Z := t_wait_queue_block_ret <$> k_threads k !! t.

Definition granted (k : kstate) (pend : gmap tid frame) (w : wqid) : gset tid :=
  filter (fun t => t ∉ fq (k_queues k) (WaitQ w) /\ block_ret k t = Some NO_ERROR) (inside pend w).

(** No call of the history waits with a timeout. *)
Definition impatient (x : observation) : bool :=
  match x with
  | Called _ c => match frame_wait (frame_of c) with
                  | Some (_, timeout) => negb (timeout =? INFINITE_TIME)
                  | None => false
                  end
  | _ => false
  end.

Definition patient (h : list observation) : bool := negb (existsb impatient h).

(** ** What a history says *)

(** A successful operation on an object, by the thread that made it. *)
Definition success (x : observation) : option (tid * call) :=
  match x with
  | Returned t c r => if r =? NO_ERROR then Some (t, c) else None
  | Resumed t f r =>
      if r =? NO_ERROR then
        match f with
        | FAcquire m timeout => Some (t, Acquire m timeout)
        | FSemWait s => Some (t, SemWait s)
        | FSemTimed s timeout => Some (t, SemTimedWait s timeout)
        | FEventWait e timeout => Some (t, EventWait e timeout)
        | FNone _ => None
        end
      else None
  | Called _ _ => None
  end.

(** The owner of a mutex: the thread of the last acquisition that has not been followed by the
    call of a release. *)
Fixpoint owner (h : list observation) : option tid :=
  match h with
  | [] => None
  | x :: h =>
      match x, success x with
      | Called _ (Release _), _ => None
      | _, Some (t, Acquire _ _) => Some t
      | _, _ => owner h
      end
  end.

(** Acquisitions and releases alternate, each release by the owner. *)
Fixpoint exclusive (h : list observation) : Prop :=
  match h with
  | [] => True
  | x :: h =>
      exclusive h /\
      match x, success x with
      | Called t (Release _), _ => owner h = Some t
      | _, Some (t, Acquire _ _) => owner h = None
      | _, _ => True
      end
  end.

(** Calls that put a unit into a semaphore or signal an event, and operations that took one. *)
Definition puts (x : observation) : bool :=
  match x with Called _ (SemPost _ _) | Called _ (EventSignal _ _) => true | _ => false end.

Definition takes (x : observation) : bool :=
  match success x with
  | Some (_, (SemWait _ | SemTryWait _ | SemTimedWait _ _ | EventWait _ _)) => true
  | _ => false
  end.

Definition number (P : observation -> bool) (h : list observation) : Z :=
  Z.of_nat (length (filter (fun x => Is_true (P x)) h)).

(** ** The state of an object against its history

    [I] is the set of the threads inside, [G] of those granted, [q] the wait queue. *)

Definition held (mu : mutex) : Z := match m_holder mu with Some _ => 1 | None => 0 end.

Record mutex_ok (mu : mutex) (I G : gset tid) (q : list tid) (h : list observation) : Prop := {
  mo_magic : m_magic mu = MUTEX_MAGIC;
  mo_count : m_count mu = held mu + Z.of_nat (size I);
  mo_one : held mu + Z.of_nat (size G) <= 1;
  mo_owner : owner h = m_holder mu;
  mo_exclusive : exclusive h;
  mo_handoff : patient h = true -> m_holder mu = None -> G = ∅ -> I = ∅ }.

Record sem_ok (value : Z) (se : semaphore) (I G : gset tid) (q : list tid) (h : list observation) : Prop := {
  so_count : s_count se + number takes h + Z.of_nat (size I) = value + number puts h;
  so_bound : number takes h + Z.of_nat (size G) <= value + number puts h;
  so_queue : patient h = true -> Z.of_nat (length q) = Z.max 0 (- s_count se) }.

Record event_ok (initial : bool) (flags : Z) (ev : event) (I G : gset tid) (q : list tid) (h : list observation) : Prop := {
  eo_magic : e_magic ev = EVENT_MAGIC;
  eo_flags : e_flags ev = flags;
  eo_queue : e_signaled ev = true -> q = [];
  eo_bound : autounsignal ev = true ->
    number takes h + Z.of_nat (size G) + (if e_signaled ev then 1 else 0) <= (if initial then 1 else 0) + number puts h }.

Definition has_object (o : os) (w : wqid) : Prop :=
  match w with
  | WMutex m => is_Some (o_mutexes o !! m)
  | WSem s => is_Some (o_sems o !! s)
  | WEvent e => is_Some (o_events o !! e)
  | _ => False
  end.

(** [o0] is the state the objects were initialised in. *)
Definition obj_ok (o0 o : os) (w : wqid) : gset tid -> gset tid -> list tid -> list observation -> Prop :=
  match w with
  | WMutex m => fun I G q h => exists mu, o_mutexes o !! m = Some mu /\ mutex_ok mu I G q h
  | WSem s => fun I G q h => exists se0 se, o_sems o0 !! s = Some se0 /\ o_sems o !! s = Some se /\
                sem_ok (s_count se0) se I G q h
  | WEvent e => fun I G q h => exists ev0 ev, o_events o0 !! e = Some ev0 /\ o_events o !! e = Some ev /\
                  event_ok (e_signaled ev0) (e_flags ev0) ev I G q h
  | _ => fun _ _ _ _ => False
  end.

(** A thread that has been taken off a wait queue carries its result, and a timeout is one of
    the history. *)
Definition ret_ok (k : kstate) (pend : gmap tid frame) : Prop :=
  forall t f w timeout, pend !! t = Some f -> frame_wait f = Some (w, timeout) -> t ∉ fq (k_queues k) (WaitQ w) ->
    block_ret k t = Some NO_ERROR \/ block_ret k t = Some ERR_TIMED_OUT /\ timeout <> INFINITE_TIME.

Definition timed_ok (pend : gmap tid frame) (log : list observation) : Prop :=
  forall t f w timeout, pend !! t = Some f -> frame_wait f = Some (w, timeout) -> timeout <> INFINITE_TIME ->
    patient (history w log) = false.

Record minv (o0 o : os) (pend : gmap tid frame) (lock : option nat) (log : list observation) : Prop := {
  mi_kw : kw (o_k o) pend lock;
  mi_ret : ret_ok (o_k o) pend;
  mi_timed : timed_ok pend log;
  mi_object : forall t f w timeout, pend !! t = Some f -> frame_wait f = Some (w, timeout) -> has_object o w;
  mi_alive : forall w, has_object o w -> alive (o_k o) w;
  mi_ok : forall w, has_object o w ->
            obj_ok o0 o w (inside pend w) (granted (o_k o) pend w) (fq (k_queues (o_k o)) (WaitQ w)) (history w log) }.

Section views.
Implicit Types (k : kstate) (pend : gmap tid frame) (t cur : tid) (W : list tid) (w : wqid) (log : list observation).

Lemma elem_of_inside pend w t :
  t ∈ inside pend w <-> exists f timeout, pend !! t = Some f /\ frame_wait f = Some (w, timeout).
Proof.
  unfold inside. rewrite elem_of_dom. split.
  - intros [f Hf]. apply map_lookup_filter_Some in Hf as [Hf Hw]. simpl in Hw.
    destruct (frame_wait f) as [[w' to]|] eqn:E; [|done]. injection Hw as ->. eauto.
  - intros (f & to & Hf & Hw). exists f. apply map_lookup_filter_Some. split; [done|]. simpl. by rewrite Hw.
Qed.

Lemma elem_of_granted k pend w t :
  t ∈ granted k pend w <-> t ∈ inside pend w /\ t ∉ fq (k_queues k) (WaitQ w) /\ block_ret k t = Some NO_ERROR.
Proof. unfold granted. rewrite elem_of_filter. tauto. Qed.

Lemma granted_inside k pend w : granted k pend w ⊆ inside pend w.
Proof. intros t. rewrite elem_of_granted. tauto. Qed.

Lemma inside_insert pend cur f w : pend !! cur = None ->
  inside (<[cur := f]> pend) w =
    if decide (fst <$> frame_wait f = Some w) then {[cur]} ∪ inside pend w else inside pend w.
Proof.
  intros Hn. apply set_eq. intros t.
  assert (t ∈ inside (<[cur := f]> pend) w <->
    t = cur /\ fst <$> frame_wait f = Some w \/ t <> cur /\ t ∈ inside pend w) as ->.
  { rewrite !elem_of_inside. setoid_rewrite lookup_insert. destruct (decide (cur = t)) as [->|Hne].
    - split; [|intros [[_ Hw]|[? _]]; [|done]].
      + intros (f' & to & [= <-] & Hw). left. by rewrite Hw.
      + destruct (frame_wait f) as [[w' to]|] eqn:E; [|done]. injection Hw as ->. eauto.
    - split; [intros ?; right; auto|intros [[? _]|[_ ?]]; [congruence|done]]. }
  assert (cur ∉ inside pend w). { rewrite elem_of_inside. intros (? & ? & ? & _). congruence. }
  case_decide; set_solver.
Qed.

Lemma inside_delete pend cur w : inside (delete cur pend) w = inside pend w ∖ {[cur]}.
Proof.
  apply set_eq. intros t. rewrite elem_of_difference, elem_of_singleton, !elem_of_inside.
  setoid_rewrite lookup_delete_Some. split; [intros (f & to & [? ?] & ?); eauto 6|].
  intros [(f & to & ? & ?) ?]. exists f, to. eauto.
Qed.

Lemma not_inside pend cur w : pend !! cur = None -> cur ∉ inside pend w.
Proof. rewrite elem_of_inside. intros Hn (f & to & Hf & _). congruence. Qed.

(** Waking. *)
Lemma seen_ret W err k k' t : seen W err k k' ->
  (t ∈ W -> is_Some (k_threads k !! t)) ->
  block_ret k' t = if decide (t ∈ W) then Some err else block_ret k t.
Proof.
  intros [S1 _ _] Hd. specialize (S1 t). unfold block_ret.
  destruct (k_threads k !! t) as [th|], (k_threads k' !! t) as [th'|]; simpl in *; try done.
  - destruct S1 as [_ ->]. by case_decide.
  - rewrite decide_False; [done|]. intros Ht. by destruct (Hd Ht).
Qed.

(** Every woken thread waited on some queue. *)
Definition waiting k W : Prop := forall t, t ∈ W -> exists w, t ∈ fq (k_queues k) (WaitQ w).

Lemma timed_waiting pend k W : timed pend k W -> waiting k W.
Proof. intros Hw t Ht. destruct (Hw t Ht) as (f & w & to & Hin & _). eauto. Qed.

Lemma waiting_thread k pend lock W t : kw k pend lock -> waiting k W -> t ∈ W -> is_Some (k_threads k !! t).
Proof.
  intros Hk Hw Ht. destruct (Hw t Ht) as [w Hin].
  destruct (si_member _ _ _ _ _ _ _ (kw_inv _ _ _ Hk) _ _ Hin) as [_ (th & ? & _)]. eauto.
Qed.

Lemma waiting_inside k pend lock W t w :
  kw k pend lock -> waiting k W -> t ∈ W -> t ∈ inside pend w -> t ∈ fq (k_queues k) (WaitQ w).
Proof.
  intros Hk Hw Ht Hi. destruct (Hw t Ht) as [w' Hin]. destruct (kw_wait _ _ _ Hk _ _ Hin) as (f & to & Hf & Hfw).
  apply elem_of_inside in Hi as (f' & to' & Hf' & Hfw'). rewrite Hf in Hf'. injection Hf' as <-.
  rewrite Hfw in Hfw'. by injection Hfw' as <- _.
Qed.

Lemma granted_seen W err k k' pend pend' w : kw k pend None -> seen W err k k' -> waiting k W ->
  inside pend' w = inside pend w ->
  granted k' pend' w = granted k pend w ∪
    (if err =? NO_ERROR then list_to_set (filter (fun t => t ∈ fq (k_queues k) (WaitQ w)) W) else ∅).
Proof.
  intros Hk Hs Hw Hi. apply set_eq. intros t. rewrite elem_of_union, !elem_of_granted, Hi.
  rewrite (seen_ret W err k k' t Hs) by (by apply (waiting_thread k pend None)).
  rewrite (sn_waitq _ _ _ _ Hs), list_elem_of_filter.
  pose proof (waiting_inside k pend None W t w Hk Hw) as Hwi.
  assert (t ∈ fq (k_queues k) (WaitQ w) -> t ∈ inside pend w) as Hin.
  { intros Hq. destruct (kw_wait _ _ _ Hk _ _ Hq) as (f & to & Hf & Hfw). apply elem_of_inside. eauto. }
  destruct (Z.eqb_spec err NO_ERROR) as [->|Hne].
  - rewrite elem_of_list_to_set, list_elem_of_filter. destruct (decide (t ∈ W)); naive_solver.
  - rewrite elem_of_empty. case_decide; naive_solver.
Qed.

(** ** Steps as the objects see them

    [vstep w0]: only the object of [w0] may see the threads inside it change, other than by
    timeouts. *)
Definition other_view k pend log k' pend' log' w : Prop :=
  inside pend' w = inside pend w /\ granted k' pend' w = granted k pend w /\ history w log' = history w log /\
  (fq (k_queues k) (WaitQ w) = [] -> fq (k_queues k') (WaitQ w) = []) /\
  (patient (history w log) = true -> fq (k_queues k') (WaitQ w) = fq (k_queues k) (WaitQ w)).

Record vstep (w0 : option wqid) k pend log k' pend' log' : Prop := {
  vs_ret : ret_ok k' pend';
  vs_timed : timed_ok pend' log';
  vs_frames : forall t f w timeout, pend' !! t = Some f -> frame_wait f = Some (w, timeout) ->
                pend !! t = Some f \/ Some w = w0;
  vs_magic : forall w, wq_magic <$> k_waits k' !! w = wq_magic <$> k_waits k !! w;
  vs_other : forall w, Some w <> w0 -> other_view k pend log k' pend' log' w }.

Lemma history_cons w x log : history w (x :: log) = if decide (touched x = Some w) then x :: history w log else history w log.
Proof. unfold history. by rewrite filter_cons. Qed.

Lemma patient_cons x h : patient (x :: h) = true -> patient h = true.
Proof. unfold patient. simpl. destruct (impatient x); done. Qed.

Lemma patient_history_cons w x log : patient (history w log) = false -> patient (history w (x :: log)) = false.
Proof.
  intros Hp. rewrite history_cons. case_decide; [|done]. apply not_true_iff_false. intros Hc%patient_cons. congruence.
Qed.

Lemma timed_ok_cons pend x log : timed_ok pend log -> timed_ok pend (x :: log).
Proof. intros Ht t f w to Hf Hw Hto. apply patient_history_cons. by apply (Ht t f w to). Qed.

(** Frames that do not wait make no difference. *)
Definition same_frames pend pend' : Prop :=
  forall t f w timeout, frame_wait f = Some (w, timeout) -> pend' !! t = Some f <-> pend !! t = Some f.

Lemma same_frames_refl pend : same_frames pend pend.
Proof. done. Qed.

Lemma same_frames_none pend cur r : pend !! cur = None -> same_frames pend (<[cur := FNone r]> pend).
Proof. intros Hn t f w to Hf. rewrite lookup_insert. case_decide; [|done]. subst t. split; [by intros [= <-]|congruence]. Qed.

Lemma same_frames_inside pend pend' w : same_frames pend pend' -> inside pend' w = inside pend w.
Proof.
  intros Hs. apply set_eq. intros t. rewrite !elem_of_inside.
  split; intros (f & to & Hf & Hw); exists f, to; (split; [by apply (Hs t f w to)|done]).
Qed.

(** Threads woken with success from one queue, or timed out. *)
Lemma vstep_seen (w0 : option wqid) W err k pend log k' pend' log' :
  kw k pend None -> ret_ok k pend -> timed_ok pend log -> seen W err k k' -> same_frames pend pend' ->
  (err = ERR_TIMED_OUT /\ timed pend k W \/
   err = NO_ERROR /\ forall t, t ∈ W -> exists w, Some w = w0 /\ t ∈ fq (k_queues k) (WaitQ w)) ->
  timed_ok pend log' -> (forall w, Some w <> w0 -> history w log' = history w log) ->
  vstep w0 k pend log k' pend' log'.
Proof.
  intros Hk Hr Ht Hs Hf Hwho Ht' Hh.
  assert (waiting k W) as Hw.
  { destruct Hwho as [[_ Hw]|[_ Hw]]; [by eapply timed_waiting|]. intros t Hin. destruct (Hw t Hin) as (w & _ & ?). eauto. }
  split.
  - intros t f w to Hp Hfw. apply (Hf t f w to Hfw) in Hp.
    rewrite (sn_waitq _ _ _ _ Hs), list_elem_of_filter.
    rewrite (seen_ret W err k k' t Hs) by (by apply (waiting_thread k pend None)). case_decide as E; [|].
    + intros _. destruct Hwho as [[-> Hti]|[-> _]]; [|by left]. right. split; [done|].
      destruct (Hti t E) as (f' & w' & to' & _ & Hp' & Hfw' & Hto). congruence.
    + intros Hn. apply (Hr t f w to); try done. tauto.
  - intros t f w to Hp Hfw. apply (Hf t f w to Hfw) in Hp. by apply (Ht' t f).
  - intros t f w to Hp Hfw. left. by apply (Hf t f w to).
  - apply Hs.
  - intros w Hne. split_and!; [by apply same_frames_inside| |by apply Hh| |].
    + rewrite (granted_seen W err k k' pend pend' w) by (done || by apply same_frames_inside).
      destruct Hwho as [[-> _]|[-> Hw0]]; simpl; [set_solver +|].
      rewrite (elem_of_nil_inv (filter _ W)); [set_solver +|]. intros t [Hq Hin]%list_elem_of_filter.
      destruct (Hw0 t Hin) as (w' & <- & Hq'). apply Hne. f_equal.
      by pose proof (wf_one _ (si_wf _ _ _ _ _ _ _ (kw_inv _ _ _ Hk)) _ _ _ Hq Hq') as [= ->].
    + intros E. by rewrite (sn_waitq _ _ _ _ Hs), E.
    + intros Hp. rewrite (sn_waitq _ _ _ _ Hs). apply filter_notin_none. intros t Hin Hq.
      destruct Hwho as [[_ Hti]|[_ Hw0]].
      * destruct (Hti t Hin) as (f & w' & to & Hq' & Hpf & Hfw & Hto).
        pose proof (wf_one _ (si_wf _ _ _ _ _ _ _ (kw_inv _ _ _ Hk)) _ _ _ Hq Hq') as [= ->].
        rewrite (Ht t f w' to Hpf Hfw Hto) in Hp. done.
      * destruct (Hw0 t Hin) as (w' & <- & Hq'). apply Hne. f_equal.
        by pose proof (wf_one _ (si_wf _ _ _ _ _ _ _ (kw_inv _ _ _ Hk)) _ _ _ Hq Hq') as [= ->].
Qed.

(** Blocking. *)
Lemma block_ret_blocked cpu w timeout cur k k' t :
  blocked_post cpu w timeout cur k k' -> t <> cur -> block_ret k' t = block_ret k t.
Proof.
  intros Hb Hne. pose proof (bp_threads _ _ _ _ _ _ Hb t) as Ht. unfold block_ret.
  destruct (k_threads k !! t), (k_threads k' !! t); try done. destruct Ht as [_ Ht].
  rewrite decide_False in Ht by done. simpl. by destruct Ht as [_ ->].
Qed.

Lemma granted_block cpu w timeout cur k k' pend f w' :
  blocked_post cpu w timeout cur k k' -> pend !! cur = None -> frame_wait f = Some (w, timeout) ->
  granted k' (<[cur := f]> pend) w' = granted k pend w'.
Proof.
  intros Hb Hn Hf. apply set_eq. intros t. rewrite !elem_of_granted, (bp_waitq _ _ _ _ _ _ Hb), inside_insert, Hf by done.
  pose proof (not_inside pend cur w' Hn) as Hni. destruct (decide (t = cur)) as [->|Hne].
  - split; [|tauto]. intros (Hin & Hq & _). rewrite decide_False in Hin; [done|]. simpl. intros [= ->].
    rewrite decide_True in Hq by done. set_solver +Hq.
  - rewrite (block_ret_blocked _ _ _ _ _ _ _ Hb Hne). simpl.
    destruct (decide (w' = w)) as [->|Hw]; [rewrite decide_True by done|rewrite decide_False by congruence]; set_solver +Hne.
Qed.

Lemma vstep_block cpu w timeout cur c k pend log k' :
  ret_ok k pend -> timed_ok pend log -> blocked_post cpu w timeout cur k k' -> pend !! cur = None ->
  frame_wait (frame_of c) = Some (w, timeout) -> call_wq c = Some w ->
  vstep (Some w) k pend log k' (<[cur := frame_of c]> pend) (Called cur c :: log).
Proof.
  intros Hr Ht Hb Hn Hf Hc. split.
  - intros t g w' to Hg Hgw Hq. rewrite (bp_waitq _ _ _ _ _ _ Hb) in Hq. rewrite lookup_insert in Hg. destruct (decide (cur = t)) as [<-|E].
    + injection Hg as <-. rewrite Hf in Hgw. injection Hgw as <- <-. rewrite decide_True in Hq by done.
      destruct Hq. set_solver +.
    + rewrite (block_ret_blocked _ _ _ _ _ _ t Hb) by congruence. apply (Hr t g w' to Hg Hgw).
      intros Hin. apply Hq. case_decide; [subst; set_solver +Hin|done].
  - intros t g w' to Hg Hgw Hto. rewrite lookup_insert in Hg. destruct (decide (cur = t)) as [<-|E].
    + injection Hg as <-. rewrite Hf in Hgw. injection Hgw as <- <-. rewrite history_cons.
      rewrite decide_True by done. unfold patient. simpl. rewrite Hf. by rewrite (proj2 (Z.eqb_neq _ _) Hto).
    + by apply (timed_ok_cons pend (Called cur c) log Ht t g w' to).
  - intros t g w' to Hg Hgw. rewrite lookup_insert in Hg. destruct (decide (cur = t)) as [<-|E]; [|by left]. right.
    injection Hg as <-. rewrite Hf in Hgw. by injection Hgw as <- _.
  - apply Hb.
  - intros w' Hne. split_and!.
    + rewrite inside_insert, Hf by done. by rewrite decide_False.
    + by apply (granted_block cpu w timeout).
    + rewrite history_cons. rewrite decide_False; [done|]. simpl. congruence.
    + rewrite (bp_waitq _ _ _ _ _ _ Hb), decide_False; [done|congruence].
    + intros _. rewrite (bp_waitq _ _ _ _ _ _ Hb), decide_False; [done|congruence].
Qed.

(** Returning. *)
Lemma granted_return k k' pend cur w : k_queues k' = k_queues k -> k_threads k' = k_threads k ->
  granted k' (delete cur pend) w = granted k pend w ∖ {[cur]}.
Proof.
  intros Eq Et. apply set_eq. intros t.
  rewrite elem_of_difference, !elem_of_granted, inside_delete. unfold block_ret. rewrite Eq, Et. set_solver.
Qed.

Lemma vstep_return k pend log k' cur f r (w0 : option wqid) :
  ret_ok k pend -> timed_ok pend log -> pend !! cur = Some f -> fst <$> frame_wait f = w0 ->
  k_queues k' = k_queues k -> k_threads k' = k_threads k -> k_waits k' = k_waits k ->
  vstep w0 k pend log k' (delete cur pend) (Resumed cur f r :: log).
Proof.
  intros Hr Ht Hf Hw0 Eq Et Ew. split.
  - intros t g w' to [_ Hg]%lookup_delete_Some Hgw. unfold block_ret. rewrite Eq, Et. by apply (Hr t g).
  - intros t g w' to [_ Hg]%lookup_delete_Some Hgw Hto. by apply (timed_ok_cons pend _ log Ht t g w' to).
  - intros t g w' to [_ Hg]%lookup_delete_Some Hgw. by left.
  - by rewrite Ew.
  - intros w' Hne. assert (cur ∉ inside pend w') as Hni.
    { rewrite elem_of_inside. intros (g & to & Hg & Hgw). rewrite Hf in Hg. injection Hg as <-.
      apply Hne. rewrite <- Hw0, Hgw. done. }
    split_and!.
    + rewrite inside_delete. set_solver +Hni.
    + rewrite (granted_return k k') by done. pose proof (granted_inside k pend w'). set_solver.
    + rewrite history_cons. rewrite decide_False; [done|]. simpl. congruence.
    + by rewrite Eq.
    + by rewrite Eq.
Qed.

(** ** One step of the machine on one object *)

Definition object_eq (o o' : os) w : Prop :=
  match w with
  | WMutex m => o_mutexes o' !! m = o_mutexes o !! m
  | WSem s => o_sems o' !! s = o_sems o !! s
  | WEvent e => o_events o' !! e = o_events o !! e
  | _ => True
  end.

Lemma obj_ok_view o0 o o' w I G q q' h : object_eq o o' w -> obj_ok o0 o w I G q h ->
  (q = [] -> q' = []) -> (patient h = true -> q' = q) -> obj_ok o0 o' w I G q' h.
Proof.
  destruct w as [t|m|s|e|p]; simpl; try done; intros ->.
  - intros (mu & ? & [H1 H2 H3 H4 H5 H6]) _ _. exists mu. by split.
  - intros (se0 & se & ? & ? & [H1 H2 H3]) _ Hp. exists se0, se. split_and!; [done|done|]. split; try done.
    intros Hh. rewrite Hp; auto.
  - intros (ev0 & ev & ? & ? & [H1 H2 H3 H4]) Hn _. exists ev0, ev. split_and!; [done|done|]. split; auto.
Qed.

Lemma minv_step (w0 : option wqid) o0 o o' pend pend' lock lock' log log' :
  minv o0 o pend lock log -> kw (o_k o') pend' lock' -> vstep w0 (o_k o) pend log (o_k o') pend' log' ->
  (forall w, Some w <> w0 -> object_eq o o' w) ->
  (forall w, Some w = w0 -> has_object o w /\ has_object o' w /\
     obj_ok o0 o' w (inside pend' w) (granted (o_k o') pend' w) (fq (k_queues (o_k o')) (WaitQ w)) (history w log')) ->
  minv o0 o' pend' lock' log'.
Proof.
  intros [M1 M2 M3 M4 M5 M6] Hk [V1 V2 V3 V4 V5] Ho Hw.
  assert (forall w, has_object o' w <-> has_object o w) as Hhas.
  { intros w. destruct (decide (Some w = w0)) as [E|E]; [destruct (Hw w E) as (? & ? & _); tauto|].
    specialize (Ho w E). destruct w; simpl in *; try done; by rewrite Ho. }
  split; try done.
  - intros t f w to Hf Hfw. rewrite Hhas. destruct (V3 t f w to Hf Hfw) as [Hf'|E]; [by apply (M4 t f w to)|].
    by apply Hw.
  - intros w Hob%Hhas. unfold alive. rewrite V4. by apply M5.
  - intros w Hob%Hhas. destruct (decide (Some w = w0)) as [E|E]; [by apply Hw|].
    destruct (V5 w E) as (-> & -> & -> & Hn & Hp). by apply (obj_ok_view _ o _ _ _ _ (fq (k_queues (o_k o)) (WaitQ w))); auto.
Qed.
End views.

(** ** Mutexes *)
Section mutex_facts.
Implicit Types (I G : gset tid) (q : list tid) (h : list observation) (mu : mutex) (cur : tid).

Lemma size_insert_notin I cur : cur ∉ I -> Z.of_nat (size ({[cur]} ∪ I)) = Z.of_nat (size I) + 1.
Proof. intros Hn. rewrite size_union by set_solver. rewrite size_singleton. lia. Qed.

Lemma size_remove I cur : cur ∈ I -> Z.of_nat (size (I ∖ {[cur]})) = Z.of_nat (size I) - 1.
Proof.
  intros Hin. pose proof (size_insert_notin (I ∖ {[cur]}) cur ltac:(set_solver +)) as Hs.
  replace ({[cur]} ∪ I ∖ {[cur]}) with I in Hs; [lia|]. apply union_difference_L. set_solver +Hin.
Qed.

Lemma mutex_take_free mu I G q h cur m timeout :
  mutex_ok mu I G q h -> m_count mu <= 0 -> G ⊆ I ->
  mutex_ok (Mutex (m_magic mu) (Some cur) (m_count mu + 1)) I G q
    (Returned cur (Acquire m timeout) NO_ERROR :: Called cur (Acquire m timeout) :: h).
Proof.
  intros [M1 M2 M3 M4 M5 M6] Hc HG. unfold held in *. pose proof (subseteq_size G I HG).
  destruct (m_holder mu); [lia|]. split; simpl; try done; unfold held; simpl; lia.
Qed.

Lemma mutex_block mu I G q q' h cur m timeout :
  mutex_ok mu I G q h -> 1 < m_count mu + 1 -> cur ∉ I ->
  mutex_ok (Mutex (m_magic mu) (m_holder mu) (m_count mu + 1)) ({[cur]} ∪ I) G q' (Called cur (Acquire m timeout) :: h).
Proof.
  intros [M1 M2 M3 M4 M5 M6] Hc Hn. unfold held in *. split; simpl; try done.
  - unfold held. simpl. rewrite size_insert_notin by done. lia.
  - intros Hp%patient_cons Hh HG. rewrite Hh in M2. rewrite (M6 Hp Hh HG), size_empty in M2. lia.
Qed.

Lemma mutex_give_up mu I G q h cur m timeout :
  mutex_ok mu I G q h ->
  mutex_ok (Mutex (m_magic mu) (m_holder mu) (m_count mu + 1 - 1)) I G q
    (Returned cur (Acquire m timeout) ERR_TIMED_OUT :: Called cur (Acquire m timeout) :: h).
Proof.
  intros [M1 M2 M3 M4 M5 M6]. split; simpl; try done; [unfold held in *; simpl; lia|].
  intros Hp%patient_cons%patient_cons. by apply M6.
Qed.

Lemma mutex_take_granted mu I G q h cur m timeout :
  mutex_ok mu I G q h -> cur ∈ G -> G ⊆ I ->
  mutex_ok (Mutex (m_magic mu) (Some cur) (m_count mu)) (I ∖ {[cur]}) (G ∖ {[cur]}) q
    (Resumed cur (FAcquire m timeout) NO_ERROR :: h).
Proof.
  intros [M1 M2 M3 M4 M5 M6] Hin HG. pose proof (size_remove G cur Hin) as HsG.
  pose proof (size_remove I cur (HG _ Hin)) as HsI. unfold held in *.
  destruct (m_holder mu) eqn:E; [lia|]. split; simpl; try done; unfold held; simpl; lia.
Qed.

Lemma mutex_back_out mu I G q h cur m timeout :
  mutex_ok mu I G q h -> cur ∈ I -> cur ∉ G -> patient h = false ->
  mutex_ok (Mutex (m_magic mu) (m_holder mu) (m_count mu - 1)) (I ∖ {[cur]}) (G ∖ {[cur]}) q
    (Resumed cur (FAcquire m timeout) ERR_TIMED_OUT :: h).
Proof.
  intros [M1 M2 M3 M4 M5 M6] Hin Hn Hp. assert (G ∖ {[cur]} = G) as -> by set_solver +Hn.
  split; simpl; try done; [unfold held in *; simpl; rewrite size_remove by done; lia|].
  intros Hp'%patient_cons. congruence.
Qed.

Lemma mutex_release_ok mu I G G' q q' h cur m :
  mutex_ok mu I G q h -> m_holder mu = Some cur -> (size G' <= 1)%nat ->
  (patient h = true -> G' = ∅ -> I = ∅) ->
  mutex_ok (Mutex (m_magic mu) None (m_count mu - 1)) I G' q' (Called cur (Release m) :: h).
Proof.
  intros [M1 M2 M3 M4 M5 M6] Hh HG Hp. unfold held in *. rewrite Hh in *.
  split; simpl; try done; unfold held; simpl; try lia. intros Hp'%patient_cons _. auto.
Qed.

Lemma mutex_released mu I G q h cur m r :
  mutex_ok mu I G q h -> mutex_ok mu I G q (Returned cur (Release m) r :: h).
Proof.
  intros [M1 M2 M3 M4 M5 M6]. split; simpl; try done; destruct (r =? NO_ERROR); done.
Qed.
End mutex_facts.
(** ** Semaphores *)
Section sem_facts.
Implicit Types (I G : gset tid) (q : list tid) (h : list observation) (se : semaphore) (cur : tid) (x y : observation).

Lemma number_cons P x h : number P (x :: h) = (if P x then 1 else 0) + number P h.
Proof. unfold number. rewrite filter_cons. by destruct (P x); simpl; lia. Qed.

Lemma sem_take value se I G q h x y :
  sem_ok value se I G q h -> 0 <= s_count se - 1 -> G ⊆ I -> takes x = true -> puts x = false ->
  takes y = false -> puts y = false ->
  sem_ok value (Semaphore (s_magic se) (s_count se - 1)) I G q (x :: y :: h).
Proof.
  intros [S1 S2 S3] Hc HG Tx Px Ty Py. pose proof (subseteq_size G I HG).
  split; rewrite ?number_cons, ?Tx, ?Px, ?Ty, ?Py; simpl; try lia.
  intros Hp%patient_cons%patient_cons. specialize (S3 Hp). lia.
Qed.

(** Entries that neither put nor take. *)
Lemma sem_neutral value se I G q h x : sem_ok value se I G q h -> takes x = false -> puts x = false ->
  sem_ok value se I G q (x :: h).
Proof.
  intros [S1 S2 S3] Tx Px. split; rewrite ?number_cons, ?Tx, ?Px; simpl; try lia.
  intros Hp%patient_cons. auto.
Qed.

Lemma sem_block value se I G q h x cur :
  sem_ok value se I G q h -> s_count se - 1 < 0 -> cur ∉ I -> takes x = false -> puts x = false ->
  sem_ok value (Semaphore (s_magic se) (s_count se - 1)) ({[cur]} ∪ I) G (q ++ [cur]) (x :: h).
Proof.
  intros [S1 S2 S3] Hc Hn Tx Px. split; rewrite ?number_cons, ?Tx, ?Px, ?size_insert_notin by done; simpl; try lia.
  intros Hp%patient_cons. specialize (S3 Hp). rewrite length_app. simpl. lia.
Qed.

Lemma sem_put value se I G q h x W :
  sem_ok value se I G q h -> takes x = false -> puts x = true -> (length W <= 1)%nat -> (forall t, t ∈ W -> t ∈ q) ->
  NoDup q -> (W = [] -> q = [] \/ 0 < s_count se + 1) -> (0 < s_count se + 1 -> W = []) -> Forall (fun t => t ∉ G) W ->
  sem_ok value (Semaphore (s_magic se) (s_count se + 1)) I (G ∪ list_to_set W) (filter (fun t => t ∉ W) q) (x :: h).
Proof.
  intros [S1 S2 S3] Tx Px HlW HW Hnd Hn1 Hn2 HG.
  assert (Z.of_nat (size (G ∪ list_to_set W)) = Z.of_nat (size G) + Z.of_nat (length W) /\
    Z.of_nat (length (filter (fun t => t ∉ W) q)) = Z.of_nat (length q) - Z.of_nat (length W)) as [E1 E2].
  { destruct W as [|t [|]]; simpl in HlW; [| |lia].
    - rewrite filter_notin_nil. simpl. rewrite union_empty_r_L. lia.
    - rewrite Forall_singleton in HG. split.
      + simpl. rewrite union_empty_r_L, (comm_L (∪)), size_insert_notin by done. lia.
      + assert (t ∈ q) as (l1 & l2 & ->)%list_elem_of_split by (apply HW; set_solver +).
        apply NoDup_app in Hnd as (_ & Hd1 & [Hd2 _]%NoDup_cons).
        rewrite filter_app, filter_cons, decide_False by set_solver +.
        rewrite !filter_notin_none, !length_app; simpl; [lia|..].
        * intros t' ->%list_elem_of_singleton. done.
        * intros t' ->%list_elem_of_singleton Hin. apply (Hd1 t Hin). set_solver +. }
  split; rewrite ?number_cons, ?Tx, ?Px; simpl; try lia.
  intros Hp%patient_cons. specialize (S3 Hp). rewrite E2.
  destruct (decide (W = [])) as [HW0|HW0].
  - destruct (Hn1 HW0) as [Hq|Hc]; [rewrite Hq in S3 |- *|]; subst W; simpl in *; lia.
  - assert (s_count se + 1 <= 0) by (apply Z.nlt_ge; auto). destruct W; [done|]. simpl in *. lia.
Qed.

Lemma sem_take_granted value se I G q h cur x :
  sem_ok value se I G q h -> cur ∈ G -> G ⊆ I -> takes x = true -> puts x = false ->
  sem_ok value se (I ∖ {[cur]}) (G ∖ {[cur]}) q (x :: h).
Proof.
  intros [S1 S2 S3] Hin HG Tx Px. split; rewrite ?number_cons, ?Tx, ?Px, ?size_remove by auto; try lia.
  intros Hp%patient_cons. auto.
Qed.

Lemma sem_back_out value se I G q h cur x :
  sem_ok value se I G q h -> cur ∈ I -> cur ∉ G -> patient h = false -> takes x = false -> puts x = false ->
  sem_ok value (Semaphore (s_magic se) (s_count se + 1)) (I ∖ {[cur]}) (G ∖ {[cur]}) q (x :: h).
Proof.
  intros [S1 S2 S3] Hin Hn Hp Tx Px. assert (G ∖ {[cur]} = G) as -> by set_solver +Hn.
  split; rewrite ?number_cons, ?Tx, ?Px, ?size_remove by done; simpl; try lia. intros Hp'%patient_cons. congruence.
Qed.
End sem_facts.

(** ** Events *)
Section event_facts.
Implicit Types (I G : gset tid) (q : list tid) (h : list observation) (ev : event) (cur : tid) (x y : observation).

(** Threads may leave, and the queue change while the event is not signaled. *)
Lemma event_neutral initial flags ev I I' G G' q q' h x :
  event_ok initial flags ev I G q h -> takes x = false -> G' ⊆ G -> (e_signaled ev = true -> q = [] -> q' = []) ->
  event_ok initial flags ev I' G' q' (x :: h).
Proof.
  intros [E1 E2 E3 E4] Tx HG Hq. pose proof (subseteq_size G' G HG). split; auto. intros Ha. specialize (E4 Ha).
  rewrite !number_cons, Tx. destruct (puts x); lia.
Qed.

Lemma event_take_signal initial flags ev I G q h x y :
  event_ok initial flags ev I G q h -> e_signaled ev = true -> takes x = true -> puts x = false ->
  takes y = false -> puts y = false ->
  event_ok initial flags (Event (e_magic ev) (negb (autounsignal ev)) (e_flags ev)) I G q (x :: y :: h).
Proof.
  intros [E1 E2 E3 E4] Hs Tx Px Ty Py. split; simpl; auto. change (autounsignal (Event _ _ (e_flags ev))) with (autounsignal ev).
  intros Ha. specialize (E4 Ha). rewrite Ha, !number_cons, Tx, Px, Ty, Py. simpl. rewrite Hs in E4. lia.
Qed.

Lemma event_take_granted initial flags ev I I' G q h x cur :
  event_ok initial flags ev I G q h -> cur ∈ G -> takes x = true -> puts x = false ->
  event_ok initial flags ev I' (G ∖ {[cur]}) q (x :: h).
Proof.
  intros [E1 E2 E3 E4] Hin Tx Px. split; auto. intros Ha. specialize (E4 Ha).
  rewrite !number_cons, Tx, Px, size_remove by done. lia.
Qed.

Lemma event_set initial flags ev I G q h x (b : bool) :
  event_ok initial flags ev I G q h -> takes x = false -> (if b then puts x = true /\ q = [] else True) ->
  event_ok initial flags (Event (e_magic ev) b (e_flags ev)) I G q (x :: h).
Proof.
  intros [E1 E2 E3 E4] Tx Hb. split; simpl; auto; [by intros ->; apply Hb|].
  change (autounsignal (Event _ _ (e_flags ev))) with (autounsignal ev).
  intros Ha. specialize (E4 Ha). rewrite !number_cons, Tx.
  destruct b; [destruct Hb as [-> _]|destruct (puts x)]; destruct (e_signaled ev); lia.
Qed.

Lemma event_wake_one initial flags ev I G q h x t :
  event_ok initial flags ev I G q h -> e_signaled ev = false -> takes x = false -> puts x = true ->
  event_ok initial flags ev I (G ∪ {[t]}) (filter (fun t' => t' ∉ [t]) q) (x :: h).
Proof.
  intros [E1 E2 E3 E4] Hs Tx Px. split; auto; [by rewrite Hs|]. intros Ha. specialize (E4 Ha).
  rewrite !number_cons, Tx, Px. pose proof (size_union_alt G {[t]}) as Hu.
  pose proof (subseteq_size ({[t]} ∖ G) {[t]} ltac:(set_solver +)) as Hle. rewrite size_singleton in Hle. lia.
Qed.

Lemma event_wake_all initial flags ev I G G' q h x :
  event_ok initial flags ev I G q h -> autounsignal ev = false -> takes x = false ->
  event_ok initial flags (Event (e_magic ev) true (e_flags ev)) I G' (filter (fun t => t ∉ q) q) (x :: h).
Proof.
  intros [E1 E2 E3 E4] Ha Tx. split; simpl; auto; [by intros _; apply filter_notin_self|].
  change (autounsignal (Event _ _ (e_flags ev))) with (autounsignal ev). by rewrite Ha.
Qed.
End event_facts.

Lemma kern_wp {A} (m : M kstate A) (Q : A -> os -> Prop) o :
  wp m (fun a k => Q a (on_k (fun _ => k) o)) (o_k o) -> wp (kern m) Q o.
Proof. unfold wp, kern. by destruct (m (o_k o)). Qed.

Lemma get_mutex_wp o m mu (Q : mutex -> os -> Prop) : o_mutexes o !! m = Some mu -> Q mu o -> wp (get_mutex m) Q o.
Proof. intros Hm HQ. unfold get_mutex. by repeat wp_step. Qed.

Lemma get_sem_wp o s se (Q : semaphore -> os -> Prop) : o_sems o !! s = Some se -> Q se o -> wp (get_sem s) Q o.
Proof. intros Hm HQ. unfold get_sem. by repeat wp_step. Qed.

Lemma get_event_wp o e ev (Q : event -> os -> Prop) : o_events o !! e = Some ev -> Q ev o -> wp (get_event e) Q o.
Proof. intros Hm HQ. unfold get_event. by repeat wp_step. Qed.

(** What a call leaves: the invariant, with the frame of a call that has been switched away. *)
Definition enter_post o0 pend log (cpu : nat) (cur : tid) (c : call) (r : option Z) (o' : os) : Prop :=
  match r with
  | Some v => minv o0 o' pend None (Returned cur c v :: Called cur c :: log)
  | None => minv o0 o' (<[cur := frame_of c]> pend) (Some cpu) (Called cur c :: log)
  end.

Section calls.
Context (o0 o : os) (pend : gmap tid frame) (log : list observation) (cpu : nat) (cur : tid).
Context (Hm : minv o0 o pend None log) (Hcur : k_current (o_k o) !! cpu = Some cur) (Hni : is_idle_tid cur = false).
Let k := o_k o.
Let post := enter_post o0 pend log cpu cur.

Lemma caller_pend : pend !! cur = None.
Proof using Hm Hcur. by apply (kw_current_pend k pend cpu cur), Hcur; apply Hm. Qed.

Lemma seen_nil err err' k1 k2 : seen [] err k1 k2 -> seen [] err' k1 k2.
Proof. intros [S1 S2 S3]. by split. Qed.

Lemma on_k_same : on_k (fun _ => k) o = o.
Proof. by destruct o. Qed.

(** Calls that name no object. *)
Lemma enter_plain c k' pend' lock' log' :
  call_wq c = None -> seen [] NO_ERROR k k' -> same_frames pend pend' -> kw k' pend' lock' ->
  log' = [Called cur c] \/ (exists r, log' = [Returned cur c r; Called cur c]) ->
  minv o0 (on_k (fun _ => k') o) pend' lock' (log' ++ log).
Proof using Hm Hcur.
  intros Hc Hs Hf Hk Hlog. apply (minv_step None o0 o _ pend pend' None lock' log); [done|done| |by intros []|done].
  apply (vstep_seen None [] ERR_TIMED_OUT); try apply Hm; try done.
  - by apply (seen_nil NO_ERROR).
  - left. split; [done|apply timed_nil].
  - destruct Hlog as [->|[r ->]]; simpl; repeat apply timed_ok_cons; apply Hm.
  - intros w _. destruct Hlog as [->|[r ->]]; simpl; rewrite !history_cons; simpl; rewrite Hc; by rewrite ?decide_False by done.
Qed.

Lemma enter_yield : wp (enter cpu Yield) (post Yield) o.
Proof using Hm Hcur Hni.
  unfold enter, always. wp_step. apply kern_wp. eapply wp_mono; [apply (yield_wp cpu cur pend k (mi_kw _ _ _ _ _ Hm) Hcur Hni 0)|].
  intros ? k' [Hk Hs]. wp_step. apply (enter_plain Yield k' _ _ [_]); eauto using same_frames_none, caller_pend.
Qed.

Lemma enter_sleep delay : 0 <= delay < 2 ^ 30 -> wp (enter cpu (Sleep delay)) (post (Sleep delay)) o.
Proof using Hm Hcur Hni.
  intros Hd. unfold enter, always. wp_step. apply kern_wp.
  eapply wp_mono; [apply (sleep_wp cpu cur pend k (mi_kw _ _ _ _ _ Hm) Hcur Hni delay 0 Hd)|].
  intros ? k' [Hk Hs]. wp_step. apply (enter_plain (Sleep delay) k' _ _ [_]); eauto using same_frames_none, caller_pend.
Qed.

Lemma enter_set_priority p : wp (enter cpu (SetPriority p)) (post (SetPriority p)) o.
Proof using Hm Hcur Hni.
  unfold enter, always. wp_step. apply kern_wp.
  eapply wp_mono; [apply (set_priority_wp cpu cur pend k (mi_kw _ _ _ _ _ Hm) Hcur Hni p 0)|].
  intros ? k' [Hk Hs]. wp_step. apply (enter_plain (SetPriority p) k' _ _ [_]); eauto using same_frames_none, caller_pend.
Qed.

(** Calls that end at once, on the object of [w], with the scheduler untouched. *)
Lemma enter_object c w o' r :
  call_wq c = Some w -> o_k o' = k -> has_object o w -> has_object o' w ->
  (forall w', w' <> w -> object_eq o o' w') ->
  obj_ok o0 o' w (inside pend w) (granted k pend w) (fq (k_queues k) (WaitQ w))
    (Returned cur c r :: Called cur c :: history w log) ->
  post c (Some r) o'.
Proof using Hm Hcur.
  intros Hc Ek Ho Ho' Hoth Hok. apply (minv_step (Some w) o0 o o' pend pend None None log).
  - done.
  - rewrite Ek. apply Hm.
  - rewrite Ek. apply (vstep_seen (Some w) [] NO_ERROR); try apply Hm; try done.
    + apply seen_refl.
    + right. split; [done|]. intros t Hin. set_solver +Hin.
    + do 2 apply timed_ok_cons. apply Hm.
    + intros w' Hne. rewrite !history_cons. simpl. rewrite Hc. by rewrite !decide_False by congruence.
  - intros w' Hne. apply Hoth. congruence.
  - intros w' [= ->]. split_and!; [done|done|]. rewrite Ek, !history_cons. simpl. by rewrite Hc, !decide_True by done.
Qed.

(** Calls that block on the object of [w]. *)
Lemma enter_blocks c w timeout o' k' :
  call_wq c = Some w -> frame_wait (frame_of c) = Some (w, timeout) -> blocked_post cpu w timeout cur k k' ->
  kw k' (<[cur := frame_of c]> pend) (Some cpu) -> o_k o' = k' -> has_object o w -> has_object o' w ->
  (forall w', w' <> w -> object_eq o o' w') ->
  obj_ok o0 o' w ({[cur]} ∪ inside pend w) (granted k pend w) (fq (k_queues k) (WaitQ w) ++ [cur])
    (Called cur c :: history w log) ->
  post c None o'.
Proof using Hm Hcur.
  intros Hc Hf Hb Hk' Ek Ho Ho' Hoth Hok. subst k'. pose proof caller_pend as Hn.
  apply (minv_step (Some w) o0 o o' pend _ None _ log); try done.
  - by apply (vstep_block cpu w timeout); [apply Hm|apply Hm|..].
  - intros w' Hne. apply Hoth. congruence.
  - intros w' [= ->]. split_and!; [done|done|]. rewrite history_cons. simpl. rewrite Hc, decide_True by done.
    rewrite inside_insert, Hf, decide_True by done. rewrite (granted_block cpu w timeout cur k) by done.
    by rewrite (bp_waitq _ _ _ _ _ _ Hb), decide_True by done.
Qed.

Lemma filter_all_in (q W : list tid) : (forall t, t ∈ W -> t ∈ q) -> filter (fun t => t ∈ q) W = W.
Proof.
  induction W as [|x W IH]; intros Hq; [done|]. rewrite filter_cons, decide_True by (apply Hq; set_solver +).
  f_equal. apply IH. intros t Ht. apply Hq. set_solver +Ht.
Qed.

(** Calls that wake threads of [w], and may be switched away. *)
Lemma enter_wakes c w W o' k' (r : option Z) :
  call_wq c = Some w -> seen W NO_ERROR k k' -> (forall t, t ∈ W -> t ∈ fq (k_queues k) (WaitQ w)) ->
  match r with
  | Some _ => kw k' pend None
  | None => (exists v, frame_of c = FNone v) /\ kw k' (<[cur := frame_of c]> pend) (Some cpu)
  end ->
  o_k o' = k' -> has_object o w -> has_object o' w ->
  (forall w', w' <> w -> object_eq o o' w') ->
  obj_ok o0 o' w (inside pend w) (granted k pend w ∪ list_to_set W) (filter (fun t => t ∉ W) (fq (k_queues k) (WaitQ w)))
    (match r with Some v => [Returned cur c v] | None => [] end ++ Called cur c :: history w log) ->
  post c r o'.
Proof using Hm Hcur.
  intros Hc Hs HW Hk' Ek Ho Ho' Hoth Hok. subst k'. pose proof caller_pend as Hn.
  set (pend' := match r with Some _ => pend | None => <[cur := frame_of c]> pend end).
  set (lock' := match r with Some _ => None | None => Some cpu end).
  assert (kw (o_k o') pend' lock') as Hkw by (destruct r; [done|apply Hk']).
  assert (same_frames pend pend') as Hsf.
  { destruct r; [done|]. destruct Hk' as [[v Ev] _]. unfold pend'. rewrite Ev. by apply same_frames_none. }
  assert (minv o0 o' pend' lock' (match r with Some v => [Returned cur c v] | None => [] end ++ Called cur c :: log)) as Hres.
  { apply (minv_step (Some w) o0 o o' pend _ None _ log); try done.
    - apply (vstep_seen (Some w) W NO_ERROR); try apply Hm; try done.
      + right. split; [done|]. intros t Hin. exists w. auto.
      + destruct r; simpl; repeat apply timed_ok_cons; apply Hm.
      + intros w' Hne. destruct r; simpl; rewrite !history_cons; simpl; rewrite Hc; by rewrite !decide_False by congruence.
    - intros w' Hne. apply Hoth. congruence.
    - intros w' [= ->]. split_and!; [done|done|].
      rewrite (granted_seen W NO_ERROR k (o_k o') pend pend' w); [|apply Hm|done| |by apply same_frames_inside].
      + rewrite (same_frames_inside pend pend' w Hsf), (sn_waitq _ _ _ _ Hs). cbn [Z.eqb NO_ERROR].
        rewrite (filter_all_in _ W) by done.
        destruct r; simpl; rewrite !history_cons; simpl; rewrite Hc; by rewrite !decide_True by done.
      + intros t Hin. eauto. }
  by destruct r.
Qed.


Lemma set_mutex_ok m mu mu' I G q h :
  mutex_ok mu' I G q h -> obj_ok o0 (on_mutexes (<[m := mu']>) (on_mutexes (<[m := mu]>) o)) (WMutex m) I G q h.
Proof. intros Hok. exists mu'. split; [apply lookup_insert_eq|done]. Qed.

Lemma mutex_found m mu : o_mutexes o !! m = Some mu ->
  has_object o (WMutex m) /\ alive k (WMutex m) /\
  mutex_ok mu (inside pend (WMutex m)) (granted k pend (WMutex m)) (fq (k_queues k) (WaitQ (WMutex m)))
    (history (WMutex m) log).
Proof using Hm.
  intros Hmu. assert (has_object o (WMutex m)) as Ho by (simpl; eauto). split_and!; [done|by apply Hm|].
  destruct (mi_ok _ _ _ _ _ Hm _ Ho) as (mu' & Hmu' & Hok). rewrite Hmu in Hmu'. by injection Hmu' as <-.
Qed.

Definition finished (cur : tid) (r : Z) (mu : mutex) : mutex :=
  if r =? NO_ERROR then Mutex (m_magic mu) (Some cur) (m_count mu) else Mutex (m_magic mu) (m_holder mu) (m_count mu - 1).

Lemma acquire_finish_wp o1 m mu r t (Q : Z -> os -> Prop) :
  o_mutexes o1 !! m = Some mu -> k_current (o_k o1) !! cpu = Some t -> r = NO_ERROR \/ r = ERR_TIMED_OUT ->
  Q r (on_mutexes (<[m := finished t r mu]>) o1) -> wp (mutex_acquire_finish cpu m r) Q o1.
Proof using.
  intros Hmu Hc Hr HQ. unfold mutex_acquire_finish. wp_step. destruct Hr as [-> | ->]; cbn.
  - wp_step. apply kern_wp, (get_current_wp _ _ t); [done|]. replace (on_k _ o1) with o1 by (by destruct o1).
    wp_step. apply (get_mutex_wp _ _ mu); [done|]. unfold set_mutex. by repeat wp_step.
  - wp_step. apply (get_mutex_wp _ _ mu); [done|]. unfold set_mutex. by repeat wp_step.
Qed.

Lemma enter_acquire m mu timeout : o_mutexes o !! m = Some mu -> m_holder mu <> Some cur -> timeout_ok timeout ->
  wp (enter cpu (Acquire m timeout)) (post (Acquire m timeout)) o.
Proof using Hm Hcur Hni.
  intros Hmu Hh Hto. destruct (mutex_found m mu Hmu) as (Ho & Hal & Hok).
  unfold enter, mutex_acquire_timeout_enter. wp_step. apply (get_mutex_wp _ _ mu); [done|].
  do 2 wp_step; [by rewrite (mo_magic _ _ _ _ _ Hok)|]. wp_step. apply kern_wp, (get_current_wp _ _ cur); [done|].
  rewrite bool_decide_false by done. wp_step. unfold set_mutex. wp_step.
  set (mu1 := Mutex (m_magic mu) (m_holder mu) (m_count mu + 1)).
  destruct (1 <? m_count mu + 1) eqn:E; [apply Z.ltb_lt in E|apply Z.ltb_ge in E].
  - wp_step. apply kern_wp. eapply wp_mono.
    { apply (block_wp cpu cur pend k (mi_kw _ _ _ _ _ Hm) Hcur Hni (WMutex m) timeout (frame_of (Acquire m timeout))); done. }
    intros r k'. destruct (timeout =? 0).
    + intros [-> ->]. wp_step. apply (acquire_finish_wp _ m mu1 _ cur); [apply lookup_insert_eq|done|by right|]. wp_step.
      apply (enter_object (Acquire m timeout) (WMutex m)); try done.
      * simpl. rewrite lookup_insert_eq. eauto.
      * intros w' Hne. destruct w'; simpl; try done. by rewrite !lookup_insert_ne by congruence.
      * apply (set_mutex_ok m mu1). by apply (mutex_give_up mu).
    + intros (-> & Hk' & Hb). wp_step.
      apply (enter_blocks (Acquire m timeout) (WMutex m) timeout _ k'); try done.
      * simpl. rewrite lookup_insert_eq. eauto.
      * intros w' Hne. destruct w'; simpl; try done. by rewrite !lookup_insert_ne by congruence.
      * exists mu1. split; [apply lookup_insert_eq|]. apply (mutex_block mu _ _ (fq (k_queues k) (WaitQ (WMutex m)))); try done.
        apply not_inside, caller_pend.
  - wp_step. apply (acquire_finish_wp _ m mu1 _ cur); [apply lookup_insert_eq|done|by left|]. wp_step.
    apply (enter_object (Acquire m timeout) (WMutex m)); try done.
    + simpl. rewrite lookup_insert_eq. eauto.
    + intros w' Hne. destruct w'; simpl; try done. by rewrite !lookup_insert_ne by congruence.
    + apply (set_mutex_ok m mu1). apply (mutex_take_free mu); [done|lia|apply granted_inside].
Qed.

(** The threads inside that have neither been granted nor timed out are in the queue. *)
Lemma inside_queued m : patient (history m log) = true -> granted k pend m = ∅ -> fq (k_queues k) (WaitQ m) = [] ->
  inside pend m = ∅.
Proof using Hm.
  intros Hp HG Hq. apply set_eq. intros t. split; [|set_solver +]. intros Hin.
  pose proof Hin as (f & to & Hf & Hw)%elem_of_inside.
  destruct (mi_ret _ _ _ _ _ Hm t f m to Hf Hw) as [Hr|[_ Hto]].
  - fold k. rewrite Hq. set_solver +.
  - rewrite <- HG. apply elem_of_granted. split_and!; [done| |done]. rewrite Hq. set_solver +.
  - rewrite (mi_timed _ _ _ _ _ Hm t f m to Hf Hw Hto) in Hp. done.
Qed.

Lemma queue_empty w : inside pend w = ∅ -> fq (k_queues k) (WaitQ w) = [].
Proof using Hm.
  intros HI. apply elem_of_nil_inv. intros t Hin.
  destruct (kw_wait _ _ _ (mi_kw _ _ _ _ _ Hm) t w Hin) as (f & to & Hf & Hw).
  assert (t ∈ inside pend w) as Ht by (apply elem_of_inside; eauto). rewrite HI in Ht. set_solver +Ht.
Qed.

Lemma enter_release m mu : o_mutexes o !! m = Some mu -> m_holder mu = Some cur ->
  wp (enter cpu (Release m)) (post (Release m)) o.
Proof using Hm Hcur Hni.
  intros Hmu Hh. destruct (mutex_found m mu Hmu) as (Ho & Hal & Hok).
  pose proof (mo_one _ _ _ _ _ Hok) as HG. unfold held in HG. rewrite Hh in HG.
  assert (granted k pend (WMutex m) = ∅) as EG by (apply leibniz_equiv, size_empty_inv; lia).
  pose proof (mo_count _ _ _ _ _ Hok) as Hcnt. unfold held in Hcnt. rewrite Hh in Hcnt.
  unfold enter, mutex_release_enter. wp_step. apply (get_mutex_wp _ _ mu); [done|].
  do 2 wp_step; [by rewrite (mo_magic _ _ _ _ _ Hok)|]. wp_step. apply kern_wp, (get_current_wp _ _ cur); [done|].
  rewrite bool_decide_false by auto. wp_step. unfold set_mutex. wp_step.
  set (mu1 := Mutex (m_magic mu) None (m_count mu - 1)). set (q := fq (k_queues k) (WaitQ (WMutex m))).
  assert (forall W r o' k', seen W NO_ERROR k k' -> (forall t, t ∈ W -> t ∈ q) -> (length W <= 1)%nat ->
    (W = [] -> q = []) ->
    match r with Some _ => kw k' pend None | None => kw k' (<[cur := FNone 0]> pend) (Some cpu) end ->
    o' = on_k (fun _ => k') (on_mutexes (<[m := mu1]>) o) -> post (Release m) r o') as Hfin.
  { intros W r o' k' Hs HW HlW HWq Hk' ->. apply (enter_wakes (Release m) (WMutex m) W _ k'); try done.
    - destruct r; [done|]. split; [by exists 0|done].
    - simpl. rewrite lookup_insert_eq. eauto.
    - intros w' Hne. destruct w'; simpl; try done. by rewrite !lookup_insert_ne by congruence.
    - exists mu1. split; [apply lookup_insert_eq|].
      assert (mutex_ok mu1 (inside pend (WMutex m)) (granted k pend (WMutex m) ∪ list_to_set W)
        (filter (fun t => t ∉ W) q) (Called cur (Release m) :: history (WMutex m) log)) as H1.
      { apply (mutex_release_ok mu _ (granted k pend (WMutex m)) _ q); [done|done| |].
        - rewrite EG, union_empty_l_L. destruct W as [|t [|]]; [| |simpl in HlW; lia].
          + change (size (∅ : gset tid) <= 1)%nat. rewrite size_empty. lia.
          + change (size ({[t]} ∪ ∅ : gset tid) <= 1)%nat. rewrite union_empty_r_L, size_singleton. lia.
        - intros Hp HG'. apply inside_queued; [done|done|]. apply HWq. destruct W; [done|]. set_solver +HG'. }
      destruct r; [by apply mutex_released|done]. }
  destruct (1 <=? m_count mu - 1) eqn:E.
  - wp_step. apply kern_wp. eapply wp_mono; [apply (wake_one_wp cpu cur pend k (mi_kw _ _ _ _ _ Hm) Hcur Hni (WMutex m) true 0 Hal)|].
    fold q. intros n k'. destruct q as [|t l] eqn:Eq.
    + intros [-> ->]. wp_step. apply (Hfin [] (Some NO_ERROR) _ k); try done; [apply seen_refl|simpl; lia|apply Hm].
    + intros (-> & Hs & Hk'). wp_step. apply (Hfin [t] None _ k'); try done. set_solver +.
  - wp_step. apply (Hfin [] (Some NO_ERROR) _ k); try done; [apply seen_refl|set_solver +|simpl; lia| |apply Hm].
    intros _. apply Z.leb_gt in E. apply queue_empty. apply leibniz_equiv, size_empty_inv. lia.
Qed.

Lemma sem_found s se : o_sems o !! s = Some se ->
  has_object o (WSem s) /\ alive k (WSem s) /\ exists se0, o_sems o0 !! s = Some se0 /\
  sem_ok (s_count se0) se (inside pend (WSem s)) (granted k pend (WSem s)) (fq (k_queues k) (WaitQ (WSem s)))
    (history (WSem s) log).
Proof using Hm.
  intros Hse. assert (has_object o (WSem s)) as Ho by (simpl; eauto). split_and!; [done|by apply Hm|].
  destruct (mi_ok _ _ _ _ _ Hm _ Ho) as (se0 & se' & H0 & Hse' & Hok). rewrite Hse in Hse'. injection Hse' as <-. eauto.
Qed.

Lemma other_sem s se' o' w' : w' <> WSem s -> o_mutexes o' = o_mutexes o -> o_events o' = o_events o ->
  o_sems o' = <[s := se']> (o_sems o) -> object_eq o o' w'.
Proof. intros Hne E1 E2 E3. destruct w'; simpl; rewrite ?E1, ?E2, ?E3; try done. by rewrite lookup_insert_ne by congruence. Qed.

Lemma set_sem_ok s se0 se' o' I G q h : o_sems o0 !! s = Some se0 -> o_sems o' = <[s := se']> (o_sems o) ->
  sem_ok (s_count se0) se' I G q h -> obj_ok o0 o' (WSem s) I G q h.
Proof. intros H0 E Hok. exists se0, se'. split_and!; [done|rewrite E; apply lookup_insert_eq|done]. Qed.

Lemma set_sem_has s se' o' : o_sems o' = <[s := se']> (o_sems o) -> has_object o' (WSem s).
Proof. intros E. simpl. rewrite E, lookup_insert_eq. eauto. Qed.

Lemma object_eq_refl w (w' : wqid) : w' <> w -> object_eq o o w'.
Proof. by destruct w'. Qed.

Lemma put_back_sem s se se1 : o_sems o !! s = Some se ->
  on_sems (<[s := se]>) (on_k (fun _ => k) (on_sems (<[s := se1]>) o)) = o.
Proof.
  unfold k. destruct o as [k0 ms ss es]. simpl. intros Hs. unfold on_sems, on_k. simpl.
  by rewrite insert_insert_eq, insert_id by done.
Qed.

Lemma enter_sem_wait s se : o_sems o !! s = Some se -> wp (enter cpu (SemWait s)) (post (SemWait s)) o.
Proof using Hm Hcur Hni.
  intros Hse. destruct (sem_found s se Hse) as (Ho & Hal & se0 & H0 & Hok).
  unfold enter, sem_wait_enter. wp_step. apply (get_sem_wp _ _ se); [done|]. unfold set_sem. wp_step. wp_step.
  set (se1 := Semaphore (s_magic se) (s_count se - 1)).
  destruct (s_count se - 1 <? 0) eqn:E; [apply Z.ltb_lt in E|apply Z.ltb_ge in E].
  - apply kern_wp. eapply wp_mono.
    { apply (block_wp cpu cur pend k (mi_kw _ _ _ _ _ Hm) Hcur Hni (WSem s) INFINITE_TIME (frame_of (SemWait s))); [done|by left|done]. }
    intros r k' (-> & Hk' & Hb). apply (enter_blocks (SemWait s) (WSem s) INFINITE_TIME _ k'); try done.
    + by eapply set_sem_has.
    + intros w' Hne. by apply (other_sem s se1).
    + apply (set_sem_ok s se0 se1); [done|done|]. apply sem_block; try done. apply not_inside, caller_pend.
  - wp_step. apply (enter_object (SemWait s) (WSem s)); try done.
    + by eapply set_sem_has.
    + intros w' Hne. by apply (other_sem s se1).
    + apply (set_sem_ok s se0 se1); [done|done|]. apply sem_take; try done. apply granted_inside.
Qed.

Lemma enter_sem_trywait s se : o_sems o !! s = Some se -> wp (enter cpu (SemTryWait s)) (post (SemTryWait s)) o.
Proof using Hm Hcur.
  intros Hse. destruct (sem_found s se Hse) as (Ho & Hal & se0 & H0 & Hok).
  unfold enter, sem_trywait. do 2 wp_step. apply (get_sem_wp _ _ se); [done|].
  set (se1 := Semaphore (s_magic se) (s_count se - 1)).
  destruct (s_count se <=? 0) eqn:E; [|apply Z.leb_gt in E].
  - repeat wp_step. apply (enter_object (SemTryWait s) (WSem s)); try done; [apply object_eq_refl|].
    exists se0, se. split_and!; [done|done|]. by apply sem_neutral; [apply sem_neutral|..].
  - unfold set_sem. repeat wp_step. apply (enter_object (SemTryWait s) (WSem s)); try done.
    + by eapply set_sem_has.
    + intros w' Hne. by apply (other_sem s se1).
    + apply (set_sem_ok s se0 se1); [done|done|]. apply sem_take; try done; [lia|apply granted_inside].
Qed.

Lemma enter_sem_timedwait s se timeout : o_sems o !! s = Some se -> timeout_ok timeout ->
  wp (enter cpu (SemTimedWait s timeout)) (post (SemTimedWait s timeout)) o.
Proof using Hm Hcur Hni.
  intros Hse Hto. destruct (sem_found s se Hse) as (Ho & Hal & se0 & H0 & Hok).
  unfold enter, sem_timedwait_enter. wp_step. apply (get_sem_wp _ _ se); [done|]. unfold set_sem. wp_step. wp_step.
  set (se1 := Semaphore (s_magic se) (s_count se - 1)).
  destruct (s_count se - 1 <? 0) eqn:E; [apply Z.ltb_lt in E|apply Z.ltb_ge in E].
  - wp_step. apply kern_wp. eapply wp_mono.
    { apply (block_wp cpu cur pend k (mi_kw _ _ _ _ _ Hm) Hcur Hni (WSem s) timeout (frame_of (SemTimedWait s timeout))); done. }
    intros r k'. destruct (timeout =? 0).
    + intros [-> ->]. unfold sem_timedwait_finish. wp_step. wp_step. cbn. wp_step.
      apply (get_sem_wp _ _ se1); [apply lookup_insert_eq|]. unfold set_sem. repeat wp_step.
      assert (on_sems (<[s := Semaphore (s_magic se1) (s_count se1 + 1)]>) (on_k (fun _ => k) (on_sems (<[s := se1]>) o)) = o) as ->.
      { replace (Semaphore (s_magic se1) (s_count se1 + 1)) with se; [by apply put_back_sem|].
        unfold se1. simpl. rewrite Z.sub_add. by destruct se. }
      apply (enter_object (SemTimedWait s timeout) (WSem s)); try done; [apply object_eq_refl|].
      exists se0, se. split_and!; [done|done|]. by apply sem_neutral; [apply sem_neutral|..].
    + intros (-> & Hk' & Hb). wp_step. apply (enter_blocks (SemTimedWait s timeout) (WSem s) timeout _ k'); try done.
      * by eapply set_sem_has.
      * intros w' Hne. by apply (other_sem s se1).
      * apply (set_sem_ok s se0 se1); [done|done|]. apply sem_block; try done. apply not_inside, caller_pend.
  - wp_step. apply (enter_object (SemTimedWait s timeout) (WSem s)); try done.
    + by eapply set_sem_has.
    + intros w' Hne. by apply (other_sem s se1).
    + apply (set_sem_ok s se0 se1); [done|done|]. apply sem_take; try done. apply granted_inside.
Qed.

Lemma queued_not_granted w t : t ∈ fq (k_queues k) (WaitQ w) -> t ∉ granted k pend w.
Proof. intros Hin. rewrite elem_of_granted. tauto. Qed.

Lemma enter_sem_post s se (resched : bool) : o_sems o !! s = Some se ->
  wp (enter cpu (SemPost s resched)) (post (SemPost s resched)) o.
Proof using Hm Hcur Hni.
  intros Hse. destruct (sem_found s se Hse) as (Ho & Hal & se0 & H0 & Hok).
  unfold enter, sem_post_enter. wp_step. apply (get_sem_wp _ _ se); [done|]. unfold set_sem. wp_step. wp_step.
  set (se1 := Semaphore (s_magic se) (s_count se + 1)). set (q := fq (k_queues k) (WaitQ (WSem s))).
  assert (forall W r k', seen W NO_ERROR k k' -> (forall t, t ∈ W -> t ∈ q) -> (length W <= 1)%nat ->
    (W = [] -> q = [] \/ 0 < s_count se + 1) -> (0 < s_count se + 1 -> W = []) ->
    match r with Some _ => kw k' pend None | None => kw k' (<[cur := FNone 1]> pend) (Some cpu) end ->
    post (SemPost s resched) r (on_k (fun _ => k') (on_sems (<[s := se1]>) o))) as Hfin.
  { intros W r k' Hs HW HlW HWq HWn Hk'. apply (enter_wakes (SemPost s resched) (WSem s) W _ k'); try done.
    - destruct r; [done|]. split; [by exists 1|done].
    - by eapply set_sem_has.
    - intros w' Hne. by apply (other_sem s se1).
    - apply (set_sem_ok s se0 se1); [done|done|].
      assert (sem_ok (s_count se0) se1 (inside pend (WSem s)) (granted k pend (WSem s) ∪ list_to_set W)
        (filter (fun t => t ∉ W) q) (Called cur (SemPost s resched) :: history (WSem s) log)) as H1.
      { apply sem_put; try done; [apply (wf_nodup _ (si_wf _ _ _ _ _ _ _ (kw_inv _ _ _ (mi_kw _ _ _ _ _ Hm))))|].
        apply Forall_forall. intros t Hin%HW. by apply queued_not_granted. }
      destruct r as [v|]; [|done]. apply sem_neutral; [done| |done]. unfold takes. simpl. by destruct (v =? NO_ERROR). }
  destruct (s_count se + 1 <=? 0) eqn:E; [apply Z.leb_le in E|apply Z.leb_gt in E].
  - wp_step. apply kern_wp. eapply wp_mono; [apply (wake_one_wp cpu cur pend k (mi_kw _ _ _ _ _ Hm) Hcur Hni (WSem s) resched 1 Hal)|].
    fold q. intros n k'. destruct q as [|t l] eqn:Eq.
    + intros [-> ->]. wp_step. rewrite andb_false_r.
      apply (Hfin [] (Some 0) k); [apply seen_refl|done|simpl; lia|by left|done|apply Hm].
    + intros (-> & Hs & Hk'). wp_step. rewrite andb_true_r. apply (Hfin [t]); try done; [set_solver +|lia|].
      by destruct resched.
  - wp_step. apply (Hfin [] (Some 0) k); [apply seen_refl|set_solver +|simpl; lia|by right|done|apply Hm].
Qed.

Lemma event_found e ev : o_events o !! e = Some ev ->
  has_object o (WEvent e) /\ alive k (WEvent e) /\ exists ev0, o_events o0 !! e = Some ev0 /\
  event_ok (e_signaled ev0) (e_flags ev0) ev (inside pend (WEvent e)) (granted k pend (WEvent e))
    (fq (k_queues k) (WaitQ (WEvent e))) (history (WEvent e) log).
Proof using Hm.
  intros Hev. assert (has_object o (WEvent e)) as Ho by (simpl; eauto). split_and!; [done|by apply Hm|].
  destruct (mi_ok _ _ _ _ _ Hm _ Ho) as (ev0 & ev' & H0 & Hev' & Hok). rewrite Hev in Hev'. injection Hev' as <-. eauto.
Qed.

Lemma other_event e ev' o' w' : w' <> WEvent e -> o_mutexes o' = o_mutexes o -> o_sems o' = o_sems o ->
  o_events o' = <[e := ev']> (o_events o) -> object_eq o o' w'.
Proof. intros Hne E1 E2 E3. destruct w'; simpl; rewrite ?E1, ?E2, ?E3; try done. by rewrite lookup_insert_ne by congruence. Qed.

Lemma set_event_ok e ev0 ev' o' I G q h : o_events o0 !! e = Some ev0 -> o_events o' = <[e := ev']> (o_events o) ->
  event_ok (e_signaled ev0) (e_flags ev0) ev' I G q h -> obj_ok o0 o' (WEvent e) I G q h.
Proof. intros H0 E Hok. exists ev0, ev'. split_and!; [done|rewrite E; apply lookup_insert_eq|done]. Qed.

Lemma set_event_has e ev' o' : o_events o' = <[e := ev']> (o_events o) -> has_object o' (WEvent e).
Proof. intros E. simpl. rewrite E, lookup_insert_eq. eauto. Qed.

Lemma same_event e ev : o_events o !! e = Some ev -> o_events o = <[e := ev]> (o_events o).
Proof. intros He. by rewrite insert_id. Qed.

Lemma enter_event_wait e ev timeout : o_events o !! e = Some ev -> timeout_ok timeout ->
  wp (enter cpu (EventWait e timeout)) (post (EventWait e timeout)) o.
Proof using Hm Hcur Hni.
  intros Hev Hto. destruct (event_found e ev Hev) as (Ho & Hal & ev0 & H0 & Hok).
  unfold enter, event_wait_timeout_enter. wp_step. apply (get_event_wp _ _ ev); [done|].
  do 2 wp_step; [by rewrite (eo_magic _ _ _ _ _ _ _ Hok)|]. destruct (e_signaled ev) eqn:Es.
  - assert (forall ev' o', ev' = Event (e_magic ev) (negb (autounsignal ev)) (e_flags ev) -> o_k o' = k ->
      o_mutexes o' = o_mutexes o -> o_sems o' = o_sems o -> o_events o' = <[e := ev']> (o_events o) ->
      post (EventWait e timeout) (Some NO_ERROR) o') as Hfin.
    { intros ev' o' -> E1 E2 E3 E4. apply (enter_object (EventWait e timeout) (WEvent e)); try done.
      - by eapply set_event_has.
      - intros w' Hne. by eapply other_event.
      - eapply set_event_ok; [done|done|]. by apply event_take_signal. }
    wp_step. apply wp_when; intros Ha.
    + unfold set_event. wp_step. wp_step. by apply (Hfin (Event (e_magic ev) false (e_flags ev))); [rewrite Ha|..].
    + wp_step. apply (Hfin ev); try done; [|by apply same_event]. rewrite Ha. simpl. rewrite <- Es. by destruct ev.
  - apply kern_wp. eapply wp_mono.
    { apply (block_wp cpu cur pend k (mi_kw _ _ _ _ _ Hm) Hcur Hni (WEvent e) timeout (frame_of (EventWait e timeout))); done. }
    intros r k'. destruct (timeout =? 0).
    + intros [-> ->]. rewrite on_k_same. apply (enter_object (EventWait e timeout) (WEvent e)); try done; [apply object_eq_refl|].
      exists ev0, ev. split_and!; [done|done|]. by do 2 (eapply (event_neutral _ _ _ (inside pend (WEvent e))); [|done|done|by intros _]).
    + intros (-> & Hk' & Hb). apply (enter_blocks (EventWait e timeout) (WEvent e) timeout _ k'); try done.
      * by intros [].
      * exists ev0, ev. split_and!; [done|done|]. eapply (event_neutral _ _ _ (inside pend (WEvent e))); [done|done|done|by rewrite Es].
Qed.

Lemma enter_event_unsignal e ev : o_events o !! e = Some ev ->
  wp (enter cpu (EventUnsignal e)) (post (EventUnsignal e)) o.
Proof using Hm Hcur.
  intros Hev. destruct (event_found e ev Hev) as (Ho & Hal & ev0 & H0 & Hok).
  unfold enter, event_unsignal. do 2 wp_step. apply (get_event_wp _ _ ev); [done|].
  do 2 wp_step; [by rewrite (eo_magic _ _ _ _ _ _ _ Hok)|]. unfold set_event. repeat wp_step.
  apply (enter_object (EventUnsignal e) (WEvent e)); try done.
  - by eapply set_event_has.
  - intros w' Hne. by eapply other_event.
  - eapply set_event_ok; [done|done|]. eapply (event_neutral _ _ _ (inside pend (WEvent e))); [|done|done|by intros _]. by apply event_set.
Qed.

Lemma event_returned e b v ev0 ev I G q h :
  event_ok (e_signaled ev0) (e_flags ev0) ev I G q (Called cur (EventSignal e b) :: h) ->
  event_ok (e_signaled ev0) (e_flags ev0) ev I G q (Returned cur (EventSignal e b) v :: Called cur (EventSignal e b) :: h).
Proof using.
  intros Hok. eapply (event_neutral _ _ _ I); [done| |done|done]. unfold takes. simpl. by destruct (v =? NO_ERROR).
Qed.

Lemma enter_event_signal e ev (reschedule : bool) : o_events o !! e = Some ev ->
  wp (enter cpu (EventSignal e reschedule)) (post (EventSignal e reschedule)) o.
Proof using Hm Hcur Hni.
  intros Hev. destruct (event_found e ev Hev) as (Ho & Hal & ev0 & H0 & Hok).
  unfold enter, event_signal_enter. wp_step. apply (get_event_wp _ _ ev); [done|].
  do 2 wp_step; [by rewrite (eo_magic _ _ _ _ _ _ _ Hok)|]. set (c := EventSignal e reschedule).
  destruct (e_signaled ev) eqn:Es.
  { wp_step. apply (enter_object c (WEvent e)); try done; [apply object_eq_refl|].
    exists ev0, ev. split_and!; [done|done|]. apply event_returned.
    eapply (event_neutral _ _ _ (inside pend (WEvent e))); [done|done|done|by intros _]. }
  destruct (autounsignal ev) eqn:Ea.
  - wp_step. apply kern_wp. eapply wp_mono.
    { apply (wake_one_wp cpu cur pend k (mi_kw _ _ _ _ _ Hm) Hcur Hni (WEvent e) reschedule 0 Hal). }
    intros n k'. destruct (fq (k_queues k) (WaitQ (WEvent e))) as [|t q] eqn:Eq.
    + intros [-> ->]. cbn [Z.leb Z.compare]. wp_step. unfold set_event. wp_step. wp_step.
      apply (enter_object c (WEvent e)); try done.
      * by eapply set_event_has.
      * intros w' Hne. by eapply other_event.
      * eapply set_event_ok; [done|done|]. apply event_returned. rewrite Eq. by apply event_set.
    + intros (-> & Hs & Hk'). cbn [Z.leb Z.compare]. wp_step.
      apply (enter_wakes c (WEvent e) [t] _ k'); try done.
      * rewrite Eq. set_solver +.
      * destruct reschedule; [split; [by exists 0|done]|done].
      * by intros [].
      * exists ev0, ev. split_and!; [done|done|].
        assert (event_ok (e_signaled ev0) (e_flags ev0) ev (inside pend (WEvent e)) (granted k pend (WEvent e) ∪ list_to_set [t])
          (filter (fun t' => t' ∉ [t]) (fq (k_queues k) (WaitQ (WEvent e)))) (Called cur c :: history (WEvent e) log)) as H1.
        { replace (list_to_set [t] : gset tid) with ({[t]} : gset tid) by set_solver +. apply event_wake_one; try done. by rewrite Eq. }
        destruct reschedule; [done|by apply event_returned].
  - wp_step. unfold set_event. wp_step. wp_step. apply kern_wp. eapply wp_mono.
    { apply (wake_all_wp cpu cur pend k (mi_kw _ _ _ _ _ Hm) Hcur Hni (WEvent e) reschedule 0 Hal). }
    intros n k' (-> & Hs & Hk'). wp_step. set (q := fq (k_queues k) (WaitQ (WEvent e))) in *.
    set (b := reschedule && (0 <? Z.of_nat (length q))) in *.
    apply (enter_wakes c (WEvent e) q _ k'); try done.
    + destruct b; [split; [by exists 0|done]|done].
    + by eapply set_event_has.
    + intros w' Hne. by eapply other_event.
    + eapply set_event_ok; [done|done|].
      pose proof (event_wake_all _ _ _ _ _ (granted k pend (WEvent e) ∪ list_to_set q) _ _ (Called cur c) Hok Ea eq_refl) as H1.
      destruct b; [done|by apply event_returned].
Qed.

(** Every legal call ends, and keeps the invariant. *)
Lemma enter_wp c : call_ok o cur c -> wp (enter cpu c) (post c) o.
Proof using Hm Hcur Hni.
  intros [_ Hc]. destruct c; simpl in Hc.
  - by apply enter_yield.
  - by apply enter_sleep.
  - by apply enter_set_priority.
  - destruct Hc as (Hto & mu & Hmu & Hh). by apply (enter_acquire m mu).
  - destruct Hc as (mu & Hmu & Hh). by apply (enter_release m mu).
  - destruct Hc as [se Hse]. by apply (enter_sem_wait s se).
  - destruct Hc as [se Hse]. by apply (enter_sem_trywait s se).
  - destruct Hc as [Hto [se Hse]]. by apply (enter_sem_timedwait s se).
  - destruct Hc as [se Hse]. by apply (enter_sem_post s se).
  - destruct Hc as [Hto [ev Hev]]. by apply (enter_event_wait e ev).
  - destruct Hc as [ev Hev]. by apply (enter_event_signal e ev).
  - destruct Hc as [ev Hev]. by apply (enter_event_unsignal e ev).
Qed.
End calls.

(** ** The thread that has been switched to goes on *)
Section resuming.
Context (o0 o : os) (pend : gmap tid frame) (log : list observation) (cpu : nat) (cur : tid) (f : frame).
Context (Hm : minv o0 o pend (Some cpu) log) (Hcur : k_current (o_k o) !! cpu = Some cur) (Hf : pend !! cur = Some f).
Let k := o_k o.

Definition resume_post (r : Z) (o' : os) : Prop :=
  minv o0 o' (delete cur pend) None (Resumed cur f r :: log).

Lemma resume_object w timeout r o' :
  frame_wait f = Some (w, timeout) -> kw (o_k o') (delete cur pend) None ->
  k_queues (o_k o') = k_queues k -> k_threads (o_k o') = k_threads k -> k_waits (o_k o') = k_waits k ->
  has_object o' w -> (forall w', w' <> w -> object_eq o o' w') ->
  obj_ok o0 o' w (inside pend w ∖ {[cur]}) (granted k pend w ∖ {[cur]}) (fq (k_queues k) (WaitQ w))
    (Resumed cur f r :: history w log) ->
  resume_post r o'.
Proof using Hm Hcur Hf.
  intros Hw Hk' Eq Et Ew Ho' Hoth Hok. apply (minv_step (Some w) o0 o o' pend _ (Some cpu) _ log); try done.
  - apply vstep_return; try done; [apply Hm|apply Hm|by rewrite Hw].
  - intros w' Hne. apply Hoth. congruence.
  - intros w' [= ->]. split_and!; [by apply (mi_object _ _ _ _ _ Hm cur f w timeout)|done|].
    rewrite inside_delete, (granted_return k) by done. rewrite Eq, history_cons. simpl. by rewrite Hw, decide_True by done.
Qed.

(** What its wait has ended with. *)
Lemma resume_ret w timeout th : frame_wait f = Some (w, timeout) -> k_threads k !! cur = Some th ->
  cur ∈ inside pend w /\
  (t_wait_queue_block_ret th = NO_ERROR /\ cur ∈ granted k pend w \/
   t_wait_queue_block_ret th = ERR_TIMED_OUT /\ cur ∉ granted k pend w /\ timeout <> INFINITE_TIME /\
   patient (history w log) = false).
Proof using Hm Hcur Hf.
  intros Hw Ht. assert (cur ∈ inside pend w) as Hin by (apply elem_of_inside; eauto). split; [done|].
  assert (cur ∉ fq (k_queues k) (WaitQ w)) as Hq.
  { intros Hq. by apply (current_not_queued _ _ _ _ (kw_inv _ _ _ (mi_kw _ _ _ _ _ Hm)) Hcur) in Hq. }
  assert (block_ret k cur = Some (t_wait_queue_block_ret th)) as Hr by (unfold block_ret; by rewrite Ht).
  destruct (mi_ret _ _ _ _ _ Hm cur f w timeout Hf Hw Hq) as [E|[E Hto]]; fold k in E; rewrite Hr in E; injection E as E.
  - left. split; [done|]. apply elem_of_granted. by rewrite Hr, E.
  - right. split_and!; [done| |done|by apply (mi_timed _ _ _ _ _ Hm cur f w timeout)].
    rewrite elem_of_granted, Hr, E. intros (_ & _ & ?). done.
Qed.

(** The wait itself. *)
Lemma resume_wait {A} w timeout (m : Z -> M os A) (Q : A -> os -> Prop) :
  frame_wait f = Some (w, timeout) ->
  (forall r k', kw k' (delete cur pend) None -> k_queues k' = k_queues k -> k_threads k' = k_threads k ->
     k_waits k' = k_waits k -> k_current k' !! cpu = Some cur ->
     cur ∈ inside pend w ->
     (r = NO_ERROR /\ cur ∈ granted k pend w \/
      r = ERR_TIMED_OUT /\ cur ∉ granted k pend w /\ timeout <> INFINITE_TIME /\ patient (history w log) = false) ->
     wp (m r) Q (on_k (fun _ => k') o)) ->
  wp (do r <- kern (wait_queue_block_return cpu timeout); m r) Q o.
Proof using Hm Hcur Hf.
  intros Hw Hgo. pose proof (mi_kw _ _ _ _ _ Hm) as Hk.
  destruct (current_running _ _ _ _ (kw_inv _ _ _ Hk) Hcur) as (th & Ht & _).
  destruct (resume_ret w timeout th Hw Ht) as [Hin Hr]. wp_step. apply kern_wp.
  eapply wp_mono; [by apply (block_return_wp cpu cur pend k f w timeout th)|].
  intros r k' (-> & Hk' & Eq & Et & Ew & Ec). apply Hgo; try done. by rewrite Ec.
Qed.

Lemma resume_none r : f = FNone r -> wp (resume cpu f) resume_post o.
Proof using Hm Hcur Hf.
  intros Ef. rewrite Ef. simpl. wp_step. unfold resume_post. pose proof (mi_kw _ _ _ _ _ Hm) as Hk.
  apply (minv_step None o0 o o pend _ (Some cpu) _ log); [done| | |by intros []|done].
  - apply (kw_return cpu k k (k_timers k)); try done; [by rewrite on_timers_same|apply Hk|].
    apply not_true_iff_false. intros Hin. destruct (kw_tmwait _ _ _ Hk cur Hin) as (f' & w & to & Hf' & Hw & _).
    rewrite Hf in Hf'. injection Hf' as <-. by subst f.
  - apply vstep_return; try done; [apply Hm|apply Hm|by subst f].
Qed.

Lemma resume_acquire m timeout : f = FAcquire m timeout -> wp (resume cpu f) resume_post o.
Proof using Hm Hcur Hf.
  intros Ef. assert (frame_wait f = Some (WMutex m, timeout)) as Hw by by rewrite Ef.
  pose proof (mi_object _ _ _ _ _ Hm cur f _ _ Hf Hw) as Ho.
  destruct (mi_ok _ _ _ _ _ Hm _ Ho) as (mu & Hmu & Hok).
  rewrite Ef at 1. simpl. unfold mutex_acquire_timeout_return. apply (resume_wait (WMutex m)); [done|].
  intros r k' Hk' Eq Et Ew Ec Hin Hr. apply (acquire_finish_wp _ _ m mu r cur); [done|done|tauto|].
  apply (resume_object (WMutex m) timeout); try done.
  - simpl. rewrite lookup_insert_eq. eauto.
  - intros w' Hne. destruct w'; simpl; try done. by rewrite !lookup_insert_ne by congruence.
  - exists (finished cur r mu). split; [apply lookup_insert_eq|]. rewrite Ef.
    destruct Hr as [[-> HG]|(-> & HG & _ & Hp)].
    + apply (mutex_take_granted mu); [done|done|apply granted_inside].
    + by apply (mutex_back_out mu).
Qed.

Lemma resume_sem_wait s : f = FSemWait s -> wp (resume cpu f) resume_post o.
Proof using Hm Hcur Hf.
  intros Ef. assert (frame_wait f = Some (WSem s, INFINITE_TIME)) as Hw by by rewrite Ef.
  pose proof (mi_object _ _ _ _ _ Hm cur f _ _ Hf Hw) as Ho.
  destruct (mi_ok _ _ _ _ _ Hm _ Ho) as (se0 & se & H0 & Hse & Hok).
  rewrite Ef at 1. simpl. unfold sem_wait_return. apply wp_bind_ret, (resume_wait (WSem s)); [done|].
  intros r k' Hk' Eq Et Ew Ec Hin Hr. wp_step.
  apply (resume_object (WSem s) INFINITE_TIME); try done; [by intros []|].
  exists se0, se. split_and!; [done|done|]. destruct Hr as [[-> HG]|(_ & _ & ? & _)]; [|done]. rewrite Ef.
  apply sem_take_granted; try done. apply granted_inside.
Qed.

Lemma resume_sem_timed s timeout : f = FSemTimed s timeout -> wp (resume cpu f) resume_post o.
Proof using Hm Hcur Hf.
  intros Ef. assert (frame_wait f = Some (WSem s, timeout)) as Hw by by rewrite Ef.
  pose proof (mi_object _ _ _ _ _ Hm cur f _ _ Hf Hw) as Ho.
  destruct (mi_ok _ _ _ _ _ Hm _ Ho) as (se0 & se & H0 & Hse & Hok).
  rewrite Ef at 1. simpl. unfold sem_timedwait_return. apply (resume_wait (WSem s)); [done|].
  intros r k' Hk' Eq Et Ew Ec Hin Hr. unfold sem_timedwait_finish.
  destruct Hr as [[-> HG]|(-> & HG & _ & Hp)]; cbn [Z.ltb Z.compare NO_ERROR].
  - wp_step. cbn [when]. repeat wp_step. apply (resume_object (WSem s) timeout); try done; [by intros []|].
    exists se0, se. split_and!; [done|done|]. rewrite Ef. apply sem_take_granted; try done. apply granted_inside.
  - wp_step. cbn. wp_step. apply (get_sem_wp _ _ se); [done|]. unfold set_sem. repeat wp_step.
    apply (resume_object (WSem s) timeout); try done.
    + simpl. rewrite lookup_insert_eq. eauto.
    + intros w' Hne. destruct w'; simpl; try done. by rewrite !lookup_insert_ne by congruence.
    + exists se0. eexists. split_and!; [done|apply lookup_insert_eq|]. rewrite Ef. by apply sem_back_out.
Qed.

Lemma resume_event e timeout : f = FEventWait e timeout -> wp (resume cpu f) resume_post o.
Proof using Hm Hcur Hf.
  intros Ef. assert (frame_wait f = Some (WEvent e, timeout)) as Hw by by rewrite Ef.
  pose proof (mi_object _ _ _ _ _ Hm cur f _ _ Hf Hw) as Ho.
  destruct (mi_ok _ _ _ _ _ Hm _ Ho) as (ev0 & ev & H0 & Hev & Hok).
  rewrite Ef at 1. simpl. unfold event_wait_timeout_return. apply wp_bind_ret, (resume_wait (WEvent e)); [done|].
  intros r k' Hk' Eq Et Ew Ec Hin Hr. wp_step.
  apply (resume_object (WEvent e) timeout); try done; [by intros []|].
  exists ev0, ev. split_and!; [done|done|]. rewrite Ef. destruct Hr as [[-> HG]|(-> & HG & _ & Hp)].
  - by eapply event_take_granted.
  - eapply (event_neutral _ _ _ (inside pend (WEvent e))); [done|done|set_solver +|by intros _].
Qed.

Lemma resume_wp : wp (resume cpu f) resume_post o.
Proof using Hm Hcur Hf.
  assert (exists f', f = f') as [f' Ef] by eauto. destruct f' as [r|m to|s|s to|e to].
  - by apply (resume_none r).
  - by apply (resume_acquire m to).
  - by apply (resume_sem_wait s).
  - by apply (resume_sem_timed s to).
  - by apply (resume_event e to).
Qed.
End resuming.

(** ** Every reachable state *)

Definition wok (o0 : os) (w : world) : Prop := minv o0 (w_os w) (w_pend w) (w_lock w) (w_log w).

(** A world before any call: the threads have not started, the objects have just been
    initialised. *)
Record initial (w : world) : Prop := {
  in_kw : kw (w_k w) (w_pend w) None;
  in_lock : w_lock w = None;
  in_log : w_log w = [];
  in_frames : forall t f, w_pend w !! t = Some f -> frame_wait f = None;
  in_alive : forall q, has_object (w_os w) q -> alive (w_k w) q;
  in_mutexes : forall m mu, o_mutexes (w_os w) !! m = Some mu -> mu = Mutex MUTEX_MAGIC None 0;
  in_sems : forall s se, o_sems (w_os w) !! s = Some se -> 0 <= s_count se;
  in_events : forall e ev, o_events (w_os w) !! e = Some ev -> e_magic ev = EVENT_MAGIC }.

Definition reachable (w0 w : world) : Prop := initial w0 /\ rtc step w0 w.

Section reachability.
Implicit Types (w : world).

Lemma initial_empty w q : initial w ->
  inside (w_pend w) q = ∅ /\ granted (w_k w) (w_pend w) q = ∅ /\ fq (k_queues (w_k w)) (WaitQ q) = [].
Proof.
  intros [I1 I2 I3 I4 _ _ _ _]. assert (inside (w_pend w) q = ∅) as HI.
  { apply set_eq. intros t. split; [|set_solver +]. intros (f & to & Hf & Hw)%elem_of_inside. by rewrite (I4 t f Hf) in Hw. }
  split_and!; [done|pose proof (granted_inside (w_k w) (w_pend w) q); set_solver|].
  apply elem_of_nil_inv. intros t Hin. destruct (kw_wait _ _ _ I1 t q Hin) as (f & to & Hf & Hw).
  by rewrite (I4 t f Hf) in Hw.
Qed.

Lemma initial_wok w : initial w -> wok (w_os w) w.
Proof.
  intros Hi. pose proof Hi as [I1 I2 I3 I4 I5 I6 I7 I8]. split.
  - by rewrite I2.
  - intros t f q to Hf Hw. by rewrite (I4 t f Hf) in Hw.
  - intros t f q to Hf Hw. by rewrite (I4 t f Hf) in Hw.
  - intros t f q to Hf Hw. by rewrite (I4 t f Hf) in Hw.
  - done.
  - intros q Hq. destruct (initial_empty w q Hi) as (-> & E2 & E3). unfold w_k in E2, E3. rewrite E2, E3, I3.
    destruct q as [t|m|s|e|p]; simpl in *; try done.
    + destruct Hq as [mu Hmu]. exists mu. split; [done|]. rewrite (I6 m mu Hmu). by split.
    + destruct Hq as [se Hse]. exists se, se. split_and!; [done|done|]. specialize (I7 s se Hse).
      split; rewrite ?size_empty; change (history (WSem s) []) with ([] : list observation); unfold number; simpl; lia.
    + destruct Hq as [ev Hev]. exists ev, ev. split_and!; [done|done|]. split; [by apply (I8 e)|done|done|].
      intros _. rewrite size_empty. change (history (WEvent e) []) with ([] : list observation). unfold number. simpl. lia.
Qed.

Lemma interrupt_wok o0 w cpu cur now : wok o0 w -> w_lock w = None -> k_current (w_k w) !! cpu = Some cur ->
  tinv now (k_timers (w_k w)) -> armed now (k_timers (w_k w)) ->
  wp (interrupt cpu now) (fun r k' => minv o0 (on_k (fun _ => k') (w_os w))
       (match r with INT_RESCHEDULE => <[cur := FNone 0]> (w_pend w) | INT_NO_RESCHEDULE => w_pend w end)
       (match r with INT_RESCHEDULE => Some cpu | INT_NO_RESCHEDULE => None end) (w_log w)) (w_k w).
Proof.
  unfold wok. intros Hm Hl Hcur Hi Ha. rewrite Hl in Hm. pose proof (mi_kw _ _ _ _ _ Hm) as Hk.
  eapply wp_mono; [by apply (interrupt_wp cpu now (w_pend w) cur)|]. intros r k' [(W & Hs & HW) Hk'].
  apply (minv_step None o0 (w_os w) _ (w_pend w) _ None _ (w_log w)); [done|by destruct r| |by intros []|done].
  apply (vstep_seen None W ERR_TIMED_OUT); try apply Hm; try done; [|by left].
  destruct r; [done|]. by apply same_frames_none, (kw_current_pend (w_k w) _ cpu).
Qed.

(** The invariant is kept by every step. *)
Lemma step_wok o0 w w' : wok o0 w -> step w w' -> wok o0 w'.
Proof.
  unfold wok. intros Hm Hst. destruct Hst as [cpu cur c w r o Hl Hc Hok He|cpu cur c w o Hl Hc Hok He
    |cpu cur f w r o Hl Hc Hp He|cpu cur now w k Hl Hc Hi Ha He|cpu cur now w k Hl Hc Hi Ha He]; simpl.
  - rewrite Hl in Hm. pose proof (enter_wp o0 _ _ _ cpu cur Hm Hc (proj1 Hok) c Hok) as Hw. unfold wp in Hw. by rewrite He in Hw.
  - rewrite Hl in Hm. pose proof (enter_wp o0 _ _ _ cpu cur Hm Hc (proj1 Hok) c Hok) as Hw. unfold wp in Hw. by rewrite He in Hw.
  - rewrite Hl in Hm. pose proof (resume_wp o0 _ _ _ cpu cur f Hm Hc Hp) as Hw. unfold wp in Hw. by rewrite He in Hw.
  - pose proof (interrupt_wok o0 w cpu cur now Hm Hl Hc Hi Ha) as Hw. unfold wp in Hw. by rewrite He in Hw.
  - pose proof (interrupt_wok o0 w cpu cur now Hm Hl Hc Hi Ha) as Hw. unfold wp in Hw. by rewrite He in Hw.
Qed.

Lemma reachable_wok w0 w : reachable w0 w -> wok (w_os w0) w.
Proof.
  intros [Hi Hs]. pose proof (initial_wok w0 Hi) as Hw. remember (w_os w0) as o0. clear Heqo0 Hi.
  induction Hs; [done|]. eauto using step_wok.
Qed.
End reachability.

(** ** What the kernel promises, in every reachable state *)


(** Where a thread of a given state is. *)
Definition located (k : kstate) (t : tid) (th : thread) : Prop :=
  match t_state th with
  | THREAD_RUNNING => (exists cpu, k_current k !! cpu = Some t) /\ forall q, t ∉ fq (k_queues k) q
  | THREAD_READY => thread_is_idle th = true \/ t ∈ fq (k_queues k) (RunQ (t_priority th))
  | THREAD_BLOCKED => exists w, t_blocking_wait_queue th = Some w /\ t ∈ fq (k_queues k) (WaitQ w)
  | _ => forall q, t ∉ fq (k_queues k) q
  end.

(** C10. In every reachable state a thread is where its state says: a running thread is the
    current thread of a cpu and in no queue, a ready one is in the run queue of its priority or is an
    idle thread, a blocked one is in the wait queue it names, and any other is in no
    queue; no thread runs on two cpus or is in two queues; and bit [p] of the bitmap is
    set exactly when run queue [p] has a thread. *)
Theorem threads_are_where_they_belong w0 w (Hr : reachable w0 w) :
  let k := w_k w in
  (forall t th, k_threads k !! t = Some th -> located k t th) /\
  (forall t c1 c2, k_current k !! c1 = Some t -> k_current k !! c2 = Some t -> c1 = c2) /\
  (forall t q1 q2, t ∈ fq (k_queues k) q1 -> t ∈ fq (k_queues k) q2 -> q1 = q2) /\
  (forall p, 0 <= p < 32 -> Z.testbit (k_bitmap k) p = true <-> fq (k_queues k) (RunQ p) <> []).
Proof.
  intros k. pose proof (kw_inv _ _ _ (mi_kw _ _ _ _ _ (reachable_wok w0 w Hr))) as Hs. fold (w_k w) k in Hs. split_and!.
  - intros t th Ht. pose proof (si_placed _ _ _ _ _ _ _ Hs t th Ht ltac:(set_solver +)) as Hp.
    assert (t_state th <> THREAD_READY -> t_state th <> THREAD_BLOCKED -> forall q, t ∉ fq (k_queues k) q) as Hno.
    { intros Hr1 Hb1 q Hin. destruct (si_member _ _ _ _ _ _ _ Hs q t Hin) as [_ (th' & Ht' & _ & _ & Hq)].
      rewrite Ht in Ht'. injection Ht' as <-. destruct q; destruct Hq; done. }
    unfold located. unfold placed in Hp. destruct (t_state th); try (by apply Hno).
    + destruct (thread_is_idle th); [by left|right; by apply Hp].
    + split; [|by apply Hno]. destruct Hp as (cpu & ? & _). eauto.
    + done.
  - intros t c1 c2. apply (si_inj _ _ _ _ _ _ _ Hs).
  - intros t q1 q2. apply (wf_one _ (si_wf _ _ _ _ _ _ _ Hs)).
  - apply (si_bitmap _ _ _ _ _ _ _ Hs).
Qed.

(** C8. Mutual exclusion: in every history of a mutex, acquisitions that succeeded and calls
    of its release alternate, each release is by the thread that acquired it last, and the
    [holder] field is the thread that has acquired it and not released it. *)
Theorem mutex_excludes w0 w m mu (Hr : reachable w0 w) (Hmu : o_mutexes (w_os w) !! m = Some mu) :
  exclusive (history (WMutex m) (w_log w)) /\ owner (history (WMutex m) (w_log w)) = m_holder mu.
Proof.
  destruct (mi_ok _ _ _ _ _ (reachable_wok w0 w Hr) (WMutex m) ltac:(simpl; eauto)) as (mu' & Hmu' & [M1 M2 M3 M4 M5 M6]).
  rewrite Hmu in Hmu'. by injection Hmu' as <-.
Qed.

(** C9. The count of a mutex is its holder, if it has one, plus the threads inside
    [mutex_acquire_timeout], whether they wait, have been handed the mutex or have timed
    out; at most one thread holds it or has been handed it. *)
Theorem mutex_count_exact w0 w m mu (Hr : reachable w0 w) (Hmu : o_mutexes (w_os w) !! m = Some mu) :
  m_count mu = held mu + Z.of_nat (size (inside (w_pend w) (WMutex m))) /\
  held mu + Z.of_nat (size (granted (w_k w) (w_pend w) (WMutex m))) <= 1.
Proof.
  destruct (mi_ok _ _ _ _ _ (reachable_wok w0 w Hr) (WMutex m) ltac:(simpl; eauto)) as (mu' & Hmu' & [M1 M2 M3 M4 M5 M6]).
  rewrite Hmu in Hmu'. by injection Hmu' as <-.
Qed.



(** A semaphore on which no wait has given a timeout loses no post: exactly as many
    threads are blocked on it as its count is below zero, so none is when units are left. *)
Theorem semaphore_wakes w0 w s se (Hr : reachable w0 w) (Hse : o_sems (w_os w) !! s = Some se)
    (Hp : patient (history (WSem s) (w_log w)) = true) :
  Z.of_nat (length (fq (k_queues (w_k w)) (WaitQ (WSem s)))) = Z.max 0 (- s_count se).
Proof.
  destruct (mi_ok _ _ _ _ _ (reachable_wok w0 w Hr) (WSem s) ltac:(simpl; eauto)) as (se1 & se2 & E1 & E2 & [S1 S2 S3]).
  rewrite Hse in E2. injection E2 as <-. auto.
Qed.

(** C31. Nobody is blocked on a signaled event, and an event that unsignals itself lets through
    at most one wait per signal: the waits that have succeeded or been granted, plus the
    signal that is pending, are at most the signals and the initial state. *)
Theorem event_signals w0 w e ev0 ev (Hr : reachable w0 w)
    (H0 : o_events (w_os w0) !! e = Some ev0) (Hev : o_events (w_os w) !! e = Some ev) :
  let h := history (WEvent e) (w_log w) in
  (e_signaled ev = true -> fq (k_queues (w_k w)) (WaitQ (WEvent e)) = []) /\
  (autounsignal ev0 = true ->
   number takes h + Z.of_nat (size (granted (w_k w) (w_pend w) (WEvent e))) + (if e_signaled ev then 1 else 0)
     <= (if e_signaled ev0 then 1 else 0) + number puts h).
Proof.
  intros h. destruct (mi_ok _ _ _ _ _ (reachable_wok w0 w Hr) (WEvent e) ltac:(simpl; eauto)) as (ev1 & ev2 & E1 & E2 & [S1 S2 S3 S4]).
  rewrite H0 in E1. injection E1 as <-. rewrite Hev in E2. injection E2 as <-. split; [done|].
  intros Ha. apply S4. unfold autounsignal in *. by rewrite S2.
Qed.
