(* ===== verification/Trace.v ===== *)
(** * Runs of the machine

    [exec] runs one action of the machine and checks its guards, so that a list of actions
    is a run that can be evaluated; it is sound for the steps of [Machine].  The runs below
    are the inputs the theorems of [Objects] are applied at, and the run in which a mutex and
    a semaphore lose a wake-up because a waiter has timed out. *)

From stdpp Require Import base gmap list fin_maps fin_sets strings sorting.
From S2P Require Import Prelude ListNode Timer KState Sched Resched Wait Thread Sync Machine Objects.
Import Family.

Inductive action := ACall (cpu : nat) (c : call) | AResume (cpu : nat) | AInterrupt (cpu : nat) (now : Z).

Definition timeout_okb (timeout : Z) : bool :=
  (timeout =? INFINITE_TIME) || ((0 <=? timeout) && (timeout <? 2 ^ 30)).

Definition call_okb (o : os) (cur : tid) (c : call) : bool :=
  negb (is_idle_tid cur) &&
  match c with
  | Sleep delay => (0 <=? delay) && (delay <? 2 ^ 30)
  | Acquire m timeout => timeout_okb timeout &&
      match o_mutexes o !! m with Some mu => bool_decide (m_holder mu <> Some cur) | None => false end
  | Release m => match o_mutexes o !! m with Some mu => bool_decide (m_holder mu = Some cur) | None => false end
  | SemTimedWait s timeout => timeout_okb timeout && bool_decide (is_Some (o_sems o !! s))
  | SemWait s | SemTryWait s | SemPost s _ => bool_decide (is_Some (o_sems o !! s))
  | EventWait e timeout => timeout_okb timeout && bool_decide (is_Some (o_events o !! e))
  | EventSignal e _ | EventUnsignal e => bool_decide (is_Some (o_events o !! e))
  | _ => true
  end.

Definition timer_okb (now : Z) (tms : gmap ktimer (timer kcallback)) (x : ktimer) : bool :=
  match tms !! x with
  | Some tm => (tm_magic tm =? TIMER_MAGIC) && bool_decide (is_Some (tm_callback tm)) &&
      bool_decide (near now (tm_scheduled_time tm)) &&
      (0 <=? tm_scheduled_time tm) && (tm_scheduled_time tm <? 2 ^ 32) &&
      (0 <=? tm_periodic_time tm) && (tm_periodic_time tm <? 2 ^ 30)
  | None => false
  end.

Fixpoint sortedb (f : ktimer -> Z) (q : list ktimer) : bool :=
  match q with [] => true | x :: q => forallb (fun y => f x <=? f y) q && sortedb f q end.

Definition check_tinv (now : Z) (ts : tstate ktimer kcallback) : bool :=
  bool_decide (NoDup (map_to_list (ts_queue ts) ≫= snd)) &&
  forallb (fun p : nat * list ktimer => forallb (timer_okb now (ts_timers ts)) (snd p) &&
             sortedb (key now (ts_timers ts)) (snd p)) (map_to_list (ts_queue ts)).

Definition check_armed (now : Z) (ts : tstate ktimer kcallback) : bool :=
  forallb (fun p : nat * list ktimer =>
    match snd p with
    | [] => true
    | x :: _ => match ts_hw ts !! fst p with
                | Some d => rel now d <=? Z.max 0 (key now (ts_timers ts) x)
                | None => false
                end
    end) (map_to_list (ts_queue ts)).

Definition exec (a : action) (w : world) : option world :=
  match a, w_lock w with
  | ACall cpu c, None =>
      match k_current (w_k w) !! cpu with
      | Some cur =>
          if call_okb (w_os w) cur c then
            match enter cpu c (w_os w) with
            | Done (Some r) o => Some (World o (w_pend w) None (Returned cur c r :: Called cur c :: w_log w))
            | Done None o => Some (World o (<[cur := frame_of c]> (w_pend w)) (Some cpu) (Called cur c :: w_log w))
            | Fault _ => None
            end
          else None
      | None => None
      end
  | AResume cpu, Some cpu' =>
      if bool_decide (cpu = cpu') then
        match k_current (w_k w) !! cpu with
        | Some cur =>
            match w_pend w !! cur with
            | Some f =>
                match resume cpu f (w_os w) with
                | Done r o => Some (World o (delete cur (w_pend w)) None (Resumed cur f r :: w_log w))
                | Fault _ => None
                end
            | None => None
            end
        | None => None
        end
      else None
  | AInterrupt cpu now, None =>
      match k_current (w_k w) !! cpu with
      | Some cur =>
          if check_tinv now (k_timers (w_k w)) && check_armed now (k_timers (w_k w)) then
            match interrupt cpu now (w_k w) with
            | Done INT_NO_RESCHEDULE k => Some (World (on_k (fun _ => k) (w_os w)) (w_pend w) None (w_log w))
            | Done INT_RESCHEDULE k =>
                Some (World (on_k (fun _ => k) (w_os w)) (<[cur := FNone 0]> (w_pend w)) (Some cpu) (w_log w))
            | Fault _ => None
            end
          else None
      | None => None
      end
  | _, _ => None
  end.

Fixpoint exec_all (l : list action) (w : world) : option world :=
  match l with
  | [] => Some w
  | a :: l => match exec a w with Some w' => exec_all l w' | None => None end
  end.

Lemma timeout_okb_ok timeout : timeout_okb timeout = true -> timeout_ok timeout.
Proof. unfold timeout_okb, timeout_ok. lia. Qed.

Lemma call_okb_ok o cur c : call_okb o cur c = true -> call_ok o cur c.
Proof.
  unfold call_okb, call_ok. rewrite andb_true_iff, negb_true_iff. intros [Hi Hc]. split; [done|].
  destruct c; try done; try lia; try (apply andb_true_iff in Hc as [Ht%timeout_okb_ok Hc]);
    try (apply bool_decide_eq_true in Hc; done);
    try (split; [done|]); destruct (o_mutexes o !! m) as [mu|] eqn:E; try done; exists mu;
    by apply bool_decide_eq_true in Hc.
Qed.

Lemma sortedb_ok f q : sortedb f q = true -> StronglySorted (fun a b => f a <= f b) q.
Proof.
  induction q as [|x q IH]; simpl; intros Hs; [constructor|]. apply andb_true_iff in Hs as [Hx Hs].
  constructor; [auto|]. apply Forall_forall. intros y Hy. rewrite forallb_forall in Hx.
  apply Z.leb_le, Hx. by apply list_elem_of_In.
Qed.

Lemma check_tinv_ok now ts : check_tinv now ts = true -> tinv now ts.
Proof.
  unfold check_tinv. rewrite andb_true_iff, bool_decide_eq_true. intros [Hnd Hq].
  assert (forall c, forallb (timer_okb now (ts_timers ts)) (fq (ts_queue ts) c) = true /\
    sortedb (key now (ts_timers ts)) (fq (ts_queue ts) c) = true) as Hc.
  { intros c. unfold fq. destruct (ts_queue ts !! c) as [q|] eqn:E; [|done].
    pose proof (forallb_map _ _ _ _ Hq E) as Hb. by apply andb_true_iff in Hb. }
  split.
  - by apply NoDup_bind_wf.
  - intros c x Hx. destruct (Hc c) as [Hok _]. rewrite forallb_forall in Hok.
    specialize (Hok x (proj1 (list_elem_of_In _ _) Hx)). unfold timer_okb in Hok. unfold timer_ok.
    destruct (ts_timers ts !! x) as [tm|]; [|done]. exists tm. rewrite !andb_true_iff, !bool_decide_eq_true in Hok.
    split_and!; [done|lia|tauto|tauto|lia..].
  - intros c. apply sortedb_ok, Hc.
Qed.

Lemma check_armed_ok now ts : check_armed now ts = true -> armed now ts.
Proof.
  intros Hq c x Hx. unfold peek_head, fq in Hx. destruct (ts_queue ts !! c) as [q|] eqn:E; [|done].
  pose proof (forallb_map _ _ _ _ Hq E) as Hb. simpl in Hb. destruct q as [|y q]; [done|]. injection Hx as ->.
  destruct (ts_hw ts !! c) as [d|]; [|done]. exists d. split; [done|lia].
Qed.

Lemma exec_step a w w' : exec a w = Some w' -> step w w'.
Proof.
  unfold exec. destruct a as [cpu c|cpu|cpu now], (w_lock w) as [cpu'|] eqn:Hl; try done.
  - destruct (k_current (w_k w) !! cpu) as [cur|] eqn:Hc; [|done].
    destruct (call_okb (w_os w) cur c) eqn:Hok; [|done]. apply call_okb_ok in Hok.
    destruct (enter cpu c (w_os w)) as [[r|] o|] eqn:He; intros [= <-]; [by eapply step_return|by eapply step_switch].
  - case_bool_decide; [subst cpu'|done]. destruct (k_current (w_k w) !! cpu) as [cur|] eqn:Hc; [|done].
    destruct (w_pend w !! cur) as [f|] eqn:Hf; [|done].
    destruct (resume cpu f (w_os w)) as [r o|] eqn:He; intros [= <-]. by eapply step_resume.
  - destruct (k_current (w_k w) !! cpu) as [cur|] eqn:Hc; [|done].
    destruct (check_tinv now (k_timers (w_k w)) && check_armed now (k_timers (w_k w))) eqn:Hok; [|done].
    apply andb_true_iff in Hok as [Hi%check_tinv_ok Ha%check_armed_ok].
    destruct (interrupt cpu now (w_k w)) as [[|] k|] eqn:He; intros [= <-]; [by eapply step_interrupt|by eapply step_preempt].
Qed.

Lemma exec_all_steps l w w' : exec_all l w = Some w' -> rtc step w w'.
Proof.
  revert w. induction l as [|a l IH]; simpl; intros w Hw; [by injection Hw as ->|].
  destruct (exec a w) as [w1|] eqn:E; [|done]. eapply rtc_l; [by eapply exec_step|auto].
Qed.

(** ** Deciding that a world is an initial one *)

Definition check_frames (k : kstate) (pend : gmap tid frame) : bool :=
  forallb (fun p : qid * list tid => match fst p with WaitQ _ => bool_decide (snd p = []) | RunQ _ => true end)
    (map_to_list (k_queues k)) &&
  forallb (fun p : nat * list ktimer => bool_decide (snd p = [])) (map_to_list (ts_queue (k_timers k))) &&
  forallb (fun p : tid * thread => (t_magic (snd p) =? THREAD_MAGIC) &&
             (bool_decide (is_Some (pend !! fst p)) || bool_decide (fst p ∈ snd <$> map_to_list (k_current k))))
    (map_to_list (k_threads k)) &&
  forallb (fun p : nat * tid => bool_decide (pend !! snd p = None)) (map_to_list (k_current k)) &&
  forallb (fun p : tid * frame => bool_decide (is_Some (k_threads k !! fst p)) && bool_decide (frame_wait (snd p) = None))
    (map_to_list pend).

Lemma check_frames_ok k pend : sinv ∅ None k -> aux k -> check_frames k pend = true ->
  kw k pend None /\ forall t f, pend !! t = Some f -> frame_wait f = None.
Proof.
  unfold check_frames. rewrite !andb_true_iff. intros Hs Ha [[[[Hq Ht] Hth] Hc] Hp].
  assert (forall x, in_list x (ts_queue (k_timers k)) = false) as Hno.
  { intros x. apply in_list_false. intros c. unfold fq. destruct (ts_queue (k_timers k) !! c) as [l|] eqn:E; [|set_solver +].
    pose proof (forallb_map _ _ _ _ Ht E) as Hb. apply bool_decide_eq_true in Hb. simpl in Hb. subst l. set_solver +. }
  assert (forall t f, pend !! t = Some f -> is_Some (k_threads k !! t) /\ frame_wait f = None) as Hpf.
  { intros t f Hf. pose proof (forallb_map _ _ _ _ Hp Hf) as Hb. by rewrite andb_true_iff, !bool_decide_eq_true in Hb. }
  split; [|intros t f Hf; by apply (Hpf t)]. split; try done.
  - intros c t Hct _. pose proof (forallb_map _ _ _ _ Hc Hct) as Hb. by apply bool_decide_eq_true in Hb.
  - intros t [th Htt] Hst. pose proof (forallb_map _ _ _ _ Hth Htt) as Hb.
    apply andb_true_iff in Hb as [_ [?%bool_decide_eq_true|Hin%bool_decide_eq_true]%orb_true_iff]; [done|].
    apply list_elem_of_fmap in Hin as ([c t'] & Et & Hct%elem_of_map_to_list). simpl in Et. subst t'. by specialize (Hst c Hct).
  - intros t [f Hf]. by apply (Hpf t f).
  - intros t w Hin. unfold fq in Hin. destruct (k_queues k !! WaitQ w) as [l|] eqn:E; [|set_solver +Hin].
    pose proof (forallb_map _ _ _ _ Hq E) as Hb. apply bool_decide_eq_true in Hb. simpl in Hb. subst l. set_solver +Hin.
  - intros t th Htt. pose proof (forallb_map _ _ _ _ Hth Htt) as Hb. apply andb_true_iff in Hb as [?%Z.eqb_eq _]. done.
  - intros x _ Hin. by rewrite Hno in Hin.
  - intros t Hin. by rewrite Hno in Hin.
  - intros t f w to Hf Hw. destruct (Hpf t f Hf). congruence.
  - intros t Hin. by rewrite Hno in Hin.
Qed.

Definition aliveb (k : kstate) (q : wqid) : bool := bool_decide (wq_magic <$> k_waits k !! q = Some WAIT_QUEUE_MAGIC).

Definition check_initial (w : world) : bool :=
  check_sinv None (w_k w) && check_aux (w_k w) && check_frames (w_k w) (w_pend w) &&
  bool_decide (w_lock w = None) && bool_decide (length (w_log w) = 0%nat) &&
  forallb (fun p : nat * mutex => aliveb (w_k w) (WMutex (fst p)) &&
      (m_magic (snd p) =? MUTEX_MAGIC) && bool_decide (m_holder (snd p) = None) && (m_count (snd p) =? 0))
    (map_to_list (o_mutexes (w_os w))) &&
  forallb (fun p : nat * semaphore => aliveb (w_k w) (WSem (fst p)) && (0 <=? s_count (snd p))) (map_to_list (o_sems (w_os w))) &&
  forallb (fun p : nat * event => aliveb (w_k w) (WEvent (fst p)) && (e_magic (snd p) =? EVENT_MAGIC))
    (map_to_list (o_events (w_os w))).

Lemma check_initial_ok w : check_initial w = true -> initial w.
Proof.
  unfold check_initial. rewrite !andb_true_iff, !bool_decide_eq_true.
  intros [[[[[[[Hs%check_sinv_ok Ha%check_aux_ok] Hf] Hl] Hlog] Hmu] Hse] Hev].
  destruct (check_frames_ok _ _ Hs Ha Hf) as [Hk Hp].
  pose proof (fun i v => forallb_map _ _ i v Hmu) as Hmu'. pose proof (fun i v => forallb_map _ _ i v Hse) as Hse'.
  pose proof (fun i v => forallb_map _ _ i v Hev) as Hev'. simpl in Hmu', Hse', Hev'. split; try done.
  - by apply nil_length_inv.
  - intros [t|m|s|e|p]; simpl; try done; intros [v Hv].
    + specialize (Hmu' _ _ Hv). rewrite !andb_true_iff in Hmu'. destruct Hmu' as [[[?%bool_decide_eq_true _] _] _]. done.
    + specialize (Hse' _ _ Hv). rewrite !andb_true_iff in Hse'. destruct Hse' as [?%bool_decide_eq_true _]. done.
    + specialize (Hev' _ _ Hv). rewrite !andb_true_iff in Hev'. destruct Hev' as [?%bool_decide_eq_true _]. done.
  - intros m mu Hv. specialize (Hmu' _ _ Hv). rewrite !andb_true_iff, bool_decide_eq_true, !Z.eqb_eq in Hmu'.
    destruct mu. simpl in Hmu'. naive_solver.
  - intros s se Hv. specialize (Hse' _ _ Hv). rewrite !andb_true_iff in Hse'. lia.
  - intros e ev Hv. specialize (Hev' _ _ Hv). rewrite !andb_true_iff, Z.eqb_eq in Hev'. tauto.
Qed.

(** ** A machine with one cpu *)
Module TraceExample.
Import SchedExample.

(** Threads 0 and 2 have priority 16, thread 1 priority 10; there is one object of each kind. *)
Definition kernel0 : kstate :=
  KState
    {[ TIdle 0 := mk_thread 0 THREAD_FLAG_IDLE 0 0 THREAD_READY None;
       TThr 0 := mk_thread 16 0 (-1) 5 THREAD_RUNNING None;
       TThr 1 := mk_thread 10 0 (-1) 5 THREAD_READY None;
       TThr 2 := mk_thread 16 0 (-1) 5 THREAD_READY None ]}
    [TThr 0; TThr 1; TThr 2]
    {[ RunQ 16 := [TThr 2]; RunQ 10 := [TThr 1] ]}
    (2 ^ 16 + 2 ^ 10)
    {[ WMutex 0 := WaitQueue WAIT_QUEUE_MAGIC 0; WSem 0 := WaitQueue WAIT_QUEUE_MAGIC 0;
       WEvent 0 := WaitQueue WAIT_QUEUE_MAGIC 0 ]}
    {[ 0%nat := TThr 0 ]}
    (MpState 1 0 0) []
    (TState {[ TmPreempt 0 := Timer TIMER_MAGIC 0 0 None ]} ∅ ∅ 100)
    ∅ {[ 0%nat := CpuStats 0 0 0 0 0 0 ]} 0 [].

Definition world0 : world :=
  World (Os kernel0 {[ 0%nat := Mutex MUTEX_MAGIC None 0 ]} {[ 0%nat := Semaphore SEMAPHORE_MAGIC 0 ]}
           {[ 0%nat := Event EVENT_MAGIC false EVENT_FLAG_AUTOUNSIGNAL ]})
    {[ TIdle 0 := FNone 0; TThr 1 := FNone 0; TThr 2 := FNone 0 ]} None [].

Lemma world0_initial : initial world0.
Proof. apply check_initial_ok. by vm_compute. Qed.

Definition final (l : list action) : world := default world0 (exec_all l world0).

Lemma final_reachable l : bool_decide (is_Some (exec_all l world0)) = true -> reachable world0 (final l).
Proof.
  intros [w Hw]%bool_decide_eq_true. split; [exact world0_initial|]. unfold final. rewrite Hw.
  by apply (exec_all_steps l).
Qed.

(** ** A wake-up that is lost *)

(** Thread 1 gives up on the mutex of thread 0 after 5 ms; before it runs again thread 0 has
    released the mutex, with nobody to wake, and thread 2 has blocked on it. *)
Definition lost_run : list action :=
  [ACall 0 (Acquire 0 INFINITE_TIME); ACall 0 (Sleep 5); AResume 0; ACall 0 (Sleep 5); AResume 0;
   ACall 0 (Acquire 0 5); AResume 0; AInterrupt 0 105; AResume 0;
   ACall 0 Yield; AResume 0; ACall 0 (Release 0); ACall 0 Yield; AResume 0;
   ACall 0 (Acquire 0 INFINITE_TIME); AResume 0; ACall 0 (Sleep 1000); AResume 0; ACall 0 (Sleep 1000); AResume 0].


(** The same with a semaphore: its unit is posted while thread 1, which has timed out, still
    counts as waiting. *)
Definition lost_sem : list action :=
  [ACall 0 (Sleep 5); AResume 0; ACall 0 (Sleep 5); AResume 0;
   ACall 0 (SemTimedWait 0 5); AResume 0; AInterrupt 0 105; AResume 0;
   ACall 0 Yield; AResume 0; ACall 0 (SemPost 0 true); ACall 0 Yield; AResume 0;
   ACall 0 (SemWait 0); AResume 0; ACall 0 (Sleep 1000); AResume 0; ACall 0 (Sleep 1000); AResume 0].

(** A timeout can cost a semaphore a post: a run of legal calls with one post and no
    successful wait ends with a thread blocked in [sem_wait]. *)
Theorem semaphore_timeout_loses_post :
  exists w, reachable world0 w /\
    number puts (history (WSem 0) (w_log w)) = 1 /\ number takes (history (WSem 0) (w_log w)) = 0 /\
    inside (w_pend w) (WSem 0) = {[TThr 2]} /\ fq (k_queues (w_k w)) (WaitQ (WSem 0)) = [TThr 2] /\
    w_pend w !! TThr 2 = Some (FSemWait 0).
Proof.
  exists (final lost_sem).
  split; [apply final_reachable; vm_compute; reflexivity|].
  split; [vm_compute; reflexivity|]. split; [vm_compute; reflexivity|].
  split; [|split; vm_compute; reflexivity].
  apply leibniz_equiv. apply (bool_decide_eq_true_1 _). vm_compute. reflexivity.
Qed.

(** ** The inputs of the theorems *)

(** Thread 2 waits for the mutex of thread 0 and is handed it. *)
Definition handed_run : list action :=
  [ACall 0 (Acquire 0 INFINITE_TIME); ACall 0 Yield; AResume 0; ACall 0 (Acquire 0 INFINITE_TIME); AResume 0;
   ACall 0 (Release 0); AResume 0; ACall 0 (Release 0)].

(** Threads 0 and 2 wait for the semaphore, and thread 0 gets the unit of thread 1. *)
Definition sem_run : list action :=
  [ACall 0 (SemWait 0); AResume 0; ACall 0 (SemWait 0); AResume 0; ACall 0 (SemPost 0 true); AResume 0].

(** Both are let through by one signal each, and a third one stays. *)
Definition event_run : list action :=
  [ACall 0 (EventWait 0 INFINITE_TIME); AResume 0; ACall 0 (EventWait 0 INFINITE_TIME); AResume 0;
   ACall 0 (EventSignal 0 true); AResume 0; ACall 0 (EventSignal 0 false); ACall 0 (EventSignal 0 false)].

Lemma handed_reachable : reachable world0 (final handed_run).
Proof. apply final_reachable. vm_compute. reflexivity. Qed.

Lemma sem_reachable : reachable world0 (final sem_run).
Proof. apply final_reachable. vm_compute. reflexivity. Qed.

Lemma event_reachable : reachable world0 (final event_run).
Proof. apply final_reachable. vm_compute. reflexivity. Qed.


Lemma threads_are_where_they_belong_witness : TThr 2 ∈ fq (k_queues (w_k (final sem_run))) (WaitQ (WSem 0)).
Proof.
  destruct (threads_are_where_they_belong world0 (final sem_run) sem_reachable) as (Hl & _ & _ & _).
  assert (t_blocking_wait_queue <$> k_threads (w_k (final sem_run)) !! TThr 2 = Some (Some (WSem 0)) /\
          t_state <$> k_threads (w_k (final sem_run)) !! TThr 2 = Some THREAD_BLOCKED) as [Hb Hs] by (vm_compute; done).
  destruct (k_threads (w_k (final sem_run)) !! TThr 2) as [th|] eqn:Ht; [|discriminate Hb].
  specialize (Hl (TThr 2) th Ht). unfold located in Hl. injection Hs as Hs. rewrite Hs in Hl.
  destruct Hl as (q & Hq & Hin). injection Hb as Hb. rewrite Hb in Hq. injection Hq as <-. exact Hin.
Defined.

Lemma mutex_excludes_witness :
  owner (history (WMutex 0) (w_log (final handed_run))) = None /\ exclusive (history (WMutex 0) (w_log (final handed_run))).
Proof.
  destruct (mutex_excludes world0 (final handed_run) 0 (Mutex MUTEX_MAGIC None 0) handed_reachable) as [He Ho];
    [vm_compute; reflexivity|]. split; [exact Ho|exact He].
Defined.

Lemma mutex_count_exact_witness :
  1 = held (Mutex MUTEX_MAGIC None 1) + Z.of_nat (size (inside (w_pend (final lost_run)) (WMutex 0))).
Proof.
  apply (mutex_count_exact world0 (final lost_run) 0 (Mutex MUTEX_MAGIC None 1)); [|vm_compute; reflexivity].
  apply final_reachable. vm_compute. reflexivity.
Defined.



Lemma semaphore_wakes_witness : Z.of_nat (length (fq (k_queues (w_k (final sem_run))) (WaitQ (WSem 0)))) = 1.
Proof.
  apply (semaphore_wakes world0 (final sem_run) 0 (Semaphore SEMAPHORE_MAGIC (-1)) sem_reachable); vm_compute; reflexivity.
Defined.

Lemma event_signals_witness : fq (k_queues (w_k (final event_run))) (WaitQ (WEvent 0)) = [].
Proof.
  refine (proj1 (event_signals world0 (final event_run) 0 (Event EVENT_MAGIC false EVENT_FLAG_AUTOUNSIGNAL)
    (Event EVENT_MAGIC true EVENT_FLAG_AUTOUNSIGNAL) event_reachable _ _) _); vm_compute; reflexivity.
Defined.
End TraceExample.
