(* ===== verification/Cbuf.v ===== *)
(** * Circular buffers

    [lib/cbuf]: a ring of 2^n bytes with one unused slot, read and written by threads and
    interrupt handlers under a spin lock, with an event that is signaled while there is
    something to read.  The theorems show that it is a bounded queue of bytes: the bytes
    from [tail] up to [head], round the end of the buffer. *)

From stdpp Require Import base gmap list numbers.
From S2P Require Import Prelude Pow2 ListNode Timer KState Sched Resched Wait Thread Sync Machine Objects.

(** ** What the buffer needs of its event *)

(** [event_signal] without rescheduling and [event_unsignal] on the event of the buffer; both
    return whatever the state of the kernel is, and the event is as they say. *)
Class EventOps (E : Type) := {
  ev_signal : bool -> M E unit;
  ev_unsignal : M E unit;
  ev_signaled : E -> bool;
  ev_ok : E -> Prop;
  ev_signal_ok s : ev_ok s -> wp (ev_signal false) (fun _ s' => ev_ok s' /\ ev_signaled s' = true) s;
  ev_unsignal_ok s : ev_ok s -> wp ev_unsignal (fun _ s' => ev_ok s' /\ ev_signaled s' = false) s }.

Record cbuf := Cbuf { cb_head : Z; cb_tail : Z; cb_len_pow2 : Z; cb_buf : list Z }.

Record cstate (E : Type) := CState { cs_cbuf : cbuf; cs_event : E }.
Arguments CState {E} _ _.
Arguments cs_cbuf {E} _.
Arguments cs_event {E} _.

Definition set_head (v : Z) (c : cbuf) : cbuf := Cbuf v (cb_tail c) (cb_len_pow2 c) (cb_buf c).
Definition set_tail (v : Z) (c : cbuf) : cbuf := Cbuf (cb_head c) v (cb_len_pow2 c) (cb_buf c).
Definition set_buf (v : list Z) (c : cbuf) : cbuf := Cbuf (cb_head c) (cb_tail c) (cb_len_pow2 c) v.

(** [memcpy] into and out of the buffer, which must stay within it. *)
Definition blit (off : Z) (src dst : list Z) : option (list Z) :=
  if (0 <=? off) && (off + Z.of_nat (length src) <=? Z.of_nat (length dst)) then
    Some (take (Z.to_nat off) dst ++ src ++ drop (Z.to_nat off + length src) dst)
  else None.

Definition slice (off len : Z) (l : list Z) : option (list Z) :=
  if (0 <=? off) && (0 <=? len) && (off + len <=? Z.of_nat (length l)) then
    Some (take (Z.to_nat len) (drop (Z.to_nat off) l))
  else None.

Definition INC_POINTER (c : cbuf) (ptr inc : Z) : Z := modpow2 (u32 (ptr + inc)) (cb_len_pow2 c).

Definition cbuf_size (c : cbuf) : Z := u64 (Z.shiftl 1 (cb_len_pow2 c)).

Definition cbuf_space_used (c : cbuf) : Z := modpow2 (u32 (cb_head c - cb_tail c)) (cb_len_pow2 c).

Definition cbuf_space_avail (c : cbuf) : Z :=
  let consumed := modpow2 (u32 (cb_head c - cb_tail c)) (cb_len_pow2 c) in
  u32 (valpow2 (cb_len_pow2 c) - consumed - 1).

(** How much one pass of the loops moves. *)
Definition write_len (c : cbuf) (left : Z) : Z :=
  if cb_tail c <=? cb_head c then
    if cb_tail c =? 0 then Z.min (u32 (valpow2 (cb_len_pow2 c) - cb_head c - 1)) left
    else Z.min (u32 (valpow2 (cb_len_pow2 c) - cb_head c)) left
  else Z.min (u32 (cb_tail c - cb_head c - 1)) left.

Definition read_len (c : cbuf) (left : Z) : Z :=
  if cb_tail c <? cb_head c then Z.min (u32 (cb_head c - cb_tail c)) left
  else Z.min (u32 (valpow2 (cb_len_pow2 c) - cb_tail c)) left.

(** One of the two regions [cbuf_peek] fills in: an offset into the buffer, or [NULL]. *)
Record iovec := Iovec { iov_base : option Z; iov_len : Z }.

Section ops.
Context {E : Type} `{EventOps E}.

Definition get_cbuf : M (cstate E) cbuf := gets cs_cbuf.
Definition on_cbuf (f : cbuf -> cbuf) : M (cstate E) unit := modify (fun s => CState (f (cs_cbuf s)) (cs_event s)).
Definition on_event {A} (m : M E A) : M (cstate E) A :=
  fun s => match m (cs_event s) with Done a e => Done a (CState (cs_cbuf s) e) | Fault f => Fault f end.

(** [init] is [event_init] of the event, unsignaled and without flags; [buf] is the memory
    handed in. *)
Definition cbuf_initialize_etc (init : M E unit) (len : Z) (buf : list Z) : M (cstate E) unit :=
  massert (0 <? len) ;;
  massert (ispow2 (u32 len)) ;;
  on_cbuf (fun _ => Cbuf 0 0 (log2_uint (u32 len)) buf) ;;
  on_event init.

(** [src] is [None] for a [NULL] buffer: zeros are written. *)
Fixpoint write_loop (fuel : nat) (src : option (list Z)) (len pos : Z) : M (cstate E) Z :=
  match fuel with
  | O => fail OutOfFuel
  | S fuel =>
      do c <- get_cbuf;
      if (pos <? len) && (0 <? cbuf_space_avail c) then
        let write_len := write_len c (len - pos) in
        if write_len =? 0 then ret pos
        else
          do data <- match src with
                     | None => ret (replicate (Z.to_nat write_len) 0)
                     | Some src => deref (slice pos write_len src)
                     end;
          do buf <- deref (blit (cb_head c) data (cb_buf c));
          on_cbuf (set_buf buf) ;;
          on_cbuf (set_head (INC_POINTER c (cb_head c) write_len)) ;;
          write_loop fuel src len (pos + write_len)
      else ret pos
  end.

(** [cbuf_write] under its lock; the call of [thread_preempt] that may follow is the caller's. *)
Definition cbuf_write (src : option (list Z)) (len : Z) : M (cstate E) Z :=
  do c <- get_cbuf;
  massert (len <? valpow2 (cb_len_pow2 c)) ;;
  do pos <- write_loop 3 src len 0;
  do c <- get_cbuf;
  when (negb (cb_head c =? cb_tail c)) (on_event (ev_signal false)) ;;
  ret pos.

Fixpoint read_loop (fuel : nat) (buflen pos : Z) (out : list Z) : M (cstate E) (Z * list Z) :=
  match fuel with
  | O => fail OutOfFuel
  | S fuel =>
      do c <- get_cbuf;
      if (pos <? buflen) && negb (cb_tail c =? cb_head c) then
        let read_len := read_len c (buflen - pos) in
        do data <- deref (slice (cb_tail c) read_len (cb_buf c));
        on_cbuf (set_tail (INC_POINTER c (cb_tail c) read_len)) ;;
        read_loop fuel buflen (pos + read_len) (out ++ data)
      else ret (pos, out)
  end.

(** One attempt of [cbuf_read], under its lock: how much was read, and what, which a caller that
    passes [NULL] does not look at. *)
Definition cbuf_read_locked (buflen : Z) : M (cstate E) (Z * list Z) :=
  do c <- get_cbuf;
  if negb (cb_tail c =? cb_head c) then
    do ' (pos, out) <- read_loop 3 buflen 0 [];
    do c <- get_cbuf;
    when (cb_tail c =? cb_head c) (massert (0 <? pos) ;; on_event ev_unsignal) ;;
    ret (pos, out)
  else ret (0, []).

(** [wait] is [event_wait] on the event, during which other threads run. *)
Fixpoint cbuf_read (fuel : nat) (wait : M (cstate E) unit) (buflen : Z) (block : bool) : M (cstate E) (Z * list Z) :=
  match fuel with
  | O => fail OutOfFuel
  | S fuel =>
      when block wait ;;
      do r <- cbuf_read_locked buflen;
      if block && (fst r =? 0) then cbuf_read fuel wait buflen block else ret r
  end.

Definition cbuf_peek : M (cstate E) (Z * (iovec * iovec)) :=
  do c <- get_cbuf;
  let used := cbuf_space_used c in
  let sz := cbuf_size c in
  massert (cb_tail c <? sz) ;;
  massert (used <=? sz) ;;
  let base := if used =? 0 then None else Some (cb_tail c) in
  ret (used,
    if sz <? used + cb_tail c then
      (Iovec base (sz - cb_tail c), Iovec (Some 0) (used - (sz - cb_tail c)))
    else (Iovec base used, Iovec None 0)).

Definition cbuf_write_char (ch : Z) (canreschedule : bool) : M (cstate E) Z :=
  do c <- get_cbuf;
  if 0 <? cbuf_space_avail c then
    do buf <- deref (blit (cb_head c) [ch] (cb_buf c));
    on_cbuf (set_buf buf) ;;
    on_cbuf (set_head (INC_POINTER c (cb_head c) 1)) ;;
    do c <- get_cbuf;
    when (negb (cb_head c =? cb_tail c)) (on_event (ev_signal canreschedule)) ;;
    ret 1
  else ret 0.

Definition cbuf_read_char_locked : M (cstate E) (Z * list Z) :=
  do c <- get_cbuf;
  if negb (cb_tail c =? cb_head c) then
    do ch <- deref (slice (cb_tail c) 1 (cb_buf c));
    on_cbuf (set_tail (INC_POINTER c (cb_tail c) 1)) ;;
    do c <- get_cbuf;
    when (cb_tail c =? cb_head c) (on_event ev_unsignal) ;;
    ret (1, ch)
  else ret (0, []).

Fixpoint cbuf_read_char (fuel : nat) (wait : M (cstate E) unit) (block : bool) : M (cstate E) (Z * list Z) :=
  match fuel with
  | O => fail OutOfFuel
  | S fuel =>
      when block wait ;;
      do r <- cbuf_read_char_locked;
      if block && (fst r =? 0) then cbuf_read_char fuel wait block else ret r
  end.

Definition cbuf_reset (wait : M (cstate E) unit) : M (cstate E) unit :=
  do c <- get_cbuf;
  cbuf_read 1 wait (cbuf_size c) false ;; ret tt.
End ops.

(** ** The bytes of the ring *)

(** From [t] up to [h], round the end. *)
Definition ring (t h : nat) (buf : list Z) : list Z :=
  if (t <=? h)%nat then take (h - t) (drop t buf) else drop t buf ++ take h buf.

Section ring.
Implicit Types (t h w : nat) (buf data : list Z).

Lemma ring_length t h buf : (t < length buf)%nat -> (h < length buf)%nat ->
  length (ring t h buf) = (if (t <=? h)%nat then h - t else length buf - t + h)%nat.
Proof.
  intros Ht Hh. unfold ring. destruct (Nat.leb_spec t h); rewrite ?length_app, ?length_take, ?length_drop; lia.
Qed.

(** Writing [data] at the head, up to the end of the buffer. *)
Lemma ring_write_high t h h' buf data :
  (t <= h)%nat -> (h < length buf)%nat -> (h + length data <= length buf)%nat ->
  (if (h + length data =? length buf)%nat then h' = 0%nat /\ (0 < t)%nat else h' = (h + length data)%nat) ->
  ring t h' (take h buf ++ data ++ drop (h + length data) buf) = ring t h buf ++ data.
Proof.
  intros Hth Hh Hw Hh'. unfold ring. rewrite (proj2 (Nat.leb_le t h)) by done.
  assert (drop t (take h buf ++ data ++ drop (h + length data) buf) =
          take (h - t) (drop t buf) ++ data ++ drop (h + length data) buf) as E.
  { rewrite drop_app_le by (rewrite length_take; lia). by rewrite skipn_firstn_comm. }
  destruct (Nat.eqb_spec (h + length data) (length buf)) as [El|El].
  - destruct Hh' as [-> Ht]. rewrite (proj2 (Nat.leb_gt t 0)) by lia. rewrite E, take_0, !app_nil_r.
    by rewrite (drop_ge buf (h + length data)), app_nil_r by lia.
  - subst h'. rewrite (proj2 (Nat.leb_le _ _)) by lia. rewrite E, app_assoc.
    apply take_app_length'. rewrite length_app, length_take, length_drop. lia.
Qed.

(** Writing [data] at the head, below the tail. *)
Lemma ring_write_low t h buf data :
  (h < t)%nat -> (t <= length buf)%nat -> (h + length data < t)%nat ->
  ring t (h + length data) (take h buf ++ data ++ drop (h + length data) buf) = ring t h buf ++ data.
Proof.
  intros Hht Ht Hw. unfold ring. rewrite !(proj2 (Nat.leb_gt t _)) by lia. rewrite <- app_assoc. f_equal.
  - rewrite app_assoc, drop_app_ge by (rewrite length_app, length_take; lia).
    rewrite length_app, length_take, drop_drop. f_equal. lia.
  - rewrite app_assoc. apply take_app_length'. rewrite length_app, length_take. lia.
Qed.

(** Reading at the tail. *)
Lemma ring_read t h t' w buf :
  (t < length buf)%nat -> (h < length buf)%nat -> (t <> h)%nat ->
  (if (t <? h)%nat then (w <= h - t)%nat else (t + w <= length buf)%nat) ->
  (t' = if (t + w =? length buf)%nat then 0 else t + w)%nat ->
  ring t h buf = take w (drop t buf) ++ ring t' h buf.
Proof.
  intros Ht Hh Hne Hw ->. unfold ring. destruct (Nat.ltb_spec t h).
  - rewrite (proj2 (Nat.eqb_neq (t + w) _)) by lia. rewrite !(proj2 (Nat.leb_le _ h)) by lia.
    rewrite <- drop_drop. rewrite <- (take_drop w (take (h - t) (drop t buf))) at 1.
    rewrite take_take, Nat.min_l by lia. f_equal. rewrite skipn_firstn_comm. f_equal. lia.
  - rewrite (proj2 (Nat.leb_gt t h)) by lia. destruct (Nat.eqb_spec (t + w) (length buf)) as [E|E].
    + rewrite Nat.sub_0_r, drop_0. simpl. f_equal. rewrite take_ge; [done|]. rewrite length_drop. lia.
    + rewrite (proj2 (Nat.leb_gt _ h)) by lia. rewrite app_assoc, <- drop_drop, take_drop. done.
Qed.
End ring.

(** ** The buffer as a queue *)

Record cwf (c : cbuf) : Prop := {
  cw_len : 0 <= cb_len_pow2 c < 32;
  cw_buf : Z.of_nat (length (cb_buf c)) = 2 ^ cb_len_pow2 c;
  cw_head : 0 <= cb_head c < 2 ^ cb_len_pow2 c;
  cw_tail : 0 <= cb_tail c < 2 ^ cb_len_pow2 c }.

Definition contents (c : cbuf) : list Z := ring (Z.to_nat (cb_tail c)) (Z.to_nat (cb_head c)) (cb_buf c).

Definition capacity (c : cbuf) : Z := 2 ^ cb_len_pow2 c - 1.

Section cbuf_facts.
Implicit Types (c : cbuf).

Lemma cwf_size c : cwf c -> valpow2 (cb_len_pow2 c) = 2 ^ cb_len_pow2 c /\ 0 < 2 ^ cb_len_pow2 c <= 2 ^ 31.
Proof.
  intros [H1 _ _ _]. split; [by apply valpow2_pow|]. split; [lia|]. apply Z.pow_le_mono_r; lia.
Qed.

Lemma contents_length c : cwf c ->
  Z.of_nat (length (contents c)) =
    if cb_tail c <=? cb_head c then cb_head c - cb_tail c else 2 ^ cb_len_pow2 c - cb_tail c + cb_head c.
Proof.
  intros [H1 H2 H3 H4]. unfold contents. rewrite ring_length by lia.
  destruct (Z.leb_spec (cb_tail c) (cb_head c)), (Nat.leb_spec (Z.to_nat (cb_tail c)) (Z.to_nat (cb_head c))); lia.
Qed.

Lemma space_used_contents c : cwf c -> cbuf_space_used c = Z.of_nat (length (contents c)).
Proof.
  intros Hc. pose proof (cwf_size c Hc) as [_ Hs]. pose proof Hc as [H1 H2 H3 H4]. rewrite contents_length by done.
  unfold cbuf_space_used. rewrite modpow2_u32 by lia.
  destruct (Z.leb_spec (cb_tail c) (cb_head c)); [apply Z.mod_small; lia|].
  rewrite <- (Z.mod_add _ 1) by lia. rewrite Z.mod_small; lia.
Qed.

Lemma space_avail_contents c : cwf c -> cbuf_space_avail c = capacity c - Z.of_nat (length (contents c)).
Proof.
  intros Hc. pose proof (cwf_size c Hc) as [Hv Hs]. pose proof (space_used_contents c Hc) as Hu.
  pose proof (contents_length c Hc) as Hl. pose proof Hc as [H1 H2 H3 H4].
  unfold cbuf_space_avail. fold (cbuf_space_used c). rewrite Hu, Hv, u32_small; unfold capacity; [lia|].
  destruct (Z.leb_spec (cb_tail c) (cb_head c)); lia.
Qed.

Lemma contents_bound c : cwf c -> Z.of_nat (length (contents c)) <= capacity c.
Proof.
  intros Hc. pose proof (contents_length c Hc) as Hl. destruct Hc as [H1 H2 H3 H4]. unfold capacity.
  destruct (Z.leb_spec (cb_tail c) (cb_head c)); lia.
Qed.

Lemma contents_empty c : cwf c -> contents c = [] <-> cb_head c = cb_tail c.
Proof.
  intros Hc. pose proof (contents_length c Hc) as Hl. destruct Hc as [H1 H2 H3 H4].
  split; [intros E; rewrite E in Hl; simpl in Hl|intros E; apply nil_length_inv];
    destruct (Z.leb_spec (cb_tail c) (cb_head c)); lia.
Qed.

Lemma inc_pointer c ptr inc : cwf c -> 0 <= ptr -> 0 <= inc -> ptr + inc <= 2 ^ cb_len_pow2 c ->
  INC_POINTER c ptr inc = if ptr + inc =? 2 ^ cb_len_pow2 c then 0 else ptr + inc.
Proof.
  intros Hc Hp Hi Hle. pose proof (cwf_size c Hc) as [_ Hs]. destruct Hc as [H1 _ _ _].
  unfold INC_POINTER. rewrite u32_small, modpow2_mod by lia.
  destruct (Z.eqb_spec (ptr + inc) (2 ^ cb_len_pow2 c)) as [->|]; [apply Z_mod_same_full|apply Z.mod_small; lia].
Qed.

(** One pass of [cbuf_write]. *)
Lemma write_pass c left data w :
  cwf c -> 0 < left -> w = write_len c left -> length data = Z.to_nat w -> 0 < cbuf_space_avail c ->
  0 < w <= left /\ w <= capacity c - Z.of_nat (length (contents c)) /\
  exists buf, blit (cb_head c) data (cb_buf c) = Some buf /\
    let c' := set_head (INC_POINTER c (cb_head c) w) (set_buf buf c) in
    cwf c' /\ contents c' = contents c ++ data /\
    (w = left \/ (w = capacity c - Z.of_nat (length (contents c))) \/ cb_head c' = 0 /\ 0 < cb_tail c <= cb_head c).
Proof.
  intros Hc Hl Hw Hd Hav. pose proof (cwf_size c Hc) as [Hv Hs]. rewrite (space_avail_contents c Hc) in Hav.
  pose proof (contents_length c Hc) as Hlen. pose proof Hc as [H1 H2 H3 H4].
  unfold write_len in Hw. rewrite Hv in Hw. unfold capacity in *.
  assert (0 < w <= left /\ cb_head c + w <= 2 ^ cb_len_pow2 c /\
    (if cb_tail c <=? cb_head c then cb_head c + w = 2 ^ cb_len_pow2 c -> 0 < cb_tail c else cb_head c + w < cb_tail c) /\
    w <= 2 ^ cb_len_pow2 c - 1 - Z.of_nat (length (contents c)) /\
    (w = left \/ w = 2 ^ cb_len_pow2 c - 1 - Z.of_nat (length (contents c)) \/
     cb_head c + w = 2 ^ cb_len_pow2 c /\ 0 < cb_tail c <= cb_head c)) as (Hw1 & Hw2 & Hw3 & Hw4 & Hw5).
  { destruct (Z.leb_spec (cb_tail c) (cb_head c)); [destruct (Z.eqb_spec (cb_tail c) 0)|]; rewrite u32_small in Hw by lia; lia. }
  clear Hw. split; [done|]. split; [done|].
  set (h := Z.to_nat (cb_head c)). exists (take h (cb_buf c) ++ data ++ drop (h + length data) (cb_buf c)).
  split; [unfold blit; rewrite (proj2 (Z.leb_le 0 _)), (proj2 (Z.leb_le _ _)) by lia; done|].
  cbv zeta. rewrite inc_pointer by (done || lia). set (c' := set_head _ _). split; [|split].
  - split; simpl; try done; [rewrite !length_app, length_take, length_drop; lia|].
    destruct (Z.eqb_spec (cb_head c + w) (2 ^ cb_len_pow2 c)); lia.
  - unfold contents. simpl. fold h. destruct (Z.leb_spec (cb_tail c) (cb_head c)) as [Hth|Hth].
    + apply ring_write_high; try lia. destruct (Nat.eqb_spec (h + length data) (length (cb_buf c)));
        destruct (Z.eqb_spec (cb_head c + w) (2 ^ cb_len_pow2 c)); lia.
    + destruct (Z.eqb_spec (cb_head c + w) (2 ^ cb_len_pow2 c)); [lia|].
      replace (Z.to_nat (cb_head c + w)) with (h + length data)%nat by lia. apply ring_write_low; lia.
  - simpl. destruct (Z.eqb_spec (cb_head c + w) (2 ^ cb_len_pow2 c)); lia.
Qed.

(** One pass of [cbuf_read]. *)
Lemma read_pass c left r :
  cwf c -> 0 < left -> r = read_len c left -> cb_tail c <> cb_head c ->
  0 < r <= left /\
  exists data, slice (cb_tail c) r (cb_buf c) = Some data /\ Z.of_nat (length data) = r /\
    let c' := set_tail (INC_POINTER c (cb_tail c) r) c in
    cwf c' /\ contents c = data ++ contents c' /\ (r = left \/ contents c' = [] \/ cb_tail c' = 0 /\ cb_head c < cb_tail c).
Proof.
  intros Hc Hl Hr Hne. pose proof (cwf_size c Hc) as [Hv Hs]. pose proof Hc as [H1 H2 H3 H4].
  unfold read_len in Hr. rewrite Hv in Hr.
  assert (0 < r <= left /\ cb_tail c + r <= 2 ^ cb_len_pow2 c /\
    (if cb_tail c <? cb_head c then r <= cb_head c - cb_tail c else True) /\
    (r = left \/ cb_tail c + r = cb_head c \/ cb_tail c + r = 2 ^ cb_len_pow2 c /\ cb_head c < cb_tail c)) as (Hr1 & Hr2 & Hr3 & Hr4).
  { destruct (Z.ltb_spec (cb_tail c) (cb_head c)); rewrite u32_small in Hr by lia; lia. }
  clear Hr. split; [done|]. exists (take (Z.to_nat r) (drop (Z.to_nat (cb_tail c)) (cb_buf c))).
  split; [unfold slice; rewrite (proj2 (Z.leb_le 0 (cb_tail c))), (proj2 (Z.leb_le 0 r)), (proj2 (Z.leb_le _ _)) by lia; done|].
  split; [rewrite length_take, length_drop; lia|]. cbv zeta. rewrite inc_pointer by (done || lia). set (c' := set_tail _ _).
  assert (cwf c') as Hc'.
  { split; simpl; try done. destruct (Z.eqb_spec (cb_tail c + r) (2 ^ cb_len_pow2 c)); lia. }
  split; [done|]. split.
  - unfold contents. simpl. apply ring_read; try lia.
    + destruct (Nat.ltb_spec (Z.to_nat (cb_tail c)) (Z.to_nat (cb_head c))), (Z.ltb_spec (cb_tail c) (cb_head c)); lia.
    + destruct (Z.eqb_spec (cb_tail c + r) (2 ^ cb_len_pow2 c)), (Nat.eqb_spec (Z.to_nat (cb_tail c) + Z.to_nat r) (length (cb_buf c))); lia.
  - rewrite (contents_empty c' Hc'). simpl. destruct (Z.eqb_spec (cb_tail c + r) (2 ^ cb_len_pow2 c)); lia.
Qed.
End cbuf_facts.

Section op_facts.
Context {E : Type} `{EventOps E}.
Implicit Types (s : cstate E) (c : cbuf).

Lemma on_event_wp {A} (m : M E A) (Q : A -> cstate E -> Prop) s :
  wp m (fun a e => Q a (CState (cs_cbuf s) e)) (cs_event s) -> wp (on_event m) Q s.
Proof. unfold wp, on_event. by destruct (m (cs_event s)). Qed.

(** What [cbuf_write] is to write: the bytes of its argument, or zeros. *)
Definition bytes_of (src : option (list Z)) (len : Z) : list Z :=
  match src with Some l => take (Z.to_nat len) l | None => replicate (Z.to_nat len) 0 end.

Definition src_ok (src : option (list Z)) (len : Z) : Prop :=
  match src with Some l => len <= Z.of_nat (length l) | None => True end.

Lemma bytes_of_length src len : 0 <= len -> src_ok src len -> Z.of_nat (length (bytes_of src len)) = len.
Proof. destruct src; simpl; intros; rewrite ?length_take, ?length_replicate; lia. Qed.

(** The data of one pass. *)
Lemma source_wp src len pos w (Q : list Z -> cstate E -> Prop) s :
  0 <= pos -> 0 <= w -> pos + w <= len -> src_ok src len ->
  Q (take (Z.to_nat w) (drop (Z.to_nat pos) (bytes_of src len))) s ->
  wp (match src with None => ret (replicate (Z.to_nat w) 0) | Some src => deref (slice pos w src) end) Q s.
Proof.
  intros Hp Hw Hle Hs HQ. destruct src as [l|]; simpl in *.
  - unfold slice. rewrite (proj2 (Z.leb_le 0 pos)), (proj2 (Z.leb_le 0 w)), (proj2 (Z.leb_le _ _)) by lia.
    wp_step; [done|]. rewrite skipn_firstn_comm, take_take, Nat.min_l in HQ by lia. done.
  - wp_step. rewrite drop_replicate, take_replicate, Nat.min_l in HQ by lia. done.
Qed.

(** How many passes are left at most. *)
Definition write_passes c (left : Z) : nat :=
  if (left =? 0) || (cbuf_space_avail c =? 0) then 1 else if cb_head c <? cb_tail c then 2 else 3.

Lemma write_passes_pass c left w c' data fuel left' :
  cwf c -> cwf c' -> contents c' = contents c ++ data -> Z.of_nat (length data) = w -> cb_len_pow2 c' = cb_len_pow2 c ->
  cb_tail c' = cb_tail c -> 0 < left -> 0 < cbuf_space_avail c ->
  (w = left \/ w = capacity c - Z.of_nat (length (contents c)) \/ cb_head c' = 0 /\ 0 < cb_tail c <= cb_head c) ->
  left' = left - w -> (write_passes c left <= S fuel)%nat -> (write_passes c' left' <= fuel)%nat.
Proof.
  intros Hc Hc' Hcon Hd El Et Hl Ha Hend -> Hf. unfold write_passes in *.
  rewrite (proj2 (Z.eqb_neq left 0)), (proj2 (Z.eqb_neq (cbuf_space_avail c) 0)) in Hf by lia. simpl in Hf.
  destruct (Z.eqb_spec (left - w) 0); simpl; [destruct (cb_head c <? cb_tail c); lia|].
  destruct (Z.eqb_spec (cbuf_space_avail c') 0) as [|Hne]; simpl; [destruct (cb_head c <? cb_tail c); lia|].
  rewrite (space_avail_contents c' Hc'), Hcon, length_app in Hne. unfold capacity in *. rewrite El in Hne.
  destruct Hend as [?|[?|[Hh Ht]]]; [lia|lia|]. rewrite Hh, Et, (proj2 (Z.ltb_lt 0 _)) by lia.
  rewrite (proj2 (Z.ltb_ge _ _)) in Hf by lia. lia.
Qed.

Lemma write_loop_wp src len q : src_ok src len -> forall fuel pos s,
  cwf (cs_cbuf s) -> 0 <= pos <= len -> contents (cs_cbuf s) = q ++ take (Z.to_nat pos) (bytes_of src len) ->
  (write_passes (cs_cbuf s) (len - pos) <= fuel)%nat ->
  wp (write_loop fuel src len pos)
    (fun p s' => p = Z.min len (capacity (cs_cbuf s) - Z.of_nat (length q)) /\ cwf (cs_cbuf s') /\
       cb_len_pow2 (cs_cbuf s') = cb_len_pow2 (cs_cbuf s) /\ cs_event s' = cs_event s /\
       contents (cs_cbuf s') = q ++ take (Z.to_nat p) (bytes_of src len)) s.
Proof.
  intros Hsrc. induction fuel as [|fuel IH]; intros pos s Hc Hp Hq Hf.
  { unfold write_passes in Hf. destruct (_ || _); [lia|]. destruct (_ <? _); lia. }
  set (c := cs_cbuf s) in *. pose proof (space_avail_contents c Hc) as Hav. pose proof (contents_bound c Hc) as Hb.
  pose proof (bytes_of_length src len ltac:(lia) Hsrc) as Hlen.
  assert (Z.of_nat (length (contents c)) = Z.of_nat (length q) + pos) as Hl.
  { rewrite Hq, length_app, length_take. lia. }
  cbn [write_loop]. wp_step. unfold get_cbuf. wp_step. fold c. unfold write_passes in Hf.
  destruct (Z.ltb_spec pos len) as [Hlt|Hge]; simpl; [destruct (Z.ltb_spec 0 (cbuf_space_avail c)) as [Ha|Ha]|]; simpl.
  - set (w := write_len c (len - pos)).
    set (data := take (Z.to_nat w) (drop (Z.to_nat pos) (bytes_of src len))).
    assert (0 < w <= len - pos -> length data = Z.to_nat w) as Hd by (intros; unfold data; rewrite length_take, length_drop; lia).
    assert (0 < w <= len - pos) as Hw.
    { destruct (write_pass c (len - pos) (replicate (Z.to_nat w) 0) w Hc ltac:(lia) eq_refl ltac:(by rewrite length_replicate) Ha) as [? _]. done. }
    destruct (write_pass c (len - pos) data w Hc ltac:(lia) eq_refl (Hd Hw) Ha) as (_ & Hw2 & buf & Hbl & Hc' & Hcon & Hend).
    rewrite (proj2 (Z.eqb_neq w 0)) by lia. wp_step. apply (source_wp src len pos w); [lia..|done|]. fold data.
    wp_step. wp_step; [exact Hbl|]. unfold on_cbuf. do 4 wp_step. fold c.
    set (s' := CState _ _). change (cs_cbuf s') with (set_head (INC_POINTER c (cb_head c) w) (set_buf buf c)) in *.
    eapply wp_mono.
    { apply (IH (pos + w) s'); [exact Hc'|lia| |].
      - change (cs_cbuf s') with (set_head (INC_POINTER c (cb_head c) w) (set_buf buf c)). rewrite Hcon, Hq, <- app_assoc. f_equal.
        unfold data. rewrite Z2Nat.inj_add by lia. by rewrite take_take_drop.
      - apply (write_passes_pass c (len - pos) w _ data); try done; try lia; rewrite Hd by done; lia. }
    intros p s2 (-> & Hc2 & El2 & Ee2 & Hq2). split_and!; try done.
  - wp_step. split_and!; [unfold capacity in *; lia|done..].
  - wp_step. assert (pos = len) as -> by lia. split_and!; [lia|done..].
Qed.

Definition read_passes c (left : Z) : nat :=
  if (left =? 0) || (cb_tail c =? cb_head c) then 1 else if cb_tail c <? cb_head c then 2 else 3.

Lemma read_loop_wp len q : forall fuel pos out s,
  cwf (cs_cbuf s) -> 0 <= pos <= len -> Z.of_nat (length out) = pos -> q = out ++ contents (cs_cbuf s) ->
  (read_passes (cs_cbuf s) (len - pos) <= fuel)%nat ->
  wp (read_loop fuel len pos out)
    (fun r s' => r = (Z.min len (Z.of_nat (length q)), take (Z.to_nat len) q) /\ cwf (cs_cbuf s') /\
       cb_len_pow2 (cs_cbuf s') = cb_len_pow2 (cs_cbuf s) /\ cs_event s' = cs_event s /\
       contents (cs_cbuf s') = drop (Z.to_nat len) q) s.
Proof.
  induction fuel as [|fuel IH]; intros pos out s Hc Hp Ho Hq Hf.
  { unfold read_passes in Hf. destruct (_ || _); [lia|]. destruct (_ <? _); lia. }
  set (c := cs_cbuf s) in *. cbn [read_loop]. wp_step. unfold get_cbuf. wp_step. fold c. unfold read_passes in Hf.
  destruct (Z.ltb_spec pos len) as [Hlt|Hge]; simpl; [destruct (Z.eqb_spec (cb_tail c) (cb_head c)) as [Ee|Ee]|]; simpl.
  - assert (contents c = []) as En by by apply contents_empty. rewrite En, app_nil_r in Hq. subst q. wp_step.
    split_and!; try done; [rewrite take_ge by lia; f_equal; lia|]. fold c. by rewrite En, drop_ge by lia.
  - set (r := read_len c (len - pos)).
    destruct (read_pass c (len - pos) r Hc ltac:(lia) eq_refl Ee) as (Hr & data & Hsl & Hd & Hc' & Hcon & Hend).
    wp_step. wp_step; [exact Hsl|]. unfold on_cbuf. wp_step. wp_step. fold c.
    set (s' := CState _ _). eapply wp_mono.
    { apply (IH (pos + r) (out ++ data) s'); [exact Hc'|lia|rewrite length_app; lia| |].
      - change (cs_cbuf s') with (set_tail (INC_POINTER c (cb_tail c) r) c). by rewrite <- app_assoc, <- Hcon.
      - change (cs_cbuf s') with (set_tail (INC_POINTER c (cb_tail c) r) c). unfold read_passes.
        rewrite (proj2 (Z.eqb_neq (len - pos) 0)) in Hf by lia. simpl in Hf.
        destruct (Z.eqb_spec (len - (pos + r)) 0); simpl; [destruct (cb_tail c <? cb_head c); lia|].
        destruct Hend as [?|[He|[Ht Hh]]]; [lia| |].
        + apply contents_empty in He; [|done]. simpl in He. rewrite He, Z.eqb_refl. destruct (cb_tail c <? cb_head c); lia.
        + simpl in Ht. rewrite (proj2 (Z.ltb_ge (cb_tail c) _)) in Hf by lia. rewrite Ht. destruct Hc as [_ _ Hh' _].
          destruct (Z.eqb_spec 0 (cb_head c)); [lia|]. rewrite (proj2 (Z.ltb_lt 0 _)) by lia. lia. }
    intros r' s2 (-> & Hc2 & El2 & Ee2 & Hq2). split_and!; done.
  - wp_step. assert (pos = len) as <- by lia. subst q. rewrite length_app, take_app_length', drop_app_length' by lia.
    split_and!; try done. f_equal. lia.
Qed.

(** ** The queue the buffer implements *)

(** The state between two operations: what is signaled is that there is something to read. *)
Record cinv s : Prop := {
  ci_wf : cwf (cs_cbuf s);
  ci_event : ev_ok (cs_event s);
  ci_signaled : ev_signaled (cs_event s) = negb (bool_decide (contents (cs_cbuf s) = [])) }.

Definition becomes s s' (q : list Z) : Prop :=
  cinv s' /\ contents (cs_cbuf s') = q /\ cb_len_pow2 (cs_cbuf s') = cb_len_pow2 (cs_cbuf s).

Lemma head_tail_nonempty c : cwf c -> (cb_head c =? cb_tail c) = bool_decide (contents c = []).
Proof.
  intros Hc. pose proof (contents_empty c Hc). destruct (Z.eqb_spec (cb_head c) (cb_tail c)); symmetry;
    [apply bool_decide_eq_true|apply bool_decide_eq_false]; tauto.
Qed.

Lemma cbuf_write_wp src len s :
  cinv s -> 0 <= len < 2 ^ cb_len_pow2 (cs_cbuf s) -> src_ok src len ->
  let q := contents (cs_cbuf s) in
  let n := Z.min len (capacity (cs_cbuf s) - Z.of_nat (length q)) in
  wp (cbuf_write src len) (fun r s' => r = n /\ becomes s s' (q ++ take (Z.to_nat n) (bytes_of src len))) s.
Proof.
  intros [Hc Ho Hs] Hl Hsrc q n. unfold cbuf_write. wp_step. unfold get_cbuf. wp_step.
  destruct (cwf_size _ Hc) as [-> _]. do 2 wp_step; [lia|]. wp_step. eapply wp_mono.
  { apply (write_loop_wp src len q Hsrc 3 0 s Hc ltac:(lia)); [by rewrite take_0, app_nil_r|].
    unfold write_passes. destruct (_ || _); [lia|]. destruct (_ <? _); lia. }
  intros p s' (-> & Hc' & El & Ee & Hq). fold n in Hq |- *. wp_step. wp_step. rewrite head_tail_nonempty by done. wp_step.
  apply wp_when; intros Hb.
  - apply on_event_wp. eapply wp_mono; [apply ev_signal_ok; by rewrite Ee|]. intros ? e [He Hse]. wp_step.
    split; [done|]. split; [|done]. split; [done|done|]. simpl. by rewrite Hse, Hb.
  - wp_step. split; [done|]. split; [|done]. split; [done|by rewrite Ee|]. rewrite Ee, Hs, Hb.
    apply negb_false_iff, bool_decide_eq_true in Hb. rewrite Hq in Hb. apply app_nil in Hb as [Hb _].
    apply negb_false_iff. by apply bool_decide_eq_true.
Qed.

Lemma cbuf_read_locked_wp len s : cinv s -> 0 <= len ->
  let q := contents (cs_cbuf s) in
  wp (cbuf_read_locked len)
    (fun r s' => r = (Z.min len (Z.of_nat (length q)), take (Z.to_nat len) q) /\ becomes s s' (drop (Z.to_nat len) q)) s.
Proof.
  intros Hi Hl q. pose proof Hi as [Hc Ho Hs]. unfold cbuf_read_locked. wp_step. unfold get_cbuf. wp_step.
  destruct (Z.eqb_spec (cb_tail (cs_cbuf s)) (cb_head (cs_cbuf s))) as [Ee|Ee]; simpl.
  - assert (q = []) as En by (by apply contents_empty). wp_step. rewrite En, take_nil, drop_nil. simpl.
    split; [f_equal; lia|]. by split.
  - wp_step. eapply wp_mono.
    { apply (read_loop_wp len q 3 0 [] s Hc ltac:(lia)); [done|done|].
      unfold read_passes. destruct (_ || _); [lia|]. destruct (_ <? _); lia. }
    intros r s' (-> & Hc' & El & Eev & Hq). cbv beta iota. wp_step. wp_step.
    assert (q <> []) as Hne by (intros En; apply contents_empty in En; [congruence|done]).
    rewrite Z.eqb_sym, head_tail_nonempty by done. wp_step. apply wp_when; intros Hb.
    + apply bool_decide_eq_true in Hb. do 2 wp_step.
      { rewrite Hq in Hb. apply (f_equal length) in Hb. rewrite length_drop in Hb. simpl in Hb.
        assert (length q <> 0%nat) by (intros E0; by apply nil_length_inv in E0). lia. }
      apply on_event_wp. eapply wp_mono; [apply ev_unsignal_ok; by rewrite Eev|]. intros ? e [He Hse]. wp_step.
      split; [done|]. split; [|done]. split; [done|done|]. simpl. by rewrite Hse, bool_decide_true.
    + wp_step. split; [done|]. split; [|done]. split; [done|by rewrite Eev|]. rewrite Eev, Hs, Hb, bool_decide_false; done.
Qed.

Lemma cbuf_write_char_wp ch s : cinv s ->
  let q := contents (cs_cbuf s) in
  wp (cbuf_write_char ch false)
    (fun r s' => r = Z.min 1 (capacity (cs_cbuf s) - Z.of_nat (length q)) /\
       becomes s s' (q ++ take (Z.to_nat r) [ch])) s.
Proof.
  intros [Hc Ho Hs] q. set (c := cs_cbuf s) in *. pose proof (space_avail_contents c Hc) as Hav.
  pose proof (contents_bound c Hc) as Hb. unfold cbuf_write_char. wp_step. unfold get_cbuf. wp_step. fold c.
  destruct (Z.ltb_spec 0 (cbuf_space_avail c)) as [Ha|Ha].
  - assert (write_len c 1 = 1) as Ew.
    { destruct (write_pass c 1 (replicate (Z.to_nat (write_len c 1)) 0) _ Hc ltac:(lia) eq_refl ltac:(apply length_replicate) Ha) as [? _]. lia. }
    destruct (write_pass c 1 [ch] 1 Hc ltac:(lia) (eq_sym Ew) eq_refl Ha) as (_ & Hle & buf & Hbl & Hc' & Hcon & _).
    wp_step. wp_step; [exact Hbl|]. unfold on_cbuf. do 4 wp_step. fold c. wp_step. wp_step.
    set (c' := set_head (INC_POINTER c (cb_head c) 1) (set_buf buf c)) in *.
    cbn [cs_cbuf cs_event]. fold c. fold c'. rewrite head_tail_nonempty by done.
    rewrite bool_decide_false by (rewrite Hcon; by destruct (contents c)). simpl. wp_step. apply on_event_wp.
    eapply wp_mono; [by apply ev_signal_ok|]. intros ? e [He Hse]. wp_step. unfold q. split; [lia|]. split; [|done].
    split; [done|done|]. simpl. fold c'. rewrite Hse, bool_decide_false; [done|]. rewrite Hcon. by destruct (contents c).
  - wp_step. unfold q. split; [lia|]. rewrite take_0, app_nil_r. by split.
Qed.

Lemma cbuf_read_char_locked_wp s : cinv s ->
  let q := contents (cs_cbuf s) in
  wp cbuf_read_char_locked
    (fun r s' => r = (Z.min 1 (Z.of_nat (length q)), take 1 q) /\ becomes s s' (drop 1 q)) s.
Proof.
  intros Hi q. pose proof Hi as [Hc Ho Hs]. set (c := cs_cbuf s) in *.
  unfold cbuf_read_char_locked. wp_step. unfold get_cbuf. wp_step. fold c.
  destruct (Z.eqb_spec (cb_tail c) (cb_head c)) as [Ee|Ee]; simpl.
  - assert (q = []) as En by (by apply contents_empty). wp_step. rewrite En. split; [done|]. by split.
  - assert (read_len c 1 = 1) as Er.
    { destruct (read_pass c 1 _ Hc ltac:(lia) eq_refl Ee) as [? _]. lia. }
    destruct (read_pass c 1 1 Hc ltac:(lia) (eq_sym Er) Ee) as (_ & data & Hsl & Hd & Hc' & Hcon & _).
    set (c' := set_tail (INC_POINTER c (cb_tail c) 1) c) in *. fold q in Hcon.
    assert (exists x, data = [x]) as [x ->].
    { destruct data as [|x [|]]; simpl in Hd; [lia|eauto|lia]. }
    wp_step. wp_step; [exact Hsl|]. unfold on_cbuf. wp_step. wp_step. fold c. wp_step. wp_step.
    cbn [cs_cbuf cs_event]. fold c. fold c'. rewrite Z.eqb_sym, head_tail_nonempty by done. rewrite Hcon. simpl.
    wp_step. apply wp_when; intros Hb.
    + apply on_event_wp. eapply wp_mono; [by apply ev_unsignal_ok|]. intros ? e [He Hse]. wp_step.
      split; [f_equal; lia|]. split; [|done]. split; [done|done|]. simpl. fold c'. by rewrite Hse, Hb.
    + wp_step. split; [f_equal; lia|]. split; [|done]. split; [done|done|]. simpl. fold c' q. rewrite Hs.
      fold q. by rewrite Hcon, Hb.
Qed.

(** ** Any sequence of operations *)

Inductive cbuf_op := OWrite (src : option (list Z)) (len : Z) | OWriteChar (ch : Z) | ORead (buflen : Z) | OReadChar | OReset.

(** What the caller owes. *)
Definition op_ok (size : Z) (op : cbuf_op) : Prop :=
  match op with
  | OWrite src len => 0 <= len < size /\ src_ok src len
  | ORead buflen => 0 <= buflen
  | _ => True
  end.

(** Each operation on a queue of at most [cap] bytes: what it returns and reads, and the queue it
    leaves. *)
Definition queue_op (cap : Z) (op : cbuf_op) (q : list Z) : (Z * list Z) * list Z :=
  let room := cap - Z.of_nat (length q) in
  match op with
  | OWrite src len => let n := Z.min len room in ((n, []), q ++ take (Z.to_nat n) (bytes_of src len))
  | OWriteChar ch => let n := Z.min 1 room in ((n, []), q ++ take (Z.to_nat n) [ch])
  | ORead len => ((Z.min len (Z.of_nat (length q)), take (Z.to_nat len) q), drop (Z.to_nat len) q)
  | OReadChar => ((Z.min 1 (Z.of_nat (length q)), take 1 q), drop 1 q)
  | OReset => ((0, []), [])
  end.

Fixpoint queue_ops (cap : Z) (ops : list cbuf_op) (q : list Z) : list (Z * list Z) * list Z :=
  match ops with
  | [] => ([], q)
  | op :: ops => let '(r, q1) := queue_op cap op q in let '(rs, q2) := queue_ops cap ops q1 in (r :: rs, q2)
  end.

(** The same on the buffer, without blocking. *)
Definition cbuf_run_op (op : cbuf_op) : M (cstate E) (Z * list Z) :=
  match op with
  | OWrite src len => do n <- cbuf_write src len; ret (n, [])
  | OWriteChar ch => do n <- cbuf_write_char ch false; ret (n, [])
  | ORead len => cbuf_read 1 (ret tt) len false
  | OReadChar => cbuf_read_char 1 (ret tt) false
  | OReset => cbuf_reset (ret tt) ;; ret (0, [])
  end.

Fixpoint cbuf_run (ops : list cbuf_op) : M (cstate E) (list (Z * list Z)) :=
  match ops with
  | [] => ret []
  | op :: ops => do r <- cbuf_run_op op; do rs <- cbuf_run ops; ret (r :: rs)
  end.

Lemma cbuf_run_op_wp op s : cinv s -> op_ok (2 ^ cb_len_pow2 (cs_cbuf s)) op ->
  wp (cbuf_run_op op)
    (fun r s' => r = fst (queue_op (capacity (cs_cbuf s)) op (contents (cs_cbuf s))) /\
       becomes s s' (snd (queue_op (capacity (cs_cbuf s)) op (contents (cs_cbuf s))))) s.
Proof.
  intros Hi Hok. destruct op as [src len|ch|len| |]; simpl in Hok |- *.
  - wp_step. destruct Hok. eapply wp_mono; [by apply cbuf_write_wp|]. intros r s' [-> Hb]. wp_step. done.
  - wp_step. eapply wp_mono; [by apply cbuf_write_char_wp|]. intros r s' [-> Hb]. wp_step. done.
  - wp_step. simpl. wp_step. wp_step. eapply wp_mono; [by apply cbuf_read_locked_wp|]. intros r s' [-> Hb]. wp_step. done.
  - wp_step. simpl. wp_step. wp_step. eapply wp_mono; [by apply cbuf_read_char_locked_wp|]. intros r s' [-> Hb]. wp_step. done.
  - unfold cbuf_reset. wp_step. wp_step. unfold get_cbuf. wp_step. wp_step. simpl. wp_step. simpl. wp_step. wp_step.
    pose proof (ci_wf _ Hi) as Hc. pose proof (cwf_size _ Hc) as [_ Hs]. pose proof (contents_bound _ Hc) as Hb'. pose proof Hc as [Hn _ _ _].
    assert (cbuf_size (cs_cbuf s) = 2 ^ cb_len_pow2 (cs_cbuf s)) as Esz.
    { unfold cbuf_size, u64. rewrite Z.shiftl_1_l. apply Z.mod_small. lia. }
    eapply wp_mono; [apply cbuf_read_locked_wp; [done|lia]|]. intros r s' [-> Hb]. wp_step. wp_step. wp_step.
    split; [done|]. rewrite drop_ge in Hb; [done|]. rewrite Esz. unfold capacity in Hb'. lia.
Qed.


(** The bytes a region of [cbuf_peek] stands for. *)
Definition region_bytes c (r : iovec) : list Z :=
  match iov_base r with Some off => default [] (slice off (iov_len r) (cb_buf c)) | None => [] end.

(** [cbuf_peek] returns the number of bytes that can be read and two regions whose bytes, one
    after the other, are the contents of the buffer, in order; it changes nothing. *)
Theorem cbuf_peek_regions s (Hc : cwf (cs_cbuf s)) :
  exists r0 r1, cbuf_peek s = Done (Z.of_nat (length (contents (cs_cbuf s))), (r0, r1)) s /\
    region_bytes (cs_cbuf s) r0 ++ region_bytes (cs_cbuf s) r1 = contents (cs_cbuf s).
Proof.
  set (c := cs_cbuf s) in *. pose proof (cwf_size c Hc) as [_ Hs]. pose proof (space_used_contents c Hc) as Hu.
  pose proof (contents_length c Hc) as Hl. pose proof (contents_empty c Hc) as He. pose proof Hc as [H1 H2 H3 H4].
  assert (cbuf_size c = 2 ^ cb_len_pow2 c) as Esz.
  { unfold cbuf_size, u64. rewrite Z.shiftl_1_l. apply Z.mod_small. lia. }
  set (base := if cbuf_space_used c =? 0 then None else Some (cb_tail c)).
  set (rs := if cbuf_size c <? cbuf_space_used c + cb_tail c
             then (Iovec base (cbuf_size c - cb_tail c), Iovec (Some 0) (cbuf_space_used c - (cbuf_size c - cb_tail c)))
             else (Iovec base (cbuf_space_used c), Iovec None 0)).
  exists (fst rs), (snd rs). split.
  { unfold cbuf_peek, bind, get_cbuf, gets, massert. fold c.
    rewrite (proj2 (Z.ltb_lt _ _)), (proj2 (Z.leb_le _ _)) by (rewrite ?Hu, ?Hl, Esz; destruct (cb_tail c <=? cb_head c) eqn:?; lia).
    unfold ret. fold base rs. by rewrite Hu, <- surjective_pairing. }
  unfold rs, base. rewrite Hu, Esz. destruct (Z.eqb_spec (Z.of_nat (length (contents c))) 0) as [E0|E0].
  - rewrite (proj2 (Z.ltb_ge _ _)) by lia. simpl. symmetry. apply nil_length_inv. lia.
  - unfold contents in *. rewrite Hl. destruct (Z.leb_spec (cb_tail c) (cb_head c)) as [Hth|Hth].
    + rewrite (proj2 (Z.ltb_ge _ _)) by lia. unfold region_bytes, slice. simpl.
      rewrite (proj2 (Z.leb_le 0 (cb_tail c))), (proj2 (Z.leb_le 0 _)), (proj2 (Z.leb_le _ _)) by lia. simpl.
      rewrite app_nil_r. unfold ring. rewrite (proj2 (Nat.leb_le _ _)) by lia. f_equal. lia.
    + unfold ring. rewrite (proj2 (Nat.leb_gt _ _)) by lia.
      destruct (Z.ltb_spec (2 ^ cb_len_pow2 c) (2 ^ cb_len_pow2 c - cb_tail c + cb_head c + cb_tail c)); unfold region_bytes, slice; simpl.
      * rewrite (proj2 (Z.leb_le 0 (cb_tail c))), !(proj2 (Z.leb_le _ _)) by lia. simpl. f_equal.
        -- apply take_ge. rewrite length_drop. lia.
        -- rewrite drop_0. f_equal. lia.
      * rewrite (proj2 (Z.leb_le 0 (cb_tail c))), !(proj2 (Z.leb_le _ _)) by lia. simpl. f_equal; [apply take_ge; rewrite length_drop; lia|].
        replace (Z.to_nat (cb_head c)) with 0%nat by lia. done.
Qed.

(** [cbuf_initialize_etc] on a power of two from 1 to 2^31 gives an empty buffer of that size,
    with its event unsignaled. *)
Theorem cbuf_initialize_empty init n buf s
    (Hn : 0 <= n < 32) (Hb : Z.of_nat (length buf) = 2 ^ n)
    (Hinit : wp init (fun _ e => ev_ok e /\ ev_signaled e = false) (cs_event s)) :
  wp (cbuf_initialize_etc init (2 ^ n) buf)
    (fun _ s' => cinv s' /\ contents (cs_cbuf s') = [] /\ cb_len_pow2 (cs_cbuf s') = n /\ cb_buf (cs_cbuf s') = buf) s.
Proof.
  assert (2 ^ n < 2 ^ 32) by (apply Z.pow_lt_mono_r; lia).
  unfold cbuf_initialize_etc. do 2 wp_step; [lia|]. rewrite u32_small by lia. do 2 wp_step; [by apply ispow2_pow|].
  rewrite log2_uint_log2, Z.log2_pow2 by lia. unfold on_cbuf. wp_step. wp_step. apply on_event_wp.
  eapply wp_mono; [exact Hinit|]. intros ? e [He Hse]. simpl.
  assert (cwf (Cbuf 0 0 n buf)) as Hc by (split; simpl; lia).
  assert (contents (Cbuf 0 0 n buf) = []) as En by (by apply contents_empty).
  split_and!; [|done|done|done]. split; [done|done|]. cbn [cs_event cs_cbuf]. by rewrite Hse, bool_decide_true.
Qed.

(** A blocking read whose wait ends with something to read returns at once with at least one
    byte: what was first in the buffer, up to the number asked for. *)
Theorem cbuf_read_blocks wait buflen s
    (Hwait : wp wait (fun _ s' => cinv s' /\ contents (cs_cbuf s') <> []) s) (Hlen : 0 < buflen) :
  wp (cbuf_read 1 wait buflen true)
    (fun r s' => cinv s' /\ 0 < fst r /\ fst r = Z.of_nat (length (snd r)) /\
       wp wait (fun _ s1 => contents (cs_cbuf s1) = snd r ++ contents (cs_cbuf s')) s) s.
Proof.
  simpl. wp_step. simpl. apply wp_done in Hwait as (u & s1 & Hw & Hi & Hne). apply wp_done. exists u, s1. split; [done|].
  wp_step. eapply wp_mono; [apply cbuf_read_locked_wp; [done|lia]|]. intros r s' [-> (Hi' & Hq & _)]. simpl.
  set (q := contents (cs_cbuf s1)) in *. assert (length q <> 0%nat) by (intros E0; by apply nil_length_inv in E0).
  rewrite (proj2 (Z.eqb_neq _ 0)) by lia. wp_step. simpl. split_and!; [done|lia|rewrite length_take; lia|].
  unfold wp. rewrite Hw, Hq. fold q. by rewrite take_drop.
Qed.

(** A blocking read of no bytes never returns: whatever other threads do while it waits, it
    tries again for as long as it is let. *)
Theorem cbuf_read_nothing_spins wait fuel s (Hi : cinv s)
    (Hwait : forall s1, cinv s1 -> wp wait (fun _ s2 => cinv s2) s1) :
  cbuf_read fuel wait 0 true s = Fault OutOfFuel.
Proof.
  revert s Hi. induction fuel as [|fuel IH]; intros s Hi; [done|]. simpl. unfold bind at 1.
  destruct (proj1 (wp_done _ _ _) (Hwait s Hi)) as (u & s1 & -> & Hi1). unfold bind.
  destruct (proj1 (wp_done _ _ _) (cbuf_read_locked_wp 0 s1 Hi1 ltac:(lia))) as (r & s2 & -> & -> & Hi2 & _).
  rewrite Z.min_l by lia. simpl. by apply IH.
Qed.
End op_facts.

(** ** The events of the kernel keep the interface

    [event_signal] without rescheduling and [event_unsignal], called by the running thread [cur]
    of [cpu] on an event without flags, in any reachable state of the machine. *)
Section kernel_event.
Context (o0 : os) (pend : gmap tid frame) (cpu : nat) (cur : tid) (e : nat).

Definition kernel_ev_ok (o : os) : Prop :=
  (exists log, minv o0 o pend None log) /\ k_current (o_k o) !! cpu = Some cur /\ is_idle_tid cur = false /\
  exists ev, o_events o !! e = Some ev /\ autounsignal ev = false.

Definition kernel_ev_signaled (o : os) : bool :=
  match o_events o !! e with Some ev => e_signaled ev | None => false end.

Lemma event_signal_stays o ev : kernel_ev_ok o -> o_events o !! e = Some ev ->
  wp (event_signal_enter cpu e false)
    (fun r o' => is_Some r /\ k_current (o_k o') = k_current (o_k o) /\
       exists ev', o_events o' !! e = Some ev' /\ e_signaled ev' = true /\ autounsignal ev' = false) o.
Proof.
  intros ([log Hm] & Hcur & Hi & ev' & Hev' & Ha) Hev. rewrite Hev in Hev'. injection Hev' as <-.
  destruct (event_found o0 o pend log Hm e ev Hev) as (Ho & Hal & ev0 & H0 & Hok). pose proof (mi_kw _ _ _ _ _ Hm) as Hk.
  destruct (caller_thread cpu cur pend (o_k o) Hk Hcur Hi) as (th & Ht & Hidle).
  unfold event_signal_enter. wp_step. apply (get_event_wp _ _ ev); [done|].
  do 2 wp_step; [by rewrite (eo_magic _ _ _ _ _ _ _ Hok)|]. destruct (e_signaled ev) eqn:Es.
  { wp_step. split_and!; [eauto|done|]. exists ev. done. }
  rewrite Ha. wp_step. unfold set_event. wp_step. wp_step. apply kern_wp.
  unfold alive in Hal. destruct (k_waits (o_k o) !! WEvent e) as [wq|] eqn:Hw; [|done]. injection Hal as Hal.
  eapply wp_mono; [apply (wait_queue_wake_all_wp (o_k o) cpu (WEvent e) wq false NO_ERROR cur th); [apply Hk|apply Hk|done..]|].
  intros r k' (_ & _ & _ & _ & _ & Hc). wp_step. split_and!; [eauto|simpl; auto|].
  eexists. split; [simpl; apply lookup_insert_eq|]. done.
Qed.

#[export] Program Instance kernel_event_ops : EventOps os := {|
  ev_signal b := do r <- event_signal_enter cpu e b; ret tt;
  ev_unsignal := do r <- event_unsignal e; ret tt;
  ev_signaled := kernel_ev_signaled;
  ev_ok := kernel_ev_ok |}.
Next Obligation.
  intros o Hok. pose proof Hok as ([log Hm] & Hcur & Hi & ev & Hev & Ha). wp_step.
  eapply wp_mono; [apply wp_conj; [exact (event_signal_stays o ev Hok Hev)|]|].
  { exact (enter_event_signal o0 o pend log cpu cur Hm Hcur Hi e ev false Hev). }
  intros r o' [([v ->] & Ec & ev' & Hev' & Hs' & Ha') Hm']. wp_step. split.
  - split_and!; [eexists; exact Hm'|by rewrite Ec|done|eauto].
  - unfold kernel_ev_signaled. by rewrite Hev'.
Qed.
Next Obligation.
  intros o Hok. pose proof Hok as ([log Hm] & Hcur & Hi & ev & Hev & Ha). wp_step.
  destruct (event_found o0 o pend log Hm e ev Hev) as (_ & _ & ev0 & H0 & Hok').
  assert (event_unsignal e o = Done NO_ERROR (on_events (<[e := Event (e_magic ev) false (e_flags ev)]>) o)) as Hd.
  { unfold event_unsignal, bind, get_event, bind, gets, deref. rewrite Hev. simpl.
    by rewrite (eo_magic _ _ _ _ _ _ _ Hok'). }
  pose proof (enter_event_unsignal o0 o pend log cpu cur Hm Hcur e ev Hev) as Hp. unfold wp, enter, bind in Hp.
  unfold wp. rewrite Hd in Hp |- *. simpl in Hp |- *. split.
  - split_and!; [eexists; exact Hp|done|done|]. eexists. split; [apply lookup_insert_eq|done].
  - unfold kernel_ev_signaled. simpl. by rewrite lookup_insert_eq.
Qed.
End kernel_event.

(** ** A buffer of eight bytes *)
Module CbufExample.

(** An event that nobody waits on is its flag. *)
#[local] Program Instance flag_ops : EventOps bool := {|
  ev_signal _ := modify (fun _ => true); ev_unsignal := modify (fun _ => false);
  ev_signaled b := b; ev_ok _ := True |}.
Next Obligation. done. Qed.
Next Obligation. done. Qed.

(** The head has gone round the end: the bytes are 6, 7, 8, 1. *)
Definition wrapped : cstate bool := CState (Cbuf 1 5 3 [1; 0; 0; 0; 0; 6; 7; 8]) true.

Lemma wrapped_cinv : cinv wrapped.
Proof. split; [split; simpl; lia|exact I|vm_compute; reflexivity]. Qed.


Lemma cbuf_peek_regions_witness : exists r0 r1, cbuf_peek wrapped = Done (4, (r0, r1)) wrapped.
Proof.
  destruct (cbuf_peek_regions wrapped) as (r0 & r1 & Hp & _); [split; simpl; lia|]. exists r0, r1. exact Hp.
Defined.

Lemma cbuf_initialize_empty_witness :
  wp (cbuf_initialize_etc (modify (fun _ => false)) 8 [0; 0; 0; 0; 0; 0; 0; 0])
    (fun _ s' => contents (cs_cbuf s') = []) wrapped.
Proof.
  eapply wp_mono; [apply (cbuf_initialize_empty (modify (fun _ => false)) 3 [0; 0; 0; 0; 0; 0; 0; 0] wrapped);
    [lia|reflexivity|split; [exact I|reflexivity]]|].
  intros ? s' (_ & Hq & _). exact Hq.
Defined.

(** Another thread writes while the reader waits. *)
Definition writer : M (cstate bool) unit := do n <- cbuf_write (Some [42]) 1; ret tt.

Lemma cbuf_read_blocks_witness :
  wp (cbuf_read 1 writer 16 true) (fun r _ => 0 < fst r) wrapped.
Proof.
  eapply wp_mono; [apply (cbuf_read_blocks writer 16 wrapped); [|lia]|intros r s' (_ & Hr & _); exact Hr].
  assert (writer wrapped = Done tt (CState (Cbuf 2 5 3 [1; 42; 0; 0; 0; 6; 7; 8]) true)) as Hw by (vm_compute; reflexivity).
  unfold wp. rewrite Hw. split; [|vm_compute; discriminate]. split; [split; simpl; lia|exact I|vm_compute; reflexivity].
Defined.

Lemma cbuf_read_nothing_spins_witness : cbuf_read 100 (ret tt) 0 true wrapped = Fault OutOfFuel.
Proof. apply (cbuf_read_nothing_spins (ret tt) 100 wrapped wrapped_cinv). intros s1 Hs. exact Hs. Defined.
End CbufExample.
