(* ===== verification/Align.v ===== *)
(** * Rounding and alignment

    The macros of [lib/libc/include/stdlib.h] and [vm/vm.h] on 64-bit words, and what they
    compute when the result leaves the word. *)

From stdpp Require Import base numbers.
From S2P Require Import Prelude.

Definition PAGE_SIZE_SHIFT : Z := 12.
Definition PAGE_SIZE : Z := Z.shiftl 1 PAGE_SIZE_SHIFT.

Definition ROUNDUP (a b : Z) : Z := Z.land (u64 (a + (b - 1))) (u64 (Z.lnot (b - 1))).
Definition ROUNDDOWN (a b : Z) : Z := Z.land a (u64 (Z.lnot (b - 1))).
Definition ALIGN (a b : Z) : Z := ROUNDUP a b.
Definition IS_ALIGNED (a b : Z) : bool := Z.land a (u64 (b - 1)) =? 0.
Definition IS_PAGE_ALIGNED (x : Z) : bool := IS_ALIGNED x PAGE_SIZE.

(** ** Rounding *)

Section rounding.
Implicit Types (a k x : Z).

Lemma u64_range x : 0 <= u64 x < 2 ^ 64.
Proof. apply Z.mod_pos_bound. lia. Qed.

Lemma u64_small x : 0 <= x < 2 ^ 64 -> u64 x = x.
Proof. apply Z.mod_small. Qed.

(** Masking the low bits off. *)
Lemma land_mask x k : 0 <= x < 2 ^ 64 -> 0 <= k < 64 -> Z.land x (u64 (Z.lnot (2 ^ k - 1))) = x / 2 ^ k * 2 ^ k.
Proof.
  intros Hx Hk. rewrite <- Z.shiftr_div_pow2, <- Z.shiftl_mul_pow2 by lia. apply Z.bits_inj'. intros i Hi.
  rewrite Z.land_spec. unfold u64.
  replace (2 ^ k - 1) with (Z.ones k) by (rewrite Z.ones_equiv; lia).
  rewrite Z.shiftl_spec by lia. destruct (Z.ltb_spec i k) as [Hik|Hik].
  - rewrite Z.mod_pow2_bits_low, Z.lnot_spec, Z.ones_spec_low by lia. rewrite andb_false_r.
    symmetry. apply Z.testbit_neg_r. lia.
  - rewrite Z.shiftr_spec by lia. replace (i - k + k) with i by lia. destruct (Z.ltb_spec i 64).
    + rewrite Z.mod_pow2_bits_low, Z.lnot_spec, Z.ones_spec_high by lia. by rewrite andb_true_r.
    + rewrite Z.mod_pow2_bits_high by lia. rewrite andb_false_r. symmetry.
      rewrite <- (Z.mod_small x (2 ^ 64)) by lia. apply Z.mod_pow2_bits_high. lia.
Qed.

Lemma pow2_bound k : 0 <= k < 64 -> 0 < 2 ^ k <= 2 ^ 63.
Proof. intros. split; [lia|]. apply Z.pow_le_mono_r; lia. Qed.

Lemma div_mul_bounds x b : 0 < b -> x - b < x / b * b <= x.
Proof. intros Hb. pose proof (Z.div_mod x b ltac:(lia)). pose proof (Z.mod_pos_bound x b Hb). nia. Qed.

(** Of two multiples one is below the next of the other, or below the other. *)
Lemma multiple_le b x y : 0 < b -> (b | x) -> (b | y) -> x < y + b -> x <= y.
Proof.
  intros Hb [m ->] [n ->] Hlt. apply Z.mul_le_mono_nonneg_r; [lia|]. apply Z.lt_succ_r.
  apply (Z.mul_lt_mono_pos_r b); [done|]. rewrite Z.mul_succ_l. lia.
Qed.

Lemma pow2_divides j k : 0 <= j <= k -> (2 ^ j | 2 ^ k).
Proof. intros. exists (2 ^ (k - j)). rewrite <- Z.pow_add_r by lia. f_equal. lia. Qed.

Lemma ROUNDUP_spec a k : 0 <= a -> 0 <= k < 64 -> a + (2 ^ k - 1) < 2 ^ 64 ->
  (2 ^ k | ROUNDUP a (2 ^ k)) /\ a <= ROUNDUP a (2 ^ k) < a + 2 ^ k.
Proof.
  intros Ha Hk Hw. pose proof (pow2_bound k Hk). unfold ROUNDUP. rewrite land_mask by auto using u64_range.
  rewrite u64_small by lia. split; [apply Z.divide_factor_r|].
  pose proof (div_mul_bounds (a + (2 ^ k - 1)) (2 ^ k) ltac:(lia)). lia.
Qed.

(** An address so high that rounding it up leaves the word becomes 0. *)
Lemma ROUNDUP_wraps a k : a < 2 ^ 64 -> 0 <= k < 64 -> 2 ^ 64 <= a + (2 ^ k - 1) -> ROUNDUP a (2 ^ k) = 0.
Proof.
  intros Ha Hk Hw. pose proof (pow2_bound k Hk). unfold ROUNDUP. rewrite land_mask by auto using u64_range.
  unfold u64. rewrite <- (Z.mod_add _ (-1)) by lia. rewrite Z.mod_small by lia.
  rewrite Z.div_small by lia. done.
Qed.

(** Then no multiple at or above it is in the word. *)
Lemma no_multiple_above a k x : 0 <= k < 64 -> 2 ^ 64 <= a + (2 ^ k - 1) -> a <= x < 2 ^ 64 -> ~ (2 ^ k | x).
Proof.
  intros Hk Hw Hx Hd. pose proof (pow2_bound k Hk).
  pose proof (multiple_le (2 ^ k) (2 ^ 64) x ltac:(lia) (pow2_divides k 64 ltac:(lia)) Hd ltac:(lia)). lia.
Qed.

(** Rounding up gives the least multiple at or above. *)
Lemma ROUNDUP_least a k x : 0 <= a -> 0 <= k < 64 -> a + (2 ^ k - 1) < 2 ^ 64 -> a <= x -> (2 ^ k | x) -> ROUNDUP a (2 ^ k) <= x.
Proof.
  intros Ha Hk Hw Hx Hd. pose proof (pow2_bound k Hk). destruct (ROUNDUP_spec a k Ha Hk Hw) as [Hr Hb].
  apply (multiple_le (2 ^ k)); [lia|done|done|lia].
Qed.

Lemma ROUNDDOWN_spec a k : 0 <= a < 2 ^ 64 -> 0 <= k < 64 -> ROUNDDOWN a (2 ^ k) = a / 2 ^ k * 2 ^ k.
Proof. intros. by apply land_mask. Qed.

Lemma IS_ALIGNED_spec a k : 0 <= k < 64 -> IS_ALIGNED a (2 ^ k) = true <-> (2 ^ k | a).
Proof.
  intros Hk. pose proof (pow2_bound k Hk). unfold IS_ALIGNED. rewrite u64_small by lia.
  rewrite Z.eqb_eq, Z.sub_1_r, <- Z.ones_equiv, Z.land_ones by lia.
  apply Z.mod_divide. lia.
Qed.

Lemma IS_PAGE_ALIGNED_spec a : IS_PAGE_ALIGNED a = true <-> (4096 | a).
Proof. apply (IS_ALIGNED_spec a 12). lia. Qed.
End rounding.
