(* ===== verification/Pmm.v ===== *)
(** * The physical page allocator

    [vm/pmm.c] and [vm/bootalloc.c]: arenas of physical pages in the order of their priority,
    each with an array of page structures and a list of its free pages.  A page is named by
    the address of its structure, which [PAGE_BELONGS_TO_ARENA] compares with the array of
    an arena, as the code does.  [lock] makes each function one step and is left out; the
    list heads are the free lists of the arenas and the lists of the callers.  Addresses and
    sizes are 64 bits wide. *)

From stdpp Require Import base gmap list numbers sorting.
From S2P Require Import Prelude ListNode Align.
Import Family.

(** ** State *)

Inductive vm_page_state := VM_PAGE_STATE_FREE | VM_PAGE_STATE_ALLOC | VM_PAGE_STATE_MMU.

#[export] Instance vm_page_state_eq_dec : EqDecision vm_page_state.
Proof. solve_decision. Defined.

(** [sizeof(vm_page_t)]: the two links of its node, the state, the flags and the padding. *)
Definition sizeof_vm_page : Z := 24.

Record pmm_arena := Arena {
  a_flags : Z;
  a_priority : Z;
  a_base : Z;
  a_size : Z;
  a_free_count : Z;
  a_page_array : Z }.

Definition PMM_ARENA_FLAG_KMAP : Z := 1.
Definition PMM_ALLOC_FLAG_ANY : Z := 0.
Definition PMM_ALLOC_FLAG_KMAP : Z := 1.

(** The list heads: [&arena->free_list] and a list of a caller. *)
Inductive plist := FreeList (id : nat) | CallerList (l : nat).

#[export] Instance plist_eq_dec : EqDecision plist.
Proof. solve_decision. Defined.
#[export] Instance plist_countable : Countable plist.
Proof.
  by refine (inj_countable' (fun k => match k with FreeList id => inl id | CallerList l => inr l end)
    (fun x => match x with inl id => FreeList id | inr l => CallerList l end) _); intros [].
Defined.

Record pmm := Pmm {
  arena_list : list nat;
  arenas : gmap nat pmm_arena;
  pages : gmap Z vm_page_state;
  plists : gmap plist (list Z);
  boot_alloc_end : Z }.

Definition set_arena_list v s := Pmm v (arenas s) (pages s) (plists s) (boot_alloc_end s).
Definition set_arenas v s := Pmm (arena_list s) v (pages s) (plists s) (boot_alloc_end s).
Definition set_pages v s := Pmm (arena_list s) (arenas s) v (plists s) (boot_alloc_end s).
Definition set_plists v s := Pmm (arena_list s) (arenas s) (pages s) v (boot_alloc_end s).
Definition set_boot v s := Pmm (arena_list s) (arenas s) (pages s) (plists s) v.

Definition set_free_count (v : Z) (a : pmm_arena) : pmm_arena :=
  Arena (a_flags a) (a_priority a) (a_base a) (a_size a) v (a_page_array a).
Definition set_page_array (v : Z) (a : pmm_arena) : pmm_arena :=
  Arena (a_flags a) (a_priority a) (a_base a) (a_size a) (a_free_count a) v.

(** ** Operations *)

Definition get_arena (id : nat) : M pmm pmm_arena := do s <- gets (fun s => s); deref (arenas s !! id).
Definition page_count (a : pmm_arena) : Z := a_size a / PAGE_SIZE.
Definition page_at (a : pmm_arena) (i : Z) : Z := a_page_array a + i * sizeof_vm_page.

Definition PAGE_BELONGS_TO_ARENA (page : Z) (a : pmm_arena) : bool :=
  (a_page_array a <=? page) && (page <? u64 (a_page_array a + u64 (a_size a / PAGE_SIZE * sizeof_vm_page))).

Definition PAGE_ADDRESS_FROM_ARENA (page : Z) (a : pmm_arena) : Z :=
  u64 (u64 (u64 (page - a_page_array a) / sizeof_vm_page * PAGE_SIZE) + a_base a).

Definition ADDRESS_IN_ARENA (address : Z) (a : pmm_arena) : bool :=
  (a_base a <=? address) && (address <=? u64 (a_base a + a_size a - 1)).

Definition get_page (page : Z) : M pmm vm_page_state := do s <- gets (fun s => s); deref (pages s !! page).
Definition set_page (page : Z) (st : vm_page_state) : M pmm unit := modify (fun s => set_pages (<[page := st]> (pages s)) s).
Definition count_free (id : nat) (d : Z) : M pmm unit :=
  modify (fun s => set_arenas (alter (fun a => set_free_count (u64 (a_free_count a + d)) a) id (arenas s)) s).

(** Linking a node that is in a list already is outside of what [list.h] keeps. *)
Definition link_head (k : plist) (page : Z) : M pmm unit :=
  do s <- gets (fun s => s);
  if in_list page (plists s) then fail BadPointer else modify (set_plists (add_head k page (plists s))).
Definition link_tail (k : plist) (page : Z) : M pmm unit :=
  do s <- gets (fun s => s);
  if in_list page (plists s) then fail BadPointer else modify (set_plists (add_tail k page (plists s))).
Definition unlink (page : Z) : M pmm unit :=
  do s <- gets (fun s => s);
  if in_list page (plists s) then modify (set_plists (del page (plists s))) else fail BadPointer.
Definition remove_head (k : plist) : M pmm (option Z) :=
  do s <- gets (fun s => s);
  match fq (plists s) k with
  | [] => ret None
  | page :: _ => unlink page ;; ret (Some page)
  end.
Definition list_in_list (page : Z) : M pmm bool := gets (fun s => in_list page (plists s)).
Definition list_initialize (k : plist) : M pmm unit := modify (fun s => set_plists (<[k := []]> (plists s)) s).

Definition is_free (st : vm_page_state) : bool := bool_decide (st = VM_PAGE_STATE_FREE).
Definition page_is_free (page : Z) : M pmm bool := do st <- get_page page; ret (is_free st).

Fixpoint find_by_page (page : Z) (l : list nat) : M pmm (option (nat * pmm_arena)) :=
  match l with
  | [] => ret None
  | id :: l =>
      do a <- get_arena id;
      if PAGE_BELONGS_TO_ARENA page a then ret (Some (id, a)) else find_by_page page l
  end.

Definition vm_page_to_paddr (page : Z) : M pmm Z :=
  do l <- gets arena_list;
  do r <- find_by_page page l;
  match r with Some (_, a) => ret (PAGE_ADDRESS_FROM_ARENA page a) | None => ret (u64 (-1)) end.

Fixpoint paddr_to_vm_page_in (addr : Z) (l : list nat) : M pmm (option Z) :=
  match l with
  | [] => ret None
  | id :: l =>
      do a <- get_arena id;
      if (a_base a <=? addr) && (addr <=? u64 (a_base a + a_size a - 1)) then
        ret (Some (page_at a ((addr - a_base a) / PAGE_SIZE)))
      else paddr_to_vm_page_in addr l
  end.

Definition paddr_to_vm_page (addr : Z) : M pmm (option Z) :=
  do l <- gets arena_list; paddr_to_vm_page_in addr l.

Definition boot_alloc_mem (len : Z) : M pmm Z :=
  do e <- gets boot_alloc_end;
  let ptr := ALIGN e 8 in
  modify (set_boot (u64 (ptr + ALIGN len 8))) ;;
  ret ptr.

(** The arena goes before the first one of a lower rank, or last. *)
Fixpoint priority_insert (id : nat) (priority : Z) (l : list nat) : M pmm (list nat) :=
  match l with
  | [] => ret [id]
  | b :: l' =>
      do a <- get_arena b;
      if priority <? a_priority a then ret (id :: l)
      else do r <- priority_insert id priority l'; ret (b :: r)
  end.

Fixpoint add_free_pages (id : nat) (page_array : Z) (i : Z) (n : nat) : M pmm unit :=
  match n with
  | O => ret tt
  | S n =>
      link_tail (FreeList id) (page_array + i * sizeof_vm_page) ;;
      count_free id 1 ;;
      add_free_pages id page_array (i + 1) n
  end.

(** [memset] of the page structures to zero: every state is [VM_PAGE_STATE_FREE], and no node
    is in a list. *)
Fixpoint zero_pages (page_array : Z) (n : nat) (m : gmap Z vm_page_state) : gmap Z vm_page_state :=
  match n with
  | O => m
  | S n => zero_pages (page_array + sizeof_vm_page) n (<[page_array := VM_PAGE_STATE_FREE]> m)
  end.

(** [arena] is the caller's structure [id], filled in up to its size. *)
Definition pmm_add_arena (id : nat) (arena : pmm_arena) : M pmm Z :=
  massert (IS_PAGE_ALIGNED (a_base arena)) ;;
  massert (IS_PAGE_ALIGNED (a_size arena)) ;;
  massert (0 <? a_size arena) ;;
  do l <- gets arena_list;
  do l' <- priority_insert id (a_priority arena) l;
  modify (set_arena_list l') ;;
  modify (fun s => set_arenas (<[id := set_free_count 0 arena]> (arenas s)) s) ;;
  list_initialize (FreeList id) ;;
  let page_count := a_size arena / PAGE_SIZE in
  do page_array <- boot_alloc_mem (u64 (page_count * sizeof_vm_page));
  modify (fun s => set_arenas (alter (set_page_array page_array) id (arenas s)) s) ;;
  modify (fun s => set_pages (zero_pages page_array (Z.to_nat page_count) (pages s)) s) ;;
  add_free_pages id page_array 0 (Z.to_nat page_count) ;;
  ret 0.

(** Whether an arena is skipped: it is not KMAP, and only KMAP arenas were asked for. *)
Definition skip_arena (alloc_flags : Z) (a : pmm_arena) : bool :=
  negb (Z.land alloc_flags PMM_ALLOC_FLAG_KMAP =? 0) && (Z.land (a_flags a) PMM_ARENA_FLAG_KMAP =? 0).

Fixpoint alloc_page_in (alloc_flags : Z) (l : list nat) : M pmm (option (Z * Z)) :=
  match l with
  | [] => ret None
  | id :: l =>
      do a <- get_arena id;
      if skip_arena alloc_flags a then alloc_page_in alloc_flags l
      else
        do r <- remove_head (FreeList id);
        match r with
        | None => alloc_page_in alloc_flags l
        | Some page =>
            count_free id (-1) ;;
            do free <- page_is_free page;
            massert free ;;
            set_page page VM_PAGE_STATE_ALLOC ;;
            ret (Some (page, PAGE_ADDRESS_FROM_ARENA page a))
        end
  end.

(** The page and its physical address, or [NULL]. *)
Definition pmm_alloc_page (alloc_flags : Z) : M pmm (option (Z * Z)) :=
  do l <- gets arena_list; alloc_page_in alloc_flags l.

(** The [while] loop of [pmm_alloc_pages] on one arena; the flag is the [goto done]. *)
Fixpoint alloc_pages_from (fuel : nat) (id : nat) (count : Z) (list : nat) (allocated : Z) : M pmm (Z * bool) :=
  match fuel with
  | O => fail OutOfFuel
  | S fuel =>
      do a <- get_arena id;
      if (allocated <? count) && (0 <? a_free_count a) then
        do r <- remove_head (FreeList id);
        match r with
        | None => ret (allocated, true)
        | Some page =>
            count_free id (-1) ;;
            do free <- page_is_free page;
            massert free ;;
            set_page page VM_PAGE_STATE_ALLOC ;;
            link_tail (CallerList list) page ;;
            alloc_pages_from fuel id count list (u32 (allocated + 1))
        end
      else ret (allocated, false)
  end.

Fixpoint alloc_pages_in (alloc_flags : Z) (count : Z) (list : nat) (allocated : Z) (l : Datatypes.list nat) : M pmm Z :=
  match l with
  | [] => ret allocated
  | id :: l =>
      do a <- get_arena id;
      if skip_arena alloc_flags a then alloc_pages_in alloc_flags count list allocated l
      else
        do ' (allocated, done) <- alloc_pages_from (S (Z.to_nat (a_free_count a))) id count list allocated;
        if done : bool then ret allocated else alloc_pages_in alloc_flags count list allocated l
  end.

Definition pmm_alloc_pages (count alloc_flags : Z) (list : nat) : M pmm Z :=
  if count =? 0 then ret 0
  else do l <- gets arena_list; alloc_pages_in alloc_flags count list 0 l.

(** The [while] loop of [pmm_alloc_range] on one arena. *)
Fixpoint alloc_range_from (fuel : nat) (id : nat) (count : Z) (list : nat) (address allocated : Z) : M pmm (Z * Z) :=
  match fuel with
  | O => fail OutOfFuel
  | S fuel =>
      do a <- get_arena id;
      if (allocated <? count) && ADDRESS_IN_ARENA address a then
        let index := (address - a_base a) / PAGE_SIZE in
        massert (index <? a_size a / PAGE_SIZE) ;;
        let page := page_at a index in
        do free <- page_is_free page;
        if negb free then ret (address, allocated)
        else
          do linked <- list_in_list page;
          massert linked ;;
          unlink page ;;
          set_page page VM_PAGE_STATE_ALLOC ;;
          link_tail (CallerList list) page ;;
          count_free id (-1) ;;
          alloc_range_from fuel id count list (u64 (address + PAGE_SIZE)) (u32 (allocated + 1))
      else ret (address, allocated)
  end.

Fixpoint alloc_range_in (count : Z) (list : nat) (address allocated : Z) (l : Datatypes.list nat) : M pmm Z :=
  match l with
  | [] => ret allocated
  | id :: l =>
      do a <- get_arena id;
      do ' (address, allocated) <- alloc_range_from (S (Z.to_nat (page_count a))) id count list address allocated;
      if allocated =? count then ret allocated else alloc_range_in count list address allocated l
  end.

Definition pmm_alloc_range (address count : Z) (list : nat) : M pmm Z :=
  if count =? 0 then ret 0
  else
    let address := ROUNDDOWN address PAGE_SIZE in
    do l <- gets arena_list; alloc_range_in count list address 0 l.

(** The inner [for] loop of [pmm_alloc_contiguous]: where the run is broken, if it is. *)
Fixpoint check_run (fuel : nat) (count p i : Z) : M pmm (option Z) :=
  match fuel with
  | O => fail OutOfFuel
  | S fuel =>
      if i <? count then
        do free <- page_is_free p;
        if negb free then ret (Some i) else check_run fuel count (p + sizeof_vm_page) (u32 (i + 1))
      else ret None
  end.

(** The loop that takes the run, [n] pages from page [i] on. *)
Fixpoint take_run (id : nat) (a : pmm_arena) (list : option nat) (i : Z) (n : nat) : M pmm unit :=
  match n with
  | O => ret tt
  | S n =>
      let p := page_at a i in
      do free <- page_is_free p;
      massert free ;;
      do linked <- list_in_list p;
      massert linked ;;
      unlink p ;;
      set_page p VM_PAGE_STATE_ALLOC ;;
      count_free id (-1) ;;
      match list with Some l => link_tail (CallerList l) p | None => ret tt end ;;
      take_run id a list (i + 1) n
  end.

(** The search of one arena, from [start] on. *)
Fixpoint find_run (fuel : nat) (a : pmm_arena) (count align_log2 aligned_offset start : Z) : M pmm (option Z) :=
  match fuel with
  | O => fail OutOfFuel
  | S fuel =>
      if (start <? a_size a / PAGE_SIZE) && (u64 (start + count) <=? a_size a / PAGE_SIZE) then
        do r <- check_run (S (Z.to_nat count)) count (page_at a start) 0;
        match r with
        | Some i =>
            let start := u64 (ROUNDUP (u64 (start - aligned_offset + i + 1))
                                (Z.shiftl 1 (align_log2 - PAGE_SIZE_SHIFT)) + aligned_offset) in
            find_run fuel a count align_log2 aligned_offset start
        | None => ret (Some start)
        end
      else ret None
  end.

Fixpoint alloc_contiguous_in (count alloc_flags align_log2 : Z) (list : option nat) (l : Datatypes.list nat) :
    M pmm (Z * option Z) :=
  match l with
  | [] => ret (0, None)
  | id :: l =>
      do a <- get_arena id;
      if skip_arena alloc_flags a then alloc_contiguous_in count alloc_flags align_log2 list l
      else
        let rounded_base := ROUNDUP (a_base a) (Z.shiftl 1 align_log2) in
        if (rounded_base <? a_base a) || (u64 (a_base a + a_size a - 1) <? rounded_base) then
          alloc_contiguous_in count alloc_flags align_log2 list l
        else
          let aligned_offset := (rounded_base - a_base a) / PAGE_SIZE in
          do r <- find_run (S (Z.to_nat (page_count a))) a count align_log2 aligned_offset aligned_offset;
          match r with
          | Some start =>
              take_run id a list start (Z.to_nat count) ;;
              ret (count, Some (u64 (a_base a + start * PAGE_SIZE)))
          | None => alloc_contiguous_in count alloc_flags align_log2 list l
          end
  end.

(** The number of pages, and the address stored through [pa]. *)
Definition pmm_alloc_contiguous (count alloc_flags align_log2 : Z) (list : option nat) : M pmm (Z * option Z) :=
  if count =? 0 then ret (0, None)
  else
    let align_log2 := if align_log2 <? PAGE_SIZE_SHIFT then PAGE_SIZE_SHIFT else align_log2 in
    do l <- gets arena_list; alloc_contiguous_in count alloc_flags align_log2 list l.

Fixpoint free_loop (fuel : nat) (list : nat) (count : Z) : M pmm Z :=
  match fuel with
  | O => fail OutOfFuel
  | S fuel =>
      do q <- gets (fun s => fq (plists s) (CallerList list));
      match q with
      | [] => ret count
      | _ =>
          do r <- remove_head (CallerList list);
          do page <- deref r;
          do linked <- list_in_list page;
          massert (negb linked) ;;
          do free <- page_is_free page;
          massert (negb free) ;;
          do l <- gets arena_list;
          do r <- find_by_page page l;
          match r with
          | Some (id, _) =>
              set_page page VM_PAGE_STATE_FREE ;;
              link_head (FreeList id) page ;;
              count_free id 1 ;;
              free_loop fuel list (u64 (count + 1))
          | None => free_loop fuel list count
          end
      end
  end.

Definition pmm_free (list : nat) : M pmm Z :=
  do q <- gets (fun s => fq (plists s) (CallerList list));
  free_loop (S (length q)) list 0.

(** [list] is the local list of the function. *)
Definition pmm_free_page (list : nat) (page : Z) : M pmm Z :=
  list_initialize (CallerList list) ;;
  link_head (CallerList list) page ;;
  pmm_free list.

(** [paddr_to_kvaddr] looks an address up in the table of initial mappings. *)
Definition pmm_alloc_kpages (paddr_to_kvaddr : Z -> Z) (count : Z) (list : option nat) : M pmm Z :=
  if count =? 1 then
    do r <- pmm_alloc_page PMM_ALLOC_FLAG_KMAP;
    match r with
    | None => ret 0
    | Some (p, pa) =>
        match list with Some l => link_tail (CallerList l) p | None => ret tt end ;;
        ret (paddr_to_kvaddr pa)
    end
  else
    do ' (alloc_count, pa) <- pmm_alloc_contiguous count PMM_ALLOC_FLAG_KMAP PAGE_SIZE_SHIFT list;
    if alloc_count =? 0 then ret 0 else do pa <- deref pa; ret (paddr_to_kvaddr pa).

Fixpoint link_kpages (vaddr_to_paddr : Z -> Z) (list : nat) (ptr : Z) (count : nat) : M pmm unit :=
  match count with
  | O => ret tt
  | S count =>
      do p <- paddr_to_vm_page (vaddr_to_paddr ptr);
      match p with Some p => link_tail (CallerList list) p | None => ret tt end ;;
      link_kpages vaddr_to_paddr list (u64 (ptr + PAGE_SIZE)) count
  end.

Definition pmm_free_kpages (vaddr_to_paddr : Z -> Z) (list : nat) (ptr count : Z) : M pmm Z :=
  list_initialize (CallerList list) ;;
  link_kpages vaddr_to_paddr list ptr (Z.to_nat count) ;;
  pmm_free list.

(** ** The invariant *)

Definition in_array (a : pmm_arena) (p : Z) : Prop := exists i, 0 <= i < page_count a /\ p = page_at a i.

(** A page-aligned piece of the address space, with its page structures below the end of what the
    boot allocator has handed out. *)
Record arena_ok (bound : Z) (a : pmm_arena) : Prop := {
  ao_base : (4096 | a_base a);
  ao_size : (4096 | a_size a);
  ao_range : 0 <= a_base a /\ 0 < a_size a /\ a_base a + a_size a <= 2 ^ 64;
  ao_array : 0 <= a_page_array a /\ page_at a (page_count a) <= bound }.

Definition arrays_apart (a b : pmm_arena) : Prop :=
  page_at a (page_count a) <= a_page_array b \/ page_at b (page_count b) <= a_page_array a.

Definition priority_of (s : pmm) (id : nat) : Z := default 0 (a_priority <$> arenas s !! id).

(** The free list of an arena holds exactly its free pages, its count is their number, and the lists
    of the callers hold pages that are in use. *)
Record pinv (s : pmm) : Prop := {
  pi_arenas : forall id, id ∈ arena_list s <-> is_Some (arenas s !! id);
  pi_order : NoDup (arena_list s) /\ StronglySorted Z.le (priority_of s <$> arena_list s);
  pi_boot : 0 <= boot_alloc_end s < 2 ^ 64;
  pi_arena : forall id a, arenas s !! id = Some a -> arena_ok (boot_alloc_end s) a;
  pi_apart : forall id1 id2 a b, arenas s !! id1 = Some a -> arenas s !! id2 = Some b -> id1 <> id2 -> arrays_apart a b;
  pi_pages : forall id a p, arenas s !! id = Some a -> in_array a p -> is_Some (pages s !! p);
  pi_wf : wf (plists s);
  pi_free : forall id p, p ∈ fq (plists s) (FreeList id) <->
              exists a, arenas s !! id = Some a /\ in_array a p /\ pages s !! p = Some VM_PAGE_STATE_FREE;
  pi_used : forall l p, p ∈ fq (plists s) (CallerList l) ->
              exists id a st, arenas s !! id = Some a /\ in_array a p /\
                pages s !! p = Some st /\ st <> VM_PAGE_STATE_FREE;
  pi_count : forall id a, arenas s !! id = Some a -> a_free_count a = Z.of_nat (length (fq (plists s) (FreeList id))) }.

(** Taking a free page, and giving one back: what the allocating loops and [pmm_free] do to a page. *)
Definition recount (id : nat) (d : Z) : gmap nat pmm_arena -> gmap nat pmm_arena :=
  alter (fun a => set_free_count (u64 (a_free_count a + d)) a) id.

Definition onto (ol : option nat) (p : Z) (F : gmap plist (list Z)) : gmap plist (list Z) :=
  match ol with Some l => add_tail (CallerList l) p F | None => F end.

Definition grab (id : nat) (p : Z) (ol : option nat) (s : pmm) : pmm :=
  Pmm (arena_list s) (recount id (-1) (arenas s)) (<[p := VM_PAGE_STATE_ALLOC]> (pages s))
    (onto ol p (del p (plists s))) (boot_alloc_end s).

Definition give (id : nat) (p : Z) (s : pmm) : pmm :=
  Pmm (arena_list s) (recount id 1 (arenas s)) (<[p := VM_PAGE_STATE_FREE]> (pages s))
    (add_head (FreeList id) p (del p (plists s))) (boot_alloc_end s).

Section inv.
Implicit Types (s : pmm) (a b : pmm_arena) (id : nat) (p : Z).

Lemma page_at_inj a i j : page_at a i = page_at a j -> i = j.
Proof. unfold page_at, sizeof_vm_page. lia. Qed.

Lemma owner_unique s id1 id2 a b p : pinv s ->
  arenas s !! id1 = Some a -> arenas s !! id2 = Some b -> in_array a p -> in_array b p -> id1 = id2.
Proof.
  intros Hi Ha Hb (i & Hi1 & ->) (j & Hj & E). destruct (decide (id1 = id2)) as [|Hne]; [done|exfalso].
  destruct (pi_apart s Hi id1 id2 a b Ha Hb Hne); unfold page_at, sizeof_vm_page in *; lia.
Qed.

Lemma array_length a (l : list Z) : 0 <= page_count a -> NoDup l -> (forall p, p ∈ l -> in_array a p) ->
  Z.of_nat (length l) <= page_count a.
Proof.
  intros Hp Hnd Hin.
  assert (length l <= length ((fun i => page_at a (Z.of_nat i)) <$> seq 0 (Z.to_nat (page_count a))))%nat as Hl.
  { apply NoDup_incl_length; [by apply NoDup_ListNoDup|]. intros p Hpl%list_elem_of_In.
    destruct (Hin p Hpl) as (i & Hi & ->). apply list_elem_of_In, list_elem_of_fmap. exists (Z.to_nat i).
    split; [f_equal; lia|]. apply elem_of_seq. lia. }
  rewrite length_fmap, length_seq in Hl. lia.
Qed.

Lemma page_count_pos bound a : arena_ok bound a -> 0 < page_count a < 2 ^ 52 + 1.
Proof.
  intros [_ [q Hq] H _]. unfold page_count. change PAGE_SIZE with 4096. rewrite Hq, Z.div_mul by lia. lia.
Qed.

Lemma free_length s id a : pinv s -> arenas s !! id = Some a ->
  Z.of_nat (length (fq (plists s) (FreeList id))) <= page_count a < 2 ^ 52 + 1.
Proof.
  intros Hi Ha. pose proof (page_count_pos _ a (pi_arena s Hi id a Ha)). split; [|lia].
  apply array_length; [lia|apply (wf_nodup _ (pi_wf s Hi))|]. intros p (b & Hb & Hp & _)%(pi_free s Hi). by simplify_eq.
Qed.

Lemma recount_lookup id d m id' : recount id d m !! id' =
  if decide (id = id') then (fun a => set_free_count (u64 (a_free_count a + d)) a) <$> m !! id' else m !! id'.
Proof. unfold recount. case_decide; [subst; apply lookup_alter_eq|by apply lookup_alter_ne]. Qed.

(** Everything about an arena but its count is as before. *)
Lemma recount_Some id d m id' a : recount id d m !! id' = Some a ->
  exists a0, m !! id' = Some a0 /\ a = set_free_count (a_free_count a) a0 /\
    a_free_count a = (if decide (id = id') then u64 (a_free_count a0 + d) else a_free_count a0).
Proof.
  rewrite recount_lookup. case_decide; intros E.
  - apply fmap_Some in E as (a0 & E & ->). by exists a0.
  - exists a. by destruct a.
Qed.

Lemma recount_is_Some id d m id' : is_Some (recount id d m !! id') <-> is_Some (m !! id').
Proof. rewrite recount_lookup. case_decide; [by rewrite fmap_is_Some|done]. Qed.

Lemma recount_priority id d s s' id' : arenas s' = recount id d (arenas s) -> priority_of s' id' = priority_of s id'.
Proof.
  intros E. unfold priority_of. rewrite E, recount_lookup. case_decide; [|done]. by destruct (arenas s !! id').
Qed.

(** What a change of the count and of the pages keeps. *)
Lemma pinv_recount s s' id d : pinv s ->
  arena_list s' = arena_list s -> arenas s' = recount id d (arenas s) -> boot_alloc_end s' = boot_alloc_end s ->
  (forall p, is_Some (pages s !! p) -> is_Some (pages s' !! p)) ->
  wf (plists s') ->
  (forall id' p, p ∈ fq (plists s') (FreeList id') <->
     exists a, arenas s !! id' = Some a /\ in_array a p /\ pages s' !! p = Some VM_PAGE_STATE_FREE) ->
  (forall l p, p ∈ fq (plists s') (CallerList l) ->
     exists id' a st, arenas s !! id' = Some a /\ in_array a p /\ pages s' !! p = Some st /\ st <> VM_PAGE_STATE_FREE) ->
  (forall id' a, arenas s !! id' = Some a -> (if decide (id = id') then u64 (a_free_count a + d) else a_free_count a) =
     Z.of_nat (length (fq (plists s') (FreeList id')))) ->
  pinv s'.
Proof.
  intros Hi El Ea Eb Hp Hwf Hf Hu Hc.
  assert (forall id' a0 p, arenas s !! id' = Some a0 -> in_array a0 p ->
    exists a, arenas s' !! id' = Some a /\ in_array a p) as Hup.
  { intros id' a0 p E Hin. rewrite Ea, recount_lookup. case_decide; [|by exists a0].
    rewrite E. simpl. eexists. split; [done|]. exact Hin. }
  split.
  - intros id'. rewrite El, Ea, recount_is_Some. apply (pi_arenas s Hi).
  - rewrite El. split; [apply (pi_order s Hi)|].
    rewrite (list_fmap_ext _ (priority_of s)); [apply (pi_order s Hi)|]. intros ? x _. by eapply recount_priority.
  - rewrite Eb. apply (pi_boot s Hi).
  - intros id' a E. rewrite Ea in E. apply recount_Some in E as (a0 & E & -> & _). rewrite Eb.
    destruct (pi_arena s Hi id' a0 E). split; done.
  - intros id1 id2 a b E1 E2 Hne. rewrite Ea in E1, E2.
    apply recount_Some in E1 as (a0 & E1 & -> & _). apply recount_Some in E2 as (b0 & E2 & -> & _).
    apply (pi_apart s Hi id1 id2 a0 b0 E1 E2 Hne).
  - intros id' a p E Hin. rewrite Ea in E. apply recount_Some in E as (a0 & E & E' & _).
    rewrite E' in Hin. apply Hp. by apply (pi_pages s Hi id' a0 p).
  - done.
  - intros id' p. rewrite Hf. split.
    + intros (a0 & E & Hin & Hst). destruct (Hup id' a0 p E Hin) as (a & E' & Hin'). by exists a.
    + intros (a & E & Hin & Hst). rewrite Ea in E. apply recount_Some in E as (a0 & E & E' & _).
      rewrite E' in Hin. by exists a0.
  - intros l p (id' & a0 & st & E & Hin & Hst)%Hu. destruct (Hup id' a0 p E Hin) as (a & E' & Hin'). by exists id', a, st.
  - intros id' a E. rewrite Ea in E. apply recount_Some in E as (a0 & E & _ & ->). by apply Hc.
Qed.

Lemma fq_onto ol p F k : fq (onto ol p F) k = fq F k ++ (if decide (CallerList <$> ol = Some k) then [p] else []).
Proof.
  destruct ol as [l|]; cbn [onto]; [|by rewrite decide_False, app_nil_r by done].
  rewrite fq_add_tail. destruct (decide (CallerList l = k)) as [<-|Hne].
  - by rewrite decide_True.
  - rewrite decide_False, app_nil_r; [done|]. cbn. congruence.
Qed.

Lemma wf_onto ol p F : wf F -> in_list p F = false -> wf (onto ol p F).
Proof. intros. destruct ol; [by apply wf_add_tail|done]. Qed.

(** The lists after a page was taken. *)
Lemma grab_free id p ol s id' : fq (plists (grab id p ol s)) (FreeList id') = fq (del p (plists s)) (FreeList id').
Proof. simpl. rewrite fq_onto, decide_False, app_nil_r; [done|]. by destruct ol. Qed.

Lemma grab_caller s id p ol l : pinv s -> p ∈ fq (plists s) (FreeList id) ->
  fq (plists (grab id p ol s)) (CallerList l) = fq (plists s) (CallerList l) ++ (if decide (ol = Some l) then [p] else []).
Proof.
  intros Hi Hp. simpl. rewrite fq_onto, fq_del_other.
  - f_equal. destruct ol as [l'|]; [|done]. destruct (decide (l' = l)) as [->|].
    + by rewrite !decide_True.
    + rewrite !decide_False; [done|congruence|]. cbn. congruence.
  - intros Hp'. by pose proof (wf_one _ (pi_wf s Hi) _ _ _ Hp Hp').
Qed.

Lemma del_length s k p : pinv s -> p ∈ fq (plists s) k ->
  (length (fq (plists s) k) = 1 + length (fq (del p (plists s)) k))%nat.
Proof.
  intros Hi (l1 & l2 & E)%list_elem_of_split.
  rewrite (fq_del_mid k p (plists s) l1 l2 (pi_wf s Hi) E), E, !length_app. simpl. lia.
Qed.

Lemma grab_pinv s id p ol : pinv s -> p ∈ fq (plists s) (FreeList id) -> pinv (grab id p ol s).
Proof.
  intros Hi Hp. pose proof Hp as (a & Ha & Hin & Hst)%(pi_free s Hi).
  eapply (pinv_recount s _ id (-1) Hi); [done..| | | | |].
  - intros q Hq. simpl. rewrite lookup_insert. by case_decide.
  - simpl. apply wf_onto; [apply wf_del, Hi|apply in_list_del].
  - intros id' q. rewrite grab_free, elem_of_fq_del, (pi_free s Hi). simpl. split.
    + intros (Hne & b & Hb & Hq). exists b. by rewrite lookup_insert_ne by done.
    + intros (b & Hb & Hq & E). apply lookup_insert_Some in E as [[? ?]|[? E]]; [done|]. naive_solver.
  - intros l q. simpl. rewrite fq_onto, elem_of_app, elem_of_fq_del. intros [[Hne Hq]|Hq].
    + destruct (pi_used s Hi l q Hq) as (id' & b & st & ? & ? & ? & ?). exists id', b, st.
      by rewrite lookup_insert_ne by done.
    + assert (q = p) as -> by (case_decide; set_solver +Hq). exists id, a, VM_PAGE_STATE_ALLOC. by rewrite lookup_insert_eq.
  - intros id' b Hb. rewrite grab_free, (pi_count s Hi id' b Hb).
    pose proof (free_length s id' b Hi Hb) as Hlen. case_decide as Hid.
    + subst id'. rewrite (del_length s (FreeList id) p Hi Hp) in *. rewrite u64_small; lia.
    + rewrite fq_del_other; [done|]. intros Hp'. pose proof (wf_one _ (pi_wf s Hi) _ _ _ Hp Hp'). congruence.
Qed.

Lemma give_pinv s id a p st : pinv s -> arenas s !! id = Some a -> in_array a p ->
  pages s !! p = Some st -> st <> VM_PAGE_STATE_FREE -> pinv (give id p s).
Proof.
  intros Hi Ha Hin Hst Hne.
  assert (forall id', p ∉ fq (plists s) (FreeList id')) as Hnf.
  { intros id' (b & _ & _ & E)%(pi_free s Hi). congruence. }
  eapply (pinv_recount s _ id 1 Hi); [done..| | | | |].
  - intros q Hq. simpl. rewrite lookup_insert. by case_decide.
  - simpl. apply wf_add_head; [apply wf_del, Hi|apply in_list_del].
  - intros id' q. simpl. rewrite fq_add_head. transitivity ((id' = id /\ q = p) \/ q ∈ fq (del p (plists s)) (FreeList id')).
    { case_decide; [simplify_eq|]; set_solver. }
    rewrite elem_of_fq_del, (pi_free s Hi). split.
    + intros [[-> ->]|(Hq & b & Hb & Hinb & E)]; [exists a|exists b].
      * by rewrite lookup_insert_eq.
      * by rewrite lookup_insert_ne by done.
    + intros (b & Hb & Hinb & E). apply lookup_insert_Some in E as [[<- _]|[? E]]; [left|naive_solver].
      split; [|done]. by apply (owner_unique s id' id b a p).
  - intros l q. simpl. rewrite fq_add_head, decide_False, elem_of_fq_del by done. intros [Hq Hl].
    destruct (pi_used s Hi l q Hl) as (id' & b & st' & ? & ? & ? & ?). exists id', b, st'. by rewrite lookup_insert_ne by done.
  - intros id' b Hb. simpl. rewrite fq_add_head, fq_del_other, (pi_count s Hi id' b Hb) by done.
    case_decide; [subst id'; rewrite decide_True by done|by rewrite decide_False by congruence].
    rewrite Ha in Hb. injection Hb as <-. assert (Z.of_nat (length (p :: fq (plists s) (FreeList id))) <= page_count a) as Hlen.
    { pose proof (page_count_pos _ a (pi_arena s Hi id a Ha)).
      apply array_length; [lia| |].
      - constructor; [done|apply Hi].
      - intros q [->|Hq]%elem_of_cons; [done|]. apply (pi_free s Hi) in Hq as (b' & Hb' & ? & _). by simplify_eq. }
    pose proof (free_length s id a Hi Ha) as Hlb. cbn [length] in Hlen |- *. rewrite u64_small; lia.
Qed.

(** ** Steps of the loops *)

Lemma get_arena_wp id a Q s : arenas s !! id = Some a -> Q a s -> wp (get_arena id) Q s.
Proof. intros E HQ. unfold get_arena. repeat wp_step; [exact E|done]. Qed.

Lemma remove_head_nil k Q s : fq (plists s) k = [] -> Q None s -> wp (remove_head k) Q s.
Proof. intros E HQ. unfold remove_head. do 2 wp_step. rewrite E. by wp_step. Qed.

Lemma unlink_wp p k Q s : p ∈ fq (plists s) k -> Q tt (set_plists (del p (plists s)) s) -> wp (unlink p) Q s.
Proof.
  intros Hp HQ. unfold unlink. do 2 wp_step. rewrite (proj2 (in_list_spec p (plists s))) by eauto. by wp_step.
Qed.

Lemma remove_head_cons k p l Q s : fq (plists s) k = p :: l ->
  Q (Some p) (set_plists (del p (plists s)) s) -> wp (remove_head k) Q s.
Proof.
  intros E HQ. unfold remove_head. do 2 wp_step. rewrite E. wp_step. apply (unlink_wp p k); [rewrite E; set_solver +|].
  by wp_step.
Qed.

Lemma page_is_free_wp p st Q s : pages s !! p = Some st -> Q (is_free st) s -> wp (page_is_free p) Q s.
Proof. intros E HQ. unfold page_is_free, get_page. repeat wp_step; [exact E|]. done. Qed.

Lemma link_tail_wp k p Q s : in_list p (plists s) = false ->
  Q tt (set_plists (add_tail k p (plists s)) s) -> wp (link_tail k p) Q s.
Proof. intros E HQ. unfold link_tail. do 2 wp_step. rewrite E. by wp_step. Qed.

Lemma link_head_wp k p Q s : in_list p (plists s) = false ->
  Q tt (set_plists (add_head k p (plists s)) s) -> wp (link_head k p) Q s.
Proof. intros E HQ. unfold link_head. do 2 wp_step. rewrite E. by wp_step. Qed.

Lemma free_page_state s id p : pinv s -> p ∈ fq (plists s) (FreeList id) ->
  pages s !! p = Some VM_PAGE_STATE_FREE /\ in_list p (plists s) = true.
Proof. intros Hi Hp. split; [by apply (pi_free s Hi) in Hp as (a & _ & _ & ?)|]. apply in_list_spec. eauto. Qed.

(** ** The pages there are, in the order they are handed out *)

Definition avail_of (flags : Z) (s : pmm) (id : nat) : list (nat * Z) :=
  match arenas s !! id with
  | Some a => if skip_arena flags a then [] else pair id <$> fq (plists s) (FreeList id)
  | None => []
  end.

Definition avail_in (flags : Z) (s : pmm) (l : list nat) : list (nat * Z) := l ≫= avail_of flags s.

Definition avail (flags : Z) (s : pmm) : list (nat * Z) := avail_in flags s (arena_list s).

Fixpoint grabs (ol : option nat) (ips : list (nat * Z)) (s : pmm) : pmm :=
  match ips with [] => s | (id, p) :: ips => grabs ol ips (grab id p ol s) end.

(** Pages that can be taken one after the other. *)
Definition takeable (s : pmm) (ips : list (nat * Z)) : Prop :=
  NoDup ips.*2 /\ forall id p, (id, p) ∈ ips -> p ∈ fq (plists s) (FreeList id).

Lemma takeable_nil s : takeable s [].
Proof. split; [constructor|set_solver]. Qed.

Lemma takeable_cons s id p ol ips : pinv s -> takeable s ((id, p) :: ips) ->
  p ∈ fq (plists s) (FreeList id) /\ takeable (grab id p ol s) ips.
Proof.
  intros Hi [Hnd Hin]. split; [apply Hin; set_solver +|]. apply NoDup_cons in Hnd as [Hn Hnd]. split; [done|].
  intros id' q Hq. rewrite grab_free, elem_of_fq_del. split; [|apply Hin; set_solver +Hq].
  intros ->. apply Hn. apply list_elem_of_fmap. by exists (id', p).
Qed.

Lemma grabs_app ol l1 l2 s : grabs ol (l1 ++ l2) s = grabs ol l2 (grabs ol l1 s).
Proof. revert s. induction l1 as [|[id p] l1 IH]; intros s; [done|apply IH]. Qed.

Lemma grabs_pinv ol ips s : pinv s -> takeable s ips -> pinv (grabs ol ips s).
Proof.
  revert s. induction ips as [|[id p] ips IH]; intros s Hi Ht; [done|].
  apply (takeable_cons s id p ol ips Hi) in Ht as [Hp Ht]. apply IH; [by apply grab_pinv|done].
Qed.

Lemma grabs_caller ol ips s l : pinv s -> takeable s ips ->
  fq (plists (grabs ol ips s)) (CallerList l) = fq (plists s) (CallerList l) ++ (if decide (ol = Some l) then ips.*2 else []).
Proof.
  revert s. induction ips as [|[id p] ips IH]; intros s Hi Ht; simpl.
  - case_decide; by rewrite app_nil_r.
  - apply (takeable_cons s id p ol ips Hi) in Ht as [Hp Ht].
    rewrite IH, grab_caller by (done || by apply grab_pinv). case_decide; by rewrite <- ?app_assoc.
Qed.

Lemma filter_id {A} (P : A -> Prop) `{forall x, Decision (P x)} (l : list A) : (forall x, x ∈ l -> P x) -> filter P l = l.
Proof.
  induction l as [|x l IH]; intros Hl; [done|]. rewrite filter_cons_True by (apply Hl; set_solver +).
  f_equal. apply IH. set_solver.
Qed.

Lemma grabs_free ol ips s id : fq (plists (grabs ol ips s)) (FreeList id) = filter (fun p => p ∉ ips.*2) (fq (plists s) (FreeList id)).
Proof.
  revert s. induction ips as [|[id' p] ips IH]; intros s; simpl.
  - symmetry. apply filter_id. intros; apply not_elem_of_nil.
  - rewrite IH, grab_free, fq_del, list_filter_filter. apply list_filter_iff. intros q. set_solver +.
Qed.

Lemma grabs_pages ol ips s p : pages (grabs ol ips s) !! p =
  if decide (p ∈ ips.*2) then Some VM_PAGE_STATE_ALLOC else pages s !! p.
Proof.
  revert s. induction ips as [|[id q] ips IH]; intros s.
  - cbn. by rewrite decide_False by apply not_elem_of_nil.
  - cbn [grabs fmap list_fmap snd]. rewrite IH. simpl. destruct (decide (p ∈ ips.*2)).
    + by rewrite decide_True by set_solver.
    + destruct (decide (q = p)) as [->|]; [by rewrite lookup_insert_eq, decide_True by set_solver|].
      by rewrite lookup_insert_ne, decide_False by set_solver.
Qed.

Lemma grabs_arenas ol ips s id : set_free_count 0 <$> arenas (grabs ol ips s) !! id = set_free_count 0 <$> arenas s !! id.
Proof.
  revert s. induction ips as [|[id' p] ips IH]; intros s; [done|]. simpl. rewrite IH. simpl. rewrite recount_lookup.
  case_decide; [|done]. by destruct (arenas s !! id).
Qed.

Lemma grabs_list ol ips s : arena_list (grabs ol ips s) = arena_list s.
Proof. revert s. induction ips as [|[id p] ips IH]; intros s; [done|]. simpl. by rewrite IH. Qed.

Lemma avail_of_grab flags id p ol s id' : avail_of flags (grab id p ol s) id' = filter (fun x => x.2 <> p) (avail_of flags s id').
Proof.
  unfold avail_of. cbn [arenas grab]. rewrite recount_lookup.
  assert (fq (plists (grab id p ol s)) (FreeList id') = filter (fun q => q <> p) (fq (plists s) (FreeList id'))) as ->
    by (rewrite grab_free; apply fq_del).
  assert (filter (fun x => x.2 <> p) (pair id' <$> fq (plists s) (FreeList id')) =
          pair id' <$> filter (fun q => q <> p) (fq (plists s) (FreeList id'))) as E.
  { induction (fq (plists s) (FreeList id')) as [|q l IH]; [done|]. cbn [fmap list_fmap].
    destruct (decide (q = p)).
    - rewrite !filter_cons_False by (simpl; naive_solver). done.
    - rewrite !filter_cons_True by done. simpl. f_equal. done. }
  destruct (arenas s !! id') as [a|]; [|by case_decide].
  case_decide; simpl; unfold skip_arena; simpl; destruct (negb _ && _); done.
Qed.

Lemma avail_in_grab flags id p ol s l : avail_in flags (grab id p ol s) l = filter (fun x => x.2 <> p) (avail_in flags s l).
Proof.
  unfold avail_in. induction l as [|id' l IH]; [done|]. rewrite !bind_cons, filter_app, avail_of_grab. by rewrite IH.
Qed.

Lemma elem_of_avail_of flags s id' id p : (id, p) ∈ avail_of flags s id' -> id = id' /\ p ∈ fq (plists s) (FreeList id).
Proof.
  unfold avail_of. destruct (arenas s !! id') as [a|]; [|set_solver]. destruct (skip_arena flags a); [set_solver|].
  intros (q & E & Hq)%list_elem_of_fmap. by simplify_eq.
Qed.

Lemma elem_of_avail_in flags s l id p : (id, p) ∈ avail_in flags s l -> id ∈ l /\ p ∈ fq (plists s) (FreeList id).
Proof. intros (id' & Hp & Hl)%list_elem_of_bind. by apply elem_of_avail_of in Hp as [-> ?]. Qed.

Lemma avail_nodup flags s l : pinv s -> NoDup l -> NoDup (avail_in flags s l).*2.
Proof.
  intros Hi. induction l as [|id l IH]; intros Hnd; [constructor|]. apply NoDup_cons in Hnd as [Hn Hnd].
  unfold avail_in. rewrite bind_cons, fmap_app. apply NoDup_app. split_and!; [| |by apply IH].
  - unfold avail_of. destruct (arenas s !! id) as [a|]; [|constructor]. destruct (skip_arena flags a); [constructor|].
    rewrite <- list_fmap_compose. rewrite (list_fmap_ext _ (fun p => p)), list_fmap_id; [apply Hi|done].
  - intros p ([id1 p1] & -> & H1)%list_elem_of_fmap ([id2 p2] & E & H2)%list_elem_of_fmap. simpl in E. subst p2.
    apply elem_of_avail_of in H1 as [-> H1]. apply elem_of_avail_in in H2 as [H2 H3].
    pose proof (wf_one _ (pi_wf s Hi) _ _ _ H1 H3). congruence.
Qed.

Lemma avail_takeable flags s l n : pinv s -> NoDup l -> takeable s (take n (avail_in flags s l)).
Proof.
  intros Hi Hnd. split.
  - rewrite fmap_take. apply (sublist_NoDup _ (avail_in flags s l).*2); [by apply avail_nodup|apply sublist_take].
  - intros id p Hp. apply elem_of_take in Hp as (i & Hp & _). apply list_elem_of_lookup_2 in Hp.
    by apply elem_of_avail_in in Hp as [_ Hp].
Qed.

(** [pmm_alloc_page] takes the first page there is. *)
Lemma alloc_page_in_wp flags l s : pinv s -> (forall id, id ∈ l -> is_Some (arenas s !! id)) ->
  wp (alloc_page_in flags l) (fun r s' =>
    match avail_in flags s l with
    | [] => r = None /\ s' = s
    | (id, p) :: _ => s' = grab id p None s /\
        exists a, arenas s !! id = Some a /\ r = Some (p, PAGE_ADDRESS_FROM_ARENA p a)
    end) s.
Proof.
  intros Hi. induction l as [|id l IH]; intros Hl; [done|].
  destruct (Hl id ltac:(set_solver +)) as [a Ha]. specialize (IH ltac:(set_solver)).
  unfold avail_in. rewrite bind_cons. unfold avail_of at 1. rewrite Ha. simpl. wp_step.
  apply (get_arena_wp id a); [done|]. destruct (skip_arena flags a); [done|].
  destruct (fq (plists s) (FreeList id)) as [|p q] eqn:Eq; wp_step.
  { apply remove_head_nil; done. }
  apply (remove_head_cons _ p q); [done|]. cbv iota.
  assert (p ∈ fq (plists s) (FreeList id)) as Hp by (rewrite Eq; set_solver +).
  destruct (free_page_state s id p Hi Hp) as [Hst _].
  unfold count_free, set_page. do 3 wp_step.
  apply (page_is_free_wp p VM_PAGE_STATE_FREE); [done|]. do 2 wp_step; [done|]. do 3 wp_step. split; [done|eauto].
Qed.

Lemma pinv_lookup s id : pinv s -> id ∈ arena_list s -> is_Some (arenas s !! id).
Proof. intros Hi. apply (pi_arenas s Hi). Qed.

(** One arena: pages are taken from the head of its free list until there are enough or there are none. *)
Lemma alloc_pages_from_wp id count ls q : forall fuel s allocated, pinv s -> is_Some (arenas s !! id) ->
  fq (plists s) (FreeList id) = q -> (length q < fuel)%nat -> 0 <= allocated <= count -> count < 2 ^ 32 ->
  wp (alloc_pages_from fuel id count ls allocated) (fun r s' =>
    let k := Z.min (count - allocated) (Z.of_nat (length q)) in
    r = (allocated + k, false) /\ s' = grabs (Some ls) (pair id <$> take (Z.to_nat k) q) s) s.
Proof.
  induction q as [|p q IH]; intros fuel s allocated Hi [a Ha] Eq Hf Hc Hc32;
    (destruct fuel as [|fuel]; [simpl in Hf; lia|]); cbn [alloc_pages_from]; wp_step; apply (get_arena_wp id a); try done;
    rewrite (pi_count s Hi id a Ha), Eq.
  - rewrite andb_false_r. wp_step. rewrite Z.min_r by (simpl; lia). split; [f_equal; simpl; lia|done].
  - rewrite (proj2 (Z.ltb_lt 0 _)) by (simpl; lia). rewrite andb_true_r.
    destruct (Z.ltb_spec allocated count) as [Hlt|Hge].
    2:{ wp_step. rewrite Z.min_l by lia. replace (count - allocated) with 0 by lia. split; [f_equal; lia|done]. }
    wp_step. apply (remove_head_cons _ p q); [done|]. cbv iota.
    assert (p ∈ fq (plists s) (FreeList id)) as Hp by (rewrite Eq; set_solver +).
    destruct (free_page_state s id p Hi Hp) as [Hst _].
    unfold count_free, set_page. do 3 wp_step.
    apply (page_is_free_wp p VM_PAGE_STATE_FREE); [done|]. do 2 wp_step; [done|]. do 3 wp_step.
    apply link_tail_wp; [apply in_list_del|]. rewrite u32_small by lia.
    match goal with |- wp _ _ ?s1 => change s1 with (grab id p (Some ls) s) end.
    assert (fq (plists (grab id p (Some ls) s)) (FreeList id) = q) as Eq'.
    { rewrite grab_free. apply (fq_del_mid _ p _ [] q); [apply Hi|done]. }
    eapply wp_mono; [apply (IH fuel (grab id p (Some ls) s) (allocated + 1))|].
    + by apply grab_pinv.
    + simpl. rewrite recount_is_Some. eauto.
    + done.
    + simpl in Hf. lia.
    + lia.
    + done.
    + intros r s' [-> ->]. cbn [length]. replace (Z.min (count - allocated) (Z.of_nat (S (length q))))
        with (Z.min (count - (allocated + 1)) (Z.of_nat (length q)) + 1) by lia.
      split; [f_equal; lia|]. set (k := Z.min _ _) in *. by replace (Z.to_nat (k + 1)) with (S (Z.to_nat k)) by lia.
Qed.

Lemma avail_of_grabs flags ol ips s l : (forall x, x ∈ ips.*2 -> x ∉ (avail_in flags s l).*2) ->
  avail_in flags (grabs ol ips s) l = avail_in flags s l.
Proof.
  revert s. induction ips as [|[id p] ips IH]; intros s Hn; [done|]. cbn [grabs].
  assert (avail_in flags (grab id p ol s) l = avail_in flags s l) as E.
  { rewrite avail_in_grab. apply filter_id. intros [id' q] Hq E. simpl in E. subst q.
    apply (Hn p); [set_solver +|]. apply list_elem_of_fmap. by exists (id', p). }
  rewrite IH, E; [done|]. intros x Hx. rewrite E. apply Hn. set_solver +Hx.
Qed.

Lemma alloc_pages_in_wp flags count ls l : forall s allocated, pinv s -> NoDup l -> (forall id, id ∈ l -> is_Some (arenas s !! id)) ->
  0 <= allocated <= count -> count < 2 ^ 32 ->
  wp (alloc_pages_in flags count ls allocated l) (fun r s' =>
    let k := Z.min (count - allocated) (Z.of_nat (length (avail_in flags s l))) in
    r = allocated + k /\ s' = grabs (Some ls) (take (Z.to_nat k) (avail_in flags s l)) s) s.
Proof.
  induction l as [|id l IH]; intros s allocated Hi Hnd Hl Hc Hc32; cbn [alloc_pages_in].
  { wp_step. simpl. rewrite take_nil. split; [lia|done]. }
  apply NoDup_cons in Hnd as [Hn Hnd]. destruct (Hl id ltac:(set_solver +)) as [a Ha].
  wp_step. apply (get_arena_wp id a); [done|].
  unfold avail_in. rewrite bind_cons. fold (avail_in flags s l). unfold avail_of. rewrite Ha.
  destruct (skip_arena flags a) eqn:Esk; [apply IH; set_solver|].
  set (q := fq (plists s) (FreeList id)). wp_step. eapply wp_mono.
  { eapply (alloc_pages_from_wp id count ls q); [done|eauto|done| |done|done].
    rewrite (pi_count s Hi id a Ha). subst q. lia. }
  intros r s1 [-> ->]. cbv zeta. set (k := Z.min (count - allocated) (Z.of_nat (length q))).
  cbv iota beta. set (ips := pair id <$> take (Z.to_nat k) q).
  assert (takeable s ips) as Ht.
  { pose proof (avail_takeable flags s [id] (Z.to_nat k) Hi ltac:(apply NoDup_singleton)) as Ht.
    unfold avail_in in Ht. simpl in Ht. rewrite app_nil_r in Ht. unfold avail_of in Ht. rewrite Ha, Esk in Ht.
    subst ips. by rewrite fmap_take. }
  assert (avail_in flags (grabs (Some ls) ips s) l = avail_in flags s l) as Eav.
  { apply avail_of_grabs. intros p ([i1 p1] & -> & H1)%list_elem_of_fmap ([i2 p2] & E & H2)%list_elem_of_fmap.
    simpl in E. subst p2. apply (proj2 Ht) in H1 as H1'. apply elem_of_avail_in in H2 as [H2 H3].
    pose proof (wf_one _ (pi_wf s Hi) _ _ _ H1' H3) as E. simplify_eq. apply list_elem_of_fmap in H1 as (? & ? & _). by simplify_eq. }
  eapply wp_mono; [apply IH|].
  - by apply grabs_pinv.
  - done.
  - intros id' Hid'. pose proof (grabs_arenas (Some ls) ips s id') as E. destruct (Hl id' ltac:(set_solver +Hid')) as [b Hb].
    rewrite Hb in E. by apply fmap_Some in E as (? & ? & _).
  - lia.
  - done.
  - intros r s' [-> ->]. cbv zeta. rewrite Eav, <- grabs_app, length_app, length_fmap.
    set (v := avail_in flags s l). split; [lia|]. f_equal. subst ips. rewrite take_app, fmap_take, length_fmap.
    destruct (decide (count - allocated <= Z.of_nat (length q))).
    + replace (Z.to_nat (Z.min (count - (allocated + k)) (Z.of_nat (length v)))) with 0%nat by lia.
      replace (Z.to_nat (Z.min (count - allocated) _) - length q)%nat with 0%nat by lia. rewrite !take_0, !app_nil_r. f_equal. lia.
    + f_equal; [|f_equal; lia]. rewrite !take_ge; [done|rewrite length_fmap; lia..].
Qed.
End inv.
