(* ===== verification/PmmSpec.v ===== *)
(** * The promises of the page allocator

    The searches of [pmm_alloc_contiguous] and [pmm_alloc_range], freeing, new arenas and the
    pages of the kernel, and the theorems about [vm/pmm.c]: it never faults and stays
    well-formed, what it allocates is exactly what it should, and what is freed is as before. *)

From stdpp Require Import base gmap list numbers sorting relations.
From S2P Require Import Prelude ListNode Align Pmm.
Import Family.

Section inv.
Implicit Types (s : pmm) (a b : pmm_arena) (id : nat) (p : Z).

(** ** Runs of free pages *)

Definition run_free (s : pmm) (a : pmm_arena) (start count : Z) : Prop :=
  forall j, start <= j < start + count -> pages s !! page_at a j = Some VM_PAGE_STATE_FREE.

Fixpoint run_pages (a : pmm_arena) (i : Z) (n : nat) : list Z :=
  match n with O => [] | S n => page_at a i :: run_pages a (i + 1) n end.

Lemma elem_of_run_pages a n p : forall i, p ∈ run_pages a i n <-> exists j, i <= j < i + Z.of_nat n /\ p = page_at a j.
Proof.
  induction n as [|n IH]; intros i; simpl.
  - split; [set_solver|]. intros (j & Hj & _). lia.
  - rewrite elem_of_cons, IH. split.
    + intros [->|(j & Hj & ->)]; [exists i|exists j]; (split; [lia|done]).
    + intros (j & Hj & ->). destruct (decide (j = i)) as [->|]; [by left|]. right. exists j. split; [lia|done].
Qed.

Lemma run_pages_length a n : forall i, length (run_pages a i n) = n.
Proof. induction n as [|n IH]; intros i; simpl; [done|]. by rewrite IH. Qed.

Lemma run_pages_nodup a n : forall i, NoDup (run_pages a i n).
Proof.
  induction n as [|n IH]; intros i; simpl; constructor; [|apply IH].
  intros (j & Hj & E%page_at_inj)%elem_of_run_pages. lia.
Qed.

Lemma run_takeable s id a st n : pinv s -> arenas s !! id = Some a -> 0 <= st -> st + Z.of_nat n <= page_count a ->
  run_free s a st (Z.of_nat n) -> takeable s (pair id <$> run_pages a st n).
Proof.
  intros Hi Ha Hst Hn Hr. split.
  - rewrite <- list_fmap_compose, (list_fmap_ext _ (fun p => p)), list_fmap_id; [apply run_pages_nodup|done].
  - intros id' p (q & E & Hq)%list_elem_of_fmap. simplify_eq. apply elem_of_run_pages in Hq as (j & Hj & ->).
    apply (pi_free s Hi). exists a. split_and!; [done| |by apply Hr]. exists j. split; [lia|done].
Qed.

Lemma check_run_wp s id a start count : pinv s -> arenas s !! id = Some a ->
  0 <= start -> start + count <= page_count a -> count < 2 ^ 32 ->
  forall fuel i, 0 <= i <= count -> (Z.to_nat (count - i) < fuel)%nat -> run_free s a start i ->
  wp (check_run fuel count (page_at a (start + i)) i) (fun r s' => s' = s /\
    match r with
    | None => run_free s a start count
    | Some i' => 0 <= i' < count /\ pages s !! page_at a (start + i') <> Some VM_PAGE_STATE_FREE
    end) s.
Proof.
  intros Hi Ha Hst Hc H32. induction fuel as [|fuel IH]; intros i Hic Hf Hr; [lia|]. cbn [check_run].
  destruct (Z.ltb_spec i count) as [Hlt|Hge].
  2:{ wp_step. split; [done|]. by replace count with i by lia. }
  destruct (pi_pages s Hi id a (page_at a (start + i)) Ha) as [st Hp]; [exists (start + i); split; [lia|done]|].
  wp_step. apply (page_is_free_wp _ st); [done|]. unfold is_free. case_bool_decide as Efree; simpl.
  - rewrite u32_small by lia. replace (page_at a (start + i) + sizeof_vm_page) with (page_at a (start + (i + 1)))
      by (unfold page_at; lia).
    apply IH; [lia..|]. intros j Hj. destruct (decide (j = start + i)) as [->|]; [by rewrite Hp, Efree|]. apply Hr. lia.
  - wp_step. split_and!; [done|lia..|]. rewrite Hp. congruence.
Qed.

(** The offsets the search looks at. *)
Definition candidate (k off c : Z) : Prop := off <= c /\ (2 ^ k | c - off).

Lemma find_run_wp s id a count align off : pinv s -> arenas s !! id = Some a ->
  0 < count < 2 ^ 32 -> 12 <= align < 64 -> 0 <= off < page_count a ->
  forall fuel start, candidate (align - 12) off start -> start < 2 ^ 60 -> (Z.to_nat (page_count a - start) < fuel)%nat ->
  (forall c, candidate (align - 12) off c -> c < start -> c + count <= page_count a -> ~ run_free s a c count) ->
  wp (find_run fuel a count align off start) (fun r s' => s' = s /\
    match r with
    | Some st => candidate (align - 12) off st /\ st + count <= page_count a /\ run_free s a st count
    | None => forall c, candidate (align - 12) off c -> c + count <= page_count a -> ~ run_free s a c count
    end) s.
Proof.
  intros Hi Ha Hc Hal Hoff. pose proof (page_count_pos _ a (pi_arena s Hi id a Ha)) as Hn.
  induction fuel as [|fuel IH]; intros start Hcand H60 Hf Hno; [lia|]. cbn [find_run]. fold (page_count a).
  pose proof Hcand as [Hos Hdiv]. rewrite u64_small by lia.
  destruct (Z.ltb_spec start (page_count a)) as [Hlt|Hge]; cbn [andb].
  2:{ wp_step. split; [done|]. intros c Hcc Hcn. apply Hno; [done|lia..]. }
  destruct (Z.leb_spec (start + count) (page_count a)) as [Hle|Hgt].
  2:{ wp_step. split; [done|]. intros c Hcc Hcn. apply Hno; [done|lia..]. }
  wp_step. eapply wp_mono.
  { replace (page_at a start) with (page_at a (start + 0)) by (f_equal; lia).
    apply (check_run_wp s id a start count); try done; [lia..|]. intros j Hj. lia. }
  intros [i|] s' [-> Hr]; [|wp_step; done]. destruct Hr as [Hi' Hbrk]. cbv zeta.
  rewrite Z.shiftl_1_l. change PAGE_SIZE_SHIFT with 12.
  assert (2 ^ (align - 12) <= 2 ^ 51) by (apply Z.pow_le_mono_r; lia).
  rewrite (u64_small (start - off + i + 1)) by lia.
  destruct (ROUNDUP_spec (start - off + i + 1) (align - 12)) as [Hd Hb]; [lia..|].
  set (nx := ROUNDUP _ _) in *. rewrite u64_small by lia. apply IH.
  - split; [lia|]. by replace (nx + off - off) with nx by lia.
  - lia.
  - lia.
  - intros c [Hc1 Hc2] Hcs Hcn Hrun. destruct (decide (c < start)); [by apply (Hno c)|].
    assert (c <= start + i).
    { assert (0 < 2 ^ (align - 12)) by lia.
      pose proof (multiple_le (2 ^ (align - 12)) (c - off + 2 ^ (align - 12)) nx ltac:(lia)
        (Z.divide_add_r _ _ _ Hc2 (Z.divide_refl _)) Hd ltac:(lia)). lia. }
    apply Hbrk, Hrun. lia.
Qed.

Lemma take_run_wp id a ol n : forall i s, pinv s -> is_Some (arenas s !! id) ->
  takeable s (pair id <$> run_pages a i n) ->
  wp (take_run id a ol i n) (fun _ s' => s' = grabs ol (pair id <$> run_pages a i n) s) s.
Proof.
  induction n as [|n IH]; intros i s Hi Ha Ht; cbn [take_run]; [by wp_step|].
  cbn [run_pages fmap list_fmap] in *. set (p := page_at a i) in *.
  apply (takeable_cons s id p ol _ Hi) in Ht as [Hp Ht]. destruct (free_page_state s id p Hi Hp) as [Hst Hil].
  wp_step. apply (page_is_free_wp p VM_PAGE_STATE_FREE); [done|]. do 2 wp_step; [done|].
  unfold list_in_list. do 2 wp_step. rewrite Hil. do 2 wp_step; [done|]. wp_step. apply (unlink_wp p (FreeList id)); [done|].
  unfold set_page, count_free. do 4 wp_step. wp_step.
  assert (wp (match ol with Some l => link_tail (CallerList l) p | None => ret tt end)
    (fun _ s' => s' = grab id p ol s)
    (set_arenas (recount id (-1) (arenas s)) (set_pages (<[p := VM_PAGE_STATE_ALLOC]> (pages s)) (set_plists (del p (plists s)) s)))) as Hl.
  { destruct ol as [l|]; [|by wp_step]. apply link_tail_wp; [apply in_list_del|done]. }
  eapply wp_mono; [exact Hl|]. intros _ ? ->. apply IH; [by apply grab_pinv| |done].
  simpl. by rewrite recount_is_Some.
Qed.

(** A run of [count] free pages of an arena from page [c] on, at a multiple of 2^[align]. *)
Definition aligned_run (s : pmm) (a : pmm_arena) (count align c : Z) : Prop :=
  0 <= c /\ c + count <= page_count a /\ (2 ^ align | a_base a + c * 4096) /\ run_free s a c count.

Lemma arena_end bound a : arena_ok bound a -> a_size a = page_count a * 4096 /\ u64 (a_base a + a_size a - 1) = a_base a + a_size a - 1.
Proof.
  intros [_ [q Hq] H _]. unfold page_count. change PAGE_SIZE with 4096. rewrite Hq, Z.div_mul by lia.
  rewrite u64_small; lia.
Qed.

(** The aligned runs of an arena start at the candidates of the search. *)
Lemma aligned_candidate bound a align c : arena_ok bound a -> 12 <= align < 64 ->
  0 <= c < page_count a -> (2 ^ align | a_base a + c * 4096) ->
  let r := ROUNDUP (a_base a) (2 ^ align) in
  a_base a <= r <= a_base a + a_size a - 1 /\ candidate (align - 12) ((r - a_base a) / 4096) c.
Proof.
  intros Hok Hal Hc Hd r. destruct (arena_end bound a Hok) as [Esz _]. destruct Hok as [[b Hb] _ Hr _].
  pose proof (pow2_bound align ltac:(lia)) as Hp. assert (2 ^ align = 2 ^ (align - 12) * 4096) as Ep.
  { change 4096 with (2 ^ 12). rewrite <- Z.pow_add_r by lia. f_equal. lia. }
  destruct (Z.lt_ge_cases (a_base a + (2 ^ align - 1)) (2 ^ 64)) as [Hw|Hw].
  - destruct (ROUNDUP_spec (a_base a) align ltac:(lia) ltac:(lia) Hw) as [Hd' Hb']. fold r in Hd', Hb'.
    pose proof (ROUNDUP_least (a_base a) align (a_base a + c * 4096) ltac:(lia) ltac:(lia) Hw ltac:(lia) Hd) as Hle. fold r in Hle.
    split; [lia|]. destruct Hd as [m Hm], Hd' as [m' Hm']. rewrite Hm', Ep in Hle. rewrite Ep in Hm.
    rewrite Hm', Hb, Ep, Z.mul_assoc, <- Z.mul_sub_distr_r, Z.div_mul by lia.
    assert (c = m * 2 ^ (align - 12) - b) as -> by lia. split; [lia|]. exists (m - m'). lia.
  - exfalso. apply (no_multiple_above (a_base a) align (a_base a + c * 4096)); [lia|done|lia|done].
Qed.

(** Either no arena that may be used has such a run and nothing changes, or the run found is taken. *)
Definition contiguous_post (s : pmm) (count flags align : Z) (ol : option nat) (l : list nat) (r : Z * option Z) (s' : pmm) : Prop :=
  (r = (0, None) /\ s' = s /\
     forall id a c, id ∈ l -> arenas s !! id = Some a -> skip_arena flags a = false -> ~ aligned_run s a count align c) \/
  (exists id a c, id ∈ l /\ arenas s !! id = Some a /\ skip_arena flags a = false /\ aligned_run s a count align c /\
     r = (count, Some (a_base a + c * 4096)) /\ s' = grabs ol (pair id <$> run_pages a c (Z.to_nat count)) s).

Lemma alloc_contiguous_in_wp count flags align ol l s : pinv s ->
  (forall id, id ∈ l -> is_Some (arenas s !! id)) -> 0 < count < 2 ^ 32 -> 12 <= align < 64 ->
  wp (alloc_contiguous_in count flags align ol l) (contiguous_post s count flags align ol l) s.
Proof.
  intros Hi. induction l as [|id l IH]; intros Hl Hc Hal; cbn [alloc_contiguous_in].
  { wp_step. left. split_and!; [done..|]. set_solver. }
  specialize (IH ltac:(set_solver) Hc Hal). destruct (Hl id ltac:(set_solver +)) as [a Ha].
  wp_step. apply (get_arena_wp id a); [done|].
  assert ((forall c, skip_arena flags a = false -> ~ aligned_run s a count align c) ->
    wp (alloc_contiguous_in count flags align ol l) (contiguous_post s count flags align ol (id :: l)) s) as Hnext.
  { intros Hno. eapply wp_mono; [exact IH|]. intros r s' [(-> & -> & H)|(id' & b & c & H)].
    - left. split_and!; [done..|]. intros id' b c [->|Hid]%elem_of_cons Hb; [rewrite Ha in Hb; injection Hb as <-; apply Hno|by apply (H id')].
    - right. exists id', b, c. destruct H as (? & H). split; [set_solver|done]. }
  destruct (skip_arena flags a) eqn:Esk; [by apply Hnext|].
  pose proof (pi_arena s Hi id a Ha) as Hok. destruct (arena_end _ a Hok) as [Esz Eend]. rewrite Z.shiftl_1_l, Eend.
  change PAGE_SIZE with 4096. set (r := ROUNDUP (a_base a) (2 ^ align)).
  destruct ((r <? a_base a) || (a_base a + a_size a - 1 <? r)) eqn:Eout.
  { apply Hnext. intros c _ (H1 & H2 & H3 & _). apply orb_true_iff in Eout.
    destruct (aligned_candidate _ a align c Hok Hal ltac:(lia) H3) as [H _]. fold r in H. lia. }
  apply orb_false_iff in Eout as [E1 E2]. pose proof (pow2_bound align ltac:(lia)) as Hp.
  assert (a_base a + (2 ^ align - 1) < 2 ^ 64) as Hw.
  { destruct (Z.lt_ge_cases (a_base a + (2 ^ align - 1)) (2 ^ 64)) as [|Hge]; [done|].
    pose proof (ROUNDUP_wraps (a_base a) align ltac:(destruct Hok; lia) ltac:(lia) Hge) as E0. fold r in E0.
    destruct Hok. assert (a_base a = 0) by lia. lia. }
  destruct (ROUNDUP_spec (a_base a) align ltac:(destruct Hok; lia) ltac:(lia) Hw) as [Hd Hr]. fold r in Hd, Hr.
  set (off := (r - a_base a) / 4096).
  assert (r = a_base a + off * 4096) as Er.
  { destruct Hok as [[b Hb] _ _ _]. destruct Hd as [m Hm]. assert (2 ^ align = 2 ^ (align - 12) * 4096) as Ep.
    { change 4096 with (2 ^ 12). rewrite <- Z.pow_add_r by lia. f_equal. lia. }
    subst off. rewrite Hm, Hb, Ep, Z.mul_assoc, <- Z.mul_sub_distr_r, Z.div_mul by lia. lia. }
  wp_step. eapply wp_mono.
  { apply (find_run_wp s id a count align off); try done; [lia| | | |].
    - split; [lia|]. by rewrite Z.sub_diag; apply Z.divide_0_r.
    - pose proof (page_count_pos _ a Hok). lia.
    - lia.
    - intros c [? _] ?. lia. }
  intros [st|] s1 [-> Hst].
  - destruct Hst as ([Hs1 [m Hs2]] & Hs3 & Hs4). wp_step. eapply wp_mono.
    { apply take_run_wp; [done|eauto|]. apply (run_takeable s id a); try done; [lia..|]. by rewrite Z2Nat.id by lia. }
    intros _ s' ->. wp_step. right. exists id, a, st. rewrite u64_small by (destruct Hok; lia).
    split_and!; [set_solver +|done..| |done|done]. split_and!; [lia|lia| |done].
    replace (a_base a + st * 4096) with (r + (st - off) * 4096) by lia. apply Z.divide_add_r; [done|].
    rewrite Hs2. exists m. replace align with (align - 12 + 12) at 2 by lia. rewrite Z.pow_add_r by lia. lia.
  - apply Hnext. intros c _ (H1 & H2 & H3 & H4). apply (Hst c); [|done|done].
    by apply (aligned_candidate _ a align c Hok Hal ltac:(lia)).
Qed.

(** ** Ranges *)

(** The structure of the page at a physical address. *)
Definition page_of (a : pmm_arena) (addr : Z) : Z := page_at a ((addr - a_base a) / 4096).
Definition inside (a : pmm_arena) (addr : Z) : Prop := a_base a <= addr < a_base a + a_size a.

Definition located (s : pmm) (x : nat * Z) (addr : Z) : Prop :=
  exists a, arenas s !! x.1 = Some a /\ inside a addr /\ x.2 = page_of a addr.

Lemma inside_array bound a addr : arena_ok bound a -> inside a addr -> in_array a (page_of a addr).
Proof.
  intros Hok Ha. destruct (arena_end bound a Hok) as [Esz _]. unfold inside in Ha.
  exists ((addr - a_base a) / 4096). split; [|done]. split; [apply Z.div_pos; lia|].
  apply Z.div_lt_upper_bound; lia.
Qed.

Lemma ADDRESS_IN_ARENA_spec bound a addr : arena_ok bound a -> ADDRESS_IN_ARENA addr a = true <-> inside a addr.
Proof.
  intros Hok. destruct (arena_end bound a Hok) as [_ E]. unfold ADDRESS_IN_ARENA, inside. rewrite E, andb_true_iff. lia.
Qed.

Lemma grabs_located ol ips s x addr : located (grabs ol ips s) x addr <-> located s x addr.
Proof.
  unfold located. pose proof (grabs_arenas ol ips s x.1) as E. unfold inside, page_of, page_at.
  destruct (arenas (grabs ol ips s) !! x.1) as [a|], (arenas s !! x.1) as [b|]; simpl in E; try done.
  injection E as ? ? Eb Es Ep.
  split; intros (? & [= <-] & Hin & Hx); [exists b; rewrite <- Eb, <- Es, <- Ep|exists a; rewrite Eb, Es, Ep]; (split; [done|split; [exact Hin|exact Hx]]).
Qed.

Lemma grabs_takeable_app ol l1 l2 s : takeable s l1 -> takeable (grabs ol l1 s) l2 -> takeable s (l1 ++ l2).
Proof.
  intros [Hn1 H1] [Hn2 H2]. assert (forall id p, (id, p) ∈ l2 -> p ∉ l1.*2 /\ p ∈ fq (plists s) (FreeList id)) as H3.
  { intros id p Hp%H2. rewrite grabs_free in Hp. by apply list_elem_of_filter in Hp. }
  split.
  - rewrite fmap_app. apply NoDup_app. split_and!; [done| |done].
    intros p Hp ([id q] & -> & Hq)%list_elem_of_fmap. by apply H3 in Hq as [? _].
  - intros id p [Hp|Hp]%elem_of_app; [by apply H1|by apply H3].
Qed.

(** Pages taken at successive addresses. *)
Record taken_range (s : pmm) (ls : nat) (address : Z) (ips : list (nat * Z)) (s' : pmm) : Prop := {
  tr_takeable : takeable s ips;
  tr_state : s' = grabs (Some ls) ips s;
  tr_located : forall (k : nat) x, ips !! k = Some x -> located s x (address + Z.of_nat k * 4096) }.

Lemma taken_range_app s ls address l1 l2 s1 s2 :
  taken_range s ls address l1 s1 -> taken_range s1 ls (address + Z.of_nat (length l1) * 4096) l2 s2 ->
  taken_range s ls address (l1 ++ l2) s2.
Proof.
  intros [T1 -> L1] [T2 -> L2]. split.
  - by eapply grabs_takeable_app.
  - by rewrite grabs_app.
  - intros k x [Hx|[Hk Hx]]%lookup_app_Some; [by apply L1|]. apply L2, grabs_located in Hx.
    by replace (address + Z.of_nat k * 4096) with (address + Z.of_nat (length l1) * 4096 + Z.of_nat (k - length l1) * 4096) by lia.
Qed.

Lemma taken_range_nil s ls address : taken_range s ls address [] s.
Proof. split; [apply takeable_nil|done|set_solver]. Qed.

(** Why the loop on one arena took nothing. *)
Definition nothing_at (s : pmm) (id : nat) (addr : Z) : Prop :=
  forall a, arenas s !! id = Some a -> inside a addr -> pages s !! page_of a addr <> Some VM_PAGE_STATE_FREE.

Lemma alloc_range_from_wp id count ls : forall fuel s address allocated, pinv s -> is_Some (arenas s !! id) ->
  (4096 | address) -> 0 <= address < 2 ^ 64 -> 0 <= allocated <= count -> count < 2 ^ 32 ->
  address + (count - allocated) * 4096 < 2 ^ 64 ->
  (forall a, arenas s !! id = Some a -> inside a address -> (Z.to_nat (page_count a - (address - a_base a) / 4096) < fuel)%nat) ->
  (0 < fuel)%nat ->
  wp (alloc_range_from fuel id count ls address allocated) (fun r s' => exists ips,
    taken_range s ls address ips s' /\
    r = (u64 (address + Z.of_nat (length ips) * 4096), allocated + Z.of_nat (length ips)) /\
    Z.of_nat (length ips) <= count - allocated /\
    (ips = [] -> allocated < count -> nothing_at s id address)) s.
Proof.
  induction fuel as [|fuel IH]; intros s address allocated Hi [a Ha] Hal Hpos Hc H32 Hw Hf Hf0; [lia|].
  pose proof (pi_arena s Hi id a Ha) as Hok. pose proof (arena_end _ a Hok) as [Esz _].
  cbn [alloc_range_from]. wp_step. apply (get_arena_wp id a); [done|].
  assert ((allocated < count -> nothing_at s id address) -> exists ips, taken_range s ls address ips s /\
    (address, allocated) = (u64 (address + Z.of_nat (length ips) * 4096), allocated + Z.of_nat (length ips)) /\
    Z.of_nat (length ips) <= count - allocated /\ (ips = [] -> allocated < count -> nothing_at s id address)) as Hstop.
  { intros Hno. exists []. split_and!; [apply taken_range_nil| |simpl; lia|done]. simpl. rewrite u64_small by lia. f_equal; lia. }
  destruct (Z.ltb_spec allocated count) as [Hlt|Hge]; cbn [andb]; [|wp_step; apply Hstop; lia].
  destruct (ADDRESS_IN_ARENA address a) eqn:Ein.
  2:{ wp_step. apply Hstop. intros _ b Hb Hin. simplify_eq. apply (ADDRESS_IN_ARENA_spec _ _ address Hok) in Hin. congruence. }
  apply (ADDRESS_IN_ARENA_spec _ _ address Hok) in Ein. pose proof (inside_array _ a address Hok Ein) as Hpa.
  change PAGE_SIZE with 4096. fold (page_of a address). cbv zeta. set (p := page_of a address) in *.
  wp_step. wp_step. { destruct Hpa as (i & Hi' & E). apply page_at_inj in E as <-. apply Z.ltb_lt. apply Hi'. }
  destruct (pi_pages s Hi id a p Ha Hpa) as [st Hst].
  wp_step. apply (page_is_free_wp p st); [done|]. unfold is_free. case_bool_decide as Efree; cbn [negb].
  2:{ wp_step. apply Hstop. intros _ b Hb _. simplify_eq. fold p. congruence. }
  subst st. assert (p ∈ fq (plists s) (FreeList id)) as Hp by (apply (pi_free s Hi); eauto).
  destruct (free_page_state s id p Hi Hp) as [_ Hil]. unfold list_in_list. do 2 wp_step. rewrite Hil. do 2 wp_step; [done|].
  wp_step. apply (unlink_wp p (FreeList id)); [done|]. unfold set_page, count_free. do 3 wp_step.
  apply link_tail_wp; [apply in_list_del|]. do 2 wp_step. rewrite (u32_small (allocated + 1)) by lia.
  match goal with |- wp _ _ ?s1 => change s1 with (grab id p (Some ls) s) end.
  assert (taken_range s ls address [(id, p)] (grab id p (Some ls) s)) as Hone.
  { split; [|done|].
    - split; [apply NoDup_singleton|]. intros id' q Hq%list_elem_of_singleton. by simplify_eq.
    - intros [|k] x [=]. subst x. exists a. split_and!; [done| |simpl]; by rewrite Z.add_0_r. }
  destruct Hal as [m Hm]. eapply wp_mono; [apply IH|].
  - by apply grab_pinv.
  - simpl. rewrite recount_is_Some. eauto.
  - rewrite u64_small by lia. exists (m + 1). lia.
  - apply u64_range.
  - lia.
  - done.
  - rewrite u64_small by lia. lia.
  - intros b Hb Hin. assert (page_count b = page_count a /\ a_base b = a_base a) as [-> ->].
    { simpl in Hb. rewrite recount_lookup, decide_True in Hb by done. rewrite Ha in Hb. by simplify_eq/=. }
    specialize (Hf a Ha Ein). rewrite u64_small by lia. replace (address + 4096 - a_base a) with (address - a_base a + 1 * 4096) by lia.
    rewrite Z.div_add by lia. destruct Hpa as (i & Hi' & E%page_at_inj). lia.
  - specialize (Hf a Ha Ein). destruct Hpa as (i & Hi' & E%page_at_inj). lia.
  - rewrite u64_small by lia. intros r s' (ips & Ht & -> & Hle & _). exists ((id, p) :: ips). cbn [length]. split_and!; [|f_equal; [f_equal|]; lia|lia|done].
    by apply (taken_range_app s ls address [(id, p)] ips _ _ Hone).
Qed.

Lemma nothing_at_grabs ol ips s id addr : nothing_at s id addr -> nothing_at (grabs ol ips s) id addr.
Proof.
  intros Hn a Ha Hin. rewrite grabs_pages. case_decide; [done|].
  pose proof (grabs_arenas ol ips s id) as E. rewrite Ha in E. simpl in E. symmetry in E.
  apply fmap_Some in E as (b & Hb & E). injection E as ? ? Eb Es Ep. unfold inside in Hin. unfold page_of, page_at in *.
  rewrite Eb, Es in Hin. rewrite Eb, Ep. by apply (Hn b).
Qed.

Lemma alloc_range_in_wp count ls l : forall s address allocated, pinv s -> (forall id, id ∈ l -> is_Some (arenas s !! id)) ->
  (4096 | address) -> 0 <= address < 2 ^ 64 -> 0 <= allocated < count -> count < 2 ^ 32 ->
  address + (count - allocated) * 4096 < 2 ^ 64 ->
  wp (alloc_range_in count ls address allocated l) (fun r s' => exists ips,
    taken_range s ls address ips s' /\ r = allocated + Z.of_nat (length ips) /\
    Z.of_nat (length ips) <= count - allocated /\
    (ips = [] -> forall id, id ∈ l -> nothing_at s id address)) s.
Proof.
  induction l as [|id l IH]; intros s address allocated Hi Hl Hal Hpos Hc H32 Hw; cbn [alloc_range_in].
  { wp_step. exists []. split_and!; [apply taken_range_nil|simpl; lia..|set_solver]. }
  destruct (Hl id ltac:(set_solver +)) as [a Ha]. wp_step. apply (get_arena_wp id a); [done|].
  wp_step. eapply wp_mono; [apply alloc_range_from_wp; [done|eauto|done|done|lia|done|done| |lia]|].
  { intros b Hb Hin. rewrite Ha in Hb. injection Hb as <-. pose proof (Z.div_pos (address - a_base a) 4096). unfold inside in Hin. lia. }
  intros r s1 (ips & Ht & -> & Hle & Hno). cbv iota beta.
  destruct (Z.eqb_spec (allocated + Z.of_nat (length ips)) count) as [Ec|Ec].
  { wp_step. exists ips. split_and!; [done..|]. intros ->. simpl in Ec. lia. }
  rewrite u64_small by lia. destruct Ht as [T1 T2 T3]. eapply wp_mono; [apply IH|].
  - subst s1. by apply grabs_pinv.
  - intros id' Hid'. pose proof (grabs_arenas (Some ls) ips s id') as E. destruct (Hl id' ltac:(set_solver +Hid')) as [b Hb].
    rewrite Hb in E. subst s1. by apply fmap_Some in E as (? & ? & _).
  - destruct Hal as [m Hm]. exists (m + Z.of_nat (length ips)). lia.
  - lia.
  - lia.
  - done.
  - lia.
  - intros r s' (ips2 & Ht2 & -> & Hle2 & Hno2). exists (ips ++ ips2). rewrite length_app. split_and!; [|lia..|].
    + eapply taken_range_app; [split; [done|exact T2|done]|done].
    + intros [-> ->]%app_nil id' [->|Hid']%elem_of_cons; [apply Hno; [done|lia]|].
      simpl in *. subst s1. rewrite Z.add_0_r in Hno2. by apply Hno2.
Qed.

(** ** Giving pages back *)

Lemma PAGE_BELONGS_spec s id a p : pinv s -> arenas s !! id = Some a ->
  PAGE_BELONGS_TO_ARENA p a = true <-> a_page_array a <= p < page_at a (page_count a).
Proof.
  intros Hi Ha. pose proof (pi_arena s Hi id a Ha) as Hok. pose proof (page_count_pos _ a Hok) as Hn. pose proof (pi_boot s Hi) as Hb.
  destruct Hok as [_ _ _ [H1 H2]]. unfold PAGE_BELONGS_TO_ARENA. fold (page_count a). unfold page_at, sizeof_vm_page in *.
  rewrite (u64_small (page_count a * 24)), u64_small, andb_true_iff; lia.
Qed.

Lemma find_by_page_wp s s1 id a p l : pinv s -> arenas s1 = arenas s -> arenas s !! id = Some a -> in_array a p -> id ∈ l ->
  (forall id, id ∈ l -> is_Some (arenas s !! id)) ->
  wp (find_by_page p l) (fun r s' => r = Some (id, a) /\ s' = s1) s1.
Proof.
  intros Hi E1 Ha Hp. induction l as [|id' l IH]; intros Hid Hl; [set_solver|]. cbn [find_by_page].
  destruct (Hl id' ltac:(set_solver +)) as [b Hb]. wp_step. apply (get_arena_wp id' b); [by rewrite E1|].
  destruct Hp as (i & Hi' & ->). destruct (decide (id' = id)) as [->|Hne].
  - rewrite Ha in Hb. injection Hb as <-. rewrite (proj2 (PAGE_BELONGS_spec s id a _ Hi Ha)); [by wp_step|]. unfold page_at, sizeof_vm_page. lia.
  - assert (PAGE_BELONGS_TO_ARENA (page_at a i) b = false) as ->.
    { apply not_true_is_false. intros Hbel%(PAGE_BELONGS_spec s id' b _ Hi Hb).
      destruct (pi_apart s Hi id' id b a Hb Ha Hne); unfold page_at, sizeof_vm_page in *; lia. }
    apply IH; set_solver.
Qed.

Fixpoint gives (ips : list (nat * Z)) (s : pmm) : pmm :=
  match ips with [] => s | (id, p) :: ips => gives ips (give id p s) end.

(** Pages in use, each with its arena. *)
Definition returnable (s : pmm) (ips : list (nat * Z)) : Prop :=
  NoDup ips.*2 /\ forall id p, (id, p) ∈ ips ->
    exists a st, arenas s !! id = Some a /\ in_array a p /\ pages s !! p = Some st /\ st <> VM_PAGE_STATE_FREE.

Lemma returnable_cons s id p ips : returnable s ((id, p) :: ips) -> returnable (give id p s) ips.
Proof.
  intros [[Hn Hnd]%NoDup_cons Hin]. split; [done|]. intros id' q Hq.
  destruct (Hin id' q ltac:(set_solver +Hq)) as (a & st & Ha & Ha' & Hst). simpl. rewrite recount_lookup, Ha.
  assert (q <> p) by (intros ->; apply Hn, list_elem_of_fmap; by exists (id', p)).
  rewrite lookup_insert_ne by done. case_decide; [|by exists a, st]. eexists _, st. split_and!; [done| |apply Hst..]. exact Ha'.
Qed.

Lemma gives_pinv ips s : pinv s -> returnable s ips -> pinv (gives ips s).
Proof.
  revert s. induction ips as [|[id p] ips IH]; intros s Hi Hr; [done|]. simpl. apply IH; [|by apply returnable_cons].
  destruct (proj2 Hr id p ltac:(set_solver +)) as (a & st & ? & ? & ? & ?). by eapply give_pinv.
Qed.

Lemma gives_pages ips s p : pages (gives ips s) !! p = if decide (p ∈ ips.*2) then Some VM_PAGE_STATE_FREE else pages s !! p.
Proof.
  revert s. induction ips as [|[id q] ips IH]; intros s.
  - cbn. by rewrite decide_False by apply not_elem_of_nil.
  - cbn [gives fmap list_fmap snd]. rewrite IH. simpl. destruct (decide (p ∈ ips.*2)).
    + by rewrite decide_True by set_solver.
    + destruct (decide (q = p)) as [->|]; [by rewrite lookup_insert_eq, decide_True by set_solver|].
      by rewrite lookup_insert_ne, decide_False by set_solver.
Qed.

Lemma gives_caller ips s l : fq (plists (gives ips s)) (CallerList l) = filter (fun p => p ∉ ips.*2) (fq (plists s) (CallerList l)).
Proof.
  revert s. induction ips as [|[id' p] ips IH]; intros s; simpl.
  - symmetry. apply filter_id. intros; apply not_elem_of_nil.
  - rewrite IH. simpl. rewrite fq_add_head, decide_False, fq_del, list_filter_filter by done. apply list_filter_iff. intros q. set_solver +.
Qed.

Lemma gives_arenas ips s id : set_free_count 0 <$> arenas (gives ips s) !! id = set_free_count 0 <$> arenas s !! id.
Proof.
  revert s. induction ips as [|[id' p] ips IH]; intros s; [done|]. simpl. rewrite IH. simpl. rewrite recount_lookup.
  case_decide; [|done]. by destruct (arenas s !! id).
Qed.

Lemma gives_list ips s : arena_list (gives ips s) = arena_list s /\ boot_alloc_end (gives ips s) = boot_alloc_end s.
Proof. revert s. induction ips as [|[id p] ips IH]; intros s; [done|]. simpl. by rewrite !(proj1 (IH _)), !(proj2 (IH _)). Qed.

Lemma free_loop_wp ls q : forall fuel s count, pinv s -> fq (plists s) (CallerList ls) = q -> (length q < fuel)%nat ->
  0 <= count -> count + Z.of_nat (length q) < 2 ^ 64 ->
  wp (free_loop fuel ls count) (fun r s' => exists ips,
    ips.*2 = q /\ returnable s ips /\ s' = gives ips s /\ r = count + Z.of_nat (length q)) s.
Proof.
  induction q as [|p q IH]; intros fuel s count Hi Eq Hf Hc Hw; (destruct fuel as [|fuel]; [simpl in Hf; lia|]);
    cbn [free_loop]; do 2 wp_step; rewrite Eq.
  { wp_step. exists []. split_and!; [done| |done|simpl; lia]. split; [constructor|set_solver]. }
  assert (p ∈ fq (plists s) (CallerList ls)) as Hp by (rewrite Eq; set_solver +).
  destruct (pi_used s Hi ls p Hp) as (id & a & st & Ha & Hin & Hst & Hne).
  wp_step. apply (remove_head_cons _ p q); [done|]. do 2 wp_step; [done|].
  unfold list_in_list. do 2 wp_step. cbn [plists set_plists]. rewrite in_list_del. do 2 wp_step; [done|].
  wp_step. apply (page_is_free_wp p st); [done|]. unfold is_free. rewrite bool_decide_false by done. do 2 wp_step; [done|].
  do 3 wp_step. eapply wp_mono.
  { apply (find_by_page_wp s _ id a p); [done..| |]; cbn [arena_list set_plists].
    - apply (pi_arenas s Hi). eauto.
    - intros id'. apply (pi_arenas s Hi). }
  intros r s1 [-> ->]. unfold set_page, count_free. do 3 wp_step. apply link_head_wp; [apply in_list_del|]. do 2 wp_step.
  rewrite u64_small by (simpl in Hw; lia).
  match goal with |- wp _ _ ?s1 => change s1 with (give id p s) end.
  assert (NoDup (p :: q)) as [Hnq Hnd]%NoDup_cons by (rewrite <- Eq; apply Hi).
  eapply wp_mono; [apply (IH fuel (give id p s) (count + 1))|].
  - by eapply give_pinv.
  - simpl. rewrite fq_add_head, decide_False by done. apply (fq_del_mid _ p _ [] q); [apply Hi|done].
  - simpl in Hf. lia.
  - lia.
  - simpl in Hw. lia.
  - intros r s' (ips & <- & [_ Hr] & -> & ->). exists ((id, p) :: ips). split_and!; [done| |done|simpl; lia].
    split; [by constructor|]. intros id' x [E|Hx]%elem_of_cons; [injection E as -> ->; by exists a, st|].
    destruct (Hr id' x Hx) as (b & st' & Hb & Hinb & Hst' & Hne').
    assert (x <> p) by (intros ->; apply Hnq, list_elem_of_fmap; by exists (id', p)).
    simpl in Hb, Hst'. rewrite lookup_insert_ne in Hst' by done. apply recount_Some in Hb as (b0 & Hb & E & _).
    rewrite E in Hinb. by exists b0, st'.
Qed.

Lemma nodup_range (l : list Z) n : 0 <= n -> NoDup l -> (forall x, x ∈ l -> 0 <= x < n) -> Z.of_nat (length l) <= n.
Proof.
  intros Hn Hnd Hl. assert (length l <= length (Z.of_nat <$> seq 0 (Z.to_nat n)))%nat as H.
  { apply NoDup_incl_length; [by apply NoDup_ListNoDup|]. intros x Hx%list_elem_of_In%Hl.
    apply list_elem_of_In, list_elem_of_fmap. exists (Z.to_nat x). split; [lia|]. apply elem_of_seq. lia. }
  rewrite length_fmap, length_seq in H. lia.
Qed.

Lemma in_array_range s id a p : pinv s -> arenas s !! id = Some a -> in_array a p -> 0 <= p < boot_alloc_end s.
Proof.
  intros Hi Ha (i & Hi' & ->). destruct (pi_arena s Hi id a Ha) as [_ _ _ [H1 H2]]. unfold page_at, sizeof_vm_page in *. lia.
Qed.

Lemma caller_length s l : pinv s -> Z.of_nat (length (fq (plists s) (CallerList l))) < 2 ^ 64.
Proof.
  intros Hi. pose proof (pi_boot s Hi). apply Z.le_lt_trans with (boot_alloc_end s); [|lia].
  apply nodup_range; [lia|apply Hi|]. intros p (id & a & st & Ha & Hp & _)%(pi_used s Hi). by apply (in_array_range s id a).
Qed.

Lemma pmm_free_wp ls s : pinv s ->
  wp (pmm_free ls) (fun r s' => exists ips, ips.*2 = fq (plists s) (CallerList ls) /\ returnable s ips /\
    s' = gives ips s /\ r = Z.of_nat (length (fq (plists s) (CallerList ls)))) s.
Proof.
  intros Hi. unfold pmm_free. do 2 wp_step. pose proof (caller_length s ls Hi). apply free_loop_wp; [done|done|lia|lia|lia].
Qed.

(** A list that nothing is in can be initialised again. *)
Lemma pinv_initialize s k : pinv s -> fq (plists s) k = [] -> pinv (set_plists (<[k := []]> (plists s)) s).
Proof.
  intros Hi Ek. assert (forall k', fq (<[k := []]> (plists s)) k' = fq (plists s) k') as E.
  { intros k'. rewrite fq_insert. case_decide; [by subst|done]. }
  destruct (pi_wf s Hi). destruct Hi. split; cbn [arena_list arenas pages plists boot_alloc_end set_plists]; try done; try (by setoid_rewrite E).
  split; setoid_rewrite E; done.
Qed.

(** A page in use that is in no list can be put on a list of a caller. *)
Lemma pinv_link s id a p st F : pinv s -> arenas s !! id = Some a -> in_array a p -> pages s !! p = Some st ->
  st <> VM_PAGE_STATE_FREE -> wf F -> (forall id', fq F (FreeList id') = fq (plists s) (FreeList id')) ->
  (forall l' q, q ∈ fq F (CallerList l') -> q = p \/ q ∈ fq (plists s) (CallerList l')) -> pinv (set_plists F s).
Proof.
  intros Hi Ha Hin Hst Hne Hwf E Hl. pose proof (pi_used s Hi) as Hus. destruct Hi. split; cbn [arena_list arenas pages plists boot_alloc_end set_plists]; try done; try (by setoid_rewrite E).
  intros l' q [->|Hq]%Hl; [by exists id, a, st|by apply (Hus l')].
Qed.

Lemma pinv_link_tail s l id a p st : pinv s -> arenas s !! id = Some a -> in_array a p -> pages s !! p = Some st ->
  st <> VM_PAGE_STATE_FREE -> in_list p (plists s) = false -> pinv (set_plists (add_tail (CallerList l) p (plists s)) s).
Proof.
  intros Hi Ha Hin Hst Hne Hn. apply (pinv_link s id a p st); try done.
  - apply wf_add_tail; [apply Hi|done].
  - intros id'. by rewrite fq_add_tail, decide_False by done.
  - intros l' q. rewrite fq_add_tail. case_decide; set_solver.
Qed.

Lemma pinv_link_head s l id a p st : pinv s -> arenas s !! id = Some a -> in_array a p -> pages s !! p = Some st ->
  st <> VM_PAGE_STATE_FREE -> in_list p (plists s) = false -> pinv (set_plists (add_head (CallerList l) p (plists s)) s).
Proof.
  intros Hi Ha Hin Hst Hne Hn. apply (pinv_link s id a p st); try done.
  - apply wf_add_head; [apply Hi|done].
  - intros id'. by rewrite fq_add_head, decide_False by done.
  - intros l' q. rewrite fq_add_head. case_decide; set_solver.
Qed.

(** ** Adding an arena *)

Lemma priority_insert_wp id pr (l : list nat) s : (forall e, e ∈ l -> is_Some (arenas s !! e)) ->
  StronglySorted Z.le (priority_of s <$> l) ->
  wp (priority_insert id pr l) (fun r s' => s' = s /\ exists l1 l2, l = l1 ++ l2 /\ r = l1 ++ id :: l2 /\
    (forall e, e ∈ l1 -> priority_of s e <= pr) /\ (forall e, e ∈ l2 -> pr < priority_of s e)) s.
Proof.
  induction l as [|e l IH]; intros Hl Hs; cbn [priority_insert].
  { wp_step. split; [done|]. exists [], []. set_solver. }
  destruct (Hl e ltac:(set_solver +)) as [a Ha]. wp_step. apply (get_arena_wp e a); [done|].
  assert (priority_of s e = a_priority a) as Ep by (unfold priority_of; by rewrite Ha).
  cbn [fmap list_fmap] in Hs. apply StronglySorted_inv in Hs as [Hs Hb].
  destruct (Z.ltb_spec pr (a_priority a)) as [Hlt|Hge].
  - wp_step. split; [done|]. exists [], (e :: l). split_and!; [done|done|set_solver|].
    intros c [->|Hc]%elem_of_cons; [lia|]. rewrite Forall_fmap, Forall_forall in Hb. specialize (Hb c Hc). simpl in Hb. lia.
  - wp_step. eapply wp_mono; [apply IH; [set_solver|done]|]. intros r s' [-> (l1 & l2 & -> & -> & H1 & H2)]. wp_step.
    split; [done|]. exists (e :: l1), l2. split_and!; [done|done| |done]. intros c [->|Hc]%elem_of_cons; [lia|by apply H1].
Qed.

Lemma StronglySorted_insert (f : nat -> Z) (l1 l2 : list nat) id : StronglySorted Z.le (f <$> l1 ++ l2) ->
  (forall e, e ∈ l1 -> f e <= f id) -> (forall e, e ∈ l2 -> f id <= f e) -> StronglySorted Z.le (f <$> l1 ++ id :: l2).
Proof.
  induction l1 as [|e l1 IH]; cbn [app fmap list_fmap]; intros Hs H1 H2.
  - constructor; [done|]. rewrite Forall_fmap, Forall_forall. done.
  - apply StronglySorted_inv in Hs as [Hs Hb]. constructor; [apply IH; set_solver|].
    rewrite Forall_fmap, Forall_forall in *. intros c. rewrite elem_of_app, elem_of_cons. intros [Hc|[->|Hc]].
    + apply Hb. set_solver.
    + apply H1. set_solver.
    + apply Hb. set_solver.
Qed.

Lemma zero_pages_spec n : forall pa m p,
  ((exists j, 0 <= j < Z.of_nat n /\ p = pa + j * sizeof_vm_page) -> zero_pages pa n m !! p = Some VM_PAGE_STATE_FREE) /\
  ((forall j, 0 <= j < Z.of_nat n -> p <> pa + j * sizeof_vm_page) -> zero_pages pa n m !! p = m !! p).
Proof.
  induction n as [|n IH]; intros pa m p; cbn [zero_pages].
  { split; [intros (j & Hj & _); lia|done]. }
  destruct (IH (pa + sizeof_vm_page) (<[pa := VM_PAGE_STATE_FREE]> m) p) as [IH1 IH2]. split.
  - intros (j & Hj & ->). destruct (decide (j = 0)) as [->|].
    + rewrite IH2; [apply lookup_insert_Some; left; split; [lia|done]|]. unfold sizeof_vm_page. lia.
    + apply IH1. exists (j - 1). lia.
  - intros Hj. rewrite IH2.
    + apply lookup_insert_ne. specialize (Hj 0 ltac:(lia)). lia.
    + intros j Hj'. specialize (Hj (j + 1) ltac:(lia)). lia.
Qed.

Definition set_counted (id : nat) (c : Z) (q : list Z) (s : pmm) : pmm :=
  Pmm (arena_list s) (alter (set_free_count c) id (arenas s)) (pages s) (<[FreeList id := q]> (plists s)) (boot_alloc_end s).

Lemma add_free_pages_wp id a n : forall i s, (exists fc, arenas s !! id = Some (set_free_count fc a) /\ 0 <= fc /\ fc + Z.of_nat n < 2 ^ 64) ->
  is_Some (plists s !! FreeList id) ->
  (forall p, p ∈ run_pages a i n -> in_list p (plists s) = false) ->
  wp (add_free_pages id (a_page_array a) i n) (fun _ s' => exists fc, arenas s !! id = Some (set_free_count fc a) /\
    s' = set_counted id (fc + Z.of_nat n) (fq (plists s) (FreeList id) ++ run_pages a i n) s) s.
Proof.
  induction n as [|n IH]; intros i s (fc & Ha & Hfc & Hw) [q Hq] Hn; cbn [add_free_pages].
  - wp_step. exists fc. split; [done|]. cbn [run_pages]. rewrite app_nil_r. unfold fq. rewrite Hq. simpl. unfold set_counted.
    rewrite insert_id by done. destruct s as [al ar pg pl bo]. simpl in *. f_equal. apply map_eq. intros id'.
    destruct (decide (id = id')) as [<-|]; [rewrite lookup_alter_eq, Ha; simpl; by rewrite Z.add_0_r|by rewrite lookup_alter_ne].
  - change (a_page_array a + i * sizeof_vm_page) with (page_at a i). cbn [run_pages] in *.
    wp_step. apply link_tail_wp; [apply Hn; set_solver +|]. unfold count_free. do 2 wp_step.
    set (s1 := set_arenas _ _). assert (arenas s1 !! id = Some (set_free_count (fc + 1) a)) as Ha1.
    { unfold s1. cbn. rewrite lookup_alter_eq, Ha. simpl. rewrite u64_small by lia. done. }
    eapply wp_mono; [apply IH|].
    + exists (fc + 1). split; [done|]. lia.
    + unfold s1. cbn. unfold add_tail. rewrite lookup_insert_eq. eauto.
    + intros p Hp. unfold s1. cbn. rewrite in_list_add_tail, bool_decide_false, Hn; [done|set_solver +Hp|].
      intros ->. pose proof (run_pages_nodup a (S n) i) as [Hx _]%NoDup_cons. done.
    + intros _ s' (fc' & Ha' & ->). rewrite Ha1 in Ha'. injection Ha' as <-. exists fc. split; [done|].
      unfold set_counted, s1. cbn. unfold add_tail. rewrite insert_insert_eq, fq_insert, decide_True, <- app_assoc by done.
      f_equal. apply map_eq. intros id'. destruct (decide (id = id')) as [<-|].
      * rewrite !lookup_alter_eq, Ha. simpl. unfold set_free_count. simpl. do 2 f_equal. lia.
      * by rewrite !lookup_alter_ne.
Qed.

(** A new structure for a page-aligned piece of memory, with room for its page structures. *)
Record addable (s : pmm) (id : nat) (a : pmm_arena) : Prop := {
  ad_new : arenas s !! id = None;
  ad_base : (4096 | a_base a);
  ad_size : (4096 | a_size a);
  ad_range : 0 <= a_base a /\ 0 < a_size a /\ a_base a + a_size a <= 2 ^ 64;
  ad_room : boot_alloc_end s + page_count a * sizeof_vm_page + 16 <= 2 ^ 64 }.

Definition added (s : pmm) (id : nat) (a : pmm_arena) (al : list nat) (bound : Z) : pmm :=
  let n := Z.to_nat (page_count a) in
  Pmm al (<[id := a]> (arenas s)) (zero_pages (a_page_array a) n (pages s))
    (<[FreeList id := run_pages a 0 n]> (plists s)) bound.

Lemma zeroed s id a p bound al : 0 <= page_count a -> (in_array a p -> pages (added s id a al bound) !! p = Some VM_PAGE_STATE_FREE) /\
  (p < a_page_array a -> pages (added s id a al bound) !! p = pages s !! p).
Proof.
  intros Hn. destruct (zero_pages_spec (Z.to_nat (page_count a)) (a_page_array a) (pages s) p) as [H1 H2]. simpl. split.
  - intros (j & Hj & ->). apply H1. exists j. split; [lia|done].
  - intros Hp. apply H2. unfold sizeof_vm_page. lia.
Qed.

Lemma list_page_range s k p : pinv s -> p ∈ fq (plists s) k -> 0 <= p < boot_alloc_end s.
Proof.
  intros Hi. destruct k as [id'|l]; intros Hp;
    [apply (pi_free s Hi) in Hp as (b & ? & ? & _)|apply (pi_used s Hi) in Hp as (id' & b & ? & ? & ? & _)]; by eapply in_array_range.
Qed.

Lemma run_pages_ext a b n : a_page_array a = a_page_array b -> forall i, run_pages a i n = run_pages b i n.
Proof. intros E. induction n as [|n IH]; intros i; simpl; [done|]. rewrite IH. unfold page_at. by rewrite E. Qed.

Section adding.
Context (s : pmm) (id : nat) (a : pmm_arena) (l1 l2 : list nat) (bound : Z).
Context (Hi : pinv s) (Hnew : arenas s !! id = None) (El : arena_list s = l1 ++ l2).
Context (H1 : forall e, e ∈ l1 -> priority_of s e <= a_priority a) (H2 : forall e, e ∈ l2 -> a_priority a < priority_of s e).
Context (Hpa : boot_alloc_end s <= a_page_array a) (Hb : bound < 2 ^ 64) (Hok : arena_ok bound a).
Context (Hfc : a_free_count a = page_count a).
Let s' := added s id a (l1 ++ id :: l2) bound.

Lemma added_bound : boot_alloc_end s <= bound /\ 0 < page_count a.
Proof using All.
  pose proof (page_count_pos _ a Hok). destruct Hok as [_ _ _ [? ?]]. unfold page_at, sizeof_vm_page in *. lia.
Qed.

Lemma added_run p : p ∈ run_pages a 0 (Z.to_nat (page_count a)) <-> in_array a p.
Proof using All.
  pose proof added_bound. rewrite elem_of_run_pages. split; intros (j & Hj & ->); exists j; (split; [lia|done]).
Qed.

(** The structures of the new pages are above all the old ones. *)
Lemma added_low p id' b : arenas s !! id' = Some b -> in_array b p -> p < a_page_array a.
Proof using All. intros Hb' Hp. pose proof (in_array_range s id' b p Hi Hb' Hp). lia. Qed.

Lemma added_old k p : p ∈ fq (plists s) k -> p < a_page_array a.
Proof using All. intros Hp. pose proof (list_page_range s k p Hi Hp). lia. Qed.

Lemma added_new p : in_array a p -> a_page_array a <= p.
Proof using All. intros (j & Hj & ->). unfold page_at, sizeof_vm_page. lia. Qed.

Lemma added_lookup id' b : arenas s' !! id' = Some b -> (id' = id /\ b = a) \/ (id' <> id /\ arenas s !! id' = Some b).
Proof. simpl. intros [[<- <-]|[? ?]]%lookup_insert_Some; [by left|by right]. Qed.

Lemma added_arenas id' : id' ∈ arena_list s' <-> is_Some (arenas s' !! id').
Proof using All.
  simpl. rewrite elem_of_app, elem_of_cons, lookup_insert_is_Some'. pose proof (pi_arenas s Hi id') as E.
  rewrite El, elem_of_app in E. naive_solver.
Qed.

Lemma added_order : NoDup (arena_list s') /\ StronglySorted Z.le (priority_of s' <$> arena_list s').
Proof using All.
  destruct (pi_order s Hi) as [Hnd Hs]. rewrite El in Hnd, Hs.
  assert (id ∉ l1 ++ l2) as Hid by (rewrite <- El, (pi_arenas s Hi id), Hnew; by intros [? ?]).
  assert (forall e, e ∈ l1 ++ l2 -> priority_of s' e = priority_of s e) as Epr.
  { intros e He. unfold priority_of. simpl. rewrite lookup_insert_ne; [done|]. by intros ->. }
  assert (priority_of s' id = a_priority a) as Ei by (unfold priority_of; simpl; by rewrite lookup_insert_eq).
  simpl. split; [rewrite <- Permutation_middle; by constructor|]. apply StronglySorted_insert.
  - rewrite (list_fmap_ext _ (priority_of s)); [done|]. intros ? e He. apply Epr. by eapply list_elem_of_lookup_2.
  - intros e He. rewrite Ei, Epr by set_solver. by apply H1.
  - intros e He. rewrite Ei, Epr by set_solver. apply Z.lt_le_incl. by apply H2.
Qed.

Lemma added_wf : wf (plists s').
Proof using All.
  simpl. destruct (pi_wf s Hi) as [Hnd Hone].
  assert (forall k p, p ∈ fq (<[FreeList id := run_pages a 0 (Z.to_nat (page_count a))]> (plists s)) k ->
    (k = FreeList id /\ a_page_array a <= p) \/ (p ∈ fq (plists s) k /\ p < a_page_array a)) as Hc.
  { intros k p. rewrite fq_insert. case_decide; [left; split; [done|by apply added_new, added_run]|].
    right. split; [done|by eapply added_old]. }
  split.
  - intros k. rewrite fq_insert. case_decide; [apply run_pages_nodup|apply Hnd].
  - intros k k' p [[-> ?]|[? ?]]%Hc [[-> ?]|[? ?]]%Hc; try done; try lia. by eapply Hone.
Qed.

Lemma added_free id' p : p ∈ fq (plists s') (FreeList id') <->
  exists b, arenas s' !! id' = Some b /\ in_array b p /\ pages s' !! p = Some VM_PAGE_STATE_FREE.
Proof using All.
  pose proof added_bound as [_ Hn]. destruct (zeroed s id a p bound (l1 ++ id :: l2) ltac:(lia)) as [Z1 Z2].
  cbn [s' added plists arenas]. rewrite fq_insert. case_decide as Hid.
  - injection Hid as <-. rewrite added_run, lookup_insert_eq. split.
    + intros Hp. exists a. split_and!; [done..|by apply Z1].
    + intros (b & [= <-] & ? & _). done.
  - rewrite lookup_insert_ne by congruence. rewrite (pi_free s Hi). split.
    + intros (b & Hb' & Hp & Hst). exists b. split_and!; [done..|]. change (pages s' !! p = Some VM_PAGE_STATE_FREE).
      unfold s'. rewrite Z2; [done|]. by eapply added_low.
    + intros (b & Hb' & Hp & Hst). exists b. split_and!; [done..|]. change (pages s' !! p = Some VM_PAGE_STATE_FREE) in Hst.
      unfold s' in Hst. rewrite Z2 in Hst; [done|]. by eapply added_low.
Qed.

Lemma added_pinv : pinv s'.
Proof using All.
  pose proof added_bound as [Hbb Hn]. pose proof (pi_boot s Hi).
  assert (forall p, (in_array a p -> pages s' !! p = Some VM_PAGE_STATE_FREE) /\
    (p < a_page_array a -> pages s' !! p = pages s !! p)) as Hz by (intros p; apply zeroed; lia).
  split; [apply added_arenas|apply added_order|simpl; lia| | | |apply added_wf|apply added_free| |].
  - intros id' b [[-> ->]|[_ Hb']]%added_lookup; [done|]. destruct (pi_arena s Hi id' b Hb') as [? ? ? [? ?]].
    split; [done..|]. simpl. lia.
  - intros id1 id2 b c [[-> ->]|[? Hb1]]%added_lookup [[-> ->]|[? Hb2]]%added_lookup Hne; [done|..].
    + right. destruct (pi_arena s Hi id2 c Hb2) as [_ _ _ [? ?]]. lia.
    + left. destruct (pi_arena s Hi id1 b Hb1) as [_ _ _ [? ?]]. lia.
    + by apply (pi_apart s Hi id1 id2).
  - intros id' b p [[-> ->]|[? Hb']]%added_lookup Hp; [rewrite (proj1 (Hz p)) by done; eauto|].
    rewrite (proj2 (Hz p)) by (by eapply added_low). by apply (pi_pages s Hi id' b).
  - intros l p Hp. simpl in Hp. rewrite fq_insert, decide_False in Hp by done.
    destruct (pi_used s Hi l p Hp) as (id' & b & st & Hb' & Hin & Hst & Hne). exists id', b, st.
    rewrite (proj2 (Hz p)) by (by eapply added_low). split_and!; [|done..]. simpl. rewrite lookup_insert_ne; [done|congruence].
  - intros id' b [[-> ->]|[? Hb']]%added_lookup; simpl; rewrite fq_insert.
    + rewrite decide_True by done. rewrite Hfc. rewrite run_pages_length. lia.
    + rewrite decide_False by congruence. by apply (pi_count s Hi).
Qed.
End adding.

Lemma pmm_add_arena_wp s id a : pinv s -> addable s id a ->
  wp (pmm_add_arena id a) (fun r s' => r = 0 /\ pinv s' /\ exists l1 l2 pa bound,
    arena_list s = l1 ++ l2 /\ boot_alloc_end s <= pa /\
    s' = added s id (set_page_array pa (set_free_count (page_count a) a)) (l1 ++ id :: l2) bound) s.
Proof.
  intros Hi [Hnew Hb Hs Hr Hroom]. pose proof (pi_boot s Hi) as Hbo. unfold pmm_add_arena.
  assert (0 < page_count a < 2 ^ 53) as Hn.
  { destruct Hs as [q Hq]. unfold page_count. change PAGE_SIZE with 4096. rewrite Hq, Z.div_mul by lia. lia. }
  wp_step. wp_step; [by apply IS_PAGE_ALIGNED_spec|]. wp_step. wp_step; [by apply IS_PAGE_ALIGNED_spec|].
  wp_step. wp_step; [lia|]. do 3 wp_step.
  eapply wp_mono; [apply priority_insert_wp; [intros e; apply (pi_arenas s Hi)|apply (pi_order s Hi)]|].
  intros al s1 [-> (l1 & l2 & El & -> & H1 & H2)]. unfold list_initialize, boot_alloc_mem. fold (page_count a).
  do 9 wp_step. unfold ALIGN. cbn [boot_alloc_end set_arenas set_arena_list set_plists].
  destruct (ROUNDUP_spec (boot_alloc_end s) 3 ltac:(lia) ltac:(lia) ltac:(unfold sizeof_vm_page in Hroom; lia)) as [_ Hpa].
  change (2 ^ 3) with 8 in Hpa. set (pa := ROUNDUP (boot_alloc_end s) 8) in *.
  unfold sizeof_vm_page in Hroom. rewrite (u64_small (page_count a * sizeof_vm_page)) by (unfold sizeof_vm_page; lia).
  destruct (ROUNDUP_spec (page_count a * 24) 3 ltac:(lia) ltac:(lia) ltac:(lia)) as [_ Hlen].
  change (2 ^ 3) with 8 in Hlen. change (page_count a * 24) with (page_count a * sizeof_vm_page) in Hlen.
  set (len := ROUNDUP (page_count a * sizeof_vm_page) 8) in *.
  rewrite (u64_small (pa + len)) by (unfold sizeof_vm_page in Hlen; lia). do 7 wp_step.
  match goal with |- wp _ _ ?s1 => set (s2 := s1) end. set (a' := set_page_array pa (set_free_count (page_count a) a)).
  assert (arena_ok (pa + len) a') as Hok.
  { split; [done..|]. unfold page_at. change (page_count a') with (page_count a). simpl. lia. }
  assert (pinv (added s id a' (l1 ++ id :: l2) (pa + len))) as Hadd
    by (apply added_pinv; simpl; try done; try lia; unfold sizeof_vm_page in Hlen; lia).
  assert (arenas s2 !! id = Some (set_free_count 0 (set_page_array pa a))) as Ha2.
  { cbn. by rewrite lookup_alter_eq, lookup_insert_eq. }
  wp_step. eapply wp_mono; [apply (add_free_pages_wp id (set_page_array pa a))|].
  - exists 0. split; [done|]. lia.
  - cbn. rewrite lookup_insert_eq. eauto.
  - intros p Hp. apply in_list_false. intros k Hk. cbn in Hk. rewrite fq_insert in Hk. case_decide; [by apply not_elem_of_nil in Hk|].
    pose proof (list_page_range s k p Hi Hk) as Hlt. apply elem_of_run_pages in Hp as (j & Hj & ->).
    unfold page_at, sizeof_vm_page in Hlt. simpl in Hlt. lia.
  - intros _ s' (fc & Ha' & ->). rewrite Ha2 in Ha'. injection Ha' as <-. wp_step.
    match goal with |- _ /\ pinv ?s3 /\ _ => assert (s3 = added s id a' (l1 ++ id :: l2) (pa + len)) as -> end.
    2:{ split_and!; [done..|]. exists l1, l2, pa, (pa + len). split_and!; [done|lia|done]. }
    unfold set_counted, added, s2. cbn. rewrite fq_insert, decide_True, insert_insert_eq by done.
    rewrite (run_pages_ext (set_page_array pa a) a') by done. f_equal.
    rewrite alter_insert_eq, alter_insert_eq. unfold a', set_page_array, set_free_count. simpl. do 2 f_equal. lia.
Qed.

(** ** There and back *)

Lemma static_in_array a b p : set_free_count 0 a = set_free_count 0 b -> in_array a p <-> in_array b p.
Proof.
  intros E. injection E as _ _ _ Es Ep. unfold in_array, page_at, page_count. by rewrite Es, Ep.
Qed.

Lemma static_count a b : set_free_count 0 a = set_free_count 0 b -> a_free_count a = a_free_count b -> a = b.
Proof. destruct a, b. intros E ?. injection E as -> -> -> -> ->. simpl in *. by subst. Qed.

(** The same pages with the same states: the arenas are the same, and the free lists up to their order. *)
Lemma same_pages s s' : pinv s -> pinv s' -> pages s' = pages s ->
  (forall id, set_free_count 0 <$> arenas s' !! id = set_free_count 0 <$> arenas s !! id) ->
  arenas s' = arenas s /\ forall id, fq (plists s') (FreeList id) ≡ₚ fq (plists s) (FreeList id).
Proof.
  intros Hi Hi' Ep Ea.
  assert (forall id, fq (plists s') (FreeList id) ≡ₚ fq (plists s) (FreeList id)) as Hperm.
  { intros id. apply NoDup_Permutation; [apply Hi'|apply Hi|]. intros p. rewrite (pi_free s Hi), (pi_free s' Hi'), Ep.
    specialize (Ea id). destruct (arenas s' !! id) as [a|], (arenas s !! id) as [b|]; simpl in Ea; try done.
    apply (inj Some) in Ea. split; intros (? & [= <-] & Hp & ?); eexists; split_and!; try done; by apply (static_in_array a b p Ea). }
  split; [|done]. apply map_eq. intros id. pose proof (Ea id) as E. specialize (Hperm id).
  destruct (arenas s' !! id) as [a|] eqn:Ha, (arenas s !! id) as [b|] eqn:Hb; simpl in E; try done.
  f_equal. apply static_count; [by apply (inj Some)|].
  by rewrite (pi_count s' Hi' id a Ha), (pi_count s Hi id b Hb), Hperm.
Qed.

(** Pages taken and freed again. *)
Lemma restored s ips s2 : pinv s -> takeable s ips -> pinv s2 ->
  (forall p, pages s2 !! p = if decide (p ∈ ips.*2) then Some VM_PAGE_STATE_FREE else pages s !! p) ->
  (forall id, set_free_count 0 <$> arenas s2 !! id = set_free_count 0 <$> arenas s !! id) ->
  pages s2 = pages s /\ arenas s2 = arenas s /\ forall id, fq (plists s2) (FreeList id) ≡ₚ fq (plists s) (FreeList id).
Proof.
  intros Hi Ht Hi2 Ep Ea. assert (pages s2 = pages s) as Eq.
  { apply map_eq. intros p. rewrite Ep. case_decide as Hp; [|done].
    apply list_elem_of_fmap in Hp as ([id q] & -> & Hq). by destruct (free_page_state s id q Hi (proj2 Ht id q Hq)) as [? _]. }
  split; [done|]. by apply same_pages.
Qed.

Lemma grabs_gives_restore s ol ips s1 ips' : pinv s -> takeable s ips -> pinv s1 ->
  pages s1 = pages (grabs ol ips s) -> arenas s1 = arenas (grabs ol ips s) -> returnable s1 ips' -> ips'.*2 = ips.*2 ->
  let s2 := gives ips' s1 in
  pages s2 = pages s /\ arenas s2 = arenas s /\ forall id, fq (plists s2) (FreeList id) ≡ₚ fq (plists s) (FreeList id).
Proof.
  intros Hi Ht Hi1 Ep Ea Hr E s2. apply (restored s ips); [done..|by apply gives_pinv| |].
  - intros p. unfold s2. rewrite gives_pages, E, Ep, grabs_pages. by case_decide.
  - intros id. unfold s2. by rewrite gives_arenas, Ea, grabs_arenas.
Qed.

(** A page taken off the list of a caller. *)
Lemma pinv_unlink s l p : pinv s -> p ∈ fq (plists s) (CallerList l) -> pinv (set_plists (del p (plists s)) s).
Proof.
  intros Hi Hp. assert (forall id, fq (del p (plists s)) (FreeList id) = fq (plists s) (FreeList id)) as E.
  { intros id. apply fq_del_other. intros Hp'. by pose proof (wf_one _ (pi_wf s Hi) _ _ _ Hp Hp'). }
  pose proof (pi_used s Hi) as Hus. pose proof (pi_wf s Hi) as Hwf. destruct Hi.
  split; cbn [arena_list arenas pages plists boot_alloc_end set_plists]; try done; try (by setoid_rewrite E).
  - by apply wf_del.
  - intros l' q [_ Hq]%elem_of_fq_del. by apply (Hus l').
Qed.

(** ** Addresses and pages *)

(** No two arenas share memory. *)
Definition mem_apart (s : pmm) : Prop :=
  forall id1 id2 a b addr, arenas s !! id1 = Some a -> arenas s !! id2 = Some b -> inside a addr -> inside b addr -> id1 = id2.

Lemma paddr_to_vm_page_wp s id a addr : pinv s -> mem_apart s -> arenas s !! id = Some a -> inside a addr ->
  wp (paddr_to_vm_page addr) (fun r s' => r = Some (page_of a addr) /\ s' = s) s.
Proof.
  intros Hi Hm Ha Hin. unfold paddr_to_vm_page. do 2 wp_step.
  assert (id ∈ arena_list s) as Hid by (apply (pi_arenas s Hi); eauto).
  assert (forall e, e ∈ arena_list s -> is_Some (arenas s !! e)) as Hl by (intros e; apply (pi_arenas s Hi)).
  induction (arena_list s) as [|e l IH]; [set_solver|]. cbn [paddr_to_vm_page_in].
  destruct (Hl e ltac:(set_solver +)) as [b Hb]. wp_step. apply (get_arena_wp e b); [done|].
  change ((a_base b <=? addr) && (addr <=? u64 (a_base b + a_size b - 1))) with (ADDRESS_IN_ARENA addr b).
  destruct (ADDRESS_IN_ARENA addr b) eqn:E.
  - apply (ADDRESS_IN_ARENA_spec _ b addr (pi_arena s Hi e b Hb)) in E. pose proof (Hm e id b a addr Hb Ha E Hin) as ->.
    rewrite Ha in Hb. injection Hb as <-. by wp_step.
  - apply IH; [|set_solver]. apply elem_of_cons in Hid as [->|]; [|done]. rewrite Ha in Hb. injection Hb as <-.
    apply (ADDRESS_IN_ARENA_spec _ a addr (pi_arena s Hi _ a Ha)) in Hin. congruence.
Qed.

Lemma page_address bound a i : arena_ok bound a -> bound < 2 ^ 64 -> 0 <= i < page_count a ->
  PAGE_ADDRESS_FROM_ARENA (page_at a i) a = a_base a + i * 4096.
Proof.
  intros Hok Hb Hi. destruct (arena_end bound a Hok) as [Es _]. destruct Hok as [_ _ Hr [Hp Hp2]].
  unfold PAGE_ADDRESS_FROM_ARENA, page_at, sizeof_vm_page in *. change PAGE_SIZE with 4096.
  replace (a_page_array a + i * 24 - a_page_array a) with (i * 24) by lia. rewrite (u64_small (i * 24)) by lia.
  rewrite Z.div_mul by lia. rewrite (u64_small (i * 4096)) by lia. rewrite u64_small; lia.
Qed.

Lemma vm_page_to_paddr_wp s id a i : pinv s -> arenas s !! id = Some a -> 0 <= i < page_count a ->
  wp (vm_page_to_paddr (page_at a i)) (fun r s' => r = a_base a + i * 4096 /\ s' = s) s.
Proof.
  intros Hi Ha Hr. pose proof (pi_boot s Hi) as Hb. unfold vm_page_to_paddr. do 3 wp_step. eapply wp_mono.
  { apply (find_by_page_wp s s id a); try done; [by exists i|apply (pi_arenas s Hi); eauto|intros e; apply (pi_arenas s Hi)]. }
  intros r s' [-> ->]. wp_step. split; [|done]. apply (page_address (boot_alloc_end s)); [by apply (pi_arena s Hi id)|lia|done].
Qed.

(** ** The kernel's pages *)

Lemma link_kpages_wp (v2p : Z -> Z) ls id a n : forall s ptr pa c, pinv s -> mem_apart s -> arenas s !! id = Some a ->
  0 <= c -> c + Z.of_nat n <= page_count a -> pa = a_base a + c * 4096 ->
  (forall i, 0 <= i < Z.of_nat n -> v2p (u64 (ptr + i * 4096)) = pa + i * 4096) -> ptr = u64 ptr ->
  (forall p, p ∈ run_pages a c n -> in_list p (plists s) = false /\ exists st, pages s !! p = Some st /\ st <> VM_PAGE_STATE_FREE) ->
  wp (link_kpages v2p ls ptr n) (fun _ s' => pinv s' /\ exists F, s' = set_plists F s /\
    fq F (CallerList ls) = fq (plists s) (CallerList ls) ++ run_pages a c n) s.
Proof.
  induction n as [|n IH]; intros s ptr pa c Hi Hm Ha Hc Hn -> Hv Hp Hru; cbn [link_kpages].
  { wp_step. split; [done|]. exists (plists s). simpl. rewrite app_nil_r. by destruct s. }
  pose proof (pi_arena s Hi id a Ha) as Hok. destruct (arena_end _ a Hok) as [Es _].
  cbn [run_pages] in *. specialize (Hv 0 ltac:(lia)) as Hv0. rewrite !Z.add_0_r, <- Hp in Hv0. wp_step. rewrite Hv0.
  assert (inside a (a_base a + c * 4096)) as Hin by (unfold inside; lia).
  eapply wp_mono; [by apply (paddr_to_vm_page_wp s id a)|]. intros r s' [-> ->].
  assert (page_of a (a_base a + c * 4096) = page_at a c) as ->.
  { unfold page_of. f_equal. replace (a_base a + c * 4096 - a_base a) with (c * 4096) by lia. apply Z.div_mul. lia. }
  destruct (Hru (page_at a c) ltac:(set_solver +)) as (Hnl & st & Hst & Hne).
  wp_step. apply link_tail_wp; [done|]. set (s1 := set_plists _ s).
  assert (pinv s1) as Hi1.
  { apply (pinv_link_tail s ls id a (page_at a c) st); try done. exists c. split; [lia|done]. }
  eapply wp_mono; [apply (IH s1 _ (a_base a + (c + 1) * 4096) (c + 1)); try done; try lia|].
  - intros i Hi'. specialize (Hv (i + 1) ltac:(lia)). replace (u64 (u64 (ptr + PAGE_SIZE) + i * 4096)) with (u64 (ptr + (i + 1) * 4096)); [rewrite Hv; lia|].
    unfold u64. rewrite Zplus_mod_idemp_l. f_equal. change PAGE_SIZE with 4096. lia.
  - unfold u64. by rewrite Zmod_mod.
  - intros p Hp'. destruct (Hru p ltac:(set_solver +Hp')) as (? & H). split; [|done]. simpl. rewrite in_list_add_tail, bool_decide_false; [done|].
    intros ->. pose proof (run_pages_nodup a (S n) c) as [Hx _]%NoDup_cons. done.
  - intros _ s' [Hi' (F & -> & EF)]. split; [done|]. exists F. split; [done|]. rewrite EF. simpl. by rewrite fq_add_tail, decide_True, <- app_assoc.
Qed.

Lemma pmm_alloc_contiguous_wp count flags align ol s : pinv s -> 0 < count < 2 ^ 32 -> 0 <= align < 64 ->
  wp (pmm_alloc_contiguous count flags align ol) (contiguous_post s count flags (Z.max align 12) ol (arena_list s)) s.
Proof.
  intros Hi Hc Hal. unfold pmm_alloc_contiguous. rewrite (proj2 (Z.eqb_neq count 0)) by lia. do 2 wp_step.
  change PAGE_SIZE_SHIFT with 12.
  replace (if align <? 12 then 12 else align) with (Z.max align 12) by (destruct (Z.ltb_spec align 12); lia).
  apply alloc_contiguous_in_wp; [done| |done|lia]. intros id. apply (pi_arenas s Hi).
Qed.

Lemma pmm_alloc_page_wp flags s : pinv s ->
  wp (pmm_alloc_page flags) (fun r s' =>
    match avail flags s with
    | [] => r = None /\ s' = s
    | (id, p) :: _ => s' = grab id p None s /\
        exists a, arenas s !! id = Some a /\ r = Some (p, PAGE_ADDRESS_FROM_ARENA p a)
    end) s.
Proof.
  intros Hi. unfold pmm_alloc_page. do 2 wp_step. apply alloc_page_in_wp; [done|]. intros id. apply (pi_arenas s Hi).
Qed.

Lemma pmm_alloc_pages_wp count flags ls s : pinv s -> 0 <= count < 2 ^ 32 ->
  wp (pmm_alloc_pages count flags ls) (fun r s' =>
    let k := Z.min count (Z.of_nat (length (avail flags s))) in
    r = k /\ s' = grabs (Some ls) (take (Z.to_nat k) (avail flags s)) s) s.
Proof.
  intros Hi Hc. unfold pmm_alloc_pages. destruct (Z.eqb_spec count 0) as [->|].
  { wp_step. rewrite Z.min_l by lia. done. }
  do 2 wp_step. eapply wp_mono; [apply alloc_pages_in_wp; [done|apply (pi_order s Hi)|intros id; apply (pi_arenas s Hi)|lia|lia]|].
  intros r s' [-> ->]. unfold avail. rewrite Z.sub_0_r. split; [lia|done].
Qed.

Lemma pmm_alloc_range_wp address count ls s : pinv s -> 0 <= count < 2 ^ 32 -> 0 <= address -> address + count * 4096 < 2 ^ 64 ->
  wp (pmm_alloc_range address count ls) (fun r s' => exists ips,
    taken_range s ls (address / 4096 * 4096) ips s' /\ r = Z.of_nat (length ips) /\ r <= count /\
    (r = 0 -> 0 < count -> forall id, id ∈ arena_list s -> nothing_at s id (address / 4096 * 4096))) s.
Proof.
  intros Hi Hc Ha Hw. unfold pmm_alloc_range. destruct (Z.eqb_spec count 0) as [->|].
  { wp_step. exists []. split_and!; [apply taken_range_nil|done|done|lia]. }
  pose proof (div_mul_bounds address 4096 ltac:(lia)). pose proof (Z.div_pos address 4096 Ha ltac:(lia)).
  change PAGE_SIZE with (2 ^ 12). rewrite ROUNDDOWN_spec by lia. change (2 ^ 12) with 4096. do 2 wp_step.
  eapply wp_mono; [apply alloc_range_in_wp; try lia; [done|intros id; apply (pi_arenas s Hi)|apply Z.divide_factor_r]|].
  intros r s' (ips & Ht & -> & Hle & Hno). exists ips. split_and!; [done|lia|lia|]. intros E _. apply Hno.
  apply nil_length_inv. lia.
Qed.

(** ** What the allocator promises *)

Inductive pmm_op :=
| AddArena (id : nat) (a : pmm_arena)
| AllocPage (flags : Z)
| AllocPages (count flags : Z) (l : nat)
| AllocRange (address count : Z) (l : nat)
| AllocContiguous (count flags align : Z) (l : option nat)
| Free (l : nat)
| FreePage (l : nat) (page : Z).

Definition run_op (op : pmm_op) : M pmm unit :=
  match op with
  | AddArena id a => pmm_add_arena id a ;; ret tt
  | AllocPage flags => pmm_alloc_page flags ;; ret tt
  | AllocPages count flags l => pmm_alloc_pages count flags l ;; ret tt
  | AllocRange address count l => pmm_alloc_range address count l ;; ret tt
  | AllocContiguous count flags align l => pmm_alloc_contiguous count flags align l ;; ret tt
  | Free l => pmm_free l ;; ret tt
  | FreePage l page => pmm_free_page l page ;; ret tt
  end.

(** What a caller must see to: a new arena is new memory, a count fits in 32 bits, a range does not
    leave the address space, and a page is freed once, by who has it. *)
Definition legal (s : pmm) (op : pmm_op) : Prop :=
  match op with
  | AddArena id a => addable s id a
  | AllocPage _ | Free _ => True
  | AllocPages count _ _ => 0 <= count < 2 ^ 32
  | AllocRange address count _ => 0 <= count < 2 ^ 32 /\ 0 <= address /\ address + count * 4096 < 2 ^ 64
  | AllocContiguous count _ align _ => 0 < count < 2 ^ 32 /\ 0 <= align < 64
  | FreePage l page => fq (plists s) (CallerList l) = [] /\ in_list page (plists s) = false /\
      exists id a st, arenas s !! id = Some a /\ in_array a page /\ pages s !! page = Some st /\ st <> VM_PAGE_STATE_FREE
  end.

Definition pmm_step (s s' : pmm) : Prop := exists op, legal s op /\ run_op op s = Done tt s'.

(** The allocator before the first arena, with the end of the kernel image. *)
Definition pmm_boot (e : Z) : pmm := Pmm [] ∅ ∅ ∅ e.

Lemma pmm_boot_pinv e : 0 <= e < 2 ^ 64 -> pinv (pmm_boot e).
Proof.
  intros He. split; simpl; try (intros *; rewrite lookup_empty; done).
  - intros id. rewrite lookup_empty, is_Some_alt. set_solver.
  - split; constructor.
  - done.
  - apply wf_empty.
  - intros id p. setoid_rewrite lookup_empty. unfold fq. rewrite lookup_empty. simpl. split; [set_solver|naive_solver].
  - intros l p. unfold fq. rewrite lookup_empty. set_solver.
Qed.

Lemma free_page_setup s l page id a st : pinv s -> fq (plists s) (CallerList l) = [] -> in_list page (plists s) = false ->
  arenas s !! id = Some a -> in_array a page -> pages s !! page = Some st -> st <> VM_PAGE_STATE_FREE ->
  wp (list_initialize (CallerList l) ;; link_head (CallerList l) page) (fun _ s1 => pinv s1 /\
    arenas s1 = arenas s /\ pages s1 = pages s /\ fq (plists s1) (CallerList l) = [page] /\
    (forall l', l' <> l -> fq (plists s1) (CallerList l') = fq (plists s) (CallerList l')) /\
    arena_list s1 = arena_list s /\ forall i, fq (plists s1) (FreeList i) = fq (plists s) (FreeList i)) s.
Proof.
  intros Hi El Hn Ha Hin Hst Hne. unfold list_initialize. do 2 wp_step. set (s0 := set_plists _ s).
  assert (pinv s0) as Hi0 by (by apply pinv_initialize).
  assert (in_list page (plists s0) = false) as Hn0.
  { rewrite in_list_false in *. intros k. simpl. rewrite fq_insert. case_decide; [set_solver|apply Hn]. }
  apply link_head_wp; [done|]. split_and!; [by apply (pinv_link_head s0 l id a page st)|done|done|..].
  - simpl. by rewrite fq_add_head, fq_insert, !decide_True by done.
  - intros l' Hl. simpl. by rewrite fq_add_head, fq_insert, !decide_False by congruence.
  - done.
  - intros i. simpl. by rewrite fq_add_head, fq_insert, !decide_False by done.
Qed.

Lemma pmm_free_page_wp s l page id a st : pinv s -> fq (plists s) (CallerList l) = [] -> in_list page (plists s) = false ->
  arenas s !! id = Some a -> in_array a page -> pages s !! page = Some st -> st <> VM_PAGE_STATE_FREE ->
  wp (pmm_free_page l page) (fun r s' => r = 1 /\ pinv s' /\ pages s' = <[page := VM_PAGE_STATE_FREE]> (pages s)) s.
Proof.
  intros Hi El Hn Ha Hin Hst Hne. unfold pmm_free_page. apply wp_bind_assoc.
  eapply wp_mono; [by apply (free_page_setup s l page id a st)|]. intros _ s1 (Hi1 & _ & Ep & E1 & _).
  eapply wp_mono; [by apply pmm_free_wp|]. rewrite E1. intros r s' (ips & E & Hr & -> & ->).
  split_and!; [done|by apply gives_pinv|]. apply map_eq. intros p. rewrite gives_pages, E, Ep.
  destruct (decide (p = page)) as [->|]; [by rewrite decide_True, lookup_insert_eq by set_solver|].
  by rewrite decide_False, lookup_insert_ne by set_solver.
Qed.

Lemma run_op_wp op s : pinv s -> legal s op -> wp (run_op op) (fun _ s' => pinv s') s.
Proof.
  intros Hi Hl. destruct op as [id a|flags|count flags l|address count l|count flags align l|l|l page]; simpl in *; wp_step.
  - eapply wp_mono; [by apply pmm_add_arena_wp|]. intros r s' (_ & Hi' & _). by wp_step.
  - eapply wp_mono; [by apply pmm_alloc_page_wp|]. intros r s' H. wp_step.
    destruct (avail flags s) as [|[id p] q] eqn:E; [by destruct H as [_ ->]|]. destruct H as [-> _]. apply grab_pinv; [done|].
    apply (elem_of_avail_in flags s (arena_list s)). fold (avail flags s). rewrite E. set_solver +.
  - eapply wp_mono; [by apply pmm_alloc_pages_wp|]. intros r s' [_ ->]. wp_step. apply grabs_pinv; [done|].
    apply avail_takeable; [done|apply (pi_order s Hi)].
  - destruct Hl as (? & ? & ?). eapply wp_mono; [by apply pmm_alloc_range_wp|]. intros r s' (ips & [T -> _] & _). wp_step.
    by apply grabs_pinv.
  - destruct Hl as (? & ?). eapply wp_mono; [by apply pmm_alloc_contiguous_wp|].
    intros r s' [(_ & -> & _)|(id & a & c & _ & Ha & _ & (H1 & H2 & _ & H3) & _ & ->)]; wp_step; [done|].
    apply grabs_pinv; [done|]. apply run_takeable; [done..| |]; by rewrite Z2Nat.id by lia.
  - eapply wp_mono; [by apply pmm_free_wp|]. intros r s' (ips & _ & Hr & -> & _). wp_step. by apply gives_pinv.
  - destruct Hl as (El & Hn & id & a & st & Ha & Hin & Hst & Hne). 
    eapply wp_mono; [by apply (pmm_free_page_wp s l page id a st)|]. intros r s' (_ & Hi' & _). by wp_step.
Qed.

Lemma pmm_alloc_kpages_wp (p2v : Z -> Z) count ol s : pinv s -> 0 < count < 2 ^ 32 ->
  wp (pmm_alloc_kpages p2v count ol) (fun r s' => (r = 0 /\ s' = s) \/
    (exists id a c, arenas s !! id = Some a /\ skip_arena PMM_ALLOC_FLAG_KMAP a = false /\ 0 <= c /\ c + count <= page_count a /\
       run_free s a c count /\ r = p2v (a_base a + c * 4096) /\ s' = grabs ol (pair id <$> run_pages a c (Z.to_nat count)) s)) s.
Proof.
  intros Hi Hc. unfold pmm_alloc_kpages. destruct (Z.eqb_spec count 1) as [->|].
  - wp_step. eapply wp_mono; [by apply pmm_alloc_page_wp|]. intros r s' H.
    destruct (avail PMM_ALLOC_FLAG_KMAP s) as [|[id p] q] eqn:E; [destruct H as [-> ->]; wp_step; by left|].
    destruct H as [-> (a & Ha & ->)].
    assert ((id, p) ∈ avail PMM_ALLOC_FLAG_KMAP s) as Hp by (rewrite E; set_solver +).
    assert (skip_arena PMM_ALLOC_FLAG_KMAP a = false) as Hsk.
    { apply list_elem_of_bind in Hp as (id' & Hp & _). pose proof (elem_of_avail_of _ _ _ _ _ Hp) as [<- _].
      unfold avail_of in Hp. rewrite Ha in Hp. destruct (skip_arena _ a); [set_solver|done]. }
    apply elem_of_avail_in in Hp as [_ Hp]. pose proof Hp as (b & Hb & (i & Hi' & ->) & Hst)%(pi_free s Hi).
    rewrite Ha in Hb. injection Hb as <-. wp_step.
    assert (wp (match ol with Some l => link_tail (CallerList l) (page_at a i) | None => ret tt end)
      (fun _ s' => s' = grab id (page_at a i) ol s) (grab id (page_at a i) None s)) as Hl.
    { destruct ol as [l|]; [|by wp_step]. apply link_tail_wp; [apply in_list_del|done]. }
    eapply wp_mono; [exact Hl|]. intros _ s' ->. wp_step. right. exists id, a, i.
    pose proof (pi_boot s Hi). rewrite (page_address (boot_alloc_end s) a i) by (done || lia || by apply (pi_arena s Hi id)).
    split_and!; [done|done|lia|lia| |done|done]. intros j Hj. by replace j with i by lia.
  - wp_step. eapply wp_mono; [apply pmm_alloc_contiguous_wp; [done|done|unfold PAGE_SIZE_SHIFT; lia]|].
    intros r s' [(-> & -> & _)|(id & a & c & _ & Ha & Hsk & (H1 & H2 & _ & H3) & -> & ->)];
      [cbn [fst snd]; rewrite Z.eqb_refl; wp_step; by left|].
    rewrite (proj2 (Z.eqb_neq count 0)) by lia. wp_step. wp_step; [done|]. wp_step. right. exists id, a, c. done.
Qed.

Lemma avail_in_grabs flags ol ips s l : avail_in flags (grabs ol ips s) l = filter (fun x => x.2 ∉ ips.*2) (avail_in flags s l).
Proof.
  revert s. induction ips as [|[id p] ips IH]; intros s; simpl.
  - symmetry. apply filter_id. intros; apply not_elem_of_nil.
  - rewrite IH, avail_in_grab, list_filter_filter. apply list_filter_iff. intros [id' q]. simpl. set_solver +.
Qed.

Lemma filter_none {A} (P : A -> Prop) `{forall x, Decision (P x)} (l : list A) : (forall x, x ∈ l -> ~ P x) -> filter P l = [].
Proof. induction l as [|x l IH]; intros Hl; [done|]. rewrite filter_cons_False by (apply Hl; set_solver +). apply IH. set_solver. Qed.

Lemma filter_drop {A} (l : list (A * Z)) n : NoDup l.*2 -> filter (fun x => x.2 ∉ (take n l).*2) l = drop n l.
Proof.
  intros Hnd. transitivity (filter (fun x => x.2 ∉ (take n l).*2) (take n l ++ drop n l)); [by rewrite take_drop|].
  rewrite filter_app, filter_none, filter_id; [done| |].
  - intros x Hx Hx'. rewrite <- (take_drop n l), fmap_app in Hnd. apply NoDup_app in Hnd as (_ & Hd & _).
    apply (Hd x.2 Hx'). apply list_elem_of_fmap. by exists x.
  - intros x Hx Hn. apply Hn, list_elem_of_fmap. by exists x.
Qed.

Lemma avail_grabs_drop flags ol s l n : pinv s -> NoDup l ->
  avail_in flags (grabs ol (take n (avail_in flags s l)) s) l = drop n (avail_in flags s l).
Proof. intros Hi Hnd. rewrite avail_in_grabs. by apply filter_drop, avail_nodup. Qed.


(** C18. [pmm_alloc_contiguous] is exact: if some arena that may be used has a run of [count] free pages at
    a multiple of the alignment, it takes such a run and no other page, puts its pages on the list in order
    and returns its address; if there is none it returns 0 and changes nothing.  The search ends within one
    pass per page of the arena. *)
Theorem pmm_alloc_contiguous_exact count flags align l s
    (Hi : pinv s) (Hc : 0 < count < 2 ^ 32) (Hal : 0 <= align < 64) :
  wp (pmm_alloc_contiguous count flags align (Some l)) (fun r s' => pinv s' /\
    ((r = (0, None) /\ s' = s /\
        forall id a c, arenas s !! id = Some a -> skip_arena flags a = false -> ~ aligned_run s a count (Z.max align 12) c) \/
     (exists id a c, arenas s !! id = Some a /\ skip_arena flags a = false /\ aligned_run s a count (Z.max align 12) c /\
        r = (count, Some (a_base a + c * 4096)) /\
        fq (plists s') (CallerList l) = fq (plists s) (CallerList l) ++ run_pages a c (Z.to_nat count) /\
        forall p, pages s' !! p = if decide (p ∈ run_pages a c (Z.to_nat count)) then Some VM_PAGE_STATE_ALLOC else pages s !! p))) s.
Proof.
  eapply wp_mono; [by apply pmm_alloc_contiguous_wp|].
  intros r s' [(-> & -> & Hno)|(id & a & c & _ & Ha & Hsk & Hrun & -> & ->)].
  - split; [done|]. left. split_and!; [done..|]. intros id a c Ha. apply (Hno id); [|done]. apply (pi_arenas s Hi). eauto.
  - assert (takeable s (pair id <$> run_pages a c (Z.to_nat count))) as Ht.
    { destruct Hrun as (H1 & H2 & _ & H3). apply run_takeable; [done..| |]; by rewrite Z2Nat.id by lia. }
    assert ((pair id <$> run_pages a c (Z.to_nat count)).*2 = run_pages a c (Z.to_nat count)) as E.
    { by rewrite <- list_fmap_compose, (list_fmap_ext _ (fun p => p)), list_fmap_id. }
    split; [by apply grabs_pinv|]. right. exists id, a, c. split_and!; [done..| |].
    + rewrite grabs_caller, decide_True by done. by rewrite E.
    + intros p. by rewrite grabs_pages, E.
Qed.

(** [pmm_alloc_pages] takes as many pages as were asked for, or all there are: the first ones of the
    arenas that may be used, in the order of their priority and of their free lists; they go to the end of the
    caller's list in that order, and the ones after them are next. *)
Theorem pmm_alloc_pages_exact count flags l s (Hi : pinv s) (Hc : 0 <= count < 2 ^ 32) :
  wp (pmm_alloc_pages count flags l) (fun r s' => pinv s' /\
    r = Z.min count (Z.of_nat (length (avail flags s))) /\
    fq (plists s') (CallerList l) = fq (plists s) (CallerList l) ++ (take (Z.to_nat r) (avail flags s)).*2 /\
    avail flags s' = drop (Z.to_nat r) (avail flags s)) s.
Proof.
  eapply wp_mono; [by apply pmm_alloc_pages_wp|]. intros r s' [-> ->]. set (k := Z.min _ _).
  assert (takeable s (take (Z.to_nat k) (avail flags s))) as Ht by (apply avail_takeable; [done|apply (pi_order s Hi)]).
  split_and!; [by apply grabs_pinv|done| |].
  - by rewrite grabs_caller, decide_True.
  - unfold avail at 1. rewrite grabs_list. fold (avail flags s). apply avail_grabs_drop; [done|apply (pi_order s Hi)].
Qed.

(** The kernel's mapping of an arena: a run of pages is at successive addresses that translate back, none of them [NULL]. *)
Definition kernel_mapped (p2v v2p : Z -> Z) (a : pmm_arena) : Prop :=
  forall c n, 0 <= c -> c + n <= page_count a -> 0 < n ->
    let v := p2v (a_base a + c * 4096) in
    v <> 0 /\ v = u64 v /\ forall i, 0 <= i < n -> v2p (u64 (v + i * 4096)) = a_base a + c * 4096 + i * 4096.

Lemma run_snd id a c n : (pair id <$> run_pages a c n).*2 = run_pages a c n.
Proof. by rewrite <- list_fmap_compose, (list_fmap_ext _ (fun p => p)), list_fmap_id. Qed.

Lemma mem_apart_grabs ol ips s : mem_apart s -> mem_apart (grabs ol ips s).
Proof.
  intros Hm id1 id2 a b addr Ha Hb Ia Ib. pose proof (grabs_arenas ol ips s id1) as E1. pose proof (grabs_arenas ol ips s id2) as E2.
  rewrite Ha in E1. rewrite Hb in E2. symmetry in E1, E2. apply fmap_Some in E1 as (a0 & Ha0 & E1). apply fmap_Some in E2 as (b0 & Hb0 & E2).
  injection E1 as _ _ Ea Es _. injection E2 as _ _ Eb Es' _. unfold inside in *. rewrite Ea, Es in Ia. rewrite Eb, Es' in Ib.
  by apply (Hm id1 id2 a0 b0 addr).
Qed.

(** Pages that were taken and not put on a list are on none. *)
Lemma grabs_unlinked ips s p : pinv s -> takeable s ips -> p ∈ ips.*2 -> in_list p (plists (grabs None ips s)) = false.
Proof.
  intros Hi Ht Hp. apply in_list_false. intros [id|l].
  - rewrite grabs_free, list_elem_of_filter. naive_solver.
  - rewrite grabs_caller by done. rewrite decide_False, app_nil_r by done.
    apply list_elem_of_fmap in Hp as ([id q] & -> & Hq). intros Hl.
    by pose proof (wf_one _ (pi_wf s Hi) _ _ _ (proj2 Ht id q Hq) Hl).
Qed.

Lemma in_list_initialize s k p : fq (plists s) k = [] -> in_list p (<[k := []]> (plists s)) = in_list p (plists s).
Proof.
  intros Ek. apply eq_bool_prop_intro. rewrite !Is_true_true, !in_list_spec.
  setoid_rewrite fq_insert. split; intros [k' Hk']; exists k'; destruct (decide (k = k')) as [<-|]; try done.
  - by apply not_elem_of_nil in Hk'.
  - by rewrite Ek in Hk'.
Qed.

(** Kernel pages that are allocated and freed again leave the allocator as it was, up to the order of the
    free lists, and the number freed is the number allocated; this goes by the addresses alone, through the kernel's mapping
    and back to the page structures. *)
Theorem pmm_kpages_roundtrip p2v v2p count ls s
    (Hi : pinv s) (Hm : mem_apart s) (Hc : 0 < count < 2 ^ 32) (Hls : fq (plists s) (CallerList ls) = [])
    (Hmap : forall id a, arenas s !! id = Some a -> skip_arena PMM_ALLOC_FLAG_KMAP a = false -> kernel_mapped p2v v2p a) :
  wp (do v <- pmm_alloc_kpages p2v count None;
      if v =? 0 then ret 0 else pmm_free_kpages v2p ls v count) (fun r s' =>
    (r = 0 \/ r = count) /\ pages s' = pages s /\ arenas s' = arenas s /\
    forall id, fq (plists s') (FreeList id) ≡ₚ fq (plists s) (FreeList id)) s.
Proof.
  wp_step. eapply wp_mono; [by apply pmm_alloc_kpages_wp|].
  intros v s1 [(-> & ->)|(id & a & c & Ha & Hsk & H1 & H2 & Hrun & -> & ->)].
  { rewrite Z.eqb_refl. wp_step. split_and!; [by left|done..]. }
  destruct (Hmap id a Ha Hsk c count H1 H2 ltac:(lia)) as (Hv0 & Hvu & Hv). set (v := p2v _) in *.
  rewrite (proj2 (Z.eqb_neq v 0)) by done. set (ips := pair id <$> run_pages a c (Z.to_nat count)).
  assert (takeable s ips) as Ht by (apply run_takeable; [done..| |]; by rewrite Z2Nat.id by lia).
  set (s1 := grabs None ips s). assert (pinv s1) as Hi1 by (by apply grabs_pinv).
  assert (fq (plists s1) (CallerList ls) = []) as Els by (unfold s1; rewrite grabs_caller by done; by rewrite Hls).
  unfold pmm_free_kpages, list_initialize. do 2 wp_step. set (s2 := set_plists _ s1).
  assert (pinv s2) as Hi2 by (by apply pinv_initialize).
  assert (set_free_count 0 <$> arenas s1 !! id = Some (set_free_count 0 a)) as Ea by (unfold s1; by rewrite grabs_arenas, Ha).
  apply fmap_Some in Ea as (a1 & Ha1 & Ea). injection Ea as Ef Epr Eb Es Ep.
  assert (forall p, p ∈ run_pages a1 c (Z.to_nat count) -> p ∈ ips.*2) as Hin.
  { intros p. unfold ips. by rewrite run_snd, (run_pages_ext a1 a). }
  wp_step. eapply wp_mono; [apply (link_kpages_wp v2p ls id a1 (Z.to_nat count) s2 v (a_base a1 + c * 4096) c); try done|].
  - by apply mem_apart_grabs.
  - unfold page_count. rewrite <- Es. fold (page_count a). lia.
  - intros i Hi'. rewrite <- Eb. apply Hv. lia.
  - intros p Hp%Hin. split; [simpl; rewrite in_list_initialize by done; by apply grabs_unlinked|].
    exists VM_PAGE_STATE_ALLOC. split; [|done]. simpl. unfold s1. by rewrite grabs_pages, decide_True.
  - intros _ s3 [Hi3 (F & -> & EF)]. eapply wp_mono; [by apply pmm_free_wp|]. intros r s4 (ips' & E' & Hr & -> & ->).
    simpl in E'. rewrite EF in *. simpl plists in *. rewrite fq_insert, decide_True in E' by done.
    rewrite (run_pages_ext a1 a) in E' by done. simpl in E'. rewrite <- (run_snd id) in E'.
    pose proof (grabs_gives_restore s None ips (set_plists F s2) ips' Hi Ht Hi3 eq_refl eq_refl Hr E') as R.
    split; [right|exact R]. cbn [plists set_plists] in *. rewrite EF. simpl.
    rewrite fq_insert, decide_True by done. simpl. rewrite run_pages_length. lia.
Qed.
End inv.

(** ** Two arenas *)

Module PmmExample.

(** Four pages the kernel has mapped, and three it has not, of a higher rank. *)
Definition arena0 : pmm_arena := Arena PMM_ARENA_FLAG_KMAP 1 (4096 * 9) (4096 * 4) 0 0.
Definition arena1 : pmm_arena := Arena 0 0 (4096 * 3) (4096 * 3) 0 0.

Definition after (op : pmm_op) (s : pmm) : pmm :=
  match run_op op s with Done _ s' => s' | Fault _ => s end.

Definition s0 : pmm := pmm_boot 1001.
Definition s1 : pmm := after (AddArena 0 arena0) s0.
Definition s2 : pmm := after (AddArena 1 arena1) s1.

Lemma addable0 : addable s0 0 arena0.
Proof. split; [done|by exists 9|by exists 4|simpl; lia|vm_compute; congruence]. Qed.

Lemma addable1 : addable s1 1 arena1.
Proof. split; [vm_compute; done|by exists 3|by exists 3|simpl; lia|vm_compute; congruence]. Qed.

Lemma step01 : pmm_step s0 s1.
Proof. exists (AddArena 0 arena0). split; [apply addable0|by vm_compute]. Qed.

Lemma step12 : pmm_step s1 s2.
Proof. exists (AddArena 1 arena1). split; [apply addable1|by vm_compute]. Qed.

Lemma s2_pinv : pinv s2.
Proof.
  assert (pinv s1) as H1.
  { pose proof (run_op_wp (AddArena 0 arena0) s0 (pmm_boot_pinv 1001 ltac:(lia)) addable0) as H.
    unfold wp in H. by replace (run_op (AddArena 0 arena0) s0) with (Done tt s1 : outcome pmm unit) in H by (by vm_compute). }
  pose proof (run_op_wp (AddArena 1 arena1) s1 H1 addable1) as H. unfold wp in H.
  by replace (run_op (AddArena 1 arena1) s1) with (Done tt s2 : outcome pmm unit) in H by (by vm_compute).
Qed.


(** Two pages at a multiple of four pages: pages 3 and 4 of the first arena. *)
Lemma pmm_alloc_contiguous_exact_witness :
  wp (pmm_alloc_contiguous 2 PMM_ALLOC_FLAG_ANY 14 (Some 0%nat)) (fun r s' => pinv s' /\
    ((r = (0, None) /\ s' = s2 /\
        forall id a c, arenas s2 !! id = Some a -> skip_arena PMM_ALLOC_FLAG_ANY a = false -> ~ aligned_run s2 a 2 (Z.max 14 12) c) \/
     (exists id a c, arenas s2 !! id = Some a /\ skip_arena PMM_ALLOC_FLAG_ANY a = false /\ aligned_run s2 a 2 (Z.max 14 12) c /\
        r = (2, Some (a_base a + c * 4096)) /\
        fq (plists s') (CallerList 0) = fq (plists s2) (CallerList 0) ++ run_pages a c (Z.to_nat 2) /\
        forall p, pages s' !! p = if decide (p ∈ run_pages a c (Z.to_nat 2)) then Some VM_PAGE_STATE_ALLOC else pages s2 !! p))) s2.
Proof. apply (pmm_alloc_contiguous_exact 2 PMM_ALLOC_FLAG_ANY 14 0%nat s2); [apply s2_pinv|lia|lia]. Defined.

Lemma contiguous_run : exists s', pmm_alloc_contiguous 2 PMM_ALLOC_FLAG_ANY 14 None s2 = Done (2, Some (4096 * 4)) s'.
Proof. eexists. by vm_compute. Qed.

Lemma pmm_alloc_pages_exact_witness :
  wp (pmm_alloc_pages 5 PMM_ALLOC_FLAG_ANY 0) (fun r s' => pinv s' /\
    r = Z.min 5 (Z.of_nat (length (avail PMM_ALLOC_FLAG_ANY s2))) /\
    fq (plists s') (CallerList 0) = fq (plists s2) (CallerList 0) ++ (take (Z.to_nat r) (avail PMM_ALLOC_FLAG_ANY s2)).*2 /\
    avail PMM_ALLOC_FLAG_ANY s' = drop (Z.to_nat r) (avail PMM_ALLOC_FLAG_ANY s2)) s2.
Proof. apply (pmm_alloc_pages_exact 5 PMM_ALLOC_FLAG_ANY 0%nat s2); [apply s2_pinv|lia]. Defined.

(** The kernel maps physical memory at 2^32. *)
Definition p2v (pa : Z) : Z := pa + 2 ^ 32.
Definition v2p (va : Z) : Z := va - 2 ^ 32.

Lemma s2_arenas id a : arenas s2 !! id = Some a ->
  (id = 0%nat /\ a_base a = 4096 * 9 /\ a_size a = 4096 * 4) \/ (id = 1%nat /\ a_base a = 4096 * 3 /\ a_size a = 4096 * 3).
Proof.
  assert (arenas s2 = <[0%nat := Arena 1 1 (4096 * 9) (4096 * 4) 4 1008]> {[1%nat := Arena 0 0 (4096 * 3) (4096 * 3) 3 1104]}) as ->
    by (by vm_compute).
  intros [[<- <-]|[_ [<- <-]%lookup_singleton_Some]]%lookup_insert_Some; [by left|by right].
Qed.

Lemma pmm_kpages_roundtrip_witness :
  wp (do v <- pmm_alloc_kpages p2v 3 None;
      if v =? 0 then ret 0 else pmm_free_kpages v2p 0 v 3) (fun r s' =>
    (r = 0 \/ r = 3) /\ pages s' = pages s2 /\ arenas s' = arenas s2 /\
    forall id, fq (plists s') (FreeList id) ≡ₚ fq (plists s2) (FreeList id)) s2.
Proof.
  apply (pmm_kpages_roundtrip p2v v2p 3 0%nat s2); [apply s2_pinv| |lia|by vm_compute|].
  - intros id1 id2 a b addr Ha Hb Ia Ib. unfold inside in *. 
    apply s2_arenas in Ha, Hb. destruct Ha as [(-> & E1 & E2)|(-> & E1 & E2)], Hb as [(-> & E3 & E4)|(-> & E3 & E4)]; (reflexivity || lia).
  - intros id a Ha Hsk c n Hc Hn Hpos. unfold p2v, v2p. change PAGE_SIZE with 4096 in *.
    assert (0 <= a_base a < 2 ^ 20 /\ page_count a <= 4) as [Hb Hp].
    { unfold page_count. destruct (s2_arenas _ _ Ha) as [(-> & -> & ->)|(-> & -> & ->)]; change PAGE_SIZE with 4096; (split; [lia|by vm_compute]). }
    split_and!; [lia|rewrite u64_small; lia|]. intros i Hi. rewrite u64_small; lia.
Defined.
End PmmExample.
