(* ===== verification/Vmm.v ===== *)
(** * Address spaces

    [vm/vmm.c]: address spaces with their regions in order of address, the choice of a spot for a
    new region, and the calls that back a region with physical pages and map it.  [vmm_lock]
    makes each call one step and is left out; memory for a new structure is handed in as an
    argument and what is freed is recorded.  The architecture's page tables are behind an
    interface; addresses are 64 bits wide. *)

From stdpp Require Import base gmap list numbers sorting.
From S2P Require Import Prelude ListNode Align Pmm PmmSpec.
Import Family.


Definition VMM_FLAG_VALLOC_SPECIFIC : Z := 1.
Definition VMM_REGION_FLAG_RESERVED : Z := 1.
Definition VMM_REGION_FLAG_PHYSICAL : Z := 2.
Definition VMM_ASPACE_FLAG_KERNEL : Z := 1.
Definition ARCH_ASPACE_FLAG_KERNEL : Z := 1.

Definition KERNEL_ASPACE_BASE : Z := 0x80000000.
Definition KERNEL_ASPACE_SIZE : Z := 0x80000000.
Definition USER_ASPACE_BASE : Z := 0x01000000.
Definition USER_ASPACE_SIZE : Z := u64 (KERNEL_ASPACE_BASE - USER_ASPACE_BASE - 0x01000000).

Definition ULONG_MAX : Z := 2 ^ 64 - 1.
Definition VADDR_NONE : Z := u64 (-1).

(** ** State *)

(** [r_id] names the structure and its [page_list]. *)
Record vmm_region := Region {
  r_id : nat;
  r_flags : Z;
  r_arch_mmu_flags : Z;
  r_base : Z;
  r_size : Z }.

Record vmm_aspace := Aspace {
  as_flags : Z;
  as_base : Z;
  as_size : Z;
  as_regions : list vmm_region }.

(** What the architecture provides ([arch/mmu.h]): the results of mapping and unmapping pages of an address space,
    a lookup, and the life of an address space. *)
Class Mmu (A : Type) := {
  arch_mmu_map : nat -> Z -> Z -> Z -> Z -> A -> Z * A;
  arch_mmu_unmap : nat -> Z -> Z -> A -> A;
  arch_mmu_query : nat -> Z -> A -> option (Z * Z);
  arch_mmu_init_aspace : nat -> Z -> Z -> Z -> A -> Z * A;
  arch_mmu_destroy_aspace : nat -> A -> A;
  arch_mmu_context_switch : option nat -> A -> A }.

Inductive vmem := RegionMem (id : nat) | AspaceMem (id : nat).

(** [v_current] is [get_current_thread()->aspace]. *)
Record vmm (A : Type) := Vmm {
  v_pmm : pmm;
  v_aspaces : gmap nat vmm_aspace;
  v_list : list nat;
  v_mmu : A;
  v_freed : list vmem;
  v_current : option nat }.
Arguments Vmm {A} _ _ _ _ _ _.
Arguments v_pmm {A} _.
Arguments v_aspaces {A} _.
Arguments v_list {A} _.
Arguments v_mmu {A} _.
Arguments v_freed {A} _.
Arguments v_current {A} _.

Definition set_regions (v : list vmm_region) (a : vmm_aspace) : vmm_aspace := Aspace (as_flags a) (as_base a) (as_size a) v.
Definition set_base (v : Z) (r : vmm_region) : vmm_region := Region (r_id r) (r_flags r) (r_arch_mmu_flags r) v (r_size r).

(** ** Regions *)

Definition is_inside_aspace (a : vmm_aspace) (vaddr : Z) : bool :=
  (as_base a <=? vaddr) && (vaddr <=? u64 (as_base a + as_size a - 1)).

Definition is_region_inside_aspace (a : vmm_aspace) (vaddr size : Z) : bool :=
  if negb (is_inside_aspace a vaddr) then false
  else if size =? 0 then true
  else if u64 (vaddr + size - 1) <? vaddr then false
  else if u64 (as_base a + as_size a - 1) <? u64 (vaddr + size - 1) then false
  else true.

(** [None] when the assertion fails. *)
Definition trim_to_aspace (a : vmm_aspace) (vaddr size : Z) : option Z :=
  if negb (is_inside_aspace a vaddr) then None
  else if size =? 0 then Some size
  else
    let offset := u64 (vaddr - as_base a) in
    let size := if u64 (offset + size) <? offset then u64 (ULONG_MAX - offset - 1) else size in
    let size := if u64 (as_size a - 1) <=? u64 (offset + size) then u64 (as_size a - offset) else size in
    Some size.

Definition r_last (r : vmm_region) : Z := u64 (r_base r + r_size r - 1).

(** The walk of [add_region_to_aspace]: after the first region the new one goes after, if it ends before the next. *)
Fixpoint add_after_fit (r : vmm_region) (l : list vmm_region) : option (list vmm_region) :=
  match l with
  | [] => None
  | last :: l' =>
      if r_last last <? r_base r then
        match l' with
        | [] => Some (last :: r :: l')
        | next :: _ =>
            if r_last r <? r_base next then Some (last :: r :: l')
            else match add_after_fit r l' with Some l'' => Some (last :: l'') | None => None end
        end
      else match add_after_fit r l' with Some l'' => Some (last :: l'') | None => None end
  end.

(** The regions with the new one in place, or the error. *)
Definition add_region_to_aspace (a : vmm_aspace) (r : vmm_region) : list vmm_region + Z :=
  if (r_size r =? 0) || negb (is_region_inside_aspace a (r_base r) (r_size r)) then inr ERR_OUT_OF_RANGE
  else
    match as_regions a with
    | [] => inl [r]
    | last :: _ =>
        if r_last r <? r_base last then inl (r :: as_regions a)
        else match add_after_fit r (as_regions a) with Some l => inl l | None => inr ERR_NO_MEMORY end
    end.

Definition arch_mmu_pick_spot (base align : Z) : Z := ALIGN base align.

(** The spot in a gap from its first to its last byte. [Some] stops the search, with [VADDR_NONE] for not found. *)
Definition pick_in_gap (gap_beg gap_end align size : Z) : option Z :=
  let pva := arch_mmu_pick_spot gap_beg align in
  if pva <? gap_beg then Some VADDR_NONE
  else if (pva <? gap_end) && (size <=? u64 (gap_end - pva + 1)) then Some pva
  else None.

Definition check_gap (a : vmm_aspace) (prev next : option vmm_region) (align size : Z) : option Z :=
  let gap_beg := match prev with Some p => u64 (r_base p + r_size p) | None => as_base a end in
  match next with
  | Some n => if gap_beg =? r_base n then None else pick_in_gap gap_beg (u64 (r_base n - 1)) align size
  | None =>
      if gap_beg =? u64 (as_base a + as_size a) then Some VADDR_NONE
      else pick_in_gap gap_beg (u64 (as_base a + as_size a - 1)) align size
  end.

(** The search after [k] regions, with the spot and how many regions come before it. *)
Fixpoint alloc_spot_in (a : vmm_aspace) (align size : Z) (k : nat) (l : list vmm_region) : option (Z * nat) :=
  match l with
  | [] => None
  | r :: l' =>
      match check_gap a (Some r) (head l') align size with
      | Some spot => Some (spot, S k)
      | None => alloc_spot_in a align size (S k) l'
      end
  end.

(** The spot, and the number of regions before it where [*before] is set. *)
Definition alloc_spot (a : vmm_aspace) (size align_pow2 : Z) : option (Z * option nat) :=
  if (0 <? size) && IS_PAGE_ALIGNED size then
    let align_pow2 := if align_pow2 <? PAGE_SIZE_SHIFT then PAGE_SIZE_SHIFT else align_pow2 in
    let align := Z.shiftl 1 align_pow2 in
    match check_gap a None (head (as_regions a)) align size with
    | Some spot => Some (spot, Some 0%nat)
    | None =>
        match alloc_spot_in a align size 0 (as_regions a) with
        | Some (spot, k) => Some (spot, Some k)
        | None => Some (VADDR_NONE, None)
        end
    end
  else None.

(** ** Operations *)

Section ops.
Context {A : Type} `{Mmu A}.

Definition set_vpmm (v : pmm) (s : vmm A) := Vmm v (v_aspaces s) (v_list s) (v_mmu s) (v_freed s) (v_current s).
Definition set_aspaces (v : gmap nat vmm_aspace) (s : vmm A) := Vmm (v_pmm s) v (v_list s) (v_mmu s) (v_freed s) (v_current s).
Definition set_list (v : list nat) (s : vmm A) := Vmm (v_pmm s) (v_aspaces s) v (v_mmu s) (v_freed s) (v_current s).
Definition set_mmu (v : A) (s : vmm A) := Vmm (v_pmm s) (v_aspaces s) (v_list s) v (v_freed s) (v_current s).
Definition set_freed (v : list vmem) (s : vmm A) := Vmm (v_pmm s) (v_aspaces s) (v_list s) (v_mmu s) v (v_current s).
Definition set_current (v : option nat) (s : vmm A) := Vmm (v_pmm s) (v_aspaces s) (v_list s) (v_mmu s) (v_freed s) v.

Definition on_pmm {X} (m : M pmm X) : M (vmm A) X :=
  fun s => match m (v_pmm s) with Done x p => Done x (set_vpmm p s) | Fault f => Fault f end.

Definition get_aspace (asp : nat) : M (vmm A) vmm_aspace := do s <- gets (fun s => s); deref (v_aspaces s !! asp).
Definition put_regions (asp : nat) (l : list vmm_region) : M (vmm A) unit :=
  modify (fun s => set_aspaces (alter (set_regions l) asp (v_aspaces s)) s).
Definition do_map (asp : nat) (va pa count flags : Z) : M (vmm A) Z :=
  do s <- gets (fun s => s);
  let '(err, m) := arch_mmu_map asp va pa count flags (v_mmu s) in
  modify (set_mmu m) ;; ret err.
Definition do_unmap (asp : nat) (va count : Z) : M (vmm A) unit :=
  modify (fun s => set_mmu (arch_mmu_unmap asp va count (v_mmu s)) s).
Definition free_mem (m : vmem) : M (vmm A) unit := modify (fun s => set_freed (m :: v_freed s) s).

(** [mem] is the structure [calloc] returns, named, or [None]. *)
Definition alloc_region_struct (mem : option nat) (base size flags arch_mmu_flags : Z) : option vmm_region :=
  match mem with Some id => Some (Region id flags arch_mmu_flags base size) | None => None end.

Definition insert_at (k : nat) (r : vmm_region) (l : list vmm_region) : list vmm_region := take k l ++ r :: drop k l.

Definition alloc_region (asp : nat) (mem : option nat) (size vaddr align_pow2 vmm_flags region_flags arch_mmu_flags : Z) :
    M (vmm A) (option vmm_region) :=
  match alloc_region_struct mem vaddr size region_flags arch_mmu_flags with
  | None => ret None
  | Some r =>
      do a <- get_aspace asp;
      if negb (Z.land vmm_flags VMM_FLAG_VALLOC_SPECIFIC =? 0) then
        match add_region_to_aspace a r with
        | inr _ => free_mem (RegionMem (r_id r)) ;; ret None
        | inl l => put_regions asp l ;; ret (Some r)
        end
      else
        match alloc_spot a size align_pow2 with
        | None => fail AssertFail
        | Some (vaddr, before) =>
            if vaddr =? VADDR_NONE then free_mem (RegionMem (r_id r)) ;; ret None
            else
              do k <- match before with Some k => ret k | None => fail AssertFail end;
              let r := set_base vaddr r in
              put_regions asp (insert_at k r (as_regions a)) ;; ret (Some r)
        end
  end.

Definition vmm_reserve_space (asp : nat) (mem : option nat) (size vaddr : Z) : M (vmm A) Z :=
  massert (IS_PAGE_ALIGNED vaddr) ;;
  massert (IS_PAGE_ALIGNED size) ;;
  if size =? 0 then ret NO_ERROR
  else
    do a <- get_aspace asp;
    if negb (is_inside_aspace a vaddr) then ret ERR_OUT_OF_RANGE
    else
      do size <- match trim_to_aspace a vaddr size with Some sz => ret sz | None => fail AssertFail end;
      do s <- gets (fun s => s);
      let arch_mmu_flags := match arch_mmu_query asp vaddr (v_mmu s) with Some (_, fl) => fl | None => 0 end in
      do r <- alloc_region asp mem size vaddr 0 VMM_FLAG_VALLOC_SPECIFIC VMM_REGION_FLAG_RESERVED arch_mmu_flags;
      match r with Some _ => ret NO_ERROR | None => ret ERR_NO_MEMORY end.

Definition vmm_find_region (a : vmm_aspace) (vaddr : Z) : option vmm_region :=
  list_find (fun r => (r_base r <=? vaddr) && (vaddr <=? r_last r) = true) (as_regions a) ≫= fun x => Some x.2.

(** The region removed, or the error. *)
Definition vmm_remove_region_locked (asp : nat) (vaddr : Z) : M (vmm A) (vmm_region + Z) :=
  do a <- get_aspace asp;
  match vmm_find_region a vaddr with
  | None => ret (inr ERR_NOT_FOUND)
  | Some r =>
      put_regions asp (filter (fun x => r_id x <> r_id r) (as_regions a)) ;;
      do_unmap asp (r_base r) (u32 (r_size r / PAGE_SIZE)) ;;
      ret (inl r)
  end.

(** The undoing on the error paths: the region that was just put in is taken out again. *)
Definition undo_region (asp : nat) (r : vmm_region) : M (vmm A) unit :=
  do err2 <- vmm_remove_region_locked asp (r_base r);
  match err2 with
  | inl r_temp => massert (r_id r_temp =? r_id r)%nat
  | inr _ => fail BadPointer
  end.

(** [ptr] is [None] for a [NULL] pointer and otherwise the value it points to; the second result is what it points to
    after the call. *)
Definition vmm_alloc_physical (asp : nat) (mem : option nat) (size : Z) (ptr : option Z)
    (align_log2 paddr vmm_flags arch_mmu_flags : Z) : M (vmm A) (Z * option Z) :=
  massert (IS_PAGE_ALIGNED paddr) ;;
  massert (IS_PAGE_ALIGNED size) ;;
  if size =? 0 then ret (NO_ERROR, ptr)
  else
    let specific := negb (Z.land vmm_flags VMM_FLAG_VALLOC_SPECIFIC =? 0) in
    if specific && bool_decide (ptr = None) then ret (ERR_INVALID_ARGS, ptr)
    else
      let vaddr := if specific then default 0 ptr else 0 in
      do r <- alloc_region asp mem size vaddr align_log2 vmm_flags VMM_REGION_FLAG_PHYSICAL arch_mmu_flags;
      match r with
      | None => ret (ERR_NO_MEMORY, ptr)
      | Some r =>
          let ptr := (fun _ => r_base r) <$> ptr in
          do err <- do_map asp (r_base r) paddr (u32 (size / PAGE_SIZE)) arch_mmu_flags;
          if err <? NO_ERROR then
            undo_region asp r ;;
            free_mem (RegionMem (r_id r)) ;;
            ret (err, ptr)
          else ret (NO_ERROR, ptr)
      end.

(** Moving the pages of a local list to the region. *)
Fixpoint move_pages (fuel : nat) (from to : nat) : M pmm unit :=
  match fuel with
  | O => fail OutOfFuel
  | S fuel =>
      do r <- remove_head (CallerList from);
      match r with
      | None => ret tt
      | Some p => link_tail (CallerList to) p ;; move_pages fuel from to
      end
  end.

(** [page_list] is the local list of the function. *)
Definition vmm_alloc_contiguous (asp : nat) (mem : option nat) (page_list : nat) (size : Z) (ptr : option Z)
    (align_pow2 vmm_flags arch_mmu_flags : Z) : M (vmm A) (Z * option Z) :=
  let size := ROUNDUP size PAGE_SIZE in
  if size =? 0 then ret (ERR_INVALID_ARGS, ptr)
  else
    let specific := negb (Z.land vmm_flags VMM_FLAG_VALLOC_SPECIFIC =? 0) in
    if specific && bool_decide (ptr = None) then ret (ERR_INVALID_ARGS, ptr)
    else
      let vaddr := if specific then default 0 ptr else 0 in
      on_pmm (list_initialize (CallerList page_list)) ;;
      do ' (count, pa) <- on_pmm (pmm_alloc_contiguous (size / PAGE_SIZE) PMM_ALLOC_FLAG_ANY align_pow2 (Some page_list));
      if count <? size / PAGE_SIZE then
        massert (count =? 0) ;; ret (ERR_NO_MEMORY, ptr)
      else
        let pa := default 0 pa in
        do r <- alloc_region asp mem size vaddr align_pow2 vmm_flags VMM_REGION_FLAG_PHYSICAL arch_mmu_flags;
        match r with
        | None => on_pmm (pmm_free page_list) ;; ret (ERR_NO_MEMORY, ptr)
        | Some r =>
            let ptr := (fun _ => r_base r) <$> ptr in
            do err <- do_map asp (r_base r) pa (u32 (size / PAGE_SIZE)) arch_mmu_flags;
            if err <? NO_ERROR then
              undo_region asp r ;;
              free_mem (RegionMem (r_id r)) ;;
              on_pmm (pmm_free page_list) ;;
              ret (err, ptr)
            else
              do q <- gets (fun s => fq (plists (v_pmm s)) (CallerList page_list));
              on_pmm (move_pages (S (length q)) page_list (r_id r)) ;;
              ret (NO_ERROR, ptr)
        end.

(** The loop that maps the pages one by one: the error that stopped it, if one did. *)
Fixpoint map_pages (fuel : nat) (asp : nat) (r : vmm_region) (page_list : nat) (va arch_mmu_flags : Z) : M (vmm A) (option Z) :=
  match fuel with
  | O => fail OutOfFuel
  | S fuel =>
      do p <- on_pmm (remove_head (CallerList page_list));
      match p with
      | None => ret None
      | Some p =>
          massert (va <=? r_last r) ;;
          do pa <- on_pmm (vm_page_to_paddr p);
          massert (IS_PAGE_ALIGNED pa) ;;
          do err <- do_map asp va pa 1 arch_mmu_flags;
          if err <? NO_ERROR then
            on_pmm (link_tail (CallerList page_list) p) ;; ret (Some err)
          else
            on_pmm (link_tail (CallerList (r_id r)) p) ;;
            map_pages fuel asp r page_list (u64 (va + PAGE_SIZE)) arch_mmu_flags
      end
  end.

Definition vmm_alloc (asp : nat) (mem : option nat) (page_list : nat) (size : Z) (ptr : option Z)
    (align_pow2 vmm_flags arch_mmu_flags : Z) : M (vmm A) (Z * option Z) :=
  let size := ROUNDUP size PAGE_SIZE in
  if size =? 0 then ret (ERR_INVALID_ARGS, ptr)
  else
    let specific := negb (Z.land vmm_flags VMM_FLAG_VALLOC_SPECIFIC =? 0) in
    if specific && bool_decide (ptr = None) then ret (ERR_INVALID_ARGS, ptr)
    else
      let vaddr := if specific then default 0 ptr else 0 in
      on_pmm (list_initialize (CallerList page_list)) ;;
      do count <- on_pmm (pmm_alloc_pages (size / PAGE_SIZE) PMM_ALLOC_FLAG_ANY page_list);
      massert (count <=? size) ;;
      if count <? size / PAGE_SIZE then
        on_pmm (pmm_free page_list) ;; ret (ERR_NO_MEMORY, ptr)
      else
        do r <- alloc_region asp mem size vaddr align_pow2 vmm_flags VMM_REGION_FLAG_PHYSICAL arch_mmu_flags;
        match r with
        | None => on_pmm (pmm_free page_list) ;; ret (ERR_NO_MEMORY, ptr)
        | Some r =>
            massert (IS_PAGE_ALIGNED (r_base r)) ;;
            do q <- gets (fun s => fq (plists (v_pmm s)) (CallerList page_list));
            do err <- map_pages (S (length q)) asp r page_list (r_base r) arch_mmu_flags;
            match err with
            | Some err =>
                undo_region asp r ;;
                on_pmm (pmm_free (r_id r)) ;;
                on_pmm (pmm_free page_list) ;;
                free_mem (RegionMem (r_id r)) ;;
                ret (err, ptr)
            | None => ret (NO_ERROR, (fun _ => r_base r) <$> ptr)
            end
        end.

Definition vmm_free_region (asp : nat) (vaddr : Z) : M (vmm A) Z :=
  do err <- vmm_remove_region_locked asp vaddr;
  match err with
  | inr err => ret err
  | inl r =>
      on_pmm (pmm_free (r_id r)) ;;
      free_mem (RegionMem (r_id r)) ;;
      ret NO_ERROR
  end.

(** [name] is left out; [mem] is the structure, or [None]. *)
Definition vmm_create_aspace (mem : option nat) (flags : Z) : M (vmm A) (Z * option nat) :=
  match mem with
  | None => ret (ERR_NO_MEMORY, None)
  | Some id =>
      let kernel := negb (Z.land flags VMM_ASPACE_FLAG_KERNEL =? 0) in
      let base := if kernel then KERNEL_ASPACE_BASE else USER_ASPACE_BASE in
      let size := if kernel then KERNEL_ASPACE_SIZE else USER_ASPACE_SIZE in
      do s <- gets (fun s => s);
      let '(err, m) := arch_mmu_init_aspace id base size (if kernel then ARCH_ASPACE_FLAG_KERNEL else 0) (v_mmu s) in
      modify (set_mmu m) ;;
      if err <? 0 then free_mem (AspaceMem id) ;; ret (err, None)
      else
        modify (fun s => set_aspaces (<[id := Aspace flags base size []]> (v_aspaces s)) s) ;;
        modify (fun s => set_list (id :: v_list s) s) ;;
        ret (NO_ERROR, Some id)
  end.

Fixpoint unmap_regions (asp : nat) (l : list vmm_region) : M (vmm A) unit :=
  match l with
  | [] => ret tt
  | r :: l => put_regions asp l ;; do_unmap asp (r_base r) (u32 (r_size r / PAGE_SIZE)) ;; unmap_regions asp l
  end.

Fixpoint free_regions (l : list vmm_region) : M (vmm A) unit :=
  match l with
  | [] => ret tt
  | r :: l => on_pmm (pmm_free (r_id r)) ;; free_mem (RegionMem (r_id r)) ;; free_regions l
  end.

Definition vmm_context_switch (newaspace : option nat) : M (vmm A) unit :=
  modify (fun s => set_mmu (arch_mmu_context_switch newaspace (v_mmu s)) s).

Definition vmm_free_aspace (asp : nat) : M (vmm A) Z :=
  do s <- gets (fun s => s);
  if negb (bool_decide (asp ∈ v_list s)) then ret ERR_INVALID_ARGS
  else
    modify (fun s => set_list (filter (fun x => x <> asp) (v_list s)) s) ;;
    do a <- get_aspace asp;
    unmap_regions asp (as_regions a) ;;
    free_regions (as_regions a) ;;
    do cur <- gets v_current;
    when (bool_decide (cur = Some asp)) (modify (set_current None) ;; vmm_context_switch None) ;;
    modify (fun s => set_mmu (arch_mmu_destroy_aspace asp (v_mmu s)) s) ;;
    free_mem (AspaceMem asp) ;;
    modify (fun s => set_aspaces (delete asp (v_aspaces s)) s) ;;
    ret NO_ERROR.

Definition vmm_set_active_aspace (aspace : option nat) : M (vmm A) (option nat) :=
  do old <- gets v_current;
  if bool_decide (aspace = old) then ret aspace
  else
    modify (set_current aspace) ;;
    vmm_context_switch aspace ;;
    ret old.

(** The kernel's address space is the structure [kernel]. *)
Definition vmm_init_preheap (kernel : nat) : M (vmm A) unit :=
  modify (fun s => set_aspaces (<[kernel := Aspace VMM_ASPACE_FLAG_KERNEL KERNEL_ASPACE_BASE KERNEL_ASPACE_SIZE []]> (v_aspaces s)) s) ;;
  do s <- gets (fun s => s);
  modify (set_mmu (snd (arch_mmu_init_aspace kernel KERNEL_ASPACE_BASE KERNEL_ASPACE_SIZE ARCH_ASPACE_FLAG_KERNEL (v_mmu s)))) ;;
  modify (fun s => set_list (kernel :: v_list s) s).
End ops.

(** ** The regions of an address space *)

Definition r_end (r : vmm_region) : Z := r_base r + r_size r.
Definition as_end (a : vmm_aspace) : Z := as_base a + as_size a.

Record region_ok (a : vmm_aspace) (r : vmm_region) : Prop := {
  ro_size : 0 < r_size r;
  ro_inside : as_base a <= r_base r /\ r_end r <= as_end a;
  ro_aligned : (4096 | r_base r) /\ (4096 | r_size r) }.

(** In order of address, one after the other. *)
Definition before (r1 r2 : vmm_region) : Prop := r_end r1 <= r_base r2.

Record aspace_ok (a : vmm_aspace) : Prop := {
  ak_range : 0 <= as_base a /\ 0 < as_size a < 2 ^ 64 /\ as_end a <= 2 ^ 64;
  ak_aligned : (4096 | as_base a) /\ (4096 | as_size a);
  ak_regions : Forall (region_ok a) (as_regions a);
  ak_sorted : StronglySorted before (as_regions a) }.

(** A place for [size] bytes inside the address space and clear of the regions [l]. *)
Record clear (a : vmm_aspace) (l : list vmm_region) (size v : Z) : Prop := {
  cl_inside : as_base a <= v /\ v + size <= as_end a;
  cl_apart : forall x, x ∈ l -> v + size <= r_base x \/ r_end x <= v }.

(** Where a place is in the order of the regions. *)
Definition splits (l l1 l2 : list vmm_region) (v size : Z) : Prop :=
  l = l1 ++ l2 /\ (forall x, x ∈ l1 -> r_end x <= v) /\ (forall x, x ∈ l2 -> v + size <= r_base x).

Section regions.
Implicit Types (a : vmm_aspace) (r x : vmm_region) (l : list vmm_region).

Lemma region_range a r : aspace_ok a -> region_ok a r -> 0 <= r_base r < 2 ^ 64 /\ r_last r = r_end r - 1.
Proof.
  intros [Hr _ _ _] [Hs Hi _]. unfold r_last, r_end, as_end in *. rewrite u64_small; lia.
Qed.

Lemma is_inside_spec a v : aspace_ok a -> is_inside_aspace a v = true <-> as_base a <= v < as_end a.
Proof.
  intros [Hr _ _ _]. unfold is_inside_aspace, as_end in *. rewrite u64_small, andb_true_iff by lia. lia.
Qed.

Lemma is_region_inside_spec a v size : aspace_ok a -> 0 <= v -> 0 < size < 2 ^ 64 ->
  is_region_inside_aspace a v size = true <-> as_base a <= v /\ v + size <= as_end a.
Proof.
  intros Ha Hv Hs. pose proof (is_inside_spec a v Ha) as Hin. destruct Ha as [Hr _ _ _]. unfold is_region_inside_aspace.
  destruct (is_inside_aspace a v); simpl; [|split; [done|intros; apply Hin; lia]].
  apply proj1 in Hin. specialize (Hin eq_refl). rewrite (proj2 (Z.eqb_neq size 0)) by lia. unfold as_end in *.
  rewrite (u64_small (as_base a + as_size a - 1)) by lia.
  destruct (Z.lt_ge_cases (v + size - 1) (2 ^ 64)).
  - rewrite u64_small by lia. destruct (Z.ltb_spec (v + size - 1) v); [lia|].
    destruct (Z.ltb_spec (as_base a + as_size a - 1) (v + size - 1)); split; try done; lia.
  - unfold u64. rewrite <- (Z.mod_add _ (-1)) by lia. rewrite Z.mod_small by lia.
    destruct (Z.ltb_spec (v + size - 1 + -1 * 2 ^ 64) v); [split; [done|lia]|lia].
Qed.

(** A new region between the ones before it and the ones after it. *)
Lemma sorted_splice l1 l2 r : StronglySorted before (l1 ++ l2) -> (forall x, x ∈ l1 -> before x r) -> (forall x, x ∈ l2 -> before r x) ->
  StronglySorted before (l1 ++ r :: l2).
Proof.
  induction l1 as [|y l1 IH]; simpl; intros Hs H1 H2.
  - constructor; [done|]. by apply Forall_forall.
  - apply StronglySorted_inv in Hs as [Hs Hy]. constructor; [apply IH; set_solver|].
    rewrite Forall_forall in *. intros x. rewrite elem_of_app, elem_of_cons. intros [Hx|[->|Hx]]; [|apply H1; set_solver|]; apply Hy; set_solver.
Qed.

Lemma splice_ok a l1 l2 r : aspace_ok a -> as_regions a = l1 ++ l2 -> region_ok a r ->
  (forall x, x ∈ l1 -> before x r) -> (forall x, x ∈ l2 -> before r x) -> aspace_ok (set_regions (l1 ++ r :: l2) a).
Proof.
  intros [Hr Hal Hro Hs] El Hrr H1 H2. rewrite El in Hro, Hs. split; [done|done| |]; simpl.
  - apply Forall_app in Hro as [? ?]. apply Forall_app. split; [|constructor]; try done.
    + eapply Forall_impl; [done|]. intros x [? ? ?]. by split.
    + destruct Hrr. by split.
    + eapply Forall_impl; [done|]. intros x [? ? ?]. by split.
  - by apply sorted_splice.
Qed.

Lemma add_after_none a r l : aspace_ok a -> Forall (region_ok a) l -> (forall x, x ∈ l -> r_base r < r_end x) -> add_after_fit r l = None.
Proof.
  intros Ha. induction l as [|last l IH]; intros Hl Hx; [done|]. apply Forall_cons_1 in Hl as [Hlast Hl]. simpl.
  destruct (region_range a last Ha Hlast) as [_ ->]. specialize (Hx last ltac:(set_solver +)) as H1.
  rewrite (proj2 (Z.ltb_ge _ _)) by lia. rewrite IH; [done|done|set_solver].
Qed.

Definition overlap (x r : vmm_region) : Prop := r_base r < r_end x /\ r_base x < r_end r.

Lemma before_all a x l y : Forall (region_ok a) l -> StronglySorted before (x :: l) -> y ∈ l -> r_end x <= r_base y.
Proof. intros _ [_ Hx]%StronglySorted_inv Hy. rewrite Forall_forall in Hx. by apply Hx. Qed.

Lemma add_after_spec a r l : aspace_ok a -> r_last r = r_end r - 1 -> Forall (region_ok a) l -> StronglySorted before l ->
  (forall x, head l = Some x -> r_base x < r_end r) ->
  match add_after_fit r l with
  | Some l' => exists l1 l2, splits l l1 l2 (r_base r) (r_size r) /\ l' = l1 ++ r :: l2
  | None => l = [] \/ exists x, x ∈ l /\ overlap x r
  end.
Proof.
  intros Ha Hr. induction l as [|last l IH]; intros Hl Hs Hhd; [by left|]. pose proof Hs as [Hs' Hlast]%StronglySorted_inv.
  apply Forall_cons_1 in Hl as [Hok Hl]. specialize (IH Hl Hs'). cbn [add_after_fit]. destruct (region_range a last Ha Hok) as [_ ->].
  specialize (Hhd last eq_refl) as Hh. destruct (Z.ltb_spec (r_end last - 1) (r_base r)) as [Hlt|Hge].
  - destruct l as [|next l'].
    { exists [last], []. split; [|done]. split_and!; [done| |set_solver]. intros x ->%list_elem_of_singleton. lia. }
    rewrite Hr. rewrite Forall_forall in Hlast. destruct (Z.ltb_spec (r_end r - 1) (r_base next)) as [Hn|Hn].
    + exists [last], (next :: l'). split; [|done]. split_and!; [done| |].
      * intros x ->%list_elem_of_singleton. lia.
      * change (r_base r + r_size r) with (r_end r). intros x [->|Hx]%elem_of_cons; [lia|].
        pose proof (before_all a next l' x (Forall_inv_tail Hl) Hs' Hx). pose proof (ro_size a next (Forall_inv Hl)). unfold r_end in *. lia.
    + specialize (IH ltac:(intros x [= <-]; lia)). destruct (add_after_fit r (next :: l')) as [l''|].
      * destruct IH as (l1 & l2 & (E & H1 & H2) & ->). exists (last :: l1), l2. split; [|done]. rewrite E. split_and!; [done| |done].
        intros x [->|Hx]%elem_of_cons; [lia|by apply H1].
      * right. destruct IH as [|(x & Hx & Ho)]; [done|]. exists x. split; [set_solver +Hx|done].
  - rewrite (add_after_none a r l); [|done|done|].
    + right. exists last. split; [set_solver +|]. split; lia.
    + intros x Hx. pose proof (before_all a last l x Hl Hs Hx). pose proof (ro_size a last Hok).
      rewrite Forall_forall in Hl. pose proof (ro_size a x (Hl x Hx)). unfold r_end in *. lia.
Qed.

(** [add_region_to_aspace] puts a region in its place in the order exactly if it is inside the address space
    and clear of all the others. *)
Lemma add_region_spec a r : aspace_ok a -> 0 <= r_base r -> 0 <= r_size r < 2 ^ 64 ->
  match add_region_to_aspace a r with
  | inl l => 0 < r_size r /\ clear a (as_regions a) (r_size r) (r_base r) /\
      exists l1 l2, splits (as_regions a) l1 l2 (r_base r) (r_size r) /\ l = l1 ++ r :: l2
  | inr e => r_size r = 0 \/ ~ clear a (as_regions a) (r_size r) (r_base r)
  end.
Proof.
  intros Ha Hb Hs. unfold add_region_to_aspace. destruct (Z.eqb_spec (r_size r) 0) as [|Hne]; [by left|].
  pose proof (is_region_inside_spec a (r_base r) (r_size r) Ha Hb ltac:(lia)) as Hin.
  destruct (is_region_inside_aspace a (r_base r) (r_size r)); cbn [orb negb]; [|right; intros [Hc _]; naive_solver].
  apply proj1 in Hin. specialize (Hin eq_refl). pose proof (ak_regions a Ha) as Hl. pose proof (ak_sorted a Ha) as Hso.
  assert (r_last r = r_end r - 1) as Hr by (pose proof (ak_range a Ha); unfold r_last, r_end in *; rewrite u64_small; lia).
  assert (forall l1 l2, splits (as_regions a) l1 l2 (r_base r) (r_size r) -> clear a (as_regions a) (r_size r) (r_base r)) as Hclear.
  { intros l1 l2 (E & H1 & H2). split; [done|]. rewrite E. intros x [Hx|Hx]%elem_of_app; [right; by apply H1|left; by apply H2]. }
  destruct (as_regions a) as [|last l] eqn:El.
  { assert (splits [] [] [] (r_base r) (r_size r)) as Hsp by (split_and!; [done|set_solver..]).
    split_and!; [lia|by eapply Hclear|]. exists [], []. done. }
  rewrite Hr. destruct (Z.ltb_spec (r_end r - 1) (r_base last)) as [Hlt|Hge].
  - assert (splits (last :: l) [] (last :: l) (r_base r) (r_size r)) as Hsp.
    { split_and!; [done|set_solver|]. change (r_base r + r_size r) with (r_end r). intros x [->|Hx]%elem_of_cons; [lia|].
      pose proof (before_all a last l x (Forall_inv_tail Hl) Hso Hx). pose proof (ro_size a last (Forall_inv Hl)). unfold r_end in *. lia. }
    split_and!; [lia|by eapply Hclear|]. by eexists [], _.
  - pose proof (add_after_spec a r (last :: l) Ha Hr Hl Hso ltac:(intros x [= <-]; lia)) as Hsp.
    destruct (add_after_fit r (last :: l)) as [l'|].
    + destruct Hsp as (l1 & l2 & Hsp & ->). split_and!; [lia|by eapply Hclear|]. by exists l1, l2.
    + right. intros [_ Hap]. destruct Hsp as [|(x & Hx & Ho1 & Ho2)]; [done|]. specialize (Hap x Hx). unfold r_end in *. lia.
Qed.

(** ** The choice of a spot *)

(** A spot between [lo] and [hi]. *)
Definition fits (k size lo hi v : Z) : Prop := lo <= v /\ v + size <= hi /\ (2 ^ k | v).

Definition gap_lo a (prev : option vmm_region) : Z := match prev with Some p => r_end p | None => as_base a end.
Definition gap_hi a (next : option vmm_region) : Z := match next with Some n => r_base n | None => as_end a end.

(** The lowest spot of a gap, why there is none in it, or why there is none from there on, up to [top]. *)
Definition gap_result (k size lo hi top : Z) (res : option Z) : Prop :=
  match res with
  | Some v => (v = VADDR_NONE /\ forall v', ~ fits k size lo top v') \/
      (fits k size lo hi v /\ v <> VADDR_NONE /\ forall v', fits k size lo hi v' -> v <= v')
  | None => forall v', ~ fits k size lo hi v'
  end.

Lemma aligned_not_none k v : 12 <= k -> (2 ^ k | v) -> v <> VADDR_NONE.
Proof.
  intros Hk Hd ->. pose proof (Z.divide_trans _ _ _ (pow2_divides 12 k ltac:(lia)) Hd) as Hd'.
  apply Z.mod_divide in Hd'; [|lia]. by vm_compute in Hd'.
Qed.

Lemma pick_in_gap_spec k size lo hi top : 12 <= k < 64 -> 0 <= lo < hi -> hi <= top <= 2 ^ 64 -> hi - lo < 2 ^ 64 -> 4096 <= size ->
  gap_result k size lo hi top (pick_in_gap lo (hi - 1) (2 ^ k) size).
Proof.
  intros Hk Hlt Hhi Hw64 Hs. unfold pick_in_gap, arch_mmu_pick_spot, ALIGN.
  destruct (Z.lt_ge_cases (lo + (2 ^ k - 1)) (2 ^ 64)) as [Hw|Hw].
  - destruct (ROUNDUP_spec lo k ltac:(lia) ltac:(lia) Hw) as [Hd Hb].
    assert (forall v', fits k size lo hi v' -> ROUNDUP lo (2 ^ k) <= v') as Hmin.
    { intros v' (H1 & H2 & H3). by apply ROUNDUP_least; [lia|lia|..]. }
    set (v := ROUNDUP lo (2 ^ k)) in *. rewrite (proj2 (Z.ltb_ge v lo)) by lia.
    destruct (Z.ltb_spec v (hi - 1)) as [Hv|Hv]; cbn [andb].
    + rewrite u64_small by lia. destruct (Z.leb_spec size (hi - 1 - v + 1)).
      * right. split_and!; [split_and!; [lia|lia|done]|apply (aligned_not_none k); [lia|done]|done].
      * intros v' Hf. pose proof (Hmin v' Hf). destruct Hf as (? & ? & _). lia.
    + intros v' Hf. pose proof (Hmin v' Hf). destruct Hf as (? & ? & _). lia.
  - rewrite (ROUNDUP_wraps lo k) by lia. pose proof (pow2_bound k ltac:(lia)). rewrite (proj2 (Z.ltb_lt 0 lo)) by lia.
    left. split; [done|]. intros v' (H1 & H2 & H3). apply (no_multiple_above lo k v'); [lia|done|lia|done].
Qed.

Lemma check_gap_spec a prev next k size : aspace_ok a -> 12 <= k < 64 -> 4096 <= size ->
  (forall p, prev = Some p -> region_ok a p) -> (forall n, next = Some n -> region_ok a n) -> gap_lo a prev <= gap_hi a next ->
  gap_result k size (gap_lo a prev) (gap_hi a next) (as_end a) (check_gap a prev next (2 ^ k) size).
Proof.
  intros Ha Hk Hs Hp Hn Hle. pose proof (ak_range a Ha) as Hr.
  assert (as_base a <= gap_lo a prev <= as_end a) as Hlo.
  { destruct prev as [p|]; simpl; [destruct (Hp p eq_refl) as [? [? ?] ?]|]; unfold r_end, as_end in *; lia. }
  assert (gap_hi a next <= as_end a) as Hhi.
  { destruct next as [n|]; simpl; [destruct (Hn n eq_refl) as [? [? ?] ?]|]; unfold r_end, as_end in *; lia. }
  assert (gap_lo a prev < 2 ^ 64 -> match prev with Some p => u64 (r_base p + r_size p) | None => as_base a end = gap_lo a prev) as Elo.
  { destruct prev as [p|]; [|done]. simpl in *. unfold r_end in *. intros. apply u64_small. lia. }
  unfold as_end in *. unfold check_gap. destruct next as [n|]; cbn [gap_hi] in *.
  - destruct (region_range a n Ha (Hn n eq_refl)) as [Hb _]. rewrite Elo by lia. destruct (Z.eqb_spec (gap_lo a prev) (r_base n)) as [E|E].
    + intros v' (H1 & H2 & _). lia.
    + rewrite (u64_small (r_base n - 1)) by lia. apply pick_in_gap_spec; lia.
  - destruct (Z.eq_dec (gap_lo a prev) (as_base a + as_size a)) as [E|E].
    + destruct prev as [p|]; simpl in *; [|lia]. unfold r_end in E. rewrite E, Z.eqb_refl.
      left. split; [done|]. intros v' (H1 & H2 & _). unfold r_end in H1. lia.
    + rewrite Elo by (unfold as_end in *; lia). destruct (Z.eqb_spec (gap_lo a prev) (u64 (as_base a + as_size a))) as [E'|E'].
      * exfalso. destruct (Z.lt_ge_cases (as_base a + as_size a) (2 ^ 64)); [rewrite u64_small in E' by lia; lia|].
        assert (as_base a + as_size a = 2 ^ 64) as E2 by (unfold as_end in *; lia). rewrite E2 in E'. change (u64 (2 ^ 64)) with 0 in E'. lia.
      * rewrite u64_small by (unfold as_end in *; lia). apply pick_in_gap_spec; unfold as_end in *; lia.
Qed.

(** A spot at or above [lo], clear of the regions [l] that come after. *)
Record spot_from a (k size lo : Z) l (v : Z) : Prop := {
  sf_range : lo <= v /\ v + size <= as_end a;
  sf_aligned : (2 ^ k | v);
  sf_apart : forall x, x ∈ l -> v + size <= r_base x \/ r_end x <= v }.

(** The lowest such spot, with how many of the regions [l] are before it, or that there is none. *)
Definition spot_result a (k size lo : Z) l (v : Z) (m : nat) : Prop :=
  (v = VADDR_NONE /\ forall v', ~ spot_from a k size lo l v') \/
  (v <> VADDR_NONE /\ spot_from a k size lo l v /\ (forall v', spot_from a k size lo l v' -> v <= v') /\
     splits l (take m l) (drop m l) v size /\ (m <= length l)%nat).

Lemma spot_gap a k size lo l v : Forall (region_ok a) l -> StronglySorted before l ->
  fits k size lo (gap_hi a (head l)) v -> spot_from a k size lo l v /\ splits l (take 0 l) (drop 0 l) v size.
Proof.
  intros Hl Hs (H1 & H2 & H3).
  assert (forall x, x ∈ l -> v + size <= r_base x) as Hx.
  { destruct l as [|y l]; [set_solver|]. simpl in H2. intros x [->|Hx]%elem_of_cons; [done|].
    pose proof (before_all a y l x (Forall_inv_tail Hl) Hs Hx). pose proof (ro_size a y (Forall_inv Hl)). unfold r_end in *. lia. }
  split; [|split_and!; [done|set_solver|done]]. split; [|done|naive_solver]. split; [done|].
  destruct l as [|y l]; simpl in H2; [done|]. pose proof (ro_inside a y (Forall_inv Hl)) as [_ ?]. pose proof (ro_size a y (Forall_inv Hl)).
  unfold r_end in *. lia.
Qed.

(** A spot is in the first gap or after the first region. *)
Lemma spot_cases a k size lo l v : spot_from a k size lo l v ->
  fits k size lo (gap_hi a (head l)) v \/ exists r l', l = r :: l' /\ spot_from a k size (r_end r) l' v.
Proof.
  intros [H1 H2 H3]. destruct l as [|r l]; [left; simpl; unfold fits; naive_solver|].
  destruct (H3 r ltac:(set_solver +)) as [Hx|Hx]; [left; unfold fits; simpl; naive_solver|].
  right. exists r, l. split; [done|]. split; [lia|done|]. set_solver.
Qed.

(** One gap: done, or on to the next region. *)
Lemma gap_step a k size lo l res : 0 < size -> Forall (region_ok a) l -> StronglySorted before l ->
  gap_result k size lo (gap_hi a (head l)) (as_end a) res ->
  match res with
  | Some v => spot_result a k size lo l v 0
  | None => forall v, spot_from a k size lo l v -> exists r l', l = r :: l' /\ spot_from a k size (r_end r) l' v
  end.
Proof.
  intros Hsz Hl Hs Hres. destruct res as [v|].
  - destruct Hres as [[-> Hno]|(Hf & Hne & Hmin)].
    + left. split; [done|]. intros v' [? ? _]. apply (Hno v'). unfold fits. naive_solver.
    + right. destruct (spot_gap a k size lo l v Hl Hs Hf) as [Hsp Hspl]. split_and!; [done|done| |done|lia].
      intros v' Hv'. destruct (spot_cases a k size lo l v' Hv') as [Hf'|(r & l' & -> & Hv2)]; [by apply Hmin|].
      destruct Hv2 as [[? _] _ _]. destruct Hf as (_ & Hf & _). simpl in Hf. pose proof (ro_size a r (Forall_inv Hl)). unfold r_end in *. lia.
  - intros v Hv. destruct (spot_cases a k size lo l v Hv) as [Hf'|]; [by destruct (Hres v)|done].
Qed.

(** Adding a region in front of the regions that come after. *)
Lemma spot_result_cons a k size lo r l v m : 0 < size -> region_ok a r -> lo <= r_base r ->
  (forall v', spot_from a k size lo (r :: l) v' -> spot_from a k size (r_end r) l v') ->
  spot_result a k size (r_end r) l v m -> spot_result a k size lo (r :: l) v (S m).
Proof.
  intros Hsz Hr Hlo Hgo [[-> Hno]|(Hne & Hv & Hmin & (E & H1 & H2) & Hm)]; [left; split; [done|naive_solver]|].
  right. pose proof (ro_size a r Hr). destruct Hv as [Hv1 Hv2 Hv3]. split_and!; [done| |naive_solver| |simpl; lia].
  - split; [unfold r_end in *; lia|done|]. intros x [->|Hx]%elem_of_cons; [right; lia|by apply Hv3].
  - cbn [take drop]. split_and!; [by rewrite <- app_comm_cons, <- E| |done]. intros x [->|Hx]%elem_of_cons; [lia|by apply H1].
Qed.

Lemma alloc_spot_in_spec a k size l : aspace_ok a -> 12 <= k < 64 -> 4096 <= size -> forall r n,
  Forall (region_ok a) (r :: l) -> StronglySorted before (r :: l) ->
  match alloc_spot_in a (2 ^ k) size n (r :: l) with
  | Some (v, m) => exists m', m = (S n + m')%nat /\ spot_result a k size (r_end r) l v m'
  | None => forall v, ~ spot_from a k size (r_end r) l v
  end.
Proof.
  intros Ha Hk Hsz. induction l as [|r2 l IH]; intros r n Hl Hs; pose proof (Forall_inv Hl) as Hr; pose proof (Forall_inv_tail Hl) as Hl';
    pose proof Hs as [Hs' Hb]%StronglySorted_inv; destruct (region_range a r Ha Hr) as [_ _]; pose proof (ro_inside a r Hr) as Hin; cbn [alloc_spot_in].
  - pose proof (gap_step a k size (r_end r) [] _ ltac:(lia) Hl' Hs'
      (check_gap_spec a (Some r) None k size Ha Hk Hsz ltac:(by intros p [= <-]) ltac:(done) ltac:(simpl; lia))) as Hg.
    cbn [head]. destruct (check_gap a (Some r) None (2 ^ k) size) as [v|]; [exists 0%nat; split; [lia|done]|].
    intros v Hv. by destruct (Hg v Hv) as (? & ? & ? & _).
  - rewrite Forall_forall in Hb. pose proof (Hb r2 ltac:(set_solver +)) as Hr2. cbn [head].
    pose proof (gap_step a k size (r_end r) (r2 :: l) _ ltac:(lia) Hl' Hs'
      (check_gap_spec a (Some r) (Some r2) k size Ha Hk Hsz ltac:(by intros p [= <-]) ltac:(intros p [= <-]; apply (Forall_inv Hl')) Hr2)) as Hg.
    destruct (check_gap a (Some r) (Some r2) (2 ^ k) size) as [v|]; [exists 0%nat; split; [lia|done]|].
    assert (forall v', spot_from a k size (r_end r) (r2 :: l) v' -> spot_from a k size (r_end r2) l v') as Hgo.
    { intros v' Hv'. by destruct (Hg v' Hv') as (? & ? & [= <- <-] & ?). }
    specialize (IH r2 (S n) Hl' Hs'). change (match l with [] => None | x :: _ => Some x end) with (head l) in *.
    cbn [alloc_spot_in] in IH. destruct (check_gap a (Some r2) (head l) (2 ^ k) size) as [v|].
    + destruct IH as (m' & E & IH). exists (S m'). split; [lia|]. by apply spot_result_cons; [lia|apply (Forall_inv Hl')|..].
    + destruct (alloc_spot_in a (2 ^ k) size (S (S n)) l) as [[v m]|]; [|naive_solver].
      destruct IH as (m' & -> & IH). exists (S m'). split; [lia|]. by apply spot_result_cons; [lia|apply (Forall_inv Hl')|..].
Qed.

(** [alloc_spot] is first fit: it returns the lowest multiple of the alignment at which the region is inside
    the address space and clear of the others, with the number of regions before it, or says that there is none. *)
Lemma alloc_spot_spec a size align : aspace_ok a -> 0 <= align < 64 -> 0 < size < 2 ^ 64 -> (4096 | size) ->
  exists v m, alloc_spot a size align = Some (v, m) /\
    ((v = VADDR_NONE /\ forall v', ~ spot_from a (Z.max align 12) size (as_base a) (as_regions a) v') \/
     (exists n, m = Some n /\ spot_result a (Z.max align 12) size (as_base a) (as_regions a) v n /\ v <> VADDR_NONE)).
Proof.
  intros Ha Hal Hsz Hd. unfold alloc_spot. rewrite (proj2 (Z.ltb_lt 0 size)) by lia. rewrite (proj2 (IS_PAGE_ALIGNED_spec size)) by done.
  cbn [andb]. change PAGE_SIZE_SHIFT with 12. rewrite Z.shiftl_1_l.
  replace (if align <? 12 then 12 else align) with (Z.max align 12) by (destruct (Z.ltb_spec align 12); lia).
  set (k := Z.max align 12). assert (12 <= k < 64) as Hk by lia.
  assert (4096 <= size) as Hs by (destruct Hd as [m Hm]; lia).
  pose proof (ak_range a Ha) as Hr. pose proof (ak_regions a Ha) as Hl. pose proof (ak_sorted a Ha) as Hso.
  assert (gap_lo a None <= gap_hi a (head (as_regions a)) /\ forall n, head (as_regions a) = Some n -> region_ok a n) as [Hle Hok].
  { destruct (as_regions a) as [|r l]; simpl; [unfold as_end; split; [lia|done]|]. pose proof (Forall_inv Hl) as Hr1. split; [apply Hr1|by intros n [= <-]]. }
  pose proof (gap_step a k size (as_base a) (as_regions a) _ ltac:(lia) Hl Hso
    (check_gap_spec a None (head (as_regions a)) k size Ha Hk Hs ltac:(done) Hok Hle)) as Hg.
  destruct (check_gap a None (head (as_regions a)) (2 ^ k) size) as [v|].
  { exists v, (Some 0%nat). split; [done|]. destruct Hg as [Hg|Hg]; [by left|]. right. exists 0%nat. split_and!; [done|by right|apply Hg]. }
  destruct (as_regions a) as [|r l] eqn:El.
  { exists VADDR_NONE, None. split; [done|]. left. split; [done|]. intros v' Hv'. by destruct (Hg v' Hv') as (? & ? & ? & _). }
  assert (forall v', spot_from a k size (as_base a) (r :: l) v' -> spot_from a k size (r_end r) l v') as Hgo.
  { intros v' Hv'. by destruct (Hg v' Hv') as (? & ? & [= <- <-] & ?). }
  pose proof (alloc_spot_in_spec a k size l Ha Hk Hs r 0 Hl Hso) as Hin.
  destruct (alloc_spot_in a (2 ^ k) size 0 (r :: l)) as [[v m]|]; [|exists VADDR_NONE, None; split; [done|left; naive_solver]].
  destruct Hin as (m' & -> & Hin). exists v, (Some (S m')). split; [done|].
  pose proof (spot_result_cons a k size (as_base a) r l v m' ltac:(lia) (Forall_inv Hl) ltac:(apply (Forall_inv Hl)) Hgo Hin) as Hres.
  destruct Hres as [Hres|Hres]; [by left|]. right. exists (S m'). split_and!; [done|by right|apply Hres].
Qed.
End regions.
