(* ===== verification/VmmSpec.v ===== *)
(** * The promises of the address spaces

    Every call of [vm/vmm.c] returns and keeps the regions in order, inside their address space
    and apart; a new region gets the lowest spot there is; an allocation maps the pages
    it took, and one that fails gives everything back. *)

From stdpp Require Import base gmap list numbers sorting.
From S2P Require Import Prelude ListNode Align Pmm PmmSpec Vmm.
Import Family.

(** What [arch/mmu.h] documents of mapping: a range that was mapped is found, and nothing else has moved. *)
Class MmuLaws (A : Type) `{Mmu A} := {
  mmu_map_ok : forall asp va pa n fl m err m', arch_mmu_map asp va pa n fl m = (err, m') -> 0 <= err ->
    (forall i, 0 <= i < n -> fst <$> arch_mmu_query asp (va + i * 4096) m' = Some (pa + i * 4096)) /\
    (forall as' va', as' <> asp \/ va' < va \/ va + n * 4096 <= va' -> arch_mmu_query as' va' m' = arch_mmu_query as' va' m) }.

Section vmm.
Context {A : Type} {MA : Mmu A} {LA : MmuLaws A}.
Implicit Types (s : vmm A) (a : vmm_aspace) (r : vmm_region) (asp : nat).

(** ** The invariant *)

Record vinv s : Prop := {
  vi_pmm : pinv (v_pmm s);
  vi_aspace : forall asp a, v_aspaces s !! asp = Some a -> aspace_ok a /\ NoDup (r_id <$> as_regions a);
  vi_apart : forall as1 as2 a1 a2 x y, v_aspaces s !! as1 = Some a1 -> v_aspaces s !! as2 = Some a2 -> as1 <> as2 ->
    x ∈ as_regions a1 -> y ∈ as_regions a2 -> r_id x <> r_id y;
  vi_list : NoDup (v_list s) /\ forall asp, asp ∈ v_list s <-> is_Some (v_aspaces s !! asp) }.

(** A structure no region has. *)
Definition unused s (id : nat) : Prop := forall asp a x, v_aspaces s !! asp = Some a -> x ∈ as_regions a -> r_id x <> id.

Definition fresh s (mem : option nat) : Prop :=
  forall id, mem = Some id -> unused s id /\ fq (plists (v_pmm s)) (CallerList id) = [].

Lemma on_pmm_wp {X} (m : M pmm X) Q s : wp m (fun x p => Q x (set_vpmm p s)) (v_pmm s) -> wp (on_pmm m) Q s.
Proof. unfold wp, on_pmm. by destruct (m (v_pmm s)). Qed.

Lemma get_aspace_wp asp a Q s : v_aspaces s !! asp = Some a -> Q a s -> wp (get_aspace asp) Q s.
Proof. intros E HQ. unfold get_aspace. repeat wp_step; [exact E|done]. Qed.

(** ** Putting a region in and taking it out *)

(** The state with region [r] put between [l1] and [l2]. *)
Record put_in s asp a r l1 l2 s' : Prop := {
  pu_state : s' = set_aspaces (alter (set_regions (l1 ++ r :: l2)) asp (v_aspaces s)) s;
  pu_split : splits (as_regions a) l1 l2 (r_base r) (r_size r);
  pu_region : region_ok a r;
  pu_ok : aspace_ok (set_regions (l1 ++ r :: l2) a) }.

Lemma put_in_intro s asp a r l1 l2 : aspace_ok a -> splits (as_regions a) l1 l2 (r_base r) (r_size r) -> region_ok a r ->
  put_in s asp a r l1 l2 (set_aspaces (alter (set_regions (l1 ++ r :: l2)) asp (v_aspaces s)) s).
Proof.
  intros Ha Hsp Hr. split; [done..|]. destruct Hsp as (E & H1 & H2). apply splice_ok; [done..| |]; done.
Qed.

Definition specific (vmm_flags : Z) : bool := negb (Z.land vmm_flags VMM_FLAG_VALLOC_SPECIFIC =? 0).

(** A region is where it was asked for, or at the lowest spot there is. *)
Definition placed a (align fl size v base : Z) : Prop :=
  if specific fl then base = v
  else spot_from a (Z.max align 12) size (as_base a) (as_regions a) base /\
       forall v, spot_from a (Z.max align 12) size (as_base a) (as_regions a) v -> base <= v.

Definition no_place a (align fl size v : Z) : Prop :=
  if specific fl then ~ clear a (as_regions a) size v
  else forall v, ~ spot_from a (Z.max align 12) size (as_base a) (as_regions a) v.

(** The outcome of [alloc_region]: a region that is new and where it was asked for, or at the lowest spot there is; or
    nothing has changed, with no memory or no place. *)
Lemma alloc_region_wp asp mem size vaddr align fl rfl mfl s a : vinv s -> v_aspaces s !! asp = Some a ->
  0 < size < 2 ^ 64 -> (4096 | size) -> 0 <= vaddr -> (4096 | vaddr) -> 0 <= align < 64 ->
  wp (alloc_region asp mem size vaddr align fl rfl mfl) (fun res s' =>
    match res with
    | None => exists fr, s' = set_freed fr s /\
        (mem = None \/ no_place a align fl size vaddr)
    | Some r => mem = Some (r_id r) /\ r_size r = size /\ (exists l1 l2, put_in s asp a r l1 l2 s') /\
        placed a align fl size vaddr (r_base r)
    end) s.
Proof.
  intros Hi Ha Hsz Hd Hv Hvd Hal. destruct (vi_aspace s Hi asp a Ha) as [Hok _]. unfold alloc_region.
  destruct mem as [id|]; simpl; [|wp_step; exists (v_freed s); split; [by destruct s|by left]].
  wp_step. apply (get_aspace_wp asp a); [done|]. unfold placed, no_place. fold (specific fl). destruct (specific fl).
  - set (r := Region id rfl mfl vaddr size). pose proof (add_region_spec a r Hok Hv ltac:(simpl; lia)) as Hadd.
    destruct (add_region_to_aspace a r) as [l|e].
    + destruct Hadd as (_ & [Hc _] & l1 & l2 & Hsp & ->). unfold put_regions. do 3 wp_step. split_and!; [done|done| |done].
      exists l1, l2. apply put_in_intro; [done..|]. split; [simpl; lia| |done]. simpl in Hc. unfold r_end. simpl. lia.
    + unfold free_mem. do 3 wp_step. eexists. split; [done|]. right. destruct Hadd as [Hadd|Hadd]; [simpl in Hadd; lia|done].
  - destruct (alloc_spot_spec a size align Hok Hal Hsz Hd) as (v & m & -> & [[-> Hno]|(n & -> & Hres & Hne)]).
    + rewrite Z.eqb_refl. unfold free_mem. do 3 wp_step. eexists. split; [done|]. by right.
    + rewrite (proj2 (Z.eqb_neq v VADDR_NONE)) by done. unfold put_regions. do 4 wp_step. simpl.
      destruct Hres as [[? _]|(_ & Hspot & Hmin & Hsp & Hn)]; [done|]. split_and!; [done|done| |done|done].
      exists (take n (as_regions a)), (drop n (as_regions a)). apply put_in_intro; [done..|].
      destruct Hspot as [Hr Hda _]. split; [simpl; lia| |].
      * unfold r_end. simpl. done.
      * split; [|done]. simpl. eapply Z.divide_trans; [|exact Hda]. apply (pow2_divides 12); lia.
Qed.

Lemma put_in_lookup s asp a r l1 l2 s' : v_aspaces s !! asp = Some a -> put_in s asp a r l1 l2 s' ->
  v_aspaces s' !! asp = Some (set_regions (l1 ++ r :: l2) a) /\ forall asp', asp' <> asp -> v_aspaces s' !! asp' = v_aspaces s !! asp'.
Proof.
  intros Ha [-> _ _ _]. simpl. split; [by rewrite lookup_alter_eq, Ha|]. intros asp' Hne. by rewrite lookup_alter_ne.
Qed.

(** Changing the regions of one address space. *)
Lemma vinv_regions s asp a l : vinv s -> v_aspaces s !! asp = Some a -> aspace_ok (set_regions l a) -> NoDup (r_id <$> l) ->
  (forall x, x ∈ l -> x ∈ as_regions a \/ unused s (r_id x)) ->
  vinv (set_aspaces (alter (set_regions l) asp (v_aspaces s)) s).
Proof.
  intros Hi Ha Hok Hnd Hl.
  assert (forall asp' a', alter (set_regions l) asp (v_aspaces s) !! asp' = Some a' ->
    (asp' = asp /\ a' = set_regions l a) \/ (asp' <> asp /\ v_aspaces s !! asp' = Some a')) as Hlk.
  { intros asp' a'. destruct (decide (asp = asp')) as [<-|]; [rewrite lookup_alter_eq, Ha|rewrite lookup_alter_ne by done]; naive_solver. }
  split; cbn [v_pmm v_aspaces v_list set_aspaces].
  - apply Hi.
  - intros asp' a' [[-> ->]|[_ Ha']]%Hlk; [done|by apply (vi_aspace s Hi asp')].
  - intros as1 as2 a1 a2 x y [[-> ->]|[_ L1]]%Hlk [[-> ->]|[_ L2]]%Hlk Hne Hx Hy; [done|..].
    + destruct (Hl x Hx) as [Hx'|Hx']; [by eapply (vi_apart s Hi asp as2)|]. intros E. by apply (Hx' as2 a2 y).
    + destruct (Hl y Hy) as [Hy'|Hy']; [by eapply (vi_apart s Hi as1 asp)|]. by apply (Hy' as1 a1 x).
    + by eapply (vi_apart s Hi as1 as2).
  - split; [apply Hi|]. intros asp'. rewrite (proj2 (vi_list s Hi)), lookup_alter_is_Some. done.
Qed.

Lemma put_in_vinv s asp a r l1 l2 s' : vinv s -> v_aspaces s !! asp = Some a -> put_in s asp a r l1 l2 s' -> unused s (r_id r) -> vinv s'.
Proof.
  intros Hi Ha [-> (E & _) _ Hok] Hun. destruct (vi_aspace s Hi asp a Ha) as [_ Hnd]. rewrite E in Hnd.
  apply vinv_regions with a; [done..| |].
  - rewrite fmap_app, fmap_cons, <- Permutation_middle. constructor; [|by rewrite <- fmap_app].
    rewrite <- fmap_app. intros (x & Ex & Hx)%list_elem_of_fmap. symmetry in Ex. revert Ex. by apply (Hun asp a); [|rewrite E].
  - intros x. rewrite E, !elem_of_app, elem_of_cons. intros [?|[->|?]]; [left; by left|by right|left; by right].
Qed.

Lemma aspace_ok_remove a l1 r l2 : aspace_ok a -> as_regions a = l1 ++ r :: l2 -> aspace_ok (set_regions (l1 ++ l2) a).
Proof.
  intros [Hr Hal Hl Hs] E. rewrite E in Hl, Hs. split; [done..| |]; simpl.
  - apply Forall_app in Hl as [H1 H2]. apply Forall_cons_1 in H2 as [_ H2]. apply Forall_app.
    split; (eapply Forall_impl; [done|]); intros x [? ? ?]; by split.
  - clear -Hs. induction l1 as [|x l1 IH]; simpl in *; [by apply StronglySorted_inv in Hs as [? _]|].
    apply StronglySorted_inv in Hs as [Hs Hx]. constructor; [by apply IH|]. rewrite Forall_forall in *. intros y Hy. apply Hx. set_solver.
Qed.

(** The regions are apart: at most one holds an address. *)
Lemma find_region_unique a l1 r l2 v : aspace_ok a -> as_regions a = l1 ++ r :: l2 -> r_base r <= v < r_end r -> vmm_find_region a v = Some r.
Proof.
  intros Ha E Hv. unfold vmm_find_region. pose proof (ak_regions a Ha) as Hl. pose proof (ak_sorted a Ha) as Hs. rewrite E in *.
  rewrite Forall_forall in Hl.
  assert (list_find (fun x => (r_base x <=? v) && (v <=? r_last x) = true) (l1 ++ r :: l2) = Some (length l1, r)) as ->; [|done].
  apply list_find_Some. split_and!.
  - by apply list_lookup_middle.
  - destruct (region_range a r Ha (Hl r ltac:(set_solver +))) as [_ ->]. apply andb_true_iff. lia.
  - intros j y Hy Hj. rewrite lookup_app_l in Hy by done. apply list_elem_of_lookup_2 in Hy.
    destruct (region_range a y Ha (Hl y ltac:(set_solver +Hy))) as [_ ->]. intros [? ?]%andb_true_iff.
    assert (before y r); [|unfold before, r_end in *; lia].
    apply list_elem_of_split in Hy as (l3 & l4 & ->). clear -Hs. rewrite <- app_assoc in Hs.
    induction l3 as [|z l3 IH]; simpl in Hs; apply StronglySorted_inv in Hs as [Hs Hf]; [|by apply IH].
    rewrite Forall_forall in Hf. apply Hf. set_solver.
Qed.

Lemma filter_id_remove l1 r l2 : NoDup (r_id <$> l1 ++ r :: l2) -> filter (fun x => r_id x <> r_id r) (l1 ++ r :: l2) = l1 ++ l2.
Proof.
  intros Hnd. rewrite fmap_app, fmap_cons in Hnd. apply NoDup_app in Hnd as (_ & H1 & [H2 _]%NoDup_cons).
  rewrite filter_app, filter_cons_False by naive_solver. rewrite !filter_id; [done|..].
  - intros x Hx E. apply H2. rewrite <- E. apply list_elem_of_fmap. by exists x.
  - intros x Hx E. apply (H1 (r_id x)); [apply list_elem_of_fmap; by exists x|]. rewrite E. set_solver.
Qed.

Lemma remove_region_wp asp vaddr s a : v_aspaces s !! asp = Some a -> aspace_ok a -> NoDup (r_id <$> as_regions a) ->
  wp (vmm_remove_region_locked asp vaddr) (fun res s' =>
    match res with
    | inl r => exists l1 l2, as_regions a = l1 ++ r :: l2 /\ r_base r <= vaddr < r_end r /\
        s' = set_mmu (arch_mmu_unmap asp (r_base r) (u32 (r_size r / PAGE_SIZE)) (v_mmu s))
               (set_aspaces (alter (set_regions (l1 ++ l2)) asp (v_aspaces s)) s)
    | inr e => e = ERR_NOT_FOUND /\ s' = s /\ forall r, r ∈ as_regions a -> ~ r_base r <= vaddr < r_end r
    end) s.
Proof.
  intros Ha Hok Hnd. unfold vmm_remove_region_locked. wp_step. apply (get_aspace_wp asp a); [done|].
  destruct (vmm_find_region a vaddr) as [r|] eqn:Ef.
  - unfold vmm_find_region in Ef. apply bind_Some in Ef as ([i x] & Ef & [= ->]). apply list_find_Some in Ef as (Hi & Hc & _).
    pose proof (list_elem_of_lookup_2 _ _ _ Hi) as Hr. pose proof (ak_regions a Hok) as Hl. rewrite Forall_forall in Hl.
    destruct (region_range a r Hok (Hl r Hr)) as [_ El]. rewrite El in Hc. apply andb_true_iff in Hc.
    apply list_elem_of_split in Hr as (l1 & l2 & E). unfold put_regions, do_unmap. do 5 wp_step. exists l1, l2.
    split_and!; [done|lia|lia|]. rewrite E in *. by rewrite filter_id_remove.
  - wp_step. split_and!; [done..|]. intros r Hr Hv. apply list_elem_of_split in Hr as (l1 & l2 & E).
    by rewrite (find_region_unique a l1 r l2 vaddr Hok E Hv) in Ef.
Qed.

(** Taking the region that was just put in out again. *)
Lemma undo_region_wp asp a r l1 l2 s : v_aspaces s !! asp = Some (set_regions (l1 ++ r :: l2) a) ->
  aspace_ok (set_regions (l1 ++ r :: l2) a) -> NoDup (r_id <$> l1 ++ r :: l2) -> region_ok a r ->
  wp (undo_region asp r) (fun _ s' => exists m, s' = set_mmu m (set_aspaces (alter (set_regions (l1 ++ l2)) asp (v_aspaces s)) s)) s.
Proof.
  intros Ha Hok Hnd Hr. unfold undo_region. wp_step. eapply wp_mono; [by apply (remove_region_wp asp (r_base r) s _ Ha)|].
  intros [r'|e] s' Hres; cbv iota.
  - destruct Hres as (l1' & l2' & E & Hv & ->). simpl in E.
    assert (vmm_find_region (set_regions (l1 ++ r :: l2) a) (r_base r) = Some r) as F1.
    { apply (find_region_unique _ l1 r l2); [done|done|]. pose proof (ro_size a r Hr). unfold r_end. lia. }
    rewrite (find_region_unique (set_regions (l1 ++ r :: l2) a) l1' r' l2' (r_base r) Hok E Hv) in F1. injection F1 as ->.
    wp_step; [by rewrite Nat.eqb_refl|]. eexists. rewrite <- (filter_id_remove l1' r l2') by (by rewrite <- E). rewrite <- E.
    by rewrite filter_id_remove.
  - destruct Hres as (_ & _ & Hno). apply (Hno r); [simpl; set_solver +|]. pose proof (ro_size a r Hr). unfold r_end. lia.
Qed.

(** ** The pages of a region *)

(** Only the lists of callers have changed. *)
Record relisted (p p' : pmm) : Prop := {
  rl_arenas : arenas p' = arenas p;
  rl_pages : pages p' = pages p;
  rl_order : arena_list p' = arena_list p;
  rl_free : forall id, fq (plists p') (FreeList id) = fq (plists p) (FreeList id) }.

Lemma relisted_refl p : relisted p p.
Proof. done. Qed.

Lemma relisted_trans p1 p2 p3 : relisted p1 p2 -> relisted p2 p3 -> relisted p1 p3.
Proof. intros [A1 A2 A3 A4] [B1 B2 B3 B4]. split; [congruence..|]. intros id. by rewrite B4, A4. Qed.

(** The page at the head of a list goes to the tail of a list. *)
Lemma page_moved pm from to p q : pinv pm -> fq (plists pm) (CallerList from) = p :: q ->
  let pm' := set_plists (add_tail (CallerList to) p (del p (plists pm))) pm in
  pinv pm' /\ relisted pm pm' /\
  forall l, fq (plists pm') (CallerList l) =
    (if decide (l = from) then q else fq (plists pm) (CallerList l)) ++ (if decide (l = to) then [p] else []).
Proof.
  intros Hi Eq pm'. assert (p ∈ fq (plists pm) (CallerList from)) as Hp by (rewrite Eq; set_solver +).
  destruct (pi_used pm Hi from p Hp) as (id & b & st & Hb & Hin & Hst & Hne).
  assert (forall k, k <> CallerList from -> p ∉ fq (plists pm) k) as Hnot.
  { intros k Hk Hp'. apply Hk. by apply (wf_one _ (pi_wf pm Hi) k (CallerList from) p). }
  split; [|split].
  - apply (pinv_link_tail (set_plists (del p (plists pm)) pm) to id b p st); try done; [by apply (pinv_unlink pm from)|apply in_list_del].
  - split; [done..|]. intros id'. simpl. rewrite fq_add_tail, decide_False, fq_del_other; [done|by apply Hnot|done].
  - intros l. simpl. rewrite fq_add_tail. assert (fq (del p (plists pm)) (CallerList l) = if decide (l = from) then q else fq (plists pm) (CallerList l)) as ->.
    { destruct (decide (l = from)) as [->|]; [apply (fq_del_mid _ p _ [] q); [apply Hi|done]|]. apply fq_del_other, Hnot. congruence. }
    destruct (decide (l = to)) as [->|]; [by rewrite decide_True|]. rewrite decide_False, app_nil_r by congruence. done.
Qed.

Lemma move_pages_wp from to q : forall fuel pm, pinv pm -> from <> to -> fq (plists pm) (CallerList from) = q -> (length q < fuel)%nat ->
  wp (move_pages fuel from to) (fun _ pm' => pinv pm' /\ relisted pm pm' /\ fq (plists pm') (CallerList from) = [] /\
    fq (plists pm') (CallerList to) = fq (plists pm) (CallerList to) ++ q) pm.
Proof.
  induction q as [|p q IH]; intros fuel pm Hi Hne Eq Hf; (destruct fuel as [|fuel]; [simpl in Hf; lia|]); cbn [move_pages]; wp_step.
  - apply remove_head_nil; [done|]. wp_step. split_and!; [done|apply relisted_refl|done|by rewrite app_nil_r].
  - apply (remove_head_cons _ p q); [done|]. cbv iota. wp_step. apply link_tail_wp; [apply in_list_del|].
    destruct (page_moved pm from to p q Hi Eq) as (Hi' & Hrl & Hq). cbn [plists set_plists].
    match goal with |- wp _ _ ?x => change x with (set_plists (add_tail (CallerList to) p (del p (plists pm))) pm) end. set (pm' := set_plists _ pm) in *.
    pose proof (Hq from) as Hfrom. rewrite decide_True, decide_False, app_nil_r in Hfrom by done.
    pose proof (Hq to) as Hto. rewrite decide_False, decide_True in Hto by done.
    eapply wp_mono; [apply (IH fuel pm'); [done|done|done|simpl in Hf; lia]|]. intros _ pm2 (? & Hrl2 & ? & E).
    split_and!; [done|by eapply relisted_trans|done|]. by rewrite E, Hto, <- app_assoc.
Qed.

(** The physical address of a page. *)
Definition page_paddr (pm : pmm) (p pa : Z) : Prop :=
  exists id b i, arenas pm !! id = Some b /\ 0 <= i < page_count b /\ p = page_at b i /\ pa = a_base b + i * 4096.

Lemma page_paddr_used pm l p : pinv pm -> p ∈ fq (plists pm) (CallerList l) ->
  exists pa, page_paddr pm p pa /\ (4096 | pa) /\ forall pm', arenas pm' = arenas pm -> arena_list pm' = arena_list pm ->
    wp (vm_page_to_paddr p) (fun x pm2 => x = pa /\ pm2 = pm') pm'.
Proof.
  intros Hi Hp. destruct (pi_used pm Hi l p Hp) as (id & b & st & Hb & (i & Hi' & ->) & _). exists (a_base b + i * 4096).
  pose proof (pi_arena pm Hi id b Hb) as Hok. split_and!.
  - by exists id, b, i.
  - destruct Hok as [[m Hm] _ _ _]. exists (m + i). lia.
  - intros pm' Ea El. unfold vm_page_to_paddr. do 3 wp_step. pose proof (pi_boot pm Hi). eapply wp_mono.
    { apply (find_by_page_wp pm pm' id b); try done; [by exists i|rewrite El; apply (pi_arenas pm Hi); eauto|rewrite El; intros e; apply (pi_arenas pm Hi)]. }
    intros r s' [-> ->]. wp_step. split; [|done]. apply (page_address (boot_alloc_end pm)); [done|lia|done].
Qed.

(** The pages [ps] are mapped one after the other from [base] on. *)
Definition mapped (asp : nat) (base : Z) (ps : list Z) (pm : pmm) (m : A) : Prop :=
  forall (i : nat) p, ps !! i = Some p ->
    exists pa, page_paddr pm p pa /\ fst <$> arch_mmu_query asp (base + Z.of_nat i * 4096) m = Some pa.

Lemma mapped_snoc asp base ps p pa pm pm' m m' fl err : mapped asp base ps pm m -> arenas pm' = arenas pm -> page_paddr pm p pa ->
  arch_mmu_map asp (base + Z.of_nat (length ps) * 4096) pa 1 fl m = (err, m') -> 0 <= err -> mapped asp base (ps ++ [p]) pm' m'.
Proof.
  intros Hm Ea Hpa Em Herr. destruct (mmu_map_ok _ _ _ _ _ _ _ _ Em Herr) as [M1 M2].
  intros i x [Hx|[Hi Hx]]%lookup_app_Some.
  - destruct (Hm i x Hx) as (pa' & Hpa' & Hq). exists pa'. split; [unfold page_paddr in *; by rewrite Ea|].
    apply lookup_lt_Some in Hx. rewrite M2; [done|]. right. left. lia.
  - destruct (i - length ps)%nat eqn:E; [|done]. injection Hx as <-. exists pa. split; [unfold page_paddr in *; by rewrite Ea|].
    specialize (M1 0 ltac:(lia)). rewrite !Z.add_0_r in M1. rewrite <- M1. do 2 f_equal. lia.
Qed.

(** An error of the architecture. *)
Definition refused asp (n fl err : Z) : Prop := err < 0 /\ exists va pa m, (arch_mmu_map asp va pa n fl m).1 = err.

Lemma map_pages_wp asp r pl fl q : forall fuel s ps, pinv (v_pmm s) -> pl <> r_id r ->
  fq (plists (v_pmm s)) (CallerList pl) = q -> fq (plists (v_pmm s)) (CallerList (r_id r)) = ps -> (length q < fuel)%nat ->
  0 <= r_base r -> r_base r + r_size r <= 2 ^ 64 -> Z.of_nat (length ps + length q) * 4096 <= r_size r ->
  mapped asp (r_base r) ps (v_pmm s) (v_mmu s) ->
  wp (map_pages fuel asp r pl (u64 (r_base r + Z.of_nat (length ps) * 4096)) fl) (fun res s' => exists pm' m',
    s' = set_mmu m' (set_vpmm pm' s) /\ pinv pm' /\ relisted (v_pmm s) pm' /\
    match res with
    | None => fq (plists pm') (CallerList pl) = [] /\ fq (plists pm') (CallerList (r_id r)) = ps ++ q /\ mapped asp (r_base r) (ps ++ q) pm' m'
    | Some err => refused asp 1 fl err /\ fq (plists pm') (CallerList (r_id r)) ++ fq (plists pm') (CallerList pl) ≡ₚ ps ++ q
    end) s.
Proof.
  induction q as [|p q IH]; intros fuel s ps Hi Hne Eq Eps Hf Hb Hw Hsz Hm; (destruct fuel as [|fuel]; [simpl in Hf; lia|]); cbn [map_pages]; wp_step;
    apply on_pmm_wp.
  - apply remove_head_nil; [done|]. wp_step. exists (v_pmm s), (v_mmu s). rewrite app_nil_r. split_and!; [by destruct s|done|apply relisted_refl|done..].
  - apply (remove_head_cons _ p q); [done|]. cbv iota. cbn [length] in Hsz. rewrite u64_small by lia.
    wp_step. wp_step; [unfold r_last; rewrite u64_small by lia; apply Z.leb_le; lia|].
    assert (p ∈ fq (plists (v_pmm s)) (CallerList pl)) as Hp by (rewrite Eq; set_solver +).
    destruct (page_paddr_used (v_pmm s) pl p Hi Hp) as (pa & Hpa & Hal & Hto).
    wp_step. apply on_pmm_wp. eapply wp_mono; [apply Hto; done|]. intros x pm2 [-> ->].
    wp_step. wp_step; [by apply IS_PAGE_ALIGNED_spec|]. wp_step. unfold do_map. do 2 wp_step. cbn [v_mmu set_vpmm].
    set (va := r_base r + Z.of_nat (length ps) * 4096). destruct (arch_mmu_map asp va pa 1 fl (v_mmu s)) as [err m'] eqn:Em.
    do 3 wp_step. destruct (Z.ltb_spec err NO_ERROR) as [Herr|Herr].
    + wp_step. apply on_pmm_wp. apply link_tail_wp; [apply in_list_del|]. wp_step.
      destruct (page_moved (v_pmm s) pl pl p q Hi Eq) as (Hi' & Hrl & Hq). set (pm' := set_plists _ (v_pmm s)) in *.
      exists pm', m'. split_and!; [by destruct s|done|done|split; [done|exists va, pa, (v_mmu s); by rewrite Em]|].
      rewrite !Hq. rewrite (decide_False (P := r_id r = pl)), (decide_False (P := r_id r = pl)), !decide_True, app_nil_r by congruence.
      rewrite Eps. by rewrite <- Permutation_cons_append.
    + wp_step. apply on_pmm_wp. apply link_tail_wp; [apply in_list_del|].
      destruct (page_moved (v_pmm s) pl (r_id r) p q Hi Eq) as (Hi' & Hrl & Hq). set (pm' := set_plists _ (v_pmm s)) in *.
      match goal with |- wp _ _ ?x => change x with (set_mmu m' (set_vpmm pm' s)) end.
      pose proof (Hq pl) as Hpl. rewrite decide_True, decide_False, app_nil_r in Hpl by congruence.
      pose proof (Hq (r_id r)) as Hr. rewrite decide_False, decide_True, Eps in Hr by congruence.
      replace (u64 (va + PAGE_SIZE)) with (u64 (r_base r + Z.of_nat (length (ps ++ [p])) * 4096))
        by (f_equal; unfold va; change PAGE_SIZE with 4096; rewrite length_app; simpl; lia).
      eapply wp_mono; [apply (IH fuel (set_mmu m' (set_vpmm pm' s)) (ps ++ [p])); try done|].
      * simpl in Hf. lia.
      * rewrite length_app. simpl. lia.
      * eapply mapped_snoc; [exact Hm|done|exact Hpa|exact Em|exact Herr].
      * intros res s' (pm2 & m2 & -> & ? & Hrl2 & Hres). exists pm2, m2. rewrite <- app_assoc in Hres.
        split_and!; [done|done|by eapply relisted_trans|done].
Qed.

(** ** Allocating and giving back *)

(** The allocator as it was, up to the order of the free lists. *)
Definition pool_as_before (pm pm' : pmm) : Prop :=
  pages pm' = pages pm /\ arenas pm' = arenas pm /\ forall id, fq (plists pm') (FreeList id) ≡ₚ fq (plists pm) (FreeList id).

Lemma free_taken pm ol ips pm1 l : pinv pm -> takeable pm ips -> pinv pm1 ->
  pages pm1 = pages (grabs ol ips pm) -> arenas pm1 = arenas (grabs ol ips pm) -> fq (plists pm1) (CallerList l) = ips.*2 ->
  wp (pmm_free l) (fun _ pm2 => pinv pm2 /\ pool_as_before pm pm2) pm1.
Proof.
  intros Hi Ht Hi1 Ep Ea El. eapply wp_mono; [by apply pmm_free_wp|]. intros x pm2 (ips' & E & Hr & -> & _).
  split; [by apply gives_pinv|]. apply (grabs_gives_restore pm ol ips pm1); try done. congruence.
Qed.

Lemma free_taken_two pm ol ips pm1 l1 l2 : pinv pm -> takeable pm ips -> pinv pm1 -> l1 <> l2 ->
  pages pm1 = pages (grabs ol ips pm) -> arenas pm1 = arenas (grabs ol ips pm) ->
  fq (plists pm1) (CallerList l1) ++ fq (plists pm1) (CallerList l2) ≡ₚ ips.*2 ->
  wp (pmm_free l1 ;; pmm_free l2) (fun _ pm2 => pinv pm2 /\ pool_as_before pm pm2) pm1.
Proof.
  intros Hi Ht Hi1 Hne Ep Ea El. wp_step. eapply wp_mono; [by apply pmm_free_wp|]. intros x pm2 (i1 & E1 & Hr1 & -> & _).
  assert (pinv (gives i1 pm1)) as Hi2 by (by apply gives_pinv).
  eapply wp_mono; [by apply pmm_free_wp|]. intros y pm3 (i2 & E2 & Hr2 & -> & _).
  assert (fq (plists (gives i1 pm1)) (CallerList l2) = fq (plists pm1) (CallerList l2)) as El2.
  { rewrite gives_caller, E1. apply filter_id. intros p Hp Hp'. pose proof (wf_one _ (pi_wf pm1 Hi1) _ _ _ Hp Hp'). congruence. }
  rewrite El2 in E2. split; [by apply gives_pinv|]. apply (restored pm ips); [done..|by apply gives_pinv| |].
  - intros p. rewrite !gives_pages, E1, E2, Ep, grabs_pages.
    assert (p ∈ ips.*2 <-> p ∈ fq (plists pm1) (CallerList l1) \/ p ∈ fq (plists pm1) (CallerList l2)) as Hp by (by rewrite <- elem_of_app, El).
    repeat case_decide; naive_solver.
  - intros id. by rewrite !gives_arenas, Ea, grabs_arenas.
Qed.

(** Nothing has been kept: the regions, the pages, and which structures there are. *)
Record gave_back s s' : Prop := {
  gb_aspaces : v_aspaces s' = v_aspaces s;
  gb_pool : pool_as_before (v_pmm s) (v_pmm s');
  gb_list : v_list s' = v_list s;
  gb_current : v_current s' = v_current s }.

Lemma gave_back_vinv s s' : vinv s -> gave_back s s' -> pinv (v_pmm s') -> vinv s'.
Proof.
  intros Hi [Ea _ El _] Hp. split; [done|..]; rewrite ?Ea, ?El; [apply (vi_aspace s Hi)|apply (vi_apart s Hi)|apply (vi_list s Hi)].
Qed.

Lemma vinv_pmm s pm : vinv s -> pinv pm -> vinv (set_vpmm pm s).
Proof. intros Hi Hp. split; [done|apply (vi_aspace s Hi)|apply (vi_apart s Hi)|apply (vi_list s Hi)]. Qed.

Lemma vinv_mmu s m : vinv s -> vinv (set_mmu m s).
Proof. intros Hi. split; [apply Hi|apply (vi_aspace s Hi)|apply (vi_apart s Hi)|apply (vi_list s Hi)]. Qed.

Lemma vinv_freed s fr : vinv s -> vinv (set_freed fr s).
Proof. intros Hi. split; [apply Hi|apply (vi_aspace s Hi)|apply (vi_apart s Hi)|apply (vi_list s Hi)]. Qed.

(** Undoing after a region was put in brings the regions back. *)
Lemma undo_put_in asp a r l1 l2 s s1 s2 : v_aspaces s !! asp = Some a -> put_in s asp a r l1 l2 s1 -> v_aspaces s2 = v_aspaces s1 ->
  NoDup (r_id <$> l1 ++ r :: l2) ->
  wp (undo_region asp r) (fun _ s' => exists m, s' = set_mmu m (set_aspaces (v_aspaces s) s2)) s2.
Proof.
  intros Ha Hpu E Hnd. destruct (put_in_lookup s asp a r l1 l2 s1 Ha Hpu) as [Hl _]. destruct Hpu as [-> (Er & _) Hr Hok].
  eapply wp_mono; [apply (undo_region_wp asp a r l1 l2); [by rewrite E|done..]|]. intros _ s' [m ->]. exists m. f_equal. f_equal.
  rewrite E. simpl. apply map_eq. intros asp'. destruct (decide (asp = asp')) as [<-|]; [|by rewrite !lookup_alter_ne].
  rewrite !lookup_alter_eq, Ha. simpl. f_equal. destruct a. simpl in *. by rewrite Er.
Qed.

(** What a caller of the allocating functions sees to: an address space that is there, a size below the sum of all
    memory, fresh memory for the region and an empty local list, and an aligned address where one is asked for. *)
Record alloc_args s asp a (mem : option nat) (pl : nat) (size : Z) (ptr : option Z) (align fl : Z) : Prop := {
  aa_aspace : v_aspaces s !! asp = Some a;
  aa_size : 0 < size < 2 ^ 43;
  aa_align : 0 <= align < 64;
  aa_mem : fresh s mem;
  aa_list : fq (plists (v_pmm s)) (CallerList pl) = [] /\ mem <> Some pl;
  aa_ptr : specific fl = true -> forall v, ptr = Some v -> 0 <= v /\ (4096 | v) }.

Lemma rounded_size size : 0 < size < 2 ^ 43 ->
  let sz := ROUNDUP size PAGE_SIZE in size <= sz < size + 4096 /\ (4096 | sz) /\ sz / 4096 * 4096 = sz /\ 0 < sz / 4096 < 2 ^ 32.
Proof.
  intros Hs sz. destruct (ROUNDUP_spec size 12 ltac:(lia) ltac:(lia) ltac:(lia)) as [Hd Hb]. change (2 ^ 12) with 4096 in *.
  unfold sz. change PAGE_SIZE with 4096. pose proof Hd as [m Hm]. rewrite Hm, Z.div_mul by lia. split_and!; [lia|lia|by exists m|lia|lia|lia].
Qed.

Lemma args_vaddr s asp a mem pl size ptr align fl : alloc_args s asp a mem pl size ptr align fl ->
  (specific fl && bool_decide (ptr = None)) = false ->
  let v := if specific fl then default 0 ptr else 0 in 0 <= v /\ (4096 | v).
Proof.
  intros Ha Hn v. unfold v. destruct (specific fl) eqn:E; [|split; [done|apply Z.divide_0_r]].
  destruct ptr as [p|]; [|done]. by apply (aa_ptr _ _ _ _ _ _ _ _ _ Ha E).
Qed.

(** The local list initialised. *)
Definition start_pool (pl : nat) (pm : pmm) : pmm := set_plists (<[CallerList pl := []]> (plists pm)) pm.

Lemma start_pool_before pl pm pm' : pool_as_before (start_pool pl pm) pm' -> pool_as_before pm pm'.
Proof. intros (E1 & E2 & E3). split_and!; [done..|]. intros id. rewrite E3. simpl. by rewrite fq_insert, decide_False. Qed.

Lemma start_pool_avail pl pm fl : avail fl (start_pool pl pm) = avail fl pm.
Proof.
  unfold avail, avail_in. simpl. apply list_bind_ext; [|done]. intros id. unfold avail_of. simpl.
  destruct (arenas pm !! id); [|done]. by rewrite fq_insert, decide_False.
Qed.

Lemma start_grabs pl ips pm l : pinv pm -> fq (plists pm) (CallerList pl) = [] -> takeable (start_pool pl pm) ips ->
  let pm1 := grabs (Some pl) ips (start_pool pl pm) in
  pinv pm1 /\ fq (plists pm1) (CallerList pl) = ips.*2 /\ (l <> pl -> fq (plists pm1) (CallerList l) = fq (plists pm) (CallerList l)).
Proof.
  intros Hi Hpl Ht pm1. assert (pinv (start_pool pl pm)) as Hi0 by (by apply pinv_initialize).
  split; [by apply grabs_pinv|]. unfold pm1. split.
  - rewrite grabs_caller, decide_True by done. simpl. by rewrite fq_insert, decide_True.
  - intros Hne. rewrite grabs_caller, decide_False, app_nil_r by (done || congruence). simpl. by rewrite fq_insert, decide_False by congruence.
Qed.

(** The region got [r] at a place of its own, and its pages are mapped in order. *)
(** The pages [ps] have left the pool. *)
Definition took (ps : list Z) (pm pm' : pmm) : Prop :=
  exists pl ips, fq (plists pm) (CallerList pl) = [] /\ takeable (start_pool pl pm) ips /\ ips.*2 = ps /\
    pages pm' = pages (grabs (Some pl) ips (start_pool pl pm)) /\ arenas pm' = arenas (grabs (Some pl) ips (start_pool pl pm)).

Record got_region s asp a r (ps : list Z) s' : Prop := {
  gr_place : exists l1 l2, splits (as_regions a) l1 l2 (r_base r) (r_size r) /\
    v_aspaces s' = alter (set_regions (l1 ++ r :: l2)) asp (v_aspaces s);
  gr_region : region_ok a r;
  gr_pages : fq (plists (v_pmm s')) (CallerList (r_id r)) = ps /\ Z.of_nat (length ps) * 4096 = r_size r;
  gr_mapped : mapped asp (r_base r) ps (v_pmm s') (v_mmu s');
  gr_pool : took ps (v_pmm s) (v_pmm s') }.

(** Why a region that has its pages could not be made. *)
Definition place_error asp a (mem : option nat) (align fl mfl sz v n err : Z) : Prop :=
  (err = ERR_NO_MEMORY /\ (mem = None \/ no_place a align fl sz v)) \/ refused asp n mfl err.

(** The second half of [vmm_alloc]: the pages are there, on the local list. *)
Definition place_and_map (asp : nat) (mem : option nat) (pl : nat) (sz vaddr align fl mfl : Z) (ptr : option Z) : M (vmm A) (Z * option Z) :=
  do r <- alloc_region asp mem sz vaddr align fl VMM_REGION_FLAG_PHYSICAL mfl;
  match r with
  | None => on_pmm (pmm_free pl) ;; ret (ERR_NO_MEMORY, ptr)
  | Some r =>
      massert (IS_PAGE_ALIGNED (r_base r)) ;;
      do q <- gets (fun s => fq (plists (v_pmm s)) (CallerList pl));
      do err <- map_pages (S (length q)) asp r pl (r_base r) mfl;
      match err with
      | Some err =>
          undo_region asp r ;;
          on_pmm (pmm_free (r_id r)) ;;
          on_pmm (pmm_free pl) ;;
          free_mem (RegionMem (r_id r)) ;;
          ret (err, ptr)
      | None => ret (NO_ERROR, (fun _ => r_base r) <$> ptr)
      end
  end.

Lemma on_pmm_bind {X Y} (m1 : M pmm X) (m2 : M pmm Y) Q s :
  wp (m1 ;; m2) (fun y p => Q y (set_vpmm p s)) (v_pmm s) -> wp (on_pmm m1 ;; on_pmm m2) Q s.
Proof. unfold wp, bind, on_pmm. destruct (m1 (v_pmm s)) as [x p|]; [|done]. simpl. by destruct (m2 p). Qed.

Lemma place_and_map_wp asp mem pl sz vaddr align fl mfl ptr s a ips : vinv s -> v_aspaces s !! asp = Some a ->
  0 < sz < 2 ^ 64 -> (4096 | sz) -> 0 <= vaddr -> (4096 | vaddr) -> 0 <= align < 64 ->
  fresh s mem -> fq (plists (v_pmm s)) (CallerList pl) = [] -> mem <> Some pl ->
  takeable (start_pool pl (v_pmm s)) ips -> Z.of_nat (length ips) * 4096 = sz ->
  wp (place_and_map asp mem pl sz vaddr align fl mfl ptr) (fun res s' => vinv s' /\
    ((place_error asp a mem align fl mfl sz vaddr 1 res.1 /\ res.2 = ptr /\ gave_back s s') \/
     (exists r, mem = Some (r_id r) /\ r_size r = sz /\ res = (NO_ERROR, (fun _ => r_base r) <$> ptr) /\
        placed a align fl sz vaddr (r_base r) /\ got_region s asp a r ips.*2 s'))) (set_vpmm (grabs (Some pl) ips (start_pool pl (v_pmm s))) s).
Proof.
  intros Hi Ha Hsz Hd Hv Hvd Hal Hmem Hpl Hne Ht Hlen. set (pm := v_pmm s) in *. set (pm0 := start_pool pl pm) in *.
  assert (pinv pm0) as Hi0 by (apply pinv_initialize; [apply Hi|done]). destruct (start_grabs pl ips pm 0 (vi_pmm s Hi) Hpl Ht) as (Hi1 & Ep1 & _).
  fold pm0 in Hi1, Ep1. set (pm1 := grabs (Some pl) ips pm0) in *. assert (vinv (set_vpmm pm1 s)) as Hvi by (by apply vinv_pmm).
  unfold place_and_map. wp_step. eapply wp_mono; [by apply (alloc_region_wp asp mem sz vaddr align fl _ mfl (set_vpmm pm1 s) a)|].
  intros [r|] s1 Hres; cbv iota.
  2:{ destruct Hres as (fr & -> & Hwhy). wp_step. apply on_pmm_wp. eapply wp_mono; [apply (free_taken pm0 (Some pl) ips pm1 pl); done|].
    intros _ pm2 [Hi2 Hb]. wp_step. assert (gave_back s (set_vpmm pm2 (set_freed fr (set_vpmm pm1 s)))) by (split; [done|by apply (start_pool_before pl)|done|done]).
    split; [by apply (gave_back_vinv s)|]. left. split; [by left|done]. }
  destruct Hres as (Emem & Ersz & (l1 & l2 & Hpu) & Hpl'). destruct (Hmem (r_id r) Emem) as [Hun Hrl].
  assert (vinv s1) as Hv1 by (by eapply (put_in_vinv (set_vpmm pm1 s))). destruct (put_in_lookup (set_vpmm pm1 s) asp a r l1 l2 s1 Ha Hpu) as [Hlk _].
  destruct (vi_aspace s1 Hv1 asp _ Hlk) as [_ Hnd]. pose proof Hpu as [E1 Hsp Hr Hok].
  assert (v_pmm s1 = pm1) as Epm by (by rewrite E1). assert (fq (plists pm1) (CallerList (r_id r)) = []) as Er.
  { destruct (start_grabs pl ips pm (r_id r) (vi_pmm s Hi) Hpl Ht) as (_ & _ & Hx). rewrite <- Hrl. apply Hx. congruence. }
  wp_step. wp_step; [apply IS_PAGE_ALIGNED_spec, Hr|]. do 3 wp_step. rewrite Epm.
  pose proof (ak_range a (proj1 (vi_aspace s Hi asp a Ha))) as Hrng. pose proof (ro_inside a r Hr) as Hin. unfold r_end, as_end in *.
  replace (r_base r) with (u64 (r_base r + Z.of_nat (length (@nil Z)) * 4096)) at 1 by (simpl; rewrite u64_small; lia).
  assert (length ips = length ips.*2) as El by (by rewrite length_fmap).
  eapply wp_mono; [apply (map_pages_wp asp r pl mfl ips.*2); rewrite ?Epm; try done; try (simpl; lia); [congruence|by rewrite Ep1; lia]|].
  intros res s2 (pm2 & m2 & -> & Hi2 & Hrl2 & Hmap). rewrite Epm in Hrl2. destruct Hrl2 as [Ra Rp _ _].
  destruct res as [err|]; cbv iota.
  - destruct Hmap as [Herr Hperm]. wp_step. eapply wp_mono; [by apply (undo_put_in asp a r l1 l2 (set_vpmm pm1 s) s1)|].
    intros _ s3 [m3 ->]. apply wp_bind_assoc. apply on_pmm_bind.
    eapply wp_mono; [apply (free_taken_two pm0 (Some pl) ips pm2 (r_id r) pl); try done; congruence|]. intros _ pm4 [Hi4 Hb]. unfold free_mem. do 3 wp_step.
    match goal with |- vinv ?x /\ _ => assert (gave_back s x) as Hg end.
    { split; [done|by apply (start_pool_before pl)|by rewrite E1|by rewrite E1]. }
    split; [by apply (gave_back_vinv s)|]. left. split; [by right|done].
  - destruct Hmap as (_ & Hps & Hmp). wp_step. split; [by apply vinv_mmu, vinv_pmm|]. right. exists r. split_and!; [done..|].
    split; [|done|split; [done|by rewrite <- El, Ersz]|done|by exists pl, ips]. exists l1, l2. split; [done|]. by rewrite E1.
Qed.

(** Why an allocation failed; [short] says that there were no pages for it. *)
Definition alloc_error asp a (mem : option nat) (align fl mfl sz : Z) (ptr : option Z) (n : Z) (short : Prop) (err : Z) : Prop :=
  (err = ERR_INVALID_ARGS /\ specific fl = true /\ ptr = None) \/ (err = ERR_NO_MEMORY /\ short) \/
  place_error asp a mem align fl mfl sz (default 0 ptr) n err.

Lemma placed_any a align fl sz p b : placed a align fl sz (if specific fl then p else 0) b -> placed a align fl sz p b.
Proof. unfold placed. by destruct (specific fl). Qed.

Lemma place_error_any asp a mem align fl mfl sz p n err :
  place_error asp a mem align fl mfl sz (if specific fl then p else 0) n err -> place_error asp a mem align fl mfl sz p n err.
Proof. unfold place_error, no_place. by destruct (specific fl). Qed.

Lemma args_error asp a mem align fl mfl sz ptr n short : specific fl && bool_decide (ptr = None) = true ->
  alloc_error asp a mem align fl mfl sz ptr n short ERR_INVALID_ARGS.
Proof. intros [? ?%bool_decide_eq_true]%andb_true_iff. by left. Qed.

Lemma vmm_alloc_wp asp mem pl size ptr align fl mfl s a : vinv s -> alloc_args s asp a mem pl size ptr align fl ->
  wp (vmm_alloc asp mem pl size ptr align fl mfl) (fun res s' => vinv s' /\
    let sz := ROUNDUP size PAGE_SIZE in
    ((alloc_error asp a mem align fl mfl sz ptr 1 (Z.of_nat (length (avail PMM_ALLOC_FLAG_ANY (v_pmm s))) * 4096 < sz) res.1 /\
      res.2 = ptr /\ gave_back s s') \/
     (exists r n, mem = Some (r_id r) /\ r_size r = sz /\ res = (NO_ERROR, (fun _ => r_base r) <$> ptr) /\
        placed a align fl sz (default 0 ptr) (r_base r) /\ got_region s asp a r (take n (avail PMM_ALLOC_FLAG_ANY (v_pmm s))).*2 s'))) s.
Proof.
  intros Hi Harg. pose proof Harg as [Ha Hsz Hal Hmem [Hpl Hne] _]. destruct (rounded_size size Hsz) as (Hs1 & Hd & Hs2 & Hs3).
  unfold vmm_alloc. fold (specific fl). set (sz := ROUNDUP size PAGE_SIZE) in *. change PAGE_SIZE with 4096. cbv zeta.
  rewrite (proj2 (Z.eqb_neq sz 0)) by lia.
  destruct (specific fl && bool_decide (ptr = None)) eqn:Eargs.
  { wp_step. split; [done|]. left. split_and!; [by apply args_error|done|]. split; [done|split_and!; done|done|done]. }
  destruct (args_vaddr _ _ _ _ _ _ _ _ _ Harg Eargs) as [Hv Hvd]. set (v := if specific fl then default 0 ptr else 0) in *.
  set (pm := v_pmm s) in *. set (pm0 := start_pool pl pm). assert (pinv pm0) as Hi0 by (apply pinv_initialize; [apply Hi|done]).
  wp_step. apply on_pmm_wp. unfold list_initialize. wp_step.
  wp_step. apply on_pmm_wp. eapply wp_mono; [apply (pmm_alloc_pages_wp (sz / 4096) PMM_ALLOC_FLAG_ANY pl pm0); [done|lia]|].
  intros k pm1 [-> ->]. assert (avail PMM_ALLOC_FLAG_ANY pm0 = avail PMM_ALLOC_FLAG_ANY pm) as Eav by apply start_pool_avail. rewrite Eav. set (av := avail PMM_ALLOC_FLAG_ANY pm). set (k := Z.min (sz / 4096) (Z.of_nat (length av))).
  set (ips := take (Z.to_nat k) av). assert (takeable pm0 ips) as Ht.
  { unfold ips, av. rewrite <- Eav. apply avail_takeable; [done|apply (pi_order _ Hi0)]. }
  destruct (start_grabs pl ips pm 0 (vi_pmm s Hi) Hpl Ht) as (Hi1 & Ep1 & _). set (pm1 := grabs (Some pl) ips pm0) in *.
  wp_step. wp_step; [apply Z.leb_le; lia|].
  match goal with |- wp _ _ ?x => change x with (set_vpmm pm1 s) end.
  destruct (Z.ltb_spec k (sz / 4096)) as [Hk|Hk].
  { wp_step. apply on_pmm_wp. eapply wp_mono; [apply (free_taken pm0 (Some pl) ips pm1 pl); done|]. intros _ pm2 [Hi2 Hb].
    wp_step. assert (gave_back s (set_vpmm pm2 s)) by (split; [done|by apply (start_pool_before pl)|done|done]).
    split; [by apply (gave_back_vinv s)|]. left. split; [|done]. right. left. split; [done|]. unfold k in Hk. fold av.
    destruct Hd as [q Eq]. rewrite Eq, Z.div_mul in Hk by lia. lia. }
  assert (length ips = Z.to_nat (sz / 4096)) as El by (unfold ips; rewrite length_take; lia).
  eapply wp_mono; [apply (place_and_map_wp asp mem pl sz v align fl mfl ptr s a ips); try done; lia|].
  intros res s' [Hv' [[Hres Hr]|(r & H1 & H2 & H3 & H4 & H5)]]; (split; [done|]).
  - left. split; [|done]. right. right. by apply place_error_any.
  - right. exists r, (Z.to_nat k). split_and!; [done..|by apply placed_any|done].
Qed.

(** A run of pages mapped at once. *)
Lemma mapped_run asp base pm id b c n m m' fl err : arenas pm !! id = Some b -> 0 <= c -> c + Z.of_nat n <= page_count b ->
  arch_mmu_map asp base (a_base b + c * 4096) (Z.of_nat n) fl m = (err, m') -> 0 <= err -> mapped asp base (run_pages b c n) pm m'.
Proof.
  intros Hb Hc Hn Em Herr. destruct (mmu_map_ok _ _ _ _ _ _ _ _ Em Herr) as [M1 _]. intros i p Hp.
  assert (i < n)%nat as Hi by (apply lookup_lt_Some in Hp; by rewrite run_pages_length in Hp).
  assert (p = page_at b (c + Z.of_nat i)) as ->.
  { clear -Hp Hi. revert c i Hp Hi. induction n as [|n IH]; intros c i Hp Hi; [lia|]. destruct i as [|i]; simpl in Hp.
    - injection Hp as <-. f_equal. lia.
    - rewrite (IH (c + 1) i Hp ltac:(lia)). f_equal. lia. }
  exists (a_base b + (c + Z.of_nat i) * 4096). split; [exists id, b, (c + Z.of_nat i); split_and!; [done|lia|lia|done|done]|].
  rewrite M1 by lia. f_equal. lia.
Qed.

(** The second half of [vmm_alloc_contiguous]. *)
Definition place_and_map_run (asp : nat) (mem : option nat) (pl : nat) (sz vaddr align fl mfl pa : Z) (ptr : option Z) : M (vmm A) (Z * option Z) :=
  do r <- alloc_region asp mem sz vaddr align fl VMM_REGION_FLAG_PHYSICAL mfl;
  match r with
  | None => on_pmm (pmm_free pl) ;; ret (ERR_NO_MEMORY, ptr)
  | Some r =>
      let ptr := (fun _ => r_base r) <$> ptr in
      do err <- do_map asp (r_base r) pa (u32 (sz / 4096)) mfl;
      if err <? NO_ERROR then
        undo_region asp r ;;
        free_mem (RegionMem (r_id r)) ;;
        on_pmm (pmm_free pl) ;;
        ret (err, ptr)
      else
        do q <- gets (fun s => fq (plists (v_pmm s)) (CallerList pl));
        on_pmm (move_pages (S (length q)) pl (r_id r)) ;;
        ret (NO_ERROR, ptr)
  end.

Lemma place_and_map_run_wp asp mem pl sz vaddr align fl mfl ptr s a id b c n : vinv s -> v_aspaces s !! asp = Some a ->
  0 < sz < 2 ^ 64 -> (4096 | sz) -> 0 <= vaddr -> (4096 | vaddr) -> 0 <= align < 64 ->
  fresh s mem -> fq (plists (v_pmm s)) (CallerList pl) = [] -> mem <> Some pl ->
  arenas (v_pmm s) !! id = Some b -> 0 <= c -> c + Z.of_nat n <= page_count b -> Z.of_nat n * 4096 = sz -> Z.of_nat n < 2 ^ 32 ->
  takeable (start_pool pl (v_pmm s)) (pair id <$> run_pages b c n) ->
  wp (place_and_map_run asp mem pl sz vaddr align fl mfl (a_base b + c * 4096) ptr) (fun res s' => vinv s' /\
    ((place_error asp a mem align fl mfl sz vaddr (Z.of_nat n) res.1 /\ gave_back s s') \/
     (exists r, mem = Some (r_id r) /\ r_size r = sz /\ res = (NO_ERROR, (fun _ => r_base r) <$> ptr) /\
        placed a align fl sz vaddr (r_base r) /\ got_region s asp a r (run_pages b c n) s'))) (set_vpmm (grabs (Some pl) (pair id <$> run_pages b c n) (start_pool pl (v_pmm s))) s).
Proof.
  intros Hi Ha Hsz Hd Hv Hvd Hal Hmem Hpl Hne Hb Hc Hcn Hlen H32 Ht. set (pm := v_pmm s) in *. set (pm0 := start_pool pl pm) in *.
  set (ips := pair id <$> run_pages b c n) in *. assert (ips.*2 = run_pages b c n) as Es by apply run_snd.
  assert (pinv pm0) as Hi0 by (apply pinv_initialize; [apply Hi|done]). destruct (start_grabs pl ips pm 0 (vi_pmm s Hi) Hpl Ht) as (Hi1 & Ep1 & _).
  fold pm0 in Hi1, Ep1. set (pm1 := grabs (Some pl) ips pm0) in *. assert (vinv (set_vpmm pm1 s)) as Hvi by (by apply vinv_pmm).
  unfold place_and_map_run. wp_step. eapply wp_mono; [by apply (alloc_region_wp asp mem sz vaddr align fl _ mfl (set_vpmm pm1 s) a)|].
  intros [r|] s1 Hres; cbv iota.
  2:{ destruct Hres as (fr & -> & Hwhy). wp_step. apply on_pmm_wp. eapply wp_mono; [apply (free_taken pm0 (Some pl) ips pm1 pl); done|].
    intros _ pm2 [Hi2 Hbf]. wp_step. assert (gave_back s (set_vpmm pm2 (set_freed fr (set_vpmm pm1 s)))) by (split; [done|by apply (start_pool_before pl)|done|done]).
    split; [by apply (gave_back_vinv s)|]. left. split; [by left|done]. }
  destruct Hres as (Emem & Ersz & (l1 & l2 & Hpu) & Hpl'). destruct (Hmem (r_id r) Emem) as [Hun Hrl].
  assert (vinv s1) as Hv1 by (by eapply (put_in_vinv (set_vpmm pm1 s))). destruct (put_in_lookup (set_vpmm pm1 s) asp a r l1 l2 s1 Ha Hpu) as [Hlk _].
  destruct (vi_aspace s1 Hv1 asp _ Hlk) as [_ Hnd]. pose proof Hpu as [E1 Hsp Hr Hok].
  assert (v_pmm s1 = pm1) as Epm by (by rewrite E1). assert (fq (plists pm1) (CallerList (r_id r)) = []) as Er.
  { destruct (start_grabs pl ips pm (r_id r) (vi_pmm s Hi) Hpl Ht) as (_ & _ & Hx). rewrite <- Hrl. apply Hx. congruence. }
  unfold do_map. wp_step. do 2 wp_step. rewrite <- Hlen, Z.div_mul, u32_small by lia.
  destruct (arch_mmu_map asp (r_base r) (a_base b + c * 4096) (Z.of_nat n) mfl (v_mmu s1)) as [err m'] eqn:Em. do 3 wp_step.
  destruct (Z.ltb_spec err NO_ERROR) as [Herr|Herr].
  - wp_step. eapply wp_mono; [by apply (undo_put_in asp a r l1 l2 (set_vpmm pm1 s) s1)|]. intros _ s3 [m3 ->]. unfold free_mem. do 2 wp_step.
    wp_step. apply on_pmm_wp. cbn [v_pmm set_freed set_mmu set_aspaces]. rewrite Epm.
    eapply wp_mono; [apply (free_taken pm0 (Some pl) ips pm1 pl); done|]. intros _ pm2 [Hi2 Hbf]. wp_step.
    match goal with |- vinv ?x /\ _ => assert (gave_back s x) as Hg end.
    { split; [done|by apply (start_pool_before pl)|by rewrite E1|by rewrite E1]. }
    split; [by apply (gave_back_vinv s)|]. left. split; [|done]. right. split; [done|]. exists (r_base r), (a_base b + c * 4096), (v_mmu s1). by rewrite Em.
  - do 2 wp_step. cbn [v_pmm set_mmu]. rewrite Epm. wp_step. apply on_pmm_wp. cbn [v_pmm set_mmu]. rewrite Epm.
    eapply wp_mono; [apply (move_pages_wp pl (r_id r) (run_pages b c n)); [done|congruence|by rewrite Ep1|rewrite Ep1, Es; lia]|].
    intros _ pm2 (Hi2 & Hrl2 & _ & Hps). wp_step. split; [apply vinv_pmm; [by apply vinv_mmu|done]|]. right. exists r. rewrite Er in Hps.
    split_and!; [done|lia|done|by rewrite Hlen|]. destruct Hrl2 as [Ra Rp _ _].
    split; [exists l1, l2; split; [done|by rewrite E1]|done| | |by exists pl, ips].
    + split; [done|]. rewrite run_pages_length. lia.
    + simpl.
      assert (set_free_count 0 <$> arenas pm2 !! id = Some (set_free_count 0 b)) as Eb by (rewrite Ra; unfold pm1; rewrite grabs_arenas; simpl; by rewrite Hb).
      apply fmap_Some in Eb as (b2 & Hb2 & Eb). injection Eb as _ _ Eba Ebs Ebp. rewrite (run_pages_ext b b2) by done. rewrite Eba in Em.
      apply (mapped_run asp (r_base r) pm2 id b2 c n (v_mmu s1) m' mfl err); try done. unfold page_count. by rewrite <- Ebs.
Qed.

Lemma vmm_alloc_contiguous_wp asp mem pl size ptr align fl mfl s a : vinv s -> alloc_args s asp a mem pl size ptr align fl ->
  wp (vmm_alloc_contiguous asp mem pl size ptr align fl mfl) (fun res s' => vinv s' /\
    let sz := ROUNDUP size PAGE_SIZE in
    ((alloc_error asp a mem align fl mfl sz ptr (sz / 4096)
        (forall id b c, arenas (v_pmm s) !! id = Some b -> ~ aligned_run (v_pmm s) b (sz / 4096) (Z.max align 12) c) res.1 /\
      gave_back s s') \/
     (exists r id b c n, mem = Some (r_id r) /\ r_size r = sz /\ res = (NO_ERROR, (fun _ => r_base r) <$> ptr) /\
        placed a align fl sz (default 0 ptr) (r_base r) /\ arenas (v_pmm s) !! id = Some b /\ (2 ^ Z.max align 12 | a_base b + c * 4096) /\ got_region s asp a r (run_pages b c n) s'))) s.
Proof.
  intros Hi Harg. pose proof Harg as [Ha Hsz Hal Hmem [Hpl Hne] _]. destruct (rounded_size size Hsz) as (Hs1 & Hd & Hs2 & Hs3).
  unfold vmm_alloc_contiguous. fold (specific fl). set (sz := ROUNDUP size PAGE_SIZE) in *. change PAGE_SIZE with 4096. cbv zeta.
  rewrite (proj2 (Z.eqb_neq sz 0)) by lia.
  destruct (specific fl && bool_decide (ptr = None)) eqn:Eargs.
  { wp_step. split; [done|]. left. split; [by apply args_error|]. split; [done|split_and!; done|done|done]. }
  destruct (args_vaddr _ _ _ _ _ _ _ _ _ Harg Eargs) as [Hv Hvd]. set (v := if specific fl then default 0 ptr else 0) in *.
  set (pm := v_pmm s) in *. set (pm0 := start_pool pl pm). assert (pinv pm0) as Hi0 by (apply pinv_initialize; [apply Hi|done]).
  wp_step. apply on_pmm_wp. unfold list_initialize. wp_step.
  wp_step. apply on_pmm_wp. eapply wp_mono; [apply (pmm_alloc_contiguous_wp (sz / 4096) PMM_ALLOC_FLAG_ANY align (Some pl) pm0); [done|lia|done]|].
  intros res pm1 [(-> & -> & Hno)|(id & b & c & _ & Hb & _ & (Hc1 & Hc2 & Hc3 & Hc4) & -> & ->)].
  { rewrite (proj2 (Z.ltb_lt 0 (sz / 4096))) by lia. wp_step. wp_step; [done|]. wp_step.
    match goal with |- vinv ?x /\ _ => assert (gave_back s x) as Hg end.
    { split; [done|by apply (start_pool_before pl)|done|done]. }
    split; [by apply (gave_back_vinv s)|]. left. split; [|done]. right. left. split; [done|]. intros id b c Hb.
    apply (Hno id b c); [apply (pi_arenas pm0 Hi0); by exists b|done|done]. }
  rewrite Z.ltb_irrefl. cbn [default]. set (n := Z.to_nat (sz / 4096)). set (ips := pair id <$> run_pages b c n).
  assert (takeable pm0 ips) as Ht by (apply run_takeable; [done..| |]; unfold n; by rewrite Z2Nat.id by lia).
  eapply wp_mono; [apply (place_and_map_run_wp asp mem pl sz v align fl mfl ptr s a id b c n); try done; unfold n; lia|].
  intros res s' [Hv' [[Hres Hr]|(r & H1 & H2 & H3 & H4 & H5)]]; (split; [done|]).
  - left. split; [|done]. right. right. apply place_error_any. by rewrite <- (Z2Nat.id (sz / 4096)) by lia.
  - right. exists r, id, b, c, n. split_and!; [done..|by apply placed_any|done|done|done].
Qed.

(** ** The other calls *)

Lemma trim_to_aspace_spec a v size : aspace_ok a -> as_base a <= v < as_end a -> (4096 | v) -> 0 < size < 2 ^ 64 -> (4096 | size) ->
  trim_to_aspace a v size = Some (Z.min size (as_end a - v)).
Proof.
  intros Ha Hv Dv Hsz Dsz. pose proof (ak_range a Ha) as (R1 & R2 & R3). pose proof (ak_aligned a Ha) as [Db Da]. unfold trim_to_aspace.
  rewrite (proj2 (is_inside_spec a v Ha)) by done. simpl. rewrite (proj2 (Z.eqb_neq size 0)) by lia. unfold as_end in *.
  assert (u64 (v - as_base a) = v - as_base a) as -> by (apply u64_small; lia). set (o := v - as_base a).
  assert (4096 | o) as Do by (by apply Z.divide_sub_r). assert (u64 (as_size a - 1) = as_size a - 1) as -> by (apply u64_small; lia).
  assert (u64 (as_size a - o) = as_size a - o) as -> by (apply u64_small; lia).
  destruct (decide (2 ^ 64 <= o + size)) as [Hw|Hw].
  - assert (u64 (o + size) = o + size - 2 ^ 64) as -> by (unfold u64; rewrite <- (Z_mod_plus_full _ (-1)), Z.mod_small; lia).
    rewrite (proj2 (Z.ltb_lt _ o)) by lia. unfold ULONG_MAX. rewrite (u64_small (2 ^ 64 - 1 - o - 1)) by lia.
    rewrite u64_small, (proj2 (Z.leb_le _ _)) by lia. f_equal. lia.
  - rewrite (u64_small (o + size)) by lia. rewrite (proj2 (Z.ltb_ge _ o)) by lia. rewrite (u64_small (o + size)) by lia.
    destruct (Z.leb_spec (as_size a - 1) (o + size)) as [Hle|Hle]; [|f_equal; lia].
    assert (as_size a <= o + size); [|f_equal; lia]. destruct Do as [x ->], Dsz as [y ->], Da as [z Ez]. lia.
Qed.

(** [vmm_reserve_space]: what a region that has been asked for would take of the address space, if it is free. *)
Lemma vmm_reserve_space_wp asp mem size vaddr s a : vinv s -> v_aspaces s !! asp = Some a -> fresh s mem ->
  0 <= size < 2 ^ 64 -> (4096 | size) -> 0 <= vaddr -> (4096 | vaddr) ->
  wp (vmm_reserve_space asp mem size vaddr) (fun res s' => vinv s' /\
    if decide (size = 0) then res = NO_ERROR /\ s' = s
    else if decide (as_base a <= vaddr < as_end a) then
      let sz := Z.min size (as_end a - vaddr) in
      (res = NO_ERROR /\ exists r l1 l2, mem = Some (r_id r) /\ r_base r = vaddr /\ r_size r = sz /\ put_in s asp a r l1 l2 s') \/
      (res = ERR_NO_MEMORY /\ (exists fr, s' = set_freed fr s) /\ (mem = None \/ ~ clear a (as_regions a) sz vaddr))
    else res = ERR_OUT_OF_RANGE /\ s' = s) s.
Proof using All.
  intros Hi Ha Hmem Hsz Dsz Hv Dv. destruct (vi_aspace s Hi asp a Ha) as [Hok _]. unfold vmm_reserve_space.
  wp_step. wp_step; [by apply IS_PAGE_ALIGNED_spec|]. wp_step. wp_step; [by apply IS_PAGE_ALIGNED_spec|].
  destruct (Z.eqb_spec size 0) as [E0|E0]; [wp_step; by rewrite decide_True|].
  wp_step. apply (get_aspace_wp asp a); [done|]. destruct (is_inside_aspace a vaddr) eqn:Ein; simpl.
  2:{ wp_step. split; [done|]. rewrite !decide_False; [done| |done]. intros H. apply (is_inside_spec a vaddr Hok) in H. congruence. }
  apply (is_inside_spec a vaddr Hok) in Ein. rewrite trim_to_aspace_spec by (done || lia).
  set (sz := Z.min size (as_end a - vaddr)). pose proof (ak_range a Hok) as (R1 & R2 & R3). pose proof (ak_aligned a Hok) as [Db Da].
  assert (4096 | sz) as Ds.
  { unfold sz, as_end in *. destruct (Z.min_spec size (as_base a + as_size a - vaddr)) as [[_ ->]|[_ ->]]; [done|].
    apply Z.divide_sub_r; [|done]. by apply Z.divide_add_r. }
  assert (0 < sz < 2 ^ 64) by (unfold sz; lia). do 5 wp_step.
  eapply wp_mono; [by apply (alloc_region_wp asp mem sz vaddr 0 VMM_FLAG_VALLOC_SPECIFIC _ _ s a)|].
  intros [r|] s' Hres; cbv iota; wp_step; rewrite (decide_False (P := size = 0)), decide_True by done.
  - destruct Hres as (Em & Es & (l1 & l2 & Hp) & Eb). simpl in Eb. split; [by apply (put_in_vinv s asp a r l1 l2), (Hmem _ Em)|].
    left. split; [done|]. by exists r, l1, l2.
  - destruct Hres as (fr & -> & Hno). split; [by apply vinv_freed|]. right. split_and!; [done|by exists fr|done].
Qed.

(** [vmm_free_region]: the one region that holds the address goes away and its pages are given back. *)
Lemma vmm_free_region_wp asp vaddr s a : vinv s -> v_aspaces s !! asp = Some a ->
  wp (vmm_free_region asp vaddr) (fun res s' => vinv s' /\
    ((res = NO_ERROR /\ exists r l1 l2 ips, as_regions a = l1 ++ r :: l2 /\ r_base r <= vaddr < r_end r /\
        v_aspaces s' = alter (set_regions (l1 ++ l2)) asp (v_aspaces s) /\ v_list s' = v_list s /\
        ips.*2 = fq (plists (v_pmm s)) (CallerList (r_id r)) /\ returnable (v_pmm s) ips /\ v_pmm s' = gives ips (v_pmm s)) \/
     (res = ERR_NOT_FOUND /\ s' = s /\ forall r, r ∈ as_regions a -> ~ r_base r <= vaddr < r_end r))) s.
Proof using All.
  intros Hi Ha. destruct (vi_aspace s Hi asp a Ha) as [Hok Hnd]. unfold vmm_free_region. wp_step.
  eapply wp_mono; [by apply (remove_region_wp asp vaddr s a)|]. intros [r|e] s1 Hres; cbv iota.
  2:{ destruct Hres as (-> & -> & Hno). wp_step. split; [done|]. by right. }
  destruct Hres as (l1 & l2 & E & Hv & ->). wp_step. apply on_pmm_wp. simpl v_pmm.
  eapply wp_mono; [apply pmm_free_wp, Hi|]. intros k pm' (ips & Ei & Hret & -> & _). unfold free_mem. do 3 wp_step. split.
  - apply vinv_freed, vinv_pmm; [|apply gives_pinv; [apply Hi|done]]. apply vinv_mmu. rewrite E in Hnd.
    apply vinv_regions with a; [done|done|by apply aspace_ok_remove with r| |].
    + rewrite fmap_app, fmap_cons in Hnd. rewrite fmap_app. revert Hnd. rewrite <- Permutation_middle. by intros [_ ?]%NoDup_cons.
    + intros x Hx. left. rewrite E. set_solver +Hx.
  - left. split; [done|]. exists r, l1, l2, ips. done.
Qed.

(** [vmm_alloc_physical]: the range given is mapped page by page, in order; no page is taken from the pool. *)
Lemma vmm_alloc_physical_wp asp mem size ptr align pa fl mfl s a : vinv s -> v_aspaces s !! asp = Some a -> fresh s mem ->
  0 <= size < 2 ^ 43 -> (4096 | size) -> (4096 | pa) -> 0 <= align < 64 ->
  (specific fl = true -> forall v, ptr = Some v -> 0 <= v /\ (4096 | v)) ->
  wp (vmm_alloc_physical asp mem size ptr align pa fl mfl) (fun res s' => vinv s' /\
    if decide (size = 0) then res = (NO_ERROR, ptr) /\ s' = s
    else (res.1 < 0 /\ gave_back s s') \/
      (exists r l1 l2, mem = Some (r_id r) /\ r_size r = size /\ res = (NO_ERROR, (fun _ => r_base r) <$> ptr) /\
         splits (as_regions a) l1 l2 (r_base r) size /\ region_ok a r /\
         v_aspaces s' = alter (set_regions (l1 ++ r :: l2)) asp (v_aspaces s) /\ v_pmm s' = v_pmm s /\
         forall i, 0 <= i < size / 4096 -> fst <$> arch_mmu_query asp (r_base r + i * 4096) (v_mmu s') = Some (pa + i * 4096))) s.
Proof.
  intros Hi Ha Hmem Hsz Dsz Dpa Hal Hptr. destruct (vi_aspace s Hi asp a Ha) as [Hok _]. unfold vmm_alloc_physical. fold (specific fl).
  wp_step. wp_step; [by apply IS_PAGE_ALIGNED_spec|]. wp_step. wp_step; [by apply IS_PAGE_ALIGNED_spec|].
  destruct (Z.eqb_spec size 0) as [E0|E0]; [wp_step; by rewrite decide_True|].
  destruct (specific fl && bool_decide (ptr = None)) eqn:Eargs.
  { wp_step. split; [done|]. rewrite decide_False by done. left. split; [done|]. split; [done|split_and!; done|done|done]. }
  set (v := if specific fl then default 0 ptr else 0). assert (0 <= v /\ (4096 | v)) as [Hv Dv].
  { unfold v. destruct (specific fl) eqn:Ef; [|split; [lia|by exists 0]]. destruct ptr as [w|]; [by apply Hptr|done]. }
  wp_step. eapply wp_mono; [by apply (alloc_region_wp asp mem size v align fl _ mfl s a); lia || done|].
  intros [r|] s1 Hres; cbv iota.
  2:{ destruct Hres as (fr & -> & _). wp_step. split; [by apply vinv_freed|]. rewrite decide_False by done. left.
      split; [done|]. split; [done|split_and!; done|done|done]. }
  destruct Hres as (Em & Es & (l1 & l2 & Hpu) & _). destruct (Hmem (r_id r) Em) as [Hun _].
  assert (vinv s1) as Hv1 by (by eapply put_in_vinv). destruct (put_in_lookup s asp a r l1 l2 s1 Ha Hpu) as [Hlk _].
  destruct (vi_aspace s1 Hv1 asp _ Hlk) as [_ Hnd]. pose proof Hpu as [E1 Hsp Hr _]. change PAGE_SIZE with 4096.
  assert (0 <= size / 4096 < 2 ^ 32) as Hq by (split; [apply Z.div_pos; lia|apply Z.div_lt_upper_bound; lia]).
  rewrite u32_small by lia. unfold do_map. wp_step. do 2 wp_step.
  destruct (arch_mmu_map asp (r_base r) pa (size / 4096) mfl (v_mmu s1)) as [err m'] eqn:Emap. do 3 wp_step.
  destruct (Z.ltb_spec err NO_ERROR) as [Herr|Herr].
  - wp_step. eapply wp_mono; [by apply (undo_put_in asp a r l1 l2 s s1)|]. intros _ s3 [m3 ->]. unfold free_mem. do 3 wp_step.
    rewrite decide_False by done. match goal with |- vinv ?x /\ _ => assert (gave_back s x) as Hg end.
    { rewrite E1. split; [done|split_and!; done|done|done]. }
    split; [apply (gave_back_vinv s); [done..|rewrite E1; apply Hi]|]. by left.
  - wp_step. split; [by apply vinv_mmu|]. rewrite decide_False by done. right. exists r, l1, l2.
    destruct (mmu_map_ok _ _ _ _ _ _ _ _ Emap Herr) as [M1 _]. rewrite Es in Hsp.
    split_and!; try done; try apply Hsp; by rewrite E1.
Qed.

(** ** The life of an address space *)

Definition region_pages (pm : pmm) (l : list vmm_region) : list Z := l ≫= fun r => fq (plists pm) (CallerList (r_id r)).

Lemma unmap_regions_wp asp l : forall s,
  wp (unmap_regions asp l) (fun _ s' => v_pmm s' = v_pmm s /\ v_list s' = v_list s /\ v_current s' = v_current s /\ delete asp (v_aspaces s') = delete asp (v_aspaces s)) s.
Proof using All.
  induction l as [|r l IH]; intros s; cbn [unmap_regions]; [by wp_step|].
  unfold put_regions, do_unmap. do 4 wp_step. eapply wp_mono; [apply IH|]. intros _ s' (E1 & E2 & E3 & E4).
  split_and!; [done..|]. rewrite E4. simpl. by rewrite delete_alter_eq.
Qed.

(** The pages of the regions are free, the other pages and lists are as they were. *)
Lemma free_regions_wp l : forall s, pinv (v_pmm s) ->
  wp (free_regions l) (fun _ s' => exists pm' fr, s' = set_freed fr (set_vpmm pm' s) /\ pinv pm' /\ (forall p, pages pm' !! p = if decide (p ∈ region_pages (v_pmm s) l)
                               then Some VM_PAGE_STATE_FREE else pages (v_pmm s) !! p)) s.
Proof using All.
  induction l as [|r l IH]; intros s Hi; cbn [free_regions].
  - wp_step. exists (v_pmm s), (v_freed s). split_and!; [by destruct s|done|]. intros p. rewrite decide_False; [done|]. apply not_elem_of_nil.
  - wp_step. apply on_pmm_wp. eapply wp_mono; [by apply pmm_free_wp|]. intros k pm1 (ips & Ei & Hr & -> & _).
    unfold free_mem. do 2 wp_step. eapply wp_mono; [apply IH; by apply gives_pinv|]. intros _ s' (pm' & fr & -> & Hi' & Hp).
    exists pm', fr. split_and!; [done|done|]. intros p. rewrite Hp. simpl v_pmm. rewrite gives_pages, Ei.
    destruct (decide (p ∈ fq (plists (v_pmm s)) (CallerList (r_id r)))) as [Hin|Hin].
    + rewrite (decide_True (P := p ∈ region_pages _ (r :: l))) by (apply elem_of_app; by left). by destruct (decide _).
    + apply decide_ext. unfold region_pages. rewrite bind_cons, elem_of_app, !list_elem_of_bind.
      setoid_rewrite gives_caller. setoid_rewrite list_elem_of_filter. rewrite Ei. naive_solver.
Qed.

(** [vmm_free_aspace]: nothing is left of the address space, and the pages of its regions are free. *)
Lemma vmm_free_aspace_wp asp s : vinv s ->
  wp (vmm_free_aspace asp) (fun res s' => vinv s' /\
    match v_aspaces s !! asp with
    | None => res = ERR_INVALID_ARGS /\ s' = s
    | Some a => res = NO_ERROR /\ v_aspaces s' = delete asp (v_aspaces s) /\
        v_list s' = filter (fun x => x <> asp) (v_list s) /\
        v_current s' = (if decide (v_current s = Some asp) then None else v_current s) /\
        (forall p, pages (v_pmm s') !! p = if decide (p ∈ region_pages (v_pmm s) (as_regions a))
                                          then Some VM_PAGE_STATE_FREE else pages (v_pmm s) !! p)
    end) s.
Proof using All.
  intros Hi. destruct (vi_list s Hi) as [Hnd Hl]. unfold vmm_free_aspace. do 2 wp_step. case_bool_decide as Hin; simpl.
  2:{ wp_step. split; [done|]. rewrite Hl in Hin. destruct (v_aspaces s !! asp); [by destruct Hin|done]. }
  apply Hl in Hin as [a Ha]. rewrite Ha. do 3 wp_step. apply (get_aspace_wp asp a); [done|].
  wp_step. eapply wp_mono; [apply unmap_regions_wp|]. intros _ s1 (E1 & E2 & E3 & E4). simpl in E1, E2, E3, E4.
  wp_step. eapply wp_mono; [apply free_regions_wp; rewrite E1; apply Hi|]. intros _ s2 (pm' & fr & -> & Hi' & Hp). rewrite E1 in Hp.
  do 2 wp_step. simpl v_current. rewrite E3.
  match goal with |- wp ?k ?Q ?x => assert (forall c m, c = (if decide (v_current s = Some asp) then None else v_current s) ->
    wp (modify (fun s => set_mmu (arch_mmu_destroy_aspace asp (v_mmu s)) s) ;; free_mem (AspaceMem asp) ;;
        modify (fun s => set_aspaces (delete asp (v_aspaces s)) s) ;; ret NO_ERROR) Q (set_mmu m (set_current c x))) as Hend end.
  { intros c m Ec. unfold free_mem. do 7 wp_step. split; [|by split_and!]. split; simpl.
    - done.
    - intros asp' a'. rewrite E4, lookup_delete_Some. intros [_ Ha']. by apply (vi_aspace s Hi asp').
    - intros as1 as2 a1 a2 x y. rewrite E4, !lookup_delete_Some. intros [_ H1] [_ H2]. by apply (vi_apart s Hi).
    - rewrite E2. split; [by apply NoDup_filter|]. intros asp'. rewrite E4, list_elem_of_filter, Hl, lookup_delete_is_Some. naive_solver. }
  wp_step. wp_step; case_bool_decide as Ec; try done; intros _.
  - unfold vmm_context_switch. do 3 wp_step. apply (Hend None _). by rewrite decide_True.
  - pose proof (Hend (v_current s1) (v_mmu s1)) as H. simpl in H.
    match goal with H : _ -> wp _ _ ?x |- wp _ _ ?y => replace y with x by (by destruct s1) end. apply H. rewrite decide_False; congruence.
Qed.

Lemma vinv_new_aspace s id a : vinv s -> v_aspaces s !! id = None -> aspace_ok a -> as_regions a = [] ->
  vinv (set_list (id :: v_list s) (set_aspaces (<[id := a]> (v_aspaces s)) s)).
Proof using All.
  intros Hi Hid Hok Er. destruct (vi_list s Hi) as [Hnd Hl]. split; simpl.
  - apply Hi.
  - intros asp' a' [[<- <-]|[_ Ha']]%lookup_insert_Some; [rewrite Er; by split; [|constructor]|by apply (vi_aspace s Hi asp')].
  - intros as1 as2 a1 a2 x y [[<- <-]|[_ H1]]%lookup_insert_Some; [rewrite Er; set_solver +|].
    intros [[<- <-]|[_ H2]]%lookup_insert_Some; [rewrite Er; set_solver +|]. by apply (vi_apart s Hi).
  - split; [constructor; [|done]; rewrite Hl, Hid; by intros [? ?]|]. intros asp'.
    rewrite elem_of_cons, Hl, lookup_insert_is_Some. destruct (decide (id = asp')); naive_solver.
Qed.

Lemma kernel_aspace_ok fl : aspace_ok (Aspace fl KERNEL_ASPACE_BASE KERNEL_ASPACE_SIZE []).
Proof using. split; [vm_compute; split_and!; congruence|split; [by exists 0x80000|by exists 0x80000]|done|constructor]. Qed.

Lemma user_aspace_ok fl : aspace_ok (Aspace fl USER_ASPACE_BASE USER_ASPACE_SIZE []).
Proof using. split; [vm_compute; split_and!; congruence|split; [by exists 0x1000|by exists 0x7e000]|done|constructor]. Qed.

Lemma vmm_create_aspace_wp mem flags s : vinv s -> (forall id, mem = Some id -> v_aspaces s !! id = None) ->
  wp (vmm_create_aspace mem flags) (fun res s' => vinv s' /\
    ((res.1 < 0 /\ res.2 = None /\ v_aspaces s' = v_aspaces s) \/
     (exists id base size, mem = Some id /\ res = (NO_ERROR, Some id) /\ v_list s' = id :: v_list s /\
        v_aspaces s' = <[id := Aspace flags base size []]> (v_aspaces s)))) s.
Proof using All.
  intros Hi Hmem. unfold vmm_create_aspace. destruct mem as [id|]; [|wp_step; split; [done|by left]]. specialize (Hmem id eq_refl).
  set (base := if negb _ then _ else _). set (size := if negb _ then _ else USER_ASPACE_SIZE). do 2 wp_step.
  destruct (arch_mmu_init_aspace _ _ _ _ _) as [err m]. do 2 wp_step. destruct (Z.ltb_spec err 0) as [He|He].
  { unfold free_mem. do 3 wp_step. split; [by apply vinv_freed, vinv_mmu|]. by left. }
  do 5 wp_step. split; [|right; by exists id, base, size]. apply (vinv_new_aspace (set_mmu m s)); [by apply vinv_mmu|done| |done].
  unfold base, size. destruct (negb _); [apply kernel_aspace_ok|apply user_aspace_ok].
Qed.

(** ** Sequences of calls *)

Inductive vmm_op :=
  | ReserveSpace (asp : nat) (mem : option nat) (size vaddr : Z)
  | AllocPhysical (asp : nat) (mem : option nat) (size : Z) (ptr : option Z) (align paddr fl mfl : Z)
  | AllocContiguousRegion (asp : nat) (mem : option nat) (pl : nat) (size : Z) (ptr : option Z) (align fl mfl : Z)
  | AllocRegion (asp : nat) (mem : option nat) (pl : nat) (size : Z) (ptr : option Z) (align fl mfl : Z)
  | FreeRegion (asp : nat) (vaddr : Z)
  | CreateAspace (mem : option nat) (flags : Z)
  | FreeAspace (asp : nat)
  | SetActiveAspace (asp : option nat).

Definition run_vop (op : vmm_op) : M (vmm A) unit :=
  match op with
  | ReserveSpace asp mem size v => vmm_reserve_space asp mem size v ;; ret tt
  | AllocPhysical asp mem size ptr al pa fl mfl => vmm_alloc_physical asp mem size ptr al pa fl mfl ;; ret tt
  | AllocContiguousRegion asp mem pl size ptr al fl mfl => vmm_alloc_contiguous asp mem pl size ptr al fl mfl ;; ret tt
  | AllocRegion asp mem pl size ptr al fl mfl => vmm_alloc asp mem pl size ptr al fl mfl ;; ret tt
  | FreeRegion asp v => vmm_free_region asp v ;; ret tt
  | CreateAspace mem fl => vmm_create_aspace mem fl ;; ret tt
  | FreeAspace asp => vmm_free_aspace asp ;; ret tt
  | SetActiveAspace asp => vmm_set_active_aspace asp ;; ret tt
  end.

(** What the callers owe: an address space that exists, memory that is not in use, and addresses and sizes of whole
    pages where the functions assert it. *)
Definition vlegal s (op : vmm_op) : Prop :=
  match op with
  | ReserveSpace asp mem size v => is_Some (v_aspaces s !! asp) /\ fresh s mem /\ 0 <= size < 2 ^ 64 /\ (4096 | size) /\ 0 <= v /\ (4096 | v)
  | AllocPhysical asp mem size ptr al pa fl _ => is_Some (v_aspaces s !! asp) /\ fresh s mem /\ 0 <= size < 2 ^ 43 /\ (4096 | size) /\
      (4096 | pa) /\ 0 <= al < 64 /\ (specific fl = true -> forall v, ptr = Some v -> 0 <= v /\ (4096 | v))
  | AllocContiguousRegion asp mem pl size ptr al fl _ | AllocRegion asp mem pl size ptr al fl _ =>
      exists a, alloc_args s asp a mem pl size ptr al fl
  | FreeRegion asp _ => is_Some (v_aspaces s !! asp)
  | CreateAspace mem _ => forall id, mem = Some id -> v_aspaces s !! id = None
  | FreeAspace _ | SetActiveAspace _ => True
  end.

Lemma vmm_set_active_wp (new : option nat) s : vinv s ->
  wp (vmm_set_active_aspace new) (fun old s' => vinv s' /\ old = v_current s /\ v_current s' = new) s.
Proof using All.
  intros Hi. unfold vmm_set_active_aspace. do 2 wp_step. case_bool_decide as E; [by wp_step|].
  unfold vmm_context_switch. do 5 wp_step. split; [|done].
  split; [apply Hi|apply (vi_aspace s Hi)|apply (vi_apart s Hi)|apply (vi_list s Hi)].
Qed.

Lemma run_vop_wp op s : vinv s -> vlegal s op -> wp (run_vop op) (fun _ s' => vinv s') s.
Proof.
  intros Hi Hl. destruct op; simpl in *; wp_step;
    repeat match goal with H : _ /\ _ |- _ => destruct H | H : is_Some _ |- _ => destruct H | H : exists _, _ |- _ => destruct H end;
    (eapply wp_mono; [first [by eapply vmm_reserve_space_wp | by eapply vmm_alloc_physical_wp | by eapply vmm_alloc_contiguous_wp
      | by eapply vmm_alloc_wp | by eapply vmm_free_region_wp | by eapply vmm_create_aspace_wp | by eapply vmm_free_aspace_wp
      | by eapply vmm_set_active_wp]|]); simpl; intros res s' [Hv _]; by wp_step.
Qed.

Definition vmm_boot (pm : pmm) (m : A) : vmm A := Vmm pm ∅ [] m [] None.
Definition vmm_step s s' : Prop := exists op, vlegal s op /\ run_vop op s = Done tt s'.

Lemma vmm_boot_vinv pm m : pinv pm -> vinv (vmm_boot pm m).
Proof using All. intros Hp. split; simpl; [done|by intros ??|by intros ???????|]. split; [constructor|]. intros asp. rewrite lookup_empty. split; [by intros ?%not_elem_of_nil|by intros [? ?]]. Qed.

Lemma vmm_init_preheap_wp kernel pm m : pinv pm ->
  wp (vmm_init_preheap kernel) (fun _ s' => vinv s' /\ v_pmm s' = pm /\ v_list s' = [kernel] /\
    v_mmu s' = (arch_mmu_init_aspace kernel KERNEL_ASPACE_BASE KERNEL_ASPACE_SIZE ARCH_ASPACE_FLAG_KERNEL m).2) (vmm_boot pm m).
Proof using All.
  intros Hp. unfold vmm_init_preheap. do 7 wp_step. split; [|done]. pose proof (vmm_boot_vinv pm m Hp) as Hi.
  match goal with |- vinv (set_list _ (set_mmu ?mm _)) =>
    pose proof (vinv_new_aspace (set_mmu mm (vmm_boot pm m)) kernel _ ltac:(by apply vinv_mmu) eq_refl (kernel_aspace_ok VMM_ASPACE_FLAG_KERNEL) eq_refl) as H end.
  exact H.
Qed.

(** ** The promises *)


(** C15. [alloc_spot] is first fit and complete: it returns the lowest aligned address at which
    [size] bytes are inside the address space and clear of every region, with the place in the list where the new
    region belongs, and "none" exactly when there is no such address, also where sums of
    addresses wrap around at the top of the 64-bit space. *)
Theorem alloc_spot_first_fit a size align (Ha : aspace_ok a) (Hal : 0 <= align < 64) (Hsz : 0 < size < 2 ^ 64) (Hd : (4096 | size)) :
  exists v m, alloc_spot a size align = Some (v, m) /\
    let spot v := as_base a <= v /\ v + size <= as_end a /\ (2 ^ Z.max align 12 | v) /\
                  forall x, x ∈ as_regions a -> v + size <= r_base x \/ r_end x <= v in
    ((v = VADDR_NONE /\ forall v', ~ spot v') \/
     (exists n, m = Some n /\ v <> VADDR_NONE /\ spot v /\ (forall v', spot v' -> v <= v') /\
        splits (as_regions a) (take n (as_regions a)) (drop n (as_regions a)) v size)).
Proof using.
  destruct (alloc_spot_spec a size align Ha Hal Hsz Hd) as (v & m & E & H). exists v, m. split; [done|]. intros spot.
  assert (forall v', spot v' <-> spot_from a (Z.max align 12) size (as_base a) (as_regions a) v') as Hiff.
  { intros v'. split; [intros (? & ? & ? & ?); by split|by intros [[? ?] ? ?]]. }
  setoid_rewrite Hiff. destruct H as [H|(n & -> & [[? _]|(H1 & H2 & H3 & H4 & _)] & Hne)]; [by left|done|]. right. by exists n.
Qed.

(** C16. [vmm_alloc] either returns a region that is where it was asked for, or at the lowest spot, backed by the first
    free pages of the pool, each mapped at its place in the region; or it fails, for lack of pages, of memory for the structure
    or of a place, or because the architecture would not map a page, and then every page is
    back in the pool and the regions and [*ptr] are as they were. *)
Theorem vmm_alloc_exact asp mem pl size ptr align fl mfl s a (Hi : vinv s) (Harg : alloc_args s asp a mem pl size ptr align fl) :
  wp (vmm_alloc asp mem pl size ptr align fl mfl) (fun res s' => vinv s' /\
    let sz := ROUNDUP size PAGE_SIZE in
    ((alloc_error asp a mem align fl mfl sz ptr 1 (Z.of_nat (length (avail PMM_ALLOC_FLAG_ANY (v_pmm s))) * 4096 < sz) res.1 /\
      res.2 = ptr /\ gave_back s s') \/
     (exists r n, mem = Some (r_id r) /\ r_size r = sz /\ res = (NO_ERROR, (fun _ => r_base r) <$> ptr) /\
        placed a align fl sz (default 0 ptr) (r_base r) /\ got_region s asp a r (take n (avail PMM_ALLOC_FLAG_ANY (v_pmm s))).*2 s'))) s.
Proof. by apply vmm_alloc_wp. Qed.

(** [vmm_alloc_contiguous] maps a region to one run of physical pages at a multiple of the alignment; it fails only when no arena has
    such a run, or as [vmm_alloc] does, and then gives the run and the region back. *)
Theorem vmm_alloc_contiguous_exact asp mem pl size ptr align fl mfl s a (Hi : vinv s) (Harg : alloc_args s asp a mem pl size ptr align fl) :
  wp (vmm_alloc_contiguous asp mem pl size ptr align fl mfl) (fun res s' => vinv s' /\
    let sz := ROUNDUP size PAGE_SIZE in
    ((alloc_error asp a mem align fl mfl sz ptr (sz / 4096)
        (forall id b c, arenas (v_pmm s) !! id = Some b -> ~ aligned_run (v_pmm s) b (sz / 4096) (Z.max align 12) c) res.1 /\
      gave_back s s') \/
     (exists r id b c n, mem = Some (r_id r) /\ r_size r = sz /\ res = (NO_ERROR, (fun _ => r_base r) <$> ptr) /\
        placed a align fl sz (default 0 ptr) (r_base r) /\ arenas (v_pmm s) !! id = Some b /\ (2 ^ Z.max align 12 | a_base b + c * 4096) /\
        got_region s asp a r (run_pages b c n) s'))) s.
Proof. by apply vmm_alloc_contiguous_wp. Qed.

(** [vmm_reserve_space] reserves exactly what is asked for cut to the end of the address space, also when the
    end of the request wraps around; an address outside is out of range, an occupied range an error, and neither changes a region. *)
Theorem vmm_reserve_space_exact asp mem size vaddr s a (Hi : vinv s) (Ha : v_aspaces s !! asp = Some a) (Hmem : fresh s mem)
    (Hsz : 0 <= size < 2 ^ 64) (Hd : (4096 | size)) (Hv : 0 <= vaddr) (Hvd : (4096 | vaddr)) :
  wp (vmm_reserve_space asp mem size vaddr) (fun res s' => vinv s' /\
    if decide (size = 0) then res = NO_ERROR /\ s' = s
    else if decide (as_base a <= vaddr < as_end a) then
      let sz := Z.min size (as_end a - vaddr) in
      (res = NO_ERROR /\ exists r l1 l2, mem = Some (r_id r) /\ r_base r = vaddr /\ r_size r = sz /\ put_in s asp a r l1 l2 s') \/
      (res = ERR_NO_MEMORY /\ (exists fr, s' = set_freed fr s) /\ (mem = None \/ ~ clear a (as_regions a) sz vaddr))
    else res = ERR_OUT_OF_RANGE /\ s' = s) s.
Proof using All. by apply vmm_reserve_space_wp. Qed.

(** A region that was put in is the one found at its addresses. *)
Lemma free_put_in asp a r l1 l2 l1' r' l2' v s1 s : vinv s1 -> v_aspaces s !! asp = Some a ->
  v_aspaces s1 = alter (set_regions (l1 ++ r :: l2)) asp (v_aspaces s) -> as_regions a = l1 ++ l2 ->
  l1 ++ r :: l2 = l1' ++ r' :: l2' -> r_base r' <= v < r_end r' -> r_base r <= v < r_end r ->
  r' = r /\ alter (set_regions (l1' ++ l2')) asp (v_aspaces s1) = v_aspaces s.
Proof using All.
  intros Hi1 Ha Ea Er E Hv' Hv. assert (v_aspaces s1 !! asp = Some (set_regions (l1 ++ r :: l2) a)) as Hlk by (by rewrite Ea, lookup_alter_eq, Ha).
  destruct (vi_aspace s1 Hi1 asp _ Hlk) as [Hok Hnd]. simpl in Hnd.
  pose proof (find_region_unique _ l1' r' l2' v Hok E Hv') as F. rewrite (find_region_unique _ l1 r l2 v Hok eq_refl Hv) in F. injection F as <-.
  split; [done|]. rewrite <- (filter_id_remove l1' r l2') by (by rewrite <- E). rewrite <- E, filter_id_remove by done. rewrite <- Er, Ea.
  apply map_eq. intros asp'. destruct (decide (asp = asp')) as [<-|]; [|by rewrite !lookup_alter_ne]. rewrite !lookup_alter_eq, Ha. by destruct a.
Qed.

(** C17. Freeing what was allocated restores everything: when [vmm_alloc] succeeds, [vmm_free_region] at any address in the
    region does too, and with or without success the two leave the regions of every address space, and the pages, the arenas and, up to their order, the free lists, as they were. *)
Theorem vmm_alloc_free_roundtrip asp mem pl size v align fl mfl off s a (Hi : vinv s)
    (Harg : alloc_args s asp a mem pl size (Some v) align fl) (Hoff : 0 <= off < size) :
  wp (do res <- vmm_alloc asp mem pl size (Some v) align fl mfl;
      if res.1 <? 0 then ret (res.1, None) else do rc <- vmm_free_region asp (default 0 res.2 + off); ret (res.1, Some rc))
    (fun res s' => vinv s' /\ (res.1 < 0 /\ res.2 = None \/ res = (NO_ERROR, Some NO_ERROR)) /\ v_aspaces s' = v_aspaces s /\ pool_as_before (v_pmm s) (v_pmm s')) s.
Proof.
  pose proof Harg as [Ha Hsz _ _ _ _]. destruct (rounded_size size Hsz) as (Hs1 & _ & _ & _). wp_step. eapply wp_mono; [by apply vmm_alloc_wp|].
  intros res s1 [Hi1 [(Herr & _ & [Ea Ep _ _])|(r & n & _ & Ersz & -> & _ & [(l1 & l2 & [Er _] & Ea) Hr [Eps _] _ (pl0 & ips & Hpl0 & Ht & Ei & Ep1 & Ea1)])]].
  - assert (res.1 < 0) as Hneg by (destruct Herr as [[-> _]|[[-> _]|[[-> _]|[? _]]]]; done).
    rewrite (proj2 (Z.ltb_lt _ _)) by done. wp_step. split_and!; [done|by left|done|apply Ep..].
  - cbn [fst snd default fmap option_fmap option_map NO_ERROR]. rewrite Z.ltb_irrefl.
    assert (v_aspaces s1 !! asp = Some (set_regions (l1 ++ r :: l2) a)) as Hlk by (by rewrite Ea, lookup_alter_eq, Ha).
    assert (r_base r <= r_base r + off < r_end r) as Hv by (unfold r_end; lia).
    wp_step. eapply wp_mono; [by apply (vmm_free_region_wp asp _ s1 _ Hi1 Hlk)|].
    intros res s2 [Hi2 [(-> & r' & l1' & l2' & ips' & E & Hv' & Ea2 & _ & Eips & Hret & Epm)|(_ & _ & Hno)]];
      [|exfalso; apply (Hno r); [simpl; set_solver +|done]].
    destruct (free_put_in asp a r l1 l2 l1' r' l2' (r_base r + off) s1 s Hi1 Ha Ea Er E Hv' Hv) as [-> E2].
    assert (pool_as_before (v_pmm s) (v_pmm s2)) as Hb.
    { apply (start_pool_before pl0). rewrite Epm. apply (grabs_gives_restore _ (Some pl0) ips (v_pmm s1)); try done;
        [apply pinv_initialize; [apply Hi|done]|apply Hi1|congruence]. }
    wp_step. split; [done|]. split; [by right|]. split; [congruence|done].
Qed.
End vmm.

(** ** A page table *)

Module VmmExample.

(** Physical address and flags of each mapped page; whole pages are mapped, nothing else. *)
Definition table : Type := gmap (nat * Z) (Z * Z).

Fixpoint map_range (asp : nat) (va pa : Z) (n : nat) (fl : Z) (m : gmap (nat * Z) (Z * Z)) : gmap (nat * Z) (Z * Z) :=
  match n with O => m | S n => <[(asp, va) := (pa, fl)]> (map_range asp (va + 4096) (pa + 4096) n fl m) end.

Fixpoint unmap_range (asp : nat) (va : Z) (n : nat) (m : gmap (nat * Z) (Z * Z)) : gmap (nat * Z) (Z * Z) :=
  match n with O => m | S n => delete (asp, va) (unmap_range asp (va + 4096) n m) end.

#[export] Instance table_mmu : Mmu table := {
  arch_mmu_map asp va pa n fl m :=
    if (va mod 4096 =? 0) && (pa mod 4096 =? 0) then (NO_ERROR, map_range asp va pa (Z.to_nat n) fl m) else (ERR_INVALID_ARGS, m);
  arch_mmu_unmap asp va n m := unmap_range asp va (Z.to_nat n) m;
  arch_mmu_query asp va m := m !! (asp, va);
  arch_mmu_init_aspace _ _ _ _ m := (NO_ERROR, m);
  arch_mmu_destroy_aspace asp m := m;
  arch_mmu_context_switch _ m := m }.

Lemma map_range_lookup asp va pa fl n m : 
  (forall i, 0 <= i < Z.of_nat n -> fst <$> map_range asp va pa n fl m !! (asp, va + i * 4096) = Some (pa + i * 4096)) /\
  (forall as' va', as' <> asp \/ va' < va \/ va + Z.of_nat n * 4096 <= va' -> map_range asp va pa n fl m !! (as', va') = m !! (as', va')).
Proof.
  revert va pa. induction n as [|n IH]; intros va pa; cbn [map_range]; [split; [lia|done]|]. destruct (IH (va + 4096) (pa + 4096)) as [H1 H2]. split.
  - intros i Hi. destruct (decide (i = 0)) as [->|Hne].
    + replace (va + 0 * 4096) with va by lia. rewrite lookup_insert_eq. simpl. f_equal. lia.
    + rewrite lookup_insert_ne by (intros [=]; lia). replace (va + i * 4096) with (va + 4096 + (i - 1) * 4096) by lia.
      rewrite H1 by lia. f_equal. lia.
  - intros as' va' Hout. rewrite lookup_insert_ne by (intros [= ? ?]; destruct Hout as [?|?]; [done|lia]). apply H2.
    destruct Hout as [?|?]; [by left|right; lia].
Qed.

#[export] Instance table_laws : MmuLaws table.
Proof.
  split. intros asp va pa n fl m err m' E He. simpl in E. destruct (_ && _); injection E as <- <-; [|unfold ERR_INVALID_ARGS in He; lia].
  destruct (map_range_lookup asp va pa fl (Z.to_nat n) m) as [H1 H2]. split.
  - intros i Hi. apply H1. lia.
  - intros as' va' Hout. simpl. apply H2. lia.
Qed.

(** The pool of the two arenas, and the kernel's address space as structure 0. *)
Definition v0 : vmm table :=
  match vmm_init_preheap 0 (vmm_boot PmmExample.s2 (∅ : table)) with Done _ s => s | Fault _ => vmm_boot PmmExample.s2 ∅ end.

Definition kernel_aspace : vmm_aspace := Aspace VMM_ASPACE_FLAG_KERNEL KERNEL_ASPACE_BASE KERNEL_ASPACE_SIZE [].

Lemma v0_aspace : v_aspaces v0 !! 0%nat = Some kernel_aspace.
Proof. by vm_compute. Qed.

Lemma v0_vinv : vinv v0.
Proof.
  pose proof (vmm_init_preheap_wp 0 PmmExample.s2 (∅ : table) PmmExample.s2_pinv) as H. unfold wp in H.
  assert (vmm_init_preheap 0 (vmm_boot PmmExample.s2 (∅ : table)) = Done tt v0) as E by (by vm_compute). rewrite E in H. apply H.
Qed.

Lemma v0_fresh n : (1 <= n)%nat -> fresh v0 (Some n).
Proof.
  intros Hn id [= <-]. split.
  - intros asp a x Ha Hx. assert (v_aspaces v0 = {[0%nat := kernel_aspace]}) as E by (by vm_compute). rewrite E in Ha.
    apply lookup_singleton_Some in Ha as [_ <-]. set_solver.
  - assert (forall id, plists (v_pmm v0) !! CallerList id = None) as E.
    { intros id. assert (dom (plists (v_pmm v0)) = {[FreeList 0; FreeList 1]}) as E by (by vm_compute).
      apply not_elem_of_dom. rewrite E. set_solver +. }
    unfold fq. by rewrite E.
Qed.

Lemma v0_args size fl : 0 < size < 2 ^ 43 -> alloc_args v0 0 kernel_aspace (Some 1%nat) 2 size (Some 0x80004000) 13 fl.
Proof.
  intros Hs. split; [apply v0_aspace|done|lia|by apply v0_fresh|split; [apply (v0_fresh 2); [lia|done]|congruence]|].
  intros _ v [= <-]. split; [lia|by exists 0x80004].
Qed.


(** Between two regions at the top of the 64-bit space, 16 KiB aligned. *)
Lemma alloc_spot_first_fit_witness :
  let a := Aspace 0 (2 ^ 64 - 0x20000) 0x1f000 [Region 1 0 0 (2 ^ 64 - 0x20000) 0x5000; Region 2 0 0 (2 ^ 64 - 0x10000) 0x4000] in
  exists v m, alloc_spot a 0x3000 14 = Some (v, m) /\
    let spot v := as_base a <= v /\ v + 0x3000 <= as_end a /\ (2 ^ Z.max 14 12 | v) /\
                  forall x, x ∈ as_regions a -> v + 0x3000 <= r_base x \/ r_end x <= v in
    ((v = VADDR_NONE /\ forall v', ~ spot v') \/
     (exists n, m = Some n /\ v <> VADDR_NONE /\ spot v /\ (forall v', spot v' -> v <= v') /\
        splits (as_regions a) (take n (as_regions a)) (drop n (as_regions a)) v 0x3000)).
Proof.
  intros a. apply (alloc_spot_first_fit a 0x3000 14); [|lia|lia|by exists 3]. split.
  - vm_compute. split_and!; congruence.
  - split; [by exists (2 ^ 52 - 0x20)|by exists 0x1f].
  - repeat constructor; try (vm_compute; congruence); [by exists (2 ^ 52 - 0x20)|by exists 5|by exists (2 ^ 52 - 0x10)|by exists 4].
  - repeat constructor. vm_compute. congruence.
Defined.

(** Three pages at the address asked for. *)
Lemma vmm_alloc_exact_witness :
  (exists s', vmm_alloc 0 (Some 1%nat) 2 10000 (Some 0x80004000) 13 1 0 v0 = Done (NO_ERROR, Some 0x80004000) s') /\
  wp (vmm_alloc 0 (Some 1%nat) 2 10000 (Some 0x80004000) 13 1 0) (fun res s' => vinv s' /\
    let sz := ROUNDUP 10000 PAGE_SIZE in
    ((alloc_error 0 kernel_aspace (Some 1%nat) 13 1 0 sz (Some 0x80004000) 1
        (Z.of_nat (length (avail PMM_ALLOC_FLAG_ANY (v_pmm v0))) * 4096 < sz) res.1 /\ res.2 = Some 0x80004000 /\ gave_back v0 s') \/
     (exists r n, Some 1%nat = Some (r_id r) /\ r_size r = sz /\ res = (NO_ERROR, (fun _ => r_base r) <$> Some 0x80004000) /\
        placed kernel_aspace 13 1 sz 0x80004000 (r_base r) /\
        got_region v0 0 kernel_aspace r (take n (avail PMM_ALLOC_FLAG_ANY (v_pmm v0))).*2 s'))) v0.
Proof.
  split; [vm_compute; by eexists|].
  apply (vmm_alloc_exact 0 (Some 1%nat) 2 10000 (Some 0x80004000) 13 1 0 v0 kernel_aspace v0_vinv). by apply v0_args.
Defined.

(** Two pages in a row at a multiple of 8 KiB. *)
Lemma vmm_alloc_contiguous_exact_witness :
  (exists s', vmm_alloc_contiguous 0 (Some 1%nat) 2 8000 (Some 0x80004000) 13 0 0 v0 = Done (NO_ERROR, Some 0x80000000) s') /\
  wp (vmm_alloc_contiguous 0 (Some 1%nat) 2 8000 (Some 0x80004000) 13 0 0) (fun res s' => vinv s' /\
    let sz := ROUNDUP 8000 PAGE_SIZE in
    ((alloc_error 0 kernel_aspace (Some 1%nat) 13 0 0 sz (Some 0x80004000) (sz / 4096)
        (forall id b c, arenas (v_pmm v0) !! id = Some b -> ~ aligned_run (v_pmm v0) b (sz / 4096) (Z.max 13 12) c) res.1 /\
      gave_back v0 s') \/
     (exists r id b c n, Some 1%nat = Some (r_id r) /\ r_size r = sz /\ res = (NO_ERROR, (fun _ => r_base r) <$> Some 0x80004000) /\
        placed kernel_aspace 13 0 sz 0x80004000 (r_base r) /\ arenas (v_pmm v0) !! id = Some b /\
        (2 ^ Z.max 13 12 | a_base b + c * 4096) /\ got_region v0 0 kernel_aspace r (run_pages b c n) s'))) v0.
Proof.
  split; [vm_compute; by eexists|].
  apply (vmm_alloc_contiguous_exact 0 (Some 1%nat) 2 8000 (Some 0x80004000) 13 0 0 v0 kernel_aspace v0_vinv). by apply v0_args.
Defined.

(** A request that ends beyond the address space, and beyond the 64 bits. *)
Lemma vmm_reserve_space_exact_witness :
  wp (vmm_reserve_space 0 (Some 1%nat) (2 ^ 64 - 4096) 0xfffff000) (fun res s' => vinv s' /\
    if decide (2 ^ 64 - 4096 = 0) then res = NO_ERROR /\ s' = v0
    else if decide (as_base kernel_aspace <= 0xfffff000 < as_end kernel_aspace) then
      let sz := Z.min (2 ^ 64 - 4096) (as_end kernel_aspace - 0xfffff000) in
      (res = NO_ERROR /\ exists r l1 l2, Some 1%nat = Some (r_id r) /\ r_base r = 0xfffff000 /\ r_size r = sz /\ put_in v0 0 kernel_aspace r l1 l2 s') \/
      (res = ERR_NO_MEMORY /\ (exists fr, s' = set_freed fr v0) /\ (Some 1%nat = None \/ ~ clear kernel_aspace (as_regions kernel_aspace) sz 0xfffff000))
    else res = ERR_OUT_OF_RANGE /\ s' = v0) v0.
Proof.
  apply (vmm_reserve_space_exact 0 (Some 1%nat) (2 ^ 64 - 4096) 0xfffff000 v0 kernel_aspace v0_vinv v0_aspace);
    [by apply v0_fresh|lia|by exists (2 ^ 52 - 1)|lia|by exists 0xfffff].
Defined.

Lemma vmm_alloc_free_roundtrip_witness :
  wp (do res <- vmm_alloc 0 (Some 1%nat) 2 10000 (Some 0x80004000) 13 1 0;
      if res.1 <? 0 then ret (res.1, None) else do rc <- vmm_free_region 0 (default 0 res.2 + 9999); ret (res.1, Some rc))
    (fun res s' => vinv s' /\ (res.1 < 0 /\ res.2 = None \/ res = (NO_ERROR, Some NO_ERROR)) /\ v_aspaces s' = v_aspaces v0 /\ pool_as_before (v_pmm v0) (v_pmm s')) v0.
Proof.
  apply (vmm_alloc_free_roundtrip 0 (Some 1%nat) 2 10000 0x80004000 13 1 0 9999 v0 kernel_aspace v0_vinv); [by apply v0_args|lia].
Defined.
End VmmExample.
