(* ===== verification/Vm.v ===== *)
(** * Virtual memory at start-up and address translation

    [vm/vm.c]: the pages of the kernel's image and of the boot allocator are taken out of the
    pool, the initial mappings become reserved regions, and addresses are translated both ways.
    The table [mmu_initial_mappings] belongs to the platform: it is an argument, as are the addresses of
    the image; the empty list is its end. *)

From stdpp Require Import base gmap list numbers sorting.
From S2P Require Import Prelude ListNode Align Pmm PmmSpec Vmm VmmSpec.
Import Family.

Definition MMU_INITIAL_MAPPING_TEMPORARY : Z := 1.

Record mmu_initial_mapping := Mapping {
  m_phys : Z;
  m_virt : Z;
  m_size : Z;
  m_flags : Z }.

Definition is_kernel_address (va : Z) : bool :=
  (KERNEL_ASPACE_BASE <=? va) && (va <=? u64 (KERNEL_ASPACE_BASE + (KERNEL_ASPACE_SIZE - 1))).

Definition is_user_address (va : Z) : bool :=
  (USER_ASPACE_BASE <=? va) && (va <=? u64 (USER_ASPACE_BASE + (USER_ASPACE_SIZE - 1))).

Definition temporary (m : mmu_initial_mapping) : bool := negb (Z.land (m_flags m) MMU_INITIAL_MAPPING_TEMPORARY =? 0).

Fixpoint paddr_to_kvaddr (maps : list mmu_initial_mapping) (pa : Z) : Z :=
  match maps with
  | [] => 0
  | map :: maps =>
      if m_size map <=? 0 then 0
      else if negb (temporary map) && (m_phys map <=? pa) && (pa <=? u64 (m_phys map + m_size map - 1))
      then u64 (m_virt map + (pa - m_phys map))
      else paddr_to_kvaddr maps pa
  end.

(** Its size and its address. *)
Definition kvaddr_get_range (maps : list mmu_initial_mapping) : option (Z * Z) :=
  match maps with [] => None | map :: _ => Some (m_size map, m_virt map) end.

Section ops.
Context {A : Type} {MA : Mmu A}.

(** [kernel] is the kernel's address space. *)
Definition vaddr_to_aspace (kernel : nat) (s : vmm A) (ptr : Z) : option nat :=
  if is_kernel_address ptr then Some kernel
  else if is_user_address ptr then v_current s
  else None.

Definition vaddr_to_paddr (kernel : nat) (s : vmm A) (ptr : Z) : Z :=
  match vaddr_to_aspace kernel s ptr with
  | None => 0
  | Some asp => match arch_mmu_query asp ptr (v_mmu s) with Some (pa, _) => pa | None => 0 end
  end.

(** The loop of [mark_pages_in_use] from [offset] on. *)
Fixpoint mark_from (fuel : nat) (kernel ls : nat) (va len offset : Z) : M (vmm A) unit :=
  match fuel with
  | O => fail OutOfFuel
  | S fuel =>
      if offset <? len then
        do s <- gets (fun s => s);
        match arch_mmu_query kernel (u64 (va + offset)) (v_mmu s) with
        | Some (pa, _) => on_pmm (pmm_alloc_range pa 1 ls) ;; mark_from fuel kernel ls va len (u64 (offset + PAGE_SIZE))
        | None => fail Panic
        end
      else ret tt
  end.

(** [ls] is the local list of the function. *)
Definition mark_pages_in_use (kernel ls : nat) (va len : Z) : M (vmm A) unit :=
  on_pmm (list_initialize (CallerList ls)) ;;
  let len := ALIGN (u64 (len + Z.land va (PAGE_SIZE - 1))) PAGE_SIZE in
  let va := ROUNDDOWN va PAGE_SIZE in
  mark_from (S (Z.to_nat (len / PAGE_SIZE))) kernel ls va len 0.

(** [start] and [end_] are [&_start] and [&_end]; the boot allocator starts at the end of the image. *)
Definition vm_init_preheap (kernel ls1 ls2 : nat) (start end_ : Z) : M (vmm A) unit :=
  vmm_init_preheap kernel ;;
  mark_pages_in_use kernel ls1 start (u64 (end_ - start)) ;;
  do s <- gets (fun s => s);
  let boot_end := boot_alloc_end (v_pmm s) in
  when (negb (boot_end =? end_)) (mark_pages_in_use kernel ls2 end_ (u64 (boot_end - end_))).

(** [mems] is the memory for the regions, one for each mapping. *)
Fixpoint vm_init_postheap (kernel : nat) (mems : list (option nat)) (maps : list mmu_initial_mapping) : M (vmm A) unit :=
  match maps with
  | [] => ret tt
  | map :: maps =>
      if m_size map <=? 0 then ret tt
      else
        when (negb (temporary map))
          (do _ <- vmm_reserve_space kernel (default None (head mems)) (m_size map) (m_virt map); ret tt) ;;
        vm_init_postheap kernel (tail mems) maps
  end.
End ops.

(** ** Marking pages *)

Section marking.
Context {A : Type} {MA : Mmu A} {LA : MmuLaws A}.
Implicit Types (s : vmm A) (pm : pmm).

(** No arena has a free page at a physical address. *)
Definition not_free pm (pa : Z) : Prop := forall id, nothing_at pm id pa.

(** Pages have only been taken, and only at addresses in [pas]. *)
Record marks pm (pas : list Z) pm' : Prop := {
  mk_pinv : pinv pm';
  mk_arenas : forall id, set_free_count 0 <$> arenas pm' !! id = set_free_count 0 <$> arenas pm !! id;
  mk_boot : boot_alloc_end pm' = boot_alloc_end pm;
  mk_done : forall pa, pa ∈ pas -> not_free pm' pa;
  mk_only : forall p, pages pm' !! p = pages pm !! p \/
    (pages pm !! p = Some VM_PAGE_STATE_FREE /\ pages pm' !! p = Some VM_PAGE_STATE_ALLOC /\
     exists id a pa, pa ∈ pas /\ arenas pm !! id = Some a /\ inside a pa /\ p = page_of a pa) }.

Lemma static_arena pm pm' id a : (forall id, set_free_count 0 <$> arenas pm' !! id = set_free_count 0 <$> arenas pm !! id) ->
  arenas pm' !! id = Some a -> exists b, arenas pm !! id = Some b /\ (forall pa, inside a pa <-> inside b pa) /\ (forall pa, page_of a pa = page_of b pa).
Proof.
  intros E Ha. specialize (E id). rewrite Ha in E. symmetry in E. apply fmap_Some in E as (b & Hb & E). injection E as _ _ Eb Es Ep.
  exists b. unfold inside, page_of, page_at. by rewrite Eb, Es, Ep.
Qed.

Lemma marks_nil pm : pinv pm -> marks pm [] pm.
Proof. intros Hi. split; [done..|set_solver|by left]. Qed.

Lemma marks_app pm pas1 pm1 pas2 pm2 : marks pm pas1 pm1 -> marks pm1 pas2 pm2 -> marks pm (pas1 ++ pas2) pm2.
Proof.
  intros [_ E1 B1 D1 O1] [I2 E2 B2 D2 O2]. split; [done|intros id; by rewrite E2|congruence| |].
  - intros pa [Hpa|Hpa]%elem_of_app; [|by apply D2]. intros id a Ha Hin.
    destruct (static_arena pm1 pm2 id a E2 Ha) as (b & Hb & Ein & Epg). rewrite Epg. destruct (O2 (page_of b pa)) as [->|(_ & -> & _)]; [|done].
    apply (D1 pa Hpa id b Hb). by apply Ein.
  - intros p. destruct (O2 p) as [->|(F2 & ? & id & a & pa & Hpa & Ha & Hin & ->)].
    + destruct (O1 p) as [?|(? & ? & id & a & pa & ? & ?)]; [by left|]. right. split_and!; [done..|]. exists id, a, pa. set_solver.
    + right. destruct (static_arena pm pm1 id a E1 Ha) as (b & Hb & Ein & Epg). destruct (O1 (page_of a pa)) as [E|(_ & E & _)]; [|congruence].
      split_and!; [congruence|done|]. exists id, b, pa. split_and!; [set_solver|done|by apply Ein|done].
Qed.

Lemma mark_one ls pa pm : pinv pm -> mem_apart pm -> (4096 | pa) -> 0 <= pa -> pa + 4096 < 2 ^ 64 ->
  wp (pmm_alloc_range pa 1 ls) (fun _ pm' => marks pm [pa] pm' /\ forall l, l <> ls -> fq (plists pm') (CallerList l) = fq (plists pm) (CallerList l)) pm.
Proof.
  intros Hi Hap Hd H0 Hw. eapply wp_mono; [apply pmm_alloc_range_wp; [done|lia|done|lia]|].
  assert (pa / 4096 * 4096 = pa) as -> by (destruct Hd as [q ->]; by rewrite Z.div_mul).
  intros r pm' (ips & [Ht -> Hloc] & -> & Hle & Hno). destruct ips as [|[id p] [|? ?]]; [| |simpl in Hle; lia].
  - simpl. split; [|done]. split; [done..| |by left]. intros pa' ->%list_elem_of_singleton id a Ha Hin.
    apply (Hno ltac:(done) ltac:(lia) id); [|done|done]. apply (pi_arenas pm Hi). by exists a.
  - destruct (Hloc 0%nat (id, p) eq_refl) as (a & Ha & Hin & Ep). rewrite Z.add_0_r in Hin, Ep. simpl in Ha, Ep. subst p.
    pose proof (proj2 Ht id (page_of a pa) ltac:(set_solver +)) as Hf. destruct (free_page_state pm id _ Hi Hf) as [Hst _].
    split; [|intros l Hl; rewrite grabs_caller, decide_False, app_nil_r by (done || congruence); done].
    split; [by apply grabs_pinv|intros id'; apply grabs_arenas|done| |].
    + intros pa' ->%list_elem_of_singleton id' a' Ha' Hin'.
      destruct (static_arena pm _ id' a' (fun i => grabs_arenas (Some ls) [(id, page_of a pa)] pm i) Ha') as (b & Hb & Ein & Epg).
      rewrite Epg, grabs_pages. apply Ein in Hin'. assert (id' = id) as -> by (by apply (Hap id' id b a pa)).
      rewrite Ha in Hb. injection Hb as <-. rewrite decide_True by set_solver. done.
    + intros p. rewrite grabs_pages. case_decide as Hp; [|by left]. simpl in Hp. apply list_elem_of_singleton in Hp as ->. right.
      split_and!; [done..|]. exists id, a, pa. split_and!; [set_solver|done..].
Qed.

(** The mapping of successive pages: their physical addresses, in order. *)
Definition backed (m : A) (asp : nat) (va : Z) (pas : list Z) : Prop :=
  forall (i : nat) pa, pas !! i = Some pa ->
    (exists fl, arch_mmu_query asp (va + Z.of_nat i * 4096) m = Some (pa, fl)) /\ (4096 | pa) /\ 0 <= pa /\ pa + 4096 < 2 ^ 64.

Definition other_lists (ls : nat) pm pm' : Prop := forall l, l <> ls -> fq (plists pm') (CallerList l) = fq (plists pm) (CallerList l).

Lemma mem_apart_static pm pm' : (forall id, set_free_count 0 <$> arenas pm' !! id = set_free_count 0 <$> arenas pm !! id) -> mem_apart pm -> mem_apart pm'.
Proof.
  intros E Hm id1 id2 a b addr Ha Hb Ia Ib. destruct (static_arena pm pm' id1 a E Ha) as (a0 & Ha0 & Ea & _).
  destruct (static_arena pm pm' id2 b E Hb) as (b0 & Hb0 & Eb & _). apply (Hm id1 id2 a0 b0 addr); [done..|by apply Ea|by apply Eb].
Qed.

Lemma mark_from_wp kernel ls va len pas : forall fuel offset s, pinv (v_pmm s) -> mem_apart (v_pmm s) ->
  backed (v_mmu s) kernel (va + offset) pas -> (length pas < fuel)%nat -> 0 <= va -> 0 <= offset -> va + len <= 2 ^ 64 -> len < 2 ^ 64 ->
  offset + Z.of_nat (length pas) * 4096 = len ->
  wp (mark_from fuel kernel ls va len offset) (fun _ s' => exists pm', s' = set_vpmm pm' s /\ marks (v_pmm s) pas pm' /\ other_lists ls (v_pmm s) pm') s.
Proof.
  induction pas as [|pa pas IH]; intros fuel offset s Hi Hap Hb Hf Hva Hof Hw Hlen E; (destruct fuel as [|fuel]; [simpl in Hf; lia|]); cbn [mark_from].
  - rewrite (proj2 (Z.ltb_ge _ _)) by (simpl in E; lia). wp_step. exists (v_pmm s). split_and!; [by destruct s|by apply marks_nil|done].
  - cbn [length] in E, Hf. rewrite (proj2 (Z.ltb_lt _ _)) by lia. do 2 wp_step. destruct (Hb 0%nat pa eq_refl) as ([fl Hq] & Hd & H0 & H64).
    rewrite u64_small by lia. rewrite Z.add_0_r in Hq. rewrite Hq. wp_step. apply on_pmm_wp. eapply wp_mono; [by apply mark_one|].
    intros _ pm1 [M1 O1]. change PAGE_SIZE with 4096.
    rewrite u64_small by lia.
    eapply wp_mono; [apply (IH fuel (offset + 4096) (set_vpmm pm1 s)); try lia; [apply M1|by apply (mem_apart_static _ _ (mk_arenas _ _ _ M1))|]|].
    + intros i pa' Hi'. destruct (Hb (S i) pa' Hi') as ([fl' Hq'] & ?). split; [|done]. exists fl'. rewrite <- Hq'. simpl. f_equal. lia.
    + intros _ s' (pm' & -> & M2 & O2). exists pm'. split_and!; [done|by apply (marks_app _ [pa] pm1 pas)|]. intros l Hl. rewrite O2 by done. by apply O1.
Qed.

(** The number of pages that [len] bytes at [va] touch. *)
Definition pages_touched (va len : Z) : Z := (va mod 4096 + len + 4095) / 4096.

Lemma mark_pages_in_use_wp kernel ls va len pas s : pinv (v_pmm s) -> mem_apart (v_pmm s) -> fq (plists (v_pmm s)) (CallerList ls) = [] ->
  0 <= va -> 0 <= len -> va + len + 8192 <= 2 ^ 64 -> Z.of_nat (length pas) = pages_touched va len -> backed (v_mmu s) kernel (va / 4096 * 4096) pas ->
  wp (mark_pages_in_use kernel ls va len) (fun _ s' => exists pm', s' = set_vpmm pm' s /\ marks (v_pmm s) pas pm' /\ other_lists ls (v_pmm s) pm') s.
Proof.
  intros Hi Hap Hls Hva Hlen Hw El Hb. unfold mark_pages_in_use. wp_step. apply on_pmm_wp. unfold list_initialize. wp_step.
  change (Z.land va (PAGE_SIZE - 1)) with (Z.land va (Z.ones 12)). rewrite Z.land_ones by lia.
  pose proof (Z.mod_pos_bound va (2 ^ 12) ltac:(lia)) as Hm. pose proof (Z.div_mod va 4096 ltac:(lia)) as Edm. rewrite (u64_small (len + _)) by lia.
  assert (ALIGN (len + va mod 2 ^ 12) PAGE_SIZE = pages_touched va len * 4096) as ->.
  { change PAGE_SIZE with (2 ^ 12). unfold ALIGN, ROUNDUP. rewrite land_mask, u64_small by (lia || apply u64_range). unfold pages_touched.
    change (2 ^ 12) with 4096. do 2 f_equal. lia. }
  change PAGE_SIZE with (2 ^ 12). rewrite ROUNDDOWN_spec by lia. change (2 ^ 12) with 4096 in *. rewrite Z.div_mul by lia.
  assert (pages_touched va len * 4096 <= va mod 4096 + len + 4095) as Hpt.
  { unfold pages_touched. pose proof (Z.mul_div_le (va mod 4096 + len + 4095) 4096 ltac:(lia)). lia. }
  set (s1 := set_vpmm _ s). eapply wp_mono; [apply (mark_from_wp kernel ls (va / 4096 * 4096) _ pas _ 0 s1); rewrite ?Z.add_0_r; try done; try lia|].
  - by apply pinv_initialize.
  - intros _ s' (pm' & -> & M & O). exists pm'. split_and!; [by destruct s| |].
    + destruct M as [M1 M2 M3 M4 M5]. by split.
    + intros l Hl. rewrite O by done. simpl. by rewrite fq_insert, decide_False by congruence.
Qed.

(** ** The promises *)

(** C28. At start-up no page of the kernel's image or of the boot allocator stays in the pool: after [vm_init_preheap] no page that can
    be allocated backs an address of either, every page that was taken was free and backs one of them, and the memory managers are
    well-formed. *)
Theorem vm_init_preheap_takes_kernel kernel ls1 ls2 start end_ pas1 pas2 pm m
    (Hpm : pinv pm) (Hap : mem_apart pm) (Hl1 : fq (plists pm) (CallerList ls1) = []) (Hl2 : fq (plists pm) (CallerList ls2) = []) (Hne : ls1 <> ls2)
    (Hse : 0 <= start <= end_) (Hbe : end_ <= boot_alloc_end pm) (Htop : boot_alloc_end pm + 8192 <= 2 ^ 64)
    (Hn1 : Z.of_nat (length pas1) = pages_touched start (end_ - start)) (Hn2 : Z.of_nat (length pas2) = pages_touched end_ (boot_alloc_end pm - end_))
    (Hb : forall m', m' = (arch_mmu_init_aspace kernel KERNEL_ASPACE_BASE KERNEL_ASPACE_SIZE ARCH_ASPACE_FLAG_KERNEL m).2 ->
       backed m' kernel (start / 4096 * 4096) pas1 /\ backed m' kernel (end_ / 4096 * 4096) pas2) :
  wp (vm_init_preheap kernel ls1 ls2 start end_) (fun _ s' =>
    let pas := pas1 ++ if boot_alloc_end pm =? end_ then [] else pas2 in
    vinv s' /\ marks pm pas (v_pmm s') /\ forall fl x pa, x ∈ avail fl (v_pmm s') -> pa ∈ pas -> ~ located (v_pmm s') x pa) (vmm_boot pm m).
Proof using All.
  destruct (Hb _ eq_refl) as [Hb1 Hb2]. set (m' := (arch_mmu_init_aspace _ _ _ _ _).2) in *.
  assert (forall s' pas, vinv s' -> marks pm pas (v_pmm s') ->
    vinv s' /\ marks pm pas (v_pmm s') /\ forall fl x pa, x ∈ avail fl (v_pmm s') -> pa ∈ pas -> ~ located (v_pmm s') x pa) as Hend.
  { intros s' pas Hv Hm. split_and!; [done..|]. intros fl [id p] pa Hx Hpa (a & Ha & Hin & Ep). simpl in Ha, Ep. subst p.
    apply elem_of_avail_in in Hx as [_ Hx]. destruct (free_page_state _ _ _ (vi_pmm _ Hv) Hx) as [Hst _]. by apply (mk_done _ _ _ Hm pa Hpa id a). }
  unfold vm_init_preheap. wp_step.
  eapply wp_mono; [by apply vmm_init_preheap_wp|]. intros _ s1 (Hv1 & E1 & _ & E2). fold m' in E2. wp_step. rewrite u64_small by lia.
  eapply wp_mono; [apply (mark_pages_in_use_wp kernel ls1 start _ pas1 s1); rewrite ?E1, ?E2; try done; lia|].
  intros _ s2 (pm1 & -> & M1 & O1). rewrite E1 in *. do 3 wp_step; simpl v_pmm; rewrite (mk_boot _ _ _ M1); destruct (boot_alloc_end pm =? end_); try done; intros _.
  - rewrite u64_small by lia.
    eapply wp_mono; [apply (mark_pages_in_use_wp kernel ls2 end_ _ pas2); simpl; rewrite ?E2; try done; try lia; [apply M1|by apply (mem_apart_static _ _ (mk_arenas _ _ _ M1))|by rewrite O1]|].
    intros _ s3 (pm2 & -> & M2 & _). apply Hend; [|by apply (marks_app _ _ pm1)]. do 2 (apply vinv_pmm; [|apply M2 || apply M1]). done.
  - rewrite app_nil_r. apply Hend; [|done]. by apply vinv_pmm; [|apply M1].
Qed.

(** ** Translation *)

(** A mapping of the table, inside the kernel's address space, that the page tables have. *)
Record mapping_ok (mm : A) (kernel : nat) (map : mmu_initial_mapping) : Prop := {
  mo_size : 0 < m_size map;
  mo_phys : 0 <= m_phys map /\ m_phys map + m_size map <= 2 ^ 64;
  mo_virt : KERNEL_ASPACE_BASE <= m_virt map /\ m_virt map + m_size map <= KERNEL_ASPACE_BASE + KERNEL_ASPACE_SIZE;
  mo_mapped : forall o, 0 <= o < m_size map -> (4096 | m_phys map + o) ->
    fst <$> arch_mmu_query kernel (m_virt map + o) mm = Some (m_phys map + o) }.

Definition covers (map : mmu_initial_mapping) (lo hi : Z) : Prop := m_phys map <= lo /\ hi <= m_phys map + m_size map.
Definition misses (map : mmu_initial_mapping) (lo hi : Z) : Prop := hi <= m_phys map \/ m_phys map + m_size map <= lo.

Lemma paddr_to_kvaddr_spec mm kernel maps lo hi : lo < hi -> (exists map, map ∈ maps /\ temporary map = false /\ covers map lo hi) ->
  (forall map, map ∈ maps -> 0 < m_size map /\ (temporary map = false -> mapping_ok mm kernel map /\ (covers map lo hi \/ misses map lo hi))) ->
  exists map, map ∈ maps /\ covers map lo hi /\ mapping_ok mm kernel map /\
    forall pa, lo <= pa < hi -> paddr_to_kvaddr maps pa = m_virt map + (pa - m_phys map).
Proof using All.
  intros Hlt. induction maps as [|map maps IH]; intros (map0 & Hin & Ht0 & Hc0) Hok; [by apply not_elem_of_nil in Hin|].
  destruct (Hok map ltac:(set_solver +)) as [Hpos Hm]. destruct (temporary map) eqn:Et.
  - destruct IH as (mp & ? & ? & ? & Hp); [|set_solver|].
    { exists map0. apply elem_of_cons in Hin as [->|Hin]; [congruence|done]. }
    exists mp. split_and!; [set_solver|done..|]. intros pa Hpa. cbn [paddr_to_kvaddr]. rewrite (proj2 (Z.leb_gt _ _)), Et by lia. by apply Hp.
  - destruct (Hm eq_refl) as [Hmo Hcm]. pose proof (mo_phys _ _ _ Hmo) as [P1 P2]. pose proof (mo_virt _ _ _ Hmo) as [V1 V2].
    unfold KERNEL_ASPACE_BASE, KERNEL_ASPACE_SIZE in V1, V2. destruct Hcm as [Hc|Hc].
    + exists map. split_and!; [set_solver|done..|]. intros pa Hpa. destruct Hc as [C1 C2]. cbn [paddr_to_kvaddr].
      rewrite (proj2 (Z.leb_gt _ _)), Et by lia. rewrite u64_small by lia. rewrite (proj2 (Z.leb_le (m_phys map) pa)) by lia.
      rewrite (proj2 (Z.leb_le pa _)) by lia. simpl. apply u64_small. lia.
    + destruct IH as (mp & ? & ? & ? & Hp); [|set_solver|].
      { exists map0. apply elem_of_cons in Hin as [->|Hin]; [|done]. destruct Hc, Hc0; lia. }
      exists mp. split_and!; [set_solver|done..|]. intros pa Hpa. cbn [paddr_to_kvaddr]. rewrite (proj2 (Z.leb_gt _ _)), Et by lia.
      rewrite u64_small by lia. destruct (Z.leb_spec (m_phys map) pa), (Z.leb_spec pa (m_phys map + m_size map - 1)); simpl; try (by apply Hp).
      destruct Hc; lia.
Qed.

Lemma vaddr_to_paddr_kernel kernel s va pa : KERNEL_ASPACE_BASE <= va < KERNEL_ASPACE_BASE + KERNEL_ASPACE_SIZE ->
  fst <$> arch_mmu_query kernel va (v_mmu s) = Some pa -> vaddr_to_paddr kernel s va = pa.
Proof using.
  intros Hva E. unfold vaddr_to_paddr, vaddr_to_aspace, is_kernel_address.
  rewrite u64_small by (vm_compute; split; congruence). rewrite (proj2 (Z.leb_le KERNEL_ASPACE_BASE va)), (proj2 (Z.leb_le va _)) by lia. simpl.
  destruct (arch_mmu_query kernel va (v_mmu s)) as [[? ?]|]; simpl in E; congruence.
Qed.

(** The two translations of addresses agree: if the kernel's page tables have the initial mappings, an arena that lies within one of them, and that
    the others do not cut, is mapped in the sense in which the page allocator uses it: the address of a run of its
    pages is not [NULL], and every page of the run translates back. *)
Theorem translation_agrees kernel maps s a (Ha : (4096 | a_base a) /\ (4096 | a_size a)) (Hpos : 0 < a_size a)
    (Hc : exists map, map ∈ maps /\ temporary map = false /\ covers map (a_base a) (a_base a + a_size a))
    (Hok : forall map, map ∈ maps -> 0 < m_size map /\ (temporary map = false ->
       mapping_ok (v_mmu s) kernel map /\ (covers map (a_base a) (a_base a + a_size a) \/ misses map (a_base a) (a_base a + a_size a)))) :
  kernel_mapped (paddr_to_kvaddr maps) (vaddr_to_paddr kernel s) a.
Proof using All.
  destruct (paddr_to_kvaddr_spec (v_mmu s) kernel maps (a_base a) (a_base a + a_size a) ltac:(lia) Hc Hok) as (map & _ & [C1 C2] & [_ _ V M] & Hp).
  destruct Ha as [[b Eb] [z Ez]]. intros c n Hc0 Hcn Hn v. unfold page_count in Hcn. change PAGE_SIZE with 4096 in Hcn. rewrite Ez, Z.div_mul in Hcn by lia.
  assert (v = m_virt map + (a_base a + c * 4096 - m_phys map)) as Ev by (apply Hp; lia).
  assert (KERNEL_ASPACE_BASE <= v /\ v + n * 4096 <= KERNEL_ASPACE_BASE + KERNEL_ASPACE_SIZE) as Hv by (split; lia).
  unfold KERNEL_ASPACE_BASE, KERNEL_ASPACE_SIZE in Hv. split_and!; [lia|symmetry; apply u64_small; lia|]. intros i Hi.
  rewrite u64_small by lia. apply vaddr_to_paddr_kernel; [unfold KERNEL_ASPACE_BASE, KERNEL_ASPACE_SIZE; lia|].
  replace (v + i * 4096) with (m_virt map + (a_base a + c * 4096 + i * 4096 - m_phys map)) by lia.
  rewrite M; [f_equal; lia|lia|]. exists (b + c + i). lia.
Qed.

(** ** The reserved regions *)

(** A mapping of whole pages in a place that is clear. *)
Definition reservable (a : vmm_aspace) (map : mmu_initial_mapping) : Prop :=
  (4096 | m_virt map) /\ (4096 | m_size map) /\ clear a (as_regions a) (m_size map) (m_virt map).

Definition apart (m1 m2 : mmu_initial_mapping) : Prop :=
  m_virt m1 + m_size m1 <= m_virt m2 \/ m_virt m2 + m_size m2 <= m_virt m1.

Definition lasting (maps : list mmu_initial_mapping) : list mmu_initial_mapping := filter (fun m => temporary m = false) maps.

Lemma lasting_cons map maps : lasting (map :: maps) = if temporary map then lasting maps else map :: lasting maps.
Proof using. unfold lasting. rewrite filter_cons. by destruct (temporary map). Qed.

Lemma reserve_one kernel id map s a : vinv s -> v_aspaces s !! kernel = Some a -> fresh s (Some id) -> 0 < m_size map -> reservable a map ->
  wp (vmm_reserve_space kernel (Some id) (m_size map) (m_virt map)) (fun res s' => vinv s' /\ res = NO_ERROR /\
    exists r l1 l2, id = r_id r /\ r_base r = m_virt map /\ r_size r = m_size map /\ put_in s kernel a r l1 l2 s') s.
Proof using All.
  intros Hi Ha Hf Hsz (Dv & Ds & Hc). destruct (vi_aspace s Hi kernel a Ha) as [Hok _]. pose proof (ak_range a Hok) as (R1 & R2 & R3).
  pose proof (cl_inside _ _ _ _ Hc) as [I1 I2]. unfold as_end in *.
  eapply wp_mono; [by apply (vmm_reserve_space_wp kernel (Some id) (m_size map) (m_virt map) s a); (done || lia)|].
  intros res s' [Hi' Hres]. rewrite !decide_False, decide_True in Hres by (unfold as_end; lia). unfold as_end in Hres. rewrite Z.min_l in Hres by lia.
  destruct Hres as [(-> & r & l1 & l2 & [= ->] & ? & ? & ?)|(_ & _ & [?|Hno])]; [|done|done].
  split_and!; [done..|]. by exists r, l1, l2.
Qed.

(** After [vm_init_postheap] every lasting initial mapping is a reserved region of its own in the kernel's address space, so that
    nothing is allocated over it: for mappings of whole pages that lie apart in clear places of the address space. *)
Theorem vm_init_postheap_reserves kernel maps mems s a (Hi : vinv s) (Ha : v_aspaces s !! kernel = Some a)
    (Hmem : length mems = length maps /\ NoDup mems /\ forall id, id ∈ mems -> fresh s (Some id))
    (Hpos : forall map, map ∈ maps -> 0 < m_size map) (Hres : forall map, map ∈ lasting maps -> reservable a map)
    (Hap : StronglySorted apart (lasting maps)) :
  wp (vm_init_postheap kernel (Some <$> mems) maps) (fun _ s' => vinv s' /\ v_pmm s' = v_pmm s /\
    exists a', v_aspaces s' !! kernel = Some a' /\ as_base a' = as_base a /\ as_size a' = as_size a /\
      (forall r, r ∈ as_regions a -> r ∈ as_regions a') /\
      forall map, map ∈ lasting maps -> exists r, r ∈ as_regions a' /\ r_base r = m_virt map /\ r_size r = m_size map) s.
Proof using All.
  revert mems s a Hi Ha Hmem Hres. induction maps as [|map maps IH]; intros mems s a Hi Ha (Hlen & Hnd & Hfr) Hres; cbn [vm_init_postheap].
  { wp_step. split_and!; [done..|]. exists a. split_and!; [done..|]. set_solver +. }
  destruct mems as [|id mems]; [done|]. apply NoDup_cons in Hnd as [Hnid Hnd]. simpl fmap. cbn [head default tail].
  rewrite (proj2 (Z.leb_gt _ _)) by (apply Hpos; set_solver +). wp_step.
  assert (forall map', map' ∈ maps -> 0 < m_size map') as Hpos' by set_solver.
  rewrite lasting_cons in *. wp_step; intros Et; destruct (temporary map); try done.
  - apply StronglySorted_inv in Hap as [Hap Hap1]. rewrite Forall_forall in Hap1.
    wp_step. eapply wp_mono; [apply (reserve_one kernel id map s a); [done|done|set_solver|set_solver|set_solver]|].
    intros res s1 (Hi1 & _ & r & l1 & l2 & -> & Eb & Es & Hpu). wp_step.
    destruct (put_in_lookup s kernel a r l1 l2 s1 Ha Hpu) as [Hlk Hoth]. pose proof Hpu as [Epu (Esp & _) _ _].
    eapply wp_mono; [apply (IH Hpos' Hap mems s1 _ Hi1 Hlk)|].
    + split_and!; [by injection Hlen|done|]. intros id Hid id' [= <-]. destruct (Hfr id ltac:(set_solver) id eq_refl) as [Hun Hq]. split.
      * intros asp a' x Ha' Hx. destruct (decide (asp = kernel)) as [->|Hk]; [|rewrite Hoth in Ha' by done; by apply (Hun asp a')].
        rewrite Hlk in Ha'. injection Ha' as <-. simpl in Hx. apply elem_of_app in Hx as [Hx|[->|Hx]%elem_of_cons].
        -- apply (Hun kernel a); [done|rewrite Esp; set_solver].
        -- intros E. by rewrite E in Hnid.
        -- apply (Hun kernel a); [done|rewrite Esp; set_solver].
      * by rewrite Epu.
    + intros map' Hm'. destruct (Hres map' ltac:(set_solver)) as (D1 & D2 & [C1 C2]). split_and!; [done..|]. split; [done|].
      simpl. intros x Hx. assert (x = r \/ x ∈ as_regions a) as [->|Hx'] by (rewrite Esp; set_solver); [|by apply C2].
      unfold r_end. rewrite Eb, Es. destruct (Hap1 map' Hm'); [right|left]; lia.
    + intros _ s' (Hi' & Ep & a' & Ha' & ? & ? & Hold & Hnew). split_and!; [done|by rewrite Ep, Epu|]. exists a'. split_and!; [done..| |].
      * intros x Hx. apply Hold. simpl. rewrite Esp in Hx. set_solver.
      * intros map' [->|Hm']%elem_of_cons; [|by apply Hnew]. exists r. split_and!; [apply Hold; simpl; set_solver +|done..].
  - eapply wp_mono; [apply (IH Hpos' Hap mems s a Hi Ha)|]; [split_and!; [by injection Hlen|done|set_solver]|done|].
    intros _ s' (? & ? & a' & ? & ? & ? & ? & Hnew). split_and!; [done..|]. by exists a'.
Qed.
End marking.

(** ** A small platform *)

Module VmExample.
Import VmmExample.

(** The kernel's image and the boot allocator are in the first page, which the page at 0x9000 backs. *)
Definition boot_table : table := {[(0%nat, 0) := (0x9000, 0)]}.

Lemma vm_init_preheap_takes_kernel_witness :
  wp (vm_init_preheap 0 1 2 64 1001) (fun _ s' =>
    let pas := [0x9000] ++ if boot_alloc_end PmmExample.s2 =? 1001 then [] else [0x9000] in
    vinv s' /\ marks PmmExample.s2 pas (v_pmm s') /\ forall fl x pa, x ∈ avail fl (v_pmm s') -> pa ∈ pas -> ~ located (v_pmm s') x pa)
    (vmm_boot PmmExample.s2 boot_table).
Proof.
  assert (boot_alloc_end PmmExample.s2 = 1176) as Eb by (by vm_compute).
  apply (vm_init_preheap_takes_kernel 0 1 2 64 1001 [0x9000] [0x9000] PmmExample.s2 boot_table); rewrite ?Eb;
    [apply PmmExample.s2_pinv| |by vm_compute|by vm_compute|done|lia|lia|lia|done|done|].
  - intros id1 id2 a b addr Ha Hb Ia Ib. unfold inside in *. apply PmmExample.s2_arenas in Ha, Hb.
    destruct Ha as [(-> & E1 & E2)|(-> & E1 & E2)], Hb as [(-> & E3 & E4)|(-> & E3 & E4)]; (reflexivity || lia).
  - intros m' ->. assert (backed (A := table) boot_table 0 0 [0x9000]) as H; [|split; exact H].
    intros [|i] pa Hpa; [|done]. injection Hpa as <-. split; [by exists 0|]. split; [by exists 9|lia].
Defined.

(** The pages of the first arena are mapped from the start of the kernel's space on; a temporary mapping comes first. *)
Definition map_arena0 : mmu_initial_mapping := Mapping 0x9000 0x80000000 0x4000 0.
Definition map_low : mmu_initial_mapping := Mapping 0 0x90000000 0x100000 1.
Definition map_top : mmu_initial_mapping := Mapping 0x100000 0xfffff000 0x1000 0.

Definition kernel_table : table := map_range 0 0x80000000 0x9000 4 0 (map_range 0 0xfffff000 0x100000 1 0 ∅).

Lemma translation_agrees_witness :
  kernel_mapped (paddr_to_kvaddr [map_low; map_top; map_arena0]) (vaddr_to_paddr 0 (vmm_boot PmmExample.s2 kernel_table)) PmmExample.arena0.
Proof.
  apply translation_agrees; [split; [by exists 9|by exists 4]|done| |].
  - exists map_arena0. split_and!; [set_solver +|done|vm_compute; split; congruence].
  - assert (forall o n, 0 <= o < n * 4096 -> (4096 | o) -> exists i, o = i * 4096 /\ 0 <= i < n) as Hdiv by (intros o n Ho [i ->]; exists i; lia).
    intros map Hmap. repeat (apply elem_of_cons in Hmap as [->|Hmap]); [split; done| | |by apply not_elem_of_nil in Hmap];
      (split; [done|intros _; split; [|(by left) || (right; left; vm_compute; congruence) || (right; right; vm_compute; congruence) || (left; vm_compute; split; congruence)]]).
    + split; [done|vm_compute; split; congruence|vm_compute; split; congruence|]. intros o Ho Hd. simpl in *.
      destruct (Hdiv o 1 Ho) as (i & -> & Hi); [by apply (Z.divide_add_cancel_r 4096 0x100000); [exists 256|]|]. by assert (i = 0) as -> by lia.
    + split; [done|vm_compute; split; congruence|vm_compute; split; congruence|]. intros o Ho Hd. simpl in *.
      destruct (Hdiv o 4 Ho) as (i & -> & Hi); [by apply (Z.divide_add_cancel_r 4096 0x9000); [exists 9|]|].
      assert (i = 0 \/ i = 1 \/ i = 2 \/ i = 3) as [->|[->|[->| ->]]] by lia; by vm_compute.
Defined.

Lemma vm_init_postheap_reserves_witness :
  wp (vm_init_postheap 0 (Some <$> [1; 2; 3]%nat) [map_low; map_top; map_arena0]) (fun _ s' => vinv s' /\ v_pmm s' = v_pmm v0 /\
    exists a', v_aspaces s' !! 0%nat = Some a' /\ as_base a' = as_base kernel_aspace /\ as_size a' = as_size kernel_aspace /\
      (forall r, r ∈ as_regions kernel_aspace -> r ∈ as_regions a') /\
      forall map, map ∈ lasting [map_low; map_top; map_arena0] -> exists r, r ∈ as_regions a' /\ r_base r = m_virt map /\ r_size r = m_size map) v0.
Proof.
  apply (vm_init_postheap_reserves 0 [map_low; map_top; map_arena0] [1; 2; 3]%nat v0 kernel_aspace v0_vinv v0_aspace).
  - split_and!; [done|repeat constructor; set_solver +|]. intros id Hid. apply v0_fresh. set_unfold. lia.
  - intros map Hmap. set_unfold. destruct Hmap as [->|[->|[->|[]]]]; done.
  - change (lasting _) with [map_top; map_arena0]. intros map Hmap. set_unfold. destruct Hmap as [->|[->|[]]].
    + split_and!; [by exists 0xfffff|by exists 1|]. split; [vm_compute; split; congruence|set_solver +].
    + split_and!; [by exists 0x80000|by exists 4|]. split; [vm_compute; split; congruence|set_solver +].
  - change (lasting _) with [map_top; map_arena0]. constructor; [repeat constructor|]. constructor; [|constructor]. right. vm_compute. congruence.
Defined.
End VmExample.
