(* ===== verification/Port.v ===== *)
(** * Ports

    [kernel/port.c]: named write ports, the read ports that are open on them, and groups of read
    ports.  Each port has a ring of packets; a reader blocks on the wait queue of its port or
    group.  The thread lock makes the locked part of each call one step.  Ports are named by their addresses;
    memory for a new object is handed in as an argument.  A member that is [NULL] is [None].
    The wait queues are behind an interface, which the kernel's wait queues implement in [PortCalls]. The tests that
    [port_group_add] and [port_group_remove] make before they take the lock are made with it here. *)

From stdpp Require Import base gmap list numbers.
From S2P Require Import Prelude Pow2 ListNode Timer KState.
Import Family.

Definition WRITEPORT_MAGIC_W : Z := 0x70727477.
Definition WRITEPORT_MAGIC_X : Z := 0x70727478.
Definition READPORT_MAGIC : Z := 0x70727472.
Definition PORTGROUP_MAGIC : Z := 0x70727467.

Definition PORT_BUFF_SIZE : Z := 8.
Definition PORT_BUFF_SIZE_BIG : Z := 64.
Definition MAX_PORT_GROUP_COUNT : Z := 256.
Definition PORT_NAME_LEN : Z := 12.

Definition PORT_MODE_BROADCAST : Z := 0.
Definition PORT_MODE_UNICAST : Z := 1.
Definition PORT_MODE_BIG_BUFFER : Z := 2.

(** ** Rings of packets *)

(** A packet is the number its bytes spell. *)
Record port_buf := PortBuf {
  pb_log2 : Z;
  pb_avail : Z;
  pb_head : Z;
  pb_tail : Z;
  pb_packet : list Z }.

(** [mem] is the memory [malloc] returns, with what it holds. *)
Definition make_buf (mem : option (list Z)) (big : bool) : option port_buf :=
  let pk_count := if big then PORT_BUFF_SIZE_BIG else PORT_BUFF_SIZE in
  match mem with
  | None => None
  | Some packet => Some (PortBuf (log2_uint pk_count) pk_count 0 0 (resize (Z.to_nat pk_count) 0 packet))
  end.

Definition buf_is_empty (buf : port_buf) : bool := pb_avail buf =? valpow2 (pb_log2 buf).

(** [None] when a packet is written outside the buffer. *)
Fixpoint buf_write_loop (buf : port_buf) (packets : list Z) : option port_buf :=
  match packets with
  | [] => Some buf
  | p :: packets =>
      if (0 <=? pb_tail buf) && (pb_tail buf <? Z.of_nat (length (pb_packet buf))) then
        buf_write_loop (PortBuf (pb_log2 buf) (pb_avail buf) (pb_head buf)
          (modpow2 (u32 (pb_tail buf + 1)) (pb_log2 buf)) (<[Z.to_nat (pb_tail buf) := p]> (pb_packet buf))) packets
      else None
  end.

Section rings.
Context {S : Type}.

Definition buf_write (buf : port_buf) (packets : list Z) : M S (port_buf * Z) :=
  let count := Z.of_nat (length packets) in
  if pb_avail buf <? count then ret (buf, ERR_NOT_ENOUGH_BUFFER)
  else
    do buf <- deref (buf_write_loop buf packets);
    ret (PortBuf (pb_log2 buf) (u32 (pb_avail buf - count)) (pb_head buf) (pb_tail buf) (pb_packet buf), NO_ERROR).

(** The packet, or [None] for [ERR_NO_MSG]. *)
Definition buf_read (buf : port_buf) : M S (port_buf * option Z) :=
  if buf_is_empty buf then ret (buf, None)
  else
    do p <- deref (pb_packet buf !! Z.to_nat (pb_head buf));
    ret (PortBuf (pb_log2 buf) (u32 (pb_avail buf + 1)) (modpow2 (u32 (pb_head buf + 1)) (pb_log2 buf)) (pb_tail buf) (pb_packet buf), Some p).
End rings.

(** ** State *)

Record write_port := WritePort {
  wp_magic : Z;
  wp_buf : option port_buf;
  wp_mode : Z;
  wp_name : list Z }.

Record read_port := ReadPort {
  rp_magic : Z;
  rp_buf : option port_buf;
  rp_ctx : Z;
  rp_wport : option nat;
  rp_gport : option nat }.

Record port_group_t := PortGroup { pg_magic : Z }.

(** What a [port_t] points to; [magic] comes first in each. *)
Inductive port_obj := OWrite (w : write_port) | ORead (r : read_port) | OGroup (g : port_group_t).

Definition magic (o : port_obj) : Z :=
  match o with OWrite w => wp_magic w | ORead r => rp_magic r | OGroup g => pg_magic g end.

(** What the ports need of the wait queues of ports and groups, named by the object they are part of. [pw_block] returns [None]
    when the thread has been switched away; [pw_destroy_enter] returns how many threads it woke, and if it woke any
    the thread has been switched away too. [pw_calls] says that a thread runs that can make calls. *)
Class PortWaits (W : Type) := {
  pw_init : nat -> M W unit;
  pw_wake_one : nat -> Z -> M W Z;
  pw_wake_all : nat -> Z -> M W Z;
  pw_block : nat -> Z -> M W (option Z);
  pw_destroy_enter : nat -> M W Z;
  pw_destroy_return : nat -> M W unit;
  pw_yield : M W unit;
  pw_ok : W -> Prop;
  pw_calls : W -> Prop;
  pw_live : W -> nat -> Prop;
  pw_waiting : W -> nat -> list tid;
  pw_timeout : Z -> Prop }.

(** [p_rp] and [p_grp] are the lists [rp_list] of the write ports and of the groups, the nodes named by the read ports.
    [p_closing] are the objects whose [port_close] has woken somebody and has not come back yet. *)
Record ports (W : Type) := Ports {
  p_objs : gmap nat port_obj;
  write_port_list : list nat;
  p_rp : gmap nat (list nat);
  p_grp : gmap nat (list nat);
  p_wait : W;
  p_closing : gset nat }.
Arguments Ports {W} _ _ _ _ _ _.
Arguments p_objs {W} _.
Arguments write_port_list {W} _.
Arguments p_rp {W} _.
Arguments p_grp {W} _.
Arguments p_wait {W} _.
Arguments p_closing {W} _.

Record port_result := Result { res_ctx : Z; res_packet : Z }.

Definition set_wbuf (v : option port_buf) (w : write_port) : write_port := WritePort (wp_magic w) v (wp_mode w) (wp_name w).
Definition set_wmagic (v : Z) (w : write_port) : write_port := WritePort v (wp_buf w) (wp_mode w) (wp_name w).
Definition set_rbuf (v : option port_buf) (r : read_port) : read_port := ReadPort (rp_magic r) v (rp_ctx r) (rp_wport r) (rp_gport r).
Definition set_wport (v : option nat) (r : read_port) : read_port := ReadPort (rp_magic r) (rp_buf r) (rp_ctx r) v (rp_gport r).
Definition set_gport (v : option nat) (r : read_port) : read_port := ReadPort (rp_magic r) (rp_buf r) (rp_ctx r) (rp_wport r) v.

Section ops.
Context {W : Type} `{PortWaits W}.

Definition on_objs (f : gmap nat port_obj -> gmap nat port_obj) (s : ports W) : ports W :=
  Ports (f (p_objs s)) (write_port_list s) (p_rp s) (p_grp s) (p_wait s) (p_closing s).
Definition set_plist (v : list nat) (s : ports W) : ports W := Ports (p_objs s) v (p_rp s) (p_grp s) (p_wait s) (p_closing s).
Definition on_rp (f : gmap nat (list nat) -> gmap nat (list nat)) (s : ports W) : ports W :=
  Ports (p_objs s) (write_port_list s) (f (p_rp s)) (p_grp s) (p_wait s) (p_closing s).
Definition on_grp (f : gmap nat (list nat) -> gmap nat (list nat)) (s : ports W) : ports W :=
  Ports (p_objs s) (write_port_list s) (p_rp s) (f (p_grp s)) (p_wait s) (p_closing s).
Definition set_waits (v : W) (s : ports W) : ports W := Ports (p_objs s) (write_port_list s) (p_rp s) (p_grp s) v (p_closing s).
Definition on_closing (f : gset nat -> gset nat) (s : ports W) : ports W :=
  Ports (p_objs s) (write_port_list s) (p_rp s) (p_grp s) (p_wait s) (f (p_closing s)).

Definition waits {X} (m : M W X) : M (ports W) X :=
  fun s => match m (p_wait s) with Done x w => Done x (set_waits w s) | Fault f => Fault f end.

Definition get_obj (p : nat) : M (ports W) port_obj := do o <- gets p_objs; deref (o !! p).
Definition get_magic (p : nat) : M (ports W) Z := do o <- get_obj p; ret (magic o).
Definition get_wport (p : nat) : M (ports W) write_port :=
  do o <- get_obj p; match o with OWrite w => ret w | _ => fail BadPointer end.
Definition get_rport (p : nat) : M (ports W) read_port :=
  do o <- get_obj p; match o with ORead r => ret r | _ => fail BadPointer end.
Definition put_obj (p : nat) (o : port_obj) : M (ports W) unit := modify (on_objs (<[p := o]>)).

(** [list_delete] of a node that is in a list. *)
Definition unlink_rp (rp : nat) : M (ports W) unit :=
  do l <- gets p_rp; if in_list rp l then modify (on_rp (del rp)) else fail BadPointer.
Definition unlink_grp (rp : nat) : M (ports W) unit :=
  do l <- gets p_grp; if in_list rp l then modify (on_grp (del rp)) else fail BadPointer.

(** Freeing a write port or a group leaves the nodes that were in its list behind; they are not read again before they are
    linked anew. *)
Definition free_obj (p : nat) : M (ports W) unit :=
  modify (on_objs (delete p)) ;; modify (on_rp (delete p)) ;; modify (on_grp (delete p)).

Definition port_init : M (ports W) unit := modify (set_plist []).

(** ** Creating *)

Fixpoint find_name (name : list Z) (l : list nat) : M (ports W) (option nat) :=
  match l with
  | [] => ret None
  | wp :: l => do w <- get_wport wp; if bool_decide (wp_name w = name) then ret (Some wp) else find_name name l
  end.

(** Under the first lock: what [port_create] returns if the name exists, with what it stores. *)
Definition port_create_lookup (name : list Z) : M (ports W) (option (Z * option nat)) :=
  do l <- gets write_port_list;
  do o <- find_name name l;
  match o with
  | None => ret None
  | Some wp =>
      do w <- get_wport wp;
      ret (Some (if wp_magic w =? WRITEPORT_MAGIC_X then (ERR_BUSY, None) else (ERR_ALREADY_EXISTS, Some wp)))
  end.

(** The rest: [mem] and [bmem] are the memory for the port and for its buffer. *)
Definition port_create_add (name : list Z) (mode : Z) (mem : option nat) (bmem : option (list Z)) : M (ports W) (Z * option nat) :=
  match mem with
  | None => ret (ERR_NO_MEMORY, None)
  | Some wp =>
      match make_buf bmem (negb (Z.land mode PORT_MODE_BIG_BUFFER =? 0)) with
      | None => ret (ERR_NO_MEMORY, None)
      | Some buf =>
          put_obj wp (OWrite (WritePort WRITEPORT_MAGIC_W (Some buf) mode name)) ;;
          modify (on_rp (<[wp := []]>)) ;;
          do l <- gets write_port_list;
          modify (set_plist (l ++ [wp])) ;;
          ret (NO_ERROR, Some wp)
      end
  end.

(** [port] says whether there is a place for the result. *)
Definition port_create (name : option (list Z)) (mode : Z) (port : bool) (mem : option nat) (bmem : option (list Z)) : M (ports W) (Z * option nat) :=
  match name with
  | None => ret (ERR_INVALID_ARGS, None)
  | Some name =>
      if negb port then ret (ERR_INVALID_ARGS, None)
      else if negb (Z.land mode PORT_MODE_BROADCAST =? 0) && negb (Z.land mode PORT_MODE_BIG_BUFFER =? 0) then ret (ERR_INVALID_ARGS, None)
      else if PORT_NAME_LEN <=? Z.of_nat (length name) then ret (ERR_INVALID_ARGS, None)
      else
        do r <- port_create_lookup name;
        match r with
        | Some r => ret r
        | None => port_create_add name mode mem bmem
        end
  end.

(** ** Opening *)

Definition port_open (name : option (list Z)) (ctx : Z) (port : bool) (mem : option nat) (bmem : option (list Z)) : M (ports W) (Z * option nat) :=
  match name with
  | None => ret (ERR_INVALID_ARGS, None)
  | Some name =>
      if negb port then ret (ERR_INVALID_ARGS, None)
      else
        match mem with
        | None => ret (ERR_NO_MEMORY, None)
        | Some rp =>
            waits (pw_init rp) ;;
            match make_buf bmem false with
            | None => ret (ERR_NO_MEMORY, None)
            | Some buf =>
                do l <- gets write_port_list;
                do o <- find_name name l;
                match o with
                | None => ret (ERR_NOT_FOUND, None)
                | Some wp =>
                    do w <- get_wport wp;
                    match wp_buf w with
                    | Some wbuf =>
                        modify (on_rp (add_tail wp rp)) ;;
                        put_obj rp (ORead (ReadPort READPORT_MAGIC (Some wbuf) ctx (Some wp) None)) ;;
                        put_obj wp (OWrite (set_wbuf None w)) ;;
                        ret (NO_ERROR, Some rp)
                    | None =>
                        if negb (Z.land (wp_mode w) PORT_MODE_UNICAST =? 0) then ret (ERR_NOT_ALLOWED, None)
                        else
                          modify (on_rp (add_tail wp rp)) ;;
                          put_obj rp (ORead (ReadPort READPORT_MAGIC (Some buf) ctx (Some wp) None)) ;;
                          ret (NO_ERROR, Some rp)
                    end
                end
            end
        end
  end.

(** ** Groups *)

(** A read port that is in no group. *)
Definition groupable (rp : nat) : M (ports W) bool :=
  do m <- get_magic rp;
  if negb (m =? READPORT_MAGIC) then ret false
  else do r <- get_rport rp; ret (bool_decide (rp_gport r = None)).

Definition join_group (pg rp : nat) : M (ports W) unit :=
  do r <- get_rport rp;
  put_obj rp (ORead (set_gport (Some pg) r)) ;;
  modify (on_grp (add_tail pg rp)).

(** The [gport] of the first [n] ports is reset. *)
Fixpoint undo_group (arr : list nat) (n : nat) : M (ports W) unit :=
  match arr, n with
  | rp :: arr, S n => do r <- get_rport rp; put_obj rp (ORead (set_gport None r)) ;; undo_group arr n
  | _, _ => ret tt
  end.

Fixpoint link_group (pg : nat) (arr : list nat) (n ix : nat) : M (ports W) Z :=
  match n with
  | O => ret NO_ERROR
  | S n =>
      do rp <- deref (arr !! ix);
      do ok <- groupable rp;
      if negb ok then undo_group arr ix ;; ret ERR_BAD_HANDLE
      else join_group pg rp ;; link_group pg arr n (S ix)
  end.

Definition port_group (arr : option (list nat)) (count : Z) (group : bool) (mem : option nat) : M (ports W) (Z * option nat) :=
  if MAX_PORT_GROUP_COUNT <? count then ret (ERR_TOO_BIG, None)
  else if negb (count =? 0) && bool_decide (arr = None) then ret (ERR_INVALID_ARGS, None)
  else if negb group then ret (ERR_INVALID_ARGS, None)
  else
    match mem with
    | None => ret (ERR_NO_MEMORY, None)
    | Some pg =>
        waits (pw_init pg) ;;
        put_obj pg (OGroup (PortGroup PORTGROUP_MAGIC)) ;;
        modify (on_grp (<[pg := []]>)) ;;
        do rc <- link_group pg (default [] arr) (Z.to_nat count) 0;
        if rc =? NO_ERROR then ret (rc, Some pg)
        else free_obj pg ;; ret (rc, None)
    end.

Definition port_group_add (group port : option nat) : M (ports W) Z :=
  match group, port with
  | Some pg, Some rp =>
      do m <- get_magic pg;
      if negb (m =? PORTGROUP_MAGIC) then ret ERR_INVALID_ARGS
      else
        do ok <- groupable rp;
        if negb ok then ret ERR_BAD_HANDLE
        else
          do l <- gets (fun s => fq (p_grp s) pg);
          if Z.of_nat (length l) =? MAX_PORT_GROUP_COUNT then ret ERR_TOO_BIG
          else
            join_group pg rp ;;
            do r <- get_rport rp;
            do buf <- deref (rp_buf r);
            when (negb (buf_is_empty buf)) (do n <- waits (pw_wake_one pg NO_ERROR); ret tt) ;;
            ret NO_ERROR
  | _, _ => ret ERR_INVALID_ARGS
  end.

Definition port_group_remove (group port : option nat) : M (ports W) Z :=
  match group, port with
  | Some pg, Some rp =>
      do m <- get_magic pg;
      if negb (m =? PORTGROUP_MAGIC) then ret ERR_INVALID_ARGS
      else
        do m <- get_magic rp;
        do mine <- (if m =? READPORT_MAGIC then do r <- get_rport rp; ret (bool_decide (rp_gport r = Some pg)) else ret false);
        if negb mine then ret ERR_BAD_HANDLE
        else
          do l <- gets (fun s => fq (p_grp s) pg);
          if negb (bool_decide (rp ∈ l)) then ret ERR_BAD_HANDLE
          else unlink_grp rp ;; ret NO_ERROR
  | _, _ => ret ERR_INVALID_ARGS
  end.

(** ** Writing and reading *)

(** The readers one after the other: the status and the number of threads woken. *)
Fixpoint write_readers (pk : list Z) (l : list nat) (status awake_count : Z) : M (ports W) (Z * Z) :=
  match l with
  | [] => ret (status, awake_count)
  | rp :: l =>
      do r <- get_rport rp;
      do buf <- deref (rp_buf r);
      do ' (buf, st) <- buf_write buf pk;
      put_obj rp (ORead (set_rbuf (Some buf) r)) ;;
      if st <? 0 then write_readers pk l ERR_PARTIAL_WRITE awake_count
      else
        do awaken <- match rp_gport r with
                     | Some pg => do o <- get_obj pg; waits (pw_wake_one pg NO_ERROR)
                     | None => ret 0
                     end;
        do awaken <- (if awaken =? 0 then waits (pw_wake_one rp NO_ERROR) else ret awaken);
        write_readers pk l status (awake_count + awaken)
  end.

Definition port_write (port : option nat) (pk : option (list Z)) : M (ports W) Z :=
  match port, pk with
  | Some wp, Some pk =>
      do m <- get_magic wp;
      if negb (m =? WRITEPORT_MAGIC_W) then ret ERR_BAD_HANDLE
      else
        do w <- get_wport wp;
        match wp_buf w with
        | Some buf =>
            do ' (buf, st) <- buf_write buf pk;
            put_obj wp (OWrite (set_wbuf (Some buf) w)) ;;
            ret st
        | None =>
            do l <- gets (fun s => fq (p_rp s) wp);
            do ' (status, awake_count) <- write_readers pk l NO_ERROR 0;
            when (negb (awake_count =? 0)) (waits pw_yield) ;;
            ret status
        end
  | _, _ => ret ERR_INVALID_ARGS
  end.

(** The status, or [None] when the thread has been switched away, and what [*result] holds. *)
Fixpoint read_no_lock (fuel : nat) (rp : nat) (timeout : Z) (result : port_result) : M (ports W) (option Z * port_result) :=
  match fuel with
  | O => fail OutOfFuel
  | S fuel =>
      do r <- get_rport rp;
      do buf <- deref (rp_buf r);
      do ' (buf, p) <- buf_read buf;
      put_obj rp (ORead (set_rbuf (Some buf) r)) ;;
      match p with
      | Some p => ret (Some NO_ERROR, Result (rp_ctx r) p)
      | None =>
          let result := Result (rp_ctx r) (res_packet result) in
          if timeout =? 0 then ret (Some ERR_TIMED_OUT, result)
          else
            do wr <- waits (pw_block rp timeout);
            match wr with
            | None => ret (None, result)
            | Some wr => if negb (wr =? NO_ERROR) then ret (Some wr, result) else read_no_lock fuel rp timeout result
            end
      end
  end.

(** The members in turn, without waiting: [None] when there was nothing. *)
Fixpoint read_members (l : list nat) (result : port_result) : M (ports W) (option Z * port_result) :=
  match l with
  | [] => ret (None, result)
  | rp :: l =>
      do ' (rc, result) <- read_no_lock 1 rp 0 result;
      if bool_decide (rc = Some ERR_TIMED_OUT) then read_members l result else ret (rc, result)
  end.

Fixpoint read_group (fuel : nat) (pg : nat) (timeout : Z) (result : port_result) : M (ports W) (option Z * port_result) :=
  match fuel with
  | O => fail OutOfFuel
  | S fuel =>
      do l <- gets (fun s => fq (p_grp s) pg);
      do ' (rc, result) <- read_members l result;
      match rc with
      | Some rc => ret (Some rc, result)
      | None =>
          do wr <- waits (pw_block pg timeout);
          match wr with
          | None => ret (None, result)
          | Some wr => if wr =? NO_ERROR then read_group fuel pg timeout result else ret (Some wr, result)
          end
      end
  end.

(** [port_read] up to the point where the thread waits; one pass is enough, since a wait that ends at once is an error. *)
Definition port_read (port : option nat) (timeout : Z) (result : option port_result) : M (ports W) (option Z * option port_result) :=
  match port, result with
  | Some p, Some result =>
      do m <- get_magic p;
      if m =? READPORT_MAGIC then do ' (rc, result) <- read_no_lock 1 p timeout result; ret (rc, Some result)
      else if m =? PORTGROUP_MAGIC then do ' (rc, result) <- read_group 1 p timeout result; ret (rc, Some result)
      else ret (Some ERR_BAD_HANDLE, Some result)
  | _, _ => ret (Some ERR_INVALID_ARGS, result)
  end.

(** The thread is back from its wait on a read port or group, with [wr]. *)
Definition port_read_return (p : nat) (group : bool) (timeout wr : Z) (result : port_result) : M (ports W) (option Z * port_result) :=
  if negb (wr =? NO_ERROR) then ret (Some wr, result)
  else if group then read_group 1 p timeout result else read_no_lock 1 p timeout result.

(** ** Destroying and closing *)

Fixpoint cancel_readers (l : list nat) : M (ports W) unit :=
  match l with
  | [] => ret tt
  | rp :: l =>
      do r <- get_rport rp;
      do n <- waits (pw_wake_all rp ERR_CANCELLED);
      match rp_gport r with
      | Some pg => do o <- get_obj pg; do n <- waits (pw_wake_all pg ERR_CANCELLED); ret tt
      | None => ret tt
      end ;;
      put_obj rp (ORead (set_wport None r)) ;;
      cancel_readers l
  end.

Definition port_destroy (port : option nat) : M (ports W) Z :=
  match port with
  | None => ret ERR_INVALID_ARGS
  | Some wp =>
      do m <- get_magic wp;
      if negb (m =? WRITEPORT_MAGIC_X) then ret ERR_BAD_HANDLE
      else
        do w <- get_wport wp;
        do l <- gets write_port_list;
        (if bool_decide (wp ∈ l) then modify (set_plist (filter (fun x => x <> wp) l)) else fail BadPointer) ;;
        match wp_buf w with
        | Some _ => ret tt
        | None => do l <- gets (fun s => fq (p_rp s) wp); cancel_readers l
        end ;;
        put_obj wp (OWrite (set_wmagic 0 w)) ;;
        free_obj wp ;;
        ret NO_ERROR
  end.

Fixpoint leave_group (l : list nat) : M (ports W) unit :=
  match l with
  | [] => ret tt
  | rp :: l => do r <- get_rport rp; put_obj rp (ORead (set_gport None r)) ;; leave_group l
  end.

(** After [wait_queue_destroy] has come back. *)
Definition port_close_return (p : nat) : M (ports W) Z :=
  waits (pw_destroy_return p) ;;
  do o <- get_obj p;
  match o with
  | ORead r => put_obj p (ORead (ReadPort 0 (rp_buf r) (rp_ctx r) (rp_wport r) (rp_gport r)))
  | OGroup g => do l <- gets (fun s => fq (p_grp s) p); leave_group l ;; put_obj p (OGroup (PortGroup 0))
  | OWrite _ => fail BadPointer
  end ;;
  modify (on_closing (fun c => c ∖ {[p]})) ;;
  free_obj p ;;
  ret NO_ERROR.

(** What a read port that is closed leaves behind: the buffer of the last reader goes back to the write port. *)
Definition leave_ports (p : nat) (r : read_port) : M (ports W) unit :=
  match rp_wport r with
  | None => ret tt
  | Some wp =>
      unlink_rp p ;;
      do l <- gets (fun s => fq (p_rp s) wp);
      if bool_decide (l = []) then
        do w <- get_wport wp;
        put_obj wp (OWrite (set_wbuf (rp_buf r) w)) ;;
        put_obj p (ORead (set_rbuf None r))
      else ret tt
  end ;;
  match rp_gport r with None => ret tt | Some _ => unlink_grp p end.

(** Up to the switch of [wait_queue_destroy], or to the end when it wakes nobody. *)
Definition port_close (port : option nat) : M (ports W) (option Z) :=
  match port with
  | None => ret (Some ERR_INVALID_ARGS)
  | Some p =>
      do o <- get_obj p;
      if magic o =? WRITEPORT_MAGIC_W then
        do w <- get_wport p; put_obj p (OWrite (set_wmagic WRITEPORT_MAGIC_X w)) ;; ret (Some NO_ERROR)
      else if (magic o =? READPORT_MAGIC) || (magic o =? PORTGROUP_MAGIC) then
        match o with ORead r => leave_ports p r | _ => ret tt end ;;
        modify (on_closing (union {[p]})) ;;
        do n <- waits (pw_destroy_enter p);
        if 0 <? n then ret None
        else do rc <- port_close_return p; ret (Some rc)
      else ret (Some ERR_BAD_HANDLE)
  end.
End ops.
