(* ===== verification/PortSpec.v ===== *)
(** * The promises of the ports

    The rings are queues of packets; every call keeps the ports well-formed; a write reaches every reader that has room
    for it and a read takes the oldest packet.  [PortWaitsLaws] is what the ports need of the wait queues. *)

From stdpp Require Import base gmap list numbers.
From S2P Require Import Prelude Pow2 ListNode Timer KState Sched Resched Wait Port.
Import Family.

(** ** Rings *)

Definition ring_size (b : port_buf) : Z := 2 ^ pb_log2 b.
Definition ring_used (b : port_buf) : Z := ring_size b - pb_avail b.

Record buf_ok (b : port_buf) : Prop := {
  bo_log2 : 0 <= pb_log2 b < 31;
  bo_length : Z.of_nat (length (pb_packet b)) = ring_size b;
  bo_avail : 0 <= pb_avail b <= ring_size b;
  bo_head : 0 <= pb_head b < ring_size b;
  bo_tail : pb_tail b = (pb_head b + ring_used b) mod ring_size b }.

Definition slot (b : port_buf) (i : Z) : nat := Z.to_nat ((pb_head b + i) mod ring_size b).

(** The packets from the oldest to the newest. *)
Definition ring_queue (b : port_buf) : list Z := (fun i => pb_packet b !!! slot b (Z.of_nat i)) <$> seq 0 (Z.to_nat (ring_used b)).

Section rings.
Implicit Types (b : port_buf) (p : Z) (ps : list Z).

Lemma ring_size_bounds b : buf_ok b -> 1 <= ring_size b < 2 ^ 31.
Proof.
  intros [[H1 H2] _ _ _ _]. unfold ring_size. split; [|apply Z.pow_lt_mono_r; lia].
  pose proof (Z.pow_pos_nonneg 2 (pb_log2 b) ltac:(lia) H1). lia.
Qed.

Lemma ring_queue_length b : buf_ok b -> Z.of_nat (length (ring_queue b)) = ring_used b.
Proof. intros Hb. unfold ring_queue. rewrite length_fmap, length_seq. pose proof (bo_avail b Hb). unfold ring_used. lia. Qed.

Lemma step_pow2 b v : buf_ok b -> 0 <= v < ring_size b -> modpow2 (u32 (v + 1)) (pb_log2 b) = (v + 1) mod ring_size b.
Proof.
  intros Hb Hv. pose proof (ring_size_bounds b Hb). pose proof (bo_log2 b Hb). by apply modpow2_u32; lia.
Qed.

Lemma buf_is_empty_spec b : buf_ok b -> buf_is_empty b = bool_decide (ring_queue b = []).
Proof.
  intros Hb. unfold buf_is_empty. rewrite valpow2_pow by (pose proof (bo_log2 b Hb); lia). fold (ring_size b).
  pose proof (ring_queue_length b Hb) as El. unfold ring_used in El. destruct (ring_queue b) as [|x q]; simpl in El.
  - rewrite bool_decide_true by done. apply Z.eqb_eq. lia.
  - rewrite bool_decide_false by done. apply Z.eqb_neq. lia.
Qed.

Definition push b p : port_buf :=
  PortBuf (pb_log2 b) (pb_avail b - 1) (pb_head b) ((pb_tail b + 1) mod ring_size b) (<[Z.to_nat (pb_tail b) := p]> (pb_packet b)).

Lemma push_ok b p : buf_ok b -> 0 < pb_avail b -> buf_ok (push b p) /\ ring_queue (push b p) = ring_queue b ++ [p].
Proof.
  intros Hb Ha. pose proof (ring_size_bounds b Hb) as Hs. destruct Hb as [H1 H2 H3 H4 H5].
  assert (ring_size (push b p) = ring_size b) as Es by done. assert (ring_used (push b p) = ring_used b + 1) as Eu by (unfold ring_used; rewrite Es; simpl; lia).
  assert (0 <= ring_used b < ring_size b) as Hu by (unfold ring_used; lia).
  split.
  - split; rewrite ?Es, ?Eu; simpl; [done|by rewrite length_insert|lia|done|]. rewrite H5, Zplus_mod_idemp_l. f_equal. lia.
  - unfold ring_queue. rewrite Eu. replace (Z.to_nat (ring_used b + 1)) with (Z.to_nat (ring_used b) + 1)%nat by lia.
    rewrite seq_app, fmap_app. simpl. f_equal.
    + apply list_fmap_ext. intros i x Hx. apply lookup_seq in Hx as [-> Hi]. unfold slot. rewrite Es. simpl.
      apply list_lookup_total_insert_ne. rewrite H5. intros E.
      apply (f_equal Z.of_nat) in E. rewrite !Z2Nat.id in E by (apply Z.mod_pos_bound; lia).
      pose proof (Z.div_mod (pb_head b + ring_used b) (ring_size b) ltac:(lia)). pose proof (Z.div_mod (pb_head b + Z.of_nat i) (ring_size b) ltac:(lia)).
      assert (ring_size b * ((pb_head b + ring_used b) / ring_size b - (pb_head b + Z.of_nat i) / ring_size b) = ring_used b - Z.of_nat i) as Ed by lia.
      set (d := (pb_head b + ring_used b) / ring_size b - (pb_head b + Z.of_nat i) / ring_size b) in Ed.
      assert (d <= 0 \/ 1 <= d) as [?|?] by lia; nia.
    + f_equal. unfold slot. rewrite Es. simpl. replace (Z.of_nat (Z.to_nat (ring_used b))) with (ring_used b) by lia. rewrite <- H5.
      apply list_lookup_total_insert_eq. pose proof (Z.mod_pos_bound (pb_head b + ring_used b) (ring_size b) ltac:(lia)). lia.
Qed.

Definition set_avail (v : Z) b : port_buf := PortBuf (pb_log2 b) v (pb_head b) (pb_tail b) (pb_packet b).

(** The loop leaves [avail] to the end. *)
Lemma write_loop_avail b ps a : buf_write_loop (set_avail a b) ps = set_avail a <$> buf_write_loop b ps.
Proof.
  revert b. induction ps as [|p ps IH]; intros b; [done|]. cbn [buf_write_loop]. simpl pb_tail. simpl pb_packet.
  destruct (_ && _); [|done]. exact (IH (PortBuf (pb_log2 b) (pb_avail b) (pb_head b)
    (modpow2 (u32 (pb_tail b + 1)) (pb_log2 b)) (<[Z.to_nat (pb_tail b) := p]> (pb_packet b)))).
Qed.

Lemma write_loop_spec ps : forall b, buf_ok b -> Z.of_nat (length ps) <= pb_avail b ->
  exists b', buf_write_loop b ps = Some b' /\ pb_avail b' = pb_avail b /\ pb_log2 b' = pb_log2 b /\
    buf_ok (set_avail (pb_avail b - Z.of_nat (length ps)) b') /\ ring_queue (set_avail (pb_avail b - Z.of_nat (length ps)) b') = ring_queue b ++ ps.
Proof.
  induction ps as [|p ps IH]; intros b Hb Hl; cbn [buf_write_loop].
  - exists b. assert (set_avail (pb_avail b - Z.of_nat (length (@nil Z))) b = b) as -> by (destruct b; unfold set_avail; simpl; f_equal; lia).
    by rewrite app_nil_r.
  - cbn [length] in Hl. destruct (push_ok b p Hb ltac:(lia)) as [Hp Hq]. pose proof (ring_size_bounds b Hb) as Hs.
    assert (0 <= pb_tail b < ring_size b) as Ht by (rewrite (bo_tail b Hb); apply Z.mod_pos_bound; lia).
    rewrite (proj2 (Z.leb_le 0 _)), (proj2 (Z.ltb_lt (pb_tail b) _)) by (rewrite ?(bo_length b Hb); lia). simpl andb. rewrite step_pow2 by done.
    match goal with |- context [buf_write_loop ?x ps] => change x with (set_avail (pb_avail b) (push b p)) end. rewrite write_loop_avail.
    destruct (IH (push b p) Hp ltac:(simpl; lia)) as (b' & -> & Ea & El & Hok & Eq). simpl pb_avail in *.
    exists (set_avail (pb_avail b) b'). split_and!; [done|done|done|..]; cbn [length].
    + by replace (pb_avail b - Z.of_nat (S (length ps))) with (pb_avail b - 1 - Z.of_nat (length ps)) by lia.
    + replace (pb_avail b - Z.of_nat (S (length ps))) with (pb_avail b - 1 - Z.of_nat (length ps)) by lia.
      change (set_avail ?x (set_avail _ b')) with (set_avail x b'). rewrite Eq, Hq, <- app_assoc. done.
Qed.

(** All of the packets are appended, or none. *)
Definition wrote b ps b' (st : Z) : Prop :=
  buf_ok b' /\ ring_size b' = ring_size b /\
  if Z.of_nat (length (ring_queue b) + length ps) <=? ring_size b then st = NO_ERROR /\ ring_queue b' = ring_queue b ++ ps
  else st = ERR_NOT_ENOUGH_BUFFER /\ b' = b.

Lemma buf_write_wp {S} b ps (s : S) : buf_ok b -> wp (buf_write b ps) (fun r s' => s' = s /\ wrote b ps r.1 r.2) s.
Proof.
  intros Hb. unfold buf_write, wrote. pose proof (ring_queue_length b Hb) as El. unfold ring_used in El. pose proof (ring_size_bounds b Hb). pose proof (bo_avail b Hb).
  destruct (Z.ltb_spec (pb_avail b) (Z.of_nat (length ps))) as [Hlt|Hge].
  - wp_step. split; [done|]. rewrite (proj2 (Z.leb_gt _ _)) by lia. done.
  - destruct (write_loop_spec ps b Hb Hge) as (b' & -> & Ea & E2 & Hok & Eq). do 2 wp_step; [done|]. wp_step. split; [done|].
    rewrite (proj2 (Z.leb_le _ _)) by lia. rewrite Ea, u32_small by lia. cbn [fst snd].
    split_and!; [exact Hok|unfold ring_size; simpl; by rewrite E2|done|exact Eq].
Qed.

Lemma buf_read_wp {S} b (s : S) : buf_ok b ->
  wp (buf_read b) (fun r s' => s' = s /\ match ring_queue b with
    | [] => r = (b, None)
    | p :: q => exists b', r = (b', Some p) /\ buf_ok b' /\ ring_size b' = ring_size b /\ ring_queue b' = q
    end) s.
Proof.
  intros Hb. unfold buf_read. rewrite buf_is_empty_spec by done. pose proof (ring_queue_length b Hb) as El. pose proof (ring_size_bounds b Hb) as Hs.
  destruct (ring_queue b) as [|p q] eqn:Eq; [rewrite bool_decide_true by done; by wp_step|]. rewrite bool_decide_false by done.
  pose proof (bo_head b Hb) as Hh. pose proof (bo_length b Hb) as Hl. unfold ring_queue in Eq.
  destruct (Z.to_nat (ring_used b)) as [|n] eqn:En; [done|]. cbn [seq fmap list_fmap] in Eq. injection Eq as Ep Eq.
  unfold slot in Ep. simpl in Ep. rewrite Z.add_0_r, Z.mod_small in Ep by done.
  wp_step. wp_step; [apply list_lookup_lookup_total_lt; lia|]. wp_step. split; [done|]. rewrite Ep.
  rewrite step_pow2 by done. pose proof (bo_avail b Hb) as Ha. unfold ring_used in En. rewrite u32_small by lia.
  eexists. split; [done|]. set (b' := PortBuf _ _ _ _ _). assert (ring_size b' = ring_size b) as Es by done.
  assert (Z.to_nat (ring_used b') = n) as Eu by (unfold ring_used; rewrite Es; simpl; lia).
  split_and!; [|done|].
  - split; rewrite ?Es; simpl; [apply (bo_log2 b Hb)|done|lia|apply Z.mod_pos_bound; lia|].
    rewrite (bo_tail b Hb), Zplus_mod_idemp_l. f_equal. unfold ring_used. rewrite Es. simpl. lia.
  - unfold ring_queue. rewrite Eu, <- Eq, <- fmap_S_seq, <- list_fmap_compose. apply list_fmap_ext. intros i x _. simpl. f_equal.
    unfold slot. rewrite Es. simpl pb_head. f_equal. rewrite Zplus_mod_idemp_l. f_equal. lia.
Qed.

Lemma make_buf_ok mem big b : make_buf mem big = Some b ->
  buf_ok b /\ ring_queue b = [] /\ ring_size b = if big then PORT_BUFF_SIZE_BIG else PORT_BUFF_SIZE.
Proof.
  unfold make_buf. destruct mem as [l|]; [|done]. intros E. apply (inj Some) in E as <-. 
  destruct big; (split_and!; [|done|done]); (split; [done|cbn [pb_packet]; by rewrite length_resize|done|done|done]).
Qed.
End rings.

(** ** The wait queues *)

(** No queue has come or gone. *)
Definition same_live {W} `{PortWaits W} (w w' : W) : Prop := forall n, pw_live w' n <-> pw_live w n.

(** Only the threads that wait for [n] have changed. *)
Definition only_waiting {W} `{PortWaits W} (n : nat) (q : list tid) (w w' : W) : Prop :=
  forall m, pw_waiting w' m = if decide (m = n) then q else pw_waiting w m.

Class PortWaitsLaws (W : Type) `{PortWaits W} := {
  pl_init n w : pw_ok w -> pw_calls w -> pw_waiting w n = [] ->
    wp (pw_init n) (fun _ w' => pw_ok w' /\ pw_calls w' /\ pw_live w' n /\ (forall m, m <> n -> pw_live w' m <-> pw_live w m) /\
      forall m, pw_waiting w' m = pw_waiting w m) w;
  pl_wake_one n err w : pw_ok w -> pw_calls w -> pw_live w n ->
    wp (pw_wake_one n err) (fun r w' => pw_ok w' /\ pw_calls w' /\ same_live w w' /\ only_waiting n (tail (pw_waiting w n)) w w' /\
      r = if decide (pw_waiting w n = []) then 0 else 1) w;
  pl_wake_all n err w : pw_ok w -> pw_calls w -> pw_live w n ->
    wp (pw_wake_all n err) (fun r w' => pw_ok w' /\ pw_calls w' /\ same_live w w' /\ only_waiting n [] w w') w;
  pl_block n timeout w : pw_ok w -> pw_calls w -> pw_live w n -> pw_timeout timeout ->
    wp (pw_block n timeout) (fun r w' => if timeout =? 0 then r = Some ERR_TIMED_OUT /\ w' = w
      else r = None /\ pw_ok w' /\ same_live w w' /\ exists t, only_waiting n (pw_waiting w n ++ [t]) w w') w;
  pl_destroy_enter n w : pw_ok w -> pw_calls w -> pw_live w n ->
    wp (pw_destroy_enter n) (fun r w' => pw_ok w' /\ same_live w w' /\ only_waiting n [] w w' /\
      r = Z.of_nat (length (pw_waiting w n)) /\ (r = 0 -> pw_calls w')) w;
  pl_destroy_return n w : pw_ok w -> pw_calls w -> pw_live w n -> pw_waiting w n = [] ->
    wp (pw_destroy_return n) (fun _ w' => pw_ok w' /\ pw_calls w' /\ (forall m, m <> n -> pw_live w' m <-> pw_live w m) /\
      forall m, pw_waiting w' m = pw_waiting w m) w;
  pl_yield w : pw_ok w -> pw_calls w ->
    wp pw_yield (fun _ w' => pw_ok w' /\ same_live w w' /\ forall m, pw_waiting w' m = pw_waiting w m) w }.

Section ports.
Context {W : Type} {PW : PortWaits W} {PL : PortWaitsLaws W}.
Implicit Types (s : ports W) (r : read_port) (w : write_port).

(** ** The invariant *)

Definition is_write (o : port_obj) : Prop := match o with OWrite _ => True | _ => False end.

Definition magic_ok (o : port_obj) : Prop :=
  match o with
  | OWrite w => wp_magic w = WRITEPORT_MAGIC_W \/ wp_magic w = WRITEPORT_MAGIC_X
  | ORead r => rp_magic r = READPORT_MAGIC
  | OGroup g => pg_magic g = PORTGROUP_MAGIC
  end.

(** An open read port is in the list of its write port and of its group; a write port holds a buffer exactly while it has no
    readers, and a unicast port has one reader at most. *)
Record pinv s : Prop := {
  pt_waits : pw_ok (p_wait s);
  pt_magic : forall p o, p_objs s !! p = Some o -> magic_ok o;
  pt_list : NoDup (write_port_list s) /\ forall p, p ∈ write_port_list s <-> exists w, p_objs s !! p = Some (OWrite w);
  pt_rp_wf : wf (p_rp s);
  pt_grp_wf : wf (p_grp s);
  pt_rp : forall wp rp, rp ∈ fq (p_rp s) wp <-> rp ∉ p_closing s /\ exists r, p_objs s !! rp = Some (ORead r) /\ rp_wport r = Some wp;
  pt_wp : forall wp, fq (p_rp s) wp <> [] -> exists w, p_objs s !! wp = Some (OWrite w);
  pt_grp : forall pg rp, rp ∈ fq (p_grp s) pg <-> rp ∉ p_closing s /\ exists r, p_objs s !! rp = Some (ORead r) /\ rp_gport r = Some pg;
  pt_pg : forall pg, fq (p_grp s) pg <> [] -> exists g, p_objs s !! pg = Some (OGroup g);
  pt_wbuf : forall wp w, p_objs s !! wp = Some (OWrite w) ->
    match wp_buf w with Some b => buf_ok b /\ fq (p_rp s) wp = [] | None => fq (p_rp s) wp <> [] end;
  pt_rbuf : forall rp r, p_objs s !! rp = Some (ORead r) -> rp ∉ p_closing s -> exists b, rp_buf r = Some b /\ buf_ok b;
  pt_unicast : forall wp w, p_objs s !! wp = Some (OWrite w) -> Z.land (wp_mode w) PORT_MODE_UNICAST <> 0 -> (length (fq (p_rp s) wp) <= 1)%nat;
  pt_live : forall p o, p_objs s !! p = Some o -> ~ is_write o -> pw_live (p_wait s) p;
  pt_closing : forall p, p ∈ p_closing s -> pw_waiting (p_wait s) p = [] /\ exists o, p_objs s !! p = Some o /\ ~ is_write o }.

(** Memory that is in no use. *)
Definition pfresh s (mem : option nat) : Prop :=
  forall p, mem = Some p -> p_objs s !! p = None /\ pw_waiting (p_wait s) p = [].

Ltac pinv_split Hi :=
  split; cbn [p_objs write_port_list p_rp p_grp p_wait p_closing set_plist on_rp on_grp on_objs on_closing set_waits]; try apply Hi.

(** ** Steps of the state *)

Lemma fresh_lists s p : pinv s -> p_objs s !! p = None ->
  (forall k, p ∉ fq (p_rp s) k) /\ (forall k, p ∉ fq (p_grp s) k) /\ fq (p_rp s) p = [] /\ fq (p_grp s) p = [] /\
  p ∉ write_port_list s /\ p ∉ p_closing s.
Proof.
  intros Hi Hp. split_and!.
  - intros k Hk. apply (pt_rp s Hi) in Hk as (_ & r & Hr & _). congruence.
  - intros k Hk. apply (pt_grp s Hi) in Hk as (_ & r & Hr & _). congruence.
  - destruct (fq (p_rp s) p) eqn:E; [done|]. destruct (pt_wp s Hi p) as [w Hw]; [by rewrite E|congruence].
  - destruct (fq (p_grp s) p) eqn:E; [done|]. destruct (pt_pg s Hi p) as [w Hw]; [by rewrite E|congruence].
  - intros Hin. apply (pt_list s Hi) in Hin as [w Hw]. congruence.
  - intros Hin. apply (pt_closing s Hi) in Hin as (_ & o & Ho & _). congruence.
Qed.

(** The wait queues have moved on. *)
Lemma pinv_waits s ww : pinv s -> pw_ok ww -> (forall p o, p_objs s !! p = Some o -> ~ is_write o -> pw_live (p_wait s) p -> pw_live ww p) ->
  (forall p, p ∈ p_closing s -> pw_waiting ww p = []) -> pinv (set_waits ww s).
Proof.
  intros Hi Hok Hl Hc. pinv_split Hi; [done| |].
  - intros p o Ho Hw. apply (Hl p o); [done|done|by apply (pt_live s Hi p o)].
  - intros p Hp. split; [by apply Hc|by apply (pt_closing s Hi)].
Qed.

(** A new write port. *)
Lemma pinv_create s wp name mode b : pinv s -> p_objs s !! wp = None -> buf_ok b ->
  pinv (set_plist (write_port_list s ++ [wp]) (on_rp (<[wp := []]>) (on_objs (<[wp := OWrite (WritePort WRITEPORT_MAGIC_W (Some b) mode name)]>) s))).
Proof.
  intros Hi Hp Hb. destruct (fresh_lists s wp Hi Hp) as (L1 & L2 & E1 & E2 & L3 & L4).
  assert (forall k, fq (<[wp := []]> (p_rp s)) k = fq (p_rp s) k) as Efq by (intros k; rewrite fq_insert; case_decide; by subst).
  pinv_split Hi.
  - intros p o [[<- <-]|[_ Ho]]%lookup_insert_Some; [by left|by apply (pt_magic s Hi p)].
  - destruct (pt_list s Hi) as [Hnd Hl]. split.
    + apply list.NoDup_app. split_and!; [done| |apply NoDup_singleton]. set_solver.
    + intros p. rewrite elem_of_app, list_elem_of_singleton, Hl. setoid_rewrite lookup_insert_Some. split.
      * intros [[w Hw]| ->]; [exists w; right; split; [congruence|done]|]. eexists. by left.
      * intros [w [[<- _]|[_ Hw]]]; [by right|left; by exists w].
  - split; intros *; rewrite !Efq; [apply (pt_rp_wf s Hi)|apply (pt_rp_wf s Hi)].
  - intros wp' rp. rewrite Efq, (pt_rp s Hi). setoid_rewrite lookup_insert_Some. split; (intros [? (r & Hr & ?)]; split; [done|]; exists r; split; [|done]).
    + right. split; [congruence|done].
    + by destruct Hr as [[_ ?]|[_ ?]].
  - intros wp'. rewrite Efq. intros Hne. destruct (pt_wp s Hi wp' Hne) as [w Hw]. exists w. rewrite lookup_insert_ne; [done|congruence].
  - intros pg rp. rewrite (pt_grp s Hi). setoid_rewrite lookup_insert_Some. split; (intros [? (r & Hr & ?)]; split; [done|]; exists r; split; [|done]).
    + right. split; [congruence|done].
    + by destruct Hr as [[_ ?]|[_ ?]].
  - intros pg Hne. destruct (pt_pg s Hi pg Hne) as [w Hw]. exists w. rewrite lookup_insert_ne; [done|congruence].
  - intros wp' w [[<- [= <-]]|[_ Hw]]%lookup_insert_Some; rewrite Efq; [done|by apply (pt_wbuf s Hi)].
  - intros rp r [[_ ?]|[_ Hr]]%lookup_insert_Some; [done|by apply (pt_rbuf s Hi rp)].
  - intros wp' w [[<- [= <-]]|[_ Hw]]%lookup_insert_Some; rewrite Efq; [by rewrite E1; simpl; lia|by apply (pt_unicast s Hi)].
  - intros p o [[<- <-]|[_ Ho]]%lookup_insert_Some; [by intros []|by apply (pt_live s Hi)].
  - intros p Hpc. destruct (pt_closing s Hi p Hpc) as (? & o & Ho & ?). split; [done|]. exists o. rewrite lookup_insert_ne; [done|congruence].
Qed.

(** A new read port on a write port, which takes the buffer of the write port or has its own. *)
Lemma pinv_open s rp wp w w' b ctx : pinv s -> p_objs s !! rp = None -> pw_live (p_wait s) rp -> p_objs s !! wp = Some (OWrite w) ->
  w' = set_wbuf None w -> buf_ok b -> (Z.land (wp_mode w) PORT_MODE_UNICAST <> 0 -> fq (p_rp s) wp = []) ->
  pinv (on_objs (fun o => <[wp := OWrite w']> (<[rp := ORead (ReadPort READPORT_MAGIC (Some b) ctx (Some wp) None)]> o)) (on_rp (add_tail wp rp) s)).
Proof.
  intros Hi Hp Hl Hwp -> Hb Huni. destruct (fresh_lists s rp Hi Hp) as (L1 & L2 & E1 & E2 & L3 & L4). assert (rp <> wp) as Hne by congruence.
  assert (forall k, fq (add_tail wp rp (p_rp s)) k = fq (p_rp s) k ++ if decide (k = wp) then [rp] else []) as Efq.
  { intros k. rewrite fq_add_tail. destruct (decide (wp = k)) as [<-|]; [by rewrite decide_True|rewrite decide_False by congruence; by rewrite app_nil_r]. }
  assert (forall p o, <[wp := OWrite (set_wbuf None w)]> (<[rp := ORead (ReadPort READPORT_MAGIC (Some b) ctx (Some wp) None)]> (p_objs s)) !! p = Some o ->
    (p = wp /\ o = OWrite (set_wbuf None w)) \/ (p = rp /\ o = ORead (ReadPort READPORT_MAGIC (Some b) ctx (Some wp) None)) \/
    (p <> wp /\ p <> rp /\ p_objs s !! p = Some o)) as Hlk.
  { intros p o. rewrite !lookup_insert_Some. naive_solver. }
  assert (forall p r, p_objs s !! p = Some (ORead r) ->
    <[wp := OWrite (set_wbuf None w)]> (<[rp := ORead (ReadPort READPORT_MAGIC (Some b) ctx (Some wp) None)]> (p_objs s)) !! p = Some (ORead r)) as Hrd.
  { intros p r Hr. rewrite !lookup_insert_ne by congruence. done. }
  pinv_split Hi.
  - intros p o [[-> ->]|[[-> ->]|(_ & _ & Ho)]]%Hlk; [apply (pt_magic s Hi wp _ Hwp)|done|by apply (pt_magic s Hi p)].
  - destruct (pt_list s Hi) as [Hnd Hls]. split; [done|]. intros p. rewrite Hls. split.
    + intros [w1 Hw1]. destruct (decide (p = wp)) as [->|]; [eexists; apply lookup_insert_eq|]. exists w1. rewrite !lookup_insert_ne by congruence. done.
    + intros [w1 [[-> _]|[[_ ?]|(_ & _ & Hw1)]]%Hlk]; [by exists w|done|by exists w1].
  - apply wf_add_tail; [apply Hi|]. apply in_list_false. done.
  - intros wp' rp'. rewrite Efq, elem_of_app, (pt_rp s Hi). split.
    + intros [[? (r & Hr & ?)]|Hin]; [split; [done|]; exists r; split; [by apply Hrd|done]|]. destruct (decide (wp' = wp)) as [->|]; [|set_solver].
      apply list_elem_of_singleton in Hin as ->. split; [done|]. eexists. rewrite lookup_insert_ne, lookup_insert_eq by congruence. done.
    + intros [? (r & [[_ ?]|[[-> [= ->]]|(_ & _ & Hr)]]%Hlk & Er)]; [done| |left; split; [done|]; by exists r].
      right. injection Er as <-. rewrite decide_True by done. set_solver +.
  - intros wp' Hq. destruct (decide (wp' = wp)) as [->|]; [eexists; apply lookup_insert_eq|]. rewrite Efq, decide_False, app_nil_r in Hq by done.
    destruct (pt_wp s Hi wp' Hq) as [w1 Hw1]. exists w1. rewrite !lookup_insert_ne by congruence. done.
  - intros pg rp'. rewrite (pt_grp s Hi). split; intros [? (r & Hr & Eg)]; (split; [done|]).
    + exists r. split; [by apply Hrd|done].
    + apply Hlk in Hr as [[_ ?]|[[-> [= ->]]|(_ & _ & Hr)]]; [done|done|by exists r].
  - intros pg Hq. destruct (pt_pg s Hi pg Hq) as [g Hg]. exists g. rewrite !lookup_insert_ne by congruence. done.
  - intros wp' w1 [[-> [= ->]]|[[_ ?]|(Hn & _ & Hw1)]]%Hlk; [|done|].
    + simpl. rewrite Efq, decide_True by done. by destruct (fq (p_rp s) wp).
    + rewrite Efq, decide_False, app_nil_r by done. by apply (pt_wbuf s Hi).
  - intros rp' r [[_ ?]|[[-> [= ->]]|(_ & _ & Hr)]]%Hlk; [done|by exists b|by apply (pt_rbuf s Hi rp')].
  - intros wp' w1 [[-> [= ->]]|[[_ ?]|(Hn & _ & Hw1)]]%Hlk; [|done|].
    + simpl. intros Hu. rewrite Efq, decide_True, (Huni Hu) by done. simpl. lia.
    + rewrite Efq, decide_False, app_nil_r by done. by apply (pt_unicast s Hi).
  - intros p o [[-> ->]|[[-> ->]|(_ & _ & Ho)]]%Hlk; [by intros []|done|by apply (pt_live s Hi)].
  - intros p Hpc. destruct (pt_closing s Hi p Hpc) as (? & o & Ho & Hw). split; [done|]. exists o. split; [|done].
    rewrite !lookup_insert_ne; [done|congruence|]. intros <-. rewrite Ho in Hwp. injection Hwp as ->. by apply Hw.
Qed.

(** Objects that keep their place: the magic may change from open to closed, and a buffer for another one. *)
Definition same_place (closing : Prop) (o o' : port_obj) : Prop :=
  magic_ok o' /\
  match o, o' with
  | OWrite w, OWrite w' => wp_mode w' = wp_mode w /\
      match wp_buf w, wp_buf w' with Some _, Some b => buf_ok b | None, None => True | _, _ => False end
  | ORead r, ORead r' => rp_wport r' = rp_wport r /\ rp_gport r' = rp_gport r /\ (~ closing -> exists b, rp_buf r' = Some b /\ buf_ok b)
  | OGroup _, OGroup _ => True
  | _, _ => False
  end.

Lemma pinv_same s f : pinv s ->
  (forall p, match p_objs s !! p, f (p_objs s) !! p with
    | None, None => True | Some o, Some o' => same_place (p ∈ p_closing s) o o' | _, _ => False end) ->
  pinv (on_objs f s).
Proof.
  intros Hi Hf. set (objs' := f (p_objs s)) in *.
  assert (forall p o', objs' !! p = Some o' -> exists o, p_objs s !! p = Some o /\ same_place (p ∈ p_closing s) o o') as Hb.
  { intros p o' Ho'. specialize (Hf p). rewrite Ho' in Hf. destruct (p_objs s !! p) as [o|]; [by exists o|done]. }
  assert (forall p o, p_objs s !! p = Some o -> exists o', objs' !! p = Some o' /\ same_place (p ∈ p_closing s) o o') as Hfw.
  { intros p o Ho. specialize (Hf p). rewrite Ho in Hf. destruct (objs' !! p) as [o'|]; [by exists o'|done]. }
  assert (forall p, (exists w, objs' !! p = Some (OWrite w)) <-> exists w, p_objs s !! p = Some (OWrite w)) as Hwr.
  { intros p. split; [intros [w (o & Ho & _ & Hs)%Hb]|intros [w (o & Ho & _ & Hs)%Hfw]]; destruct o; try done; eauto. }
  assert (forall p (P : read_port -> Prop), (forall r r', rp_wport r' = rp_wport r -> rp_gport r' = rp_gport r -> P r <-> P r') ->
    (exists r, objs' !! p = Some (ORead r) /\ P r) <-> exists r, p_objs s !! p = Some (ORead r) /\ P r) as Hrd.
  { intros p P HP. split; [intros (r & (o & Ho & _ & Hs)%Hb & Hr)|intros (r & (o & Ho & _ & Hs)%Hfw & Hr)]; destruct o as [|r'|]; try done;
      destruct Hs as (E1 & E2 & _); exists r'; (split; [done|]); [by apply (HP r' r)|by apply (HP r r')]. }
  split; cbn [p_objs write_port_list p_rp p_grp p_wait p_closing on_objs]; fold objs'.
  - apply Hi.
  - by intros p o (o0 & _ & ? & _)%Hb.
  - split; [apply (pt_list s Hi)|]. intros p. by rewrite Hwr, (proj2 (pt_list s Hi)).
  - apply Hi.
  - apply Hi.
  - intros wp rp. rewrite (pt_rp s Hi), Hrd; [done|]. by intros r r' -> _.
  - intros wp Hq. apply Hwr. by apply (pt_wp s Hi).
  - intros pg rp. rewrite (pt_grp s Hi), Hrd; [done|]. by intros r r' _ ->.
  - intros pg Hq. destruct (pt_pg s Hi pg Hq) as [g (o & Ho & _ & Hs)%Hfw]. destruct o; try done. eauto.
  - intros wp w' (o & Ho & _ & Hs)%Hb. destruct o as [w| |]; try done. destruct Hs as [_ Hs]. pose proof (pt_wbuf s Hi wp w Ho) as H1.
    destruct (wp_buf w), (wp_buf w'); try done. by split; [|apply H1].
  - intros rp r' (o & Ho & _ & Hs)%Hb Hc. destruct o as [|r|]; try done. by apply Hs.
  - intros wp w' (o & Ho & _ & Hs)%Hb. destruct o as [w| |]; try done. destruct Hs as [-> _]. by apply (pt_unicast s Hi).
  - intros p o' (o & Ho & _ & Hs)%Hb Hw. apply (pt_live s Hi p o Ho). by destruct o, o'.
  - intros p Hp. destruct (pt_closing s Hi p Hp) as (? & o & (o' & Ho' & _ & Hs)%Hfw & Hw). split; [done|]. exists o'. split; [done|]. by destruct o, o'.
Qed.

(** One object that keeps its place. *)
Lemma pinv_put s p o o' : pinv s -> p_objs s !! p = Some o -> same_place (p ∈ p_closing s) o o' -> pinv (on_objs (<[p := o']>) s).
Proof.
  intros Hi Ho Hs. apply pinv_same; [done|]. intros p'. destruct (decide (p = p')) as [<-|Hne]; [by rewrite lookup_insert_eq, Ho|].
  rewrite lookup_insert_ne by done. destruct (p_objs s !! p') as [o1|] eqn:E; [|done]. split; [by apply (pt_magic s Hi p')|]. destruct o1 as [w|r|g]; [| |done].
  - split; [done|]. pose proof (pt_wbuf s Hi p' w E) as Hb. destruct (wp_buf w); [apply Hb|done].
  - split_and!; [done..|]. by apply (pt_rbuf s Hi p').
Qed.

(** A new group. *)
Lemma pinv_new_group s pg : pinv s -> p_objs s !! pg = None -> pw_live (p_wait s) pg ->
  pinv (on_grp (<[pg := []]>) (on_objs (<[pg := OGroup (PortGroup PORTGROUP_MAGIC)]>) s)).
Proof.
  intros Hi Hp Hl. destruct (fresh_lists s pg Hi Hp) as (L1 & L2 & E1 & E2 & L3 & L4).
  assert (forall k, fq (<[pg := []]> (p_grp s)) k = fq (p_grp s) k) as Efq by (intros k; rewrite fq_insert; case_decide; by subst).
  assert (forall p o, p_objs s !! p = Some o -> <[pg := OGroup (PortGroup PORTGROUP_MAGIC)]> (p_objs s) !! p = Some o) as Hfw.
  { intros p o Ho. rewrite lookup_insert_ne; [done|congruence]. }
  assert (forall p o, ~ (exists g, o = OGroup g) -> <[pg := OGroup (PortGroup PORTGROUP_MAGIC)]> (p_objs s) !! p = Some o -> p_objs s !! p = Some o) as Hb.
  { intros p o Hg [[_ <-]|[_ ?]]%lookup_insert_Some; [|done]. exfalso. apply Hg. by eexists. }
  assert (forall r, ~ exists g, ORead r = OGroup g) as Nr by (by intros r [g ?]). assert (forall w, ~ exists g, OWrite w = OGroup g) as Nw by (by intros r [g ?]).
  pinv_split Hi.
  - intros p o [[_ <-]|[_ Ho]]%lookup_insert_Some; [done|by apply (pt_magic s Hi p)].
  - split; [apply (pt_list s Hi)|]. intros p. rewrite (proj2 (pt_list s Hi)). split; intros [w Hw]; exists w; eauto.
  - split; intros *; rewrite !Efq; apply (pt_grp_wf s Hi).
  - intros wp rp. rewrite (pt_rp s Hi). split; intros [? (r & Hr & ?)]; (split; [done|]); exists r; eauto.
  - intros wp Hq. destruct (pt_wp s Hi wp Hq) as [w Hw]. eauto.
  - intros g rp. rewrite Efq, (pt_grp s Hi). split; intros [? (r & Hr & ?)]; (split; [done|]); exists r; eauto.
  - intros g. rewrite Efq. intros Hq. destruct (pt_pg s Hi g Hq) as [g' Hg']. eauto.
  - intros wp w Hw. apply (pt_wbuf s Hi). eauto.
  - intros rp r Hr. apply (pt_rbuf s Hi rp). eauto.
  - intros wp w Hw. apply (pt_unicast s Hi). eauto.
  - intros p o [[<- <-]|[_ Ho]]%lookup_insert_Some; [done|by apply (pt_live s Hi)].
  - intros p Hpc. destruct (pt_closing s Hi p Hpc) as (? & o & Ho & ?). split; [done|]. exists o. eauto.
Qed.

(** A read port joins a group. *)
Lemma pinv_join s pg g rp r : pinv s -> p_objs s !! pg = Some (OGroup g) -> p_objs s !! rp = Some (ORead r) -> rp ∉ p_closing s -> rp_gport r = None ->
  pinv (on_grp (add_tail pg rp) (on_objs (<[rp := ORead (set_gport (Some pg) r)]>) s)).
Proof.
  intros Hi Hpg Hr Hc Eg. assert (forall k, rp ∉ fq (p_grp s) k) as Hno.
  { intros k Hk. apply (pt_grp s Hi) in Hk as (_ & r' & Hr' & E). congruence. }
  assert (forall k, fq (add_tail pg rp (p_grp s)) k = fq (p_grp s) k ++ if decide (k = pg) then [rp] else []) as Efq.
  { intros k. rewrite fq_add_tail. destruct (decide (pg = k)) as [<-|]; [by rewrite decide_True|rewrite decide_False by congruence; by rewrite app_nil_r]. }
  assert (forall p o, ~ (exists r, o = ORead r) -> <[rp := ORead (set_gport (Some pg) r)]> (p_objs s) !! p = Some o <-> p_objs s !! p = Some o) as Hno'.
  { intros p o Hn. rewrite lookup_insert_Some. split; [intros [[_ <-]|[_ ?]]; [exfalso; apply Hn; by eexists|done]|].
    intros Ho. right. split; [|done]. intros <-. rewrite Hr in Ho. injection Ho as <-. apply Hn. by eexists. }
  assert (forall w, ~ exists r, OWrite w = ORead r) as Nw by (by intros w [? ?]). assert (forall g, ~ exists r, OGroup g = ORead r) as Ng by (by intros w [? ?]).
  pinv_split Hi.
  - intros p o [[<- <-]|[_ Ho]]%lookup_insert_Some; [apply (pt_magic s Hi rp _ Hr)|by apply (pt_magic s Hi p)].
  - split; [apply (pt_list s Hi)|]. intros p. rewrite (proj2 (pt_list s Hi)). by setoid_rewrite Hno'; [|done].
  - apply wf_add_tail; [apply Hi|]. by apply in_list_false.
  - intros wp rp'. rewrite (pt_rp s Hi). setoid_rewrite lookup_insert_Some. split; intros [? (r' & Hr' & E)]; (split; [done|]).
    + destruct (decide (rp = rp')) as [<-|]; [|exists r'; split; [by right|done]]. rewrite Hr in Hr'. injection Hr' as <-. eexists. split; [by left|done].
    + destruct Hr' as [[<- [= <-]]|[_ ?]]; [exists r|exists r']; done.
  - intros wp Hq. destruct (pt_wp s Hi wp Hq) as [w Hw]. exists w. by apply Hno'.
  - intros g' rp'. rewrite Efq, elem_of_app, (pt_grp s Hi). setoid_rewrite lookup_insert_Some. split.
    + intros [[? (r' & Hr' & E)]|Hin]; [split; [done|]; exists r'; split; [right; split; [congruence|done]|done]|].
      destruct (decide (g' = pg)) as [->|]; [|set_solver]. apply list_elem_of_singleton in Hin as ->. split; [done|]. eexists. split; [by left|done].
    + intros [? (r' & [[<- [= <-]]|[Hn Hr']] & E)]; [right; injection E as <-; rewrite decide_True by done; set_solver +|left; split; [done|by exists r']].
  - intros g'. rewrite Efq. intros Hq. destruct (decide (g' = pg)) as [->|]; [exists g; by apply Hno'|]. rewrite app_nil_r in Hq.
    destruct (pt_pg s Hi g' Hq) as [g1 Hg1]. exists g1. by apply Hno'.
  - intros wp w Hw%Hno'; [|done]. by apply (pt_wbuf s Hi).
  - intros rp' r' [[<- [= <-]]|[_ Hr']]%lookup_insert_Some Hc'; [apply (pt_rbuf s Hi rp r Hr Hc)|by apply (pt_rbuf s Hi rp')].
  - intros wp w Hw%Hno'; [|done]. by apply (pt_unicast s Hi).
  - intros p o [[<- <-]|[_ Ho]]%lookup_insert_Some Hw; [by apply (pt_live s Hi rp _ Hr)|by apply (pt_live s Hi p o)].
  - intros p Hpc. destruct (pt_closing s Hi p Hpc) as (? & o & Ho & ?). split; [done|]. exists o. rewrite lookup_insert_ne; [done|congruence].
Qed.

Definition map_read (f : read_port -> read_port) (o : port_obj) : port_obj := match o with ORead r => ORead (f r) | _ => o end.

(** The objects after the members [l] of [p] have been detached from it with [f], and [p] has been freed. *)
Definition detached (f : read_port -> read_port) (p : nat) (l : list nat) (objs objs' : gmap nat port_obj) : Prop :=
  forall q, objs' !! q = if decide (q = p) then None else if decide (q ∈ l) then map_read f <$> objs !! q else objs !! q.

Lemma fq_delete (F : gmap nat (list nat)) p k : fq (delete p F) k = if decide (k = p) then [] else fq F k.
Proof. unfold fq. destruct (decide (k = p)) as [->|]; [by rewrite lookup_delete_eq|by rewrite lookup_delete_ne]. Qed.

Lemma wf_delete (F : gmap nat (list nat)) p : wf F -> wf (delete p F).
Proof.
  intros [H1 H2]. split; intros *; rewrite ?fq_delete; [case_decide; [constructor|apply H1]|]. do 2 (case_decide; [set_solver|]). apply H2.
Qed.

Section detach.
Context (f : read_port -> read_port) (p : nat) (l : list nat) (objs objs' : gmap nat port_obj).
Context (Hd : detached f p l objs objs') (Hl : forall q, q ∈ l -> exists r, objs !! q = Some (ORead r)).

Lemma detached_other q o : ~ (exists r, o = ORead r) -> objs' !! q = Some o <-> q <> p /\ objs !! q = Some o.
Proof using Hd Hl.
  intros Hn. rewrite Hd. destruct (decide (q = p)) as [->|Hq]; [naive_solver|]. destruct (decide (q ∈ l)) as [Hin|]; [|naive_solver].
  destruct (Hl q Hin) as [r ->]. simpl. split; [intros [= <-]|intros [_ [= <-]]]; exfalso; apply Hn; by eexists.
Qed.

Lemma detached_read q r : objs' !! q = Some (ORead r) <-> q <> p /\ exists r0, objs !! q = Some (ORead r0) /\ r = if decide (q ∈ l) then f r0 else r0.
Proof using Hd Hl.
  rewrite Hd. destruct (decide (q = p)) as [->|Hq]; [naive_solver|]. destruct (decide (q ∈ l)) as [Hin|]; [|naive_solver].
  destruct (Hl q Hin) as [r0 ->]. simpl. split; [intros [= <-]; eauto|]. intros (_ & r1 & [= <-] & ->). done.
Qed.
End detach.

Lemma not_read_write w : ~ exists r, OWrite w = ORead r.
Proof. by intros [? ?]. Qed.
Lemma not_read_group g : ~ exists r, OGroup g = ORead r.
Proof. by intros [? ?]. Qed.

(** A group is freed and its members are in no group any more. *)
Lemma pinv_dissolve s pg g objs' : pinv s -> p_objs s !! pg = Some (OGroup g) -> detached (set_gport None) pg (fq (p_grp s) pg) (p_objs s) objs' ->
  pinv (Ports objs' (write_port_list s) (delete pg (p_rp s)) (delete pg (p_grp s)) (p_wait s) (p_closing s ∖ {[pg]})).
Proof.
  intros Hi Hpg Hd. set (l := fq (p_grp s) pg) in *.
  assert (forall q, q ∈ l -> exists r, p_objs s !! q = Some (ORead r)) as Hl by (intros q (_ & r & ? & _)%(pt_grp s Hi); by exists r).
  pose proof (detached_other _ _ _ _ _ Hd Hl) as Ho. pose proof (detached_read _ _ _ _ _ Hd Hl) as Hr.
  assert (fq (p_rp s) pg = []) as E1 by (destruct (fq (p_rp s) pg) eqn:E; [done|]; destruct (pt_wp s Hi pg) as [w Hw]; [by rewrite E|congruence]).
  assert (forall k, fq (delete pg (p_rp s)) k = fq (p_rp s) k) as Er by (intros k; rewrite fq_delete; case_decide; by subst).
  assert (forall q r, p_objs s !! q = Some (ORead r) -> q ∉ p_closing s ∖ {[pg]} <-> q ∉ p_closing s) as Hc.
  { intros q r Hq. assert (q <> pg) by congruence. set_solver. }
  split; cbn [p_objs write_port_list p_rp p_grp p_wait p_closing].
  - apply Hi.
  - intros q o Hq. destruct o as [w|r|g'].
    + apply Ho in Hq as [_ Hq]; [|apply not_read_write]. by apply (pt_magic s Hi q).
    + apply Hr in Hq as (_ & r0 & Hq & ->). pose proof (pt_magic s Hi q _ Hq). by case_decide.
    + apply Ho in Hq as [_ Hq]; [|apply not_read_group]. by apply (pt_magic s Hi q).
  - split; [apply (pt_list s Hi)|]. intros q. rewrite (proj2 (pt_list s Hi)). setoid_rewrite Ho; [|apply not_read_write].
    split; intros [w Hw]; exists w; [split; [congruence|done]|apply Hw].
  - apply wf_delete, Hi.
  - apply wf_delete, Hi.
  - intros wp rp. rewrite Er, (pt_rp s Hi). setoid_rewrite Hr. split.
    + intros [? (r & Hq & E)]. split; [by rewrite Hc|]. eexists. split; [split; [congruence|]; exists r; split; [done|reflexivity]|]. by case_decide.
    + intros [Hcl (r & (_ & r0 & Hq & ->) & E)]. split; [by rewrite Hc in Hcl|]. exists r0. split; [done|]. by case_decide.
  - intros wp. rewrite Er. intros Hq. destruct (pt_wp s Hi wp Hq) as [w Hw]. exists w. apply Ho; [apply not_read_write|]. split; [congruence|done].
  - intros g' rp. rewrite fq_delete. destruct (decide (g' = pg)) as [->|Hne].
    + split; [by intros ?%not_elem_of_nil|]. intros [Hcl (r & Hq & E)]. apply Hr in Hq as (_ & r0 & Hq & ->). exfalso.
      destruct (decide (rp ∈ l)) as [|Hn]; [done|]. apply Hn. apply (pt_grp s Hi). rewrite Hc in Hcl by done. split; [done|by exists r0].
    + rewrite (pt_grp s Hi). split.
      * intros [Hcl (r & Hq & E)]. split; [by rewrite Hc|]. exists r. split; [|done]. apply Hr. split; [congruence|]. exists r. split; [done|].
        rewrite decide_False; [done|]. intros (_ & r1 & Hq1 & E1')%(pt_grp s Hi). congruence.
      * intros [Hcl (r & Hq & E)]. apply Hr in Hq as (_ & r0 & Hq & ->). rewrite Hc in Hcl by done. split; [done|]. exists r0. split; [done|]. by case_decide.
  - intros g'. rewrite fq_delete. case_decide; [done|]. intros Hq. destruct (pt_pg s Hi g' Hq) as [g1 Hg1]. exists g1. apply Ho; [apply not_read_group|done].
  - intros wp w Hw. apply Ho in Hw as [_ Hw]; [|apply not_read_write]. rewrite Er. by apply (pt_wbuf s Hi).
  - intros rp r (_ & r0 & Hq & ->)%Hr Hcl. rewrite Hc in Hcl by done. destruct (pt_rbuf s Hi rp r0 Hq Hcl) as (b & ? & ?). exists b. by case_decide.
  - intros wp w Hw. apply Ho in Hw as [_ Hw]; [|apply not_read_write]. rewrite Er. by apply (pt_unicast s Hi).
  - intros q o Hq Hw. destruct o as [w|r|g']; [done| |].
    + apply Hr in Hq as (_ & r0 & Hq & _). by apply (pt_live s Hi q _ Hq).
    + apply Ho in Hq as [_ Hq]; [|apply not_read_group]. by apply (pt_live s Hi q _ Hq).
  - intros q [Hq Hne]%elem_of_difference. destruct (pt_closing s Hi q Hq) as (? & o & Hqo & Hw). split; [done|].
    assert (q <> pg) by set_solver. destruct o as [w|r|g']; [done| |].
    + eexists. split; [apply Hr; split; [done|]; exists r; split; [done|reflexivity]|done].
    + exists (OGroup g'). split; [apply Ho; [apply not_read_group|done]|done].
Qed.

(** A write port is freed and its readers are left without it. *)
Lemma pinv_destroy s wp w objs' : pinv s -> p_objs s !! wp = Some (OWrite w) -> detached (set_wport None) wp (fq (p_rp s) wp) (p_objs s) objs' ->
  pinv (Ports objs' (filter (fun x => x <> wp) (write_port_list s)) (delete wp (p_rp s)) (delete wp (p_grp s)) (p_wait s) (p_closing s)).
Proof.
  intros Hi Hwp Hd. set (l := fq (p_rp s) wp) in *.
  assert (forall q, q ∈ l -> exists r, p_objs s !! q = Some (ORead r)) as Hl by (intros q (_ & r & ? & _)%(pt_rp s Hi); by exists r).
  pose proof (detached_other _ _ _ _ _ Hd Hl) as Ho. pose proof (detached_read _ _ _ _ _ Hd Hl) as Hr.
  assert (fq (p_grp s) wp = []) as E1 by (destruct (fq (p_grp s) wp) eqn:E; [done|]; destruct (pt_pg s Hi wp) as [g Hg]; [by rewrite E|congruence]).
  assert (forall k, fq (delete wp (p_grp s)) k = fq (p_grp s) k) as Er by (intros k; rewrite fq_delete; case_decide; by subst).
  split; cbn [p_objs write_port_list p_rp p_grp p_wait p_closing].
  - apply Hi.
  - intros q o Hq. destruct o as [w1|r|g'].
    + apply Ho in Hq as [_ Hq]; [|apply not_read_write]. by apply (pt_magic s Hi q).
    + apply Hr in Hq as (_ & r0 & Hq & ->). pose proof (pt_magic s Hi q _ Hq). by case_decide.
    + apply Ho in Hq as [_ Hq]; [|apply not_read_group]. by apply (pt_magic s Hi q).
  - split; [apply list.NoDup_filter, (pt_list s Hi)|]. intros q. rewrite list_elem_of_filter, (proj2 (pt_list s Hi)). setoid_rewrite Ho; [|apply not_read_write]. naive_solver.
  - apply wf_delete, Hi.
  - apply wf_delete, Hi.
  - intros wp' rp. rewrite fq_delete. destruct (decide (wp' = wp)) as [->|Hne].
    + split; [by intros ?%not_elem_of_nil|]. intros [Hcl (r & Hq & E)]. apply Hr in Hq as (_ & r0 & Hq & ->). exfalso.
      destruct (decide (rp ∈ l)) as [|Hn]; [done|]. apply Hn. apply (pt_rp s Hi). split; [done|by exists r0].
    + rewrite (pt_rp s Hi). split.
      * intros [Hcl (r & Hq & E)]. split; [done|]. exists r. split; [|done]. apply Hr. split; [congruence|]. exists r. split; [done|].
        rewrite decide_False; [done|]. intros (_ & r1 & Hq1 & E1')%(pt_rp s Hi). congruence.
      * intros [Hcl (r & Hq & E)]. apply Hr in Hq as (_ & r0 & Hq & ->). split; [done|]. exists r0. split; [done|]. by case_decide.
  - intros wp'. rewrite fq_delete. case_decide; [done|]. intros Hq. destruct (pt_wp s Hi wp' Hq) as [w1 Hw1]. exists w1. apply Ho; [apply not_read_write|done].
  - intros pg rp. rewrite Er, (pt_grp s Hi). setoid_rewrite Hr. split.
    + intros [? (r & Hq & E)]. split; [done|]. eexists. split; [split; [congruence|]; exists r; split; [done|reflexivity]|]. by case_decide.
    + intros [Hcl (r & (_ & r0 & Hq & ->) & E)]. split; [done|]. exists r0. split; [done|]. by case_decide.
  - intros pg. rewrite Er. intros Hq. destruct (pt_pg s Hi pg Hq) as [g Hg]. exists g. apply Ho; [apply not_read_group|]. split; [congruence|done].
  - intros wp' w1 Hw. apply Ho in Hw as [Hne Hw]; [|apply not_read_write]. rewrite fq_delete, decide_False by done. by apply (pt_wbuf s Hi).
  - intros rp r (_ & r0 & Hq & ->)%Hr Hcl. destruct (pt_rbuf s Hi rp r0 Hq Hcl) as (b & ? & ?). exists b. by case_decide.
  - intros wp' w1 Hw. apply Ho in Hw as [Hne Hw]; [|apply not_read_write]. rewrite fq_delete, decide_False by done. by apply (pt_unicast s Hi).
  - intros q o Hq Hw. destruct o as [w1|r|g']; [done| |].
    + apply Hr in Hq as (_ & r0 & Hq & _). by apply (pt_live s Hi q _ Hq).
    + apply Ho in Hq as [_ Hq]; [|apply not_read_group]. by apply (pt_live s Hi q _ Hq).
  - intros q Hq. destruct (pt_closing s Hi q Hq) as (? & o & Hqo & Hw). split; [done|].
    assert (q <> wp) by (intros ->; rewrite Hwp in Hqo; injection Hqo as <-; by apply Hw). destruct o as [w1|r|g']; [done| |].
    + eexists. split; [apply Hr; split; [done|]; exists r; split; [done|reflexivity]|done].
    + exists (OGroup g'). split; [apply Ho; [apply not_read_group|done]|done].
Qed.

(** A read port that is being closed is in no list any more. *)
Lemma pinv_leave s rp r r1 objs' F G : pinv s -> p_objs s !! rp = Some (ORead r) -> pw_waiting (p_wait s) rp = [] ->
  wf F -> (forall k, fq F k = filter (fun x => x <> rp) (fq (p_rp s) k)) -> wf G -> (forall k, fq G k = filter (fun x => x <> rp) (fq (p_grp s) k)) ->
  objs' !! rp = Some (ORead r1) -> rp_magic r1 = READPORT_MAGIC ->
  (forall q o, q <> rp -> ~ is_write o -> objs' !! q = Some o <-> p_objs s !! q = Some o) ->
  (forall q w, p_objs s !! q = Some (OWrite w) -> exists w', objs' !! q = Some (OWrite w')) ->
  (forall q w', objs' !! q = Some (OWrite w') -> exists w, p_objs s !! q = Some (OWrite w) /\ wp_mode w' = wp_mode w /\ wp_magic w' = wp_magic w /\
     match wp_buf w' with Some b => buf_ok b /\ fq F q = [] | None => fq F q <> [] end) ->
  pinv (Ports objs' (write_port_list s) F G (p_wait s) ({[rp]} ∪ p_closing s)).
Proof.
  intros Hi Hrp Hwt HwF HF HwG HG Hrp' Hmg Hoth Hfw Hbw.
  assert (forall F F' : gmap nat (list nat), (forall k, fq F' k = filter (fun x => x <> rp) (fq F k)) -> forall k, fq F' k <> [] -> fq F k <> []) as Hsub.
  { intros F1 F2 E k Hk E0. rewrite E, E0 in Hk. done. }
  split; cbn [p_objs write_port_list p_rp p_grp p_wait p_closing].
  - apply Hi.
  - intros q o Hq. destruct (decide (q = rp)) as [->|Hne]; [rewrite Hrp' in Hq; injection Hq as <-; done|]. destruct o as [w'| |].
    + destruct (Hbw q w' Hq) as (w & Hw & _ & Em & _). pose proof (pt_magic s Hi q _ Hw) as H. simpl in *. by rewrite Em.
    + apply Hoth in Hq; [by apply (pt_magic s Hi q)|done|by intros []].
    + apply Hoth in Hq; [by apply (pt_magic s Hi q)|done|by intros []].
  - split; [apply (pt_list s Hi)|]. intros q. rewrite (proj2 (pt_list s Hi)). split; [intros [w Hw]; by apply (Hfw q w)|].
    intros [w' Hw']. destruct (Hbw q w' Hw') as (w & ? & _). by exists w.
  - done.
  - done.
  - intros wp q. rewrite HF, list_elem_of_filter, (pt_rp s Hi). split.
    + intros [Hne [Hc (r' & Hr' & E)]]. split; [set_solver|]. exists r'. split; [|done]. by apply Hoth; [done|intros []|].
    + intros [Hc (r' & Hr' & E)]. assert (q <> rp) as Hne by set_solver. apply Hoth in Hr'; [|done|by intros []]. split; [done|]. split; [set_solver|by exists r'].
  - intros wp Hq. destruct (pt_wp s Hi wp) as [w Hw]; [by apply (Hsub _ _ HF)|]. by apply (Hfw wp w).
  - intros pg q. rewrite HG, list_elem_of_filter, (pt_grp s Hi). split.
    + intros [Hne [Hc (r' & Hr' & E)]]. split; [set_solver|]. exists r'. split; [|done]. by apply Hoth; [done|intros []|].
    + intros [Hc (r' & Hr' & E)]. assert (q <> rp) as Hne by set_solver. apply Hoth in Hr'; [|done|by intros []]. split; [done|]. split; [set_solver|by exists r'].
  - intros pg Hq. destruct (pt_pg s Hi pg) as [g Hg]; [by apply (Hsub _ _ HG)|]. exists g. apply Hoth; [congruence|by intros []|done].
  - intros wp w' Hw'. by destruct (Hbw wp w' Hw') as (w & _ & _ & _ & ?).
  - intros q r' Hr' Hc. assert (q <> rp) as Hne by set_solver. apply Hoth in Hr'; [|done|by intros []]. apply (pt_rbuf s Hi q); [done|set_solver].
  - intros wp w' Hw'. destruct (Hbw wp w' Hw') as (w & Hw & -> & _). intros Hu. pose proof (pt_unicast s Hi wp w Hw Hu).
    rewrite HF. etrans; [apply length_filter|done].
  - intros q o Hq Hw. destruct (decide (q = rp)) as [->|Hne]; [by apply (pt_live s Hi rp _ Hrp); intros []|]. apply (pt_live s Hi q o); [|done]. by apply Hoth.
  - intros q [->%elem_of_singleton|Hq]%elem_of_union; [split; [done|]; eexists; split; [done|by intros []]|].
    destruct (pt_closing s Hi q Hq) as (? & o & Ho & Hw). split; [done|]. destruct (decide (q = rp)) as [->|Hne]; [eexists; split; [done|by intros []]|].
    exists o. split; [by apply Hoth|done].
Qed.

(** A read port that has been closed is freed. *)
Lemma pinv_free_read s rp r : pinv s -> p_objs s !! rp = Some (ORead r) -> rp ∈ p_closing s ->
  pinv (Ports (delete rp (p_objs s)) (write_port_list s) (delete rp (p_rp s)) (delete rp (p_grp s)) (p_wait s) (p_closing s ∖ {[rp]})).
Proof.
  intros Hi Hrp Hc. assert (forall q o, delete rp (p_objs s) !! q = Some o <-> q <> rp /\ p_objs s !! q = Some o) as Hlk.
  { intros q o. rewrite lookup_delete_Some. naive_solver. }
  assert (fq (p_rp s) rp = []) as E1 by (destruct (fq (p_rp s) rp) eqn:E; [done|]; destruct (pt_wp s Hi rp) as [w Hw]; [by rewrite E|congruence]).
  assert (fq (p_grp s) rp = []) as E2 by (destruct (fq (p_grp s) rp) eqn:E; [done|]; destruct (pt_pg s Hi rp) as [w Hw]; [by rewrite E|congruence]).
  assert (forall k, fq (delete rp (p_rp s)) k = fq (p_rp s) k) as Er by (intros k; rewrite fq_delete; case_decide; by subst).
  assert (forall k, fq (delete rp (p_grp s)) k = fq (p_grp s) k) as Eg by (intros k; rewrite fq_delete; case_decide; by subst).
  split; cbn [p_objs write_port_list p_rp p_grp p_wait p_closing].
  - apply Hi.
  - intros q o [_ Hq]%Hlk. by apply (pt_magic s Hi q).
  - split; [apply (pt_list s Hi)|]. intros q. rewrite (proj2 (pt_list s Hi)). setoid_rewrite Hlk.
    split; intros [w Hw]; exists w; [split; [congruence|done]|apply Hw].
  - apply wf_delete, Hi.
  - apply wf_delete, Hi.
  - intros wp q. rewrite Er, (pt_rp s Hi). setoid_rewrite Hlk. set_solver.
  - intros wp. rewrite Er. intros Hq. destruct (pt_wp s Hi wp Hq) as [w Hw]. exists w. apply Hlk. split; [congruence|done].
  - intros wp q. rewrite Eg, (pt_grp s Hi). setoid_rewrite Hlk. set_solver.
  - intros wp. rewrite Eg. intros Hq. destruct (pt_pg s Hi wp Hq) as [w Hw]. exists w. apply Hlk. split; [congruence|done].
  - intros wp w [_ Hw]%Hlk. rewrite Er. by apply (pt_wbuf s Hi).
  - intros q r' [Hne Hr']%Hlk Hcl. apply (pt_rbuf s Hi q); [done|set_solver].
  - intros wp w [_ Hw]%Hlk. rewrite Er. by apply (pt_unicast s Hi).
  - intros q o [_ Hq]%Hlk. by apply (pt_live s Hi).
  - intros q [Hq Hne]%elem_of_difference. destruct (pt_closing s Hi q Hq) as (? & o & Ho & Hw). split; [done|]. exists o. split; [|done].
    apply Hlk. split; [set_solver|done].
Qed.

Lemma pinv_closing_group s pg g : pinv s -> p_objs s !! pg = Some (OGroup g) -> pw_waiting (p_wait s) pg = [] -> pinv (on_closing (union {[pg]}) s).
Proof.
  intros Hi Hg Hw. assert (forall q r, p_objs s !! q = Some (ORead r) -> q ∉ {[pg]} ∪ p_closing s <-> q ∉ p_closing s) as Hc.
  { intros q r Hq. assert (q <> pg) by congruence. set_solver. }
  pinv_split Hi.
  - intros wp rp. rewrite (pt_rp s Hi). split; intros [? (r & Hr & ?)]; (split; [|by exists r]); by apply (Hc rp r Hr).
  - intros wp rp. rewrite (pt_grp s Hi). split; intros [? (r & Hr & ?)]; (split; [|by exists r]); by apply (Hc rp r Hr).
  - intros rp r Hr Hcl. apply (pt_rbuf s Hi rp r Hr). by apply (Hc rp r Hr).
  - intros p [->%elem_of_singleton|Hp]%elem_of_union; [|by apply (pt_closing s Hi)]. split; [done|]. exists (OGroup g). split; [done|by intros []].
Qed.

(** ** The calls *)

Lemma waits_wp {X} (m : M W X) Q s : wp m (fun x ww => Q x (set_waits ww s)) (p_wait s) -> wp (waits m) Q s.
Proof. unfold wp, waits. by destruct (m (p_wait s)). Qed.

Lemma get_obj_wp p o (Q : port_obj -> ports W -> Prop) s : p_objs s !! p = Some o -> Q o s -> wp (get_obj p) Q s.
Proof. intros E HQ. unfold get_obj. repeat wp_step; [exact E|done]. Qed.

Lemma get_magic_wp p o (Q : Z -> ports W -> Prop) s : p_objs s !! p = Some o -> Q (magic o) s -> wp (get_magic p) Q s.
Proof. intros E HQ. unfold get_magic. wp_step. apply (get_obj_wp p o); [done|]. by wp_step. Qed.

Lemma get_wport_wp p w (Q : write_port -> ports W -> Prop) s : p_objs s !! p = Some (OWrite w) -> Q w s -> wp (get_wport p) Q s.
Proof. intros E HQ. unfold get_wport. wp_step. by apply (get_obj_wp p (OWrite w)). Qed.

Lemma get_rport_wp p r (Q : read_port -> ports W -> Prop) s : p_objs s !! p = Some (ORead r) -> Q r s -> wp (get_rport p) Q s.
Proof. intros E HQ. unfold get_rport. wp_step. by apply (get_obj_wp p (ORead r)). Qed.

(** The magic tells what an object is. *)
Lemma magic_read s p o : pinv s -> p_objs s !! p = Some o -> magic o = READPORT_MAGIC -> exists r, o = ORead r.
Proof. intros Hi Ho. pose proof (pt_magic s Hi p o Ho) as H. destruct o as [w|r|g]; simpl in *; [|by exists r|by rewrite H]. by destruct H as [-> | ->]. Qed.

Lemma magic_group s p o : pinv s -> p_objs s !! p = Some o -> magic o = PORTGROUP_MAGIC -> exists g, o = OGroup g.
Proof. intros Hi Ho. pose proof (pt_magic s Hi p o Ho) as H. destruct o as [w|r|g]; simpl in *; [|by rewrite H|by exists g]. by destruct H as [-> | ->]. Qed.

Lemma magic_write s p o : pinv s -> p_objs s !! p = Some o -> magic o = WRITEPORT_MAGIC_W \/ magic o = WRITEPORT_MAGIC_X -> exists w, o = OWrite w.
Proof. intros Hi Ho. pose proof (pt_magic s Hi p o Ho) as H. destruct o as [w|r|g]; simpl in *; [by exists w|rewrite H; by intros [?|?]..]. Qed.

Lemma find_name_wp name s l : (forall p, p ∈ l -> exists w, p_objs s !! p = Some (OWrite w)) ->
  wp (find_name name l) (fun o s' => s' = s /\ match o with
    | None => forall p w, p ∈ l -> p_objs s !! p = Some (OWrite w) -> wp_name w <> name
    | Some wp => wp ∈ l /\ exists w, p_objs s !! wp = Some (OWrite w) /\ wp_name w = name
    end) s.
Proof.
  induction l as [|p l IH]; intros Hl; cbn [find_name]; [wp_step; split; [done|set_solver +]|].
  destruct (Hl p ltac:(set_solver +)) as [w Hw]. wp_step. apply (get_wport_wp p w); [done|]. case_bool_decide as En.
  - wp_step. split; [done|]. split; [set_solver +|by exists w].
  - eapply wp_mono; [apply IH; set_solver|]. intros [wp|] s' [-> Hr]; (split; [done|]).
    + destruct Hr as [? ?]. split; [set_solver|done].
    + intros q w' [->|Hq]%elem_of_cons Hw'; [congruence|by apply (Hr q)].
Qed.

(** [port_create]: the port that has the name, or a new one. *)
Lemma port_create_wp name mode port mem bmem s : pinv s -> pfresh s mem ->
  wp (port_create name mode port mem bmem) (fun res s' => pinv s' /\
    ((res.1 < 0 /\ s' = s /\ (res.1 = ERR_ALREADY_EXISTS -> exists wp w, res.2 = Some wp /\ p_objs s !! wp = Some (OWrite w) /\ name = Some (wp_name w))) \/
     (exists nm wp b, name = Some nm /\ mem = Some wp /\ res = (NO_ERROR, Some wp) /\ Z.of_nat (length nm) < PORT_NAME_LEN /\
        (forall q w, p_objs s !! q = Some (OWrite w) -> wp_name w <> nm) /\
        p_objs s' = <[wp := OWrite (WritePort WRITEPORT_MAGIC_W (Some b) mode nm)]> (p_objs s) /\ ring_queue b = [] /\
        ring_size b = if negb (Z.land mode PORT_MODE_BIG_BUFFER =? 0) then PORT_BUFF_SIZE_BIG else PORT_BUFF_SIZE))) s.
Proof.
  intros Hi Hf. unfold port_create.
  match goal with |- wp _ ?Q _ => assert (forall e, e < 0 -> e <> ERR_ALREADY_EXISTS -> wp (ret (e, None)) Q s) as Herr end.
  { intros e He Hne. wp_step. split; [done|]. left. split_and!; [done|done|]. intros ?. by destruct Hne. }
  destruct name as [nm|]; [|by apply Herr]. destruct port; cbn [negb]; [|by apply Herr].
  unfold PORT_MODE_BROADCAST. rewrite Z.land_0_r. cbn [Z.eqb negb andb].
  destruct (PORT_NAME_LEN <=? _) eqn:En; [by apply Herr|]. apply Z.leb_gt in En. destruct (pt_list s Hi) as [_ Hl].
  wp_step. unfold port_create_lookup. do 2 wp_step. wp_step. eapply wp_mono; [apply find_name_wp; intros p Hp; by apply Hl|].
  intros o s1 [-> Hr]. destruct o as [wp|].
  - destruct Hr as (_ & w & Hw & Ew). wp_step. apply (get_wport_wp wp w); [done|]. wp_step. cbv iota. wp_step. split; [done|]. left.
    destruct (wp_magic w =? WRITEPORT_MAGIC_X); (split_and!; [done|done|]); [done|]. intros _. exists wp, w. by rewrite Ew.
  - wp_step. unfold port_create_add. destruct mem as [wp|]; [|by apply Herr]. destruct (Hf wp eq_refl) as [Hwp _].
    destruct (make_buf bmem _) as [b|] eqn:Eb; [|by apply Herr]. destruct (make_buf_ok _ _ _ Eb) as (Hb & Hq & Hs).
    unfold put_obj. do 8 wp_step. split; [exact (pinv_create s wp nm mode b Hi Hwp Hb)|]. right. exists nm, wp, b.
    split_and!; try done. intros q w Hw. apply (Hr q w); [|done]. apply Hl. by exists w.
Qed.

Lemma init_wp p s (Q : unit -> ports W -> Prop) : pinv s -> pw_calls (p_wait s) -> p_objs s !! p = None -> pw_waiting (p_wait s) p = [] ->
  (forall ww, pinv (set_waits ww s) -> pw_calls ww -> pw_live ww p -> (forall m, pw_waiting ww m = pw_waiting (p_wait s) m) -> Q tt (set_waits ww s)) ->
  wp (waits (pw_init p)) Q s.
Proof.
  intros Hi Hc Hp Hw HQ. apply waits_wp. eapply wp_mono; [apply (pl_init p); [apply Hi|done|done]|].
  intros [] ww (Hok & Hc' & Hl & Hoth & Hwt). apply HQ; [|done..]. apply pinv_waits; [done|done| |].
  - intros q o Hq _. destruct (decide (q = p)) as [->|Hne]; [congruence|]. by apply Hoth.
  - intros q Hq. rewrite Hwt. by apply (pt_closing s Hi).
Qed.

(** Why an open fails: an argument, memory, no such port, or a unicast port that has its reader. *)
Definition open_refused (name : option (list Z)) (port : bool) (mem : option nat) (bmem : option (list Z)) s : Prop :=
  name = None \/ port = false \/ mem = None \/ bmem = None \/
  (forall q w, p_objs s !! q = Some (OWrite w) -> Some (wp_name w) <> name) \/
  exists q w, p_objs s !! q = Some (OWrite w) /\ Some (wp_name w) = name /\ wp_buf w = None /\ Z.land (wp_mode w) PORT_MODE_UNICAST <> 0.

(** [port_open]: the first reader takes the packets that are there, another one starts with an empty buffer; a unicast
    port has no other one. *)
Lemma port_open_wp name ctx port mem bmem s : pinv s -> pw_calls (p_wait s) -> pfresh s mem ->
  wp (port_open name ctx port mem bmem) (fun res s' => pinv s' /\
    ((res.1 < 0 /\ res.2 = None /\ p_objs s' = p_objs s /\ p_rp s' = p_rp s /\ open_refused name port mem bmem s) \/
     (exists nm rp wp w b, name = Some nm /\ mem = Some rp /\ res = (NO_ERROR, Some rp) /\ p_objs s !! wp = Some (OWrite w) /\ wp_name w = nm /\
        p_objs s' !! rp = Some (ORead (ReadPort READPORT_MAGIC (Some b) ctx (Some wp) None)) /\ fq (p_rp s') wp = fq (p_rp s) wp ++ [rp] /\
        match wp_buf w with Some wb => b = wb | None => ring_queue b = [] /\ Z.land (wp_mode w) PORT_MODE_UNICAST = 0 end))) s.
Proof.
  intros Hi Hc Hf. unfold port_open.
  assert (forall e (s1 : ports W), e < 0 -> pinv s1 -> p_objs s1 = p_objs s -> p_rp s1 = p_rp s -> open_refused name port mem bmem s -> forall P,
    wp (ret (e, @None nat)) (fun res s' => pinv s' /\ ((res.1 < 0 /\ res.2 = None /\ p_objs s' = p_objs s /\ p_rp s' = p_rp s /\ open_refused name port mem bmem s) \/ P res s')) s1) as Herr.
  { intros e s1 He Hi1 E1 E2 Hr P. wp_step. split; [done|]. by left. }
  unfold open_refused in Herr |- *.
  destruct name as [nm|]; [|apply Herr; [done..|auto 7]]. destruct port; cbn [negb]; [|apply Herr; [done..|auto 7]]. destruct mem as [rp|]; [|apply Herr; [done..|auto 7]].
  destruct (Hf rp eq_refl) as [Hrp Hw]. wp_step. apply init_wp; [done..|]. intros ww Hi1 Hc1 Hl1 _. set (s1 := set_waits ww s) in *.
  destruct (make_buf bmem false) as [nb|] eqn:Eb; [|destruct bmem; [done|]; apply Herr; [done..|auto 7]]. destruct (make_buf_ok _ _ _ Eb) as (Hb & Hq & _).
  destruct (pt_list s1 Hi1) as [_ Hl]. do 2 wp_step. wp_step. eapply wp_mono; [apply find_name_wp; intros p Hp; by apply Hl|].
  intros o s2 [-> Hr]. destruct o as [wp|].
  2:{ apply Herr; [done..|]. do 4 right. left. intros q w Hq' [= E]. apply (Hr q w); [|done..]. apply Hl. by exists w. }
  destruct Hr as (_ & w & Hwp & Ew).
  wp_step. apply (get_wport_wp wp w); [done|]. pose proof (pt_wbuf s1 Hi1 wp w Hwp) as Hwb. simpl in Hwp.
  destruct (wp_buf w) as [wb|] eqn:Ewb.
  - unfold put_obj. do 7 wp_step. destruct Hwb as [Hwb Eq]. split.
    + apply (pinv_open s1 rp wp w (set_wbuf None w) wb ctx); try done.
    + right. exists nm, rp, wp, w, wb. split_and!; try done; [simpl; rewrite lookup_insert_ne, lookup_insert_eq by congruence; done| |by rewrite Ewb].
      simpl. by rewrite fq_add_tail, decide_True.
  - destruct (Z.eqb_spec (Z.land (wp_mode w) PORT_MODE_UNICAST) 0) as [Eu|Eu]; cbn [negb].
    2:{ apply Herr; [done..|]. do 5 right. exists wp, w. by rewrite Ew. }
    unfold put_obj. do 5 wp_step. split.
    + pose proof (pinv_open s1 rp wp w (set_wbuf None w) nb ctx Hi1 Hrp Hl1 Hwp eq_refl Hb ltac:(done)) as H.
      assert (set_wbuf None w = w) as E by (destruct w; simpl in *; by subst). rewrite E in H.
      match goal with H : pinv ?x |- pinv ?y => replace y with x; [done|] end. unfold on_objs, on_rp. simpl. f_equal. apply insert_id.
      by rewrite lookup_insert_ne by congruence.
    + right. exists nm, rp, wp, w, nb. split_and!; try done; [simpl; by rewrite lookup_insert_eq| |by rewrite Ewb].
      simpl. by rewrite fq_add_tail, decide_True.
Qed.

(** Setting [gport] to [NULL] in turn. *)
Lemma leave_group_wp l : forall s, NoDup l -> (forall q, q ∈ l -> exists r, p_objs s !! q = Some (ORead r)) ->
  wp (leave_group l) (fun _ s' => exists objs', s' = on_objs (fun _ => objs') s /\
    forall q, objs' !! q = if decide (q ∈ l) then map_read (set_gport None) <$> p_objs s !! q else p_objs s !! q) s.
Proof.
  induction l as [|p l IH]; intros s Hnd Hl; cbn [leave_group].
  - wp_step. exists (p_objs s). split; [by destruct s|]. intros q. rewrite decide_False; [done|]. apply not_elem_of_nil.
  - apply list.NoDup_cons in Hnd as [Hp Hnd]. destruct (Hl p ltac:(set_solver +)) as [r Hr]. wp_step. apply (get_rport_wp p r); [done|].
    unfold put_obj. do 2 wp_step. set (s1 := on_objs _ s). eapply wp_mono; [apply (IH s1); [done|]|].
    + intros q Hq. simpl. destruct (decide (p = q)) as [<-|]; [eexists; apply lookup_insert_eq|]. rewrite lookup_insert_ne by done. apply Hl. set_solver.
    + intros _ s' (objs' & -> & Ho). exists objs'. split; [done|]. intros q. rewrite Ho. simpl. destruct (decide (p = q)) as [<-|Hne].
      * rewrite decide_False, decide_True by set_solver. by rewrite lookup_insert_eq, Hr.
      * rewrite lookup_insert_ne by done. destruct (decide (q ∈ l)), (decide (q ∈ p :: l)); try done; set_solver.
Qed.

Lemma undo_group_leave (arr : list nat) n : undo_group (W := W) arr n = leave_group (take n arr).
Proof. revert n. induction arr as [|p arr IH]; intros [|n]; [done..|]. cbn [undo_group leave_group take]. by rewrite IH. Qed.

Lemma groupable_wp p o s : p_objs s !! p = Some o -> pinv s ->
  wp (groupable p) (fun b s' => s' = s /\ if b : bool then exists r, o = ORead r /\ rp_gport r = None else forall r, o = ORead r -> rp_gport r <> None) s.
Proof.
  intros Ho Hi. unfold groupable. wp_step. apply (get_magic_wp p o); [done|]. destruct (Z.eqb_spec (magic o) READPORT_MAGIC) as [E|E]; cbn [negb].
  - destruct (magic_read s p o Hi Ho E) as [r ->]. wp_step. apply (get_rport_wp p r); [done|]. wp_step. split; [done|].
    case_bool_decide; [by exists r|]. by intros r' [= <-].
  - wp_step. split; [done|]. intros r ->. pose proof (pt_magic s Hi p _ Ho). done.
Qed.

Lemma join_group_wp pg g rp r s (Q : unit -> ports W -> Prop) : pinv s -> p_objs s !! pg = Some (OGroup g) -> p_objs s !! rp = Some (ORead r) ->
  rp ∉ p_closing s -> rp_gport r = None ->
  (forall s1, s1 = on_grp (add_tail pg rp) (on_objs (<[rp := ORead (set_gport (Some pg) r)]>) s) -> pinv s1 -> Q tt s1) -> wp (join_group pg rp) Q s.
Proof.
  intros Hi Hg Hr Hc Eg HQ. unfold join_group. wp_step. apply (get_rport_wp rp r); [done|]. unfold put_obj. do 3 wp_step. apply HQ; [done|]. by apply (pinv_join s pg g).
Qed.

(** Part of the way: the first [ix] ports have joined, and nothing else has changed since [s0]. *)
Record joined (s0 : ports W) (pg : nat) (arr : list nat) (ix : nat) s : Prop := {
  jo_inv : pinv s;
  jo_group : exists g, p_objs s !! pg = Some (OGroup g);
  jo_list : fq (p_grp s) pg = take ix arr;
  jo_others : forall k, k <> pg -> fq (p_grp s) k = fq (p_grp s0) k;
  jo_none : forall q, q ∈ take ix arr -> exists r, p_objs s0 !! q = Some (ORead r) /\ rp_gport r = None;
  jo_objs : forall q, p_objs s !! q = if decide (q ∈ take ix arr) then map_read (set_gport (Some pg)) <$> p_objs s0 !! q else p_objs s0 !! q;
  jo_frame : p_rp s = p_rp s0 /\ write_port_list s = write_port_list s0 /\ p_wait s = p_wait s0 /\ p_closing s = p_closing s0 }.

Lemma joined_step s0 pg arr ix s rp r : joined s0 pg arr ix s -> arr !! ix = Some rp -> p_objs s !! rp = Some (ORead r) -> rp ∉ p_closing s -> rp_gport r = None ->
  wp (join_group pg rp) (fun _ s' => joined s0 pg arr (S ix) s') s.
Proof.
  intros [Hi [g Hg] Hl Hoth Hn Ho Hfr] Hix Hr Hc Eg. apply (join_group_wp pg g rp r); [done..|]. intros s1 -> Hi1.
  assert (rp ∉ take ix arr) as Hnew. { rewrite <- Hl. intros (_ & r' & Hr' & E)%(pt_grp s Hi). congruence. }
  assert (p_objs s0 !! rp = Some (ORead r)) as Hr0 by (pose proof (Ho rp) as E; rewrite decide_False in E by done; congruence).
  assert (take (S ix) arr = take ix arr ++ [rp]) as Et by (by apply take_S_r).
  split; [done| | | | | |done]; cbn [p_objs p_grp on_grp on_objs].
  - exists g. rewrite lookup_insert_ne; [done|congruence].
  - by rewrite fq_add_tail, decide_True, Hl, Et.
  - intros k Hk. rewrite fq_add_tail, decide_False by congruence. by apply Hoth.
  - intros q. rewrite Et, elem_of_app, list_elem_of_singleton. intros [Hq| ->]; [by apply Hn|]. by exists r.
  - intros q. rewrite Et. destruct (decide (rp = q)) as [<-|Hne].
    + rewrite lookup_insert_eq, decide_True by set_solver. by rewrite Hr0.
    + rewrite lookup_insert_ne, Ho by done. apply decide_ext. set_solver.
Qed.

Lemma link_group_wp s0 pg arr n : forall ix s, joined s0 pg arr ix s -> (ix + n <= length arr)%nat ->
  (forall q, q ∈ arr -> is_Some (p_objs s0 !! q) /\ q ∉ p_closing s0) ->
  wp (link_group pg arr n ix) (fun rc s' =>
    (rc = NO_ERROR /\ joined s0 pg arr (ix + n) s') \/
    (rc = ERR_BAD_HANDLE /\ exists ix' s1 objs', joined s0 pg arr ix' s1 /\ s' = on_objs (fun _ => objs') s1 /\
       forall q, objs' !! q = if decide (q ∈ take ix' arr) then map_read (set_gport None) <$> p_objs s1 !! q else p_objs s1 !! q)) s.
Proof.
  induction n as [|n IH]; intros ix s Hj Hlen Harr; cbn [link_group].
  - wp_step. left. by rewrite Nat.add_0_r.
  - destruct (lookup_lt_is_Some_2 arr ix ltac:(lia)) as [rp Hrp]. wp_step. wp_step; [done|]. pose proof Hj as [Hi _ Hl _ Hn Ho (_ & _ & _ & Ec)].
    destruct (Harr rp (list_elem_of_lookup_2 _ _ _ Hrp)) as [[o0 Ho0] Hc]. rewrite <- Ec in Hc.
    assert (exists o, p_objs s !! rp = Some o) as [o Hrpo] by (rewrite Ho; case_decide; rewrite Ho0; simpl; eauto).
    wp_step. eapply wp_mono; [by apply (groupable_wp rp o)|]. intros [] s1 [-> Hb]; cbn [negb].
    + destruct Hb as (r & -> & Eg). wp_step. eapply wp_mono; [by apply (joined_step s0 pg arr ix s rp r)|]. intros u s2 Hj2.
      eapply wp_mono; [apply (IH (S ix) s2 Hj2); [lia|done]|]. intros rc s3. by rewrite Nat.add_succ_r.
    + wp_step. rewrite undo_group_leave. eapply wp_mono; [apply leave_group_wp|].
      * rewrite <- Hl. apply (pt_grp_wf s Hi).
      * intros q Hq. destruct (Hn q Hq) as (r & Hr & _). rewrite Ho, decide_True, Hr by done. simpl. eauto.
      * intros _ s2 (objs' & -> & Hobjs). wp_step. right. split; [done|]. by exists ix, s, objs'.
Qed.

(** [port_group]: all of the ports join, in their order, or none does. *)
Lemma port_group_wp arr count group mem s : pinv s -> pw_calls (p_wait s) -> pfresh s mem ->
  (forall l, arr = Some l -> Z.of_nat (length l) = count /\ forall q, q ∈ l -> is_Some (p_objs s !! q) /\ q ∉ p_closing s) -> (arr = None -> 0 <= count) ->
  wp (port_group arr count group mem) (fun res s' => pinv s' /\
    ((res.1 < 0 /\ res.2 = None /\ p_objs s' = p_objs s /\ forall k, fq (p_grp s') k = fq (p_grp s) k) \/
     (exists pg, mem = Some pg /\ res = (NO_ERROR, Some pg) /\ fq (p_grp s') pg = default [] arr))) s.
Proof.
  intros Hi Hc Hf Harr Hcnt. unfold port_group.
  assert (forall e P, e < 0 -> wp (ret (e, @None nat)) (fun res s' => pinv s' /\ ((res.1 < 0 /\ res.2 = None /\ p_objs s' = p_objs s /\
    forall k, fq (p_grp s') k = fq (p_grp s) k) \/ P res s')) s) as Herr by (intros e P He; wp_step; split; [done|]; by left).
  destruct (_ <? count); [by apply Herr|]. destruct (negb (count =? 0) && bool_decide (arr = None)) eqn:Ea; [by apply Herr|].
  destruct group; cbn [negb]; [|by apply Herr]. destruct mem as [pg|]; [|by apply Herr]. destruct (Hf pg eq_refl) as [Hpg Hw].
  wp_step. apply init_wp; [done..|]. intros ww Hi1 Hc1 Hl1 _. unfold put_obj. do 4 wp_step. set (s1 := set_waits ww s) in *.
  match goal with |- wp _ _ ?x => set (s2 := x) end. assert (pinv s2) as Hi2 by (by apply (pinv_new_group s1)).
  destruct (fresh_lists s pg Hi Hpg) as (L1 & L2 & E1 & E2 & L3 & L4).
  assert (length (default [] arr) = Z.to_nat count /\ forall q, q ∈ default [] arr -> is_Some (p_objs s !! q) /\ q ∉ p_closing s) as [Hlen Hall].
  { destruct arr as [l|]; simpl; [destruct (Harr l eq_refl); split; [lia|done]|]. split; [|set_solver +].
    rewrite bool_decide_true, andb_true_r in Ea by done. apply negb_false_iff, Z.eqb_eq in Ea. by rewrite Ea. }
  assert (joined s2 pg (default [] arr) 0 s2) as Hj.
  { split; [done|eexists; apply lookup_insert_eq|simpl; by rewrite fq_insert, decide_True|done|set_solver +| |done].
    intros q. rewrite decide_False; [done|]. apply not_elem_of_nil. }
  wp_step. eapply wp_mono; [apply (link_group_wp s2 pg (default [] arr) (Z.to_nat count) 0 s2 Hj); [lia|]|].
  { intros q Hq. destruct (Hall q Hq) as [[o Ho] Hcl]. split; [|done]. exists o. simpl. rewrite lookup_insert_ne; [done|congruence]. }
  intros rc s3 [[-> [Hi3 _ Hl3 _ _ _ _]]|(-> & ix & s4 & objs' & [Hi4 [g Hg] Hl4 Hoth Hn Ho (F1 & F2 & F3 & F4)] & -> & Hobjs)].
  - rewrite Z.eqb_refl. wp_step. split; [done|]. right. exists pg. split_and!; [done..|]. rewrite Hl3. apply take_ge. simpl. lia.
  - change (ERR_BAD_HANDLE =? NO_ERROR) with false. cbv iota. unfold free_obj. do 6 wp_step. rewrite <- Hl4 in Hobjs.
    assert (detached (set_gport None) pg (fq (p_grp s4) pg) (p_objs s4) (delete pg objs')) as Hd.
    { intros q. destruct (decide (q = pg)) as [->|]; [apply lookup_delete_eq|]. by rewrite lookup_delete_ne, Hobjs by done. }
    pose proof (pinv_dissolve s4 pg g _ Hi4 Hg Hd) as H. rewrite F4 in H. simpl in H. replace (p_closing s ∖ {[pg]}) with (p_closing s) in H by set_solver.
    split; [unfold on_objs, on_rp, on_grp; simpl; rewrite F4; exact H|]. left. split_and!; [done|done| |].
    + simpl. apply map_eq. intros q. rewrite Hd. destruct (decide (q = pg)) as [->|Hq]; [done|]. rewrite Hl4, Ho. simpl. rewrite lookup_insert_ne by done.
      destruct (decide (q ∈ take ix (default [] arr))) as [Hin|]; [|done]. destruct (Hn q Hin) as (r & Hr & Er). simpl in Hr. rewrite lookup_insert_ne in Hr by done.
      rewrite Hr. simpl. by destruct r; simpl in *; subst.
    + intros k. simpl. rewrite fq_delete. destruct (decide (k = pg)) as [->|]; [done|]. rewrite Hoth by done. simpl. by rewrite fq_insert, decide_False by done.
Qed.

Definition waitable s (p : nat) : Prop := exists o, p_objs s !! p = Some o /\ ~ is_write o.

Lemma waitable_live s p : pinv s -> waitable s p -> pw_live (p_wait s) p.
Proof. intros Hi (o & Ho & Hw). by apply (pt_live s Hi p o). Qed.

Lemma pinv_only_waiting s p q ww : pinv s -> pw_ok ww -> same_live (p_wait s) ww -> only_waiting p q (p_wait s) ww -> (p ∈ p_closing s -> q = []) -> pinv (set_waits ww s).
Proof.
  intros Hi Hok Hsl Ho Hq. apply pinv_waits; [done|done|intros p' o _ _; apply Hsl|]. intros p' Hp'. rewrite Ho.
  destruct (decide (p' = p)) as [->|]; [by apply Hq|by apply (pt_closing s Hi)].
Qed.

Lemma port_wake_one_wp p err s (Q : Z -> ports W -> Prop) : pinv s -> pw_calls (p_wait s) -> waitable s p ->
  (forall ww n, pinv (set_waits ww s) -> pw_calls ww -> only_waiting p (tail (pw_waiting (p_wait s) p)) (p_wait s) ww ->
     n = (if decide (pw_waiting (p_wait s) p = []) then 0 else 1) -> Q n (set_waits ww s)) ->
  wp (waits (pw_wake_one p err)) Q s.
Proof.
  intros Hi Hc Hp HQ. apply waits_wp. eapply wp_mono; [apply (pl_wake_one p); [apply Hi|done|by apply waitable_live]|].
  intros n ww (Hok & Hc' & Hsl & Ho & ->). apply HQ; [|done..]. eapply pinv_only_waiting; [done..|]. intros Hpc. by rewrite (proj1 (pt_closing s Hi p Hpc)).
Qed.

Lemma group_waitable s rp r pg : pinv s -> p_objs s !! rp = Some (ORead r) -> rp ∉ p_closing s -> rp_gport r = Some pg -> exists g, p_objs s !! pg = Some (OGroup g).
Proof.
  intros Hi Hr Hc Eg. apply (pt_pg s Hi pg). intros E. assert (rp ∈ fq (p_grp s) pg) as Hin by (apply (pt_grp s Hi); split; [done|by exists r]).
  rewrite E in Hin. by apply not_elem_of_nil in Hin.
Qed.

Lemma port_group_add_wp group port s : pinv s -> pw_calls (p_wait s) ->
  (forall p, group = Some p \/ port = Some p -> is_Some (p_objs s !! p) /\ p ∉ p_closing s) ->
  wp (port_group_add group port) (fun rc s' => pinv s' /\
    ((rc < 0 /\ s' = s) \/
     (rc = NO_ERROR /\ exists pg rp, group = Some pg /\ port = Some rp /\ fq (p_grp s') pg = fq (p_grp s) pg ++ [rp] /\
        (Z.of_nat (length (fq (p_grp s) pg)) <> MAX_PORT_GROUP_COUNT)))) s.
Proof.
  intros Hi Hc Hargs. unfold port_group_add. destruct group as [pg|]; [|wp_step; split; [done|by left]]. destruct port as [rp|]; [|wp_step; split; [done|by left]].
  destruct (Hargs pg (or_introl eq_refl)) as [[o Ho] Hcg]. destruct (Hargs rp (or_intror eq_refl)) as [[o' Ho'] Hcr].
  wp_step. apply (get_magic_wp pg o); [done|]. destruct (Z.eqb_spec (magic o) PORTGROUP_MAGIC) as [Em|Em]; cbn [negb]; [|wp_step; split; [done|by left]].
  destruct (magic_group s pg o Hi Ho Em) as [g ->]. wp_step. eapply wp_mono; [by apply (groupable_wp rp o')|]. intros [] s1 [-> Hb]; cbn [negb]; [|wp_step; split; [done|by left]].
  destruct Hb as (r & -> & Eg). do 2 wp_step. destruct (Z.eqb_spec (Z.of_nat (length (fq (p_grp s) pg))) MAX_PORT_GROUP_COUNT) as [El|El]; [wp_step; split; [done|by left]|].
  wp_step. apply (join_group_wp pg g rp r); [done..|]. intros s1 E1 Hi1.
  assert (p_objs s1 !! rp = Some (ORead (set_gport (Some pg) r))) as Hr1 by (rewrite E1; apply lookup_insert_eq).
  assert (fq (p_grp s1) pg = fq (p_grp s) pg ++ [rp]) as Efq by (rewrite E1; simpl; by rewrite fq_add_tail, decide_True).
  wp_step. apply (get_rport_wp rp _ _ s1 Hr1). destruct (pt_rbuf s1 Hi1 rp _ Hr1) as (b & Eb & Hb); [by rewrite E1|]. wp_step. wp_step; [done|].
  assert (forall s' : ports W, pinv s' -> p_grp s' = p_grp s1 -> wp (ret NO_ERROR) (fun rc s' => pinv s' /\ ((rc < 0 /\ s' = s) \/ (rc = NO_ERROR /\ exists pg0 rp0, Some pg = Some pg0 /\
    Some rp = Some rp0 /\ fq (p_grp s') pg0 = fq (p_grp s) pg0 ++ [rp0] /\ Z.of_nat (length (fq (p_grp s) pg0)) <> MAX_PORT_GROUP_COUNT))) s') as Hend.
  { intros s' Hi' Eg'. wp_step. split; [done|]. right. split; [done|]. exists pg, rp. rewrite Eg'. done. }
  wp_step. wp_step; intros _; [|by apply Hend]. wp_step. apply port_wake_one_wp; [done|by rewrite E1| |].
  - exists (OGroup g). split; [|by intros []]. rewrite E1. simpl. rewrite lookup_insert_ne; [done|congruence].
  - intros ww n Hi2 _ _ _. wp_step. by apply Hend.
Qed.

(** Room for [n] more packets. *)
Definition room (n : nat) (objs : gmap nat port_obj) (q : nat) : Prop :=
  forall r b, objs !! q = Some (ORead r) -> rp_buf r = Some b -> Z.of_nat (length (ring_queue b) + n) <= ring_size b.

(** What a write does to the readers [l]. *)
Record written (pk : list Z) (l : list nat) s s' : Prop := {
  wr_others : forall q, q ∉ l -> p_objs s' !! q = p_objs s !! q;
  wr_readers : forall q r b, q ∈ l -> p_objs s !! q = Some (ORead r) -> rp_buf r = Some b ->
    exists b' st, wrote b pk b' st /\ p_objs s' !! q = Some (ORead (set_rbuf (Some b') r));
  wr_woken : forall q r, q ∈ l -> p_objs s !! q = Some (ORead r) -> rp_gport r = None -> room (length pk) (p_objs s) q ->
    pw_waiting (p_wait s') q = tail (pw_waiting (p_wait s) q);
  wr_still : forall q r, q ∉ l -> p_objs s !! q = Some (ORead r) -> pw_waiting (p_wait s') q = pw_waiting (p_wait s) q;
  wr_frame : p_rp s' = p_rp s /\ p_grp s' = p_grp s /\ write_port_list s' = write_port_list s /\ p_closing s' = p_closing s }.

(** Waking a reader through its group or by itself; the count is not negative. *)
Lemma wake_reader_wp s rp r (Q : Z -> ports W -> Prop) : pinv s -> pw_calls (p_wait s) -> p_objs s !! rp = Some (ORead r) -> rp ∉ p_closing s ->
  (forall ww n, pinv (set_waits ww s) -> pw_calls ww -> 0 <= n -> (forall q r', q <> rp -> p_objs s !! q = Some (ORead r') -> pw_waiting ww q = pw_waiting (p_wait s) q) ->
     (rp_gport r = None -> pw_waiting ww rp = tail (pw_waiting (p_wait s) rp)) -> Q n (set_waits ww s)) ->
  wp (do awaken <- match rp_gport r with Some pg => do o <- get_obj pg; waits (pw_wake_one pg NO_ERROR) | None => ret 0 end;
      if awaken =? 0 then waits (pw_wake_one rp NO_ERROR) else ret awaken) Q s.
Proof.
  intros Hi Hc Hr Hcl HQ. assert (forall x, waitable (set_waits x s) rp) as Hwr by (intros x; exists (ORead r); split; [done|by intros []]).
  wp_step. destruct (rp_gport r) as [pg|] eqn:Eg.
  - destruct (group_waitable s rp r pg Hi Hr Hcl Eg) as [g Hg]. wp_step. apply (get_obj_wp pg (OGroup g)); [done|].
    apply port_wake_one_wp; [done|done|exists (OGroup g); split; [done|by intros []]|]. intros ww n Hi1 Hc1 Ho1 ->.
    assert (forall q r', p_objs s !! q = Some (ORead r') -> pw_waiting ww q = pw_waiting (p_wait s) q) as Hst.
    { intros q r' Hq. rewrite Ho1, decide_False; [done|congruence]. }
    destruct (decide (pw_waiting (p_wait s) pg = [])); cbn [Z.eqb].
    + apply port_wake_one_wp; [done|done|apply Hwr|]. intros ww2 n Hi2 Hc2 Ho2 ->. simpl in Ho2. apply HQ; [done|done|by case_decide| |done].
      intros q r' Hne Hq. rewrite Ho2, decide_False by done. by apply (Hst q r').
    + wp_step. apply HQ; [done|done|done| |done]. intros q r' _ Hq. by apply (Hst q r').
  - wp_step. cbn [Z.eqb]. assert (waitable s rp) as Hw0 by (by destruct (Hwr (p_wait s)) as (o & ? & ?); exists o).
    apply port_wake_one_wp; [done|done|done|]. intros ww n Hi1 Hc1 Ho1 ->. apply HQ; [done|done|by case_decide| |].
    + intros q r' Hne _. by rewrite Ho1, decide_False.
    + intros _. by rewrite Ho1, decide_True.
Qed.

Lemma wp_bind_wp_assoc {A B C} (m : M (ports W) A) (f : A -> M (ports W) B) (g : B -> M (ports W) C) Q s :
  wp (bind m f) (fun b s' => wp (g b) Q s') s -> wp (bind m (fun a => bind (f a) g)) Q s.
Proof. unfold wp, bind. destruct (m s) as [a s1|]; [|done]. by destruct (f a s1). Qed.

(** One reader, and then the others. *)
Lemma written_cons pk rp l r b b' st s ww s' : rp ∉ l -> p_objs s !! rp = Some (ORead r) -> rp_buf r = Some b -> wrote b pk b' st ->
  (forall q r', q <> rp -> p_objs s !! q = Some (ORead r') -> pw_waiting ww q = pw_waiting (p_wait s) q) ->
  (room (length pk) (p_objs s) rp -> rp_gport r = None -> pw_waiting ww rp = tail (pw_waiting (p_wait s) rp)) ->
  written pk l (set_waits ww (on_objs (<[rp := ORead (set_rbuf (Some b') r)]>) s)) s' -> written pk (rp :: l) s s'.
Proof.
  intros Hrp Hr Eb Hwr Hwt Hwrp [W1 W2 W3 W4 W5]. cbn [p_objs p_wait set_waits on_objs] in *.
  assert (forall q, q <> rp -> <[rp := ORead (set_rbuf (Some b') r)]> (p_objs s) !! q = p_objs s !! q) as Hne1 by (intros q Hq; by rewrite lookup_insert_ne).
  assert (forall q, q ∈ l -> q <> rp) as Hlne by (intros q Hq ->; done). split.
  - intros q Hq. rewrite W1 by set_solver. apply Hne1. set_solver.
  - intros q r2 b2 [->|Hq]%elem_of_cons Hr2 Eb2.
    + rewrite Hr in Hr2. injection Hr2 as <-. rewrite Eb in Eb2. injection Eb2 as <-. exists b', st. split; [done|]. by rewrite W1, lookup_insert_eq.
    + apply W2; [done| |done]. rewrite Hne1 by auto. done.
  - intros q r2 [->|Hq]%elem_of_cons Hr2 Eg Hrm.
    + rewrite Hr in Hr2. injection Hr2 as <-. rewrite (W4 rp (set_rbuf (Some b') r)); [by apply Hwrp|done|apply lookup_insert_eq].
    + pose proof Hr2 as Hr3. rewrite <- (Hne1 q) in Hr3 by auto. rewrite (W3 q r2 Hq Hr3 Eg); [by rewrite (Hwt q r2 (Hlne q Hq) Hr2)|].
      intros r4 b4 Hr4. rewrite Hne1 in Hr4 by auto. by apply Hrm.
  - intros q r2 Hq Hr2. pose proof Hr2 as Hr3. rewrite <- (Hne1 q) in Hr3 by set_solver. rewrite (W4 q r2) by (done || set_solver). apply (Hwt q r2); [set_solver|done].
  - done.
Qed.

Lemma write_readers_wp pk l : forall s st ac, pinv s -> pw_calls (p_wait s) -> NoDup l -> 0 <= ac ->
  (forall q, q ∈ l -> q ∉ p_closing s /\ exists r, p_objs s !! q = Some (ORead r)) ->
  wp (write_readers pk l st ac) (fun res s' => pinv s' /\ pw_calls (p_wait s') /\ written pk l s s' /\ 0 <= res.2 /\
    ((res.1 = st /\ forall q, q ∈ l -> room (length pk) (p_objs s) q) \/
     (res.1 = ERR_PARTIAL_WRITE /\ exists q, q ∈ l /\ ~ room (length pk) (p_objs s) q))) s.
Proof.
  induction l as [|rp l IH]; intros s st ac Hi Hc Hnd Hac Hl; cbn [write_readers].
  { wp_step. split_and!; [done|done| |done|left; split; [done|set_solver +]]. split; [done|set_solver +|set_solver +|done|done]. }
  apply list.NoDup_cons in Hnd as [Hrp Hnd]. destruct (Hl rp ltac:(set_solver +)) as [Hcl [r Hr]]. destruct (pt_rbuf s Hi rp r Hr Hcl) as (b & Eb & Hb).
  wp_step. apply (get_rport_wp rp r); [done|]. wp_step. wp_step; [done|]. wp_step. eapply wp_mono; [by apply (buf_write_wp b pk s)|].
  intros [b' st'] s1 [-> Hwr]. cbn [fst snd] in Hwr. unfold put_obj. do 2 wp_step. set (s1 := on_objs _ s).
  assert (pinv s1) as Hi1.
  { apply (pinv_put s rp (ORead r)); [done|done|]. split; [apply (pt_magic s Hi rp _ Hr)|]. split_and!; [done..|]. intros _. exists b'. split; [done|apply Hwr]. }
  assert (p_objs s1 !! rp = Some (ORead (set_rbuf (Some b') r))) as Hr1 by apply lookup_insert_eq.
  assert (forall q, q <> rp -> p_objs s1 !! q = p_objs s !! q) as Hne1 by (intros q Hq; simpl; by rewrite lookup_insert_ne).
  assert (forall q, q ∈ l -> q <> rp) as Hlne by (intros q Hq ->; done).
  assert (forall q, q ∈ l -> room (length pk) (p_objs s1) q <-> room (length pk) (p_objs s) q) as Hrm by (intros q Hq; unfold room; by rewrite Hne1 by auto).
  assert (room (length pk) (p_objs s) rp <-> Z.of_nat (length (ring_queue b) + length pk) <= ring_size b) as Hroom.
  { split; [intros H; by apply (H r b)|]. intros H r' b2 Hr' Eb2. rewrite Hr in Hr'. injection Hr' as <-. rewrite Eb in Eb2. injection Eb2 as <-. done. }
  assert (forall q, q ∈ l -> q ∉ p_closing s1 /\ exists r, p_objs s1 !! q = Some (ORead r)) as Hl1.
  { intros q Hq. destruct (Hl q ltac:(set_solver)) as [? ?]. split; [done|]. by rewrite Hne1 by auto. }
  pose proof Hwr as (Hb' & _ & Hwr').
  destruct (Z.leb_spec (Z.of_nat (length (ring_queue b) + length pk)) (ring_size b)) as [Hle|Hgt]; destruct Hwr' as [Est Hq]; rewrite Est.
  - cbn [Z.ltb Z.compare NO_ERROR]. apply wp_bind_wp_assoc. apply (wake_reader_wp s1 rp (set_rbuf (Some b') r)); [done..|].
    intros ww n Hi2 Hc2 Hn Hoth Hself. eapply wp_mono; [apply (IH (set_waits ww s1) st (ac + n) Hi2 Hc2 Hnd); [lia|done]|].
    intros res s' (Hi' & Hc' & Hw & Hn' & Hres). split_and!; [done|done| |done|].
    + apply (written_cons pk rp l r b b' st' s ww s'); try done.
      intros q r' Hne Hq'. apply (Hoth q r' Hne). by rewrite Hne1.
    + destruct Hres as [[-> Hall]|[-> (q & Hq' & Hno)]]; [left|right]; (split; [done|]).
      * intros q [->|Hq']%elem_of_cons; [by apply Hroom|]. by apply Hrm, Hall.
      * exists q. split; [set_solver|]. by rewrite <- Hrm.
  - cbn [Z.ltb Z.compare ERR_NOT_ENOUGH_BUFFER]. assert (~ room (length pk) (p_objs s) rp) as Hno by (rewrite Hroom; lia).
    eapply wp_mono; [apply (IH s1 ERR_PARTIAL_WRITE ac Hi1 Hc Hnd Hac Hl1)|]. intros res s' (Hi' & Hc' & Hw & Hn' & Hres). split_and!; [done|done| |done|].
    + apply (written_cons pk rp l r b b' st' s (p_wait s) s'); done.
    + right. split; [by destruct Hres as [[? _]|[? _]]|]. exists rp. split; [set_solver +|done].
Qed.

Lemma pinv_yield s ww : pinv s -> pw_ok ww -> same_live (p_wait s) ww -> (forall m, pw_waiting ww m = pw_waiting (p_wait s) m) -> pinv (set_waits ww s).
Proof. intros Hi Hok Hsl Hw. apply pinv_waits; [done|done|intros p o _ _; apply Hsl|]. intros p Hp. rewrite Hw. by apply (pt_closing s Hi). Qed.

(** The outcome of a write on an open write port. *)
Definition write_outcome (pk : list Z) (wp : nat) (w : write_port) s (st : Z) s' : Prop :=
  match wp_buf w with
  | Some b => exists b', wrote b pk b' st /\ p_objs s' = <[wp := OWrite (set_wbuf (Some b') w)]> (p_objs s)
  | None => written pk (fq (p_rp s) wp) s s' /\
      ((st = NO_ERROR /\ forall q, q ∈ fq (p_rp s) wp -> room (length pk) (p_objs s) q) \/
       (st = ERR_PARTIAL_WRITE /\ exists q, q ∈ fq (p_rp s) wp /\ ~ room (length pk) (p_objs s) q))
  end.

Lemma port_write_wp p o pk s : pinv s -> pw_calls (p_wait s) -> p_objs s !! p = Some o ->
  wp (port_write (Some p) (Some pk)) (fun st s' => pinv s' /\
    match o with
    | OWrite w => if wp_magic w =? WRITEPORT_MAGIC_W then write_outcome pk p w s st s' else st = ERR_BAD_HANDLE /\ s' = s
    | _ => st = ERR_BAD_HANDLE /\ s' = s
    end) s.
Proof.
  intros Hi Hc Ho. unfold port_write. wp_step. apply (get_magic_wp p o); [done|].
  destruct (Z.eqb_spec (magic o) WRITEPORT_MAGIC_W) as [Em|Em]; cbn [negb].
  2:{ wp_step. split; [done|]. destruct o as [w|r|g]; [|done|done]. simpl in Em. by rewrite (proj2 (Z.eqb_neq _ _)). }
  destruct (magic_write s p o Hi Ho (or_introl Em)) as [w ->]. simpl in Em. rewrite Em, Z.eqb_refl. unfold write_outcome.
  wp_step. apply (get_wport_wp p w); [done|]. pose proof (pt_wbuf s Hi p w Ho) as Hwb. destruct (wp_buf w) as [b|] eqn:Eb.
  - destruct Hwb as [Hb _]. wp_step. eapply wp_mono; [by apply (buf_write_wp b pk s)|]. intros [b' st] s1 [-> Hwr]. cbn [fst snd] in Hwr.
    unfold put_obj. do 3 wp_step. split; [|by exists b']. apply (pinv_put s p (OWrite w)); [done|done|]. split; [by left|]. split; [done|].
    rewrite Eb. apply Hwr.
  - do 2 wp_step. wp_step. eapply wp_mono; [apply (write_readers_wp pk (fq (p_rp s) p) s NO_ERROR 0 Hi Hc)|].
    + apply (pt_rp_wf s Hi).
    + done.
    + intros q (? & r & ? & _)%(pt_rp s Hi). split; [done|by exists r].
    + intros [st n] s1 (Hi1 & Hc1 & Hw & _ & Hres). cbn [fst snd] in Hres. do 2 wp_step; intros _; [|wp_step; by split].
      apply waits_wp. eapply wp_mono; [apply pl_yield; [apply Hi1|done]|]. intros _ ww (Hok & Hsl & Hwt). wp_step.
      split; [by apply pinv_yield|]. split; [|done]. destruct Hw as [W1 W2 W3 W4 W5]. split; [exact W1|exact W2| | |exact W5].
      * intros q r Hq Hr Eg Hrm. simpl. rewrite Hwt. by apply (W3 q r).
      * intros q r Hq Hr. simpl. rewrite Hwt. by apply (W4 q r).
Qed.

(** What [*result] and the buffers are after a read on one port that does not wait. *)
Lemma read_now_wp fuel rp r b timeout result s : pinv s -> p_objs s !! rp = Some (ORead r) -> rp ∉ p_closing s -> rp_buf r = Some b -> pw_calls (p_wait s) -> (timeout <> 0 -> pw_timeout timeout) ->
  wp (read_no_lock (S fuel) rp timeout result) (fun res s' => pinv s' /\
    match ring_queue b with
    | p :: q => res = (Some NO_ERROR, Result (rp_ctx r) p) /\ exists b', ring_queue b' = q /\ s' = on_objs (<[rp := ORead (set_rbuf (Some b') r)]>) s
    | [] => res.2 = Result (rp_ctx r) (res_packet result) /\
        if timeout =? 0 then res.1 = Some ERR_TIMED_OUT /\ s' = s
        else res.1 = None /\ exists ww t, s' = set_waits ww s /\ only_waiting rp (pw_waiting (p_wait s) rp ++ [t]) (p_wait s) ww
    end) s.
Proof.
  intros Hi Hr Hcl Eb Hc Hto. assert (buf_ok b) as Hb by (destruct (pt_rbuf s Hi rp r Hr Hcl) as (b0 & E & ?); congruence).
  cbn [read_no_lock]. wp_step. apply (get_rport_wp rp r); [done|]. wp_step. wp_step; [done|]. wp_step.
  eapply wp_mono; [by apply (buf_read_wp b s)|]. intros [b' p] s1 [-> Hq]. unfold put_obj.
  destruct (ring_queue b) as [|p0 q].
  - injection Hq as -> ->. do 2 wp_step. assert (on_objs (<[rp := ORead (set_rbuf (Some b) r)]>) s = s) as ->.
    { destruct s. unfold on_objs. simpl in *. f_equal. apply insert_id. rewrite Hr. by destruct r; simpl in *; subst. }
    destruct (timeout =? 0) eqn:Et; [wp_step; done|]. apply Z.eqb_neq in Et as Et'. wp_step. apply waits_wp.
    eapply wp_mono; [apply (pl_block rp timeout); [apply Hi|done|apply (pt_live s Hi rp _ Hr); by intros []|by apply Hto]|]. rewrite Et.
    intros wr ww (-> & Hok & Hsl & t & Ho). cbv iota. wp_step. split; [|split; [done|]; split; [done|]; by exists ww, t].
    by eapply pinv_only_waiting.
  - destruct Hq as (b1 & [= -> ->] & Hb1 & _ & Eq). do 3 wp_step. split; [|split; [done|]; by exists b1].
    apply (pinv_put s rp (ORead r)); [done|done|]. split; [apply (pt_magic s Hi rp _ Hr)|]. split_and!; [done..|]. intros _. by exists b1.
Qed.

Definition empty_port (objs : gmap nat port_obj) (q : nat) : Prop := forall r b, objs !! q = Some (ORead r) -> rp_buf r = Some b -> ring_queue b = [].

(** The first of the ports [l] that has a packet gives its oldest one. *)
Definition read_first (l : list nat) s (res : option Z * port_result) s' : Prop :=
  exists l1 rp l2 r b p q b', l = l1 ++ rp :: l2 /\ (forall x, x ∈ l1 -> empty_port (p_objs s) x) /\ p_objs s !! rp = Some (ORead r) /\ rp_buf r = Some b /\
    ring_queue b = p :: q /\ res = (Some NO_ERROR, Result (rp_ctx r) p) /\ ring_queue b' = q /\ s' = on_objs (<[rp := ORead (set_rbuf (Some b') r)]>) s.

Lemma read_members_wp l : forall result s, pinv s -> pw_calls (p_wait s) -> (forall q, q ∈ l -> q ∉ p_closing s /\ exists r, p_objs s !! q = Some (ORead r)) ->
  wp (read_members l result) (fun res s' => pinv s' /\
    (read_first l s res s' \/ (res.1 = None /\ s' = s /\ forall q, q ∈ l -> empty_port (p_objs s) q))) s.
Proof.
  induction l as [|rp l IH]; intros result s Hi Hc Hl; cbn [read_members].
  { wp_step. split; [done|]. right. split_and!; [done..|set_solver +]. }
  destruct (Hl rp ltac:(set_solver +)) as [Hcl [r Hr]]. destruct (pt_rbuf s Hi rp r Hr Hcl) as (b & Eb & Hb).
  wp_step. eapply wp_mono; [apply (read_now_wp 0 rp r b 0 result s); done|]. intros [rc res] s1 [Hi1 Hq]. destruct (ring_queue b) as [|p q] eqn:Eq.
  - destruct Hq as (_ & [= ->] & ->). rewrite bool_decide_true by done. eapply wp_mono; [apply IH; [done|done|set_solver]|].
    assert (empty_port (p_objs s) rp) as He by (intros r' b2 Hr' Eb2; rewrite Hr in Hr'; injection Hr' as <-; congruence).
    intros res' s' [Hi' [(l1 & x & l2 & r' & b2 & p & q & b' & -> & H1 & H2)|(E1 & E2 & H3)]]; (split; [done|]).
    + left. exists (rp :: l1), x, l2, r', b2, p, q, b'. split_and!; [done| |apply H2..]. intros y [->|Hy]%elem_of_cons; [done|by apply H1].
    + right. split_and!; [done..|]. intros y [->|Hy]%elem_of_cons; [done|by apply H3].
  - destruct Hq as ([= -> ->] & b' & Eq' & ->). rewrite bool_decide_false by done. wp_step. split; [done|]. left.
    exists [], rp, l, r, b, p, q, b'. split_and!; [done|set_solver +|done..].
Qed.

(** The outcome of a read, with [w] the port or group that is waited for. *)
Definition read_outcome (l : list nat) (w : nat) (timeout : Z) s (res : option Z * port_result) s' : Prop :=
  read_first l s res s' \/
  ((forall q, q ∈ l -> empty_port (p_objs s) q) /\
   if timeout =? 0 then res.1 = Some ERR_TIMED_OUT /\ s' = s
   else res.1 = None /\ exists ww t, s' = set_waits ww s /\ only_waiting w (pw_waiting (p_wait s) w ++ [t]) (p_wait s) ww).

Lemma read_group_wp fuel pg g timeout result s : pinv s -> pw_calls (p_wait s) -> p_objs s !! pg = Some (OGroup g) -> pg ∉ p_closing s -> pw_timeout timeout ->
  wp (read_group (S fuel) pg timeout result) (fun res s' => pinv s' /\ read_outcome (fq (p_grp s) pg) pg timeout s res s') s.
Proof.
  intros Hi Hc Hg Hcl Hto. cbn [read_group]. do 2 wp_step. wp_step. eapply wp_mono; [apply read_members_wp; [done|done|]|].
  { intros q (? & r & ? & _)%(pt_grp s Hi). split; [done|by exists r]. }
  intros [rc res] s1 [Hi1 [Hf|(E & -> & He)]].
  - pose proof Hf as (l1 & rp & l2 & r & b & p & q & b' & _ & _ & _ & _ & _ & [= -> ->] & _). wp_step. split; [done|by left].
  - simpl in E. subst rc. wp_step. apply waits_wp. eapply wp_mono; [apply (pl_block pg timeout); [apply Hi|done|apply (pt_live s Hi pg _ Hg); by intros []|done]|].
    intros wr ww. unfold read_outcome. destruct (timeout =? 0) eqn:Et.
    + intros [-> ->]. cbv iota. change (ERR_TIMED_OUT =? NO_ERROR) with false. cbv iota. wp_step. assert (set_waits (p_wait s) s = s) as -> by (by destruct s).
      split; [done|]. by right.
    + intros (-> & Hok & Hsl & t & Ho). cbv iota. wp_step. split; [by eapply pinv_only_waiting|]. right. split; [done|]. split; [done|]. by exists ww, t.
Qed.

Lemma read_port_wp fuel p r timeout result s : pinv s -> pw_calls (p_wait s) -> p_objs s !! p = Some (ORead r) -> p ∉ p_closing s -> pw_timeout timeout ->
  wp (read_no_lock (S fuel) p timeout result) (fun res s' => pinv s' /\ read_outcome [p] p timeout s res s') s.
Proof.
  intros Hi Hc Ho Hcl Hto. destruct (pt_rbuf s Hi p r Ho Hcl) as (b & Eb & Hb). eapply wp_mono; [apply (read_now_wp fuel p r b timeout result s); done|].
  intros [rc res] s1 [Hi1 Hq]. split; [done|]. destruct (ring_queue b) as [|pk q] eqn:Eq.
  - right. split; [|apply Hq]. intros x ->%list_elem_of_singleton r' b2 Hr' Eb2. rewrite Ho in Hr'. injection Hr' as <-. congruence.
  - left. destruct Hq as ([= -> ->] & b' & Eq' & ->). exists [], p, [], r, b, pk, q, b'. split_and!; [done|set_solver +|done..].
Qed.

(** The ports a read looks at, and the one it waits for. *)
Definition read_ports s (p : nat) (o : port_obj) : list nat := match o with OGroup _ => fq (p_grp s) p | _ => [p] end.

Lemma port_read_wp p o timeout result s : pinv s -> pw_calls (p_wait s) -> p_objs s !! p = Some o -> p ∉ p_closing s -> pw_timeout timeout ->
  wp (port_read (Some p) timeout (Some result)) (fun res s' => pinv s' /\
    match o with
    | OWrite _ => res = (Some ERR_BAD_HANDLE, Some result) /\ s' = s
    | _ => exists res2, res.2 = Some res2 /\ read_outcome (read_ports s p o) p timeout s (res.1, res2) s'
    end) s.
Proof.
  intros Hi Hc Ho Hcl Hto. unfold port_read. wp_step. apply (get_magic_wp p o); [done|]. pose proof (pt_magic s Hi p o Ho) as Hm.
  destruct o as [w|r|g]; simpl magic.
  - assert (wp_magic w =? READPORT_MAGIC = false /\ wp_magic w =? PORTGROUP_MAGIC = false) as [-> ->] by (by destruct Hm as [-> | ->]). by wp_step.
  - simpl in Hm. rewrite Hm, Z.eqb_refl. wp_step. eapply wp_mono; [by apply (read_port_wp 0 p r timeout result s)|].
    intros [rc res] s1 [Hi1 Hq]. wp_step. split; [done|]. by exists res.
  - simpl in Hm. rewrite Hm. change (PORTGROUP_MAGIC =? READPORT_MAGIC) with false. rewrite Z.eqb_refl. cbv iota. wp_step.
    eapply wp_mono; [by apply (read_group_wp 0 p g timeout result s)|]. intros [rc res] s1 [Hi1 Hq]. wp_step. split; [done|]. by exists res.
Qed.

(** ** Destroying and closing *)

(** The wait queues while the readers are cancelled: nobody has started to wait. *)
Record drained (w0 ww : W) : Prop := {
  dr_ok : pw_ok ww;
  dr_calls : pw_calls ww;
  dr_live : same_live w0 ww;
  dr_waiting : forall m, pw_waiting w0 m = [] -> pw_waiting ww m = [] }.

Lemma drained_trans (x0 x1 x2 : W) : drained x0 x1 -> drained x1 x2 -> drained x0 x2.
Proof. intros [_ _ L1 Q1] [O2 C2 L2 Q2]. split; [done|done|intros n; by rewrite (L2 n), (L1 n)|]. intros m Hm. by apply Q2, Q1. Qed.

Lemma port_wake_all_wp p err s (Q : Z -> ports W -> Prop) : pw_ok (p_wait s) -> pw_calls (p_wait s) -> pw_live (p_wait s) p ->
  (forall ww n, drained (p_wait s) ww -> pw_waiting ww p = [] -> Q n (set_waits ww s)) -> wp (waits (pw_wake_all p err)) Q s.
Proof.
  intros Hok Hc Hl HQ. apply waits_wp. eapply wp_mono; [by apply (pl_wake_all p)|]. intros n ww (Hok' & Hc' & Hsl & Ho).
  apply HQ; [split; [done|done|done|]|by rewrite Ho, decide_True]. intros m Hm. rewrite Ho. by case_decide.
Qed.

Lemma cancel_readers_wp l : forall s, NoDup l -> pw_ok (p_wait s) -> pw_calls (p_wait s) ->
  (forall q, q ∈ l -> exists r, p_objs s !! q = Some (ORead r) /\ pw_live (p_wait s) q /\
     forall pg, rp_gport r = Some pg -> exists g, p_objs s !! pg = Some (OGroup g) /\ pw_live (p_wait s) pg) ->
  wp (cancel_readers l) (fun _ s' => exists objs' ww, s' = set_waits ww (on_objs (fun _ => objs') s) /\ drained (p_wait s) ww /\
    (forall q, q ∈ l -> pw_waiting ww q = []) /\
    forall q, objs' !! q = if decide (q ∈ l) then map_read (set_wport None) <$> p_objs s !! q else p_objs s !! q) s.
Proof.
  induction l as [|p l IH]; intros s Hnd Hok Hc Hl; cbn [cancel_readers].
  - wp_step. exists (p_objs s), (p_wait s). split_and!; [by destruct s|done|set_solver +|]. intros q. rewrite decide_False; [done|]. apply not_elem_of_nil.
  - apply list.NoDup_cons in Hnd as [Hp Hnd]. destruct (Hl p ltac:(set_solver +)) as (r & Hr & Hlive & Hgrp). wp_step. apply (get_rport_wp p r); [done|].
    wp_step. apply port_wake_all_wp; [done..|]. intros w1 n D1 Q1.
    assert (forall ww, drained (p_wait s) ww -> pw_waiting ww p = [] -> wp (put_obj p (ORead (set_wport None r)) ;; cancel_readers l)
      (fun _ s' => exists objs' ww, s' = set_waits ww (on_objs (fun _ => objs') s) /\ drained (p_wait s) ww /\ (forall q, q ∈ p :: l -> pw_waiting ww q = []) /\
         forall q, objs' !! q = if decide (q ∈ p :: l) then map_read (set_wport None) <$> p_objs s !! q else p_objs s !! q) (set_waits ww s)) as Hgo.
    { intros ww D Hpw. unfold put_obj. do 2 wp_step. eapply wp_mono; [apply IH; [done|apply D|apply D|]|].
      - intros q Hq. destruct (Hl q ltac:(set_solver)) as (r' & Hr' & Hl' & Hg'). exists r'. simpl.
        rewrite lookup_insert_ne by (intros ->; done). split_and!; [done|by apply (dr_live _ _ D)|]. intros pg Epg. destruct (Hg' pg Epg) as (g & Hg & ?).
        exists g. rewrite lookup_insert_ne by congruence. split; [done|]. by apply (dr_live _ _ D).
      - intros _ s' (objs' & w2 & -> & D2 & Q2 & Ho). exists objs', w2. split_and!; [done|by eapply drained_trans| |].
        + intros q [->|Hq]%elem_of_cons; [by apply (dr_waiting _ _ D2)|by apply Q2].
        + intros q. rewrite Ho. simpl. destruct (decide (p = q)) as [<-|Hne].
          * rewrite decide_False, decide_True by set_solver. by rewrite lookup_insert_eq, Hr.
          * rewrite lookup_insert_ne by done. destruct (decide (q ∈ l)), (decide (q ∈ p :: l)); try done; set_solver. }
    wp_step. destruct (rp_gport r) as [pg|]; [|by wp_step; apply Hgo]. destruct (Hgrp pg eq_refl) as (g & Hg & Hgl).
    wp_step. apply (get_obj_wp pg (OGroup g)); [done|]. wp_step.
    apply port_wake_all_wp; [apply D1|apply D1|by apply (dr_live _ _ D1)|]. intros w2 n2 D2 _. wp_step. apply Hgo; [by eapply drained_trans|]. by apply (dr_waiting _ _ D2).
Qed.

Lemma pinv_drained s ww : pinv s -> drained (p_wait s) ww -> pinv (set_waits ww s).
Proof. intros Hi [O C L Q]. apply pinv_waits; [done|done|intros p o _ _; apply L|]. intros p Hp. apply Q. by apply (pt_closing s Hi). Qed.

(** [port_destroy]: nothing is left of a write port that was closed; its readers keep their packets and nobody waits for it. *)
Lemma port_destroy_wp p o s : pinv s -> pw_calls (p_wait s) -> p_objs s !! p = Some o ->
  wp (port_destroy (Some p)) (fun rc s' => pinv s' /\
    if magic o =? WRITEPORT_MAGIC_X then
      rc = NO_ERROR /\ p_objs s' !! p = None /\ p ∉ write_port_list s' /\
      forall q r, q ∈ fq (p_rp s) p -> p_objs s !! q = Some (ORead r) -> p_objs s' !! q = Some (ORead (set_wport None r)) /\ pw_waiting (p_wait s') q = []
    else rc = ERR_BAD_HANDLE /\ s' = s) s.
Proof.
  intros Hi Hc Ho. unfold port_destroy. wp_step. apply (get_magic_wp p o); [done|].
  destruct (Z.eqb_spec (magic o) WRITEPORT_MAGIC_X) as [Em|Em]; cbn [negb]; [|by wp_step].
  destruct (magic_write s p o Hi Ho (or_intror Em)) as [w ->]. wp_step. apply (get_wport_wp p w); [done|]. do 3 wp_step.
  rewrite bool_decide_true by (apply (pt_list s Hi); by exists w). wp_step.
  set (l := fq (p_rp s) p). assert (forall q, q ∈ l -> q ∉ p_closing s /\ exists r, p_objs s !! q = Some (ORead r) /\ rp_wport r = Some p) as Hl by (intros q; apply (pt_rp s Hi)).
  set (s1 := set_plist _ s).
  assert (forall objs' ww, drained (p_wait s) ww -> (forall q, q ∈ l -> pw_waiting ww q = []) ->
    (forall q, objs' !! q = if decide (q ∈ l) then map_read (set_wport None) <$> p_objs s !! q else p_objs s !! q) ->
    wp (put_obj p (OWrite (set_wmagic 0 w)) ;; free_obj p ;; ret NO_ERROR) (fun rc s' => pinv s' /\ rc = NO_ERROR /\ p_objs s' !! p = None /\ p ∉ write_port_list s' /\
      forall q r, q ∈ l -> p_objs s !! q = Some (ORead r) -> p_objs s' !! q = Some (ORead (set_wport None r)) /\ pw_waiting (p_wait s') q = [])
      (set_waits ww (on_objs (fun _ => objs') s1))) as Hend.
  { intros objs' ww D Q Hobj. unfold put_obj, free_obj. do 8 wp_step.
    assert (detached (set_wport None) p l (p_objs s) (delete p (<[p := OWrite (set_wmagic 0 w)]> objs'))) as Hd.
    { intros q. destruct (decide (q = p)) as [->|]; [apply lookup_delete_eq|]. by rewrite lookup_delete_ne, lookup_insert_ne, Hobj by done. }
    split; [exact (pinv_destroy (set_waits ww s) p w _ (pinv_drained s ww Hi D) Ho Hd)|]. simpl.
    split_and!; [done|apply lookup_delete_eq|rewrite list_elem_of_filter; naive_solver|]. intros q r Hq Hr. split; [|by apply Q].
    rewrite Hd. rewrite decide_False, decide_True by (done || congruence). by rewrite Hr. }
  pose proof (pt_wbuf s Hi p w Ho) as Hwb. wp_step. destruct (wp_buf w) as [b|].
  - wp_step. assert (set_waits (p_wait s) (on_objs (fun _ => p_objs s) s1) = s1) as E by done. rewrite <- E. apply Hend; [by split; [apply Hi| | |]| |].
    + intros q Hq. unfold l in Hq. destruct Hwb as [_ Hwb]. rewrite Hwb in Hq. by apply not_elem_of_nil in Hq.
    + intros q. rewrite decide_False; [done|]. unfold l. destruct Hwb as [_ ->]. apply not_elem_of_nil.
  - do 2 wp_step. simpl p_rp. fold l. eapply wp_mono; [apply cancel_readers_wp; [apply (pt_rp_wf s Hi)|apply Hi|done|]|].
    + intros q Hq. destruct (Hl q Hq) as (Hcl & r & Hr & _). exists r. split_and!; [done|apply (pt_live s Hi q _ Hr); by intros []|].
      intros pg Eg. destruct (group_waitable s q r pg Hi Hr Hcl Eg) as [g Hg]. exists g. split; [done|]. apply (pt_live s Hi pg _ Hg). by intros [].
    + intros _ s2 (objs' & ww & -> & D & Q & Hobj). by apply Hend.
Qed.

(** The state after [leave_ports]: what [pinv_leave] asks for. *)
Record left_ports s (rp : nat) (r r1 : read_port) (objs' : gmap nat port_obj) (F G : gmap nat (list nat)) : Prop := {
  lp_F : wf F /\ forall k, fq F k = filter (fun x => x <> rp) (fq (p_rp s) k);
  lp_G : wf G /\ forall k, fq G k = filter (fun x => x <> rp) (fq (p_grp s) k);
  lp_self : objs' !! rp = Some (ORead r1) /\ rp_magic r1 = READPORT_MAGIC;
  lp_others : forall q o, q <> rp -> ~ is_write o -> objs' !! q = Some o <-> p_objs s !! q = Some o;
  lp_fw : forall q w, p_objs s !! q = Some (OWrite w) -> exists w', objs' !! q = Some (OWrite w');
  lp_bw : forall q w', objs' !! q = Some (OWrite w') -> exists w, p_objs s !! q = Some (OWrite w) /\ wp_mode w' = wp_mode w /\ wp_magic w' = wp_magic w /\
     match wp_buf w' with Some b => buf_ok b /\ fq F q = [] | None => fq F q <> [] end;
  lp_name : forall q w', objs' !! q = Some (OWrite w') -> exists w, p_objs s !! q = Some (OWrite w) /\ wp_name w' = wp_name w;
  lp_last : forall wp w, rp_wport r = Some wp -> p_objs s !! wp = Some (OWrite w) -> fq (p_rp s) wp = [rp] -> objs' !! wp = Some (OWrite (set_wbuf (rp_buf r) w)) }.

Lemma del_filter (F : gmap nat (list nat)) p : wf F -> wf (del p F) /\ forall k, fq (del p F) k = filter (fun x => x <> p) (fq F k).
Proof. intros Hw. split; [by apply wf_del|]. intros k. apply fq_del. Qed.

Lemma absent_filter (F : gmap nat (list nat)) p : wf F -> (forall k, p ∉ fq F k) -> wf F /\ forall k, fq F k = filter (fun x => x <> p) (fq F k).
Proof. intros Hw Hp. split; [done|]. intros k. rewrite <- fq_del. symmetry. by apply fq_del_other. Qed.

(** The objects stay as they are, when no write port loses its last reader. *)
Lemma left_same s rp r F G : pinv s -> p_objs s !! rp = Some (ORead r) ->
  wf F /\ (forall k, fq F k = filter (fun x => x <> rp) (fq (p_rp s) k)) -> wf G /\ (forall k, fq G k = filter (fun x => x <> rp) (fq (p_grp s) k)) ->
  (forall k, fq F k = [] -> fq (p_rp s) k = []) -> left_ports s rp r r (p_objs s) F G.
Proof.
  intros Hi Hr HF HG Hlast. split; [done|done|split; [done|apply (pt_magic s Hi rp _ Hr)]|done|by eauto| |by eauto|].
  - intros q w Hw. exists w. split_and!; [done..|]. pose proof (pt_wbuf s Hi q w Hw) as Hb. destruct (wp_buf w) as [b|].
    + destruct Hb as [? E]. split; [done|]. by rewrite (proj2 HF), E.
    + intros E. by apply Hb, Hlast.
  - intros wp w _ Hw E. assert (fq F wp = []) as E0 by (rewrite (proj2 HF), E, filter_cons_False; [done|naive_solver]). apply Hlast in E0. congruence.
Qed.

(** The last reader gives its buffer back. *)
Lemma left_last s rp r wp w F G : pinv s -> p_objs s !! rp = Some (ORead r) -> rp ∉ p_closing s -> rp_wport r = Some wp -> p_objs s !! wp = Some (OWrite w) ->
  wf F /\ (forall k, fq F k = filter (fun x => x <> rp) (fq (p_rp s) k)) -> wf G /\ (forall k, fq G k = filter (fun x => x <> rp) (fq (p_grp s) k)) ->
  fq F wp = [] -> left_ports s rp r (set_rbuf None r) (<[rp := ORead (set_rbuf None r)]> (<[wp := OWrite (set_wbuf (rp_buf r) w)]> (p_objs s))) F G.
Proof.
  intros Hi Hr Hcl Ewp Hw HF HG E. assert (rp <> wp) as Hne by congruence.
  assert (forall k, k <> wp -> fq F k = fq (p_rp s) k) as Hoth.
  { intros k Hk. rewrite (proj2 HF), <- fq_del. apply fq_del_other. intros (_ & r' & Hr' & ?)%(pt_rp s Hi). congruence. }
  split; [done|done|split; [apply lookup_insert_eq|apply (pt_magic s Hi rp _ Hr)]|..].
  - intros q o Hq Ho. rewrite lookup_insert_ne by done. destruct (decide (q = wp)) as [->|]; [|by rewrite lookup_insert_ne].
    rewrite lookup_insert_eq, Hw. split; intros [= <-]; by destruct Ho.
  - intros q w1 Hw1. rewrite lookup_insert_ne by congruence. destruct (decide (q = wp)) as [->|]; [eexists; apply lookup_insert_eq|]. exists w1. by rewrite lookup_insert_ne.
  - intros q w' [[<- ?]|[_ [[<- [= <-]]|[Hq Hw']]%lookup_insert_Some]]%lookup_insert_Some; [done| |].
    + exists w. destruct (pt_rbuf s Hi rp r Hr Hcl) as (b & Eb & Hb). split_and!; [done..|]. simpl. by rewrite Eb.
    + exists w'. split_and!; [done..|]. rewrite Hoth by done. by apply (pt_wbuf s Hi).
  - intros q w' [[<- ?]|[_ [[<- [= <-]]|[Hq Hw']]%lookup_insert_Some]]%lookup_insert_Some; [done|by exists w|by exists w'].
  - intros wp' w' Ewp' Hw' _. assert (wp' = wp) as -> by congruence. rewrite lookup_insert_ne, lookup_insert_eq by done. congruence.
Qed.

Lemma leave_ports_wp rp r s : pinv s -> p_objs s !! rp = Some (ORead r) -> rp ∉ p_closing s ->
  wp (leave_ports rp r) (fun _ s' => exists r1 objs' F G, s' = Ports objs' (write_port_list s) F G (p_wait s) (p_closing s) /\ left_ports s rp r r1 objs' F G) s.
Proof.
  intros Hi Hr Hcl. unfold leave_ports.
  assert (forall s1 r1 F, s1 = Ports (p_objs s1) (write_port_list s) F (p_grp s) (p_wait s) (p_closing s) ->
    (forall G, wf G /\ (forall k, fq G k = filter (fun x => x <> rp) (fq (p_grp s) k)) -> left_ports s rp r r1 (p_objs s1) F G) ->
    wp (match rp_gport r with None => ret tt | Some _ => unlink_grp rp end) (fun _ s' => exists r1 objs' F G,
      s' = Ports objs' (write_port_list s) F G (p_wait s) (p_closing s) /\ left_ports s rp r r1 objs' F G) s1) as Hend.
  { intros s1 r1 F E Hlp. destruct (rp_gport r) as [pg|] eqn:Eg.
    - assert (p_grp s1 = p_grp s) as E2 by (by rewrite E). unfold unlink_grp. do 2 wp_step. rewrite E2.
      assert (in_list rp (p_grp s) = true) as -> by (apply in_list_spec; exists pg; apply (pt_grp s Hi); split; [done|by exists r]).
      wp_step. exists r1, (p_objs s1), F, (del rp (p_grp s)). split; [rewrite E; by unfold on_grp|]. apply Hlp, del_filter, Hi.
    - wp_step. exists r1, (p_objs s1), F, (p_grp s). split; [done|]. apply Hlp, absent_filter; [apply Hi|]. intros k (_ & r' & Hr' & ?)%(pt_grp s Hi). congruence. }
  wp_step. destruct (rp_wport r) as [wp|] eqn:Ew.
  - assert (rp ∈ fq (p_rp s) wp) as Hin by (apply (pt_rp s Hi); split; [done|by exists r]). unfold unlink_rp. do 3 wp_step.
    assert (in_list rp (p_rp s) = true) as -> by (apply in_list_spec; by exists wp). do 3 wp_step. simpl p_rp.
    destruct (pt_wp s Hi wp) as [w Hw]; [intros E; rewrite E in Hin; by apply not_elem_of_nil in Hin|]. pose proof (del_filter (p_rp s) rp (pt_rp_wf s Hi)) as HF.
    case_bool_decide as El.
    + wp_step. apply (get_wport_wp wp w); [done|]. unfold put_obj. do 3 wp_step. apply (Hend _ (set_rbuf None r) (del rp (p_rp s))); [done|]. intros G HG.
      by apply (left_last s rp r wp w).
    + wp_step. apply (Hend _ r (del rp (p_rp s))); [done|]. intros G HG. apply (left_same s); [done..|]. intros k Ek. destruct (decide (k = wp)) as [->|Hk]; [done|].
      rewrite <- Ek, fq_del_other; [done|]. intros (_ & r' & Hr' & ?)%(pt_rp s Hi). congruence.
  - wp_step. apply (Hend s r (p_rp s)); [by destruct s|]. intros G HG. apply left_same; [done|done| |done|done]. apply absent_filter; [apply Hi|].
    intros k (_ & r' & Hr' & ?)%(pt_rp s Hi). congruence.
Qed.

(** The rest of [port_close] once the queue has been emptied: the object is gone, and the members of a group are in none. *)
Lemma port_close_return_wp p s : pinv s -> pw_calls (p_wait s) -> p ∈ p_closing s ->
  wp (port_close_return p) (fun rc s' => pinv s' /\ rc = NO_ERROR /\ p_objs s' !! p = None /\ p_closing s' = p_closing s ∖ {[p]} /\
    (forall q w, p_objs s' !! q = Some (OWrite w) <-> p_objs s !! q = Some (OWrite w)) /\ pw_calls (p_wait s') /\
    (forall m, pw_waiting (p_wait s') m = pw_waiting (p_wait s) m) /\ (forall q, p_objs s !! q = None -> p_objs s' !! q = None)) s.
Proof.
  intros Hi Hc Hp. destruct (pt_closing s Hi p Hp) as (Hw & o & Ho & Hnw). unfold port_close_return. wp_step. apply waits_wp.
  eapply wp_mono; [apply (pl_destroy_return p); [apply Hi|done|by apply (pt_live s Hi p o)|done]|]. intros [] ww (Hok & Hc' & Hl & Hwt).
  assert (forall objs' F G, pinv (Ports objs' (write_port_list s) F G (p_wait s) (p_closing s ∖ {[p]})) -> objs' !! p = None ->
    pinv (Ports objs' (write_port_list s) F G ww (p_closing s ∖ {[p]}))) as Hend.
  { intros objs' F G H Hn. apply (pinv_waits _ ww H Hok).
    - intros q o' Hq _. simpl in Hq. apply Hl. congruence.
    - intros q Hq. rewrite Hwt. apply (pt_closing _ H q Hq). }
  wp_step. apply (get_obj_wp p o); [done|]. unfold put_obj, free_obj. destruct o as [w|r|g]; [by destruct Hnw| |].
  - repeat wp_step. unfold on_grp, on_rp, on_closing, on_objs. simpl. rewrite delete_insert_eq.
    split_and!; [apply Hend; [by apply (pinv_free_read s p r)|apply lookup_delete_eq]|done|apply lookup_delete_eq|done| |done|done|intros q ?; by apply lookup_delete_None; right].
    intros q w. rewrite lookup_delete_Some. split; [by intros []|]. split; [congruence|done].
  - do 2 wp_step. wp_step. set (l := fq _ p). assert (forall q, q ∈ l -> exists r, p_objs s !! q = Some (ORead r)) as Hrd by (intros q (_ & r & ? & _)%(pt_grp s Hi); by exists r).
    wp_step. eapply wp_mono; [apply leave_group_wp; [apply (pt_grp_wf s Hi)|done]|]. intros _ s1 (objs' & -> & Hobj). repeat wp_step. unfold on_grp, on_rp, on_closing, on_objs. simpl. rewrite delete_insert_eq.
    assert (detached (set_gport None) p l (p_objs s) (delete p objs')) as Hd.
    { intros q. destruct (decide (q = p)) as [->|]; [apply lookup_delete_eq|]. by rewrite lookup_delete_ne, Hobj by done. }
    split_and!; [apply Hend; [by apply (pinv_dissolve s p g)|apply lookup_delete_eq]|done|apply lookup_delete_eq|done| |done|done|].
    2:{ intros q Hq. rewrite Hd. repeat case_decide; [done|by rewrite Hq|done]. }
    intros q w. rewrite Hd. destruct (decide (q = p)) as [->|]; [naive_solver congruence|]. destruct (decide (q ∈ l)) as [Hin|]; [|done].
    destruct (Hrd q Hin) as [r ->]. done.
Qed.

(** The object is gone; the caller runs on, nobody else has been woken, and the other ports have kept their names. *)
Record closed (p : nat) s s' : Prop := {
  cl_gone : p_objs s' !! p = None;
  cl_calls : pw_calls (p_wait s');
  cl_waiting : forall m, pw_waiting (p_wait s') m = pw_waiting (p_wait s) m;
  cl_none : forall q, p_objs s !! q = None -> p_objs s' !! q = None;
  cl_name : forall q w', p_objs s' !! q = Some (OWrite w') -> exists w, p_objs s !! q = Some (OWrite w) /\ wp_name w' = wp_name w }.

(** What a caller of [port_close] sees: an object whose queue was empty is gone at once, else the call goes on when the threads
    that waited have run. The last reader hands its packets back to the write port. *)
Definition close_outcome (p : nat) (o : port_obj) s (rc : option Z) s' : Prop :=
  match o with
  | OWrite w =>
      if wp_magic w =? WRITEPORT_MAGIC_W then rc = Some NO_ERROR /\ s' = on_objs (<[p := OWrite (set_wmagic WRITEPORT_MAGIC_X w)]>) s
      else rc = Some ERR_BAD_HANDLE /\ s' = s
  | _ =>
      (forall q, q <> p -> q ∈ p_closing s' <-> q ∈ p_closing s) /\
      (if decide (pw_waiting (p_wait s) p = []) then rc = Some NO_ERROR /\ closed p s s' else rc = None /\ p ∈ p_closing s') /\
      (forall r wp w, o = ORead r -> rp_wport r = Some wp -> p_objs s !! wp = Some (OWrite w) -> fq (p_rp s) wp = [p] ->
         p_objs s' !! wp = Some (OWrite (set_wbuf (rp_buf r) w)))
  end.

(** The queue of [p] is emptied, the last thing before the object goes. *)
Lemma close_end_wp p s0 s (Q : option Z -> ports W -> Prop) : pw_ok (p_wait s) -> pw_calls (p_wait s) -> pw_live (p_wait s) p -> p_wait s = p_wait s0 ->
  (forall ww, pw_ok ww -> same_live (p_wait s) ww -> only_waiting p [] (p_wait s) ww -> pinv (set_waits ww (on_closing (union {[p]}) s))) ->
  (forall s', pinv s' -> p ∈ p_closing s' -> p_closing s' = {[p]} ∪ p_closing s -> p_objs s' = p_objs s -> pw_waiting (p_wait s0) p <> [] -> Q None s') ->
  (forall s', pinv s' -> p_closing s' = ({[p]} ∪ p_closing s) ∖ {[p]} -> pw_waiting (p_wait s0) p = [] ->
     (forall q w, p_objs s' !! q = Some (OWrite w) <-> p_objs s !! q = Some (OWrite w)) -> closed p s s' -> Q (Some NO_ERROR) s') ->
  wp (modify (on_closing (union {[p]})) ;; do n <- waits (pw_destroy_enter p); if 0 <? n then ret None else do rc <- port_close_return p; ret (Some rc)) Q s.
Proof.
  intros Hok Hc Hl Ew Hi Hwait Hend. do 3 wp_step. apply waits_wp. eapply wp_mono; [by apply (pl_destroy_enter p)|].
  intros n ww (Hok' & Hsl & Ho & -> & Hc'). specialize (Hi ww Hok' Hsl Ho). change (p_wait (on_closing (union {[p]}) s)) with (p_wait s) in *. set (s1 := set_waits ww _) in *. rewrite Ew in *.
  destruct (pw_waiting (p_wait s0) p) as [|t l] eqn:E.
  - change (0 <? Z.of_nat (length [])) with false. cbv iota. wp_step. eapply wp_mono; [apply (port_close_return_wp p s1); [done|by apply Hc'|set_solver +]|].
    intros rc s' (Hi' & -> & Hn & Hcl & Hwr & Hc2 & Hwt & Hnone). wp_step. apply Hend; [done..|]. split; [done|done| |done|].
    + intros m. rewrite Hwt, Ew. simpl. rewrite Ho. case_decide; [by subst|done].
    + intros q w' Hw'%Hwr. by exists w'.
  - rewrite (proj2 (Z.ltb_lt 0 _)) by (simpl; lia). wp_step. apply Hwait; [done|set_solver +|done..].
Qed.

Lemma port_close_wp p o s : pinv s -> pw_calls (p_wait s) -> p_objs s !! p = Some o -> p ∉ p_closing s ->
  wp (port_close (Some p)) (fun rc s' => pinv s' /\ close_outcome p o s rc s') s.
Proof.
  intros Hi Hc Ho Hcl. unfold port_close. wp_step. apply (get_obj_wp p o); [done|]. pose proof (pt_magic s Hi p o Ho) as Hm. pose proof (pt_live s Hi p o Ho) as Hl.
  assert (forall q, q <> p -> (q ∈ {[p]} ∪ p_closing s <-> q ∈ p_closing s) /\ (q ∈ ({[p]} ∪ p_closing s) ∖ {[p]} <-> q ∈ p_closing s)) as Hset by set_solver +.
  destruct o as [w|r|g]; simpl magic; simpl close_outcome.
  - destruct (Z.eqb_spec (wp_magic w) WRITEPORT_MAGIC_W) as [E|E].
    + wp_step. apply (get_wport_wp p w); [done|]. unfold put_obj. do 3 wp_step. split; [|done]. apply (pinv_put s p (OWrite w)); [done|done|].
      split; [by right|]. split; [done|]. pose proof (pt_wbuf s Hi p w Ho) as Hb. simpl. by destruct (wp_buf w); [apply Hb|].
    + simpl in Hm. destruct Hm as [?|Hm]; [done|]. rewrite Hm. by wp_step.
  - simpl in Hm. rewrite Hm. change (READPORT_MAGIC =? WRITEPORT_MAGIC_W) with false. rewrite Z.eqb_refl. simpl. wp_step.
    eapply wp_mono; [by apply leave_ports_wp|]. intros _ s1 (r1 & objs' & F & G & -> & Hlp). destruct Hlp as [[HF1 HF2] [HG1 HG2] [HS1 HS2] Hoth Hfw Hbw Hname Hlast].
    apply (close_end_wp p s); [apply Hi|done|by apply Hl; intros []|done| | |].
    + intros ww Hok Hsl Hw. apply (pinv_leave (set_waits ww s) p r r1 objs' F G); try done.
      * by eapply pinv_only_waiting.
      * simpl. by rewrite Hw, decide_True.
    + intros s' Hi' Hin Ecl Eo Hne. split; [done|]. rewrite decide_False by done. simpl in *. rewrite Ecl, Eo. split_and!; [apply Hset|done|set_solver +|].
      intros r' wp w [= <-]. apply Hlast.
    + intros s' Hi' Ecl Hne Hwr [C1 C2 C3 C4 C5]. split; [done|]. rewrite decide_True by done. simpl in *. rewrite Ecl. split_and!; [apply Hset|done| |].
      * split; [done|done|done| |].
        -- intros q Hq. apply C4. destruct (objs' !! q) as [[w|r'|g]|] eqn:E; [|..|done].
           ++ destruct (Hbw q w E) as (w0 & ? & _). congruence.
           ++ destruct (decide (q = p)) as [->|]; [congruence|]. apply Hoth in E; [congruence|done|by intros []].
           ++ destruct (decide (q = p)) as [->|]; [congruence|]. apply Hoth in E; [congruence|done|by intros []].
        -- intros q w' (w1 & Hw1 & E1)%C5. destruct (Hname q w1 Hw1) as (w & ? & ?). exists w. split; [done|congruence].
      * intros r' wp w [= <-] Ewp Hw Erp. apply Hwr. by apply (Hlast wp w).
  - simpl in Hm. rewrite Hm. change (PORTGROUP_MAGIC =? WRITEPORT_MAGIC_W) with false. change (PORTGROUP_MAGIC =? READPORT_MAGIC) with false. rewrite Z.eqb_refl. simpl. do 2 wp_step.
    apply (close_end_wp p s); [apply Hi|done|by apply Hl; intros []|done| | |].
    + intros ww Hok Hsl Hw. apply (pinv_closing_group (set_waits ww s) p g); [by eapply pinv_only_waiting|done|]. simpl. by rewrite Hw, decide_True.
    + intros s' Hi' Hin Ecl Eo Hne. split; [done|]. rewrite decide_False by done. rewrite Ecl. split_and!; [apply Hset|done|set_solver +|done].
    + intros s' Hi' Ecl Hne Hwr Hcd. split; [done|]. rewrite decide_True by done. rewrite Ecl. split_and!; [apply Hset|done|done|done].
Qed.

Lemma port_read_return_wp p o timeout wr result s : pinv s -> pw_calls (p_wait s) -> p_objs s !! p = Some o -> ~ is_write o -> p ∉ p_closing s -> pw_timeout timeout ->
  wp (port_read_return p (match o with OGroup _ => true | _ => false end) timeout wr result) (fun res s' => pinv s' /\
    if wr =? NO_ERROR then read_outcome (read_ports s p o) p timeout s res s' else res = (Some wr, result) /\ s' = s) s.
Proof.
  intros Hi Hc Ho Hnw Hcl Hto. unfold port_read_return. destruct (wr =? NO_ERROR); simpl; [|by wp_step]. destruct o as [w|r|g]; [by destruct Hnw| |].
  - by apply (read_port_wp 0 p r).
  - by apply (read_group_wp 0 p g).
Qed.
End ports.
