(* ===== verification/PortCalls.v ===== *)
(** * The calls of the ports over every order

    The calls of [Port] as the steps of one system: any sequence of legal calls, with the rest of
    the kernel running in between, keeps the invariant of [PortSpec] and never faults. What a
    write and a read do to the packets, what becomes of them when the last reader closes, and
    what [port_group_remove] leaves behind.  The wait queues of [Wait] implement the interface. *)

From stdpp Require Import base gmap list numbers.
From S2P Require Import Prelude Pow2 ListNode Timer KState Sched Resched Wait Port PortSpec.
Import Family.

(** ** The kernel's wait queues

    The calls run on [cpu]. A thread that makes calls is not the idle one, and its timeout is not set. *)
Section kernel.
Context (cpu : nat).
Implicit Types k : kstate.

Definition port_calls k : Prop :=
  exists cur th, k_current k !! cpu = Some cur /\ k_threads k !! cur = Some th /\ thread_is_idle th = false /\
    in_list (TmWait cur) (ts_queue (k_timers k)) = false.

Definition port_live k (n : nat) : Prop := exists wq, k_waits k !! WPort n = Some wq /\ wq_magic wq = WAIT_QUEUE_MAGIC.

#[local] Instance kernel_waits : PortWaits kstate := {
  pw_init n := wait_queue_init (WPort n);
  pw_wake_one n err := wait_queue_wake_one cpu (WPort n) false err;
  pw_wake_all n err := wait_queue_wake_all cpu (WPort n) false err;
  pw_block n timeout := wait_queue_block_enter cpu (WPort n) timeout;
  pw_destroy_enter n := wait_queue_destroy_enter cpu (WPort n) true;
  pw_destroy_return n := wait_queue_destroy_return (WPort n);
  pw_yield := thread_yield cpu;
  pw_ok k := sinv ∅ None k /\ aux k;
  pw_calls := port_calls;
  pw_live := port_live;
  pw_waiting k n := fq (k_queues k) (WaitQ (WPort n));
  pw_timeout t := t = INFINITE_TIME \/ 0 <= t < 2 ^ 30 }.

(** The magic numbers of the queues say which are live. *)
Lemma magic_live k k' n : wq_magic <$> k_waits k' !! WPort n = wq_magic <$> k_waits k !! WPort n -> port_live k' n <-> port_live k n.
Proof.
  intros E. unfold port_live. destruct (k_waits k' !! WPort n) as [x|], (k_waits k !! WPort n) as [y|]; try done.
  simpl in E. apply (inj Some) in E. split; intros (z & [= <-] & ?); eexists; (split; [done|congruence]).
Qed.

Lemma calm_live ww err k k' : calm ww err cpu k k' -> same_live k k'.
Proof. intros [_ _ C _ _ _ _ _ _] n. apply magic_live, C. Qed.

(** The thread that calls is still there. *)
Lemma calm_calls ww err k k' : calm ww err cpu k k' -> k_current k' = k_current k -> port_calls k -> port_calls k'.
Proof.
  intros [C1 _ _ _ _ _ _ _ C9] E (cur & th & Hcur & Ht & Hi & Htm). destruct (threads_rel_Some _ _ _ _ _ C1 Ht) as (th' & Ht' & Hb & _).
  exists cur, th'. rewrite E. split_and!; [done|done| |].
  - destruct Hb as (_ & Ef & _). unfold thread_is_idle in *. by rewrite (has_flag_same th th').
  - by rewrite (proj2 (C9 (TmWait cur) ltac:(done))).
Qed.

(** The threads that are woken leave their queue, and no other. *)
Lemma calm_waiting w l err k k' : wf (k_queues k) -> calm l err cpu k k' -> (forall t, t ∈ l -> t ∈ fq (k_queues k) (WaitQ w)) ->
  forall w', fq (k_queues k') (WaitQ w') = if decide (w' = w) then filter (fun t => t ∉ l) (fq (k_queues k) (WaitQ w)) else fq (k_queues k) (WaitQ w').
Proof.
  intros Hwf C Hl w'. rewrite (cm_waitq _ _ _ _ _ C). case_decide as E; [by subst|]. apply filter_notin_none. intros t Ht Ht'.
  pose proof (wf_one _ Hwf _ _ _ (Hl t Ht) Ht') as E'. congruence.
Qed.

Lemma sinv_waits k w wq : sinv ∅ None k -> fq (k_queues k) (WaitQ w) = [] -> wq_count wq = 0 -> sinv ∅ None (on_waits (<[w := wq]>) k).
Proof.
  intros [S1 S2 S3 S4 S5 S6 S7 S8 S9 S10 S11] Hq Hc. split; simpl; try done. intros w' Hw. destruct (decide (w = w')) as [<-|Hne].
  - exists wq. rewrite lookup_insert_eq, Hq. done.
  - rewrite lookup_insert_ne in * by done. by apply S8.
Qed.

Definition kernel_ok k : Prop := sinv ∅ None k /\ aux k.

Lemma kernel_init n k : kernel_ok k -> port_calls k -> pw_waiting k n = [] ->
  wp (pw_init n) (fun _ k' => kernel_ok k' /\ port_calls k' /\ port_live k' n /\ (forall m, m <> n -> port_live k' m <-> port_live k m) /\
    forall m, pw_waiting k' m = pw_waiting k m) k.
Proof.
  intros [Hs Ha] Hc Hq. simpl. unfold wait_queue_init. do 2 wp_step. rewrite bool_decide_true by done. wp_step.
  split; [split; [by apply sinv_waits|done]|]. split_and!; [done|exists WAIT_QUEUE_INITIAL_VALUE; split; [apply lookup_insert_eq|done]| |done].
  intros m Hm. apply magic_live. simpl. by rewrite lookup_insert_ne by congruence.
Qed.

Lemma kernel_wake_one n err k : kernel_ok k -> port_calls k -> port_live k n ->
  wp (pw_wake_one n err) (fun r k' => kernel_ok k' /\ port_calls k' /\ same_live k k' /\ only_waiting n (tail (pw_waiting k n)) k k' /\
    r = if decide (pw_waiting k n = []) then 0 else 1) k.
Proof.
  intros [Hs Ha] Hc (wq & Hw & Hm). pose proof Hc as (cur & th & Hcur & Ht & Hi & Htm).
  eapply wp_mono; [by apply (wait_queue_wake_one_wp k cpu (WPort n) wq false err cur th)|]. intros r k'. simpl pw_waiting.
  destruct (fq (k_queues k) (WaitQ (WPort n))) as [|t l] eqn:E.
  - intros [-> ->]. split_and!; try done. intros m. simpl. case_decide; [by subst|done].
  - intros (-> & Hs' & Ha' & C & Ec). split; [done|]. split_and!; [by apply (calm_calls [t] err k)|by apply (calm_live [t] err)| |done]. intros m. simpl.
    rewrite (calm_waiting (WPort n) [t] err k k' (si_wf _ _ _ _ _ _ _ Hs) C), E by (intros ? ->%list_elem_of_singleton; rewrite E; apply elem_of_cons; by left).
    assert (NoDup (t :: l)) as Hnd by (rewrite <- E; apply (si_wf _ _ _ _ _ _ _ Hs)). apply list.NoDup_cons in Hnd as [Hnt _].
    destruct (decide (m = n)) as [->|]; [|by rewrite decide_False by congruence]. rewrite decide_True by done.
    rewrite filter_cons_False by set_solver +. apply filter_notin_none. set_solver.
Qed.

(** Waking all, with or without a switch. *)
Lemma kernel_wake_all n (reschedule : bool) err k : kernel_ok k -> port_calls k -> port_live k n ->
  wp (wait_queue_wake_all cpu (WPort n) reschedule err) (fun r k' => kernel_ok k' /\ same_live k k' /\ only_waiting n [] k k' /\
    r = Z.of_nat (length (pw_waiting k n)) /\ (reschedule = false \/ r = 0 -> port_calls k')) k.
Proof.
  intros [Hs Ha] Hc (wq & Hw & Hm). pose proof Hc as (cur & th & Hcur & Ht & Hi & Htm).
  eapply wp_mono; [by apply (wait_queue_wake_all_wp k cpu (WPort n) wq reschedule err cur th)|].
  intros r k' (-> & Hs' & Ha' & C & E & Ec). split; [done|]. split_and!; [by eapply calm_live| |done|].
  - intros m. simpl. rewrite (calm_waiting (WPort n) _ err k k' (si_wf _ _ _ _ _ _ _ Hs) C) by done.
    destruct (decide (m = n)) as [->|]; [rewrite decide_True by done; apply filter_notin_self|by rewrite decide_False by congruence].
  - intros H. eapply calm_calls; [done| |done]. apply Ec. destruct H as [?|H]; [by left|right]. apply length_zero_iff_nil. lia.
Qed.

Lemma kernel_block n timeout k : kernel_ok k -> port_calls k -> port_live k n -> pw_timeout timeout ->
  wp (pw_block n timeout) (fun r k' => if timeout =? 0 then r = Some ERR_TIMED_OUT /\ k' = k
    else r = None /\ kernel_ok k' /\ same_live k k' /\ exists t, only_waiting n (pw_waiting k n ++ [t]) k k') k.
Proof.
  intros [Hs Ha] (cur & th & Hcur & Ht & Hi & Htm) (wq & Hw & Hm) Hto.
  eapply wp_mono; [by apply (wait_queue_block_enter_wp k cpu (WPort n) wq cur th timeout)|].
  intros r k'. destruct (timeout =? 0); [done|]. intros (-> & Hs' & Ha' & _ & B). split; [done|]. split; [done|]. split.
  - intros m. apply magic_live, (bp_magic _ _ _ _ _ _ B).
  - exists cur. intros m. simpl. rewrite (bp_waitq _ _ _ _ _ _ B). destruct (decide (m = n)) as [->|]; [by rewrite decide_True|by rewrite decide_False by congruence].
Qed.

Lemma kernel_destroy_return n k : kernel_ok k -> port_calls k -> port_live k n -> pw_waiting k n = [] ->
  wp (pw_destroy_return n) (fun _ k' => kernel_ok k' /\ port_calls k' /\ (forall m, m <> n -> port_live k' m <-> port_live k m) /\
    forall m, pw_waiting k' m = pw_waiting k m) k.
Proof.
  intros [Hs Ha] Hc (wq & Hw & Hm) Hq. simpl. unfold wait_queue_destroy_return. apply (upd_wait_wp _ _ wq); [done|].
  destruct (si_count _ _ _ _ _ _ _ Hs (WPort n) ltac:(right; eauto)) as (wq' & Hw' & Hcnt & _). simpl in Hq. rewrite Hw in Hw'. injection Hw' as <-.
  split; [split; [apply sinv_waits; [done|done|by rewrite Hq in Hcnt]|done]|]. split_and!; [done| |done].
  intros m Hne. apply magic_live. simpl. by rewrite lookup_insert_ne by congruence.
Qed.

Lemma kernel_yield k : kernel_ok k -> port_calls k ->
  wp pw_yield (fun _ k' => kernel_ok k' /\ same_live k k' /\ forall m, pw_waiting k' m = pw_waiting k m) k.
Proof.
  intros [Hs Ha] (cur & th & Hcur & Ht & Hi & Htm). eapply wp_mono; [by apply (thread_yield_wp k cpu cur th)|].
  intros _ k' (Hs' & Ha' & _ & t & R). set (th' := set_remaining_quantum 0 (set_state THREAD_READY th)) in *.
  assert (sinv ∅ (Some cpu) (put_away false cur th' k)) as Hp by (by apply (sinv_put_away k cpu cur th)).
  assert (calm [] 0 cpu (put_away false cur th' k) k') as C.
  { apply (calm_resched 0 cpu _ t); [done|done|]. unfold put_away. destruct (thread_is_idle th'); simpl; eauto. }
  split; [done|]. assert (k_waits (put_away false cur th' k) = k_waits k /\ forall w, fq (k_queues (put_away false cur th' k)) (WaitQ w) = fq (k_queues k) (WaitQ w)) as [E1 E2].
  { unfold put_away. destruct (thread_is_idle th'); [done|]. split; [done|]. intros w. simpl. by rewrite fq_add_tail, decide_False. }
  split.
  - intros m. apply magic_live. rewrite (cm_magic _ _ _ _ _ C). by rewrite E1.
  - intros m. simpl. by rewrite (cm_waitq _ _ _ _ _ C), filter_notin_nil, E2.
Qed.

#[local] Instance kernel_waits_laws : PortWaitsLaws kstate.
Proof.
  split.
  - apply kernel_init.
  - apply kernel_wake_one.
  - intros n err k Hok Hc Hl. eapply wp_mono; [by apply (kernel_wake_all n false)|]. intros r k' (? & ? & ? & _ & H). split_and!; try done. apply H. by left.
  - apply kernel_block.
  - intros n k Hok Hc Hl. pose proof Hl as (wq & Hw & Hm). simpl. unfold wait_queue_destroy_enter. wp_step. apply (get_wait_wp _ _ wq); [done|]. do 2 wp_step; [by rewrite Hm|].
    eapply wp_mono; [by apply (kernel_wake_all n true)|]. intros r k' (H1 & H2 & H3 & H4 & H). split; [exact H1|]. split; [exact H2|]. split; [exact H3|]. split; [exact H4|]. intros E. apply H. by right.
  - apply kernel_destroy_return.
  - apply kernel_yield.
Qed.
End kernel.

(** ** The packets *)

Definition buffer (o : port_obj) : option port_buf := match o with OWrite w => wp_buf w | ORead r => rp_buf r | OGroup _ => None end.

(** What the buffer of an object holds, oldest first, and what it can hold. *)
Definition packets (objs : gmap nat port_obj) (p : nat) : list Z := default [] (ring_queue <$> (objs !! p ≫= buffer)).
Definition capacity (objs : gmap nat port_obj) (p : nat) : Z := default 0 (ring_size <$> (objs !! p ≫= buffer)).

Definition fits (n : nat) (objs : gmap nat port_obj) (q : nat) : Prop := Z.of_nat (length (packets objs q) + n) <= capacity objs q.

#[export] Instance fits_dec n objs q : Decision (fits n objs q).
Proof. unfold fits. apply _. Defined.

Lemma packets_at objs p o b : objs !! p = Some o -> buffer o = Some b -> packets objs p = ring_queue b /\ capacity objs p = ring_size b.
Proof. intros E Eb. unfold packets, capacity. rewrite E. simpl. by rewrite Eb. Qed.

Lemma wrote_packets objs objs' q o o' b pk b' st : objs !! q = Some o -> buffer o = Some b -> objs' !! q = Some o' -> buffer o' = Some b' -> wrote b pk b' st ->
  packets objs' q = (if decide (fits (length pk) objs q) then packets objs q ++ pk else packets objs q) /\
  (fits (length pk) objs q /\ st = NO_ERROR \/ ~ fits (length pk) objs q /\ st = ERR_NOT_ENOUGH_BUFFER).
Proof.
  intros Ho Eb Ho' Eb' (_ & _ & H). destruct (packets_at objs q o b Ho Eb) as [E1 E2], (packets_at objs' q o' b' Ho' Eb') as [E1' _].
  assert (fits (length pk) objs q <-> Z.of_nat (length (ring_queue b) + length pk) <= ring_size b) as Hf by (unfold fits; by rewrite E1, E2).
  rewrite E1, E1'. destruct (Z.leb_spec (Z.of_nat (length (ring_queue b) + length pk)) (ring_size b)) as [Hle|Hgt], H as [-> Hq].
  - rewrite decide_True by (by apply Hf). split; [done|]. left. by rewrite Hf.
  - assert (~ fits (length pk) objs q) as Hn by (rewrite Hf; lia). rewrite decide_False by done. subst b'. split; [done|by right].
Qed.

Section calls.
Context {W : Type} {PW : PortWaits W} {PL : PortWaitsLaws W}.
Implicit Types (s : ports W).

(** A port without readers keeps the packets itself. *)
Definition receivers s (p : nat) : list nat := match fq (p_rp s) p with [] => [p] | l => l end.

(** C13. A write appends its packets to the buffer of every reader of the port, or to the port's own buffer while it has none,
    except where they do not all fit; there nothing changes, and the status says so. No other buffer changes. *)
Theorem port_write_delivers p w pk s : pinv s -> pw_calls (p_wait s) -> p_objs s !! p = Some (OWrite w) -> wp_magic w = WRITEPORT_MAGIC_W ->
  wp (port_write (Some p) (Some pk)) (fun st s' =>
    (forall q, packets (p_objs s') q =
       if decide (q ∈ receivers s p /\ fits (length pk) (p_objs s) q) then packets (p_objs s) q ++ pk else packets (p_objs s) q) /\
    ((st = NO_ERROR /\ forall q, q ∈ receivers s p -> fits (length pk) (p_objs s) q) \/
     (st = (if decide (fq (p_rp s) p = []) then ERR_NOT_ENOUGH_BUFFER else ERR_PARTIAL_WRITE) /\
        exists q, q ∈ receivers s p /\ ~ fits (length pk) (p_objs s) q))) s.
Proof.
  intros Hi Hc Hw Hm. eapply wp_mono; [by apply (port_write_wp p (OWrite w))|]. intros st s' [Hi' Ho]. rewrite Hm in Ho. simpl in Ho. unfold write_outcome in Ho.
  pose proof (pt_wbuf s Hi p w Hw) as Hb. unfold receivers. destruct (wp_buf w) as [b|] eqn:Eb.
  - destruct Hb as [Hb E]. rewrite E. destruct Ho as (b' & Hwr & Eo). rewrite Eo.
    destruct (wrote_packets (p_objs s) (<[p := OWrite (set_wbuf (Some b') w)]> (p_objs s)) p (OWrite w) _ b pk b' st Hw Eb (lookup_insert_eq _ _ _) eq_refl Hwr) as [E1 E2].
    split.
    + intros q. destruct (decide (q = p)) as [->|Hne]; [rewrite E1; destruct (decide (fits _ _ p)), (decide (p ∈ [p] /\ _)); set_solver|].
      rewrite decide_False by set_solver. unfold packets. by rewrite lookup_insert_ne.
    + rewrite decide_True by done. destruct E2 as [[? ->]|[? ->]]; [left|right]; (split; [done|]); [by intros q ->%list_elem_of_singleton|].
      exists p. split; [set_solver +|done].
  - rewrite decide_False by done. destruct (fq (p_rp s) p) as [|q0 l0] eqn:El; [done|]. rewrite <- El in *. destruct Ho as [Hwr Hst].
    assert (forall q, q ∈ fq (p_rp s) p -> exists r b, p_objs s !! q = Some (ORead r) /\ rp_buf r = Some b) as Hrd.
    { intros q (Hcl & r & Hr & _)%(pt_rp s Hi). destruct (pt_rbuf s Hi q r Hr Hcl) as (b & ? & _). eauto. }
    assert (forall q, q ∈ fq (p_rp s) p -> room (length pk) (p_objs s) q <-> fits (length pk) (p_objs s) q) as Hroom.
    { intros q Hq. destruct (Hrd q Hq) as (r & b & Hr & Hb'). destruct (packets_at (p_objs s) q (ORead r) b Hr Hb') as [E1 E2].
      unfold room, fits. rewrite E1, E2. split; [intros H; by apply (H r b)|]. intros H r' b2 Hr' Hb2. congruence. }
    split.
    + intros q. destruct (decide (q ∈ fq (p_rp s) p)) as [Hq|Hq].
      * destruct (Hrd q Hq) as (r & b & Hr & Hb'). destruct (wr_readers _ _ _ _ Hwr q r b Hq Hr Hb') as (b' & st' & Hw' & Hr').
        destruct (wrote_packets (p_objs s) (p_objs s') q (ORead r) _ b pk b' st' Hr Hb' Hr' eq_refl Hw') as [-> _].
        destruct (decide (fits _ _ q)), (decide (q ∈ fq (p_rp s) p /\ _)); naive_solver.
      * rewrite decide_False by naive_solver. unfold packets. by rewrite (wr_others _ _ _ _ Hwr q Hq).
    + destruct Hst as [[-> H]|[-> (q & Hq & H)]]; [left|right]; (split; [done|]); [intros q Hq; by apply Hroom, H|]. exists q. split; [done|]. by rewrite <- Hroom.
Qed.

(** The first of the ports [l] that has a packet. *)
Definition first_full (objs : gmap nat port_obj) (l : list nat) : option nat := List.find (fun q => negb (bool_decide (packets objs q = []))) l.

Definition ctx_of (objs : gmap nat port_obj) (q : nat) : Z := match objs !! q with Some (ORead r) => rp_ctx r | _ => 0 end.

Lemma empty_packets s q r b : p_objs s !! q = Some (ORead r) -> rp_buf r = Some b -> empty_port (p_objs s) q -> packets (p_objs s) q = [].
Proof. intros Hr Eb He. rewrite (proj1 (packets_at _ q (ORead r) b Hr Eb)). by apply (He r b). Qed.

Lemma first_full_app objs l1 q l2 : (forall x, x ∈ l1 -> packets objs x = []) -> packets objs q <> [] -> first_full objs (l1 ++ q :: l2) = Some q.
Proof.
  intros H1 Hq. unfold first_full. induction l1 as [|x l1 IH]; simpl.
  - by rewrite bool_decide_false.
  - rewrite bool_decide_true by (apply H1; set_solver +). simpl. apply IH. intros y Hy. apply H1. set_solver.
Qed.

Lemma first_full_none objs l : (forall x, x ∈ l -> packets objs x = []) -> first_full objs l = None.
Proof. intros H. unfold first_full. induction l as [|x l IH]; simpl; [done|]. rewrite bool_decide_true by (apply H; set_solver +). apply IH. set_solver. Qed.

(** C14. A read takes the oldest packet of the port, or of the first member of the group that has one, and gives it with the context
    of that port. No other packet moves. Only when there is none does it time out or wait, last in the queue. *)
Theorem port_read_takes_oldest p o timeout result s : pinv s -> pw_calls (p_wait s) -> p_objs s !! p = Some o -> ~ is_write o -> p ∉ p_closing s -> pw_timeout timeout ->
  wp (port_read (Some p) timeout (Some result)) (fun res s' =>
    match first_full (p_objs s) (read_ports s p o) with
    | Some q => exists pk, res = (Some NO_ERROR, Some (Result (ctx_of (p_objs s) q) pk)) /\
        packets (p_objs s) q = pk :: packets (p_objs s') q /\ forall q', q' <> q -> packets (p_objs s') q' = packets (p_objs s) q'
    | None => p_objs s' = p_objs s /\
        if timeout =? 0 then res.1 = Some ERR_TIMED_OUT /\ s' = s
        else res.1 = None /\ exists t, pw_waiting (p_wait s') p = pw_waiting (p_wait s) p ++ [t]
    end) s.
Proof.
  intros Hi Hc Ho Hnw Hcl Hto. eapply wp_mono; [by apply (port_read_wp p o)|]. intros res s' [_ H].
  assert (forall q, q ∈ read_ports s p o -> exists r b, p_objs s !! q = Some (ORead r) /\ rp_buf r = Some b) as Hrd.
  { intros q Hq. assert (q ∉ p_closing s /\ exists r, p_objs s !! q = Some (ORead r)) as [Hq1 [r Hr]].
    { destruct o as [w|r|g]; simpl in Hq; [done| |apply (pt_grp s Hi) in Hq as (? & r & ? & _); eauto]. apply list_elem_of_singleton in Hq as ->. eauto. }
    destruct (pt_rbuf s Hi q r Hr Hq1) as (b & ? & _). eauto. }
  assert (exists res2, res.2 = Some res2 /\ read_outcome (read_ports s p o) p timeout s (res.1, res2) s') as (res2 & E2 & Hout) by (by destruct o).
  assert (forall q, q ∈ read_ports s p o -> empty_port (p_objs s) q -> packets (p_objs s) q = []) as Hemp.
  { intros q Hq. destruct (Hrd q Hq) as (r & b & Hr & Eb). by apply (empty_packets s q r b). }
  destruct Hout as [(l1 & q & l2 & r & b & pk & rest & b' & El & H1 & Hr & Eb & Eq & [= Er1 Er2] & Eq' & ->)|[He Hw]].
  - destruct (packets_at (p_objs s) q (ORead r) b Hr Eb) as [E _]. rewrite El, first_full_app; [|intros x Hx; apply Hemp; [rewrite El; set_solver|by apply H1]|by rewrite E, Eq].
    exists pk. split; [destruct res; simpl in *; unfold ctx_of; rewrite Hr; congruence|]. simpl. split.
    + destruct (packets_at (<[q := ORead (set_rbuf (Some b') r)]> (p_objs s)) q _ b' (lookup_insert_eq _ _ _) eq_refl) as [-> _]. by rewrite E, Eq, Eq'.
    + intros q' Hne. unfold packets. by rewrite lookup_insert_ne.
  - rewrite first_full_none; [|intros x Hx; apply Hemp; [done|by apply He]]. simpl in Hw. destruct (timeout =? 0); [by destruct Hw as [? ->]|].
    destruct Hw as [? (ww & t & -> & Hw)]. split; [done|]. split; [done|]. exists t. simpl. by rewrite Hw, decide_True.
Qed.

(** The packets of the last reader outlive it: when it closes and a reader opens the port again, the new one starts with what the
    old one had not read. *)
Theorem port_reopen_keeps_packets p r port w ctx rp bmem s : pinv s -> pw_calls (p_wait s) -> p ∉ p_closing s ->
  p_objs s !! p = Some (ORead r) -> rp_wport r = Some port -> p_objs s !! port = Some (OWrite w) -> fq (p_rp s) port = [p] -> pw_waiting (p_wait s) p = [] ->
  (forall q w', q <> port -> p_objs s !! q = Some (OWrite w') -> wp_name w' <> wp_name w) ->
  p_objs s !! rp = None -> pw_waiting (p_wait s) rp = [] ->
  wp (do rc <- port_close (Some p); do ' (rc', x) <- port_open (Some (wp_name w)) ctx true (Some rp) (Some bmem); ret (rc, rc'))
    (fun res s' => res = (Some NO_ERROR, NO_ERROR) /\ packets (p_objs s') rp = packets (p_objs s) p /\ fq (p_rp s') port = [rp]) s.
Proof.
  intros Hi Hc Hcl Hr Ewp Hw Efq Hwait Hname Hrp Hrpw. wp_step. eapply wp_mono; [by apply (port_close_wp p (ORead r))|].
  intros rc s1 [Hi1 (_ & Hd & Hlast)]. rewrite decide_True in Hd by done. destruct Hd as [-> [_ C2 C3 C4 C5]]. specialize (Hlast r port w eq_refl Ewp Hw Efq).
  destruct (pt_rbuf s Hi p r Hr Hcl) as (b & Eb & _). rewrite Eb in Hlast.
  assert (forall q w', p_objs s1 !! q = Some (OWrite w') -> wp_name w' = wp_name w -> q = port) as Huniq.
  { intros q w' (w0 & Hw0 & E)%C5 E'. destruct (decide (q = port)) as [|Hne]; [done|]. destruct (Hname q w0 Hne Hw0). congruence. }
  wp_step. eapply wp_mono; [apply (port_open_wp (Some (wp_name w)) ctx true (Some rp) (Some bmem) s1); [done|done|]|].
  { intros x [= <-]. rewrite C3. split; [by apply C4|done]. }
  intros [rc' x] s2 [Hi2 [(_ & _ & _ & _ & Href)|(nm & rp' & port' & w' & b' & [= <-] & [= <-] & [= -> ->] & Hw' & En & Hrp' & Efq' & Hb')]].
  - destruct Href as [?|[?|[?|[?|[Href|(q & w' & Hq & [= E] & Ebuf & _)]]]]]; [done..| |].
    + by destruct (Href port _ Hlast).
    + rewrite (Huniq q w' Hq E) in Hq. rewrite Hlast in Hq. injection Hq as <-. done.
  - assert (port' = port) as -> by (by apply (Huniq port' w')). rewrite Hlast in Hw'. injection Hw' as <-. simpl in Hb'. subst b'. wp_step. split; [done|].
    destruct (packets_at (p_objs s2) rp _ b Hrp' eq_refl) as [-> _], (packets_at (p_objs s) p _ b Hr Eb) as [-> _]. split; [done|].
    rewrite Efq'. by rewrite (proj2 (pt_wbuf s1 Hi1 port _ Hlast)).
Qed.

Lemma bind_fault {X Y} (m : M (ports W) X) (f : X -> M (ports W) Y) e s : wp m (fun x s' => f x s' = Fault e) s -> bind m f s = Fault e.
Proof. unfold wp, bind. by destruct (m s). Qed.

(** A read port that says it is in a group, and is in no list of one. *)
Lemma close_unlisted_faults rp r pg s : pinv s -> p_objs s !! rp = Some (ORead r) -> rp_gport r = Some pg -> rp ∉ p_closing s ->
  port_close (Some rp) (on_grp (del rp) s) = Fault BadPointer.
Proof.
  intros Hi Hr Eg Hcl. pose proof (pt_magic s Hi rp _ Hr : rp_magic r = _) as Hm. unfold port_close. apply bind_fault. apply (get_obj_wp rp (ORead r)); [done|].
  cbv beta. cbn [magic]. rewrite Hm. change (READPORT_MAGIC =? WRITEPORT_MAGIC_W) with false. rewrite Z.eqb_refl. cbn [orb]. assert (forall s', p_grp s' = del rp (p_grp s) -> unlink_grp rp s' = Fault BadPointer) as Hend.
  { intros s' E. unfold unlink_grp. apply bind_fault. wp_step. rewrite E. rewrite (proj2 (in_list_false _ _)); [done|]. intros k. rewrite fq_del, list_elem_of_filter. naive_solver. }
  unfold bind at 1. replace (leave_ports rp r (on_grp (del rp) s)) with (@Fault (ports W) unit BadPointer); [done|]. symmetry. unfold leave_ports. rewrite Eg.
  apply bind_fault. destruct (rp_wport r) as [port|] eqn:Ew; [|wp_step; by apply Hend].
  assert (rp ∈ fq (p_rp s) port) as Hin by (apply (pt_rp s Hi); eauto). unfold unlink_rp. do 3 wp_step. simpl p_rp.
  assert (in_list rp (p_rp s) = true) as -> by (apply in_list_spec; by exists port). do 3 wp_step. case_bool_decide; [|wp_step; by apply Hend].
  destruct (pt_wp s Hi port) as [w Hw]; [intros E; rewrite E in Hin; by apply not_elem_of_nil in Hin|]. wp_step. apply (get_wport_wp port w); [done|].
  unfold put_obj. do 3 wp_step. by apply Hend.
Qed.

(** Taking a read port out of its group leaves [gport] set: the port cannot be closed any more, since [port_close] then deletes its
    node from a list it is not in. *)
Theorem port_group_remove_breaks_close rp r pg s : pinv s -> p_objs s !! rp = Some (ORead r) -> rp_gport r = Some pg -> rp ∉ p_closing s ->
  wp (port_group_remove (Some pg) (Some rp)) (fun rc s' => rc = NO_ERROR /\ rp ∉ fq (p_grp s') pg /\ port_close (Some rp) s' = Fault BadPointer) s.
Proof.
  intros Hi Hr Eg Hcl. destruct (group_waitable s rp r pg Hi Hr Hcl Eg) as [g Hg]. assert (rp ∈ fq (p_grp s) pg) as Hin by (apply (pt_grp s Hi); eauto).
  unfold port_group_remove. wp_step. apply (get_magic_wp pg (OGroup g)); [done|]. rewrite (pt_magic s Hi pg _ Hg : magic (OGroup g) = _). rewrite Z.eqb_refl. cbn [negb].
  wp_step. apply (get_magic_wp rp (ORead r)); [done|]. pose proof (pt_magic s Hi rp _ Hr : rp_magic r = _) as Hm. simpl magic. rewrite Hm, Z.eqb_refl. cbv iota.
  do 2 wp_step. apply (get_rport_wp rp r); [done|]. wp_step. rewrite bool_decide_true by done. cbn [negb]. do 2 wp_step. rewrite bool_decide_true by done. cbn [negb].
  unfold unlink_grp. do 3 wp_step. assert (in_list rp (p_grp s) = true) as -> by (apply in_list_spec; by exists pg). do 2 wp_step.
  split; [done|]. split; [simpl; rewrite fq_del, list_elem_of_filter; naive_solver|]. by apply (close_unlisted_faults rp r pg s).
Qed.

(** ** Any order of calls *)

(** A call, or the part of one between two points where the thread lock is free: [CCreateAdd] is the second half of [port_create]
    when others have run after the first, [CReadReturn] and [CCloseReturn] are what is left when the thread runs again. *)
Inductive port_call :=
| CCreate (name : option (list Z)) (mode : Z) (port : bool) (mem : option nat) (bmem : option (list Z))
| CCreateAdd (name : list Z) (mode : Z) (mem : option nat) (bmem : option (list Z))
| COpen (name : option (list Z)) (ctx : Z) (port : bool) (mem : option nat) (bmem : option (list Z))
| CGroup (arr : option (list nat)) (count : Z) (group : bool) (mem : option nat)
| CGroupAdd (group port : option nat)
| CWrite (port : option nat) (pk : option (list Z))
| CRead (port : option nat) (timeout : Z) (result : option port_result)
| CReadReturn (p : nat) (group : bool) (timeout wr : Z) (result : port_result)
| CDestroy (port : option nat)
| CClose (port : option nat)
| CCloseReturn (p : nat).

Definition run_call (c : port_call) : M (ports W) unit :=
  match c with
  | CCreate name mode port mem bmem => do r <- port_create name mode port mem bmem; ret tt
  | CCreateAdd name mode mem bmem => do r <- port_create_add name mode mem bmem; ret tt
  | COpen name ctx port mem bmem => do r <- port_open name ctx port mem bmem; ret tt
  | CGroup arr count group mem => do r <- port_group arr count group mem; ret tt
  | CGroupAdd group port => do r <- port_group_add group port; ret tt
  | CWrite port pk => do r <- port_write port pk; ret tt
  | CRead port timeout result => do r <- port_read port timeout result; ret tt
  | CReadReturn p group timeout wr result => do r <- port_read_return p group timeout wr result; ret tt
  | CDestroy port => do r <- port_destroy port; ret tt
  | CClose port => do r <- port_close port; ret tt
  | CCloseReturn p => do r <- port_close_return p; ret tt
  end.

(** A handle that has been given out and not closed. *)
Definition valid s (p : nat) : Prop := is_Some (p_objs s !! p) /\ p ∉ p_closing s.
Definition valid_or_null s (p : option nat) : Prop := forall x, p = Some x -> valid s x.

(** What the callers owe: handles are valid, an array is as long as they say, and new memory is in no use. *)
Definition legal s (c : port_call) : Prop :=
  pw_calls (p_wait s) /\
  match c with
  | CCreate _ _ _ mem _ | CCreateAdd _ _ mem _ | COpen _ _ _ mem _ => pfresh s mem
  | CGroup arr count _ mem =>
      pfresh s mem /\ (forall l, arr = Some l -> Z.of_nat (length l) = count /\ forall q, q ∈ l -> valid s q) /\ (arr = None -> 0 <= count)
  | CGroupAdd group port => valid_or_null s group /\ valid_or_null s port
  | CWrite port _ | CDestroy port | CClose port => valid_or_null s port
  | CRead port timeout _ => valid_or_null s port /\ pw_timeout timeout
  | CReadReturn p group timeout wr _ =>
      pw_timeout timeout /\ (wr = NO_ERROR -> p ∉ p_closing s /\
        exists o, p_objs s !! p = Some o /\ ~ is_write o /\ group = match o with OGroup _ => true | _ => false end)
  | CCloseReturn p => p ∈ p_closing s
  end.

(** Calls in any order, with the rest of the kernel in between: there threads can stop waiting for a port, but only the calls
    make them wait. *)
Inductive port_reach : ports W -> Prop :=
| reach_init w l s : pw_ok w -> port_init (Ports ∅ l ∅ ∅ w ∅) = Done tt s -> port_reach s
| reach_call s c s' : port_reach s -> legal s c -> run_call c s = Done tt s' -> port_reach s'
| reach_kernel s w : port_reach s -> pw_ok w -> same_live (p_wait s) w ->
    (forall n, sublist (pw_waiting w n) (pw_waiting (p_wait s) n)) -> port_reach (set_waits w s).

Lemma pinv_init (w : W) : pw_ok w -> pinv (Ports ∅ [] ∅ ∅ w ∅).
Proof.
  intros Hw. assert (forall k, fq (∅ : gmap nat (list nat)) k = []) as E by (intros k; unfold fq; by rewrite lookup_empty).
  assert (forall x : nat, x ∈ ([] : list nat) -> False) as Hnil by (intros x; apply not_elem_of_nil).
  split; simpl; try (intros *; rewrite ?E, ?lookup_empty; done); try apply wf_empty.
  - split; [apply NoDup_nil_2|]. intros p. split; [intros []%Hnil|by intros [? ?]].
  - intros p q. rewrite E. split; [intros []%Hnil|by intros (_ & ? & ? & _)].
  - intros p q. rewrite E. split; [intros []%Hnil|by intros (_ & ? & ? & _)].
Qed.

Lemma call_pinv {X} (m : M (ports W) X) (P : X -> ports W -> Prop) s :
  wp m (fun x s' => pinv s' /\ P x s') s -> wp (do r <- m; ret tt) (fun _ s' => pinv s') s.
Proof. intros H. wp_step. eapply wp_mono; [exact H|]. intros x s' [? _]. by wp_step. Qed.

(** A legal call comes back and keeps the invariant. *)
Lemma run_call_wp c s : pinv s -> legal s c -> wp (run_call c) (fun _ s' => pinv s') s.
Proof.
  intros Hi [Hc Hl]. assert (forall X (x : X), wp (do r <- ret x; ret tt) (fun _ s' => pinv s') s) as Hret by (intros X x; do 2 wp_step; done). destruct c; simpl in Hl |- *.
  - eapply call_pinv. by apply port_create_wp.
  - apply (call_pinv _ (fun _ _ => True)). unfold port_create_add. destruct mem as [p|]; [|by wp_step]. destruct (make_buf _ _) as [b|] eqn:Eb; [|by wp_step].
    unfold put_obj. do 8 wp_step. split; [|done]. apply (pinv_create s p name mode b); [done|by apply (Hl p)|by apply (make_buf_ok _ _ _ Eb)].
  - eapply call_pinv. by apply port_open_wp.
  - destruct Hl as (Hf & Harr & Hcnt). eapply call_pinv. by apply port_group_wp.
  - eapply call_pinv. apply port_group_add_wp; [done|done|]. destruct Hl as [Hg Hp]. intros p [E|E]; [by apply Hg|by apply Hp].
  - destruct port as [p|], pk as [pk|]; try apply Hret. destruct (Hl p eq_refl) as [[o Ho] _]. eapply call_pinv. by apply (port_write_wp p o).
  - destruct Hl as [Hl Hto]. destruct port as [p|], result as [res|]; try apply Hret.
    destruct (Hl p eq_refl) as [[o Ho] Hcl]. eapply call_pinv. by apply (port_read_wp p o).
  - destruct Hl as [Hto Hl]. destruct (decide (wr = NO_ERROR)) as [->|Hne].
    + destruct (Hl eq_refl) as (Hcl & o & Ho & Hw & ->). eapply call_pinv. by apply (port_read_return_wp p o).
    + unfold port_read_return. rewrite (proj2 (Z.eqb_neq _ _)) by done. apply Hret.
  - destruct port as [p|]; [|apply Hret]. destruct (Hl p eq_refl) as [[o Ho] _]. eapply call_pinv. by apply (port_destroy_wp p o).
  - destruct port as [p|]; [|apply Hret]. destruct (Hl p eq_refl) as [[o Ho] Hcl]. eapply call_pinv. by apply (port_close_wp p o).
  - eapply call_pinv. by apply port_close_return_wp.
Qed.

Lemma reach_pinv s : port_reach s -> pinv s.
Proof.
  induction 1 as [w l s Hw [= <-]|s c s' _ IH Hl Hr|s w _ IH Hw Hsl Hsub].
  - by apply pinv_init.
  - pose proof (run_call_wp c s IH Hl) as H. unfold wp in H. by rewrite Hr in H.
  - apply pinv_waits; [done|done|intros p o _ _; apply Hsl|]. intros p Hp. destruct (pt_closing s IH p Hp) as [E _]. specialize (Hsub p). rewrite E in Hsub. by apply sublist_nil_r in Hsub.
Qed.

End calls.

(** ** On the machine of [Resched] *)
Module PortExample.
Import SchedExample.
#[local] Instance waits0 : PortWaits kstate := kernel_waits 0.
#[local] Instance laws0 : PortWaitsLaws kstate := kernel_waits_laws 0.

Definition after (c : port_call) (s : ports kstate) : ports kstate := match run_call c s with Done _ s' => s' | Fault _ => s end.

Lemma reach_after c s : port_reach s -> legal s c -> port_reach (after c s).
Proof.
  intros Hr Hl. pose proof (run_call_wp c s (reach_pinv s Hr) Hl) as H. apply (reach_call s c); [done|done|]. unfold after, wp in *.
  by destruct (run_call c s) as [[] s'|].
Qed.

Definition start : ports kstate := Ports ∅ [] ∅ ∅ machine ∅.
Definition created : ports kstate := after (CCreate (Some [112; 49]) PORT_MODE_UNICAST true (Some 1%nat) (Some [])) start.
Definition opened : ports kstate := after (COpen (Some [112; 49]) 7 true (Some 2%nat) (Some [])) created.
Definition grouped : ports kstate := after (CGroup (Some [2%nat]) 1 true (Some 3%nat)) opened.
Definition filled : ports kstate := after (CWrite (Some 1%nat) (Some [10; 20])) grouped.

Ltac calls_now := eexists (TThr 0), _; split_and!; vm_compute; reflexivity.
Ltac fresh_now := intros ? [= <-]; split; vm_compute; reflexivity.
Ltac valid_now := intros ? [= <-]; split; [eexists; vm_compute; reflexivity|apply not_elem_of_empty].

Lemma start_reach : port_reach start.
Proof. apply (reach_init machine []); [|done]. split; [apply machine_sinv|apply machine_aux]. Qed.

Lemma created_reach : port_reach created.
Proof. apply reach_after; [apply start_reach|]. split; [calls_now|fresh_now]. Qed.

Lemma opened_reach : port_reach opened.
Proof. apply reach_after; [apply created_reach|]. split; [calls_now|fresh_now]. Qed.

Lemma grouped_reach : port_reach grouped.
Proof.
  apply reach_after; [apply opened_reach|]. split; [calls_now|]. split; [fresh_now|]. split; [|done]. intros l [= <-]. split; [done|].
  intros q ->%list_elem_of_singleton. split; [eexists; vm_compute; reflexivity|apply not_elem_of_empty].
Qed.

Lemma filled_reach : port_reach filled.
Proof. apply reach_after; [apply grouped_reach|]. split; [calls_now|valid_now]. Qed.


Lemma port_write_delivers_witness : wp (port_write (Some 1%nat) (Some [10; 20])) (fun st s' => st = NO_ERROR /\ packets (p_objs s') 2 = [10; 20]) grouped.
Proof.
  eapply wp_mono; [eapply (port_write_delivers 1%nat _ [10; 20] grouped); [exact (reach_pinv _ grouped_reach)|calls_now|vm_compute; reflexivity|reflexivity]|].
  intros st s' [H1 H2]. split; [|rewrite H1; vm_compute; reflexivity]. destruct H2 as [[? _]|[_ (q & Hq & Hn)]]; [done|].
  destruct Hn. assert (receivers grouped 1 = [2%nat]) as E by (vm_compute; reflexivity). rewrite E in Hq. apply list_elem_of_singleton in Hq as ->. vm_compute. done.
Defined.

Lemma port_read_takes_oldest_witness : wp (port_read (Some 3%nat) 0 (Some (Result 0 0)))
  (fun res s' => res = (Some NO_ERROR, Some (Result 7 10)) /\ packets (p_objs s') 2 = [20]) filled.
Proof.
  eapply wp_mono; [eapply (port_read_takes_oldest 3%nat (OGroup (PortGroup PORTGROUP_MAGIC)) 0 (Result 0 0) filled);
    [exact (reach_pinv _ filled_reach)|calls_now|vm_compute; reflexivity|by intros []|apply not_elem_of_empty|right; lia]|].
  intros res s'. change (first_full _ _) with (Some 2%nat). intros (pk & -> & E & _).
  assert (packets (p_objs filled) 2 = [10; 20]) as Ep by (vm_compute; reflexivity). rewrite Ep in E. injection E as <- <-. done.
Defined.
Lemma port_reopen_keeps_packets_witness : exists r w, wp (do rc <- port_close (Some 2%nat); do ' (rc', x) <- port_open (Some (wp_name w)) 8 true (Some 4%nat) (Some []); ret (rc, rc'))
  (fun res s' => res = (Some NO_ERROR, NO_ERROR) /\ packets (p_objs s') 4 = packets (p_objs filled) 2 /\ fq (p_rp s') 1%nat = [4%nat]) filled /\
  p_objs filled !! 2%nat = Some (ORead r) /\ p_objs filled !! 1%nat = Some (OWrite w).
Proof.
  eexists _, _. split; [|split; vm_compute; reflexivity].
  eapply (port_reopen_keeps_packets 2%nat _ 1%nat _ 8 4%nat [] filled); [exact (reach_pinv _ filled_reach)|calls_now|apply not_elem_of_empty|vm_compute; reflexivity..| |vm_compute; reflexivity|vm_compute; reflexivity].
  intros q w' Hq Hw. assert (q ∈ write_port_list filled) as Hin by (apply (pt_list _ (reach_pinv _ filled_reach)); by exists w').
  assert (write_port_list filled = [1%nat]) as E by (vm_compute; reflexivity). rewrite E in Hin. by apply list_elem_of_singleton in Hin.
Defined.

Lemma port_group_remove_breaks_close_witness : wp (port_group_remove (Some 3%nat) (Some 2%nat))
  (fun rc s' => rc = NO_ERROR /\ 2%nat ∉ fq (p_grp s') 3%nat /\ port_close (Some 2%nat) s' = Fault BadPointer) filled.
Proof.
  eapply (port_group_remove_breaks_close 2%nat _ 3%nat filled); [exact (reach_pinv _ filled_reach)|vm_compute; reflexivity|reflexivity|apply not_elem_of_empty].
Defined.
(** The check that keeps big buffers from broadcast ports never fires: [PORT_MODE_BROADCAST] is 0. *)
Lemma port_create_broadcast_big : forall mode, Z.land mode PORT_MODE_BROADCAST = 0.
Proof. apply Z.land_0_r. Qed.

Lemma port_create_broadcast_big_accepted :
  match port_create (Some [98]) (Z.lor PORT_MODE_BROADCAST PORT_MODE_BIG_BUFFER) true (Some 9%nat) (Some []) filled with
  | Done r s' => r = (NO_ERROR, Some 9%nat) /\ capacity (p_objs s') 9 = PORT_BUFF_SIZE_BIG
  | Fault _ => False
  end.
Proof. vm_compute. split; reflexivity. Qed.
End PortExample.
