(* ===== verification/Heap.v ===== *)
(** * The heap

    [lib/heap/cmpctmalloc/cmpctmalloc.c], [lib/heap/page_alloc.c] and [lib/heap/heap_wrapper.c]: areas of
    memory with a header in front of each, tagged in their left pointer when they are free, in
    lists by size that run through the free areas themselves.  Memory is an array of 64-bit words that can be read
    and written in the pages the heap owns and nowhere else.  The pages come from an interface, which the page allocator implements.
    Sizes are 64 bits wide and [NULL] is 0. The debug fill patterns are off, as in every build of the kernel. *)

From stdpp Require Import base gmap list numbers.
From S2P Require Import Prelude Pow2 Align.

(** ** Memory *)

(** The word at a multiple of 8, little endian; memory that was never written holds anything, here 0. *)
Notation mem := (gmap Z Z).
Definition word (m : mem) (a : Z) : Z := default 0 (m !! a).

Definition byte (m : mem) (x : Z) : Z := word m (x / 8 * 8) / 256 ^ (x mod 8) mod 256.
Definition put_byte (x v : Z) (m : mem) : mem :=
  let w := x / 8 * 8 in <[w := word m w + (v - byte m x) * 256 ^ (x mod 8)]> m.

(** ** State *)

(** [pmm_alloc_kpages(count, NULL)] and [pmm_free_kpages]. *)
Class PageOps (P : Type) := {
  pg_alloc : Z -> M P Z;
  pg_free : Z -> Z -> M P unit }.

(** [hp_mapped] are the numbers of the pages the heap owns. *)
Record heap (P : Type) := Heap {
  hp_pages : P;
  hp_mem : mem;
  hp_mapped : gset Z;
  hp_size : Z;
  hp_remaining : Z;
  hp_locked : bool;
  free_lists : list Z;
  free_list_bits : list Z;
  delayed_free_list : list Z }.
Arguments Heap {P} _ _ _ _ _ _ _ _ _.
Arguments hp_pages {P} _.
Arguments hp_mem {P} _.
Arguments hp_mapped {P} _.
Arguments hp_size {P} _.
Arguments hp_remaining {P} _.
Arguments hp_locked {P} _.
Arguments free_lists {P} _.
Arguments free_list_bits {P} _.
Arguments delayed_free_list {P} _.

Definition HEADER : Z := 16.
Definition FREE : Z := 32.

Definition HEAP_GROW_SIZE : Z := 256 * 1024.
Definition HEAP_ALLOC_VIRTUAL_BITS : Z := 22.
Definition NUMBER_OF_BUCKETS : Z := 1 + 15 + (HEAP_ALLOC_VIRTUAL_BITS - 7) * 8.
Definition BUCKET_WORDS : Z := Z.shiftr (NUMBER_OF_BUCKETS + 31) 5.

Definition pages_of (v n : Z) : gset Z := list_to_set (seqZ (v / PAGE_SIZE) n).

(** ** Sizes and buckets *)

Definition clz64 (x : Z) : Z := 63 - Z.log2 x.
Definition clz32 (x : Z) : Z := 31 - Z.log2 x.

Section ops.
Context {P : Type} `{PageOps P}.

(** The index of the bucket and the size it stands for. *)
Definition size_to_index_helper (size adjust increment : Z) : M (heap P) (Z * Z) :=
  if size <=? 128 then
    ret (Z.shiftr size 3 - 1, if size <=? FREE - HEADER then FREE - HEADER else size)
  else
    let size := u64 (size + adjust) in
    let row := 64 - 4 - clz64 size in
    let column := Z.land (Z.shiftr size row) 7 in
    let row_column := Z.lor (Z.shiftl row 3) column + increment in
    let size := Z.shiftl (8 + Z.land row_column 7) (Z.shiftr row_column 3) in
    let answer := row_column + 15 - 32 in
    massert (answer <? NUMBER_OF_BUCKETS) ;;
    ret (answer, size).

Definition size_to_index_allocating (size : Z) : M (heap P) (Z * Z) := size_to_index_helper (ROUNDUP size 8) (-8) 1.

Definition size_to_index_freeing (size : Z) : M (heap P) Z :=
  do r <- size_to_index_helper size 0 0; ret r.1.

(** ** Words, pages, the lock *)

Definition set_pages (v : P) (s : heap P) : heap P :=
  Heap v (hp_mem s) (hp_mapped s) (hp_size s) (hp_remaining s) (hp_locked s) (free_lists s) (free_list_bits s) (delayed_free_list s).
Definition on_mem (f : mem -> mem) (s : heap P) : heap P :=
  Heap (hp_pages s) (f (hp_mem s)) (hp_mapped s) (hp_size s) (hp_remaining s) (hp_locked s) (free_lists s) (free_list_bits s) (delayed_free_list s).
Definition on_mapped (f : gset Z -> gset Z) (s : heap P) : heap P :=
  Heap (hp_pages s) (hp_mem s) (f (hp_mapped s)) (hp_size s) (hp_remaining s) (hp_locked s) (free_lists s) (free_list_bits s) (delayed_free_list s).
Definition on_size (f : Z -> Z) (s : heap P) : heap P :=
  Heap (hp_pages s) (hp_mem s) (hp_mapped s) (f (hp_size s)) (hp_remaining s) (hp_locked s) (free_lists s) (free_list_bits s) (delayed_free_list s).
Definition on_remaining (f : Z -> Z) (s : heap P) : heap P :=
  Heap (hp_pages s) (hp_mem s) (hp_mapped s) (hp_size s) (f (hp_remaining s)) (hp_locked s) (free_lists s) (free_list_bits s) (delayed_free_list s).
Definition set_locked (v : bool) (s : heap P) : heap P :=
  Heap (hp_pages s) (hp_mem s) (hp_mapped s) (hp_size s) (hp_remaining s) v (free_lists s) (free_list_bits s) (delayed_free_list s).
Definition on_lists (f : list Z -> list Z) (s : heap P) : heap P :=
  Heap (hp_pages s) (hp_mem s) (hp_mapped s) (hp_size s) (hp_remaining s) (hp_locked s) (f (free_lists s)) (free_list_bits s) (delayed_free_list s).
Definition on_bits (f : list Z -> list Z) (s : heap P) : heap P :=
  Heap (hp_pages s) (hp_mem s) (hp_mapped s) (hp_size s) (hp_remaining s) (hp_locked s) (free_lists s) (f (free_list_bits s)) (delayed_free_list s).
Definition set_delayed (v : list Z) (s : heap P) : heap P :=
  Heap (hp_pages s) (hp_mem s) (hp_mapped s) (hp_size s) (hp_remaining s) (hp_locked s) (free_lists s) (free_list_bits s) v.

(** A word can be used when it is aligned and in a page of the heap. *)
Definition usable (s : heap P) (a : Z) : bool := (a mod 8 =? 0) && bool_decide (a / PAGE_SIZE ∈ hp_mapped s).

Definition ld (a : Z) : M (heap P) Z :=
  do ok <- gets (fun s => usable s a);
  if ok : bool then gets (fun s => word (hp_mem s) a) else fail BadPointer.
Definition st (a v : Z) : M (heap P) unit :=
  do ok <- gets (fun s => usable s a);
  if ok : bool then modify (on_mem (<[a := u64 v]>)) else fail BadPointer.

(** An entry of an array of the heap structure. *)
Definition get_entry (f : heap P -> list Z) (i : Z) : M (heap P) Z :=
  if i <? 0 then fail BadPointer else do l <- gets f; deref (l !! Z.to_nat i).
Definition set_list (i v : Z) : M (heap P) unit :=
  do old <- get_entry free_lists i; modify (on_lists (<[Z.to_nat i := v]>)).
Definition set_bits (i v : Z) : M (heap P) unit :=
  do old <- get_entry free_list_bits i; modify (on_bits (<[Z.to_nat i := v]>)).

(** A thread that waits for itself panics. *)
Definition lock : M (heap P) unit :=
  do l <- gets hp_locked; if l : bool then fail Panic else modify (set_locked true).
Definition unlock : M (heap P) unit :=
  do l <- gets hp_locked; if l : bool then modify (set_locked false) else fail Panic.

Definition pages_do {X} (m : M P X) : M (heap P) X :=
  fun s => match m (hp_pages s) with Done x p => Done x (set_pages p s) | Fault f => Fault f end.

(** The count is an [uint] of [pmm_alloc_kpages]. *)
Definition page_alloc (pages : Z) : M (heap P) Z :=
  do v <- pages_do (pg_alloc (u32 pages));
  when (negb (v =? 0)) (modify (on_mapped (union (pages_of v (u32 pages))))) ;;
  ret v.

Definition page_free (ptr pages : Z) : M (heap P) unit :=
  massert (IS_PAGE_ALIGNED ptr) ;;
  do m <- gets hp_mapped;
  if bool_decide (pages_of ptr (u32 pages) ⊆ m) then
    modify (on_mapped (fun m => m ∖ pages_of ptr (u32 pages))) ;; pages_do (pg_free ptr (u32 pages))
  else fail BadPointer.

(** What is returned, after what [size_return] gets. *)
Definition page_first_alloc : M (heap P) (Z * Z) := do p <- page_alloc 1; ret (PAGE_SIZE, p).

(** ** Headers *)

Definition tag_as_free (left : Z) : Z := Z.lor left 1.
Definition untag (left : Z) : Z := Z.land left (u64 (Z.lnot 1)).

Definition hdr_left (h : Z) : M (heap P) Z := ld h.
Definition hdr_size (h : Z) : M (heap P) Z := ld (h + 8).
Definition free_next (h : Z) : M (heap P) Z := ld (h + 16).
Definition free_prev (h : Z) : M (heap P) Z := ld (h + 24).

Definition is_tagged_as_free (h : Z) : M (heap P) bool := do l <- hdr_left h; ret (negb (Z.land l 1 =? 0)).

Definition right_header (h : Z) : M (heap P) Z := do size <- hdr_size h; ret (h + size).

Definition set_free_list_bit (index : Z) : M (heap P) unit :=
  do w <- get_entry free_list_bits (Z.shiftr index 5); set_bits (Z.shiftr index 5) (bit_set w (31 - Z.land index 0x1f)).
Definition clear_free_list_bit (index : Z) : M (heap P) unit :=
  do w <- get_entry free_list_bits (Z.shiftr index 5); set_bits (Z.shiftr index 5) (bit_clear w (31 - Z.land index 0x1f)).

(** The words from [index], a multiple of 32, on; [n] bounds how many are looked at. *)
Fixpoint find_nonempty_word (n : nat) (index : Z) : M (heap P) Z :=
  if index <=? NUMBER_OF_BUCKETS then
    match n with
    | O => fail OutOfFuel
    | S n =>
        do mask <- get_entry free_list_bits (Z.shiftr index 5);
        if negb (mask =? 0) then ret (index + clz32 mask) else find_nonempty_word n (index + 32)
    end
  else ret (-1).

Definition find_nonempty_bucket (index : Z) : M (heap P) Z :=
  let mask := u32 (u32 (Z.shiftl 1 (31 - Z.land index 0x1f) - 1) * 2 + 1) in
  do w <- get_entry free_list_bits (Z.shiftr index 5);
  let mask := Z.land mask w in
  if negb (mask =? 0) then ret (Z.land index (Z.lnot 0x1f) + clz32 mask)
  else find_nonempty_word 5 (ROUNDUP (index + 1) 32).

Definition is_start_of_os_allocation (h : Z) : M (heap P) bool := do l <- hdr_left h; ret (l =? untag 0).
Definition is_end_of_os_allocation (address : Z) : M (heap P) bool := do size <- hdr_size address; ret (size =? 0).

(** ** Areas *)

(** [bucket] is [None] for the list of the size, or [Some] of what the variable of the caller points to; the result is what the list starts with then. *)
Definition create_free_area (address left size : Z) (bucket : option Z) : M (heap P) Z :=
  st (address + 8) size ;;
  st address (tag_as_free left) ;;
  do ' (index, old_head) <-
    match bucket with
    | None =>
        do index <- size_to_index_freeing (u64 (size - HEADER));
        set_free_list_bit index ;;
        do old_head <- get_entry free_lists index;
        ret (Some index, old_head)
    | Some old_head => ret (None, old_head)
    end;
  when (negb (old_head =? 0)) (st (old_head + 24) address) ;;
  st (address + 16) old_head ;;
  st (address + 24) 0 ;;
  match index with Some index => set_list index address | None => ret tt end ;;
  modify (on_remaining (fun r => u64 (r + size))) ;;
  ret address.

Definition free_to_os (header size : Z) : M (heap P) unit :=
  massert (IS_PAGE_ALIGNED size) ;;
  page_free header (Z.shiftr size PAGE_SIZE_SHIFT) ;;
  modify (on_size (fun s => u64 (s - size))).

Definition free_memory (address left size : Z) : M (heap P) unit :=
  let left := untag left in
  do b1 <- (if IS_PAGE_ALIGNED left then is_start_of_os_allocation left else ret false);
  do b2 <- (if b1 : bool then is_end_of_os_allocation (address + size) else ret false);
  if b2 : bool then
    do left_size <- hdr_size left;
    free_to_os left (u64 (size + left_size + HEADER))
  else do a <- create_free_area address left size None; ret tt.

Definition unlink_free (free_area bucket : Z) : M (heap P) unit :=
  do size <- hdr_size free_area;
  modify (on_remaining (fun r => u64 (r - size))) ;;
  do r <- gets hp_remaining;
  massert (r <? 4000000000) ;;
  do next <- free_next free_area;
  do prev <- free_prev free_area;
  do head <- get_entry free_lists bucket;
  when (head =? free_area) (set_list bucket next ;; when (next =? 0) (clear_free_list_bit bucket)) ;;
  when (negb (prev =? 0)) (st (prev + 16) next) ;;
  when (negb (next =? 0)) (st (next + 24) prev).

Definition unlink_free_unknown_bucket (free_area : Z) : M (heap P) unit :=
  do size <- hdr_size free_area;
  do bucket <- size_to_index_freeing (u64 (size - HEADER));
  unlink_free free_area bucket.

Definition create_allocation_header (address offset size left : Z) : M (heap P) Z :=
  let standalone := address + offset in
  st standalone (untag left) ;;
  st (standalone + 8) size ;;
  ret (standalone + HEADER).

Definition FixLeftPointer (right new_left : Z) : M (heap P) unit :=
  do l <- hdr_left right;
  let tag := Z.land l 1 in
  st right (Z.lor (untag new_left) tag).

(** ** Growing *)

Definition add_to_heap (new_area size : Z) (bucket : option Z) : M (heap P) Z :=
  let top := new_area + size in
  let left_sentinel := new_area in
  do p <- create_allocation_header left_sentinel 0 HEADER 0;
  let new_header := left_sentinel + HEADER in
  let free_size := u64 (size - 2 * HEADER) in
  do a <- create_free_area new_header left_sentinel free_size bucket;
  let right_sentinel := top - HEADER in
  do p <- create_allocation_header right_sentinel 0 0 new_header;
  ret a.

(** The status, a [ssize_t], and what the variable of the caller holds. *)
Definition heap_grow (size : Z) (bucket : option Z) : M (heap P) (Z * Z) :=
  let size := u64 (size + 2 * HEADER) in
  let size := ROUNDUP size PAGE_SIZE in
  do ptr <- page_alloc (Z.shiftr size PAGE_SIZE_SHIFT);
  if ptr =? 0 then ret (-1, default 0 bucket)
  else
    modify (on_size (fun s => u64 (s + size))) ;;
    do a <- add_to_heap ptr size bucket;
    ret (s64 size, a).

Definition cmpct_init : M (heap P) unit :=
  modify (set_locked false) ;;
  modify (on_lists (fun _ => replicate (Z.to_nat NUMBER_OF_BUCKETS) 0)) ;;
  modify (on_bits (fun _ => replicate (Z.to_nat BUCKET_WORDS) 0)) ;;
  let initial_alloc := HEAP_GROW_SIZE - 2 * HEADER in
  modify (on_remaining (fun _ => 0)) ;;
  do r <- heap_grow initial_alloc None; ret tt.

(** ** Allocating *)

Definition large_alloc (size : Z) : M (heap P) Z :=
  let size := ROUNDUP size 8 in
  lock ;;
  do ' (status, free_area) <- heap_grow size (Some 0);
  if status <? 0 then ret 0
  else
    do fsize <- hdr_size free_area;
    do fleft <- hdr_left free_area;
    do result <- create_allocation_header free_area 0 fsize fleft;
    do fsize <- hdr_size free_area;
    modify (on_remaining (fun r => u64 (r - fsize))) ;;
    unlock ;;
    ret result.

(** The loop that grows the heap by less and less; false when there is no memory. *)
Fixpoint grow_loop (n : nat) (growby rounded_up : Z) : M (heap P) bool :=
  match n with
  | O => fail OutOfFuel
  | S n =>
      do r <- heap_grow growby None;
      if r.1 <? 0 then
        if growby <=? rounded_up then ret false
        else grow_loop n (Z.max (Z.shiftr growby 1) rounded_up) rounded_up
      else ret true
  end.

(** The part of [cmpct_alloc] that takes an area out of its bucket. *)
Definition take_area (bucket size rounded_up : Z) : M (heap P) Z :=
  do head <- get_entry free_lists bucket;
  do hsize <- hdr_size head;
  let left_over := u64 (hsize - rounded_up) in
  (if (FREE <=? left_over) && (Z.shiftr size 6 <? left_over) then
     do right <- right_header head;
     unlink_free head bucket ;;
     let free := head + rounded_up in
     do a <- create_free_area free head left_over None;
     FixLeftPointer right free ;;
     do hsize <- hdr_size head;
     st (head + 8) (u64 (hsize - left_over))
   else unlink_free head bucket) ;;
  do hsize <- hdr_size head;
  do hleft <- hdr_left head;
  create_allocation_header head 0 hsize hleft.

Definition cmpct_alloc (size : Z) : M (heap P) Z :=
  if size =? 0 then ret 0
  else if Z.shiftl 1 HEAP_ALLOC_VIRTUAL_BITS <? u64 (size + HEADER) then large_alloc size
  else
    do ' (start_bucket, rounded_up) <- size_to_index_allocating size;
    let rounded_up := u64 (rounded_up + HEADER) in
    lock ;;
    do bucket <- find_nonempty_bucket start_bucket;
    do bucket <-
      (if bucket =? -1 then
         do hsize <- gets hp_size;
         let growby := Z.min (Z.shiftl 1 HEAP_ALLOC_VIRTUAL_BITS) (Z.max (Z.shiftr hsize 3) (Z.max HEAP_GROW_SIZE rounded_up)) in
         do ok <- grow_loop 25 growby rounded_up;
         if ok : bool then do b <- find_nonempty_bucket start_bucket; ret (Some b) else unlock ;; ret None
       else ret (Some bucket));
    match bucket with
    | None => ret 0
    | Some bucket =>
        do result <- take_area bucket size rounded_up;
        unlock ;;
        ret result
    end.

(** ** Freeing *)

(** Under the lock: the neighbours that are free are taken out of their lists and become part of the area. *)
Definition free_and_coalesce (header size : Z) : M (heap P) unit :=
  do left <- hdr_left header;
  do lfree <- (if left =? 0 then ret false else is_tagged_as_free left);
  if lfree : bool then
    unlink_free_unknown_bucket left ;;
    do right <- right_header header;
    do rfree <- is_tagged_as_free right;
    if rfree : bool then
      unlink_free_unknown_bucket right ;;
      do right_right <- right_header right;
      FixLeftPointer right_right left ;;
      do lleft <- hdr_left left;
      do lsize <- hdr_size left;
      do rsize <- hdr_size right;
      free_memory left lleft (u64 (lsize + size + rsize))
    else
      FixLeftPointer right left ;;
      do lleft <- hdr_left left;
      do lsize <- hdr_size left;
      free_memory left lleft (u64 (lsize + size))
  else
    do right <- right_header header;
    do rfree <- is_tagged_as_free right;
    if rfree : bool then
      do right_right <- right_header right;
      unlink_free_unknown_bucket right ;;
      FixLeftPointer right_right header ;;
      do rsize <- hdr_size right;
      free_memory header left (u64 (size + rsize))
    else free_memory header left size.

Definition cmpct_free (payload : Z) : M (heap P) unit :=
  if payload =? 0 then ret tt
  else
    let header := payload - HEADER in
    do free <- is_tagged_as_free header;
    massert (negb free) ;;
    do size <- hdr_size header;
    lock ;;
    free_and_coalesce header size ;;
    unlock.

Definition cmpct_memalign (size alignment : Z) : M (heap P) Z :=
  if alignment <? 8 then cmpct_alloc size
  else
    let padded_size := u64 (size + alignment + FREE + HEADER) in
    do unaligned <- cmpct_alloc padded_size;
    lock ;;
    let mask := alignment - 1 in
    let payload_int := u64 (unaligned + FREE + HEADER + mask) in
    let payload := Z.land payload_int (u64 (Z.lnot mask)) in
    if negb (unaligned =? payload) then
      let unaligned_header := unaligned - HEADER in
      let header := payload - HEADER in
      let left_over := u64 (payload - unaligned) in
      do usize <- hdr_size unaligned_header;
      do p <- create_allocation_header header 0 (u64 (usize - left_over)) unaligned_header;
      do right <- right_header unaligned_header;
      st (unaligned_header + 8) left_over ;;
      FixLeftPointer right header ;;
      unlock ;;
      cmpct_free unaligned ;;
      ret payload
    else unlock ;; ret payload.

(** ** Bytes *)

Definition ld8 (x : Z) : M (heap P) Z :=
  do ok <- gets (fun s => usable s (x / 8 * 8));
  if ok : bool then gets (fun s => byte (hp_mem s) x) else fail BadPointer.
Definition st8 (x v : Z) : M (heap P) unit :=
  do ok <- gets (fun s => usable s (x / 8 * 8));
  if ok : bool then modify (on_mem (put_byte x v)) else fail BadPointer.

Fixpoint memcpy (dest src : Z) (n : nat) : M (heap P) unit :=
  match n with
  | O => ret tt
  | S n => do v <- ld8 src; st8 dest v ;; memcpy (dest + 1) (src + 1) n
  end.

Fixpoint memset (s c : Z) (n : nat) : M (heap P) unit :=
  match n with
  | O => ret tt
  | S n => st8 s c ;; memset (s + 1) c n
  end.

Definition cmpct_realloc (payload size : Z) : M (heap P) Z :=
  if payload =? 0 then cmpct_alloc size
  else
    let header := payload - HEADER in
    do hsize <- hdr_size header;
    let old_size := u64 (hsize - HEADER) in
    do new_payload <- cmpct_alloc size;
    memcpy new_payload payload (Z.to_nat (Z.min size old_size)) ;;
    cmpct_free payload ;;
    ret new_payload.

(** ** Trimming *)

Definition trim_end (free_area bucket right : Z) : M (heap P) unit :=
  let old_os_allocation_end := ROUNDUP right PAGE_SIZE in
  let new_os_allocation_end := ROUNDUP (free_area + HEADER + FREE) PAGE_SIZE in
  let freed_up := u64 (old_os_allocation_end - new_os_allocation_end) in
  massert (IS_PAGE_ALIGNED freed_up) ;;
  if freed_up =? 0 then ret tt
  else
    unlink_free free_area bucket ;;
    do fsize <- hdr_size free_area;
    let new_free_size := u64 (fsize - freed_up) in
    massert (FREE <=? new_free_size) ;;
    do p <- create_allocation_header free_area new_free_size 0 free_area;
    do fleft <- hdr_left free_area;
    do a <- create_free_area free_area (untag fleft) new_free_size None;
    page_free new_os_allocation_end (Z.shiftr freed_up PAGE_SIZE_SHIFT) ;;
    modify (on_size (fun s => u64 (s - freed_up))).

Definition trim_start (free_area bucket right : Z) : M (heap P) unit :=
  let old_os_allocation_start := ROUNDDOWN free_area PAGE_SIZE in
  let new_os_allocation_start := ROUNDDOWN (right - HEADER) PAGE_SIZE in
  let freed_up := u64 (new_os_allocation_start - old_os_allocation_start) in
  massert (IS_PAGE_ALIGNED freed_up) ;;
  if freed_up =? 0 then ret tt
  else
    unlink_free free_area bucket ;;
    do fsize <- hdr_size free_area;
    let new_free_size := u64 (fsize - freed_up) in
    let sentinel_size := if new_free_size <? FREE then u64 (HEADER + new_free_size) else HEADER in
    let new_free_size := if new_free_size <? FREE then 0 else new_free_size in
    do p <- create_allocation_header new_os_allocation_start 0 sentinel_size 0;
    (if new_free_size =? 0 then FixLeftPointer right new_os_allocation_start
     else
       massert (FREE <=? new_free_size) ;;
       let new_free := new_os_allocation_start + sentinel_size in
       do a <- create_free_area new_free new_os_allocation_start new_free_size None;
       FixLeftPointer right new_free) ;;
    page_free old_os_allocation_start (Z.shiftr freed_up PAGE_SIZE_SHIFT) ;;
    modify (on_size (fun s => u64 (s - freed_up))).

(** One entry of a free list. *)
Definition trim_area (free_area bucket : Z) : M (heap P) unit :=
  do right <- right_header free_area;
  do e <- is_end_of_os_allocation right;
  if e : bool then trim_end free_area bucket right
  else
    do fleft <- hdr_left free_area;
    do b <- is_start_of_os_allocation (untag fleft);
    when b (trim_start free_area bucket right).

Fixpoint trim_list (fuel : nat) (free_area bucket : Z) : M (heap P) unit :=
  if free_area =? 0 then ret tt
  else
    match fuel with
    | O => fail OutOfFuel
    | S fuel =>
        do fsize <- hdr_size free_area;
        massert (PAGE_SIZE + HEADER <=? fsize) ;;
        do next <- free_next free_area;
        trim_area free_area bucket ;;
        trim_list fuel next bucket
    end.

(** [n] buckets from [bucket] on. *)
Fixpoint trim_buckets (fuel n : nat) (bucket : Z) : M (heap P) unit :=
  match n with
  | O => ret tt
  | S n =>
      do free_area <- get_entry free_lists bucket;
      trim_list fuel free_area bucket ;;
      trim_buckets fuel n (bucket + 1)
  end.

(** A free area has at least 32 bytes, so no list is longer than this. *)
Definition cmpct_trim : M (heap P) unit :=
  lock ;;
  do fuel <- gets (fun s => Z.to_nat (hp_remaining s / FREE));
  do bucket <- size_to_index_freeing PAGE_SIZE;
  trim_buckets fuel (Z.to_nat (NUMBER_OF_BUCKETS - bucket)) bucket ;;
  unlock.

(** ** [heap_wrapper.c]

    The nodes of the delayed list lie in the blocks on it. *)

Fixpoint free_all (l : list Z) : M (heap P) unit :=
  match l with
  | [] => ret tt
  | p :: l => cmpct_free p ;; free_all l
  end.

(** The spin lock makes taking the list one step. *)
Definition heap_free_delayed_list : M (heap P) unit :=
  do l <- gets delayed_free_list;
  modify (set_delayed []) ;;
  free_all (rev l).

Definition free_pending : M (heap P) unit :=
  do l <- gets delayed_free_list;
  when (negb (bool_decide (l = []))) heap_free_delayed_list.

Definition heap_init : M (heap P) unit := cmpct_init.

Definition heap_trim : M (heap P) unit := free_pending ;; cmpct_trim.

Definition malloc (size : Z) : M (heap P) Z := free_pending ;; cmpct_alloc size.

Definition memalign (boundary size : Z) : M (heap P) Z := free_pending ;; cmpct_memalign size boundary.

Definition HEAP_CALLOC (n s : Z) : M (heap P) Z :=
  let realsize := u64 (n * s) in
  do ptr <- cmpct_alloc realsize;
  when (negb (ptr =? 0)) (memset ptr 0 (Z.to_nat realsize)) ;;
  ret ptr.

Definition calloc (count size : Z) : M (heap P) Z := free_pending ;; HEAP_CALLOC count size.

Definition realloc (ptr size : Z) : M (heap P) Z := free_pending ;; cmpct_realloc ptr size.

Definition free (ptr : Z) : M (heap P) unit := cmpct_free ptr.

Definition heap_delayed_free (ptr : Z) : M (heap P) unit := modify (fun s => set_delayed (ptr :: delayed_free_list s) s).
End ops.
