(* ===== verification/HeapIndex.v ===== *)
(** * The buckets of the heap

    What [size_to_index_helper] computes: the first 15 buckets are 8 bytes apart, after that there are eight
    to each power of two.  A size that is freed goes to the last bucket that is not larger, a size that is
    asked for to the first bucket that is not smaller, so that every area of that bucket or a later one is
    large enough. *)

From stdpp Require Import base list numbers.
From S2P Require Import Prelude Pow2 Align Heap.

(** ** Rows and columns *)

(** The row and column of a size from 128 on, eight columns to a row, and the least size of a row and column. *)
Definition row_column (p : Z) : Z := let row := Z.log2 p - 3 in 8 * row + (p / 2 ^ row - 8).
Definition rc_size (rc : Z) : Z := (8 + rc mod 8) * 2 ^ (rc / 8).

(** The bucket of an area with [p] bytes after the header, and the size every area of a bucket has at least. *)
Definition bucket_of (p : Z) : Z := if p <=? 128 then p / 8 - 1 else row_column p - 17.
Definition bucket_size (i : Z) : Z := if i <? 15 then 8 * (i + 1) else rc_size (i + 17).

Section index.
Context {P : Type}.
Implicit Types (p i rc : Z).

Lemma column_bounds p : 8 <= p -> let row := Z.log2 p - 3 in 8 * 2 ^ row <= p < 16 * 2 ^ row /\ 8 <= p / 2 ^ row < 16.
Proof.
  intros Hp row. pose proof (Z.log2_spec p ltac:(lia)) as Hl. pose proof (Z.log2_le_mono 8 p ltac:(lia)) as H8. change (Z.log2 8) with 3 in H8.
  assert (2 ^ Z.log2 p = 8 * 2 ^ row) as E by (unfold row; rewrite <- (Z.pow_add_r 2 3) by lia; f_equal; lia).
  rewrite Z.pow_succ_r in Hl by lia. assert (0 < 2 ^ row) by (apply Z.pow_pos_nonneg; lia). split; [lia|].
  split; [apply Z.div_le_lower_bound|apply Z.div_lt_upper_bound]; lia.
Qed.

Lemma lor_row_column r c : 0 <= r -> 0 <= c < 8 -> Z.lor (Z.shiftl r 3) c = 8 * r + c.
Proof.
  intros Hr Hc. rewrite Z.shiftl_mul_pow2 by lia. rewrite <- Z.lxor_lor, <- Z.add_nocarry_lxor; [lia|..].
  all: apply Z.bits_inj'; intros i Hi; rewrite Z.land_spec, Z.bits_0; destruct (Z.ltb_spec i 3).
  1,3: by rewrite Z.mul_pow2_bits_low by lia.
  all: rewrite <- (Z.mod_small c (2 ^ 3)) by lia; rewrite Z.mod_pow2_bits_high by lia; apply andb_false_r.
Qed.

(** The row and column of the source, and the size that they stand for. *)
Lemma row_column_source p : 128 <= p < 2 ^ 64 ->
  let row := 64 - 4 - clz64 p in Z.lor (Z.shiftl row 3) (Z.land (Z.shiftr p row) 7) = row_column p.
Proof.
  intros Hp. unfold clz64, row_column. cbv zeta. replace (64 - 4 - (63 - Z.log2 p)) with (Z.log2 p - 3) by lia.
  pose proof (column_bounds p ltac:(lia)) as [_ Hc]. pose proof (Z.log2_le_mono 128 p ltac:(lia)) as H8. change (Z.log2 128) with 7 in H8.
  rewrite Z.shiftr_div_pow2 by lia. change 7 with (Z.ones 3). rewrite Z.land_ones by lia. change (2 ^ 3) with 8.
  set (q := p / _) in *. rewrite lor_row_column by (try lia; apply Z.mod_pos_bound; lia). f_equal.
  rewrite <- (Z.mod_small (q - 8) 8) by lia. rewrite <- (Z.mod_add (q - 8) 1) by lia. f_equal. lia.
Qed.

Lemma rc_size_source rc : 0 <= rc -> Z.shiftl (8 + Z.land rc 7) (Z.shiftr rc 3) = rc_size rc.
Proof.
  intros. unfold rc_size. change 7 with (Z.ones 3). rewrite Z.land_ones, Z.shiftr_div_pow2 by lia. change (2 ^ 3) with 8.
  apply Z.shiftl_mul_pow2, Z.div_pos; lia.
Qed.

(** ** Order *)

Lemma rc_size_succ rc : 0 <= rc -> rc_size (rc + 1) = rc_size rc + 2 ^ (rc / 8).
Proof.
  intros Hrc. unfold rc_size. pose proof (Z.div_mod rc 8 ltac:(lia)). pose proof (Z.mod_pos_bound rc 8 ltac:(lia)).
  assert (0 <= rc / 8) by (apply Z.div_pos; lia). destruct (decide (rc mod 8 = 7)) as [E|E].
  - replace (rc + 1) with (0 + (rc / 8 + 1) * 8) by lia. rewrite Z.mod_add, Z.div_add by lia. change (0 mod 8) with 0. change (0 / 8) with 0.
    rewrite E, Z.add_0_l, Z.pow_add_r by lia. change (2 ^ 1) with 2. lia.
  - replace (rc + 1) with (rc mod 8 + 1 + rc / 8 * 8) by lia. rewrite Z.mod_add, Z.div_add by lia.
    rewrite (Z.mod_small (_ + 1)), (Z.div_small (_ + 1)) by lia. rewrite Z.add_0_l. lia.
Qed.

Lemma rc_size_mono rc rc' : 0 <= rc <= rc' -> rc_size rc <= rc_size rc'.
Proof.
  intros [H0 Hle]. revert rc' Hle. apply (Zlt_lower_bound_ind _ rc). intros rc' IH Hle. destruct (decide (rc = rc')) as [->|]; [done|].
  specialize (IH (rc' - 1) ltac:(lia)). pose proof (rc_size_succ (rc' - 1) ltac:(lia)) as E. rewrite Z.sub_add in E.
  assert (0 < 2 ^ ((rc' - 1) / 8)) by (apply Z.pow_pos_nonneg; [lia|apply Z.div_pos; lia]). lia.
Qed.

(** A size is in the bucket of its row and column. *)
Lemma row_column_bounds p : 128 <= p -> 32 <= row_column p /\ rc_size (row_column p) <= p < rc_size (row_column p + 1).
Proof.
  intros Hp. pose proof (column_bounds p ltac:(lia)) as [_ Hc]. pose proof (Z.log2_le_mono 128 p ltac:(lia)) as H8. change (Z.log2 128) with 7 in H8.
  assert (32 <= row_column p) as H32 by (unfold row_column; lia). split; [done|]. rewrite rc_size_succ by lia.
  unfold rc_size, row_column. set (row := Z.log2 p - 3) in *. assert (0 < 2 ^ row) by (apply Z.pow_pos_nonneg; lia).
  pose proof (Z.div_mod p (2 ^ row) ltac:(lia)) as E. pose proof (Z.mod_pos_bound p (2 ^ row) ltac:(lia)) as Hm. set (q := p / 2 ^ row) in *.
  replace (8 * row + (q - 8)) with (q - 8 + row * 8) by lia. rewrite Z.mod_add, Z.div_add by lia.
  rewrite (Z.mod_small (q - 8)), (Z.div_small (q - 8)) by lia. rewrite Z.add_0_l. nia.
Qed.

Lemma row_column_lt p rc : 128 <= p -> 0 <= rc -> p < rc_size rc -> row_column p < rc.
Proof.
  intros Hp Hrc Hlt. pose proof (row_column_bounds p Hp) as (? & ? & ?). destruct (Z.lt_ge_cases (row_column p) rc) as [|Hge]; [done|].
  pose proof (rc_size_mono rc (row_column p) ltac:(lia)). lia.
Qed.

Lemma row_column_ge p rc : 128 <= p -> 0 <= rc -> rc_size rc <= p -> rc <= row_column p.
Proof.
  intros Hp Hrc Hge. pose proof (row_column_bounds p Hp) as (? & ? & ?). destruct (Z.lt_ge_cases (row_column p) rc) as [Hlt|]; [|done].
  pose proof (rc_size_mono (row_column p + 1) rc ltac:(lia)). lia.
Qed.

(** ** Buckets *)

Lemma bucket_of_bounds p : 8 <= p -> 0 <= bucket_of p /\ bucket_size (bucket_of p) <= p < bucket_size (bucket_of p + 1).
Proof.
  intros Hp. unfold bucket_of, bucket_size. destruct (Z.leb_spec p 128) as [Hs|Hs].
  - pose proof (Z.div_mod p 8 ltac:(lia)). pose proof (Z.mod_pos_bound p 8 ltac:(lia)). split; [lia|].
    destruct (Z.ltb_spec (p / 8 - 1) 15), (Z.ltb_spec (p / 8 - 1 + 1) 15); try lia.
    + assert (p / 8 - 1 = 14) as -> by lia. change (rc_size (14 + 1 + 17)) with 128. lia.
    + assert (p / 8 - 1 = 15) as -> by lia. change (rc_size (15 + 17)) with 128. change (rc_size (15 + 1 + 17)) with 144. lia.
  - pose proof (row_column_bounds p ltac:(lia)) as (H1 & H2 & H3). split; [lia|].
    rewrite !(proj2 (Z.ltb_ge _ _)) by lia. replace (row_column p - 17 + 17) with (row_column p) by lia.
    replace (row_column p - 17 + 1 + 17) with (row_column p + 1) by lia. done.
Qed.

(** [BIG] bounds the areas that a list can hold. *)
Definition BIG : Z := 2 ^ 22 + 4096.

Lemma bucket_of_range p : 8 <= p <= BIG - 16 -> 0 <= bucket_of p < NUMBER_OF_BUCKETS.
Proof.
  intros Hp. split; [apply bucket_of_bounds; lia|]. change NUMBER_OF_BUCKETS with 136. unfold bucket_of. destruct (Z.leb_spec p 128).
  - assert (p / 8 <= 128 / 8) by (apply Z.div_le_mono; lia). change (128 / 8) with 16 in *. lia.
  - enough (row_column p < 153) by lia. apply row_column_lt; [lia..|]. change (rc_size 153) with 4718592. unfold BIG in *. lia.
Qed.

(** The bucket that is looked in first for [n] bytes, and the size that is taken out of an area there. *)
Definition alloc_bucket (n : Z) : Z := let n := ROUNDUP n 8 in if n <=? 128 then n / 8 - 1 else row_column (n - 8) + 1 - 17.
Definition alloc_size (n : Z) : Z := let n := ROUNDUP n 8 in if n <=? 128 then Z.max 16 n else rc_size (row_column (n - 8) + 1).

Lemma roundup8 n : 0 <= n < 2 ^ 63 -> (8 | ROUNDUP n 8) /\ n <= ROUNDUP n 8 < n + 8.
Proof. intros. apply (ROUNDUP_spec n 3); lia. Qed.

Lemma rc_size_8 rc : 24 <= rc -> (8 | rc_size rc).
Proof.
  intros. unfold rc_size. apply Z.divide_mul_r. exists (2 ^ (rc / 8 - 3)). rewrite <- (Z.pow_add_r 2 _ 3).
  - f_equal. lia.
  - pose proof (Z.div_le_lower_bound rc 8 3). lia.
  - lia.
Qed.

(** The size that is taken is enough, a multiple of 8 and never below 16. *)
Lemma alloc_size_spec n : 0 < n <= 2 ^ 22 - 16 -> (8 | alloc_size n) /\ n <= alloc_size n <= 2 ^ 22 /\ 16 <= alloc_size n.
Proof.
  intros Hn. pose proof (roundup8 n ltac:(lia)) as [Hd Hr]. unfold alloc_size. set (R := ROUNDUP n 8) in *. cbv zeta.
  destruct (Z.leb_spec R 128) as [Hs|Hs].
  - destruct (Z.max_spec 16 R) as [[? ->]|[? ->]]; [by split; [|lia]|]. split; [by exists 2|lia].
  - destruct Hd as [k Ek]. pose proof (row_column_bounds (R - 8) ltac:(lia)) as (H1 & H2 & H3). pose proof (rc_size_8 (row_column (R - 8) + 1) ltac:(lia)) as [j Ej].
    assert (row_column (R - 8) < 152) by (apply row_column_lt; [lia..|]; change (rc_size 152) with (2 ^ 22); lia).
    pose proof (rc_size_mono (row_column (R - 8) + 1) 152 ltac:(lia)) as Hm. change (rc_size 152) with (2 ^ 22) in Hm.
    split; [by exists j|]. lia.
Qed.

Lemma alloc_bucket_range n : 0 < n <= 2 ^ 22 - 16 -> 0 <= alloc_bucket n < NUMBER_OF_BUCKETS.
Proof.
  intros Hn. pose proof (roundup8 n ltac:(lia)) as [[k Ek] Hr]. unfold alloc_bucket. set (R := ROUNDUP n 8) in *. cbv zeta. change NUMBER_OF_BUCKETS with 136.
  destruct (Z.leb_spec R 128) as [Hs|Hs].
  - rewrite Ek, Z.div_mul by lia. lia.
  - pose proof (row_column_bounds (R - 8) ltac:(lia)) as (H1 & H2 & H3).
    assert (row_column (R - 8) < 152) by (apply row_column_lt; [lia..|]; change (rc_size 152) with (2 ^ 22); lia). lia.
Qed.

(** An area is large enough exactly when its bucket is not before the one that is looked in first. *)
Lemma alloc_bucket_fits n p : 0 < n <= 2 ^ 22 - 16 -> 16 <= p -> alloc_bucket n <= bucket_of p <-> alloc_size n <= p.
Proof.
  intros Hn Hp. pose proof (roundup8 n ltac:(lia)) as [[k Ek] Hr]. unfold alloc_bucket, alloc_size. set (R := ROUNDUP n 8) in *. cbv zeta.
  destruct (Z.leb_spec R 128) as [Hs|Hs].
  - rewrite Ek, Z.div_mul by lia. unfold bucket_of. destruct (Z.leb_spec p 128).
    + pose proof (Z.div_mod p 8 ltac:(lia)). pose proof (Z.mod_pos_bound p 8 ltac:(lia)). lia.
    + pose proof (row_column_bounds p ltac:(lia)). lia.
  - pose proof (row_column_bounds (R - 8) ltac:(lia)) as (H1 & H2 & H3). set (rc := row_column (R - 8)) in *. unfold bucket_of.
    assert (128 < rc_size (rc + 1)) by (pose proof (rc_size_mono 33 (rc + 1) ltac:(lia)) as Hm; change (rc_size 33) with 144 in Hm; lia).
    destruct (Z.leb_spec p 128) as [Hp1|Hp1].
    + assert (p / 8 <= 128 / 8) by (apply Z.div_le_mono; lia). change (128 / 8) with 16 in *. lia.
    + split; intros Hx.
      * destruct (Z.lt_ge_cases p (rc_size (rc + 1))) as [Hl|]; [|lia]. apply row_column_lt in Hl; lia.
      * apply row_column_ge in Hx; lia.
Qed.

(** ** The functions of the source *)

Lemma size_to_index_freeing_eq p : 8 <= p <= BIG - 16 -> size_to_index_freeing (P := P) p = ret (bucket_of p).
Proof.
  intros Hp. pose proof (bucket_of_range p Hp) as Hb. unfold size_to_index_freeing, size_to_index_helper, bucket_of in *.
  destruct (Z.leb_spec p 128) as [Hs|Hs]; [by rewrite Z.shiftr_div_pow2 by lia|].
  unfold BIG in *. cbv zeta. rewrite !Z.add_0_r, u64_small by lia. rewrite (row_column_source p) by lia.
  rewrite (proj2 (Z.ltb_lt _ _)) by lia. replace (row_column p + 15 - 32) with (row_column p - 17) by lia. done.
Qed.

Lemma size_to_index_allocating_eq n : 0 < n <= 2 ^ 22 - 16 -> size_to_index_allocating (P := P) n = ret (alloc_bucket n, alloc_size n).
Proof.
  intros Hn. pose proof (roundup8 n ltac:(lia)) as [[k Ek] Hr]. pose proof (alloc_bucket_range n Hn) as Hb.
  unfold size_to_index_allocating, size_to_index_helper, alloc_bucket, alloc_size in *. set (R := ROUNDUP n 8) in *. cbv zeta in *.
  destruct (Z.leb_spec R 128) as [Hs|Hs].
  - rewrite Z.shiftr_div_pow2 by lia. change (FREE - HEADER) with 16. do 2 f_equal. destruct (Z.leb_spec R 16); lia.
  - cbv zeta. replace (R + -8) with (R - 8) by lia. rewrite u64_small by lia. rewrite (row_column_source (R - 8)) by lia.
    pose proof (row_column_bounds (R - 8) ltac:(lia)) as (H1 & _). rewrite rc_size_source by lia. rewrite (proj2 (Z.ltb_lt _ _)) by lia.
    replace (row_column (R - 8) + 1 + 15 - 32) with (row_column (R - 8) + 1 - 17) by lia. done.
Qed.
End index.
