(* ===== verification/HeapLists.v ===== *)
(** * The free lists of the heap

    The areas that are free are in doubly linked lists by bucket, with the links in the areas, and a bit
    for each bucket that is not empty.  [lists] says of a state that its lists hold exactly the areas of a map from
    addresses to sizes; putting an area in a list and taking one out change the map by that area and
    memory by links and the area's header. *)

From stdpp Require Import base gmap list fin_maps fin_sets numbers functions.
From S2P Require Import Prelude Pow2 Align Heap HeapIndex.

(** ** Sums over maps *)

Definition msum {V} (f : V -> Z) (m : gmap Z V) : Z := map_fold (fun _ v acc => f v + acc) 0 m.

Section msum.
Context {V : Type}.
Implicit Types (f : V -> Z) (m : gmap Z V).

Lemma msum_empty f : msum f ∅ = 0.
Proof. apply map_fold_empty. Qed.

Lemma msum_insert f m k v : m !! k = None -> msum f (<[k := v]> m) = f v + msum f m.
Proof. intros. unfold msum. rewrite map_fold_insert_L; [done| |done]. intros. lia. Qed.

Lemma msum_delete f m k v : m !! k = Some v -> msum f m = f v + msum f (delete k m).
Proof. intros Hk. rewrite <- (insert_delete_id m k v) at 1 by done. apply msum_insert, lookup_delete_eq. Qed.

Lemma msum_replace f m k v v' : m !! k = Some v -> msum f (<[k := v']> m) = msum f m - f v + f v'.
Proof. intros Hk. rewrite <- insert_delete_eq, msum_insert by apply lookup_delete_eq. rewrite (msum_delete f m k v Hk). lia. Qed.


Lemma msum_alter f m k (g : V -> V) : (forall v, f (g v) = f v) -> msum f (alter g k m) = msum f m.
Proof.
  intros Hf. destruct (m !! k) as [v|] eqn:Hk.
  - rewrite <- (insert_delete_id m k v Hk) at 1. rewrite alter_insert_eq, msum_insert, Hf by apply lookup_delete_eq. symmetry. by apply msum_delete.
  - f_equal. apply map_eq. intros j. rewrite lookup_alter. case_decide; [subst; by rewrite Hk|done].
Qed.
End msum.

Lemma msum_bounds {V W} (f : V -> Z) (g : W -> Z) (m : gmap Z V) (n : gmap Z W) :
  (forall k v, m !! k = Some v -> exists w, n !! k = Some w /\ f v <= g w) -> (forall k w, n !! k = Some w -> 0 <= g w) -> msum f m <= msum g n.
Proof.
  revert n. induction m as [|k v m Hk IH] using map_ind; intros n Hs Hg.
  - rewrite msum_empty. clear Hs. induction n as [|k w n Hk IH] using map_ind; [done|]. rewrite msum_insert by done.
    pose proof (Hg k w (lookup_insert_eq _ _ _)). enough (0 <= msum g n) by lia. apply IH. intros j u Hj. apply (Hg j). rewrite lookup_insert_ne; [done|naive_solver].
  - destruct (Hs k v (lookup_insert_eq _ _ _)) as (w & Hw & Hle). rewrite msum_insert, (msum_delete g n k w Hw) by done. enough (msum f m <= msum g (delete k n)) by lia.
    apply IH.
    + intros j u Hj. destruct (Hs j u) as (x & Hx & ?); [rewrite lookup_insert_ne; [done|naive_solver]|]. exists x. rewrite lookup_delete_ne; [done|naive_solver].
    + intros j u [_ Hj]%lookup_delete_Some. eauto.
Qed.

Lemma msum_nonneg {V} (f : V -> Z) (m : gmap Z V) : (forall k v, m !! k = Some v -> 0 <= f v) -> 0 <= msum f m.
Proof. intros Hf. rewrite <- (msum_empty f). apply msum_bounds; [by intros ??; rewrite lookup_empty|done]. Qed.

(** ** Memory *)

Lemma word_put_eq m a v : word (<[a := v]> m) a = v.
Proof. unfold word. by rewrite lookup_insert_eq. Qed.

Lemma word_put_ne m a x v : x <> a -> word (<[a := v]> m) x = word m x.
Proof. intros. unfold word. by rewrite lookup_insert_ne. Qed.

Section state.
Context {P : Type} `{PageOps P}.
Implicit Types (s : heap P) (W : Z -> Prop).

Lemma usable_spec s a : usable s a = true <-> a mod 8 = 0 /\ a / 4096 ∈ hp_mapped s.
Proof. unfold usable. rewrite andb_true_iff, Z.eqb_eq, bool_decide_eq_true. done. Qed.

Lemma ld_wp a Q s : usable s a = true -> Q (word (hp_mem s) a) s -> wp (ld a) Q s.
Proof. intros Hu HQ. unfold ld. wp_step. wp_step. rewrite Hu. by wp_step. Qed.

Lemma st_wp a v Q s : usable s a = true -> Q tt (on_mem (<[a := u64 v]>) s) -> wp (st a v) Q s.
Proof. intros Hu HQ. unfold st. wp_step. wp_step. rewrite Hu. by wp_step. Qed.

Lemma get_entry_wp f i x Q s : 0 <= i -> f s !! Z.to_nat i = Some x -> Q x s -> wp (get_entry f i) Q s.
Proof. intros Hi Hx HQ. unfold get_entry. rewrite (proj2 (Z.ltb_ge _ _)) by lia. wp_step. wp_step. eapply wp_deref; done. Qed.

(** [s'] is [s] except for words in [W], the lists, their bits and the count of what is free. *)
Record keeps W s s' : Prop := {
  kp_mem : forall x, ~ W x -> word (hp_mem s') x = word (hp_mem s) x;
  kp_pages : hp_pages s' = hp_pages s;
  kp_mapped : hp_mapped s' = hp_mapped s;
  kp_size : hp_size s' = hp_size s;
  kp_locked : hp_locked s' = hp_locked s;
  kp_delayed : delayed_free_list s' = delayed_free_list s }.

Lemma keeps_refl W s : keeps W s s.
Proof. done. Qed.

Lemma keeps_trans W s s1 s2 : keeps W s s1 -> keeps W s1 s2 -> keeps W s s2.
Proof. intros [M1 P1 A1 S1 L1 D1] [M2 P2 A2 S2 L2 D2]. split; try congruence. intros x Hx. by rewrite M2, M1. Qed.

Lemma keeps_mono W W' s s' : (forall x, W x -> W' x) -> keeps W s s' -> keeps W' s s'.
Proof. intros HW [M1 P1 A1 S1 L1 D1]. split; try done. auto. Qed.

Lemma keeps_put W a v s : W a -> keeps W s (on_mem (<[a := v]>) s).
Proof. intros Ha. split; try done. intros x Hx. cbn. apply word_put_ne. by intros ->. Qed.

Lemma keeps_usable W s s' a : keeps W s s' -> usable s' a = usable s a.
Proof. intros K. unfold usable. by rewrite (kp_mapped _ _ _ K). Qed.
End state.

(** ** The words of bits *)

(** The highest bit below [k + 1], and that there is none. *)
Lemma low_bits_log2 w k : 0 <= w -> 0 <= k -> w mod 2 ^ (k + 1) <> 0 ->
  0 <= Z.log2 (w mod 2 ^ (k + 1)) <= k /\ Z.testbit w (Z.log2 (w mod 2 ^ (k + 1))) = true /\
  forall i, Z.log2 (w mod 2 ^ (k + 1)) < i <= k -> Z.testbit w i = false.
Proof.
  intros Hw Hk Hne. pose proof (Z.mod_pos_bound w (2 ^ (k + 1)) ltac:(lia)) as Hm. set (m := w mod _) in *.
  pose proof (Z.log2_nonneg m). assert (Z.log2 m < k + 1) by (apply Z.log2_lt_pow2; lia). split; [lia|].
  assert (forall i, i <= k -> Z.testbit w i = Z.testbit m i) as Hb by (intros; unfold m; rewrite Z.mod_pow2_bits_low by lia; done).
  split; [rewrite Hb by lia; apply Z.bit_log2; lia|]. intros i Hi. rewrite Hb by lia. apply Z.bits_above_log2; lia.
Qed.

Lemma low_bits_zero w k i : 0 <= i <= k -> w mod 2 ^ (k + 1) = 0 -> Z.testbit w i = false.
Proof. intros Hi E. rewrite <- (Z.mod_pow2_bits_low w (k + 1) i) by lia. by rewrite E, Z.bits_0. Qed.

(** The bits of a word stand for 32 buckets, the highest bit for the first. *)
Definition bits_ok (bits : list Z) (N : Z -> bool) : Prop :=
  length bits = 5%nat /\
  forall i, 0 <= i < 160 -> exists w, bits !! Z.to_nat (i / 32) = Some w /\ 0 <= w < 2 ^ 32 /\ Z.testbit w (31 - i mod 32) = N i.

Lemma bits_word bits N w : bits_ok bits N -> 0 <= w < 5 ->
  exists x, bits !! Z.to_nat w = Some x /\ 0 <= x < 2 ^ 32 /\ forall j, 0 <= j < 32 -> Z.testbit x (31 - j) = N (32 * w + j).
Proof.
  intros [_ Hb] Hw. destruct (Hb (32 * w) ltac:(lia)) as (x & Hx & Hr & _). replace (32 * w / 32) with w in Hx by (rewrite Z.mul_comm, Z.div_mul; lia).
  exists x. split_and!; [done|lia..|]. intros j Hj. destruct (Hb (32 * w + j) ltac:(lia)) as (y & Hy & _ & E).
  replace (32 * w + j) with (j + w * 32) in Hy, E by lia. rewrite Z.div_add, Z.div_small, Z.add_0_l in Hy by lia.
  rewrite Z.mod_add, Z.mod_small in E by lia. rewrite Hx in Hy. injection Hy as <-. rewrite E. f_equal. lia.
Qed.

Lemma bits_update bits N i w (b : bool) : bits_ok bits N -> 0 <= i < 160 -> 0 <= w < 2 ^ 32 ->
  (forall j, 0 <= j < 32 -> Z.testbit w (31 - j) = if decide (j = i mod 32) then b else N (32 * (i / 32) + j)) ->
  bits_ok (<[Z.to_nat (i / 32) := w]> bits) (<[i := b]> N).
Proof.
  intros [Hl Hb] Hi Hw Ht. split; [by rewrite length_insert|]. intros k Hk.
  assert (forall x, 0 <= x < 160 -> 0 <= x / 32 < 5) as Hd by (intros; split; [apply Z.div_pos; lia|apply Z.div_lt_upper_bound; lia]).
  pose proof (Hd i Hi). pose proof (Hd k Hk). pose proof (Z.div_mod k 32 ltac:(lia)) as Ek. pose proof (Z.mod_pos_bound k 32 ltac:(lia)).
  destruct (decide (k / 32 = i / 32)) as [E|E].
  - exists w. rewrite E, list_lookup_insert_eq by lia. split_and!; [done|lia..|]. rewrite Ht by lia.
    destruct (decide (k mod 32 = i mod 32)) as [E'|E'].
    + replace k with i by (pose proof (Z.div_mod i 32 ltac:(lia)); lia). by rewrite fn_lookup_insert.
    + rewrite fn_lookup_insert_ne by congruence. f_equal. lia.
  - rewrite list_lookup_insert_ne by lia. rewrite fn_lookup_insert_ne by congruence. by apply Hb.
Qed.

Section find.
Context {P : Type} `{PageOps P}.
Implicit Types (s : heap P).

(** The first bucket from [index] on that has its bit set. *)
Definition first_from (N : Z -> bool) (index r : Z) : Prop :=
  (r = -1 /\ forall i, index <= i < 160 -> N i = false) \/ (index <= r < 160 /\ N r = true /\ forall i, index <= i < r -> N i = false).

Lemma first_from_skip N a b r : (forall i, a <= i < b -> N i = false) -> first_from N b r -> a <= b -> first_from N a r.
Proof.
  intros Hab [[-> Hn]|(Hr & HN & Hn)] Hle; [left|right].
  - split; [done|]. intros i Hi. destruct (Z.lt_ge_cases i b); [apply Hab|apply Hn]; lia.
  - split_and!; [lia..|done|]. intros i Hi. destruct (Z.lt_ge_cases i b); [apply Hab|apply Hn]; lia.
Qed.

(** The part of a word from one bit on. *)
Lemma first_in_word N x w j : 0 <= x < 2 ^ 32 -> 0 <= j < 32 -> 0 <= w < 5 -> (forall j, 0 <= j < 32 -> Z.testbit x (31 - j) = N (32 * w + j)) ->
  let m := x mod 2 ^ (31 - j + 1) in
  if m =? 0 then forall i, 32 * w + j <= i < 32 * w + 32 -> N i = false else first_from N (32 * w + j) (32 * w + clz32 m).
Proof.
  intros Hx Hj Hw Hb m. destruct (Z.eqb_spec m 0) as [E|E].
  - intros i Hi. replace i with (32 * w + (i - 32 * w)) by lia. rewrite <- Hb by lia. by apply (low_bits_zero _ (31 - j)); [lia|].
  - pose proof (low_bits_log2 x (31 - j) ltac:(lia) ltac:(lia) E) as (Hr & Ht & Hn). fold m in Hr, Ht, Hn. unfold clz32. right. split; [lia|]. split.
    + rewrite <- Hb by lia. by replace (31 - (31 - Z.log2 m)) with (Z.log2 m) by lia.
    + intros i Hi. replace i with (32 * w + (i - 32 * w)) by lia. rewrite <- Hb by lia. apply Hn. lia.
Qed.

Lemma find_nonempty_word_wp n N w s : bits_ok (free_list_bits s) N -> 0 <= w -> 5 - w <= Z.of_nat n ->
  wp (find_nonempty_word n (32 * w)) (fun r s' => s' = s /\ first_from N (32 * w) r) s.
Proof.
  revert w. induction n as [|n IH]; intros w Hb Hw Hn; cbn [find_nonempty_word]; change NUMBER_OF_BUCKETS with 136; destruct (Z.leb_spec (32 * w) 136); try lia.
  1,3: wp_step; split; [done|]; left; split; [done|]; intros; lia.
  rewrite Z.shiftr_div_pow2 by lia. change (2 ^ 5) with 32. replace (32 * w / 32) with w by (rewrite Z.mul_comm, Z.div_mul; lia).
  destruct (bits_word _ _ w Hb ltac:(lia)) as (x & Hx & Hr & Ht). wp_step. eapply get_entry_wp; [lia|done|].
  pose proof (first_in_word N x w 0 Hr ltac:(lia) ltac:(lia) Ht) as Hf. cbv zeta in Hf. change (31 - 0 + 1) with 32 in Hf. rewrite Z.mod_small in Hf by lia.
  rewrite Z.add_0_r in Hf. destruct (Z.eqb_spec x 0) as [E|E]; cbn [negb]; [|by wp_step].
  replace (32 * w + 32) with (32 * (w + 1)) in * by lia. eapply wp_mono; [apply IH; [done|lia..]|]. intros r s' [-> Hfr]. split; [done|].
  apply (first_from_skip _ _ (32 * (w + 1))); [done..|lia].
Qed.

Lemma bucket_mask k w : 0 <= k < 32 -> 0 <= w -> Z.land (u32 (u32 (Z.shiftl 1 k - 1) * 2 + 1)) w = w mod 2 ^ (k + 1).
Proof.
  intros Hk Hw. rewrite Z.shiftl_1_l. assert (2 ^ k <= 2 ^ 31) by (apply Z.pow_le_mono_r; lia). assert (0 < 2 ^ k) by lia.
  rewrite (u32_small (2 ^ k - 1)), u32_small by lia. rewrite <- Z.land_ones by lia. rewrite Z.land_comm. f_equal.
  rewrite Z.ones_equiv, Z.pow_add_r by lia. lia.
Qed.

Lemma find_nonempty_bucket_wp N index s : bits_ok (free_list_bits s) N -> 0 <= index < NUMBER_OF_BUCKETS ->
  wp (find_nonempty_bucket index) (fun r s' => s' = s /\ first_from N index r) s.
Proof.
  intros Hb Hi. change NUMBER_OF_BUCKETS with 136 in Hi. pose proof (Z.div_mod index 32 ltac:(lia)) as E.
  pose proof (Z.mod_pos_bound index 32 ltac:(lia)) as Hm. unfold find_nonempty_bucket. rewrite Z.shiftr_div_pow2 by lia. change (2 ^ 5) with 32.
  replace (Z.land index 0x1f) with (index mod 32) by (symmetry; apply (Z.land_ones index 5); lia).
  replace (Z.land index (Z.lnot 0x1f)) with (32 * (index / 32))
    by (rewrite <- Z.ldiff_land; change 0x1f with (Z.ones 5); rewrite Z.ldiff_ones_r, Z.shiftl_mul_pow2, Z.shiftr_div_pow2 by lia; change (2 ^ 5) with 32; lia).
  replace (ROUNDUP (index + 1) 32) with (32 * (index / 32 + 1)).
  2:{ unfold ROUNDUP. change 32 with (2 ^ 5) at 4. rewrite land_mask, u64_small by (try apply u64_range; lia). change (2 ^ 5) with 32.
      rewrite Z.mul_comm. f_equal. apply (Z.div_unique _ _ _ (index mod 32)); lia. }
  set (j := index mod 32) in *. set (w := index / 32) in *.
  destruct (bits_word _ _ w Hb ltac:(lia)) as (x & Hx & Hr & Ht). wp_step. eapply get_entry_wp; [lia|done|]. cbv zeta. rewrite bucket_mask by lia.
  pose proof (first_in_word N x w j Hr ltac:(lia) ltac:(lia) Ht) as Hf. cbv zeta in Hf.
  destruct (Z.eqb_spec (x mod 2 ^ (31 - j + 1)) 0) as [E0|E0]; cbn [negb].
  - eapply wp_mono; [apply find_nonempty_word_wp; [done|lia..]|]. intros r s' [-> Hfr]. split; [done|].
    apply (first_from_skip _ _ (32 * (w + 1))); [|done|lia]. intros. apply Hf. lia.
  - wp_step. split; [done|]. by rewrite E.
Qed.
End find.

(** ** Lists that run through memory *)

(** The links of [l] in memory, with [p] before and [n] after it. *)
Fixpoint dseg (m : mem) (p : Z) (l : list Z) (n : Z) : Prop :=
  match l with
  | [] => True
  | a :: l => word m (a + 16) = List.hd n l /\ word m (a + 24) = p /\ dseg m a l n
  end.

Lemma last_cons (a p : Z) l : List.last (a :: l) p = List.last l a.
Proof. revert a p. induction l as [|b l IH]; intros a p; [done|]. change (List.last (b :: l) p = List.last (b :: l) a). by rewrite !IH. Qed.

Lemma hd_app (n : Z) l1 l2 : List.hd n (l1 ++ l2) = List.hd (List.hd n l2) l1.
Proof. by destruct l1. Qed.

Lemma last_elem (p : Z) l : List.last l p = p \/ List.last l p ∈ l.
Proof. revert p. induction l as [|a l IH]; intros p; [by left|]. rewrite last_cons. destruct (IH a) as [->|]; right; set_solver. Qed.

Lemma dseg_app m p l1 l2 n : dseg m p (l1 ++ l2) n <-> dseg m p l1 (List.hd n l2) /\ dseg m (List.last l1 p) l2 n.
Proof. revert p. induction l1 as [|a l1 IH]; intros p; cbn [app dseg]; [naive_solver|]. rewrite IH, hd_app, last_cons. naive_solver. Qed.

Lemma dseg_frame m m' p l n : (forall a, a ∈ l -> word m' (a + 16) = word m (a + 16) /\ word m' (a + 24) = word m (a + 24)) ->
  dseg m p l n -> dseg m' p l n.
Proof.
  revert p. induction l as [|a l IH]; intros p Hf; [done|]. cbn [dseg]. intros (H1 & H2 & H3). destruct (Hf a ltac:(set_solver)) as [-> ->].
  split_and!; [done..|]. apply IH; [|done]. intros. apply Hf. set_solver.
Qed.

Definition apart (a b : Z) : Prop := a + 32 <= b \/ b + 32 <= a.

Lemma apart_sym a b : apart a b -> apart b a.
Proof. unfold apart. lia. Qed.

(** A node is apart from all others of its list. *)
Lemma apart_others l1 q l2 x : NoDup (l1 ++ q :: l2) -> (forall x y, x ∈ l1 ++ q :: l2 -> y ∈ l1 ++ q :: l2 -> x <> y -> apart x y) ->
  x ∈ l1 ++ l2 -> apart x q.
Proof.
  intros Hnd Hsep Hx. apply Hsep.
  - rewrite elem_of_app, elem_of_cons. apply elem_of_app in Hx. tauto.
  - rewrite elem_of_app, elem_of_cons. tauto.
  - intros ->. rewrite <- Permutation_middle in Hnd. by apply list.NoDup_cons in Hnd as [? _].
Qed.

Lemma dseg_put m p l n q x v : (x = q + 16 \/ x = q + 24) -> (forall a, a ∈ l -> apart a q) -> dseg m p l n -> dseg (<[x := v]> m) p l n.
Proof. intros Hx Hs. apply dseg_frame. intros a Ha. specialize (Hs a Ha). unfold apart in Hs. rewrite !word_put_ne by lia. done. Qed.

Lemma dseg_set_next m p l q n n' : (forall a, a ∈ l -> apart a q) -> dseg m p (l ++ [q]) n -> dseg (<[q + 16 := n']> m) p (l ++ [q]) n'.
Proof.
  intros Hs. rewrite !dseg_app. cbn [dseg List.hd]. intros (H1 & _ & H2 & _). split; [by apply (dseg_put _ _ _ _ q); [left|..]|].
  rewrite word_put_eq, word_put_ne by lia. done.
Qed.

Lemma dseg_set_prev m p p' q l n : (forall a, a ∈ l -> apart a q) -> dseg m p (q :: l) n -> dseg (<[q + 24 := p']> m) p' (q :: l) n.
Proof.
  intros Hs. cbn [dseg]. intros (H1 & _ & H2). rewrite word_put_eq, word_put_ne by lia. split_and!; [done..|]. by apply (dseg_put _ _ _ _ q); [right|..].
Qed.

(** Linking what is before a node with what is after it. *)
Definition relink (p n : Z) (m : mem) : mem :=
  let m := if p =? 0 then m else <[p + 16 := n]> m in
  if n =? 0 then m else <[n + 24 := p]> m.

Lemma relink_other p n m x : (p <> 0 -> x <> p + 16) -> (n <> 0 -> x <> n + 24) -> word (relink p n m) x = word m x.
Proof. intros Hp Hn. unfold relink. destruct (Z.eqb_spec p 0), (Z.eqb_spec n 0); rewrite ?word_put_ne; try done; auto. Qed.

(** Taking a node out of a list. *)
Lemma dseg_unlink m l1 a l2 : NoDup (l1 ++ a :: l2) -> (forall x, x ∈ l1 ++ a :: l2 -> 0 < x) ->
  (forall x y, x ∈ l1 ++ a :: l2 -> y ∈ l1 ++ a :: l2 -> x <> y -> apart x y) ->
  dseg m 0 (l1 ++ a :: l2) 0 -> dseg (relink (List.last l1 0) (List.hd 0 l2) m) 0 (l1 ++ l2) 0.
Proof.
  intros Hnd Hpos Hsep Hd. assert (NoDup (l1 ++ l2)) as Hnd' by (rewrite <- Permutation_middle in Hnd; by apply list.NoDup_cons in Hnd as [_ ?]).
  assert (forall x, x ∈ l1 ++ l2 -> x ∈ l1 ++ a :: l2) as Hin by (intros x; rewrite !elem_of_app, elem_of_cons; tauto).
  assert (forall x y, x ∈ l1 ++ l2 -> y ∈ l1 ++ l2 -> x <> y -> apart x y) as Hsep' by auto.
  assert (forall x, x ∈ l1 ++ l2 -> 0 < x) as Hpos' by auto. clear Hnd Hpos Hsep Hin.
  apply dseg_app in Hd as [H1 (H2 & H3 & H4)]. cbn [List.hd] in H1. unfold relink. destruct l1 as [|p l1 _] using rev_ind; [|rewrite List.last_last in *].
  - destruct l2 as [|q l2]; [done|]. cbn [List.hd List.last app] in *. rewrite (proj2 (Z.eqb_neq q 0)) by (specialize (Hpos' q ltac:(left)); lia).
    cbn. apply (dseg_set_prev _ a); [|done]. intros. by apply (apart_others [] q l2).
  - assert (0 < p) by (apply Hpos'; rewrite !elem_of_app; left; right; left). rewrite (proj2 (Z.eqb_neq p 0)) by lia.
    assert (forall x, x ∈ l1 ++ l2 -> apart x p) as Sp by (intros x Hx; apply (apart_others l1 p l2); rewrite <- app_assoc in *; done).
    destruct l2 as [|q l2]; cbn [List.hd].
    + cbn. rewrite app_nil_r. apply (dseg_set_next _ _ _ _ a); [|done]. intros. apply Sp. rewrite app_nil_r. done.
    + assert (0 < q) by (apply Hpos'; rewrite elem_of_app; right; left). rewrite (proj2 (Z.eqb_neq q 0)) by lia. rewrite dseg_app. cbn [List.hd]. rewrite List.last_last.
      pose proof (fun x => apart_others (l1 ++ [p]) q l2 x Hnd' Hsep') as Sq. split.
      * apply (dseg_put _ _ _ _ q); [by right|intros; apply Sq; apply elem_of_app; by left|].
        apply (dseg_set_next _ _ _ _ a); [|done]. intros. apply Sp. apply elem_of_app. by left.
      * apply (dseg_set_prev _ a); [intros; apply Sq; apply elem_of_app; by right|].
        apply (dseg_put _ _ _ _ p); [by left| |done]. intros. apply Sp. apply elem_of_app. by right.
Qed.

(** ** The lists of a state *)

Section lists.
Context {P : Type} `{PageOps P}.
Implicit Types (s : heap P) (Fr : gmap Z Z) (F : Z -> list Z) (a b i z : Z).

(** An area that can be in a list. *)
Definition listable s a z : Prop :=
  0 < a < 2 ^ 64 - 32 /\ a mod 8 = 0 /\ 32 <= z <= BIG /\ (a + 16) / 4096 ∈ hp_mapped s /\ (a + 24) / 4096 ∈ hp_mapped s.

(** The lists hold the areas of [Fr], [F i] being the list of bucket [i]. *)
Record lists Fr F s : Prop := {
  li_len : length (free_lists s) = 136%nat;
  li_head : forall i, 0 <= i < 136 -> free_lists s !! Z.to_nat i = Some (List.hd 0 (F i));
  li_bits : bits_ok (free_list_bits s) (fun i => bool_decide (F i <> []));
  li_seg : forall i, dseg (hp_mem s) 0 (F i) 0;
  li_nodup : forall i, NoDup (F i);
  li_in : forall i a, a ∈ F i <-> exists z, Fr !! a = Some z /\ bucket_of (z - 16) = i;
  li_ok : forall a z, Fr !! a = Some z -> listable s a z;
  li_apart : forall a b z y, Fr !! a = Some z -> Fr !! b = Some y -> a <> b -> apart a b;
  li_sum : hp_remaining s = msum id Fr }.

(** The words of the links. *)
Definition link Fr (x : Z) : Prop := exists a, is_Some (Fr !! a) /\ (x = a + 16 \/ x = a + 24).

Lemma listable_usable s a z : listable s a z -> usable s (a + 16) = true /\ usable s (a + 24) = true.
Proof.
  intros (Ha & Hm & _ & H1 & H2). rewrite !usable_spec. split_and!; [|done| |done].
  - rewrite Z.add_mod, Hm by lia. done.
  - rewrite Z.add_mod, Hm by lia. done.
Qed.

Lemma listable_bucket s a z : listable s a z -> 0 <= bucket_of (z - 16) < 136.
Proof. intros (_ & _ & Hz & _). apply (bucket_of_range (z - 16)). lia. Qed.

Lemma li_elem Fr F s i a : lists Fr F s -> a ∈ F i -> is_Some (Fr !! a) /\ 0 < a < 2 ^ 64 - 32 /\ usable s (a + 16) = true /\ usable s (a + 24) = true.
Proof.
  intros L (z & Hz & _)%(li_in _ _ _ L). pose proof (li_ok _ _ _ L a z Hz) as Hl. pose proof (listable_usable _ _ _ Hl). destruct Hl as [? _]. eauto.
Qed.

(** The ends of a list are 0 when there is nothing. *)
Lemma li_zero Fr F s i a : lists Fr F s -> a = 0 \/ a ∈ F i -> 0 <= a < 2 ^ 64 /\ (a <> 0 -> a ∈ F i).
Proof. intros L [->|Ha]; [done|]. apply (li_elem _ _ _ _ _ L) in Ha as Hb. split; [lia|done]. Qed.

Lemma li_apart_in Fr F s i j a b : lists Fr F s -> a ∈ F i -> b ∈ F j -> a <> b -> apart a b.
Proof. intros L (z & Hz & _)%(li_in _ _ _ L) (y & Hy & _)%(li_in _ _ _ L). by eapply li_apart. Qed.

Lemma li_bucket_unique Fr F s i j a : lists Fr F s -> a ∈ F i -> a ∈ F j -> i = j.
Proof. intros L (z & Hz & <-)%(li_in _ _ _ L) (y & Hy & <-)%(li_in _ _ _ L). congruence. Qed.

Lemma set_list_wp i v x Q s : 0 <= i -> free_lists s !! Z.to_nat i = Some x -> Q tt (on_lists (<[Z.to_nat i := v]>) s) -> wp (set_list i v) Q s.
Proof. intros Hi Hx HQ. unfold set_list. wp_step. eapply get_entry_wp; [done..|]. by wp_step. Qed.

(** Setting and clearing the bit of a bucket. *)
Lemma bit_op_wp (op : Z -> Z -> Z) (v : bool) i N Q s : 
  (forall w n, 0 <= op w n < 2 ^ 32) -> (forall w n j, 0 <= n < 32 -> 0 <= j < 32 -> Z.testbit (op w n) j = if decide (j = n) then v else Z.testbit w j) ->
  0 <= i < 136 -> bits_ok (free_list_bits s) N ->
  (forall bits, bits_ok bits (<[i := v]> N) -> Q tt (on_bits (fun _ => bits) s)) ->
  wp (do w <- get_entry free_list_bits (Z.shiftr i 5); set_bits (Z.shiftr i 5) (op w (31 - Z.land i 0x1f))) Q s.
Proof.
  intros Hr Ht Hi Hb HQ. rewrite Z.shiftr_div_pow2 by lia. change (2 ^ 5) with 32.
  replace (Z.land i 0x1f) with (i mod 32) by (symmetry; apply (Z.land_ones i 5); lia).
  pose proof (Z.div_mod i 32 ltac:(lia)) as E. pose proof (Z.mod_pos_bound i 32 ltac:(lia)) as Hm.
  destruct (bits_word _ _ (i / 32) Hb ltac:(lia)) as (x & Hx & Hxr & Hxt).
  wp_step. eapply get_entry_wp; [lia|done|]. unfold set_bits. wp_step. eapply get_entry_wp; [lia|done|]. wp_step.
  specialize (HQ (<[Z.to_nat (i / 32) := op x (31 - i mod 32)]> (free_list_bits s))). apply HQ. apply bits_update; [done|lia|apply Hr|].
  intros j Hj. rewrite Ht, <- Hxt by lia. destruct (decide (31 - j = 31 - i mod 32)), (decide (j = i mod 32)); [done|lia..|done].
Qed.

Lemma set_free_list_bit_wp i N Q s : 0 <= i < 136 -> bits_ok (free_list_bits s) N ->
  (forall bits, bits_ok bits (<[i := true]> N) -> Q tt (on_bits (fun _ => bits) s)) -> wp (set_free_list_bit i) Q s.
Proof.
  apply (bit_op_wp bit_set true); [apply bit_set_range|]. intros w n j Hn Hj. rewrite bit_set_spec by done. rewrite (proj2 (Z.ltb_lt j 32)) by lia.
  destruct (decide (j = n)) as [->|]; [by rewrite Z.eqb_refl, orb_true_r|]. rewrite (proj2 (Z.eqb_neq j n)) by done. by rewrite orb_false_r, andb_true_r.
Qed.

Lemma clear_free_list_bit_wp i N Q s : 0 <= i < 136 -> bits_ok (free_list_bits s) N ->
  (forall bits, bits_ok bits (<[i := false]> N) -> Q tt (on_bits (fun _ => bits) s)) -> wp (clear_free_list_bit i) Q s.
Proof.
  apply (bit_op_wp bit_clear false); [apply bit_clear_range|]. intros w n j Hn Hj. rewrite bit_clear_spec by lia. rewrite (proj2 (Z.ltb_lt j 32)) by lia.
  destruct (decide (j = n)) as [->|]; [by rewrite Z.eqb_refl, andb_false_r|]. rewrite (proj2 (Z.eqb_neq j n)) by done. by rewrite !andb_true_r.
Qed.

Lemma when_st_wp (c : bool) a v Q s : (c = true -> usable s a = true) -> Q tt (on_mem (fun m => if c then <[a := u64 v]> m else m) s) -> wp (when c (st a v)) Q s.
Proof. intros Hu HQ. destruct c; [by apply st_wp; auto|]. cbn. by destruct s. Qed.

Lemma li_pos Fr F s : lists Fr F s -> 0 <= msum id Fr.
Proof. intros L. apply msum_nonneg. intros a z Hz. destruct (li_ok _ _ _ L a z Hz) as (_ & _ & ? & _). unfold id. lia. Qed.

(** *** Taking an area out *)

Definition without a (l : list Z) : list Z := filter (fun x => x <> a) l.

Lemma without_id a l : a ∉ l -> without a l = l.
Proof.
  unfold without. induction l as [|x l IH]; [done|]. rewrite not_elem_of_cons. intros [Hx Hl]. rewrite filter_cons_True by congruence. by rewrite IH.
Qed.

Lemma without_middle a l1 l2 : NoDup (l1 ++ a :: l2) -> without a (l1 ++ a :: l2) = l1 ++ l2.
Proof.
  intros Hnd. rewrite <- Permutation_middle in Hnd. apply list.NoDup_cons in Hnd as [Hn _]. rewrite elem_of_app in Hn. unfold without. rewrite list.filter_app, filter_cons_False by (intros Hx; by apply Hx).
  f_equal; apply without_id; tauto.
Qed.

Lemma bits_ok_ext bits N N' : (forall i, N i = N' i) -> bits_ok bits N -> bits_ok bits N'.
Proof. intros E [Hl Hb]. split; [done|]. intros i Hi. rewrite <- E. by apply Hb. Qed.

Lemma lists_unlink Fr F s s' a z l1 l2 : let i := bucket_of (z - 16) in
  lists Fr F s -> Fr !! a = Some z -> F i = l1 ++ a :: l2 -> length (free_lists s') = 136%nat ->
  (forall j, 0 <= j < 136 -> free_lists s' !! Z.to_nat j = Some (List.hd 0 (<[i := l1 ++ l2]> F j))) ->
  bits_ok (free_list_bits s') (<[i := bool_decide (l1 ++ l2 <> [])]> (fun i => bool_decide (F i <> []))) ->
  hp_mem s' = relink (List.last l1 0) (List.hd 0 l2) (hp_mem s) -> hp_mapped s' = hp_mapped s -> hp_remaining s' = hp_remaining s - z ->
  lists (delete a Fr) (<[i := l1 ++ l2]> F) s'.
Proof.
  intros i L Hz EF Hlen Hhd Hbits Em Emap Erem. pose proof (li_nodup _ _ _ L i) as Hnd. rewrite EF in Hnd.
  assert (Hin : forall x, x ∈ l1 ++ l2 <-> x ∈ F i /\ x <> a).
  { intros x. rewrite EF. rewrite <- Permutation_middle in Hnd |- *. apply list.NoDup_cons in Hnd as [Ha _]. rewrite elem_of_cons. split; [|tauto]. intros Hx. split; [by right|]. intros ->. done. }
  assert (forall j x, x ∈ <[i := l1 ++ l2]> F j <-> x ∈ F j /\ x <> a) as Hin'.
  { intros j x. destruct (decide (j = i)) as [->|Hj]; [by rewrite fn_lookup_insert|]. rewrite fn_lookup_insert_ne by done. split; [|tauto]. intros Hx. split; [done|].
    intros ->. apply Hj. apply (li_bucket_unique _ _ _ _ _ a L Hx). apply (li_in _ _ _ L). eauto. }
  split; [done|done| | | | | | |].
  - eapply bits_ok_ext; [|exact Hbits]. intros j. cbn. destruct (decide (j = i)) as [->|]; [by rewrite !fn_lookup_insert|by rewrite !fn_lookup_insert_ne].
  - intros j. rewrite Em. destruct (decide (j = i)) as [->|Hj].
    + rewrite fn_lookup_insert. apply (dseg_unlink _ _ a); rewrite <- ?EF; [by apply L|..|by apply L].
      * intros x Hx. pose proof (li_elem _ _ _ _ _ L Hx). lia.
      * intros x y Hx Hy. by eapply li_apart_in.
    + rewrite fn_lookup_insert_ne by done. eapply dseg_frame; [|apply L]. intros x Hx.
      assert (forall q, q = 0 \/ q ∈ l1 ++ l2 -> q <> 0 -> apart x q) as Hq.
      { intros q [->|Hq] Hq0; [done|]. apply Hin in Hq as [Hq _]. apply (li_apart_in _ _ _ _ _ _ _ L Hx Hq). intros ->. by apply Hj, (li_bucket_unique _ _ _ _ _ q L). }
      assert (List.last l1 0 = 0 \/ List.last l1 0 ∈ l1 ++ l2) as H1 by (destruct (last_elem 0 l1); [by left|right; apply elem_of_app; by left]).
      assert (List.hd 0 l2 = 0 \/ List.hd 0 l2 ∈ l1 ++ l2) as H2 by (destruct l2; [by left|right; apply elem_of_app; right; left]).
      pose proof (Hq _ H1) as A1. pose proof (Hq _ H2) as A2. unfold apart in *. split; apply relink_other; intros Hne; specialize (A1); [specialize (A1 Hne)|specialize (A2 Hne)|specialize (A1 Hne)|specialize (A2 Hne)]; lia.
  - intros j. destruct (decide (j = i)) as [->|]; [rewrite fn_lookup_insert|rewrite fn_lookup_insert_ne by done; apply L].
    rewrite <- Permutation_middle in Hnd. by apply list.NoDup_cons in Hnd as [_ ?].
  - intros j x. rewrite Hin', (li_in _ _ _ L). setoid_rewrite lookup_delete_Some. naive_solver.
  - intros x y [_ Hx]%lookup_delete_Some. pose proof (li_ok _ _ _ L x y Hx) as Hl. unfold listable in *. by rewrite Emap.
  - intros x y u v [_ Hx]%lookup_delete_Some [_ Hy]%lookup_delete_Some. by eapply li_apart.
  - rewrite Erem, (li_sum _ _ _ L), (msum_delete id Fr a z Hz). unfold id. lia.
Qed.

(** The head of the list and the bit, when the first area is taken. *)
Lemma unlink_head_wp F i a l1 l2 Q s : F i = l1 ++ a :: l2 -> NoDup (l1 ++ a :: l2) -> (forall x, x ∈ F i -> 0 < x) -> 0 <= i < 136 ->
  length (free_lists s) = 136%nat -> (forall j, 0 <= j < 136 -> free_lists s !! Z.to_nat j = Some (List.hd 0 (F j))) ->
  bits_ok (free_list_bits s) (fun i => bool_decide (F i <> [])) ->
  (forall fl bits, length fl = 136%nat -> (forall j, 0 <= j < 136 -> fl !! Z.to_nat j = Some (List.hd 0 (<[i := l1 ++ l2]> F j))) ->
    bits_ok bits (<[i := bool_decide (l1 ++ l2 <> [])]> (fun i => bool_decide (F i <> []))) -> Q tt (on_bits (fun _ => bits) (on_lists (fun _ => fl) s))) ->
  wp (when (List.hd 0 (l1 ++ a :: l2) =? a) (set_list i (List.hd 0 l2) ;; when (List.hd 0 l2 =? 0) (clear_free_list_bit i))) Q s.
Proof.
  intros EF Hnd Hpos Hi Hlen Hhd Hb HQ. destruct l1 as [|x l1].
  - cbn [app List.hd] in *. rewrite Z.eqb_refl. cbn [when]. wp_step. eapply set_list_wp; [lia|by apply Hhd|].
    assert (length (<[Z.to_nat i := List.hd 0 l2]> (free_lists s)) = 136%nat) as Hlen' by by rewrite length_insert.
    assert (forall j, 0 <= j < 136 -> <[Z.to_nat i := List.hd 0 l2]> (free_lists s) !! Z.to_nat j = Some (List.hd 0 (<[i := l2]> F j))) as Hhd'.
    { intros j Hj. destruct (decide (j = i)) as [->|]; [rewrite list_lookup_insert_eq, fn_lookup_insert by lia; done|].
      rewrite list_lookup_insert_ne, fn_lookup_insert_ne by lia. by apply Hhd. }
    specialize (HQ _ (free_list_bits s) Hlen' Hhd') as HQ1. destruct l2 as [|n l2].
    + cbn. eapply clear_free_list_bit_wp; [done|exact Hb|]. intros bits Hbits. by apply (HQ _ _ Hlen' Hhd').
    + cbn [List.hd] in *. rewrite (proj2 (Z.eqb_neq n 0)) by (specialize (Hpos n); rewrite EF, !elem_of_cons in Hpos; lia). cbn. apply HQ1.
      eapply bits_ok_ext; [|exact Hb]. intros j. cbn. destruct (decide (j = i)) as [->|]; [rewrite fn_lookup_insert|by rewrite fn_lookup_insert_ne]. by rewrite EF.
  - cbn [app List.hd] in *. apply list.NoDup_cons in Hnd as [Hx _]. rewrite (proj2 (Z.eqb_neq x a)) by (intros ->; apply Hx, elem_of_app; right; left). cbn [when]. wp_step.
    specialize (HQ (free_lists s) (free_list_bits s) Hlen). destruct s. apply HQ.
    + intros j Hj. rewrite Hhd by done. destruct (decide (j = i)) as [->|]; [rewrite fn_lookup_insert|by rewrite fn_lookup_insert_ne]. by rewrite EF.
    + eapply bits_ok_ext; [|exact Hb]. intros j. cbn. destruct (decide (j = i)) as [->|]; [rewrite fn_lookup_insert|by rewrite fn_lookup_insert_ne]. by rewrite EF.
Qed.

Lemma unlink_free_wp Fr F s a z : lists Fr F s -> Fr !! a = Some z -> usable s (a + 8) = true -> word (hp_mem s) (a + 8) = z -> msum id Fr < 4000000000 ->
  wp (unlink_free a (bucket_of (z - 16))) (fun _ s' => keeps (link Fr) s s' /\ exists F', lists (delete a Fr) F' s' /\ forall j, F' j = without a (F j)) s.
Proof.
  intros L Hz Hu Hw Hbound. set (i := bucket_of (z - 16)). pose proof (li_ok _ _ _ L a z Hz) as Hla. pose proof (listable_bucket _ _ _ Hla) as Hi. fold i in Hi.
  pose proof (listable_usable _ _ _ Hla) as [Hu1 Hu2]. assert (a ∈ F i) as Hin by (apply (li_in _ _ _ L); eauto).
  apply list_elem_of_split in Hin as (l1 & l2 & EF). pose proof (li_seg _ _ _ L i) as Hd. rewrite EF in Hd. apply dseg_app in Hd as [_ (Hn & Hp & _)].
  pose proof (li_nodup _ _ _ L i) as Hnd. pose proof (li_head _ _ _ L i Hi) as Hhd. rewrite EF in Hnd, Hhd.
  assert (0 <= msum id (delete a Fr)) as Hpos.
  { apply msum_nonneg. intros k w [_ Hk]%lookup_delete_Some. destruct (li_ok _ _ _ L k w Hk) as (_ & _ & ? & _). unfold id. lia. }
  pose proof (msum_delete id Fr a z Hz) as Esum. unfold id in Esum at 2. destruct Hla as (Ha & _ & Hzr & _).
  assert (u64 (hp_remaining s - z) = hp_remaining s - z) as Eu by (apply u64_small; rewrite (li_sum _ _ _ L); lia).
  assert (forall q, q = 0 \/ q ∈ l1 ++ l2 -> 0 <= q < 2 ^ 64 /\ (q <> 0 -> usable s (q + 16) = true /\ usable s (q + 24) = true /\ is_Some (Fr !! q))) as Hq.
  { intros q Hq. destruct (li_zero _ _ _ i q L) as [? Hq']; [rewrite EF; destruct Hq as [|Hq]; [by left|right]; rewrite elem_of_app, elem_of_cons in *; tauto|].
    split; [done|]. intros Hq0. pose proof (li_elem _ _ _ _ _ L (Hq' Hq0)). tauto. }
  destruct (Hq (List.last l1 0)) as [Rp Up]; [destruct (last_elem 0 l1); [by left|right; apply elem_of_app; by left]|].
  destruct (Hq (List.hd 0 l2)) as [Rn Un]; [destruct l2; [by left|right; apply elem_of_app; right; left]|].
  unfold unlink_free, hdr_size, free_next, free_prev. wp_step. apply ld_wp; [done|]. rewrite Hw. wp_step. wp_step. wp_step. wp_step. wp_step. wp_step.
  { cbn. rewrite Eu, (li_sum _ _ _ L). apply Z.ltb_lt. lia. }
  wp_step. apply ld_wp; [done|]. cbn [hp_mem on_remaining]. rewrite Hn. wp_step. apply ld_wp; [done|]. cbn [hp_mem on_remaining]. rewrite Hp. wp_step.
  eapply get_entry_wp; [lia|exact Hhd|]. wp_step. eapply (unlink_head_wp F); [done|done|intros x Hx; pose proof (li_elem _ _ _ _ _ L Hx); lia|done|apply L|apply L|apply L|].
  intros fl bits Hlen Hhd' Hbits. wp_step. apply when_st_wp; [intros Hne; apply Up; by apply negb_true_iff, Z.eqb_neq in Hne|].
  apply when_st_wp; [intros Hne; apply Un; by apply negb_true_iff, Z.eqb_neq in Hne|]. rewrite !u64_small by done. set (s' := on_mem _ _).
  assert (hp_mem s' = relink (List.last l1 0) (List.hd 0 l2) (hp_mem s)) as Em by (cbn; unfold relink; by destruct (_ =? 0), (_ =? 0)).
  split; [|exists (<[i := l1 ++ l2]> F); split; [by apply (lists_unlink Fr F s s' a z l1 l2)|]].
  2:{ intros j. destruct (decide (j = i)) as [->|Hj]; [rewrite fn_lookup_insert, EF; symmetry; by apply without_middle|]. rewrite fn_lookup_insert_ne by done. symmetry. apply without_id.
      intros Hj'. apply Hj, (li_bucket_unique _ _ _ _ _ a L Hj'). rewrite EF. apply elem_of_app. right. left. }
  split; try done. intros x Hx. rewrite Em. apply relink_other; intros Hne ->; apply Hx; eexists; (split; [|by eauto]).
  - by apply Up.
  - by apply Un.
Qed.

Lemma unlink_free_unknown_bucket_wp Fr F s a z : lists Fr F s -> Fr !! a = Some z -> usable s (a + 8) = true -> word (hp_mem s) (a + 8) = z -> msum id Fr < 4000000000 ->
  wp (unlink_free_unknown_bucket a) (fun _ s' => keeps (link Fr) s s' /\ exists F', lists (delete a Fr) F' s' /\ forall j, F' j = without a (F j)) s.
Proof.
  intros L Hz Hu Hw Hb. destruct (li_ok _ _ _ L a z Hz) as (Ha & _ & Hzr & _). unfold unlink_free_unknown_bucket, hdr_size. wp_step. apply ld_wp; [done|].
  rewrite Hw. unfold BIG in Hzr. change HEADER with 16. rewrite u64_small by lia. rewrite size_to_index_freeing_eq by (unfold BIG; lia). wp_step. wp_step. by eapply unlink_free_wp.
Qed.

(** *** Putting an area in *)

Lemma tag_as_free_eq l : 0 <= l -> l mod 8 = 0 -> tag_as_free l = l + 1.
Proof.
  intros H0 Hl. pose proof (Z.div_mod l 8 ltac:(lia)) as E. pose proof (lor_row_column (l / 8) 1 ltac:(apply Z.div_pos; lia) ltac:(lia)) as Ht.
  rewrite Z.shiftl_mul_pow2 in Ht by lia. unfold tag_as_free. replace (l / 8 * 2 ^ 3) with l in Ht by lia. lia.
Qed.

(** The memory after [create_free_area], [h] being the old head. *)
Definition free_words (a left z h : Z) (m : mem) : mem :=
  let m := <[a := left + 1]> (<[a + 8 := z]> m) in
  let m := if h =? 0 then m else <[h + 24 := a]> m in
  <[a + 24 := 0]> (<[a + 16 := h]> m).

Lemma free_words_other a left z h m x : x < a \/ a + 32 <= x -> (h <> 0 -> x <> h + 24) -> word (free_words a left z h m) x = word m x.
Proof. intros Hx Hh. unfold free_words. destruct (Z.eqb_spec h 0); rewrite ?word_put_ne; try lia; try done; auto. Qed.

Lemma free_words_header a left z h m : (h <> 0 -> apart a h) -> word (free_words a left z h m) a = left + 1 /\ word (free_words a left z h m) (a + 8) = z.
Proof.
  intros Hh. unfold free_words. unfold apart in Hh. destruct (Z.eqb_spec h 0) as [|Hn]; [|specialize (Hh Hn)].
  - rewrite !(word_put_ne _ (a + 24)), !(word_put_ne _ (a + 16)) by lia. rewrite word_put_eq, word_put_ne, word_put_eq by lia. done.
  - rewrite !(word_put_ne _ (a + 24)), !(word_put_ne _ (a + 16)), !(word_put_ne _ (h + 24)) by lia. rewrite word_put_eq, word_put_ne, word_put_eq by lia. done.
Qed.

Lemma free_words_links a left z h m : word (free_words a left z h m) (a + 16) = h /\ word (free_words a left z h m) (a + 24) = 0.
Proof. unfold free_words. rewrite word_put_eq, word_put_ne, word_put_eq by lia. done. Qed.

Lemma lists_push Fr F s s' a left z : let i := bucket_of (z - 16) in let h := List.hd 0 (F i) in
  lists Fr F s -> Fr !! a = None -> listable s a z -> (forall b y, Fr !! b = Some y -> apart a b) ->
  length (free_lists s') = 136%nat -> (forall j, 0 <= j < 136 -> free_lists s' !! Z.to_nat j = Some (List.hd 0 (<[i := a :: F i]> F j))) ->
  bits_ok (free_list_bits s') (<[i := true]> (fun i => bool_decide (F i <> []))) ->
  hp_mem s' = free_words a left z h (hp_mem s) -> hp_mapped s' = hp_mapped s -> hp_remaining s' = hp_remaining s + z ->
  lists (<[a := z]> Fr) (<[i := a :: F i]> F) s'.
Proof.
  intros i h L Hn Hla Hap Hlen Hhd Hbits Em Emap Erem.
  assert (forall j x, x ∈ F j -> apart a x) as Hap' by (intros j x (y & Hy & _)%(li_in _ _ _ L); eauto).
  assert (forall j x, x ∈ <[i := a :: F i]> F j <-> x ∈ F j \/ (j = i /\ x = a)) as Hin.
  { intros j x. destruct (decide (j = i)) as [->|]; [rewrite fn_lookup_insert, elem_of_cons|rewrite fn_lookup_insert_ne by done]; naive_solver. }
  assert (forall j, a ∉ F j) as Hna by (intros j (y & Hy & _)%(li_in _ _ _ L); congruence).
  assert (forall j l, (forall x, x ∈ l -> x ∈ F j /\ (x = h -> False)) -> forall p, dseg (hp_mem s) p l 0 -> dseg (hp_mem s') p l 0) as Hfr.
  { intros j l Hl p. apply dseg_frame. intros x Hx. destruct (Hl x Hx) as [Hxj Hxh]. pose proof (Hap' j x Hxj) as Ha. unfold apart in Ha. rewrite Em.
    assert (h <> 0 -> apart x h) as Hh by (intros Hh0; apply (li_apart_in _ _ _ j i _ _ L Hxj); [unfold h in *; destruct (F i); [done|left]|done]).
    unfold apart in Hh. split; apply free_words_other; lia. }
  split; [done|done| | | | | | |].
  - eapply bits_ok_ext; [|exact Hbits]. intros j. cbn. destruct (decide (j = i)) as [->|]; [by rewrite !fn_lookup_insert|by rewrite !fn_lookup_insert_ne].
  - intros j. destruct (decide (j = i)) as [->|Hj].
    + rewrite fn_lookup_insert. cbn [dseg]. rewrite Em. pose proof (free_words_links a left z h (hp_mem s)) as [-> ->]. split_and!; [done..|]. rewrite <- Em.
      pose proof (li_seg _ _ _ L i) as Hd. pose proof (li_nodup _ _ _ L i) as Hnd. unfold h in *. destruct (F i) as [|b l] eqn:EF; [done|]. cbn [List.hd dseg] in *.
      apply list.NoDup_cons in Hnd as [Hb _]. destruct Hd as (H1 & H2 & H3). pose proof (Hap' i b ltac:(rewrite EF; left)) as Hab. unfold apart in Hab.
      assert (0 < b) by (pose proof (li_elem _ _ _ i b L ltac:(rewrite EF; left)); lia). split_and!.
      * rewrite Em, free_words_other; [done|lia..].
      * rewrite Em. unfold free_words. rewrite (proj2 (Z.eqb_neq b 0)) by lia. rewrite !word_put_ne by lia. apply word_put_eq.
      * apply (Hfr i); [|done]. intros x Hx. rewrite EF. split; [by right|]. by intros ->.
    + rewrite fn_lookup_insert_ne by done. apply (Hfr j); [|apply L]. intros x Hx. split; [done|]. intros ->.
      apply Hj, (li_bucket_unique _ _ _ _ _ h L Hx). unfold h in *. destruct (F i); [|left]. pose proof (li_elem _ _ _ _ _ L Hx). cbn in *. lia.
  - intros j. destruct (decide (j = i)) as [->|]; [rewrite fn_lookup_insert|rewrite fn_lookup_insert_ne by done; apply L]. apply list.NoDup_cons. split; [done|apply L].
  - intros j x. rewrite Hin, (li_in _ _ _ L). setoid_rewrite lookup_insert_Some. split; [naive_solver congruence|]. intros (y & [[<- <-]|[Hne Hy]] & <-); [by right|left; eauto].
  - intros x y Hx. assert (listable s x y) as Hl; [|unfold listable in *; by rewrite Emap]. apply lookup_insert_Some in Hx as [[<- <-]|[_ Hx]]; [done|by apply L].
  - intros x y u v [[<- <-]|[_ Hx]]%lookup_insert_Some [[<- <-]|[_ Hy]]%lookup_insert_Some Hne; [done|by eapply Hap|apply apart_sym; by eapply Hap|by eapply li_apart].
  - rewrite Erem, (li_sum _ _ _ L), msum_insert by done. unfold id. lia.
Qed.

Lemma create_free_area_wp Fr F s a left z : lists Fr F s -> Fr !! a = None -> listable s a z -> (forall b y, Fr !! b = Some y -> apart a b) ->
  usable s a = true -> usable s (a + 8) = true -> 0 <= left < 2 ^ 64 - 8 -> left mod 8 = 0 -> msum id Fr + z < 2 ^ 64 ->
  wp (create_free_area a left z None) (fun _ s' => keeps (fun x => (a <= x < a + 32) \/ link Fr x) s s' /\
    word (hp_mem s') a = left + 1 /\ word (hp_mem s') (a + 8) = z /\
    exists F', lists (<[a := z]> Fr) F' s' /\ forall j, F' j = if decide (j = bucket_of (z - 16)) then a :: F j else F j) s.
Proof.
  intros L Hn Hla Hap Hu1 Hu2 Hl Hl8 Hb. pose proof (listable_usable _ _ _ Hla) as [Hu3 Hu4]. pose proof (listable_bucket _ _ _ Hla) as Hi.
  assert (bits_ok (free_list_bits s) (fun i => bool_decide (F i <> []))) as Hbits by apply L.
  pose proof Hla as (Ha & _ & Hz & _). unfold BIG in Hz. set (i := bucket_of (z - 16)) in *. set (h := List.hd 0 (F i)).
  assert (0 <= h < 2 ^ 64 /\ (h <> 0 -> usable s (h + 24) = true /\ is_Some (Fr !! h))) as [Rh Uh].
  { destruct (li_zero _ _ _ i h L) as [? Hh]; [unfold h; destruct (F i); [by left|right; left]|]. split; [done|]. intros Hh0. pose proof (li_elem _ _ _ _ _ L (Hh Hh0)). tauto. }
  unfold create_free_area. wp_step. apply st_wp; [done|]. wp_step. apply st_wp; [done|]. rewrite tag_as_free_eq, (u64_small (left + 1)), (u64_small z) by lia. wp_step. wp_step.
  change HEADER with 16. rewrite u64_small by lia. rewrite size_to_index_freeing_eq by (unfold BIG; lia). wp_step. wp_step.
  eapply set_free_list_bit_wp; [done|exact Hbits|]. intros bits Hbits'. wp_step. eapply get_entry_wp; [lia|by apply L|]. fold h. wp_step. wp_step.
  apply when_st_wp; [intros Hne; apply Uh; by apply negb_true_iff, Z.eqb_neq in Hne|]. wp_step. apply st_wp; [done|]. wp_step. apply st_wp; [done|]. wp_step.
  eapply set_list_wp; [lia|by apply L|]. wp_step. wp_step. wp_step. fold i. fold h. change (u64 0) with 0. rewrite (u64_small h), (u64_small a) by lia. set (s' := on_remaining _ _).
  assert (hp_mem s' = free_words a left z h (hp_mem s)) as Em by (cbn; unfold free_words; by destruct (_ =? 0)).
  assert (hp_remaining s' = hp_remaining s + z) as Er by (cbn; apply u64_small; rewrite (li_sum _ _ _ L); pose proof (li_pos _ _ _ L); lia).
  rewrite Em. destruct (free_words_header a left z h (hp_mem s)) as [-> ->]; [intros Hh0; destruct (Uh Hh0) as [_ [y Hy]]; eauto|].
  split; [split; try done|split_and!; [done..|]].
  - intros x Hx. rewrite Em. apply free_words_other; [lia|]. intros Hh0 ->. apply Hx. right. exists h. split; [by apply Uh|by right].
  - exists (<[i := a :: F i]> F). fold i. split.
    2:{ intros j. case_decide as Ej; [subst; apply fn_lookup_insert|by rewrite fn_lookup_insert_ne]. }
    apply (lists_push Fr F s s' a left z L Hn Hla Hap); fold i h; try done; cbn.
    + rewrite length_insert. apply L.
    + intros j Hj. destruct (decide (j = i)) as [->|]; [rewrite fn_lookup_insert; apply list_lookup_insert_eq; rewrite (li_len _ _ _ L); lia|].
      rewrite fn_lookup_insert_ne, list_lookup_insert_ne by lia. by apply L.
Qed.

(** The lists do not depend on words that are not links. *)
Lemma lists_change Fr F s s' : lists Fr F s -> (forall x, link Fr x -> word (hp_mem s') x = word (hp_mem s) x) -> (forall a z, Fr !! a = Some z -> listable s' a z) ->
  free_lists s' = free_lists s -> free_list_bits s' = free_list_bits s -> hp_remaining s' = hp_remaining s -> lists Fr F s'.
Proof.
  intros L Hm Hl E1 E2 E3. split; rewrite ?E1, ?E2, ?E3; try apply L; [|done].
  intros i. eapply dseg_frame; [|apply L]. intros a Ha. destruct (li_elem _ _ _ _ _ L Ha) as [Hs _]. split; apply Hm; eexists; eauto.
Qed.

Lemma lists_frame Fr F s s' : lists Fr F s -> (forall x, link Fr x -> word (hp_mem s') x = word (hp_mem s) x) -> hp_mapped s ⊆ hp_mapped s' ->
  free_lists s' = free_lists s -> free_list_bits s' = free_list_bits s -> hp_remaining s' = hp_remaining s -> lists Fr F s'.
Proof.
  intros L Hm Hmap. apply lists_change; [done|done|]. intros a z Hz. destruct (li_ok _ _ _ L a z Hz) as (? & ? & ? & ? & ?). split_and!; try done; set_solver.
Qed.
End lists.
