(* ===== verification/HeapGeom.v ===== *)
(** * The areas of the heap

    A map from addresses to areas, as the headers describe them: each area ends where the next begins, up to the sentinels at the two ends of
    what one call of the page allocator gave.  The operations on areas (splitting one, merging two,
    giving one out, taking one back, adding and removing a segment, cutting a segment short) keep this shape; the
    code of the heap is shown to carry them out. *)

From stdpp Require Import base gmap list fin_maps fin_sets numbers.
From S2P Require Import Prelude Align Heap HeapIndex HeapLists.

Inductive kind := KLeft | KRight | KUsed | KFree.

#[export] Instance kind_eq_dec : EqDecision kind.
Proof. solve_decision. Defined.

(** [ar_lo] and [ar_hi] are the ends of the pages the area's segment started with. *)
Record area := Area { ar_size : Z; ar_left : Z; ar_kind : kind; ar_lo : Z; ar_hi : Z }.
Notation areas := (gmap Z area).

(** The bytes an area takes: the right sentinel has size 0 and is a header. *)
Definition ext (r : area) : Z := if decide (ar_kind r = KRight) then 16 else ar_size r.

Definition kind_ok (a : Z) (r : area) : Prop :=
  match ar_kind r with
  | KLeft => ar_left r = 0 /\ (4096 | a) /\ 16 <= ar_size r <= 40
  | KRight => ar_size r = 0 /\ (4096 | a + 16)
  | KUsed => 32 <= ar_size r
  | KFree => 32 <= ar_size r /\ ar_hi r - ar_lo r <= BIG
  end.

Definition area_ok (a : Z) (r : area) : Prop :=
  0 < a /\ (8 | a) /\ (8 | ar_size r) /\ ar_lo r <= a /\ a + ext r <= ar_hi r /\ ar_hi r < 2 ^ 64 /\ kind_ok a r.

Definition same_segment (r r' : area) : Prop := ar_lo r' = ar_lo r /\ ar_hi r' = ar_hi r.

Record geom (A : areas) : Prop := {
  ge_ok : forall a r, A !! a = Some r -> area_ok a r;
  ge_right : forall a r, A !! a = Some r -> ar_kind r <> KRight ->
    exists r', A !! (a + ar_size r) = Some r' /\ ar_left r' = a /\ ar_kind r' <> KLeft /\ same_segment r r';
  ge_left : forall a r, A !! a = Some r -> ar_kind r <> KLeft ->
    exists r', A !! ar_left r = Some r' /\ ar_left r + ar_size r' = a /\ ar_kind r' <> KRight;
  ge_apart : forall a b r q, A !! a = Some r -> A !! b = Some q -> a <> b -> a + ext r <= b \/ b + ext q <= a;
  ge_big : forall a r, A !! a = Some r -> ar_kind r = KUsed -> BIG < ar_hi r - ar_lo r ->
    (exists q, A !! ar_left r = Some q /\ ar_kind q = KLeft) /\ exists q, A !! (a + ar_size r) = Some q /\ ar_kind q = KRight }.

(** The areas that are free, with their sizes. *)
Definition free_size (r : area) : option Z := if decide (ar_kind r = KFree) then Some (ar_size r) else None.
Definition frees (A : areas) : gmap Z Z := omap free_size A.

(** All bytes of all areas. *)
Definition total (A : areas) : Z := msum ext A.

(** ** Operations *)

Definition set_left (l : Z) (r : area) : area := Area (ar_size r) l (ar_kind r) (ar_lo r) (ar_hi r).
Definition set_size (n : Z) (r : area) : area := Area n (ar_left r) (ar_kind r) (ar_lo r) (ar_hi r).
Definition set_kind (k : kind) (r : area) : area := Area (ar_size r) (ar_left r) k (ar_lo r) (ar_hi r).

Definition fix_left (x l : Z) (A : areas) : areas := alter (set_left l) x A.
Definition mark (a : Z) (k : kind) (A : areas) : areas := alter (set_kind k) a A.

(** The area at [a], described by [r], keeps its first [n] bytes and the rest is an area of its own. *)
Definition split (a : Z) (r : area) (n : Z) (A : areas) : areas :=
  <[a + n := Area (ar_size r - n) a (ar_kind r) (ar_lo r) (ar_hi r)]> (<[a := set_size n r]> (fix_left (a + ar_size r) (a + n) A)).

(** The area at [a] takes in the one to its right, described by [q]. *)
Definition merge (a : Z) (r q : area) (A : areas) : areas :=
  <[a := set_size (ar_size r + ar_size q) r]> (delete (a + ar_size r) (fix_left (a + ar_size r + ar_size q) a A)).

(** A new segment from [lo] to [hi] with one area between the sentinels. *)
Definition add_segment (lo hi : Z) (k : kind) (A : areas) : areas :=
  <[lo := Area 16 0 KLeft lo hi]> (<[lo + 16 := Area (hi - lo - 32) lo k lo hi]> (<[hi - 16 := Area 0 (lo + 16) KRight lo hi]> A)).

(** The segment that consists of the sentinel at [l], the area at [a] and the sentinel at [b] goes away. *)
Definition remove_segment (l a b : Z) (A : areas) : areas := delete l (delete a (delete b A)).

(** The segment ends in the area at [a] now. *)
Definition cut_right (a : Z) (r : area) (A : areas) : areas :=
  <[a := Area 0 (ar_left r) KRight (ar_lo r) (ar_hi r)]> (delete (a + ar_size r) A).

(** The segment begins at [x] now, inside the area at [a] that came after the left sentinel. *)
Definition cut_left (a : Z) (r : area) (x : Z) (A : areas) : areas :=
  <[x := Area (a + ar_size r - x) 0 KLeft (ar_lo r) (ar_hi r)]> (delete a (delete (ar_left r) (fix_left (a + ar_size r) x A))).

(** ** The operations keep the shape *)

Section geom.
Implicit Types (A : areas) (r q : area) (a b x n : Z).

Lemma ext_size r : ar_kind r <> KRight -> ext r = ar_size r.
Proof. intros. unfold ext. by rewrite decide_False. Qed.

Lemma ext_pos a r : area_ok a r -> 16 <= ext r.
Proof. intros (_ & _ & _ & _ & _ & _ & Hk). unfold ext, kind_ok in *. destruct (ar_kind r); rewrite ?decide_True, ?decide_False by done; lia. Qed.

(** What is known of one area of a heap. *)
Lemma ge_facts A a r : geom A -> A !! a = Some r -> 0 < a /\ 16 <= ext r /\ a + ext r < 2 ^ 64 /\ 0 <= ar_size r <= ext r /\ (ar_kind r <> KRight -> ext r = ar_size r).
Proof.
  intros G Ha. pose proof (ge_ok _ G a r Ha) as Hok. pose proof (ext_pos _ _ Hok). destruct Hok as (? & ? & ? & ? & ? & ? & Hk). split_and!; [lia..| | |apply ext_size].
  - unfold kind_ok in Hk. destruct (ar_kind r); lia.
  - unfold ext, kind_ok in *. destruct (ar_kind r); rewrite ?decide_True, ?decide_False by done; lia.
Qed.

(** No area begins inside another. *)
Lemma ge_inside A a r x : geom A -> A !! a = Some r -> a < x < a + ext r -> A !! x = None.
Proof.
  intros G Ha Hx. destruct (A !! x) as [q|] eqn:Hq; [|done]. destruct (ge_apart _ G a x r q Ha Hq ltac:(lia)) as [|Hle]; [lia|].
  pose proof (ge_facts _ _ _ G Hq). lia.
Qed.

(** Looking up in an updated map: in the hypotheses, and in the goal. *)
Ltac look_in H :=
  repeat first [rewrite lookup_insert in H | rewrite lookup_delete in H | rewrite lookup_alter in H];
  repeat match type of H with
  | context [decide (?a = ?b)] => destruct (decide (a = b)) as [?|?]; [subst b|]
  end;
  repeat match type of H with
  | _ <$> ?o = Some _ => apply fmap_Some in H as (? & H & ->)
  | Some _ = Some _ => injection H as <-
  | None = Some _ => discriminate H
  end.

Ltac look_goal :=
  repeat first [rewrite lookup_insert | rewrite lookup_delete | rewrite lookup_alter];
  repeat match goal with
  | |- context [decide (?a = ?b)] => let E := fresh "E" in destruct (decide (a = b)) as [E|E]; [try (exfalso; lia); try rewrite <- E in *|try (exfalso; lia)]
  end.

Ltac same_keys :=
  repeat match goal with
  | H1 : ?A !! ?k = Some _, H2 : ?A !! ?k = None |- _ => rewrite H1 in H2; discriminate H2
  | H1 : ?A !! ?k = Some ?x, H2 : ?A !! ?k = Some ?y |- _ => rewrite H1 in H2; injection H2 as H2; try (injection H2 as ?); try subst
  end.

Lemma used_ok a n l lo hi : area_ok a (Area n l KUsed lo hi) <-> 0 < a /\ (8 | a) /\ (8 | n) /\ lo <= a /\ a + n <= hi /\ hi < 2 ^ 64 /\ 32 <= n.
Proof. done. Qed.

Lemma ext_set_left l r : ext (set_left l r) = ext r.
Proof. done. Qed.

Lemma set_left_ok a l r : ar_kind r <> KLeft -> area_ok a r -> area_ok a (set_left l r).
Proof. intros Hk (? & ? & ? & ? & ? & ? & Ho). unfold area_ok, kind_ok in *. cbn. destruct (ar_kind r); done. Qed.

Ltac ext_eval := repeat match goal with
  | |- context [ext (Area ?n ?l KUsed ?lo ?hi)] => change (ext (Area n l KUsed lo hi)) with n
  | |- context [ext (Area ?n ?l KFree ?lo ?hi)] => change (ext (Area n l KFree lo hi)) with n
  | |- context [ext (Area ?n ?l KLeft ?lo ?hi)] => change (ext (Area n l KLeft lo hi)) with n
  | |- context [ext (Area ?n ?l KRight ?lo ?hi)] => change (ext (Area n l KRight lo hi)) with 16
  end.

Ltac geo_done := first [exfalso; lia | eexists; split_and!; first [reflexivity|eassumption|done|cbn in *; lia]].

Lemma geom_split A a r n : geom A -> A !! a = Some r -> ar_kind r = KUsed -> ar_hi r - ar_lo r <= BIG -> (8 | n) -> 32 <= n -> 32 <= ar_size r - n -> geom (split a r n A).
Proof.
  destruct r as [z l k lo hi]. cbn. intros G Ha -> Hbig H8 Hn1 Hn2. pose proof (ge_facts _ _ _ G Ha) as (F1 & F2 & F3 & F4 & F5). specialize (F5 ltac:(done)). cbn in F5.
  destruct (ge_right _ G a _ Ha ltac:(done)) as ([zc lc kc loc hic] & Hc & Ec & Kc & Sc & Tc). cbn in *. subst lc loc hic. pose proof (ge_inside _ _ _ (a + n) G Ha ltac:(lia)) as Hin.
  pose proof (proj1 (used_ok _ _ _ _ _) (ge_ok _ G a _ Ha)) as (O1 & O2 & O3 & O4 & O5 & O6 & O7). pose proof (ge_facts _ _ _ G Hc) as (_ & C2 & _ & C4 & _).
  assert (forall y q, A !! y = Some q -> y <> a -> y + ext q <= a \/ a + z <= y) as Ap by (intros y q Hy Hne; destruct (ge_apart _ G y a q _ Hy Ha Hne); lia).
  unfold split, fix_left, set_size. cbn in *. split.
  - intros y q Hy. look_in Hy; try by apply G.
    + apply used_ok. split_and!; try lia; [by apply Z.divide_add_r|by apply Z.divide_sub_r].
    + apply used_ok. split_and!; done || lia.
    + apply set_left_ok; [by same_keys|]. by apply G.
  - intros y q Hy Ky. look_in Hy; cbn in *. 1,2: look_goal; rewrite ?Hc; geo_done.
    all: destruct (ge_right _ G _ _ Hy Ky) as (q' & Hq' & Eq' & Kq' & Sq'); look_goal; same_keys; cbn in *; geo_done.
  - intros y q Hy Ky. look_in Hy; cbn in *. 1,3: look_goal; geo_done.
    + destruct (ge_left _ G _ _ Ha Ky) as (q' & Hq' & Eq' & Kq'). cbn in *. look_goal; same_keys; cbn in *; geo_done.
    + destruct (ge_left _ G _ _ Hy Ky) as (q' & Hq' & Eq' & Kq'). cbn in *. look_goal; same_keys; cbn in *; rewrite ?Hc; geo_done.
  - intros y x q p Hy Hx Hne. look_in Hy; look_in Hx; try done; rewrite ?ext_set_left; ext_eval; try lia; try (by eapply (ge_apart _ G)).
    all: first [pose proof (Ap _ _ Hy ltac:(done)) | pose proof (Ap _ _ Hx ltac:(done))]; lia.
  - intros y q Hy Ky Hbg. look_in Hy; cbn in *; try lia. 1: same_keys; cbn in *; lia.
    destruct (ge_big _ G _ _ Hy Ky Hbg) as [(q1 & H1 & K1) (q2 & H2 & K2)]. split; look_goal; same_keys; cbn in *; rewrite ?Hc; try done; geo_done.
Qed.

Lemma geom_mark A a r k : geom A -> A !! a = Some r -> (ar_kind r = KUsed \/ ar_kind r = KFree) -> (k = KUsed \/ k = KFree) -> ar_hi r - ar_lo r <= BIG -> geom (mark a k A).
Proof.
  intros G Ha Hk Hk' Hbig. pose proof (ge_ok _ G a _ Ha) as (O1 & O2 & O3 & O4 & O5 & O6 & O7).
  assert (ar_kind r <> KRight /\ ar_kind r <> KLeft /\ k <> KRight /\ k <> KLeft) as (N1 & N2 & N3 & N4) by (destruct Hk as [-> | ->], Hk' as [-> | ->]; done).
  assert (ext (set_kind k r) = ext r) as Ee by (unfold ext; cbn; by rewrite !decide_False). unfold mark. split.
  - intros y q Hy. look_in Hy; [|by apply G]. same_keys. unfold area_ok. rewrite Ee. cbn. split_and!; try done. unfold kind_ok in *. cbn.
    destruct Hk as [E|E]; rewrite E in O7; destruct Hk' as [-> | ->]; lia.
  - intros y q Hy Ky. look_in Hy.
    + same_keys. destruct (ge_right _ G _ _ Ha N1) as (q' & Hq' & Eq' & Kq' & Sq'). cbn. look_goal; rewrite ?Hq'; geo_done.
    + destruct (ge_right _ G _ _ Hy Ky) as (q' & Hq' & Eq' & Kq' & Sq'). look_goal; rewrite ?Hq'; same_keys; geo_done.
  - intros y q Hy Ky. look_in Hy.
    + same_keys. destruct (ge_left _ G _ _ Ha N2) as (q' & Hq' & Eq' & Kq'). cbn. look_goal; rewrite ?Hq'; same_keys; geo_done.
    + destruct (ge_left _ G _ _ Hy Ky) as (q' & Hq' & Eq' & Kq'). look_goal; rewrite ?Hq'; same_keys; geo_done.
  - intros y x q p Hy Hx Hne. look_in Hy; look_in Hx; try done; same_keys; rewrite ?Ee; by eapply (ge_apart _ G).
  - intros y q Hy Ky Hbg. look_in Hy; same_keys; [cbn in *; lia|].
    destruct (ge_big _ G _ _ Hy Ky Hbg) as [(q1 & H1 & K1) (q2 & H2 & K2)]. split; look_goal; same_keys; try congruence; geo_done.
Qed.

Lemma geom_merge A a r q : geom A -> A !! a = Some r -> A !! (a + ar_size r) = Some q -> ar_kind r = KUsed -> ar_kind q = KUsed -> geom (merge a r q A).
Proof.
  destruct r as [z l k lo hi], q as [zb lb kb lob hib]. cbn. intros G Ha Hb -> ->.
  pose proof (ge_facts _ _ _ G Ha) as (F1 & F2 & F3 & F4 & F5). specialize (F5 ltac:(done)). pose proof (ge_facts _ _ _ G Hb) as (B1 & B2 & B3 & B4 & B5). specialize (B5 ltac:(done)).
  destruct (ge_right _ G a _ Ha ltac:(done)) as (q & Hq & Eq & _ & Sq & Tq). cbn in *. rewrite Hb in Hq. injection Hq as <-. cbn in *. subst lb lob hib.
  assert (hi - lo <= BIG) as Hbig.
  { destruct (Z.le_gt_cases (hi - lo) BIG) as [|Hgt]; [done|]. destruct (ge_big _ G _ _ Ha ltac:(done) ltac:(cbn; lia)) as [_ (q & Hq & Kq)]. cbn in *. rewrite Hb in Hq. injection Hq as <-. done. }
  destruct (ge_right _ G _ _ Hb ltac:(done)) as ([zc lc kc loc hic] & Hc & Ec & Kc & Sc & Tc). cbn in *. subst lc loc hic.
  pose proof (ge_facts _ _ _ G Hc) as (_ & C2 & _ & C4 & _).
  pose proof (proj1 (used_ok _ _ _ _ _) (ge_ok _ G a _ Ha)) as (O1 & O2 & O3 & O4 & O5 & O6 & O7). pose proof (proj1 (used_ok _ _ _ _ _) (ge_ok _ G _ _ Hb)) as (P1 & P2 & P3 & P4 & P5 & P6 & P7).
  assert (forall y q, A !! y = Some q -> y <> a -> y <> a + z -> y + ext q <= a \/ a + z + zb <= y) as Ap.
  { intros y q Hy Hne Hne2. destruct (ge_apart _ G y a q _ Hy Ha Hne), (ge_apart _ G y (a + z) q _ Hy Hb Hne2); pose proof (ge_facts _ _ _ G Hy); lia. }
  unfold merge, fix_left, set_size. cbn in *. split.
  - intros y q Hy. look_in Hy; try by apply G.
    + apply used_ok. split_and!; try done; [by apply Z.divide_add_r|lia..].
    + apply set_left_ok; [by same_keys|]. by apply G.
  - intros y q Hy Ky. look_in Hy; cbn in *; [look_goal; rewrite ?Z.add_assoc, ?Hc; geo_done|..].
    all: destruct (ge_right _ G _ _ Hy Ky) as (q' & Hq' & Eq' & Kq' & Sq'); look_goal; same_keys; cbn in *; geo_done.
  - intros y q Hy Ky. look_in Hy; cbn in *.
    + destruct (ge_left _ G _ _ Ha Ky) as (q' & Hq' & Eq' & Kq'). cbn in *. look_goal; same_keys; cbn in *; geo_done.
    + look_goal; geo_done.
    + destruct (ge_left _ G _ _ Hy Ky) as (q' & Hq' & Eq' & Kq'). cbn in *. look_goal; same_keys; cbn in *; rewrite ?Hc; geo_done.
  - intros y x q p Hy Hx Hne. look_in Hy; look_in Hx; try done; rewrite ?ext_set_left; ext_eval; try lia; try (by eapply (ge_apart _ G)).
    all: first [pose proof (Ap _ _ Hy ltac:(done) ltac:(done)) | pose proof (Ap _ _ Hx ltac:(done) ltac:(done))]; lia.
  - intros y q Hy Ky Hbg. look_in Hy; cbn in *; try lia. 1: same_keys; cbn in *; lia.
    destruct (ge_big _ G _ _ Hy Ky Hbg) as [(q1 & H1 & K1) (q2 & H2 & K2)]. split; look_goal; same_keys; cbn in *; rewrite ?Hc; try done; geo_done.
Qed.

Lemma geom_add A lo hi k : geom A -> (4096 | lo) -> (4096 | hi) -> 0 < lo -> hi < 2 ^ 64 -> 4096 <= hi - lo ->
  (k = KUsed \/ (k = KFree /\ hi - lo <= BIG)) -> (forall y q, A !! y = Some q -> y + ext q <= lo \/ hi <= y) -> geom (add_segment lo hi k A).
Proof.
  intros G Hlo Hhi Hlo0 Hhi64 Hsz Hk Ap. assert (8 | lo) as Hlo8 by (etrans; [|exact Hlo]; by exists 512). assert (8 | hi) as Hhi8 by (etrans; [|exact Hhi]; by exists 512).
  assert (k <> KRight /\ k <> KLeft) as [N1 N2] by (destruct Hk as [-> | [-> _]]; done).
  assert (ext (Area (hi - lo - 32) lo k lo hi) = hi - lo - 32) as Ek by (by apply ext_size). unfold add_segment. split.
  - intros y q Hy. look_in Hy; try (by apply G); unfold area_ok, kind_ok; rewrite ?Ek; ext_eval; cbn; split_and!; try lia; try done.
    + by exists 2.
    + apply Z.divide_add_r; [done|by exists 2].
    + apply Z.divide_sub_r; [by apply Z.divide_sub_r|by exists 4].
    + destruct Hk as [-> | [-> ?]]; lia.
    + apply Z.divide_sub_r; [done|by exists 2].
    + apply Z.divide_0_r.
    + by replace (hi - 16 + 16) with hi by lia.
  - intros y q Hy Ky. look_in Hy; cbn in *; try done; [look_goal; geo_done..|].
    destruct (ge_right _ G _ _ Hy Ky) as (q' & Hq' & Eq' & Kq' & Sq'). pose proof (Ap _ _ Hq'). pose proof (ge_facts _ _ _ G Hq'). look_goal; geo_done.
  - intros y q Hy Ky. look_in Hy; cbn in *; try done; [look_goal; geo_done..|].
    destruct (ge_left _ G _ _ Hy Ky) as (q' & Hq' & Eq' & Kq'). pose proof (Ap _ _ Hq'). pose proof (ge_facts _ _ _ G Hq'). look_goal; geo_done.
  - intros y x q p Hy Hx Hne. look_in Hy; look_in Hx; try done; rewrite ?Ek; ext_eval; try lia; try (by eapply (ge_apart _ G)).
    all: first [pose proof (Ap _ _ Hy) | pose proof (Ap _ _ Hx)]; lia.
  - intros y q Hy Ky Hbg. look_in Hy; cbn in *; try done; [split; look_goal; geo_done|].
    destruct (ge_big _ G _ _ Hy Ky Hbg) as [(q1 & H1 & K1) (q2 & H2 & K2)]. pose proof (Ap _ _ H1). pose proof (Ap _ _ H2).
    pose proof (ge_facts _ _ _ G H1). pose proof (ge_facts _ _ _ G H2). split; look_goal; geo_done.
Qed.

Lemma geom_remove A l a b rl ra rb : geom A -> A !! l = Some rl -> A !! a = Some ra -> A !! b = Some rb -> ar_kind rl = KLeft -> ar_kind ra = KUsed -> ar_kind rb = KRight ->
  ar_left ra = l -> b = a + ar_size ra -> geom (remove_segment l a b A).
Proof.
  intros G Hl Ha Hb Kl Ka Kb El Eb. unfold remove_segment.
  destruct (ge_right _ G _ _ Ha ltac:(congruence)) as (q & Hq & Eq & _). rewrite <- Eb, Hb in Hq. injection Hq as <-.
  destruct (ge_left _ G _ _ Ha ltac:(congruence)) as (q & Hq & El' & _). rewrite El, Hl in Hq. injection Hq as <-. split.
  - intros y q Hy. look_in Hy. by apply G.
  - intros y q Hy Ky. look_in Hy. destruct (ge_right _ G _ _ Hy Ky) as (q' & Hq' & Eq' & Kq' & Sq'). look_goal; same_keys; try congruence; geo_done.
  - intros y q Hy Ky. look_in Hy. destruct (ge_left _ G _ _ Hy Ky) as (q' & Hq' & Eq' & Kq'). look_goal; same_keys; try congruence; geo_done.
  - intros y x q p Hy Hx Hne. look_in Hy; look_in Hx. by eapply (ge_apart _ G).
  - intros y q Hy Ky Hbg. look_in Hy.
    destruct (ge_big _ G _ _ Hy Ky Hbg) as [(q1 & H1 & K1) (q2 & H2 & K2)].
    destruct (ge_left _ G _ _ Hy ltac:(congruence)) as (q3 & H3 & E3 & _). destruct (ge_right _ G _ _ Hy ltac:(congruence)) as (q4 & H4 & E4 & _).
    split; look_goal; same_keys; try congruence; geo_done.
Qed.

Lemma geom_cut_right A a r q : geom A -> A !! a = Some r -> ar_kind r = KUsed -> A !! (a + ar_size r) = Some q -> ar_kind q = KRight -> (4096 | a + 16) -> geom (cut_right a r A).
Proof.
  intros G Ha Ka Hb Kb Hal. pose proof (ge_facts _ _ _ G Ha) as (F1 & F2 & F3 & F4 & F5). specialize (F5 ltac:(congruence)).
  pose proof (ge_ok _ G a _ Ha) as (O1 & O2 & O3 & O4 & O5 & O6 & O7). unfold kind_ok in O7. rewrite Ka in O7.
  destruct (ge_right _ G _ _ Ha ltac:(congruence)) as (q' & Hq' & Eq' & _). rewrite Hb in Hq'. injection Hq' as <-. unfold cut_right. split.
  - intros y p Hy. look_in Hy; [|by apply G]. unfold area_ok, kind_ok. ext_eval. cbn. split_and!; try done; try lia. apply Z.divide_0_r.
  - intros y p Hy Ky. look_in Hy; [done|]. destruct (ge_right _ G _ _ Hy Ky) as (q' & Hq' & Eq'' & Kq' & Sq'). look_goal; same_keys; try congruence; geo_done.
  - intros y p Hy Ky. look_in Hy.
    + destruct (ge_left _ G _ _ Ha ltac:(congruence)) as (q' & Hq' & El & Kq'). cbn. pose proof (ge_facts _ _ _ G Hq'). look_goal; same_keys; geo_done.
    + destruct (ge_left _ G _ _ Hy Ky) as (q' & Hq' & El & Kq'). look_goal; same_keys; try congruence; geo_done.
  - intros y x p p' Hy Hx Hne. look_in Hy; look_in Hx; try done; ext_eval.
    + destruct (ge_apart _ G _ _ _ _ Ha Hx Hne); lia.
    + destruct (ge_apart _ G _ _ _ _ Hy Ha Hne); lia.
    + by eapply (ge_apart _ G).
  - intros y p Hy Ky Hbg. look_in Hy; [done|].
    destruct (ge_big _ G _ _ Hy Ky Hbg) as [(q1 & H1 & K1) (q2 & H2 & K2)].
    destruct (ge_left _ G _ _ Hy ltac:(congruence)) as (q3 & H3 & E3 & _). destruct (ge_right _ G _ _ Hy ltac:(congruence)) as (q4 & H4 & E4 & _).
    split; look_goal; same_keys; try congruence; geo_done.
Qed.

Lemma geom_cut_left A a r q x : geom A -> A !! a = Some r -> ar_kind r = KUsed -> A !! ar_left r = Some q -> ar_kind q = KLeft -> (4096 | x) -> a < x -> 16 <= a + ar_size r - x <= 40 ->
  geom (cut_left a r x A).
Proof.
  destruct r as [z l k lo hi]. cbn. intros G Ha -> Hl Kl Hal Hax Hsz. pose proof (ge_facts _ _ _ G Ha) as (F1 & F2 & F3 & F4 & F5). specialize (F5 ltac:(done)). cbn in F5.
  pose proof (proj1 (used_ok _ _ _ _ _) (ge_ok _ G a _ Ha)) as (O1 & O2 & O3 & O4 & O5 & O6 & O7). pose proof (ge_inside _ _ _ x G Ha ltac:(lia)) as Hin.
  destruct (ge_right _ G a _ Ha ltac:(done)) as ([zc lc kc loc hic] & Hc & Ec & Kc & Sc & Tc). cbn in *. subst lc loc hic.
  destruct (ge_left _ G _ _ Ha ltac:(done)) as (q' & Hq' & El & Kq'). cbn in *. rewrite Hl in Hq'. injection Hq' as <-. pose proof (ge_facts _ _ _ G Hl) as (_ & L2 & _ & L4 & _).
  pose proof (ge_facts _ _ _ G Hc) as (_ & C2 & _ & C4 & _). unfold cut_left, fix_left. cbn. assert (8 | x) as Hx8 by (etrans; [|exact Hal]; by exists 512).
  assert (forall y q, A !! y = Some q -> y <> a -> y + ext q <= a \/ a + z <= y) as Ap by (intros y p Hy Hne; destruct (ge_apart _ G y a p _ Hy Ha Hne); lia). split.
  - intros y p Hy. look_in Hy; try by apply G.
    + unfold area_ok, kind_ok. ext_eval. cbn. split_and!; try done; try lia. apply Z.divide_sub_r; [by apply Z.divide_add_r|done].
    + apply set_left_ok; [by same_keys|]. by apply G.
  - intros y p Hy Ky. look_in Hy; cbn in *; [look_goal; rewrite ?Hc; geo_done|..].
    all: destruct (ge_right _ G _ _ Hy Ky) as (q' & Hq' & Eq' & Kq'' & Sq'); look_goal; same_keys; cbn in *; try congruence; geo_done.
  - intros y p Hy Ky. look_in Hy; cbn in *; [done|look_goal; geo_done|].
    destruct (ge_left _ G _ _ Hy Ky) as (q' & Hq' & Eq' & Kq''). look_goal; same_keys; cbn in *; rewrite ?Hc; try congruence; geo_done.
  - intros y u p p' Hy Hu Hne. look_in Hy; look_in Hu; try done; rewrite ?ext_set_left; ext_eval; try lia; try (by eapply (ge_apart _ G)).
    all: first [pose proof (Ap _ _ Hy ltac:(done)) | pose proof (Ap _ _ Hu ltac:(done))]; lia.
  - intros y p Hy Ky Hbg. look_in Hy; [done|..].
    + same_keys. cbn in *. subst. destruct (ge_big _ G _ _ Hc ltac:(done) Hbg) as [(q1 & H1 & K1) _]. cbn in *. same_keys. done.
    + destruct (ge_big _ G _ _ Hy Ky Hbg) as [(q1 & H1 & K1) (q2 & H2 & K2)].
      destruct (ge_left _ G _ _ Hy ltac:(congruence)) as (q3 & H3 & E3 & _). destruct (ge_right _ G _ _ Hy ltac:(congruence)) as (q4 & H4 & E4 & _).
      split; look_goal; same_keys; cbn in *; rewrite ?Hc; try congruence; geo_done.
Qed.

(** ** What is free, and how much there is *)

Lemma frees_spec A a z : frees A !! a = Some z <-> exists r, A !! a = Some r /\ ar_kind r = KFree /\ ar_size r = z.
Proof.
  unfold frees. rewrite lookup_omap. unfold free_size. destruct (A !! a) as [r|]; cbn; [|naive_solver]. destruct (decide (ar_kind r = KFree)); naive_solver.
Qed.

Lemma frees_none A a r : A !! a = Some r -> ar_kind r <> KFree -> frees A !! a = None.
Proof. intros Ha Hk. unfold frees. rewrite lookup_omap, Ha. cbn. unfold free_size. by rewrite decide_False. Qed.

Ltac frees_tac :=
  apply map_eq; intros ?y; unfold frees, free_size, mark, split, merge, add_segment, remove_segment, cut_right, cut_left, fix_left;
  rewrite ?lookup_omap, ?lookup_insert, ?lookup_delete, ?lookup_alter, ?lookup_omap;
  repeat match goal with |- context [decide (?a = ?b :> Z)] => destruct (decide (a = b)) as [?|?]; [try subst|] end;
  repeat match goal with H : ?A !! ?k = _ |- context [?A !! ?k] => rewrite H end; cbn;
  repeat match goal with
  | |- context [_ <$> ?o] => destruct o; cbn
  | H : ar_kind ?r = _ |- context [ar_kind ?r] => rewrite H
  | H : ar_kind ?r <> _ |- context [decide (ar_kind ?r = _)] => rewrite (decide_False _ _ H)
  end; try done; try lia.

Lemma frees_mark_free A a r : A !! a = Some r -> frees (mark a KFree A) = <[a := ar_size r]> (frees A).
Proof. intros Ha. frees_tac. Qed.

Lemma frees_mark_used A a : frees (mark a KUsed A) = delete a (frees A).
Proof. frees_tac. Qed.

Lemma frees_split A a r n : A !! a = Some r -> ar_kind r = KUsed -> A !! (a + n) = None -> frees (split a r n A) = frees A.
Proof. intros Ha Hk Hn. frees_tac. Qed.

Lemma frees_merge A a r q : A !! a = Some r -> A !! (a + ar_size r) = Some q -> ar_kind r = KUsed -> ar_kind q = KUsed -> frees (merge a r q A) = frees A.
Proof. intros Ha Hb Hk Hq. frees_tac. Qed.

Lemma frees_add_used A lo hi : A !! lo = None -> A !! (lo + 16) = None -> A !! (hi - 16) = None -> frees (add_segment lo hi KUsed A) = frees A.
Proof. intros H1 H2 H3. frees_tac. Qed.

Lemma frees_add_free A lo hi : A !! lo = None -> A !! (hi - 16) = None -> lo + 16 < hi - 16 -> frees (add_segment lo hi KFree A) = <[lo + 16 := hi - lo - 32]> (frees A).
Proof. intros H1 H3 Hlt. frees_tac. Qed.

Lemma frees_remove A l a b rl ra rb : A !! l = Some rl -> A !! a = Some ra -> A !! b = Some rb -> ar_kind rl <> KFree -> ar_kind ra <> KFree -> ar_kind rb <> KFree ->
  frees (remove_segment l a b A) = frees A.
Proof. intros Hl Ha Hb Kl Ka Kb. frees_tac. Qed.

Lemma frees_cut_right A a r q : A !! a = Some r -> ar_kind r = KUsed -> A !! (a + ar_size r) = Some q -> ar_kind q = KRight -> frees (cut_right a r A) = frees A.
Proof. intros Ha Hk Hb Kb. frees_tac. Qed.

Lemma frees_cut_left A a r q x : A !! a = Some r -> ar_kind r = KUsed -> A !! ar_left r = Some q -> ar_kind q = KLeft -> A !! x = None -> frees (cut_left a r x A) = frees A.
Proof. intros Ha Hk Hb Kb Hx. frees_tac. Qed.

Lemma total_fix_left A x l : total (fix_left x l A) = total A.
Proof. by apply msum_alter. Qed.

Lemma total_mark A a r k : A !! a = Some r -> ar_kind r <> KRight -> k <> KRight -> total (mark a k A) = total A.
Proof.
  intros Ha H1 H2. unfold total, mark. assert (alter (set_kind k) a A = <[a := set_kind k r]> A) as ->.
  { apply map_eq. intros j. rewrite lookup_alter, lookup_insert. case_decide; [subst; by rewrite Ha|done]. }
  rewrite (msum_replace ext A a r) by done. unfold ext. cbn. rewrite !decide_False by done. lia.
Qed.

Lemma total_split A a r n : geom A -> A !! a = Some r -> ar_kind r = KUsed -> 0 < n < ar_size r -> total (split a r n A) = total A.
Proof.
  intros G Ha Hk Hn. pose proof (ge_facts _ _ _ G Ha) as (_ & _ & _ & _ & F5). specialize (F5 ltac:(congruence)). pose proof (ge_inside _ _ _ (a + n) G Ha ltac:(lia)) as Hin.
  unfold split. assert (fix_left (a + ar_size r) (a + n) A !! a = Some r) as Ha' by (unfold fix_left; rewrite lookup_alter, decide_False by lia; done).
  unfold total. rewrite msum_insert.
  2:{ unfold fix_left. rewrite lookup_insert, decide_False, lookup_alter, decide_False by lia. done. }
  rewrite (msum_replace ext _ a r) by done. fold (total (fix_left (a + ar_size r) (a + n) A)). rewrite total_fix_left. rewrite !ext_size by (cbn; congruence). cbn. unfold total. lia.
Qed.

Lemma total_merge A a r q : geom A -> A !! a = Some r -> A !! (a + ar_size r) = Some q -> ar_kind r = KUsed -> ar_kind q = KUsed -> total (merge a r q A) = total A.
Proof.
  intros G Ha Hb Ka Kb. pose proof (ge_facts _ _ _ G Ha) as (_ & A2 & _ & _ & A5). specialize (A5 ltac:(congruence)). pose proof (ge_facts _ _ _ G Hb) as (_ & B2 & _ & _ & B5). specialize (B5 ltac:(congruence)).
  unfold merge, total. rewrite (msum_replace ext _ a r).
  2:{ unfold fix_left. rewrite lookup_delete, decide_False, lookup_alter, decide_False by lia. done. }
  pose proof (msum_delete ext (fix_left (a + ar_size r + ar_size q) a A) (a + ar_size r) q) as Hd.
  pose proof (total_fix_left A (a + ar_size r + ar_size q) a) as E0. unfold total in E0. rewrite <- E0, Hd.
  - assert (ext (set_size (ar_size r + ar_size q) r) = ar_size r + ar_size q) as -> by (apply ext_size; cbn; congruence). lia.
  - unfold fix_left. rewrite lookup_alter, decide_False by lia. done.
Qed.

Lemma total_add A lo hi k : A !! lo = None -> A !! (lo + 16) = None -> A !! (hi - 16) = None -> k <> KRight -> lo + 16 < hi - 16 -> total (add_segment lo hi k A) = total A + (hi - lo).
Proof.
  intros H1 H2 H3 Hk Hlt. unfold total, add_segment. rewrite !msum_insert; rewrite ?lookup_insert, ?decide_False by lia; try done.
  rewrite (ext_size (Area (hi - lo - 32) lo k lo hi)) by done. ext_eval. cbn. lia.
Qed.

Lemma total_remove A l a b rl ra rb : A !! l = Some rl -> A !! a = Some ra -> A !! b = Some rb -> l <> a -> a <> b -> l <> b ->
  total (remove_segment l a b A) = total A - ext rl - ext ra - ext rb.
Proof.
  intros Hl Ha Hb N1 N2 N3. unfold total, remove_segment. pose proof (msum_delete ext A b rb Hb) as E1. pose proof (msum_delete ext (delete b A) a ra) as E2. pose proof (msum_delete ext (delete a (delete b A)) l rl) as E3.
  rewrite !lookup_delete, !decide_False in * by done. specialize (E2 Ha). specialize (E3 Hl). lia.
Qed.

Lemma total_cut_right A a r q : A !! a = Some r -> ar_kind r = KUsed -> A !! (a + ar_size r) = Some q -> ar_kind q = KRight -> 0 < ar_size r -> total (cut_right a r A) = total A - ar_size r.
Proof.
  intros Ha Ka Hb Kb Hs. unfold total, cut_right. pose proof (msum_delete ext A _ q Hb) as E1. rewrite (msum_replace ext _ a r).
  - ext_eval. rewrite ext_size by congruence. assert (ext q = 16) as Eq by (unfold ext; by rewrite decide_True). lia.
  - rewrite lookup_delete, decide_False by lia. done.
Qed.

Lemma total_cut_left A a r q x : geom A -> A !! a = Some r -> ar_kind r = KUsed -> A !! ar_left r = Some q -> ar_kind q = KLeft -> ar_left r + ar_size q = a -> a < x < a + ar_size r ->
  total (cut_left a r x A) = total A - (x - ar_left r).
Proof.
  intros G Ha Ka Hl Kl El Hx. pose proof (ge_facts _ _ _ G Ha) as (_ & _ & _ & _ & F5). specialize (F5 ltac:(congruence)). pose proof (ge_facts _ _ _ G Hl) as (_ & L2 & _ & _ & L5). specialize (L5 ltac:(congruence)).
  pose proof (ge_inside _ _ _ x G Ha ltac:(lia)) as Hin. unfold total, cut_left. rewrite msum_insert; unfold fix_left.
  2:{ rewrite !lookup_delete, !decide_False, lookup_alter, decide_False by lia. done. }
  set (A1 := alter _ _ A). assert (total A1 = total A) as E0 by apply (total_fix_left A). unfold total in E0.
  assert (A1 !! ar_left r = Some q) as Hl' by (unfold A1; rewrite lookup_alter, decide_False by lia; done).
  assert (A1 !! a = Some r) as Ha' by (unfold A1; rewrite lookup_alter, decide_False by lia; done).
  pose proof (msum_delete ext A1 _ q Hl') as E1. pose proof (msum_delete ext (delete (ar_left r) A1) a r) as E2.
  rewrite lookup_delete, decide_False in E2 by lia. specialize (E2 Ha'). ext_eval. lia.
Qed.

(** ** No operation takes bytes that were not in an area *)

Definition in_area A x : Prop := exists a r, A !! a = Some r /\ a <= x < a + ext r.
Definition inside U A : Prop := forall x, in_area U x -> in_area A x.

Lemma inside_trans A U V : inside U A -> inside V U -> inside V A.
Proof. unfold inside. auto. Qed.

Lemma inside_mark A a r k : A !! a = Some r -> ar_kind r <> KRight -> k <> KRight -> inside (mark a k A) A.
Proof.
  intros Ha Hr Hk x (y & q & Hy & Hx). unfold mark in Hy. look_in Hy; [|by exists y, q]. same_keys. eexists a, _. split; [eassumption|].
  unfold ext in *. cbn in *. rewrite !decide_False in * by done. done.
Qed.

Lemma inside_fix_left A y l : inside (fix_left y l A) A.
Proof. intros x (b & q & Hb & Hx). unfold fix_left in Hb. look_in Hb; [|by exists b, q]. by eexists _, _. Qed.

Lemma inside_split A a r n : A !! a = Some r -> ar_kind r = KUsed -> 0 <= n <= ar_size r -> inside (split a r n A) A.
Proof.
  intros Ha Hk Hn x (y & q & Hy & Hx). assert (in_area A x \/ a <= x < a + ar_size r) as [?|Hin]; [|done|].
  - unfold split in Hy. rewrite lookup_insert in Hy. case_decide as E; [injection Hy as <-; subst; rewrite ext_size in Hx by (cbn; congruence); cbn in Hx; right; lia|].
    rewrite lookup_insert in Hy. case_decide as E'; [injection Hy as <-; subst; rewrite ext_size in Hx by (cbn; congruence); cbn in Hx; right; lia|].
    left. apply (inside_fix_left A (a + ar_size r) (a + n)). by exists y, q.
  - exists a, r. split; [done|]. by rewrite ext_size by congruence.
Qed.

Lemma inside_merge A a r q : A !! a = Some r -> A !! (a + ar_size r) = Some q -> ar_kind r = KUsed -> ar_kind q = KUsed -> inside (merge a r q A) A.
Proof.
  intros Ha Hb Ka Kb x (y & p & Hy & Hx). unfold merge in Hy. rewrite lookup_insert in Hy. case_decide as E.
  - injection Hy as <-. subst. rewrite ext_size in Hx by (cbn; congruence). cbn in Hx. destruct (Z.lt_ge_cases x (y + ar_size r)).
    + exists y, r. rewrite ext_size by congruence. split; [done|lia].
    + exists (y + ar_size r), q. rewrite ext_size by congruence. split; [done|lia].
  - apply lookup_delete_Some in Hy as [_ Hy]. apply (inside_fix_left A (a + ar_size r + ar_size q) a). by exists y, p.
Qed.

Lemma inside_sub A U : (forall a r, U !! a = Some r -> A !! a = Some r) -> inside U A.
Proof. intros Hs x (a & r & Ha & Hx). exists a, r. auto. Qed.

Lemma inside_remove A l a b : inside (remove_segment l a b A) A.
Proof. apply inside_sub. intros x r Hx. unfold remove_segment in Hx. by apply lookup_delete_Some in Hx as [_ [_ [_ Hx]%lookup_delete_Some]%lookup_delete_Some]. Qed.

Lemma inside_cut_right A a r : A !! a = Some r -> ar_kind r = KUsed -> 16 <= ar_size r -> inside (cut_right a r A) A.
Proof.
  intros Ha Ka Hs x (y & p & Hy & Hx). unfold cut_right in Hy. look_in Hy; [|by exists y, p]. exists a, r. split; [done|].
  change (ext (Area 0 (ar_left r) KRight (ar_lo r) (ar_hi r))) with 16 in Hx. rewrite ext_size by congruence. lia.
Qed.

Lemma inside_cut_left A a r x : A !! a = Some r -> ar_kind r = KUsed -> a <= x <= a + ar_size r -> inside (cut_left a r x A) A.
Proof.
  intros Ha Ka Hs y (b & p & Hb & Hx). unfold cut_left in Hb. rewrite lookup_insert in Hb. case_decide as E.
  - injection Hb as <-. subst b. change (ext (Area (a + ar_size r - x) 0 KLeft (ar_lo r) (ar_hi r))) with (a + ar_size r - x) in Hx.
    exists a, r. rewrite ext_size by congruence. split; [done|lia].
  - apply lookup_delete_Some in Hb as [_ [_ Hb]%lookup_delete_Some]. apply (inside_fix_left A (a + ar_size r) x). by exists b, p.
Qed.

(** ** Bytes and the areas they are in *)

Lemma in_area_unique A a b r q x : geom A -> A !! a = Some r -> A !! b = Some q -> a <= x < a + ext r -> b <= x < b + ext q -> a = b.
Proof. intros G Ha Hb Hx Hx'. destruct (decide (a = b)); [done|]. destruct (ge_apart _ G _ _ _ _ Ha Hb); lia || done. Qed.

(** A word that is in no header. *)
Definition off_headers A x : Prop := forall b q, A !! b = Some q -> x <> b /\ x <> b + 8.

(** A word of an area that is not in its header is in no header. *)
Lemma off_headers_inside A a r x : geom A -> A !! a = Some r -> a + 16 <= x < a + ext r -> off_headers A x.
Proof.
  intros G Ha Hx b q Hb. pose proof (ge_facts _ _ _ G Hb). destruct (decide (a = b)) as [->|Hne]; [lia|].
  destruct (ge_apart _ G _ _ _ _ Ha Hb Hne); lia.
Qed.

Lemma off_headers_delete A a r x : geom A -> A !! a = Some r -> a <= x < a + ext r -> off_headers (delete a A) x.
Proof.
  intros G Ha Hx b q [Hne Hb]%lookup_delete_Some. pose proof (ge_facts _ _ _ G Hb). destruct (ge_apart _ G _ _ _ _ Ha Hb Hne); lia.
Qed.

Lemma off_headers_sub A U x : (forall a r, U !! a = Some r -> A !! a = Some r) -> off_headers A x -> off_headers U x.
Proof. intros Hs Ho b q Hb. eapply Ho. eauto. Qed.

(** ** The blocks that are given out *)

Definition used_size (r : area) : option Z := if decide (ar_kind r = KUsed) then Some (ar_size r) else None.
Definition used A : gmap Z Z := omap used_size A.

Lemma used_spec A a z : used A !! a = Some z <-> exists r, A !! a = Some r /\ ar_kind r = KUsed /\ ar_size r = z.
Proof.
  unfold used. rewrite lookup_omap. unfold used_size. destruct (A !! a) as [r|]; cbn; [|naive_solver]. destruct (decide (ar_kind r = KUsed)); naive_solver.
Qed.

Lemma used_none A a : (forall r, A !! a = Some r -> ar_kind r <> KUsed) -> used A !! a = None.
Proof. intros Hn. destruct (used A !! a) as [z|] eqn:E; [|done]. apply used_spec in E as (r & Hr & Hk & _). naive_solver. Qed.

Ltac used_tac := unfold used, used_size; frees_tac.

Lemma used_mark_used A a r : A !! a = Some r -> used (mark a KUsed A) = <[a := ar_size r]> (used A).
Proof. intros Ha. used_tac. Qed.

Lemma used_mark_free A a : used (mark a KFree A) = delete a (used A).
Proof. used_tac. Qed.

Lemma used_split A a r n : A !! a = Some r -> ar_kind r = KUsed -> 0 < n -> used (split a r n A) = <[a := n]> (<[a + n := ar_size r - n]> (used A)).
Proof. intros Ha Hk Hn. used_tac. Qed.

Lemma used_merge A a r q : A !! a = Some r -> A !! (a + ar_size r) = Some q -> ar_kind r = KUsed -> ar_kind q = KUsed -> 0 < ar_size r ->
  used (merge a r q A) = <[a := ar_size r + ar_size q]> (delete (a + ar_size r) (used A)).
Proof. intros Ha Hb Hk Hq Hz. used_tac. Qed.

Lemma used_add_used A lo hi : A !! lo = None -> A !! (hi - 16) = None -> lo + 16 < hi - 16 -> used (add_segment lo hi KUsed A) = <[lo + 16 := hi - lo - 32]> (used A).
Proof. intros H1 H2 H3. used_tac. Qed.

Lemma used_add_free A lo hi : A !! lo = None -> A !! (lo + 16) = None -> A !! (hi - 16) = None -> used (add_segment lo hi KFree A) = used A.
Proof. intros H1 H2 H3. used_tac. Qed.

Lemma used_remove A l a b rl rb : A !! l = Some rl -> A !! b = Some rb -> ar_kind rl <> KUsed -> ar_kind rb <> KUsed -> used (remove_segment l a b A) = delete a (used A).
Proof. intros Hl Hb Kl Kb. used_tac. Qed.

Lemma used_cut_right A a r q : A !! a = Some r -> A !! (a + ar_size r) = Some q -> ar_kind q = KRight -> used (cut_right a r A) = delete a (used A).
Proof. intros Ha Hb Kb. used_tac. Qed.

Lemma used_cut_left A a r q x : A !! ar_left r = Some q -> ar_kind q = KLeft -> A !! x = None -> used (cut_left a r x A) = delete a (used A).
Proof. intros Hb Kb Hx. used_tac. Qed.

(** Headers are 16 bytes, so two of them share no word. *)
Lemma headers_apart A a b r q : geom A -> A !! a = Some r -> A !! b = Some q -> a <> b -> a + 16 <= b \/ b + 16 <= a.
Proof. intros G Ha Hb Hne. pose proof (ge_facts _ _ _ G Ha). pose proof (ge_facts _ _ _ G Hb). destruct (ge_apart _ G _ _ _ _ Ha Hb Hne); lia. Qed.
End geom.
