(* ===== verification/HeapSpec.v ===== *)
(** * The heap keeps its shape

    The invariant of the heap: the headers in memory describe areas that fill the heap's pages from end to end,
    the lists hold the free ones, and the counters are the sums.  Every routine of the allocator is
    shown to keep it, to stay clear of faults and to leave the contents of every block alone.  The page allocator is
    known by an interface: it gives pages that the heap does not have, and takes back pages it has. *)

From stdpp Require Import base gmap list fin_maps fin_sets numbers.
From S2P Require Import Prelude Align Heap HeapIndex HeapLists HeapGeom.

(** ** Pages *)

(** [pg_holds p X]: the pages numbered [X] were given out to the heap and have not come back.  The assertion in [unlink_free] limits a
    heap to 4,000,000,000 bytes, so the machine is one that has less for it. *)
Class PageLaws (P : Type) `{PageOps P} := {
  pg_holds : P -> gset Z -> Prop;
  pg_bound : forall p X, pg_holds p X -> 4096 * Z.of_nat (size X) < 4000000000;
  pg_alloc_wp : forall p X n, pg_holds p X -> 0 < n < 2 ^ 32 ->
    wp (pg_alloc n) (fun v p' => (v = 0 /\ pg_holds p' X) \/
      (0 < v /\ (4096 | v) /\ v + 4096 * n < 2 ^ 64 /\ pages_of v n ## X /\ pg_holds p' (pages_of v n ∪ X))) p;
  pg_free_wp : forall p X v n, pg_holds p X -> 0 < n < 2 ^ 32 -> (4096 | v) -> pages_of v n ⊆ X ->
    wp (pg_free v n) (fun _ p' => pg_holds p' (X ∖ pages_of v n)) p }.

Lemma elem_of_pages v n x : (4096 | v) -> x / 4096 ∈ pages_of v n <-> v <= x < v + 4096 * n.
Proof.
  intros [k ->]. unfold pages_of. change PAGE_SIZE with 4096. rewrite Z.div_mul by lia. rewrite elem_of_list_to_set, elem_of_seqZ.
  pose proof (Z.div_mod x 4096 ltac:(lia)). pose proof (Z.mod_pos_bound x 4096 ltac:(lia)). lia.
Qed.

Lemma size_pages v n : 0 <= n -> Z.of_nat (size (pages_of v n)) = n.
Proof. intros. unfold pages_of. rewrite size_list_to_set by apply NoDup_seqZ. rewrite length_seqZ. lia. Qed.

(** ** The invariant *)

(** The left pointer with its tag. *)
Definition hdr (r : area) : Z := ar_left r + if decide (ar_kind r = KFree) then 1 else 0.

Definition hdrs (A : areas) (m : mem) : Prop := forall a r, A !! a = Some r -> word m a = hdr r /\ word m (a + 8) = ar_size r.

Definition covered (A : areas) (X : gset Z) : Prop := forall a r x, A !! a = Some r -> a <= x < a + ext r -> x / 4096 ∈ X.

(** Bytes of the blocks [B], a map from the addresses of their headers to their sizes. *)
Definition payload (B : gmap Z Z) (x : Z) : Prop := exists a z, B !! a = Some z /\ a + 16 <= x < a + z.

Section spec.
Context {P : Type} {PO : PageOps P} {PL : PageLaws P}.
Implicit Types (s : heap P) (A U : areas) (r q : area) (Fr : gmap Z Z) (F : Z -> list Z) (a b x : Z).

(** All but the headers: [Fr] are the areas that are in the lists. *)
Record mid A Fr s : Prop := {
  mi_geom : geom A;
  mi_sub : forall a z, Fr !! a = Some z -> frees A !! a = Some z;
  mi_lists : exists F, lists Fr F s;
  mi_cov : covered A (hp_mapped s);
  mi_total : hp_size s = total A;
  mi_pages : hp_size s = 4096 * Z.of_nat (size (hp_mapped s));
  mi_holds : pg_holds (hp_pages s) (hp_mapped s) }.

(** No two neighbours are both free. *)
Definition coalesced A : Prop := forall a r q, A !! a = Some r -> ar_kind r = KFree -> A !! (a + ar_size r) = Some q -> ar_kind q <> KFree.

Record inv A s : Prop := {
  in_mid : mid A (frees A) s;
  in_hdrs : hdrs A (hp_mem s);
  in_coalesced : coalesced A }.

(** The left sentinels are nothing but headers, as long as the heap has not been trimmed. *)
Definition plain A : Prop := forall a r, A !! a = Some r -> ar_kind r = KLeft -> ar_size r = 16.

(** ** Reading and writing headers *)

Lemma mid_usable A Fr s a r x : mid A Fr s -> A !! a = Some r -> (8 | x) -> a <= x < a + ext r -> usable s x = true.
Proof. intros M Ha H8 Hx. apply usable_spec. split; [by apply Z.mod_divide|]. by apply (mi_cov _ _ _ M a r). Qed.

Lemma area_8 A a r : geom A -> A !! a = Some r -> (8 | a) /\ (8 | a + 8) /\ (8 | ar_size r) /\ (8 | a + 16) /\ (8 | a + 24).
Proof.
  intros G Ha. destruct (ge_ok _ G a r Ha) as (_ & H8 & Hs & _). split_and!; try done; (apply Z.divide_add_r; [done|]); [by exists 1|by exists 2|by exists 3].
Qed.

Lemma mid_header A Fr s a r : mid A Fr s -> A !! a = Some r -> usable s a = true /\ usable s (a + 8) = true.
Proof.
  intros M Ha. pose proof (mi_geom _ _ _ M) as G. pose proof (area_8 _ _ _ G Ha) as (? & ? & _). pose proof (ge_facts _ _ _ G Ha).
  split; eapply mid_usable; try done; lia.
Qed.

Lemma hdr_left_wp Q a s : usable s a = true -> Q (word (hp_mem s) a) s -> wp (hdr_left a) Q s.
Proof. apply ld_wp. Qed.

Lemma hdr_size_wp Q a s : usable s (a + 8) = true -> Q (word (hp_mem s) (a + 8)) s -> wp (hdr_size a) Q s.
Proof. apply ld_wp. Qed.

Lemma right_header_wp Q a s : usable s (a + 8) = true -> Q (a + word (hp_mem s) (a + 8)) s -> wp (right_header a) Q s.
Proof. intros. unfold right_header. wp_step. by apply hdr_size_wp. Qed.

(** Addresses are multiples of 8, so the tag is apart from them. *)
Lemma land_1 x : Z.land x 1 = x mod 2.
Proof. change 1 with (Z.ones 1). rewrite Z.land_ones by lia. done. Qed.

Lemma divide_8_mod_2 x : (8 | x) -> x mod 2 = 0.
Proof. intros [k ->]. replace (k * 8) with (k * 4 * 2) by lia. apply Z.mod_mul. lia. Qed.

Lemma untag_spec x (t : Z) : (8 | x) -> 0 <= x < 2 ^ 64 - 8 -> 0 <= t <= 1 -> untag (x + t) = x.
Proof.
  intros [k ->] Hx Ht. unfold untag. change (Z.lnot 1) with (Z.lnot (2 ^ 1 - 1)). rewrite land_mask by lia. change (2 ^ 1) with 2.
  replace (k * 8 + t) with (t + k * 4 * 2) by lia. rewrite Z.div_add, Z.div_small by lia. lia.
Qed.

Lemma untag_id x : (8 | x) -> 0 <= x < 2 ^ 64 - 8 -> untag x = x.
Proof. intros H8 Hx. rewrite <- (Z.add_0_r x) at 1. apply untag_spec; [done|lia|lia]. Qed.

(** The left pointer of an area. *)
Lemma left_ok A a r : geom A -> A !! a = Some r -> (8 | ar_left r) /\ 0 <= ar_left r < 2 ^ 64 - 16 /\ (ar_left r = 0 <-> ar_kind r = KLeft).
Proof.
  intros G Ha. destruct (decide (ar_kind r = KLeft)) as [K|K].
  - pose proof (ge_ok _ G a r Ha) as (_ & _ & _ & _ & _ & _ & Ho). unfold kind_ok in Ho. rewrite K in Ho. destruct Ho as (-> & _). split_and!; [apply Z.divide_0_r|lia..|done].
  - destruct (ge_left _ G a r Ha K) as (q & Hq & _). pose proof (ge_facts _ _ _ G Hq). pose proof (area_8 _ _ _ G Hq). split_and!; try tauto; try lia. split; [lia|done].
Qed.

Lemma hdr_tag A a r : geom A -> A !! a = Some r -> negb (Z.land (hdr r) 1 =? 0) = bool_decide (ar_kind r = KFree).
Proof.
  intros G Ha. destruct (left_ok _ _ _ G Ha) as (H8 & _). rewrite land_1. unfold hdr. pose proof (divide_8_mod_2 _ H8) as E.
  case_decide as K; rewrite Z.add_mod, E by lia; [by rewrite bool_decide_eq_true_2|by rewrite bool_decide_eq_false_2].
Qed.

Lemma hdr_untag A a r : geom A -> A !! a = Some r -> untag (hdr r) = ar_left r.
Proof. intros G Ha. destruct (left_ok _ _ _ G Ha) as (H8 & Hr & _). unfold hdr. apply untag_spec; [done|lia|]. case_decide; lia. Qed.

Lemma hdr_range A a r : geom A -> A !! a = Some r -> 0 <= hdr r < 2 ^ 64 /\ (hdr r = 0 <-> ar_kind r = KLeft).
Proof.
  intros G Ha. destruct (left_ok _ _ _ G Ha) as (H8 & Hr & H0). unfold hdr. case_decide as K; split; [lia| |lia|by rewrite Z.add_0_r]. rewrite K in *. split; [lia|done].
Qed.

Lemma tagged_wp Q A a r s : geom A -> A !! a = Some r -> usable s a = true -> word (hp_mem s) a = hdr r -> Q (bool_decide (ar_kind r = KFree)) s -> wp (is_tagged_as_free a) Q s.
Proof. intros G Ha Hu Hw HQ. unfold is_tagged_as_free. wp_step. apply hdr_left_wp; [done|]. wp_step. by rewrite Hw, (hdr_tag A a r). Qed.

Lemma size_zero A a r : geom A -> A !! a = Some r -> ar_size r = 0 <-> ar_kind r = KRight.
Proof. intros G Ha. pose proof (ge_ok _ G a r Ha) as (_ & _ & _ & _ & _ & _ & Ho). unfold kind_ok in Ho. destruct (ar_kind r); split; try done; lia. Qed.

(** ** Frames *)

Lemma link_area A Fr x : geom A -> (forall a z, Fr !! a = Some z -> frees A !! a = Some z) -> link Fr x ->
  exists a r, A !! a = Some r /\ ar_kind r = KFree /\ a + 16 <= x < a + ext r.
Proof.
  intros G Hs (a & [z Hz] & Hx). apply Hs, frees_spec in Hz as (r & Hr & Hk & _). exists a, r. split_and!; try done; [lia|].
  pose proof (ge_ok _ G a r Hr) as (_ & _ & _ & _ & _ & _ & Ho). unfold kind_ok in Ho. rewrite Hk in Ho. rewrite ext_size by congruence. lia.
Qed.

Lemma hdrs_keeps W A s s' : keeps W s s' -> (forall x, W x -> off_headers A x) -> hdrs A (hp_mem s) -> hdrs A (hp_mem s').
Proof.
  intros K HW Hh a r Ha. destruct (Hh a r Ha) as [<- <-]. split; apply K; intros Hx; destruct (HW _ Hx a r Ha); lia.
Qed.

Lemma hdrs_sub A U m : (forall a r, U !! a = Some r -> A !! a = Some r) -> hdrs A m -> hdrs U m.
Proof. intros Hs Hh a r Ha. auto. Qed.

Lemma hdrs_delete A a m : hdrs A m -> hdrs (delete a A) m.
Proof. apply hdrs_sub. by intros b r [_ Hb]%lookup_delete_Some. Qed.

Lemma mid_keeps W A Fr Fr' s s' : mid A Fr s -> keeps W s s' -> (exists F, lists Fr' F s') -> (forall a z, Fr' !! a = Some z -> frees A !! a = Some z) -> mid A Fr' s'.
Proof. intros [M1 M2 M3 M4 M5 M6 M7] [K1 K2 K3 K4 K5 K6] HL Hs. split; rewrite ?K2, ?K3, ?K4; done. Qed.

Lemma mid_shape A U Fr s : mid A Fr s -> geom U -> inside U A -> total U = total A -> (forall a z, Fr !! a = Some z -> frees U !! a = Some z) -> mid U Fr s.
Proof.
  intros [M1 M2 M3 M4 M5 M6 M7] G Hi Ht Hs. split; try done; [|congruence]. intros a r x Ha Hx. destruct (Hi x) as (b & q & Hb & Hx'); [by exists a, r|]. by apply (M4 b q).
Qed.

(** ** The lists, with the areas around them *)

Lemma mid_bound A Fr s : mid A Fr s -> msum id Fr <= total A /\ total A < 4000000000 /\ total A = hp_size s.
Proof.
  intros M. pose proof (mi_geom _ _ _ M) as G. pose proof (pg_bound _ _ (mi_holds _ _ _ M)). rewrite <- (mi_pages _ _ _ M), (mi_total _ _ _ M) in *. split_and!; [|done..].
  apply msum_bounds.
  - intros k v Hv. apply (mi_sub _ _ _ M), frees_spec in Hv as (r & Hr & Hk & <-). exists r. split; [done|]. unfold id. rewrite ext_size by congruence. lia.
  - intros k r Hr. pose proof (ge_facts _ _ _ G Hr). lia.
Qed.

Lemma free_listable A Fr s a r : mid A Fr s -> A !! a = Some r -> (ar_kind r = KFree \/ ar_kind r = KUsed /\ ar_hi r - ar_lo r <= BIG) -> listable s a (ar_size r).
Proof.
  intros M Ha Hk. pose proof (mi_geom _ _ _ M) as G. pose proof (ge_ok _ G a r Ha) as (O1 & O2 & O3 & O4 & O5 & O6 & Ho).
  assert (32 <= ar_size r /\ ar_hi r - ar_lo r <= BIG /\ ext r = ar_size r) as (Hs & Hb & He).
  { unfold kind_ok in Ho. destruct Hk as [Hk|[Hk ?]]; rewrite Hk in Ho; (split; [lia|split; [lia|apply ext_size; congruence]]). }
  rewrite He in O5. unfold listable, BIG in *. split_and!; try lia; [by apply Z.mod_divide|..]; apply (mi_cov _ _ _ M a r); try done; lia.
Qed.

Lemma mid_unlink_lists A Fr F s a z : mid A Fr s -> lists Fr F s -> Fr !! a = Some z -> word (hp_mem s) (a + 8) = z ->
  wp (unlink_free a (bucket_of (z - 16))) (fun _ s' => keeps (link Fr) s s' /\ mid A (delete a Fr) s' /\ exists F', lists (delete a Fr) F' s' /\ forall j, F' j = without a (F j)) s.
Proof.
  intros M L Hz Hw. pose proof (mi_sub _ _ _ M a z Hz) as (r & Hr & _)%frees_spec. pose proof (mid_bound _ _ _ M).
  pose proof (mid_header _ _ _ _ _ M Hr) as [_ Hu]. eapply wp_mono; [apply (unlink_free_wp Fr F); try done; lia|]. intros _ s' (K & F' & L' & EF). split; [done|]. split; [|eauto].
  eapply mid_keeps; try done; [by eauto|]. intros b y [_ Hb]%lookup_delete_Some. by apply M.
Qed.

Lemma mid_unlink A Fr s a z : mid A Fr s -> Fr !! a = Some z -> word (hp_mem s) (a + 8) = z ->
  wp (unlink_free a (bucket_of (z - 16))) (fun _ s' => keeps (link Fr) s s' /\ mid A (delete a Fr) s') s.
Proof. intros M Hz Hw. destruct (mi_lists _ _ _ M) as [F L]. eapply wp_mono; [by apply (mid_unlink_lists A Fr F)|]. naive_solver. Qed.

Lemma mid_unlink_unknown A Fr s a z : mid A Fr s -> Fr !! a = Some z -> word (hp_mem s) (a + 8) = z ->
  wp (unlink_free_unknown_bucket a) (fun _ s' => keeps (link Fr) s s' /\ mid A (delete a Fr) s') s.
Proof.
  intros M Hz Hw. pose proof (mi_sub _ _ _ M a z Hz) as (r & Hr & _)%frees_spec. destruct (mi_lists _ _ _ M) as [F L]. pose proof (mid_bound _ _ _ M).
  pose proof (mid_header _ _ _ _ _ M Hr) as [_ Hu]. eapply wp_mono; [apply (unlink_free_unknown_bucket_wp Fr F _ _ z); try done; lia|]. intros _ s' (K & F' & L' & _). split; [done|].
  eapply mid_keeps; try done; [by eauto|]. intros b y [_ Hb]%lookup_delete_Some. by apply M.
Qed.

(** An area that is given out, as far as the geometry says, becomes free. *)
Lemma mid_create_lists A F s a r l : mid A (frees A) s -> lists (frees A) F s -> A !! a = Some r -> ar_kind r = KUsed -> ar_hi r - ar_lo r <= BIG -> (8 | l) -> 0 <= l < 2 ^ 64 - 16 ->
  wp (create_free_area a l (ar_size r) None) (fun _ s' => keeps (fun x => (a <= x < a + 32) \/ link (frees A) x) s s' /\
    word (hp_mem s') a = l + 1 /\ word (hp_mem s') (a + 8) = ar_size r /\ mid (mark a KFree A) (frees (mark a KFree A)) s' /\
    exists F', lists (frees (mark a KFree A)) F' s' /\ forall j, F' j = if decide (j = bucket_of (ar_size r - 16)) then a :: F j else F j) s.
Proof.
  intros M L Ha Hk Hb L8 Lr. pose proof (mi_geom _ _ _ M) as G. pose proof (mid_bound _ _ _ M). pose proof (mid_header _ _ _ _ _ M Ha) as [Hu1 Hu2].
  pose proof (free_listable _ _ _ _ _ M Ha ltac:(eauto)) as Hl. pose proof Hl as (_ & _ & Hz & _). unfold BIG in Hz. eapply wp_mono; [apply (create_free_area_wp (frees A) F)|]; try done; try lia.
  - apply (frees_none _ _ r); [done|congruence].
  - intros b y (q & Hq & Kq & _)%frees_spec. pose proof (ge_ok _ G _ _ Ha) as (_ & _ & _ & _ & _ & _ & Oa). pose proof (ge_ok _ G _ _ Hq) as (_ & _ & _ & _ & _ & _ & Ob).
    unfold kind_ok in *. rewrite Hk in Oa. rewrite Kq in Ob. unfold apart. assert (a <> b) as Hne by (intros ->; congruence).
    destruct (ge_apart _ G _ _ _ _ Ha Hq Hne) as [Hle|Hle]; rewrite ext_size in Hle by congruence; lia.
  - by apply Z.mod_divide.
  - intros _ s' (K & W1 & W2 & F' & L' & EF). rewrite <- (frees_mark_free _ _ _ Ha) in L'. do 3 (split; [done|]). split; [|eauto].
    assert (frees A !! a = None) as Hn by (apply (frees_none _ _ r); [done|congruence]).
    eapply (mid_keeps _ (mark a KFree A) (frees A)); try done; [|by eauto].
    eapply mid_shape; [done|by eapply geom_mark; eauto|apply (inside_mark _ _ r); [done|congruence|done]|apply (total_mark _ _ r); [done|congruence|done]|].
    intros b y Hy. rewrite (frees_mark_free _ _ _ Ha), lookup_insert_ne by congruence. done.
Qed.

Lemma mid_create A s a r l : mid A (frees A) s -> A !! a = Some r -> ar_kind r = KUsed -> ar_hi r - ar_lo r <= BIG -> l = ar_left r ->
  wp (create_free_area a l (ar_size r) None) (fun _ s' => keeps (fun x => (a <= x < a + 32) \/ link (frees A) x) s s' /\
    word (hp_mem s') a = l + 1 /\ word (hp_mem s') (a + 8) = ar_size r /\ mid (mark a KFree A) (frees (mark a KFree A)) s') s.
Proof.
  intros M Ha Hk Hb ->. destruct (mi_lists _ _ _ M) as [F L]. pose proof (left_ok _ _ _ (mi_geom _ _ _ M) Ha) as (L8 & Lr & _).
  eapply wp_mono; [by apply (mid_create_lists A F)|]. naive_solver.
Qed.

(** ** Writing headers *)

Lemma usable_mem f s x : usable (on_mem f s) x = usable s x.
Proof. done. Qed.

Definition put_header (a l z : Z) s : heap P := on_mem (<[a + 8 := z]>) (on_mem (<[a := l]>) s).

Lemma create_allocation_header_wp Q a off x z l l' s : x = a + off -> usable s x = true -> usable s (x + 8) = true -> untag l = l' -> 0 <= l' < 2 ^ 64 -> 0 <= z < 2 ^ 64 ->
  Q (x + 16) (put_header x l' z s) -> wp (create_allocation_header a off z l) Q s.
Proof.
  intros -> H1 H2 El Hl Hz HQ. unfold create_allocation_header. wp_step. apply st_wp; [done|]. wp_step. apply st_wp; [done|]. wp_step. by rewrite El, !u64_small by done.
Qed.

Lemma put_header_words a l z s : word (hp_mem (put_header a l z s)) a = l /\ word (hp_mem (put_header a l z s)) (a + 8) = z.
Proof. cbn. rewrite word_put_ne, !word_put_eq by lia. done. Qed.

Lemma put_header_keeps (W : Z -> Prop) a l z s : W a -> W (a + 8) -> keeps W s (put_header a l z s).
Proof. intros H1 H2. eapply keeps_trans; by apply keeps_put. Qed.

Lemma put_header_other a l z s x : x <> a -> x <> a + 8 -> word (hp_mem (put_header a l z s)) x = word (hp_mem s) x.
Proof. intros. cbn. by rewrite !word_put_ne. Qed.

Lemma hdrs_insert A a r m : hdrs (delete a A) m -> word m a = hdr r -> word m (a + 8) = ar_size r -> hdrs (<[a := r]> A) m.
Proof. intros Hh H1 H2 b q Hb. apply lookup_insert_Some in Hb as [[<- <-]|[Hne Hb]]; [done|]. apply Hh. by apply lookup_delete_Some. Qed.

Lemma mark_insert A a r k : A !! a = Some r -> mark a k A = <[a := set_kind k r]> A.
Proof. intros Ha. apply map_eq. intros y. unfold mark. rewrite lookup_alter, lookup_insert. case_decide; [subst; by rewrite Ha|done]. Qed.

Lemma fix_left_insert A a r l : A !! a = Some r -> fix_left a l A = <[a := set_left l r]> A.
Proof. intros Ha. apply map_eq. intros y. unfold fix_left. rewrite lookup_alter, lookup_insert. case_decide; [subst; by rewrite Ha|done]. Qed.

Lemma FixLeftPointer_wp Q A b q x l s : geom A -> A !! b = Some q -> usable s x = true -> word (hp_mem s) x = hdr q -> (8 | l) -> 0 <= l < 2 ^ 64 - 16 ->
  Q tt (on_mem (<[x := hdr (set_left l q)]>) s) -> wp (FixLeftPointer x l) Q s.
Proof.
  intros G Hb Hu Hw H8 Hl HQ. unfold FixLeftPointer. wp_step. apply hdr_left_wp; [done|]. apply st_wp; [done|]. rewrite Hw, untag_id by (done || lia). revert HQ.
  assert (u64 (Z.lor l (Z.land (hdr q) 1)) = hdr (set_left l q)) as ->; [|done]. pose proof (hdr_tag _ _ _ G Hb) as Ht. rewrite land_1 in *.
  unfold hdr in *. cbn. pose proof (proj1 (left_ok _ _ _ G Hb)) as E%divide_8_mod_2. case_decide as K.
  - rewrite Z.add_mod, E by lia. change ((0 + 1 mod 2) mod 2) with 1. fold (tag_as_free l). rewrite tag_as_free_eq by (try lia; by apply Z.mod_divide). apply u64_small. lia.
  - rewrite Z.add_0_r, E, Z.lor_0_r, Z.add_0_r. apply u64_small. lia.
Qed.

(** A word that is not a link of an area in the lists. *)
Lemma not_link A Fr a r x : geom A -> (forall a z, Fr !! a = Some z -> frees A !! a = Some z) -> A !! a = Some r -> a <= x < a + ext r -> (Fr !! a = None \/ x < a + 16) -> ~ link Fr x.
Proof.
  intros G Hs Ha Hx Hor Hl. pose proof Hl as (b & [z Hz] & Hx'). pose proof (Hs b z Hz) as (q & Hq & Kq & _)%frees_spec.
  pose proof (ge_ok _ G _ _ Hq) as (_ & _ & _ & _ & _ & _ & Ob). unfold kind_ok in Ob. rewrite Kq in Ob.
  assert (a = b) as -> by (eapply (in_area_unique A _ _ _ _ x); try done; rewrite (ext_size q) by congruence; lia). destruct Hor; [congruence|lia].
Qed.

Lemma mid_put A Fr s x v : mid A Fr s -> ~ link Fr x -> mid A Fr (on_mem (<[x := v]>) s).
Proof.
  intros M Hx. destruct (mi_lists _ _ _ M) as [F L]. eapply (mid_keeps (fun y => y = x)); try done; [by apply keeps_put| |apply M].
  exists F. eapply lists_frame; try done. intros y Hy. cbn. apply word_put_ne. by intros ->.
Qed.

(** The header of an area is not in the way of the lists. *)
Lemma mid_put_header A Fr s a r x v : mid A Fr s -> A !! a = Some r -> (x = a \/ x = a + 8) -> mid A Fr (on_mem (<[x := v]>) s).
Proof.
  intros M Ha Hx. apply mid_put; [done|]. pose proof (ge_facts _ _ _ (mi_geom _ _ _ M) Ha). eapply (not_link A); try done; [apply M|apply M|lia|right; lia].
Qed.

Lemma mid_put_header_of A Fr s a r l z : mid A Fr s -> A !! a = Some r -> mid A Fr (put_header a l z s).
Proof. intros M Ha. unfold put_header. eapply mid_put_header; [|done|by right]. eapply mid_put_header; [done|done|by left]. Qed.

(** Links are not in headers. *)
Lemma hdrs_links A Fr s s' : geom A -> (forall a z, Fr !! a = Some z -> frees A !! a = Some z) -> keeps (link Fr) s s' -> hdrs A (hp_mem s) -> hdrs A (hp_mem s').
Proof.
  intros G Hs K. apply hdrs_keeps with (1 := K). intros x Hx b q Hb. apply (link_area A) in Hx as (c & p & Hcp & _ & Hx); [|done|done]. by eapply (off_headers_inside A c).
Qed.

Lemma hdr_no_tag r : ar_kind r <> KFree -> hdr r = ar_left r.
Proof. intros. unfold hdr. rewrite decide_False by done. lia. Qed.

(** ** Taking an area out of its list *)

(** The words that change: links, the area itself and the left pointer of the area to its right. *)
Definition touched A a r x : Prop := link (frees A) x \/ a <= x < a + ext r \/ x = a + ar_size r.

Lemma touched_headers A a r x b q : geom A -> A !! a = Some r -> ar_kind r <> KRight -> touched A a r x -> A !! b = Some q -> b <> a -> b <> a + ar_size r -> x <> b /\ x <> b + 8.
Proof.
  intros G Ha Hk Hx Hb N1 N2. destruct Hx as [Hx|[Hx|Hx]].
  - apply (link_area A) in Hx as (c & p & Hc & _ & Hx); [|done|done]. by eapply (off_headers_inside A c).
  - eapply (off_headers_delete A a); try done. by apply lookup_delete_Some.
  - destruct (ge_right _ G a r Ha Hk) as (p & Hp & _). destruct (headers_apart _ _ _ _ _ G Hb Hp N2); lia.
Qed.

(** No byte of a block that is given out, but for those of the area itself. *)
Lemma touched_payload A a r x : geom A -> A !! a = Some r -> ar_kind r <> KRight -> touched A a r x -> ~ payload (delete a (used A)) x.
Proof.
  intros G Ha Hk Hx (b & z & [Hne (q & Hb & Kb & <-)%used_spec]%lookup_delete_Some & Hxb). assert (b <= x < b + ext q) as Hin by (rewrite ext_size by congruence; lia).
  destruct Hx as [Hx|[Hx|Hx]].
  - apply (link_area A) in Hx as (c & p & Hc & Kc & Hx); [|done|done]. assert (b = c) as -> by (eapply (in_area_unique A _ _ _ _ x); try done; lia). congruence.
  - apply Hne. eapply (in_area_unique A _ _ _ _ x); done.
  - destruct (ge_right _ G a r Ha Hk) as (p & Hp & _). pose proof (ge_facts _ _ _ G Hp). assert (b = a + ar_size r) as -> by (eapply (in_area_unique A _ _ _ _ x); try done; lia). lia.
Qed.

(** The words of [D] are the same, and so is the rest that callers see. *)
Record quiet (D : Z -> Prop) s s' : Prop := {
  qu_mem : forall x, D x -> word (hp_mem s') x = word (hp_mem s) x;
  qu_locked : hp_locked s' = hp_locked s;
  qu_delayed : delayed_free_list s' = delayed_free_list s }.

Lemma heap_quiet_trans D s1 s2 s3 : quiet D s1 s2 -> quiet D s2 s3 -> quiet D s1 s3.
Proof. intros [M1 L1 D1] [M2 L2 D2]. split; [|congruence..]. intros x Hx. by rewrite M2, M1. Qed.

Lemma quiet_mono (D D' : Z -> Prop) s s' : (forall x, D' x -> D x) -> quiet D s s' -> quiet D' s s'.
Proof. intros Hs [M1 L1 D1]. split; auto. Qed.

Lemma heap_keeps_quiet (W D : Z -> Prop) s s' : (forall x, W x -> ~ D x) -> keeps W s s' -> quiet D s s'.
Proof. intros HW [M1 _ _ _ L1 D1]. split; try done. intros x Hx. apply M1. intros Hw. by apply (HW x). Qed.

Lemma payload_mono (B B' : gmap Z Z) x : B ⊆ B' -> payload B x -> payload B' x.
Proof. intros Hs (a & z & Hz & Hx). exists a, z. split; [|done]. by eapply lookup_weaken. Qed.

(** The first [n] bytes of a free area are given out and the rest stays free. *)
Definition carve (a : Z) r (n : Z) A : areas := mark (a + n) KFree (split a (set_kind KUsed r) n (mark a KUsed A)).

Lemma carve_lookup A a r n y : 0 < n < ar_size r -> carve a r n A !! y =
  if decide (y = a + n) then Some (Area (ar_size r - n) a KFree (ar_lo r) (ar_hi r)) else
  if decide (y = a) then Some (Area n (ar_left r) KUsed (ar_lo r) (ar_hi r)) else
  if decide (y = a + ar_size r) then set_left (a + n) <$> A !! y else A !! y.
Proof.
  intros Hn. unfold carve, mark, split, fix_left. rewrite lookup_alter, !lookup_insert, !lookup_alter. cbn. repeat case_decide; try lia; try done. by subst y.
Qed.

Lemma carve_spec A a r n : geom A -> A !! a = Some r -> ar_kind r = KFree -> (8 | n) -> 32 <= n -> 32 <= ar_size r - n ->
  let V := split a (set_kind KUsed r) n (mark a KUsed A) in
  geom V /\ inside V A /\ total V = total A /\ frees V = delete a (frees A) /\ V !! (a + n) = Some (Area (ar_size r - n) a KUsed (ar_lo r) (ar_hi r)) /\
  used (carve a r n A) = <[a := n]> (used A).
Proof.
  intros G Ha Hk H8 Hn1 Hn2 V. pose proof (ge_ok _ G a r Ha) as (_ & _ & _ & _ & _ & _ & Oa). unfold kind_ok in Oa. rewrite Hk in Oa.
  assert (geom (mark a KUsed A)) as G1 by (eapply geom_mark; eauto; lia).
  assert (mark a KUsed A !! a = Some (set_kind KUsed r)) as Ha1 by (unfold mark; rewrite lookup_alter, decide_True, Ha by done; done).
  pose proof (ge_inside _ _ _ (a + n) G Ha) as Hin. rewrite ext_size in Hin by congruence. specialize (Hin ltac:(lia)).
  assert (mark a KUsed A !! (a + n) = None) as Hn by (unfold mark; rewrite lookup_alter, decide_False by lia; done). split_and!.
  - apply geom_split; cbn; try done; lia.
  - eapply inside_trans; [apply (inside_mark A a r KUsed); congruence || done|]. apply inside_split; cbn; done || lia.
  - unfold V. rewrite total_split by (done || cbn; lia). apply (total_mark _ _ r); congruence || done.
  - unfold V. rewrite frees_split by done. apply frees_mark_used.
  - unfold V, split. cbn. apply lookup_insert_eq.
  - unfold carve. rewrite used_mark_free, used_split by (done || lia). rewrite (used_mark_used _ _ r) by done. apply map_eq. intros y.
    rewrite lookup_delete, !lookup_insert. repeat case_decide; subst; try lia; try done. symmetry. apply used_none. intros q Hq. congruence.
Qed.

Lemma touched_split A a r x : geom A -> A !! a = Some r -> ar_kind r = KFree ->
  (link (frees A) x \/ a <= x < a + ar_size r \/ x = a + ar_size r) -> touched A a r x.
Proof. intros G Ha Hk. unfold touched. rewrite ext_size by congruence. done. Qed.

Lemma coalesced_mark_used A a : coalesced A -> coalesced (mark a KUsed A).
Proof.
  intros Hc b r q Hb Kb Hq. unfold mark in *. rewrite lookup_alter in Hb, Hq. destruct (decide (a = b)) as [->|]; [apply fmap_Some in Hb as (? & _ & ->); done|].
  case_decide; [apply fmap_Some in Hq as (? & _ & ->); done|]. eauto.
Qed.

Lemma take_whole_wp A s a r : inv A s -> A !! a = Some r -> ar_kind r = KFree ->
  wp (unlink_free a (bucket_of (ar_size r - 16)) ;; do hsize <- hdr_size a; do hleft <- hdr_left a; create_allocation_header a 0 hsize hleft)
    (fun p s' => p = a + 16 /\ keeps (touched A a r) s s' /\ inv (mark a KUsed A) s') s.
Proof.
  intros [M Hh Hc] Ha Hk. pose proof (mi_geom _ _ _ M) as G. destruct (Hh a r Ha) as [H1 H2]. pose proof (left_ok _ _ _ G Ha) as (L8 & Lr & _).
  pose proof (ge_ok _ G a r Ha) as (_ & _ & _ & _ & _ & _ & Oa). unfold kind_ok in Oa. rewrite Hk in Oa. pose proof (ge_facts _ _ _ G Ha).
  wp_step. eapply wp_mono; [apply (mid_unlink A (frees A)); [done|apply frees_spec; eauto|done]|]. intros _ s1 [K1 M1].
  assert (hdrs A (hp_mem s1)) as Hh1 by (eapply hdrs_links; [done| |exact K1|done]; done).
  destruct (Hh1 a r Ha) as [H3 H4]. pose proof (mid_header _ _ _ _ _ M1 Ha) as [Hu1 Hu2].
  wp_step. apply hdr_size_wp; [done|]. rewrite H4. wp_step. apply hdr_left_wp; [done|]. rewrite H3.
  eapply (create_allocation_header_wp _ _ _ a); [lia|done|done|by apply (hdr_untag A a r)|lia..|].
  assert (keeps (touched A a r) s1 (put_header a (ar_left r) (ar_size r) s1)) as K2 by (apply put_header_keeps; right; left; lia).
  split; [done|]. split; [eapply keeps_trans; [eapply keeps_mono; [|exact K1]; by left|done]|].
  assert (mark a KUsed A !! a = Some (set_kind KUsed r)) as Ha1 by (unfold mark; rewrite lookup_alter, decide_True, Ha by done; done). split.
  - eapply mid_put_header_of; [|exact Ha1]. rewrite frees_mark_used.
    eapply mid_shape; [done|eapply geom_mark; eauto; lia|apply (inside_mark _ _ r); congruence || done|apply (total_mark _ _ r); congruence || done|]. by rewrite frees_mark_used.
  - rewrite (mark_insert _ _ r) by done. apply hdrs_insert; [|by rewrite hdr_no_tag; [apply put_header_words|]|apply put_header_words].
    eapply hdrs_keeps; [apply (put_header_keeps (fun x => a <= x < a + ext r)); lia| |by apply hdrs_delete]. intros x Hx. by eapply off_headers_delete.
  - by apply coalesced_mark_used.
Qed.

Lemma coalesced_carve A a r n : geom A -> A !! a = Some r -> ar_kind r = KFree -> 0 < n < ar_size r -> coalesced A -> coalesced (carve a r n A).
Proof.
  intros G Ha Hk Hn Hc b p q Hb Kb Hq. destruct (ge_right _ G a r Ha ltac:(congruence)) as (c & Hcc & Ec & _). pose proof (Hc a r c Ha Hk Hcc) as Kc.
  pose proof (ge_inside _ _ _ (a + n) G Ha) as Hin. rewrite ext_size in Hin by congruence. specialize (Hin ltac:(lia)).
  assert (forall y q, carve a r n A !! y = Some q -> y <> a + n -> ar_kind q = KFree -> exists q', A !! y = Some q' /\ ar_kind q' = KFree /\ ar_size q' = ar_size q /\ y <> a + ar_size r /\ y <> a) as Hold.
  { intros y u Hy Hyn Ku. rewrite carve_lookup, decide_False in Hy by done. case_decide; [injection Hy as <-; done|]. case_decide; [|by exists u].
    subst y. rewrite Hcc in Hy. injection Hy as <-. done. }
  intros Kq. destruct (decide (b = a + n)) as [->|Nb].
  - rewrite carve_lookup, decide_True in Hb by done. injection Hb as <-. cbn in Hq. destruct (Hold _ _ Hq ltac:(lia) Kq) as (_ & _ & _ & _ & ? & _). lia.
  - destruct (Hold _ _ Hb Nb Kb) as (p' & Hp' & Kp' & Ep' & _). destruct (ge_right _ G _ _ Hp' ltac:(congruence)) as (u & Hu & _). rewrite Ep' in Hu.
    destruct (decide (b + ar_size p = a + n)) as [E|E]; [congruence|]. destruct (Hold _ _ Hq E Kq) as (q' & Hq' & Kq' & _). apply (Hc b p' q'); [done|done| |done]. by rewrite Ep'.
Qed.

Lemma take_part_wp A s a r n : inv A s -> A !! a = Some r -> ar_kind r = KFree -> (8 | n) -> 32 <= n -> 32 <= ar_size r - n ->
  wp (do right <- right_header a;
      unlink_free a (bucket_of (ar_size r - 16)) ;;
      do f <- create_free_area (a + n) a (ar_size r - n) None;
      FixLeftPointer right (a + n) ;;
      do hsize <- hdr_size a;
      st (a + 8) (u64 (hsize - (ar_size r - n))))
    (fun _ s' => word (hp_mem s') a = hdr r /\ word (hp_mem s') (a + 8) = n /\ keeps (touched A a r) s s' /\
      mid (carve a r n A) (frees (carve a r n A)) s' /\ hdrs (delete a (carve a r n A)) (hp_mem s')) s.
Proof.
  intros [M Hh Hc] Ha Hk H8 Hn1 Hn2. pose proof (mi_geom _ _ _ M) as G. destruct (Hh a r Ha) as [H1 H2].
  pose proof (ge_ok _ G a r Ha) as (_ & _ & _ & _ & _ & _ & Oa). unfold kind_ok in Oa. rewrite Hk in Oa. pose proof (ge_facts _ _ _ G Ha) as (F1 & F2 & F3 & F4 & F5). specialize (F5 ltac:(congruence)).
  pose proof (carve_spec _ _ _ n G Ha Hk H8 Hn1 Hn2) as (G2 & I2 & T2 & Fr2 & Hb2 & _). set (V := split _ _ _ _) in *.
  destruct (ge_right _ G a r Ha ltac:(congruence)) as (c & Hcc & Ec & Kc & _). pose proof (mid_header _ _ _ _ _ M Ha) as [Hu1 Hu2].
  wp_step. apply right_header_wp; [done|]. rewrite H2. wp_step. eapply wp_mono; [apply (mid_unlink A (frees A)); [done|apply frees_spec; eauto|done]|]. intros _ s1 [K1 M1].
  assert (mid V (frees V) s1) as M2 by (rewrite Fr2; eapply mid_shape; try done; by rewrite Fr2).
  wp_step. eapply wp_mono; [apply (mid_create V _ (a + n) _ a M2 Hb2); cbn; done || lia|]. cbn [ar_size]. intros _ s2 (K2 & W1 & W2 & M3). fold (carve a r n A) in M3.
  assert (forall b q x, A !! b = Some q -> (x = b \/ x = b + 8) -> x < a + n \/ a + n + 32 <= x -> word (hp_mem s2) x = word (hp_mem s1) x) as Hsame.
  { intros b q x Hb Hx Hr. apply K2. intros [?|Hl]; [lia|]. revert Hl. pose proof (ge_facts _ _ _ G Hb). eapply (not_link A _ b q); try done; [|lia|right; lia].
    intros y z' Hy. rewrite Fr2 in Hy. by apply lookup_delete_Some in Hy as [_ ?]. }
  assert (hdrs A (hp_mem s1)) as Hh1 by (eapply hdrs_links; [done| |exact K1|done]; done). destruct (Hh1 a r Ha) as [H3 H4]. destruct (Hh1 _ _ Hcc) as [H5 H6].
  assert (forall x, usable s2 x = usable s x) as Hus by (intros x; by rewrite (keeps_usable _ _ _ _ K2), (keeps_usable _ _ _ _ K1)).
  pose proof (mid_header _ _ _ _ _ M Hcc) as [Hu3 Hu4]. pose proof (area_8 _ _ _ G2 Hb2) as (B8 & _).
  wp_step. eapply (FixLeftPointer_wp _ A (a + ar_size r) c); [done|done|by rewrite Hus|by rewrite (Hsame _ _ _ Hcc); [|left|lia]|done|lia|].
  wp_step. apply hdr_size_wp; [by rewrite ?usable_mem, Hus|]. cbn [hp_mem on_mem]. rewrite word_put_ne, (Hsame _ _ _ Ha), H4 by lia. apply st_wp; [by rewrite ?usable_mem, Hus|].
  rewrite !u64_small by (rewrite ?u64_small; lia). replace (ar_size r - (ar_size r - n)) with n by lia. set (s4 := on_mem _ (on_mem _ s2)).
  assert (keeps (touched A a r) s s4) as K.
  { unfold s4. eapply keeps_trans; [eapply keeps_trans; [eapply keeps_trans; [eapply keeps_mono; [|exact K1]; by left|eapply keeps_mono; [|exact K2]]|]|].
    - intros x [Hx|(y & [z' Hy] & Hx)]; [right; left; lia|left]. rewrite Fr2 in Hy. apply lookup_delete_Some in Hy as [_ Hy]. exists y. eauto.
    - apply keeps_put. by right; right.
    - apply keeps_put. right; left; lia. }
  assert (word (hp_mem s4) (a + 8) = n) as E8 by apply word_put_eq.
  assert (forall x, x <> a + 8 -> x <> a + ar_size r -> word (hp_mem s4) x = word (hp_mem s2) x) as Ho by (intros; cbn; by rewrite !word_put_ne).
  split_and!; [|done|done| |].
  - rewrite Ho, (Hsame _ _ _ Ha) by lia. done.
  - eapply (mid_put_header _ _ _ a); [eapply (mid_put_header _ _ _ (a + ar_size r)); [exact M3| |by left]| |by right]; rewrite carve_lookup by lia.
    + rewrite !decide_False, decide_True, Hcc by lia. done.
    + rewrite decide_False, decide_True by lia. done.
  - intros y q [Hne Hy]%lookup_delete_Some. rewrite carve_lookup in Hy by lia. case_decide as E1; [|rewrite decide_False in Hy by done; case_decide as E2].
    + injection Hy as <-. subst y. rewrite !Ho by lia. by rewrite W1, W2.
    + subst y. rewrite Hcc in Hy. injection Hy as <-. rewrite (Ho (_ + 8)), (Hsame _ _ _ Hcc) by lia. split; [|done]. cbn. rewrite word_put_ne by lia. apply word_put_eq.
    + destruct (Hh _ _ Hy) as [<- <-]. split; apply K; intros Hx; destruct (touched_headers _ _ _ _ _ _ G Ha ltac:(congruence) Hx Hy); try lia; done.
Qed.

(** [U] is [A] with a block of at least [n] bytes, header included, given out at [a]. *)
Definition gives A a (n : Z) U : Prop := exists q,
  U !! a = Some q /\ ar_kind q = KUsed /\ n <= ar_size q /\ used A !! a = None /\ used U = <[a := ar_size q]> (used A) /\ (plain A -> plain U).

Lemma plain_mark A a r k : A !! a = Some r -> ar_kind r <> KLeft -> k <> KLeft -> plain A -> plain (mark a k A).
Proof.
  intros Ha Hr Hk Hp b q Hb Kb. unfold mark in Hb. rewrite lookup_alter in Hb. case_decide as E; [|by eapply Hp]. subst. rewrite Ha in Hb. injection Hb as <-. done.
Qed.

Lemma plain_carve A a r n : geom A -> A !! a = Some r -> ar_kind r <> KRight -> 0 < n < ar_size r -> plain A -> plain (carve a r n A).
Proof.
  intros G Ha Hr Hn Hp b q Hb Kb. destruct (ge_right _ G a r Ha Hr) as (c & Hc & _ & Kc & _). rewrite carve_lookup in Hb by done. repeat case_decide; try (injection Hb as <-; done); [|by eapply Hp].
  subst b. rewrite Hc in Hb. injection Hb as <-. done.
Qed.

Lemma take_area_wp A s F i a l size n : inv A s -> lists (frees A) F s -> F i = a :: l -> 0 <= i < 136 -> (8 | n) -> 32 <= n -> 0 <= size ->
  (forall r, A !! a = Some r -> ar_kind r = KFree -> n <= ar_size r) ->
  wp (take_area i size n) (fun p s' => p = a + 16 /\ (exists r, A !! a = Some r /\ ar_kind r = KFree /\ ar_hi r - ar_lo r <= BIG /\ keeps (touched A a r) s s') /\
    exists U, inv U s' /\ gives A a n U /\ forall q, U !! a = Some q -> ar_hi q - ar_lo q <= BIG) s.
Proof.
  intros I L EF Hi H8 Hn Hsz Hfit. pose proof I as [M Hh Hc]. pose proof (mi_geom _ _ _ M) as G.
  assert (a ∈ F i) as (z & (r & Ha & Hk & <-)%frees_spec & Ei)%(li_in _ _ _ L) by (rewrite EF; left). specialize (Hfit r Ha Hk). destruct (Hh a r Ha) as [H1 H2].
  pose proof (ge_ok _ G a r Ha) as (_ & _ & _ & _ & _ & _ & Oa). unfold kind_ok in Oa. rewrite Hk in Oa. pose proof (ge_facts _ _ _ G Ha) as (F1 & F2 & F3 & F4 & _).
  pose proof (mid_header _ _ _ _ _ M Ha) as [Hu1 Hu2]. assert (used A !! a = None) as Hnu by (apply used_none; intros q Hq; congruence).
  unfold take_area. wp_step. eapply get_entry_wp; [lia|by apply L|]. rewrite EF. cbn [List.hd]. wp_step. apply hdr_size_wp; [done|]. rewrite H2, u64_small by lia.
  change FREE with 32. rewrite <- Ei. destruct (_ && _) eqn:Hs.
  - apply andb_true_iff in Hs as [Hs _]. apply Z.leb_le in Hs. wp_step. eapply wp_mono; [by apply take_part_wp|]. intros _ s' (W1 & W2 & K & M' & Hh').
    assert (carve a r n A !! a = Some (Area n (ar_left r) KUsed (ar_lo r) (ar_hi r))) as Ha' by (rewrite carve_lookup, decide_False, decide_True by lia; done).
    pose proof (mid_header _ _ _ _ _ M' Ha') as [Hu3 Hu4]. pose proof (left_ok _ _ _ G Ha) as (_ & Lr & _).
    wp_step. apply hdr_size_wp; [done|]. rewrite W2. wp_step. apply hdr_left_wp; [done|]. rewrite W1.
    eapply (create_allocation_header_wp _ _ _ a); [lia|done|done|by apply (hdr_untag A a r)|lia..|]. split; [done|]. split.
    { exists r. split_and!; try done; [lia|]. eapply keeps_trans; [done|]. apply put_header_keeps; right; left; lia. }
    exists (carve a r n A). split_and!.
    + split; [by eapply mid_put_header_of| |by apply coalesced_carve; try lia]. rewrite <- (insert_id _ _ _ Ha'). apply hdrs_insert; [|rewrite hdr_no_tag by done; apply put_header_words|apply put_header_words].
      eapply hdrs_keeps; [apply (put_header_keeps (fun x => a <= x < a + n)); lia| |done]. intros x Hx. by eapply (off_headers_delete (carve a r n A)); [apply M'| |].
    + eexists. split_and!; [done|done|cbn; lia|done|by apply carve_spec|apply plain_carve; try done; [congruence|lia]].
    + intros q Hq. rewrite Ha' in Hq. injection Hq as <-. cbn. lia.
  - eapply wp_mono; [by apply take_whole_wp|]. intros p s' (-> & K & I'). split; [done|]. split; [exists r; split_and!; try done; lia|].
    exists (mark a KUsed A). assert (mark a KUsed A !! a = Some (set_kind KUsed r)) as Ha' by (unfold mark; rewrite lookup_alter, decide_True, Ha by done; done). split_and!; [done| |].
    + eexists. split_and!; [done|done|done|done|exact (used_mark_used _ _ _ Ha)|apply (plain_mark _ _ r); congruence || done].
    + intros q Hq. rewrite Ha' in Hq. injection Hq as <-. cbn. lia.
Qed.

(** ** Growing *)

Lemma pages_do_wp {X} (m : M P X) Q s : wp m (fun w p => Q w (set_pages p s)) (hp_pages s) -> wp (pages_do m) Q s.
Proof. unfold wp, pages_do. by destruct (m (hp_pages s)). Qed.

Lemma page_alloc_wp n s : pg_holds (hp_pages s) (hp_mapped s) -> 0 < n < 2 ^ 32 ->
  wp (page_alloc n) (fun v s' => exists p, (v = 0 /\ s' = set_pages p s /\ pg_holds p (hp_mapped s)) \/
    (0 < v /\ (4096 | v) /\ v + 4096 * n < 2 ^ 64 /\ pages_of v n ## hp_mapped s /\
     s' = on_mapped (union (pages_of v n)) (set_pages p s) /\ pg_holds p (pages_of v n ∪ hp_mapped s))) s.
Proof.
  intros Hp Hn. unfold page_alloc. rewrite u32_small by lia. wp_step. apply pages_do_wp. eapply wp_mono; [by apply pg_alloc_wp|].
  intros v p [[-> Hh]|(Hv & H4 & Hb & Hd & Hh)].
  - change (negb (0 =? 0)) with false. wp_step. cbn [when]. wp_step. wp_step. exists p. by left.
  - rewrite (proj2 (Z.eqb_neq v 0)) by lia. wp_step. cbn [negb when]. wp_step. wp_step. exists p. right. by split_and!.
Qed.

(** Pages that are new are clear of all areas. *)
Lemma fresh_apart A v n X y q : geom A -> covered A X -> 0 < n -> (4096 | v) -> pages_of v n ## X -> A !! y = Some q -> y + ext q <= v \/ v + 4096 * n <= y.
Proof.
  intros G Hc Hn Hv Hd Hy. pose proof (ge_facts _ _ _ G Hy). destruct (Z.le_gt_cases (y + ext q) v); [by left|]. destruct (Z.le_gt_cases (v + 4096 * n) y); [by right|]. exfalso.
  apply (Hd (Z.max y v / 4096)); [apply elem_of_pages; [done|lia]|]. apply (Hc y q); [done|lia].
Qed.

Lemma fresh_none A v n X x : geom A -> covered A X -> 0 < n -> (4096 | v) -> pages_of v n ## X -> v <= x < v + 4096 * n -> A !! x = None.
Proof.
  intros G Hc Hn Hv Hd Hx. destruct (A !! x) as [q|] eqn:E; [|done]. pose proof (ge_facts _ _ _ G E). destruct (fresh_apart A v n X x q); try done; lia.
Qed.

(** A segment of new pages, with the area between the sentinels not yet in a list. *)
Lemma mid_region A s p v n : mid A (frees A) s -> (4096 | v) -> 0 < v -> v + 4096 * n < 2 ^ 64 -> 0 < n -> pages_of v n ## hp_mapped s -> pg_holds p (pages_of v n ∪ hp_mapped s) ->
  let U := add_segment v (v + 4096 * n) KUsed A in
  mid U (frees U) (on_size (fun z => u64 (z + 4096 * n)) (on_mapped (union (pages_of v n)) (set_pages p s))) /\ frees U = frees A.
Proof.
  intros M H4 Hv Hv64 Hn Hd Hh U. pose proof M as [G _ [F L] Hc Ht Hp Hold]. pose proof (fun y q => fresh_apart A v n _ y q G Hc Hn H4 Hd) as Ap. pose proof (fun x => fresh_none A v n _ x G Hc Hn H4 Hd) as Nn.
  assert (frees U = frees A) as EF by (apply frees_add_used; apply Nn; lia). split; [|done]. pose proof (pg_bound _ _ Hh) as Hb. pose proof (pg_bound _ _ Hold) as Hb'.
  assert (total U = total A + 4096 * n) as Et by (unfold U; rewrite total_add; [lia|apply Nn; lia..|done|lia]).
  assert (Z.of_nat (size (pages_of v n ∪ hp_mapped s)) = n + Z.of_nat (size (hp_mapped s))) as Es by (rewrite size_union by done; rewrite Nat2Z.inj_add, size_pages by lia; done).
  rewrite EF. split; cbn.
  - apply geom_add; try done; try lia; [apply Z.divide_add_r; [done|by apply Z.divide_factor_l]|by left].
  - by rewrite EF.
  - exists F. eapply lists_frame; try done. cbn. set_solver.
  - intros a r x Ha Hx. unfold U, add_segment in Ha. rewrite elem_of_union, elem_of_pages by done. rewrite !lookup_insert in Ha.
    repeat case_decide; subst; [injection Ha as <-..|right; by eapply Hc]; left; [change (ext _) with 16 in Hx|change (ext _) with (v + 4096 * n - v - 32) in Hx|change (ext _) with 16 in Hx]; lia.
  - rewrite u64_small by lia. lia.
  - rewrite u64_small by lia. lia.
  - done.
Qed.

(** Fields the shape does not depend on. *)
Lemma mid_same A Fr s s' : mid A Fr s -> hp_mem s' = hp_mem s -> hp_mapped s' = hp_mapped s -> hp_size s' = hp_size s -> hp_remaining s' = hp_remaining s ->
  free_lists s' = free_lists s -> free_list_bits s' = free_list_bits s -> pg_holds (hp_pages s') (hp_mapped s) -> mid A Fr s'.
Proof.
  intros [M1 M2 [F L] M4 M5 M6 M7] E1 E2 E3 E4 E5 E6 Hp. split; rewrite ?E2, ?E3; try done. exists F. eapply lists_frame; try done; by rewrite ?E1, ?E2.
Qed.

Lemma inv_same A s s' : inv A s -> hp_mem s' = hp_mem s -> hp_mapped s' = hp_mapped s -> hp_size s' = hp_size s -> hp_remaining s' = hp_remaining s ->
  free_lists s' = free_lists s -> free_list_bits s' = free_list_bits s -> pg_holds (hp_pages s') (hp_mapped s) -> inv A s'.
Proof. intros [M Hh Hc] E1 E2 E3 E4 E5 E6 Hp. split; [by eapply mid_same|by rewrite E1|done]. Qed.

(** What [heap_grow] asks the page allocator for. *)
Lemma grow_size n : 0 <= n < 2 ^ 43 + 8 -> let T := ROUNDUP (u64 (n + 2 * HEADER)) PAGE_SIZE in
  exists k, T = 4096 * k /\ Z.shiftr T PAGE_SIZE_SHIFT = k /\ 0 < k < 2 ^ 32 /\ n + 32 <= 4096 * k < n + 32 + 4096.
Proof.
  intros Hn T. change HEADER with 16 in T. unfold T. rewrite u64_small by lia. change (n + 2 * 16) with (n + 32). change PAGE_SIZE with (2 ^ 12). change PAGE_SIZE_SHIFT with 12.
  pose proof (ROUNDUP_spec (n + 32) 12 ltac:(lia) ltac:(lia) ltac:(lia)) as [[k Ek] Hr]. exists k. rewrite Z.shiftr_div_pow2, Ek, Z.div_mul by lia. lia.
Qed.

(** The sentinels of a new segment and the area between them. *)
Lemma add_free_is_mark A lo hi : lo + 16 < hi - 16 -> mark (lo + 16) KFree (add_segment lo hi KUsed A) = add_segment lo hi KFree A.
Proof.
  intros Hl. apply map_eq. intros y. unfold mark, add_segment. rewrite lookup_alter, !lookup_insert. repeat case_decide; try lia; done.
Qed.

Lemma coalesced_add A lo hi k : geom A -> (forall x, lo <= x < hi -> A !! x = None) -> lo + 16 < hi - 16 -> coalesced A -> coalesced (add_segment lo hi k A).
Proof.
  intros G Nn Hl Hc a r q Ha Ka Hq. unfold add_segment in Ha, Hq. rewrite !lookup_insert in Ha. repeat case_decide; subst; try (injection Ha as <-; done).
  - injection Ha as <-. cbn in *. rewrite !lookup_insert in Hq. repeat case_decide; try lia. injection Hq as <-. done.
  - destruct (ge_right _ G a r Ha ltac:(congruence)) as (q' & Hq' & _). assert (~ (lo <= a + ar_size r < hi)) by (intros Hx; apply Nn in Hx; congruence).
    rewrite !lookup_insert, !decide_False in Hq by lia. eauto.
Qed.

Lemma plain_add A lo hi k : k <> KLeft -> plain A -> plain (add_segment lo hi k A).
Proof. intros Hk Hp a r Ha Ka. unfold add_segment in Ha. rewrite !lookup_insert in Ha. repeat case_decide; try (injection Ha as <-; done). eauto. Qed.

Lemma hdrs_add A lo hi k m : lo + 16 < hi - 16 -> (forall x, lo <= x < hi -> A !! x = None) -> hdrs A m -> word m lo = 0 -> word m (lo + 8) = 16 ->
  word m (lo + 16) = hdr (Area (hi - lo - 32) lo k lo hi) -> word m (lo + 24) = hi - lo - 32 -> word m (hi - 16) = lo + 16 -> word m (hi - 8) = 0 -> hdrs (add_segment lo hi k A) m.
Proof.
  intros Hl Nn Hh H1 H2 H3 H4 H5 H6 a r Ha. unfold add_segment in Ha. rewrite !lookup_insert in Ha. repeat case_decide; subst; [injection Ha as <-..|by apply Hh].
  - rewrite hdr_no_tag by done. done.
  - rewrite H3. replace (lo + 16 + 8) with (lo + 24) by lia. done.
  - rewrite H5, hdr_no_tag by done. replace (hi - 16 + 8) with (hi - 8) by lia. done.
Qed.

(** The areas of [A] are clear of the bytes from [lo] to [hi]. *)
Definition clear A lo hi : Prop := forall y q, A !! y = Some q -> y + ext q <= lo \/ hi <= y.

Lemma clear_none A lo hi x : geom A -> clear A lo hi -> lo <= x < hi -> A !! x = None.
Proof. intros G Hc Hx. destruct (A !! x) as [q|] eqn:E; [|done]. pose proof (ge_facts _ _ _ G E). destruct (Hc x q E); lia. Qed.

(** The words a new segment brings with it. *)
Lemma clear_off_headers A lo hi x : geom A -> clear A lo hi -> lo <= x < hi \/ link (frees A) x -> off_headers A x.
Proof.
  intros G Hc [Hx|Hx]; [|apply (link_area A) in Hx as (c & q & Hcp & _ & Hx); [by eapply off_headers_inside|done|done]].
  intros b q Hb. pose proof (ge_facts _ _ _ G Hb). destruct (Hc b q Hb); lia.
Qed.

Lemma clear_payload A lo hi x : geom A -> clear A lo hi -> lo <= x < hi \/ link (frees A) x -> ~ payload (used A) x.
Proof.
  intros G Hc Hx (b & z & (q & Hb & Kb & <-)%used_spec & Hxb). destruct Hx as [Hx|Hx].
  - destruct (Hc b q Hb) as [Hap|Hap]; [rewrite ext_size in Hap by congruence|]; lia.
  - revert Hx. eapply (not_link A _ b q); try done; [rewrite ext_size by congruence; lia|left; apply (frees_none _ _ q); [done|congruence]].
Qed.

Lemma add_lookup A v hi k : v + 16 < hi - 16 -> let U := add_segment v hi k A in
  U !! v = Some (Area 16 0 KLeft v hi) /\ U !! (v + 16) = Some (Area (hi - v - 32) v k v hi) /\ U !! (hi - 16) = Some (Area 0 (v + 16) KRight v hi).
Proof. intros Hl. unfold add_segment. rewrite !lookup_insert. repeat case_decide; try lia; done. Qed.

Lemma add_to_heap_wp A s v T : let hi := v + T in let U := add_segment v hi KUsed A in let V := add_segment v hi KFree A in
  geom A -> clear A v hi -> mid U (frees U) s -> frees U = frees A -> hdrs A (hp_mem s) -> 4096 <= T <= BIG -> 0 < v -> (8 | v) -> hi < 2 ^ 64 ->
  wp (add_to_heap v T None) (fun _ s' => mid V (frees V) s' /\ hdrs V (hp_mem s') /\ keeps (fun x => v <= x < hi \/ link (frees A) x) s s') s.
Proof.
  intros hi U V G Hc M EF Hh HT Hv Hv8 Hhi. unfold BIG in HT. pose proof (add_lookup A v hi KUsed ltac:(lia)) as (H1 & H2 & H3). fold U in H1, H2, H3.
  unfold add_to_heap. change HEADER with 16. wp_step. pose proof (mid_header _ _ _ _ _ M H1) as [U1 U2].
  eapply (create_allocation_header_wp _ _ _ v _ _ 0); [lia|done|done|done|lia..|]. set (s2 := put_header _ _ _ _).
  assert (mid U (frees U) s2) as M2 by (by eapply mid_put_header_of). wp_step. rewrite u64_small by lia. replace (T - 2 * 16) with (hi - v - 32) by lia.
  eapply wp_mono; [apply (mid_create U _ _ _ v M2 H2); cbn; unfold BIG; done || lia|]. cbn [ar_size]. intros f s3 (K3 & W1 & W2 & M3).
  unfold U in M3. rewrite add_free_is_mark in M3 by lia. fold V in M3. pose proof (add_lookup A v hi KFree ltac:(lia)) as (_ & _ & H5). fold V in H5.
  wp_step. pose proof (mid_header _ _ _ _ _ M3 H5) as [U3 U4]. change (v + T - 16) with (hi - 16).
  eapply (create_allocation_header_wp _ _ _ (hi - 16)); [lia|done|done|by apply untag_id; [apply Z.divide_add_r; [done|by exists 2]|lia]|lia..|].
  wp_step. set (s4 := put_header _ _ _ s3).
  assert (keeps (fun x => v <= x < hi \/ link (frees A) x) s s4) as K.
  { eapply keeps_trans; [apply (put_header_keeps _ v 0 16); left; lia|]. fold s2. eapply keeps_trans; [eapply keeps_mono; [|exact K3]|].
    - rewrite EF. intros x [?|?]; [left; lia|by right].
    - apply put_header_keeps; left; lia. }
  split_and!; [by eapply mid_put_header_of| |done].
  assert (forall x, v <= x < v + 16 -> word (hp_mem s4) x = word (hp_mem s2) x) as Hlow.
  { intros x Hx. unfold s4. rewrite put_header_other by lia. apply K3. intros [?|Hl]; [lia|]. revert Hl. eapply (not_link U _ v); [apply M|done|exact H1|change (ext _) with 16; lia|right; lia]. }
  pose proof (put_header_words v 0 16 s) as [E1 E2]. fold s2 in E1, E2. pose proof (put_header_words (hi - 16) (v + 16) 0 s3) as [E3 E4]. fold s4 in E3, E4.
  apply hdrs_add; try lia; rewrite ?Hlow by lia; try done.
  - intros x. by apply clear_none.
  - eapply hdrs_keeps; [exact K| |done]. intros x. by apply clear_off_headers.
  - unfold s4. rewrite put_header_other, W1 by lia. done.
  - unfold s4. rewrite put_header_other by lia. by replace (v + 24) with (v + 16 + 8) by lia.
  - by replace (hi - 8) with (hi - 16 + 8) by lia.
Qed.

Lemma heap_grow_wp A s n : inv A s -> 0 <= n <= 2 ^ 22 ->
  wp (heap_grow n None) (fun g s' => (g.1 = -1 /\ inv A s' /\ quiet (payload (used A)) s s') \/
    (0 <= g.1 /\ exists v T, let U := add_segment v (v + T) KFree A in n + 32 <= T <= BIG /\ (4096 | T) /\ 0 < v /\ clear A v (v + T) /\
     inv U s' /\ used U = used A /\ (plain A -> plain U) /\ quiet (payload (used A)) s s')) s.
Proof.
  intros [M Hh Hco] Hn. destruct (grow_size n ltac:(lia)) as (k & Ek & Es & Hk & Hkn). unfold heap_grow. rewrite Es, Ek. wp_step.
  eapply wp_mono; [apply page_alloc_wp; [apply M|done]|]. intros v s1 (p & [(-> & -> & Hp)|(Hv & H4 & Hv64 & Hd & -> & Hp)]).
  - change (0 =? 0) with true. cbv iota. wp_step. left. split; [done|]. split; [|done]. split; [|done..]. by eapply mid_same.
  - rewrite (proj2 (Z.eqb_neq v 0)) by lia. wp_step. wp_step. wp_step. pose proof (mi_geom _ _ _ M) as G.
    pose proof (mid_region A s p v k M H4 Hv Hv64 ltac:(lia) Hd Hp) as [M1 EF]. set (s1 := on_size _ _) in *.
    assert (clear A v (v + 4096 * k)) as Hc by (intros y q; by apply (fresh_apart A v k _ y q G (mi_cov _ _ _ M) ltac:(lia) H4 Hd)).
    assert (4096 <= 4096 * k <= BIG) as HT by (unfold BIG; lia). assert (8 | v) as H8 by (etrans; [|exact H4]; by exists 512).
    eapply wp_mono; [by apply (add_to_heap_wp A s1 v (4096 * k))|]. intros a s4 (M4 & Hh4 & K). wp_step. right. cbn [fst].
    split; [unfold s64; rewrite u64_small, (proj2 (Z.ltb_lt _ _)) by lia; lia|]. exists v, (4096 * k). cbv zeta. split; [lia|]. split; [by apply Z.divide_factor_l|]. split; [done|]. split; [done|].
    pose proof (fun x => clear_none A v (v + 4096 * k) x G Hc) as Nn. split; [split; [done|done|by apply coalesced_add; [| |lia|]]|].
    split; [apply used_add_free; apply Nn; lia|]. split; [by apply plain_add|]. eapply heap_quiet_trans; [|eapply heap_keeps_quiet; [|exact K]]; [done|].
    intros x. by apply clear_payload.
Qed.

(** ** Large blocks *)

Lemma lock_wp Q s : hp_locked s = false -> Q tt (set_locked true s) -> wp lock Q s.
Proof. intros E HQ. unfold lock. wp_step. wp_step. rewrite E. by wp_step. Qed.

Lemma unlock_wp Q s : hp_locked s = true -> Q tt (set_locked false s) -> wp unlock Q s.
Proof. intros E HQ. unfold unlock. wp_step. wp_step. rewrite E. by wp_step. Qed.

Lemma inv_locked A s v : inv A s -> inv A (set_locked v s).
Proof. intros I. eapply inv_same; try done. cbn. apply (in_mid _ _ I). Qed.

(** An area that the caller keeps for itself. *)
Lemma create_free_area_own_wp a l z Q s : (forall d, d = 0 \/ d = 8 \/ d = 16 \/ d = 24 -> usable s (a + d) = true) -> 0 <= l < 2 ^ 64 - 8 -> (8 | l) -> 0 <= z < 2 ^ 64 ->
  Q a (on_remaining (fun w => u64 (w + z)) (on_mem (free_words a l z 0) s)) -> wp (create_free_area a l z (Some 0)) Q s.
Proof.
  intros Hu Hl H8 Hz HQ. pose proof (Hu 0 ltac:(lia)) as U0. rewrite Z.add_0_r in U0. unfold create_free_area. wp_step. apply st_wp; [by apply Hu; eauto|]. wp_step. apply st_wp; [done|].
  rewrite tag_as_free_eq, (u64_small (l + 1)), (u64_small z) by (try lia; by apply Z.mod_divide). wp_step. wp_step. wp_step. change (negb (0 =? 0)) with false. cbn [when]. wp_step.
  wp_step. apply st_wp; [rewrite !usable_mem; apply Hu; eauto|]. wp_step. apply st_wp; [rewrite !usable_mem; apply Hu; eauto|]. wp_step. wp_step. wp_step. wp_step. wp_step. done.
Qed.

Lemma add_own_wp A s v T : let hi := v + T in let U := add_segment v hi KUsed A in
  mid U (frees U) s -> 4096 <= T -> 0 < v -> (8 | v) -> hi < 2 ^ 64 ->
  wp (add_to_heap v T (Some 0)) (fun a s' => a = v + 16 /\
    s' = put_header (hi - 16) (v + 16) 0 (on_remaining (fun w => u64 (w + (T - 32))) (on_mem (free_words (v + 16) v (T - 32) 0) (put_header v 0 16 s)))) s.
Proof.
  intros hi U M HT Hv Hv8 Hhi. pose proof (add_lookup A v hi KUsed ltac:(lia)) as (H1 & H2 & H3). fold U in H1, H2, H3.
  unfold add_to_heap. change HEADER with 16. wp_step. pose proof (mid_header _ _ _ _ _ M H1) as [U1 U2]. pose proof (mid_header _ _ _ _ _ M H3) as [U3 U4].
  assert (8 | v + 16) as H8 by (apply Z.divide_add_r; [done|by exists 2]).
  eapply (create_allocation_header_wp _ _ _ v _ _ 0); [lia|done|done|done|lia..|]. wp_step. rewrite u64_small by lia. replace (T - 2 * 16) with (T - 32) by lia.
  apply create_free_area_own_wp; [|lia|done|lia|].
  - intros d Hd. change (usable s (v + 16 + d) = true). eapply (mid_usable U _ _ (v + 16)); [done|exact H2| |change (ext _) with (hi - v - 32); lia].
    apply Z.divide_add_r; [done|]. destruct Hd as [->|[->|[->| ->]]]; [by exists 0|by exists 1|by exists 2|by exists 3].
  - wp_step. change (v + T - 16) with (hi - 16). eapply (create_allocation_header_wp _ _ _ (hi - 16)); [lia|done|done|by apply untag_id; [done|lia]|lia..|]. wp_step. done.
Qed.

(** The segment that [large_alloc] makes, once its area is marked as given out. *)
Lemma own_segment A s v T : let hi := v + T in let U := add_segment v hi KUsed A in
  geom A -> clear A v hi -> coalesced A -> mid U (frees U) s -> frees U = frees A -> hdrs A (hp_mem s) -> 4096 <= T -> 0 < v -> hi < 2 ^ 64 -> T < 2 ^ 63 ->
  let s2 := put_header (hi - 16) (v + 16) 0 (on_remaining (fun w => u64 (w + (T - 32))) (on_mem (free_words (v + 16) v (T - 32) 0) (put_header v 0 16 s))) in
  word (hp_mem s2) (v + 16) = v + 1 /\ word (hp_mem s2) (v + 16 + 8) = T - 32 /\
  (let s3 := on_remaining (fun w => u64 (w - (T - 32))) (put_header (v + 16) v (T - 32) s2) in inv U s3 /\ quiet (payload (used A)) s s3).
Proof.
  intros hi U G Hc Hco M EF Hh HT Hv Hhi HT63 s2. set (s1 := put_header v 0 16 s) in *.
  pose proof (free_words_header (v + 16) v (T - 32) 0 (hp_mem s1) ltac:(done)) as [W1 W2]. pose proof (put_header_words v 0 16 s) as [W3 W4]. fold s1 in W3, W4.
  assert (forall x, x <> hi - 16 -> x <> hi - 16 + 8 -> word (hp_mem s2) x = word (free_words (v + 16) v (T - 32) 0 (hp_mem s1)) x) as E2 by (intros; by apply put_header_other).
  split; [rewrite E2 by lia; done|]. split; [rewrite E2 by lia; done|]. intros s3.
  assert (keeps (fun x => v <= x < hi) s s3) as K.
  { split; try done. intros x Hx. change (hp_mem s3) with (hp_mem (put_header (v + 16) v (T - 32) s2)).
    rewrite put_header_other, E2, free_words_other by lia. apply put_header_other; lia. }
  destruct (mi_lists _ _ _ M) as [F L]. pose proof (mid_bound _ _ _ M) as (B1 & B2 & _).
  assert (hp_remaining s3 = hp_remaining s) as Er.
  { cbn. rewrite (li_sum _ _ _ L). pose proof (li_pos _ _ _ L). rewrite u64_small by (rewrite u64_small; lia). rewrite u64_small by lia. lia. }
  assert (forall x, link (frees A) x -> ~ (v <= x < hi)) as Hnl.
  { intros x Hx Hr. apply (link_area A) in Hx as (c & q & Hcp & _ & Hx); [|done|done]. destruct (Hc c q Hcp); lia. }
  split; [split|].
  - eapply mid_keeps; [exact M|exact K| |done]. exists F. eapply lists_frame; try done. intros x Hx. apply K, Hnl. by rewrite <- EF.
  - assert (forall x, x <> v + 16 -> x <> v + 24 -> word (hp_mem s3) x = word (hp_mem s2) x) as E3 by (intros; apply put_header_other; lia).
    pose proof (put_header_words (v + 16) v (T - 32) s2) as [W5 W6]. pose proof (put_header_words (hi - 16) (v + 16) 0 (on_remaining (fun w => u64 (w + (T - 32))) (on_mem (free_words (v + 16) v (T - 32) 0) s1))) as [W7 W8].
    fold s2 in W7, W8. apply hdrs_add; try lia.
    + intros x. by apply clear_none.
    + eapply hdrs_keeps; [exact K| |done]. intros x Hx. apply (clear_off_headers _ v hi); [done..|by left].
    + rewrite E3, E2, free_words_other by lia. done.
    + rewrite E3, E2, free_words_other by lia. done.
    + rewrite hdr_no_tag by done. exact W5.
    + replace (v + 24) with (v + 16 + 8) by lia. replace (hi - v - 32) with (T - 32) by lia. exact W6.
    + rewrite E3 by lia. exact W7.
    + rewrite E3 by lia. replace (hi - 8) with (hi - 16 + 8) by lia. exact W8.
  - apply coalesced_add; try done; [|lia]. intros x. by apply clear_none.
  - eapply heap_keeps_quiet; [|exact K]. intros x Hx. apply (clear_payload _ v hi); [done..|by left].
Qed.

Lemma large_alloc_wp A s n : inv A s -> hp_locked s = false -> 0 < n < 2 ^ 43 ->
  wp (large_alloc n) (fun p s' => (p = 0 /\ hp_locked s' = true /\ inv A s' /\ quiet (payload (used A)) (set_locked true s) s') \/
    exists v U, p = v + 32 /\ 0 < v /\ inv U s' /\ gives A (v + 16) n U /\ quiet (payload (used A)) s s' /\
      forall q, U !! (v + 16) = Some q -> exists k, ar_size q = 4096 * k - 32 /\ 4096 * k < ROUNDUP n 8 + 32 + 4096) s.
Proof.
  intros I Hl Hn. pose proof (roundup8 n ltac:(lia)) as [_ Hr8]. unfold large_alloc. set (N := ROUNDUP n 8) in *. wp_step. apply lock_wp; [done|].
  pose proof (inv_locked A s true I) as I1. set (s0 := set_locked true s) in *. pose proof I1 as [M Hh Hco].
  destruct (grow_size N ltac:(lia)) as (k & Ek & Es & Hk & Hkn). unfold heap_grow. rewrite Es, Ek. wp_step. wp_step.
  eapply wp_mono; [apply page_alloc_wp; [apply M|done]|]. intros v s1 (p & [(-> & -> & Hp)|(Hv & H4 & Hv64 & Hd & -> & Hp)]).
  - change (0 =? 0) with true. cbv iota. wp_step. change (-1 <? 0) with true. cbv iota. wp_step. left. split_and!; [done..| |done]. by eapply inv_same.
  - rewrite (proj2 (Z.eqb_neq v 0)) by lia. wp_step. wp_step. wp_step. pose proof (mi_geom _ _ _ M) as G.
    pose proof (mid_region A s0 p v k M H4 Hv Hv64 ltac:(lia) Hd Hp) as [M1 EF]. set (s1 := on_size _ _) in *.
    assert (clear A v (v + 4096 * k)) as Hc by (intros y q; by apply (fresh_apart A v k _ y q G (mi_cov _ _ _ M) ltac:(lia) H4 Hd)).
    assert (8 | v) as H8 by (etrans; [|exact H4]; by exists 512). eapply wp_mono; [apply (add_own_wp A s1 v (4096 * k)); [done|lia..|done|lia]|].
    intros a s2 [-> ->]. wp_step. pose proof (own_segment A s1 v (4096 * k) G Hc Hco M1 EF Hh ltac:(lia) ltac:(lia) ltac:(lia) ltac:(lia)) as (W1 & W2 & I3 & Q3).
    set (s2 := put_header (v + 4096 * k - 16) _ _ _) in *. set (U := add_segment _ _ _ _) in *. pose proof (add_lookup A v (v + 4096 * k) KUsed ltac:(lia)) as (_ & H2 & _). fold U in H2.
    pose proof (mid_header _ _ _ _ _ M1 H2) as [U1 U2]. replace (s64 (4096 * k) <? 0) with false by (unfold s64; rewrite u64_small, (proj2 (Z.ltb_lt _ (2 ^ 63))) by lia; symmetry; apply Z.ltb_ge; lia).
    cbv iota. wp_step. apply hdr_size_wp; [done|]. rewrite W2. wp_step. apply hdr_left_wp; [done|]. rewrite W1. wp_step.
    eapply (create_allocation_header_wp _ _ _ (v + 16) _ _ v); [lia|done|done|apply untag_spec; [done|lia..]|lia..|]. wp_step. apply hdr_size_wp; [done|].
    pose proof (put_header_words (v + 16) v (4096 * k - 32) s2) as [_ W3]. rewrite W3. wp_step. wp_step. wp_step. apply unlock_wp; [done|]. wp_step. right. exists v, U.
    split; [lia|]. split; [done|]. split; [by apply inv_locked|]. pose proof (fun x => clear_none A v (v + 4096 * k) x G Hc) as Nn. split; [|split].
    + eexists. split_and!; [done|done|cbn; lia|apply used_none; intros r; by rewrite Nn by lia|apply used_add_used; [apply Nn; lia..|lia]|by apply plain_add].
    + destruct Q3. by split.
    + intros q. rewrite H2. intros [= <-]. exists k. cbn. lia.
Qed.

(** ** Allocating *)

(** The loop makes room for [n] bytes, or there is none. *)
Lemma grow_loop_wp A fuel g n s : inv A s -> 32 <= n <= 2 ^ 22 + 16 -> (n <= g <= 2 ^ 22 \/ g = 2 ^ 22) -> (0 < fuel)%nat -> g <= n * 2 ^ (Z.of_nat fuel - 1) ->
  wp (grow_loop fuel g n) (fun ok s' => quiet (payload (used A)) s s' /\
    if ok : bool then exists v T, let U := add_segment v (v + T) KFree A in n <= T - 32 <= BIG - 32 /\ inv U s' /\ used U = used A /\ (plain A -> plain U) else inv A s') s.
Proof.
  revert g s. induction fuel as [|fuel IH]; intros g s I Hn Hg Hf Hgn; [lia|]. cbn [grow_loop]. wp_step.
  eapply wp_mono; [apply (heap_grow_wp A s g I); lia|]. intros res s1 [(E & I1 & Q1)|(E & v & T & HT & HT4 & Hv & Hc & I1 & Eu & Hp & Q1)].
  - rewrite E. change (-1 <? 0) with true. cbv iota. destruct (Z.leb_spec g n) as [Hle|Hlt]; [wp_step; done|].
    assert (fuel <> 0%nat) as Hf0. { intros ->. change (Z.of_nat 1 - 1) with 0 in Hgn. lia. }
    rewrite Z.shiftr_div_pow2 by lia. change (2 ^ 1) with 2. pose proof (Z.div_mod g 2 ltac:(lia)). pose proof (Z.mod_pos_bound g 2 ltac:(lia)).
    eapply wp_mono; [apply IH; [done|done|lia|lia|]|].
    + replace (Z.of_nat (S fuel) - 1) with (Z.of_nat fuel - 1 + 1) in Hgn by lia. rewrite Z.pow_add_r in Hgn by lia. change (2 ^ 1) with 2 in Hgn.
      assert (0 < 2 ^ (Z.of_nat fuel - 1)) by (apply Z.pow_pos_nonneg; lia). nia.
    + intros ok s2 [Q2 HQ]. split; [by eapply heap_quiet_trans|done].
  - rewrite (proj2 (Z.ltb_ge _ _)) by lia. wp_step. split; [done|]. exists v, T. split_and!; try done; [|unfold BIG in *; lia].
    destruct HT4 as [k ->]. unfold BIG in *. lia.
Qed.

(** The list that is found has an area that is large enough. *)
Lemma take_found_wp A s F i n : inv A s -> lists (frees A) F s -> 0 < n <= 2 ^ 22 - 16 -> first_from (fun i => bool_decide (F i <> [])) (alloc_bucket n) i -> i <> -1 ->
  wp (take_area i n (u64 (alloc_size n + HEADER))) (fun p s' => exists a U, p = a + 16 /\ inv U s' /\ gives A a (n + 16) U /\ quiet (payload (used A)) s s' /\
    forall q, U !! a = Some q -> ar_hi q - ar_lo q <= BIG) s.
Proof.
  intros I L Hn [[-> _]|(Hi & HN & _)] Hi1; [done|]. apply bool_decide_eq_true in HN. destruct (F i) as [|a l] eqn:EF; [done|].
  assert (a ∈ F i) as Ha by (rewrite EF; left). apply (li_in _ _ _ L) in Ha as (z & Hz & Ei). pose proof (listable_bucket _ _ _ (li_ok _ _ _ L a z Hz)) as Hb.
  pose proof (alloc_size_spec n Hn) as (H8 & Hs1 & Hs2). pose proof (alloc_bucket_range n Hn) as Hab. change HEADER with 16. rewrite u64_small by lia.
  pose proof (li_ok _ _ _ L a z Hz) as (_ & _ & Hzr & _). pose proof (alloc_bucket_fits n (z - 16) Hn ltac:(lia)) as Hfit.
  eapply wp_mono; [apply (take_area_wp A s F i a l); try done; try lia|].
  - apply Z.divide_add_r; [done|by exists 2].
  - intros r Hr Hk. apply frees_spec in Hz as (r' & Hr' & _ & <-). rewrite Hr in Hr'. injection Hr' as <-. lia.
  - intros p s' (-> & (r & Hr & Kr & Hbig & K) & U & I' & (q & Hq & Kq & Hsz & Hnu & Hu & Hp) & Hq'). exists a, U. split; [done|]. split; [done|]. split.
    + exists q. split_and!; try done. lia.
    + split; [|done]. eapply heap_keeps_quiet; [|exact K]. intros x Hx Hpl. eapply touched_payload; [apply I|exact Hr|congruence|exact Hx|].
      by rewrite delete_id by (apply used_none; intros u Hu'; congruence).
Qed.

Lemma quiet_unlock D s s' : hp_locked s = false -> quiet D (set_locked true s) s' -> quiet D s (set_locked false s').
Proof. intros Hl [M1 L1 D1]. by split. Qed.

Lemma gives_same A U V a n : used U = used A -> (plain A -> plain U) -> gives U a n V -> gives A a n V.
Proof. intros Eu Hp (q & Hq & Kq & Hn & Hu & HV & Hp'). exists q. rewrite <- Eu. split_and!; auto. Qed.

Lemma cmpct_alloc_wp A s n : inv A s -> hp_locked s = false -> 0 < n <= 2 ^ 22 - 16 ->
  wp (cmpct_alloc n) (fun p s' => quiet (payload (used A)) s s' /\
    ((p = 0 /\ inv A s') \/ exists a U, p = a + 16 /\ inv U s' /\ gives A a (n + 16) U /\ forall q, U !! a = Some q -> ar_hi q - ar_lo q <= BIG)) s.
Proof.
  intros I Hl Hn. unfold cmpct_alloc. rewrite (proj2 (Z.eqb_neq n 0)) by lia. change HEADER with 16. rewrite u64_small by lia. change (Z.shiftl 1 HEAP_ALLOC_VIRTUAL_BITS) with (2 ^ 22).
  rewrite (proj2 (Z.ltb_ge _ _)) by lia. rewrite size_to_index_allocating_eq by done. wp_step. wp_step. wp_step. apply lock_wp; [done|]. wp_step.
  pose proof (alloc_size_spec n Hn) as (H8 & Hs1 & Hs2). pose proof (alloc_bucket_range n Hn) as Hab. pose proof (inv_locked A s true I) as I1. set (s0 := set_locked true s) in *.
  destruct (mi_lists _ _ _ (in_mid _ _ I1)) as [F L]. eapply wp_mono; [apply (find_nonempty_bucket_wp (fun i => bool_decide (F i <> []))); [apply L|by apply alloc_bucket_range]|].
  intros i s' [-> Hi]. destruct (Z.eqb_spec i (-1)) as [->|Hne].
  - wp_step. wp_step. wp_step. wp_step. change (Z.shiftl 1 HEAP_ALLOC_VIRTUAL_BITS) with (2 ^ 22). change HEAP_GROW_SIZE with 262144. rewrite (u64_small (alloc_size n + 16)) by lia.
    eapply wp_mono; [apply (grow_loop_wp A 25); [done|lia|lia|lia|change (Z.of_nat 25 - 1) with 24; lia]|]. intros [] s1 [Q1 H1].
    + destruct H1 as (v & T & HT & I2 & Eu & Hp). set (U := add_segment _ _ _ _) in *. destruct (mi_lists _ _ _ (in_mid _ _ I2)) as [F2 L2]. wp_step.
      eapply wp_mono; [apply (find_nonempty_bucket_wp (fun i => bool_decide (F2 i <> []))); [apply L2|by apply alloc_bucket_range]|]. intros i s' [-> Hi2]. wp_step.
      assert (i <> -1) as Hne.
      { destruct Hi2 as [[_ Hnone]|?]; [|lia]. pose proof (add_lookup A v (v + T) KFree ltac:(lia)) as (_ & HU & _). fold U in HU.
        assert (frees U !! (v + 16) = Some (T - 32)) as HF by (apply frees_spec; eexists; split; [exact HU|]; cbn; split; [done|lia]).
        pose proof (alloc_bucket_fits n (T - 48) Hn ltac:(lia)). pose proof (bucket_of_range (T - 48) ltac:(lia)) as Hr. change NUMBER_OF_BUCKETS with 136 in Hr.
        specialize (Hnone (bucket_of (T - 48)) ltac:(lia)). apply bool_decide_eq_false in Hnone. exfalso. apply Hnone. intros E0.
        assert (v + 16 ∈ F2 (bucket_of (T - 48))) as Hin by (apply (li_in _ _ _ L2); exists (T - 32); split; [done|f_equal; lia]). rewrite E0 in Hin. by apply elem_of_nil in Hin. }
      wp_step. rewrite <- (u64_small (alloc_size n + 16)) by lia. eapply wp_mono; [by apply (take_found_wp U s1 F2 i n)|]. intros p s2 (a & V & -> & I3 & Hg & Q2 & Hq). rewrite Eu in Q2.
      wp_step. apply unlock_wp; [by rewrite (qu_locked _ _ _ Q2), (qu_locked _ _ _ Q1)|]. wp_step. split; [by apply quiet_unlock; [|eapply heap_quiet_trans]|].
      right. exists a, V. split_and!; [done|by apply inv_locked|by eapply gives_same|done].
    + wp_step. apply unlock_wp; [by rewrite (qu_locked _ _ _ Q1)|]. wp_step. wp_step. split; [by apply quiet_unlock|]. left. split; [done|by apply inv_locked].
  - wp_step. wp_step. wp_step. eapply wp_mono; [by apply (take_found_wp A s0 F i n)|]. intros p s2 (a & V & -> & I3 & Hg & Q2 & Hq).
    wp_step. apply unlock_wp; [by rewrite (qu_locked _ _ _ Q2)|]. wp_step. split; [by apply quiet_unlock|]. right. exists a, V. split_and!; [done|by apply inv_locked|done|done].
Qed.
End spec.
