(* ===== verification/HeapFree.v ===== *)
(** * Giving memory back

    Freeing a block merges it with the free areas next to it; a segment that is free as a whole goes back to the page allocator.  Aligned blocks are cut out of
    larger ones, and trimming gives back the pages at the free ends of segments. *)

From stdpp Require Import base gmap list fin_maps fin_sets numbers.
From S2P Require Import Prelude Align Heap HeapIndex HeapLists HeapGeom HeapSpec.

Section freeing.
Context {P : Type} {PO : PageOps P} {PL : PageLaws P}.
Implicit Types (s : heap P) (A U V : areas) (r q : area) (Fr : gmap Z Z) (a b x : Z).

Lemma put_other a v s x : x <> a -> word (hp_mem (on_mem (<[a := v]>) s)) x = word (hp_mem s) x.
Proof. apply word_put_ne. Qed.

Lemma put_same a v s : word (hp_mem (on_mem (<[a := v]>) s)) a = v.
Proof. apply word_put_eq. Qed.

(** A run that is known up to some point, and what comes after it. *)
Lemma wp_bind_inv {X Y} (m : M (heap P) X) (f : X -> M (heap P) Y) Q s : wp (bind m f) Q s -> wp m (fun w s' => wp (f w) Q s') s.
Proof. unfold wp, bind. by destruct (m s). Qed.

Ltac follow Hw := wp_step; eapply wp_mono; [exact (wp_bind_inv _ _ _ _ Hw)|]; clear Hw; cbv beta; intros ? ? Hw.

(** ** Pages *)

Lemma page_free_wp Q v n s : pg_holds (hp_pages s) (hp_mapped s) -> 0 < n < 2 ^ 32 -> (4096 | v) -> pages_of v n ⊆ hp_mapped s ->
  (forall p, pg_holds p (hp_mapped s ∖ pages_of v n) -> Q tt (set_pages p (on_mapped (fun m => m ∖ pages_of v n) s))) -> wp (page_free v n) Q s.
Proof.
  intros Hp Hn H4 Hsub HQ. unfold page_free. rewrite u32_small by lia. wp_step. wp_step; [by apply IS_PAGE_ALIGNED_spec|]. wp_step. wp_step.
  rewrite bool_decide_eq_true_2 by done. wp_step. wp_step. apply pages_do_wp. eapply wp_mono; [by apply pg_free_wp|]. intros [] p. apply HQ.
Qed.

(** Pages between [lo] and [hi] leave: the areas of [V] are those of [A] that stay. *)
Lemma mid_release A V F s p lo n : mid A (frees A) s -> lists (frees A) F s -> geom V -> inside V A -> clear V lo (lo + 4096 * n) -> total V = total A - 4096 * n -> frees V = frees A ->
  (4096 | lo) -> 0 <= n -> pages_of lo n ⊆ hp_mapped s -> pg_holds p (hp_mapped s ∖ pages_of lo n) ->
  let s' := on_size (fun z => u64 (z - 4096 * n)) (set_pages p (on_mapped (fun m => m ∖ pages_of lo n) s)) in mid V (frees V) s' /\ lists (frees V) F s'.
Proof.
  intros M L G Hi Hc Ht EF H4 Hn Hsub Hp s'. pose proof M as [GA _ _ Hcov Htot Hpg _]. pose proof (mid_bound _ _ _ M) as (_ & Hb & _).
  assert (Z.of_nat (size (hp_mapped s)) = n + Z.of_nat (size (hp_mapped s ∖ pages_of lo n))) as Es.
  { rewrite size_difference by done. pose proof (subseteq_size _ _ Hsub). pose proof (size_pages lo n Hn). lia. }
  assert (covered V (hp_mapped s ∖ pages_of lo n)) as Hcv.
  { intros a r x Ha Hx. apply elem_of_difference. split.
    - destruct (Hi x) as (b & q & Hb' & Hx'); [by exists a, r|]. by apply (Hcov b q).
    - rewrite elem_of_pages by done. destruct (Hc a r Ha); lia. }
  assert (lists (frees V) F s') as L'.
  { rewrite EF. eapply lists_change; [exact L|done| |done..]. intros a z Hz. pose proof (li_ok _ _ _ L a z Hz) as (? & ? & Hzr & _).
    rewrite <- EF in Hz. apply frees_spec in Hz as (r & Hr & Kr & <-). do 3 (split; [done|]). split; apply (Hcv a r); try done; rewrite ext_size by congruence; lia. }
  split; [|done]. split; cbn; try done.
  - by exists F.
  - rewrite u64_small; lia.
  - rewrite u64_small; lia.
Qed.

(** ** An area becomes free *)

(** The neighbours of an area that is about to be free are not. *)
Definition alone A a r : Prop := forall q, (A !! ar_left r = Some q \/ A !! (a + ar_size r) = Some q) -> ar_kind q <> KFree.

Lemma coalesced_mark_free A a r : geom A -> A !! a = Some r -> ar_kind r = KUsed -> coalesced A -> alone A a r -> coalesced (mark a KFree A).
Proof.
  intros G Ha Ka Hc Hal b p q Hb Kb Hq. pose proof (ge_facts _ _ _ G Ha) as (_ & F2 & _ & _ & F5). specialize (F5 ltac:(congruence)).
  assert (forall y u, mark a KFree A !! y = Some u -> y <> a -> A !! y = Some u) as Ho by (intros y u Hy Hne; unfold mark in Hy; by rewrite lookup_alter, decide_False in Hy).
  destruct (decide (b = a)) as [->|Hne].
  - unfold mark in Hb. rewrite lookup_alter, decide_True, Ha in Hb by done. injection Hb as <-. cbn in Hq. apply Hal. right. apply Ho; [done|lia].
  - apply Ho in Hb; [|done]. destruct (ge_right _ G b p Hb ltac:(congruence)) as (u & Hu & Eu & _). destruct (decide (b + ar_size p = a)) as [E|E].
    + exfalso. rewrite E, Ha in Hu. injection Hu as <-. apply (Hal p); [left; by rewrite Eu|done].
    + apply Ho in Hq; [|done]. eauto.
Qed.

Lemma coalesced_remove A l a b : coalesced A -> coalesced (remove_segment l a b A).
Proof.
  intros Hc x r q Hx Kx Hq. unfold remove_segment in *. apply lookup_delete_Some in Hx as [_ [_ [_ Hx]%lookup_delete_Some]%lookup_delete_Some].
  apply lookup_delete_Some in Hq as [_ [_ [_ Hq]%lookup_delete_Some]%lookup_delete_Some]. eauto.
Qed.

(** The whole segment goes back. *)
Lemma free_segment_wp U s l x b rl rx rb : mid U (frees U) s -> hdrs (delete x U) (hp_mem s) -> coalesced U -> U !! l = Some rl -> U !! x = Some rx -> U !! b = Some rb ->
  ar_kind rl = KLeft -> ar_kind rx = KUsed -> ar_kind rb = KRight -> ar_left rx = l -> b = x + ar_size rx -> l + ar_size rl = x ->
  wp (free_to_os l (u64 (ar_size rx + ar_size rl + HEADER))) (fun _ s' => inv (remove_segment l x b U) s' /\ quiet (fun _ => True) s s') s.
Proof.
  intros M Hh Hc Hl Hx Hb Kl Kx Kb El Eb Ex. pose proof (mi_geom _ _ _ M) as G. pose proof (ge_facts _ _ _ G Hl) as (L1 & L2 & L3 & L4 & L5). specialize (L5 ltac:(congruence)).
  pose proof (ge_facts _ _ _ G Hx) as (X1 & X2 & X3 & X4 & X5). specialize (X5 ltac:(congruence)). pose proof (ge_facts _ _ _ G Hb) as (B1 & B2 & B3 & _).
  assert (ext rb = 16) as Eb16 by (unfold ext; by rewrite decide_True).
  pose proof (ge_ok _ G _ _ Hl) as (_ & _ & _ & _ & _ & _ & Ol). unfold kind_ok in Ol. rewrite Kl in Ol. pose proof (ge_ok _ G _ _ Hb) as (_ & _ & _ & _ & _ & _ & Ob). unfold kind_ok in Ob. rewrite Kb in Ob.
  destruct Ol as (_ & [kl Ekl] & _), Ob as (_ & [kb Ekb]). set (n := kb - kl). assert (4096 * n = b + 16 - l) as En by (unfold n; lia).
  assert (total (remove_segment l x b U) = total U - 4096 * n) as Et by (rewrite (total_remove U l x b rl rx rb); [lia|done|done|done|lia..]).
  pose proof (mid_bound _ _ _ M) as (_ & Hbound & _). assert (0 <= total (remove_segment l x b U)) as Hpos.
  { apply msum_nonneg. intros y q Hy. unfold remove_segment in Hy. apply lookup_delete_Some in Hy as [_ [_ [_ Hy]%lookup_delete_Some]%lookup_delete_Some]. pose proof (ge_facts _ _ _ G Hy). lia. }
  assert (pages_of l n ⊆ hp_mapped s) as Hsub.
  { intros y Hy. replace y with (y * 4096 / 4096) in * by (apply Z.div_mul; lia). apply elem_of_pages in Hy; [|by exists kl].
    destruct (Z.lt_ge_cases (y * 4096) x); [apply (mi_cov _ _ _ M l rl); [done|lia]|]. destruct (Z.lt_ge_cases (y * 4096) b); [apply (mi_cov _ _ _ M x rx)|apply (mi_cov _ _ _ M b rb)]; done || lia. }
  assert (clear (remove_segment l x b U) l (l + 4096 * n)) as Hcl.
  { intros y q Hy. unfold remove_segment in Hy. apply lookup_delete_Some in Hy as [N1 [N2 [N3 Hy]%lookup_delete_Some]%lookup_delete_Some].
    destruct (ge_apart _ G _ _ _ _ Hy Hl ltac:(done)), (ge_apart _ G _ _ _ _ Hy Hx ltac:(done)), (ge_apart _ G _ _ _ _ Hy Hb ltac:(done)); pose proof (ge_facts _ _ _ G Hy); lia. }
  assert (geom (remove_segment l x b U)) as GV by (by eapply geom_remove). change HEADER with 16. rewrite u64_small by lia. replace (ar_size rx + ar_size rl + 16) with (4096 * n) by lia.
  unfold free_to_os. wp_step. wp_step; [apply IS_PAGE_ALIGNED_spec; by apply Z.divide_factor_l|]. wp_step. change PAGE_SIZE_SHIFT with 12. rewrite Z.shiftr_div_pow2 by lia.
  change (2 ^ 12) with 4096. rewrite Z.mul_comm, Z.div_mul by lia. apply page_free_wp; [apply M|lia|by exists kl|done|]. intros p Hp. wp_step. rewrite Z.mul_comm. split; [|done]. split.
  - destruct (mi_lists _ _ _ M) as [F L]. eapply (mid_release U); try done; [apply inside_remove|eapply (frees_remove U l x b rl rx rb); congruence || done|by exists kl|lia].
  - cbn. intros y q Hy. apply Hh. unfold remove_segment in Hy. apply lookup_delete_Some in Hy as [N1 [N2 [N3 Hy]%lookup_delete_Some]%lookup_delete_Some]. by apply lookup_delete_Some.
  - by apply coalesced_remove.
Qed.

Lemma free_memory_wp U s x rx left : mid U (frees U) s -> hdrs (delete x U) (hp_mem s) -> coalesced U -> U !! x = Some rx -> ar_kind rx = KUsed -> alone U x rx -> untag left = ar_left rx ->
  wp (free_memory x left (ar_size rx)) (fun _ s' => exists V, inv V s' /\ used V = delete x (used U) /\ (plain U -> plain V) /\ quiet (payload (delete x (used U))) s s') s.
Proof.
  intros M Hh Hc Hx Kx Hal El. pose proof (mi_geom _ _ _ M) as G. destruct (ge_left _ G x rx Hx ltac:(congruence)) as (rl & Hl & Ex & Kl). destruct (ge_right _ G x rx Hx ltac:(congruence)) as (rb & Hb & Eb & Kb & _).
  pose proof (ge_facts _ _ _ G Hl) as (L1 & L2 & L3 & L4 & L5). specialize (L5 Kl). pose proof (ge_facts _ _ _ G Hx) as (X1 & X2 & X3 & X4 & X5). specialize (X5 ltac:(congruence)).
  destruct (Hh (ar_left rx) rl) as [W1 W2]; [apply lookup_delete_Some; split; [lia|done]|]. destruct (Hh (x + ar_size rx) rb) as [_ W3]; [apply lookup_delete_Some; split; [lia|done]|].
  pose proof (mid_header _ _ _ _ _ M Hl) as [U1 U2]. pose proof (mid_header _ _ _ _ _ M Hb) as [_ U4]. unfold free_memory. rewrite El.
  assert (bool_decide (ar_kind rl = KLeft) && bool_decide (ar_kind rb = KRight) = true \/ bool_decide (ar_kind rl = KLeft) && bool_decide (ar_kind rb = KRight) = false) as Hcase by (destruct (_ && _); auto).
  wp_step. apply (wp_mono _ (fun (c1 : bool) s' => c1 = bool_decide (ar_kind rl = KLeft) /\ s' = s)).
  { destruct (IS_PAGE_ALIGNED (ar_left rx)) eqn:Ea.
    - unfold is_start_of_os_allocation. wp_step. apply hdr_left_wp; [done|]. wp_step. rewrite W1. split; [|done]. change (untag 0) with 0. pose proof (hdr_range _ _ _ G Hl) as [_ H0].
      case_bool_decide as K; [by apply Z.eqb_eq, H0|apply Z.eqb_neq; by rewrite H0].
    - wp_step. split; [|done]. symmetry. apply bool_decide_eq_false. intros K. pose proof (ge_ok _ G _ _ Hl) as (_ & _ & _ & _ & _ & _ & Ol). unfold kind_ok in Ol. rewrite K in Ol.
      destruct Ol as (_ & Ol & _). apply IS_PAGE_ALIGNED_spec in Ol. congruence. }
  intros c1 s' [-> ->]. wp_step. apply (wp_mono _ (fun (c2 : bool) s' => c2 = bool_decide (ar_kind rl = KLeft) && bool_decide (ar_kind rb = KRight) /\ s' = s)).
  { destruct (bool_decide (ar_kind rl = KLeft)); [|by wp_step]. unfold is_end_of_os_allocation. wp_step. apply hdr_size_wp; [done|]. wp_step. rewrite W3. split; [|done]. cbn [andb].
    pose proof (size_zero _ _ _ G Hb) as H0. case_bool_decide as K; [by apply Z.eqb_eq, H0|apply Z.eqb_neq; by rewrite H0]. }
  intros c2 s' [-> ->]. destruct Hcase as [E|E]; rewrite E.
  - apply andb_true_iff in E as [K1%bool_decide_eq_true K2%bool_decide_eq_true]. wp_step. apply hdr_size_wp; [done|]. rewrite W2.
    eapply wp_mono; [by apply (free_segment_wp U s (ar_left rx) x (x + ar_size rx) rl rx rb)|]. intros _ s' [I Q]. eexists. split; [exact I|]. split; [eapply used_remove; try done; congruence|]. split; [|by eapply quiet_mono; [|exact Q]].
    intros Hp y q Hy. unfold remove_segment in Hy. apply lookup_delete_Some in Hy as [N1 [N2 [N3 Hy]%lookup_delete_Some]%lookup_delete_Some]. eauto.
  - assert (ar_hi rx - ar_lo rx <= BIG) as Hbig.
    { destruct (Z.le_gt_cases (ar_hi rx - ar_lo rx) BIG) as [|Hgt]; [done|]. destruct (ge_big _ G _ _ Hx Kx ltac:(lia)) as [(q1 & Hq1 & K1) (q2 & Hq2 & K2)].
      rewrite Hl in Hq1. rewrite Hb in Hq2. injection Hq1 as <-. injection Hq2 as <-. rewrite !bool_decide_eq_true_2 in E by done. done. }
    wp_step. eapply wp_mono; [by apply (mid_create U s x rx)|]. intros _ s' (K & W4 & W5 & M'). wp_step. exists (mark x KFree U).
    pose proof (ge_ok _ G _ _ Hx) as (_ & _ & _ & _ & _ & _ & Ox). unfold kind_ok in Ox. rewrite Kx in Ox.
    assert (forall y, x <= y < x + 32 \/ link (frees U) y -> touched U x rx y) as Htc by (intros y [?|?]; [right; left; lia|by left]).
    split; [split|split_and!]; [done| |by eapply coalesced_mark_free|apply used_mark_free|apply (plain_mark _ _ rx); congruence || done|].
    + rewrite (mark_insert _ _ rx) by done. apply hdrs_insert; [|done|done]. eapply hdrs_keeps; [exact K| |done]. intros y Hy.
      destruct Hy as [Hy|Hy].
      * eapply off_headers_delete; [done|done|]. lia.
      * eapply off_headers_sub; [by intros ?? [_ ?]%lookup_delete_Some|]. apply (link_area U) in Hy as (c & q & Hcq & _ & Hy); [by eapply off_headers_inside|done|done].
    + eapply heap_keeps_quiet; [|exact K]. intros y Hy. eapply touched_payload; [done|done|congruence|auto].
Qed.

(** ** Merging with free neighbours *)

Lemma merge_lookup A a r q y : merge a r q A !! y =
  if decide (y = a) then Some (set_size (ar_size r + ar_size q) r) else if decide (y = a + ar_size r) then None else
  if decide (y = a + ar_size r + ar_size q) then set_left a <$> A !! y else A !! y.
Proof.
  unfold merge, fix_left. rewrite lookup_insert, lookup_delete, lookup_alter. destruct (decide (y = a)) as [->|]; [by rewrite decide_True|]. rewrite (decide_False (P := a = y)) by congruence.
  destruct (decide (y = a + ar_size r)) as [->|]; [by rewrite decide_True|]. rewrite (decide_False (P := a + ar_size r = y)) by congruence.
  destruct (decide (y = a + ar_size r + ar_size q)) as [->|]; [by rewrite decide_True|]. by rewrite decide_False by congruence.
Qed.

Lemma mark_lookup A a k y : mark a k A !! y = if decide (y = a) then set_kind k <$> A !! y else A !! y.
Proof. unfold mark. rewrite lookup_alter. destruct (decide (y = a)) as [->|]; [by rewrite decide_True|]. by rewrite decide_False by congruence. Qed.

(** [U] is [A] with the areas from [x] to [c] made one, which is given out, when [D] are those that were there. *)
Record joined A U x rx (c : Z) (D : list Z) : Prop := {
  jo_geom : geom U;
  jo_inside : inside U A;
  jo_total : total U = total A;
  jo_x : U !! x = Some rx;
  jo_kind : ar_kind rx = KUsed;
  jo_c : x + ar_size rx = c;
  jo_other : forall y q, U !! y = Some q -> y <> x -> y ∉ D /\ exists q', A !! y = Some q' /\ q = if decide (y = c) then set_left x q' else q';
  jo_back : forall y q, A !! y = Some q -> y ∉ D -> is_Some (U !! y) }.

Lemma join_right A a r q : geom A -> A !! a = Some r -> ar_kind r = KUsed -> A !! (a + ar_size r) = Some q -> ar_kind q = KFree ->
  let U := merge a r (set_kind KUsed q) (mark (a + ar_size r) KUsed A) in
  joined A U a (set_size (ar_size r + ar_size q) r) (a + ar_size r + ar_size q) [a + ar_size r] /\ frees U = delete (a + ar_size r) (frees A) /\ used U = <[a := ar_size r + ar_size q]> (used A).
Proof.
  intros G Ha Ka Hb Kb. set (b := a + ar_size r) in *. set (A1 := mark b KUsed A). cbv zeta. pose proof (ge_facts _ _ _ G Ha) as (_ & F2 & _ & _ & F5). specialize (F5 ltac:(congruence)).
  pose proof (ge_ok _ G _ _ Hb) as (_ & _ & _ & _ & _ & _ & Ob). unfold kind_ok in Ob. rewrite Kb in Ob.
  assert (geom A1) as G1 by (eapply geom_mark; eauto; lia). assert (A1 !! a = Some r) as Ha1 by (unfold A1; rewrite mark_lookup, decide_False by (unfold b; lia); done).
  assert (A1 !! b = Some (set_kind KUsed q)) as Hb1 by (unfold A1; rewrite mark_lookup, decide_True, Hb by done; done). split_and!; [split|..].
  - by apply geom_merge.
  - eapply inside_trans; [apply (inside_mark A b q KUsed); congruence || done|by apply inside_merge].
  - rewrite total_merge by done. apply (total_mark A b q); congruence || done.
  - rewrite merge_lookup, decide_True by done. done.
  - done.
  - cbn. lia.
  - intros y p Hy Hne. rewrite merge_lookup, decide_False in Hy by done. cbn in Hy. fold b in Hy. case_decide as N1; [done|]. split; [apply not_elem_of_cons; split; [done|apply not_elem_of_nil]|].
    unfold A1 in Hy. rewrite mark_lookup, (decide_False (P := y = b)) in Hy by done. fold b in Hy. revert Hy. destruct (decide (y = b + ar_size q)) as [N2|N2]; intros Hy; [|by exists p]. apply fmap_Some in Hy as (q' & Hq' & ->). by exists q'.
  - intros y p Hy Hin. rewrite merge_lookup. case_decide; [done|]. fold b. rewrite decide_False by (intros ->; apply Hin; left). unfold A1. cbn. rewrite mark_lookup, (decide_False (P := y = b)) by (intros ->; apply Hin; left).
    rewrite Hy. by case_decide.
  - rewrite frees_merge by done. apply frees_mark_used.
  - rewrite used_merge by (done || lia). unfold A1. rewrite (used_mark_used A b q) by done. fold b. rewrite delete_insert_eq. cbn. f_equal. apply delete_id. apply used_none. intros u Hu. congruence.
Qed.

Lemma join_left A a r l q : geom A -> A !! a = Some r -> ar_kind r = KUsed -> ar_left r = l -> A !! l = Some q -> ar_kind q = KFree ->
  let U := merge l (set_kind KUsed q) r (mark l KUsed A) in
  joined A U l (Area (ar_size q + ar_size r) (ar_left q) KUsed (ar_lo q) (ar_hi q)) (a + ar_size r) [a] /\ frees U = delete l (frees A) /\ used U = <[l := ar_size q + ar_size r]> (delete a (used A)).
Proof.
  intros G Ha Ka El Hl Kl. set (A1 := mark l KUsed A). cbv zeta. pose proof (ge_facts _ _ _ G Ha) as (_ & F2 & _ & _ & F5). specialize (F5 ltac:(congruence)).
  destruct (ge_left _ G a r Ha ltac:(congruence)) as (q' & Hq' & Ex & _). rewrite El, Hl in Hq'. injection Hq' as <-. rewrite El in Ex.
  pose proof (ge_ok _ G _ _ Hl) as (_ & _ & _ & _ & _ & _ & Ol). unfold kind_ok in Ol. rewrite Kl in Ol.
  assert (geom A1) as G1 by (eapply geom_mark; eauto; lia). assert (A1 !! a = Some r) as Ha1 by (unfold A1; rewrite mark_lookup, decide_False by lia; done).
  assert (A1 !! l = Some (set_kind KUsed q)) as Hl1 by (unfold A1; rewrite mark_lookup, decide_True, Hl by done; done).
  assert (A1 !! (l + ar_size (set_kind KUsed q)) = Some r) as Ha2 by (cbn; by rewrite Ex). split_and!; [split|..].
  - by apply geom_merge.
  - eapply inside_trans; [apply (inside_mark A l q KUsed); congruence || done|by apply inside_merge].
  - rewrite total_merge by done. apply (total_mark A l q); congruence || done.
  - rewrite merge_lookup, decide_True by done. done.
  - done.
  - cbn. lia.
  - intros y p Hy Hne. rewrite merge_lookup, decide_False in Hy by done. cbn in Hy. rewrite Ex in Hy. case_decide as N1; [done|]. split; [apply not_elem_of_cons; split; [done|apply not_elem_of_nil]|].
    unfold A1 in Hy. rewrite mark_lookup, (decide_False (P := y = l)) in Hy by done. revert Hy. destruct (decide (y = a + ar_size r)) as [N2|N2]; intros Hy; [|by exists p]. apply fmap_Some in Hy as (q' & Hq' & ->). by exists q'.
  - intros y p Hy Hin. rewrite merge_lookup. case_decide; [done|]. cbn. rewrite Ex, decide_False by (intros ->; apply Hin; left). unfold A1. rewrite mark_lookup, (decide_False (P := y = l)) by done.
    rewrite Hy. by case_decide.
  - rewrite frees_merge by done. apply frees_mark_used.
  - rewrite used_merge by (done || cbn; lia). unfold A1. rewrite (used_mark_used A l q) by done. cbn. rewrite Ex. rewrite delete_insert_ne by lia. rewrite insert_insert_eq. done.
Qed.

Lemma joined_trans A U V a b x ra rx c D D' : joined A U a ra c D -> joined U V x rx c D' -> a ∈ D' -> joined A V x rx c (D ++ D').
Proof.
  intros [G1 I1 T1 X1 K1 C1 O1 B1] [G2 I2 T2 X2 K2 C2 O2 B2] Hin. split; try done; [by eapply inside_trans|congruence|..].
  - intros y q Hy Hne. destruct (O2 y q Hy Hne) as (N2 & q2 & Hq2 & ->). destruct (O1 y q2 Hq2 ltac:(by intros ->)) as (N1 & q1 & Hq1 & ->).
    split; [rewrite elem_of_app; tauto|]. exists q1. split; [done|]. by case_decide.
  - intros y q Hy Hn. rewrite elem_of_app in Hn. destruct (B1 y q Hy ltac:(tauto)) as [q' Hq']. apply (B2 y q' Hq'). tauto.
Qed.

Lemma joined_coalesced A U x rx c D : joined A U x rx c D -> coalesced A -> coalesced U.
Proof.
  intros J Hc a r q Ha Ka Hq. destruct (decide (a = x)) as [->|Na]; [rewrite (jo_x _ _ _ _ _ _ J) in Ha; injection Ha as <-; by rewrite (jo_kind _ _ _ _ _ _ J) in Ka|].
  destruct (decide (a + ar_size r = x)) as [E|Nq]; [rewrite E, (jo_x _ _ _ _ _ _ J) in Hq; injection Hq as <-; by rewrite (jo_kind _ _ _ _ _ _ J)|].
  destruct (jo_other _ _ _ _ _ _ J a r Ha Na) as (_ & r' & Hr' & Er). destruct (jo_other _ _ _ _ _ _ J _ q Hq Nq) as (_ & q' & Hq' & Eq).
  assert (ar_kind r = ar_kind r' /\ ar_size r = ar_size r') as [E1 E2] by (clear -Er; subst r; destruct (decide _); done). assert (ar_kind q = ar_kind q') as E3 by (clear -Eq; subst q; destruct (decide _); done).
  rewrite E3. apply (Hc a r' q'); [done|congruence|]. by rewrite <- E2.
Qed.

Lemma joined_plain A U x rx c D : joined A U x rx c D -> plain A -> plain U.
Proof.
  intros J Hp a r Ha Ka. destruct (decide (a = x)) as [->|Na]; [rewrite (jo_x _ _ _ _ _ _ J) in Ha; injection Ha as <-; by rewrite (jo_kind _ _ _ _ _ _ J) in Ka|].
  destruct (jo_other _ _ _ _ _ _ J a r Ha Na) as (_ & r' & Hr' & ->). case_decide; cbn in *; eauto.
Qed.

(** Nothing free on either side of a free area. *)
Lemma free_alone A a r : geom A -> coalesced A -> A !! a = Some r -> ar_kind r = KFree -> alone A a r.
Proof.
  intros G Hc Ha Ka q [Hq|Hq] Kq; [|by apply (Hc a r q)]. destruct (ge_left _ G a r Ha ltac:(congruence)) as (q' & Hq' & E & _). rewrite Hq in Hq'. injection Hq' as <-.
  apply (Hc _ _ r Hq Kq); [by rewrite E|done].
Qed.

(** The neighbours of the area that was made: what is to its left, and what is to its right. *)
Lemma joined_alone A U x rx c D : joined A U x rx c D -> (forall q, A !! ar_left rx = Some q -> ar_kind q <> KFree) -> (forall q, A !! c = Some q -> ar_kind q <> KFree) -> alone U x rx.
Proof.
  intros J Hl Hc q Hq. pose proof (ge_facts _ _ _ (jo_geom _ _ _ _ _ _ J) (jo_x _ _ _ _ _ _ J)) as (_ & F2 & _ & _ & F5). pose proof (jo_kind _ _ _ _ _ _ J) as K. specialize (F5 ltac:(congruence)).
  destruct Hq as [Hq|Hq].
  - destruct (decide (ar_left rx = x)) as [E|Hne]; [rewrite E, (jo_x _ _ _ _ _ _ J) in Hq; injection Hq as <-; congruence|].
    destruct (jo_other _ _ _ _ _ _ J _ q Hq Hne) as (_ & q' & Hq' & ->). case_decide; cbn; by apply Hl.
  - rewrite (jo_c _ _ _ _ _ _ J) in Hq. pose proof (jo_c _ _ _ _ _ _ J). destruct (jo_other _ _ _ _ _ _ J _ q Hq ltac:(lia)) as (_ & q' & Hq' & ->). case_decide; cbn; by apply Hc.
Qed.

(** The headers of [A] where nothing was merged, the left pointer at [c] being [x]. *)
Definition hdrs_joined A x (c : Z) (D : list Z) (m : mem) : Prop := forall y q, A !! y = Some q -> y <> x -> y ∉ D ->
  word m y = hdr (if decide (y = c) then set_left x q else q) /\ word m (y + 8) = ar_size q.

Lemma free_joined_wp A U x rx c D s left : joined A U x rx c D -> mid A (frees U) s -> hdrs_joined A x c D (hp_mem s) -> coalesced A -> alone U x rx -> untag left = ar_left rx ->
  wp (free_memory x left (ar_size rx)) (fun _ s' => exists V, inv V s' /\ used V = delete x (used U) /\ (plain A -> plain V) /\ quiet (payload (delete x (used U))) s s') s.
Proof.
  intros J M Hh Hc Hal El. eapply wp_mono; [apply (free_memory_wp U); [|..|exact (jo_x _ _ _ _ _ _ J)|exact (jo_kind _ _ _ _ _ _ J)|done|done]|].
  - eapply mid_shape; [exact M|apply J|apply J|apply J|done].
  - intros y q [Hne Hy]%lookup_delete_Some. destruct (jo_other _ _ _ _ _ _ J y q Hy ltac:(done)) as (Hn & q' & Hq' & ->). destruct (Hh y q' Hq' ltac:(done) Hn) as [-> ->]. by case_decide.
  - by eapply joined_coalesced.
  - intros _ s' (V & I & Hu & Hp & Q). exists V. split_and!; try done. intros. by eapply Hp, joined_plain.
Qed.

Lemma hdrs_joined_fix A x c D q s : geom A -> A !! c = Some q -> hdrs A (hp_mem s) -> hdrs_joined A x c D (hp_mem (on_mem (<[c := hdr (set_left x q)]>) s)).
Proof.
  intros G Hc Hh y p Hy Hne Hn. destruct (Hh y p Hy) as [E1 E2]. cbn. destruct (decide (y = c)) as [->|Hyc].
  - rewrite Hc in Hy. injection Hy as <-. rewrite word_put_eq, word_put_ne by lia. done.
  - destruct (headers_apart _ _ _ _ _ G Hy Hc Hyc); rewrite !word_put_ne by lia; done.
Qed.

Lemma links_quiet A Fr s s' : geom A -> (forall a z, Fr !! a = Some z -> frees A !! a = Some z) -> keeps (link Fr) s s' -> quiet (payload (used A)) s s'.
Proof.
  intros G Hs. apply heap_keeps_quiet. intros x Hx (b & z & (q & Hb & Kb & <-)%used_spec & Hxb). revert Hx.
  eapply (not_link A _ b q); try done; [rewrite ext_size by congruence; lia|]. left. destruct (Fr !! b) eqn:E; [|done]. apply Hs, frees_spec in E as (? & ? & ? & _). congruence.
Qed.

Lemma header_quiet A a r x v s : geom A -> A !! a = Some r -> (x = a \/ x = a + 8) -> quiet (payload (used A)) s (on_mem (<[x := v]>) s).
Proof.
  intros G Ha Hx. apply (heap_keeps_quiet (fun y => y = x)); [|by apply keeps_put]. intros y -> (b & z & (q & Hb & Kb & <-)%used_spec & Hxb). pose proof (ge_facts _ _ _ G Ha). pose proof (ge_facts _ _ _ G Hb) as (_ & _ & _ & _ & E).
  specialize (E ltac:(congruence)). destruct (decide (a = b)) as [->|Hne]; [lia|]. destruct (ge_apart _ G _ _ _ _ Ha Hb Hne); lia.
Qed.

(** The block at [a] is gone and all others are as they were. *)
Definition freed A a s s' : Prop := exists V, inv V s' /\ used V = delete a (used A) /\ (plain A -> plain V) /\ quiet (payload (delete a (used A))) s s'.

Lemma freed_finish A U a x s0 s1 s2 : (exists V, inv V s2 /\ used V = delete x (used U) /\ (plain A -> plain V) /\ quiet (payload (delete x (used U))) s1 s2) ->
  quiet (payload (used A)) s0 s1 -> delete x (used U) = delete a (used A) -> freed A a s0 s2.
Proof.
  intros (V & I & Hu & Hp & Q) Q0 E. rewrite E in *. exists V. split_and!; try done. eapply heap_quiet_trans; [|done]. eapply quiet_mono; [|exact Q0]. intros y. apply payload_mono, delete_subseteq.
Qed.

Section one.
Context A a r (HA : geom A) (Hc : coalesced A) (Ha : A !! a = Some r) (Ka : ar_kind r = KUsed).

(** Only the right neighbour is free. *)
Lemma free_right_wp q s : mid A (frees A) s -> hdrs A (hp_mem s) -> A !! (a + ar_size r) = Some q -> ar_kind q = KFree -> (forall p, A !! ar_left r = Some p -> ar_kind p <> KFree) ->
  wp (do right_right <- right_header (a + ar_size r); unlink_free_unknown_bucket (a + ar_size r) ;; FixLeftPointer right_right a ;;
      do rsize <- hdr_size (a + ar_size r); free_memory a (ar_left r) (u64 (ar_size r + rsize))) (fun _ s' => freed A a s s') s.
Proof.
  intros M Hh Hb Kb Hl. pose proof (join_right A a r q HA Ha Ka Hb Kb) as (J & EF & EU). set (b := a + ar_size r) in *. set (U := merge _ _ _ _) in *.
  destruct (ge_right _ HA b q Hb ltac:(congruence)) as (p & Hp & Ep & Kp & _). destruct (Hh b q Hb) as [W1 W2]. pose proof (mid_header _ _ _ _ _ M Hb) as [_ Hu]. pose proof (mid_header _ _ _ _ _ M Hp) as [Hu1 _].
  pose proof (ge_facts _ _ _ HA Ha) as (F1 & F2 & F3 & F4 & F5). specialize (F5 ltac:(congruence)). pose proof (ge_facts _ _ _ HA Hb) as (B1 & B2 & B3 & B4 & B5). specialize (B5 ltac:(congruence)).
  pose proof (area_8 _ _ _ HA Ha) as (A8 & _). pose proof (left_ok _ _ _ HA Ha) as (L8 & Lr & _).
  wp_step. apply right_header_wp; [done|]. rewrite W2. wp_step. eapply wp_mono; [apply (mid_unlink_unknown A (frees A) s b (ar_size q)); [done|apply frees_spec; eauto|done]|]. intros _ s1 [K1 M1].
  rewrite <- EF in M1. assert (hdrs A (hp_mem s1)) as Hh1 by (eapply hdrs_links; [done| |exact K1|done]; done). destruct (Hh1 _ _ Hp) as [W3 _]. destruct (Hh1 _ _ Hb) as [_ W4].
  wp_step. eapply (FixLeftPointer_wp _ A (b + ar_size q) p); [done|done|by rewrite (keeps_usable _ _ _ _ K1)|done|done|lia|].
  wp_step. apply hdr_size_wp; [by rewrite usable_mem, (keeps_usable _ _ _ _ K1)|]. cbn [hp_mem on_mem]. rewrite word_put_ne, W4 by lia. rewrite u64_small by lia.
  eapply wp_mono; [eapply (free_joined_wp A U a (set_size (ar_size r + ar_size q) r)); [exact J|by eapply mid_put_header; [|exact Hp|left]|by eapply hdrs_joined_fix|done| |cbn; apply untag_id; [done|lia]]|].
  - eapply joined_alone; [exact J|done|]. intros u Hu'. apply (Hc b q u); done.
  - intros [] s2 HV. eapply freed_finish; [exact HV| |].
    + eapply heap_quiet_trans; [eapply links_quiet; [done| |exact K1]; done|]. by eapply header_quiet; [|exact Hp|left].
    + rewrite EU. apply delete_insert_eq.
Qed.

(** Only the left neighbour is free. *)
Lemma free_left_wp q s : mid A (delete (ar_left r) (frees A)) s -> hdrs A (hp_mem s) -> A !! ar_left r = Some q -> ar_kind q = KFree -> (forall p, A !! (a + ar_size r) = Some p -> ar_kind p <> KFree) ->
  wp (FixLeftPointer (a + ar_size r) (ar_left r) ;; do lleft <- hdr_left (ar_left r); do lsize <- hdr_size (ar_left r);
      free_memory (ar_left r) lleft (u64 (lsize + ar_size r))) (fun _ s' => freed A a s s') s.
Proof.
  intros M Hh Hl Kl Hb'. pose proof (join_left A a r _ q HA Ha Ka eq_refl Hl Kl) as (J & EF & EU). set (l := ar_left r) in *. set (U := merge _ _ _ _) in *. rewrite <- EF in M.
  destruct (ge_right _ HA a r Ha ltac:(congruence)) as (p & Hp & Ep & Kp & _). destruct (ge_left _ HA a r Ha ltac:(congruence)) as (q' & Hq' & El & _). fold l in Hq', El. rewrite Hl in Hq'. injection Hq' as <-.
  destruct (Hh l q Hl) as [W1 W2]. destruct (Hh _ _ Hp) as [W3 _]. pose proof (mid_header _ _ _ _ _ M Hl) as [Hu1 Hu2]. pose proof (mid_header _ _ _ _ _ M Hp) as [Hu3 _].
  pose proof (ge_facts _ _ _ HA Ha) as (F1 & F2 & F3 & F4 & F5). specialize (F5 ltac:(congruence)). pose proof (ge_facts _ _ _ HA Hl) as (B1 & B2 & B3 & B4 & B5). specialize (B5 ltac:(congruence)).
  pose proof (left_ok _ _ _ HA Ha) as (L8 & Lr & _). fold l in L8, Lr.
  wp_step. eapply (FixLeftPointer_wp _ A (a + ar_size r) p); [done..|]. wp_step. apply hdr_left_wp; [by rewrite usable_mem|]. cbn [hp_mem on_mem]. rewrite word_put_ne, W1 by lia.
  wp_step. apply hdr_size_wp; [by rewrite usable_mem|]. cbn [hp_mem on_mem]. rewrite word_put_ne, W2 by lia. rewrite u64_small by lia.
  eapply wp_mono; [eapply (free_joined_wp A U l (Area (ar_size q + ar_size r) (ar_left q) KUsed (ar_lo q) (ar_hi q))); [exact J|by eapply mid_put_header; [|exact Hp|left]|by eapply hdrs_joined_fix|done| |by apply (hdr_untag A l q)]|].
  - eapply joined_alone; [exact J| |done]. intros u Hu'. apply (free_alone A l q HA Hc Hl Kl). by left.
  - intros [] s2 HV. eapply freed_finish; [exact HV|by eapply header_quiet; [|exact Hp|left]|].
    rewrite EU, delete_insert_eq. apply delete_id. apply lookup_delete_None. right. apply used_none. intros u Hu'. congruence.
Qed.

(** Both neighbours are free. *)
Lemma free_both_wp q p s : mid A (delete (ar_left r) (frees A)) s -> hdrs A (hp_mem s) -> A !! ar_left r = Some q -> ar_kind q = KFree -> A !! (a + ar_size r) = Some p -> ar_kind p = KFree ->
  wp (unlink_free_unknown_bucket (a + ar_size r) ;; do right_right <- right_header (a + ar_size r); FixLeftPointer right_right (ar_left r) ;;
      do lleft <- hdr_left (ar_left r); do lsize <- hdr_size (ar_left r); do rsize <- hdr_size (a + ar_size r);
      free_memory (ar_left r) lleft (u64 (lsize + ar_size r + rsize))) (fun _ s' => freed A a s s') s.
Proof.
  intros M Hh Hl Kl Hb Kb. pose proof (join_right A a r p HA Ha Ka Hb Kb) as (J1 & EF1 & EU1). set (l := ar_left r) in *. set (b := a + ar_size r) in *. set (U1 := merge _ _ _ _) in *.
  pose proof (ge_facts _ _ _ HA Ha) as (F1 & F2 & F3 & F4 & F5). specialize (F5 ltac:(congruence)). pose proof (ge_facts _ _ _ HA Hl) as (L1 & L2 & L3 & L4 & L5). specialize (L5 ltac:(congruence)).
  pose proof (ge_facts _ _ _ HA Hb) as (B1 & B2 & B3 & B4 & B5). specialize (B5 ltac:(congruence)).
  destruct (ge_left _ HA a r Ha ltac:(congruence)) as (q' & Hq' & El & _). fold l in Hq', El. rewrite Hl in Hq'. injection Hq' as <-.
  assert (U1 !! l = Some q) as Hl1.
  { destruct (jo_back _ _ _ _ _ _ J1 l q Hl) as [q1 Hq1]; [apply not_elem_of_cons; split; [unfold b; lia|apply not_elem_of_nil]|].
    destruct (jo_other _ _ _ _ _ _ J1 l q1 Hq1 ltac:(lia)) as (_ & q2 & Hq2 & ->). rewrite Hl in Hq2. injection Hq2 as <-. by rewrite decide_False in Hq1 by (unfold b; lia). }
  pose proof (join_left U1 a _ l q (jo_geom _ _ _ _ _ _ J1) (jo_x _ _ _ _ _ _ J1) Ka eq_refl Hl1 Kl) as (J2 & EF & EU). set (U := merge l _ _ _) in *. cbn [set_size ar_size] in *.
  replace (a + (ar_size r + ar_size p)) with (b + ar_size p) in J2 by (unfold b; lia).
  pose proof (joined_trans _ _ _ _ b _ _ _ _ _ _ J1 J2 ltac:(left)) as J. destruct (ge_right _ HA b p Hb ltac:(congruence)) as (p' & Hp' & Ep & Kp & _).
  destruct (Hh b p Hb) as [_ W2]. pose proof (left_ok _ _ _ HA Ha) as (L8 & Lr & _). fold l in L8, Lr.
  wp_step. eapply wp_mono; [eapply (mid_unlink_unknown A _ s b (ar_size p)); [exact M| |done]|].
  { apply lookup_delete_Some. split; [lia|]. apply frees_spec. eauto. }
  intros _ s1 [K1 M1]. rewrite delete_delete, <- EF1, <- EF in M1. assert (hdrs A (hp_mem s1)) as Hh1 by (eapply hdrs_links; [done| |exact K1|done]; apply M).
  destruct (Hh1 l q Hl) as [W4 W5]. destruct (Hh1 _ _ Hp') as [W3 _]. destruct (Hh1 _ _ Hb) as [_ W6]. pose proof (mid_header _ _ _ _ _ M1 Hl) as [Hu1 Hu2]. pose proof (mid_header _ _ _ _ _ M1 Hp') as [Hu3 _].
  pose proof (mid_header _ _ _ _ _ M1 Hb) as [_ Hu4]. wp_step. apply right_header_wp; [done|]. rewrite W6. wp_step. eapply (FixLeftPointer_wp _ A (b + ar_size p) p'); [done..|].
  wp_step. apply hdr_left_wp; [by rewrite usable_mem|]. cbn [hp_mem on_mem]. rewrite word_put_ne, W4 by lia. wp_step. apply hdr_size_wp; [by rewrite usable_mem|]. cbn [hp_mem on_mem]. rewrite word_put_ne, W5 by lia.
  wp_step. apply hdr_size_wp; [by rewrite usable_mem|]. cbn [hp_mem on_mem]. rewrite word_put_ne, W6 by lia. rewrite u64_small by lia. rewrite <- Z.add_assoc.
  eapply wp_mono; [eapply (free_joined_wp A U l (Area (ar_size q + (ar_size r + ar_size p)) (ar_left q) KUsed (ar_lo q) (ar_hi q))); [exact J|by eapply mid_put_header; [|exact Hp'|left]|by eapply hdrs_joined_fix|done| |by apply (hdr_untag A l q)]|].
  - eapply joined_alone; [exact J| |]; intros u Hu'; [apply (free_alone A l q HA Hc Hl Kl); by left|apply (Hc b p u); done].
  - intros [] s2 HV. eapply freed_finish; [exact HV| |].
    + eapply heap_quiet_trans; [eapply links_quiet; [done| |exact K1]; apply M|]. by eapply header_quiet; [|exact Hp'|left].
    + rewrite EU, delete_insert_eq, EU1, delete_insert_eq. apply delete_id. apply lookup_delete_None. right. apply used_none. intros u Hu'. congruence.
Qed.
End one.

(** ** Freeing a block *)

Lemma freed_before A a s0 s1 s2 : quiet (payload (used A)) s0 s1 -> freed A a s1 s2 -> freed A a s0 s2.
Proof.
  intros Q0 (V & I & Hu & Hp & Q). exists V. split_and!; try done. eapply heap_quiet_trans; [|exact Q]. eapply quiet_mono; [|exact Q0]. intros y. apply payload_mono, delete_subseteq.
Qed.

Lemma free_and_coalesce_wp A a r s : inv A s -> A !! a = Some r -> ar_kind r = KUsed -> wp (free_and_coalesce a (ar_size r)) (fun _ s' => freed A a s s') s.
Proof.
  intros [M Hh Hc] Ha Ka. pose proof (mi_geom _ _ _ M) as G. destruct (Hh a r Ha) as [W1 W2]. rewrite hdr_no_tag in W1 by congruence.
  destruct (ge_left _ G a r Ha ltac:(congruence)) as (q & Hq & El & Kq). destruct (ge_right _ G a r Ha ltac:(congruence)) as (p & Hp & _).
  destruct (Hh _ q Hq) as [W3 W4]. destruct (Hh _ p Hp) as [W5 _]. pose proof (mid_header _ _ _ _ _ M Ha) as [Hu1 Hu2]. pose proof (mid_header _ _ _ _ _ M Hq) as [Hu3 _]. pose proof (mid_header _ _ _ _ _ M Hp) as [Hu4 _].
  pose proof (left_ok _ _ _ G Ha) as (L8 & Lr & _). pose proof (ge_facts _ _ _ G Hq). pose proof (ge_facts _ _ _ G Ha).
  unfold free_and_coalesce. wp_step. apply hdr_left_wp; [done|]. rewrite W1, (proj2 (Z.eqb_neq (ar_left r) 0)) by lia. wp_step. apply (tagged_wp _ A _ q); [done..|].
  case_bool_decide as Kl.
  - wp_step. eapply wp_mono; [apply (mid_unlink_unknown A (frees A) s _ (ar_size q)); [done|apply frees_spec; eauto|done]|]. intros _ s1 [K1 M1].
    assert (hdrs A (hp_mem s1)) as Hh1 by (eapply hdrs_links; [done| |exact K1|done]; done). destruct (Hh1 a r Ha) as [_ W6]. destruct (Hh1 _ p Hp) as [W7 _].
    assert (quiet (payload (used A)) s s1) as Q1 by (eapply links_quiet; [done| |exact K1]; done).
    wp_step. apply right_header_wp; [by rewrite (keeps_usable _ _ _ _ K1)|]. rewrite W6. wp_step. apply (tagged_wp _ A _ p); [done|done|by rewrite (keeps_usable _ _ _ _ K1)|done|].
    case_bool_decide as Kr; (eapply wp_mono; [|intros ? s2; apply (freed_before A a s s1 s2 Q1)]).
    + by eapply (free_both_wp A a r).
    + eapply (free_left_wp A a r); try done. intros u Hu. rewrite Hp in Hu. injection Hu as <-. done.
  - wp_step. apply right_header_wp; [done|]. rewrite W2. wp_step. apply (tagged_wp _ A _ p); [done..|]. case_bool_decide as Kr.
    + eapply (free_right_wp A a r); try done. intros u Hu. rewrite Hq in Hu. injection Hu as <-. done.
    + apply (free_memory_wp A s a r); try done; [by apply hdrs_delete| |by apply untag_id; [|lia]]. intros u [Hu|Hu]; congruence.
Qed.

Lemma cmpct_free_wp A a r s : inv A s -> hp_locked s = false -> A !! a = Some r -> ar_kind r = KUsed -> wp (cmpct_free (a + 16)) (fun _ s' => freed A a s s') s.
Proof.
  intros I Hl Ha Ka. pose proof I as [M Hh Hc]. pose proof (mi_geom _ _ _ M) as G. destruct (Hh a r Ha) as [W1 W2]. pose proof (mid_header _ _ _ _ _ M Ha) as [Hu1 Hu2]. pose proof (ge_facts _ _ _ G Ha).
  unfold cmpct_free. rewrite (proj2 (Z.eqb_neq (a + 16) 0)) by lia. change HEADER with 16. replace (a + 16 - 16) with a by lia. wp_step. apply (tagged_wp _ A a r); [done..|].
  wp_step. wp_step; [by rewrite bool_decide_eq_false_2 by congruence|]. wp_step. apply hdr_size_wp; [done|]. rewrite W2. wp_step. apply lock_wp; [done|]. wp_step.
  eapply wp_mono; [apply (free_and_coalesce_wp A a r); [by apply inv_locked|done|done]|]. intros _ s1 (V & I1 & Hu & Hp & [Q1 Q2 Q3]).
  apply unlock_wp; [done|]. exists V. split; [by apply inv_locked|]. split; [done|]. split; [done|]. by split.
Qed.

(** ** Aligned blocks *)

Lemma split_lookup A a r n y : split a r n A !! y =
  if decide (y = a + n) then Some (Area (ar_size r - n) a (ar_kind r) (ar_lo r) (ar_hi r)) else if decide (y = a) then Some (set_size n r) else
  if decide (y = a + ar_size r) then set_left (a + n) <$> A !! y else A !! y.
Proof.
  unfold split, fix_left. rewrite !lookup_insert, lookup_alter. destruct (decide (y = a + n)) as [->|]; [by rewrite decide_True|]. rewrite (decide_False (P := a + n = y)) by congruence.
  destruct (decide (y = a)) as [->|]; [by rewrite decide_True|]. rewrite (decide_False (P := a = y)) by congruence.
  destruct (decide (y = a + ar_size r)) as [->|]; [by rewrite decide_True|]. by rewrite decide_False by congruence.
Qed.

Lemma coalesced_split A a r n : geom A -> A !! a = Some r -> ar_kind r = KUsed -> coalesced A -> coalesced (split a r n A).
Proof.
  intros G Ha Ka Hc b p q Hb Kb Hq. 
  assert (forall y u, split a r n A !! y = Some u -> ar_kind u = KFree -> exists u', A !! y = Some u' /\ ar_kind u' = KFree /\ ar_size u' = ar_size u) as Ho.
  { intros y u Hy Ku. rewrite split_lookup in Hy. repeat case_decide; try (injection Hy as <-; cbn in Ku; congruence); [|by exists u]. apply fmap_Some in Hy as (u' & Hu' & ->). by exists u'. }
  intros Kq. destruct (Ho _ _ Hb Kb) as (p' & Hp' & Kp' & Ep). destruct (Ho _ _ Hq Kq) as (q' & Hq' & Kq' & _). rewrite <- Ep in Hq'. by apply (Hc b p' q').
Qed.

Lemma plain_split A a r n : ar_kind r = KUsed -> plain A -> plain (split a r n A).
Proof.
  intros Ka Hp b q Hb Kb. rewrite split_lookup in Hb. repeat case_decide; try (injection Hb as <-; cbn in Kb; congruence); [|by eapply Hp]. apply fmap_Some in Hb as (u' & Hu' & ->). exact (Hp _ u' Hu' Kb).
Qed.

(** A block is cut in two; the second part is what the caller gets. *)
Lemma split_block_wp A a r n s : inv A s -> A !! a = Some r -> ar_kind r = KUsed -> ar_hi r - ar_lo r <= BIG -> (8 | n) -> 32 <= n -> 32 <= ar_size r - n ->
  wp (do usize <- hdr_size a;
      do p <- create_allocation_header (a + n) 0 (u64 (usize - n)) a;
      do right <- right_header a;
      st (a + 8) n ;;
      FixLeftPointer right (a + n)) (fun _ s' => inv (split a r n A) s' /\ quiet (payload (delete a (used A))) s s') s.
Proof.
  intros [M Hh Hc] Ha Ka Hbig H8 Hn1 Hn2. pose proof (mi_geom _ _ _ M) as G. destruct (Hh a r Ha) as [W1 W2]. pose proof (ge_facts _ _ _ G Ha) as (F1 & F2 & F3 & F4 & F5). specialize (F5 ltac:(congruence)).
  destruct (ge_right _ G a r Ha ltac:(congruence)) as (p & Hp & Ep & Kp & _). destruct (Hh _ p Hp) as [W3 W4]. pose proof (mid_header _ _ _ _ _ M Ha) as [Hu1 Hu2]. pose proof (mid_header _ _ _ _ _ M Hp) as [Hu3 _].
  pose proof (area_8 _ _ _ G Ha) as (A8 & _). assert (geom (split a r n A)) as G2 by (by apply geom_split). set (V := split a r n A) in *.
  pose proof (ge_inside _ _ _ (a + n) G Ha ltac:(lia)) as Hin. assert (frees V = frees A) as EF by (by apply frees_split).
  assert (mid V (frees V) s) as M2 by (rewrite EF; eapply mid_shape; [done|done|apply inside_split; [done|done|lia]|apply total_split; [done|done|done|lia]|by rewrite EF]).
  assert (V !! (a + n) = Some (Area (ar_size r - n) a (ar_kind r) (ar_lo r) (ar_hi r))) as H1 by (unfold V; rewrite split_lookup, decide_True by done; done).
  assert (V !! a = Some (set_size n r)) as H2 by (unfold V; rewrite split_lookup, decide_False, decide_True by lia; done).
  assert (V !! (a + ar_size r) = Some (set_left (a + n) p)) as H3 by (unfold V; rewrite split_lookup, !decide_False, decide_True, Hp by lia; done).
  pose proof (mid_header _ _ _ _ _ M2 H1) as [Hu4 Hu5]. assert (8 | a + n) as B8 by (by apply Z.divide_add_r).
  wp_step. apply hdr_size_wp; [done|]. rewrite W2, u64_small by lia. wp_step. eapply (create_allocation_header_wp _ _ _ (a + n)); [lia|done|done|by apply untag_id; [|lia]|lia..|].
  set (s1 := put_header _ _ _ _). pose proof (put_header_words (a + n) a (ar_size r - n) s) as [W5 W6]. fold s1 in W5, W6.
  assert (forall x, x <> a + n -> x <> a + n + 8 -> word (hp_mem s1) x = word (hp_mem s) x) as Ho1 by (intros; by apply put_header_other).
  wp_step. apply right_header_wp; [done|]. rewrite Ho1, W2 by lia. wp_step. apply st_wp; [done|]. rewrite u64_small by lia.
  eapply (FixLeftPointer_wp _ A (a + ar_size r) p); [done|done|done|rewrite put_other, Ho1 by lia; done|done|lia|].
  set (s3 := on_mem _ (on_mem _ s1)). assert (keeps (fun x => a <= x < a + ar_size r \/ x = a + ar_size r) s s3) as K.
  { eapply keeps_trans; [apply (put_header_keeps _ (a + n)); left; lia|]. eapply keeps_trans; apply keeps_put; [left; lia|by right]. }
  assert (forall x, x <> a + 8 -> x <> a + ar_size r -> word (hp_mem s3) x = word (hp_mem s1) x) as Ho3 by (intros; unfold s3; by rewrite !put_other).
  assert (forall x, a <= x < a + ar_size r \/ x = a + ar_size r -> touched A a r x) as Ht by (unfold touched; intros x Hx; rewrite F5; tauto).
  split; [split|].
  - unfold s3, s1. eapply mid_put_header; [eapply mid_put_header; [eapply mid_put_header_of; [exact M2|exact H1]|exact H2|by right]|exact H3|by left].
  - intros y q Hy. unfold V in Hy. rewrite split_lookup in Hy. case_decide as N1; [|case_decide as N2; [|case_decide as N3]].
    + injection Hy as <-. subst y. rewrite hdr_no_tag by (cbn; congruence). rewrite !Ho3 by lia. done.
    + injection Hy as <-. subst y. rewrite hdr_no_tag in * by (cbn; congruence). split; [rewrite Ho3, Ho1 by lia; done|]. unfold s3. rewrite put_other by lia. apply put_same.
    + subst y. rewrite Hp in Hy. injection Hy as <-. split; [apply put_same|]. rewrite Ho3, Ho1 by lia. done.
    + destruct (Hh _ _ Hy) as [<- <-]. split; apply K; intros Hx; destruct (touched_headers _ _ _ _ _ _ G Ha ltac:(congruence) (Ht _ Hx) Hy); try lia; done.
  - by apply coalesced_split.
  - eapply heap_keeps_quiet; [|exact K]. intros x Hx. eapply touched_payload; [done|done|congruence|auto].
Qed.

Lemma payload_delete_new (B : gmap Z Z) a z x : B !! a = None -> payload B x -> payload (delete a (<[a := z]> B)) x.
Proof. intros Hn. by rewrite delete_insert_id. Qed.

(** Rounding up to the alignment leaves room for a header and for an area that can be free. *)
Lemma memalign_payload u k : let al := 2 ^ k in 3 <= k < 64 -> 0 <= u -> (8 | u) -> u + 48 + al < 2 ^ 64 ->
  let p := Z.land (u64 (u + FREE + HEADER + (al - 1))) (u64 (Z.lnot (al - 1))) in (al | p) /\ (8 | p) /\ u + 48 <= p <= u + 48 + al - 8.
Proof.
  intros al Hk Hu H8 Hw p. assert (8 <= al) by (change 8 with (2 ^ 3); apply Z.pow_le_mono_r; lia). assert (8 | al) as Hal8 by (change 8 with (2 ^ 3); apply pow2_divides; lia).
  change FREE with 32 in p. change HEADER with 16 in p. unfold p, al in *. rewrite u64_small, land_mask by lia. pose proof (div_mul_bounds (u + 32 + 16 + (2 ^ k - 1)) (2 ^ k) ltac:(lia)) as Hb.
  set (m := _ / _ * _) in *. assert (2 ^ k | m) as Hd by apply Z.divide_factor_r. assert (8 | m) as Hm by (etrans; [exact Hal8|done]). split; [done|]. split; [done|]. split; [lia|].
  apply (multiple_le 8); [lia|done| |lia]. apply Z.divide_sub_r; [|by exists 1]. apply Z.divide_add_r; [|done]. apply Z.divide_add_r; [done|by exists 6].
Qed.

Lemma cmpct_memalign_wp A s n k : let al := 2 ^ k in inv A s -> hp_locked s = false -> 3 <= k -> 0 < n -> n + al + 48 <= 2 ^ 22 - 16 ->
  (forall s', cmpct_alloc (n + al + 48) s <> Done 0 s') ->
  wp (cmpct_memalign n al) (fun p s' => (al | p) /\ quiet (payload (used A)) s s' /\ exists h V, p = h + 16 /\ inv V s' /\ gives A h (n + 16) V) s.
Proof.
  intros al I Hl Hk Hn Hfit Hsucc. assert (8 <= al) by (change 8 with (2 ^ 3); apply Z.pow_le_mono_r; lia). assert (k < 22) as Hk22 by (apply (Z.pow_lt_mono_r_iff 2); lia).
  unfold cmpct_memalign. rewrite (proj2 (Z.ltb_ge al 8)) by lia. change HEADER with 16. change FREE with 32. rewrite u64_small by lia. replace (n + al + 32 + 16) with (n + al + 48) by lia. wp_step.
  pose proof (cmpct_alloc_wp A s (n + al + 48) I Hl ltac:(lia)) as Hal. apply wp_done in Hal as (p & s1 & Er & Q1 & Hp). apply wp_done. exists p, s1. split; [done|].
  destruct Hp as [[-> _]|(a & U & -> & I1 & (r & Hr & Kr & Hsz & Hnu & Hu & Hpl) & Hbig)]; [by apply Hsucc in Er|]. specialize (Hbig r Hr).
  pose proof (mi_geom _ _ _ (in_mid _ _ I1)) as G. pose proof (ge_facts _ _ _ G Hr) as (F1 & F2 & F3 & F4 & F5). specialize (F5 ltac:(congruence)). pose proof (area_8 _ _ _ G Hr) as (A8 & _ & Z8 & A8' & _).
  wp_step. apply lock_wp; [rewrite (qu_locked _ _ _ Q1); done|]. pose proof (memalign_payload (a + 16) k ltac:(lia) ltac:(lia) A8' ltac:(unfold al in *; lia)) as (D1 & D2 & D3).
  change HEADER with 16 in *. change FREE with 32 in *. fold al in D1, D2, D3 |- *. set (p := Z.land _ _) in *. rewrite (proj2 (Z.eqb_neq (a + 16) p)) by lia. cbn [negb].
  rewrite u64_small by lia. replace (a + 16 - 16) with a by lia. set (m := p - (a + 16)). replace (p - 16) with (a + m) by (unfold m; lia).
  assert (8 | m) as M8 by (by apply Z.divide_sub_r). assert (32 <= ar_size r - m) as Hm2.
  { assert (8 | ar_size r - m) as [j Ej] by (by apply Z.divide_sub_r). lia. }
  pose proof (split_block_wp U a r m (set_locked true s1) (inv_locked _ _ _ I1) Hr Kr Hbig M8 ltac:(lia) Hm2) as Hw.
  do 4 follow Hw. wp_step. eapply wp_mono; [exact Hw|]. clear Hw. intros _ s5 [I5 Q5]. wp_step. apply unlock_wp; [by rewrite (qu_locked _ _ _ Q5)|]. wp_step.
  assert (split a r m U !! a = Some (set_size m r)) as Hsp by (rewrite split_lookup, decide_False, decide_True by lia; done).
  eapply wp_mono; [eapply (cmpct_free_wp (split a r m U) a (set_size m r)); [by apply inv_locked|done|done|done]|]. intros _ s6 (V & I6 & Hu6 & Hp6 & Q6). wp_step. split; [done|].
  rewrite used_split, Hu in Hu6, Q6 by (done || lia). rewrite Hu in Q5.
  assert (delete a (<[a := m]> (<[a + m := ar_size r - m]> (<[a := ar_size r]> (used A)))) = <[a + m := ar_size r - m]> (used A)) as Eu.
  { rewrite delete_insert_eq, delete_insert_ne, delete_insert_id by (done || lia). done. }
  assert (used A !! (a + m) = None) as Hnh.
  { destruct (used A !! (a + m)) as [z|] eqn:E; [|done]. assert (used U !! (a + m) = Some z) as (q & Hq & _)%used_spec by (rewrite Hu, lookup_insert_ne by lia; done).
    pose proof (ge_inside _ _ _ (a + m) G Hr ltac:(lia)). congruence. }
  rewrite Eu in Hu6, Q6. split.
  - eapply heap_quiet_trans; [exact Q1|]. assert (quiet (payload (used A)) s1 (set_locked false s5)) as Q15.
    { destruct Q5 as [P1 P2 P3]. split; [|cbn; by rewrite (qu_locked _ _ _ Q1)|done]. intros x Hx. apply P1. by apply payload_delete_new. }
    eapply heap_quiet_trans; [exact Q15|]. eapply quiet_mono; [|exact Q6]. intros x. apply payload_mono. by apply insert_subseteq.
  - exists (a + m), V. split; [unfold m; lia|]. split; [done|]. assert (used V !! (a + m) = Some (ar_size r - m)) as (q & Hq & Kq & Eq)%used_spec by (rewrite Hu6; apply lookup_insert_eq).
    exists q. rewrite Eq. split_and!; try done; [lia|]. intros HA. apply Hp6. apply plain_split; [done|auto].
Qed.
End freeing.
