(* ===== verification/HeapTrim.v ===== *)
(** * Trimming the heap

    [cmpct_trim] goes through the lists of large areas.  Where a free area is at the end of a segment or at its
    beginning, whole pages of it go back to the page allocator and the sentinel moves.  At the beginning what is left of the last page can be too small for a
    free area and becomes part of the sentinel; the code is right as long as no free area comes after such a sentinel. *)

From stdpp Require Import base gmap list fin_maps fin_sets numbers.
From S2P Require Import Prelude Align Heap HeapIndex HeapLists HeapGeom HeapSpec HeapFree.

Section trimming.
Context {P : Type} {PO : PageOps P} {PL : PageLaws P}.
Implicit Types (s : heap P) (A U V : areas) (r q : area) (Fr : gmap Z Z) (F : Z -> list Z) (a b x : Z).

(** A left sentinel with a free area after it is nothing but a header. *)
Definition trimmable A : Prop := forall a r q, A !! a = Some r -> ar_kind r = KLeft -> A !! (a + ar_size r) = Some q -> ar_kind q = KFree -> ar_size r = 16.

Lemma plain_trimmable A : plain A -> trimmable A.
Proof. intros Hp a r q Ha Ka _ _. eauto. Qed.

(** One area has been dealt with: the blocks are as they were, and so is the rest of the list it was in. *)
Definition trimmed A F a s s' : Prop := exists V F',
  inv V s' /\ lists (frees V) F' s' /\ used V = used A /\ trimmable V /\ (size (frees V) <= size (frees A))%nat /\
  (forall i l rest, F i = l ++ a :: rest -> exists l', F' i = l' ++ rest) /\ quiet (payload (used A)) s s'.

Lemma trimmed_id A F a s : inv A s -> lists (frees A) F s -> trimmable A -> trimmed A F a s s.
Proof. intros I L Ht. exists A, F. split_and!; try done. intros i l rest ->. exists (l ++ [a]). by rewrite <- app_assoc. Qed.

Lemma lists_put_header A Fr F s a r l z : mid A Fr s -> lists Fr F s -> A !! a = Some r -> lists Fr F (put_header a l z s).
Proof.
  intros M L Ha. eapply lists_frame; try done. intros x Hx. pose proof (ge_facts _ _ _ (mi_geom _ _ _ M) Ha).
  assert (forall y, y = a \/ y = a + 8 -> x <> y) as Hne by (intros y Hy ->; revert Hx; eapply (not_link A); try done; [apply M|apply M|lia|right; lia]).
  apply put_header_other; apply Hne; auto.
Qed.

(** Taking an area out of its list and putting another one in leaves the rest of the list. *)
Lemma rest_kept F F1 F2 (a b i0 : Z) : (forall i, NoDup (F i)) -> (forall j, F1 j = without a (F j)) -> (forall j, F2 j = if decide (j = i0) then b :: F1 j else F1 j) ->
  forall i l rest, F i = l ++ a :: rest -> exists l', F2 i = l' ++ rest.
Proof.
  intros Hnd E1 E2 i l rest E. rewrite E2, E1, E, without_middle by (by rewrite <- E). case_decide; [by exists (b :: l)|by exists l].
Qed.

Lemma rest_kept_out F F1 (a : Z) : (forall i, NoDup (F i)) -> (forall j, F1 j = without a (F j)) -> forall i l rest, F i = l ++ a :: rest -> exists l', F1 i = l' ++ rest.
Proof. intros Hnd E1 i l rest E. rewrite E1, E, without_middle by (by rewrite <- E). by exists l. Qed.

(** An area of the lists is replaced by another. *)
Lemma size_move (m : gmap Z Z) a b (z w : Z) : m !! a = Some w -> (size (<[b := z]> (delete a m)) <= size m)%nat.
Proof.
  intros Ha. assert (size m <> 0%nat) by (intros E; apply map_size_empty_inv in E; by rewrite E in Ha).
  rewrite map_size_insert, map_size_delete_Some by (by eexists). destruct (_ !! b); cbn; lia.
Qed.

(** ** The end of a segment *)

Definition shrink_end a r (n : Z) A : areas :=
  cut_right (a + n) (Area (ar_size r - n) a KUsed (ar_lo r) (ar_hi r)) (mark a KFree (split a (set_kind KUsed r) n (mark a KUsed A))).

Lemma shrink_end_lookup A a r n y : A !! a = Some r -> ar_kind r = KFree -> 0 < n < ar_size r -> shrink_end a r n A !! y =
  if decide (y = a + n) then Some (Area 0 a KRight (ar_lo r) (ar_hi r)) else if decide (y = a) then Some (set_size n r) else if decide (y = a + ar_size r) then None else A !! y.
Proof.
  intros Ha Ka Hn. unfold shrink_end, cut_right. cbn. rewrite lookup_insert, lookup_delete, mark_lookup, split_lookup, mark_lookup. cbn. replace (a + n + (ar_size r - n)) with (a + ar_size r) by lia.
  repeat case_decide; try lia; subst; try done; cbn. destruct r; cbn in *; subst. done.
Qed.

Lemma shrink_end_spec A a r b rb n : geom A -> coalesced A -> trimmable A -> A !! a = Some r -> ar_kind r = KFree -> b = a + ar_size r -> A !! b = Some rb -> ar_kind rb = KRight ->
  (8 | n) -> 32 <= n -> 32 <= ar_size r - n -> (4096 | a + n + 16) ->
  let V2 := split a (set_kind KUsed r) n (mark a KUsed A) in let V := shrink_end a r n A in
  geom V /\ inside V (mark a KFree V2) /\ total V = total (mark a KFree V2) - (ar_size r - n) /\ frees V = frees (mark a KFree V2) /\ used V = used A /\ coalesced V /\ trimmable V /\
  clear V (a + n + 16) (b + 16) /\ (size (frees V) <= size (frees A))%nat.
Proof.
  intros G Hc Ht Ha Ka -> Hb Kb H8 Hn1 Hn2 H4 V2 V. pose proof (carve_spec _ _ _ n G Ha Ka H8 Hn1 Hn2) as (G2 & I2 & T2 & F2 & X2 & _). fold V2 in G2, I2, T2, F2, X2.
  pose proof (ge_ok _ G _ _ Ha) as (_ & _ & _ & _ & _ & _ & Oa). unfold kind_ok in Oa. rewrite Ka in Oa. pose proof (ge_facts _ _ _ G Ha) as (F1 & _ & F3 & _ & F5). specialize (F5 ltac:(congruence)).
  assert (V2 !! a = Some (set_size n (set_kind KUsed r))) as Y2 by (unfold V2; rewrite split_lookup, decide_False, decide_True by lia; done).
  assert (V2 !! (a + ar_size r) = Some (set_left (a + n) rb)) as Z2 by (unfold V2; rewrite split_lookup, !decide_False, decide_True, mark_lookup, decide_False, Hb by (cbn; lia); done).
  set (V3 := mark a KFree V2). assert (geom V3) as G3 by (eapply geom_mark; eauto; cbn; lia).
  assert (V3 !! (a + n) = Some (Area (ar_size r - n) a KUsed (ar_lo r) (ar_hi r))) as X3 by (unfold V3; rewrite mark_lookup, decide_False by lia; done).
  assert (V3 !! (a + n + (ar_size r - n)) = Some (set_left (a + n) rb)) as Z3 by (unfold V3; rewrite mark_lookup, decide_False by lia; rewrite <- Z2; f_equal; lia).
  assert (frees V = <[a := n]> (delete a (frees A))) as EF by (unfold V, shrink_end; fold V2 V3; rewrite (frees_cut_right _ _ _ _ X3 ltac:(done) Z3 Kb); unfold V3; by rewrite (frees_mark_free _ _ _ Y2), F2).
  assert (forall y, V !! y = if decide (y = a + n) then Some (Area 0 a KRight (ar_lo r) (ar_hi r)) else if decide (y = a) then Some (set_size n r) else if decide (y = a + ar_size r) then None else A !! y) as Hlk
    by (intros; by apply shrink_end_lookup; try lia).
  split; [exact (geom_cut_right _ _ _ _ G3 X3 ltac:(done) Z3 Kb H4)|]. split; [exact (inside_cut_right _ _ _ X3 ltac:(done) ltac:(cbn; lia))|].
  split; [exact (total_cut_right _ _ _ _ X3 ltac:(done) Z3 Kb ltac:(cbn; lia))|]. split; [exact (frees_cut_right _ _ _ _ X3 ltac:(done) Z3 Kb)|].
  assert (forall y, y = a \/ y = a + n -> used A !! y = None) as Hnu.
  { intros y Hy. apply used_none. intros q Hq. destruct Hy as [->| ->]; [congruence|]. pose proof (ge_inside _ _ _ (a + n) G Ha ltac:(lia)). congruence. }
  split; [|split; [|split; [|split]]].
  - unfold V, shrink_end. fold V2 V3. rewrite (used_cut_right _ _ _ _ X3 Z3 Kb). unfold V3. rewrite used_mark_free. unfold V2. rewrite used_split, (used_mark_used _ _ r) by (done || (rewrite mark_lookup, decide_True, Ha by done; done) || lia).
    apply map_eq. intros y. rewrite !lookup_delete, !lookup_insert. repeat case_decide; subst; try done; symmetry; apply Hnu; auto.
  - intros y p q Hy Ky Hq. rewrite Hlk in Hy. case_decide; [by injection Hy as <-|]. case_decide as Ey; [injection Hy as <-; subst y; cbn in Hq; rewrite Hlk, decide_True in Hq by done; by injection Hq as <-|].
    case_decide; [done|]. rewrite Hlk in Hq. case_decide; [by injection Hq as <-|]. case_decide as Eq; [|case_decide; [done|by apply (Hc y p q)]].
    injection Hq as <-. cbn. apply (Hc y p r); [done|done|]. by rewrite Eq.
  - intros y p q Hy Ky Hq Kq. rewrite Hlk in Hy. case_decide; [injection Hy as <-; done|]. case_decide; [injection Hy as <-; cbn in Ky; congruence|]. case_decide; [done|].
    rewrite Hlk in Hq. case_decide; [injection Hq as <-; done|]. case_decide as Eq; [|case_decide; [done|by apply (Ht y p q)]]. apply (Ht y p r); [done|done|by rewrite Eq|done].
  - intros y q Hy. rewrite Hlk in Hy. case_decide; [injection Hy as <-; subst; change (ext _) with 16; lia|]. case_decide; [injection Hy as <-; subst; rewrite ext_size by (cbn; congruence); cbn; lia|].
    case_decide; [done|]. destruct (ge_apart _ G _ _ _ _ Hy Ha ltac:(done)), (ge_apart _ G _ _ _ _ Hy Hb ltac:(done)); pose proof (ge_facts _ _ _ G Hy); assert (ext rb = 16) by (unfold ext; by rewrite decide_True); lia.
  - rewrite EF. apply (size_move _ _ _ _ (ar_size r)), frees_spec. eauto.
Qed.

(** Whole pages of an area that is clear of others belong to the heap. *)
Lemma pages_inside A s lo n : covered A (hp_mapped s) -> (4096 | lo) -> (forall x, lo <= x < lo + 4096 * n -> in_area A x) -> pages_of lo n ⊆ hp_mapped s.
Proof.
  intros Hc H4 Hin y Hy. replace y with (y * 4096 / 4096) in * by (apply Z.div_mul; lia). apply elem_of_pages in Hy; [|done]. destruct (Hin _ Hy) as (a & r & Ha & Hx). by apply (Hc a r).
Qed.

(** The end of the routine: the pages go back. *)
Lemma release_wp A V F s lo n (Q : unit -> heap P -> Prop) : mid A (frees A) s -> lists (frees A) F s -> geom V -> inside V A -> clear V lo (lo + 4096 * n) -> total V = total A - 4096 * n -> frees V = frees A ->
  (4096 | lo) -> 0 < n -> (forall x, lo <= x < lo + 4096 * n -> in_area A x) ->
  (forall s', mid V (frees V) s' -> lists (frees V) F s' -> hp_mem s' = hp_mem s -> hp_locked s' = hp_locked s -> delayed_free_list s' = delayed_free_list s -> Q tt s') ->
  wp (page_free lo (Z.shiftr (4096 * n) PAGE_SIZE_SHIFT) ;; modify (on_size (fun z => u64 (z - 4096 * n)))) Q s.
Proof.
  intros M L G Hi Hc Ht EF H4 Hn Hin HQ. pose proof (pages_inside _ _ _ _ (mi_cov _ _ _ M) H4 Hin) as Hsub. pose proof (mid_bound _ _ _ M) as (_ & Hb & _).
  assert (0 <= total V) as Hpos by (apply msum_nonneg; intros y q Hy; pose proof (ge_facts _ _ _ G Hy); lia).
  change PAGE_SIZE_SHIFT with 12. rewrite Z.shiftr_div_pow2 by lia. change (2 ^ 12) with 4096. rewrite (Z.mul_comm 4096 n), Z.div_mul, (Z.mul_comm n) by lia. wp_step. apply page_free_wp; [apply M|lia|done|done|].
  intros p Hp. wp_step. destruct (mid_release A V F s p lo n M L G Hi Hc Ht EF H4 ltac:(lia) Hsub Hp) as [M' L']. by apply HQ.
Qed.

Lemma roundup_page x : 0 <= x -> x + 4095 < 2 ^ 64 -> (4096 | ROUNDUP x PAGE_SIZE) /\ x <= ROUNDUP x PAGE_SIZE < x + 4096.
Proof. intros H1 H2. apply (ROUNDUP_spec x 12); lia. Qed.

Lemma rounddown_page x : 0 <= x < 2 ^ 64 -> (4096 | ROUNDDOWN x PAGE_SIZE) /\ x - 4096 < ROUNDDOWN x PAGE_SIZE <= x.
Proof.
  intros Hx. change PAGE_SIZE with (2 ^ 12). rewrite ROUNDDOWN_spec by lia. split; [apply Z.divide_factor_r|]. pose proof (div_mul_bounds x (2 ^ 12) ltac:(lia)). lia.
Qed.

Lemma trim_end_wp A F s a r b rb : inv A s -> lists (frees A) F s -> trimmable A -> A !! a = Some r -> ar_kind r = KFree -> 4112 <= ar_size r -> b = a + ar_size r -> A !! b = Some rb -> ar_kind rb = KRight ->
  wp (trim_end a (bucket_of (ar_size r - 16)) b) (fun _ s' => trimmed A F a s s') s.
Proof.
  intros I L Htr Ha Ka Hsz Eb Hb Kb. pose proof I as [M Hh Hc]. pose proof (mi_geom _ _ _ M) as G. destruct (Hh a r Ha) as [W1 W2]. pose proof (area_8 _ _ _ G Ha) as (A8 & _ & Z8 & _).
  pose proof (ge_facts _ _ _ G Ha) as (F1 & F2 & F3 & F4 & F5). specialize (F5 ltac:(congruence)). pose proof (left_ok _ _ _ G Ha) as (L8 & Lr & _).
  pose proof (ge_ok _ G _ _ Hb) as (_ & _ & _ & _ & _ & _ & Ob). unfold kind_ok in Ob. rewrite Kb in Ob. destruct Ob as [_ [kb Ekb]]. pose proof (ge_facts _ _ _ G Hb) as (_ & B2' & B3' & _).
  unfold trim_end. change HEADER with 16. change FREE with 32. pose proof (roundup_page b ltac:(lia) ltac:(lia)) as [[k1 E1] B1]. pose proof (roundup_page (a + 16 + 32) ltac:(lia) ltac:(lia)) as [[k2 E2] B2].
  set (oend := ROUNDUP b PAGE_SIZE) in *. set (nend := ROUNDUP (a + 16 + 32) PAGE_SIZE) in *. assert (oend = b + 16) as -> by lia. set (d := k1 - k2). assert (b + 16 - nend = 4096 * d) as Ed by (unfold d; lia). 
  rewrite Ed, u64_small by lia. wp_step. wp_step; [apply IS_PAGE_ALIGNED_spec; by apply Z.divide_factor_l|]. destruct (Z.eqb_spec (4096 * d) 0) as [|Hd]; [wp_step; by apply trimmed_id|].
  set (n := ar_size r - 4096 * d). assert (a + n + 16 = nend) as En by (unfold n; lia). assert (8 | n) as N8. { unfold n. apply Z.divide_sub_r; [done|]. exists (512 * d). lia. }
  wp_step. eapply wp_mono; [apply (mid_unlink_lists A (frees A) F s a (ar_size r) M L); [apply frees_spec; eauto|done]|]. intros _ s1 (K1 & M1 & F1' & L1 & EF1).
  assert (hdrs A (hp_mem s1)) as Hh1 by (eapply hdrs_links; [done| |exact K1|done]; done). destruct (Hh1 a r Ha) as [W3 W4].
  pose proof (carve_spec _ _ _ n G Ha Ka N8 ltac:(lia) ltac:(unfold n; lia)) as (G2 & I2 & T2 & Fr2 & X2 & _).
  pose proof (shrink_end_spec A a r b rb n G Hc Htr Ha Ka Eb Hb Kb N8 ltac:(lia) ltac:(unfold n; lia) ltac:(rewrite En; by exists k2)) as (GV & IV & TV & FV & UV & CV & TrV & ClV & SV).
  set (V2 := split _ _ _ _) in *. set (V := shrink_end _ _ _ _) in *. pose proof (ge_ok _ G _ _ Ha) as (_ & _ & _ & _ & _ & _ & Oa). unfold kind_ok in Oa. rewrite Ka in Oa.
  assert (V2 !! a = Some (set_size n (set_kind KUsed r))) as Y2 by (unfold V2; rewrite split_lookup, decide_False, decide_True by lia; done).
  assert (mid V2 (frees V2) s1) as M2 by (rewrite Fr2; eapply mid_shape; try done; by rewrite Fr2). rewrite <- Fr2 in L1.
  pose proof (mid_header _ _ _ _ _ M2 Y2) as [Hu1 Hu2]. pose proof (mid_header _ _ _ _ _ M2 X2) as [Hu3 Hu4].
  wp_step. apply hdr_size_wp; [done|]. rewrite W4, u64_small by lia. fold n. wp_step. wp_step; [apply Z.leb_le; lia|]. wp_step.
  eapply (create_allocation_header_wp _ _ _ (a + n)); [lia|done|done|by apply untag_id; [|lia]|lia..|]. set (s2 := put_header _ _ _ _).
  pose proof (put_header_words (a + n) a 0 s1) as [W5 W6]. fold s2 in W5, W6. wp_step. apply hdr_left_wp; [done|].
  assert (word (hp_mem s2) a = hdr r) as -> by (unfold s2; rewrite put_header_other by lia; done). rewrite (hdr_untag A a r) by done. wp_step.
  eapply wp_mono; [apply (mid_create_lists V2 F1' s2 a (set_size n (set_kind KUsed r))); [by eapply mid_put_header_of|by eapply lists_put_header|done|done|cbn; lia|done|lia]|]. cbn [set_size set_kind ar_size].
  intros f s3 (K3 & W7 & W8 & M3 & F3' & L3 & EF3).
  apply (release_wp (mark a KFree V2) V F3' s3 nend d); [done|done|done|done| | |done|by exists k2|lia| |].
  - rewrite <- En. by replace (a + n + 16 + 4096 * d) with (b + 16) by lia.
  - rewrite TV. unfold n. lia.
  - intros x Hx. destruct (Z.lt_ge_cases x b).
    + exists (a + n), (Area (ar_size r - n) a KUsed (ar_lo r) (ar_hi r)). split; [rewrite mark_lookup, decide_False by lia; done|]. change (ext _) with (ar_size r - n). lia.
    + exists b, (set_left (a + n) rb). split; [|rewrite ext_set_left; assert (ext rb = 16) by (unfold ext; by rewrite decide_True); lia].
      rewrite mark_lookup, decide_False by lia. unfold V2. rewrite split_lookup, !decide_False, decide_True, mark_lookup, decide_False, Hb by (cbn; lia). done.
  - intros s4 M4 L4 Em El Ed4. exists V, F3'.
    assert (keeps (touched A a r) s s3) as K.
    { eapply keeps_trans; [eapply keeps_mono; [|exact K1]; by left|]. eapply keeps_trans; [apply (put_header_keeps _ (a + n) a 0); right; left; lia|]. eapply keeps_mono; [|exact K3].
      intros x [?|(y & [z Hy] & Hx)]; [right; left; lia|left]. rewrite Fr2 in Hy. apply lookup_delete_Some in Hy as [_ Hy]. exists y. eauto. }
    assert (forall x, x = a + n \/ x = a + n + 8 -> word (hp_mem s3) x = word (hp_mem s2) x) as Ho.
    { intros x Hx. apply K3. intros [?|Hl]; [lia|]. revert Hl. eapply (not_link V2 _ (a + n)); [done|done|exact X2|change (ext _) with (ar_size r - n); lia|right; lia]. }
    split; [split; [done| |done]|].
    + rewrite Em. intros y q Hy. unfold V in Hy. rewrite shrink_end_lookup in Hy by (done || lia). case_decide; [injection Hy as <-; subst y; rewrite !Ho, W5, W6 by lia; rewrite hdr_no_tag by done; done|].
      case_decide; [injection Hy as <-; subst y; rewrite W7, W8; unfold hdr; cbn; rewrite decide_True by done; done|]. case_decide; [done|].
      destruct (Hh _ _ Hy) as [<- <-]. split; apply K; intros Hx; destruct (touched_headers _ _ _ _ _ _ G Ha ltac:(congruence) Hx Hy); try lia; done.
    + split_and!; try done; [by eapply rest_kept; [apply L|..]|]. split; [|by rewrite El, (kp_locked _ _ _ K)|by rewrite Ed4, (kp_delayed _ _ _ K)]. intros x Hx. rewrite Em. apply K. intros Htc.
      apply (touched_payload A a r x G Ha ltac:(congruence) Htc). by rewrite delete_id by (apply used_none; intros u Hu'; congruence).
Qed.

(** ** The beginning of a segment *)

Lemma cut_left_lookup A a r x y : a < x < a + ar_size r -> ar_left r < a -> cut_left a r x A !! y =
  if decide (y = x) then Some (Area (a + ar_size r - x) 0 KLeft (ar_lo r) (ar_hi r)) else if decide (y = a \/ y = ar_left r) then None else
  if decide (y = a + ar_size r) then set_left x <$> A !! y else A !! y.
Proof.
  intros Hx Hl. unfold cut_left, fix_left. rewrite lookup_insert, !lookup_delete, lookup_alter. repeat case_decide; try lia; subst; try done.
Qed.

Section start.
Context A a r (l : Z) (rl rb : area) x (G : geom A) (Hc : coalesced A) (Ht : trimmable A).
Context (Ha : A !! a = Some r) (Ka : ar_kind r = KFree) (El : ar_left r = l) (Hl : A !! l = Some rl) (Kl : ar_kind rl = KLeft) (Hb : A !! (a + ar_size r) = Some rb) (Hx4 : (4096 | x)) (Hx : a < x <= a + ar_size r - 16).

Lemma start_facts : 0 < l /\ l + 16 = a /\ ar_size rl = 16 /\ ext r = ar_size r /\ ar_kind rb <> KFree /\ ar_kind rb <> KLeft /\ ar_left rb = a /\ A !! x = None /\ ar_hi r - ar_lo r <= BIG /\ (4096 | l).
Proof.
  destruct (ge_left _ G a r Ha ltac:(congruence)) as (q & Hq & E & _). rewrite El, Hl in Hq. injection Hq as <-. rewrite El in E. pose proof (ge_facts _ _ _ G Hl) as (L1 & _).
  assert (ar_size rl = 16) as E16 by (apply (Ht l rl r); [done|done|by rewrite E|done]). destruct (ge_right _ G a r Ha ltac:(congruence)) as (q & Hq & E1 & E2 & _). rewrite Hb in Hq. injection Hq as <-.
  pose proof (ge_facts _ _ _ G Ha) as (_ & _ & _ & _ & F5). specialize (F5 ltac:(congruence)). pose proof (ge_ok _ G _ _ Ha) as (_ & _ & _ & _ & _ & _ & Oa). unfold kind_ok in Oa. rewrite Ka in Oa.
  pose proof (ge_ok _ G _ _ Hl) as (_ & _ & _ & _ & _ & _ & Ol). unfold kind_ok in Ol. rewrite Kl in Ol.
  split_and!; try done; try lia; [by apply (Hc a r rb)|apply (ge_inside _ _ _ x G Ha); lia|tauto].
Qed.

(** The free areas of [V] are those of [A] other than [a], and perhaps what is left of [a]. *)
Definition start_frees V : Prop := forall y q, V !! y = Some q -> ar_kind q = KFree ->
  (y <> a /\ exists q', A !! y = Some q' /\ ar_kind q' = KFree /\ ar_size q' = ar_size q) \/ (y = x + 16 /\ y + ar_size q = a + ar_size r /\ x + 16 < a + ar_size r).

Lemma start_coalesced V : start_frees V -> coalesced V.
Proof.
  intros Hf y p q Hy Ky Hq Kq. destruct start_facts as (_ & _ & _ & F5 & Kb & _ & _ & Hnx & _).
  destruct (Hf _ _ Hq Kq) as [(Hqa & q' & Hq' & Kq' & _)|(Eq & _ & Hlt)]; destruct (Hf _ _ Hy Ky) as [(Hya & p' & Hp' & Kp' & Ep)|(Ey & Ep & Hlt')].
  - apply (Hc y p' q'); [done|done|by rewrite Ep|done].
  - rewrite Ep, Hb in Hq'. injection Hq' as <-. done.
  - destruct (ge_right _ G y p' Hp' ltac:(congruence)) as (u & Hu & _). rewrite Ep, Eq in Hu. pose proof (ge_inside _ _ _ (x + 16) G Ha ltac:(lia)). congruence.
  - lia.
Qed.

Lemma start_trimmable V : start_frees V ->
  (forall y q, V !! y = Some q -> ar_kind q = KLeft -> (exists q', A !! y = Some q' /\ ar_kind q' = KLeft /\ ar_size q' = ar_size q) \/ (ar_size q = 16 \/ y + ar_size q = a + ar_size r)) -> trimmable V.
Proof.
  intros Hf Hk y p q Hy Ky Hq Kq. destruct start_facts as (_ & _ & _ & F5 & Kb & _ & _ & Hnx & _). destruct (Hk _ _ Hy Ky) as [(p' & Hp' & Kp' & Ep)|[?|E]]; [|done|].
  - destruct (Hf _ _ Hq Kq) as [(Hqa & q' & Hq' & Kq' & _)|(Eq & _ & Hlt)]; [rewrite <- Ep; apply (Ht y p' q'); [done|done|by rewrite Ep|done]|].
    destruct (ge_right _ G y p' Hp' ltac:(congruence)) as (u & Hu & _). rewrite Ep, Eq in Hu. pose proof (ge_inside _ _ _ (x + 16) G Ha ltac:(lia)). congruence.
  - rewrite E in Hq. destruct (Hf _ _ Hq Kq) as [(Hqa & q' & Hq' & Kq' & _)|(Eq & _ & Hlt)]; [rewrite Hb in Hq'; injection Hq' as <-; done|lia].
Qed.

(** What is left of the last page becomes part of the sentinel. *)
Lemma cut_small_spec : a + ar_size r - x <= 40 -> let A1 := mark a KUsed A in let V := cut_left a (set_kind KUsed r) x A1 in
  geom V /\ inside V A1 /\ total V = total A1 - (x - l) /\ frees V = frees A1 /\ used V = used A /\ coalesced V /\ trimmable V /\ clear V l x /\ (size (frees V) <= size (frees A))%nat.
Proof.
  intros Hs A1 V. destruct start_facts as (L1 & L2 & L3 & F5 & Kb & Kb' & Eb & Hnx & Hbig & _).
  assert (geom A1) as G1 by (eapply geom_mark; eauto). assert (A1 !! a = Some (set_kind KUsed r)) as Ha1 by (unfold A1; rewrite mark_lookup, decide_True, Ha by done; done).
  assert (A1 !! l = Some rl) as Hl1 by (unfold A1; rewrite mark_lookup, decide_False by lia; done). assert (A1 !! x = None) as Hx1 by (unfold A1; rewrite mark_lookup, decide_False by lia; done).
  rewrite <- El in Hl1. pose proof (fun y => cut_left_lookup A1 a (set_kind KUsed r) x y ltac:(cbn; lia) ltac:(cbn; lia)) as Hlk. fold V in Hlk. cbn in Hlk. rewrite El in Hlk.
  assert (forall y q, V !! y = Some q -> y <> x -> y <> a /\ y <> l /\ exists q', A !! y = Some q' /\ ar_kind q' = ar_kind q /\ ar_size q' = ar_size q) as Ho.
  { intros y q Hy Hne. rewrite Hlk, decide_False in Hy by done. case_decide as N; [done|]. apply Decidable.not_or in N as [N1 N2]. split; [done|]. split; [done|]. unfold A1 in Hy. rewrite mark_lookup, (decide_False (P := y = a)) in Hy by done.
    case_decide; [apply fmap_Some in Hy as (q' & Hq' & ->); by exists q'|by exists q]. }
  assert (V !! x = Some (Area (a + ar_size r - x) 0 KLeft (ar_lo r) (ar_hi r))) as HVx by (rewrite Hlk, decide_True by done; done).
  assert (frees V = frees A1) as EF by (by apply (frees_cut_left A1 a (set_kind KUsed r) rl x)).
  assert (start_frees V) as Hsf. { intros y q Hy Ky. left. assert (y <> x) by (intros ->; rewrite HVx in Hy; by injection Hy as <-). destruct (Ho y q Hy ltac:(done)) as (? & _ & q' & Hq' & E1 & E2). split; [done|]. exists q'. split_and!; congruence || done. }
  split_and!.
  - apply (geom_cut_left A1 a _ rl x); cbn; try done; lia.
  - apply inside_cut_left; cbn; done || lia.
  - unfold V. rewrite (total_cut_left A1 a (set_kind KUsed r) rl x); cbn; try done; lia.
  - done.
  - unfold V. rewrite (used_cut_left A1 a _ rl x) by done. unfold A1. rewrite (used_mark_used _ _ r) by done. apply delete_insert_id. apply used_none. intros; congruence.
  - by apply start_coalesced.
  - apply start_trimmable; [done|]. intros y q Hy Ky. destruct (decide (y = x)) as [->|Hne]; [right; right; rewrite HVx in Hy; injection Hy as <-; cbn; lia|].
    left. destruct (Ho y q Hy Hne) as (_ & _ & q' & Hq' & E1 & E2). exists q'. split_and!; congruence || done.
  - intros y q Hy. destruct (decide (y = x)) as [->|Hne]; [right; lia|]. destruct (Ho y q Hy Hne) as (N1 & N2 & q' & Hq' & E1 & E2). assert (ext q = ext q') as Ee by (unfold ext; by rewrite E1, E2).
    destruct (ge_apart _ G _ _ _ _ Hq' Ha N1), (ge_apart _ G _ _ _ _ Hq' Hl N2); pose proof (ge_facts _ _ _ G Hl) as (_ & _ & _ & _ & E3); specialize (E3 ltac:(congruence)); pose proof (ge_facts _ _ _ G Hq'); lia.
  - rewrite EF. unfold A1. rewrite frees_mark_used. rewrite map_size_delete. destruct (frees A !! a); cbn; lia.
Qed.

(** What is left is a free area after a new sentinel. *)
Lemma cut_big_spec : 32 <= a + ar_size r - (x + 16) -> let m := x - l in let A3 := carve a r m A in let V := cut_left a (Area m l KUsed (ar_lo r) (ar_hi r)) x A3 in
  geom A3 /\ A3 !! a = Some (Area m l KUsed (ar_lo r) (ar_hi r)) /\
  geom V /\ inside V A3 /\ total V = total A3 - (x - l) /\ frees V = frees A3 /\ used V = used A /\ coalesced V /\ trimmable V /\ clear V l x /\ (size (frees V) <= size (frees A))%nat /\
  forall y, V !! y = if decide (y = x) then Some (Area 16 0 KLeft (ar_lo r) (ar_hi r)) else if decide (y = a \/ y = l) then None else
    if decide (y = x + 16) then Some (Area (ar_size r - m) x KFree (ar_lo r) (ar_hi r)) else if decide (y = a + ar_size r) then Some (set_left (x + 16) rb) else A !! y.
Proof.
  intros Hs m A3 V. destruct start_facts as (L1 & L2 & L3 & F5 & Kb & Kb' & Eb & Hnx & Hbig & Hl4).
  assert (8 | x) as X8 by (etrans; [|exact Hx4]; by exists 512). assert (8 | l) as Hl8 by (etrans; [|exact Hl4]; by exists 512). assert (8 | m) as M8 by (by apply Z.divide_sub_r).
  assert (4096 <= m) as Hm by (destruct Hx4 as [u ->], Hl4 as [w ->]; unfold m in *; lia).
  pose proof (carve_spec A a r m G Ha Ka M8 ltac:(lia) ltac:(unfold m; lia)) as (G2 & I2 & T2 & Fr2 & X2 & Eu). 
  assert (geom A3) as G3 by (eapply geom_mark; [exact G2|exact X2|by left|by right|done]).
  assert (forall y, A3 !! y = if decide (y = a + m) then Some (Area (ar_size r - m) a KFree (ar_lo r) (ar_hi r)) else if decide (y = a) then Some (Area m l KUsed (ar_lo r) (ar_hi r)) else
    if decide (y = a + ar_size r) then set_left (a + m) <$> A !! y else A !! y) as Hl3 by (intros y; unfold A3; rewrite carve_lookup by (unfold m; lia); by rewrite El).
  assert (A3 !! a = Some (Area m l KUsed (ar_lo r) (ar_hi r))) as Ha3 by (rewrite Hl3, decide_False, decide_True by lia; done).
  assert (A3 !! l = Some rl) as Hll3 by (rewrite Hl3, !decide_False by (unfold m; lia); done). assert (A3 !! x = None) as Hx3 by (rewrite Hl3, !decide_False by (unfold m; lia); done).
  assert (a + m = x + 16) as Em by (unfold m; lia).
  assert (forall y, V !! y = if decide (y = x) then Some (Area 16 0 KLeft (ar_lo r) (ar_hi r)) else if decide (y = a \/ y = l) then None else
    if decide (y = x + 16) then Some (Area (ar_size r - m) x KFree (ar_lo r) (ar_hi r)) else if decide (y = a + ar_size r) then Some (set_left (x + 16) rb) else A !! y) as Hlk.
  { intros y. unfold V. rewrite cut_left_lookup by (cbn; lia). cbn. rewrite Em. replace (x + 16 - x) with 16 by lia. case_decide; [done|]. case_decide as N; [done|].
    rewrite Hl3, Em. case_decide; [done|]. rewrite decide_False by tauto. case_decide; [subst y; by rewrite Hb|done]. }
  assert (frees V = frees A3) as EF by (by apply (frees_cut_left A3 a (Area m l KUsed (ar_lo r) (ar_hi r)) rl x)).
  assert (start_frees V) as Hsf.
  { intros y q Hy Ky. rewrite Hlk in Hy. case_decide; [by injection Hy as <-|]. case_decide as N; [done|]. case_decide; [right; injection Hy as <-; subst y; cbn; split_and!; lia|].
    left. split; [tauto|]. case_decide; [injection Hy as <-; done|by exists q]. }
  split; [done|]. split; [done|]. split_and!.
  - apply (geom_cut_left A3 a _ rl x); cbn; try done; lia.
  - apply inside_cut_left; cbn; done || lia.
  - unfold V. rewrite (total_cut_left A3 a (Area m l KUsed (ar_lo r) (ar_hi r)) rl x); cbn; try done; lia.
  - done.
  - unfold V. rewrite (used_cut_left A3 a _ rl x) by done. unfold A3. rewrite Eu. apply delete_insert_id. apply used_none. intros; congruence.
  - by apply start_coalesced.
  - apply start_trimmable; [done|]. intros y q Hy Ky. rewrite Hlk in Hy. case_decide; [right; left; by injection Hy as <-|]. case_decide; [done|]. case_decide; [by injection Hy as <-|].
    case_decide; [injection Hy as <-; done|]. left. by exists q.
  - assert (ext rl = 16) as El16 by (rewrite ext_size by congruence; done). intros y q Hy. rewrite Hlk in Hy. case_decide; [right; lia|]. case_decide as N; [done|]. apply Decidable.not_or in N as [N1 N2]. case_decide; [right; lia|]. case_decide; [right; lia|].
    destruct (ge_apart _ G _ _ _ _ Hy Ha N1), (ge_apart _ G _ _ _ _ Hy Hl N2); pose proof (ge_facts _ _ _ G Hy); lia.
  - rewrite EF. unfold A3, carve. rewrite (frees_mark_free _ _ _ X2). cbn. rewrite Fr2. apply (size_move _ _ _ _ (ar_size r)), frees_spec. eauto.
  - done.
Qed.
End start.

Lemma put_header_inside A Fr F s a r x l z : mid A Fr s -> lists Fr F s -> A !! a = Some r -> Fr !! a = None -> a <= x -> x + 16 <= a + ext r ->
  mid A Fr (put_header x l z s) /\ lists Fr F (put_header x l z s).
Proof.
  intros M L Ha Hn H1 H2. assert (forall y, a <= y < a + ext r -> ~ link Fr y) as Hnl by (intros y Hy; eapply (not_link A); try done; [apply M|apply M|by left]).
  split; [unfold put_header; apply mid_put; [apply mid_put; [done|]|]; apply Hnl; lia|]. eapply lists_frame; try done. intros y Hy. apply put_header_other; intros ->; eapply Hnl; try done; lia.
Qed.

Lemma lists_fix A Fr F s a r v : mid A Fr s -> lists Fr F s -> A !! a = Some r -> lists Fr F (on_mem (<[a := v]>) s).
Proof.
  intros M L Ha. eapply lists_frame; try done. intros x Hx. apply put_other. intros ->. revert Hx. pose proof (ge_facts _ _ _ (mi_geom _ _ _ M) Ha). eapply (not_link A); try done; [apply M|apply M|lia|right; lia].
Qed.

(** The whole area becomes part of the sentinel's page. *)
Lemma trim_start_small_wp A F s a r l rl rb x d : inv A s -> lists (frees A) F s -> trimmable A -> A !! a = Some r -> ar_kind r = KFree ->
  ar_left r = l -> A !! l = Some rl -> ar_kind rl = KLeft -> A !! (a + ar_size r) = Some rb -> (4096 | x) -> a < x <= a + ar_size r - 16 -> a + ar_size r - x <= 40 -> x - l = 4096 * d ->
  wp (unlink_free a (bucket_of (ar_size r - 16)) ;; do p <- create_allocation_header x 0 (a + ar_size r - x) 0; FixLeftPointer (a + ar_size r) x ;;
      page_free l (Z.shiftr (4096 * d) PAGE_SIZE_SHIFT) ;; modify (on_size (fun w => u64 (w - 4096 * d)))) (fun _ s' => trimmed A F a s s') s.
Proof.
  intros I L Htr Ha Ka El Hl Kl Hb Hx4 Hx Hs Ed. pose proof I as [M Hh Hc]. pose proof (mi_geom _ _ _ M) as G. destruct (Hh a r Ha) as [W1 W2].
  pose proof (start_facts A a r l rl rb x G Hc Htr Ha Ka El Hl Kl Hb Hx) as (L1 & L2 & L3 & F5 & Kb & Kb' & Eb & Hnx & Hbig & Hl4).
  pose proof (cut_small_spec A a r l rl rb x G Hc Htr Ha Ka El Hl Kl Hb Hx4 Hx Hs) as (GV & IV & TV & FV & UV & CV & TrV & ClV & SV). set (A1 := mark a KUsed A) in *. set (V := cut_left _ _ _ _) in *.
  pose proof (ge_facts _ _ _ G Ha) as (F1 & F2 & F3 & F4 & _). pose proof (ge_facts _ _ _ G Hb) as (_ & B2 & B3 & _). assert (8 | x) as X8 by (etrans; [|exact Hx4]; by exists 512).
  assert (A1 !! a = Some (set_kind KUsed r)) as Ha1 by (unfold A1; rewrite mark_lookup, decide_True, Ha by done; done). assert (A1 !! (a + ar_size r) = Some rb) as Hb1 by (unfold A1; rewrite mark_lookup, decide_False by lia; done).
  assert (ext (set_kind KUsed r) = ar_size r) as E1 by exact (ext_size (set_kind KUsed r) ltac:(done)).
  wp_step. eapply wp_mono; [apply (mid_unlink_lists A (frees A) F s a (ar_size r) M L); [apply frees_spec; eauto|done]|]. intros _ s1 (K1 & M1 & F1' & L1' & EF1).
  assert (mid A1 (frees A1) s1) as M2. { unfold A1. rewrite frees_mark_used. eapply mid_shape; [done|eapply geom_mark; eauto|apply (inside_mark _ _ r); congruence || done|apply (total_mark _ _ r); congruence || done|]. by rewrite frees_mark_used. }
  rewrite <- (frees_mark_used A a) in L1'. fold A1 in L1'. assert (frees A1 !! a = None) as Hn1 by (apply (frees_none _ _ (set_kind KUsed r)); done).
  assert (hdrs A (hp_mem s1)) as Hh1 by (eapply hdrs_links; [done| |exact K1|done]; done).
  assert (forall y, a <= y < a + ar_size r -> (8 | y) -> usable s1 y = true) as Hu by (intros y Hy H8; eapply (mid_usable A1); [exact M2|exact Ha1|done|lia]).
  wp_step. eapply (create_allocation_header_wp _ _ _ x _ _ 0); [lia|apply Hu; [lia|done]|apply Hu; [lia|apply Z.divide_add_r; [done|by exists 1]]|done|lia..|]. set (s2 := put_header _ _ _ _).
  destruct (put_header_inside A1 (frees A1) F1' s1 a _ x 0 (a + ar_size r - x) M2 L1' Ha1 Hn1 ltac:(lia) ltac:(lia)) as [M3 L3']. fold s2 in M3, L3'.
  destruct (Hh1 _ _ Hb) as [W3 W4]. wp_step. eapply (FixLeftPointer_wp _ A (a + ar_size r) rb); [done|done|by apply (mid_header _ _ _ _ _ M3 Hb1)|unfold s2; rewrite put_header_other by lia; done|done|lia|].
  set (s3 := on_mem _ s2). assert (keeps (touched A a r) s s3) as K.
  { eapply keeps_trans; [eapply keeps_mono; [|exact K1]; by left|]. eapply keeps_trans; [apply (put_header_keeps _ x); right; left; lia|apply keeps_put; by right; right]. }
  apply (release_wp A1 V F1' s3 l d); [by eapply mid_put_header; [|exact Hb1|left]|by eapply lists_fix|done|done|by rewrite <- Ed; replace (l + (x - l)) with x by lia|lia|done|done|lia| |].
  - intros y Hy. destruct (Z.lt_ge_cases y a); [exists l, rl; split; [unfold A1; rewrite mark_lookup, decide_False by lia; done|rewrite ext_size by congruence; lia]|]. exists a, (set_kind KUsed r). split; [done|lia].
  - intros s4 M4 L4 Em El4 Ed4. exists V, F1'. split; [split; [done| |done]|].
    + rewrite Em. intros y q Hy. unfold V in Hy. rewrite cut_left_lookup in Hy by (cbn; lia). cbn in Hy. rewrite El in Hy. case_decide; [injection Hy as <-; subst y|].
      { unfold s3. rewrite !put_other by lia. unfold s2. destruct (put_header_words x 0 (a + ar_size r - x) s1) as [-> ->]. rewrite hdr_no_tag by done. done. }
      case_decide as N; [done|]. apply Decidable.not_or in N as [N1 N2]. unfold A1 in Hy. rewrite mark_lookup, (decide_False (P := y = a)) in Hy by done. case_decide as N3.
      * subst y. rewrite Hb in Hy. injection Hy as <-. unfold s3. rewrite put_same, put_other by lia. split; [done|]. unfold s2. rewrite put_header_other by lia. done.
      * destruct (Hh _ _ Hy) as [<- <-]. split; apply K; intros Hx'; destruct (touched_headers _ _ _ _ _ _ G Ha ltac:(congruence) Hx' Hy); try lia; done.
    + split_and!; try done; [by eapply rest_kept_out; [apply L|]|]. split; [|by rewrite El4, (kp_locked _ _ _ K)|by rewrite Ed4, (kp_delayed _ _ _ K)]. intros y Hy. rewrite Em. apply K. intros Htc.
      apply (touched_payload A a r y G Ha ltac:(congruence) Htc). by rewrite delete_id by (apply used_none; intros u Hu'; congruence).
Qed.

(** A free area is left after the new sentinel. *)
Lemma trim_start_big_wp A F s a r l rl rb x d : inv A s -> lists (frees A) F s -> trimmable A -> A !! a = Some r -> ar_kind r = KFree ->
  ar_left r = l -> A !! l = Some rl -> ar_kind rl = KLeft -> A !! (a + ar_size r) = Some rb -> (4096 | x) -> a < x <= a + ar_size r - 16 -> 32 <= a + ar_size r - (x + 16) -> x - l = 4096 * d ->
  wp (unlink_free a (bucket_of (ar_size r - 16)) ;; do p <- create_allocation_header x 0 16 0;
      do f <- create_free_area (x + 16) x (ar_size r - 4096 * d) None; FixLeftPointer (a + ar_size r) (x + 16) ;;
      page_free l (Z.shiftr (4096 * d) PAGE_SIZE_SHIFT) ;; modify (on_size (fun w => u64 (w - 4096 * d)))) (fun _ s' => trimmed A F a s s') s.
Proof.
  intros I L Htr Ha Ka El Hl Kl Hb Hx4 Hx Hs Ed. pose proof I as [M Hh Hc]. pose proof (mi_geom _ _ _ M) as G. destruct (Hh a r Ha) as [W1 W2].
  pose proof (start_facts A a r l rl rb x G Hc Htr Ha Ka El Hl Kl Hb Hx) as (L1 & L2 & L3 & F5 & Kb & Kb' & Eb & Hnx & Hbig & Hl4).
  pose proof (cut_big_spec A a r l rl rb x G Hc Htr Ha Ka El Hl Kl Hb Hx4 Hx Hs) as (G3 & Ha3 & GV & IV & TV & FV & UV & CV & TrV & ClV & SV & Hlk). set (m := x - l) in *. set (A3 := carve a r m A) in *. set (V := cut_left _ _ _ _) in *.
  pose proof (ge_facts _ _ _ G Ha) as (F1 & F2 & F3 & F4 & _). pose proof (ge_facts _ _ _ G Hb) as (_ & B2 & B3 & _). assert (8 | x) as X8 by (etrans; [|exact Hx4]; by exists 512).
  assert (4096 <= m) as Hm by (unfold m in *; lia). assert (8 | m) as M8 by (rewrite Ed; exists (512 * d); lia).
  pose proof (carve_spec A a r m G Ha Ka M8 ltac:(lia) ltac:(unfold m; lia)) as (G2 & I2 & T2 & Fr2 & X2 & _). set (V2 := split _ _ _ _) in *.
  assert (V2 !! a = Some (set_size m (set_kind KUsed r))) as Ha2 by (unfold V2; rewrite split_lookup, decide_False, decide_True by lia; done). assert (a + m = x + 16) as Em by (unfold m; lia). rewrite Em in X2.
  assert (A3 !! (a + ar_size r) = Some (set_left (x + 16) rb)) as Hb3 by (unfold A3; rewrite carve_lookup, !decide_False, decide_True, Hb by (unfold m; lia); cbn; by rewrite Em).
  wp_step. eapply wp_mono; [apply (mid_unlink_lists A (frees A) F s a (ar_size r) M L); [apply frees_spec; eauto|done]|]. intros _ s1 (K1 & M1 & F1' & L1' & EF1).
  assert (mid V2 (frees V2) s1) as M2 by (rewrite Fr2; eapply mid_shape; try done; by rewrite Fr2). rewrite <- Fr2 in L1'. assert (frees V2 !! a = None) as Hn1 by (rewrite Fr2; apply lookup_delete_eq).
  assert (hdrs A (hp_mem s1)) as Hh1 by (eapply hdrs_links; [done| |exact K1|done]; done). assert (ext (set_size m (set_kind KUsed r)) = m) as E1 by exact (ext_size (set_size m (set_kind KUsed r)) ltac:(done)).
  assert (forall y, a <= y < a + m -> (8 | y) -> usable s1 y = true) as Hu by (intros y Hy H8; eapply (mid_usable V2); [exact M2|exact Ha2|done|lia]).
  wp_step. eapply (create_allocation_header_wp _ _ _ x _ _ 0); [lia|apply Hu; [lia|done]|apply Hu; [lia|apply Z.divide_add_r; [done|by exists 1]]|done|lia..|]. set (s2 := put_header _ _ _ _).
  destruct (put_header_inside V2 (frees V2) F1' s1 a _ x 0 16 M2 L1' Ha2 Hn1 ltac:(lia) ltac:(lia)) as [M3 L3']. fold s2 in M3, L3'. wp_step. rewrite <- Ed.
  eapply wp_mono; [apply (mid_create_lists V2 F1' s2 (x + 16) _ x M3 L3' X2); [done|done|done|lia]|]. cbn [ar_size]. intros f s3 (K3 & W7 & W8 & M4 & F3' & L4 & EF3).
  assert (mid A3 (frees A3) s3) as M4' by (unfold A3, carve; rewrite Em; exact M4). assert (lists (frees A3) F3' s3) as L4' by (unfold A3, carve; rewrite Em; exact L4).
  destruct (Hh1 _ _ Hb) as [W3 W4]. assert (forall y, y = a + ar_size r \/ y = a + ar_size r + 8 -> word (hp_mem s3) y = word (hp_mem s1) y) as Hob.
  { intros y Hy. transitivity (word (hp_mem s2) y); [|unfold s2; apply put_header_other; lia]. apply K3. intros [?|Hlk']; [lia|]. revert Hlk'. rewrite Fr2.
    eapply (not_link A _ (a + ar_size r) rb); [done|by intros ?? [_ ?]%lookup_delete_Some|done|lia|right; lia]. }
  assert (8 | x + 16) as X16 by (apply Z.divide_add_r; [done|by exists 2]).
  wp_step. eapply (FixLeftPointer_wp _ A (a + ar_size r) rb); [done|done|by apply (mid_header _ _ _ _ _ M4' Hb3)|rewrite Hob by lia; done|done|lia|].
  set (s4 := on_mem _ s3). rewrite Ed. apply (release_wp A3 V F3' s4 l d); [by eapply mid_put_header; [|exact Hb3|left]|by eapply lists_fix|done|done|by rewrite <- Ed; replace (l + m) with x by (unfold m; lia)|lia|done|done|lia| |].
  - intros y Hy. destruct (Z.lt_ge_cases y a).
    + exists l, rl. split; [unfold A3; rewrite carve_lookup, !decide_False by (unfold m; lia); done|rewrite ext_size by congruence; lia].
    + eexists a, _. split; [exact Ha3|]. change (ext _) with m. lia.
  - intros s5 M5 L5 Em5 El5 Ed5. exists V, F3'.
    assert (keeps (touched A a r) s s4) as K.
    { eapply keeps_trans; [eapply keeps_mono; [|exact K1]; by left|]. eapply keeps_trans; [apply (put_header_keeps _ x 0 16); right; left; lia|]. eapply keeps_trans; [eapply keeps_mono; [|exact K3]|apply keeps_put; by right; right].
      intros y [?|(u & [z Hu'] & Hy)]; [right; left; lia|left]. rewrite Fr2 in Hu'. apply lookup_delete_Some in Hu' as [_ Hu']. exists u. eauto. }
    assert (forall y, y = x \/ y = x + 8 -> word (hp_mem s3) y = word (hp_mem s2) y) as Hox.
    { intros y Hy. apply K3. intros [?|Hlk']; [lia|]. revert Hlk'. eapply (not_link V2 _ a); [done|done|exact Ha2|lia|by left]. }
    split; [split; [done| |done]|].
    + rewrite Em5. intros y q Hy. rewrite Hlk in Hy. case_decide; [injection Hy as <-; subst y|].
      { unfold s4. rewrite !put_other, !Hox by lia. destruct (put_header_words x 0 16 s1) as [P1 P2]. fold s2 in P1, P2. rewrite P1, P2, hdr_no_tag by done. done. }
      case_decide as N; [done|]. apply Decidable.not_or in N as [N1 N2]. case_decide; [injection Hy as <-; subst y; unfold s4; rewrite !put_other, W7, W8 by lia; done|]. case_decide as N3.
      * injection Hy as <-. subst y. unfold s4. rewrite put_same, put_other, Hob by lia. done.
      * destruct (Hh _ _ Hy) as [<- <-]. split; apply K; intros Hx'; destruct (touched_headers _ _ _ _ _ _ G Ha ltac:(congruence) Hx' Hy); try lia; done.
    + split_and!; try done; [by eapply rest_kept; [apply L|..]|]. split; [|by rewrite El5, (kp_locked _ _ _ K)|by rewrite Ed5, (kp_delayed _ _ _ K)]. intros y Hy. rewrite Em5. apply K. intros Htc.
      apply (touched_payload A a r y G Ha ltac:(congruence) Htc). by rewrite delete_id by (apply used_none; intros u Hu'; congruence).
Qed.

(** The size of an area can still be read once it is out of its list. *)
Lemma unlink_read_wp {Y} A F s a r (k : Z -> M (heap P) Y) Q : inv A s -> lists (frees A) F s -> A !! a = Some r -> ar_kind r = KFree ->
  wp (unlink_free a (bucket_of (ar_size r - 16)) ;; k (ar_size r)) Q s -> wp (unlink_free a (bucket_of (ar_size r - 16)) ;; do z <- hdr_size a; k z) Q s.
Proof.
  intros [M Hh Hc] L Ha Ka Hw. pose proof (mid_unlink_lists A (frees A) F s a (ar_size r) M L ltac:(apply frees_spec; eauto) (proj2 (Hh a r Ha))) as Hr.
  wp_step. eapply wp_mono; [exact (wp_conj _ _ _ _ Hr (wp_bind_inv _ _ _ _ Hw))|]. intros f s1 ((K1 & M1 & _) & Hk).
  wp_step. pose proof (mid_header _ _ _ _ _ M Ha) as [_ Hu]. apply hdr_size_wp; [by rewrite (keeps_usable _ _ _ _ K1)|].
  assert (hdrs A (hp_mem s1)) as Hh1 by (eapply hdrs_links; [apply M| |exact K1|done]; done). by destruct (Hh1 a r Ha) as [_ ->].
Qed.

Lemma wp_bind_post {X Y} (m : M (heap P) X) (f g : X -> M (heap P) Y) Q s : (forall w s', wp (f w) Q s' -> wp (g w) Q s') -> wp (bind m f) Q s -> wp (bind m g) Q s.
Proof. intros Hfg. unfold wp, bind. destruct (m s); [apply Hfg|done]. Qed.

Lemma trim_start_wp A F s a r l rl : inv A s -> lists (frees A) F s -> trimmable A -> A !! a = Some r -> ar_kind r = KFree -> 4112 <= ar_size r ->
  ar_left r = l -> A !! l = Some rl -> ar_kind rl = KLeft -> wp (trim_start a (bucket_of (ar_size r - 16)) (a + ar_size r)) (fun _ s' => trimmed A F a s s') s.
Proof.
  intros I L Htr Ha Ka Hsz El Hl Kl. pose proof I as [M Hh Hc]. pose proof (mi_geom _ _ _ M) as G. destruct (ge_right _ G a r Ha ltac:(congruence)) as (rb & Hb & _).
  pose proof (ge_facts _ _ _ G Ha) as (F1 & F2 & F3 & F4 & F5). specialize (F5 ltac:(congruence)).
  destruct (ge_left _ G a r Ha ltac:(congruence)) as (q & Hq & E & _). rewrite El, Hl in Hq. injection Hq as <-. rewrite El in E.
  assert (ar_size rl = 16) as E16 by (apply (Htr l rl r); [done|done|by rewrite E|done]). pose proof (ge_facts _ _ _ G Hl) as (L1 & _).
  pose proof (ge_ok _ G _ _ Hl) as (_ & _ & _ & _ & _ & _ & Ol). unfold kind_ok in Ol. rewrite Kl in Ol. destruct Ol as (_ & [kl Ekl] & _).
  unfold trim_start. change HEADER with 16. change FREE with 32. pose proof (rounddown_page a ltac:(lia)) as [[k1 E1] B1]. pose proof (rounddown_page (a + ar_size r - 16) ltac:(lia)) as [[k2 E2] B2].
  set (old := ROUNDDOWN a PAGE_SIZE) in *. set (x := ROUNDDOWN (a + ar_size r - 16) PAGE_SIZE) in *. assert (old = l) as -> by lia. set (d := k2 - kl). assert (x - l = 4096 * d) as Ed by (unfold d; lia).
  rewrite Ed, u64_small by lia. wp_step. wp_step; [apply IS_PAGE_ALIGNED_spec; by apply Z.divide_factor_l|]. destruct (Z.eqb_spec (4096 * d) 0) as [|Hd]; [wp_step; by apply trimmed_id|].
  assert (a < x <= a + ar_size r - 16) as Hx by lia. assert (4096 | x) as Hx4 by (by exists k2).
  eapply (unlink_read_wp A F s a r); [done..|]. cbv beta zeta. rewrite (u64_small (ar_size r - 4096 * d)) by lia. destruct (Z.ltb_spec (ar_size r - 4096 * d) 32) as [Hs|Hs].
  - change (0 =? 0) with true. cbv iota. rewrite u64_small by lia. replace (16 + (ar_size r - 4096 * d)) with (a + ar_size r - x) by lia. eapply trim_start_small_wp; try done. unfold area_ok in *.
    destruct (ge_ok _ G _ _ Ha) as (_ & A8 & Z8 & _). assert (8 | ar_size r - 4096 * d) as [j Ej]. { apply Z.divide_sub_r; [done|]. exists (512 * d). lia. } lia.
  - rewrite (proj2 (Z.eqb_neq (ar_size r - 4096 * d) 0)) by lia. eapply wp_bind_post; [|by apply (trim_start_big_wp A F s a r l rl rb x d); try done; lia].
    intros ? s1 Hw. eapply wp_bind_post; [|exact Hw]. clear Hw. intros p s2 Hw. wp_step. wp_step. wp_step; [apply Z.leb_le; lia|]. wp_step.
    eapply wp_mono; [exact (wp_bind_inv _ _ _ _ Hw)|]. cbv beta. intros f s3 Hw'. exact (wp_bind_inv _ _ _ _ Hw').
Qed.

(** One entry of a list. *)
Lemma trim_area_wp A F s a r : inv A s -> lists (frees A) F s -> trimmable A -> A !! a = Some r -> ar_kind r = KFree -> 4112 <= ar_size r ->
  wp (trim_area a (bucket_of (ar_size r - 16))) (fun _ s' => trimmed A F a s s') s.
Proof.
  intros I L Htr Ha Ka Hsz. pose proof I as [M Hh Hc]. pose proof (mi_geom _ _ _ M) as G. destruct (ge_right _ G a r Ha ltac:(congruence)) as (rb & Hb & _).
  destruct (ge_left _ G a r Ha ltac:(congruence)) as (rl & Hl & _). destruct (Hh _ _ Ha) as [W1 W2]. destruct (Hh _ _ Hb) as [_ W3]. destruct (Hh _ _ Hl) as [W4 _].
  pose proof (mid_header _ _ _ _ _ M Ha) as [U1 U2]. pose proof (mid_header _ _ _ _ _ M Hb) as [_ U3]. pose proof (mid_header _ _ _ _ _ M Hl) as [U4 _].
  unfold trim_area, is_end_of_os_allocation, is_start_of_os_allocation. wp_step. apply right_header_wp; [done|]. rewrite W2. wp_step. wp_step. apply hdr_size_wp; [done|]. rewrite W3. wp_step.
  pose proof (size_zero _ _ _ G Hb) as H0. destruct (Z.eqb_spec (ar_size rb) 0) as [E|E]; [by apply (trim_end_wp A F s a r _ rb); try done; apply H0|].
  wp_step. apply hdr_left_wp; [done|]. rewrite W1, (hdr_untag A a r) by done. wp_step. wp_step. apply hdr_left_wp; [done|]. rewrite W4. wp_step. change (untag 0) with 0.
  pose proof (hdr_range _ _ _ G Hl) as [_ H1]. unfold when. destruct (Z.eqb_spec (hdr rl) 0) as [E1|E1]; [|wp_step; by apply trimmed_id]. by eapply trim_start_wp; try done; apply H1.
Qed.

(** ** The loops *)

Definition all_trimmed A s s' : Prop := exists V,
  inv V s' /\ used V = used A /\ trimmable V /\ (size (frees V) <= size (frees A))%nat /\ quiet (payload (used A)) s s'.

Lemma all_trimmed_id A s : inv A s -> trimmable A -> all_trimmed A s s.
Proof. intros I Ht. by exists A. Qed.

Lemma all_trimmed_trans A V s s1 s2 : used V = used A -> (size (frees V) <= size (frees A))%nat -> quiet (payload (used A)) s s1 -> all_trimmed V s1 s2 -> all_trimmed A s s2.
Proof. intros E Hle Q (U & I & E1 & Ht & Hle1 & Q1). exists U. rewrite E in E1, Q1. split_and!; try done; [lia|by eapply heap_quiet_trans]. Qed.

(** What is in a bucket for pages has room for a page. *)
Lemma page_bucket p : 16 <= p -> bucket_of 4096 <= bucket_of p -> 4096 <= p.
Proof. intros Hp Hb. by apply (alloc_bucket_fits 4096 p ltac:(lia) Hp). Qed.

Lemma trim_list_wp fuel A F s i l rest : inv A s -> lists (frees A) F s -> trimmable A -> F i = l ++ rest -> (length rest <= fuel)%nat -> bucket_of 4096 <= i ->
  wp (trim_list fuel (List.hd 0 rest) i) (fun _ s' => all_trimmed A s s') s.
Proof.
  revert A F s l rest. induction fuel as [|fuel IH]; intros A F s l rest I L Htr EF Hf Hi; destruct rest as [|c rest]; cbn [length] in Hf; try lia; [by apply all_trimmed_id..|].
  pose proof I as [M Hh Hc]. pose proof (mi_geom _ _ _ M) as G. destruct (proj1 (li_in _ _ _ L i c)) as (z & Hz & Eb); [rewrite EF; set_solver|]. apply frees_spec in Hz as (r & Ha & Ka & <-).
  pose proof (ge_facts _ _ _ G Ha) as (F1 & _). pose proof (ge_ok _ G _ _ Ha) as (_ & _ & _ & _ & _ & _ & Oa). unfold kind_ok in Oa. rewrite Ka in Oa.
  pose proof (page_bucket (ar_size r - 16) ltac:(lia) ltac:(lia)). destruct (Hh _ _ Ha) as [_ W2]. pose proof (mid_header _ _ _ _ _ M Ha) as [_ U2].
  cbn [trim_list List.hd]. rewrite (proj2 (Z.eqb_neq c 0)) by lia. wp_step. apply hdr_size_wp; [done|]. rewrite W2. wp_step. wp_step; [by apply Z.leb_le; change (PAGE_SIZE + HEADER) with 4112; lia|].
  pose proof (li_seg _ _ _ L i) as Hd. rewrite EF in Hd. apply dseg_app in Hd as [_ [Hn _]].
  destruct (listable_usable s c (ar_size r)) as [U3 _]; [eapply (li_ok _ _ _ L), frees_spec; eauto|].
  wp_step. unfold free_next. apply ld_wp; [done|]. rewrite Hn. wp_step. rewrite <- Eb. eapply wp_mono; [by apply (trim_area_wp A F s c r); try done; lia|].
  intros _ s1 (V & F' & I1 & L1 & E1 & Ht1 & Hle & HF & Q1). destruct (HF i l rest EF) as [l' EF']. rewrite Eb.
  eapply wp_mono; [by apply (IH V F' s1 l' rest); try done; lia|]. intros ? s2 Hs2. by eapply all_trimmed_trans.
Qed.

(** No list is longer than the number of free areas. *)
Lemma list_short Fr F s i : lists Fr F s -> (length (F i) <= size Fr)%nat.
Proof.
  intros L. rewrite <- size_dom, <- (size_list_to_set (C := gset Z) (F i)) by apply L. apply subseteq_size. intros c Hc%elem_of_list_to_set.
  apply (li_in _ _ _ L) in Hc as (z & Hz & _). by apply elem_of_dom_2 in Hz.
Qed.

Lemma trim_buckets_wp fuel n A s i : inv A s -> trimmable A -> (size (frees A) <= fuel)%nat -> bucket_of 4096 <= i -> i + Z.of_nat n <= 136 ->
  wp (trim_buckets fuel n i) (fun _ s' => all_trimmed A s s') s.
Proof.
  revert A s i. induction n as [|n IH]; intros A s i I Htr Hf Hi Hn; cbn [trim_buckets]; [wp_step; by apply all_trimmed_id|].
  destruct (mi_lists _ _ _ (in_mid _ _ I)) as [F L]. change (bucket_of 4096) with 55 in *. wp_step. eapply get_entry_wp; [lia|apply (li_head _ _ _ L); lia|].
  pose proof (list_short _ _ _ i L). wp_step. eapply wp_mono; [by apply (trim_list_wp fuel A F s i [] (F i)); try done; lia|].
  intros _ s1 (V & I1 & E1 & Ht1 & Hle & Q1). eapply wp_mono; [apply (IH V s1 (i + 1)); try done; lia|]. intros ? s2 Hs2. by eapply all_trimmed_trans.
Qed.

(** The loop has enough turns: a free area takes 32 bytes of what is free. *)
Lemma trim_fuel A s : inv A s -> (size (frees A) <= Z.to_nat (hp_remaining s / FREE))%nat.
Proof.
  intros [M _ _]. destruct (mi_lists _ _ _ M) as [F L]. rewrite (li_sum _ _ _ L). change FREE with 32.
  assert (32 * Z.of_nat (size (frees A)) <= msum id (frees A)) as Hm; [|assert (Z.of_nat (size (frees A)) <= msum id (frees A) / 32) by (apply Z.div_le_lower_bound; lia); lia].
  assert (forall a z, frees A !! a = Some z -> 32 <= z) as Hz.
  { intros a z (r & Ha & Ka & <-)%frees_spec. pose proof (ge_ok _ (mi_geom _ _ _ M) _ _ Ha) as (_ & _ & _ & _ & _ & _ & Oa). unfold kind_ok in Oa. rewrite Ka in Oa. lia. }
  revert Hz. generalize (frees A). intros m. induction m as [|a z m Hn IH] using map_ind; intros Hz; [by rewrite map_size_empty, msum_empty|].
  rewrite map_size_insert_None, msum_insert by done. pose proof (Hz a z ltac:(by rewrite lookup_insert_eq)). unfold id at 1.
  assert (32 * Z.of_nat (size m) <= msum id m); [|lia]. apply IH. intros b y Hb. apply (Hz b y). rewrite lookup_insert_ne; [done|congruence].
Qed.

(** [cmpct_trim] gives pages back and leaves the blocks and what is in them alone. *)
Lemma cmpct_trim_wp A s : inv A s -> hp_locked s = false -> trimmable A -> wp cmpct_trim (fun _ s' => all_trimmed A s s') s.
Proof.
  intros I Hl Htr. unfold cmpct_trim. wp_step. apply lock_wp; [done|]. wp_step. wp_step. wp_step. rewrite size_to_index_freeing_eq by (change PAGE_SIZE with 4096; unfold BIG; lia). wp_step.
  change (bucket_of PAGE_SIZE) with 55. change (NUMBER_OF_BUCKETS - 55) with 81. wp_step. assert (inv A (set_locked true s)) as I1 by by apply inv_locked.
  eapply wp_mono; [apply (trim_buckets_wp _ _ A); [done|done|exact (trim_fuel _ _ I1)|done|done]|]. intros _ s1 (V & I2 & E & Ht & Hle & [Q1 Q2 Q3]).
  apply unlock_wp; [done|]. exists V. split; [by apply inv_locked|]. split_and!; done.
Qed.
End trimming.
