(* ===== verification/HeapBytes.v ===== *)
(** * The bytes of the blocks

    Bytes within the words of memory, what [memcpy] and [memset] do to them, and that writing inside the
    blocks that were given out cannot hurt the heap. *)

From stdpp Require Import base gmap list numbers.
From S2P Require Import Prelude Pow2 Align Heap HeapIndex HeapLists HeapGeom HeapSpec HeapFree.

(** ** One byte of a word *)

Lemma pow256 i : 0 <= i -> 0 < 256 ^ i.
Proof. intros Hi. by apply Z.pow_pos_nonneg. Qed.

(** Adding a multiple of [256 ^ i] to a word does not reach the bytes below. *)
Lemma byte_below w d i j : 0 <= j < i -> (w + d * 256 ^ i) / 256 ^ j mod 256 = w / 256 ^ j mod 256.
Proof.
  intros Hj. pose proof (pow256 j ltac:(lia)). replace (256 ^ i) with (256 ^ (i - j - 1) * 256 * 256 ^ j).
  - rewrite Z.mul_assoc, Z.div_add by lia. rewrite Z.mul_assoc. by apply Z.mod_add.
  - rewrite <- (Z.pow_1_r 256) at 2. rewrite <- !Z.pow_add_r by lia. f_equal. lia.
Qed.

(** What is above the byte that is replaced. *)
Lemma replace_above w v i : 0 <= i -> 0 <= v < 256 -> (w + (v - w / 256 ^ i mod 256) * 256 ^ i) / 256 ^ (i + 1) = w / 256 ^ (i + 1).
Proof.
  intros Hi Hv. pose proof (pow256 i Hi). rewrite Z.pow_add_r, Z.pow_1_r by lia. rewrite <- !Z.div_div by lia. rewrite Z.div_add by lia.
  pose proof (Z.div_mod (w / 256 ^ i) 256 ltac:(lia)). pose proof (Z.mod_pos_bound (w / 256 ^ i) 256 ltac:(lia)). set (h := w / 256 ^ i) in *. symmetry. apply (Z.div_unique _ _ _ v); lia.
Qed.

Lemma replace_at w v i : 0 <= i -> 0 <= v < 256 -> (w + (v - w / 256 ^ i mod 256) * 256 ^ i) / 256 ^ i mod 256 = v.
Proof.
  intros Hi Hv. pose proof (pow256 i Hi). rewrite Z.div_add by lia. set (h := w / 256 ^ i). pose proof (Z.div_mod h 256 ltac:(lia)). pose proof (Z.mod_pos_bound h 256 ltac:(lia)).
  symmetry. apply (Z.mod_unique _ _ (h / 256)); lia.
Qed.

Lemma replace_other w v i j : 0 <= i -> 0 <= j -> i <> j -> 0 <= v < 256 -> (w + (v - w / 256 ^ i mod 256) * 256 ^ i) / 256 ^ j mod 256 = w / 256 ^ j mod 256.
Proof.
  intros Hi Hj Hne Hv. destruct (Z.lt_ge_cases j i); [by apply byte_below|]. pose proof (pow256 (j - (i + 1)) ltac:(lia)). pose proof (pow256 (i + 1) ltac:(lia)).
  replace (256 ^ j) with (256 ^ (i + 1) * 256 ^ (j - (i + 1))) by (rewrite <- Z.pow_add_r by lia; f_equal; lia). rewrite <- !Z.div_div, replace_above by lia. done.
Qed.

Lemma word_of x : x = x / 8 * 8 + x mod 8 /\ 0 <= x mod 8 < 8.
Proof. pose proof (Z.div_mod x 8 ltac:(lia)). pose proof (Z.mod_pos_bound x 8 ltac:(lia)). lia. Qed.

Lemma byte_range m x : 0 <= byte m x < 256.
Proof. apply Z.mod_pos_bound. lia. Qed.

Lemma byte_put_eq m x v : 0 <= v < 256 -> byte (put_byte x v m) x = v.
Proof. intros Hv. unfold byte at 1, put_byte. rewrite word_put_eq. unfold byte. apply replace_at; [apply word_of|done]. Qed.

Lemma byte_put_ne m x y v : 0 <= v < 256 -> x <> y -> byte (put_byte x v m) y = byte m y.
Proof.
  intros Hv Hne. unfold byte at 1, put_byte. pose proof (word_of x). pose proof (word_of y). destruct (decide (y / 8 * 8 = x / 8 * 8)) as [E|E]; [|by rewrite word_put_ne].
  rewrite E, word_put_eq. unfold byte. rewrite E. apply replace_other; lia.
Qed.

Lemma word_put_byte m x v y : y <> x / 8 * 8 -> word (put_byte x v m) y = word m y.
Proof. intros Hy. by apply word_put_ne. Qed.

(** ** Stretches of memory *)

Definition contents (m : mem) (p : Z) (n : Z) : list Z := map (byte m) (seqZ p n).

Lemma length_contents m p n : 0 <= n -> Z.of_nat (length (contents m p n)) = n.
Proof. intros Hn. unfold contents. rewrite length_map, length_seqZ. lia. Qed.

Lemma contents_lookup m p n (i : nat) : Z.of_nat i < n -> contents m p n !! i = Some (byte m (p + Z.of_nat i)).
Proof. intros Hi. unfold contents. rewrite list_lookup_fmap, lookup_seqZ_lt by lia. done. Qed.

Lemma contents_ext m m' p n : (forall x, p <= x < p + n -> byte m' x = byte m x) -> contents m' p n = contents m p n.
Proof. intros Hx. apply list_fmap_ext. intros i x Hi. apply lookup_seqZ in Hi. apply Hx. lia. Qed.

Lemma contents_put m p n (i : nat) v : 0 <= v < 256 -> Z.of_nat i < n -> contents (put_byte (p + Z.of_nat i) v m) p n = <[i := v]> (contents m p n).
Proof.
  intros Hv Hi. apply list_eq. intros j. destruct (decide (Z.of_nat j < n)) as [Hj|Hj].
  - rewrite contents_lookup by done. destruct (decide (i = j)) as [->|Hne].
    + rewrite byte_put_eq, list_lookup_insert_eq; [done| |done]. pose proof (length_contents m p n ltac:(lia)). lia.
    + rewrite byte_put_ne, list_lookup_insert_ne, contents_lookup by lia. done.
  - pose proof (length_contents m p n ltac:(lia)). pose proof (length_contents (put_byte (p + Z.of_nat i) v m) p n ltac:(lia)).
    rewrite !lookup_ge_None_2; [done|rewrite length_insert; lia|lia].
Qed.

(** [m'] is [m] but for the [n] bytes from [p] on. *)
Record writes (p n : Z) (m m' : mem) : Prop := {
  wr_byte : forall x, ~ p <= x < p + n -> byte m' x = byte m x;
  wr_word : forall y, (forall x, p <= x < p + n -> y <> x / 8 * 8) -> word m' y = word m y }.

Lemma writes_nil p m : writes p 0 m m.
Proof. by split. Qed.

Lemma writes_cons p n v m m' : 0 <= n -> 0 <= v < 256 -> writes (p + 1) n (put_byte p v m) m' -> writes p (n + 1) m m'.
Proof.
  intros Hn Hv [W1 W2]. split.
  - intros x Hx. rewrite W1, byte_put_ne by lia. done.
  - intros y Hy. rewrite W2 by (intros x Hx; apply Hy; lia). apply word_put_byte, Hy. lia.
Qed.

Section copying.
Context {P : Type} {PO : PageOps P}.
Implicit Types (s : heap P).

Definition reach s (p n : Z) : Prop := forall x, p <= x < p + n -> usable s (x / 8 * 8) = true.

Lemma on_mem_self s : on_mem (fun _ => hp_mem s) s = s.
Proof. by destruct s. Qed.

Lemma ld8_wp Q x s : usable s (x / 8 * 8) = true -> Q (byte (hp_mem s) x) s -> wp (ld8 x) Q s.
Proof. intros Hu HQ. unfold ld8. wp_step. wp_step. rewrite Hu. by wp_step. Qed.

Lemma st8_wp Q x v s : usable s (x / 8 * 8) = true -> Q tt (on_mem (put_byte x v) s) -> wp (st8 x v) Q s.
Proof. intros Hu HQ. unfold st8. wp_step. wp_step. rewrite Hu. by wp_step. Qed.

Lemma memset_wp Q c (n : nat) p s : 0 <= c < 256 -> reach s p (Z.of_nat n) ->
  (forall m, writes p (Z.of_nat n) (hp_mem s) m -> (forall x, p <= x < p + Z.of_nat n -> byte m x = c) -> Q tt (on_mem (fun _ => m) s)) -> wp (memset p c n) Q s.
Proof.
  intros Hc. revert p s Q. induction n as [|n IH]; intros p s Q Hr HQ; cbn [memset].
  - wp_step. rewrite <- (on_mem_self s). apply HQ; [apply writes_nil|lia].
  - wp_step. apply st8_wp; [apply Hr; lia|]. apply IH; [intros x Hx; apply Hr; lia|]. intros m Hw Hm. change (on_mem _ (on_mem _ s)) with (on_mem (fun _ => m) s). apply HQ.
    + rewrite Nat2Z.inj_succ, <- Z.add_1_r. eapply writes_cons; [lia|exact Hc|done].
    + intros x Hx. destruct (decide (x = p)) as [->|Hne]; [|apply Hm; lia]. rewrite (wr_byte _ _ _ _ Hw) by lia. by apply byte_put_eq.
Qed.

Lemma memcpy_wp Q (n : nat) d p s : reach s d (Z.of_nat n) -> reach s p (Z.of_nat n) -> d + Z.of_nat n <= p \/ p + Z.of_nat n <= d ->
  (forall m, writes d (Z.of_nat n) (hp_mem s) m -> (forall i, 0 <= i < Z.of_nat n -> byte m (d + i) = byte (hp_mem s) (p + i)) -> Q tt (on_mem (fun _ => m) s)) -> wp (memcpy d p n) Q s.
Proof.
  revert d p s Q. induction n as [|n IH]; intros d p s Q Hd Hp Ha HQ; cbn [memcpy].
  - wp_step. rewrite <- (on_mem_self s). apply HQ; [apply writes_nil|lia].
  - wp_step. apply ld8_wp; [apply Hp; lia|]. wp_step. apply st8_wp; [apply Hd; lia|]. pose proof (byte_range (hp_mem s) p) as Hv. apply IH; [intros x Hx; apply Hd; lia|intros x Hx; apply Hp; lia|lia|].
    intros m Hw Hm. change (on_mem _ (on_mem _ s)) with (on_mem (fun _ => m) s). apply HQ.
    + rewrite Nat2Z.inj_succ, <- Z.add_1_r. eapply writes_cons; [lia|exact Hv|done].
    + intros i Hi. destruct (decide (i = 0)) as [->|Hne].
      * rewrite !Z.add_0_r, (wr_byte _ _ _ _ Hw) by lia. by apply byte_put_eq.
      * specialize (Hm (i - 1) ltac:(lia)). replace (d + 1 + (i - 1)) with (d + i) in Hm by lia. replace (p + 1 + (i - 1)) with (p + i) in Hm by lia. rewrite Hm.
        apply byte_put_ne; [done|lia].
Qed.
End copying.

(** ** Writing in the blocks *)

Section blocks.
Context {P : Type} {PO : PageOps P} {PL : PageLaws P}.
Implicit Types (s : heap P) (A U V : areas) (B : gmap Z Z).

Lemma used_facts A a z : geom A -> used A !! a = Some z -> 0 < a /\ (8 | a) /\ (8 | z) /\ 32 <= z /\ a + z < 2 ^ 64.
Proof.
  intros G (r & Ha & Ka & <-)%used_spec. pose proof (ge_facts _ _ _ G Ha) as (F1 & _ & F3 & _ & F5). specialize (F5 ltac:(congruence)).
  destruct (ge_ok _ G _ _ Ha) as (_ & A8 & Z8 & _ & _ & _ & Oa). unfold kind_ok in Oa. rewrite Ka in Oa. split_and!; try done. lia.
Qed.

Lemma used_apart A a b z y : geom A -> used A !! a = Some z -> used A !! b = Some y -> a <> b -> a + z <= b \/ b + y <= a.
Proof.
  intros G (r & Ha & Ka & <-)%used_spec (q & Hb & Kb & <-)%used_spec Hne. pose proof (ge_apart _ G _ _ _ _ Ha Hb Hne). by rewrite !ext_size in H by congruence.
Qed.

(** The word of a byte of a block is a word of the block. *)
Lemma block_word A a z x : geom A -> used A !! a = Some z -> a + 16 <= x < a + z -> a + 16 <= x / 8 * 8 < a + z.
Proof.
  intros G Ha Hx. destruct (used_facts A a z G Ha) as (_ & [i ->] & [j ->] & _). pose proof (word_of x). split; [|lia].
  assert (i + 2 <= x / 8) by (apply Z.div_le_lower_bound; lia). lia.
Qed.

Lemma block_reach A s a z : inv A s -> used A !! a = Some z -> reach s (a + 16) (z - 16).
Proof.
  intros [M _ _] Ha x Hx. pose proof (block_word A a z x (mi_geom _ _ _ M) Ha ltac:(lia)). apply used_spec in Ha as (r & Ha & Ka & <-).
  eapply (mid_usable A); [done|done|apply Z.divide_factor_r|]. rewrite ext_size by congruence. lia.
Qed.

Lemma payload_hdr A a r x : geom A -> A !! a = Some r -> a <= x < a + 16 -> ~ payload (used A) x.
Proof.
  intros G Ha Hx (b & z & (q & Hb & Kb & <-)%used_spec & Hxb). pose proof (ge_facts _ _ _ G Ha). destruct (decide (a = b)) as [->|Hne]; [lia|].
  destruct (ge_apart _ G _ _ _ _ Ha Hb Hne) as [|Hle]; [lia|]. rewrite (ext_size q) in Hle by congruence. lia.
Qed.

Lemma payload_link A x : geom A -> link (frees A) x -> ~ payload (used A) x.
Proof.
  intros G Hl (b & z & (q & Hb & Kb & <-)%used_spec & Hxb). revert Hl. eapply (not_link A _ b q); [done|done|done|rewrite ext_size by congruence; lia|left].
  apply (frees_none _ _ q); [done|congruence].
Qed.

(** Nothing that is written inside blocks can hurt the heap. *)
Lemma inv_write A s m : inv A s -> (forall x, ~ payload (used A) x -> word m x = word (hp_mem s) x) -> inv A (on_mem (fun _ => m) s).
Proof.
  intros [M Hh Hc] Hm. pose proof (mi_geom _ _ _ M) as G. split; [|intros a r Ha; cbn; rewrite !Hm by (eapply payload_hdr; [done|exact Ha|lia]); by apply Hh|done].
  destruct (mi_lists _ _ _ M) as [F L]. split; try apply M. exists F. eapply lists_frame; try done. intros x Hx. cbn. by apply Hm, payload_link.
Qed.

Lemma writes_payload A a z p n m m' : geom A -> used A !! a = Some z -> a + 16 <= p -> p + n <= a + z -> writes p n m m' -> forall x, ~ payload (used A) x -> word m' x = word m x.
Proof.
  intros G Ha H1 H2 W x Hx. apply (wr_word _ _ _ _ W). intros y Hy ->. apply Hx. exists a, z. split; [done|]. apply (block_word A); [done|done|lia].
Qed.

(** What is quiet for the words of a block is so for its bytes. *)
Lemma quiet_byte A (D : Z -> Prop) s s' a z x : geom A -> used A !! a = Some z -> (forall y, a + 16 <= y < a + z -> D y) -> quiet D s s' -> a + 16 <= x < a + z -> byte (hp_mem s') x = byte (hp_mem s) x.
Proof. intros G Ha HD Q Hx. unfold byte. rewrite (qu_mem _ _ _ Q); [done|]. by apply HD, (block_word A). Qed.

Lemma quiet_contents A (D : Z -> Prop) s s' a z : geom A -> used A !! a = Some z -> (forall y, a + 16 <= y < a + z -> D y) -> quiet D s s' ->
  contents (hp_mem s') (a + 16) (z - 16) = contents (hp_mem s) (a + 16) (z - 16).
Proof. intros G Ha HD Q. apply contents_ext. intros x Hx. eapply quiet_byte; try done. lia. Qed.
End blocks.
