(* ===== verification/HeapCalls.v ===== *)
(** * The heap as its callers see it

    A store of blocks: pointers and the bytes behind them.  The calls of [heap_wrapper.c] and reads and writes
    inside the blocks behave on the detailed heap as they do on the store. *)

From stdpp Require Import base gmap list numbers.
From S2P Require Import Prelude Pow2 Align Heap HeapIndex HeapLists HeapGeom HeapSpec HeapFree HeapTrim HeapBytes.

Section calls.
Context {P : Type} {PO : PageOps P} {PL : PageLaws P}.
Implicit Types (s : heap P) (A U V : areas) (B : gmap Z (list Z)) (D : list Z) (t : bool).

(** ** The store

    [t] says that no left sentinel was enlarged, [D] are the blocks that wait to be freed. *)
Record view t B D A s : Prop := {
  vi_inv : inv A s;
  vi_unlocked : hp_locked s = false;
  vi_plain : t = true -> plain A;
  vi_nodup : NoDup D;
  vi_pending : forall p, p ∈ D -> is_Some (used A !! (p - 16));
  vi_blocks : forall p, B !! p = if decide (p ∈ D) then None else (fun z => contents (hp_mem s) p (z - 16)) <$> used A !! (p - 16) }.

Definition holds t B s : Prop := exists A, view t B (delayed_free_list s) A s.

Lemma view_geom t B D A s : view t B D A s -> geom A.
Proof. intros [[M _ _] _ _ _ _ _]. apply M. Qed.

(** A block of the store is a block of the heap. *)
Lemma view_block t B D A s p bs : view t B D A s -> B !! p = Some bs -> p ∉ D /\ exists z, used A !! (p - 16) = Some z /\ bs = contents (hp_mem s) p (z - 16).
Proof.
  intros Vi Hp. rewrite (vi_blocks _ _ _ _ _ Vi) in Hp. case_decide; [done|]. split; [done|]. destruct (used A !! (p - 16)) as [z|]; [|done]. injection Hp as <-. eauto.
Qed.

Lemma contents_quiet A (W : gmap Z Z) s s' p z : geom A -> used A !! (p - 16) = Some z -> W !! (p - 16) = Some z -> quiet (payload W) s s' -> contents (hp_mem s') p (z - 16) = contents (hp_mem s) p (z - 16).
Proof.
  intros G Hp Hb Q. pose proof (quiet_contents A (payload W) s s' (p - 16) z G Hp) as Hc. replace (p - 16 + 16) with p in Hc by lia. apply Hc; [|exact Q]. intros y Hy. exists (p - 16), z. split; [done|lia].
Qed.

Lemma view_same t t' B D A V s s' : view t B D A s -> inv V s' -> used V = used A -> quiet (payload (used A)) s s' -> (t' = true -> plain V) -> view t' B D V s'.
Proof.
  intros Vi I E Q Hp. pose proof (view_geom _ _ _ _ _ Vi) as G. destruct Vi as [I0 Hl Hpl Hn Hpe Hb]. split; try done; [by rewrite (qu_locked _ _ _ Q)|by rewrite E|].
  intros p. rewrite Hb, E. case_decide; [done|]. destruct (used A !! (p - 16)) as [z|] eqn:Ez; [|done]. cbn. f_equal. symmetry. by eapply contents_quiet.
Qed.

(** A new block. *)
Lemma view_alloc t B D A U s s' a n : view t B D A s -> inv U s' -> gives A a n U -> quiet (payload (used A)) s s' ->
  exists bs, B !! (a + 16) = None /\ n - 16 <= Z.of_nat (length bs) /\ view t (<[a + 16 := bs]> B) D U s'.
Proof.
  intros Vi I (q & Hq & Kq & Hn & Hu & EU & Hpl) Q. pose proof (view_geom _ _ _ _ _ Vi) as G. destruct Vi as [I0 Hl Hpl0 Hd Hpe Hb]. replace a with (a + 16 - 16) in Hu by lia.
  assert (a + 16 ∉ D) as HD by (intros Hin; destruct (Hpe _ Hin) as [z Hz]; congruence). exists (contents (hp_mem s') (a + 16) (ar_size q - 16)).
  pose proof (used_facts U a (ar_size q) ltac:(apply I) ltac:(apply used_spec; eauto)). split; [by rewrite Hb, decide_False, Hu|]. split; [rewrite length_contents by lia; lia|].
  split; try done; [by rewrite (qu_locked _ _ _ Q)|intros Ht; by apply Hpl, Hpl0| |].
  - intros p Hp. rewrite EU. destruct (Hpe p Hp) as [z Hz]. rewrite lookup_insert_ne; [by exists z|]. intros ->. replace (p - 16 + 16) with p in HD by lia. done.
  - intros p. rewrite EU. destruct (decide (p = a + 16)) as [->|Hne].
    + rewrite lookup_insert_eq, decide_False by done. replace (a + 16 - 16) with a by lia. by rewrite lookup_insert_eq.
    + rewrite lookup_insert_ne, Hb by done. case_decide; [done|]. rewrite lookup_insert_ne by lia. destruct (used A !! (p - 16)) as [z|] eqn:Ez; [|done]. cbn. f_equal. symmetry. by eapply contents_quiet.
Qed.

(** A block that goes: one of the store, or one that was waiting. *)
Lemma view_freed t B D A s s' a : view t B D A s -> a + 16 ∉ D -> freed A a s s' -> exists V, view t (delete (a + 16) B) D V s' /\ quiet (payload (delete a (used A))) s s'.
Proof.
  intros Vi HD (V & I & EU & Hpl & Q). pose proof (view_geom _ _ _ _ _ Vi) as G. destruct Vi as [I0 Hl Hpl0 Hd Hpe Hb]. exists V. split; [|done].
  split; try done; [by rewrite (qu_locked _ _ _ Q)|intros Ht; by apply Hpl, Hpl0| |].
  - intros p Hp. rewrite EU, lookup_delete_ne by (intros ->; replace (p - 16 + 16) with p in HD by lia; done). by apply Hpe.
  - intros p. rewrite EU. destruct (decide (p = a + 16)) as [->|Hne].
    + rewrite lookup_delete_eq. replace (a + 16 - 16) with a by lia. rewrite lookup_delete_eq. by case_decide.
    + rewrite lookup_delete_ne, Hb by done. case_decide; [done|]. rewrite lookup_delete_ne by lia. destruct (used A !! (p - 16)) as [z|] eqn:Ez; [|done]. cbn. f_equal. symmetry.
      apply (contents_quiet A (delete a (used A))); [done|done|by rewrite lookup_delete_ne by lia|done].
Qed.

Lemma view_delay t B D A s p : view t B D A s -> p ∉ D -> is_Some (used A !! (p - 16)) -> view t (delete p B) (p :: D) A s.
Proof.
  intros [I0 Hl Hpl0 Hd Hpe Hb] Hp Hu. split; try done; [by apply list.NoDup_cons|intros q [->|Hq]%elem_of_cons; auto|].
  intros q. destruct (decide (q = p)) as [->|Hne]; [by rewrite lookup_delete_eq, decide_True by (by apply elem_of_cons; left)|].
  rewrite lookup_delete_ne, Hb by done. do 2 case_decide; try done; rewrite elem_of_cons in *; tauto.
Qed.

(** The block at the head of the list is no longer waiting. *)
Lemma view_undelay t B D A s p : view t B (p :: D) A s -> exists B', B = delete p B' /\ view t B' D A s /\ p ∉ D.
Proof.
  intros [I0 Hl Hpl0 Hd Hpe Hb]. apply list.NoDup_cons in Hd as [Hp Hd]. destruct (Hpe p ltac:(by apply elem_of_cons; left)) as [z Hz].
  assert (B !! p = None) as Hn by (rewrite Hb, decide_True; [done|by apply elem_of_cons; left]).
  exists (<[p := contents (hp_mem s) p (z - 16)]> B). split; [by rewrite delete_insert_id|]. split; [|done]. split; try done; [intros q Hq; apply Hpe; by apply elem_of_cons; right|].
  intros q. destruct (decide (q = p)) as [->|Hne]; [by rewrite lookup_insert_eq, decide_False, Hz by done|]. rewrite lookup_insert_ne, Hb by done.
  do 2 case_decide; try done; rewrite elem_of_cons in *; tauto.
Qed.

(** Bytes of a block are written. *)
Lemma view_write t B D A s p z d n m : view t B D A s -> p ∉ D -> used A !! (p - 16) = Some z -> p <= d -> d + n <= p + (z - 16) -> writes d n (hp_mem s) m ->
  view t (<[p := contents m p (z - 16)]> B) D A (on_mem (fun _ => m) s).
Proof.
  intros Vi HD Hz H1 H2 W. pose proof (view_geom _ _ _ _ _ Vi) as G. destruct Vi as [I0 Hl Hpl0 Hd Hpe Hb]. split; try done.
  - apply inv_write; [done|]. apply (writes_payload A (p - 16) z d n); [done|done|lia|lia|done].
  - intros q. destruct (decide (q = p)) as [->|Hne]; [by rewrite lookup_insert_eq, decide_False, Hz by done|]. rewrite lookup_insert_ne, Hb by done. case_decide; [done|].
    destruct (used A !! (q - 16)) as [y|] eqn:Ey; [|done]. cbn. f_equal. symmetry. apply contents_ext. intros x Hx. apply (wr_byte _ _ _ _ W).
    pose proof (used_apart A _ _ _ _ G Hz Ey ltac:(lia)). lia.
Qed.

Lemma view_perm t B D D' A s : D ≡ₚ D' -> view t B D A s -> view t B D' A s.
Proof.
  intros E [I0 Hl Hpl0 Hd Hpe Hb]. split; try done; [by rewrite <- E|intros p Hp; apply Hpe; by rewrite E|]. intros p. rewrite Hb. do 2 case_decide; try done; rewrite E in *; done.
Qed.

Lemma view_delayed t B D A s l : view t B D A s -> view t B D A (set_delayed l s).
Proof. intros [I0 Hl Hpl0 Hd Hpe Hb]. split; try done. eapply inv_same; try done. apply (in_mid _ _ I0). Qed.

(** ** Freeing *)

Lemma free_wp t B D A s p z : view t B D A s -> used A !! (p - 16) = Some z -> p ∉ D ->
  wp (cmpct_free p) (fun _ s' => delayed_free_list s' = delayed_free_list s /\ exists V, view t (delete p B) D V s') s.
Proof.
  intros Vi Hz Hp. pose proof Hz as (r & Ha & Ka & _)%used_spec. replace p with (p - 16 + 16) at 1 by lia. eapply wp_mono; [by eapply cmpct_free_wp; [apply Vi|apply Vi|done|]|].
  intros f s' Hf. destruct (view_freed t B D A s s' (p - 16) Vi ltac:(by replace (p - 16 + 16) with p by lia) Hf) as (V & Vi' & Q). replace (p - 16 + 16) with p in Vi' by lia.
  split; [apply Q|eauto].
Qed.

Lemma free_all_wp t B D A s : view t B D A s -> wp (free_all D) (fun _ s' => delayed_free_list s' = delayed_free_list s /\ exists V, view t B [] V s') s.
Proof.
  revert B A s. induction D as [|p D IH]; intros B A s Vi; cbn [free_all]; [wp_step; eauto|].
  destruct (vi_pending _ _ _ _ _ Vi p ltac:(by apply elem_of_cons; left)) as [z Hz]. apply view_undelay in Vi as (B' & -> & Vi & Hp).
  wp_step. eapply wp_mono; [by eapply free_wp|]. intros ? s1 (E & V & Vi'). eapply wp_mono; [by eapply IH|]. intros ? s2 (E2 & Hs). split; [congruence|done].
Qed.

(** The calls start with the blocks that wait. *)
Lemma free_pending_wp t B s : holds t B s -> wp free_pending (fun _ s' => delayed_free_list s' = [] /\ exists V, view t B [] V s') s.
Proof.
  intros [A Vi]. unfold free_pending, heap_free_delayed_list, when. wp_step. wp_step. case_bool_decide as E; cbn [negb]; [wp_step; rewrite E in Vi; eauto|].
  wp_step. wp_step. wp_step. wp_step. eapply wp_mono; [eapply free_all_wp, view_delayed, view_perm; [|exact Vi]; apply Permutation_rev|]. intros ? s' [-> Hv]. done.
Qed.

(** ** Allocating *)

(** How much of a request fits in the block: a large one may be 16 bytes short. *)
Definition room (n : Z) : Z := if n <=? 2 ^ 22 - 16 then n else n - 16.

(** [p] is a new block, or [NULL]. *)
Definition new_block t B (n p : Z) s : Prop := (p = 0 /\ exists V, view t B [] V s) \/
  (0 < p /\ (8 | p) /\ exists bs V, B !! p = None /\ room n <= Z.of_nat (length bs) /\ view t (<[p := bs]> B) [] V s).

Lemma gives_block t B A U s s' a n p : view t B [] A s -> inv U s' -> gives A a (room n + 16) U -> quiet (payload (used A)) s s' -> p = a + 16 -> new_block t B n p s'.
Proof.
  intros Vi I Hg Q ->. right. destruct (view_alloc _ _ _ _ _ _ _ _ _ Vi I Hg Q) as (bs & Hn & Hl & Vi'). destruct Hg as (q & Hq & Kq & _). pose proof (used_facts U a (ar_size q) ltac:(apply I) ltac:(apply used_spec; eauto)) as (? & H8 & _).
  split; [lia|]. split; [apply Z.divide_add_r; [done|by exists 2]|]. exists bs, U. split; [done|]. split; [lia|done].
Qed.

Lemma alloc_large n : 2 ^ 22 - 16 < n < 2 ^ 43 -> cmpct_alloc (P := P) n = large_alloc n.
Proof.
  intros Hn. unfold cmpct_alloc. rewrite (proj2 (Z.eqb_neq n 0)) by lia. change HEADER with 16. rewrite u64_small by lia.
  change (Z.shiftl 1 HEAP_ALLOC_VIRTUAL_BITS) with (2 ^ 22). by rewrite (proj2 (Z.ltb_lt _ _)) by lia.
Qed.

Lemma alloc_wp t B A s n : view t B [] A s -> 0 <= n < 2 ^ 43 -> (2 ^ 22 - 16 < n -> forall s', cmpct_alloc n s <> Done 0 s') ->
  wp (cmpct_alloc n) (fun p s' => delayed_free_list s' = delayed_free_list s /\ new_block t B n p s') s.
Proof.
  intros Vi Hn Hbig. destruct (decide (n = 0)) as [->|H0]; [unfold cmpct_alloc; change (0 =? 0) with true; cbv iota; wp_step; split; [done|left; eauto]|].
  destruct (Z.le_gt_cases n (2 ^ 22 - 16)) as [Hs|Hs].
  - eapply wp_mono; [apply (cmpct_alloc_wp A); [apply Vi|apply Vi|lia]|]. intros p s' (Q & [[-> I]|(a & U & -> & I & Hg & _)]); (split; [apply Q|]).
    + left. split; [done|]. exists A. eapply view_same; try done. apply Vi.
    + eapply gives_block; try done. unfold room. by rewrite (proj2 (Z.leb_le _ _)).
  - specialize (Hbig Hs). rewrite alloc_large in * by lia.
    pose proof (large_alloc_wp A s n ltac:(apply Vi) ltac:(apply Vi) ltac:(lia)) as Hw. apply wp_done in Hw as (p & s' & Er & Hp). apply wp_done. exists p, s'. split; [done|].
    destruct Hp as [(-> & _)|(v & U & -> & Hv & I & Hg & Q & _)]; [by apply Hbig in Er|]. split; [apply Q|]. eapply (gives_block t B A U s s' (v + 16)); try done; [|lia].
    unfold room. rewrite (proj2 (Z.leb_gt _ _)) by lia. by replace (n - 16 + 16) with n by lia.
Qed.

(** ** The calls *)

(** The last two are accesses of the program to a byte of a block. *)
Inductive call :=
  | CMalloc (size : Z)
  | CCalloc (count size : Z)
  | CMemalign (k size : Z)
  | CRealloc (ptr size : Z)
  | CFree (ptr : Z)
  | CDelayedFree (ptr : Z)
  | CTrim
  | CPeek (ptr i : Z)
  | CPoke (ptr i v : Z).

Definition run (c : call) : M (heap P) Z :=
  match c with
  | CMalloc n => malloc n
  | CCalloc c n => calloc c n
  | CMemalign k n => memalign (2 ^ k) n
  | CRealloc p n => realloc p n
  | CFree p => free p ;; ret 0
  | CDelayedFree p => heap_delayed_free p ;; ret 0
  | CTrim => heap_trim ;; ret 0
  | CPeek p i => ld8 (p + i)
  | CPoke p i v => st8 (p + i) v ;; ret 0
  end.

(** There is memory for a request of this size. *)
Definition avail (n : Z) s : Prop := forall s', malloc n s <> Done 0 s'.

(** What the callers have to keep to: the pointers are blocks of theirs; the calls that do not look at what
    [cmpct_alloc] returns are made when there is memory; large requests are for [malloc] alone; the heap is trimmed once. *)
Definition legal t B s (c : call) : Prop :=
  match c with
  | CMalloc n => 0 <= n < 2 ^ 43 /\ (2 ^ 22 - 16 < n -> avail n s)
  | CCalloc c n => 0 <= c /\ 0 <= n /\ c * n <= 2 ^ 22 - 16
  | CMemalign k n => 0 <= k /\ 0 < n /\ if k <? 3 then n <= 2 ^ 22 - 16 else n + 2 ^ k + 48 <= 2 ^ 22 - 16 /\ avail (n + 2 ^ k + 48) s
  | CRealloc p n => 0 <= n <= 2 ^ 22 - 16 /\ (p = 0 \/ is_Some (B !! p) /\ (0 < n -> avail n s))
  | CFree p => p = 0 \/ is_Some (B !! p)
  | CDelayedFree p => is_Some (B !! p)
  | CTrim => t = true
  | CPeek p i => exists bs, B !! p = Some bs /\ 0 <= i < Z.of_nat (length bs)
  | CPoke p i v => (exists bs, B !! p = Some bs /\ 0 <= i < Z.of_nat (length bs)) /\ 0 <= v < 256
  end.

Definition after t (c : call) : bool := match c with CTrim => false | _ => t end.

(** A block [bs] of at least [n] bytes at [p], which was not in use. *)
Definition fresh B (n p : Z) (bs : list Z) : Prop := 0 < p /\ (8 | p) /\ B !! p = None /\ n <= Z.of_nat (length bs).

(** What each call does to the store. *)
Definition spec B (c : call) (res : Z) B' : Prop :=
  match c with
  | CMalloc n => (res = 0 /\ B' = B) \/ exists bs, fresh B (room n) res bs /\ B' = <[res := bs]> B
  | CCalloc c n => (res = 0 /\ B' = B) \/ exists bs, fresh B (c * n) res bs /\ take (Z.to_nat (c * n)) bs = replicate (Z.to_nat (c * n)) 0 /\ B' = <[res := bs]> B
  | CMemalign k n => (k < 3 /\ res = 0 /\ B' = B) \/ exists bs, fresh B n res bs /\ (2 ^ k | res) /\ B' = <[res := bs]> B
  | CRealloc p n =>
      if p =? 0 then (res = 0 /\ B' = B) \/ exists bs, fresh B n res bs /\ B' = <[res := bs]> B
      else if n =? 0 then res = 0 /\ B' = delete p B
      else exists old bs, B !! p = Some old /\ fresh B n res bs /\ take (Z.to_nat n) old = take (Z.to_nat n `min` length old) bs /\ B' = delete p (<[res := bs]> B)
  | CFree p => res = 0 /\ B' = delete p B
  | CDelayedFree p => res = 0 /\ B' = delete p B
  | CTrim => res = 0 /\ B' = B
  | CPeek p i => B' = B /\ exists bs, B !! p = Some bs /\ bs !! Z.to_nat i = Some res
  | CPoke p i v => res = 0 /\ exists bs, B !! p = Some bs /\ B' = <[p := <[Z.to_nat i := v]> bs]> B
  end.

Definition simulates t B s (c : call) : Prop := wp (run c) (fun r s' => exists B', spec B c r B' /\ holds (after t c) B' s') s.

Lemma pending_wp {X} t B s (k : M (heap P) X) Q : holds t B s ->
  (forall s1 V, free_pending s = Done tt s1 -> delayed_free_list s1 = [] -> view t B [] V s1 -> wp k Q s1) -> wp (free_pending ;; k) Q s.
Proof.
  intros Hh Hk. pose proof (free_pending_wp t B s Hh) as Hw. apply wp_done in Hw as ([] & s1 & E & Hd & V & Vi). wp_step. apply wp_done. exists tt, s1. eauto.
Qed.

Lemma avail_after n s s1 : avail n s -> free_pending s = Done tt s1 -> forall s', cmpct_alloc n s1 <> Done 0 s'.
Proof. intros Ha E s' Hs. apply (Ha s'). unfold malloc, bind. by rewrite E. Qed.

Lemma new_block_holds t B n p s : delayed_free_list s = [] -> new_block t B n p s -> exists B', ((p = 0 /\ B' = B) \/ exists bs, fresh B (room n) p bs /\ B' = <[p := bs]> B) /\ holds t B' s.
Proof.
  intros Ed [(-> & V & Vi)|(Hp & H8 & bs & V & Hn & Hl & Vi)]; [exists B|exists (<[p := bs]> B)]; (split; [|exists V; by rewrite Ed]); [by left|right]. by exists bs.
Qed.

Lemma malloc_wp t B s n : holds t B s -> legal t B s (CMalloc n) -> wp (malloc n) (fun p s' => exists B', spec B (CMalloc n) p B' /\ holds t B' s') s.
Proof.
  intros Hh [Hn Ha]. unfold malloc. eapply pending_wp; [done|]. intros s1 V E Ed Vi. eapply wp_mono; [apply (alloc_wp t B V); [done|done|]|].
  - intros Hs. by eapply avail_after; [apply Ha|].
  - intros p s' [E1 Hb]. by apply new_block_holds; [congruence|].
Qed.

Lemma sim_malloc t B s n : holds t B s -> legal t B s (CMalloc n) -> simulates t B s (CMalloc n).
Proof. apply malloc_wp. Qed.

Lemma room_small n : n <= 2 ^ 22 - 16 -> room n = n.
Proof. intros Hn. unfold room. by rewrite (proj2 (Z.leb_le _ _)). Qed.

(** The bytes of a block can be reached. *)
Lemma view_reach t B D A s p z : view t B D A s -> used A !! (p - 16) = Some z -> reach s p (z - 16).
Proof. intros Vi Hz. replace p with (p - 16 + 16) at 1 by lia. eapply block_reach; [apply Vi|done]. Qed.

Lemma reach_le s p n m : reach s p n -> m <= n -> reach s p m.
Proof. intros Hr Hm x Hx. apply Hr. lia. Qed.

Lemma view_size t B D A s p z : view t B D A s -> used A !! (p - 16) = Some z -> 16 < p /\ (8 | p) /\ 16 <= z - 16 /\ p + z < 2 ^ 64 + 16.
Proof.
  intros Vi Hz. destruct (used_facts _ _ _ (view_geom _ _ _ _ _ Vi) Hz) as (H1 & H8 & _ & H2 & H3). split_and!; try lia.
  replace p with (p - 16 + 16) by lia. apply Z.divide_add_r; [done|by exists 2].
Qed.

Lemma take_contents m p n (k : nat) : Z.of_nat k <= n -> take k (contents m p n) = contents m p (Z.of_nat k).
Proof.
  intros Hk. apply list_eq. intros i. destruct (decide (i < k)%nat) as [Hi|Hi].
  - rewrite lookup_take_lt, !contents_lookup by lia. done.
  - rewrite lookup_take_ge, lookup_ge_None_2; [done| |lia]. pose proof (length_contents m p (Z.of_nat k) ltac:(lia)). lia.
Qed.

Lemma contents_const m p (n : nat) c : (forall x, p <= x < p + Z.of_nat n -> byte m x = c) -> contents m p (Z.of_nat n) = replicate n c.
Proof.
  intros Hx. apply list_eq. intros i. destruct (decide (i < n)%nat) as [Hi|Hi].
  - rewrite contents_lookup by lia. rewrite lookup_replicate_2 by lia. f_equal. apply Hx. lia.
  - rewrite !lookup_ge_None_2; [done|rewrite length_replicate; lia|]. pose proof (length_contents m p (Z.of_nat n) ltac:(lia)). lia.
Qed.

Lemma sim_calloc t B s c n : holds t B s -> legal t B s (CCalloc c n) -> simulates t B s (CCalloc c n).
Proof.
  intros Hh (Hc & Hn & Hm). unfold simulates. cbn [run]. unfold calloc, HEAP_CALLOC. eapply pending_wp; [done|]. intros s1 V E Ed Vi. rewrite u64_small by lia. cbv zeta. set (k := c * n) in *.
  wp_step. eapply wp_mono; [apply (alloc_wp t B V s1 k); [done|unfold k in *; lia|lia]|]. intros p s2 (E2 & [(-> & V2 & Vi2)|(Hp & H8 & bs & V2 & Hb & Hl & Vi2)]).
  { change (negb (0 =? 0)) with false. unfold when. wp_step. wp_step. wp_step. exists B. split; [by left|]. exists V2. by rewrite E2, Ed. }
  rewrite (proj2 (Z.eqb_neq p 0)) by lia. cbn [negb]. unfold when. rewrite room_small in Hl by done. destruct (view_block _ _ _ _ _ p bs Vi2 ltac:(by rewrite lookup_insert_eq)) as (_ & z & Hz & Ebs).
  pose proof (view_size _ _ _ _ _ _ _ Vi2 Hz) as (_ & _ & Hz16 & _). pose proof (length_contents (hp_mem s2) p (z - 16) ltac:(lia)) as Hlen. rewrite <- Ebs in Hlen.
  wp_step. apply memset_wp; [lia|eapply reach_le; [by eapply view_reach|lia]|]. intros m W Hm0. wp_step. exists (<[p := contents m p (z - 16)]> B).
  split; [right; exists (contents m p (z - 16))|exists V2].
  - split; [split_and!; try done; rewrite length_contents; lia|]. split; [|done]. rewrite take_contents by lia. by apply contents_const.
  - cbn [after]. change (delayed_free_list (on_mem _ s2)) with (delayed_free_list s2). rewrite E2, Ed. rewrite <- (insert_insert_eq B p _ bs). apply (view_write _ _ _ _ _ p z p (Z.of_nat (Z.to_nat k))); try done; [set_solver|lia].
Qed.

Lemma sim_memalign t B s k n : holds t B s -> legal t B s (CMemalign k n) -> simulates t B s (CMemalign k n).
Proof.
  intros Hh (Hk & Hn & Hm). unfold simulates. cbn [run]. unfold memalign. eapply pending_wp; [done|]. intros s1 V E Ed Vi. destruct (Z.ltb_spec k 3) as [Hk3|Hk3].
  - assert (2 ^ k < 8) as H8 by (change 8 with (2 ^ 3); apply Z.pow_lt_mono_r; lia). unfold cmpct_memalign. rewrite (proj2 (Z.ltb_lt _ _)) by done.
    eapply wp_mono; [apply (alloc_wp t B V); [done|lia|lia]|]. intros p s' [E1 Hb]. apply new_block_holds in Hb as (B' & Hs & Hh'); [|congruence]. exists B'. split; [|done].
    rewrite room_small in Hs by done. destruct Hs as [[-> ->]|(bs & Hf & ->)]; [by left|right]. exists bs. split; [done|]. split; [|done]. etrans; [|apply Hf]. change 8 with (2 ^ 3). apply pow2_divides. lia.
  - destruct Hm as [Hm Ha]. pose proof (Z.pow_pos_nonneg 2 k ltac:(lia) Hk) as Hpos.
    eapply wp_mono; [apply (cmpct_memalign_wp V s1 n k); [apply Vi|apply Vi|done|done|done|by eapply avail_after]|]. intros p s' (Hal & Q & h & U & Ep & I & Hg).
    assert (new_block t B n p s') as Hb by (eapply (gives_block t B V U s1 s' h); try done; by rewrite room_small by lia).
    destruct Hg as (q & Hq & Kq & _). pose proof (used_facts U h (ar_size q) ltac:(apply I) ltac:(apply used_spec; eauto)) as (? & _).
    apply new_block_holds in Hb as (B' & Hs & Hh'); [|by rewrite (qu_delayed _ _ _ Q)]. exists B'. split; [|done]. rewrite room_small in Hs by lia.
    destruct Hs as [[-> _]|(bs & Hf & ->)]; [lia|]. right. by exists bs.
Qed.

(** The size in the header of a block. *)
Lemma view_header t B D A s p z : view t B D A s -> used A !! (p - 16) = Some z -> usable s (p - 16 + 8) = true /\ word (hp_mem s) (p - 16 + 8) = z.
Proof.
  intros Vi (r & Ha & Ka & <-)%used_spec. destruct Vi as [[M Hh _] _ _ _ _ _]. pose proof (mid_header _ _ _ _ _ M Ha) as [_ ?]. by destruct (Hh _ _ Ha) as [_ ->].
Qed.

Lemma view_zero t B D A s : view t B D A s -> B !! 0 = None.
Proof.
  intros Vi. destruct (B !! 0) as [bs|] eqn:Eb; [|done]. apply (view_block _ _ _ _ _ _ _ Vi) in Eb as (_ & z & Hz & _). pose proof (view_size _ _ _ _ _ _ _ Vi Hz). lia.
Qed.

(** The copy of [cmpct_realloc] and the end of the old block. *)
Lemma copy_free_wp t B A s p q z y k : view t B [] A s -> used A !! (p - 16) = Some z -> used A !! (q - 16) = Some y -> p <> q -> 0 <= k <= z - 16 -> k <= y - 16 ->
  wp (memcpy q p (Z.to_nat k) ;; cmpct_free p ;; ret q) (fun r s' => r = q /\ delayed_free_list s' = delayed_free_list s /\
    exists m V, contents m q k = contents (hp_mem s) p k /\ view t (delete p (<[q := contents m q (y - 16)]> B)) [] V s') s.
Proof.
  intros Vi Hz Hy Hne Hk1 Hk2. pose proof (view_geom _ _ _ _ _ Vi) as G. pose proof (used_apart A _ _ _ _ G Hz Hy ltac:(lia)) as Hap. remember (Z.to_nat k) as n eqn:En. assert (k = Z.of_nat n) as -> by lia. clear En.
  wp_step. apply memcpy_wp; [eapply reach_le; [by eapply view_reach|lia]|eapply reach_le; [by eapply view_reach|lia]|lia|]. intros m W Hm.
  wp_step. eapply wp_mono; [eapply (free_wp t _ [] A _ p z); [apply (view_write t B [] A s q y q (Z.of_nat n)); try done; [set_solver|lia]|done|set_solver]|].
  intros ? s' (E & V & Vi'). wp_step. split; [done|]. split; [done|]. exists m, V. split; [|done]. apply list_eq. intros i. destruct (decide (i < n)%nat) as [Hi|Hi].
  - rewrite !contents_lookup by lia. f_equal. apply Hm. lia.
  - pose proof (length_contents m q (Z.of_nat n) ltac:(lia)). pose proof (length_contents (hp_mem s) p (Z.of_nat n) ltac:(lia)). rewrite !lookup_ge_None_2 by lia. done.
Qed.

Lemma sim_realloc t B s p n : holds t B s -> legal t B s (CRealloc p n) -> simulates t B s (CRealloc p n).
Proof.
  intros Hh (Hn & Hp). unfold simulates. cbn [run]. unfold realloc. eapply pending_wp; [done|]. intros s1 V E Ed Vi. unfold cmpct_realloc, spec. destruct (Z.eqb_spec p 0) as [->|Hp0].
  { eapply wp_mono; [apply (alloc_wp t B V); [done|lia|lia]|]. intros q s' [E1 Hb]. rewrite <- (room_small n) by lia. by apply new_block_holds; [congruence|]. }
  destruct Hp as [|([old Hold] & Ha)]; [done|]. destruct (view_block _ _ _ _ _ _ _ Vi Hold) as (_ & z & Hz & Eold). destruct (view_header _ _ _ _ _ _ _ Vi Hz) as [Hu Hw].
  pose proof (view_size _ _ _ _ _ _ _ Vi Hz) as (Hp16 & _ & Hz16 & Hz64). change HEADER with 16. wp_step. apply hdr_size_wp; [done|]. rewrite Hw, u64_small by lia.
  pose proof (length_contents (hp_mem s1) p (z - 16) ltac:(lia)) as Hlen. rewrite <- Eold in Hlen. wp_step. destruct (Z.eqb_spec n 0) as [->|Hn0].
  { unfold cmpct_alloc. change (0 =? 0) with true. cbv iota. wp_step. rewrite Z.min_l by lia. change (Z.to_nat 0) with 0%nat. cbn [memcpy]. wp_step. wp_step. wp_step.
    eapply wp_mono; [eapply free_wp; [done|done|set_solver]|]. intros ? s2 (E2 & V2 & Vi2). wp_step. exists (delete p B). split; [done|]. exists V2. by rewrite E2, Ed. }
  pose proof (alloc_wp t B V s1 n Vi ltac:(lia) ltac:(lia)) as Hal. apply wp_done in Hal as (q & s2 & Er & E2 & Hb). apply wp_done. exists q, s2. split; [done|].
  destruct Hb as [(-> & _)|(Hq & H8 & bs & V2 & Hbn & Hl & Vi2)]; [by apply (avail_after _ _ _ (Ha ltac:(lia)) E) in Er|]. assert (p <> q) as Hne by congruence. rewrite room_small in Hl by lia.
  destruct (view_block _ _ _ _ _ p old Vi2 ltac:(by rewrite lookup_insert_ne by done)) as (_ & z' & Hz' & Eold'). destruct (view_block _ _ _ _ _ q bs Vi2 ltac:(by rewrite lookup_insert_eq)) as (_ & y & Hy & Ebs).
  pose proof (view_size _ _ _ _ _ _ _ Vi2 Hy) as (_ & _ & Hy16 & _). pose proof (view_size _ _ _ _ _ _ _ Vi2 Hz') as (_ & _ & Hz16' & _).
  pose proof (length_contents (hp_mem s2) q (y - 16) ltac:(lia)) as Hlen2. rewrite <- Ebs in Hlen2. pose proof (length_contents (hp_mem s2) p (z' - 16) ltac:(lia)) as Hlen3. rewrite <- Eold' in Hlen3.
  eapply wp_mono; [apply (copy_free_wp t _ V2 s2 p q z' y (Z.min n (z - 16)) Vi2 Hz' Hy Hne); lia|]. intros r s3 (-> & E3 & m & V3 & Hc & Vi3). rewrite insert_insert_eq in Vi3.
  eexists. split; [|exists V3; cbn [after]; rewrite E3, E2, Ed; exact Vi3]. exists old, (contents m q (y - 16)). split; [done|]. split; [split_and!; try done; rewrite length_contents; lia|]. split; [|done].
  set (k := Z.min n (z - 16)) in *. replace (Z.to_nat n `min` length old)%nat with (Z.to_nat k) by lia. rewrite take_contents by lia.
  replace (take (Z.to_nat n) old) with (take (Z.to_nat k) old) by (destruct (Z.le_gt_cases n (z - 16)); [by replace k with n by lia|rewrite !take_ge by lia; done]).
  rewrite Eold', take_contents by lia. replace (Z.of_nat (Z.to_nat k)) with k by lia. done.
Qed.

Lemma sim_free t B s p : holds t B s -> legal t B s (CFree p) -> simulates t B s (CFree p).
Proof.
  intros [A Vi] Hp. unfold simulates. cbn [run]. unfold free. destruct Hp as [->|[bs Hp]].
  - unfold cmpct_free. change (0 =? 0) with true. cbv iota. wp_step. wp_step. wp_step. exists B. split; [|by exists A]. split; [done|]. symmetry. apply delete_id. by eapply view_zero.
  - destruct (view_block _ _ _ _ _ _ _ Vi Hp) as (HD & z & Hz & _). wp_step. eapply wp_mono; [by eapply free_wp|]. intros ? s' (E & V & Vi'). wp_step. exists (delete p B). split; [done|].
    exists V. by rewrite E.
Qed.

Lemma sim_delayed_free t B s p : holds t B s -> legal t B s (CDelayedFree p) -> simulates t B s (CDelayedFree p).
Proof.
  intros [A Vi] [bs Hp]. unfold simulates. cbn [run]. unfold heap_delayed_free. destruct (view_block _ _ _ _ _ _ _ Vi Hp) as (HD & z & Hz & _). wp_step. wp_step. wp_step.
  exists (delete p B). split; [done|]. exists A. cbn [after]. apply view_delayed, view_delay; [done|done|by exists z].
Qed.

Lemma sim_trim t B s : holds t B s -> legal t B s CTrim -> simulates t B s CTrim.
Proof.
  intros Hh ->. unfold simulates. cbn [run]. unfold heap_trim. wp_step. eapply pending_wp; [done|]. intros s1 V E Ed Vi.
  eapply wp_mono; [apply (cmpct_trim_wp V); [apply Vi|apply Vi|by apply plain_trimmable, Vi]|]. intros ? s2 (U & I & EU & _ & _ & Q). wp_step. exists B. split; [done|].
  exists U. rewrite (qu_delayed _ _ _ Q), Ed. by eapply (view_same true false).
Qed.

(** Where byte [i] of a block is. *)
Lemma view_byte t B D A s p bs i : view t B D A s -> B !! p = Some bs -> 0 <= i < Z.of_nat (length bs) ->
  usable s ((p + i) / 8 * 8) = true /\ bs !! Z.to_nat i = Some (byte (hp_mem s) (p + i)) /\
  p ∉ D /\ exists z, used A !! (p - 16) = Some z /\ bs = contents (hp_mem s) p (z - 16) /\ i < z - 16.
Proof.
  intros Vi Hp Hi. destruct (view_block _ _ _ _ _ _ _ Vi Hp) as (HD & z & Hz & Ebs). pose proof (view_size _ _ _ _ _ _ _ Vi Hz) as (_ & _ & Hz16 & _).
  pose proof (length_contents (hp_mem s) p (z - 16) ltac:(lia)) as Hl. rewrite <- Ebs in Hl. split; [eapply view_reach; [done|done|lia]|]. split; [|split; [done|exists z; split_and!; [done..|lia]]].
  rewrite Ebs, contents_lookup by lia. do 2 f_equal. lia.
Qed.

Lemma sim_peek t B s p i : holds t B s -> legal t B s (CPeek p i) -> simulates t B s (CPeek p i).
Proof.
  intros [A Vi] (bs & Hp & Hi). destruct (view_byte _ _ _ _ _ _ _ _ Vi Hp Hi) as (Hu & Hb & _). unfold simulates. cbn [run]. apply ld8_wp; [done|]. exists B. split; [|by exists A]. split; [done|]. eauto.
Qed.

Lemma put_byte_writes x v m : 0 <= v < 256 -> writes x 1 m (put_byte x v m).
Proof. intros Hv. apply (writes_cons x 0 v); [lia|done|apply writes_nil]. Qed.

Lemma sim_poke t B s p i v : holds t B s -> legal t B s (CPoke p i v) -> simulates t B s (CPoke p i v).
Proof.
  intros [A Vi] [(bs & Hp & Hi) Hv]. destruct (view_byte _ _ _ _ _ _ _ _ Vi Hp Hi) as (Hu & Hb & HD & z & Hz & Ebs & Hiz). unfold simulates. cbn [run]. wp_step. apply st8_wp; [done|]. wp_step.
  exists (<[p := <[Z.to_nat i := v]> bs]> B). split; [split; [done|]; by exists bs|]. exists A. cbn [after].
  rewrite Ebs, <- (contents_put _ p (z - 16) (Z.to_nat i) v) by lia. replace (p + Z.of_nat (Z.to_nat i)) with (p + i) by lia.
  apply (view_write t B _ A s p z (p + i) 1); [done|done|done|lia|lia|by apply put_byte_writes].
Qed.

Lemma step_holds t B s c : holds t B s -> legal t B s c -> simulates t B s c.
Proof.
  destruct c; [apply sim_malloc|apply sim_calloc|apply sim_memalign|apply sim_realloc|apply sim_free|apply sim_delayed_free|apply sim_trim|apply sim_peek|apply sim_poke].
Qed.

(** ** The start *)

Definition boot (p : P) : heap P := Heap p ∅ ∅ 0 0 false [] [] [].

Lemma lists_empty s : free_lists s = replicate 136 0 -> free_list_bits s = replicate 5 0 -> hp_remaining s = 0 -> lists ∅ (fun _ => []) s.
Proof.
  intros E1 E2 E3. split; rewrite ?E1, ?E2, ?E3; try done.
  - intros i Hi. by apply lookup_replicate_2; lia.
  - split; [done|]. intros i Hi. exists 0. assert (0 <= i / 32 < 5) by (split; [apply Z.div_pos|apply Z.div_lt_upper_bound]; lia). split; [by apply lookup_replicate_2; lia|]. by rewrite Z.bits_0.
  - intros i. constructor.
  - intros i a. split; [set_solver|]. intros (z & Hz & _). by rewrite lookup_empty in Hz.
Qed.

Lemma inv_empty s : free_lists s = replicate 136 0 -> free_list_bits s = replicate 5 0 -> hp_remaining s = 0 -> hp_size s = 0 -> hp_mapped s = ∅ -> pg_holds (hp_pages s) ∅ -> inv ∅ s.
Proof.
  intros E1 E2 E3 E4 E5 Hp. assert (geom ∅) as G by (split; intros a *; by rewrite lookup_empty). split; [|by intros a r; rewrite lookup_empty..].
  assert (frees ∅ = ∅) as -> by done. split; rewrite ?E5; try done. exists (fun _ => []). by apply lists_empty.
Qed.

(** [heap_init] sets up an empty store. *)
Lemma heap_init_wp p : pg_holds p ∅ -> wp heap_init (fun _ s => holds true ∅ s) (boot p).
Proof.
  intros Hp. unfold heap_init, cmpct_init. do 8 wp_step. set (s := on_remaining _ _). assert (inv ∅ s) as I by by apply inv_empty. wp_step.
  assert (forall U s', inv U s' -> used U = ∅ -> plain U -> quiet (payload (used ∅)) s s' -> holds true ∅ s') as Hd.
  { intros U s' I' EU Hpl Q. exists U. rewrite (qu_delayed _ _ _ Q). split; try done; [by rewrite (qu_locked _ _ _ Q)|by constructor|intros q Hq; by apply elem_of_nil in Hq|]. intros q. by rewrite EU, !lookup_empty. }
  assert (plain ∅) as Hpe by (intros a r; by rewrite lookup_empty).
  eapply wp_mono; [apply (heap_grow_wp ∅ s); [done|change (HEAP_GROW_SIZE - 2 * HEADER) with 262112; lia]|].
  intros g s' [(_ & I' & Q)|(_ & v & T & _ & _ & _ & _ & I' & EU & Hpl & Q)]; wp_step; eapply Hd; try done. by apply Hpl.
Qed.

(** ** What is promised to the callers *)

(** The blocks of the store with their headers do not overlap, are aligned, and have room for the node of the delayed list. *)
Definition store_ok B : Prop := forall p bs, B !! p = Some bs -> 0 < p /\ (8 | p) /\ 16 <= Z.of_nat (length bs) /\
  forall q cs, B !! q = Some cs -> p <> q -> p + Z.of_nat (length bs) + 16 <= q \/ q + Z.of_nat (length cs) + 16 <= p.

Lemma holds_ok t B s : holds t B s -> store_ok B.
Proof.
  intros [A Vi] p bs Hp. destruct (view_block _ _ _ _ _ _ _ Vi Hp) as (_ & z & Hz & ->). pose proof (view_size _ _ _ _ _ _ _ Vi Hz) as (? & ? & ? & _). rewrite length_contents by lia. split_and!; [lia|done|done|].
  intros q cs Hq Hne. destruct (view_block _ _ _ _ _ _ _ Vi Hq) as (_ & y & Hy & ->). pose proof (view_size _ _ _ _ _ _ _ Vi Hy) as (_ & _ & ? & _). rewrite length_contents by lia.
  pose proof (used_apart A _ _ _ _ (view_geom _ _ _ _ _ Vi) Hz Hy ltac:(lia)). lia.
Qed.

(** [n] calls can be made: each one that is legal in the store so far returns, with what the store says. *)
Fixpoint serves (n : nat) t B s : Prop :=
  store_ok B /\
  match n with
  | O => True
  | S n => forall c, legal t B s c -> exists r s' B', run c s = Done r s' /\ spec B c r B' /\ serves n (after t c) B' s'
  end.

Lemma holds_serves n t B s : holds t B s -> serves n t B s.
Proof.
  revert t B s. induction n as [|n IH]; intros t B s Hh; (split; [by eapply holds_ok|done || idtac]). intros c Hc. pose proof (step_holds _ _ _ _ Hh Hc) as Hw.
  apply wp_done in Hw as (r & s' & E & B' & Hs & Hh'). exists r, s', B'. auto.
Qed.
End calls.
