(* ===== verification/HeapPages.v ===== *)
(** * The pages of the heap

    [lib/heap/page_alloc.c] over [vm/pmm.c]: the page allocator keeps what the heap relies on, so the
    theorems about the heap hold of the kernel's.  The kernel maps its memory linearly, and what it maps is less than the
    4,000,000,000 bytes that [cmpct_free] asserts. *)

From stdpp Require Import base gmap list numbers.
From S2P Require Import Prelude Pow2 Align ListNode Heap HeapIndex HeapLists HeapGeom HeapSpec HeapCalls Pmm PmmSpec Vm.
Import Family.

Section pages.
Context (p2v v2p : Z -> Z) (ls : nat).
Implicit Types (s : pmm) (a b : pmm_arena) (id : nat) (p v : Z) (X : gset Z).

(** The one range there is, as address and size, and the number of ranges. *)
Definition page_get_arenas (maps : list mmu_initial_mapping) : option (Z * (Z * Z)) :=
  (fun '(size, address) => (1, (address, size))) <$> kvaddr_get_range maps.

(** [pmm_free_kpages] has a list of its own. *)
Definition kernel_pages : PageOps pmm := {|
  pg_alloc := fun n => pmm_alloc_kpages p2v n None;
  pg_free := fun v n => pmm_free_kpages v2p ls v n ;; ret tt |}.

(** An arena that is mapped at a distance, and small enough. *)
Definition linear a : Prop := a_base a + a_size a <= 4000000000 /\ exists off, (4096 | off) /\
  forall pa, inside a pa -> p2v pa = pa + off /\ v2p (pa + off) = pa /\ 0 < pa + off /\ pa + off + 4096 < 2 ^ 64.

Definition kmapped s : Prop := forall id a, arenas s !! id = Some a -> skip_arena PMM_ALLOC_FLAG_KMAP a = false -> linear a.

(** The page structure of the page at [v]. *)
Definition frame s v p : Prop := exists id a c, arenas s !! id = Some a /\ skip_arena PMM_ALLOC_FLAG_KMAP a = false /\
  0 <= c < page_count a /\ v = p2v (a_base a + c * 4096) /\ p = page_at a c.

Record kheld s X : Prop := {
  kh_pinv : pinv s;
  kh_apart : mem_apart s;
  kh_mine : fq (plists s) (CallerList ls) = [];
  kh_map : kmapped s;
  kh_pages : forall k, k ∈ X -> exists p, frame s (k * 4096) p /\ pages s !! p = Some VM_PAGE_STATE_ALLOC /\ in_list p (plists s) = false }.

Lemma arena_inside s id a c : pinv s -> arenas s !! id = Some a -> 0 <= c < page_count a -> inside a (a_base a + c * 4096) /\ (4096 | a_base a) /\ 0 <= a_base a.
Proof.
  intros Hi Ha Hc. pose proof (pi_arena s Hi id a Ha) as Hok. destruct (arena_end _ a Hok) as [Es _]. unfold inside. split; [lia|]. split; apply Hok.
Qed.

Lemma frame_facts s v p : pinv s -> kmapped s -> frame s v p -> exists id a c, arenas s !! id = Some a /\ 0 <= c < page_count a /\ p = page_at a c /\
  v2p v = a_base a + c * 4096 /\ a_base a + c * 4096 + 4096 <= 4000000000 /\ 0 <= a_base a + c * 4096 /\ 0 < v /\ (4096 | v) /\ v + 4096 < 2 ^ 64.
Proof.
  intros Hi Hm (id & a & c & Ha & Hk & Hc & -> & ->). destruct (arena_inside s id a c Hi Ha Hc) as (Hin & Hb & Hb0). destruct (arena_end _ a (pi_arena s Hi id a Ha)) as [Es _]. destruct (Hm id a Ha Hk) as (Hsz & off & Ho & Hl). destruct (Hl _ Hin) as (-> & E & H0 & H64).
  exists id, a, c. unfold inside in Hin. split_and!; try done; try lia. apply Z.divide_add_r; [|done]. apply Z.divide_add_r; [done|by exists c].
Qed.

(** A page structure belongs to one page. *)
Lemma frame_inj s v v' p : pinv s -> frame s v p -> frame s v' p -> v = v'.
Proof.
  intros Hi (id & a & c & Ha & _ & Hc & -> & ->) (id' & b & d & Hb & _ & Hd & -> & E).
  assert (id = id') as <- by (apply (owner_unique s id id' a b (page_at a c)); [done|done|done|by exists c|by exists d]). rewrite Ha in Hb. injection Hb as <-. apply page_at_inj in E as ->. done.
Qed.

(** The arenas stay as they are but for the number of free pages. *)
Definition alike s s' : Prop := forall id, set_free_count 0 <$> arenas s' !! id = set_free_count 0 <$> arenas s !! id.

Lemma alike_lookup s s' id a : alike s s' -> arenas s' !! id = Some a -> exists b, arenas s !! id = Some b /\ a_flags b = a_flags a /\ a_base b = a_base a /\ a_size b = a_size a /\ a_page_array b = a_page_array a.
Proof.
  intros E Ha. specialize (E id). rewrite Ha in E. symmetry in E. apply fmap_Some in E as (b & Hb & E). exists b. injection E as E1 _ E2 E3 E4. done.
Qed.

Lemma alike_sym s s' : alike s s' -> alike s' s.
Proof. intros E id. by rewrite E. Qed.

Lemma kmapped_alike s s' : alike s s' -> kmapped s -> kmapped s'.
Proof.
  intros E Hm id a Ha Hk. destruct (alike_lookup s s' id a E Ha) as (b & Hb & E1 & E2 & E3 & E4). unfold linear, inside. rewrite <- E2, <- E3. apply (Hm id b Hb). unfold skip_arena in *. by rewrite E1.
Qed.

Lemma apart_alike s s' : alike s s' -> mem_apart s -> mem_apart s'.
Proof.
  intros E Hm id1 id2 a b x Ha Hb Ia Ib. destruct (alike_lookup _ _ _ _ E Ha) as (a' & Ha' & _ & E1 & E2 & _). destruct (alike_lookup _ _ _ _ E Hb) as (b' & Hb' & _ & E3 & E4 & _).
  unfold inside in *. apply (Hm id1 id2 a' b' x); try done; unfold inside; lia.
Qed.

Lemma frame_alike s s' v p : alike s s' -> frame s v p -> frame s' v p.
Proof.
  intros E (id & a & c & Ha & Hk & Hc & Ev & Ep). destruct (alike_lookup s' s id a (alike_sym _ _ E) Ha) as (b & Hb & E1 & E2 & E3 & E4). exists id, b, c.
  unfold page_count, page_at, skip_arena in *. rewrite E1, E2, E3, E4. done.
Qed.

Lemma frame_arenas s s' v p : arenas s' = arenas s -> frame s v p <-> frame s' v p.
Proof. intros E. unfold frame. by rewrite E. Qed.

Lemma frame_unique s v p q : pinv s -> mem_apart s -> kmapped s -> frame s v p -> frame s v q -> p = q.
Proof.
  intros Hi Hm Hk Hp Hq. destruct (frame_facts s v p Hi Hk Hp) as (id & a & c & Ha & Hc & -> & E & _). destruct (frame_facts s v q Hi Hk Hq) as (id' & b & d & Hb & Hd & -> & E' & _).
  rewrite E in E'. assert (id = id') as <-.
  { apply (Hm id id' a b (a_base a + c * 4096)); [done|done|by eapply arena_inside|]. rewrite E'. by eapply arena_inside. }
  rewrite Ha in Hb. injection Hb as <-. f_equal. lia.
Qed.

(** [pmm_free_kpages] collects the structures of the pages, whatever arenas they are in. *)
Lemma link_frames_wp n : forall s v, pinv s -> mem_apart s -> kmapped s ->
  (forall i, 0 <= i < Z.of_nat n -> exists p, frame s (v + i * 4096) p /\ pages s !! p = Some VM_PAGE_STATE_ALLOC /\ in_list p (plists s) = false) ->
  wp (link_kpages v2p ls v n) (fun _ s' => pinv s' /\ exists F ps, s' = set_plists F s /\ fq F (CallerList ls) = fq (plists s) (CallerList ls) ++ ps /\
    (forall l, l <> ls -> fq F (CallerList l) = fq (plists s) (CallerList l)) /\ forall p, p ∈ ps <-> exists i, 0 <= i < Z.of_nat n /\ frame s (v + i * 4096) p) s.
Proof.
  induction n as [|n IH]; intros s v Hi Hm Hk Hv; cbn [link_kpages].
  { wp_step. split; [done|]. exists (plists s), []. rewrite app_nil_r. split; [by destruct s|]. split_and!; try done. intros p. split; [set_solver|]. intros (i & ? & _). lia. }
  destruct (Hv 0 ltac:(lia)) as (p & Hf & Hst & Hnl). rewrite Z.add_0_r in Hf. destruct (frame_facts s v p Hi Hk Hf) as (id & a & c & Ha & Hc & Ep & E & _ & _ & H0 & _ & H64).
  wp_step. rewrite E. eapply wp_mono; [by apply (paddr_to_vm_page_wp s id a); try done; eapply arena_inside|]. intros r s' [-> ->].
  assert (page_of a (a_base a + c * 4096) = p) as ->. { rewrite Ep. unfold page_of. f_equal. replace (a_base a + c * 4096 - a_base a) with (c * 4096) by lia. apply Z.div_mul. lia. }
  wp_step. apply link_tail_wp; [done|]. set (s1 := set_plists _ s). assert (pinv s1) as Hi1 by (apply (pinv_link_tail s ls id a p VM_PAGE_STATE_ALLOC); try done; by exists c).
  change PAGE_SIZE with 4096. rewrite u64_small by lia. eapply wp_mono; [apply (IH s1 (v + 4096)); try done|].
  - intros i Hi'. destruct (Hv (i + 1) ltac:(lia)) as (q & Hq & Hsq & Hnq). replace (v + (i + 1) * 4096) with (v + 4096 + i * 4096) in Hq by lia. exists q. split_and!; try done.
    cbn. rewrite in_list_add_tail, bool_decide_false; [done|]. intros ->. pose proof (frame_inj s _ _ _ Hi Hf Hq). lia.
  - intros _ s' (Hi' & F & ps & -> & EF & EL & Hps). split; [done|]. exists F, (p :: ps). split; [done|]. split; [|split].
    + rewrite EF. cbn. by rewrite fq_add_tail, decide_True, <- app_assoc.
    + intros l Hl. rewrite EL by done. cbn. rewrite fq_add_tail, decide_False; [done|congruence].
    + intros q. rewrite elem_of_cons, Hps. split.
      * intros [->|(i & Hi0 & Hf')]; [exists 0; split; [lia|by rewrite Z.add_0_r]|]. exists (i + 1). split; [lia|]. by replace (v + (i + 1) * 4096) with (v + 4096 + i * 4096) by lia.
      * intros (i & Hi0 & Hf'). destruct (decide (i = 0)) as [->|Hne]; [left; rewrite Z.add_0_r in Hf'; by eapply frame_unique|]. right. exists (i - 1). split; [lia|].
        by replace (v + 4096 + (i - 1) * 4096) with (v + i * 4096) by lia.
Qed.

Lemma elem_of_pages_of v n k : (4096 | v) -> k ∈ pages_of v n <-> v / 4096 <= k < v / 4096 + n.
Proof. intros [j ->]. unfold pages_of. rewrite elem_of_list_to_set, elem_of_seqZ. done. Qed.

(** ** The promises *)

Lemma frame_in_array s v p : frame s v p -> exists id a, arenas s !! id = Some a /\ in_array a p.
Proof. intros (id & a & c & Ha & _ & Hc & _ & ->). exists id, a. split; [done|]. by exists c. Qed.

(** A page in use is on no list of free pages. *)
Lemma unlisted s p : pinv s -> pages s !! p = Some VM_PAGE_STATE_ALLOC -> (forall l, p ∉ fq (plists s) (CallerList l)) -> in_list p (plists s) = false.
Proof. intros Hi Hp Hl. apply in_list_false. intros [id|l]; [|apply Hl]. intros (a & _ & _ & E)%(pi_free s Hi). congruence. Qed.

Lemma pages_bound s X : kheld s X -> 4096 * Z.of_nat (size X) < 4000000000.
Proof.
  intros [Hi Hm _ Hk Hp]. assert (Z.of_nat (size X) <= 976562) as Hs; [|lia].
  assert (forall k, k ∈ X -> exists j, v2p (k * 4096) = j * 4096 /\ 0 <= j < 976562) as Hj.
  { intros k Hx. destruct (Hp k Hx) as (p & Hf & _). destruct (frame_facts s _ p Hi Hk Hf) as (id & a & c & Ha & Hc & _ & E & H1 & H2 & _).
    destruct (arena_inside s id a c Hi Ha Hc) as (_ & [d Ed] & _). exists (d + c). rewrite E. split; lia. }
  pose (f := fun k => v2p (k * 4096) / 4096). assert (forall k, k ∈ X -> 0 <= f k < 976562) as Hr. { intros k Hx. destruct (Hj k Hx) as (j & E & Hb). unfold f. rewrite E, Z.div_mul by lia. done. }
  assert (NoDup (f <$> elements X)) as Hn.
  { apply NoDup_fmap_2_strong; [|apply NoDup_elements]. intros k1 k2 H1%elem_of_elements H2%elem_of_elements Ef. destruct (Hj k1 H1) as (j1 & E1 & _). destruct (Hj k2 H2) as (j2 & E2 & _).
    unfold f in Ef. rewrite E1, E2, !Z.div_mul in Ef by lia. subst j2. rewrite <- E2 in E1. destruct (Hp k1 H1) as (p1 & (id1 & a1 & c1 & A1 & K1 & C1 & V1 & _) & _). destruct (Hp k2 H2) as (p2 & (id2 & a2 & c2 & A2 & K2 & C2 & V2 & _) & _).
    destruct (Hk _ _ A1 K1) as (_ & o1 & _ & L1). destruct (Hk _ _ A2 K2) as (_ & o2 & _ & L2). destruct (L1 _ (proj1 (arena_inside s _ _ _ Hi A1 C1))) as (P1 & Q1 & _). destruct (L2 _ (proj1 (arena_inside s _ _ _ Hi A2 C2))) as (P2 & Q2 & _).
    rewrite V1, V2, P1, P2, Q1, Q2 in E1. rewrite E1 in V1. lia. }
  pose proof (nodup_range (f <$> elements X) 976562 ltac:(lia) Hn) as Hlen. unfold size, set_size. cbn. rewrite length_fmap in Hlen. apply Hlen.
  intros y (k & -> & Hx%elem_of_elements)%list_elem_of_fmap. by apply Hr.
Qed.

(** The pages of a run are at successive addresses. *)
Lemma run_frames s id a c n : pinv s -> kmapped s -> arenas s !! id = Some a -> skip_arena PMM_ALLOC_FLAG_KMAP a = false -> 0 <= c -> 0 < n -> c + n <= page_count a ->
  let v := p2v (a_base a + c * 4096) in 0 < v /\ (4096 | v) /\ v + 4096 * n < 2 ^ 64 /\ forall i, 0 <= i < n -> frame s (v + i * 4096) (page_at a (c + i)).
Proof.
  intros Hi Hm Ha Hk Hc Hn Hcn v. assert (forall i, 0 <= i < n -> p2v (a_base a + (c + i) * 4096) = v + i * 4096) as Hv.
  { intros i Hi'. destruct (Hm id a Ha Hk) as (_ & off & _ & Hl). unfold v. destruct (Hl _ (proj1 (arena_inside s id a c Hi Ha ltac:(lia)))) as (-> & _). destruct (Hl _ (proj1 (arena_inside s id a (c + i) Hi Ha ltac:(lia)))) as (-> & _). lia. }
  assert (forall i, 0 <= i < n -> frame s (v + i * 4096) (page_at a (c + i))) as Hf by (intros i Hi'; exists id, a, (c + i); split_and!; try done; try lia; by rewrite Hv).
  destruct (frame_facts s _ _ Hi Hm (Hf 0 ltac:(lia))) as (_ & _ & _ & _ & _ & _ & _ & _ & _ & H0 & H4 & _). destruct (frame_facts s _ _ Hi Hm (Hf (n - 1) ltac:(lia))) as (_ & _ & _ & _ & _ & _ & _ & _ & _ & _ & _ & H64).
  rewrite Z.add_0_r in *. split_and!; [done|done|lia|done].
Qed.

Lemma kpages_alloc_wp s X n : kheld s X -> 0 < n < 2 ^ 32 -> wp (pmm_alloc_kpages p2v n None) (fun v s' => (v = 0 /\ kheld s' X) \/
  (0 < v /\ (4096 | v) /\ v + 4096 * n < 2 ^ 64 /\ pages_of v n ## X /\ kheld s' (pages_of v n ∪ X))) s.
Proof.
  intros K Hn. pose proof K as [Hi Hm Hls Hk Hp]. eapply wp_mono; [by apply pmm_alloc_kpages_wp|]. intros v s' [(-> & ->)|(id & a & c & Ha & Hsk & Hc & Hcn & Hr & -> & ->)]; [by left|right].
  destruct (run_frames s id a c n Hi Hk Ha Hsk Hc ltac:(lia) Hcn) as (H0 & H4 & H64 & Hf). set (v := p2v _) in *. set (ips := pair id <$> _).
  assert (takeable s ips) as Ht by (apply run_takeable; [done..| |]; by rewrite Z2Nat.id by lia). pose proof H4 as [j Ej]. assert (v / 4096 = j) as Ej' by (rewrite Ej; apply Z.div_mul; lia).
  assert (forall p, p ∈ ips.*2 <-> exists i, 0 <= i < n /\ p = page_at a (c + i)) as Hin.
  { intros p. unfold ips. rewrite run_snd, elem_of_run_pages. split; [intros (i & ? & ->); exists (i - c); split; [lia|f_equal; lia]|intros (i & ? & ->); exists (c + i); split; [lia|done]]. }
  assert (alike s (grabs None ips s)) as El by (intros id'; apply grabs_arenas). assert (pinv (grabs None ips s)) as Hi' by by apply grabs_pinv.
  split_and!; try done.
  - intros k Hk1%elem_of_pages_of Hk2; [|done]. rewrite Ej' in Hk1. destruct (Hp k Hk2) as (p & Hfp & Hst & _). pose proof (Hf (k - j) ltac:(lia)) as Hf'. replace (v + (k - j) * 4096) with (k * 4096) in Hf' by lia.
    rewrite (frame_unique s _ _ _ Hi Hm Hk Hfp Hf'), (Hr (c + (k - j)) ltac:(lia)) in Hst. done.
  - split; try done; [by apply (apart_alike s)|by rewrite grabs_caller, Hls|by apply (kmapped_alike s)|]. intros k [Hk1|Hk2]%elem_of_union.
    + apply elem_of_pages_of in Hk1; [|done]. rewrite Ej' in Hk1. exists (page_at a (c + (k - j))). assert (page_at a (c + (k - j)) ∈ ips.*2) as Hx by (apply Hin; exists (k - j); split; [lia|done]). split_and!.
      * apply (frame_alike s); [done|]. replace (k * 4096) with (v + (k - j) * 4096) by lia. apply Hf. lia.
      * by rewrite grabs_pages, decide_True.
      * by apply grabs_unlinked.
    + destruct (Hp k Hk2) as (p & Hfp & Hst & Hnl). exists p. assert (pages (grabs None ips s) !! p = Some VM_PAGE_STATE_ALLOC) as Hst' by (rewrite grabs_pages; by case_decide). split; [by apply (frame_alike s)|]. split; [done|].
      apply unlisted; [done|done|]. intros l. rewrite grabs_caller, decide_False, app_nil_r by done. by apply in_list_false.
Qed.

Lemma kpages_free_wp s X v n : kheld s X -> 0 < n < 2 ^ 32 -> (4096 | v) -> pages_of v n ⊆ X -> wp (pmm_free_kpages v2p ls v n ;; ret tt) (fun _ s' => kheld s' (X ∖ pages_of v n)) s.
Proof.
  intros K Hn H4 Hsub. pose proof K as [Hi Hm Hls Hk Hp]. unfold pmm_free_kpages, list_initialize. wp_step. do 2 wp_step. set (s1 := set_plists _ s). pose proof H4 as [j Ej]. assert (v / 4096 = j) as Ej' by (rewrite Ej; apply Z.div_mul; lia).
  assert (pinv s1) as Hi1 by by apply pinv_initialize. assert (forall p, in_list p (plists s1) = in_list p (plists s)) as Hil by (intros p; by apply in_list_initialize).
  assert (forall i, 0 <= i < n -> exists p, frame s1 (v + i * 4096) p /\ pages s1 !! p = Some VM_PAGE_STATE_ALLOC /\ in_list p (plists s1) = false) as Hv.
  { intros i Hi'. destruct (Hp (j + i)) as (p & Hf & Hst & Hnl); [apply Hsub, elem_of_pages_of; [done|lia]|]. replace ((j + i) * 4096) with (v + i * 4096) in Hf by lia. exists p. by rewrite Hil. }
  wp_step. eapply wp_mono; [apply (link_frames_wp (Z.to_nat n) s1 v); try done; by rewrite Z2Nat.id by lia|]. intros _ s2 (Hi2 & F & ps & -> & EF & EL & Hps). rewrite Z2Nat.id in Hps by lia.
  eapply wp_mono; [by apply pmm_free_wp|]. intros r s3 (ips & E & Hr & -> & _). wp_step. cbn [plists set_plists] in E. rewrite EF in E. cbn in E. rewrite fq_insert, decide_True in E by done. cbn in E.
  set (s2 := set_plists F s1) in *. assert (alike s (gives ips s2)) as El by (intros id'; by rewrite gives_arenas). assert (pinv (gives ips s2)) as Hi3 by by apply gives_pinv.
  assert (forall l, fq (plists s2) (CallerList l) = if decide (l = ls) then ps else fq (plists s) (CallerList l)) as Hfq.
  { intros l. cbn. case_decide as El'; [subst l; rewrite EF; cbn; by rewrite fq_insert, decide_True|]. rewrite EL by done. cbn. by rewrite fq_insert, decide_False by congruence. }
  split; try done; [by apply (apart_alike s)| |by apply (kmapped_alike s)|].
  - rewrite gives_caller, Hfq, decide_True, E by done. apply filter_none. intros p Hin Hn'. done.
  - intros k [Hx Hnx]%elem_of_difference. destruct (Hp k Hx) as (p & Hf & Hst & Hnl). exists p. assert (p ∉ ps) as Hnp.
    { intros (i & Hi' & Hf')%Hps. pose proof (frame_inj s _ _ _ Hi Hf Hf'). apply Hnx, elem_of_pages_of; [done|]. rewrite Ej'. lia. }
    assert (pages (gives ips s2) !! p = Some VM_PAGE_STATE_ALLOC) as Hst' by (by rewrite gives_pages, E, decide_False by done). split; [by apply (frame_alike s)|]. split; [done|]. apply unlisted; [done|done|].
    intros l. rewrite gives_caller, Hfq, list_elem_of_filter. intros [_ Hin]. case_decide; [done|]. revert Hin. by apply in_list_false.
Qed.

Definition kernel_page_laws : @PageLaws pmm kernel_pages :=
  @Build_PageLaws pmm kernel_pages kheld pages_bound kpages_alloc_wp kpages_free_wp.
End pages.
