(* ===== verification/HeapTheorems.v ===== *)
(** * The theorems about the heap

    What the heap promises the kernel, from the buckets up to the calls over the page allocator; where it does not keep what its callers
    may expect; and a machine with 70 pages on which it runs. *)

From stdpp Require Import base gmap list numbers.
From S2P Require Import Prelude Pow2 Align ListNode Pmm PmmSpec Heap HeapIndex HeapLists HeapGeom HeapSpec HeapFree HeapTrim HeapBytes HeapCalls HeapPages.

Section theorems.
Context {P : Type} {PO : PageOps P} {PL : PageLaws P}.
Implicit Types (s : heap P) (A V U : areas) (a b x : Z).

(** The buckets are exact: the size that is taken for a request of [n] bytes is enough for it, and a free area of [p] bytes is large
    enough for it exactly when its bucket is not before the bucket the search starts in. *)
Theorem buckets_fit n p s (Hn : 0 < n <= 2 ^ 22 - 16) (Hp : 16 <= p <= BIG - 16) :
  exists i z k, size_to_index_allocating n s = Done (i, z) s /\ size_to_index_freeing p s = Done k s /\
    n <= z <= 2 ^ 22 /\ (8 | z) /\ 0 <= i < NUMBER_OF_BUCKETS /\ 0 <= k < NUMBER_OF_BUCKETS /\ (i <= k <-> z <= p).
Proof.
  rewrite size_to_index_allocating_eq, size_to_index_freeing_eq by lia. exists (alloc_bucket n), (alloc_size n), (bucket_of p). destruct (alloc_size_spec n Hn) as (H8 & Hz & _).
  split; [done|]. split; [done|]. split; [done|]. split; [done|]. split; [by apply alloc_bucket_range|]. split; [apply bucket_of_range; lia|]. apply alloc_bucket_fits; lia.
Qed.

(** The search in the words of bits finds the first list at or after [index] that is not empty, and -1 when there is none. *)
Theorem find_nonempty_bucket_least Fr F index s (L : lists Fr F s) (Hi : 0 <= index < NUMBER_OF_BUCKETS) :
  wp (find_nonempty_bucket index) (fun r s' => s' = s /\
    ((r = -1 /\ forall i, index <= i < NUMBER_OF_BUCKETS -> F i = []) \/
     (index <= r /\ F r <> [] /\ forall i, index <= i < r -> F i = []))) s.
Proof.
  eapply wp_mono; [by apply (find_nonempty_bucket_wp _ _ _ (li_bits _ _ _ L))|]. intros r s' [-> Hr]. split; [done|]. change NUMBER_OF_BUCKETS with 136 in *.
  assert (forall i, bool_decide (F i <> []) = false -> F i = []) as Hd by (intros i Hx%bool_decide_eq_false; destruct (F i); [done|by destruct Hx]).
  destruct Hr as [[-> Hn]|(Hr & Ht & Hn)]; [left|right]; split_and!; try done; try lia.
  - intros i Hi'. apply Hd, Hn. lia.
  - by apply bool_decide_eq_true in Ht.
  - intros i Hi'. apply Hd, Hn. lia.
Qed.

(** C27. Freeing a block takes it out of the blocks in use, leaves every word of the other blocks alone and leaves the heap well-formed, with
    no two free areas next to each other. *)
Theorem cmpct_free_coalesces A a r s (I : inv A s) (Hl : hp_locked s = false) (Ha : A !! a = Some r) (Ka : ar_kind r = KUsed) :
  wp (cmpct_free (a + 16)) (fun _ s' => exists V, inv V s' /\ hp_locked s' = false /\ used V = delete a (used A) /\
    (forall b q q', V !! b = Some q -> ar_kind q = KFree -> V !! (b + ar_size q) = Some q' -> ar_kind q' <> KFree) /\
    forall b z x, used A !! b = Some z -> b <> a -> b + 16 <= x < b + z -> word (hp_mem s') x = word (hp_mem s) x) s.
Proof.
  eapply wp_mono; [by apply (cmpct_free_wp A a r)|]. intros ? s' (V & I' & EU & _ & Q). exists V. split; [done|]. split; [by rewrite (qu_locked _ _ _ Q)|]. split; [done|]. split; [apply I'|].
  intros b z x Hb Hne Hx. apply (qu_mem _ _ _ Q). exists b, z. split; [by rewrite lookup_delete_ne|done].
Qed.

(** A large request that finds no memory leaves the lock of the heap taken: the next request of any small size panics. *)
Theorem large_failure_keeps_lock A n s s' (I : inv A s) (Hl : hp_locked s = false) (Hn : 2 ^ 22 - 16 < n < 2 ^ 43) (Hf : cmpct_alloc n s = Done 0 s') :
  hp_locked s' = true /\ forall m, 0 < m <= 2 ^ 22 - 16 -> cmpct_alloc m s' = Fault Panic.
Proof.
  rewrite alloc_large in Hf by done. pose proof (large_alloc_wp A s n I Hl ltac:(lia)) as Hw. unfold wp in Hw. rewrite Hf in Hw.
  destruct Hw as [(_ & Hlk & _)|(v & U & E & Hv & _)]; [|lia]. split; [done|]. intros m Hm. unfold cmpct_alloc. rewrite (proj2 (Z.eqb_neq m 0)) by lia. change HEADER with 16. rewrite u64_small by lia.
  change (Z.shiftl 1 HEAP_ALLOC_VIRTUAL_BITS) with (2 ^ 22). rewrite (proj2 (Z.ltb_ge _ _)), size_to_index_allocating_eq by lia. unfold lock, gets, bind, ret. cbv beta iota zeta. by rewrite Hlk.
Qed.

(** A large block can be too short: for a request 32 bytes below a number of pages, the last 16 bytes of what was
    asked for are the header of the next area. *)
Theorem large_block_short A n j s (I : inv A s) (Hl : hp_locked s = false) (Hn : 2 ^ 22 - 16 < n < 2 ^ 43) (Hj : n = 4096 * j - 32) :
  wp (cmpct_alloc n) (fun p s' => p = 0 \/ exists U q, inv U s' /\ U !! (p + n - 16) = Some q /\ ar_left q = p - 16) s.
Proof.
  rewrite alloc_large by done. eapply wp_mono; [by apply (large_alloc_wp A); [..|lia]|]. intros p s' [(-> & _)|(v & U & -> & Hv & IU & (q & Hq & Kq & Hs & _) & _ & Hk)]; [by left|right].
  destruct (Hk q Hq) as (k & Ek & Hlt). pose proof (roundup8 n ltac:(lia)) as [[i Ei] Hr]. assert (ar_size q = n) as E by lia.
  destruct (ge_right _ (mi_geom _ _ _ (in_mid _ _ IU)) _ _ Hq ltac:(congruence)) as (q' & Hq' & El & _). exists U, q'. split; [done|]. rewrite El. split; [|lia]. rewrite <- Hq', E. f_equal. lia.
Qed.
End theorems.

Section kernel.
Context (p2v v2p : Z -> Z) (ls : nat).
#[local] Instance kernel_ops : PageOps pmm := kernel_pages p2v v2p ls.
#[local] Instance kernel_laws : PageLaws pmm := kernel_page_laws p2v v2p ls.

(** C2. The kernel's heap, over the pages of the page allocator: [heap_init] succeeds, and from then on every call that
    keeps to the rules returns without a fault and does to the blocks and their bytes what the store says - [malloc], [calloc], [memalign], [realloc],
    [free], [heap_delayed_free], [heap_trim] and reads and writes inside blocks, in any order and number; blocks never overlap. *)
Theorem kernel_heap_serves (s : pmm) (n : nat) (K : kheld p2v v2p ls s ∅) :
  exists h, heap_init (boot s) = Done tt h /\ serves n true ∅ h.
Proof.
  pose proof (heap_init_wp s K) as Hw. apply wp_done in Hw as ([] & h & E & Hh). exists h. split; [done|]. by apply holds_serves.
Qed.
End kernel.

(** ** A machine with 70 pages *)

Module HeapExample.

(** The kernel maps physical memory at 2^32. *)
Definition p2v (pa : Z) : Z := pa + 2 ^ 32.
Definition v2p (va : Z) : Z := va - 2 ^ 32.
#[local] Instance ops : PageOps pmm := kernel_pages p2v v2p 0.
#[local] Instance laws : PageLaws pmm := kernel_page_laws p2v v2p 0.

Definition arena : pmm_arena := Arena PMM_ARENA_FLAG_KMAP 1 (4096 * 256) (4096 * 70) 0 0.
Definition end_of {S A} (d : S) (o : outcome S A) : S := match o with Done _ s => s | Fault _ => d end.
Definition value_of {S A} (o : outcome S A) : A + fault := match o with Done x _ => inl x | Fault f => inr f end.

Lemma done_of {S A} (d : S) (o : outcome S A) x : value_of o = inl x -> o = Done x (end_of d o).
Proof. by destruct o as [y s|f]; intros [= ->]. Qed.

Lemma wp_value {S A} (m : M S A) Q (d s : S) x : wp m Q s -> value_of (m s) = inl x -> Q x (end_of d (m s)).
Proof. unfold wp. by destruct (m s) as [y s'|f]; intros HQ [= ->]. Qed.

Definition machine : pmm := end_of (pmm_boot 1001) (run_op (AddArena 0 arena) (pmm_boot 1001)).
Definition start : heap pmm := end_of (boot machine) (heap_init (boot machine)).

Lemma machine_held : kheld p2v v2p 0 machine ∅.
Proof.
  assert (pinv machine) as Hi.
  { assert (addable (pmm_boot 1001) 0 arena) as Ha by (split; [done|by exists 256|by exists 70|simpl; lia|vm_compute; congruence]).
    apply (wp_value _ _ (pmm_boot 1001) _ tt (run_op_wp (AddArena 0 arena) (pmm_boot 1001) (pmm_boot_pinv 1001 ltac:(lia)) Ha)). vm_compute. reflexivity. }
  assert (forall id a, arenas machine !! id = Some a -> id = 0%nat /\ a_base a = 4096 * 256 /\ a_size a = 4096 * 70) as Hm.
  { assert (arenas machine = {[0%nat := Arena 1 1 (4096 * 256) (4096 * 70) 70 1008]}) as -> by (by vm_compute). intros id a [<- <-]%lookup_singleton_Some. done. }
  split; [exact Hi| |vm_compute; reflexivity| |intros k Hk; by apply elem_of_empty in Hk].
  - intros id1 id2 a b x Ha Hb _ _. destruct (Hm _ _ Ha) as [-> _]. by destruct (Hm _ _ Hb) as [-> _].
  - intros id a Ha _. destruct (Hm _ _ Ha) as (_ & E1 & E2). split; [lia|]. exists (2 ^ 32). split; [by exists (2 ^ 20)|]. intros pa Hpa. unfold PmmSpec.inside in Hpa. unfold p2v, v2p. lia.
Qed.

Lemma kernel_heap_serves_witness : exists h, heap_init (boot machine) = Done tt h /\ serves 5 true ∅ h.
Proof. apply (kernel_heap_serves p2v v2p 0 machine 5 machine_held). Defined.

Lemma start_holds : holds true ∅ start.
Proof.
  pose proof (heap_init_wp machine machine_held) as Hw. unfold wp in Hw. unfold start. by destruct (heap_init (boot machine)) as [[] h|f].
Qed.

Lemma buckets_fit_witness : exists i z k, size_to_index_allocating 1000 start = Done (i, z) start /\ size_to_index_freeing 5000 start = Done k start /\
  1000 <= z <= 2 ^ 22 /\ (8 | z) /\ 0 <= i < NUMBER_OF_BUCKETS /\ 0 <= k < NUMBER_OF_BUCKETS /\ (i <= k <-> z <= 5000).
Proof. apply (buckets_fit 1000 5000 start); unfold BIG; lia. Defined.

Lemma find_nonempty_bucket_least_witness : exists F : Z -> list Z, wp (find_nonempty_bucket 10) (fun r s' => s' = start /\
  ((r = -1 /\ forall i, 10 <= i < NUMBER_OF_BUCKETS -> F i = []) \/ (10 <= r /\ F r <> [] /\ forall i, 10 <= i < r -> F i = []))) start.
Proof.
  destruct start_holds as [A [I _ _ _ _ _]]. destruct (mi_lists _ _ _ (in_mid _ _ I)) as [F L]. exists F. apply (find_nonempty_bucket_least _ F 10 start L). change NUMBER_OF_BUCKETS with 136. lia.
Defined.

(** One block of 100 bytes. *)
Definition ptr : Z := 2 ^ 32 + 4096 * 256 + 32.
Definition one : heap pmm := end_of start (malloc 100 start).

Lemma one_holds : exists A r, inv A one /\ hp_locked one = false /\ A !! (ptr - 16) = Some r /\ ar_kind r = KUsed.
Proof.
  pose proof (malloc_wp true ∅ start 100 start_holds ltac:(split; [lia|intros; lia])) as Hw. assert (value_of (malloc 100 start) = inl ptr) as Ev by (vm_compute; reflexivity).
  pose proof (wp_value (malloc 100) _ start start ptr Hw Ev) as (B & Hs & A & Vi). clear Ev Hw.
  destruct Hs as [[E0 _]|(bs & _ & ->)]; [discriminate E0|]. destruct (view_block _ _ _ _ _ ptr bs Vi ltac:(by rewrite lookup_insert_eq)) as (_ & z & Hz & _).
  apply used_spec in Hz as (r & Hr & Kr & _). exists A, r. destruct Vi as [I Hl _ _ _ _]. exact (conj I (conj Hl (conj Hr Kr))).
Qed.

Lemma cmpct_free_coalesces_witness : exists A, wp (cmpct_free (ptr - 16 + 16)) (fun _ s' => exists V, inv V s' /\ hp_locked s' = false /\ used V = delete (ptr - 16) (used A) /\
    (forall b q q', V !! b = Some q -> ar_kind q = KFree -> V !! (b + ar_size q) = Some q' -> ar_kind q' <> KFree) /\
    forall b z x, used A !! b = Some z -> b <> ptr - 16 -> b + 16 <= x < b + z -> word (hp_mem s') x = word (hp_mem one) x) one.
Proof. destruct one_holds as (A & r & I & Hl & Ha & Ka). exists A. exact (cmpct_free_coalesces A (ptr - 16) r one I Hl Ha Ka). Defined.

Definition stuck : heap pmm := end_of start (cmpct_alloc (2 ^ 22) start).

Lemma large_failure_keeps_lock_witness : hp_locked stuck = true /\ forall m, 0 < m <= 2 ^ 22 - 16 -> cmpct_alloc m stuck = Fault Panic.
Proof.
  destruct start_holds as [A [I Hl _ _ _ _]]. apply (large_failure_keeps_lock A (2 ^ 22) start stuck I Hl); [lia|]. apply done_of. vm_compute. reflexivity.
Defined.

Lemma large_block_short_witness : wp (cmpct_alloc (4096 * 1025 - 32)) (fun p s' => p = 0 \/ exists U q, inv U s' /\ U !! (p + (4096 * 1025 - 32) - 16) = Some q /\ ar_left q = p - 16) start.
Proof. destruct start_holds as [A [I Hl _ _ _ _]]. apply (large_block_short A (4096 * 1025 - 32) 1025 start I Hl); [lia|reflexivity]. Defined.


(** Sizes and results that are not looked at: [memalign] and [realloc] use what [cmpct_alloc] returns without looking for
    [NULL]; a size in the last 16 bytes of the range fails an assertion where [NULL] would do; and [calloc] takes a
    product that wraps around for the 16 bytes it wraps around to. *)
Theorem sizes_not_looked_at :
  value_of (malloc 1000000 start) = inl 0 /\ value_of (memalign 16 1000000 start) = inr BadPointer /\
  value_of ((do p <- malloc 100; realloc p 1000000) start) = inr BadPointer /\
  value_of (malloc (2 ^ 64 - 8) start) = inr AssertFail /\
  calloc (2 ^ 60 + 1) 16 start = calloc 1 16 start /\ value_of (calloc 1 16 start) = inl ptr.
Proof. split_and!; vm_compute; done. Qed.
End HeapExample.
