(* ===== verification/LibcMem.v ===== *)
(** * Memory functions of the C library

    [lib/libc/string]: [memcpy], [memmove], [memset] and their relatives on memory as a map from addresses to bytes.  An access
    outside the map, or of a word at an address that is not aligned, is a bad pointer.  Words have 8 bytes, little endian. *)

From stdpp Require Import base gmap list numbers.
From S2P Require Import Prelude Align.

(** ** Memory *)

Notation cmem := (gmap Z Z).

Definition ldb (a : Z) : M cmem Z := do m <- gets id; deref (m !! a).
Definition stb (a v : Z) : M cmem unit := do old <- ldb a; modify (<[a := v mod 256]>).

Fixpoint ldn (n : nat) (a : Z) : M cmem Z :=
  match n with
  | O => ret 0
  | S n => do b <- ldb a; do w <- ldn n (a + 1); ret (b + 256 * w)
  end.
Fixpoint stn (n : nat) (a w : Z) : M cmem unit :=
  match n with
  | O => ret tt
  | S n => stb a w ;; stn n (a + 1) (w / 256)
  end.

Definition lsize : Z := 8.
Definition lmask : Z := lsize - 1.

Definition ldw (a : Z) : M cmem Z := if a mod lsize =? 0 then ldn 8 a else fail BadPointer.
Definition stw (a w : Z) : M cmem unit := if a mod lsize =? 0 then stn 8 a w else fail BadPointer.

(** ** The loops

    Each returns the pointers as the loop leaves them. *)

Fixpoint copy_bytes (len : nat) (d s : Z) : M cmem (Z * Z) :=
  match len with
  | O => ret (d, s)
  | S len => do b <- ldb s; stb d b ;; copy_bytes len (d + 1) (s + 1)
  end.
Fixpoint copy_words (len : nat) (d s : Z) : M cmem (Z * Z) :=
  match len with
  | O => ret (d, s)
  | S len => do w <- ldw s; stw d w ;; copy_words len (d + lsize) (s + lsize)
  end.
Fixpoint copy_bytes_down (len : nat) (d s : Z) : M cmem (Z * Z) :=
  match len with
  | O => ret (d, s)
  | S len => do b <- ldb (s - 1); stb (d - 1) b ;; copy_bytes_down len (d - 1) (s - 1)
  end.
Fixpoint copy_words_down (len : nat) (d s : Z) : M cmem (Z * Z) :=
  match len with
  | O => ret (d, s)
  | S len => do w <- ldw (s - lsize); stw (d - lsize) w ;; copy_words_down len (d - lsize) (s - lsize)
  end.

(** Upwards: bytes to an aligned address when the two can be aligned together, words, and the bytes that are left.
    [len] is an [int]. *)
Definition copy_up (d s count : Z) : M cmem unit :=
  do ' (d, s, count) <-
    (if negb (Z.land (Z.lor d s) lmask =? 0) then
       let len := if negb (Z.land (Z.lxor d s) lmask =? 0) || (count <? lsize) then s32 count else lsize - Z.land d lmask in
       do ' (d, s) <- copy_bytes (Z.to_nat len) d s; ret (d, s, u64 (count - len))
     else ret (d, s, count));
  do ' (d, s) <- copy_words (Z.to_nat (s32 (count / lsize))) d s;
  do r <- copy_bytes (Z.to_nat (Z.land count lmask)) d s;
  ret tt.

Definition copy_down (d s count : Z) : M cmem unit :=
  let d := d + count in
  let s := s + count in
  do ' (d, s, count) <-
    (if negb (Z.land (Z.lor d s) lmask =? 0) then
       let len := if negb (Z.land (Z.lxor d s) lmask =? 0) || (count <=? lsize) then s32 count else Z.land d lmask in
       do ' (d, s) <- copy_bytes_down (Z.to_nat len) d s; ret (d, s, u64 (count - len))
     else ret (d, s, count));
  do ' (d, s) <- copy_words_down (Z.to_nat (s32 (count / lsize))) d s;
  do r <- copy_bytes_down (Z.to_nat (Z.land count lmask)) d s;
  ret tt.

(** ** The functions *)

Definition memcpy (dest src count : Z) : M cmem Z :=
  if (count =? 0) || (dest =? src) then ret dest
  else copy_up dest src count ;; ret dest.

Definition memmove (dest src count : Z) : M cmem Z :=
  if (count =? 0) || (dest =? src) then ret dest
  else (if s64 dest <? s64 src then copy_up dest src count else copy_down dest src count) ;; ret dest.

Fixpoint set_bytes (len : nat) (xs c : Z) : M cmem Z :=
  match len with
  | O => ret xs
  | S len => stb xs c ;; set_bytes len (xs + 1) c
  end.
Fixpoint set_words (len : nat) (xs cc : Z) : M cmem Z :=
  match len with
  | O => ret xs
  | S len => stw xs cc ;; set_words len (xs + 8) cc
  end.

(** [c & 0xff] in each byte of a word. *)
Definition fill_word (c : Z) : Z :=
  let cc := Z.land c 0xff in
  let cc := Z.lor cc (Z.shiftl cc 8) in
  let cc := Z.lor cc (Z.shiftl cc 16) in
  Z.lor cc (Z.shiftl cc 32).

Definition memset (s c count : Z) : M cmem Z :=
  let len := Z.land (u64 (- s)) 7 in
  do ' (xs, count) <-
    (if len <? count then
       let count := count - len in
       do xs <- set_bytes (Z.to_nat len) s c;
       do xs <- set_words (Z.to_nat (count / 8)) xs (fill_word c);
       ret (xs, Z.land count 7)
     else ret (s, count));
  do r <- set_bytes (Z.to_nat count) xs c;
  ret s.

Definition bcopy (src dest count : Z) : M cmem unit := do r <- memcpy dest src count; ret tt.
Definition bzero (dst count : Z) : M cmem unit := do r <- memset dst 0 count; ret tt.

(** [NULL] when it is not there. *)
Fixpoint memchr_from (len : nat) (b x : Z) : M cmem Z :=
  match len with
  | O => ret 0
  | S len => do v <- ldb b; if v =? x then ret b else memchr_from len (b + 1) x
  end.
Definition memchr (buf c len : Z) : M cmem Z := memchr_from (Z.to_nat len) buf (Z.land c 0xff).

(** The difference is cut to a [signed char]. *)
Definition schar (x : Z) : Z := let y := x mod 256 in if y <? 128 then y else y - 256.

Fixpoint memcmp_from (count : nat) (su1 su2 res : Z) : M cmem Z :=
  match count with
  | O => ret res
  | S count =>
      do a <- ldb su1;
      do b <- ldb su2;
      let res := schar (a - b) in
      if negb (res =? 0) then ret res else memcmp_from count (su1 + 1) (su2 + 1) res
  end.
Definition memcmp (cs ct count : Z) : M cmem Z := memcmp_from (Z.to_nat count) cs ct 0.

Fixpoint memscan_from (size : nat) (p c : Z) : M cmem Z :=
  match size with
  | O => ret p
  | S size => do v <- ldb p; if v =? c then ret p else memscan_from size (p + 1) c
  end.
Definition memscan (addr c size : Z) : M cmem Z := memscan_from (Z.to_nat size) addr c.

(** ** Bytes and words *)

Lemma ldb_wp Q a b (m : cmem) : m !! a = Some b -> Q b m -> wp (ldb a) Q m.
Proof. intros Ha HQ. unfold ldb. wp_step. wp_step. by eapply wp_deref. Qed.

Lemma stb_wp Q a v (m : cmem) : is_Some (m !! a) -> Q tt (<[a := v mod 256]> m) -> wp (stb a v) Q m.
Proof. intros [b Ha] HQ. unfold stb. wp_step. eapply ldb_wp; [done|]. by wp_step. Qed.

(** [n] bytes from [a] on are there. *)
Definition mapped (m : cmem) (a n : Z) : Prop := forall x, a <= x < a + n -> exists b, m !! x = Some b /\ 0 <= b < 256.

Lemma mapped_le m a n b k : mapped m a n -> a <= b -> b + k <= a + n -> mapped m b k.
Proof. intros Hm H1 H2 x Hx. apply Hm. lia. Qed.

(** The word that is read has the bytes that are there. *)
Lemma ldn_wp n : forall a (m : cmem), mapped m a (Z.of_nat n) -> wp (ldn n a) (fun w m' => m' = m /\ forall i, 0 <= i < Z.of_nat n -> m !! (a + i) = Some (w / 256 ^ i mod 256)) m.
Proof.
  induction n as [|n IH]; intros a m Hm; cbn [ldn]; [wp_step; split; [done|lia]|].
  destruct (Hm a ltac:(lia)) as (b & Hb & Hr). wp_step. eapply ldb_wp; [done|]. wp_step. eapply wp_mono; [apply IH; eapply mapped_le; [done|lia..]|]. intros w m' [-> Hw]. wp_step. split; [done|]. intros i Hi.
  destruct (decide (i = 0)) as [->|Hne].
  - rewrite Z.add_0_r, Hb, Z.pow_0_r, Z.div_1_r. f_equal. apply (Z.mod_unique _ _ w); lia.
  - specialize (Hw (i - 1) ltac:(lia)). replace (a + 1 + (i - 1)) with (a + i) in Hw by lia. rewrite Hw. do 2 f_equal.
    replace (256 ^ i) with (256 * 256 ^ (i - 1)) by (rewrite <- Z.pow_succ_r by lia; f_equal; lia). pose proof (Z.pow_pos_nonneg 256 (i - 1)). rewrite <- Z.div_div by lia. f_equal. apply (Z.div_unique _ _ _ b); lia.
Qed.

Lemma stn_wp n : forall a w (m : cmem), mapped m a (Z.of_nat n) ->
  wp (stn n a w) (fun _ m' => forall x, m' !! x = if decide (a <= x < a + Z.of_nat n) then Some (w / 256 ^ (x - a) mod 256) else m !! x) m.
Proof.
  induction n as [|n IH]; intros a w m Hm; cbn [stn]; [wp_step; intros x; by rewrite decide_False by lia|].
  destruct (Hm a ltac:(lia)) as (b & Hb & _). wp_step. apply stb_wp; [eauto|]. eapply wp_mono; [apply IH|].
  - intros x Hx. destruct (Hm x ltac:(lia)) as (c & Hc & ?). exists c. by rewrite lookup_insert_ne by lia.
  - intros ? m' Hm' x. rewrite Hm'. destruct (decide (x = a)) as [->|Hne].
    + rewrite decide_False, lookup_insert_eq, decide_True, Z.sub_diag, Z.pow_0_r, Z.div_1_r by lia. done.
    + rewrite lookup_insert_ne by done. destruct (decide (a + 1 <= x < a + 1 + Z.of_nat n)).
      * rewrite decide_True by lia. do 2 f_equal. rewrite Z.div_div by (try apply Z.pow_nonzero; lia). f_equal. rewrite <- Z.pow_succ_r by lia. f_equal. lia.
      * by rewrite decide_False by lia.
Qed.

(** ** Copying *)

(** The bytes from [i] to [j] of [d] are those of [s] in [m], and the rest is as it was. *)
Definition moved (m : cmem) (d s i j : Z) (m' : cmem) : Prop :=
  forall x, m' !! x = if decide (d + i <= x < d + j) then m !! (s + (x - d)) else m !! x.

Lemma moved_nil m d s i : moved m d s i i m.
Proof. intros x. by rewrite decide_False by lia. Qed.

(** The next [k] bytes after or before those that were moved, read before they are written. *)
Lemma moved_step m m1 m2 d s i j k l : moved m d s i j m1 -> k <= l -> (k = j /\ i <= j \/ l = i /\ i <= j) ->
  (forall x, s + k <= x < s + l -> ~ d + i <= x < d + j) ->
  (forall x, m2 !! x = if decide (d + k <= x < d + l) then m1 !! (s + (x - d)) else m1 !! x) -> moved m d s (Z.min i k) (Z.max j l) m2.
Proof.
  intros H1 Hkl Hor Hs H2 x. rewrite H2. destruct (decide (d + k <= x < d + l)).
  - rewrite H1, decide_False by (apply Hs; lia). by rewrite decide_True by lia.
  - rewrite H1. destruct (decide (d + i <= x < d + j)); [by rewrite decide_True by lia|by rewrite decide_False by lia].
Qed.

Lemma moved_mapped m m' d s i j a n : moved m d s i j m' -> mapped m d j -> mapped m s j -> 0 <= i -> mapped m a n -> mapped m' a n.
Proof. intros H1 Hd Hs Hi Ha x Hx. rewrite H1. destruct (decide (d + i <= x < d + j)); [apply Hs; lia|by apply Ha]. Qed.

(** Reading [n] bytes at [s + k] and writing them at [d + k]. *)
Lemma move_word_wp n m m1 d s k : mapped m1 (d + k) (Z.of_nat n) -> mapped m1 (s + k) (Z.of_nat n) -> m1 = m ->
  wp (do w <- ldn n (s + k); stn n (d + k) w) (fun _ m2 => forall x, m2 !! x = if decide (d + k <= x < d + (k + Z.of_nat n)) then m !! (s + (x - d)) else m !! x) m1.
Proof.
  intros Hd Hs ->. wp_step. eapply wp_mono; [by apply ldn_wp|]. intros w m' [-> Hw]. eapply wp_mono; [by apply stn_wp|]. intros ? m2 H2 x. rewrite H2, Z.add_assoc.
  destruct (decide (d + k <= x < d + k + Z.of_nat n)); [|done]. rewrite <- Hw by lia. f_equal. lia.
Qed.

Lemma stb_byte b : 0 <= b < 256 -> b mod 256 = b.
Proof. intros. by apply Z.mod_small. Qed.

(** A copy of [n] bytes that starts in the memory [m]. *)
Section copying.
Context (m : cmem) (d s n : Z) (Hd : mapped m d n) (Hs : mapped m s n).

(** Upwards, where the destination is not above the source or they do not overlap. *)
Section up.
Context (Hup : d <= s \/ s + n <= d).

Lemma copy_bytes_wp len : forall k m1, moved m d s 0 k m1 -> 0 <= k -> k + Z.of_nat len <= n ->
  wp (copy_bytes len (d + k) (s + k)) (fun r m2 => r = (d + (k + Z.of_nat len), s + (k + Z.of_nat len)) /\ moved m d s 0 (k + Z.of_nat len) m2) m1.
Proof.
  induction len as [|len IH]; intros k m1 Hm Hk Hl; cbn [copy_bytes]; [wp_step; by rewrite Z.add_0_r|].
  destruct (Hs (s + k) ltac:(lia)) as (b & Hb & Hr). destruct (Hd (d + k) ltac:(lia)) as (c & Hc & _). assert (m1 !! (s + k) = Some b) as Hb1 by (rewrite Hm, decide_False by lia; done).
  assert (m1 !! (d + k) = Some c) as Hc1 by (rewrite Hm, decide_False by lia; done). wp_step. eapply ldb_wp; [done|]. wp_step. apply stb_wp; [eauto|]. rewrite stb_byte by done.
  replace (d + k + 1) with (d + (k + 1)) by lia. replace (s + k + 1) with (s + (k + 1)) by lia. replace (k + Z.of_nat (S len)) with (k + 1 + Z.of_nat len) by lia. apply IH; [|lia..].
  pose proof (moved_step m m1 (<[d + k := b]> m1) d s 0 k k (k + 1) Hm ltac:(lia) ltac:(lia) ltac:(lia)) as Hst. rewrite Z.min_l, Z.max_r in Hst by lia. apply Hst. intros x.
  destruct (decide (x = d + k)) as [->|Hne]; [rewrite lookup_insert_eq, decide_True by lia; rewrite <- Hb1; f_equal; lia|]. by rewrite lookup_insert_ne, decide_False by lia.
Qed.

Lemma copy_words_wp len : forall k m1, moved m d s 0 k m1 -> 0 <= k -> k + 8 * Z.of_nat len <= n -> (d + k) mod 8 = 0 -> (s + k) mod 8 = 0 ->
  wp (copy_words len (d + k) (s + k)) (fun r m2 => r = (d + (k + 8 * Z.of_nat len), s + (k + 8 * Z.of_nat len)) /\ moved m d s 0 (k + 8 * Z.of_nat len) m2) m1.
Proof.
  induction len as [|len IH]; intros k m1 Hm Hk Hl Ad As; cbn [copy_words]; [wp_step; by rewrite Z.mul_0_r, Z.add_0_r|].
  assert (forall a, mapped m a 8 -> mapped m1 a 8) as Hmm by (intros a; eapply (moved_mapped m m1 d s 0 k); [done|eapply mapped_le; [exact Hd|lia..]|eapply mapped_le; [exact Hs|lia..]|lia]).
  unfold ldw, stw. change lsize with 8. rewrite Ad, As. change (0 =? 0) with true. cbv iota. apply wp_bind_assoc.
  eapply wp_mono; [apply (move_word_wp 8 m1 m1 d s k); [apply Hmm; eapply mapped_le; [exact Hd|lia..]|apply Hmm; eapply mapped_le; [exact Hs|lia..]|done]|]. intros ? m2 H2.
  pose proof (moved_step m m1 m2 d s 0 k k (k + 8) Hm ltac:(lia) ltac:(lia) ltac:(lia) H2) as Hst. rewrite Z.min_l, Z.max_r in Hst by lia.
  replace (d + k + 8) with (d + (k + 8)) by lia. replace (s + k + 8) with (s + (k + 8)) by lia. replace (k + 8 * Z.of_nat (S len)) with (k + 8 + 8 * Z.of_nat len) by lia.
  apply IH; [done|lia|lia| |]; rewrite Z.add_assoc, <- (Z.mul_1_l 8) at 1; by rewrite Z.mod_add.
Qed.
End up.

(** Downwards, where the destination is not below the source or they do not overlap. *)
Section down.
Context (Hdown : s <= d \/ d + n <= s).

Lemma copy_bytes_down_wp len : forall k m1, moved m d s k n m1 -> Z.of_nat len <= k <= n ->
  wp (copy_bytes_down len (d + k) (s + k)) (fun r m2 => r = (d + (k - Z.of_nat len), s + (k - Z.of_nat len)) /\ moved m d s (k - Z.of_nat len) n m2) m1.
Proof.
  induction len as [|len IH]; intros k m1 Hm Hk; cbn [copy_bytes_down]; [wp_step; by rewrite Z.sub_0_r|].
  destruct (Hs (s + k - 1) ltac:(lia)) as (b & Hb & Hr). destruct (Hd (d + k - 1) ltac:(lia)) as (c & Hc & _). assert (m1 !! (s + k - 1) = Some b) as Hb1 by (rewrite Hm, decide_False by lia; done).
  assert (m1 !! (d + k - 1) = Some c) as Hc1 by (rewrite Hm, decide_False by lia; done). wp_step. eapply ldb_wp; [done|]. wp_step. apply stb_wp; [eauto|]. rewrite stb_byte by done.
  replace (d + k - 1) with (d + (k - 1)) in * by lia. replace (s + k - 1) with (s + (k - 1)) in * by lia. replace (k - Z.of_nat (S len)) with (k - 1 - Z.of_nat len) by lia. apply IH; [|lia].
  pose proof (moved_step m m1 (<[d + (k - 1) := b]> m1) d s k n (k - 1) k Hm ltac:(lia) ltac:(lia) ltac:(lia)) as Hst. rewrite Z.min_r, Z.max_l in Hst by lia. apply Hst. intros x.
  destruct (decide (x = d + (k - 1))) as [->|Hne]; [rewrite lookup_insert_eq, decide_True by lia; rewrite <- Hb1; f_equal; lia|]. by rewrite lookup_insert_ne, decide_False by lia.
Qed.

Lemma copy_words_down_wp len : forall k m1, moved m d s k n m1 -> 8 * Z.of_nat len <= k <= n -> (d + k) mod 8 = 0 -> (s + k) mod 8 = 0 ->
  wp (copy_words_down len (d + k) (s + k)) (fun r m2 => r = (d + (k - 8 * Z.of_nat len), s + (k - 8 * Z.of_nat len)) /\ moved m d s (k - 8 * Z.of_nat len) n m2) m1.
Proof.
  induction len as [|len IH]; intros k m1 Hm Hk Ad As; cbn [copy_words_down]; [wp_step; by rewrite Z.mul_0_r, Z.sub_0_r|].
  assert (forall a, mapped m a 8 -> mapped m1 a 8) as Hmm by (intros a; eapply (moved_mapped m m1 d s k n); [done|done|done|lia]).
  assert (forall a, (a + k) mod 8 = 0 -> (a + (k - 8)) mod 8 = 0) as H8 by (intros a Ha; replace (a + (k - 8)) with (a + k + (-1) * 8) by lia; by rewrite Z.mod_add).
  unfold ldw, stw. change lsize with 8. replace (d + k - 8) with (d + (k - 8)) by lia. replace (s + k - 8) with (s + (k - 8)) by lia. rewrite !H8 by done. change (0 =? 0) with true. cbv iota. apply wp_bind_assoc.
  eapply wp_mono; [apply (move_word_wp 8 m1 m1 d s (k - 8)); [apply Hmm; eapply mapped_le; [exact Hd|lia..]|apply Hmm; eapply mapped_le; [exact Hs|lia..]|done]|]. intros ? m2 H2.
  replace (k - 8 + Z.of_nat 8) with k in H2 by lia. pose proof (moved_step m m1 m2 d s k n (k - 8) k Hm ltac:(lia) ltac:(lia) ltac:(lia) H2) as Hst. rewrite Z.min_r, Z.max_l in Hst by lia.
  replace (k - 8 * Z.of_nat (S len)) with (k - 8 - 8 * Z.of_nat len) by lia. apply IH; [done|lia|by apply H8..].
Qed.
End down.
End copying.

(** ** Alignment *)

Lemma land_lmask x : Z.land x lmask = x mod 8.
Proof. exact (Z.land_ones x 3 ltac:(lia)). Qed.

Lemma lor_lmask x y : Z.land (Z.lor x y) lmask = 0 <-> x mod 8 = 0 /\ y mod 8 = 0.
Proof. rewrite Z.land_lor_distr_l, !land_lmask. apply Z.lor_eq_0_iff. Qed.

Lemma lxor_lmask x y : Z.land (Z.lxor x y) lmask = 0 <-> x mod 8 = y mod 8.
Proof.
  assert (Z.land (Z.lxor x y) lmask = Z.lxor (x mod 8) (y mod 8)) as ->.
  { rewrite <- !land_lmask. apply Z.bits_inj'. intros i Hi. rewrite !Z.land_spec, !Z.lxor_spec, !Z.land_spec. by destruct (Z.testbit x i), (Z.testbit y i), (Z.testbit lmask i). }
  split; [apply Z.lxor_eq|intros ->; apply Z.lxor_nilpotent].
Qed.

Lemma mod8_shift a k : (a + (8 - a mod 8)) mod 8 = 0 /\ (k mod 8 = a mod 8 -> (k + (8 - a mod 8)) mod 8 = 0).
Proof.
  assert (forall c, c mod 8 = a mod 8 -> (c + (8 - a mod 8)) mod 8 = 0) as H; [|split; [by apply H|apply H]].
  intros c Hc. rewrite <- Hc. pose proof (Z.div_mod c 8 ltac:(lia)). replace (c + (8 - c mod 8)) with (0 + (c / 8 + 1) * 8) by lia. by rewrite Z.mod_add.
Qed.

Lemma s32_div8 x : 0 <= x < 2 ^ 31 -> s32 (x / 8) = x / 8 /\ s32 x = x /\ 0 <= x / 8.
Proof. intros Hx. pose proof (Z.div_pos x 8 ltac:(lia) ltac:(lia)). pose proof (Z.div_lt_upper_bound x 8 (2 ^ 31) ltac:(lia) ltac:(lia)). rewrite !s32_small by lia. done. Qed.

Lemma copy_up_wp m d s n : mapped m d n -> mapped m s n -> 0 < n < 2 ^ 31 -> (d <= s \/ s + n <= d) -> wp (copy_up d s n) (fun _ m' => moved m d s 0 n m') m.
Proof.
  intros Hd Hs Hn Hup. pose proof (s32_div8 n ltac:(lia)) as (_ & Es & _). unfold copy_up. change lsize with 8. rewrite Es, (land_lmask d).
  wp_step. apply (wp_mono _ (fun r m1 => exists k, r = (d + k, s + k, n - k) /\ 0 <= k <= n /\ moved m d s 0 k m1 /\ (k = n \/ (d + k) mod 8 = 0 /\ (s + k) mod 8 = 0))).
  { pose proof (moved_nil m d s 0) as H0. destruct (Z.eqb_spec (Z.land (Z.lor d s) lmask) 0) as [E|E]; cbn [negb].
    - apply lor_lmask in E. wp_step. exists 0. rewrite !Z.add_0_r, Z.sub_0_r. split; [done|]. split; [lia|]. auto.
    - assert (forall len, 0 <= len <= n -> (len = n \/ (d + len) mod 8 = 0 /\ (s + len) mod 8 = 0) -> wp (do ' (d, s) <- copy_bytes (Z.to_nat len) d s; ret (d, s, u64 (n - len)))
        (fun r m1 => exists k, r = (d + k, s + k, n - k) /\ 0 <= k <= n /\ moved m d s 0 k m1 /\ (k = n \/ (d + k) mod 8 = 0 /\ (s + k) mod 8 = 0)) m) as Hgo.
      { intros len Hl Hor. pose proof (copy_bytes_wp m d s n Hd Hs Hup (Z.to_nat len) 0 m H0 ltac:(lia) ltac:(lia)) as Hw. rewrite !Z.add_0_r, Z2Nat.id, Z.add_0_l in Hw by lia.
        wp_step. eapply wp_mono; [exact Hw|]. intros ? m1 [-> Hm]. wp_step. exists len. rewrite u64_small by lia. done. }
      destruct (Z.eqb_spec (Z.land (Z.lxor d s) lmask) 0) as [Ex|Ex]; cbn [negb orb]; [|apply Hgo; [lia|by left]]. apply lxor_lmask in Ex. destruct (Z.ltb_spec n 8); [apply Hgo; [lia|by left]|].
      assert (d mod 8 <> 0) by (intros Hz; apply E, lor_lmask; lia). pose proof (Z.mod_pos_bound d 8 ltac:(lia)). apply Hgo; [lia|right]. destruct (mod8_shift d s) as [? Hs8]. split; [done|]. apply Hs8. lia. }
  intros r m1 (k & -> & Hk & Hm & Hal). cbv beta iota. pose proof (s32_div8 (n - k) ltac:(lia)) as (E8 & _ & H8). rewrite E8. pose proof (Z.div_mod (n - k) 8 ltac:(lia)) as Em. pose proof (Z.mod_pos_bound (n - k) 8 ltac:(lia)).
  set (q := (n - k) / 8) in *. wp_step. apply (wp_mono _ (fun r m2 => r = (d + (k + 8 * q), s + (k + 8 * q)) /\ moved m d s 0 (k + 8 * q) m2)).
  { destruct Hal as [->|[Ad As]].
    - assert (q = 0) as -> by (unfold q; rewrite Z.sub_diag; done). change (Z.to_nat 0) with 0%nat. cbn [copy_words]. wp_step. by rewrite Z.mul_0_r, Z.add_0_r.
    - pose proof (copy_words_wp m d s n Hd Hs Hup (Z.to_nat q) k m1 Hm ltac:(lia) ltac:(lia) Ad As) as Hw. by rewrite Z2Nat.id in Hw by lia. }
  intros ? m2 [-> Hm2]. cbv beta iota. wp_step. rewrite land_lmask. eapply wp_mono; [apply (copy_bytes_wp m d s n Hd Hs Hup (Z.to_nat ((n - k) mod 8)) (k + 8 * q) m2 Hm2); lia|].
  intros ? m3 [_ Hm3]. wp_step. rewrite Z2Nat.id in Hm3 by lia. by replace (k + 8 * q + (n - k) mod 8) with n in Hm3 by lia.
Qed.

Lemma copy_down_wp m d s n : mapped m d n -> mapped m s n -> 0 < n < 2 ^ 31 -> (s <= d \/ d + n <= s) -> wp (copy_down d s n) (fun _ m' => moved m d s 0 n m') m.
Proof.
  intros Hd Hs Hn Hdown. pose proof (s32_div8 n ltac:(lia)) as (_ & Es & _). unfold copy_down. change lsize with 8. cbv zeta. rewrite Es, (land_lmask (d + n)).
  wp_step. apply (wp_mono _ (fun r m1 => exists k, r = (d + k, s + k, k) /\ 0 <= k <= n /\ moved m d s k n m1 /\ (k = 0 \/ (d + k) mod 8 = 0 /\ (s + k) mod 8 = 0))).
  { pose proof (moved_nil m d s n) as H0. destruct (Z.eqb_spec (Z.land (Z.lor (d + n) (s + n)) lmask) 0) as [E|E]; cbn [negb].
    - apply lor_lmask in E. wp_step. exists n. split; [done|]. split; [lia|]. auto.
    - assert (forall len, 0 <= len <= n -> (len = n \/ (d + (n - len)) mod 8 = 0 /\ (s + (n - len)) mod 8 = 0) -> wp (do ' (d, s) <- copy_bytes_down (Z.to_nat len) (d + n) (s + n); ret (d, s, u64 (n - len)))
        (fun r m1 => exists k, r = (d + k, s + k, k) /\ 0 <= k <= n /\ moved m d s k n m1 /\ (k = 0 \/ (d + k) mod 8 = 0 /\ (s + k) mod 8 = 0)) m) as Hgo.
      { intros len Hl Hor. pose proof (copy_bytes_down_wp m d s n Hd Hs Hdown (Z.to_nat len) n m H0 ltac:(lia)) as Hw. rewrite !Z2Nat.id in Hw by lia.
        wp_step. eapply wp_mono; [exact Hw|]. intros ? m1 [-> Hm]. wp_step. exists (n - len). rewrite u64_small by lia. split; [done|]. split; [lia|]. split; [done|]. destruct Hor as [->|?]; [left; lia|by right]. }
      destruct (Z.eqb_spec (Z.land (Z.lxor (d + n) (s + n)) lmask) 0) as [Ex|Ex]; cbn [negb orb]; [|apply Hgo; [lia|by left]]. apply lxor_lmask in Ex. destruct (Z.leb_spec n 8); [apply Hgo; [lia|by left]|].
      pose proof (Z.mod_pos_bound (d + n) 8 ltac:(lia)). apply Hgo; [lia|right]. assert (forall c, (c + n) mod 8 = (d + n) mod 8 -> (c + (n - (d + n) mod 8)) mod 8 = 0) as H8; [|by split; [apply H8|apply H8]].
      intros c Hc. rewrite <- Hc. pose proof (Z.div_mod (c + n) 8 ltac:(lia)). replace (c + (n - (c + n) mod 8)) with (0 + (c + n) / 8 * 8) by lia. by rewrite Z.mod_add. }
  intros r m1 (k & -> & Hk & Hm & Hal). cbv beta iota. pose proof (s32_div8 k ltac:(lia)) as (E8 & _ & H8). rewrite E8. pose proof (Z.div_mod k 8 ltac:(lia)) as Em. pose proof (Z.mod_pos_bound k 8 ltac:(lia)).
  set (q := k / 8) in *. wp_step. apply (wp_mono _ (fun r m2 => r = (d + (k - 8 * q), s + (k - 8 * q)) /\ moved m d s (k - 8 * q) n m2)).
  { destruct Hal as [->|[Ad As]].
    - change q with 0. change (Z.to_nat 0) with 0%nat. cbn [copy_words_down]. wp_step. done.
    - pose proof (copy_words_down_wp m d s n Hd Hs Hdown (Z.to_nat q) k m1 Hm ltac:(lia) Ad As) as Hw. by rewrite Z2Nat.id in Hw by lia. }
  intros ? m2 [-> Hm2]. cbv beta iota. wp_step. rewrite land_lmask. eapply wp_mono; [apply (copy_bytes_down_wp m d s n Hd Hs Hdown (Z.to_nat (k mod 8)) (k - 8 * q) m2 Hm2); lia|].
  intros ? m3 [_ Hm3]. wp_step. rewrite Z2Nat.id in Hm3 by lia. by replace (k - 8 * q - k mod 8) with 0 in Hm3 by lia.
Qed.

(** The same bytes at the same place. *)
Lemma moved_same m d n : moved m d d 0 n m.
Proof. intros x. case_decide; [f_equal; lia|done]. Qed.

Lemma memcpy_copies m d s n : mapped m d n -> mapped m s n -> 0 <= n < 2 ^ 31 -> (d <= s \/ s + n <= d) -> wp (memcpy d s n) (fun r m' => r = d /\ moved m d s 0 n m') m.
Proof.
  intros Hd Hs Hn Hup. unfold memcpy. destruct (Z.eqb_spec n 0) as [->|H0]; cbn [orb]; [wp_step; split; [done|apply moved_nil]|].
  destruct (Z.eqb_spec d s) as [->|Hne]; [wp_step; split; [done|apply moved_same]|]. wp_step. eapply wp_mono; [by apply copy_up_wp; [..|lia|]|]. intros ? m' Hm. by wp_step.
Qed.

Lemma memmove_wp m d s n : mapped m d n -> mapped m s n -> 0 <= n < 2 ^ 31 -> (s64 d < s64 s <-> d < s) -> wp (memmove d s n) (fun r m' => r = d /\ moved m d s 0 n m') m.
Proof.
  intros Hd Hs Hn H64. unfold memmove. destruct (Z.eqb_spec n 0) as [->|H0]; cbn [orb]; [wp_step; split; [done|apply moved_nil]|].
  destruct (Z.eqb_spec d s) as [->|Hne]; [wp_step; split; [done|apply moved_same]|]. wp_step. apply (wp_mono _ (fun _ m' => moved m d s 0 n m')); [|intros ? m' Hm; by wp_step].
  destruct (Z.ltb_spec (s64 d) (s64 s)); [apply copy_up_wp|apply copy_down_wp]; try done; lia.
Qed.

(** ** Filling *)

Definition filled (m : cmem) (p n c : Z) (m' : cmem) : Prop := forall x, m' !! x = if decide (p <= x < p + n) then Some (c mod 256) else m !! x.

Lemma fill_word_byte c i : 0 <= i < 8 -> fill_word c / 256 ^ i mod 256 = c mod 256.
Proof.
  intros Hi. assert (fill_word c = fill_word (c mod 256)) as ->. { unfold fill_word. change 0xff with (Z.ones 8). rewrite !Z.land_ones by lia. by rewrite Z.mod_mod by lia. }
  pose proof (Z.mod_pos_bound c 256 ltac:(lia)) as Hb. set (b := c mod 256) in *.
  assert (forallb (fun b => forallb (fun i => fill_word b / 256 ^ i mod 256 =? b) (seqZ 0 8)) (seqZ 0 256) = true) as Hall by (vm_compute; reflexivity).
  rewrite forallb_forall in Hall. specialize (Hall b ltac:(apply list_elem_of_In, elem_of_seqZ; lia)). rewrite forallb_forall in Hall. apply Z.eqb_eq, Hall, list_elem_of_In, elem_of_seqZ. lia.
Qed.

Lemma filled_step m m1 m2 p k l c : filled m p k c m1 -> 0 <= k -> 0 <= l -> (forall x, m2 !! x = if decide (p + k <= x < p + k + l) then Some (c mod 256) else m1 !! x) -> filled m p (k + l) c m2.
Proof.
  intros H1 Hk Hl H2 x. rewrite H2, H1. destruct (decide (p + k <= x < p + k + l)); [by rewrite decide_True by lia|]. destruct (decide (p <= x < p + k)); [by rewrite decide_True by lia|by rewrite decide_False by lia].
Qed.

Lemma filled_mapped m m1 p k c a n : filled m p k c m1 -> mapped m a n -> mapped m1 a n.
Proof. intros H1 Hm x Hx. rewrite H1. case_decide; [|by apply Hm]. eexists. split; [done|]. apply Z.mod_pos_bound. lia. Qed.

Lemma set_bytes_wp m p c len : forall k m1, mapped m p (k + Z.of_nat len) -> filled m p k c m1 -> 0 <= k ->
  wp (set_bytes len (p + k) c) (fun r m2 => r = p + (k + Z.of_nat len) /\ filled m p (k + Z.of_nat len) c m2) m1.
Proof.
  induction len as [|len IH]; intros k m1 Hm H1 Hk; cbn [set_bytes]; [wp_step; by rewrite Z.add_0_r|].
  destruct (filled_mapped m m1 p k c (p + k) 1 H1 ltac:(eapply mapped_le; [exact Hm|lia..]) (p + k) ltac:(lia)) as (b & Hb & _). wp_step. apply stb_wp; [eauto|].
  replace (p + k + 1) with (p + (k + 1)) by lia. replace (k + Z.of_nat (S len)) with (k + 1 + Z.of_nat len) in * by lia. apply IH; [done| |lia]. eapply filled_step; [done|lia|lia|]. intros x.
  destruct (decide (x = p + k)) as [->|Hne]; [by rewrite lookup_insert_eq, decide_True by lia|by rewrite lookup_insert_ne, decide_False by lia].
Qed.

Lemma set_words_wp m p c len : forall k m1, mapped m p (k + 8 * Z.of_nat len) -> filled m p k c m1 -> 0 <= k -> (p + k) mod 8 = 0 ->
  wp (set_words len (p + k) (fill_word c)) (fun r m2 => r = p + (k + 8 * Z.of_nat len) /\ filled m p (k + 8 * Z.of_nat len) c m2) m1.
Proof.
  induction len as [|len IH]; intros k m1 Hm H1 Hk H8; cbn [set_words]; [wp_step; by rewrite Z.mul_0_r, Z.add_0_r|].
  unfold stw. change lsize with 8. rewrite H8. change (0 =? 0) with true. cbv iota. wp_step. eapply wp_mono; [apply stn_wp; eapply filled_mapped; [done|eapply mapped_le; [exact Hm|lia..]]|]. intros ? m2 H2.
  replace (p + k + 8) with (p + (k + 8)) by lia. replace (k + 8 * Z.of_nat (S len)) with (k + 8 + 8 * Z.of_nat len) in * by lia. apply IH; [done| |lia|].
  - eapply (filled_step m m1 m2 p k 8 c); [done|lia|lia|]. intros x. rewrite H2. change (Z.of_nat 8) with 8. case_decide; [|done]. by rewrite fill_word_byte by lia.
  - rewrite Z.add_assoc. rewrite <- (Z.mul_1_l 8) at 1. by rewrite Z.mod_add.
Qed.

Lemma neg_mask s : 0 <= s -> let len := Z.land (u64 (- s)) 7 in 0 <= len < 8 /\ (s + len) mod 8 = 0.
Proof.
  intros Hs len. assert (len = (- s) mod 8) as ->.
  { unfold len. change 7 with (Z.ones 3). rewrite Z.land_ones by lia. unfold u64. change (2 ^ 3) with 8. apply Z.mod_mod_divide. by exists (2 ^ 61). }
  pose proof (Z.mod_pos_bound (- s) 8 ltac:(lia)). split; [done|]. pose proof (Z.div_mod (- s) 8 ltac:(lia)). replace (s + (- s) mod 8) with (0 + - (- s / 8) * 8) by lia. by rewrite Z.mod_add.
Qed.

Lemma memset_fills m s c n : mapped m s n -> 0 <= s -> 0 <= n -> wp (memset s c n) (fun r m' => r = s /\ filled m s n c m') m.
Proof.
  intros Hm Hs Hn. unfold memset. destruct (neg_mask s Hs) as [Hl H8]. set (len := Z.land (u64 (- s)) 7) in *. assert (filled m s 0 c m) as H0 by (intros x; by rewrite decide_False by lia).
  wp_step. apply (wp_mono _ (fun r m1 => exists k, r = (s + k, n - k) /\ 0 <= k <= n /\ filled m s k c m1)).
  - destruct (Z.ltb_spec len n) as [Hlt|Hge]; [|wp_step; exists 0; rewrite Z.add_0_r, Z.sub_0_r; split; [done|]; split; [lia|done]].
    pose proof (set_bytes_wp m s c (Z.to_nat len) 0 m ltac:(eapply mapped_le; [exact Hm|lia..]) H0 ltac:(lia)) as Hw. rewrite Z.add_0_r, Z.add_0_l, Z2Nat.id in Hw by lia.
    wp_step. eapply wp_mono; [exact Hw|]. intros ? m1 [-> H1]. pose proof (Z.div_mod (n - len) 8 ltac:(lia)) as Em. pose proof (Z.mod_pos_bound (n - len) 8 ltac:(lia)). pose proof (Z.div_pos (n - len) 8 ltac:(lia) ltac:(lia)).
    set (q := (n - len) / 8) in *. pose proof (set_words_wp m s c (Z.to_nat q) len m1 ltac:(eapply mapped_le; [exact Hm|lia..]) H1 ltac:(lia) H8) as Hw2. rewrite Z2Nat.id in Hw2 by lia.
    wp_step. eapply wp_mono; [exact Hw2|]. intros ? m2 [-> Hf2]. wp_step. exists (len + 8 * q). split; [|split; [lia|done]]. f_equal. change 7 with lmask. rewrite land_lmask. lia.
  - intros ? m1 (k & -> & Hk & H1). cbv beta iota. wp_step. eapply wp_mono; [apply (set_bytes_wp m s c _ k); [eapply mapped_le; [exact Hm|lia..]|done|lia]|]. intros ? m2 [_ H2]. wp_step. split; [done|].
    rewrite Z2Nat.id in H2 by lia. by replace (k + (n - k)) with n in H2 by lia.
Qed.

(** ** Searching and comparing *)

(** The first of [n] bytes that is [x]. *)
Lemma memchr_wp m buf c n : mapped m buf n -> 0 <= n -> 0 < buf ->
  wp (memchr buf c n) (fun r m' => m' = m /\ ((r = 0 /\ forall i, 0 <= i < n -> m !! (buf + i) <> Some (c mod 256)) \/
    (exists i, 0 <= i < n /\ r = buf + i /\ m !! r = Some (c mod 256) /\ forall j, 0 <= j < i -> m !! (buf + j) <> Some (c mod 256)))) m.
Proof.
  intros Hm Hn Hb. unfold memchr. change 0xff with (Z.ones 8). rewrite Z.land_ones by lia. change (2 ^ 8) with 256. set (x := c mod 256). remember (Z.to_nat n) as len eqn:El. assert (n = Z.of_nat len) as -> by lia. clear El Hn.
  revert buf Hm Hb. induction len as [|len IH]; intros buf Hm Hb; cbn [memchr_from]; [wp_step; split; [done|]; left; split; [done|lia]|].
  destruct (Hm buf ltac:(lia)) as (b & Eb & _). wp_step. eapply ldb_wp; [done|]. destruct (Z.eqb_spec b x) as [->|Hne].
  - wp_step. split; [done|]. right. exists 0. rewrite Z.add_0_r. split; [lia|]. split; [done|]. split; [done|lia].
  - eapply wp_mono; [apply IH; [eapply mapped_le; [exact Hm|lia..]|lia]|]. intros r m' [-> Hr]. split; [done|]. assert (forall i, 0 <= i -> buf + 1 + i = buf + (i + 1)) as Ei by lia. destruct Hr as [[-> Hno]|(i & Hi & -> & Ex & Hno)].
    + left. split; [done|]. intros i Hi. destruct (decide (i = 0)) as [->|]; [rewrite Z.add_0_r; congruence|]. replace (buf + i) with (buf + 1 + (i - 1)) by lia. apply Hno. lia.
    + right. exists (i + 1). rewrite Ei in * by lia. split; [lia|]. split; [done|]. split; [done|]. intros j Hj. destruct (decide (j = 0)) as [->|]; [rewrite Z.add_0_r; congruence|].
      replace (buf + j) with (buf + 1 + (j - 1)) by lia. apply Hno. lia.
Qed.

Lemma schar_zero a b : 0 <= a < 256 -> 0 <= b < 256 -> schar (a - b) = 0 <-> a = b.
Proof.
  intros Ha Hb. unfold schar. split; [|intros ->; by rewrite Z.sub_diag]. intros H. pose proof (Z.mod_pos_bound (a - b) 256 ltac:(lia)). pose proof (Z.div_mod (a - b) 256 ltac:(lia)).
  destruct (Z.ltb_spec ((a - b) mod 256) 128); lia.
Qed.

(** 0 when the bytes are equal, and the difference at the first place where they are not, cut to a [signed char]. *)
Lemma memcmp_wp m p q n : mapped m p n -> mapped m q n -> 0 <= n ->
  wp (memcmp p q n) (fun r m' => m' = m /\ ((r = 0 /\ forall i, 0 <= i < n -> m !! (p + i) = m !! (q + i)) \/
    (exists i a b, 0 <= i < n /\ m !! (p + i) = Some a /\ m !! (q + i) = Some b /\ a <> b /\ r = schar (a - b) /\ r <> 0 /\ forall j, 0 <= j < i -> m !! (p + j) = m !! (q + j)))) m.
Proof.
  intros Hp Hq Hn. unfold memcmp. remember (Z.to_nat n) as len eqn:El. assert (n = Z.of_nat len) as -> by lia. clear El Hn. revert p q Hp Hq. induction len as [|len IH]; intros p q Hp Hq; cbn [memcmp_from].
  { wp_step. split; [done|]. left. split; [done|lia]. }
  destruct (Hp p ltac:(lia)) as (a & Ea & Ra). destruct (Hq q ltac:(lia)) as (b & Eb & Rb). wp_step. eapply ldb_wp; [done|]. wp_step. eapply ldb_wp; [done|]. cbv zeta.
  destruct (Z.eqb_spec (schar (a - b)) 0) as [E|E]; cbn [negb].
  - rewrite E. apply schar_zero in E as ->; [|done..]. eapply wp_mono; [apply IH; [eapply mapped_le; [exact Hp|lia..]|eapply mapped_le; [exact Hq|lia..]]|]. intros r m' [-> Hr]. split; [done|].
    assert (forall j, 0 <= j -> (forall i, 0 <= i < j -> m !! (p + 1 + i) = m !! (q + 1 + i)) -> forall i, 0 <= i < j + 1 -> m !! (p + i) = m !! (q + i)) as Hs.
    { intros j Hj Hall i Hi. destruct (decide (i = 0)) as [->|]; [rewrite !Z.add_0_r; congruence|]. specialize (Hall (i - 1) ltac:(lia)). replace (p + 1 + (i - 1)) with (p + i) in Hall by lia. by replace (q + 1 + (i - 1)) with (q + i) in Hall by lia. }
    destruct Hr as [[-> Hall]|(i & x & y & Hi & Ex & Ey & Hne & -> & H0 & Hall)]; [left; split; [done|]; intros i Hi; apply (Hs (Z.of_nat len)); [lia|done|lia]|].
    right. exists (i + 1), x, y. split; [lia|]. replace (p + (i + 1)) with (p + 1 + i) by lia. replace (q + (i + 1)) with (q + 1 + i) by lia. split_and!; try done. apply Hs; [lia|done].
  - wp_step. split; [done|]. right. exists 0, a, b. rewrite !Z.add_0_r. split_and!; try done; try lia. intros ->. apply E. by apply schar_zero.
Qed.
