(* ===== verification/LibcString.v ===== *)
(** * Strings of the C library

    [lib/libc/string] and [lib/libc/ctype.c]: strings that end in a zero byte, in the memory of [LibcMem].  The loops that run to the end
    of a string take as much fuel as there are bytes.  Whether a [char] is signed is a choice of the machine. *)

From stdpp Require Import base gmap list numbers strings.
From S2P Require Import Prelude Align LibcMem.

(** ** [ctype.c] *)

Definition isblank (c : Z) : bool := (c =? 32) || (c =? 9).
Definition isspace (c : Z) : bool := (c =? 32) || (c =? 12) || (c =? 10) || (c =? 13) || (c =? 9) || (c =? 11).
Definition islower (c : Z) : bool := (97 <=? c) && (c <=? 122).
Definition isupper (c : Z) : bool := (65 <=? c) && (c <=? 90).
Definition isdigit (c : Z) : bool := (48 <=? c) && (c <=? 57).
Definition isalpha (c : Z) : bool := isupper c || islower c.
Definition isalnum (c : Z) : bool := isalpha c || isdigit c.
Definition isxdigit (c : Z) : bool := isdigit c || ((97 <=? c) && (c <=? 102)) || ((65 <=? c) && (c <=? 70)).
Definition isgraph (c : Z) : bool := (32 <? c) && (c <? 0x7f).
Definition iscntrl (c : Z) : bool := (c <? 32) || (c =? 0x7f).
Definition isprint (c : Z) : bool := (0x20 <=? c) && (c <? 0x7f).
Definition ispunct (c : Z) : bool := isgraph c && negb (isalnum c).
Definition tolower (c : Z) : Z := if (65 <=? c) && (c <=? 90) then c + (97 - 65) else c.
Definition toupper (c : Z) : Z := if (97 <=? c) && (c <=? 122) then c + (65 - 97) else c.

(** ** Lengths *)

Definition fuel : M cmem nat := gets (fun m => S (size m)).

Fixpoint strlen_from (f : nat) (s i : Z) : M cmem Z :=
  match f with
  | O => fail OutOfFuel
  | S f => do c <- ldb (s + i); if c =? 0 then ret i else strlen_from f s (i + 1)
  end.
Definition strlen (s : Z) : M cmem Z := do f <- fuel; strlen_from f s 0.

Fixpoint strnlen_from (f : nat) (sc count : Z) : M cmem Z :=
  if count =? 0 then ret sc
  else
    match f with
    | O => fail OutOfFuel
    | S f => do c <- ldb sc; if c =? 0 then ret sc else strnlen_from f (sc + 1) (count - 1)
    end.
Definition strnlen (s count : Z) : M cmem Z := do f <- fuel; do sc <- strnlen_from f s count; ret (sc - s).

(** ** Copying *)

Fixpoint strcpy_from (f : nat) (dest src : Z) : M cmem unit :=
  match f with
  | O => fail OutOfFuel
  | S f => do c <- ldb src; stb dest c ;; if c =? 0 then ret tt else strcpy_from f (dest + 1) (src + 1)
  end.
Definition strcpy (dest src : Z) : M cmem Z := do f <- fuel; strcpy_from f dest src ;; ret dest.

(** The end of a string, as [strcat] and [strncat] look for it. *)
Fixpoint str_end (f : nat) (dest : Z) : M cmem Z :=
  match f with
  | O => fail OutOfFuel
  | S f => do c <- ldb dest; if c =? 0 then ret dest else str_end f (dest + 1)
  end.
Definition strcat (dest src : Z) : M cmem Z := do f <- fuel; do e <- str_end f dest; strcpy_from f e src ;; ret dest.

Fixpoint strncat_from (f : nat) (dest src count : Z) : M cmem unit :=
  match f with
  | O => fail OutOfFuel
  | S f =>
      do c <- ldb src;
      stb dest c ;;
      if c =? 0 then ret tt
      else if count - 1 =? 0 then stb (dest + 1) 0 else strncat_from f (dest + 1) (src + 1) (count - 1)
  end.
Definition strncat (dest src count : Z) : M cmem Z :=
  when (0 <? count) (do f <- fuel; do e <- str_end f dest; strncat_from f e src count) ;; ret dest.

(** The first loop of [strncpy]: the place it stops at, and [i], which is one ahead. *)
Fixpoint strncpy_from (f : nat) (dest src i count : Z) : M cmem (Z * Z) :=
  if i <? count then
    match f with
    | O => fail OutOfFuel
    | S f => do c <- ldb src; stb dest c ;; if c =? 0 then ret (dest + 1, i + 1) else strncpy_from f (dest + 1) (src + 1) (i + 1) count
    end
  else ret (dest, i + 1).
Definition strncpy (dest src count : Z) : M cmem Z :=
  do f <- fuel;
  do ' (d, i) <- strncpy_from f dest src 0 count;
  do r <- set_bytes (Z.to_nat (count - i)) d 0;
  ret dest.

(** The loop of [strlcpy] and [strlcat]: up to [n] bytes that are not zero. *)
Fixpoint copy_nonzero (f : nat) (dst src i n : Z) : M cmem Z :=
  if i <? n then
    match f with
    | O => fail OutOfFuel
    | S f => do c <- ldb (src + i); if c =? 0 then ret i else stb (dst + i) c ;; copy_nonzero f dst src (i + 1) n
    end
  else ret i.

Definition strlcpy (dst src s : Z) : M cmem Z :=
  if s =? 0 then strlen src
  else
    do f <- fuel;
    do i <- copy_nonzero f dst src 0 (s - 1);
    stb (dst + i) 0 ;;
    do n <- strlen (src + i);
    ret (i + n).

Definition strlcat (dst src s : Z) : M cmem Z :=
  do j <- strnlen dst s;
  if s =? 0 then do n <- strlen src; ret (j + n)
  else
    let dst := dst + j in
    do f <- fuel;
    do i <- copy_nonzero f dst src 0 (s - 1);
    stb (dst + i) 0 ;;
    do n <- strlen (src + i);
    ret (j + i + n).

Definition strxfrm (dest src n : Z) : M cmem Z :=
  do len <- strlen src;
  when (negb (n =? 0))
    (let copy_len := if len <? n then len else n - 1 in
     do r <- memcpy dest src copy_len; stb (dest + copy_len) 0) ;;
  ret len.

(** [copy] is what [malloc] returns for the [len] bytes. *)
Definition strdup (malloc : Z -> Z) (str : Z) : M cmem Z :=
  do n <- strlen str;
  let len := n + 1 in
  let copy := malloc len in
  if copy =? 0 then ret 0 else do r <- memcpy copy str len; ret copy.

Definition strerror (errnum : Z) : string := if errnum <? 0 then "General Error" else "No Error".

(** ** Searching *)

Fixpoint strspn_in (f : nat) (c a : Z) : M cmem Z :=
  match f with
  | O => fail OutOfFuel
  | S f => do x <- ldb a; if x =? 0 then ret a else if c =? x then ret a else strspn_in f c (a + 1)
  end.
Fixpoint strspn_from (f f' : nat) (p accept count : Z) : M cmem Z :=
  match f with
  | O => fail OutOfFuel
  | S f =>
      do c <- ldb p;
      if c =? 0 then ret count
      else
        do a <- strspn_in f' c accept;
        do x <- ldb a;
        if x =? 0 then ret count else strspn_from f f' (p + 1) accept (count + 1)
  end.
Definition strspn (s accept : Z) : M cmem Z := do f <- fuel; strspn_from f f s accept 0.

Fixpoint strpbrk_in (f : nat) (c sc2 : Z) : M cmem bool :=
  match f with
  | O => fail OutOfFuel
  | S f => do x <- ldb sc2; if x =? 0 then ret false else if c =? x then ret true else strpbrk_in f c (sc2 + 1)
  end.
Fixpoint strpbrk_from (f f' : nat) (sc1 ct : Z) : M cmem Z :=
  match f with
  | O => fail OutOfFuel
  | S f =>
      do c <- ldb sc1;
      if c =? 0 then ret 0
      else do found <- strpbrk_in f' c ct; if found : bool then ret sc1 else strpbrk_from f f' (sc1 + 1) ct
  end.
Definition strpbrk (cs ct : Z) : M cmem Z := do f <- fuel; strpbrk_from f f cs ct.

(** [l1] and [l2] are [int]s. *)
Fixpoint strstr_from (f : nat) (s1 s2 l1 l2 : Z) : M cmem Z :=
  if l2 <=? l1 then
    match f with
    | O => fail OutOfFuel
    | S f => do r <- memcmp s1 s2 l2; if r =? 0 then ret s1 else strstr_from f (s1 + 1) s2 (l1 - 1) l2
    end
  else ret 0.
Definition strstr (s1 s2 : Z) : M cmem Z :=
  do l2 <- strlen s2;
  let l2 := s32 l2 in
  if l2 =? 0 then ret s1
  else
    do l1 <- strlen s1;
    do f <- fuel;
    strstr_from f s1 s2 (s32 l1) l2.

(** What is returned, with what is left in [___strtok]. *)
Definition strtok (saved s ct : Z) : M cmem (Z * Z) :=
  let sbegin := if negb (s =? 0) then s else saved in
  if sbegin =? 0 then ret (0, saved)
  else
    do n <- strspn sbegin ct;
    let sbegin := sbegin + n in
    do c <- ldb sbegin;
    if c =? 0 then ret (0, 0)
    else
      do send <- strpbrk sbegin ct;
      do send <-
        (if negb (send =? 0) then
           do c <- ldb send;
           if negb (c =? 0) then stb send 0 ;; ret (send + 1) else ret send
         else ret send);
      ret (sbegin, send).

Section chars.
Context (char_signed : bool).

(** A [char] as an [int]. *)
Definition cval (b : Z) : Z := if char_signed then schar b else b.

Fixpoint strchr_from (f : nat) (s c : Z) : M cmem Z :=
  match f with
  | O => fail OutOfFuel
  | S f => do x <- ldb s; if x =? c mod 256 then ret s else if x =? 0 then ret 0 else strchr_from f (s + 1) c
  end.
Definition strchr (s c : Z) : M cmem Z := do f <- fuel; strchr_from f s c.

Fixpoint strrchr_from (f : nat) (s c last : Z) : M cmem Z :=
  match f with
  | O => fail OutOfFuel
  | S f => do x <- ldb s; if x =? 0 then ret last else strrchr_from f (s + 1) c (if cval x =? c then s else last)
  end.
Definition strrchr (s c : Z) : M cmem Z := do f <- fuel; strrchr_from f s c (if negb (c =? 0) then 0 else s).

(** ** Comparing *)

Fixpoint strcmp_from (f : nat) (cs ct : Z) : M cmem Z :=
  match f with
  | O => fail OutOfFuel
  | S f =>
      do a <- ldb cs;
      do b <- ldb ct;
      let res := schar (cval a - cval b) in
      if negb (res =? 0) || (a =? 0) then ret res else strcmp_from f (cs + 1) (ct + 1)
  end.
Definition strcmp (cs ct : Z) : M cmem Z := do f <- fuel; strcmp_from f cs ct.
Definition strcoll (s1 s2 : Z) : M cmem Z := strcmp s1 s2.

Fixpoint strncmp_from (f : nat) (cs ct count res : Z) : M cmem Z :=
  if 0 <? count then
    match f with
    | O => fail OutOfFuel
    | S f =>
        do a <- ldb cs;
        do b <- ldb ct;
        let res := schar (cval a - cval b) in
        if negb (res =? 0) || (a =? 0) then ret res else strncmp_from f (cs + 1) (ct + 1) (count - 1) res
    end
  else ret res.
Definition strncmp (cs ct count : Z) : M cmem Z := do f <- fuel; strncmp_from f cs ct count 0.

Fixpoint strcasecmp_from (f : nat) (cs ct : Z) : M cmem Z :=
  match f with
  | O => fail OutOfFuel
  | S f =>
      do a <- ldb cs;
      do b <- ldb ct;
      let res := schar (tolower (cval a) - tolower (cval b)) in
      if negb (res =? 0) || (a =? 0) then ret res else strcasecmp_from f (cs + 1) (ct + 1)
  end.
Definition strcasecmp (cs ct : Z) : M cmem Z := do f <- fuel; strcasecmp_from f cs ct.
End chars.

Fixpoint strnicmp_from (f : nat) (s1 s2 len : Z) : M cmem Z :=
  match f with
  | O => fail OutOfFuel
  | S f =>
      do c1 <- ldb s1;
      do c2 <- ldb s2;
      if c1 =? 0 then ret (c1 - c2)
      else if c2 =? 0 then ret (c1 - c2)
      else if c1 =? c2 then if len - 1 =? 0 then ret (c1 - c2) else strnicmp_from f (s1 + 1) (s2 + 1) (len - 1)
      else
        let c1 := tolower c1 in
        let c2 := tolower c2 in
        if negb (c1 =? c2) then ret (c1 - c2)
        else if len - 1 =? 0 then ret (c1 - c2) else strnicmp_from f (s1 + 1) (s2 + 1) (len - 1)
  end.
Definition strnicmp (s1 s2 len : Z) : M cmem Z := if 0 <? len then do f <- fuel; strnicmp_from f s1 s2 len else ret 0.

(** ** Strings in memory *)

Fixpoint str (m : cmem) (p : Z) (l : list Z) : Prop :=
  match l with
  | [] => m !! p = Some 0
  | c :: l => m !! p = Some c /\ 0 < c < 256 /\ str m (p + 1) l
  end.

Section strings.
Implicit Types (m : cmem) (l : list Z).
Notation len l := (Z.of_nat (length l)).

Lemma str_lookup m p l i c : str m p l -> l !! i = Some c -> m !! (p + Z.of_nat i) = Some c /\ 0 < c < 256.
Proof.
  revert p i. induction l as [|x l IH]; intros p i Hs Hi; [done|]. destruct Hs as (Hx & Hr & Hs). destruct i as [|i]; [injection Hi as ->; by rewrite Z.add_0_r|].
  destruct (IH _ _ Hs Hi) as [E ?]. split; [|done]. rewrite <- E. f_equal. lia.
Qed.

Lemma str_end_byte m p l : str m p l -> m !! (p + len l) = Some 0.
Proof. revert p. induction l as [|x l IH]; intros p Hs; cbn in *; [by rewrite Z.add_0_r|]. rewrite <- (IH (p + 1)) by tauto. f_equal. lia. Qed.

Lemma str_drop m p l i : str m p l -> (i <= length l)%nat -> str m (p + Z.of_nat i) (drop i l).
Proof.
  revert p i. induction l as [|x l IH]; intros p i Hs Hi; destruct i as [|i]; cbn in *; try (by rewrite Z.add_0_r); [lia|]. replace (p + Z.of_nat (S i)) with (p + 1 + Z.of_nat i) by lia. apply IH; [tauto|lia].
Qed.

Lemma str_mapped m p l : str m p l -> mapped m p (len l + 1).
Proof.
  revert p. induction l as [|x l IH]; intros p Hs y Hy; cbn in *; [exists 0; split; [by replace y with p by lia|lia]|]. destruct Hs as (Hx & Hr & Hs).
  destruct (decide (y = p)) as [->|]; [exists x; split; [done|lia]|]. apply (IH (p + 1) Hs). lia.
Qed.

Lemma str_frame m m' p l : str m p l -> (forall x, p <= x <= p + len l -> m' !! x = m !! x) -> str m' p l.
Proof.
  revert p. induction l as [|x l IH]; intros p Hs Hx; cbn in *; [by rewrite Hx by lia|]. destruct Hs as (Hp & Hr & Hs). rewrite Hx by lia. split; [done|]. split; [done|]. apply IH; [done|]. intros y Hy. apply Hx. lia.
Qed.

Lemma str_app m p l1 l2 : str m p (l1 ++ l2) -> str m (p + len l1) l2.
Proof. intros Hs. pose proof (str_drop _ _ _ (length l1) Hs ltac:(rewrite length_app; lia)) as Hd. by rewrite drop_app_length in Hd. Qed.

(** A string whose end is moved forward. *)
Lemma str_cut m m' p l1 l2 : str m p (l1 ++ l2) -> (forall x, p <= x < p + len l1 -> m' !! x = m !! x) -> m' !! (p + len l1) = Some 0 -> str m' p l1.
Proof.
  revert p. induction l1 as [|x l1 IH]; intros p Hs Hx H0; cbn in *; [by rewrite Z.add_0_r in H0|]. destruct Hs as (Hp & Hr & Hs). rewrite Hx by lia. split; [done|]. split; [done|].
  apply IH; [done|intros y Hy; apply Hx; lia|]. rewrite <- H0. f_equal. lia.
Qed.

(** There is as much fuel as the string is long. *)
Lemma str_fuel m p l : str m p l -> (length l < S (size m))%nat.
Proof.
  intros Hs. assert (list_to_set (seqZ p (len l)) ⊆ dom m) as Hsub.
  { intros x [Hx1 Hx2]%elem_of_list_to_set%elem_of_seqZ. destruct (str_mapped m p l Hs x ltac:(lia)) as (b & Hb & _). by apply elem_of_dom. }
  apply subseteq_size in Hsub. rewrite size_dom, size_list_to_set, length_seqZ in Hsub by apply NoDup_seqZ. lia.
Qed.

Lemma fuel_wp Q m : Q (S (size m)) m -> wp fuel Q m.
Proof. intros HQ. unfold fuel. by wp_step. Qed.

(** ** Lengths *)

Lemma strlen_from_wp f : forall m p l i, str m (p + i) l -> (length l < f)%nat -> wp (strlen_from f p i) (fun r m' => r = i + len l /\ m' = m) m.
Proof.
  induction f as [|f IH]; intros m p l i Hs Hf; [lia|]. cbn [strlen_from]. wp_step. destruct l as [|c l]; cbn in Hs.
  - eapply ldb_wp; [done|]. change (0 =? 0) with true. cbv iota. wp_step. cbn. split; [lia|done].
  - destruct Hs as (Hc & Hr & Hs). eapply ldb_wp; [done|]. rewrite (proj2 (Z.eqb_neq c 0)) by lia. cbn in Hf. eapply wp_mono; [apply (IH m p l (i + 1)); [by rewrite Z.add_assoc|lia]|]. intros r m' [-> ->]. split; [cbn; lia|done].
Qed.

Lemma strlen_wp m p l : str m p l -> wp (strlen p) (fun r m' => r = len l /\ m' = m) m.
Proof.
  intros Hs. unfold strlen. wp_step. apply fuel_wp. pose proof (str_fuel _ _ _ Hs). eapply wp_mono; [apply (strlen_from_wp _ m p l 0); [by rewrite Z.add_0_r|done]|]. intros r m' [-> ->]. split; [lia|done].
Qed.

Lemma strnlen_from_wp f : forall m p l n, str m p l -> 0 <= n -> (length l < f)%nat -> wp (strnlen_from f p n) (fun r m' => r = p + Z.min n (len l) /\ m' = m) m.
Proof.
  induction f as [|f IH]; intros m p l n Hs Hn Hf; [lia|]. cbn [strnlen_from]. destruct (Z.eqb_spec n 0) as [->|H0]; [wp_step; split; [lia|done]|]. wp_step. destruct l as [|c l]; cbn in Hs.
  - eapply ldb_wp; [done|]. change (0 =? 0) with true. cbv iota. wp_step. cbn. split; [lia|done].
  - destruct Hs as (Hc & Hr & Hs). eapply ldb_wp; [done|]. rewrite (proj2 (Z.eqb_neq c 0)) by lia. cbn in Hf. eapply wp_mono; [apply (IH m (p + 1) l (n - 1)); [done|lia|lia]|]. intros r m' [-> ->]. split; [cbn; lia|done].
Qed.

Lemma strnlen_wp m p l n : str m p l -> 0 <= n -> wp (strnlen p n) (fun r m' => r = Z.min n (len l) /\ m' = m) m.
Proof.
  intros Hs Hn. unfold strnlen. wp_step. apply fuel_wp. pose proof (str_fuel _ _ _ Hs). wp_step. eapply wp_mono; [by apply (strnlen_from_wp _ m p l n)|]. intros r m' [-> ->]. wp_step. split; [lia|done].
Qed.

(** ** Copying *)

(** A loop of [copy_nonzero] that has copied the first [i] bytes. *)
Lemma copy_nonzero_wp f : forall m m1 d s l n i, str m s l -> mapped m d n -> (d + n <= s \/ s + (len l + 1) <= d) -> moved m d s 0 i m1 -> 0 <= i <= len l -> i <= n -> (length l - Z.to_nat i < f)%nat ->
  wp (copy_nonzero f d s i n) (fun r m2 => r = Z.min n (len l) /\ moved m d s 0 r m2) m1.
Proof.
  induction f as [|f IH]; intros m m1 d s l n i Hs Hm Hap H1 Hi Hin Hf; [lia|]. cbn [copy_nonzero]. destruct (Z.ltb_spec i n) as [Hlt|Hge]; [|wp_step; replace (Z.min n (len l)) with i by lia; done].
  destruct (decide (i = len l)) as [->|Hne].
  - pose proof (str_end_byte _ _ _ Hs) as He. wp_step. eapply (ldb_wp _ _ 0); [rewrite H1, decide_False by lia; done|]. change (0 =? 0) with true. cbv iota. wp_step. rewrite Z.min_r by lia. done.
  - destruct (lookup_lt_is_Some_2 l (Z.to_nat i) ltac:(lia)) as [c Hc]. destruct (str_lookup _ _ _ _ _ Hs Hc) as [Ec Hr]. rewrite Z2Nat.id in Ec by lia. destruct (Hm (d + i) ltac:(lia)) as (b & Hb & _).
    wp_step. eapply (ldb_wp _ _ c); [rewrite H1, decide_False by lia; done|]. rewrite (proj2 (Z.eqb_neq c 0)) by lia. wp_step. apply stb_wp; [rewrite H1, decide_False by lia; eauto|]. rewrite stb_byte by lia.
    apply (IH m _ d s l n (i + 1)); try done; try lia. pose proof (moved_step m m1 (<[d + i := c]> m1) d s 0 i i (i + 1) H1 ltac:(lia) ltac:(lia) ltac:(lia)) as Hst. rewrite Z.min_l, Z.max_r in Hst by lia. apply Hst. intros x.
    destruct (decide (x = d + i)) as [->|Hx]; [rewrite lookup_insert_eq, decide_True by lia|by rewrite lookup_insert_ne, decide_False by lia]. replace (s + (d + i - d)) with (s + i) by lia. by rewrite H1, decide_False by lia.
Qed.

Lemma str_intro m p l : (forall i c, l !! i = Some c -> m !! (p + Z.of_nat i) = Some c /\ 0 < c < 256) -> m !! (p + len l) = Some 0 -> str m p l.
Proof.
  revert p. induction l as [|x l IH]; intros p Hl H0; cbn; [by rewrite Z.add_0_r in H0|]. destruct (Hl 0%nat x eq_refl) as [Hx Hr]. rewrite Z.add_0_r in Hx. split; [done|]. split; [done|].
  apply IH; [|rewrite <- H0; f_equal; cbn; lia]. intros i c Hi. destruct (Hl (S i) c Hi) as [E ?]. split; [|done]. rewrite <- E. f_equal. lia.
Qed.

(** What was copied, with a zero at its end. *)
Lemma moved_str m m1 d s l k : str m s l -> moved m d s 0 k m1 -> 0 <= k <= len l -> str (<[d + k := 0]> m1) d (take (Z.to_nat k) l).
Proof.
  intros Hs Hm Hk. assert (length (take (Z.to_nat k) l) = Z.to_nat k) as El by (rewrite length_take; lia). apply str_intro.
  - intros i c Hi. pose proof (lookup_lt_Some _ _ _ Hi) as Hlt. rewrite El in Hlt. rewrite lookup_take_lt in Hi by lia. destruct (str_lookup _ _ _ _ _ Hs Hi) as [E ?]. split; [|done].
    rewrite lookup_insert_ne, Hm, decide_True by lia. rewrite <- E. f_equal. lia.
  - rewrite El, Z2Nat.id by lia. apply lookup_insert_eq.
Qed.

(** [strlcpy] fills at most [n] bytes, always with a string, and returns the length it would have needed. *)
Lemma strlcpy_wp m d s l n : str m s l -> mapped m d n -> 0 < n -> (d + n <= s \/ s + (len l + 1) <= d) ->
  wp (strlcpy d s n) (fun r m' => r = len l /\ str m' d (take (Z.to_nat (n - 1)) l) /\ forall x, ~ d <= x < d + Z.min n (len l + 1) -> m' !! x = m !! x) m.
Proof.
  intros Hs Hm Hn Hap. unfold strlcpy. rewrite (proj2 (Z.eqb_neq n 0)) by lia. pose proof (str_fuel _ _ _ Hs) as Hf. wp_step. apply fuel_wp.
  wp_step. eapply wp_mono; [apply (copy_nonzero_wp _ m m d s l (n - 1) 0); try done; try lia; [eapply mapped_le; [exact Hm|lia..]|apply moved_nil]|]. intros k m1 [-> H1]. set (k := Z.min (n - 1) (len l)) in *.
  destruct (Hm (d + k) ltac:(lia)) as (b & Hb & _). wp_step. apply stb_wp; [rewrite H1, decide_False by lia; eauto|]. change (0 mod 256) with 0. set (m2 := <[d + k := 0]> m1).
  assert (forall x, ~ d <= x < d + (k + 1) -> m2 !! x = m !! x) as Hout by (intros x Hx; unfold m2; rewrite lookup_insert_ne, H1, decide_False by lia; done).
  assert (str m2 (s + k) (drop (Z.to_nat k) l)) as Hd.
  { apply (str_frame m); [replace (s + k) with (s + Z.of_nat (Z.to_nat k)) by lia; apply str_drop; [done|lia]|]. intros x. rewrite length_drop. intros Hx. apply Hout. lia. }
  wp_step. eapply wp_mono; [exact (strlen_wp _ _ _ Hd)|]. intros r m' [-> ->]. wp_step. rewrite length_drop. split; [lia|]. split; [|intros x Hx; apply Hout; lia].
  replace (take (Z.to_nat (n - 1)) l) with (take (Z.to_nat k) l); [apply (moved_str m m1 d s); [done|done|lia]|]. destruct (Z.le_gt_cases (n - 1) (len l)); [by replace (n - 1) with k by lia|rewrite !take_ge by lia; done].
Qed.

Lemma strcpy_from_wp f : forall m m1 d s l i, str m s l -> mapped m d (len l + 1) -> (d + (len l + 1) <= s \/ s + (len l + 1) <= d) -> moved m d s 0 i m1 -> 0 <= i <= len l -> (length l - Z.to_nat i < f)%nat ->
  wp (strcpy_from f (d + i) (s + i)) (fun _ m2 => moved m d s 0 (len l + 1) m2) m1.
Proof.
  induction f as [|f IH]; intros m m1 d s l i Hs Hm Hap H1 Hi Hf; [lia|]. cbn [strcpy_from]. destruct (Hm (d + i) ltac:(lia)) as (b & Hb & _). destruct (str_mapped _ _ _ Hs (s + i) ltac:(lia)) as (c & Ec & Hr).
  wp_step. eapply (ldb_wp _ _ c); [rewrite H1, decide_False by lia; done|]. wp_step. apply stb_wp; [rewrite H1, decide_False by lia; eauto|]. rewrite stb_byte by lia.
  assert (moved m d s 0 (i + 1) (<[d + i := c]> m1)) as H2.
  { pose proof (moved_step m m1 (<[d + i := c]> m1) d s 0 i i (i + 1) H1 ltac:(lia) ltac:(lia) ltac:(lia)) as Hst. rewrite Z.min_l, Z.max_r in Hst by lia. apply Hst. intros x.
    destruct (decide (x = d + i)) as [->|Hx]; [rewrite lookup_insert_eq, decide_True by lia|by rewrite lookup_insert_ne, decide_False by lia]. replace (s + (d + i - d)) with (s + i) by lia. by rewrite H1, decide_False by lia. }
  destruct (decide (i = len l)) as [->|Hne]; [rewrite (str_end_byte _ _ _ Hs) in Ec; injection Ec as <-; change (0 =? 0) with true; cbv iota; by wp_step|].
  destruct (lookup_lt_is_Some_2 l (Z.to_nat i) ltac:(lia)) as [x Hx]. destruct (str_lookup _ _ _ _ _ Hs Hx) as [Ex Hr']. rewrite Z2Nat.id, Ec in Ex by lia. injection Ex as <-. rewrite (proj2 (Z.eqb_neq c 0)) by lia.
  replace (d + i + 1) with (d + (i + 1)) by lia. replace (s + i + 1) with (s + (i + 1)) by lia. apply (IH m); try done; lia.
Qed.

Lemma strcpy_wp m d s l : str m s l -> mapped m d (len l + 1) -> (d + (len l + 1) <= s \/ s + (len l + 1) <= d) -> wp (strcpy d s) (fun r m' => r = d /\ moved m d s 0 (len l + 1) m') m.
Proof.
  intros Hs Hm Hap. unfold strcpy. pose proof (str_fuel _ _ _ Hs) as Hf. wp_step. apply fuel_wp. wp_step.
  pose proof (strcpy_from_wp (S (size m)) m m d s l 0 Hs Hm Hap (moved_nil _ _ _ _) ltac:(lia) ltac:(lia)) as Hw. rewrite !Z.add_0_r in Hw. eapply wp_mono; [exact Hw|]. intros ? m' Hm'. by wp_step.
Qed.

Lemma str_end_wp f : forall m p l, str m p l -> (length l < f)%nat -> wp (str_end f p) (fun r m' => r = p + len l /\ m' = m) m.
Proof.
  induction f as [|f IH]; intros m p l Hs Hf; [lia|]. cbn [str_end]. wp_step. destruct l as [|c l]; cbn in Hs.
  - eapply ldb_wp; [done|]. change (0 =? 0) with true. cbv iota. wp_step. cbn. split; [lia|done].
  - destruct Hs as (Hc & Hr & Hs). eapply ldb_wp; [done|]. rewrite (proj2 (Z.eqb_neq c 0)) by lia. cbn in Hf. eapply wp_mono; [apply (IH m (p + 1) l); [done|lia]|]. intros r m' [-> ->]. split; [cbn; lia|done].
Qed.

Lemma strcat_wp m d s l1 l2 : str m d l1 -> str m s l2 -> mapped m (d + len l1) (len l2 + 1) -> (d + len l1 + (len l2 + 1) <= s \/ s + (len l2 + 1) <= d) ->
  wp (strcat d s) (fun r m' => r = d /\ str m' d (l1 ++ l2) /\ forall x, ~ d + len l1 <= x < d + len l1 + (len l2 + 1) -> m' !! x = m !! x) m.
Proof.
  intros Hd Hs Hm Hap. unfold strcat. pose proof (str_fuel _ _ _ Hs) as Hf. pose proof (str_fuel _ _ _ Hd) as Hf'. wp_step. apply fuel_wp. wp_step. eapply wp_mono; [by apply (str_end_wp _ m d l1)|]. intros ? ? [-> ->].
  wp_step. pose proof (strcpy_from_wp (S (size m)) m m (d + len l1) s l2 0 Hs Hm ltac:(lia) (moved_nil _ _ _ _) ltac:(lia) ltac:(lia)) as Hw. rewrite !Z.add_0_r in Hw. eapply wp_mono; [exact Hw|]. intros ? m' Hm'. wp_step.
  split; [done|]. split; [|intros x Hx; rewrite Hm', decide_False by lia; done]. apply str_intro.
  - intros i c Hi. apply lookup_app_Some in Hi as [Hi|[Hge Hi]].
    + pose proof (lookup_lt_Some _ _ _ Hi). destruct (str_lookup _ _ _ _ _ Hd Hi) as [E ?]. split; [|done]. by rewrite Hm', decide_False by lia.
    + pose proof (lookup_lt_Some _ _ _ Hi). destruct (str_lookup _ _ _ _ _ Hs Hi) as [E ?]. split; [|done]. rewrite Hm', decide_True by lia. rewrite <- E. f_equal. lia.
  - rewrite length_app, Hm', decide_True by lia. rewrite <- (str_end_byte _ _ _ Hs). f_equal. lia.
Qed.

(** ** Comparing *)

Lemma schar_cval sg a b : schar (cval sg a - cval sg b) = schar (a - b).
Proof.
  assert (forall x y, x mod 256 = y mod 256 -> schar x = schar y) as He by (intros x y E; unfold schar; by rewrite E). apply He. destruct sg; [|done]. cbn.
  assert (forall x, schar x mod 256 = x mod 256) as Hs; [|by rewrite Zminus_mod, !Hs, <- Zminus_mod]. intros x. unfold schar. destruct (Z.ltb_spec (x mod 256) 128); [by rewrite Z.mod_mod|].
  replace (x mod 256 - 256) with (x mod 256 + (-1) * 256) by lia. rewrite Z.mod_add by lia. by rewrite Z.mod_mod.
Qed.

(** Where two strings with their zeros differ first. *)
Definition differ l1 l2 (a b : Z) : Prop := exists l t1 t2, l1 ++ [0] = l ++ a :: t1 /\ l2 ++ [0] = l ++ b :: t2 /\ a <> b.

Lemma str_head m p l : str m p l -> exists a t, l ++ [0] = a :: t /\ m !! p = Some a /\ 0 <= a < 256.
Proof. destruct l as [|a l]; intros Hs; cbn in Hs; [exists 0, []; split; [done|split; [done|lia]]|]. destruct Hs as (? & ? & _). exists a, (l ++ [0]). split; [done|split; [done|lia]]. Qed.

Lemma strcmp_from_wp sg f : forall m p q l1 l2, str m p l1 -> str m q l2 -> (length l1 < f)%nat ->
  wp (strcmp_from sg f p q) (fun r m' => m' = m /\ ((r = 0 /\ l1 = l2) \/ exists a b, differ l1 l2 a b /\ r = schar (a - b) /\ r <> 0)) m.
Proof.
  induction f as [|f IH]; intros m p q l1 l2 H1 H2 Hf; [lia|]. cbn [strcmp_from].
  destruct (str_head _ _ _ H1) as (a & t1 & E1 & Ea & Ra). destruct (str_head _ _ _ H2) as (b & t2 & E2 & Eb & Rb).
  wp_step. eapply ldb_wp; [done|]. wp_step. eapply ldb_wp; [done|]. cbv zeta. rewrite schar_cval. destruct (Z.eqb_spec (schar (a - b)) 0) as [E|E]; cbn [negb orb].
  - pose proof (proj1 (schar_zero a b Ra Rb) E) as <-. destruct (Z.eqb_spec a 0) as [->|Ha].
    + wp_step. split; [done|]. left. split; [by rewrite Z.sub_diag|]. assert (forall l t, str m p l \/ str m q l -> l ++ [0] = 0 :: t -> l = []) as Hz; [|rewrite (Hz l1 t1), (Hz l2 t2); auto].
      intros [|c l] t Hl E0; [done|]. cbn in E0. injection E0 as -> _. destruct Hl as [(_ & ? & _)|(_ & ? & _)]; lia.
    + destruct l1 as [|a' l1]; [by injection E1 as <- _|]. destruct l2 as [|b' l2]; [by injection E2 as <- _|]. cbn in E1, E2. injection E1 as -> _. injection E2 as -> _. destruct H1 as (_ & _ & H1). destruct H2 as (_ & _ & H2). cbn in Hf.
      eapply wp_mono; [apply (IH m _ _ _ _ H1 H2); lia|]. intros r m' [-> Hr]. split; [done|]. destruct Hr as [[-> ->]|(x & y & (l & u1 & u2 & D1 & D2 & D3) & Hr)]; [by left|right]. exists x, y. split; [|done]. exists (a :: l), u1, u2. cbn. by rewrite D1, D2.
  - wp_step. split; [done|]. right. exists a, b. split; [|done]. exists [], t1, t2. split; [done|]. split; [done|]. intros ->. apply E. by apply schar_zero.
Qed.

Lemma strcmp_wp sg m p q l1 l2 : str m p l1 -> str m q l2 ->
  wp (strcmp sg p q) (fun r m' => m' = m /\ ((r = 0 /\ l1 = l2) \/ exists a b, differ l1 l2 a b /\ r = schar (a - b) /\ r <> 0)) m.
Proof. intros H1 H2. unfold strcmp. wp_step. apply fuel_wp. apply strcmp_from_wp; [done|done|]. by eapply str_fuel. Qed.

(** ** Searching *)

Lemma strspn_in_wp f : forall m q acc c, str m q acc -> 0 < c -> (length acc < f)%nat ->
  wp (strspn_in f c q) (fun r m' => m' = m /\ m !! r = Some (if decide (c ∈ acc) then c else 0)) m.
Proof.
  induction f as [|f IH]; intros m q acc c Hs Hc Hf; [lia|]. cbn [strspn_in]. wp_step. destruct acc as [|x acc]; cbn in Hs.
  - eapply ldb_wp; [done|]. change (0 =? 0) with true. cbv iota. wp_step. split; [done|]. by rewrite decide_False by apply not_elem_of_nil.
  - destruct Hs as (Hx & Hr & Hs). eapply ldb_wp; [done|]. rewrite (proj2 (Z.eqb_neq x 0)) by lia. destruct (Z.eqb_spec c x) as [->|Hne].
    + wp_step. split; [done|]. by rewrite decide_True by (apply elem_of_cons; by left).
    + cbn in Hf. eapply wp_mono; [apply (IH m (q + 1) acc c); [done|done|lia]|]. intros r m' [-> Hm]. split; [done|]. rewrite Hm. f_equal. destruct (decide (c ∈ acc)); [rewrite decide_True|rewrite decide_False]; rewrite ?elem_of_cons; tauto.
Qed.

(** The longest prefix of [l] with characters that satisfy [Q]. *)
Definition spans (Q : Z -> Prop) l pre rest : Prop := l = pre ++ rest /\ Forall Q pre /\ forall c t, rest = c :: t -> ~ Q c.

Lemma strspn_from_wp f f' : forall m p q l acc n, str m p l -> str m q acc -> (length l < f)%nat -> (length acc < f')%nat ->
  wp (strspn_from f f' p q n) (fun r m' => m' = m /\ exists pre rest, spans (fun c => c ∈ acc) l pre rest /\ r = n + len pre) m.
Proof.
  induction f as [|f IH]; intros m p q l acc n Hs Ha Hf Hf'; [lia|]. cbn [strspn_from]. wp_step. destruct l as [|c l]; cbn in Hs.
  - eapply ldb_wp; [done|]. change (0 =? 0) with true. cbv iota. wp_step. split; [done|]. exists [], []. split; [by repeat split|cbn; lia].
  - destruct Hs as (Hc & Hr & Hs). eapply ldb_wp; [done|]. rewrite (proj2 (Z.eqb_neq c 0)) by lia. wp_step. eapply wp_mono; [apply (strspn_in_wp f' m q acc c); [done|lia|done]|]. intros a ? [-> Ea]. wp_step. eapply ldb_wp; [done|].
    destruct (decide (c ∈ acc)) as [Hin|Hin].
    + rewrite (proj2 (Z.eqb_neq c 0)) by lia. cbn in Hf. eapply wp_mono; [apply (IH m (p + 1) q l acc (n + 1)); [done|done|lia|done]|]. intros r m' (-> & pre & rest & (E & Hp & Hn) & ->). split; [done|].
      exists (c :: pre), rest. split; [|cbn; lia]. split; [by rewrite E|]. split; [by constructor|done].
    + change (0 =? 0) with true. cbv iota. wp_step. split; [done|]. exists [], (c :: l). split; [|cbn; lia]. split; [done|]. split; [done|]. by intros x t [= <- _].
Qed.

Lemma strspn_wp m p q l acc : str m p l -> str m q acc -> wp (strspn p q) (fun r m' => m' = m /\ exists pre rest, spans (fun c => c ∈ acc) l pre rest /\ r = len pre) m.
Proof.
  intros Hs Ha. unfold strspn. wp_step. apply fuel_wp. eapply wp_mono; [apply (strspn_from_wp _ _ m p q l acc 0); [done|done|by eapply str_fuel..]|]. intros r m' (-> & pre & rest & Hsp & ->). split; [done|]. exists pre, rest. split; [done|lia].
Qed.

Lemma strpbrk_in_wp f : forall m q acc c, str m q acc -> (length acc < f)%nat -> wp (strpbrk_in f c q) (fun r m' => m' = m /\ r = bool_decide (c ∈ acc)) m.
Proof.
  induction f as [|f IH]; intros m q acc c Hs Hf; [lia|]. cbn [strpbrk_in]. wp_step. destruct acc as [|x acc]; cbn in Hs.
  - eapply ldb_wp; [done|]. change (0 =? 0) with true. cbv iota. wp_step. split; [done|]. symmetry. apply bool_decide_eq_false, not_elem_of_nil.
  - destruct Hs as (Hx & Hr & Hs). eapply ldb_wp; [done|]. rewrite (proj2 (Z.eqb_neq x 0)) by lia. destruct (Z.eqb_spec c x) as [->|Hne].
    + wp_step. split; [done|]. symmetry. apply bool_decide_eq_true, elem_of_cons. by left.
    + cbn in Hf. eapply wp_mono; [apply (IH m (q + 1) acc c); [done|lia]|]. intros r m' [-> ->]. split; [done|]. apply bool_decide_ext. rewrite elem_of_cons. tauto.
Qed.

Lemma strpbrk_from_wp f f' : forall m p q l acc, str m p l -> str m q acc -> (length l < f)%nat -> (length acc < f')%nat ->
  wp (strpbrk_from f f' p q) (fun r m' => m' = m /\ exists pre rest, spans (fun c => c ∉ acc) l pre rest /\ r = if decide (rest = []) then 0 else p + len pre) m.
Proof.
  induction f as [|f IH]; intros m p q l acc Hs Ha Hf Hf'; [lia|]. cbn [strpbrk_from]. wp_step. destruct l as [|c l]; cbn in Hs.
  - eapply ldb_wp; [done|]. change (0 =? 0) with true. cbv iota. wp_step. split; [done|]. exists [], []. by repeat split.
  - destruct Hs as (Hc & Hr & Hs). eapply ldb_wp; [done|]. rewrite (proj2 (Z.eqb_neq c 0)) by lia. wp_step. eapply wp_mono; [by apply (strpbrk_in_wp f' m q acc c)|]. intros b ? [-> ->]. case_bool_decide as Hin.
    + wp_step. split; [done|]. exists [], (c :: l). rewrite decide_False by done. split; [|cbn; lia]. split; [done|]. split; [done|]. intros x t [= <- _]. tauto.
    + cbn in Hf. eapply wp_mono; [apply (IH m (p + 1) q l acc); [done|done|lia|done]|]. intros r m' (-> & pre & rest & (E & Hp & Hn) & ->). split; [done|].
      exists (c :: pre), rest. split; [|case_decide; [done|cbn; lia]]. split; [by rewrite E|]. split; [by constructor|done].
Qed.

Lemma strpbrk_wp m p q l acc : str m p l -> str m q acc ->
  wp (strpbrk p q) (fun r m' => m' = m /\ exists pre rest, spans (fun c => c ∉ acc) l pre rest /\ r = if decide (rest = []) then 0 else p + len pre) m.
Proof. intros Hs Ha. unfold strpbrk. wp_step. apply fuel_wp. apply strpbrk_from_wp; [done|done|by eapply str_fuel..]. Qed.

Lemma strchr_from_wp f : forall m p l c, str m p l -> (length l < f)%nat -> c mod 256 <> 0 ->
  wp (strchr_from f p c) (fun r m' => m' = m /\ exists pre rest, spans (fun x => x <> c mod 256) l pre rest /\ r = if decide (rest = []) then 0 else p + len pre) m.
Proof.
  induction f as [|f IH]; intros m p l c Hs Hf Hc; [lia|]. cbn [strchr_from]. wp_step. destruct l as [|x l]; cbn in Hs.
  - eapply ldb_wp; [done|]. rewrite (proj2 (Z.eqb_neq 0 (c mod 256))) by congruence. change (0 =? 0) with true. cbv iota. wp_step. split; [done|]. exists [], []. by repeat split.
  - destruct Hs as (Hx & Hr & Hs). eapply ldb_wp; [done|]. destruct (Z.eqb_spec x (c mod 256)) as [E|Hne].
    + wp_step. split; [done|]. exists [], (x :: l). rewrite decide_False by done. split; [|cbn; lia]. split; [done|]. split; [done|]. intros y t [= <- _]. tauto.
    + rewrite (proj2 (Z.eqb_neq x 0)) by lia. cbn in Hf. eapply wp_mono; [apply (IH m (p + 1) l c); [done|lia|done]|]. intros r m' (-> & pre & rest & (E & Hp & Hn) & ->). split; [done|].
      exists (x :: pre), rest. split; [|case_decide; [done|cbn; lia]]. split; [by rewrite E|]. split; [by constructor|done].
Qed.

Lemma strchr_wp m p l c : str m p l -> c mod 256 <> 0 ->
  wp (strchr p c) (fun r m' => m' = m /\ exists pre rest, spans (fun x => x <> c mod 256) l pre rest /\ r = if decide (rest = []) then 0 else p + len pre) m.
Proof. intros Hs Hc. unfold strchr. wp_step. apply fuel_wp. apply strchr_from_wp; [done|by eapply str_fuel|done]. Qed.

(** [w] is at place [i] of [l]. *)
Definition occurs w l (i : nat) : Prop := w `prefix_of` drop i l.

Lemma occurs_spec w l i : occurs w l i <-> forall j c, w !! j = Some c -> l !! (i + j)%nat = Some c.
Proof.
  unfold occurs. split.
  - intros [t E] j c Hj. rewrite <- lookup_drop, E. by apply lookup_app_l_Some.
  - intros Hw. exists (drop (length w) (drop i l)). rewrite <- (take_drop (length w) (drop i l)) at 1. f_equal. apply list_eq. intros j. destruct (decide (j < length w)%nat) as [Hj|Hj].
    + destruct (lookup_lt_is_Some_2 w j Hj) as [c Hc]. rewrite lookup_take_lt by lia. rewrite lookup_drop, Hc. by apply Hw.
    + rewrite lookup_take_ge by lia. symmetry. apply lookup_ge_None_2. lia.
Qed.

(** Equal bytes are an occurrence. *)
Lemma occurs_bytes m p q l w i : str m p l -> str m q w -> (i + length w <= length l)%nat ->
  (forall j, 0 <= j < len w -> m !! (p + Z.of_nat i + j) = m !! (q + j)) <-> occurs w l i.
Proof.
  intros Hl Hw Hi. rewrite occurs_spec. split.
  - intros He j c Hj. pose proof (lookup_lt_Some _ _ _ Hj). destruct (str_lookup _ _ _ _ _ Hw Hj) as [E _]. specialize (He (Z.of_nat j) ltac:(lia)). rewrite E in He.
    destruct (lookup_lt_is_Some_2 l (i + j) ltac:(lia)) as [x Hx]. destruct (str_lookup _ _ _ _ _ Hl Hx) as [E' _]. replace (p + Z.of_nat (i + j)) with (p + Z.of_nat i + Z.of_nat j) in E' by lia. congruence.
  - intros He j Hj. destruct (lookup_lt_is_Some_2 w (Z.to_nat j) ltac:(lia)) as [c Hc]. destruct (str_lookup _ _ _ _ _ Hw Hc) as [E _]. destruct (str_lookup _ _ _ _ _ Hl (He _ _ Hc)) as [E' _].
    rewrite Z2Nat.id in E by lia. rewrite E. rewrite <- E'. f_equal. lia.
Qed.

Lemma occurs_length w l i : w <> [] -> occurs w l i -> (i + length w <= length l)%nat.
Proof. intros Hw Ho. apply prefix_length in Ho as Hl. rewrite length_drop in Hl. destruct w; [done|]. cbn in *. lia. Qed.

Lemma strstr_from_wp f : forall m p q l w i, str m p l -> str m q w -> w <> [] -> (i <= length l)%nat -> (length l - i < f)%nat -> (forall j, (j < i)%nat -> ~ occurs w l j) ->
  wp (strstr_from f (p + Z.of_nat i) q (len l - Z.of_nat i) (len w)) (fun r m' => m' = m /\ ((r = 0 /\ forall j, ~ occurs w l j) \/ exists j, occurs w l j /\ r = p + Z.of_nat j /\ forall k, (k < j)%nat -> ~ occurs w l k)) m.
Proof.
  induction f as [|f IH]; intros m p q l w i Hl Hw Hne Hi Hf Hno; [lia|]. cbn [strstr_from]. destruct (Z.leb_spec (len w) (len l - Z.of_nat i)) as [Hle|Hgt].
  2:{ wp_step. split; [done|]. left. split; [done|]. intros j Ho. destruct (decide (j < i)%nat); [by apply (Hno j)|]. apply occurs_length in Ho; [lia|done]. }
  pose proof (str_mapped _ _ _ Hl) as Ml. pose proof (str_mapped _ _ _ Hw) as Mw. pose proof (occurs_bytes m p q l w i Hl Hw ltac:(lia)) as Hoc.
  wp_step. eapply wp_mono; [apply (memcmp_wp m (p + Z.of_nat i) q (len w)); [apply (mapped_le _ _ _ _ _ Ml); lia|apply (mapped_le _ _ _ _ _ Mw); lia|lia]|].
  intros r m' (-> & [[-> He]|(j & a & b & Hj & Ea & Eb & Hab & _ & Hr & _)]).
  - change (0 =? 0) with true. cbv iota. wp_step. split; [done|]. right. exists i. split; [by apply Hoc|done].
  - rewrite (proj2 (Z.eqb_neq r 0)) by done. assert (~ occurs w l i) as Hno' by (intros Ho; pose proof (proj2 Hoc Ho j Hj); congruence).
    assert (0 < length w)%nat by (destruct w; [done|cbn; lia]). replace (p + Z.of_nat i + 1) with (p + Z.of_nat (S i)) by lia. replace (len l - Z.of_nat i - 1) with (len l - Z.of_nat (S i)) by lia.
    apply IH; try done; [lia|lia|]. intros k Hk. destruct (decide (k = i)) as [->|]; [done|]. apply Hno. lia.
Qed.

(** [strstr] finds the first occurrence. *)
Lemma strstr_wp m p q l w : str m p l -> str m q w -> len l < 2 ^ 31 -> len w < 2 ^ 31 ->
  wp (strstr p q) (fun r m' => m' = m /\ ((r = 0 /\ forall j, ~ occurs w l j) \/ exists j, occurs w l j /\ r = p + Z.of_nat j /\ forall k, (k < j)%nat -> ~ occurs w l k)) m.
Proof.
  intros Hl Hw H1 H2. unfold strstr. wp_step. eapply wp_mono; [by apply strlen_wp|]. intros r ? [-> ->]. cbv zeta. rewrite s32_small by lia. destruct (Z.eqb_spec (len w) 0) as [E|E].
  - wp_step. split; [done|]. right. exists 0%nat. assert (w = []) as -> by (destruct w; [done|cbn in E; lia]). split; [apply prefix_nil|]. split; [lia|lia].
  - wp_step. eapply wp_mono; [exact (strlen_wp _ _ _ Hl)|]. intros r m' [-> ->]. wp_step. apply fuel_wp. rewrite s32_small by lia. pose proof (str_fuel _ _ _ Hl).
    pose proof (strstr_from_wp (S (size m)) m p q l w 0 Hl Hw ltac:(intros ->; done) ltac:(lia) ltac:(lia) ltac:(lia)) as Hs. by rewrite Z.add_0_r, Z.sub_0_r in Hs.
Qed.

(** What one call of [strtok] does to the string [l] at [p]: the leading
    delimiters are passed over; the token is cut off by a zero written over
    the delimiter that ends it, and what follows it is kept for the next call. *)
Lemma strtok_wp m saved p q l acc : str m p l -> str m q acc -> 0 < p -> (forall x, p <= x <= p + len l -> ~ q <= x <= q + len acc) ->
  wp (strtok saved p q) (fun r m' => exists pre tok rest, l = pre ++ tok ++ rest /\ Forall (fun c => c ∈ acc) pre /\ Forall (fun c => c ∉ acc) tok /\ str m' q acc /\
    match rest with
    | [] => m' = m /\ r = (if decide (tok = []) then 0 else p + len pre, 0)
    | d :: l' => d ∈ acc /\ tok <> [] /\ m' = <[p + len pre + len tok := 0]> m /\ r = (p + len pre, p + len pre + len tok + 1) /\ str m' (p + len pre) tok /\ str m' (p + len pre + len tok + 1) l'
    end) m.
Proof.
  intros Hs Hq Hp Hdis. unfold strtok. rewrite (proj2 (Z.eqb_neq p 0)) by lia. cbn [negb]. cbv zeta. rewrite (proj2 (Z.eqb_neq p 0)) by lia.
  wp_step. eapply wp_mono; [by apply strspn_wp|]. intros r ? (-> & pre & t & (-> & Hpre & Ht) & ->). pose proof (str_app _ _ _ _ Hs) as Hs'. wp_step. destruct (str_head _ _ _ Hs') as (c & u & _ & Ec & _).
  eapply ldb_wp; [done|]. destruct t as [|x t].
  { cbn in Hs'. assert (c = 0) as -> by congruence. change (0 =? 0) with true. cbv iota. wp_step. exists pre, [], []. split; [done|]. split; [done|]. split; [constructor|]. split; [done|]. by rewrite decide_True. }
  assert (c = x /\ 0 < x) as [-> Hx] by (cbn in Hs'; split; [|lia]; destruct Hs' as (E & _); congruence). rewrite (proj2 (Z.eqb_neq x 0)) by lia.
  wp_step. eapply wp_mono; [apply (strpbrk_wp m _ q (x :: t) acc); done|]. intros r ? (-> & tok & rest & (E & Htok & Hr) & ->). rewrite E in *.
  assert (tok <> []) as Hne by (intros ->; cbn in E; apply (Hr x t); [done|]; by apply (Ht x t)).
  destruct rest as [|d l'].
  { rewrite decide_True by done. change (0 =? 0) with true. cbn [negb]. wp_step. wp_step. exists pre, tok, []. do 4 (split; [done|]). by rewrite decide_False. }
  rewrite decide_False by done. rewrite !length_app in Hdis. cbn in Hdis. rewrite (proj2 (Z.eqb_neq (p + len pre + len tok) 0)) by lia. cbn [negb].
  pose proof (str_app _ _ _ _ Hs') as Hd. destruct Hd as (Ed & Rd & Hl'). wp_step. wp_step. eapply ldb_wp; [done|]. rewrite (proj2 (Z.eqb_neq d 0)) by lia. cbn [negb].
  wp_step. eapply stb_wp; [by eexists|]. wp_step. wp_step. exists pre, tok, (d :: l'). split; [done|]. split; [done|]. split; [done|]. rewrite Z.mod_0_l by done.
  split; [eapply str_frame; [done|]; intros y Hy; rewrite lookup_insert_ne; [done|]; intros <-; apply (Hdis (p + len pre + len tok)); lia|].
  split; [destruct (decide (d ∈ acc)) as [|Hno]; [done|]; destruct (Hr d l' eq_refl); done|]. split; [done|]. split; [done|]. split; [done|]. split.
  - eapply str_cut; [exact Hs'| |by rewrite lookup_insert_eq]. intros y Hy. rewrite lookup_insert_ne by lia. done.
  - eapply str_frame; [done|]. intros y Hy. rewrite lookup_insert_ne by lia. done.
Qed.
End strings.
