(* ===== verification/LibcStdlib.v ===== *)
(** * Numbers, random numbers and searching of the C library

    [lib/libc/atoi.c], [strtol.c], [strtoll.c], [rand.c] and [bsearch.c], over the memory of [LibcMem].  [errno] is handed in and
    returned; an [endptr] is a place in the memory, or zero. *)

From stdpp Require Import base gmap list numbers.
From S2P Require Import Prelude Align LibcMem LibcString.

Definition EINVAL : Z := 22.
Definition ERANGE : Z := 34.
Definition ULONG_MAX : Z := 2 ^ 64 - 1.
Definition LONG_MAX : Z := 2 ^ 63 - 1.
Definition LONG_MIN : Z := - 2 ^ 63.

(** ** [atoi.c] *)

Definition hexval (c : Z) : Z :=
  if (48 <=? c) && (c <=? 57) then c - 48
  else if (97 <=? c) && (c <=? 102) then c - 97 + 10
  else if (65 <=? c) && (c <=? 70) then c - 65 + 10
  else 0.

Section chars.
Context (char_signed : bool).
Notation cval := (cval char_signed).

(** The first place from [p] on that is not white space. *)
Fixpoint skip_space (f : nat) (p : Z) : M cmem Z :=
  match f with
  | O => fail OutOfFuel
  | S f => do c <- ldb p; if isspace (cval c) then skip_space f (p + 1) else ret p
  end.

(** The loops of [atol], [atoul] and [atoull]; [wrap] is what the type of [value] makes of a result. *)
Fixpoint hex_digits (f : nat) (wrap : Z -> Z) (num value : Z) : M cmem Z :=
  match f with
  | O => fail OutOfFuel
  | S f => do c <- ldb num; if negb (c =? 0) && isxdigit (cval c) then hex_digits f wrap (num + 1) (wrap (value * 16 + hexval (cval c))) else ret value
  end.
Fixpoint dec_digits (f : nat) (wrap : Z -> Z) (num value : Z) : M cmem Z :=
  match f with
  | O => fail OutOfFuel
  | S f => do c <- ldb num; if negb (c =? 0) && isdigit (cval c) then dec_digits f wrap (num + 1) (wrap (value * 10 + cval c - 48)) else ret value
  end.

(** [p[0] == '0' && p[1] == 'x'] *)
Definition starts_0x (p : Z) : M cmem bool :=
  do c <- ldb p; if c =? 48 then do d <- ldb (p + 1); ret (d =? 120) else ret false.

Definition atol (num : Z) : M cmem Z :=
  do f <- fuel;
  do num <- skip_space f num;
  do hex <- starts_0x num;
  if hex then hex_digits f s64 (num + 2) 0
  else
    do c <- ldb num;
    if c =? 45 then do value <- dec_digits f s64 (num + 1) 0; ret (s64 (- value))
    else dec_digits f s64 (if c =? 43 then num + 1 else num) 0.
Definition atoi (num : Z) : M cmem Z := do v <- atol num; ret (s32 v).

Definition atoul (num : Z) : M cmem Z :=
  do f <- fuel;
  do hex <- starts_0x num;
  if hex then hex_digits f u64 (num + 2) 0 else dec_digits f u64 num 0.
Definition atoui (num : Z) : M cmem Z := do v <- atoul num; ret (u32 v).
Definition atoull (num : Z) : M cmem Z :=
  do f <- fuel;
  do hex <- starts_0x num;
  if hex then hex_digits f u64 (num + 2) 0 else dec_digits f u64 num 0.

(** The value [v] of a digit in [strtoul]. *)
Definition digit_of (c : Z) : Z :=
  if (65 <=? c) && (c <=? 90) then c - 65 + 10
  else if (97 <=? c) && (c <=? 122) then c - 97 + 10
  else if (48 <=? c) && (c <=? 57) then c - 48
  else -1.

(** The digits of [strtoul]: [ret] and [errno]. *)
Fixpoint strtoul_digits (f : nat) (errno nptr endptr base r : Z) : M cmem (Z * Z) :=
  match f with
  | O => fail OutOfFuel
  | S f =>
      do c <- ldb nptr;
      let v := digit_of (cval c) in
      if (v <? 0) || (base <=? v) then when (negb (endptr =? 0)) (stw endptr nptr) ;; ret (r, errno)
      else
        let new_ret := u64 (r * base) in
        if negb (new_ret / base =? r) || (u64 (new_ret + v) <? new_ret) || (r =? ULONG_MAX)
        then strtoul_digits f ERANGE (nptr + 1) endptr base ULONG_MAX
        else strtoul_digits f errno (nptr + 1) endptr base (u64 (new_ret + v))
  end.

Definition strtoul (errno nptr endptr base : Z) : M cmem (Z * Z) :=
  if (base <? 0) || (base =? 1) || (36 <? base) then ret (0, EINVAL)
  else
    do f <- fuel;
    do nptr <- skip_space f nptr;
    do c <- ldb nptr;
    let neg := negb (c =? 43) && (c =? 45) in
    let nptr := if (c =? 43) || (c =? 45) then nptr + 1 else nptr in
    do hex <- (if (base =? 0) || (base =? 16) then starts_0x nptr else ret false);
    do ' (base, nptr) <-
      (if hex then ret (16, nptr + 2)
       else if base =? 0 then do c <- ldb nptr; ret (if c =? 48 then (8, nptr + 1) else (10, nptr))
       else ret (base, nptr));
    do ' (r, errno) <- strtoul_digits f errno nptr endptr base 0;
    ret (if neg && negb (r =? ULONG_MAX) then u64 (- r) else r, errno).

(** ** [strtol.c] and [strtoll.c] *)

(** The first character that is not white space, and the place behind it. *)
Fixpoint skip_read (f : nat) (s : Z) : M cmem (Z * Z) :=
  match f with
  | O => fail OutOfFuel
  | S f => do c <- ldb s; if isspace c then skip_read f (s + 1) else ret (c, s + 1)
  end.

(** The loop over the digits, with [c] read and [s] behind it: [acc], [any], [s] and [errno]. *)
Fixpoint strtol_digits (f : nat) (neg : bool) (base cutoff cutlim c s acc any errno : Z) : M cmem (Z * Z * Z * Z) :=
  match f with
  | O => fail OutOfFuel
  | S f =>
      let stop := ret (acc, any, s, errno) in
      let continue acc any errno := do c <- ldb s; strtol_digits f neg base cutoff cutlim c (s + 1) acc any errno in
      if negb (isdigit c) && negb (isalpha c) then stop
      else
        let c := if isdigit c then c - 48 else c - (if isupper c then 65 - 10 else 97 - 10) in
        if base <=? c then stop
        else if any <? 0 then continue acc any errno
        else if neg then
          if (acc <? cutoff) || ((acc =? cutoff) && (cutlim <? c)) then continue LONG_MIN (-1) ERANGE
          else continue (s64 (s64 (acc * base) - c)) 1 errno
        else
          if (cutoff <? acc) || ((acc =? cutoff) && (cutlim <? c)) then continue LONG_MAX (-1) ERANGE
          else continue (s64 (s64 (acc * base) + c)) 1 errno
  end.

(** [cutoff] and [cutlim] *)
Definition cut_values (neg : bool) (base : Z) : Z * Z :=
  let cutoff := if neg then LONG_MIN else LONG_MAX in
  let cutlim := s32 (Z.rem cutoff base) in
  let cutoff := Z.quot cutoff base in
  if neg then
    if 0 <? cutlim then (cutoff + 1, - (cutlim - base)) else (cutoff, - cutlim)
  else (cutoff, cutlim).

Definition strtol (errno nptr endptr base : Z) : M cmem (Z * Z) :=
  do f <- fuel;
  do ' (c, s) <- skip_read f nptr;
  let neg := c =? 45 in
  do ' (c, s) <- (if (c =? 45) || (c =? 43) then do c <- ldb s; ret (cval c, s + 1) else ret (c, s));
  do ' (c, s, base) <-
    (if ((base =? 0) || (base =? 16)) && (c =? 48) then
       do x <- ldb s;
       if (x =? 120) || (x =? 88) then do c <- ldb (s + 1); ret (cval c, s + 2, 16) else ret (c, s, base)
     else ret (c, s, base));
  let base := if base =? 0 then (if c =? 48 then 8 else 10) else base in
  let '(cutoff, cutlim) := cut_values neg base in
  do ' (acc, any, s, errno) <- strtol_digits f neg base cutoff cutlim c s 0 0 errno;
  when (negb (endptr =? 0)) (stw endptr (if negb (any =? 0) then s - 1 else nptr)) ;;
  ret (acc, errno).

(** A [long long] is as wide as a [long]: the text of [strtoll] is that of [strtol]. *)
Definition strtoll (errno nptr endptr base : Z) : M cmem (Z * Z) :=
  do f <- fuel;
  do ' (c, s) <- skip_read f nptr;
  let neg := c =? 45 in
  do ' (c, s) <- (if (c =? 45) || (c =? 43) then do c <- ldb s; ret (cval c, s + 1) else ret (c, s));
  do ' (c, s, base) <-
    (if ((base =? 0) || (base =? 16)) && (c =? 48) then
       do x <- ldb s;
       if (x =? 120) || (x =? 88) then do c <- ldb (s + 1); ret (cval c, s + 2, 16) else ret (c, s, base)
     else ret (c, s, base));
  let base := if base =? 0 then (if c =? 48 then 8 else 10) else base in
  let '(cutoff, cutlim) := cut_values neg base in
  do ' (acc, any, s, errno) <- strtol_digits f neg base cutoff cutlim c s 0 0 errno;
  when (negb (endptr =? 0)) (stw endptr (if negb (any =? 0) then s - 1 else nptr)) ;;
  ret (acc, errno).
End chars.

(** ** [rand.c]: functions of [randseed] *)

Definition randseed_init : Z := 12345.
Definition srand (randseed seed : Z) : Z := u32 seed.
Fixpoint entropy_from (n : nat) (buf enp : Z) : M cmem Z :=
  match n with
  | O => ret enp
  | S n => do c <- ldb buf; entropy_from n (buf + 1) (Z.lxor (Z.lor (u32 (Z.shiftl enp 8)) (Z.shiftr enp 24)) c)
  end.
Definition rand_add_entropy (randseed buf len : Z) : M cmem Z :=
  if len =? 0 then ret randseed else do enp <- entropy_from (Z.to_nat len) buf 0; ret (Z.lxor randseed enp).
(** What is returned, and [randseed]. *)
Definition rand (randseed : Z) : Z * Z := let r := u32 (randseed * 1664525 + 1013904223) in (s32 r, r).

(** ** [bsearch.c] *)

Section search.
Context (compare : Z -> Z -> M cmem Z).

Fixpoint bsearch_loop (f : nat) (key base size low high : Z) : M cmem Z :=
  match f with
  | O => fail OutOfFuel
  | S f =>
      let mid := u64 (low + u64 (high - low) / 2) in
      let mid_elem := u64 (base + mid * size) in
      do r <- compare key mid_elem;
      if r <? 0 then if mid =? 0 then ret 0 else bsearch_loop f key base size low (mid - 1)
      else if 0 <? r then
        let low := u64 (mid + 1) in
        if (low <? mid) || (high <? low) then ret 0 else bsearch_loop f key base size low high
      else ret mid_elem
  end.
Definition bsearch (f : nat) (key base num_elems size : Z) : M cmem Z :=
  let high := u64 (num_elems - 1) in
  if num_elems =? 0 then ret 0 else bsearch_loop f key base size 0 high.
End search.

(** ** What is read *)

(** The number that the digits [l] go on to after [acc]. *)
Definition value (base : Z) (l : list Z) (acc : Z) : Z := fold_left (fun a c => a * base + digit_of c) l acc.

Definition is_digit (base c : Z) : Prop := 0 <= digit_of c < base.

Section numbers.
Context (char_signed : bool).
Notation cval := (cval char_signed).
Local Notation len l := (Z.of_nat (length l)).
Implicit Types (m : cmem) (l ds rest ws : list Z).

Lemma cval_small c : 0 <= c < 128 -> cval c = c.
Proof. intros Hc. unfold LibcString.cval, schar. rewrite Z.mod_small by lia. destruct char_signed; [|done]. destruct (Z.ltb_spec c 128); lia. Qed.

Lemma cval_large c : 128 <= c < 256 -> cval c = c \/ cval c < 0.
Proof. intros Hc. unfold LibcString.cval, schar. rewrite Z.mod_small by lia. destruct char_signed; [|by left]. destruct (Z.ltb_spec c 128); lia. Qed.

Lemma digit_of_out c : c < 0 \/ 128 <= c -> digit_of c = -1.
Proof. intros Hc. unfold digit_of. repeat (rewrite (proj2 (andb_false_iff _ _)) by (rewrite !Z.leb_gt; lia)). done. Qed.

Lemma digit_of_cval c : 0 <= c < 256 -> digit_of (cval c) = digit_of c.
Proof. intros Hc. destruct (decide (c < 128)); [by rewrite cval_small by lia|]. destruct (cval_large c ltac:(lia)); rewrite !digit_of_out by lia; done. Qed.

Lemma isspace_out c : c < 0 \/ 128 <= c -> isspace c = false.
Proof. intros Hc. unfold isspace. repeat rewrite (proj2 (Z.eqb_neq _ _)) by lia. done. Qed.

Lemma isspace_cval c : 0 <= c < 256 -> isspace (cval c) = isspace c.
Proof. intros Hc. destruct (decide (c < 128)); [by rewrite cval_small by lia|]. destruct (cval_large c ltac:(lia)); rewrite !isspace_out by lia; done. Qed.

Lemma value_mono base l : forall a b, 0 <= base -> a <= b -> value base l a <= value base l b.
Proof. induction l as [|c l IH]; intros a b Hb Hab; cbn; [done|]. apply IH; [done|]. nia. Qed.

Lemma value_ge base l : forall a, 1 <= base -> Forall (is_digit base) l -> 0 <= a -> a <= value base l a.
Proof. induction l as [|c l IH]; intros a Hb Hl Ha; cbn; [done|]. apply Forall_cons_1 in Hl as [[? ?] Hl]. transitivity (a * base + digit_of c); [nia|]. apply IH; [done|done|nia]. Qed.

Lemma skip_space_wp f : forall m p l ws t, str m p l -> spans (fun c => isspace c) l ws t -> (length l < f)%nat ->
  wp (skip_space char_signed f p) (fun r m' => m' = m /\ r = p + len ws) m.
Proof.
  induction f as [|f IH]; intros m p l ws t Hs (-> & Hw & Ht) Hf; [lia|]. cbn [skip_space]. wp_step. destruct ws as [|x ws]; cbn in *.
  - destruct (str_head m p t Hs) as (a & u & E & Ea & Ra). eapply ldb_wp; [done|]. rewrite isspace_cval by lia.
    destruct (isspace a) eqn:Ei; [|wp_step; split; [done|lia]]. destruct t as [|y t]; cbn in E; [by injection E as <- _|]. injection E as <- _. exfalso. apply (Ht y t eq_refl). by rewrite Ei.
  - destruct Hs as (Hx & Hr & Hs). apply Forall_cons_1 in Hw as [Ex Hw]. eapply ldb_wp; [done|]. rewrite isspace_cval by lia. destruct (isspace x); [|done].
    eapply wp_mono; [apply (IH m (p + 1) (ws ++ t) ws t Hs); [by split|cbn in Hf; lia]|]. intros r m' [-> ->]. split; [done|lia].
Qed.

(** One more digit of [strtoul], with [v] the number read so far and [r] what is kept of it. *)
Lemma strtoul_step base v d : 2 <= base <= 36 -> 0 <= v -> 0 <= d < base ->
  let r := Z.min v ULONG_MAX in
  let new_ret := u64 (r * base) in
  let over := negb (new_ret / base =? r) || (u64 (new_ret + d) <? new_ret) || (r =? ULONG_MAX) in
  over = (ULONG_MAX <? v * base + d) /\ (over = false -> u64 (new_ret + d) = v * base + d).
Proof.
  intros Hb Hv Hd r new_ret over. assert (over = (ULONG_MAX <? v * base + d) /\ (v * base + d <= ULONG_MAX -> u64 (new_ret + d) = v * base + d)) as [E Hok].
  2:{ split; [done|]. intros Ho. apply Hok. rewrite E in Ho. by apply Z.ltb_ge. }
  subst over new_ret r. unfold ULONG_MAX in *. destruct (decide (v <= 2 ^ 64 - 1)) as [Hle|Hgt].
  2:{ rewrite Z.min_r by lia. rewrite (Z.eqb_refl (2 ^ 64 - 1)), orb_true_r. split; [symmetry; apply Z.ltb_lt; nia|nia]. }
  rewrite Z.min_l by lia. destruct (decide (v * base < 2 ^ 64)) as [Hm|Hm].
  - rewrite (u64_small (v * base)) by nia. rewrite Z.div_mul, Z.eqb_refl by lia. cbn [negb orb]. rewrite (proj2 (Z.eqb_neq v (2 ^ 64 - 1))), orb_false_r by nia.
    destruct (decide (v * base + d < 2 ^ 64)) as [Hs|Hs].
    + rewrite u64_small by nia. split; [|done]. rewrite (proj2 (Z.ltb_ge _ _)) by lia. symmetry. apply Z.ltb_ge. lia.
    + split; [|lia]. assert (u64 (v * base + d) = v * base + d - 2 ^ 64) as -> by (unfold u64; symmetry; apply (Zmod_unique _ _ 1); nia).
      rewrite (proj2 (Z.ltb_lt _ _)) by lia. symmetry. apply Z.ltb_lt. lia.
  - split; [|nia]. rewrite (proj2 (Z.ltb_lt (2 ^ 64 - 1) _)) by nia. rewrite (proj2 (Z.eqb_neq (u64 (v * base) / base) v)); [done|].
    pose proof (u64_range (v * base)). intros E. pose proof (Z.mul_div_le (u64 (v * base)) base ltac:(lia)). rewrite E in *. nia.
Qed.

Lemma strtoul_digits_wp f Q errno endptr base : 2 <= base <= 36 -> forall m p l ds rest v, str m p l -> spans (is_digit base) l ds rest -> (length l < f)%nat -> 0 <= v ->
  wp (when (negb (endptr =? 0)) (stw endptr (p + len ds)) ;; ret (Z.min (value base ds v) ULONG_MAX, if ULONG_MAX <? value base ds v then ERANGE else errno)) Q m ->
  wp (strtoul_digits char_signed f (if ULONG_MAX <? v then ERANGE else errno) p endptr base (Z.min v ULONG_MAX)) Q m.
Proof.
  intros Hb. induction f as [|f IH]; intros m p l ds rest v Hs (-> & Hd & Hr) Hf Hv HQ; [lia|]. cbn [strtoul_digits]. wp_step.
  destruct (str_head _ _ _ Hs) as (a & u & E & Ea & Ra). eapply ldb_wp; [done|]. rewrite digit_of_cval by lia. cbv zeta. destruct ds as [|x ds].
  - cbn in HQ. rewrite Z.add_0_r in HQ. assert (~ is_digit base a) as Hno by (destruct rest as [|y t]; cbn in E; injection E as <- _; [unfold is_digit; cbn; lia|by apply (Hr y t)]).
    replace ((digit_of a <? 0) || (base <=? digit_of a)) with true; [done|]. symmetry. apply orb_true_iff. rewrite Z.ltb_lt, Z.leb_le. unfold is_digit in Hno. lia.
  - cbn in E, Hs. injection E as <- _. destruct Hs as (_ & _ & Hs). apply Forall_cons_1 in Hd as [Hx Hd]. destruct Hx as [H0 H1]. rewrite (proj2 (Z.ltb_ge _ _)), (proj2 (Z.leb_gt _ _)) by lia. cbn [orb].
    destruct (strtoul_step base v (digit_of x) Hb Hv ltac:(lia)) as [Eo Hok]. cbv zeta in Eo, Hok. rewrite Eo in Hok |- *.
    assert (forall w, 0 <= w -> w = v * base + digit_of x -> wp (strtoul_digits char_signed f (if ULONG_MAX <? w then ERANGE else errno) (p + 1) endptr base (Z.min w ULONG_MAX)) Q m) as Hgo.
    { intros w Hw ->. eapply IH; [exact Hs|by split|cbn in Hf; lia|done|]. cbn in HQ. by replace (p + 1 + len ds) with (p + Z.of_nat (S (length ds))) by lia. }
    specialize (Hgo (v * base + digit_of x) ltac:(nia) eq_refl). destruct (Z.ltb_spec ULONG_MAX (v * base + digit_of x)) as [Hov|Hin].
    + by rewrite Z.min_r in Hgo by lia.
    + rewrite Hok by done. rewrite Z.min_l in Hgo by done. by rewrite (proj2 (Z.ltb_ge ULONG_MAX v)) by nia.
Qed.

(** Two steps taken as one. *)
Lemma wp_group {A B C} (a : M cmem A) (f : A -> M cmem B) (g : B -> M cmem C) Q m : wp (bind (bind a f) g) Q m -> wp (bind a (fun x => bind (f x) g)) Q m.
Proof. unfold wp, bind. by destruct (a m). Qed.

(** Where an [endptr] points, and what a function leaves there. *)
Definition end_ok endptr m : Prop := endptr = 0 \/ endptr mod 8 = 0 /\ mapped m endptr 8.
Definition end_set endptr e m m' : Prop :=
  if decide (endptr = 0) then m' = m else forall x, m' !! x = if decide (endptr <= x < endptr + 8) then Some (e / 256 ^ (x - endptr) mod 256) else m !! x.

Lemma set_end_wp {A} endptr e m (r : A) : end_ok endptr m -> wp (when (negb (endptr =? 0)) (stw endptr e) ;; ret r) (fun r' m' => r' = r /\ end_set endptr e m m') m.
Proof.
  unfold end_set. intros He. wp_step. wp_step; intros E.
  - apply negb_true_iff, Z.eqb_neq in E. destruct He as [|[Ha Hm]]; [done|]. unfold stw. change lsize with 8. rewrite Ha. change (0 =? 0) with true. cbv iota.
    eapply wp_mono; [by apply (stn_wp 8)|]. intros ? m' Hm'. wp_step. by rewrite decide_False.
  - apply negb_false_iff, Z.eqb_eq in E. wp_step. by rewrite decide_True.
Qed.

(** The sign before the text [t] of a number: none, or one that is not white space. *)
Inductive sign_of : list Z -> list Z -> bool -> Prop :=
| no_sign t : (forall c u, t = c :: u -> c <> 43 /\ c <> 45 /\ isspace c = false) -> sign_of [] t false
| plus_sign t : sign_of [43] t false
| minus_sign t : sign_of [45] t true.

Lemma sign_of_spans ws sg t neg : Forall (fun c => isspace c) ws -> sign_of sg t neg -> spans (fun c => isspace c) (ws ++ sg ++ t) ws (sg ++ t).
Proof.
  intros Hw Hsg. split; [done|]. split; [done|]. intros c u E. destruct Hsg as [t Ht| |]; cbn in E; [|injection E as <- _; by intros H..].
  destruct (Ht c u E) as (_ & _ & ->). by intros H.
Qed.

Lemma starts_0x_wp m p l : str m p l -> wp (starts_0x p) (fun r m' => m' = m /\ (r = true <-> exists t, l = 48 :: 120 :: t)) m.
Proof.
  intros Hs. unfold starts_0x. destruct l as [|a l]; cbn in Hs.
  { wp_step. eapply ldb_wp; [done|]. change (0 =? 48) with false. cbv iota. wp_step. split; [done|]. split; [done|]. by intros [t ?]. }
  destruct Hs as (Ha & _ & Hs). wp_step. eapply ldb_wp; [done|]. destruct (Z.eqb_spec a 48) as [->|Hne].
  - destruct (str_head _ _ _ Hs) as (b & u & E & Eb & Rb). wp_step. eapply ldb_wp; [done|]. wp_step. split; [done|]. rewrite Z.eqb_eq. split.
    + intros ->. destruct l as [|c l]; cbn in E; [done|]. injection E as -> _. by exists l.
    + intros [t [= ->]]. cbn in E. by injection E as -> _.
  - wp_step. split; [done|]. split; [done|]. intros [t [= -> _]]. done.
Qed.

(** The base [strtoul] takes for the text [t], and the text it leaves. *)
Inductive ul_radix (base : Z) : list Z -> Z -> list Z -> Prop :=
| ul_hex t : base = 0 \/ base = 16 -> ul_radix base (48 :: 120 :: t) 16 t
| ul_octal t : base = 0 -> (forall u, t <> 120 :: u) -> ul_radix base (48 :: t) 8 t
| ul_decimal t : base = 0 -> (forall u, t <> 48 :: u) -> ul_radix base t 10 t
| ul_given t : 2 <= base <= 36 -> (base = 16 -> forall u, t <> 48 :: 120 :: u) -> ul_radix base t base t.

Lemma ul_radix_wp m p t base b u : str m p t -> ul_radix base t b u ->
  wp (do hex <- (if (base =? 0) || (base =? 16) then starts_0x p else ret false);
      (if hex then ret (16, p + 2) else if base =? 0 then do c <- ldb p; ret (if c =? 48 then (8, p + 1) else (10, p)) else ret (base, p)))
    (fun r m' => m' = m /\ r = (b, p + (len t - len u)) /\ str m (p + (len t - len u)) u /\ 2 <= b <= 36) m.
Proof.
  intros Hs Hr. wp_step. apply (wp_mono _ (fun h m' => m' = m /\ (h = true <-> (base = 0 \/ base = 16) /\ exists t', t = 48 :: 120 :: t'))).
  { destruct (Z.eqb_spec base 0) as [->|H0]; [|destruct (Z.eqb_spec base 16) as [->|H1]]; cbn [orb]; [eapply wp_mono; [by apply starts_0x_wp|]; intros r m' [-> Hh]; split; [done|]; rewrite Hh; tauto..|].
    wp_step. split; [done|]. split; [done|]. lia. }
  intros h m' [-> Hh]. destruct Hr as [t Hb|t Hb Ht|t Hb Ht|t Hb Ht].
  - rewrite (proj2 Hh) by eauto. wp_step. cbn [length]. cbn in Hs. replace (Z.of_nat (S (S (length t))) - len t) with 2 by lia. replace (p + 1 + 1) with (p + 2) in Hs by lia. split; [done|]. split; [done|]. split; [tauto|lia].
  - subst base. destruct h; [exfalso; destruct (proj1 Hh eq_refl) as [_ [t' [= E]]]; by eapply Ht|]. change (0 =? 0) with true. cbv iota. cbn in Hs. destruct Hs as (Ha & _ & Hs). wp_step. eapply ldb_wp; [done|]. change (48 =? 48) with true. cbv iota.
    wp_step. cbn [length]. replace (Z.of_nat (S (length t)) - len t) with 1 by lia. split; [done|]. split; [done|]. split; [done|lia].
  - subst base. destruct h; [exfalso; destruct (proj1 Hh eq_refl) as [_ [t' E]]; by eapply Ht|]. change (0 =? 0) with true. cbv iota. destruct (str_head _ _ _ Hs) as (a & v & E & Ea & Ra). wp_step. eapply ldb_wp; [done|].
    rewrite (proj2 (Z.eqb_neq a 48)). { wp_step. rewrite Z.sub_diag, Z.add_0_r. split; [done|]. split; [done|]. split; [done|lia]. }
    intros ->. destruct t as [|c t]; cbn in E; [done|]. injection E as -> _. by eapply Ht.
  - destruct h; [exfalso; destruct (proj1 Hh eq_refl) as [[|] [t' E]]; [lia|by eapply Ht]|]. rewrite (proj2 (Z.eqb_neq base 0)) by lia. wp_step. rewrite Z.sub_diag, Z.add_0_r. done.
Qed.

(** What [strtoul] makes of a number [v]. *)
Definition ul_result (neg : bool) (v : Z) : Z := if neg && (v <? ULONG_MAX) then u64 (- v) else Z.min v ULONG_MAX.

Lemma strtoul_wp m errno p endptr base ws sg t neg b u ds rest :
  str m p (ws ++ sg ++ t) -> Forall (fun c => isspace c) ws -> sign_of sg t neg -> ul_radix base t b u -> spans (is_digit b) u ds rest -> end_ok endptr m ->
  wp (strtoul char_signed errno p endptr base)
    (fun r m' => r = (ul_result neg (value b ds 0), if ULONG_MAX <? value b ds 0 then ERANGE else errno) /\ end_set endptr (p + len (ws ++ sg ++ t) - len rest) m m') m.
Proof.
  intros Hs Hw Hsg Hr Hsp He. assert (0 <= base <= 36 /\ base <> 1) as [Hb Hb1] by (destruct Hr; lia). unfold strtoul.
  rewrite (proj2 (Z.ltb_ge base 0)), (proj2 (Z.eqb_neq base 1)), (proj2 (Z.ltb_ge 36 base)) by lia. cbn [orb]. pose proof (str_fuel _ _ _ Hs) as Hf. rewrite !length_app in Hf.
  wp_step. apply fuel_wp. wp_step. eapply wp_mono; [eapply skip_space_wp; [exact Hs|by eapply sign_of_spans|rewrite !length_app; lia]|]. intros r ? [-> ->]. pose proof (str_app _ _ _ _ Hs) as Hs1. pose proof (str_app _ _ _ _ Hs1) as Hs2.
  destruct (str_head _ _ _ Hs1) as (c & v & Ec & Hc & _). wp_step. eapply ldb_wp; [done|]. cbv zeta.
  assert (negb (c =? 43) && (c =? 45) = neg /\ (if (c =? 43) || (c =? 45) then p + len ws + 1 else p + len ws) = p + len ws + len sg) as [-> ->].
  { destruct Hsg as [t Ht| |]; [|cbn in Ec; injection Ec as <- _; by cbn..]. cbn [app length] in *. rewrite Z.add_0_r. destruct t as [|y t]; cbn in Ec; injection Ec as <- _; [done|]. destruct (Ht y t eq_refl) as (H1 & H2 & _). apply Z.eqb_neq in H1, H2. by rewrite H1, H2. }
  apply wp_group.
  wp_step. eapply wp_mono; [by eapply ul_radix_wp|]. intros r ? (-> & -> & Hs3 & Hb2). wp_step. destruct Hsp as (-> & Hd & Hrest).
  pose proof (strtoul_digits_wp (S (size m)) (fun r m' => r = (Z.min (value b ds 0) ULONG_MAX, if ULONG_MAX <? value b ds 0 then ERANGE else errno) /\ end_set endptr (p + len (ws ++ sg ++ t) - len rest) m m') errno endptr b Hb2 m _ _ ds rest 0 Hs3 ltac:(done)) as Hgo.
  eapply wp_mono; [apply Hgo; [pose proof (str_fuel _ _ _ Hs3); done|lia|]|].
  - eapply wp_mono; [by apply set_end_wp|]. intros r m' [-> Hm']. split; [done|]. rewrite !length_app in *. by replace (p + Z.of_nat (length ws + (length sg + length t)) - len rest) with (p + len ws + len sg + (len t - Z.of_nat (length ds + length rest)) + len ds) by lia.
  - intros r m' [-> Hm']. wp_step. split; [|done]. f_equal. unfold ul_result. pose proof (value_ge b ds 0 ltac:(lia) Hd ltac:(lia)). destruct neg; cbn [andb]; [|done].
    destruct (Z.ltb_spec (value b ds 0) ULONG_MAX); [rewrite Z.min_l by lia; by rewrite (proj2 (Z.eqb_neq _ _)) by lia|]. rewrite Z.min_r by lia. by rewrite Z.eqb_refl.
Qed.

(** ** [strtol] *)

(** The largest number a [long] of that sign can be, and what is kept of a number. *)
Definition long_limit (neg : bool) : Z := if neg then 2 ^ 63 else 2 ^ 63 - 1.
Definition long_of (neg : bool) (v : Z) : Z := if neg then - Z.min v (2 ^ 63) else Z.min v (2 ^ 63 - 1).
Definition any_of (neg k : bool) (v : Z) : Z := if long_limit neg <? v then -1 else if k then 1 else 0.

Lemma cut_values_spec neg base : 2 <= base <= 36 ->
  let '(cutoff, cutlim) := cut_values neg base in 0 <= cutlim < base /\ (if neg then - cutoff else cutoff) * base + cutlim = long_limit neg.
Proof.
  intros Hb. unfold cut_values, long_limit, LONG_MIN, LONG_MAX. destruct neg.
  - rewrite Z.rem_opp_l, Z.quot_opp_l by lia. rewrite Z.rem_mod_nonneg, Z.quot_div_nonneg by lia. pose proof (Z.mod_pos_bound (2 ^ 63) base ltac:(lia)). pose proof (Z.div_mod (2 ^ 63) base ltac:(lia)).
    rewrite s32_small by lia. rewrite (proj2 (Z.ltb_ge 0 _)) by lia. split; lia.
  - rewrite Z.rem_mod_nonneg, Z.quot_div_nonneg by lia. pose proof (Z.mod_pos_bound (2 ^ 63 - 1) base ltac:(lia)). pose proof (Z.div_mod (2 ^ 63 - 1) base ltac:(lia)). rewrite s32_small by lia. split; lia.
Qed.

Lemma s64_small x : - 2 ^ 63 <= x < 2 ^ 63 -> s64 x = x.
Proof.
  intros Hx. unfold s64, u64. destruct (decide (0 <= x)).
  - rewrite Z.mod_small by lia. by rewrite (proj2 (Z.ltb_lt _ _)) by lia.
  - replace (x mod 2 ^ 64) with (x + 2 ^ 64) by (apply (Zmod_unique _ _ (-1)); lia). rewrite (proj2 (Z.ltb_ge _ _)) by lia. lia.
Qed.

(** One more digit: the test for what is too large is exact, and nothing else overflows. *)
Lemma strtol_step neg base v d : 2 <= base <= 36 -> 0 <= v <= long_limit neg -> 0 <= d < base ->
  let '(cutoff, cutlim) := cut_values neg base in
  let acc := long_of neg v in
  ((if neg then acc <? cutoff else cutoff <? acc) || ((acc =? cutoff) && (cutlim <? d))) = (long_limit neg <? v * base + d) /\
  (v * base + d <= long_limit neg -> s64 (if neg then s64 (acc * base) - d else s64 (acc * base) + d) = long_of neg (v * base + d)).
Proof.
  intros Hb Hv Hd. pose proof (cut_values_spec neg base Hb) as Hc. destruct (cut_values neg base) as [cutoff cutlim]. destruct Hc as [Hl Hc]. unfold long_of, long_limit in *. destruct neg.
  - rewrite Z.min_l by lia. split.
    + apply eq_true_iff_eq. rewrite orb_true_iff, andb_true_iff, !Z.ltb_lt, Z.eqb_eq. nia.
    + intros Hle. rewrite Z.min_l by lia. rewrite (s64_small (- v * base)) by nia. rewrite s64_small; nia.
  - rewrite Z.min_l by lia. split.
    + apply eq_true_iff_eq. rewrite orb_true_iff, andb_true_iff, !Z.ltb_lt, Z.eqb_eq. nia.
    + intros Hle. rewrite Z.min_l by lia. rewrite (s64_small (v * base)) by nia. rewrite s64_small; nia.
Qed.

Lemma digit_alt c : if negb (isdigit c) && negb (isalpha c) then digit_of c = -1 else 0 <= digit_of c /\ (if isdigit c then c - 48 else c - (if isupper c then 65 - 10 else 97 - 10)) = digit_of c.
Proof.
  unfold isalpha, isdigit, isupper, islower, digit_of.
  destruct (Z.leb_spec 48 c), (Z.leb_spec c 57), (Z.leb_spec 65 c), (Z.leb_spec c 90), (Z.leb_spec 97 c), (Z.leb_spec c 122); cbn [negb andb orb]; lia.
Qed.

(** The character [c] is the byte at [p], as a [char] or not. *)
Definition reads m p c : Prop := exists a, m !! p = Some a /\ 0 <= a < 256 /\ (c = a \/ c = cval a).

Lemma strtol_digits_wp f Q errno neg base : 2 <= base <= 36 -> let '(cutoff, cutlim) := cut_values neg base in
  forall m s u ds rest v k c, str m (s - 1) u -> reads m (s - 1) c -> spans (is_digit base) u ds rest -> (length u < f)%nat -> 0 <= v ->
  Q (long_of neg (value base ds v), any_of neg (k || bool_decide (ds <> [])) (value base ds v), s + len ds, if long_limit neg <? value base ds v then ERANGE else errno) m ->
  wp (strtol_digits f neg base cutoff cutlim c s (long_of neg v) (any_of neg k v) (if long_limit neg <? v then ERANGE else errno)) Q m.
Proof.
  intros Hb. pose proof (fun v d => strtol_step neg base v d Hb) as Hstep. destruct (cut_values neg base) as [cutoff cutlim].
  induction f as [|f IH]; intros m s u ds rest v k c Hs (a & Ea & Ra & Hc) (-> & Hd & Hr) Hf Hv HQ; [lia|]. cbn [strtol_digits]. cbv zeta. assert (digit_of c = digit_of a) as Edc by (destruct Hc as [->| ->]; [done|by apply digit_of_cval]).
  pose proof (digit_alt c) as Hal. destruct (str_head _ _ _ Hs) as (a' & w & E & Ea' & _). assert (a' = a) as -> by congruence. destruct ds as [|x ds].
  - change (value base [] v) with v in HQ. cbn [length] in HQ. rewrite Z.add_0_r, bool_decide_false, orb_false_r in HQ by tauto. assert (~ is_digit base a) as Hno by (destruct rest as [|y t]; cbn in E; injection E as <- _; [unfold is_digit; cbn; lia|by apply (Hr y t)]). unfold is_digit in Hno.
    destruct (negb (isdigit c) && negb (isalpha c)); [by wp_step|]. destruct Hal as [Hp ->]. rewrite (proj2 (Z.leb_le _ _)) by lia. by wp_step.
  - cbn in E, Hs. injection E as -> _. destruct Hs as (_ & _ & Hs). replace (s - 1 + 1) with (s + 1 - 1) in Hs by lia. apply Forall_cons_1 in Hd as [Hx Hd]. destruct Hx as [H0 H1].
    destruct (negb (isdigit c) && negb (isalpha c)); [lia|]. destruct Hal as [Hp ->]. rewrite Edc, (proj2 (Z.leb_gt _ _)) by lia. destruct (str_head _ _ _ Hs) as (b & w' & _ & Eb & Rb).
    assert (wp (do c <- ldb s; strtol_digits f neg base cutoff cutlim c (s + 1) (long_of neg (v * base + digit_of a)) (any_of neg true (v * base + digit_of a)) (if long_limit neg <? v * base + digit_of a then ERANGE else errno)) Q m) as Hgo.
    { wp_step. replace (s + 1 - 1) with s in Eb by lia. eapply ldb_wp; [done|]. eapply IH; [exact Hs|exists b; replace (s + 1 - 1) with s by lia; tauto|by split|cbn in Hf; lia|nia|].
      change (value base (a :: ds) v) with (value base ds (v * base + digit_of a)) in HQ. cbn [length] in HQ. rewrite bool_decide_true, orb_true_r in HQ by done. cbn [orb]. by replace (s + 1 + len ds) with (s + Z.of_nat (S (length ds))) by lia. }
    unfold any_of in *. destruct (Z.ltb_spec (long_limit neg) v) as [Hov|Hin].
    + change (-1 <? 0) with true. cbv iota. assert (long_limit neg < v * base + digit_of a) as Hov' by nia. rewrite (proj2 (Z.ltb_lt _ _) Hov') in Hgo. replace (long_of neg v) with (long_of neg (v * base + digit_of a)); [done|].
      unfold long_of, long_limit in *. destruct neg; rewrite !Z.min_r by lia; done.
    + replace ((if k then 1 else 0) <? 0) with false by (by destruct k). specialize (Hstep v (digit_of a) ltac:(lia) ltac:(lia)). cbv zeta in Hstep. destruct Hstep as [Et Hok].
      assert (long_limit neg < v * base + digit_of a -> (if neg then LONG_MIN else LONG_MAX) = long_of neg (v * base + digit_of a)) as Hmax by (intros Hlt; unfold long_of, long_limit, LONG_MIN, LONG_MAX in *; destruct neg; rewrite Z.min_r by lia; done).
      revert Hgo Et. destruct (Z.ltb_spec (long_limit neg) (v * base + digit_of a)) as [Hlt|Hle]; intros Hgo Et.
      * rewrite <- Hmax in Hgo by done. by destruct neg; rewrite Et.
      * rewrite <- Hok in Hgo by done. by destruct neg; rewrite Et.
Qed.

Lemma skip_read_wp f : forall m p l ws t, str m p l -> spans (fun c => isspace c) l ws t -> (length l < f)%nat ->
  wp (skip_read f p) (fun r m' => m' = m /\ exists a, m !! (p + len ws) = Some a /\ r = (a, p + len ws + 1)) m.
Proof.
  induction f as [|f IH]; intros m p l ws t Hs (-> & Hw & Ht) Hf; [lia|]. cbn [skip_read]. wp_step. destruct ws as [|x ws]; cbn in *.
  - destruct (str_head m p t Hs) as (a & u & E & Ea & Ra). eapply ldb_wp; [done|].
    destruct (isspace a) eqn:Ei; [|wp_step; rewrite Z.add_0_r; eauto]. destruct t as [|y t]; cbn in E; [by injection E as <- _|]. injection E as <- _. exfalso. apply (Ht y t eq_refl). by rewrite Ei.
  - destruct Hs as (Hx & Hr & Hs). apply Forall_cons_1 in Hw as [Ex Hw]. eapply ldb_wp; [done|]. destruct (isspace x); [|done].
    eapply wp_mono; [apply (IH m (p + 1) (ws ++ t) ws t Hs); [by split|cbn in Hf; lia]|]. intros r m' (-> & a & Ea & ->). split; [done|]. exists a. replace (p + Z.of_nat (S (length ws))) with (p + 1 + len ws) by lia. done.
Qed.

(** The base [strtol] takes for the text [t], and the text it leaves. *)
Inductive l_radix (base : Z) : list Z -> Z -> list Z -> Prop :=
| l_hex x t : base = 0 \/ base = 16 -> x = 120 \/ x = 88 -> l_radix base (48 :: x :: t) 16 t
| l_octal t : base = 0 -> (forall x u, t = x :: u -> x <> 120 /\ x <> 88) -> l_radix base (48 :: t) 8 (48 :: t)
| l_decimal t : base = 0 -> (forall u, t <> 48 :: u) -> l_radix base t 10 t
| l_given t : 2 <= base <= 36 -> (base = 16 -> forall x u, t = 48 :: x :: u -> x <> 120 /\ x <> 88) -> l_radix base t base t.

Definition l_prefix (base c s : Z) : M cmem (Z * Z * Z) :=
  if ((base =? 0) || (base =? 16)) && (c =? 48) then
    do x <- ldb s;
    if (x =? 120) || (x =? 88) then do c <- ldb (s + 1); ret (cval c, s + 2, 16) else ret (c, s, base)
  else ret (c, s, base).

Lemma reads_48 m p c : reads m p c -> c = 48 <-> m !! p = Some 48.
Proof. intros (a & Ea & Ra & Hc). rewrite Ea. destruct (decide (a < 128)); [rewrite cval_small in Hc by lia|destruct (cval_large a ltac:(lia))]; (split; [intros ->; f_equal; lia|intros [= ->]; lia]). Qed.

Lemma l_prefix_wp m s c t base b u : str m (s - 1) t -> reads m (s - 1) c -> l_radix base t b u ->
  wp (l_prefix base c s) (fun r m' => m' = m /\ exists c' base', let s' := s + (len t - len u) in r = (c', s', base') /\ str m (s' - 1) u /\ reads m (s' - 1) c' /\ 2 <= b <= 36 /\ b = if base' =? 0 then if c' =? 48 then 8 else 10 else base') m.
Proof.
  intros Hs Hc Hr. pose proof (reads_48 _ _ _ Hc) as H48. destruct (str_head _ _ _ Hs) as (a & v & E & Ea & Ra). unfold l_prefix.
  assert (forall b', 2 <= b <= 36 -> u = t -> b = (if b' =? 0 then if c =? 48 then 8 else 10 else b') -> wp (ret (c, s, b')) (fun r m' => m' = m /\ exists c' base', let s' := s + (len t - len u) in r = (c', s', base') /\ str m (s' - 1) u /\ reads m (s' - 1) c' /\ 2 <= b <= 36 /\ b = if base' =? 0 then if c' =? 48 then 8 else 10 else base') m) as Hstay.
  { intros b' Hb -> Eb. wp_step. split; [done|]. exists c, b'. cbv zeta. rewrite Z.sub_diag, Z.add_0_r. done. }
  destruct Hr as [x t Hb Hx|t Hb Ht|t Hb Ht|t Hb Ht].
  - cbn in Hs. destruct Hs as (H0 & _ & Hx' & _ & Hs). replace (s - 1 + 1) with s in * by lia. rewrite (proj2 H48 H0). replace (((base =? 0) || (base =? 16)) && (48 =? 48)) with true by (destruct Hb as [->| ->]; done).
    destruct (str_head _ _ _ Hs) as (d & w & _ & Ed & Rd). wp_step. eapply ldb_wp; [done|]. replace ((x =? 120) || (x =? 88)) with true by (destruct Hx as [->| ->]; done). wp_step. eapply ldb_wp; [done|]. wp_step. split; [done|].
    exists (cval d), 16. cbn [length]. replace (s + (Z.of_nat (S (S (length t))) - len t)) with (s + 2) by lia. cbv zeta. replace (s + 2 - 1) with (s + 1) by lia. split; [done|]. split; [done|]. split; [exists d; tauto|]. split; [lia|done].
  - subst base. cbn in Hs. destruct Hs as (H0 & _ & Hs). replace (s - 1 + 1) with s in * by lia. rewrite (proj2 H48 H0) in *. change (((0 =? 0) || (0 =? 16)) && (48 =? 48)) with true. cbv iota. destruct (str_head _ _ _ Hs) as (d & w & Ed' & Ed & Rd). wp_step. eapply ldb_wp; [done|].
    replace ((d =? 120) || (d =? 88)) with false; [apply Hstay; [lia|done|done]|]. symmetry. apply orb_false_iff. rewrite !Z.eqb_neq. destruct t as [|y t]; cbn in Ed'; injection Ed' as <- _; [lia|]. by eapply Ht.
  - subst base. assert (c <> 48) as Hne. { rewrite H48. intros H. assert (a = 48) as -> by congruence. destruct t as [|y t]; cbn in E; [done|]. injection E as -> _. by eapply Ht. }
    rewrite (proj2 (Z.eqb_neq c 48)) by done. rewrite andb_false_r. apply Hstay; [lia|done|]. by rewrite (proj2 (Z.eqb_neq c 48)).
  - destruct (((base =? 0) || (base =? 16)) && (c =? 48)) eqn:Et; [|apply Hstay; [lia|done|by rewrite (proj2 (Z.eqb_neq base 0)) by lia]]. apply andb_true_iff in Et as [Et1 Et2]. apply Z.eqb_eq in Et2. apply orb_true_iff in Et1 as [Et1|Et1]; apply Z.eqb_eq in Et1; [lia|].
    apply H48 in Et2. assert (a = 48) as -> by congruence. destruct t as [|y t]; cbn in E; [done|]. injection E as -> _. cbn in Hs. destruct Hs as (_ & _ & Hs). replace (s - 1 + 1) with s in * by lia. destruct (str_head _ _ _ Hs) as (d & w & Ed' & Ed & Rd). wp_step. eapply ldb_wp; [done|].
    replace ((d =? 120) || (d =? 88)) with false; [apply Hstay; [lia|done|by rewrite (proj2 (Z.eqb_neq base 0)) by lia]|]. symmetry. apply orb_false_iff. rewrite !Z.eqb_neq. destruct t as [|z t]; cbn in Ed'; injection Ed' as <- _; [lia|]. by eapply Ht.
Qed.

Lemma strtol_wp m errno p endptr base ws sg t neg b u ds rest :
  str m p (ws ++ sg ++ t) -> Forall (fun c => isspace c) ws -> sign_of sg t neg -> l_radix base t b u -> spans (is_digit b) u ds rest -> end_ok endptr m ->
  wp (strtol char_signed errno p endptr base)
    (fun r m' => r = (long_of neg (value b ds 0), if long_limit neg <? value b ds 0 then ERANGE else errno) /\ end_set endptr (if decide (ds = []) then p else p + len (ws ++ sg ++ t) - len rest) m m') m.
Proof.
  intros Hs Hw Hsg Hr Hsp He. unfold strtol. wp_step. apply fuel_wp. wp_step. eapply wp_mono; [eapply skip_read_wp; [exact Hs|by eapply sign_of_spans|by eapply str_fuel]|]. intros r ? (-> & a & Ea & ->).
  pose proof (str_app _ _ _ _ Hs) as Hs1. pose proof (str_app _ _ _ _ Hs1) as Hs2. destruct (str_head _ _ _ Hs1) as (a' & v & Ec & Ea' & Ra). assert (a' = a) as -> by congruence. cbv zeta. wp_step.
  apply (wp_mono _ (fun r m' => m' = m /\ (a =? 45) = neg /\ exists c, r = (c, p + len ws + len sg + 1) /\ reads m (p + len ws + len sg) c)).
  { destruct (str_head _ _ _ Hs2) as (d & w & _ & Ed & Rd). destruct Hsg as [t Ht| |]; cbn [app length] in *; [|injection Ec as <- _..].
    - rewrite Z.add_0_r in *. assert ((a =? 45) = false /\ (a =? 43) = false) as [-> ->]. { destruct t as [|y t]; cbn in Ec; injection Ec as <- _; [done|]. destruct (Ht y t eq_refl) as (? & ? & _). rewrite !Z.eqb_neq. done. }
      cbn [orb]. wp_step. split; [done|]. split; [done|]. exists a. split; [done|]. exists a. tauto.
    - change ((43 =? 45) || (43 =? 43)) with true. cbv iota. wp_step. eapply ldb_wp; [done|]. wp_step. split; [done|]. split; [done|]. exists (cval d). split; [done|]. exists d. tauto.
    - change ((45 =? 45) || (45 =? 43)) with true. cbv iota. wp_step. eapply ldb_wp; [done|]. wp_step. split; [done|]. split; [done|]. exists (cval d). split; [done|]. exists d. tauto. }
  intros r ? (-> & -> & c & -> & Hc). replace (p + len ws + len sg) with (p + len ws + len sg + 1 - 1) in Hs2, Hc by lia. wp_step. fold (l_prefix base c (p + len ws + len sg + 1)). eapply wp_mono; [by eapply l_prefix_wp|].
  intros r ? (-> & c' & base' & Er). cbv zeta in Er. destruct Er as (-> & Hs3 & Hc3 & Hb & <-). pose proof (fun Q => strtol_digits_wp (S (size m)) Q errno neg b Hb) as Hgo. destruct (cut_values neg b) as [cutoff cutlim]. wp_step. destruct Hsp as (-> & Hd & Hrest).
  specialize (Hgo (fun r m' => m' = m /\ r = (long_of neg (value b ds 0), any_of neg (bool_decide (ds <> [])) (value b ds 0), p + len (ws ++ sg ++ t) - len rest + 1, if long_limit neg <? value b ds 0 then ERANGE else errno)) m _ _ ds rest 0 false c' Hs3 Hc3 ltac:(done) ltac:(by eapply str_fuel) ltac:(lia)).
  eapply wp_mono; [destruct neg; apply Hgo; (split; [done|]); rewrite !length_app; f_equal; f_equal; lia|]. clear Hgo. intros r ? [-> ->].
  pose proof (value_ge b ds 0 ltac:(lia) Hd ltac:(lia)). replace (if negb (any_of neg (bool_decide (ds <> [])) (value b ds 0) =? 0) then p + len (ws ++ sg ++ t) - len rest + 1 - 1 else p) with (if decide (ds = []) then p else p + len (ws ++ sg ++ t) - len rest).
  - eapply wp_mono; [by apply set_end_wp|]. intros r m' [-> Hm']. done.
  - unfold any_of. destruct (decide (ds = [])) as [->|Hne]; [cbn [value fold_left]; by destruct neg|]. rewrite bool_decide_true by done. destruct (_ <? _); cbn; lia.
Qed.
End numbers.
