(* ===== verification/LibcSort.v ===== *)
(** * Sorting of the C library

    [lib/libc/qsort.c] over the memory of [LibcMem]: an array of [n] elements of [es] bytes, with the function that compares two of
    them as an argument.  The fuel of a call is the number of elements and one, and so is that of its loops. *)

From stdpp Require Import base gmap list numbers sorting.
From S2P Require Import Prelude Align LibcMem LibcString LibcStdlib.

(** ** Exchanging memory *)

(** The loop of [swapcode], which runs at least once. *)
Fixpoint swap_bytes (i : nat) (pi pj : Z) : M cmem unit :=
  match i with
  | O => ret tt
  | S i => do t <- ldb pi; do u <- ldb pj; stb pi u ;; stb pj t ;; swap_bytes i (pi + 1) (pj + 1)
  end.
Fixpoint swap_longs (i : nat) (pi pj : Z) : M cmem unit :=
  match i with
  | O => ret tt
  | S i => do t <- ldw pi; do u <- ldw pj; stw pi u ;; stw pj t ;; swap_longs i (pi + lsize) (pj + lsize)
  end.
Definition swapfunc (a b n swaptype : Z) : M cmem unit :=
  if swaptype <=? 1 then swap_longs (Z.to_nat (Z.max 1 (s64 (u64 n / lsize)))) a b
  else swap_bytes (Z.to_nat (Z.max 1 (s64 (u64 n / 1)))) a b.

Definition SWAPINIT (a es : Z) : Z :=
  if negb (a mod lsize =? 0) || negb (es mod lsize =? 0) then 2 else if es =? lsize then 0 else 1.

Definition swap (es swaptype a b : Z) : M cmem unit :=
  if swaptype =? 0 then do t <- ldw a; do u <- ldw b; stw a u ;; stw b t
  else swapfunc a b (s32 es) swaptype.
Definition vecswap (swaptype a b n : Z) : M cmem unit := when (0 <? n) (swapfunc a b n swaptype).

(** ** [qsort] *)

Section qsort.
Context (cmp : Z -> Z -> M cmem Z).

Definition med3 (a b c : Z) : M cmem Z :=
  do r <- cmp a b;
  if r <? 0 then
    do r <- cmp b c;
    if r <? 0 then ret b else do r <- cmp a c; ret (if r <? 0 then c else a)
  else
    do r <- cmp b c;
    if 0 <? r then ret b else do r <- cmp a c; ret (if r <? 0 then a else c).

(** The inner and the outer loop of the insertion sort. *)
Fixpoint insert_down (f : nat) (es swaptype a pl : Z) : M cmem unit :=
  match f with
  | O => fail OutOfFuel
  | S f =>
      if a <? pl then
        do r <- cmp (pl - es) pl;
        if 0 <? r then swap es swaptype pl (pl - es) ;; insert_down f es swaptype a (pl - es) else ret tt
      else ret tt
  end.
Fixpoint insertion (f f' : nat) (es swaptype a pm pe : Z) : M cmem unit :=
  match f with
  | O => fail OutOfFuel
  | S f => if pm <? pe then insert_down f' es swaptype a pm ;; insertion f f' es swaptype a (pm + es) pe else ret tt
  end.

(** The choice of the element that divides the others. *)
Definition pivot (a n es : Z) : M cmem Z :=
  let pm := a + u64 (n / 2 * es) in
  if 7 <? n then
    let pl := a in
    let pn := a + u64 ((n - 1) * es) in
    do ' (pl, pm, pn) <-
      (if 40 <? n then
         let d := s32 (n / 8 * es) in
         do pl <- med3 pl (pl + d) (pl + 2 * d);
         do pm <- med3 (pm - d) pm (pm + d);
         do pn <- med3 (pn - 2 * d) (pn - d) pn;
         ret (pl, pm, pn)
       else ret (pl, pm, pn));
    med3 pl pm pn
  else ret pm.

(** The two loops inside [for (;;)]: [pa], [pb] or [pc], [pd], and [swap_cnt]. *)
Fixpoint scan_up (f : nat) (es swaptype a pa pb pc swap_cnt : Z) : M cmem (Z * Z * Z) :=
  match f with
  | O => fail OutOfFuel
  | S f =>
      if pb <=? pc then
        do r <- cmp pb a;
        if r <=? 0 then
          if r =? 0 then swap es swaptype pa pb ;; scan_up f es swaptype a (pa + es) (pb + es) pc 1
          else scan_up f es swaptype a pa (pb + es) pc swap_cnt
        else ret (pa, pb, swap_cnt)
      else ret (pa, pb, swap_cnt)
  end.
Fixpoint scan_down (f : nat) (es swaptype a pb pc pd swap_cnt : Z) : M cmem (Z * Z * Z) :=
  match f with
  | O => fail OutOfFuel
  | S f =>
      if pb <=? pc then
        do r <- cmp pc a;
        if 0 <=? r then
          if r =? 0 then swap es swaptype pc pd ;; scan_down f es swaptype a pb (pc - es) (pd - es) 1
          else scan_down f es swaptype a pb (pc - es) pd swap_cnt
        else ret (pc, pd, swap_cnt)
      else ret (pc, pd, swap_cnt)
  end.
Fixpoint partition (f f' : nat) (es swaptype a pa pb pc pd swap_cnt : Z) : M cmem (Z * Z * Z * Z * Z) :=
  match f with
  | O => fail OutOfFuel
  | S f =>
      do ' (pa, pb, swap_cnt) <- scan_up f' es swaptype a pa pb pc swap_cnt;
      do ' (pc, pd, swap_cnt) <- scan_down f' es swaptype a pb pc pd swap_cnt;
      if pc <? pb then ret (pa, pb, pc, pd, swap_cnt)
      else swap es swaptype pb pc ;; partition f f' es swaptype a pa (pb + es) (pc - es) pd 1
  end.

(** The equal elements are moved from the ends to the middle, and the two parts are sorted. *)
Fixpoint qsort_loop (f : nat) (a n es : Z) : M cmem unit :=
  match f with
  | O => fail OutOfFuel
  | S f =>
      let swaptype := SWAPINIT a es in
      let g := S (Z.to_nat n) in
      if n <? 7 then insertion g g es swaptype a (a + es) (a + u64 (n * es))
      else
        do pm <- pivot a n es;
        swap es swaptype a pm ;;
        let pa := a + es in
        let pc := a + u64 ((n - 1) * es) in
        do ' (pa, pb, pc, pd, swap_cnt) <- partition g g es swaptype a pa pa pc pc 0;
        if swap_cnt =? 0 then insertion g g es swaptype a (a + es) (a + u64 (n * es))
        else
          let pn := a + u64 (n * es) in
          let r := s32 (if pa - a <? pb - pa then pa - a else pb - pa) in
          vecswap swaptype a (pb - r) r ;;
          let r := s32 (if pd - pc <? pn - pd - s32 es then pd - pc else pn - pd - s32 es) in
          vecswap swaptype pb (pn - r) r ;;
          let r := s32 (pb - pa) in
          when (s32 es <? r) (qsort_loop f a (u64 r / es) es) ;;
          let r := s32 (pd - pc) in
          when (s32 es <? r) (qsort_loop f (pn - r) (u64 r / es) es)
  end.
Definition qsort (aa n es : Z) : M cmem unit := qsort_loop (S (Z.to_nat n)) aa n es.
End qsort.

(** ** Bytes and arrays *)

Local Notation len l := (Z.of_nat (length l)).

(** The bytes [bs] are at [p]. *)
Definition bytes (m : cmem) (p : Z) (bs : list Z) : Prop := forall i b, bs !! i = Some b -> m !! (p + Z.of_nat i) = Some b /\ 0 <= b < 256.

Lemma bytes_app m p x y : bytes m p (x ++ y) <-> bytes m p x /\ bytes m (p + len x) y.
Proof.
  split.
  - intros H. split; intros i b Hi; [apply H; by apply lookup_app_l_Some|]. replace (p + len x + Z.of_nat i) with (p + Z.of_nat (length x + i)) by lia. apply H. rewrite lookup_app_r by lia. by rewrite Nat.add_comm, Nat.add_sub.
  - intros [Hx Hy] i b Hi. apply lookup_app_Some in Hi as [Hi|[Hl Hi]]; [by apply Hx|]. specialize (Hy _ _ Hi). by replace (p + len x + Z.of_nat (i - length x)) with (p + Z.of_nat i) in Hy by lia.
Qed.

Lemma bytes_mapped m p x : bytes m p x -> mapped m p (len x).
Proof. intros Hx y Hy. destruct (lookup_lt_is_Some_2 x (Z.to_nat (y - p)) ltac:(lia)) as [b Hb]. exists b. destruct (Hx _ _ Hb) as [E ?]. replace (p + Z.of_nat (Z.to_nat (y - p))) with y in E by lia. done. Qed.

(** Memory that is changed in [n] bytes from [a] on only. *)
Definition within (a n : Z) (m m' : cmem) : Prop := forall x, ~ a <= x < a + n -> m' !! x = m !! x.

Lemma within_refl a n m : within a n m m.
Proof. done. Qed.
Lemma within_trans a n m1 m2 m3 : within a n m1 m2 -> within a n m2 m3 -> within a n m1 m3.
Proof. intros H1 H2 x Hx. by rewrite H2, H1. Qed.
Lemma within_le a n b k m m' : within a n m m' -> b <= a -> a + n <= b + k -> within b k m m'.
Proof. intros H H1 H2 x Hx. apply H. lia. Qed.
Lemma bytes_within a n m m' p x : within a n m m' -> bytes m p x -> p + len x <= a \/ a + n <= p -> bytes m' p x.
Proof. intros H Hx Hd i b Hi. pose proof (lookup_lt_Some _ _ _ Hi). rewrite H by lia. by apply Hx. Qed.

(** [k] bytes at [p] have changed places with those at [q]. *)
Definition exchanged (p q k : Z) (m m' : cmem) : Prop :=
  forall x, m' !! x = if decide (p <= x < p + k) then m !! (x - p + q) else if decide (q <= x < q + k) then m !! (x - q + p) else m !! x.

Definition apart (p q k : Z) : Prop := p = q \/ p + k <= q \/ q + k <= p.

Lemma exchanged_step p q k k' m m1 m2 : apart p q (k + k') -> 0 <= k -> 0 <= k' -> exchanged p q k m m1 -> exchanged (p + k) (q + k) k' m1 m2 -> exchanged p q (k + k') m m2.
Proof.
  intros Ha Hk Hk' H1 H2 x. rewrite H2. unfold exchanged, apart in *. repeat case_decide; try lia; rewrite ?H1; repeat case_decide; try lia; f_equal; lia.
Qed.

(** Reading [n] bytes at two places and writing them across. *)
Lemma exchange_word_wp n p q m : mapped m p (Z.of_nat n) -> mapped m q (Z.of_nat n) -> apart p q (Z.of_nat n) ->
  wp (do t <- ldn n p; do u <- ldn n q; stn n p u ;; stn n q t) (fun _ m' => exchanged p q (Z.of_nat n) m m') m.
Proof.
  intros Hp Hq Ha. wp_step. eapply wp_mono; [by apply ldn_wp|]. intros t ? [-> Ht]. wp_step. eapply wp_mono; [by apply ldn_wp|]. intros u ? [-> Hu]. wp_step. eapply wp_mono; [by apply stn_wp|]. intros ? m1 H1.
  eapply wp_mono; [apply stn_wp|].
  - intros x Hx. rewrite H1. case_decide; [|by apply Hq]. eexists. split; [done|]. apply Z.mod_pos_bound. lia.
  - intros ? m2 H2 x. rewrite H2. destruct (decide (q <= x < q + Z.of_nat n)).
    + rewrite <- Ht by lia. destruct (decide (p <= x < p + Z.of_nat n)); f_equal; unfold apart in Ha; lia.
    + rewrite H1. destruct (decide (p <= x < p + Z.of_nat n)); [|done]. rewrite <- Hu by lia. f_equal. lia.
Qed.

Lemma exchanged_mapped p q k m m' a n : exchanged p q k m m' -> mapped m p k -> mapped m q k -> mapped m a n -> mapped m' a n.
Proof. intros H Hp Hq Ha x Hx. rewrite H. repeat case_decide; [apply Hq; lia|apply Hp; lia|by apply Ha]. Qed.

Lemma exchanged_nil p q m : exchanged p q 0 m m.
Proof. intros x. by rewrite !decide_False by lia. Qed.

Lemma swap_bytes_wp i : forall p q m, mapped m p (Z.of_nat i) -> mapped m q (Z.of_nat i) -> apart p q (Z.of_nat i) -> wp (swap_bytes i p q) (fun _ m' => exchanged p q (Z.of_nat i) m m') m.
Proof.
  induction i as [|i IH]; intros p q m Hp Hq Ha; cbn [swap_bytes]; [wp_step; apply exchanged_nil|].
  destruct (Hp p ltac:(lia)) as (t & Et & Rt). destruct (Hq q ltac:(lia)) as (u & Eu & Ru). wp_step. eapply ldb_wp; [done|]. wp_step. eapply ldb_wp; [done|]. wp_step. eapply stb_wp; [by eexists|]. wp_step.
  eapply stb_wp; [destruct (decide (p = q)) as [->|]; [by rewrite lookup_insert_eq; eexists|rewrite lookup_insert_ne by done; by eexists]|].
  rewrite !Z.mod_small by lia. assert (exchanged p q 1 m (<[q := t]> (<[p := u]> m))) as H1.
  { intros x. destruct (decide (x = q)) as [->|Hq']; [|destruct (decide (x = p)) as [->|Hp']].
    - rewrite lookup_insert_eq. case_decide; [|rewrite decide_True by lia; replace (q - q + p) with p by lia; done]. replace (q - p + q) with p by (unfold apart in Ha; lia). done.
    - rewrite lookup_insert_ne, lookup_insert_eq by done. rewrite decide_True by lia. replace (p - p + q) with q by lia. done.
    - rewrite !lookup_insert_ne by done. by rewrite !decide_False by lia. }
  eapply wp_mono; [apply IH|].
  - eapply exchanged_mapped; [done|eapply mapped_le; [exact Hp|lia..]|eapply mapped_le; [exact Hq|lia..]|eapply mapped_le; [exact Hp|lia..]].
  - eapply exchanged_mapped; [done|eapply mapped_le; [exact Hp|lia..]|eapply mapped_le; [exact Hq|lia..]|eapply mapped_le; [exact Hq|lia..]].
  - unfold apart in *. lia.
  - intros ? m' H2. replace (Z.of_nat (S i)) with (1 + Z.of_nat i) in * by lia. eapply exchanged_step; try done; lia.
Qed.

Lemma swap_longs_wp i : forall p q m, mapped m p (8 * Z.of_nat i) -> mapped m q (8 * Z.of_nat i) -> apart p q (8 * Z.of_nat i) -> p mod 8 = 0 -> q mod 8 = 0 ->
  wp (swap_longs i p q) (fun _ m' => exchanged p q (8 * Z.of_nat i) m m') m.
Proof.
  induction i as [|i IH]; intros p q m Hp Hq Ha Ap Aq; cbn [swap_longs]; [wp_step; apply exchanged_nil|]. unfold ldw, stw. change lsize with 8. rewrite Ap, Aq. change (0 =? 0) with true. cbv iota.
  assert (mapped m p 8) as Hp8 by (eapply mapped_le; [exact Hp|lia..]). assert (mapped m q 8) as Hq8 by (eapply mapped_le; [exact Hq|lia..]).
  pose proof (exchange_word_wp 8 p q m Hp8 Hq8 ltac:(unfold apart in *; lia)) as Hw. 
  assert (forall Q, wp (do t <- ldn 8 p; do u <- ldn 8 q; stn 8 p u ;; stn 8 q t) (fun _ m' => wp (swap_longs i (p + 8) (q + 8)) Q m') m -> wp (do t <- ldn 8 p; do u <- ldn 8 q; stn 8 p u ;; stn 8 q t ;; swap_longs i (p + 8) (q + 8)) Q m) as Hg.
  { intros Q. unfold wp, bind. destruct (ldn 8 p m) as [t s|]; [|done]. destruct (ldn 8 q s) as [u s'|]; [|done]. destruct (stn 8 p u s') as [? s2|]; [|done]. by destruct (stn 8 q t s2). }
  apply Hg. eapply wp_mono; [exact Hw|]. intros ? m1 H1. eapply wp_mono; [apply IH|].
  - eapply exchanged_mapped; [exact H1|exact Hp8|exact Hq8|eapply mapped_le; [exact Hp|lia..]].
  - eapply exchanged_mapped; [exact H1|exact Hp8|exact Hq8|eapply mapped_le; [exact Hq|lia..]].
  - unfold apart in *. lia.
  - rewrite <- Zplus_mod_idemp_l, Ap. done.
  - rewrite <- Zplus_mod_idemp_l, Aq. done.
  - intros ? m' H2. replace (8 * Z.of_nat (S i)) with (8 + 8 * Z.of_nat i) in * by lia. eapply exchanged_step; [done|lia|lia|exact H1|exact H2].
Qed.

(** Exchanging [k] elements of [es] bytes in an array at [a], by bytes or by words. *)
Lemma swapfunc_wp a es m p q k : 0 < es -> 0 < k -> k * es < 2 ^ 31 -> mapped m p (k * es) -> mapped m q (k * es) -> apart p q (k * es) -> (exists i, p = a + i * es) -> (exists j, q = a + j * es) ->
  wp (swapfunc p q (k * es) (SWAPINIT a es)) (fun _ m' => exchanged p q (k * es) m m') m.
Proof.
  intros He Hk Hb Hp Hq Ha [i Ei] [j Ej]. unfold swapfunc, SWAPINIT. change lsize with 8. pose proof (Z.mul_pos_pos k es Hk He). rewrite u64_small by lia. destruct (Z.eqb_spec (a mod 8) 0) as [A|A]; cbn [negb orb].
  destruct (Z.eqb_spec (es mod 8) 0) as [E|E]; cbn [negb orb].
  2,3: change (2 <=? 1) with false; cbv iota; rewrite Z.div_1_r, s64_small, Z.max_r by lia; pose proof (swap_bytes_wp (Z.to_nat (k * es)) p q m) as Hw; rewrite Z2Nat.id in Hw by lia; by apply Hw.
  replace ((if es =? 8 then 0 else 1) <=? 1) with true by (by destruct (es =? 8)). destruct (Z.mod_divide es 8 ltac:(lia)) as [Hd _]. destruct (Hd E) as [w Ew]. assert (k * es / 8 = k * w) as -> by (rewrite Ew, Z.mul_assoc; apply Z.div_mul; lia).
  assert (0 < k * w) by (apply Z.mul_pos_pos; lia). rewrite s64_small, Z.max_r by nia. pose proof (swap_longs_wp (Z.to_nat (k * w)) p q m) as Hw. rewrite Z2Nat.id in Hw by lia. replace (8 * (k * w)) with (k * es) in Hw by (rewrite Ew; ring).
  apply Hw; try done; [rewrite Ei|rewrite Ej]; rewrite Ew, <- Zplus_mod_idemp_l, A, Z.mul_assoc, Z.add_0_l; apply Z.mod_mul; lia.
Qed.

Lemma swap_wp a es m p q : 0 < es < 2 ^ 31 -> mapped m p es -> mapped m q es -> apart p q es -> (exists i, p = a + i * es) -> (exists j, q = a + j * es) ->
  wp (swap es (SWAPINIT a es) p q) (fun _ m' => exchanged p q es m m') m.
Proof.
  intros He Hp Hq Ha Hi Hj. unfold swap. destruct (Z.eqb_spec (SWAPINIT a es) 0) as [E|E].
  - assert (es = 8 /\ a mod 8 = 0) as [-> A]. { unfold SWAPINIT in E. change lsize with 8 in E. destruct (Z.eqb_spec (a mod 8) 0); cbn [negb orb] in E; [|done]. destruct (negb _); [done|]. destruct (Z.eqb_spec es 8); done. }
    destruct Hi as [i ->], Hj as [j ->]. unfold ldw, stw. change lsize with 8. rewrite !Z_mod_plus_full, A. change (0 =? 0) with true. cbv iota. by apply (exchange_word_wp 8).
  - rewrite s32_small by lia. pose proof (swapfunc_wp a es m p q 1) as Hw. rewrite Z.mul_1_l in Hw. apply Hw; try done; lia.
Qed.

(** What is asked of the function that compares: that it reads the two elements only, and that it orders them. *)
Class Comparator (es : Z) (cmp : Z -> Z -> M cmem Z) (order : list Z -> list Z -> Z) : Prop := {
  cmp_reads m p q x y : bytes m p x -> bytes m q y -> len x = es -> len y = es -> wp (cmp p q) (fun r m' => m' = m /\ r = order x y) m;
  order_flip x y : order x y < 0 <-> 0 < order y x;
  order_trans x y z : order x y <= 0 -> order y z <= 0 -> order x z <= 0 }.

(** An array of elements of [es] bytes. *)
Definition arr (es : Z) (m : cmem) (a : Z) (l : list (list Z)) : Prop := bytes m a (concat l) /\ Forall (fun x => len x = es) l.

Lemma length_concat es (l : list (list Z)) : Forall (fun x => len x = es) l -> len (concat l) = len l * es.
Proof. induction 1 as [|x l Hx Hl IH]; cbn [concat length]; [done|]. rewrite length_app. lia. Qed.

Lemma arr_app es m a l1 l2 : arr es m a (l1 ++ l2) <-> arr es m a l1 /\ arr es m (a + len l1 * es) l2.
Proof.
  unfold arr. rewrite concat_app, bytes_app, Forall_app. split.
  - intros [[H1 H2] [F1 F2]]. rewrite (length_concat es) in H2 by done. done.
  - intros [[H1 F1] [H2 F2]]. rewrite (length_concat es) by done. done.
Qed.

Lemma arr_single es m a x : arr es m a [x] <-> bytes m a x /\ len x = es.
Proof. unfold arr. cbn. rewrite app_nil_r, Forall_singleton. done. Qed.

Lemma arr_elem es m a l1 x l2 : arr es m a (l1 ++ x :: l2) -> bytes m (a + len l1 * es) x /\ len x = es.
Proof. intros H. apply arr_app in H as [_ H]. change (x :: l2) with ([x] ++ l2) in H. apply arr_app in H as [H _]. by apply arr_single in H. Qed.

Lemma arr_mapped es m a l : arr es m a l -> mapped m a (len l * es).
Proof. intros [Hb Hf]. rewrite <- (length_concat es) by done. by apply bytes_mapped. Qed.

Lemma arr_within es m m' a l b n : within b n m m' -> arr es m a l -> a + len l * es <= b \/ b + n <= a -> arr es m' a l.
Proof. intros Hw [Hb Hf] Hd. split; [|done]. eapply bytes_within; [done..|]. by rewrite (length_concat es). Qed.

Lemma bytes_exchanged m m' a (A X B Y C : list Z) : length X = length Y -> exchanged (a + len A) (a + len A + len X + len B) (len X) m m' ->
  bytes m a (A ++ X ++ B ++ Y ++ C) -> bytes m' a (A ++ Y ++ B ++ X ++ C).
Proof.
  intros El He Hb. apply bytes_app in Hb as [HA Hb]. apply bytes_app in Hb as [HX Hb]. apply bytes_app in Hb as [HB Hb]. apply bytes_app in Hb as [HY HC].
  rewrite !bytes_app; split_and!; intros i b Hi; pose proof (lookup_lt_Some _ _ _ Hi); rewrite He; repeat case_decide; try lia.
  - by apply HA.
  - specialize (HY i b Hi). by replace (a + len A + Z.of_nat i - (a + len A) + (a + len A + len X + len B)) with (a + len A + len X + len B + Z.of_nat i) by lia.
  - specialize (HB i b Hi). by replace (a + len A + len Y + Z.of_nat i) with (a + len A + len X + Z.of_nat i) by lia.
  - specialize (HX i b Hi). by replace (a + len A + len Y + len B + Z.of_nat i - (a + len A + len X + len B) + (a + len A)) with (a + len A + Z.of_nat i) by lia.
  - specialize (HC i b Hi). by replace (a + len A + len Y + len B + len X + Z.of_nat i) with (a + len A + len X + len B + len Y + Z.of_nat i) by lia.
Qed.

Lemma exchanged_sym p q k m m' : apart p q k -> exchanged p q k m m' -> exchanged q p k m m'.
Proof. intros Ha He x. rewrite He. unfold apart in Ha. repeat case_decide; try done; f_equal; lia. Qed.

Lemma exchanged_same p k m m' : exchanged p p k m m' -> m' = m.
Proof. intros He. apply map_eq. intros x. rewrite He. repeat case_decide; try done; f_equal; lia. Qed.

Section arrays.
Context (es : Z) (Hes : 0 < es).
Implicit Types (m : cmem) (l A X B Y C : list (list Z)).

Lemma len_pos {T} (l : list T) : 0 <= len l * es.
Proof. apply Z.mul_nonneg_nonneg; lia. Qed.

Lemma arr_exchanged m m' a A X B Y C : length X = length Y -> exchanged (a + len A * es) (a + (len A + len X + len B) * es) (len X * es) m m' ->
  arr es m a (A ++ X ++ B ++ Y ++ C) -> arr es m' a (A ++ Y ++ B ++ X ++ C).
Proof.
  intros El He [Hb Hf]. rewrite !Forall_app in Hf. destruct Hf as (FA & FX & FB & FY & FC). rewrite !concat_app in Hb. split; [|rewrite !Forall_app; done]. rewrite !concat_app.
  eapply bytes_exchanged; [| |exact Hb].
  - apply (inj Z.of_nat). rewrite !(length_concat es) by done. lia.
  - rewrite !(length_concat es) by done. by replace (a + len A * es + len X * es + len B * es) with (a + (len A + len X + len B) * es) by lia.
Qed.

Lemma exchanged_within m m' p q k a n : exchanged p q k m m' -> a <= p -> p + k <= a + n -> a <= q -> q + k <= a + n -> within a n m m'.
Proof. intros He H1 H2 H3 H4 x Hx. rewrite He, !decide_False by lia. done. Qed.

Lemma len_app3 A X B Y C : len (A ++ X ++ B ++ Y ++ C) * es = len A * es + len X * es + len B * es + len Y * es + len C * es.
Proof. rewrite !length_app. lia. Qed.

(** Exchanging two elements of an array. *)
Lemma swap_arr m a A x B y C p q : es < 2 ^ 31 -> arr es m a (A ++ x :: B ++ y :: C) -> (p = a + len A * es /\ q = a + (len A + 1 + len B) * es \/ q = a + len A * es /\ p = a + (len A + 1 + len B) * es) ->
  wp (swap es (SWAPINIT a es) p q) (fun _ m' => arr es m' a (A ++ y :: B ++ x :: C) /\ within a (len (A ++ x :: B ++ y :: C) * es) m m') m.
Proof.
  intros Hb Ha Hpq. pose proof (arr_elem _ _ _ _ _ _ Ha) as [Hx Ex]. assert (arr es m a ((A ++ x :: B) ++ y :: C)) as Ha' by (by rewrite <- app_assoc). pose proof (arr_elem _ _ _ _ _ _ Ha') as [Hy Ey].
  apply bytes_mapped in Hx, Hy. rewrite Ex in Hx. rewrite Ey in Hy. rewrite length_app in Hy. cbn [length] in Hy. replace (a + Z.of_nat (length A + S (length B)) * es) with (a + (len A + 1 + len B) * es) in Hy by lia.
  assert (apart p q es) as Hap by (pose proof (len_pos B); unfold apart; lia).
  eapply wp_mono; [apply (swap_wp a es m p q ltac:(lia))|]; [by destruct Hpq as [[-> ->]|[-> ->]]|by destruct Hpq as [[-> ->]|[-> ->]]|done|destruct Hpq as [[-> ->]|[-> ->]]; by eexists|destruct Hpq as [[-> ->]|[-> ->]]; by eexists|].
  intros ? m' He. assert (exchanged (a + len A * es) (a + (len A + 1 + len B) * es) es m m') as He' by (destruct Hpq as [[-> ->]|[-> ->]]; [done|by apply exchanged_sym]). split.
  - apply (arr_exchanged m m' a A [x] B [y] C); [done| |done]. cbn [length]. by rewrite Z.mul_1_l.
  - pose proof (len_app3 A [x] B [y] C) as El. cbn [app length] in El. pose proof (len_pos A). pose proof (len_pos B). pose proof (len_pos C). eapply exchanged_within; [exact He'|lia..].
Qed.

Lemma swap_arr_same m a A x C p : es < 2 ^ 31 -> arr es m a (A ++ x :: C) -> p = a + len A * es -> wp (swap es (SWAPINIT a es) p p) (fun _ m' => m' = m) m.
Proof.
  intros Hb Ha ->. pose proof (arr_elem _ _ _ _ _ _ Ha) as [Hx Ex]. apply bytes_mapped in Hx. rewrite Ex in Hx. eapply wp_mono; [apply (swap_wp a es m _ _ ltac:(lia) Hx Hx); [by left|by eexists..]|]. intros ? m'. apply exchanged_same.
Qed.

(** Exchanging two blocks of the same length. *)
Lemma vecswap_arr m a A X B Y C p q k : arr es m a (A ++ X ++ B ++ Y ++ C) -> length X = length Y -> p = a + len A * es -> q = a + (len A + len X + len B) * es -> k = len X * es -> k < 2 ^ 31 ->
  wp (vecswap (SWAPINIT a es) p q k) (fun _ m' => arr es m' a (A ++ Y ++ B ++ X ++ C) /\ within a (len (A ++ X ++ B ++ Y ++ C) * es) m m') m.
Proof.
  intros Ha El -> -> -> Hk. pose proof (len_pos X). unfold vecswap. wp_step; intros Hc.
  - apply Z.ltb_lt in Hc. pose proof (len_pos A). pose proof (len_pos B). pose proof (len_pos C). pose proof (arr_mapped _ _ _ _ Ha) as Hm. pose proof (len_app3 A X B Y C) as Et. rewrite <- El in Et.
    eapply wp_mono; [apply (swapfunc_wp a es m _ _ (len X) Hes)|]; [nia|lia|eapply mapped_le; [exact Hm|lia..]|eapply mapped_le; [exact Hm|lia..]|unfold apart; lia|by eexists..|].
    intros ? m' He. split; [exact (arr_exchanged m m' a A X B Y C El He Ha)|]. eapply exchanged_within; [exact He|lia..].
  - apply Z.ltb_ge in Hc. assert (X = []) as -> by (destruct X; [done|cbn [length] in *; nia]). destruct Y; [|done]. split; [done|apply within_refl].
Qed.
End arrays.

(** ** Sorting *)

Section sorting.
Context (es : Z) (cmp : Z -> Z -> M cmem Z) (order : list Z -> list Z -> Z) `{Hcmp : !Comparator es cmp order} (Hes : 0 < es < 2 ^ 31).
Implicit Types (m : cmem) (l S R E L G : list (list Z)) (x y p : list Z).

Definition ordered x y : Prop := order x y <= 0.

Lemma ordered_gt x y : 0 < order x y -> ordered y x.
Proof. intros H. apply (proj2 (order_flip y x)) in H. unfold ordered. lia. Qed.
Lemma ordered_refl x : ordered x x.
Proof. unfold ordered. pose proof (order_flip x x). lia. Qed.
Lemma order_eq_flip x y : order x y = 0 -> order y x = 0.
Proof. intros H. pose proof (order_flip x y). pose proof (order_flip y x). lia. Qed.

(** [m'] has the array at [a] sorted. *)
Definition sorts m a l m' : Prop := exists l', arr es m' a l' /\ l' ≡ₚ l /\ StronglySorted ordered l' /\ within a (len l * es) m m'.

Lemma cmp_at_wp m a A x B C y D pp q Q : arr es m a (A ++ x :: B) -> arr es m a (C ++ y :: D) -> pp = a + len A * es -> q = a + len C * es -> Q (order x y) m -> wp (cmp pp q) Q m.
Proof.
  intros H1 H2 -> -> HQ. apply arr_elem in H1 as [Hx Ex], H2 as [Hy Ey]. eapply wp_mono; [by apply cmp_reads|]. by intros r m' [-> ->].
Qed.

Lemma insert_down_wp a R f : forall S1 x S2 m, arr es m a (S1 ++ x :: S2 ++ R) -> (length S1 < f)%nat -> StronglySorted ordered (S1 ++ S2) -> Forall (ordered x) S2 ->
  wp (insert_down cmp f es (SWAPINIT a es) a (a + len S1 * es))
    (fun _ m' => exists S', arr es m' a (S' ++ R) /\ S' ≡ₚ S1 ++ x :: S2 /\ StronglySorted ordered S' /\ within a (len (S1 ++ x :: S2 ++ R) * es) m m') m.
Proof.
  induction f as [|f IH]; intros S1 x S2 m Ha Hf Hs Hx; [lia|]. cbn [insert_down]. destruct S1 as [|y T] using rev_ind; [|clear IHT].
  - cbn [length]. rewrite (proj2 (Z.ltb_ge a _)) by lia. wp_step. exists (x :: S2). split; [done|]. split; [done|]. split; [by constructor|apply within_refl].
  - rewrite length_app in Hf |- *. cbn [length] in *. replace (a + Z.of_nat (length T + 1) * es) with (a + (len T + 1) * es) by lia. pose proof (len_pos es ltac:(lia) T). rewrite (proj2 (Z.ltb_lt a _)) by lia. rewrite <- app_assoc in Ha. cbn [app] in Ha.
    wp_step. eapply (cmp_at_wp m a T y (x :: S2 ++ R) (T ++ [y]) x (S2 ++ R)); [done|by rewrite <- app_assoc|lia|rewrite length_app; cbn [length]; lia|]. rewrite <- app_assoc in Hs. cbn [app] in Hs. destruct (Z.ltb_spec 0 (order y x)) as [Hgt|Hle].
    + wp_step. eapply wp_mono; [apply (swap_arr es ltac:(lia) m a T y [] x (S2 ++ R)); [lia|done|right; cbn [length]; split; lia]|]. intros ? m1 [Ha1 Hw1]. replace (a + (len T + 1) * es - es) with (a + len T * es) by lia.
      eapply wp_mono; [apply (IH T x (y :: S2) m1); [done|lia|done|constructor; [by apply ordered_gt|done]]|]. intros ? m2 (S' & Ha2 & Hp & Hss & Hw2). exists S'. split; [done|]. split; [rewrite Hp, <- app_assoc; cbn [app]; by rewrite (Permutation_swap y x)|]. split; [done|].
      rewrite <- app_assoc. cbn [app] in *. eapply within_trans; [exact Hw1|]. rewrite !length_app in *. cbn [length] in *. done.
    + wp_step. exists (T ++ y :: x :: S2). rewrite <- !app_assoc. cbn [app]. split; [done|]. split; [done|]. split; [|apply within_refl].
      apply StronglySorted_app in Hs as (H1 & H2 & H3). apply StronglySorted_cons in H3 as [H3 H4]. apply StronglySorted_app. split; [|split; [done|]].
      * intros t u Ht Hu. rewrite !elem_of_cons in Hu. destruct Hu as [->|[->|Hu]]; [apply H1; [done|set_solver]| |apply H1; [done|set_solver]]. apply (order_trans t y x); [apply H1; [done|set_solver]|lia].
      * constructor; [by constructor|]. constructor; [unfold ordered; lia|done].
Qed.

Lemma insertion_wp a f' R f : forall S m, arr es m a (S ++ R) -> (length R < f)%nat -> (length (S ++ R) < f')%nat -> StronglySorted ordered S ->
  wp (insertion cmp f f' es (SWAPINIT a es) a (a + len S * es) (a + len (S ++ R) * es)) (fun _ m' => sorts m a (S ++ R) m') m.
Proof.
  revert f. induction R as [|x R IH]; intros f S m Ha Hf Hf' Hs; (destruct f as [|f]; [lia|]); cbn [insertion].
  - rewrite app_nil_r in *. rewrite (proj2 (Z.ltb_ge _ _)) by lia. wp_step. exists S. split; [done|]. split; [done|]. split; [done|apply within_refl].
  - assert (a + len S * es < a + len (S ++ x :: R) * es) as Hlt by (rewrite length_app; cbn [length]; pose proof (len_pos es ltac:(lia) R); lia). rewrite (proj2 (Z.ltb_lt _ _) Hlt).
    wp_step. eapply wp_mono; [apply (insert_down_wp a R f' S x [] m); [done|rewrite length_app in Hf'; lia|by rewrite app_nil_r|constructor]|]. cbn [app]. intros ? m1 (S' & Ha1 & Hp & Hss & Hw).
    pose proof (Permutation_length Hp) as El. rewrite length_app in El. cbn [length] in El. replace (a + len S * es + es) with (a + len S' * es) by lia. replace (len (S ++ x :: R)) with (len (S' ++ R)) by (rewrite !length_app; cbn [length]; lia).
    eapply wp_mono; [apply (IH f S' m1); [done|cbn [length] in Hf; lia|rewrite length_app in *; cbn [length] in Hf'; lia|done]|]. intros ? m2 (l' & Ha2 & Hp2 & Hs2 & Hw2). exists l'. split; [done|]. split; [rewrite Hp2, Hp, <- app_assoc; done|]. split; [done|].
    eapply within_trans; [exact Hw|]. replace (len (S ++ x :: R)) with (len (S' ++ R)) by (rewrite !length_app; cbn [length]; lia). done.
Qed.

(** The insertion sort as [qsort] calls it. *)
Lemma insertion_all_wp a l m f : arr es m a l -> f = Datatypes.S (length l) -> wp (insertion cmp f f es (SWAPINIT a es) a (a + es) (a + len l * es)) (fun _ m' => sorts m a l m') m.
Proof.
  intros Ha ->. destruct l as [|x l].
  - cbn [insertion length]. rewrite (proj2 (Z.ltb_ge _ _)) by lia. wp_step. exists []. split; [done|]. split; [done|]. split; [constructor|apply within_refl].
  - pose proof (insertion_wp a (Datatypes.S (length (x :: l))) l (Datatypes.S (length (x :: l))) [x] m Ha) as Hi. cbn [app length] in *. rewrite Z.mul_1_l in Hi. apply Hi; [lia|lia|]. constructor; [constructor|constructor].
Qed.

(** ** The element that divides *)

Definition at_place a l (q : Z) : Prop := exists A x B, l = A ++ x :: B /\ q = a + len A * es.

Lemma at_index a l i : 0 <= i < len l -> at_place a l (a + i * es).
Proof.
  intros Hi. destruct (lookup_lt_is_Some_2 l (Z.to_nat i) ltac:(lia)) as [x Hx]. exists (take (Z.to_nat i) l), x, (drop (Datatypes.S (Z.to_nat i)) l). split; [symmetry; by apply take_drop_middle|].
  rewrite length_take. f_equal. f_equal. lia.
Qed.

Lemma cmp_place_wp m a l q1 q2 : arr es m a l -> at_place a l q1 -> at_place a l q2 -> wp (cmp q1 q2) (fun _ m' => m' = m) m.
Proof. intros Ha (A & x & B & E1 & ->) (C & y & D & E2 & ->). eapply (cmp_at_wp m a A x B C y D); [by rewrite <- E1|by rewrite <- E2|done..]. Qed.

Lemma med3_wp m a l q1 q2 q3 : arr es m a l -> at_place a l q1 -> at_place a l q2 -> at_place a l q3 -> wp (med3 cmp q1 q2 q3) (fun r m' => m' = m /\ at_place a l r) m.
Proof.
  intros Ha H1 H2 H3. unfold med3. wp_step. eapply wp_mono; [by apply (cmp_place_wp m a l)|]. intros r ? ->.
  destruct (r <? 0); wp_step; (eapply wp_mono; [by apply (cmp_place_wp m a l)|]); intros r' ? ->; [destruct (r' <? 0)|destruct (0 <? r')]; try (by wp_step); wp_step; (eapply wp_mono; [by apply (cmp_place_wp m a l)|]); intros r2 ? ->; wp_step; (split; [done|]); by destruct (r2 <? 0).
Qed.

Lemma pivot_wp m a l : arr es m a l -> 7 <= len l -> len l * es < 2 ^ 31 -> wp (pivot cmp a (len l) es) (fun r m' => m' = m /\ at_place a l r) m.
Proof.
  intros Ha Hn Hb. unfold pivot. set (n := len l) in *. assert (forall k, 0 <= k <= n -> u64 (k * es) = k * es) as Hu by (intros k Hk; apply u64_small; nia).
  pose proof (Z.div_le_upper_bound n 2 n ltac:(lia) ltac:(lia)). pose proof (Z.div_pos n 2 ltac:(lia) ltac:(lia)). pose proof (Z.mul_div_le n 2 ltac:(lia)). rewrite !Hu by lia. pose proof (at_index a l) as Hat. fold n in Hat.
  destruct (Z.ltb_spec 7 n); [|wp_step; split; [done|apply Hat; lia]]. wp_step. apply (wp_mono _ (fun r m' => m' = m /\ let '(pl, pm, pn) := r in at_place a l pl /\ at_place a l pm /\ at_place a l pn)).
  - assert (at_place a l a) as Hz by (specialize (Hat 0 ltac:(lia)); by rewrite Z.mul_0_l, Z.add_0_r in Hat). destruct (Z.ltb_spec 40 n); [|wp_step; split; [done|]; split; [done|]; split; apply Hat; lia].
    pose proof (Z.mul_div_le n 8 ltac:(lia)). pose proof (Z.div_pos n 8 ltac:(lia) ltac:(lia)). pose proof (Z.mod_pos_bound n 2 ltac:(lia)). pose proof (Z.div_mod n 2 ltac:(lia)). rewrite s32_small by nia. set (d := n / 8) in *. set (h := n / 2) in *.
    wp_step. eapply wp_mono; [apply (med3_wp m a l); [done|done|apply Hat; lia|replace (a + 2 * (d * es)) with (a + (2 * d) * es) by lia; apply Hat; lia]|]. intros pl ? [-> Hpl].
    wp_step. eapply wp_mono; [apply (med3_wp m a l); [done|replace (a + h * es - d * es) with (a + (h - d) * es) by lia; apply Hat; lia|apply Hat; lia|replace (a + h * es + d * es) with (a + (h + d) * es) by lia; apply Hat; lia]|]. intros pm ? [-> Hpm].
    wp_step. eapply wp_mono; [apply (med3_wp m a l); [done|replace (a + (n - 1) * es - 2 * (d * es)) with (a + (n - 1 - 2 * d) * es) by lia; apply Hat; lia|replace (a + (n - 1) * es - d * es) with (a + (n - 1 - d) * es) by lia; apply Hat; lia|apply Hat; lia]|]. intros pn ? [-> Hpn].
    wp_step. done.
  - intros [[pl pm] pn] ? (-> & Hpl & Hpm & Hpn). by apply (med3_wp m a l).
Qed.

(** ** The partition *)

(** The array as the loops keep it: elements equal to [p], less, not looked at yet, greater, and equal again. *)
Definition parted m0 l0 a p m E L M G F : Prop :=
  arr es m a (E ++ L ++ M ++ G ++ F) /\ (exists E', E = p :: E') /\
  (Forall (fun x => order x p = 0) E /\ Forall (fun x => order x p < 0) L /\ Forall (fun x => 0 < order x p) G /\ Forall (fun x => order x p = 0) F) /\
  E ++ L ++ M ++ G ++ F ≡ₚ l0 /\ within a (len l0 * es) m0 m.

Section parts.
Context (m0 : cmem) (l0 : list (list Z)) (a : Z) (p : list Z).
Notation parted := (parted m0 l0 a p).

Lemma parted_cmp m E L M G F A x B pp : parted m E L M G F -> E ++ L ++ M ++ G ++ F = A ++ x :: B -> pp = a + len A * es -> forall Q, Q (order x p) m -> wp (cmp pp a) Q m.
Proof.
  intros (Ha & [E' ->] & _) El -> Q HQ. rewrite El in Ha. eapply (cmp_at_wp m a A x B [] p (E' ++ L ++ M ++ G ++ F)); [done|cbn [app] in *; by rewrite El|done|cbn [length]; lia|done].
Qed.

Lemma parted_within m E L M G F m' l : parted m E L M G F -> within a (len l * es) m m' -> length l = length (E ++ L ++ M ++ G ++ F) -> within a (len l0 * es) m0 m'.
Proof. intros (_ & _ & _ & Hp & Hw) Hw' El. apply Permutation_length in Hp. rewrite El, Hp in Hw'. by eapply within_trans. Qed.

Lemma scan_up_wp G F f : forall E L M m cnt pc, parted m E L M G F -> (length M < f)%nat -> pc = a + (len E + len L + len M - 1) * es ->
  wp (scan_up cmp f es (SWAPINIT a es) a (a + len E * es) (a + (len E + len L) * es) pc cnt)
    (fun r m' => exists E' L' M' cnt', r = (a + len E' * es, a + (len E' + len L') * es, cnt') /\ parted m' E' L' M' G F /\ (length M' <= length M)%nat /\ pc = a + (len E' + len L' + len M' - 1) * es /\
      match M' with [] => True | x :: _ => 0 < order x p end) m.
Proof.
  induction f as [|f IH]; intros E L M m cnt pc Hp Hf Epc; [lia|]. cbn [scan_up]. pose proof Hp as (Ha & HE & (FE & FL & FG & FF) & Hperm & Hw). destruct M as [|x M].
  { cbn [length] in *. rewrite (proj2 (Z.leb_gt _ _)) by lia. wp_step. exists E, L, [], cnt. do 3 (split; [done|]). split; [cbn [length]; lia|done]. }
  assert (a + (len E + len L) * es <= pc) as Hle by (rewrite Epc; cbn [length]; pose proof (len_pos es ltac:(lia) M); lia). rewrite (proj2 (Z.leb_le _ _) Hle).
  wp_step. eapply (parted_cmp m E L (x :: M) G F (E ++ L) x (M ++ G ++ F)); [done|by rewrite <- !app_assoc|rewrite length_app; lia|]. destruct (Z.leb_spec (order x p) 0) as [Hx|Hx].
  2:{ wp_step. exists E, L, (x :: M), cnt. do 4 (split; [done|]). done. }
  assert (forall E1 L1 m1 c pa pb, parted m1 E1 L1 M G F -> len E1 + len L1 = len E + len L + 1 -> pa = a + len E1 * es -> pb = a + (len E1 + len L1) * es ->
    wp (scan_up cmp f es (SWAPINIT a es) a pa pb pc c)
      (fun r m' => exists E' L' M' cnt', r = (a + len E' * es, a + (len E' + len L') * es, cnt') /\ parted m' E' L' M' G F /\ (length M' <= length (x :: M))%nat /\ pc = a + (len E' + len L' + len M' - 1) * es /\
        match M' with [] => True | x :: _ => 0 < order x p end) m1) as Hgo.
  { intros E1 L1 m1 c pa pb Hn El -> ->. cbn [length] in *. eapply wp_mono; [apply (IH E1 L1 M m1 c pc Hn); [lia|rewrite El; lia]|]. intros r m' (E' & L' & M' & c' & H1 & H2 & H3 & H4). exists E', L', M', c'. split; [done|]. split; [done|]. split; [lia|done]. }
  assert (order x p = 0 -> Forall (fun x => order x p = 0) (E ++ [x])) as HEx by (rewrite Forall_app, Forall_singleton; tauto).
  assert (exists E', E ++ [x] = p :: E') as HE' by (destruct HE as [E' ->]; by exists (E' ++ [x])).
  destruct (Z.eqb_spec (order x p) 0) as [E0|N0]; [wp_step; destruct L as [|y L]|].
  - cbn [length] in *. rewrite Z.add_0_r in *. eapply wp_mono; [eapply (swap_arr_same es ltac:(lia) m a E x (M ++ G ++ F)); [lia|done|done]|]. intros ? ? ->.
    apply (Hgo (E ++ [x]) []); [|rewrite length_app; cbn [length]; lia..]. split; [by rewrite <- app_assoc|]. split; [done|]. split; [tauto|]. split; [by rewrite <- app_assoc|done].
  - eapply wp_mono; [apply (swap_arr es ltac:(lia) m a E y L x (M ++ G ++ F)); [lia|exact Ha|left; cbn [length]; split; [done|lia]]|]. intros ? m1 [Ha1 Hw1].
    apply (Hgo (E ++ [x]) (L ++ [y])); [|rewrite !length_app; cbn [length]; lia..]. apply Forall_cons_1 in FL as [Fy FL]. split; [by rewrite <- !app_assoc|]. split; [done|]. split; [split; [tauto|]; split; [by rewrite Forall_app, Forall_singleton|done]|]. split.
    + rewrite <- Hperm, <- !app_assoc. cbn [app]. apply Permutation_app_head. rewrite <- !Permutation_middle. apply Permutation_swap.
    + eapply parted_within; [exact Hp|exact Hw1|done].
  - apply (Hgo E (L ++ [x])); [|rewrite ?length_app; cbn [length]; lia..]. split; [by rewrite <- app_assoc|]. split; [done|]. split; [split; [done|]; split; [rewrite Forall_app, Forall_singleton; split; [done|lia]|done]|]. split; [by rewrite <- app_assoc|done].
Qed.

Lemma scan_down_wp E L f : forall M G F m cnt pc, parted m E L M G F -> (length M < f)%nat -> pc = a + (len E + len L + len M - 1) * es ->
  wp (scan_down cmp f es (SWAPINIT a es) a (a + (len E + len L) * es) pc (pc + len G * es) cnt)
    (fun r m' => exists M' G' F' cnt' pc', r = (pc', pc' + len G' * es, cnt') /\ parted m' E L M' G' F' /\ (forall x M1, M = x :: M1 -> M' = [] \/ exists M2, M' = x :: M2) /\ (length M' <= length M)%nat /\ pc' = a + (len E + len L + len M' - 1) * es /\
      (M' = [] \/ exists M2 y, M' = M2 ++ [y] /\ order y p < 0)) m.
Proof.
  induction f as [|f IH]; intros M G F m cnt pc Hp Hf Epc; [lia|]. cbn [scan_down]. pose proof Hp as (Ha & HE & (FE & FL & FG & FF) & Hperm & Hw). destruct M as [|x M] using rev_ind; [|clear IHM].
  { cbn [length] in *. rewrite (proj2 (Z.leb_gt _ _)) by lia. wp_step. exists [], G, F, cnt, pc. do 4 (split; [done|]). split; [cbn [length]; lia|by left]. }
  rewrite length_app in *. cbn [length] in *. assert (a + (len E + len L) * es <= pc) as Hle by (rewrite Epc; pose proof (len_pos es ltac:(lia) M); lia). rewrite (proj2 (Z.leb_le _ _) Hle).
  rewrite <- app_assoc in Ha, Hperm. cbn [app] in Ha, Hperm.
  wp_step. eapply (parted_cmp m E L (M ++ [x]) G F (E ++ L ++ M) x (G ++ F)); [done|by rewrite <- !app_assoc|rewrite !length_app; lia|]. destruct (Z.leb_spec 0 (order x p)) as [Hx|Hx].
  2:{ wp_step. exists (M ++ [x]), G, F, cnt, pc. split; [done|]. split; [done|]. split; [intros y M1 ->; right; by eexists|]. rewrite length_app. split; [done|]. split; [done|]. right. by exists M, x. }
  assert (forall G1 F1 m1 c pc1 pd1, parted m1 E L M G1 F1 -> pc1 = a + (len E + len L + len M - 1) * es -> pd1 = pc1 + len G1 * es ->
    wp (scan_down cmp f es (SWAPINIT a es) a (a + (len E + len L) * es) pc1 pd1 c)
      (fun r m' => exists M' G' F' cnt' pc', r = (pc', pc' + len G' * es, cnt') /\ parted m' E L M' G' F' /\ (forall y M1, M ++ [x] = y :: M1 -> M' = [] \/ exists M2, M' = y :: M2) /\ (length M' <= length M + 1)%nat /\ pc' = a + (len E + len L + len M' - 1) * es /\
        (M' = [] \/ exists M2 y, M' = M2 ++ [y] /\ order y p < 0)) m1) as Hgo.
  { intros G1 F1 m1 c pc1 pd1 Hn E1 ->. eapply wp_mono; [apply (IH M G1 F1 m1 c pc1 Hn); [lia|done]|]. intros r m' (M' & G' & F' & c' & pc' & H1 & H2 & H3 & H4 & H5). exists M', G', F', c', pc'. split; [done|]. split; [done|]. split; [|split; [lia|done]].
    intros y M1 Ey. destruct M as [|z M]; [left; destruct M'; [done|cbn [length] in *; lia]|]. cbn in Ey. injection Ey as -> _. by eapply H3. }
  assert (pc - es = a + (len E + len L + len M - 1) * es) as Epc' by lia.
  destruct (Z.eqb_spec (order x p) 0) as [E0|N0]; [wp_step; destruct G as [|y G] using rev_ind; [|clear IHG]|].
  - cbn [length]. rewrite Z.mul_0_l, Z.add_0_r. eapply wp_mono; [eapply (swap_arr_same es ltac:(lia) m a (E ++ L ++ M) x F); [lia|by rewrite <- !app_assoc|rewrite !length_app; lia]|]. intros ? ? ->.
    apply (Hgo [] (x :: F)); [|done|cbn [length]; lia]. split; [done|]. split; [done|]. split; [split; [done|]; split; [done|]; split; [done|by constructor]|]. done.
  - rewrite Forall_app, Forall_singleton in FG. destruct FG as [FG Fy]. rewrite <- (app_assoc G) in Ha, Hperm. cbn [app] in Ha, Hperm. rewrite length_app. cbn [length].
    eapply wp_mono; [apply (swap_arr es ltac:(lia) m a (E ++ L ++ M) x G y F); [lia|by rewrite <- !app_assoc|left; rewrite !length_app; split; lia]|]. intros ? m1 [Ha1 Hw1]. rewrite <- !app_assoc in Ha1.
    apply (Hgo (y :: G) (x :: F)); [|done|cbn [length]; lia]. split; [done|]. split; [done|]. split; [split; [done|]; split; [done|]; split; by constructor|]. split.
    + rewrite <- Hperm. do 3 apply Permutation_app_head. cbn [app]. rewrite <- !Permutation_middle. apply Permutation_swap.
    + eapply parted_within; [exact Hp|exact Hw1|]. rewrite !length_app; cbn [length]. rewrite !length_app; cbn [length]. lia.
  - apply (Hgo (x :: G) F); [|done|cbn [length]; lia]. split; [done|]. split; [done|]. split; [split; [done|]; split; [done|]; split; [constructor; [lia|done]|done]|]. done.
Qed.

Lemma partition_wp f' f : forall E L M G F m cnt pc, parted m E L M G F -> (length M < f)%nat -> (length M < f')%nat -> pc = a + (len E + len L + len M - 1) * es ->
  wp (partition cmp f f' es (SWAPINIT a es) a (a + len E * es) (a + (len E + len L) * es) pc (pc + len G * es) cnt)
    (fun r m' => exists E' L' G' F' cnt', r = (a + len E' * es, a + (len E' + len L') * es, a + (len E' + len L' - 1) * es, a + (len E' + len L' + len G' - 1) * es, cnt') /\ parted m' E' L' [] G' F') m.
Proof.
  induction f as [|f IH]; intros E L M G F m cnt pc Hp Hf Hf' Epc; [lia|]. cbn [partition]. wp_step. eapply wp_mono; [by apply scan_up_wp|]. intros r m1 (E1 & L1 & M1 & c1 & -> & Hp1 & Hl1 & Epc1 & Hx1).
  wp_step. eapply wp_mono; [apply (scan_down_wp E1 L1 f' M1 G F m1 c1 pc Hp1); [lia|done]|]. intros r m2 (M2 & G2 & F2 & c2 & pc2 & -> & Hp2 & Hx2 & Hl2 & Epc2 & Hy2). destruct M2 as [|x M2].
  { cbn [length] in Epc2. rewrite (proj2 (Z.ltb_lt _ _)) by lia. wp_step. exists E1, L1, G2, F2, c2. split; [|done]. replace (pc2 + len G2 * es) with (a + (len E1 + len L1 + len G2 - 1) * es) by lia. by replace pc2 with (a + (len E1 + len L1 - 1) * es) by lia. }
  destruct Hy2 as [?|(M3 & y & Ey & Hy)]; [done|]. assert (0 < order x p) as Hx by (destruct M1 as [|x' M1]; [cbn [length] in *; lia|]; destruct (Hx2 x' M1 eq_refl) as [?|[? [= -> _]]]; done).
  destruct M3 as [|x' M3]; cbn in Ey; injection Ey as <- ->; [lia|]. cbn [length] in Epc2. rewrite length_app in Epc2. cbn [length] in Epc2. pose proof (len_pos es ltac:(lia) M3). rewrite (proj2 (Z.ltb_ge _ _)) by lia.
  pose proof Hp2 as (Ha & HE & (FE & FL & FG & FF) & Hperm & Hw). cbn [app] in Ha, Hperm. rewrite <- app_assoc in Ha, Hperm. cbn [app] in Ha, Hperm.
  wp_step. eapply wp_mono; [apply (swap_arr es ltac:(lia) m2 a (E1 ++ L1) x M3 y (G2 ++ F2)); [lia|by rewrite <- app_assoc|left; rewrite length_app; split; lia]|]. intros ? m3 [Ha3 Hw3]. rewrite <- app_assoc in Ha3.
  assert (parted m3 E1 (L1 ++ [y]) M3 (x :: G2) F2) as Hn.
  { split; [rewrite <- app_assoc; done|]. split; [done|]. split; [split; [done|]; split; [by rewrite Forall_app, Forall_singleton|split; [by constructor|done]]|]. split.
    - rewrite <- Hperm, <- app_assoc. do 2 apply Permutation_app_head. cbn [app]. rewrite <- !Permutation_middle. apply Permutation_swap.
    - eapply parted_within; [exact Hp2|exact Hw3|]. rewrite <- !app_assoc. cbn [app]. by rewrite <- !app_assoc. }
  specialize (IH E1 (L1 ++ [y]) M3 (x :: G2) F2 m3 1 (pc2 - es) Hn). cbn [length] in *. rewrite length_app in *. cbn [length] in *. rewrite length_app in *. cbn [length] in *.
  replace (a + (len E1 + len L1) * es + es) with (a + (len E1 + Z.of_nat (length L1 + 1)) * es) by lia. replace (pc2 + len G2 * es) with (pc2 - es + Z.of_nat (Datatypes.S (length G2)) * es) by lia. apply IH; lia.
Qed.
End parts.

(** Moving the equal elements [X] behind [Y]. *)
Lemma gather_wp m a H X Y T pp q r : arr es m a (H ++ X ++ Y ++ T) -> len (H ++ X ++ Y ++ T) * es < 2 ^ 31 -> pp = a + len H * es -> r = Z.min (len X) (len Y) * es -> q = a + (len H + len X + len Y) * es - r ->
  wp (vecswap (SWAPINIT a es) pp q r) (fun _ m' => exists X' Y', X' ≡ₚ X /\ Y' ≡ₚ Y /\ arr es m' a (H ++ Y' ++ X' ++ T) /\ within a (len (H ++ X ++ Y ++ T) * es) m m') m.
Proof.
  intros Ha Hb -> -> ->. rewrite !length_app in Hb. pose proof (len_pos es ltac:(lia) H). pose proof (len_pos es ltac:(lia) X). pose proof (len_pos es ltac:(lia) Y). pose proof (len_pos es ltac:(lia) T). destruct (decide (len X < len Y)) as [Hlt|Hge].
  - rewrite Z.min_l by lia. rewrite <- (take_drop (length Y - length X) Y) in Ha |- *. set (Y1 := take _ Y) in *. set (Y2 := drop _ Y) in *. assert (length Y1 = length Y - length X)%nat as E1 by (apply length_take_le; lia). assert (length Y2 = length X) as E2 by (subst Y2; rewrite length_drop; lia).
    rewrite <- app_assoc in Ha |- *. eapply wp_mono; [eapply (vecswap_arr es ltac:(lia) m a H X Y1 Y2 T); [done|done|done| |done|lia]|]. { rewrite length_app. lia. }
    intros ? m' [Ha' Hw]. exists X, (Y2 ++ Y1). split; [done|]. split; [apply Permutation_app_comm|]. split; [by rewrite <- app_assoc|done].
  - rewrite Z.min_r by lia. rewrite <- (take_drop (length Y) X) in Ha |- *. set (X1 := take _ X) in *. set (X2 := drop _ X) in *. assert (length X1 = length Y)%nat as E1 by (apply length_take_le; lia). assert (length X2 = length X - length Y)%nat as E2 by (subst X2; rewrite length_drop; lia).
    rewrite <- app_assoc in Ha |- *. eapply wp_mono; [eapply (vecswap_arr es ltac:(lia) m a H X1 X2 Y T); [done|done|done| |by rewrite E1|lia]|]. { rewrite length_app. lia. }
    intros ? m' [Ha' Hw]. exists (X2 ++ X1), Y. split; [apply Permutation_app_comm|]. split; [done|]. split; [by rewrite <- app_assoc|done].
Qed.

(** Three sorted parts, each below the next. *)
Lemma sorted_parts p L E G : StronglySorted ordered L -> StronglySorted ordered G -> Forall (fun x => order x p < 0) L -> Forall (fun x => order x p = 0) E -> Forall (fun x => 0 < order x p) G -> StronglySorted ordered (L ++ E ++ G).
Proof.
  intros HL HG FL FE FG. rewrite Forall_forall in FL, FE, FG. assert (forall x y, order x p <= 0 -> ordered p y -> ordered x y) as Ht by (intros x y Hx Hy; eapply order_trans; [exact Hx|exact Hy]).
  assert (forall x, x ∈ G -> ordered p x) as Hg by (intros x Hx; apply ordered_gt; by apply FG). assert (forall x, x ∈ E -> ordered p x) as He by (intros x Hx; unfold ordered; rewrite order_eq_flip; [lia|by apply FE]).
  assert (StronglySorted ordered E) as HE.
  { clear FL FG HL HG Hg. induction E as [|x E IH]; [constructor|]. constructor; [apply IH; set_solver|]. rewrite Forall_forall. intros y Hy. apply Ht; [rewrite FE; [lia|set_solver]|apply He; set_solver]. }
  apply StronglySorted_app. split; [|split; [done|apply StronglySorted_app; split; [|done]]].
  - intros x y Hx Hy. apply Ht; [specialize (FL x Hx); lia|]. apply elem_of_app in Hy as [Hy|Hy]; auto.
  - intros x y Hx Hy. apply Ht; [rewrite FE; [lia|done]|auto].
Qed.

(** ** [qsort] *)

Section recursion.
Context (f : nat) (IH : forall a l m, arr es m a l -> (length l < f)%nat -> len l * es < 2 ^ 31 -> wp (qsort_loop cmp f a (len l) es) (fun _ m' => sorts m a l m') m).

(** Sorting a part that has more than one element. *)
Lemma part_wp m a l : arr es m a l -> (length l < f)%nat -> len l * es < 2 ^ 31 -> wp (when (s32 es <? s32 (len l * es)) (qsort_loop cmp f a (u64 (s32 (len l * es)) / es) es)) (fun _ m' => sorts m a l m') m.
Proof.
  intros Ha Hf Hb. pose proof (len_pos es ltac:(lia) l). rewrite !s32_small, u64_small, Z.div_mul by lia. wp_step; intros Hc; [by apply IH|]. apply Z.ltb_ge in Hc. exists l. split; [done|]. split; [done|]. split; [|apply within_refl].
  destruct l as [|x [|y l]]; [constructor|by repeat constructor|]. cbn [length] in *. nia.
Qed.

(** What follows the partition. *)
Lemma finish_wp m0 l a p m E L G F pa pb pc pd pn : parted m0 l a p m E L [] G F -> (length l < Datatypes.S f)%nat -> len l * es < 2 ^ 31 ->
  pa = a + len E * es -> pb = a + (len E + len L) * es -> pc = a + (len E + len L - 1) * es -> pd = a + (len E + len L + len G - 1) * es -> pn = a + len l * es ->
  wp (let r := s32 (if pa - a <? pb - pa then pa - a else pb - pa) in
      vecswap (SWAPINIT a es) a (pb - r) r ;;
      let r := s32 (if pd - pc <? pn - pd - s32 es then pd - pc else pn - pd - s32 es) in
      vecswap (SWAPINIT a es) pb (pn - r) r ;;
      let r := s32 (pb - pa) in
      when (s32 es <? r) (qsort_loop cmp f a (u64 r / es) es) ;;
      let r := s32 (pd - pc) in
      when (s32 es <? r) (qsort_loop cmp f (pn - r) (u64 r / es) es)) (fun _ m' => sorts m0 a l m') m.
Proof.
  intros (Ha & [E' EE] & (FE & FL & FG & FF) & Hperm & Hw) Hf Hb Epa Epb Epc Epd Epn. cbv zeta. cbn [app] in Ha, Hperm. pose proof (Permutation_length Hperm) as Hn. rewrite !length_app in Hn.
  assert (0 < length E)%nat as HE by (rewrite EE; cbn [length]; lia). assert (forall k, 0 <= k <= len l -> s32 (k * es) = k * es) as Hs by (intros k Hk; apply s32_small; nia). assert (s32 es = es) as Hses by (apply s32_small; lia).
  assert (s32 (if pa - a <? pb - pa then pa - a else pb - pa) = Z.min (len E) (len L) * es) as ->. { replace (pa - a) with (len E * es) by lia. replace (pb - pa) with (len L * es) by lia. destruct (Z.ltb_spec (len E * es) (len L * es)); [rewrite Z.min_l by nia|rewrite Z.min_r by nia]; apply Hs; lia. }
  wp_step. eapply wp_mono; [apply (gather_wp m a [] E L (G ++ F)); [done|rewrite !length_app; cbn [length]; nia|cbn [length]; lia|done|cbn [length]; lia]|]. intros ? m1 (E1 & L1 & PE & PL & Ha1 & Hw1). cbn [app] in Ha1, Hw1.
  assert (s32 (if pd - pc <? pn - pd - s32 es then pd - pc else pn - pd - s32 es) = Z.min (len G) (len F) * es) as ->. { rewrite Hses. replace (pd - pc) with (len G * es) by lia. replace (pn - pd - es) with (len F * es) by lia. destruct (Z.ltb_spec (len G * es) (len F * es)); [rewrite Z.min_l by nia|rewrite Z.min_r by nia]; apply Hs; lia. }
  pose proof (Permutation_length PE) as NE. pose proof (Permutation_length PL) as NL.
  wp_step. eapply wp_mono; [apply (gather_wp m1 a (L1 ++ E1) G F []); [by rewrite <- app_assoc, app_nil_r|rewrite !length_app; cbn [length]; nia|rewrite length_app; lia|done|rewrite length_app; lia]|]. intros ? m2 (G2 & F2 & PG & PF & Ha2 & Hw2). rewrite app_nil_r, <- app_assoc in Ha2.
  pose proof (Permutation_length PG) as NG. pose proof (Permutation_length PF) as NF. replace (pb - pa) with (len L1 * es) by lia. replace (pd - pc) with (len G2 * es) by lia.
  assert (within a (len l * es) m0 m2) as Hw02. { eapply within_trans; [exact Hw|]. eapply within_trans; [eapply within_le; [exact Hw1|lia|rewrite !length_app; nia]|eapply within_le; [exact Hw2|lia|rewrite !length_app; cbn [length]; nia]]. }
  apply arr_app in Ha2 as [HL2 Hrest]. rewrite app_assoc in Hrest. apply arr_app in Hrest as [HM2 HG2]. rewrite length_app in HG2.
  pose proof (len_pos es ltac:(lia) L1). pose proof (len_pos es ltac:(lia) G2). pose proof (len_pos es ltac:(lia) (E1 ++ F2)) as HEF. rewrite length_app in HEF.
  wp_step. eapply wp_mono; [apply (part_wp m2 a L1 HL2); [lia|nia]|]. intros ? m3 (L3 & HL3 & PL3 & SL3 & Hw3). apply (arr_within _ _ _ _ _ _ _ Hw3) in HM2; [|lia]. apply (arr_within _ _ _ _ _ _ _ Hw3) in HG2; [|lia].
  assert (pn - s32 (len G2 * es) = a + len L1 * es + Z.of_nat (length E1 + length F2) * es) as -> by (rewrite Hs by lia; lia).
  eapply wp_mono; [apply (part_wp m3 _ G2 HG2); [lia|nia]|]. intros ? m4 (G4 & HG4 & PG4 & SG4 & Hw4). apply (arr_within _ _ _ _ _ _ _ Hw4) in HM2; [|rewrite length_app; lia]. pose proof (Permutation_length PL3) as NL3. apply (arr_within _ _ _ _ _ _ _ Hw4) in HL3; [|lia].
  exists (L3 ++ (E1 ++ F2) ++ G4). split; [|split; [|split]].
  - apply arr_app. split; [done|]. rewrite NL3. apply arr_app. split; [done|]. by rewrite length_app.
  - rewrite PL3, PG4, PL, PE, PF, PG, <- Hperm. rewrite <- !app_assoc. rewrite (Permutation_app_comm F G). rewrite !app_assoc. do 2 apply Permutation_app_tail. apply Permutation_app_comm.
  - apply (sorted_parts p); [done|done|by rewrite PL3, PL|by rewrite Forall_app, PE, PF|by rewrite PG4, PG].
  - eapply within_trans; [exact Hw02|]. eapply within_trans; [eapply within_le; [exact Hw3|lia|nia]|eapply within_le; [exact Hw4|lia|nia]].
Qed.
End recursion.

Lemma sorts_trans m a l m1 l1 m' : l1 ≡ₚ l -> within a (len l * es) m m1 -> sorts m1 a l1 m' -> sorts m a l m'.
Proof. intros Hp Hw (l2 & Ha & Hp2 & Hs & Hw2). exists l2. split; [done|]. split; [by rewrite Hp2|]. split; [done|]. eapply within_trans; [done|]. by rewrite <- (Permutation_length Hp). Qed.

(** The dividing element is brought to the front. *)
Lemma front_wp m a l q : arr es m a l -> at_place a l q -> wp (swap es (SWAPINIT a es) a q) (fun _ m' => exists p l', arr es m' a (p :: l') /\ p :: l' ≡ₚ l /\ within a (len l * es) m m') m.
Proof.
  intros Ha (A & x & B & -> & ->). destruct A as [|y A]; cbn [app length] in *.
  - rewrite Z.mul_0_l, Z.add_0_r. eapply wp_mono; [eapply (swap_arr_same es ltac:(lia) m a [] x B a); [lia|done|cbn [length]; lia]|]. intros ? ? ->. exists x, B. split; [done|]. split; [done|apply within_refl].
  - eapply wp_mono; [apply (swap_arr es ltac:(lia) m a [] y A x B); [lia|done|left; cbn [length]; split; lia]|]. intros ? m' [Ha' Hw]. exists x, (A ++ y :: B). split; [done|]. split; [|done]. rewrite <- !Permutation_middle. apply Permutation_swap.
Qed.

Lemma qsort_loop_wp f : forall a l m, arr es m a l -> (length l < f)%nat -> len l * es < 2 ^ 31 -> wp (qsort_loop cmp f a (len l) es) (fun _ m' => sorts m a l m') m.
Proof.
  induction f as [|f IH]; intros a l m Ha Hf Hb; [lia|]. cbn [qsort_loop]. cbv zeta. rewrite Nat2Z.id. assert (forall k, 0 <= k <= len l -> u64 (k * es) = k * es) as Hu by (intros k Hk; apply u64_small; nia). rewrite Hu by lia.
  destruct (Z.ltb_spec (len l) 7) as [Hs|Hs]; [by apply insertion_all_wp|]. wp_step. eapply wp_mono; [by apply pivot_wp|]. intros q ? [-> Hq]. wp_step. eapply wp_mono; [by apply front_wp|]. intros ? m1 (p & l1 & Ha1 & Hp1 & Hw1).
  pose proof (Permutation_length Hp1) as Hn. cbn [length] in Hn. rewrite Hu by lia. wp_step.
  pose proof (partition_wp m l a p (Datatypes.S (length l)) (Datatypes.S (length l)) [p] [] l1 [] [] m1 0 (a + (len l - 1) * es)) as Hpart. cbn [length] in Hpart. change (Z.of_nat 1) with 1 in Hpart. change (Z.of_nat 0) with 0 in Hpart. rewrite !Z.mul_0_l, !Z.add_0_r, !Z.mul_1_l in Hpart.
  eapply wp_mono; [apply Hpart|]; [|lia..|].
  - split; [cbn [app]; by rewrite app_nil_r|]. split; [by exists []|]. split; [split; [constructor; [|done]; pose proof (ordered_refl p) as Hr; unfold ordered in Hr; pose proof (order_flip p p); lia|done]|]. split; [cbn [app]; by rewrite app_nil_r|done].
  - intros r m2 (E & L & G & F & cnt & -> & Hpt). destruct (cnt =? 0).
    + pose proof Hpt as (Ha2 & _ & _ & Hp2 & Hw2). rewrite <- (Permutation_length Hp2). eapply wp_mono; [apply insertion_all_wp; [exact Ha2|by rewrite (Permutation_length Hp2)]|]. intros ? m3 Hs3. by eapply sorts_trans.
    + eapply (finish_wp f IH m l a p m2 E L G F); try done.
Qed.
End sorting.

(** [qsort] on an array that is not larger than an [int] can say. *)
Lemma qsort_wp es cmp order `{!Comparator es cmp order} m a l : 0 < es -> len l * es < 2 ^ 31 -> arr es m a l ->
  wp (qsort cmp a (len l) es) (fun _ m' => sorts es order m a l m') m.
Proof.
  intros He Hb Ha. unfold qsort. rewrite Nat2Z.id. destruct (decide (l = [])) as [->|Hne].
  - cbn [length qsort_loop]. change (Z.of_nat 0) with 0. change (0 <? 7) with true. cbv iota zeta. cbn [insertion Z.to_nat]. rewrite Z.mul_0_l. change (u64 0) with 0. rewrite (proj2 (Z.ltb_ge _ _)) by lia. wp_step. exists []. split; [done|]. split; [done|]. split; [constructor|apply within_refl].
  - apply (qsort_loop_wp es cmp order); [|done|lia|done]. destruct l; [done|cbn [length] in *]. nia.
Qed.

(** ** [bsearch] *)

Lemma sorted_lookup {A} (Rel : A -> A -> Prop) (l : list A) i j x y : StronglySorted Rel l -> l !! i = Some x -> l !! j = Some y -> (i < j)%nat -> Rel x y.
Proof.
  intros Hs Hx Hy Hij. pose proof (lookup_lt_Some _ _ _ Hx) as Hi. apply take_drop_middle in Hx. rewrite <- Hx in Hs, Hy. apply StronglySorted_app in Hs as (_ & _ & Hs). apply StronglySorted_cons in Hs as [Hf _]. rewrite Forall_forall in Hf. apply Hf.
  apply list_elem_of_lookup. exists (j - i - 1)%nat. rewrite <- Hy. rewrite lookup_app_r by (rewrite length_take; lia). rewrite length_take, Nat.min_l by lia. destruct (j - i)%nat as [|d] eqn:Ed; [lia|]. cbn. by rewrite Nat.sub_0_r.
Qed.

Section searching.
Context (es : Z) (cmp : Z -> Z -> M cmem Z) (order : list Z -> list Z -> Z) `{Hcmp : !Comparator es cmp order} (Hes : 0 < es).
Context (m : cmem) (base key : Z) (l : list (list Z)) (k : list Z).
Context (Ha : arr es m base l) (Hk : bytes m key k) (Ek : len k = es) (Hb : 0 <= base /\ base + len l * es <= 2 ^ 64) (Hs : StronglySorted (ordered order) l).

Lemma bsearch_loop_wp f : forall low high i x, 0 <= low -> high < len l -> high - low + 1 < 2 ^ Z.of_nat f -> low <= i <= high -> l !! Z.to_nat i = Some x -> order k x = 0 ->
  wp (bsearch_loop cmp f key base es low high) (fun r m' => m' = m /\ exists j y, l !! j = Some y /\ order k y = 0 /\ r = base + Z.of_nat j * es) m.
Proof.
  induction f as [|f IH]; intros low high i x Hlo Hhi Hf Hi Hx E0; [cbn in Hf; lia|]. cbn [bsearch_loop]. assert (len l <= 2 ^ 64) as Hn by nia. rewrite Nat2Z.inj_succ, Z.pow_succ_r in Hf by lia.
  pose proof (Z.mul_div_le (high - low) 2 ltac:(lia)). pose proof (Z.mod_pos_bound (high - low) 2 ltac:(lia)). pose proof (Z.div_mod (high - low) 2 ltac:(lia)). rewrite (u64_small (high - low)), (u64_small (low + _)) by lia. set (mid := low + (high - low) / 2) in *.
  pose proof (Z.mul_le_mono_nonneg_r (mid + 1) (len l) es ltac:(lia) ltac:(lia)). pose proof (Z.mul_nonneg_nonneg mid es ltac:(lia) ltac:(lia)). rewrite u64_small by lia. destruct (lookup_lt_is_Some_2 l (Z.to_nat mid) ltac:(lia)) as [y Hy]. pose proof (take_drop_middle _ _ _ Hy) as El. assert (bytes m (base + mid * es) y /\ len y = es) as [Hby Ey].
  { rewrite <- El in Ha. apply arr_elem in Ha. rewrite length_take, Nat.min_l in Ha by lia. by rewrite Z2Nat.id in Ha by lia. }
  wp_step. eapply wp_mono; [by apply (cmp_reads m key (base + mid * es) k y)|]. intros r ? [-> ->]. destruct (Z.ltb_spec (order k y) 0) as [Hlt|Hge]; [|destruct (Z.ltb_spec 0 (order k y)) as [Hgt|Hle]].
  - assert (i < mid) as Him. { destruct (decide (i < mid)) as [|Hno]; [done|]. exfalso. apply (proj1 (order_flip k y)) in Hlt. destruct (decide (i = mid)) as [->|Hne]; [rewrite Hy in Hx; injection Hx as <-; pose proof (order_flip y k); pose proof (order_flip k y); lia|].
      pose proof (sorted_lookup _ _ _ _ _ _ Hs Hy Hx ltac:(lia)) as Hyx. pose proof (order_trans y x k Hyx) as Ht. rewrite (order_eq_flip es cmp order k x E0) in Ht. lia. }
    rewrite (proj2 (Z.eqb_neq mid 0)) by lia. apply (IH low (mid - 1) i x); [lia..|done|done].
  - assert (mid < i) as Him. { destruct (decide (mid < i)) as [|Hno]; [done|]. exfalso. destruct (decide (i = mid)) as [->|Hne]; [rewrite Hy in Hx; injection Hx as <-; lia|].
      pose proof (sorted_lookup _ _ _ _ _ _ Hs Hx Hy ltac:(lia)) as Hxy. assert (order k y <= 0) by (apply (order_trans k x y); [lia|exact Hxy]). lia. }
    rewrite (u64_small (mid + 1)) by lia. rewrite (proj2 (Z.ltb_ge (mid + 1) mid)), (proj2 (Z.ltb_ge high (mid + 1))) by lia. cbn [orb]. apply (IH (mid + 1) high i x); [lia..|done|done].
  - wp_step. split; [done|]. exists (Z.to_nat mid), y. split; [done|]. split; [lia|]. rewrite Z2Nat.id by lia. done.
Qed.

(** An element that is there is found. *)
Lemma bsearch_wp f : len l < 2 ^ Z.of_nat f -> (exists x, x ∈ l /\ order k x = 0) ->
  wp (bsearch cmp f key base (len l) es) (fun r m' => m' = m /\ exists j y, l !! j = Some y /\ order k y = 0 /\ r = base + Z.of_nat j * es) m.
Proof.
  intros Hf (x & Hx & E0). apply list_elem_of_lookup in Hx as [i Hi]. pose proof (lookup_lt_Some _ _ _ Hi). unfold bsearch. rewrite (proj2 (Z.eqb_neq (len l) 0)) by lia. rewrite u64_small by nia.
  apply (bsearch_loop_wp f 0 (len l - 1) (Z.of_nat i) x); [lia..|by rewrite Nat2Z.id|done].
Qed.
End searching.
