(* ===== verification/LibcPrintf.v ===== *)
(** * Formatted output of the C library

    [lib/libc/printf.c] over the memory of [LibcMem]: the engine that reads a format and hands pieces of text to an output function,
    the conversions of numbers, and [vsnprintf].  The output function keeps a state of its own.  The arguments behind the dots are a
    list of 64-bit slots, each read as the type the format names; a [double] is its bits.  The buffer [num_buffer] on the stack is a
    list of 32 bytes, and whatever it held before is an argument. *)

From stdpp Require Import base gmap list numbers strings.
From Stdlib Require Import SpecFloat.
From S2P Require Import Prelude Align LibcMem LibcString LibcStdlib.

Local Notation len l := (Z.of_nat (length l)).

(** A string constant as bytes. *)
Fixpoint chars (s : string) : list Z :=
  match s with
  | EmptyString => []
  | String a s => Z.of_N (Ascii.N_of_ascii a) :: chars s
  end.

Definition LONGFLAG : Z := 0x00000001.
Definition LONGLONGFLAG : Z := 0x00000002.
Definition HALFFLAG : Z := 0x00000004.
Definition HALFHALFFLAG : Z := 0x00000008.
Definition SIZETFLAG : Z := 0x00000010.
Definition INTMAXFLAG : Z := 0x00000020.
Definition PTRDIFFFLAG : Z := 0x00000040.
Definition ALTFLAG : Z := 0x00000080.
Definition CAPSFLAG : Z := 0x00000100.
Definition SHOWSIGNFLAG : Z := 0x00000200.
Definition SIGNEDFLAG : Z := 0x00000400.
Definition LEFTFORMATFLAG : Z := 0x00000800.
Definition LEADZEROFLAG : Z := 0x00001000.
Definition BLANKPOSFLAG : Z := 0x00002000.
Definition has (flags b : Z) : bool := negb (Z.land flags b =? 0).

(** ** Numbers as text *)

Section numbers.
Context {St : Type}.

(** [buf[i] = c] *)
Definition put (buf : list Z) (i c : Z) : M St (list Z) :=
  if (0 <=? i) && (i <? len buf) then ret (<[Z.to_nat i := c mod 256]> buf) else fail BadPointer.

(** The loop over the digits: [buf], [pos] and [n]. *)
Fixpoint ll_digits (f : nat) (buf : list Z) (pos n : Z) : M St (list Z * Z * Z) :=
  match f with
  | O => fail OutOfFuel
  | S f =>
      if 10 <=? n then do buf <- put buf (pos - 1) (n mod 10 + 48); ll_digits f buf (pos - 1) (n / 10)
      else ret (buf, pos, n)
  end.
(** The buffer, the index the text starts at, and [signchar]. *)
Definition longlong_to_string (buf : list Z) (n len flag : Z) : M St (list Z * Z * Z) :=
  let negative := has flag SIGNEDFLAG && (s64 n <? 0) in
  let n := if negative then u64 (- n) else n in
  do buf <- put buf (len - 1) 0;
  do ' (buf, pos, n) <- ll_digits 20 buf (len - 1) n;
  do buf <- put buf (pos - 1) (n + 48);
  ret (buf, pos - 1, if negative then 45 else if has flag SHOWSIGNFLAG then 43 else if has flag BLANKPOSFLAG then 32 else 0).

Definition hextable : list Z := chars "0123456789abcdef".
Definition hextable_caps : list Z := chars "0123456789ABCDEF".
Definition table_of (flag : Z) : list Z := if has flag CAPSFLAG then hextable_caps else hextable.

Fixpoint hex_loop (f : nat) (table buf : list Z) (pos u : Z) : M St (list Z * Z) :=
  match f with
  | O => fail OutOfFuel
  | S f =>
      do c <- deref (table !! Z.to_nat (u mod 16));
      do buf <- put buf (pos - 1) c;
      if negb (u / 16 =? 0) then hex_loop f table buf (pos - 1) (u / 16) else ret (buf, pos - 1)
  end.
Definition longlong_to_hexstring (buf : list Z) (u len flag : Z) : M St (list Z * Z) :=
  do buf <- put buf (len - 1) 0;
  hex_loop 16 (table_of flag) buf (len - 1) u.

(** [OUTSTR] *)
Fixpoint outstr (buf : list Z) (pos : Z) (l : list Z) : M St (list Z * Z) :=
  match l with
  | [] => ret (buf, pos)
  | c :: l => do buf <- put buf pos c; outstr buf (pos + 1) l
  end.

(** The digits of [exponent_to_string], from the right. *)
Fixpoint exponent_digits (f : nat) (buf : list Z) (i exponent : Z) : M St (list Z) :=
  match f with
  | O => fail OutOfFuel
  | S f =>
      do buf <- put buf (i - 1) (exponent mod 10 + 48);
      if negb (exponent / 10 =? 0) then exponent_digits f buf (i - 1) (exponent / 10) else ret buf
  end.
(** At [b] in the buffer: the buffer, and the number of characters. *)
Definition exponent_to_string (buf : list Z) (b exponent : Z) : M St (list Z * Z) :=
  do buf <- put buf b (if exponent <? 0 then 45 else 43);
  let exponent := Z.abs exponent in
  let pos := 1 + (if 1000 <=? exponent then 4 else if 100 <=? exponent then 3 else if 10 <=? exponent then 2 else 1) in
  do buf <- exponent_digits 10 buf (b + pos) exponent;
  ret (buf, pos).

(** *** Doubles *)

Definition dbl_exponent (i : Z) : Z := Z.land (Z.shiftr i 52) 0x7ff.
Definition dbl_fraction (i : Z) : Z := Z.land i (2 ^ 52 - 1).
Definition dbl_neg (i : Z) : bool := Z.testbit i 63.

(** [((d - u) * 1000000) + .5] for a normal [d] that is not negative, cut to an integer. *)
Definition of_uint (u : Z) : spec_float := binary_normalize 53 1024 u 0 false.
Definition to_uint (d : spec_float) : Z :=
  match d with
  | S754_finite false m e => if 0 <=? e then Z.shiftl (Zpos m) e else Z.shiftr (Zpos m) (- e)
  | _ => 0
  end.
Definition dbl_frac (exponent fraction u : Z) : Z :=
  let d := binary_normalize 53 1024 (Z.lor fraction (2 ^ 52)) (exponent - 1023 - 52) false in
  let half := S754_finite false (2 ^ 52) (-53) in
  u32 (to_uint (SFadd 53 1024 (SFmul 53 1024 (SFsub 53 1024 d (of_uint u)) (of_uint 1000000)) half)).

(** [OUTREV]: at the start of the buffer the function returns. *)
Definition outrev (buf : list Z) (pos c : Z) (k : list Z -> Z -> M St (list Z * Z)) : M St (list Z * Z) :=
  if pos =? 0 then ret (buf, pos) else do buf <- put buf (pos - 1) c; k buf (pos - 1).
Fixpoint outrevs (n : nat) (buf : list Z) (pos c : Z) (k : list Z -> Z -> M St (list Z * Z)) : M St (list Z * Z) :=
  match n with
  | O => k buf pos
  | S n => outrev buf pos c (fun buf pos => outrevs n buf pos c k)
  end.

Fixpoint frac_digits (f : nat) (buf : list Z) (i frac : Z) : M St (list Z) :=
  match f with
  | O => fail OutOfFuel
  | S f =>
      if negb (frac =? 0) then do buf <- put buf (i - 1) (frac mod 10 + 48); frac_digits f buf (i - 1) (frac / 10)
      else ret buf
  end.

(** The buffer, and the index the text starts at. *)
Definition double_to_string (buf : list Z) (len d flag : Z) : M St (list Z * Z) :=
  let exponent := dbl_exponent d in
  let fraction := dbl_fraction d in
  let neg := dbl_neg d in
  do ' (buf, pos) <- outstr buf 0 (if neg then [45] else []);
  let finish s := do ' (buf, pos) <- outstr buf pos s; do buf <- put buf pos 0; ret (buf, 0) in
  if exponent =? 0x7ff then
    if fraction =? 0 then finish (chars (if has flag CAPSFLAG then "INF" else "inf"))
    else finish (chars (if has flag CAPSFLAG then "NAN" else "nan"))
  else if exponent =? 0 then
    if fraction =? 0 then finish (chars "0.000000")
    else finish (chars (if has flag CAPSFLAG then "DEN" else "den"))
  else
    let exponent_signed := exponent - 1023 in
    if (exponent_signed <? -52) || (52 <? exponent_signed) then finish (chars "<range>")
    else
      outrev buf len 0 (fun buf pos =>
      outrevs 7 buf pos 48 (fun buf pos =>
      let decimal_spot := pos in
      let rest u buf pos :=
        do buf <- put buf decimal_spot 46;
        do buf <- frac_digits 11 buf (decimal_spot + 6 + 1) (dbl_frac exponent fraction u);
        if neg then outrev buf pos 45 (fun buf pos => ret (buf, pos)) else ret (buf, pos) in
      if 0 <=? exponent_signed then
        let u := Z.shiftr (Z.lor fraction (2 ^ 52)) (52 - exponent_signed) in
        do ' (buf, pos, _) <- longlong_to_string buf u (pos + 1) flag;
        rest u buf pos
      else outrev buf pos 48 (rest 0))).

(** The loop over the hexadecimal digits of the fraction: [n] of them are left. *)
Fixpoint fraction_digits (n : nat) (table buf : list Z) (pos fraction zero_count : Z) (output_dot : bool) : M St (list Z * Z) :=
  match n with
  | O => ret (buf, pos)
  | S n =>
      let digit := Z.land (Z.shiftr fraction (4 * Z.of_nat n)) 0xf in
      if digit =? 0 then fraction_digits n table buf pos fraction (zero_count + 1) output_dot
      else
        do ' (buf, pos) <- outstr buf pos (if output_dot then [] else [46]);
        do ' (buf, pos) <- outstr buf pos (replicate (Z.to_nat zero_count) 48);
        do c <- deref (table !! Z.to_nat digit);
        do buf <- put buf pos c;
        fraction_digits n table buf (pos + 1) fraction 0 true
  end.
Definition double_to_hexstring (buf : list Z) (len d flag : Z) : M St (list Z * Z) :=
  let exponent := dbl_exponent d in
  let fraction := dbl_fraction d in
  do ' (buf, pos) <- outstr buf 0 (if dbl_neg d then [45] else []);
  let finish s := do ' (buf, pos) <- outstr buf pos s; do buf <- put buf pos 0; ret (buf, 0) in
  if exponent =? 0x7ff then
    if fraction =? 0 then finish (chars (if has flag CAPSFLAG then "INF" else "inf"))
    else finish (chars (if has flag CAPSFLAG then "NAN" else "nan"))
  else if exponent =? 0 then
    if fraction =? 0 then finish (chars (if has flag CAPSFLAG then "0X0P+0" else "0x0p+0"))
    else finish (chars (if has flag CAPSFLAG then "DEN" else "den"))
  else
    let exponent_signed := exponent - 1023 in
    do ' (buf, pos) <- outstr buf pos (chars (if has flag CAPSFLAG then "0X1" else "0x1"));
    do ' (buf, pos) <- fraction_digits 13 (table_of flag) buf pos fraction 0 false;
    do buf <- put buf pos (if has flag CAPSFLAG then 80 else 112);
    do ' (buf, n) <- exponent_to_string buf (pos + 1) exponent_signed;
    do buf <- put buf (pos + 1 + n) 0;
    ret (buf, 0).
End numbers.

(** ** The engine *)

(** Text that is handed to the output function: a place in the memory, or bytes on the stack or in a constant. *)
Inductive text :=
| InMemory (p : Z)
| OnStack (bs : list Z).

Section engine.
Context {Out : Type}.
Notation state := (cmem * Out)%type.
Context (out : text -> Z -> M state Z) (num_buffer : list Z).

Definition in_memory {A} (p : M cmem A) : M state A :=
  fun s => match p s.1 with Done a m => Done a (m, s.2) | Fault e => Fault e end.

Definition text_at (t : text) (i : Z) : M state Z :=
  match t with
  | InMemory p => in_memory (ldb (p + i))
  | OnStack bs => deref (bs !! Z.to_nat i)
  end.

(** [strlen] of a text. *)
Fixpoint stack_len (bs : list Z) : M state Z :=
  match bs with
  | [] => fail BadPointer
  | c :: bs => if c =? 0 then ret 0 else do n <- stack_len bs; ret (n + 1)
  end.
Definition text_len (t : text) : M state Z :=
  match t with InMemory p => in_memory (strlen p) | OnStack bs => stack_len bs end.

(** [OUTPUT_STRING] and [OUTPUT_CHAR]: an error ends the function; otherwise it goes on with [err] and [chars_written]. *)
Definition OUTPUT_STRING (str : text) (len chars_written : Z) (k : Z -> Z -> M state Z) : M state Z :=
  do err <- out str len; if err <? 0 then ret err else k err (u64 (chars_written + err)).
Definition OUTPUT_CHAR (c chars_written : Z) (k : Z -> M state Z) : M state Z :=
  OUTPUT_STRING (OnStack [c mod 256]) 1 chars_written (fun _ cw => k cw).
Fixpoint output_chars (n : nat) (c chars_written : Z) (k : Z -> M state Z) : M state Z :=
  match n with
  | O => k chars_written
  | S n => OUTPUT_CHAR c chars_written (fun cw => output_chars n c cw k)
  end.
Definition output_if (b : bool) (c chars_written : Z) (k : Z -> M state Z) : M state Z :=
  if b then OUTPUT_CHAR c chars_written k else k chars_written.

(** The characters up to a percent sign or the end: how many, the one that stops, and the place behind it. *)
Fixpoint plain (f : nat) (fmt string_len : Z) : M cmem (Z * Z * Z) :=
  match f with
  | O => fail OutOfFuel
  | S f => do c <- ldb fmt; if (c =? 0) || (c =? 37) then ret (string_len, c, fmt + 1) else plain f (fmt + 1) (string_len + 1)
  end.

(** From [next_format] to the character of a conversion: that character, the place behind it, [flags] and [format_num]. *)
Fixpoint next_format (f : nat) (fmt flags format_num : Z) : M cmem (Z * Z * Z * Z) :=
  match f with
  | O => fail OutOfFuel
  | S f =>
      do c <- ldb fmt;
      let go flags := next_format f (fmt + 1) flags format_num in
      if (48 <=? c) && (c <=? 57) then
        next_format f (fmt + 1) (if (c =? 48) && (format_num =? 0) then Z.lor flags LEADZEROFLAG else flags) (u32 (u32 (format_num * 10) + (c - 48)))
      else if c =? 46 then go flags
      else if c =? 45 then go (Z.lor flags LEFTFORMATFLAG)
      else if c =? 43 then go (Z.lor flags SHOWSIGNFLAG)
      else if c =? 32 then go (Z.lor flags BLANKPOSFLAG)
      else if c =? 35 then go (Z.lor flags ALTFLAG)
      else if c =? 108 then go (Z.lor (if has flags LONGFLAG then Z.lor flags LONGLONGFLAG else flags) LONGFLAG)
      else if c =? 104 then go (Z.lor (if has flags HALFFLAG then Z.lor flags HALFHALFFLAG else flags) HALFFLAG)
      else if c =? 122 then go (Z.lor flags SIZETFLAG)
      else if c =? 106 then go (Z.lor flags INTMAXFLAG)
      else if c =? 116 then go (Z.lor flags PTRDIFFFLAG)
      else ret (c, fmt + 1, flags, format_num)
  end.

(** The argument of a conversion, read as the type the flags name. *)
Definition s16 (x : Z) : Z := let y := x mod 2 ^ 16 in if y <? 2 ^ 15 then y else y - 2 ^ 16.
Definition signed_arg (flags v : Z) : Z :=
  if has flags LONGLONGFLAG || has flags LONGFLAG then s64 v
  else if has flags HALFHALFFLAG then schar v
  else if has flags HALFFLAG then s16 v
  else if has flags SIZETFLAG || has flags INTMAXFLAG || has flags PTRDIFFFLAG then s64 v
  else s32 v.
Definition unsigned_arg (flags v : Z) : Z :=
  if has flags LONGLONGFLAG || has flags LONGFLAG then u64 v
  else if has flags HALFHALFFLAG then v mod 2 ^ 8
  else if has flags HALFFLAG then v mod 2 ^ 16
  else if has flags SIZETFLAG || has flags INTMAXFLAG || has flags PTRDIFFFLAG then u64 v
  else u32 v.
Definition va_arg (ap : list Z) : M state (Z * list Z) :=
  match ap with [] => fail BadPointer | v :: ap => ret (v, ap) end.

(** A store of [k] bytes. *)
Definition st_sized (k : nat) (a w : Z) : M cmem unit := if a mod Z.of_nat k =? 0 then stn k a w else fail BadPointer.

(** The shared output code at [_output_string]. *)
Definition output_string (s : text) (c flags format_num signchar chars_written : Z) (k : Z -> M state Z) : M state Z :=
  do string_len <- text_len s;
  if has flags LEFTFORMATFLAG then
    OUTPUT_STRING s string_len chars_written (fun err cw => output_chars (Z.to_nat (format_num - u32 err)) 32 cw k)
  else
    let sign := negb (signchar =? 0) in
    let format_num := if sign && (0 <? format_num) then format_num - 1 else format_num in
    let alt := (c =? 120) && has flags ALTFLAG in
    let zero := has flags LEADZEROFLAG in
    output_if (zero && sign) signchar chars_written (fun cw =>
    output_if alt 48 cw (fun cw =>
    output_if alt (if has flags CAPSFLAG then 88 else 120) cw (fun cw =>
    let format_num := if alt && (2 <=? format_num) then format_num - 2 else format_num in
    output_chars (Z.to_nat (format_num - string_len)) (if zero then 48 else 32) cw (fun cw =>
    output_if (negb zero && sign) signchar cw (fun cw =>
    OUTPUT_STRING s string_len cw (fun _ cw => k cw)))))).

Definition NUM_BUFFER : Z := 32.

(** The [switch]. *)
Definition convert (c flags format_num : Z) (ap : list Z) (chars_written : Z) (k : list Z -> Z -> M state Z) : M state Z :=
  let hex flags :=
    do ' (v, ap) <- va_arg ap;
    let n := unsigned_arg flags v in
    do ' (buf, pos) <- longlong_to_hexstring num_buffer n NUM_BUFFER flags;
    output_string (OnStack (drop (Z.to_nat pos) buf)) 120 (if n =? 0 then Z.ldiff flags ALTFLAG else flags) format_num 0 chars_written (k ap) in
  if c =? 37 then OUTPUT_CHAR 37 chars_written (k ap)
  else if c =? 99 then do ' (v, ap) <- va_arg ap; OUTPUT_CHAR v chars_written (k ap)
  else if c =? 115 then
    do ' (v, ap) <- va_arg ap;
    output_string (if u64 v =? 0 then OnStack (chars "<null>" ++ [0]) else InMemory (u64 v)) c (Z.ldiff flags LEADZEROFLAG) format_num 0 chars_written (k ap)
  else if (c =? 105) || (c =? 100) then
    do ' (v, ap) <- va_arg ap;
    let n := u64 (signed_arg flags v) in
    let flags := Z.lor flags SIGNEDFLAG in
    do ' (buf, pos, signchar) <- longlong_to_string num_buffer n NUM_BUFFER flags;
    output_string (OnStack (drop (Z.to_nat pos) buf)) c flags format_num signchar chars_written (k ap)
  else if c =? 117 then
    do ' (v, ap) <- va_arg ap;
    do ' (buf, pos, signchar) <- longlong_to_string num_buffer (unsigned_arg flags v) NUM_BUFFER flags;
    output_string (OnStack (drop (Z.to_nat pos) buf)) c flags format_num signchar chars_written (k ap)
  else if c =? 112 then hex (Z.lor flags (Z.lor SIZETFLAG ALTFLAG))
  else if c =? 88 then hex (Z.lor flags CAPSFLAG)
  else if c =? 120 then hex flags
  else if c =? 110 then
    do ' (v, ap) <- va_arg ap;
    in_memory (st_sized (if has flags LONGLONGFLAG || has flags LONGFLAG then 8
                         else if has flags HALFHALFFLAG then 1
                         else if has flags HALFFLAG then 2
                         else if has flags SIZETFLAG then 8
                         else 4) (u64 v) chars_written) ;;
    k ap chars_written
  else if (c =? 70) || (c =? 102) then
    do ' (v, ap) <- va_arg ap;
    let flags := if c =? 70 then Z.lor flags CAPSFLAG else flags in
    do ' (buf, pos) <- double_to_string num_buffer NUM_BUFFER (u64 v) flags;
    output_string (OnStack (drop (Z.to_nat pos) buf)) c flags format_num 0 chars_written (k ap)
  else if (c =? 65) || (c =? 97) then
    do ' (v, ap) <- va_arg ap;
    let flags := if c =? 65 then Z.lor flags CAPSFLAG else flags in
    do ' (buf, pos) <- double_to_hexstring num_buffer NUM_BUFFER (u64 v) flags;
    output_string (OnStack (drop (Z.to_nat pos) buf)) c flags format_num 0 chars_written (k ap)
  else OUTPUT_CHAR 37 chars_written (fun cw => OUTPUT_CHAR c cw (k ap)).

Fixpoint engine_loop (f g : nat) (fmt : Z) (ap : list Z) (chars_written : Z) : M state Z :=
  match f with
  | O => fail OutOfFuel
  | S f =>
      do ' (string_len, c, fmt') <- in_memory (plain g fmt 0);
      OUTPUT_STRING (InMemory fmt) string_len chars_written (fun _ cw =>
        if c =? 0 then ret (s32 cw)
        else
          do ' (c, fmt, flags, format_num) <- in_memory (next_format g fmt' 0 0);
          if c =? 0 then ret (s32 cw)
          else convert c flags format_num ap cw (fun ap cw => engine_loop f g fmt ap cw))
  end.
Definition _printf_engine (fmt : Z) (ap : list Z) : M state Z :=
  do f <- in_memory fuel; engine_loop f f fmt ap 0.
End engine.

(** ** [vsnprintf] *)

(** [_vsnprintf_output]; the state is [pos]. *)
Fixpoint vsn_copy (outstr size : Z) (n : nat) (t : text) (i : Z) : M (cmem * Z) unit :=
  match n with
  | O => ret tt
  | S n =>
      do pos <- gets snd;
      when (pos <? size) (do c <- text_at t i; in_memory (stb (outstr + pos) c) ;; modify (fun s => (s.1, pos + 1))) ;;
      vsn_copy outstr size n t (i + 1)
  end.
Definition _vsnprintf_output (outstr size : Z) (t : text) (n : Z) : M (cmem * Z) Z :=
  vsn_copy outstr size (Z.to_nat n) t 0 ;; ret (s32 n).

Definition vsnprintf (num_buffer : list Z) (str size fmt : Z) (ap : list Z) : M cmem Z :=
  fun m =>
    match _printf_engine (_vsnprintf_output str size) num_buffer fmt ap (m, 0) with
    | Fault e => Fault e
    | Done wlen (m, pos) =>
        (when (negb (size =? 0)) (if size <=? pos then stb (str + size - 1) 0 else stb (str + wlen) 0) ;; ret wlen) m
    end.
Definition INT_MAX : Z := 2 ^ 31 - 1.
Definition vsprintf (num_buffer : list Z) (str fmt : Z) (ap : list Z) : M cmem Z := vsnprintf num_buffer str INT_MAX fmt ap.
Definition snprintf (num_buffer : list Z) (str size fmt : Z) (ap : list Z) : M cmem Z := vsnprintf num_buffer str size fmt ap.
Definition sprintf (num_buffer : list Z) (str fmt : Z) (ap : list Z) : M cmem Z := vsprintf num_buffer str fmt ap.
