(* ===== verification/LibcPrintfSpec.v ===== *)
(** * What formatted output prints

    A reference definition of the text that a format and its arguments stand for, and the proof that the engine of [LibcPrintf]
    hands exactly that text to its output function, whatever the function does with it. *)

From stdpp Require Import base gmap list numbers strings.
From S2P Require Import Prelude Align LibcMem LibcString LibcStdlib LibcPrintf.

Local Notation len l := (Z.of_nat (length l)).

Notation byte := (fun c => 0 <= c < 256).

(** ** Numbers *)

Fixpoint dec (f : nat) (n : Z) : list Z :=
  match f with
  | O => []
  | S f => if n <? 10 then [n + 48] else dec f (n / 10) ++ [n mod 10 + 48]
  end.
Definition decimal (n : Z) : list Z := dec 20 n.

Fixpoint hex (f : nat) (table : list Z) (n : Z) : list Z :=
  match f with
  | O => []
  | S f => (if n / 16 =? 0 then [] else hex f table (n / 16)) ++ [nth (Z.to_nat (n mod 16)) table 0]
  end.
Definition hexadecimal (flags n : Z) : list Z := hex 16 (table_of flags) n.

Section buffers.
Context {St : Type}.
Implicit Types (s : St) (buf : list Z).

Lemma put_wp buf i c Q s : 0 <= i < len buf -> Q (<[Z.to_nat i := c mod 256]> buf) s -> wp (put buf i c) Q s.
Proof. intros Hi HQ. unfold put. rewrite (proj2 (Z.leb_le 0 i)), (proj2 (Z.ltb_lt _ _)) by lia. by apply wp_ret. Qed.

(** Writing in front of what is there. *)
Lemma drop_put buf i c : 0 < i <= len buf -> drop (Z.to_nat (i - 1)) (<[Z.to_nat (i - 1) := c]> buf) = c :: drop (Z.to_nat i) buf.
Proof.
  intros Hi. rewrite insert_take_drop by lia. rewrite drop_app_length' by (rewrite length_take; lia). by replace (S (Z.to_nat (i - 1))) with (Z.to_nat i) by lia.
Qed.

Lemma put_front_wp buf i c Q s : 0 < i <= len buf -> 0 <= c < 256 -> (forall buf', length buf' = length buf -> drop (Z.to_nat (i - 1)) buf' = c :: drop (Z.to_nat i) buf -> Q buf' s) -> wp (put buf (i - 1) c) Q s.
Proof. intros Hi Hc HQ. apply put_wp; [lia|]. rewrite Z.mod_small by lia. apply HQ; [apply length_insert|by apply drop_put]. Qed.

Lemma ll_digits_wp f : forall buf pos n s, 0 <= n < 10 ^ Z.of_nat f -> (0 < f)%nat -> Z.of_nat f <= pos <= len buf ->
  wp (ll_digits f buf pos n) (fun r s' => s' = s /\ exists buf' pos' n' ds, r = (buf', pos', n') /\ length buf' = length buf /\ dec f n = (n' + 48) :: ds /\ drop (Z.to_nat pos') buf' = ds ++ drop (Z.to_nat pos) buf /\ 0 < pos' <= pos /\ 0 <= n' < 10) s.
Proof.
  induction f as [|f IH]; intros buf pos n s Hn Hf Hp; [lia|]. cbn [ll_digits dec]. rewrite Nat2Z.inj_succ, Z.pow_succ_r in Hn by lia. destruct (Z.leb_spec 10 n) as [Hge|Hlt].
  - rewrite (proj2 (Z.ltb_ge n 10)) by lia. pose proof (Z.mod_pos_bound n 10 ltac:(lia)). wp_step. apply put_front_wp; [lia|lia|]. intros buf1 El Ed.
    assert (n / 10 < 10 ^ Z.of_nat f) by (apply Z.div_lt_upper_bound; lia). assert (1 <= n / 10) by (apply Z.div_le_lower_bound; lia). assert (0 < f)%nat by (destruct f; [cbn in *; lia|lia]).
    eapply wp_mono; [apply (IH buf1 (pos - 1) (n / 10) s); lia|].
    intros r s' (-> & buf' & pos' & n' & ds & -> & E1 & E2 & E3 & Hpos & Hn'). split; [done|]. exists buf', pos', n', (ds ++ [n mod 10 + 48]). split; [done|]. split; [congruence|]. split; [by rewrite E2|]. split; [by rewrite E3, Ed, <- app_assoc|]. lia.
  - rewrite (proj2 (Z.ltb_lt n 10)) by lia. wp_step. split; [done|]. exists buf, pos, n, []. repeat split; try done; lia.
Qed.

Definition sign_char (flag : Z) (negative : bool) : Z := if negative then 45 else if has flag SHOWSIGNFLAG then 43 else if has flag BLANKPOSFLAG then 32 else 0.

(** The text of a number, in front of its zero byte. *)
Lemma longlong_to_string_wp buf n sz flag s : 0 <= n < 2 ^ 64 -> 21 <= sz <= len buf ->
  wp (longlong_to_string buf n sz flag) (fun r s' => s' = s /\ exists buf' pos, let negative := has flag SIGNEDFLAG && (s64 n <? 0) in
    r = (buf', pos, sign_char flag negative) /\ 0 <= pos /\ length buf' = length buf /\ drop (Z.to_nat pos) buf' = decimal (if negative then u64 (- n) else n) ++ 0 :: drop (Z.to_nat sz) buf) s.
Proof.
  intros Hn Hs. unfold longlong_to_string. cbv zeta. set (negative := has flag SIGNEDFLAG && (s64 n <? 0)). set (v := if negative then u64 (- n) else n). assert (0 <= v < 2 ^ 64) as Hv by (subst v; destruct negative; [apply u64_range|done]).
  wp_step. apply put_front_wp; [lia|lia|]. intros buf1 El Ed. wp_step. eapply wp_mono; [apply (ll_digits_wp 20 buf1 (sz - 1) v s); lia|]. intros r s' (-> & buf2 & pos & n' & ds & -> & E1 & E2 & E3 & Hp & Hn').
  wp_step. apply put_front_wp; [lia|lia|]. intros buf3 El3 Ed3. wp_step. split; [done|]. exists buf3, (pos - 1). split; [done|]. split; [lia|]. split; [congruence|]. rewrite Ed3, E3, Ed. unfold decimal. by rewrite E2.
Qed.

Lemma table_lookup flags d : 0 <= d < 16 -> exists c, table_of flags !! Z.to_nat d = Some c /\ nth (Z.to_nat d) (table_of flags) 0 = c /\ 0 < c < 256.
Proof.
  intros Hd. assert (exists i, (i < 16)%nat /\ d = Z.of_nat i) as (i & Hi & ->) by (exists (Z.to_nat d); lia). rewrite Nat2Z.id. unfold table_of.
  destruct (has flags CAPSFLAG); do 16 (destruct i as [|i]; [eexists; split; [reflexivity|]; split; [reflexivity|cbn; lia]|]); lia.
Qed.

Lemma hex_loop_wp flags f : forall buf pos u s, 0 <= u < 16 ^ Z.of_nat f -> (0 < f)%nat -> Z.of_nat f <= pos <= len buf ->
  wp (hex_loop f (table_of flags) buf pos u) (fun r s' => s' = s /\ exists buf' pos', r = (buf', pos') /\ length buf' = length buf /\ drop (Z.to_nat pos') buf' = hex f (table_of flags) u ++ drop (Z.to_nat pos) buf /\ 0 <= pos') s.
Proof.
  induction f as [|f IH]; intros buf pos u s Hu Hf Hp; [lia|]. cbn [hex_loop hex]. rewrite Nat2Z.inj_succ, Z.pow_succ_r in Hu by lia. pose proof (Z.mod_pos_bound u 16 ltac:(lia)). destruct (table_lookup flags (u mod 16) ltac:(lia)) as (c & Hc & -> & Rc).
  wp_step. eapply wp_deref; [done|]. wp_step. apply put_front_wp; [lia|lia|]. intros buf1 El Ed. pose proof (Z.div_pos u 16 ltac:(lia) ltac:(lia)). destruct (Z.eqb_spec (u / 16) 0) as [E|Hne]; cbn [negb].
  - wp_step. split; [done|]. exists buf1, (pos - 1). split; [done|]. split; [done|]. split; [by rewrite Ed|lia].
  - assert (u / 16 < 16 ^ Z.of_nat f) by (apply Z.div_lt_upper_bound; lia). assert (0 < f)%nat by (destruct f; [cbn in *; lia|lia]). eapply wp_mono; [apply (IH buf1 (pos - 1) (u / 16) s); lia|].
    intros r s' (-> & buf' & pos' & -> & E1 & E2 & Hp'). split; [done|]. exists buf', pos'. split; [done|]. split; [congruence|]. split; [by rewrite E2, Ed, <- app_assoc|done].
Qed.

Lemma longlong_to_hexstring_wp buf u sz flag s : 0 <= u < 2 ^ 64 -> 17 <= sz <= len buf ->
  wp (longlong_to_hexstring buf u sz flag) (fun r s' => s' = s /\ exists buf' pos, r = (buf', pos) /\ 0 <= pos /\ drop (Z.to_nat pos) buf' = hexadecimal flag u ++ 0 :: drop (Z.to_nat sz) buf) s.
Proof.
  intros Hu Hs. unfold longlong_to_hexstring. wp_step. apply put_front_wp; [lia|lia|]. intros buf1 El Ed. eapply wp_mono; [apply (hex_loop_wp flag 16 buf1 (sz - 1) u s); lia|].
  intros r s' (-> & buf' & pos' & -> & E1 & E2 & Hp). split; [done|]. exists buf', pos'. split; [done|]. split; [done|]. by rewrite E2, Ed.
Qed.
End buffers.

(** What the digits say. *)
Lemma dec_spec f n : 0 <= n < 10 ^ Z.of_nat f -> (0 < f)%nat -> value 10 (dec f n) 0 = n /\ Forall (fun c => 48 <= c <= 57) (dec f n) /\ (length (dec f n) <= f)%nat /\ dec f n <> [].
Proof.
  revert n. induction f as [|f IH]; intros n Hn Hf; [lia|]. cbn [dec]. rewrite Nat2Z.inj_succ, Z.pow_succ_r in Hn by lia. destruct (Z.ltb_spec n 10) as [Hlt|Hge].
  - split; [|split; [repeat constructor; lia|split; [cbn; lia|done]]]. unfold value. cbn [fold_left]. unfold digit_of. rewrite (proj2 (andb_false_iff (65 <=? _) _)), (proj2 (andb_false_iff (97 <=? _) _)) by (left; apply Z.leb_gt; lia). rewrite !(proj2 (Z.leb_le _ _)) by lia. cbn [andb]. lia.
  - pose proof (Z.mod_pos_bound n 10 ltac:(lia)). pose proof (Z.div_mod n 10 ltac:(lia)). assert (n / 10 < 10 ^ Z.of_nat f) by (apply Z.div_lt_upper_bound; lia). assert (1 <= n / 10) by (apply Z.div_le_lower_bound; lia). assert (0 < f)%nat by (destruct f; [cbn in *; lia|lia]).
    destruct (IH (n / 10) ltac:(lia) ltac:(lia)) as (E & F & L & N). split; [|split; [apply Forall_app; split; [done|repeat constructor; lia]|split; [rewrite length_app; cbn; lia|by destruct (dec f (n / 10))]]].
    unfold value in *. rewrite fold_left_app, E. cbn [fold_left]. unfold digit_of. rewrite (proj2 (andb_false_iff (65 <=? _) _)), (proj2 (andb_false_iff (97 <=? _) _)) by (left; apply Z.leb_gt; lia). rewrite !(proj2 (Z.leb_le _ _)) by lia. cbn [andb]. lia.
Qed.

Lemma decimal_spec n : 0 <= n < 2 ^ 64 -> value 10 (decimal n) 0 = n /\ Forall (fun c => 48 <= c <= 57) (decimal n) /\ (length (decimal n) <= 20)%nat /\ decimal n <> [].
Proof. intros Hn. apply dec_spec; [|lia]. change (Z.of_nat 20) with 20. lia. Qed.

(** ** The text of a format *)

(** An argument: a number, or a string that is pointed to. *)
Inductive arg :=
| Num (v : Z)
| Str (l : list Z).

(** A field: the sign, the mark of a hexadecimal number, the padding and the text itself. *)
Definition layout (c flags num signchar : Z) (body : list Z) : list Z :=
  if has flags LEFTFORMATFLAG then body ++ replicate (Z.to_nat (num - len body)) 32
  else
    let sign := if signchar =? 0 then [] else [signchar] in
    let num := if negb (signchar =? 0) && (0 <? num) then num - 1 else num in
    let alt := (c =? 120) && has flags ALTFLAG in
    let zero := has flags LEADZEROFLAG in
    (if zero then sign else []) ++ (if alt then [48; if has flags CAPSFLAG then 88 else 120] else []) ++
    replicate (Z.to_nat ((if alt && (2 <=? num) then num - 2 else num) - len body)) (if zero then 48 else 32) ++
    (if zero then [] else sign) ++ body.

(** The bytes in front of the first zero. *)
Fixpoint cut (l : list Z) : option (list Z) :=
  match l with
  | [] => None
  | c :: l => if c =? 0 then Some [] else (fun l => c :: l) <$> cut l
  end.

(** The text of a [double], as the functions for it leave it in the buffer. *)
Definition double_text (buf : list Z) (hexa : bool) (v flags : Z) : option (list Z) :=
  match (if hexa then double_to_hexstring buf NUM_BUFFER v flags else double_to_string buf NUM_BUFFER v flags) tt with
  | Done (buf, pos) _ => cut (drop (Z.to_nat pos) buf)
  | Fault _ => None
  end.

(** A character after the percent sign that does not end the conversion: the new flags and width. *)
Definition directive (c flags num : Z) : option (Z * Z) :=
  if (48 <=? c) && (c <=? 57) then Some (if (c =? 48) && (num =? 0) then Z.lor flags LEADZEROFLAG else flags, u32 (u32 (num * 10) + (c - 48)))
  else if c =? 46 then Some (flags, num)
  else if c =? 45 then Some (Z.lor flags LEFTFORMATFLAG, num)
  else if c =? 43 then Some (Z.lor flags SHOWSIGNFLAG, num)
  else if c =? 32 then Some (Z.lor flags BLANKPOSFLAG, num)
  else if c =? 35 then Some (Z.lor flags ALTFLAG, num)
  else if c =? 108 then Some (Z.lor (if has flags LONGFLAG then Z.lor flags LONGLONGFLAG else flags) LONGFLAG, num)
  else if c =? 104 then Some (Z.lor (if has flags HALFFLAG then Z.lor flags HALFHALFFLAG else flags) HALFFLAG, num)
  else if c =? 122 then Some (Z.lor flags SIZETFLAG, num)
  else if c =? 106 then Some (Z.lor flags INTMAXFLAG, num)
  else if c =? 116 then Some (Z.lor flags PTRDIFFFLAG, num)
  else None.

Section render.
Context (num_buffer : list Z).

Definition hex_field (flags num v : Z) : list Z :=
  let n := unsigned_arg flags v in layout 120 (if n =? 0 then Z.ldiff flags ALTFLAG else flags) num 0 (hexadecimal flags n).

(** The text of one conversion, and the arguments that are left.  [%n] prints nothing and is left out. *)
Definition field (c flags num : Z) (args : list arg) : option (list Z * list arg) :=
  if c =? 37 then Some ([37], args)
  else if c =? 99 then match args with Num v :: args => Some ([v mod 256], args) | _ => None end
  else if c =? 115 then
    match args with
    | Str l :: args => Some (layout c (Z.ldiff flags LEADZEROFLAG) num 0 l, args)
    | Num v :: args => if u64 v =? 0 then Some (layout c (Z.ldiff flags LEADZEROFLAG) num 0 (chars "<null>"), args) else None
    | [] => None
    end
  else if (c =? 105) || (c =? 100) then
    match args with
    | Num v :: args => let z := signed_arg flags v in Some (layout c (Z.lor flags SIGNEDFLAG) num (sign_char flags (z <? 0)) (decimal (Z.abs z)), args)
    | _ => None
    end
  else if c =? 117 then
    match args with Num v :: args => Some (layout c flags num (sign_char flags false) (decimal (unsigned_arg flags v)), args) | _ => None end
  else if c =? 112 then match args with Num v :: args => Some (hex_field (Z.lor flags (Z.lor SIZETFLAG ALTFLAG)) num v, args) | _ => None end
  else if c =? 88 then match args with Num v :: args => Some (hex_field (Z.lor flags CAPSFLAG) num v, args) | _ => None end
  else if c =? 120 then match args with Num v :: args => Some (hex_field flags num v, args) | _ => None end
  else if c =? 110 then None
  else if (c =? 70) || (c =? 102) then
    match args with
    | Num v :: args => let flags := if c =? 70 then Z.lor flags CAPSFLAG else flags in (fun l => (layout c flags num 0 l, args)) <$> double_text num_buffer false (u64 v) flags
    | _ => None
    end
  else if (c =? 65) || (c =? 97) then
    match args with
    | Num v :: args => let flags := if c =? 65 then Z.lor flags CAPSFLAG else flags in (fun l => (layout c flags num 0 l, args)) <$> double_text num_buffer true (u64 v) flags
    | _ => None
    end
  else Some ([37; c], args).

(** The text of a format: [conv] holds the flags and the width after a percent sign. *)
Fixpoint render (fmt : list Z) (conv : option (Z * Z)) (args : list arg) : option (list Z) :=
  match fmt with
  | [] => Some []
  | c :: fmt =>
      match conv with
      | None => if c =? 37 then render fmt (Some (0, 0)) args else (fun o => c :: o) <$> render fmt None args
      | Some (flags, num) =>
          match directive c flags num with
          | Some conv => render fmt (Some conv) args
          | None =>
              match field c flags num args with
              | Some (bs, args) => (fun o => bs ++ o) <$> render fmt None args
              | None => None
              end
          end
      end
  end.
End render.

(** ** The output function *)

Section output.
Context {Out : Type} (m0 : cmem) (region : Z -> Prop) (limit : Z).
Notation state := (cmem * Out)%type.

(** Text whose first bytes are [bs], in memory that the output does not touch or on the stack. *)
Definition text_ok (t : text) (bs : list Z) : Prop :=
  match t with
  | InMemory p => forall i c, bs !! i = Some c -> ~ region (p + Z.of_nat i) /\ m0 !! (p + Z.of_nat i) = Some c /\ 0 <= c < 256
  | OnStack l => bs `prefix_of` l /\ Forall byte bs
  end.
(** A whole string. *)
Definition string_ok (t : text) (bs : list Z) : Prop :=
  match t with
  | InMemory p => str m0 p bs /\ forall x, p <= x <= p + len bs -> ~ region x
  | OnStack l => cut l = Some bs /\ Forall byte bs
  end.
Definition arg_ok (a : arg) (v : Z) : Prop :=
  match a with
  | Num n => v = n
  | Str l => u64 v <> 0 /\ string_ok (InMemory (u64 v)) l
  end.

(** An output function takes the text it is given, up to [limit] bytes of it, and changes the memory in its own region only:
    [rep o] says that [o] was taken. *)
Class Output (out : text -> Z -> M state Z) (rep : list Z -> state -> Prop) : Prop := {
  out_takes o s t bs : rep o s -> text_ok t bs -> len (o ++ bs) <= limit -> wp (out t (len bs)) (fun r s' => r = len bs /\ rep (o ++ bs) s') s;
  out_keeps o s x : rep o s -> ~ region x -> s.1 !! x = m0 !! x }.
End output.

(** ** Conversions do not depend on the state *)

Section same_run.
Context {S1 S2 : Type}.

Definition same_run {A} (p : M S1 A) (q : M S2 A) : Prop :=
  forall s1 s2, match p s1, q s2 with Done a s1', Done b s2' => a = b /\ s1' = s1 /\ s2' = s2 | Fault e, Fault e' => e = e' | _, _ => False end.

Lemma same_ret {A} (a : A) : same_run (ret a) (ret a).
Proof. done. Qed.
Lemma same_fail {A} e : same_run (A := A) (fail e) (fail e).
Proof. done. Qed.
Lemma same_deref {A} (x : option A) : same_run (deref x) (deref x).
Proof. by destruct x. Qed.
Lemma same_bind {A B} (p : M S1 A) (q : M S2 A) (f : A -> M S1 B) (g : A -> M S2 B) : same_run p q -> (forall a, same_run (f a) (g a)) -> same_run (bind p f) (bind q g).
Proof. intros Hp Hf s1 s2. specialize (Hp s1 s2). unfold bind. destruct (p s1), (q s2); try done. destruct Hp as (-> & -> & ->). apply Hf. Qed.

(** The steps of a proof that two runs are the same. *)
Ltac same_step :=
  match goal with
  | |- same_run (ret _) _ => apply same_ret
  | |- same_run (fail _) _ => apply same_fail
  | |- same_run (deref _) _ => apply same_deref
  | |- same_run (bind _ _) _ => apply same_bind; [|intros ?]
  | |- same_run (if ?b then _ else _) _ => destruct b
  | |- same_run (match ?x with _ => _ end) _ => destruct x
  | |- _ => solve [auto]
  end.
Ltac same := repeat same_step.

Lemma same_put buf i c : same_run (put buf i c) (put buf i c).
Proof. unfold put. same. Qed.
Hint Resolve same_put : core.
Lemma same_ll_digits f : forall buf pos n, same_run (ll_digits f buf pos n) (ll_digits f buf pos n).
Proof. induction f; intros; cbn [ll_digits]; same. Qed.
Hint Resolve same_ll_digits : core.
Lemma same_longlong buf n sz flag : same_run (longlong_to_string buf n sz flag) (longlong_to_string buf n sz flag).
Proof. unfold longlong_to_string. same. Qed.
Hint Resolve same_longlong : core.
Lemma same_outstr l : forall buf pos, same_run (outstr buf pos l) (outstr buf pos l).
Proof. induction l; intros; cbn [outstr]; same. Qed.
Hint Resolve same_outstr : core.
Lemma same_exponent_digits f : forall buf i e, same_run (exponent_digits f buf i e) (exponent_digits f buf i e).
Proof. induction f; intros; cbn [exponent_digits]; same. Qed.
Hint Resolve same_exponent_digits : core.
Lemma same_exponent buf b e : same_run (exponent_to_string buf b e) (exponent_to_string buf b e).
Proof. unfold exponent_to_string. same. Qed.
Hint Resolve same_exponent : core.
Lemma same_frac_digits f : forall buf i e, same_run (frac_digits f buf i e) (frac_digits f buf i e).
Proof. induction f; intros; cbn [frac_digits]; same. Qed.
Hint Resolve same_frac_digits : core.
Lemma same_fraction_digits n : forall table buf pos fraction zc dot, same_run (fraction_digits n table buf pos fraction zc dot) (fraction_digits n table buf pos fraction zc dot).
Proof. induction n; intros; cbn [fraction_digits]; same. Qed.
Hint Resolve same_fraction_digits : core.
Lemma same_outrev buf pos c k k' : (forall buf pos, same_run (k buf pos) (k' buf pos)) -> same_run (outrev buf pos c k) (outrev buf pos c k').
Proof. intros. unfold outrev. same. Qed.
Lemma same_outrevs n : forall buf pos c k k', (forall buf pos, same_run (k buf pos) (k' buf pos)) -> same_run (outrevs n buf pos c k) (outrevs n buf pos c k').
Proof. induction n; intros; cbn [outrevs]; [auto|]. apply same_outrev. auto. Qed.

Lemma same_double buf sz d flag : same_run (double_to_string buf sz d flag) (double_to_string buf sz d flag).
Proof.
  unfold double_to_string. cbv zeta. same. apply same_outrev. intros. apply same_outrevs. intros. same; (apply same_outrev; intros; same; apply same_outrev; intros; same) || (apply same_outrev; intros; same).
Qed.
Lemma same_double_hex buf sz d flag : same_run (double_to_hexstring buf sz d flag) (double_to_hexstring buf sz d flag).
Proof. unfold double_to_hexstring. cbv zeta. same. Qed.

Lemma same_run_wp {A} (p : M S1 A) (q : M S2 A) a s1 s2 s2' : same_run p q -> q s2 = Done a s2' -> wp p (fun r s' => s' = s1 /\ r = a) s1.
Proof. intros Hp E. specialize (Hp s1 s2). unfold wp. rewrite E in Hp. destruct (p s1); [|done]. tauto. Qed.
End same_run.

(** The text of a [double] is where the buffer says. *)
Lemma double_text_wp {St} (buf : list Z) (hexa : bool) v flags l (s : St) : double_text buf hexa v flags = Some l ->
  wp (if hexa then double_to_hexstring buf NUM_BUFFER v flags else double_to_string buf NUM_BUFFER v flags) (fun r s' => s' = s /\ exists buf' pos, r = (buf', pos) /\ cut (drop (Z.to_nat pos) buf') = Some l) s.
Proof.
  unfold double_text. intros Hd. destruct hexa.
  - destruct (double_to_hexstring buf NUM_BUFFER v flags tt) as [[b p] ?|] eqn:E; [|done]. eapply wp_mono; [eapply same_run_wp; [apply same_double_hex|exact E]|]. intros r s' [-> ->]. eauto.
  - destruct (double_to_string buf NUM_BUFFER v flags tt) as [[b p] ?|] eqn:E; [|done]. eapply wp_mono; [eapply same_run_wp; [apply same_double|exact E]|]. intros r s' [-> ->]. eauto.
Qed.


(** ** Doubles are always printed *)

Section doubles.
Context {St : Type}.
Implicit Types (s : St) (buf l : list Z).

Definition buf_ok buf : Prop := length buf = 32%nat /\ Forall byte buf.

Lemma put_ok buf i c Q s : buf_ok buf -> 0 <= i < 32 -> (forall buf', buf_ok buf' -> buf' !! Z.to_nat i = Some (c mod 256) -> (forall j, j <> Z.to_nat i -> buf' !! j = buf !! j) -> Q buf' s) -> wp (put buf i c) Q s.
Proof.
  intros [Hl Hb] Hi HQ. apply put_wp; [lia|]. apply HQ.
  - split; [by rewrite length_insert|]. apply Forall_insert; [done|]. apply Z.mod_pos_bound. lia.
  - apply list_lookup_insert_eq. lia.
  - intros j Hj. by apply list_lookup_insert_ne.
Qed.

Lemma outstr_ok l : forall buf pos Q s, buf_ok buf -> 0 <= pos -> pos + len l <= 32 -> (forall buf', buf_ok buf' -> Q (buf', pos + len l) s) -> wp (outstr buf pos l) Q s.
Proof.
  induction l as [|c l IH]; intros buf pos Q s Hb Hp Hl HQ; cbn [outstr length] in *; [wp_step; rewrite Z.add_0_r in HQ; by apply HQ|]. wp_step. apply put_ok; [done|lia|]. intros buf1 Hb1 _ _. apply IH; [done|lia|lia|]. by replace (pos + 1 + len l) with (pos + Z.of_nat (S (length l))) by lia.
Qed.

Lemma exponent_digits_ok k : forall f buf i e Q s, buf_ok buf -> 0 <= e < 10 ^ Z.of_nat k -> (0 < k <= f)%nat -> Z.of_nat k <= i <= 32 -> (forall buf', buf_ok buf' -> Q buf' s) -> wp (exponent_digits f buf i e) Q s.
Proof.
  induction k as [|k IH]; intros f buf i e Q s Hb He Hk Hi HQ; [lia|]. destruct f as [|f]; [lia|]. cbn [exponent_digits]. rewrite Nat2Z.inj_succ, Z.pow_succ_r in He by lia. wp_step. apply put_ok; [done|lia|]. intros buf1 Hb1 _ _.
  pose proof (Z.div_pos e 10 ltac:(lia) ltac:(lia)). assert (e / 10 < 10 ^ Z.of_nat k) by (apply Z.div_lt_upper_bound; lia). destruct (Z.eqb_spec (e / 10) 0); cbn [negb]; [wp_step; by apply HQ|]. assert (0 < k)%nat by (destruct k; [cbn in *; lia|lia]). apply IH; [done|lia..|done].
Qed.

Lemma exponent_ok buf b e Q s : buf_ok buf -> - 1023 <= e <= 1024 -> 4 <= b <= 27 -> (forall buf' n, buf_ok buf' -> 2 <= n <= 5 -> Q (buf', n) s) -> wp (exponent_to_string buf b e) Q s.
Proof.
  intros Hb He Hi HQ. unfold exponent_to_string. wp_step. apply put_ok; [done|lia|]. intros buf1 Hb1 _ _. cbv zeta. set (n := if 1000 <=? Z.abs e then 4 else _). assert (1 <= n <= 4) by (subst n; repeat case_match; lia).
  wp_step. apply (exponent_digits_ok 4); [done|lia..|]. intros buf2 Hb2. wp_step. apply HQ; [done|lia].
Qed.

(** Writing the digits of the fraction, which leaves the end of the buffer alone. *)
Lemma frac_digits_ok k : forall f buf i v Q s, buf_ok buf -> 0 <= v < 10 ^ Z.of_nat k -> (k < f)%nat -> Z.of_nat k <= i <= 31 -> (forall buf', buf_ok buf' -> buf' !! 31%nat = buf !! 31%nat -> Q buf' s) -> wp (frac_digits f buf i v) Q s.
Proof.
  induction k as [|k IH]; intros f buf i v Q s Hb Hv Hk Hi HQ; (destruct f as [|f]; [lia|]); cbn [frac_digits].
  - assert (v = 0) as -> by (cbn in Hv; lia). change (negb (0 =? 0)) with false. cbv iota. wp_step. by apply HQ.
  - rewrite Nat2Z.inj_succ, Z.pow_succ_r in Hv by lia. destruct (Z.eqb_spec v 0); cbn [negb]; [wp_step; by apply HQ|]. wp_step. apply put_ok; [done|lia|]. intros buf1 Hb1 _ H31. apply IH; [done|split; [apply Z.div_pos; lia|apply Z.div_lt_upper_bound; lia]|lia..|].
    intros buf2 Hb2 E. apply HQ; [done|]. rewrite E. apply H31. lia.
Qed.

Lemma outrev_ok buf pos c k Q s : buf_ok buf -> 0 <= pos <= 31 -> Q (buf, pos) s -> (forall buf', buf_ok buf' -> buf' !! 31%nat = buf !! 31%nat -> 0 < pos -> wp (k buf' (pos - 1)) Q s) -> wp (outrev buf pos c k) Q s.
Proof.
  intros Hb Hp HQ Hk. unfold outrev. destruct (Z.eqb_spec pos 0); [by wp_step|]. wp_step. apply put_ok; [done|lia|]. intros buf1 Hb1 _ H31. apply Hk; [done| |lia]. apply H31. lia.
Qed.

Lemma outrevs_ok n : forall buf pos c k Q s, buf_ok buf -> Z.of_nat n <= pos <= 31 -> (forall buf', buf_ok buf' -> buf' !! 31%nat = buf !! 31%nat -> wp (k buf' (pos - Z.of_nat n)) Q s) -> wp (outrevs n buf pos c k) Q s.
Proof.
  induction n as [|n IH]; intros buf pos c k Q s Hb Hp Hk; cbn [outrevs]; [rewrite Z.sub_0_r in Hk; by apply Hk|]. unfold outrev. rewrite (proj2 (Z.eqb_neq pos 0)) by lia. wp_step. apply put_ok; [done|lia|]. intros buf1 Hb1 _ H31. apply IH; [done|lia|].
  intros buf2 Hb2 E. replace (pos - 1 - Z.of_nat n) with (pos - Z.of_nat (S n)) by lia. apply Hk; [done|]. rewrite E. apply H31. lia.
Qed.

(** The text that is returned ends inside the buffer. *)
Definition ends (r : list Z * Z) : Prop := exists i, buf_ok r.1 /\ (Z.to_nat r.2 <= i)%nat /\ r.1 !! i = Some 0.

Lemma finish_ok buf pos l s : buf_ok buf -> 0 <= pos -> pos + len l <= 31 -> wp (do ' (buf, pos) <- outstr buf pos l; do buf <- put buf pos 0; ret (buf, 0)) (fun r s' => ends r) s.
Proof. intros Hb Hp Hl. wp_step. apply outstr_ok; [done|lia|lia|]. intros buf1 Hb1. wp_step. apply put_ok; [done|lia|]. intros buf2 Hb2 E _. wp_step. exists (Z.to_nat (pos + len l)). cbn [fst snd]. split; [done|]. split; [lia|done]. Qed.

Lemma ll_digits_ok f : forall buf pos n s, buf_ok buf -> 0 <= n < 10 ^ Z.of_nat f -> (0 < f)%nat -> Z.of_nat f <= pos <= 32 -> wp (ll_digits f buf pos n) (fun r s' => s' = s /\ buf_ok r.1.1 /\ 1 <= r.1.2 <= 32) s.
Proof.
  induction f as [|f IH]; intros buf pos n s Hb Hn Hf Hp; [lia|]. cbn [ll_digits]. rewrite Nat2Z.inj_succ, Z.pow_succ_r in Hn by lia. destruct (Z.leb_spec 10 n); [|wp_step; cbn [fst snd]; split; [done|split; [done|lia]]]. wp_step. apply put_ok; [done|lia|]. intros buf1 Hb1 _ _.
  assert (n / 10 < 10 ^ Z.of_nat f) by (apply Z.div_lt_upper_bound; lia). assert (1 <= n / 10) by (apply Z.div_le_lower_bound; lia). assert (0 < f)%nat by (destruct f; [cbn in *; lia|lia]). apply IH; [done|lia..].
Qed.

Lemma longlong_ok buf n sz flag s : buf_ok buf -> 0 <= n < 2 ^ 64 -> 21 <= sz <= 32 -> wp (longlong_to_string buf n sz flag) (fun r s' => buf_ok r.1.1) s.
Proof.
  intros Hb Hn Hs. unfold longlong_to_string. cbv zeta. set (v := if has flag SIGNEDFLAG && (s64 n <? 0) then u64 (- n) else n). assert (0 <= v < 2 ^ 64) as Hv by (subst v; destruct (_ && _); [apply u64_range|done]).
  wp_step. apply put_ok; [done|lia|]. intros buf1 Hb1 _ _. wp_step. eapply wp_mono; [apply ll_digits_ok; [done|change (Z.of_nat 20) with 20; lia|lia|lia]|]. intros [[buf2 pos2] n2] ? (-> & Hb2 & Hp2). cbn [fst snd] in *. wp_step. apply put_ok; [done|lia|]. intros buf3 Hb3 _ _. by wp_step.
Qed.

(** The integer part of a [double] that is printed. *)
Lemma integer_part_range fr k : 0 <= fr < 2 ^ 52 -> 0 <= k -> 0 <= Z.shiftr (Z.lor fr (2 ^ 52)) k < 2 ^ 64.
Proof.
  intros Hfr Hk. assert (Z.land fr (2 ^ 52) = 0) as Hl0.
  { apply Z.bits_inj'. intros n Hn. rewrite Z.land_spec, Z.bits_0, Z.pow2_bits_eqb by lia. destruct (Z.eqb_spec 52 n) as [<-|]; [|apply andb_false_r]. rewrite andb_true_r. apply Z.bits_above_log2; [lia|]. destruct (decide (fr = 0)) as [->|]; [cbn; lia|]. apply Z.log2_lt_pow2; lia. }
  rewrite <- Z.lxor_lor by done. rewrite <- Z.add_nocarry_lxor by done. rewrite Z.shiftr_div_pow2 by lia. pose proof (Z.pow_pos_nonneg 2 k ltac:(lia) ltac:(lia)). split; [apply Z.div_pos; lia|]. apply Z.le_lt_trans with (fr + 2 ^ 52); [apply Z.div_le_upper_bound; nia|lia].
Qed.

Lemma double_to_string_ok buf d flag s : buf_ok buf -> wp (double_to_string buf NUM_BUFFER d flag) (fun r s' => ends r) s.
Proof.
  intros Hb. unfold double_to_string. cbv zeta. set (e := dbl_exponent d). set (fr := dbl_fraction d). assert (0 <= fr < 2 ^ 52) as Hfr by (subst fr; unfold dbl_fraction; change (2 ^ 52 - 1) with (Z.ones 52); rewrite Z.land_ones by lia; apply Z.mod_pos_bound; lia).
  wp_step. apply outstr_ok; [done|lia|destruct (dbl_neg d); cbn; lia|]. intros buf1 Hb1. rewrite Z.add_0_l. set (pos := len (if dbl_neg d then [45] else [])). assert (0 <= pos <= 1) as Hpos by (subst pos; destruct (dbl_neg d); cbn; lia).
  destruct (e =? 0x7ff); [destruct (fr =? 0); apply finish_ok; try lia; try done; destruct (has flag CAPSFLAG); cbn; lia|]. destruct (e =? 0); [destruct (fr =? 0); apply finish_ok; try lia; try done; [cbn; lia|destruct (has flag CAPSFLAG); cbn; lia]|].
  destruct (_ || _) eqn:Er; [apply finish_ok; try lia; try done; cbn; lia|]. apply orb_false_iff in Er as [Er1 Er2]. apply Z.ltb_ge in Er1, Er2.
  unfold outrev at 1. change (NUM_BUFFER =? 0) with false. cbv iota. wp_step. apply put_ok; [done|unfold NUM_BUFFER; lia|]. intros buf2 Hb2 E2 _. change (Z.to_nat (NUM_BUFFER - 1)) with 31%nat in E2. change (0 mod 256) with 0 in E2. change (NUM_BUFFER - 1) with 31.
  apply outrevs_ok; [done|lia|]. intros buf3 Hb3 E3. change (31 - Z.of_nat 7) with 24. rewrite E2 in E3.
  assert (forall b p, buf_ok b -> b !! 31%nat = Some 0 -> 0 <= p <= 31 -> ends (b, p)) as Hends by (intros b p ? ? ?; exists 31%nat; cbn [fst snd]; split; [done|split; [lia|done]]).
  assert (forall u buf4 pos4, buf_ok buf4 -> buf4 !! 31%nat = Some 0 -> 0 <= pos4 <= 31 ->
    wp (do buf <- put buf4 24 46; do buf <- frac_digits 11 buf (24 + 6 + 1) (dbl_frac e fr u); (if dbl_neg d then outrev buf pos4 45 (fun buf pos => ret (buf, pos)) else ret (buf, pos4))) (fun r s' => ends r) s) as Hrest.
  { intros u buf4 pos4 Hb4 E4 Hp4. wp_step. apply put_ok; [done|lia|]. intros buf5 Hb5 _ H5. wp_step. apply (frac_digits_ok 10); [done| |lia|lia|]. { unfold dbl_frac. match goal with |- 0 <= u32 ?x < _ => pose proof (u32_range x) end. change (Z.of_nat 10) with 10. lia. }
    intros buf6 Hb6 E6. rewrite H5, E4 in E6 by lia. destruct (dbl_neg d); [|wp_step; by apply Hends]. apply outrev_ok; [done|lia|by apply Hends|]. intros buf7 Hb7 E7 Hp7. wp_step. apply Hends; [done|congruence|lia]. }
  destruct (Z.leb_spec 0 (e - 1023)) as [Ee|Ee].
  - pose proof (integer_part_range fr (52 - (e - 1023)) Hfr ltac:(lia)) as Hu. wp_step. eapply wp_mono; [apply wp_conj; [apply (longlong_to_string_wp buf3 _ (24 + 1) flag s Hu); destruct Hb3; lia|apply (longlong_ok buf3 _ (24 + 1) flag s Hb3 Hu); lia]|].
    intros r ? [(-> & buf4 & pos4 & Eq) Hb4]. cbv zeta in Eq. destruct Eq as (-> & Hp4 & El4 & Ed4). cbn [fst] in Hb4. destruct Hb4 as [Hl4 Hf4]. change (Z.to_nat (24 + 1)) with 25%nat in Ed4. match type of Ed4 with _ = ?dd ++ _ => set (ds := dd) in * end.
    pose proof (f_equal length Ed4) as Hlen. destruct Hb3 as [Hl3 Hf3]. rewrite length_drop, length_app in Hlen. cbn [length] in Hlen. rewrite length_drop in Hlen. apply Hrest; [done| |lia].
    replace 31%nat with (Z.to_nat pos4 + (31 - Z.to_nat pos4))%nat by lia. rewrite <- lookup_drop, Ed4. rewrite lookup_app_r by lia. replace (31 - Z.to_nat pos4 - length ds)%nat with 7%nat by lia. change ((0 :: drop 25 buf3) !! 7%nat) with (drop 25 buf3 !! 6%nat). by rewrite lookup_drop.
  - apply outrev_ok; [done|lia|apply Hends; [done|done|lia]|]. intros buf4 Hb4 E4 _. apply Hrest; [done|congruence|lia].
Qed.

Lemma fraction_digits_ok flag n : forall buf pos fr zc dot Q s, buf_ok buf -> 0 <= pos -> 0 <= zc -> pos + zc + Z.of_nat n + (if dot : bool then 0 else 1) <= 18 -> (forall buf' pos', buf_ok buf' -> pos <= pos' <= 18 -> Q (buf', pos') s) -> wp (fraction_digits n (table_of flag) buf pos fr zc dot) Q s.
Proof.
  induction n as [|n IH]; intros buf pos fr zc dot Q s Hb Hp Hz Hs HQ; cbn [fraction_digits]; [wp_step; apply HQ; [done|destruct dot; lia]|]. cbv zeta. set (dg := Z.land (Z.shiftr fr (4 * Z.of_nat n)) 0xf).
  assert (0 <= dg < 16) as Hd by (subst dg; change 0xf with (Z.ones 4); rewrite Z.land_ones by lia; apply Z.mod_pos_bound; lia). destruct (dg =? 0); [apply IH; [done|lia|lia|lia|done]|].
  wp_step. apply outstr_ok; [done|lia|destruct dot; cbn [length]; lia|]. intros buf1 Hb1. wp_step. apply outstr_ok; [done|lia|rewrite length_replicate; destruct dot; cbn [length]; lia|]. intros buf2 Hb2. rewrite length_replicate. destruct (table_lookup flag dg Hd) as (c & Hc & _). wp_step. eapply wp_deref; [done|].
  wp_step. apply put_ok; [done|destruct dot; cbn [length]; lia|]. intros buf3 Hb3 _ _. apply IH; [done|lia|lia|destruct dot; cbn [length]; lia|]. intros buf4 pos4 Hb4 Hp4. apply HQ; [done|destruct dot; cbn [length] in Hp4; lia].
Qed.

Lemma double_to_hexstring_ok buf d flag s : buf_ok buf -> wp (double_to_hexstring buf NUM_BUFFER d flag) (fun r s' => ends r) s.
Proof.
  intros Hb. unfold double_to_hexstring. cbv zeta. set (e := dbl_exponent d). assert (0 <= e < 2048) as He by (subst e; unfold dbl_exponent; change 0x7ff with (Z.ones 11); rewrite Z.land_ones by lia; apply Z.mod_pos_bound; lia).
  wp_step. apply outstr_ok; [done|lia|destruct (dbl_neg d); cbn; lia|]. intros buf1 Hb1. rewrite Z.add_0_l. set (pos := len (if dbl_neg d then [45] else [])). assert (0 <= pos <= 1) as Hpos by (subst pos; destruct (dbl_neg d); cbn; lia).
  destruct (e =? 0x7ff); [destruct (_ =? 0); apply finish_ok; try lia; try done; destruct (has flag CAPSFLAG); cbn; lia|]. destruct (e =? 0); [destruct (_ =? 0); apply finish_ok; try lia; try done; destruct (has flag CAPSFLAG); cbn; lia|].
  assert (len (chars (if has flag CAPSFLAG then "0X1" else "0x1")) = 3) as El by (by destruct (has flag CAPSFLAG)). wp_step. apply outstr_ok; [done|lia|lia|]. intros buf2 Hb2. rewrite El. wp_step. apply fraction_digits_ok; [done|lia|lia|lia|]. intros buf3 pos3 Hb3 Hp3.
  wp_step. apply put_ok; [done|lia|]. intros buf4 Hb4 _ _. wp_step. apply exponent_ok; [done|lia|lia|]. intros buf5 n Hb5 Hn. wp_step. apply put_ok; [done|lia|]. intros buf6 Hb6 E6 _. wp_step. exists (Z.to_nat (pos3 + 1 + n)). cbn [fst snd]. split; [done|]. split; [lia|done].
Qed.
End doubles.

Lemma cut_ends l i : l !! i = Some 0 -> exists b, cut l = Some b /\ b `prefix_of` l.
Proof.
  revert i. induction l as [|c l IH]; intros i Hi; [done|]. cbn. destruct (Z.eqb_spec c 0) as [|Hne]; [exists []; split; [done|apply prefix_nil]|]. destruct i as [|i]; [cbn in Hi; congruence|]. destruct (IH i Hi) as (b & -> & Hb). exists (c :: b). split; [done|by apply prefix_cons].
Qed.

(** Every [double] has a text. *)
Lemma double_text_some buf hexa v flags : buf_ok buf -> exists l, double_text buf hexa v flags = Some l /\ Forall byte l.
Proof.
  intros Hb. assert (wp (if hexa then double_to_hexstring buf NUM_BUFFER v flags else double_to_string buf NUM_BUFFER v flags) (fun r s' => ends r) tt) as Hw by (destruct hexa; [by apply double_to_hexstring_ok|by apply double_to_string_ok]).
  unfold double_text, wp in *. set (r := (if hexa then double_to_hexstring buf NUM_BUFFER v flags else double_to_string buf NUM_BUFFER v flags) tt) in *. destruct r as [[b p] ?|]; [|done]. destruct Hw as (i & [Hl Hf] & Hi & H0). cbn [fst snd] in *. destruct (cut_ends (drop (Z.to_nat p) b) (i - Z.to_nat p)) as (l & -> & [t Ht]).
  - rewrite lookup_drop. by replace (Z.to_nat p + (i - Z.to_nat p))%nat with i by lia.
  - exists l. split; [done|]. apply (Forall_drop _ (Z.to_nat p)) in Hf. rewrite Ht in Hf. by apply Forall_app in Hf as [? _].
Qed.

Lemma double_bytes buf hexa v flags l : buf_ok buf -> double_text buf hexa v flags = Some l -> Forall byte l.
Proof. intros Hb E. destruct (double_text_some buf hexa v flags Hb) as (l' & E' & Hl). congruence. Qed.
(** ** The engine prints the text *)

Section engine.
Context {Out : Type} (m0 : cmem) (region : Z -> Prop) (limit : Z) (Hlim : limit < 2 ^ 31) (out : text -> Z -> M (cmem * Out) Z) (rep : list Z -> cmem * Out -> Prop) `{HO : !Output m0 region limit out rep}.
Context (num_buffer : list Z) (Hnb : length num_buffer = 32%nat) (Hbytes : Forall byte num_buffer).
Notation state := (cmem * Out)%type.
Notation text_ok := (text_ok m0 region).
Notation string_ok := (string_ok m0 region).
Notation arg_ok := (arg_ok m0 region).
Implicit Types (s : state) (o bs : list Z) (Q : Z -> state -> Prop).

Lemma in_memory_wp {A} (p : M cmem A) (Q : A -> state -> Prop) s : wp p (fun a m => Q a (m, s.2)) s.1 -> wp (in_memory p) Q s.
Proof. unfold wp, in_memory. by destruct (p s.1). Qed.

Lemma rep_str o s p bs : rep o s -> string_ok (InMemory p) bs -> str s.1 p bs.
Proof. intros Hr [Hs Hd]. eapply str_frame; [done|]. intros x Hx. apply (out_keeps m0 region limit o s x Hr). by apply Hd. Qed.

Lemma string_text t bs : string_ok t bs -> text_ok t bs.
Proof.
  destruct t as [p|l]; cbn [string_ok text_ok].
  - intros [Hs Hd] i c Hi. pose proof (lookup_lt_Some _ _ _ Hi). destruct (str_lookup _ _ _ _ _ Hs Hi) as [E R]. split; [apply Hd; lia|]. split; [done|lia].
  - intros [Hc Hb]. split; [|done]. clear Hb. revert bs Hc. induction l as [|c l IH]; intros bs Hc; [done|]. cbn in Hc. destruct (c =? 0); [injection Hc as <-; apply prefix_nil|]. destruct (cut l) as [b|]; [|done]. injection Hc as <-. apply prefix_cons. by apply IH.
Qed.

Lemma OUTPUT_STRING_wp o s t bs k Q : rep o s -> text_ok t bs -> len (o ++ bs) <= limit -> (forall s', rep (o ++ bs) s' -> wp (k (len bs) (len (o ++ bs))) Q s') ->
  wp (OUTPUT_STRING out t (len bs) (len o) k) Q s.
Proof.
  intros Hr Ht Hb Hk. unfold OUTPUT_STRING. wp_step. eapply wp_mono; [by apply (out_takes m0 region limit)|]. intros r s' [-> Hr']. rewrite (proj2 (Z.ltb_ge _ _)) by lia. specialize (Hk s' Hr'). rewrite length_app in *.
  rewrite u64_small by lia. by rewrite Nat2Z.inj_add in Hk.
Qed.

Lemma OUTPUT_CHAR_wp o s c k Q : rep o s -> len (o ++ [c]) <= limit -> 0 <= c < 256 -> (forall s', rep (o ++ [c]) s' -> wp (k (len (o ++ [c]))) Q s') -> wp (OUTPUT_CHAR out c (len o) k) Q s.
Proof.
  intros Hr Hb Hc Hk. unfold OUTPUT_CHAR. rewrite Z.mod_small by lia. apply (OUTPUT_STRING_wp o s (OnStack [c]) [c]); [done|split; [by exists []|by constructor; [|constructor]]|done|done].
Qed.

Lemma output_if_wp (b : bool) o s c k Q : rep o s -> len (o ++ if b then [c] else []) <= limit -> (b = true -> 0 <= c < 256) -> (forall s', rep (o ++ if b then [c] else []) s' -> wp (k (len (o ++ if b then [c] else []))) Q s') -> wp (output_if out b c (len o) k) Q s.
Proof. intros Hr Hb Hc Hk. destruct b; [apply OUTPUT_CHAR_wp; auto|]. rewrite app_nil_r in Hk. by apply Hk. Qed.

Lemma output_chars_wp n : forall o s c k Q, rep o s -> len (o ++ replicate n c) <= limit -> 0 <= c < 256 -> (forall s', rep (o ++ replicate n c) s' -> wp (k (len (o ++ replicate n c))) Q s') -> wp (output_chars out n c (len o) k) Q s.
Proof.
  induction n as [|n IH]; intros o s c k Q Hr Hb Hc Hk; cbn [output_chars replicate] in *; [rewrite app_nil_r in Hk; by apply Hk|]. apply OUTPUT_CHAR_wp; [done|rewrite !length_app in *; cbn [length] in *; lia|done|]. intros s' Hr'. apply IH; [done|by rewrite <- app_assoc|done|]. by rewrite <- app_assoc.
Qed.

Lemma stack_len_wp l bs s : cut l = Some bs -> wp (stack_len (Out := Out) l) (fun r s' => s' = s /\ r = len bs) s.
Proof.
  revert bs. induction l as [|c l IH]; intros bs Hc; [done|]. cbn in Hc. cbn [stack_len]. destruct (c =? 0); [injection Hc as <-; by wp_step|]. destruct (cut l) as [b|]; [|done]. injection Hc as <-. wp_step. eapply wp_mono; [by apply IH|]. intros r s' [-> ->]. wp_step. split; [done|cbn; lia].
Qed.

Lemma text_len_wp o s t bs : rep o s -> string_ok t bs -> wp (text_len t) (fun r s' => s' = s /\ r = len bs) s.
Proof.
  intros Hr Ht. destruct t as [p|l]; [|destruct Ht; by apply stack_len_wp]. cbn [text_len]. apply in_memory_wp. eapply wp_mono; [apply strlen_wp; by eapply rep_str|]. intros r m [-> ->]. by destruct s.
Qed.

Lemma layout_length c flags num signchar body : len body <= len (layout c flags num signchar body).
Proof. unfold layout. destruct (has flags LEFTFORMATFLAG); rewrite ?length_app; lia. Qed.

Lemma output_string_wp o s t c flags num signchar body k Q : rep o s -> string_ok t body -> len (o ++ layout c flags num signchar body) <= limit -> 0 <= signchar < 256 ->
  (forall s', rep (o ++ layout c flags num signchar body) s' -> wp (k (len (o ++ layout c flags num signchar body))) Q s') -> wp (output_string out t c flags num signchar (len o) k) Q s.
Proof.
  intros Hr Ht Hb Hs Hk. unfold output_string. wp_step. eapply wp_mono; [by eapply text_len_wp|]. intros r ? [-> ->]. pose proof (string_text _ _ Ht) as Hx. unfold layout in *. destruct (has flags LEFTFORMATFLAG).
  - rewrite app_assoc in Hb, Hk. apply (OUTPUT_STRING_wp o s t body); [done|done|rewrite !length_app in *; lia|]. intros s1 H1. assert (u32 (len body) = len body) as -> by (apply u32_small; rewrite !length_app in Hb; lia). by apply output_chars_wp.
  - cbv zeta in *. set (num1 := if negb (signchar =? 0) && (0 <? num) then num - 1 else num) in *. set (alt := (c =? 120) && has flags ALTFLAG) in *. set (zero := has flags LEADZEROFLAG) in *.
    assert ((if zero then if signchar =? 0 then [] else [signchar] else []) = if zero && negb (signchar =? 0) then [signchar] else []) as Ez by (by destruct zero, (signchar =? 0)).
    assert ((if zero then [] else if signchar =? 0 then [] else [signchar]) = if negb zero && negb (signchar =? 0) then [signchar] else []) as Ez' by (by destruct zero, (signchar =? 0)).
    assert ((if alt then [48; if has flags CAPSFLAG then 88 else 120] else []) = (if alt then [48] else []) ++ (if alt then [if has flags CAPSFLAG then 88 else 120] else [])) as Ea by (by destruct alt).
    rewrite Ez, Ez', Ea in Hb, Hk. rewrite !app_assoc in Hb, Hk. assert (forall x y : list Z, len (x ++ y) <= limit -> len x <= limit) as Hpre by (intros x y; rewrite length_app; lia).
    pose proof (Hpre _ _ Hb) as B5. pose proof (Hpre _ _ B5) as B4. pose proof (Hpre _ _ B4) as B3. pose proof (Hpre _ _ B3) as B2. pose proof (Hpre _ _ B2) as B1.
    apply output_if_wp; [done|done|done|]. intros s1 H1. apply output_if_wp; [done|done|lia|]. intros s2 H2. apply output_if_wp; [done|done|intros _; destruct (has flags CAPSFLAG); lia|]. intros s3 H3.
    apply output_chars_wp; [done|done|destruct zero; lia|]. intros s4 H4. apply output_if_wp; [done|done|done|]. intros s5 H5. apply OUTPUT_STRING_wp; done.
Qed.

Lemma cut_app l r : Forall (fun c => c <> 0) l -> cut (l ++ 0 :: r) = Some l.
Proof. induction 1 as [|c l Hc Hl IH]; cbn; [done|]. rewrite (proj2 (Z.eqb_neq c 0)) by done. by rewrite IH. Qed.

Lemma decimal_nonzero n : 0 <= n < 2 ^ 64 -> Forall (fun c => c <> 0) (decimal n).
Proof. intros Hn. destruct (decimal_spec n Hn) as (_ & Hd & _). eapply Forall_impl; [exact Hd|]. intros c Hc. cbn in Hc. lia. Qed.

Lemma decimal_bytes n : 0 <= n < 2 ^ 64 -> Forall byte (decimal n).
Proof. intros Hn. destruct (decimal_spec n Hn) as (_ & Hd & _). eapply Forall_impl; [exact Hd|]. intros c Hc. cbn in Hc. lia. Qed.

Lemma hex_bytes flags f : forall n, Forall byte (hex f (table_of flags) n).
Proof.
  induction f as [|f IH]; intros n; cbn [hex]; [constructor|]. apply Forall_app. split; [destruct (n / 16 =? 0); [constructor|apply IH]|]. pose proof (Z.mod_pos_bound n 16 ltac:(lia)). destruct (table_lookup flags (n mod 16) ltac:(lia)) as (c & _ & -> & Rc). repeat constructor; lia.
Qed.

Lemma hex_nonzero flags f : forall n, Forall (fun c => c <> 0) (hex f (table_of flags) n).
Proof.
  induction f as [|f IH]; intros n; cbn [hex]; [constructor|]. apply Forall_app. split; [destruct (n / 16 =? 0); [constructor|apply IH]|]. pose proof (Z.mod_pos_bound n 16 ltac:(lia)). destruct (table_lookup flags (n mod 16) ltac:(lia)) as (c & _ & -> & Rc). repeat constructor. lia.
Qed.

Lemma has_lor f g b : has (Z.lor f g) b = has f b || has g b.
Proof. unfold has. rewrite Z.land_lor_distr_l. destruct (Z.eqb_spec (Z.land f b) 0) as [->|Hf]; [by rewrite Z.lor_0_l|]. cbn [negb orb]. apply negb_true_iff, Z.eqb_neq. rewrite Z.lor_eq_0_iff. tauto. Qed.

Lemma signed_arg_range flags v : - 2 ^ 63 <= signed_arg flags v < 2 ^ 63.
Proof.
  assert (forall x, - 2 ^ 63 <= s64 x < 2 ^ 63) as H64 by (intros x; unfold s64; pose proof (u64_range x); destruct (Z.ltb_spec (u64 x) (2 ^ 63)); lia).
  unfold signed_arg. destruct (has flags LONGLONGFLAG || has flags LONGFLAG); [apply H64|]. destruct (has flags HALFHALFFLAG); [unfold schar; pose proof (Z.mod_pos_bound v 256 ltac:(lia)); destruct (_ <? _); lia|].
  destruct (has flags HALFFLAG); [unfold s16; pose proof (Z.mod_pos_bound v (2 ^ 16) ltac:(lia)); destruct (_ <? _); lia|]. destruct (_ || _); [apply H64|]. pose proof (s32_range v). lia.
Qed.

Lemma unsigned_arg_range flags v : 0 <= unsigned_arg flags v < 2 ^ 64.
Proof.
  unfold unsigned_arg. destruct (has flags LONGLONGFLAG || has flags LONGFLAG); [apply u64_range|]. destruct (has flags HALFHALFFLAG); [pose proof (Z.mod_pos_bound v (2 ^ 8) ltac:(lia)); lia|].
  destruct (has flags HALFFLAG); [pose proof (Z.mod_pos_bound v (2 ^ 16) ltac:(lia)); lia|]. destruct (_ || _); [apply u64_range|]. pose proof (u32_range v). lia.
Qed.

Lemma sign_char_range flag b : 0 <= sign_char flag b < 256.
Proof. unfold sign_char. destruct b, (has flag SHOWSIGNFLAG), (has flag BLANKPOSFLAG); lia. Qed.

(** A signed number as the text and the sign that are printed for it. *)
Lemma signed_text_wp z flags s : - 2 ^ 63 <= z < 2 ^ 63 ->
  wp (longlong_to_string num_buffer (u64 z) NUM_BUFFER (Z.lor flags SIGNEDFLAG)) (fun r s' => s' = s /\ exists buf pos, r = (buf, pos, sign_char flags (z <? 0)) /\ string_ok (OnStack (drop (Z.to_nat pos) buf)) (decimal (Z.abs z))) s.
Proof.
  intros Hz. eapply wp_mono; [apply longlong_to_string_wp; [apply u64_range|unfold NUM_BUFFER; lia]|]. intros r s' (-> & buf & pos & Er). cbv zeta in Er. rewrite has_lor in Er. change (has SIGNEDFLAG SIGNEDFLAG) with true in Er. rewrite orb_true_r in Er. cbn [andb] in Er.
  assert (s64 (u64 z) = z) as Es. { unfold s64, u64. rewrite Zmod_mod. fold (u64 z). fold (s64 z). by apply s64_small. }
  rewrite Es in Er. destruct Er as (-> & Hp & _ & Ed). split; [done|]. exists buf, pos. split; [unfold sign_char; by rewrite !has_lor, !orb_false_r|]. cbn [string_ok]. rewrite Ed.
  assert ((if z <? 0 then u64 (- u64 z) else u64 z) = Z.abs z) as ->. { destruct (Z.ltb_spec z 0); [|rewrite u64_small by lia; lia]. unfold u64. rewrite <- (Z.add_0_l (- (z mod 2 ^ 64))). rewrite Z.add_opp_r, Zminus_mod_idemp_r. rewrite Z.mod_small by lia. lia. }
  split; [apply cut_app, decimal_nonzero; lia|apply decimal_bytes; lia].
Qed.

Lemma unsigned_text_wp n flags s : 0 <= n < 2 ^ 64 -> has flags SIGNEDFLAG = false ->
  wp (longlong_to_string num_buffer n NUM_BUFFER flags) (fun r s' => s' = s /\ exists buf pos, r = (buf, pos, sign_char flags false) /\ string_ok (OnStack (drop (Z.to_nat pos) buf)) (decimal n)) s.
Proof.
  intros Hn Hf. eapply wp_mono; [apply longlong_to_string_wp; [done|unfold NUM_BUFFER; lia]|]. intros r s' (-> & buf & pos & Er). cbv zeta in Er. rewrite Hf in Er. cbn [andb] in Er. destruct Er as (-> & Hp & _ & Ed). split; [done|]. exists buf, pos. split; [done|].
  cbn [string_ok]. rewrite Ed. split; [by apply cut_app, decimal_nonzero|by apply decimal_bytes].
Qed.

(** One conversion: the text of its field is printed and its argument is taken. *)
Section conversion.
Context (o : list Z) (s : state) (k : list Z -> Z -> M state Z) (Q : Z -> state -> Prop).
Context (Hr : rep o s).

(** What is left to show once [bs] is printed and [args'] are left. *)
Definition goes_on (bs : list Z) (args' : list arg) : Prop :=
  forall ap' s', Forall2 arg_ok args' ap' -> rep (o ++ bs) s' -> wp (k ap' (len (o ++ bs))) Q s'.

Lemma va_arg_wp a args' ap (K : Z * list Z -> M state Z) : Forall2 arg_ok (a :: args') ap -> (forall v ap', arg_ok a v -> Forall2 arg_ok args' ap' -> wp (K (v, ap')) Q s) -> wp (bind (va_arg ap) K) Q s.
Proof. intros Hap HK. apply Forall2_cons_inv_l in Hap as (v & ap' & Hv & Hap' & ->). unfold va_arg. wp_step. wp_step. by apply HK. Qed.

Lemma hex_field_wp flags num v args' ap : Forall2 arg_ok (Num v :: args') ap -> len (o ++ hex_field flags num v) <= limit -> goes_on (hex_field flags num v) args' ->
  wp (do ' (v, ap) <- va_arg ap;
      let n := unsigned_arg flags v in
      do ' (buf, pos) <- longlong_to_hexstring num_buffer n NUM_BUFFER flags;
      output_string out (OnStack (drop (Z.to_nat pos) buf)) 120 (if n =? 0 then Z.ldiff flags ALTFLAG else flags) num 0 (len o) (k ap)) Q s.
Proof.
  intros E Hb Hk. eapply va_arg_wp; [exact E|]. intros ? ap' -> Hap'. cbv beta iota zeta. wp_step. eapply wp_mono; [apply longlong_to_hexstring_wp; [apply unsigned_arg_range|unfold NUM_BUFFER; lia]|]. intros r s' (-> & buf & pos & -> & Hp & Ed).
  eapply output_string_wp; [done| |exact Hb|lia|intros s' Hs'; by apply Hk]. cbn [string_ok]. rewrite Ed. split; [apply cut_app, hex_nonzero|apply hex_bytes].
Qed.

Lemma convert_wp c flags num args ap bs args' : Forall2 arg_ok args ap -> field num_buffer c flags num args = Some (bs, args') -> len (o ++ bs) <= limit -> goes_on bs args' -> 0 <= c < 256 -> has flags SIGNEDFLAG = false ->
  wp (convert out num_buffer c flags num ap (len o) k) Q s.
Proof.
  intros Hap Hf Hb Hk Hc Hsg. unfold field in Hf. unfold convert. cbv zeta in *.
  destruct (c =? 37). { injection Hf as <- <-. apply OUTPUT_CHAR_wp; [done|done|lia|]. intros s' Hs'. by apply Hk. }
  destruct (c =? 99). { destruct args as [|[v|] args1]; try done. injection Hf as <- <-. eapply va_arg_wp; [done|]. intros ? ap' -> Hap'. cbv beta iota. unfold OUTPUT_CHAR. apply (OUTPUT_STRING_wp o s (OnStack [v mod 256]) [v mod 256]); [done|split; [by exists []|constructor; [apply Z.mod_pos_bound; lia|constructor]]|done|]. intros s' Hs'. by apply Hk. }
  destruct (c =? 115).
  { destruct args as [|[v|l] args1]; try done.
    - destruct (u64 v =? 0) eqn:E0; [|done]. injection Hf as <- <-. eapply va_arg_wp; [done|]. intros ? ap' -> Hap'. cbv beta iota. rewrite E0. eapply output_string_wp; [done|split; [done|repeat constructor; lia]|exact Hb|lia|intros s' Hs'; by apply Hk].
    - injection Hf as <- <-. eapply va_arg_wp; [done|]. intros w ap' [Hw Hs] Hap'. cbv beta iota. rewrite (proj2 (Z.eqb_neq _ _) Hw). eapply output_string_wp; [done|exact Hs|exact Hb|lia|intros s' Hs'; by apply Hk]. }
  destruct ((c =? 105) || (c =? 100)).
  { destruct args as [|[v|] args1]; try done. injection Hf as <- <-. eapply va_arg_wp; [done|]. intros ? ap' -> Hap'. cbv beta iota. wp_step. eapply wp_mono; [apply signed_text_wp, signed_arg_range|]. intros r ? (-> & buf & pos & -> & Hs).
    eapply output_string_wp; [done|exact Hs|exact Hb|apply sign_char_range|intros s' Hs'; by apply Hk]. }
  destruct (c =? 117).
  { destruct args as [|[v|] args1]; try done. injection Hf as <- <-. eapply va_arg_wp; [done|]. intros ? ap' -> Hap'. cbv beta iota. wp_step. eapply wp_mono; [apply unsigned_text_wp; [apply unsigned_arg_range|done]|]. intros r ? (-> & buf & pos & -> & Hs).
    eapply output_string_wp; [done|exact Hs|exact Hb|apply sign_char_range|intros s' Hs'; by apply Hk]. }
  destruct (c =? 112). { destruct args as [|[v|] args1]; try done. injection Hf as <- <-. by eapply hex_field_wp. }
  destruct (c =? 88). { destruct args as [|[v|] args1]; try done. injection Hf as <- <-. by eapply hex_field_wp. }
  destruct (c =? 120). { destruct args as [|[v|] args1]; try done. injection Hf as <- <-. by eapply hex_field_wp. }
  destruct (c =? 110); [done|].
  destruct ((c =? 70) || (c =? 102)).
  { destruct args as [|[v|] args1]; try done. destruct (double_text _ _ _ _) as [l|] eqn:Ed; [|done]. injection Hf as <- <-. eapply va_arg_wp; [done|]. intros ? ap' -> Hap'. cbv beta iota. wp_step. eapply wp_mono; [exact (double_text_wp _ _ _ _ _ s Ed)|]. intros r ? (-> & buf & pos & -> & Hs).
    eapply output_string_wp; [done|split; [exact Hs|by eapply double_bytes]|exact Hb|lia|intros s' Hs'; by apply Hk]. }
  destruct ((c =? 65) || (c =? 97)).
  { destruct args as [|[v|] args1]; try done. destruct (double_text _ _ _ _) as [l|] eqn:Ed; [|done]. injection Hf as <- <-. eapply va_arg_wp; [done|]. intros ? ap' -> Hap'. cbv beta iota. wp_step. eapply wp_mono; [exact (double_text_wp _ _ _ _ _ s Ed)|]. intros r ? (-> & buf & pos & -> & Hs).
    eapply output_string_wp; [done|split; [exact Hs|by eapply double_bytes]|exact Hb|lia|intros s' Hs'; by apply Hk]. }
  injection Hf as <- <-. apply OUTPUT_CHAR_wp; [done|rewrite length_app in *; cbn [length] in *; lia|lia|]. intros s1 H1. change [37; c] with ([37] ++ [c]) in *. unfold goes_on in Hk. rewrite app_assoc in Hb, Hk. apply OUTPUT_CHAR_wp; [done|done|done|]. intros s2 H2. by apply Hk.
Qed.
End conversion.

(** The characters up to the one that ends a conversion, what is behind it, and the flags and width. *)
Fixpoint conv_of (l : list Z) (flags num : Z) : option (Z * list Z * Z * Z) :=
  match l with
  | [] => None
  | c :: l => match directive c flags num with Some (flags, num) => conv_of l flags num | None => Some (c, l, flags, num) end
  end.

Lemma render_conv l : forall flags num args,
  render num_buffer l (Some (flags, num)) args =
  match conv_of l flags num with
  | None => Some []
  | Some (c, l', flags, num) => match field num_buffer c flags num args with Some (bs, args) => (fun o => bs ++ o) <$> render num_buffer l' None args | None => None end
  end.
Proof. induction l as [|c l IH]; intros flags num args; cbn [render conv_of]; [done|]. destruct (directive c flags num) as [[fl n]|]; [apply IH|done]. Qed.

Lemma next_format_step f fmt flags num m : next_format (S f) fmt flags num m = (do c <- ldb fmt; match directive c flags num with Some (flags, num) => next_format f (fmt + 1) flags num | None => ret (c, fmt + 1, flags, num) end) m.
Proof. cbn [next_format]. apply bind_ext. intros c m'. cbv zeta. unfold directive. by repeat (case_match; [done|]). Qed.

Lemma directive_unsigned c flags num flags' num' : directive c flags num = Some (flags', num') -> has flags SIGNEDFLAG = false -> has flags' SIGNEDFLAG = false.
Proof.
  unfold directive. intros Hd Hf. repeat (match type of Hd with (if ?b then _ else _) = _ => destruct b end; [injection Hd as <- _; repeat case_match; rewrite ?has_lor, ?Hf; done|]). done.
Qed.

Lemma next_format_wp g : forall m p l flags num, str m p l -> (length l < g)%nat -> has flags SIGNEDFLAG = false ->
  wp (next_format g p flags num) (fun r m' => m' = m /\
    match conv_of l flags num with
    | None => exists a b d, r = (0, a, b, d)
    | Some (c, l', flags, num) => exists pre, r = (c, p + len pre + 1, flags, num) /\ l = pre ++ c :: l' /\ 0 < c < 256 /\ has flags SIGNEDFLAG = false
    end) m.
Proof.
  induction g as [|g IH]; intros m p l flags num Hs Hg Hf; [lia|]. unfold wp. rewrite next_format_step. change (wp (do c <- ldb p; match directive c flags num with Some (flags, num) => next_format g (p + 1) flags num | None => ret (c, p + 1, flags, num) end) (fun r m' => m' = m /\
    match conv_of l flags num with None => exists a b d, r = (0, a, b, d) | Some (c, l', flags, num) => exists pre, r = (c, p + len pre + 1, flags, num) /\ l = pre ++ c :: l' /\ 0 < c < 256 /\ has flags SIGNEDFLAG = false end) m).
  destruct l as [|c l]; cbn in Hs; cbn [conv_of].
  - wp_step. eapply ldb_wp; [done|]. change (directive 0 flags num) with (@None (Z * Z)). cbv iota. wp_step. split; [done|]. by do 3 eexists.
  - destruct Hs as (Hc & Rc & Hs). wp_step. eapply ldb_wp; [done|]. destruct (directive c flags num) as [[fl n]|] eqn:Ed.
    + eapply wp_mono; [apply (IH m (p + 1) l fl n Hs); [cbn in Hg; lia|by eapply directive_unsigned]|]. intros r m' [-> Hr]. split; [done|]. destruct (conv_of l fl n) as [[[[c' l'] fl'] n']|]; [|done]. destruct Hr as (pre & -> & -> & Rc' & Hf'). exists (c :: pre). cbn [length app].
      split; [|done]. by replace (p + Z.of_nat (S (length pre)) + 1) with (p + 1 + len pre + 1) by lia.
    + wp_step. split; [done|]. exists []. cbn [length app]. by replace (p + Z.of_nat 0 + 1) with (p + 1) by lia.
Qed.

Lemma plain_wp g : forall m p l n pre rest, str m p l -> (length l < g)%nat -> spans (fun c => c <> 37) l pre rest ->
  wp (plain g p n) (fun r m' => m' = m /\ r = (n + len pre, match rest with [] => 0 | c :: _ => c end, p + len pre + 1)) m.
Proof.
  induction g as [|g IH]; intros m p l n pre rest Hs Hg (-> & Hp & Hr); [lia|]. cbn [plain]. wp_step. destruct pre as [|c pre]; cbn [app] in *.
  - destruct (str_head _ _ _ Hs) as (a & t & E & Ea & Ra). eapply ldb_wp; [done|]. assert (a = match rest with [] => 0 | c :: _ => c end /\ (a = 0 \/ a = 37)) as [-> Ha].
    { destruct rest as [|c rest]; cbn in E; injection E as <- _; [tauto|]. split; [done|]. right. destruct (decide (c = 37)); [done|]. destruct (Hr c rest eq_refl). done. }
    replace ((_ =? 0) || _) with true by (destruct Ha as [-> | ->]; done). wp_step. cbn [length]. by rewrite !Z.add_0_r.
  - cbn in Hs. destruct Hs as (Hc & Rc & Hs). apply Forall_cons_1 in Hp as [Hne Hp]. eapply ldb_wp; [done|]. rewrite (proj2 (Z.eqb_neq c 0)), (proj2 (Z.eqb_neq c 37)) by lia. cbn [orb]. eapply wp_mono; [eapply (IH m (p + 1) (pre ++ rest) (n + 1) pre rest Hs); [cbn in Hg; lia|done]|].
    intros r m' [-> ->]. split; [done|]. cbn [length]. by replace (n + Z.of_nat (S (length pre))) with (n + 1 + len pre) by lia; replace (p + Z.of_nat (S (length pre)) + 1) with (p + 1 + len pre + 1) by lia.
Qed.

Lemma span_plain l : exists pre rest, spans (fun c => c <> 37) l pre rest.
Proof.
  induction l as [|c l (pre & rest & -> & Hp & Hr)]; [by exists [], []|]. destruct (decide (c = 37)) as [->|Hne]; [exists [], (37 :: pre ++ rest)|exists (c :: pre), rest].
  - split; [done|]. split; [constructor|]. intros d t [= <- _]. tauto.
  - split; [done|]. split; [by constructor|done].
Qed.

Lemma render_plain pre : forall rest args, Forall (fun c => c <> 37) pre -> render num_buffer (pre ++ rest) None args = (fun o => pre ++ o) <$> render num_buffer rest None args.
Proof.
  induction pre as [|c pre IH]; intros rest args Hp; cbn [app]; [by destruct (render num_buffer rest None args)|]. apply Forall_cons_1 in Hp as [Hne Hp]. cbn [render]. rewrite (proj2 (Z.eqb_neq c 37)) by done. rewrite IH by done. by destruct (render num_buffer rest None args).
Qed.

Lemma string_ok_drop p pre l : string_ok (InMemory p) (pre ++ l) -> string_ok (InMemory (p + len pre)) l.
Proof. intros [Hs Hd]. split; [by apply str_app|]. rewrite length_app in Hd. intros x Hx. apply Hd. lia. Qed.

Lemma engine_loop_wp g f : forall l p args ap o s o', string_ok (InMemory p) l -> (length l < f)%nat -> (length l < g)%nat -> render num_buffer l None args = Some o' -> Forall2 arg_ok args ap -> rep o s -> len (o ++ o') <= limit ->
  wp (engine_loop out num_buffer f g p ap (len o)) (fun r s' => r = len (o ++ o') /\ rep (o ++ o') s') s.
Proof.
  induction f as [|f IH]; intros l p args ap o s o' Hl Hf Hg Hren Hap Hr Hb; [lia|]. cbn [engine_loop]. destruct (span_plain l) as (pre & rest & Hsp). pose proof Hsp as (-> & Hpre & _).
  wp_step. apply in_memory_wp. eapply wp_mono; [eapply plain_wp; [by eapply rep_str|done|exact Hsp]|]. intros r m [-> ->]. rewrite <- surjective_pairing, Z.add_0_l. rewrite render_plain in Hren by done. destruct (render num_buffer rest None args) as [o1|] eqn:E1; [|done]. injection Hren as <-.
  rewrite app_assoc in Hb |- *. apply (OUTPUT_STRING_wp o s (InMemory p) pre); [done| |rewrite length_app in Hb; lia|].
  { intros i c Hi. apply (string_text _ _ Hl i c). by apply lookup_app_l_Some. }
  intros s1 H1. destruct rest as [|c rest]; [injection E1 as <-; rewrite app_nil_r in *; change (0 =? 0) with true; cbv iota; wp_step; split; [|done]; apply s32_small; lia|].
  assert (c = 37) as -> by (destruct Hsp as (_ & _ & Hc); destruct (decide (c = 37)); [done|]; by destruct (Hc c rest eq_refl)). cbn [render] in E1. change (37 =? 37) with true in E1. cbv iota in E1. rewrite render_conv in E1.
  change (37 =? 0) with false. cbv iota. pose proof (string_ok_drop (p + len pre) [37] rest (string_ok_drop p pre (37 :: rest) Hl)) as Hl1. cbn [length] in Hl1. change (Z.of_nat 1) with 1 in Hl1. rewrite length_app in Hf, Hg. cbn [length] in Hf, Hg.
  wp_step. apply in_memory_wp. eapply wp_mono; [apply (next_format_wp g _ _ rest 0 0); [by eapply rep_str|lia|done]|]. intros r m2 [-> Hr2]. rewrite <- surjective_pairing. destruct (conv_of rest 0 0) as [[[[c l'] flags] num]|].
  - destruct Hr2 as (pre2 & -> & -> & Rc & Hsg). rewrite (proj2 (Z.eqb_neq c 0)) by lia. destruct (field num_buffer c flags num args) as [[bs args']|] eqn:Ef; [|done]. destruct (render num_buffer l' None args') as [o2|] eqn:E2; [|done]. injection E1 as <-. rewrite app_assoc in Hb |- *.
    eapply convert_wp; [exact H1|exact Hap|exact Ef|rewrite length_app in Hb; lia| |lia|done]. intros ap' s2 Hap2 H2. rewrite length_app in Hf, Hg. cbn [length] in Hf, Hg. apply (IH l' _ args'); [|lia|lia|done|done|done|done].
    replace (p + len pre + 1 + len pre2 + 1) with (p + len pre + 1 + len pre2 + len [c]) by (cbn [length]; lia). by apply string_ok_drop, string_ok_drop.
  - destruct Hr2 as (a & b & d & ->). change (0 =? 0) with true. cbv iota. injection E1 as <-. rewrite app_nil_r in *. wp_step. split; [|done]. apply s32_small; lia.
Qed.

(** The engine hands the text of the format to the output function, all of it and in order. *)
Lemma printf_engine_wp l p args ap s o : string_ok (InMemory p) l -> render num_buffer l None args = Some o -> Forall2 arg_ok args ap -> rep [] s -> len o <= limit ->
  wp (_printf_engine out num_buffer p ap) (fun r s' => r = len o /\ rep o s') s.
Proof.
  intros Hl Hren Hap Hr Hb. unfold _printf_engine. wp_step. apply in_memory_wp. apply fuel_wp. rewrite <- surjective_pairing. pose proof (str_fuel _ _ _ (rep_str _ _ _ _ Hr Hl)). apply (engine_loop_wp _ _ l p args ap [] s o); done.
Qed.
End engine.

(** ** Which arguments a format asks for *)

Inductive kind := Nothing | Number | Text | Unprinted.
Definition kind_of (c : Z) : kind :=
  if c =? 37 then Nothing
  else if c =? 115 then Text
  else if c =? 110 then Unprinted
  else if (c =? 99) || (c =? 105) || (c =? 100) || (c =? 117) || (c =? 112) || (c =? 88) || (c =? 120) || (c =? 70) || (c =? 102) || (c =? 65) || (c =? 97) then Number
  else Nothing.

(** The arguments agree with the format. *)
Fixpoint fits (fmt : list Z) (conv : option (Z * Z)) (args : list arg) : bool :=
  match fmt with
  | [] => true
  | c :: fmt =>
      match conv with
      | None => fits fmt (if c =? 37 then Some (0, 0) else None) args
      | Some (flags, num) =>
          match directive c flags num with
          | Some conv => fits fmt (Some conv) args
          | None =>
              match kind_of c, args with
              | Nothing, args => fits fmt None args
              | Number, Num _ :: args => fits fmt None args
              | Text, Str _ :: args => fits fmt None args
              | Text, Num v :: args => (u64 v =? 0) && fits fmt None args
              | _, _ => false
              end
          end
      end
  end.

Lemma field_some num_buffer c flags num args : buf_ok num_buffer ->
  match kind_of c, args with
  | Nothing, args => exists bs, field num_buffer c flags num args = Some (bs, args)
  | Number, Num _ :: args' | Text, Str _ :: args' => exists bs, field num_buffer c flags num args = Some (bs, args')
  | Text, Num v :: args' => u64 v = 0 -> exists bs, field num_buffer c flags num args = Some (bs, args')
  | _, _ => True
  end.
Proof.
  intros Hb. pose proof (fun h v fl => double_text_some num_buffer h v fl Hb) as Hd. unfold kind_of, field. destruct (Z.eqb_spec c 37); [by eexists|]. destruct (Z.eqb_spec c 115) as [->|]; [destruct args as [|[v|l] args]; [done|intros ->; by eexists|by eexists]|]. destruct (Z.eqb_spec c 110) as [->|]; [done|].
  destruct (c =? 99); [destruct args as [|[v|l] args]; try done; by eexists|]. destruct (c =? 105), (c =? 100), (c =? 117), (c =? 112), (c =? 88), (c =? 120); cbn [orb]; try (destruct args as [|[v|l] args]; try done; by eexists).
  destruct (c =? 70), (c =? 102), (c =? 65), (c =? 97); cbn [orb]; try (destruct args as [|[v|l] args]; try done; cbv zeta; match goal with |- context [double_text _ ?h ?w ?fl] => destruct (Hd h w fl) as (t & -> & _) end; by eexists). by eexists.
Qed.

(** A format whose arguments agree with it has a text. *)
Lemma render_some num_buffer fmt : buf_ok num_buffer -> forall conv args, fits fmt conv args = true -> exists o, render num_buffer fmt conv args = Some o.
Proof.
  intros Hb. induction fmt as [|c fmt IH]; intros conv args Hf; cbn [render fits] in *; [by eexists|]. destruct conv as [[flags num]|].
  - destruct (directive c flags num) as [conv|]; [by apply IH|]. pose proof (field_some num_buffer c flags num args Hb) as Hfd.
    destruct (kind_of c); [|destruct args as [|[v|l] args]; try done..|done]; [| |apply andb_true_iff in Hf as [E Hf]; apply Z.eqb_eq in E; specialize (Hfd E)|]; destruct Hfd as [bs ->]; apply IH in Hf as [o ->]; by eexists.
  - destruct (c =? 37); [by apply IH|]. apply IH in Hf as [o ->]. by eexists.
Qed.

(** ** [vsnprintf] *)

Section vsnprintf.
Context (m0 : cmem) (str size limit : Z) (Hsize : 0 <= size) (Hmap : mapped m0 str (Z.min size (limit + 1))) (Hlimit : 0 <= limit < 2 ^ 31).

(** The part of the buffer that can be written. *)
Definition vsn_region (x : Z) : Prop := str <= x < str + Z.min size (limit + 1).

(** As much of the text as there is room for is in the buffer. *)
Definition vsn_rep (o : list Z) (s : cmem * Z) : Prop :=
  s.2 = Z.min (len o) size /\ (forall i c, o !! i = Some c -> Z.of_nat i < size -> s.1 !! (str + Z.of_nat i) = Some c) /\ (forall x, ~ vsn_region x -> s.1 !! x = m0 !! x) /\ mapped s.1 str (Z.min size (limit + 1)).

Lemma text_at_wp o s t bs i c (Q : Z -> cmem * Z -> Prop) : vsn_rep o s -> text_ok m0 vsn_region t bs -> bs !! i = Some c -> Q c s -> wp (text_at t (Z.of_nat i)) Q s.
Proof.
  intros (_ & _ & Hk & _) Ht Hi HQ. destruct t as [p|l]; cbn [text_at text_ok] in *.
  - destruct (Ht i c Hi) as (Hn & E & _). apply in_memory_wp. eapply ldb_wp; [by rewrite Hk|]. by destruct s.
  - destruct Ht as [[u ->] _]. rewrite Nat2Z.id. eapply wp_deref; [by apply lookup_app_l_Some|done].
Qed.

Lemma text_ok_byte t bs i c : text_ok m0 vsn_region t bs -> bs !! i = Some c -> 0 <= c < 256.
Proof. destruct t as [p|l]; cbn [text_ok]; intros Ht Hi; [by apply (Ht i c Hi)|]. destruct Ht as [_ Hf]. by apply (Forall_lookup_1 _ _ _ _ Hf Hi). Qed.

Lemma vsn_copy_wp t bs rest : forall done o s, text_ok m0 vsn_region t bs -> bs = done ++ rest -> vsn_rep o s -> len (o ++ rest) <= limit ->
  wp (vsn_copy str size (length rest) t (len done)) (fun _ s' => vsn_rep (o ++ rest) s') s.
Proof.
  induction rest as [|c rest IH]; intros dn o s Ht E Hr Hl; cbn [vsn_copy length]; [wp_step; by rewrite app_nil_r|]. assert (bs !! length dn = Some c) as Hc by (rewrite E; by apply list_lookup_middle). pose proof (text_ok_byte _ _ _ _ Ht Hc) as Rc. pose proof Hr as (Hp & Ho & Hk & Hm).
  assert (forall s', vsn_rep (o ++ [c]) s' -> wp (vsn_copy str size (length rest) t (len dn + 1)) (fun _ s' => vsn_rep (o ++ c :: rest) s') s') as Hgo.
  { intros s' Hs'. replace (len dn + 1) with (len (dn ++ [c])) by (rewrite length_app; cbn; lia). eapply wp_mono; [apply (IH (dn ++ [c]) (o ++ [c]) s' Ht); [by rewrite <- app_assoc|done|by rewrite <- app_assoc]|]. intros ? s2. by rewrite <- app_assoc. }
  wp_step. wp_step. wp_step. wp_step; intros Hlt; [apply Z.ltb_lt in Hlt|apply Z.ltb_ge in Hlt].
  - rewrite length_app in Hl. cbn [length] in Hl. wp_step. eapply text_at_wp; [exact Hr|exact Ht|exact Hc|]. wp_step. apply in_memory_wp. rewrite Hp in *. rewrite Z.min_l in * by lia. destruct (Hm (str + len o) ltac:(lia)) as (old & Eold & _). eapply stb_wp; [by eexists|]. rewrite Z.mod_small by done. wp_step. cbn [fst]. apply Hgo.
    split; [cbn [snd]; rewrite length_app; cbn [length]; lia|]. split; [|split]; cbn [fst].
    + intros i d Hi Hs. apply lookup_app_Some in Hi as [Hi|[Hge Hi]].
      * pose proof (lookup_lt_Some _ _ _ Hi). rewrite lookup_insert_ne by lia. by apply Ho.
      * apply list_lookup_singleton_Some in Hi as [Hi ->]. replace (str + Z.of_nat i) with (str + len o) by lia. by rewrite lookup_insert_eq.
    + intros x Hx. rewrite lookup_insert_ne; [by apply Hk|]. intros <-. apply Hx. unfold vsn_region. lia.
    + intros x Hx. destruct (decide (x = str + len o)) as [->|Hne]; [rewrite lookup_insert_eq; by exists c|]. rewrite lookup_insert_ne by done. by apply Hm.
  - apply Hgo. split; [rewrite length_app; cbn [length]; lia|]. split; [|done]. intros i d Hi Hs. apply lookup_app_Some in Hi as [Hi|[Hge Hi]]; [by apply Ho|]. lia.
Qed.

#[export] Instance vsn_output : Output m0 vsn_region limit (_vsnprintf_output str size) vsn_rep.
Proof.
  split.
  - intros o s t bs Hr Ht Hl. unfold _vsnprintf_output. rewrite Nat2Z.id. wp_step. eapply wp_mono; [by apply (vsn_copy_wp t bs bs [])|]. intros ? s' Hs'. wp_step. split; [|done]. apply s32_small. rewrite length_app in Hl. lia.
  - intros o s x (_ & _ & Hk & _) Hx. by apply Hk.
Qed.

(** The text is in the buffer, as much as there is room for, with a zero byte behind it; nothing else has changed. *)
Definition holds (o : list Z) (m : cmem) : Prop :=
  (forall i c, o !! i = Some c -> Z.of_nat i < size - 1 -> m !! (str + Z.of_nat i) = Some c) /\ (0 < size -> m !! (str + Z.min (len o) (size - 1)) = Some 0) /\ (forall x, ~ vsn_region x -> m !! x = m0 !! x).

Lemma vsnprintf_wp num_buffer fmt l args ap o : buf_ok num_buffer -> string_ok m0 vsn_region (InMemory fmt) l -> render num_buffer l None args = Some o -> Forall2 (arg_ok m0 vsn_region) args ap -> len o <= limit ->
  wp (vsnprintf num_buffer str size fmt ap) (fun r m => r = len o /\ holds o m) m0.
Proof.
  intros [Hb1 Hb2] Hf Hr Hap Hl. pose proof (printf_engine_wp m0 vsn_region limit ltac:(lia) (_vsnprintf_output str size) vsn_rep num_buffer Hb1 Hb2 l fmt args ap (m0, 0) o Hf Hr Hap) as Hw.
  assert (vsn_rep [] (m0, 0)) as H0 by (split; [cbn; lia|]; split; [done|]; split; done). specialize (Hw H0 Hl). apply wp_done in Hw as (r & [m pos] & E & -> & Hp & Ho & Hk & Hm). cbn [fst snd] in *. unfold vsnprintf, wp. rewrite E.
  change (wp (when (negb (size =? 0)) (if size <=? pos then stb (str + size - 1) 0 else stb (str + len o) 0) ;; ret (len o)) (fun r m' => r = len o /\ holds o m') m). wp_step. wp_step; intros Hs.
  - apply negb_true_iff, Z.eqb_neq in Hs. assert (wp (stb (str + Z.min (len o) (size - 1)) 0) (fun _ m' => m' = <[str + Z.min (len o) (size - 1) := 0]> m) m) as Hst. { destruct (Hm (str + Z.min (len o) (size - 1)) ltac:(lia)) as (old & Eold & _). eapply stb_wp; [by eexists|]. done. }
    assert ((if size <=? pos then stb (str + size - 1) 0 else stb (str + len o) 0) = stb (str + Z.min (len o) (size - 1)) 0) as -> by (destruct (Z.leb_spec size pos); f_equal; lia).
    eapply wp_mono; [exact Hst|]. intros ? m' ->. wp_step. split; [done|]. split; [|split].
    + intros i c Hi Hlt. pose proof (lookup_lt_Some _ _ _ Hi). rewrite lookup_insert_ne by lia. apply Ho; [done|lia].
    + intros _. by rewrite lookup_insert_eq.
    + intros x Hx. rewrite lookup_insert_ne; [by apply Hk|]. intros <-. apply Hx. unfold vsn_region. lia.
  - apply negb_false_iff, Z.eqb_eq in Hs. wp_step. split; [done|]. split; [intros i c _ Hlt; lia|]. split; [lia|done].
Qed.
End vsnprintf.
