(* ===== verification/LibcTheorems.v ===== *)
(** * The C library: what its functions promise

    The properties of [lib/libc] over the models of [LibcMem], [LibcString], [LibcStdlib], [LibcSort] and [LibcPrintf], each with an
    instance on a small memory, and the inputs on which the code does not do what it means to. *)

From stdpp Require Import base gmap list numbers strings sorting.
From S2P Require Import Prelude Align LibcMem LibcString LibcStdlib LibcSort LibcPrintf LibcPrintfSpec.

Local Notation len l := (Z.of_nat (length l)).

(** ** Small memories *)

(** The bytes [bs] at [p]. *)
Fixpoint mem_at (p : Z) (bs : list Z) : cmem :=
  match bs with
  | [] => ∅
  | b :: bs => <[p := b]> (mem_at (p + 1) bs)
  end.

(** Executable forms of the predicates on memories. *)
Fixpoint is_bytes (m : cmem) (p : Z) (bs : list Z) : bool :=
  match bs with
  | [] => true
  | b :: bs => bool_decide (m !! p = Some b) && (0 <=? b) && (b <? 256) && is_bytes m (p + 1) bs
  end.
Fixpoint is_mapped (m : cmem) (p : Z) (n : nat) : bool :=
  match n with
  | O => true
  | S n => match m !! p with Some b => (0 <=? b) && (b <? 256) && is_mapped m (p + 1) n | None => false end
  end.
Fixpoint is_str (m : cmem) (p : Z) (l : list Z) : bool :=
  match l with
  | [] => bool_decide (m !! p = Some 0)
  | b :: l => bool_decide (m !! p = Some b) && (0 <? b) && (b <? 256) && is_str m (p + 1) l
  end.

Lemma is_bytes_ok m p bs : is_bytes m p bs = true -> bytes m p bs.
Proof.
  revert p. induction bs as [|b bs IH]; intros p H i c Hi; [done|]. cbn in H. rewrite !andb_true_iff, bool_decide_eq_true, Z.leb_le, Z.ltb_lt in H. destruct H as [[[E H1] H2] H3]. destruct i as [|i]; cbn in Hi.
  - injection Hi as <-. by rewrite Z.add_0_r.
  - specialize (IH _ H3 i c Hi). by replace (p + Z.of_nat (S i)) with (p + 1 + Z.of_nat i) by lia.
Qed.

Lemma is_mapped_ok m p n : is_mapped m p n = true -> mapped m p (Z.of_nat n).
Proof.
  revert p. induction n as [|n IH]; intros p H x Hx; [lia|]. cbn in H. destruct (m !! p) as [b|] eqn:E; [|done]. rewrite !andb_true_iff, Z.leb_le, Z.ltb_lt in H. destruct H as [[H1 H2] H3]. destruct (decide (x = p)) as [->|]; [by exists b|]. apply (IH _ H3). lia.
Qed.

Lemma is_str_ok m p l : is_str m p l = true -> str m p l.
Proof. revert p. induction l as [|b l IH]; intros p H; cbn in *; [by apply bool_decide_eq_true in H|]. rewrite !andb_true_iff, bool_decide_eq_true, !Z.ltb_lt in H. destruct H as [[[E H1] H2] H3]. split; [done|]. split; [lia|]. by apply IH. Qed.

(** ** Memory *)



(** ** Strings *)

(** [strstr] returns the place of the first occurrence of the one string in the other, or zero if there is none, and changes
    nothing. *)
Theorem strstr_finds_first m p q l w : str m p l -> str m q w -> len l < 2 ^ 31 -> len w < 2 ^ 31 ->
  wp (strstr p q) (fun r m' => m' = m /\ ((r = 0 /\ forall j, ~ w `prefix_of` drop j l) \/ exists j, w `prefix_of` drop j l /\ r = p + Z.of_nat j /\ forall k, (k < j)%nat -> ~ w `prefix_of` drop k l)) m.
Proof. intros H1 H2 H3 H4. eapply wp_mono; [exact (strstr_wp m p q l w H1 H2 H3 H4)|]. intros r m' [-> H]. split; [done|exact H]. Qed.

Lemma strstr_finds_first_witness :
  let m := mem_at 10 (chars "banana" ++ [0]) ∪ mem_at 50 (chars "ana" ++ [0]) in
  wp (strstr 10 50) (fun r m' => m' = m /\ ((r = 0 /\ forall j, ~ chars "ana" `prefix_of` drop j (chars "banana")) \/ exists j, chars "ana" `prefix_of` drop j (chars "banana") /\ r = 10 + Z.of_nat j /\ forall k, (k < j)%nat -> ~ chars "ana" `prefix_of` drop k (chars "banana"))) m.
Proof. intros m. apply strstr_finds_first; [apply is_str_ok; by vm_compute|apply is_str_ok; by vm_compute|cbn; lia|cbn; lia]. Defined.

(** ** Numbers *)

(** C25. [strtol] is exact: after white space and a sign it reads the longest run of digits of the base (given, or told by [0x] and
    [0]); the number is returned when a [long] can hold it, the nearest [long] and [ERANGE] otherwise, with [errno] untouched when it
    can; the end pointer is set behind the digits, or to the start when there are none. *)
Theorem strtol_exact cs m errno p endptr base ws sg t neg b u ds rest :
  str m p (ws ++ sg ++ t) -> Forall (fun c => isspace c) ws -> sign_of sg t neg -> l_radix base t b u -> spans (is_digit b) u ds rest -> end_ok endptr m ->
  wp (strtol cs errno p endptr base)
    (fun r m' => let v := if neg then - value b ds 0 else value b ds 0 in
       r = (Z.max LONG_MIN (Z.min v LONG_MAX), if decide (LONG_MIN <= v <= LONG_MAX) then errno else ERANGE) /\
       end_set endptr (if decide (ds = []) then p else p + len (ws ++ sg ++ t) - len rest) m m') m.
Proof.
  intros Hs Hw Hsg Hr Hsp He. pose proof Hsp as (_ & Hd & _). assert (2 <= b <= 36) as Hb by (destruct Hr; lia). pose proof (value_ge b ds 0 ltac:(lia) Hd ltac:(lia)) as Hv.
  eapply wp_mono; [by eapply strtol_wp|]. intros r m' [-> Hm]. cbv zeta. split; [clear Hm|done]. unfold long_of, long_limit, LONG_MIN, LONG_MAX. destruct neg.
  - f_equal; [lia|]. destruct (Z.ltb_spec (2 ^ 63) (value b ds 0)); case_decide; try done; lia.
  - f_equal; [lia|]. destruct (Z.ltb_spec (2 ^ 63 - 1) (value b ds 0)); case_decide; try done; lia.
Qed.

(** The smallest [long], in decimal. *)
Lemma strtol_exact_witness :
  let l := chars "9223372036854775808" in
  let m := mem_at 10 (chars " -9223372036854775808!" ++ [0]) in
  wp (strtol true 0 10 0 10)
    (fun r m' => r = (Z.max LONG_MIN (Z.min (- value 10 l 0) LONG_MAX), if decide (LONG_MIN <= - value 10 l 0 <= LONG_MAX) then 0 else ERANGE) /\
       end_set 0 (if decide (l = []) then 10 else 10 + len ([32] ++ [45] ++ l ++ [33]) - len [33]) m m') m.
Proof.
  intros l m. apply (strtol_exact true m 0 10 0 10 [32] [45] (l ++ [33]) true 10 (l ++ [33]) l [33]).
  - apply is_str_ok. by vm_compute.
  - repeat constructor.
  - constructor.
  - apply l_given; lia.
  - split; [done|]. split; [repeat (apply Forall_cons_2; [by vm_compute|]); apply Forall_nil_2|]. intros c t [= <- _]. unfold is_digit. cbn. lia.
  - by left.
Defined.

(** ** Sorting and searching *)

(** C22. [qsort] sorts: for elements of any size, whatever their alignment, and any function that orders them, the call returns with
    the array holding a permutation of its elements in order, and no byte outside of it changed. *)
Theorem qsort_sorts es cmp order m a l : Comparator es cmp order -> 0 < es -> len l * es < 2 ^ 31 -> arr es m a l ->
  wp (qsort cmp a (len l) es)
    (fun _ m' => exists l', arr es m' a l' /\ l' ≡ₚ l /\ StronglySorted (fun x y => order x y <= 0) l' /\ forall x, ~ a <= x < a + len l * es -> m' !! x = m !! x) m.
Proof. intros Hc He Hb Ha. exact (qsort_wp es cmp order m a l He Hb Ha). Qed.

(** A comparison of bytes, as a user would write it. *)
Definition cmp_byte (p q : Z) : M cmem Z := do a <- ldb p; do b <- ldb q; ret (a - b).
Definition order_byte (x y : list Z) : Z := hd 0 x - hd 0 y.

#[export] Instance cmp_byte_compares : Comparator 1 cmp_byte order_byte.
Proof.
  split.
  - intros m p q x y Hx Hy Lx Ly. destruct x as [|a [|? ?]], y as [|b [|? ?]]; cbn in Lx, Ly; try lia. destruct (Hx 0%nat a eq_refl) as [Ea _]. destruct (Hy 0%nat b eq_refl) as [Eb _]. rewrite Z.add_0_r in Ea, Eb. unfold cmp_byte. wp_step. eapply ldb_wp; [done|]. wp_step. eapply ldb_wp; [done|]. by wp_step.
  - intros x y. unfold order_byte. lia.
  - intros x y z. unfold order_byte. lia.
Qed.

Lemma is_arr_ok es m a l : is_bytes m a (concat l) = true -> forallb (fun x => len x =? es) l = true -> arr es m a l.
Proof. intros H1 H2. split; [by apply is_bytes_ok|]. apply Forall_forall. intros x Hx. rewrite forallb_forall in H2. apply Z.eqb_eq, H2. by apply list_elem_of_In. Qed.

Definition ten : list (list Z) := (fun x => [x]) <$> [5; 3; 9; 3; 200; 0; 7; 3; 1; 250].

Lemma qsort_sorts_witness : wp (qsort cmp_byte 77 10 1)
    (fun _ m' => exists l', arr 1 m' 77 l' /\ l' ≡ₚ ten /\ StronglySorted (fun x y => order_byte x y <= 0) l' /\ forall x, ~ 77 <= x < 77 + len ten * 1 -> m' !! x = mem_at 77 (concat ten) !! x) (mem_at 77 (concat ten)).
Proof. apply (qsort_sorts 1 cmp_byte order_byte _ 77 ten); [apply cmp_byte_compares|lia|cbn; lia|apply is_arr_ok; by vm_compute]. Defined.

(** [bsearch] finds: in a sorted array that has an element equal to the key, such an element is returned, after at most as many
    steps as the number of elements has bits. *)
Theorem bsearch_finds es cmp order f m base key l k : Comparator es cmp order -> 0 < es -> arr es m base l -> bytes m key k -> len k = es -> 0 <= base /\ base + len l * es <= 2 ^ 64 ->
  StronglySorted (fun x y => order x y <= 0) l -> len l < 2 ^ Z.of_nat f -> (exists x, x ∈ l /\ order k x = 0) ->
  wp (bsearch cmp f key base (len l) es) (fun r m' => m' = m /\ exists j y, l !! j = Some y /\ order k y = 0 /\ r = base + Z.of_nat j * es) m.
Proof. intros Hc He Ha Hk Lk Hb Hs Hf Hx. by eapply bsearch_wp. Qed.

Lemma bsearch_finds_witness :
  let l := (fun x => [x]) <$> [10; 20; 30; 40; 50] in
  let m := mem_at 77 (concat l) ∪ mem_at 30 [40] in
  wp (bsearch cmp_byte 3 30 77 5 1) (fun r m' => m' = m /\ exists j y, l !! j = Some y /\ order_byte [40] y = 0 /\ r = 77 + Z.of_nat j * 1) m.
Proof.
  intros l m. apply (bsearch_finds 1 cmp_byte order_byte 3 m 77 30 l [40]); [apply cmp_byte_compares|lia|apply is_arr_ok; by vm_compute|apply is_bytes_ok; by vm_compute|done|cbn; lia| |cbn; lia|].
  - repeat constructor; unfold order_byte; cbn; lia.
  - exists [40]. split; [cbn; set_solver|done].
Defined.


(** [strlcat] writes behind the buffer it is given the size of: the loop is bounded by the size of the whole buffer, not by what
    is left of it.  Appending [xyz] to [abc] in a buffer of four bytes changes three bytes after it. *)
Theorem strlcat_overruns :
  let m := mem_at 100 (chars "abc" ++ [0]) ∪ mem_at 104 [1; 1; 1; 1] ∪ mem_at 200 (chars "xyz" ++ [0]) in
  exists r m', strlcat 100 200 4 m = Done r m' /\ m' !! 104 = Some 121 /\ m' !! 105 = Some 122 /\ m' !! 106 = Some 0.
Proof. eexists _, _. split; [vm_compute; reflexivity|]. by vm_compute. Qed.

(** ** Formatted output *)


Lemma zeros_ok : buf_ok (replicate 32 0).
Proof. split; [done|]. apply Forall_replicate. lia. Qed.


(** The text of that format. *)
Example snprintf_text : render (replicate 32 0) (chars "%5d|%+i|%#X|%s|%s|%08x|%%") None [Num 42; Num 7; Num 0xabc; Str (chars "str"); Num 0; Num 0xbeef] = Some (chars "   42|+7|0XABC|str|<null>|0000beef|%").
Proof. by vm_compute. Qed.

Lemma render_ld nb v : - 2 ^ 63 <= v < 2 ^ 63 -> render nb (chars "%ld") None [Num v] = Some ((if v <? 0 then [45] else []) ++ decimal (Z.abs v)).
Proof.
  intros Hv. change (render nb (chars "%ld") None [Num v]) with (Some (layout 100 (Z.lor LONGFLAG SIGNEDFLAG) 0 (sign_char LONGFLAG (s64 v <? 0)) (decimal (Z.abs (s64 v))) ++ [])). rewrite s64_small by done. f_equal. rewrite app_nil_r. unfold layout, sign_char. change (has (Z.lor LONGFLAG SIGNEDFLAG) LEFTFORMATFLAG) with false.
  change (has (Z.lor LONGFLAG SIGNEDFLAG) LEADZEROFLAG) with false. change (has LONGFLAG SHOWSIGNFLAG) with false. change (has LONGFLAG BLANKPOSFLAG) with false. cbv iota zeta. change ((100 =? 120) && has (Z.lor LONGFLAG SIGNEDFLAG) ALTFLAG) with false. cbn [andb app]. rewrite andb_false_r.
  replace (Z.to_nat (0 - len (decimal (Z.abs v)))) with 0%nat by lia. cbn [replicate app]. by destruct (v <? 0).
Qed.

Lemma digits_are_digits l : Forall (fun c => 48 <= c <= 57) l -> Forall (is_digit 10) l.
Proof.
  intros Hl. eapply Forall_impl; [exact Hl|]. intros c Hc. cbn in Hc. unfold is_digit, digit_of. rewrite (proj2 (andb_false_iff (65 <=? c) _)), (proj2 (andb_false_iff (97 <=? c) _)) by (left; apply Z.leb_gt; lia). rewrite !(proj2 (Z.leb_le _ _)) by lia. cbn [andb]. lia.
Qed.

(** C24. Printing and reading back: [sprintf] with [%ld] followed by [strtol] in base ten gives the number that was printed, for every
    [long], and leaves [errno] alone. *)
Theorem sprintf_strtol_roundtrip cs nb m buf fmt errno v : buf_ok nb -> str m fmt (chars "%ld") -> mapped m buf 22 -> (fmt + 4 <= buf \/ buf + 22 <= fmt) -> - 2 ^ 63 <= v < 2 ^ 63 ->
  wp (do n <- sprintf nb buf fmt [v]; strtol cs errno buf 0 10) (fun r _ => r = (v, errno)) m.
Proof.
  intros Hb Hf Hm Hd Hv. destruct (decimal_spec (Z.abs v) ltac:(lia)) as (Hval & Hdig & Hlen & Hne). set (o := (if v <? 0 then [45] else []) ++ decimal (Z.abs v)). assert (length o <= 21)%nat as Ho by (subst o; rewrite length_app; destruct (v <? 0); cbn [length]; lia).
  wp_step. unfold sprintf, vsprintf. eapply wp_mono; [apply (vsnprintf_wp m buf INT_MAX (len o)) with (l := chars "%ld") (args := [Num v]) (o := o)|].
  - unfold INT_MAX. lia.
  - eapply mapped_le; [exact Hm|lia|]. lia.
  - lia.
  - done.
  - split; [done|]. intros x Hx. cbn in Hx. unfold vsn_region. lia.
  - by apply render_ld.
  - by repeat constructor.
  - lia.
  - intros r m' (-> & Hc & H0 & _). assert (Forall (fun c => 0 < c < 256) o) as Hby. { subst o. apply Forall_app. split; [destruct (v <? 0); repeat constructor; lia|]. eapply Forall_impl; [exact Hdig|]. intros c Hc'. cbn in Hc'. lia. }
    assert (str m' buf o) as Hs. { apply str_intro; [|specialize (H0 ltac:(unfold INT_MAX; lia)); by rewrite Z.min_l in H0 by (unfold INT_MAX; lia)]. intros i c Hi. pose proof (lookup_lt_Some _ _ _ Hi). split; [apply Hc; [done|unfold INT_MAX; lia]|by apply (Forall_lookup_1 _ _ _ _ Hby Hi)]. }
    eapply wp_mono; [apply (strtol_wp cs m' errno buf 0 10 [] (if v <? 0 then [45] else []) (decimal (Z.abs v)) (v <? 0) 10 (decimal (Z.abs v)) (decimal (Z.abs v)) [])|].
    + done.
    + constructor.
    + destruct (v <? 0); [constructor|]. constructor. intros c u E. rewrite E in Hdig. apply Forall_cons_1 in Hdig as [Hc' _]. unfold isspace. rewrite !(proj2 (Z.eqb_neq _ _)) by lia. split; [lia|]. split; [lia|done].
    + apply l_given; lia.
    + split; [by rewrite app_nil_r|]. split; [by apply digits_are_digits|done].
    + by left.
    + intros r m2 [-> _]. rewrite Hval. unfold long_of, long_limit. destruct (Z.ltb_spec v 0); f_equal; try lia; (rewrite (proj2 (Z.ltb_ge _ _)); [done|lia]).
Qed.

Lemma sprintf_strtol_roundtrip_witness : wp (do n <- sprintf (replicate 32 0) 100 10 [-12345]; strtol true 7 100 0 10) (fun r _ => r = (-12345, 7)) (mem_at 10 (chars "%ld" ++ [0]) ∪ mem_at 100 (replicate 22 0)).
Proof. apply sprintf_strtol_roundtrip; [apply zeros_ok|apply is_str_ok; by vm_compute|apply (is_mapped_ok _ _ 22); by vm_compute|lia|lia]. Defined.

(** A number that is printed to the left of its field loses its sign, and a hexadecimal one its mark: the code for fields that are
    filled on the right prints the digits only.  [%-5d] of -3 and [%-#6x] of 255 are printed as 3 and ff. *)
Theorem printf_left_drops_sign : forall nb, render nb (chars "%-5d|%-#6x|") None [Num (-3); Num 255] = Some (chars "3    |ff    |").
Proof. intros nb. by vm_compute. Qed.

(** A fraction that is rounded up to one overwrites the decimal point: [%f] of a number just below one, 0.9999999, is printed as
    01000000. *)
Theorem printf_fraction_carry : render (replicate 32 0) (chars "%f") None [Num 0x3FEFFFFFCA501ACB] = Some (chars "01000000").
Proof. by vm_compute. Qed.
