(* ===== verification/Arm64Mmu.v ===== *)
(** * The page tables of the arm64 port

    [arch/arm64/mmu.c] with the constants of [arch/arm64/mmu.h] and [arch/mmu.h], for pages of 4 KiB and address spaces of 48 bits.
    A page table is a list of 512 descriptors in a map from its virtual address; a read or a write beside a table is a fault, and so is
    one of a table that has been freed.  Tables come from the page allocator of [Pmm]. *)

From stdpp Require Import base gmap list numbers.
From S2P Require Import Prelude Align Pmm.

(** ** Constants *)

Definition BM (base count val : Z) : Z := Z.shiftl (Z.land val (Z.shiftl 1 count - 1)) base.

Definition MMU_KERNEL_SIZE_SHIFT : Z := 48.
Definition MMU_USER_SIZE_SHIFT : Z := 48.
Definition MMU_KERNEL_PAGE_SIZE_SHIFT : Z := PAGE_SIZE_SHIFT.
Definition MMU_USER_PAGE_SIZE_SHIFT : Z := 12.
Definition MMU_LX_X (page_shift level : Z) : Z := (4 - level) * (page_shift - 3) + 3.

Definition top_shift (size_shift page_size_shift : Z) : Z :=
  if size_shift >? MMU_LX_X page_size_shift 0 then MMU_LX_X page_size_shift 0
  else if size_shift >? MMU_LX_X page_size_shift 1 then MMU_LX_X page_size_shift 1
  else if size_shift >? MMU_LX_X page_size_shift 2 then MMU_LX_X page_size_shift 2
  else MMU_LX_X page_size_shift 3.

Definition MMU_USER_TOP_SHIFT : Z := top_shift MMU_USER_SIZE_SHIFT MMU_USER_PAGE_SIZE_SHIFT.
Definition MMU_USER_PAGE_TABLE_ENTRIES_TOP : Z := Z.shiftl 1 (MMU_USER_SIZE_SHIFT - MMU_USER_TOP_SHIFT).
Definition MMU_KERNEL_TOP_SHIFT : Z := top_shift MMU_KERNEL_SIZE_SHIFT MMU_KERNEL_PAGE_SIZE_SHIFT.
Definition MMU_KERNEL_PAGE_TABLE_ENTRIES_TOP : Z := Z.shiftl 1 (MMU_KERNEL_SIZE_SHIFT - MMU_KERNEL_TOP_SHIFT).

Definition MMU_PTE_DESCRIPTOR_BLOCK_MAX_SHIFT : Z := 30.
Definition MMU_PTE_DESCRIPTOR_INVALID : Z := BM 0 2 0.
Definition MMU_PTE_DESCRIPTOR_MASK : Z := BM 0 2 3.
Definition MMU_PTE_L012_DESCRIPTOR_BLOCK : Z := BM 0 2 1.
Definition MMU_PTE_L012_DESCRIPTOR_TABLE : Z := BM 0 2 3.
Definition MMU_PTE_L3_DESCRIPTOR_PAGE : Z := BM 0 2 3.
Definition MMU_PTE_OUTPUT_ADDR_MASK : Z := BM 12 36 0xfffffffff.
Definition MMU_PTE_ATTR_UXN : Z := BM 54 1 1.
Definition MMU_PTE_ATTR_PXN : Z := BM 53 1 1.
Definition MMU_PTE_ATTR_AF : Z := BM 10 1 1.
Definition MMU_PTE_ATTR_SH_INNER_SHAREABLE : Z := BM 8 2 3.
Definition MMU_PTE_ATTR_AP_P_RW_U_NA : Z := BM 6 2 0.
Definition MMU_PTE_ATTR_AP_P_RW_U_RW : Z := BM 6 2 1.
Definition MMU_PTE_ATTR_AP_P_RO_U_NA : Z := BM 6 2 2.
Definition MMU_PTE_ATTR_AP_P_RO_U_RO : Z := BM 6 2 3.
Definition MMU_PTE_ATTR_AP_MASK : Z := BM 6 2 3.
Definition MMU_PTE_ATTR_NON_SECURE : Z := BM 5 1 1.
Definition MMU_PTE_ATTR_ATTR_INDEX (attrindex : Z) : Z := BM 2 3 attrindex.
Definition MMU_PTE_ATTR_ATTR_INDEX_MASK : Z := MMU_PTE_ATTR_ATTR_INDEX 7.
Definition MMU_PTE_ATTR_STRONGLY_ORDERED : Z := MMU_PTE_ATTR_ATTR_INDEX 0.
Definition MMU_PTE_ATTR_DEVICE : Z := MMU_PTE_ATTR_ATTR_INDEX 1.
Definition MMU_PTE_ATTR_NORMAL_MEMORY : Z := MMU_PTE_ATTR_ATTR_INDEX 2.
Definition MMU_TCR_EPD0 : Z := BM 7 1 1.
Definition MMU_TCR_FLAGS_KERNEL : Z := MMU_TCR_EPD0.
Definition MMU_TCR_FLAGS_USER : Z := 0.
Definition MMU_ARM64_GLOBAL_ASID : Z := 2 ^ 32 - 1.
Definition MMU_ARM64_USER_ASID : Z := 0.

Definition ARCH_MMU_FLAG_CACHED : Z := Z.shiftl 0 0.
Definition ARCH_MMU_FLAG_UNCACHED : Z := Z.shiftl 1 0.
Definition ARCH_MMU_FLAG_UNCACHED_DEVICE : Z := Z.shiftl 2 0.
Definition ARCH_MMU_FLAG_CACHE_MASK : Z := Z.shiftl 3 0.
Definition ARCH_MMU_FLAG_PERM_USER : Z := Z.shiftl 1 2.
Definition ARCH_MMU_FLAG_PERM_RO : Z := Z.shiftl 1 3.
Definition ARCH_MMU_FLAG_PERM_NO_EXECUTE : Z := Z.shiftl 1 4.
Definition ARCH_MMU_FLAG_NS : Z := Z.shiftl 1 5.
Definition ARCH_ASPACE_FLAG_KERNEL : Z := Z.shiftl 1 0.
Definition ARCH_ASPACE_MAGIC : Z := 0x41524153.

(** [~0UL << MMU_KERNEL_SIZE_SHIFT] *)
Definition kernel_base : Z := u64 (Z.shiftl (2 ^ 64 - 1) MMU_KERNEL_SIZE_SHIFT).

(** ** State *)

Record arch_aspace := ArchAspace {
  aa_magic : Z;
  aa_tt_phys : Z;
  aa_tt_virt : Z;
  aa_flags : Z;
  aa_base : Z;
  aa_size : Z }.

(** A structure as [calloc] gives it. *)
Definition blank_aspace : arch_aspace := ArchAspace 0 0 0 0 0 0.

(** The [tlbi] instructions, with their operand. *)
Inductive tlbi := VAAE1IS (x : Z) | VAE1IS (x : Z) | ASIDE1 (x : Z).

(** [ms_tlbi] is what has been invalidated so far, the latest first. *)
Record mmu := MmuState {
  ms_pmm : pmm;
  ms_tables : gmap Z (list Z);
  ms_aspaces : gmap nat arch_aspace;
  ms_tlbi : list tlbi;
  ms_ttbr0 : Z;
  ms_tcr : Z }.

Definition set_ms_pmm v s := MmuState v (ms_tables s) (ms_aspaces s) (ms_tlbi s) (ms_ttbr0 s) (ms_tcr s).
Definition set_tables v s := MmuState (ms_pmm s) v (ms_aspaces s) (ms_tlbi s) (ms_ttbr0 s) (ms_tcr s).
Definition set_arch_aspaces v s := MmuState (ms_pmm s) (ms_tables s) v (ms_tlbi s) (ms_ttbr0 s) (ms_tcr s).
Definition set_tlbi v s := MmuState (ms_pmm s) (ms_tables s) (ms_aspaces s) v (ms_ttbr0 s) (ms_tcr s).
Definition set_ttbr0 v s := MmuState (ms_pmm s) (ms_tables s) (ms_aspaces s) (ms_tlbi s) v (ms_tcr s).
Definition set_tcr v s := MmuState (ms_pmm s) (ms_tables s) (ms_aspaces s) (ms_tlbi s) (ms_ttbr0 s) v.

Definition pool {X} (m : M pmm X) : M mmu X :=
  fun s => match m (ms_pmm s) with Done x p => Done x (set_ms_pmm p s) | Fault e => Fault e end.

Definition ARM64_TLBI (op : tlbi) : M mmu unit := modify (fun s => set_tlbi (op :: ms_tlbi s) s).

(** [page_table[index]], read and written. *)
Definition get_pte (page_table index : Z) : M mmu Z :=
  do s <- gets (fun s => s); do t <- deref (ms_tables s !! page_table); deref (if 0 <=? index then t !! Z.to_nat index else None).

Definition set_pte (page_table index pte : Z) : M mmu unit :=
  do _ <- get_pte page_table index;
  modify (fun s => set_tables (alter (insert (Z.to_nat index) pte) page_table (ms_tables s)) s).

(** [BITS_SHIFT(vaddr, 55, 12)] *)
Definition BITS_SHIFT (x high low : Z) : Z := Z.land (Z.shiftr x low) (Z.shiftl 1 (high - low + 1) - 1).

(** ** Flags *)

Definition mmu_flags_to_pte_attr (flags : Z) : Z :=
  let attr := MMU_PTE_ATTR_AF in
  let cache := Z.land flags ARCH_MMU_FLAG_CACHE_MASK in
  let perm := Z.land flags (Z.lor ARCH_MMU_FLAG_PERM_USER ARCH_MMU_FLAG_PERM_RO) in
  match
    (if cache =? ARCH_MMU_FLAG_CACHED then Some (Z.lor attr (Z.lor MMU_PTE_ATTR_NORMAL_MEMORY MMU_PTE_ATTR_SH_INNER_SHAREABLE))
     else if cache =? ARCH_MMU_FLAG_UNCACHED then Some (Z.lor attr MMU_PTE_ATTR_STRONGLY_ORDERED)
     else if cache =? ARCH_MMU_FLAG_UNCACHED_DEVICE then Some (Z.lor attr MMU_PTE_ATTR_DEVICE)
     else None)
  with
  | None => u64 ERR_INVALID_ARGS
  | Some attr =>
      let attr := Z.lor attr
        (if perm =? 0 then MMU_PTE_ATTR_AP_P_RW_U_NA
         else if perm =? ARCH_MMU_FLAG_PERM_RO then MMU_PTE_ATTR_AP_P_RO_U_NA
         else if perm =? ARCH_MMU_FLAG_PERM_USER then MMU_PTE_ATTR_AP_P_RW_U_RW
         else MMU_PTE_ATTR_AP_P_RO_U_RO) in
      let attr := Z.lor attr
        (if negb (Z.land flags ARCH_MMU_FLAG_PERM_NO_EXECUTE =? 0) then Z.lor MMU_PTE_ATTR_UXN MMU_PTE_ATTR_PXN
         else if negb (Z.land flags ARCH_MMU_FLAG_PERM_USER =? 0) then MMU_PTE_ATTR_PXN
         else MMU_PTE_ATTR_UXN) in
      if negb (Z.land flags ARCH_MMU_FLAG_NS =? 0) then Z.lor attr MMU_PTE_ATTR_NON_SECURE else attr
  end.

(** The flags [arch_mmu_query] reads from a descriptor; [None] where it panics. *)
Definition pte_flags (pte : Z) : option Z :=
  let flags := if negb (Z.land pte MMU_PTE_ATTR_NON_SECURE =? 0) then ARCH_MMU_FLAG_NS else 0 in
  let index := Z.land pte MMU_PTE_ATTR_ATTR_INDEX_MASK in
  match
    (if index =? MMU_PTE_ATTR_STRONGLY_ORDERED then Some (Z.lor flags ARCH_MMU_FLAG_UNCACHED)
     else if index =? MMU_PTE_ATTR_DEVICE then Some (Z.lor flags ARCH_MMU_FLAG_UNCACHED_DEVICE)
     else if index =? MMU_PTE_ATTR_NORMAL_MEMORY then Some flags
     else None)
  with
  | None => None
  | Some flags =>
      let ap := Z.land pte MMU_PTE_ATTR_AP_MASK in
      let flags :=
        if ap =? MMU_PTE_ATTR_AP_P_RW_U_NA then flags
        else if ap =? MMU_PTE_ATTR_AP_P_RW_U_RW then Z.lor flags ARCH_MMU_FLAG_PERM_USER
        else if ap =? MMU_PTE_ATTR_AP_P_RO_U_NA then Z.lor flags ARCH_MMU_FLAG_PERM_RO
        else Z.lor flags (Z.lor ARCH_MMU_FLAG_PERM_USER ARCH_MMU_FLAG_PERM_RO) in
      let xn := if negb (Z.land flags ARCH_MMU_FLAG_PERM_USER =? 0) then MMU_PTE_ATTR_UXN else MMU_PTE_ATTR_PXN in
      Some (if negb (Z.land pte xn =? 0) then Z.lor flags ARCH_MMU_FLAG_PERM_NO_EXECUTE else flags)
  end.

(** ** Operations

    [paddr_to_kvaddr] and [vaddr_to_paddr] are the kernel's mapping of its own memory, [ls] the local list of [pmm_free_page], and
    [memalign] and [free] the heap, which serves tables smaller than a page. *)
Section ops.
Context (paddr_to_kvaddr vaddr_to_paddr : Z -> Z) (ls : nat) (memalign : Z -> Z -> M mmu Z) (free : Z -> M mmu unit).
Context (arm64_kernel_translation_table arm64_mmu_tcr_flags : Z).

Definition get_arch_aspace (aspace : nat) : M mmu arch_aspace := do s <- gets (fun s => s); deref (ms_aspaces s !! aspace).

Definition is_valid_vaddr (a : arch_aspace) (vaddr : Z) : bool :=
  (aa_base a <=? vaddr) && (vaddr <=? u64 (aa_base a + aa_size a - 1)).

(** The loop of [arch_mmu_query]: the descriptor found and what is left of the address, or [None] for [ERR_NOT_FOUND]. *)
Fixpoint query_loop (f : nat) (page_table index_shift page_size_shift vaddr_rem : Z) : M mmu (option (Z * Z)) :=
  match f with
  | O => fail OutOfFuel
  | S f =>
      let index := u32 (Z.shiftr vaddr_rem index_shift) in
      let vaddr_rem := u64 (vaddr_rem - u64 (Z.shiftl index index_shift)) in
      do pte <- get_pte page_table index;
      let descriptor_type := Z.land pte MMU_PTE_DESCRIPTOR_MASK in
      if descriptor_type =? MMU_PTE_DESCRIPTOR_INVALID then ret None
      else if descriptor_type =? (if index_shift >? page_size_shift then MMU_PTE_L012_DESCRIPTOR_BLOCK else MMU_PTE_L3_DESCRIPTOR_PAGE) then
        ret (Some (pte, vaddr_rem))
      else if (index_shift <=? page_size_shift) || negb (descriptor_type =? MMU_PTE_L012_DESCRIPTOR_TABLE) then fail Panic
      else
        query_loop f (paddr_to_kvaddr (Z.land pte MMU_PTE_OUTPUT_ADDR_MASK)) (index_shift - (page_size_shift - 3)) page_size_shift vaddr_rem
  end.

(** The status, the physical address and, when the caller asks for them, the flags. *)
Definition arch_mmu_query (aspace : nat) (vaddr : Z) (want_flags : bool) : M mmu (Z * Z * Z) :=
  do a <- get_arch_aspace aspace;
  massert (aa_magic a =? ARCH_ASPACE_MAGIC) ;;
  massert (negb (aa_tt_virt a =? 0)) ;;
  massert (is_valid_vaddr a vaddr) ;;
  if negb (is_valid_vaddr a vaddr) then ret (ERR_OUT_OF_RANGE, 0, 0)
  else
    do ' (index_shift, page_size_shift, vaddr_rem) <-
      (if negb (Z.land (aa_flags a) ARCH_ASPACE_FLAG_KERNEL =? 0) then
         let vaddr_rem := u64 (vaddr - kernel_base) in
         massert (u32 (Z.shiftr vaddr_rem MMU_KERNEL_TOP_SHIFT) <? MMU_KERNEL_PAGE_TABLE_ENTRIES_TOP) ;;
         ret (MMU_KERNEL_TOP_SHIFT, MMU_KERNEL_PAGE_SIZE_SHIFT, vaddr_rem)
       else
         massert (u32 (Z.shiftr vaddr MMU_USER_TOP_SHIFT) <? MMU_USER_PAGE_TABLE_ENTRIES_TOP) ;;
         ret (MMU_USER_TOP_SHIFT, MMU_USER_PAGE_SIZE_SHIFT, vaddr));
    do r <- query_loop 4 (aa_tt_virt a) index_shift page_size_shift vaddr_rem;
    match r with
    | None => ret (ERR_NOT_FOUND, 0, 0)
    | Some (pte, vaddr_rem) =>
        let paddr := u64 (Z.land pte MMU_PTE_OUTPUT_ADDR_MASK + vaddr_rem) in
        if want_flags then match pte_flags pte with Some fl => ret (0, paddr, fl) | None => fail Panic end
        else ret (0, paddr, 0)
    end.

(** The physical address of a new table, [None] when there is no memory. *)
Definition alloc_page_table (page_size_shift : Z) : M mmu (option Z) :=
  let size := Z.shiftl 1 page_size_shift in
  if PAGE_SIZE <=? size then
    let count := size / PAGE_SIZE in
    do ' (n, paddr) <- pool (pmm_alloc_contiguous count PMM_ALLOC_FLAG_KMAP page_size_shift None);
    if negb (n =? count) then ret None else ret paddr
  else
    do vaddr <- memalign size size;
    if vaddr =? 0 then ret None
    else
      let paddr := vaddr_to_paddr vaddr in
      if paddr =? 0 then free vaddr ;; ret None else ret (Some paddr).

Definition free_page_table (vaddr paddr page_size_shift : Z) : M mmu unit :=
  let size := Z.shiftl 1 page_size_shift in
  modify (fun s => set_tables (delete vaddr (ms_tables s)) s) ;;
  if PAGE_SIZE <=? size then
    do page <- pool (paddr_to_vm_page paddr);
    match page with None => fail Panic | Some page => do _ <- pool (pmm_free_page ls page); ret tt end
  else free vaddr.

(** [memset] of a whole table: from here on it can be read and written. *)
Definition clear_table (vaddr page_size_shift : Z) : M mmu unit :=
  modify (fun s => set_tables (<[vaddr := replicate (Z.to_nat (Z.shiftl 1 (page_size_shift - 3))) 0]> (ms_tables s)) s).

(** The next table, 0 for [NULL]. *)
Definition arm64_mmu_get_page_table (index page_size_shift page_table : Z) : M mmu Z :=
  do pte <- get_pte page_table index;
  let type := Z.land pte MMU_PTE_DESCRIPTOR_MASK in
  if type =? MMU_PTE_DESCRIPTOR_INVALID then
    do r <- alloc_page_table page_size_shift;
    match r with
    | None => ret 0
    | Some paddr =>
        let vaddr := paddr_to_kvaddr paddr in
        clear_table vaddr page_size_shift ;;
        set_pte page_table index (Z.lor paddr MMU_PTE_L012_DESCRIPTOR_TABLE) ;;
        ret vaddr
    end
  else if type =? MMU_PTE_L012_DESCRIPTOR_TABLE then ret (paddr_to_kvaddr (Z.land pte MMU_PTE_OUTPUT_ADDR_MASK))
  else if type =? MMU_PTE_L012_DESCRIPTOR_BLOCK then ret 0
  else fail Panic.

Fixpoint clear_from (page_table i : Z) (n : nat) : M mmu bool :=
  match n with
  | O => ret true
  | S n => do pte <- get_pte page_table i; if negb (pte =? MMU_PTE_DESCRIPTOR_INVALID) then ret false else clear_from page_table (i + 1) n
  end.

Definition page_table_is_clear (page_table page_size_shift : Z) : M mmu bool :=
  clear_from page_table 0 (Z.to_nat (Z.shiftl 1 (page_size_shift - 3))).

Fixpoint arm64_mmu_unmap_pt (f : nat) (vaddr vaddr_rel size index_shift page_size_shift page_table asid : Z) : M mmu unit :=
  match f with
  | O => fail OutOfFuel
  | S f =>
      if size =? 0 then ret tt
      else
        let block_size := u64 (Z.shiftl 1 index_shift) in
        let block_mask := block_size - 1 in
        let vaddr_rem := Z.land vaddr_rel block_mask in
        let chunk_size := Z.min size (block_size - vaddr_rem) in
        let index := Z.shiftr vaddr_rel index_shift in
        do pte <- get_pte page_table index;
        (if (index_shift >? page_size_shift) && (Z.land pte MMU_PTE_DESCRIPTOR_MASK =? MMU_PTE_L012_DESCRIPTOR_TABLE) then
           let page_table_paddr := Z.land pte MMU_PTE_OUTPUT_ADDR_MASK in
           let next_page_table := paddr_to_kvaddr page_table_paddr in
           arm64_mmu_unmap_pt f vaddr vaddr_rem chunk_size (index_shift - (page_size_shift - 3)) page_size_shift next_page_table asid ;;
           do clear <- (if chunk_size =? block_size then ret true else page_table_is_clear next_page_table page_size_shift);
           when clear
             (set_pte page_table index MMU_PTE_DESCRIPTOR_INVALID ;;
              free_page_table next_page_table page_table_paddr page_size_shift)
         else if negb (pte =? 0) then
           set_pte page_table index MMU_PTE_DESCRIPTOR_INVALID ;;
           ARM64_TLBI (if asid =? MMU_ARM64_GLOBAL_ASID then VAAE1IS (BITS_SHIFT vaddr 55 12)
                       else VAE1IS (Z.lor (BITS_SHIFT vaddr 55 12) (u64 (Z.shiftl asid 48))))
         else ret tt) ;;
        arm64_mmu_unmap_pt f (u64 (vaddr + chunk_size)) (u64 (vaddr_rel + chunk_size)) (size - chunk_size) index_shift page_size_shift page_table asid
  end.

(** Turns of the loops: 512 descriptors and the end of the loop for each of the four levels. *)
Definition levels_fuel : nat := 4 * 513.

(** Bits below the size of a page. *)
Definition not_page_aligned (vaddr_rel paddr size page_size_shift : Z) : bool :=
  negb (Z.land (Z.lor (Z.lor vaddr_rel paddr) size) (Z.shiftl 1 page_size_shift - 1) =? 0).

(** The loop of [arm64_mmu_map_pt], with the call of the function for the next level. *)
Fixpoint map_loop (f : nat) (vaddr_in vaddr_rel_in size_in : Z) (vaddr vaddr_rel paddr size attrs : Z)
    (index_shift page_size_shift page_table asid : Z) : M mmu Z :=
  match f with
  | O => fail OutOfFuel
  | S f =>
      if size =? 0 then ret 0
      else
        let block_size := u64 (Z.shiftl 1 index_shift) in
        let block_mask := block_size - 1 in
        let vaddr_rem := Z.land vaddr_rel block_mask in
        let chunk_size := Z.min size (block_size - vaddr_rem) in
        let index := Z.shiftr vaddr_rel index_shift in
        let err :=
          arm64_mmu_unmap_pt levels_fuel vaddr_in vaddr_rel_in (size_in - size) index_shift page_size_shift page_table asid ;;
          ret ERR_GENERIC in
        let next := map_loop f vaddr_in vaddr_rel_in size_in (u64 (vaddr + chunk_size)) (u64 (vaddr_rel + chunk_size)) (u64 (paddr + chunk_size))
          (size - chunk_size) attrs index_shift page_size_shift page_table asid in
        if negb (Z.land (Z.lor vaddr_rel paddr) block_mask =? 0) || negb (chunk_size =? block_size) ||
           (index_shift >? MMU_PTE_DESCRIPTOR_BLOCK_MAX_SHIFT) then
          do next_page_table <- arm64_mmu_get_page_table index page_size_shift page_table;
          if next_page_table =? 0 then err
          else
            do r <- (if not_page_aligned vaddr_rem paddr chunk_size page_size_shift then ret ERR_INVALID_ARGS
                     else map_loop f vaddr vaddr_rem chunk_size vaddr vaddr_rem paddr chunk_size attrs
                            (index_shift - (page_size_shift - 3)) page_size_shift next_page_table asid);
            if negb (r =? 0) then err else next
        else
          do pte <- get_pte page_table index;
          if negb (pte =? 0) then err
          else
            set_pte page_table index
              (Z.lor (Z.lor paddr attrs) (if index_shift >? page_size_shift then MMU_PTE_L012_DESCRIPTOR_BLOCK else MMU_PTE_L3_DESCRIPTOR_PAGE)) ;;
            next
  end.

Definition arm64_mmu_map_pt (vaddr vaddr_rel paddr size attrs index_shift page_size_shift page_table asid : Z) : M mmu Z :=
  if not_page_aligned vaddr_rel paddr size page_size_shift then ret ERR_INVALID_ARGS
  else map_loop levels_fuel vaddr vaddr_rel size vaddr vaddr_rel paddr size attrs index_shift page_size_shift page_table asid.

Definition arm64_mmu_map (vaddr paddr size attrs vaddr_base top_size_shift top_index_shift page_size_shift top_page_table asid : Z) : M mmu Z :=
  let vaddr_rel := u64 (vaddr - vaddr_base) in
  let vaddr_rel_max := u64 (Z.shiftl 1 top_size_shift) in
  if (vaddr_rel >? u64 (vaddr_rel_max - size)) || (size >? vaddr_rel_max) then ret ERR_INVALID_ARGS
  else if top_page_table =? 0 then ret ERR_INVALID_ARGS
  else arm64_mmu_map_pt vaddr vaddr_rel paddr size attrs top_index_shift page_size_shift top_page_table asid.

Definition arm64_mmu_unmap (vaddr size vaddr_base top_size_shift top_index_shift page_size_shift top_page_table asid : Z) : M mmu Z :=
  let vaddr_rel := u64 (vaddr - vaddr_base) in
  let vaddr_rel_max := u64 (Z.shiftl 1 top_size_shift) in
  if (vaddr_rel >? u64 (vaddr_rel_max - size)) || (size >? vaddr_rel_max) then ret ERR_INVALID_ARGS
  else if top_page_table =? 0 then ret ERR_INVALID_ARGS
  else arm64_mmu_unmap_pt levels_fuel vaddr vaddr_rel size top_index_shift page_size_shift top_page_table asid ;; ret 0.

Definition arch_mmu_map (aspace : nat) (vaddr paddr count flags : Z) : M mmu Z :=
  do a <- get_arch_aspace aspace;
  massert (aa_magic a =? ARCH_ASPACE_MAGIC) ;;
  massert (negb (aa_tt_virt a =? 0)) ;;
  massert (is_valid_vaddr a vaddr) ;;
  if negb (is_valid_vaddr a vaddr) then ret ERR_OUT_OF_RANGE
  else
    massert (IS_PAGE_ALIGNED vaddr) ;;
    massert (IS_PAGE_ALIGNED paddr) ;;
    if negb (IS_PAGE_ALIGNED vaddr) || negb (IS_PAGE_ALIGNED paddr) then ret ERR_INVALID_ARGS
    else if count =? 0 then ret NO_ERROR
    else if negb (Z.land (aa_flags a) ARCH_ASPACE_FLAG_KERNEL =? 0) then
      arm64_mmu_map vaddr paddr (u64 (count * PAGE_SIZE)) (mmu_flags_to_pte_attr flags) kernel_base MMU_KERNEL_SIZE_SHIFT
        MMU_KERNEL_TOP_SHIFT MMU_KERNEL_PAGE_SIZE_SHIFT (aa_tt_virt a) MMU_ARM64_GLOBAL_ASID
    else
      arm64_mmu_map vaddr paddr (u64 (count * PAGE_SIZE)) (mmu_flags_to_pte_attr flags) 0 MMU_USER_SIZE_SHIFT
        MMU_USER_TOP_SHIFT MMU_USER_PAGE_SIZE_SHIFT (aa_tt_virt a) MMU_ARM64_USER_ASID.

Definition arch_mmu_unmap (aspace : nat) (vaddr count : Z) : M mmu Z :=
  do a <- get_arch_aspace aspace;
  massert (aa_magic a =? ARCH_ASPACE_MAGIC) ;;
  massert (negb (aa_tt_virt a =? 0)) ;;
  massert (is_valid_vaddr a vaddr) ;;
  if negb (is_valid_vaddr a vaddr) then ret ERR_OUT_OF_RANGE
  else
    massert (IS_PAGE_ALIGNED vaddr) ;;
    if negb (IS_PAGE_ALIGNED vaddr) then ret ERR_INVALID_ARGS
    else if negb (Z.land (aa_flags a) ARCH_ASPACE_FLAG_KERNEL =? 0) then
      arm64_mmu_unmap vaddr (u64 (count * PAGE_SIZE)) kernel_base MMU_KERNEL_SIZE_SHIFT
        MMU_KERNEL_TOP_SHIFT MMU_KERNEL_PAGE_SIZE_SHIFT (aa_tt_virt a) MMU_ARM64_GLOBAL_ASID
    else
      arm64_mmu_unmap vaddr (u64 (count * PAGE_SIZE)) 0 MMU_USER_SIZE_SHIFT
        MMU_USER_TOP_SHIFT MMU_USER_PAGE_SIZE_SHIFT (aa_tt_virt a) MMU_ARM64_USER_ASID.

Definition set_arch_aspace (aspace : nat) (a : arch_aspace) : M mmu unit := modify (fun s => set_arch_aspaces (<[aspace := a]> (ms_aspaces s)) s).

(** [aspace] is a structure that has been cleared or destroyed. *)
Definition arch_mmu_init_aspace (aspace : nat) (base size flags : Z) : M mmu Z :=
  do s <- gets (fun s => s);
  let a := default blank_aspace (ms_aspaces s !! aspace) in
  massert (negb (aa_magic a =? ARCH_ASPACE_MAGIC)) ;;
  massert (size >? PAGE_SIZE) ;;
  massert (u64 (base + size - 1) >? base) ;;
  if negb (Z.land flags ARCH_ASPACE_FLAG_KERNEL =? 0) then
    massert (base =? kernel_base) ;;
    massert (size =? u64 (Z.shiftl 1 MMU_KERNEL_SIZE_SHIFT)) ;;
    set_arch_aspace aspace (ArchAspace ARCH_ASPACE_MAGIC (vaddr_to_paddr arm64_kernel_translation_table) arm64_kernel_translation_table flags base size) ;;
    ret NO_ERROR
  else
    massert (u64 (base + size) <=? u64 (Z.shiftl 1 MMU_USER_SIZE_SHIFT)) ;;
    do va <- pool (pmm_alloc_kpages paddr_to_kvaddr 1 None);
    if va =? 0 then set_arch_aspace aspace (ArchAspace ARCH_ASPACE_MAGIC (aa_tt_phys a) (aa_tt_virt a) flags base size) ;; ret ERR_NO_MEMORY
    else
      set_arch_aspace aspace (ArchAspace ARCH_ASPACE_MAGIC (vaddr_to_paddr va) va flags base size) ;;
      clear_table va PAGE_SIZE_SHIFT ;;
      ret NO_ERROR.

Definition arch_mmu_destroy_aspace (aspace : nat) : M mmu Z :=
  do a <- get_arch_aspace aspace;
  massert (aa_magic a =? ARCH_ASPACE_MAGIC) ;;
  massert (Z.land (aa_flags a) ARCH_ASPACE_FLAG_KERNEL =? 0) ;;
  do page <- pool (paddr_to_vm_page (aa_tt_phys a));
  massert (bool_decide (is_Some page)) ;;
  do page <- deref page;
  modify (fun s => set_tables (delete (aa_tt_virt a) (ms_tables s)) s) ;;
  do _ <- pool (pmm_free_page ls page);
  set_arch_aspace aspace (ArchAspace 0 (aa_tt_phys a) (aa_tt_virt a) (aa_flags a) (aa_base a) (aa_size a)) ;;
  ret NO_ERROR.

(** [None] unloads the user's address space. *)
Definition arch_mmu_context_switch (aspace : option nat) : M mmu unit :=
  let tcr := arm64_mmu_tcr_flags in
  do tcr <-
    match aspace with
    | Some asp =>
        do a <- get_arch_aspace asp;
        massert (aa_magic a =? ARCH_ASPACE_MAGIC) ;;
        massert (Z.land (aa_flags a) ARCH_ASPACE_FLAG_KERNEL =? 0) ;;
        modify (set_ttbr0 (Z.lor (Z.shiftl MMU_ARM64_USER_ASID 48) (aa_tt_phys a))) ;;
        ARM64_TLBI (ASIDE1 (Z.shiftl MMU_ARM64_USER_ASID 48)) ;;
        ret (Z.lor tcr MMU_TCR_FLAGS_USER)
    | None => ret (Z.lor tcr MMU_TCR_FLAGS_KERNEL)
    end;
  modify (set_tcr tcr).
End ops.
