(* ===== verification/Arm64Spec.v ===== *)
(** * The promises of the arm64 page tables

    The tables below a root are a tree.  [look] is the walk of the hardware over it; mapping and unmapping are exact on it, a mapping that
    fails changes nothing, and every descriptor that is taken away is invalidated. *)

From stdpp Require Import base gmap list numbers.
From S2P Require Import Prelude Align Pmm Arm64Mmu.

(** ** Trees *)

Inductive tree := Node (es : list entry)
with entry := Word (w : Z) | Sub (p : Z) (t : tree).

Definition entries (t : tree) : list entry := let 'Node es := t in es.

(** The descriptor of an entry; [p] is the physical address of a table. *)
Definition word (e : entry) : Z := match e with Word w => w | Sub p _ => Z.lor p 3 end.

(** Level 0 has the pages.  An entry of level [k] stands for [bs k] bytes. *)
Definition sh (k : nat) : Z := 12 + 9 * Z.of_nat k.
Definition bs (k : nat) : Z := 2 ^ sh k.

Definition empty_table : tree := Node (replicate 512 (Word 0)).

(** The descriptor that translates an address and the size of what it translates. *)
Fixpoint look (k : nat) (t : tree) (x : Z) : option (Z * Z) :=
  match entries t !! Z.to_nat (x / bs k) with
  | Some (Word w) => if w =? 0 then None else Some (w, bs k)
  | Some (Sub p t) => match k with O => None | S k' => look k' t (x mod bs k) end
  | None => None
  end.

(** The physical addresses of the tables below the root. *)
Fixpoint phys (k : nat) (t : tree) : list Z :=
  match k with
  | O => []
  | S k => entries t ≫= (fun e => match e with Word _ => [] | Sub p t => p :: phys k t end)
  end.

Definition good_word (k : nat) (w : Z) : Prop := w = 0 \/ 0 <= w < 2 ^ 64 /\ Z.land w 3 = match k with O => 3 | S _ => 1 end.
Definition good_page (p : Z) : Prop := 0 <= p < 2 ^ 48 /\ (4096 | p).

(** *** Unmapping, on trees *)

(** What a range has of entry [i]: where it starts and how long it is. *)
Definition part_lo (k : nat) (rel : Z) (i : nat) : Z := Z.max (rel - Z.of_nat i * bs k) 0.
Definition part_len (k : nat) (rel size : Z) (i : nat) : Z := Z.min (rel + size - Z.of_nat i * bs k) (bs k) - part_lo k rel i.

Definition is_clear (t : tree) : bool := forallb (fun e => word e =? 0) (entries t).

Fixpoint unmap_tree (k : nat) (t : tree) (rel size : Z) : tree :=
  Node (imap (fun i e =>
    let n := part_len k rel size i in
    if n <=? 0 then e
    else match e, k with
      | Sub p t, S k' =>
          let t' := unmap_tree k' t (part_lo k rel i) n in
          if (n =? bs k) || is_clear t' then Word 0 else Sub p t'
      | _, _ => Word 0
      end) (entries t)).

(** The effect of unmapping on a translation: a descriptor goes when the range touches what it translates. *)
Definition touched (rel size x b : Z) : bool := Z.max rel (x / b * b) <? Z.min (rel + size) (x / b * b + b).
Definition cut_out (rel size x : Z) (o : option (Z * Z)) : option (Z * Z) :=
  match o with Some (w, b) => if touched rel size x b then None else Some (w, b) | None => None end.

Lemma bs_pos k : 4096 <= bs k.
Proof. unfold bs, sh. apply (Z.pow_le_mono_r 2 12). lia. lia. Qed.

Lemma bs_S k : bs (S k) = 512 * bs k.
Proof. unfold bs, sh. replace (12 + 9 * Z.of_nat (S k)) with (9 + (12 + 9 * Z.of_nat k)) by lia. rewrite Z.pow_add_r by lia. done. Qed.

Lemma bs_le k : (k <= 3)%nat -> bs k <= 2 ^ 39.
Proof. intros H. unfold bs, sh. apply Z.pow_le_mono_r; lia. Qed.

Lemma bs_divide j k : (j <= k)%nat -> (bs j | bs k).
Proof. intros H. unfold bs, sh. exists (2 ^ (9 * (Z.of_nat k - Z.of_nat j))). rewrite <- Z.pow_add_r by lia. f_equal. lia. Qed.

Lemma lookup_table (t : tree) k x : length (entries t) = 512%nat -> 0 <= x < 512 * bs k -> exists e, entries t !! Z.to_nat (x / bs k) = Some e.
Proof.
  intros Hl Hx. apply lookup_lt_is_Some_2. rewrite Hl. pose proof (bs_pos k).
  assert (0 <= x / bs k < 512); [|lia]. split; [apply Z.div_pos; lia|apply Z.div_lt_upper_bound; lia].
Qed.

Fixpoint shape (k : nat) (t : tree) : Prop :=
  length (entries t) = 512%nat /\
  forall i e, entries t !! i = Some e ->
    match e with
    | Word w => good_word k w
    | Sub p t => match k with O => False | S k => good_page p /\ shape k t end
    end.

Lemma shape_length k t : shape k t -> length (entries t) = 512%nat.
Proof. destruct k; by intros [? _]. Qed.

Lemma shape_entry k t i e : shape k t -> entries t !! i = Some e ->
  match e with Word w => good_word k w | Sub p t => match k with O => False | S k => good_page p /\ shape k t end end.
Proof. destruct k; intros [_ H]; apply H. Qed.

Lemma shape_intro k es : length es = 512%nat ->
  (forall i e, es !! i = Some e -> match e with Word w => good_word k w | Sub p t => match k with O => False | S k => good_page p /\ shape k t end end) -> shape k (Node es).
Proof. destruct k; by split. Qed.

Lemma shape_insert k es i e : shape k (Node es) -> 
  match e with Word w => good_word k w | Sub p t => match k with O => False | S k => good_page p /\ shape k t end end -> shape k (Node (<[i := e]> es)).
Proof.
  intros Hs He. apply shape_intro; [rewrite length_insert; by apply shape_length in Hs|]. intros j e' [(-> & -> & _)|(_ & H)]%list_lookup_insert_Some; [done|].
  by apply (shape_entry k (Node es) j).
Qed.

Lemma shape_empty k : shape k empty_table.
Proof. apply shape_intro; [done|]. intros i e [-> _]%lookup_replicate. by left. Qed.

Lemma div_block x b B : 0 < b -> (b | B) -> 0 < B -> x / b * b = x / B * B + (x mod B) / b * b.
Proof.
  intros Hb [q ->] HB. assert (0 < q) by nia. rewrite (Z.div_mod x (q * b)) at 1 by lia. replace (q * b * (x / (q * b)) + x mod (q * b)) with ((x / (q * b) * q) * b + x mod (q * b)) by ring.
  rewrite Z.div_add_l by lia. ring.
Qed.

Lemma block_in x b B : 0 < b -> (b | B) -> 0 < B -> 0 <= x < B -> 0 <= x / b * b /\ x / b * b + b <= B /\ x / b * b <= x < x / b * b + b.
Proof.
  intros Hb [q ->] HB Hx. pose proof (Z.div_mod x b ltac:(lia)). pose proof (Z.mod_pos_bound x b Hb). assert (0 <= x / b) by (apply Z.div_pos; lia).
  assert (x / b < q) by (apply Z.div_lt_upper_bound; lia). nia.
Qed.

(** A descriptor translates a block that is aligned inside its table. *)
Lemma look_block k : forall t x w b, look k t x = Some (w, b) -> w <> 0 /\ exists j, (j <= k)%nat /\ b = bs j.
Proof.
  induction k as [|k IH]; intros t x w b; cbn [look].
  - destruct (entries t !! _) as [[w'|p t']|]; [|done|done]. destruct (Z.eqb_spec w' 0); [done|]. intros [= <- <-]. split; [done|]. by exists 0%nat.
  - destruct (entries t !! _) as [[w'|p t']|]; [|intros H; destruct (IH _ _ _ _ H) as (? & j & ? & ->); split; [done|exists j; split; [lia|done]]|done].
    destruct (Z.eqb_spec w' 0); [done|]. intros [= <- <-]. split; [done|]. by exists (S k).
Qed.

Lemma look_clear k t x : is_clear t = true -> (forall p t', Sub p t' ∈ entries t -> 0 <= p) -> look k t x = None.
Proof.
  unfold is_clear. rewrite forallb_forall. intros H Hp. destruct k; cbn [look]; destruct (entries t !! _) as [e|] eqn:E; try done; apply list_elem_of_lookup_2 in E; specialize (H e (proj1 (list_elem_of_In _ _) E));
    destruct e as [w|p t']; cbn in H; try (by rewrite H); apply Z.eqb_eq, Z.lor_eq_0_iff in H; lia.
Qed.

(** A range and a block, seen from the entry that holds the block. *)
Lemma touched_part k rel size x b : (b | bs k) -> 0 < b -> 0 <= x ->
  touched rel size x b = touched (part_lo k rel (Z.to_nat (x / bs k))) (part_len k rel size (Z.to_nat (x / bs k))) (x mod bs k) b.
Proof.
  intros Hd Hb Hx. pose proof (bs_pos k). unfold touched, part_len, part_lo. rewrite (div_block x b (bs k)) by (done || lia).
  rewrite Z2Nat.id by (apply Z.div_pos; lia). pose proof (Z.mod_pos_bound x (bs k) ltac:(lia)) as Hm. destruct (block_in (x mod bs k) b (bs k) Hb Hd ltac:(lia) Hm) as (H1 & H2 & _).
  set (q := x / bs k) in *. set (y := (x mod bs k) / b * b) in *. apply eq_bool_prop_intro. rewrite !Is_true_true, !Z.ltb_lt. lia.
Qed.

Lemma touched_entry k rel size x : 0 <= x -> touched rel size x (bs k) = (0 <? part_len k rel size (Z.to_nat (x / bs k))).
Proof.
  intros Hx. pose proof (bs_pos k). unfold touched, part_len, part_lo. rewrite Z2Nat.id by (apply Z.div_pos; lia). set (q := x / bs k).
  apply eq_bool_prop_intro. rewrite !Is_true_true, !Z.ltb_lt. lia.
Qed.

Lemma touched_inside rel size x b B : touched rel size x b = true -> 0 < b -> (b | B) -> 0 < B -> touched rel size x B = true.
Proof.
  unfold touched. rewrite !Z.ltb_lt. intros H Hb Hd HB. rewrite (div_block x b B) in H by done. pose proof (Z.mod_pos_bound x B HB) as Hm. destruct (block_in (x mod B) b B Hb Hd HB Hm) as (H1 & H2 & _). lia.
Qed.

Lemma cut_out_part k rel size x o : (forall w b, o = Some (w, b) -> (b | bs k) /\ 0 < b) -> 0 <= x ->
  cut_out rel size x o = cut_out (part_lo k rel (Z.to_nat (x / bs k))) (part_len k rel size (Z.to_nat (x / bs k))) (x mod bs k) o.
Proof. intros Ho Hx. destruct o as [[w b]|]; [|done]. destruct (Ho w b eq_refl) as [H1 H2]. cbn. by rewrite (touched_part k) by done. Qed.

Lemma look_divides k t x w b K : look k t x = Some (w, b) -> (k <= K)%nat -> (b | bs K) /\ 0 < b.
Proof. intros (_ & j & Hj & ->)%look_block HK. split; [apply bs_divide; lia|pose proof (bs_pos j); lia]. Qed.

Lemma sub_nonneg k t p t' : shape k t -> Sub p t' ∈ entries t -> 0 <= p.
Proof. intros Hs [i Hi]%list_elem_of_lookup. pose proof (shape_entry k t i _ Hs Hi) as H. cbn in H. destruct k; [done|]. destruct H as [[H _] _]. lia. Qed.

Lemma unmap_shape k : forall t rel size, shape k t -> shape k (unmap_tree k t rel size).
Proof.
  induction k as [|k IH]; intros t rel size Hs; (apply shape_intro; [rewrite length_imap; by apply shape_length in Hs|]); intros i e;
    rewrite list_lookup_imap; intros (e0 & He & ->)%fmap_Some; pose proof (shape_entry _ t i e0 Hs He) as Hsh; cbv beta zeta; destruct (_ <=? 0); try done; (destruct e0 as [w|p t']; [by left|]); try by left.
  destruct Hsh as [Hp Hs']. destruct (_ || _); [by left|]. split; [done|]. by apply IH.
Qed.

(** Unmapping takes away what the range touches and nothing else. *)
Lemma unmap_look k : forall t rel size x, shape k t -> 0 <= x < 512 * bs k ->
  look k (unmap_tree k t rel size) x = cut_out rel size x (look k t x).
Proof.
  induction k as [|k IH]; intros t rel size x Hs Hx; (destruct (lookup_table t _ x (shape_length _ t Hs) Hx) as [e He]); pose proof (shape_entry _ t _ e Hs He) as Hsh; cbn [look unmap_tree entries];
    rewrite list_lookup_imap, He; cbn [fmap option_fmap option_map]; match goal with |- context [?n <=? 0] => destruct (Z.leb_spec n 0) as [Hn|Hn] end.
  - destruct e as [w|]; [|done]. destruct (w =? 0); [done|]. cbn. rewrite touched_entry by lia. by rewrite (proj2 (Z.ltb_ge _ _)) by lia.
  - destruct e as [w|]; [|done]. cbn. destruct (w =? 0); [done|]. cbn. rewrite touched_entry by lia. by rewrite (proj2 (Z.ltb_lt _ _)) by lia.
  - destruct e as [w|p t'].
    + destruct (w =? 0); [done|]. cbn [cut_out]. rewrite touched_entry by lia. by rewrite (proj2 (Z.ltb_ge _ _)) by lia.
    + destruct (look k t' _) as [[w b]|] eqn:E; [|done]. cbn. destruct (look_divides k t' _ w b (S k) E ltac:(lia)) as [Hd Hb].
      destruct (touched rel size x b) eqn:Et; [|done]. pose proof (bs_pos (S k)). apply (touched_inside _ _ _ _ (bs (S k))) in Et; [|done|done|lia]. rewrite touched_entry in Et by lia. apply Z.ltb_lt in Et. lia.
  - destruct e as [w|p t'].
    + cbn. destruct (w =? 0); [done|]. cbn [cut_out]. rewrite touched_entry by lia. by rewrite (proj2 (Z.ltb_lt _ _)) by lia.
    + destruct Hsh as [Hp Hs']. pose proof (bs_pos (S k)). pose proof (Z.mod_pos_bound x (bs (S k)) ltac:(lia)) as Hm.
      assert (look k (unmap_tree k t' (part_lo (S k) rel (Z.to_nat (x / bs (S k)))) (part_len (S k) rel size (Z.to_nat (x / bs (S k))))) (x mod bs (S k)) = cut_out rel size x (look k t' (x mod bs (S k)))) as E.
      { rewrite IH by (done || rewrite <- bs_S; lia). symmetry. apply cut_out_part; [|lia]. intros w b Hl. apply (look_divides k t' _ w b (S k) Hl). lia. }
      destruct (_ || _) eqn:Ec; [|done]. cbn. rewrite <- E. symmetry. apply orb_prop in Ec as [Ec%Z.eqb_eq|Ec].
      * rewrite IH by (done || rewrite <- bs_S; lia). destruct (look k t' _) as [[w b]|] eqn:El; [|done]. cbn. destruct (look_divides k t' _ w b (S k) El ltac:(lia)) as [Hd Hb].
        rewrite <- touched_part by (done || lia). unfold touched, part_len, part_lo in *. rewrite Z2Nat.id in Ec by (apply Z.div_pos; lia).
        rewrite (div_block x b (bs (S k))) by (done || lia). destruct (block_in (x mod bs (S k)) b (bs (S k)) Hb Hd ltac:(lia) Hm) as (H1 & H2 & _). rewrite (proj2 (Z.ltb_lt _ _)); [done|lia].
      * apply look_clear; [done|]. intros q t0 Hq. eapply (sub_nonneg k); [by apply unmap_shape|done].
Qed.

(** The entry a range leaves behind. *)
Definition unmap_entry (k : nat) (e : entry) (lo n : Z) : entry :=
  match e, k with
  | Sub p t, S k' => let t' := unmap_tree k' t lo n in if (n =? bs k) || is_clear t' then Word 0 else Sub p t'
  | _, _ => Word 0
  end.

Lemma unmap_tree_eq k t rel size : unmap_tree k t rel size =
  Node (imap (fun i e => if part_len k rel size i <=? 0 then e else unmap_entry k e (part_lo k rel i) (part_len k rel size i)) (entries t)).
Proof. destruct k; done. Qed.

Lemma unmap_nothing k t rel size : size <= 0 -> unmap_tree k t rel size = t.
Proof.
  intros Hs. rewrite unmap_tree_eq. destruct t as [es]. f_equal. apply list_eq. intros i. rewrite list_lookup_imap. cbn [entries]. destruct (es !! i); [|done]. cbn. f_equal.
  rewrite (proj2 (Z.leb_le _ _)); [done|]. unfold part_len, part_lo. lia.
Qed.

Lemma rem_bounds k rel : 0 <= rel mod bs k < bs k /\ rel = rel / bs k * bs k + rel mod bs k.
Proof. pose proof (bs_pos k). split; [apply Z.mod_pos_bound; lia|]. pose proof (Z.div_mod rel (bs k) ltac:(lia)). lia. Qed.

(** One turn of the loop. *)
Lemma unmap_step k es rel size e : 0 <= rel -> 0 < size -> es !! Z.to_nat (rel / bs k) = Some e ->
  let chunk := Z.min size (bs k - rel mod bs k) in
  unmap_tree k (Node (<[Z.to_nat (rel / bs k) := unmap_entry k e (rel mod bs k) chunk]> es)) (rel + chunk) (size - chunk) = unmap_tree k (Node es) rel size.
Proof.
  intros Hr Hs He chunk. destruct (rem_bounds k rel) as [Hm Hq]. assert (0 <= rel / bs k) as Hq0 by (apply Z.div_pos; lia). set (q := rel / bs k) in *. pose proof (bs_pos k).
  rewrite !unmap_tree_eq. f_equal. apply list_eq. intros j. rewrite !list_lookup_imap. cbn [entries]. destruct (decide (j = Z.to_nat q)) as [->|Hne].
  - rewrite list_lookup_insert_eq by (by eapply lookup_lt_Some). rewrite He. cbn. f_equal.
    rewrite (proj2 (Z.leb_le (part_len k (rel + chunk) _ _) 0)) by (unfold part_len, part_lo; lia).
    rewrite (proj2 (Z.leb_gt (part_len k rel size _) 0)) by (unfold part_len, part_lo; lia).
    f_equal; unfold part_len, part_lo; lia.
  - rewrite list_lookup_insert_ne by done. destruct (es !! j); [|done]. cbn. f_equal. destruct (decide (j < Z.to_nat q)%nat).
    + rewrite !(proj2 (Z.leb_le _ 0)) by (unfold part_len, part_lo; nia). done.
    + assert (Z.of_nat j * bs k >= q * bs k + bs k) by nia.
      assert (part_lo k (rel + chunk) j = part_lo k rel j) as -> by (unfold part_lo; lia).
      assert (part_len k (rel + chunk) (size - chunk) j = part_len k rel size j) as ->; [|done]. unfold part_len, part_lo. lia.
Qed.

(** ** The tables in memory *)

(** The kernel's mapping of its memory, the address of [arm64_kernel_translation_table], the list that [pmm_free_page] uses, and the heap. *)
Class KernelMap := {
  kv : Z -> Z;
  v2p : Z -> Z;
  ktt : Z;
  free_list : nat;
  heap_memalign : Z -> Z -> M mmu Z;
  heap_free : Z -> M mmu unit }.

Section tables.
Context {KM : KernelMap}.
Implicit Types (m : gmap Z (list Z)) (T : gset Z) (s : mmu) (pm : pmm).

Fixpoint rep (k : nat) (pt : Z) (t : tree) m : Prop :=
  m !! pt = Some (word <$> entries t) /\
  match k with O => True | S k => forall i p t', entries t !! i = Some (Sub p t') -> rep k (kv p) t' m end.

(** What the page tables need of the page allocator; [T] has the physical addresses of the pages it has given them. *)
Class TableSource := {
  src_ok : pmm -> gset Z -> Prop;
  src_room : pmm -> Z;
  src_room_pos : forall pm, 0 <= src_room pm;
  src_alloc : forall pm T, src_ok pm T ->
    wp (pmm_alloc_contiguous 1 PMM_ALLOC_FLAG_KMAP 12 None) (fun r pm' =>
      (r = (0, None) /\ pm' = pm /\ src_room pm = 0) \/
      exists p, r = (1, Some p) /\ good_page p /\ p ∉ T /\ src_ok pm' ({[p]} ∪ T) /\ src_room pm' = src_room pm - 1) pm;
  src_kpage : forall pm T, src_ok pm T ->
    wp (pmm_alloc_kpages kv 1 None) (fun v pm' =>
      (v = 0 /\ pm' = pm /\ src_room pm = 0) \/
      exists p, v = kv p /\ v2p v = p /\ good_page p /\ p ∉ T /\ src_ok pm' ({[p]} ∪ T) /\ src_room pm' = src_room pm - 1) pm;
  src_page : forall pm T p, src_ok pm T -> p ∈ T -> wp (paddr_to_vm_page p) (fun r pm' => pm' = pm /\ exists page, r = Some page /\
    wp (pmm_free_page free_list page) (fun _ pm' => src_ok pm' (T ∖ {[p]}) /\ src_room pm' = src_room pm + 1) pm) pm;
  src_addr : forall pm T p, src_ok pm T -> p ∈ T -> kv p <> 0 /\ kv p <> ktt;
  src_inj : forall pm T p q, src_ok pm T -> p ∈ T -> q ∈ T -> kv p = kv q -> p = q }.

Lemma rep_root k pt t m : rep k pt t m -> m !! pt = Some (word <$> entries t).
Proof. destruct k; by intros [? _]. Qed.

Lemma phys_sub k t i p t' : entries t !! i = Some (Sub p t') -> p ∈ phys (S k) t /\ forall q, q ∈ phys k t' -> q ∈ phys (S k) t.
Proof.
  intros H%list_elem_of_lookup_2. cbn [phys]. split; [|intros q Hq]; apply list_elem_of_bind; exists (Sub p t'); (split; [|done]); cbn; set_solver.
Qed.

Lemma rep_frame k : forall pt t m m', rep k pt t m -> m' !! pt = m !! pt -> (forall p, p ∈ phys k t -> m' !! kv p = m !! kv p) -> rep k pt t m'.
Proof.
  induction k as [|k IH]; intros pt t m m' Hr Hpt Hp; (split; [rewrite Hpt; by apply rep_root in Hr|]); [done|].
  intros i p t' He. destruct (phys_sub k t i p t' He) as [H1 H2]. destruct Hr as [_ Hr]. apply (IH _ _ m); [by apply (Hr i)|by apply Hp|]. intros q Hq. by apply Hp, H2.
Qed.

(** The tables of one entry, and of the others. *)
Definition ptables (k : nat) (e : entry) : list Z := match e with Word _ => [] | Sub p t => p :: phys k t end.
Definition others (k : nat) (es : list entry) (i : nat) : list Z := phys (S k) (Node (take i es ++ drop (S i) es)).

Lemma phys_split k es i e : es !! i = Some e -> phys (S k) (Node es) ≡ₚ ptables k e ++ others k es i.
Proof.
  intros He. rewrite <- (take_drop_middle es i e He) at 1. unfold others. cbn [phys entries]. rewrite !bind_app. cbn [mbind list_bind].
  rewrite (Permutation_app_comm (take i es ≫= _)), <- app_assoc. apply Permutation_app_head. apply Permutation_app_comm.
Qed.

Lemma phys_insert k es i e : (i < length es)%nat -> phys (S k) (Node (<[i := e]> es)) ≡ₚ ptables k e ++ others k es i.
Proof.
  intros Hi. rewrite (phys_split k _ i e) by (by apply list_lookup_insert_eq). unfold others. rewrite take_insert_ge by lia. by rewrite drop_insert_lt by lia.
Qed.

Context {SRC : TableSource}.

(** A table that is not below the root in question: the kernel's own, or in a page of [T]. *)
Definition rooted T (pt : Z) : Prop := pt = ktt \/ exists q, q ∈ T /\ pt = kv q.

(** The tree [t] is below the table [pt], and its tables are not in [T]. *)
Record at_tree (k : nat) (pt : Z) (t : tree) T s : Prop := {
  at_src : src_ok (ms_pmm s) (T ∪ list_to_set (phys k t));
  at_rep : rep k pt t (ms_tables s);
  at_nodup : NoDup (phys k t);
  at_apart : forall p, p ∈ phys k t -> p ∉ T;
  at_root : rooted T pt;
  at_shape : shape k t }.

(** Nothing has happened to the tables in [T] but [pt], nor to the rest of the state. *)
Record keeps (pt : Z) T s s' : Prop := {
  kp_tables : forall x, rooted T x -> x <> pt -> ms_tables s' !! x = ms_tables s !! x;
  kp_aspaces : ms_aspaces s' = ms_aspaces s;
  kp_ttbr0 : ms_ttbr0 s' = ms_ttbr0 s;
  kp_tcr : ms_tcr s' = ms_tcr s }.

Lemma keeps_tables_refl pt T s : keeps pt T s s.
Proof. done. Qed.

Lemma keeps_tables_trans pt T s1 s2 s3 : keeps pt T s1 s2 -> keeps pt T s2 s3 -> keeps pt T s1 s3.
Proof. intros [A1 B1 C1 D1] [A2 B2 C2 D2]. split; [|congruence..]. intros x Hx Hn. rewrite A2, A1 by done. done. Qed.

Lemma at_src_in k pt t T s p : at_tree k pt t T s -> p ∈ phys k t -> p ∈ T ∪ list_to_set (phys k t).
Proof. intros _ Hp. set_solver. Qed.

Lemma root_ne k pt t T s p x : at_tree k pt t T s -> p ∈ phys k t -> rooted T x -> kv p <> x.
Proof.
  intros H Hp Hx E. pose proof (at_src_in _ _ _ _ _ _ H Hp) as Hin. destruct Hx as [->|(q & Hq & ->)]; [by destruct (src_addr _ _ _ (at_src _ _ _ _ _ H) Hin)|].
  apply (src_inj _ _ _ _ (at_src _ _ _ _ _ H)) in E as ->; [|done|set_solver]. by apply (at_apart _ _ _ _ _ H q).
Qed.

Lemma sub_inj k pt t T s p q : at_tree k pt t T s -> p ∈ phys k t -> q ∈ phys k t -> kv p = kv q -> p = q.
Proof. intros H Hp Hq. apply (src_inj _ _ _ _ (at_src _ _ _ _ _ H)); set_solver. Qed.

(** *** Reading and writing descriptors *)

Lemma get_pte_wp k pt t T s i e Q : at_tree k pt t T s -> 0 <= i -> entries t !! Z.to_nat i = Some e -> Q (word e) s -> wp (get_pte pt i) Q s.
Proof.
  intros H Hi He HQ. unfold get_pte. do 2 wp_step. wp_step. wp_step; [by eapply rep_root, (at_rep _ _ _ _ _ H)|]. eapply wp_deref; [|exact HQ].
  rewrite (proj2 (Z.leb_le 0 i)) by done. by rewrite list_lookup_fmap, He.
Qed.

Definition put_pte (pt : Z) (i : nat) (w : Z) s : mmu := set_tables (alter (insert i w) pt (ms_tables s)) s.

Lemma set_pte_wp k pt t T s i e w Q : at_tree k pt t T s -> 0 <= i -> entries t !! Z.to_nat i = Some e -> Q tt (put_pte pt (Z.to_nat i) w s) -> wp (set_pte pt i w) Q s.
Proof. intros H Hi He HQ. unfold set_pte. wp_step. eapply get_pte_wp; [done..|]. by wp_step. Qed.

Lemma keeps_tables_put pt T i w s : keeps pt T s (put_pte pt i w s).
Proof. split; try done. intros x _ Hx. cbn. by rewrite lookup_alter_ne by done. Qed.

(** The table [pt] after one descriptor has been written, the tables below in place. *)
Lemma rep_put k pt es i e m m' : rep k pt (Node es) m -> m' !! pt = Some (<[i := word e]> (word <$> es)) ->
  match e with Word _ => True | Sub p t => match k with O => True | S k => rep k (kv p) t m' end end ->
  (forall j p t, j <> i -> es !! j = Some (Sub p t) -> match k with O => True | S k => rep k (kv p) t m' end) -> rep k pt (Node (<[i := e]> es)) m'.
Proof.
  intros Hr Hpt He Ho. destruct k as [|k]; (split; [rewrite Hpt; f_equal; cbn [entries]; by rewrite list_fmap_insert|]); [done|].
  intros j p t' Hj. cbn [entries] in Hj. apply list_lookup_insert_Some in Hj as [(-> & -> & _)|(Hne & Hj)]; [done|]. by apply (Ho j).
Qed.

(** A tree below another entry is not touched by what happens to the tables of entry [i]. *)
Lemma others_elem k es i j p t : j <> i -> es !! j = Some (Sub p t) -> p ∈ others k es i /\ forall q, q ∈ phys k t -> q ∈ others k es i.
Proof.
  intros Hne Hj. assert (Sub p t ∈ take i es ++ drop (S i) es) as Hin.
  { apply elem_of_app. destruct (decide (j < i)%nat); [left|right]; apply list_elem_of_lookup; [exists j; by rewrite lookup_take_lt|exists (j - S i)%nat; rewrite lookup_drop; rewrite <- Hj; f_equal; lia]. }
  apply list_elem_of_lookup in Hin as [n Hn]. exact (phys_sub k (Node _) n p t Hn).
Qed.

Lemma at_word k pt es T s i w w' : at_tree k pt (Node es) T s -> es !! i = Some (Word w) -> good_word k w' ->
  at_tree k pt (Node (<[i := Word w']> es)) T (put_pte pt i w' s).
Proof.
  intros H Hi Hw. pose proof H as [H1 H2 H3 H4 H5 H6]. assert (i < length es)%nat as Hlt by (by eapply lookup_lt_Some).
  assert (phys k (Node (<[i := Word w']> es)) ≡ₚ phys k (Node es)) as Ep. { destruct k; [done|]. by rewrite phys_insert, (phys_split k es i (Word w)) by done. }
  split; try done.
  - cbn [ms_pmm put_pte set_tables]. by rewrite Ep.
  - apply (rep_put k pt es i (Word w') (ms_tables s)); [done| |done|].
    + cbn. rewrite lookup_alter_eq. by rewrite (rep_root _ _ _ _ H2).
    + intros j p t Hne Hj. destruct k as [|k]; [done|]. destruct (phys_sub k (Node es) j p t Hj) as [Hp Hq]. destruct H2 as [_ H2].
      apply (rep_frame k _ _ (ms_tables s)); [by apply (H2 j)| |intros q Hq']; cbn; rewrite lookup_alter_ne; [done| |done|]; apply not_eq_sym; eapply root_ne; eauto.
  - by rewrite Ep.
  - intros p. rewrite Ep. apply H4.
  - by apply shape_insert.
Qed.

Lemma src_ok_eq pm T T' : src_ok pm T -> (forall x, x ∈ T <-> x ∈ T') -> src_ok pm T'.
Proof. intros H E. replace T' with T; [done|]. by apply set_eq. Qed.

(** Going down into entry [i], and coming back. *)
Definition below (k : nat) T es (i : nat) (p : Z) : gset Z := T ∪ {[p]} ∪ list_to_set (others k es i).

Lemma at_enter k pt es T s i p t : at_tree (S k) pt (Node es) T s -> es !! i = Some (Sub p t) -> at_tree k (kv p) t (below k T es i p) s.
Proof.
  intros [H1 H2 H3 H4 H5 H6] Hi. pose proof (phys_split k es i _ Hi) as Ep. cbn [ptables] in Ep. rewrite Ep in H1, H3. apply list.NoDup_cons in H3 as [Hp H3]. apply list.NoDup_app in H3 as (N1 & N2 & N3).
  split.
  - apply (src_ok_eq _ _ _ H1). intros x. unfold below. rewrite !elem_of_union, !elem_of_list_to_set, elem_of_app, elem_of_cons, elem_of_singleton. tauto.
  - destruct H2 as [_ H2]. by apply (H2 i).
  - done.
  - intros q Hq. unfold below. rewrite !elem_of_union, elem_of_singleton, elem_of_list_to_set. intros [[Hq'| ->]|Hq'].
    + apply (H4 q); [rewrite Ep; set_solver|done].
    + apply Hp. set_solver.
    + by apply (N2 q).
  - right. exists p. split; [unfold below; set_solver|done].
  - apply (shape_entry (S k) (Node es) i _ H6 Hi).
Qed.

Lemma at_leave k pt es T s s' i p t t' : at_tree (S k) pt (Node es) T s -> es !! i = Some (Sub p t) -> keeps (kv p) (below k T es i p) s s' ->
  at_tree k (kv p) t' (below k T es i p) s' -> at_tree (S k) pt (Node (<[i := Sub p t']> es)) T s' /\ keeps pt T s s'.
Proof.
  intros H Hi Hk H'. pose proof H as [H1 H2 H3 H4 H5 H6]. destruct H' as [G1 G2 G3 G4 G5 G6]. assert (i < length es)%nat as Hlt by (by eapply lookup_lt_Some).
  pose proof (phys_split k es i _ Hi) as Ep. pose proof (phys_insert k es i (Sub p t') Hlt) as Ep'. cbn [ptables] in Ep, Ep'.
  assert (forall x, rooted T x -> rooted (below k T es i p) x) as Hroot. { intros x [->|(q & Hq & ->)]; [by left|right]. exists q. split; [unfold below; set_solver|done]. }
  assert (p ∈ phys (S k) (Node es)) as Hpin by (rewrite Ep; set_solver).
  assert (forall x, rooted T x -> ms_tables s' !! x = ms_tables s !! x) as Hsame. { intros x Hx. apply (kp_tables _ _ _ _ Hk); [by apply Hroot|]. intros ->. by eapply (root_ne (S k)) in Hx. }
  rewrite Ep in H3. apply list.NoDup_cons in H3 as [Hp H3]. apply list.NoDup_app in H3 as (N1 & N2 & N3). split.
  - split.
    + rewrite Ep'. apply (src_ok_eq _ _ _ G1). intros x. unfold below. rewrite !elem_of_union, !elem_of_list_to_set, elem_of_app, elem_of_cons, elem_of_singleton. tauto.
    + apply (rep_put (S k) pt es i (Sub p t') (ms_tables s)); [done| |done|].
      * rewrite (Hsame pt) by done. rewrite (rep_root _ _ _ _ H2). cbn [entries]. f_equal. symmetry. apply list_insert_id. rewrite list_lookup_fmap, Hi. done.
      * intros j q tj Hne Hj. destruct (others_elem k es i j q tj Hne Hj) as [O1 O2]. destruct H2 as [_ H2].
        assert (forall r, r ∈ others k es i -> ms_tables s' !! kv r = ms_tables s !! kv r) as Ho.
        { intros r Hr. apply (kp_tables _ _ _ _ Hk); [right; exists r; split; [unfold below; set_solver|done]|]. intros E. apply (sub_inj _ _ _ _ _ _ _ H) in E as ->; [|rewrite Ep; set_solver|done]. apply Hp. set_solver. }
        apply (rep_frame k _ _ (ms_tables s)); [by apply (H2 j)|by apply Ho|]. intros r Hr. by apply Ho, O2.
    + rewrite Ep'. cbn. apply list.NoDup_cons. split; [rewrite elem_of_app; intros [Hx|Hx]; [apply (G4 p Hx); unfold below; set_solver|apply Hp; set_solver]|].
      apply list.NoDup_app. split; [done|]. split; [|done]. intros q Hq Hq'. apply (G4 q Hq). unfold below. set_solver.
    + intros q. rewrite Ep', elem_of_app, elem_of_cons. intros [[->|Hq]|Hq]; [by apply H4| |apply H4; rewrite Ep; set_solver]. intros Hx. apply (G4 q Hq). unfold below. set_solver.
    + done.
    + apply shape_insert; [done|]. split; [|done]. apply (shape_entry (S k) (Node es) i _ H6 Hi).
  - split; try apply Hk. intros x Hx _. by apply Hsame.
Qed.

(** *** Clearing and freeing tables *)

Lemma pool_wp {X} (c : M pmm X) Q s : wp c (fun x p => Q x (set_ms_pmm p s)) (ms_pmm s) -> wp (pool c) Q s.
Proof. unfold wp, pool. by destruct (c (ms_pmm s)). Qed.

Lemma clear_phys k t : shape k t -> is_clear t = true -> phys k t = [].
Proof.
  intros Hs Hc. destruct k as [|k]; [done|]. unfold is_clear in Hc. rewrite forallb_forall in Hc. cbn [phys]. destruct (entries t ≫= _) as [|q l] eqn:E; [done|].
  assert (q ∈ entries t ≫= (fun e => match e with Word _ => [] | Sub p t => p :: phys k t end)) as Hq by (rewrite E; set_solver +).
  apply list_elem_of_bind in Hq as (e & Hq & He). destruct e as [w|p t']; [set_solver|]. pose proof (sub_nonneg (S k) t p t' Hs He). apply list_elem_of_In in He. apply Hc in He. cbn in He. apply Z.eqb_eq, Z.lor_eq_0_iff in He. lia.
Qed.

Lemma clear_from_wp k pt t T s n : forall i, at_tree k pt t T s -> 0 <= i -> (Z.to_nat i + n = 512)%nat ->
  wp (clear_from pt i n) (fun b s' => b = forallb (fun e => word e =? 0) (drop (Z.to_nat i) (entries t)) /\ s' = s) s.
Proof.
  induction n as [|n IH]; intros i H Hi Hn; cbn [clear_from]; pose proof (shape_length _ _ (at_shape _ _ _ _ _ H)) as Hl.
  - wp_step. by rewrite drop_ge by lia.
  - destruct (lookup_lt_is_Some_2 (entries t) (Z.to_nat i) ltac:(lia)) as [e He]. wp_step. eapply get_pte_wp; [done..|]. rewrite (drop_S _ _ _ He). cbn [forallb]. change MMU_PTE_DESCRIPTOR_INVALID with 0.
    destruct (word e =? 0); cbn [negb andb]; [|by wp_step]. eapply wp_mono; [apply IH; [done|lia..]|]. intros b s' [-> ->]. by replace (Z.to_nat (i + 1)) with (S (Z.to_nat i)) by lia.
Qed.

Lemma is_clear_wp k pt t T s : at_tree k pt t T s -> wp (page_table_is_clear pt 12) (fun b s' => b = is_clear t /\ s' = s) s.
Proof. intros H. apply (clear_from_wp k pt t T s 512 0); [done|lia|done]. Qed.

Lemma free_table_wp T p s : src_ok (ms_pmm s) T -> p ∈ T ->
  wp (free_page_table free_list heap_free (kv p) p 12) (fun _ s' => src_ok (ms_pmm s') (T ∖ {[p]}) /\ src_room (ms_pmm s') = src_room (ms_pmm s) + 1 /\
    s' = set_ms_pmm (ms_pmm s') (set_tables (delete (kv p) (ms_tables s)) s)) s.
Proof.
  intros Hs Hp. unfold free_page_table. wp_step. wp_step. change (PAGE_SIZE <=? Z.shiftl 1 12) with true. cbn iota. wp_step. apply pool_wp. eapply wp_mono; [by apply src_page|].
  intros r pm' (-> & page & -> & Hw). wp_step. apply pool_wp. eapply wp_mono; [exact Hw|]. intros n pm' [H1 H2]. by wp_step.
Qed.

(** An entry whose table is clear is taken away, and the table freed. *)
Lemma at_free_wp k pt es T s i p t : at_tree (S k) pt (Node es) T s -> es !! Z.to_nat i = Some (Sub p t) -> 0 <= i -> is_clear t = true ->
  wp (set_pte pt i MMU_PTE_DESCRIPTOR_INVALID ;; free_page_table free_list heap_free (kv p) p 12) (fun _ s' =>
    at_tree (S k) pt (Node (<[Z.to_nat i := Word 0]> es)) T s' /\ keeps pt T s s' /\ ms_tlbi s' = ms_tlbi s /\ src_room (ms_pmm s) <= src_room (ms_pmm s')) s.
Proof.
  intros H Hi H0 Hc. pose proof H as [H1 H2 H3 H4 H5 H6]. assert (Z.to_nat i < length es)%nat as Hlt by (by eapply lookup_lt_Some).
  destruct (shape_entry (S k) (Node es) _ _ H6 Hi) as [_ Hst]. pose proof (phys_split k es _ _ Hi) as Ep. cbn [ptables] in Ep. rewrite (clear_phys k t Hst Hc) in Ep.
  pose proof (phys_insert k es _ (Word 0) Hlt) as Ep'. cbn [ptables app] in Ep'. rewrite Ep in H3. apply list.NoDup_cons in H3 as [Hp H3].
  assert (p ∈ phys (S k) (Node es)) as Hpin by (rewrite Ep; set_solver +).
  wp_step. eapply set_pte_wp; [done..|]. eapply wp_mono; [apply (free_table_wp (T ∪ list_to_set (phys (S k) (Node es)))); [done|set_solver]|].
  intros _ s' (G1 & G2 & ->). cbn [ms_pmm set_ms_pmm] in *. split; [|split; [|split; [done|cbn; cbn in G2; lia]]].
  - split; try done.
    + cbn [ms_pmm set_ms_pmm]. apply (src_ok_eq _ _ _ G1). intros x. rewrite elem_of_difference, !elem_of_union, !elem_of_list_to_set, Ep, Ep', elem_of_app, elem_of_singleton, list_elem_of_singleton.
      split; [tauto|]. intros [Hx|Hx]; (split; [tauto|]); intros ->; [by apply (H4 p)|done].
    + apply (rep_put (S k) pt es _ (Word 0) (ms_tables s)); [done| |done|].
      * cbn. rewrite lookup_delete_ne by (by eapply root_ne). rewrite lookup_alter_eq. by rewrite (rep_root _ _ _ _ H2).
      * intros j q tj Hne Hj. destruct (others_elem k es _ j q tj Hne Hj) as [O1 O2]. destruct H2 as [_ H2].
        assert (forall r, r ∈ others k es (Z.to_nat i) -> delete (kv p) (alter (insert (Z.to_nat i) MMU_PTE_DESCRIPTOR_INVALID) pt (ms_tables s)) !! kv r = ms_tables s !! kv r) as Ho.
        { intros r Hr. assert (r ∈ phys (S k) (Node es)) by (rewrite Ep; set_solver +Hr). rewrite lookup_delete_ne by (intros E; apply (sub_inj _ _ _ _ _ _ _ H) in E as ->; done).
          apply lookup_alter_ne. apply not_eq_sym. by eapply root_ne. }
        apply (rep_frame k _ _ (ms_tables s)); [by apply (H2 j)|by apply Ho|]. intros r Hr. by apply Ho, O2.
    + by rewrite Ep'.
    + intros q. rewrite Ep'. intros Hq. apply H4. rewrite Ep. set_solver +Hq.
    + apply shape_insert; [done|by left].
  - split; try done. intros x Hx Hne. cbn. rewrite lookup_delete_ne by (by eapply root_ne). by rewrite lookup_alter_ne by done.
Qed.

(** ** Unmapping *)

Definition inval (asid v : Z) : tlbi :=
  if asid =? MMU_ARM64_GLOBAL_ASID then VAAE1IS (BITS_SHIFT v 55 12) else VAE1IS (Z.lor (BITS_SHIFT v 55 12) (u64 (Z.shiftl asid 48))).

(** Every descriptor that the range takes away has been invalidated, by an address that it translates. *)
Definition flushed (k : nat) (t : tree) (asid va rel size : Z) (l : list tlbi) : Prop :=
  forall x w b, 0 <= x < 512 * bs k -> look k t x = Some (w, b) -> touched rel size x b = true ->
    exists y, rel <= y < rel + size /\ y / b = x / b /\ inval asid (u64 (va + (y - rel))) ∈ l.

Record unmapped (k : nat) (pt : Z) (t : tree) T (asid va rel size : Z) (t' : tree) s s' : Prop := {
  um_at : at_tree k pt t' T s';
  um_keeps : keeps pt T s s';
  um_room : src_room (ms_pmm s) <= src_room (ms_pmm s');
  um_log : exists l, ms_tlbi s' = l ++ ms_tlbi s /\ flushed k t asid va rel size l }.

(** Turns of the loops from here on. *)
Definition turns (k : nat) (rel size : Z) : Z := 513 * Z.of_nat k + if size <=? 0 then 1 else (rel + size - 1) / bs k - rel / bs k + 2.

Lemma land_block k x : 0 <= x -> (k <= 3)%nat -> Z.land x (u64 (Z.shiftl 1 (sh k)) - 1) = x mod bs k /\ u64 (Z.shiftl 1 (sh k)) = bs k /\ Z.shiftr x (sh k) = x / bs k.
Proof.
  intros Hx Hk. pose proof (bs_le k Hk). pose proof (bs_pos k). assert (u64 (Z.shiftl 1 (sh k)) = bs k) as E by (rewrite Z.shiftl_1_l; apply u64_small; unfold bs in *; lia).
  rewrite E. split_and!; [|done|unfold bs; apply Z.shiftr_div_pow2; unfold sh; lia]. replace (bs k - 1) with (Z.ones (sh k)) by (rewrite Z.ones_equiv; unfold bs; lia). apply Z.land_ones. unfold sh. lia.
Qed.

(** The part of the loop that deals with one entry. *)
Definition unmap_one (f : nat) (vaddr vaddr_rem chunk_size block_size index pte : Z) (k : nat) (page_table asid : Z) : M mmu unit :=
  if (sh k >? 12) && (Z.land pte MMU_PTE_DESCRIPTOR_MASK =? MMU_PTE_L012_DESCRIPTOR_TABLE) then
    let page_table_paddr := Z.land pte MMU_PTE_OUTPUT_ADDR_MASK in
    let next_page_table := kv page_table_paddr in
    arm64_mmu_unmap_pt kv free_list heap_free f vaddr vaddr_rem chunk_size (sh k - (12 - 3)) 12 next_page_table asid ;;
    do clear <- (if chunk_size =? block_size then ret true else page_table_is_clear next_page_table 12);
    when clear (set_pte page_table index MMU_PTE_DESCRIPTOR_INVALID ;; free_page_table free_list heap_free next_page_table page_table_paddr 12)
  else if negb (pte =? 0) then
    set_pte page_table index MMU_PTE_DESCRIPTOR_INVALID ;; ARM64_TLBI (inval asid vaddr)
  else ret tt.

Lemma sub_word p : good_page p -> Z.land (Z.lor p 3) MMU_PTE_DESCRIPTOR_MASK = 3 /\ Z.land (Z.lor p 3) MMU_PTE_OUTPUT_ADDR_MASK = p.
Proof.
  intros [Hp [q ->]]. change MMU_PTE_DESCRIPTOR_MASK with (Z.ones 2). change MMU_PTE_OUTPUT_ADDR_MASK with (Z.shiftl (Z.ones 36) 12). split.
  - rewrite Z.land_lor_distr_l, Z.land_ones by lia. replace (q * 4096) with (q * 1024 * 2 ^ 2) by lia. by rewrite Z.mod_mul.
  - change 4096 with (2 ^ 12) in *. rewrite <- Z.shiftl_mul_pow2 in * by lia. rewrite Z.land_lor_distr_l, <- Z.shiftl_land, Z.land_ones by lia. change (Z.land 3 _) with 0. rewrite Z.lor_0_r. f_equal.
    apply Z.mod_small. rewrite Z.shiftl_mul_pow2 in Hp by lia. lia.
Qed.

Lemma sh_gt k : (sh k >? 12) = match k with O => false | S _ => true end.
Proof. rewrite Z.gtb_ltb. destruct k; [done|]. apply Z.ltb_lt. unfold sh. lia. Qed.

Lemma full_clear k : forall t, shape k t -> is_clear (unmap_tree k t 0 (512 * bs k)) = true.
Proof.
  intros t Hs. unfold is_clear. rewrite forallb_forall. intros e He%list_elem_of_In. apply list_elem_of_lookup in He as [i Hi]. rewrite unmap_tree_eq in Hi. cbn [entries] in Hi. rewrite list_lookup_imap in Hi.
  apply fmap_Some in Hi as (e0 & He & ->). pose proof (shape_length k t Hs) as Hl. apply lookup_lt_Some in He as Hlt. pose proof (bs_pos k).
  assert (part_len k 0 (512 * bs k) i = bs k) as -> by (unfold part_len, part_lo; nia). rewrite (proj2 (Z.leb_gt (bs k) 0)) by lia. unfold unmap_entry. destruct e0; [done|]. destruct k; [done|]. cbv zeta. by rewrite Z.eqb_refl.
Qed.

(** A block below an entry of level [k], seen from that entry. *)
Lemma same_block x y b B : 0 < b -> (b | B) -> 0 < B -> (x / B * B + y) / b = x / b <-> y / b = (x mod B) / b.
Proof.
  intros Hb [q ->] HB. rewrite (Z.div_mod x (q * b)) at 2 by lia. replace (q * b * (x / (q * b)) + x mod (q * b)) with (x / (q * b) * q * b + x mod (q * b)) by ring.
  replace (x / (q * b) * (q * b) + y) with (x / (q * b) * q * b + y) by ring. rewrite !Z.div_add_l by lia. lia.
Qed.

(** The same for one entry, which the range leaves as [e']. *)
Definition flushed_entry (k : nat) (es : list entry) (asid va rel size i : Z) (l : list tlbi) : Prop :=
  forall x w b, 0 <= x < 512 * bs k -> x / bs k = i -> look k (Node es) x = Some (w, b) -> touched rel size x b = true ->
    exists y, rel <= y < rel + Z.min size (bs k - rel mod bs k) /\ y / b = x / b /\ inval asid (u64 (va + (y - rel))) ∈ l.

Record unmapped_one (k : nat) (pt : Z) (es : list entry) T (asid va rel size i : Z) (e' : entry) s s' : Prop := {
  uo_at : at_tree k pt (Node (<[Z.to_nat i := e']> es)) T s';
  uo_keeps : keeps pt T s s';
  uo_room : src_room (ms_pmm s) <= src_room (ms_pmm s');
  uo_log : exists l, ms_tlbi s' = l ++ ms_tlbi s /\ flushed_entry k es asid va rel size i l }.

Lemma part_here k rel size i : 0 <= rel -> i = rel / bs k -> part_lo k rel (Z.to_nat i) = rel mod bs k /\ part_len k rel size (Z.to_nat i) = Z.min size (bs k - rel mod bs k).
Proof.
  intros Hr ->. pose proof (bs_pos k). destruct (rem_bounds k rel) as [Hm Hq]. assert (0 <= rel / bs k) by (apply Z.div_pos; lia). unfold part_len, part_lo. rewrite Z2Nat.id by lia. lia.
Qed.

(** What was invalidated below entry [i]. *)
Lemma flushed_up k es i p t asid va rel size l : 0 <= rel -> i = rel / bs (S k) -> es !! Z.to_nat i = Some (Sub p t) ->
  flushed k t asid va (rel mod bs (S k)) (Z.min size (bs (S k) - rel mod bs (S k))) l -> flushed_entry (S k) es asid va rel size i l.
Proof.
  intros Hr Hi He Hl x w b Hx Ex El Et. pose proof (bs_pos (S k)). destruct (rem_bounds (S k) rel) as [Hm Hq]. cbn [look entries] in El. rewrite Ex, He in El.
  destruct (look_divides k t _ w b (S k) El ltac:(lia)) as [Hd Hb]. pose proof (Z.mod_pos_bound x (bs (S k)) ltac:(lia)). rewrite (touched_part (S k)), Ex in Et by (done || lia).
  destruct (part_here (S k) rel size i Hr Hi) as [E1 E2]. rewrite E1, E2 in Et. destruct (Hl (x mod bs (S k)) w b ltac:(rewrite <- bs_S; lia) El Et) as (y & Hy1 & Hy2 & Hy3).
  exists (i * bs (S k) + y). split; [lia|]. split; [rewrite <- Ex; apply same_block; done || lia|]. by replace (i * bs (S k) + y - rel) with (y - rel mod bs (S k)) by lia.
Qed.

Lemma unmap_word_wp k pt es T s i w rel size asid va : at_tree k pt (Node es) T s -> 0 <= rel -> 0 < size -> 0 <= va < 2 ^ 64 -> i = rel / bs k -> es !! Z.to_nat i = Some (Word w) ->
  wp (if negb (w =? 0) then set_pte pt i MMU_PTE_DESCRIPTOR_INVALID ;; ARM64_TLBI (inval asid va) else ret tt) (fun _ => unmapped_one k pt es T asid va rel size i (Word 0) s) s.
Proof.
  intros H Hr Hs Hva Hi He. pose proof (bs_pos k). destruct (rem_bounds k rel) as [Hm Hq]. assert (0 <= i) as Hi0 by (subst i; apply Z.div_pos; lia).
  assert (forall x w' b, x / bs k = i -> look k (Node es) x = Some (w', b) -> w <> 0 /\ b = bs k) as Hlk. { intros x w' b Ex El. destruct k; cbn [look entries] in El; rewrite Ex, He in El; destruct (Z.eqb_spec w 0); naive_solver. }
  destruct (Z.eqb_spec w 0) as [->|Hw]; cbn [negb].
  - wp_step. split; [by rewrite list_insert_id|done|lia|]. exists []. split; [done|]. intros x w b _ Ex El. by destruct (Hlk x w b Ex El).
  - wp_step. eapply set_pte_wp; [done..|]. unfold ARM64_TLBI. wp_step. pose proof (at_word k pt es T s _ w 0 H He ltac:(by left)) as [A1 A2 A3 A4 A5 A6]. destruct (keeps_tables_put pt T (Z.to_nat i) 0 s) as [K1 K2 K3 K4].
    split; [done|done|cbn; lia|]. exists [inval asid va]. split; [done|]. intros x w' b Hxr Ex El _. destruct (Hlk x w' b Ex El) as [_ ->].
    exists rel. split; [lia|]. split; [congruence|]. rewrite Z.sub_diag, Z.add_0_r, u64_small by lia. set_solver +.
Qed.

(** After the tables below an entry have been dealt with, it goes if they are clear. *)
Lemma unmap_sub_wp k pt es T s0 s i p t asid va rel size (clear : bool) : unmapped_one (S k) pt es T asid va rel size i (Sub p t) s0 s -> 0 <= i -> (Z.to_nat i < length es)%nat -> (clear = true -> is_clear t = true) ->
  wp (when clear (set_pte pt i MMU_PTE_DESCRIPTOR_INVALID ;; free_page_table free_list heap_free (kv p) p 12)) (fun _ => unmapped_one (S k) pt es T asid va rel size i (if clear then Word 0 else Sub p t) s0) s.
Proof.
  intros [U1 U2 U3 (l & El & Hl)] Hi Hlt Hc. destruct clear; cbn [when]; [|wp_step; split; [done..|by exists l]].
  eapply wp_mono; [apply (at_free_wp k pt (<[Z.to_nat i := Sub p t]> es) T s i p t); [done|by apply list_lookup_insert_eq|done|by apply Hc]|].
  intros _ s2 (F1 & F2 & F3 & F4). rewrite list_insert_insert_eq in F1. split; [done|by eapply keeps_tables_trans|lia|]. exists l. split; [congruence|done].
Qed.

Lemma unmap_one_wp f va k pt es T s i e rel size asid (Hrec : forall k' pt' t' T' s', (S k' = k)%nat -> at_tree k' pt' t' T' s' ->
    wp (arm64_mmu_unmap_pt kv free_list heap_free f va (rel mod bs k) (Z.min size (bs k - rel mod bs k)) (sh k') 12 pt' asid)
      (fun _ s'' => unmapped k' pt' t' T' asid va (rel mod bs k) (Z.min size (bs k - rel mod bs k)) (unmap_tree k' t' (rel mod bs k) (Z.min size (bs k - rel mod bs k))) s' s'') s') :
  at_tree k pt (Node es) T s -> 0 <= rel -> 0 < size -> 0 <= va < 2 ^ 64 -> i = rel / bs k -> es !! Z.to_nat i = Some e ->
  let chunk := Z.min size (bs k - rel mod bs k) in
  wp (unmap_one f va (rel mod bs k) chunk (bs k) i (word e) k pt asid) (fun _ => unmapped_one k pt es T asid va rel size i (unmap_entry k e (rel mod bs k) chunk) s) s.
Proof.
  intros H Hr Hs Hva Hi He chunk. pose proof (bs_pos k). destruct (rem_bounds k rel) as [Hm Hq]. assert (0 <= i) as Hi0 by (subst i; apply Z.div_pos; lia).
  pose proof (shape_entry k (Node es) _ e (at_shape _ _ _ _ _ H) He) as Hsh. unfold unmap_one. rewrite sh_gt. destruct e as [w|p t]; cbn [word].
  - replace (_ && _) with false. 2:{ destruct k; [done|]. destruct Hsh as [->|[_ E]]; [done|]. change MMU_PTE_DESCRIPTOR_MASK with 3. by rewrite E. }
    assert (unmap_entry k (Word w) (rel mod bs k) chunk = Word 0) as -> by (by destruct k). eapply wp_mono; [by apply (unmap_word_wp k pt es T s i w rel size asid va)|]. done.
  - destruct k as [|k]; [done|]. destruct Hsh as [Hp Hst]. destruct (sub_word p Hp) as [-> ->]. change (true && (3 =? MMU_PTE_L012_DESCRIPTOR_TABLE)) with true. cbn iota zeta.
    replace (sh (S k) - (12 - 3)) with (sh k) by (unfold sh; lia). wp_step. eapply wp_mono; [apply (Hrec k (kv p) t (below k T es (Z.to_nat i) p)); [done|by apply (at_enter k pt)]|]. cbv beta. fold chunk. intros _ s1 [U1 U2 U3 (l & El & Hl)].
    destruct (at_leave k pt es T s s1 _ p t _ H He U2 U1) as [L1 L2]. cbn [unmap_entry]. set (t' := unmap_tree k t _ _) in *.
    assert (unmapped_one (S k) pt es T asid va rel size i (Sub p t') s s1) as Hu by (split; [done..|]; exists l; split; [done|by apply (flushed_up k es i p t)]).
    assert (Z.to_nat i < length es)%nat as Hlt by (by eapply lookup_lt_Some). wp_step. destruct (Z.eqb_spec chunk (bs (S k))) as [Ec|Ec].
    + wp_step. eapply wp_mono; [apply (unmap_sub_wp k pt es T s s1 i p t' asid va rel size true); try done|done]. intros _. unfold t'. replace (rel mod bs (S k)) with 0 by lia. rewrite Ec, bs_S. by apply full_clear.
    + eapply wp_mono; [exact (is_clear_wp k (kv p) t' _ s1 U1)|]. cbv beta. intros clear s' [-> ->]. eapply wp_mono; [by apply (unmap_sub_wp k pt es T s s1 i p t' asid va rel size (is_clear t'))|]. done.
Qed.

Lemma turns_next k rel size : 0 <= rel -> 0 < size -> let chunk := Z.min size (bs k - rel mod bs k) in turns k (rel + chunk) (size - chunk) + 1 <= turns k rel size.
Proof.
  intros Hr Hs chunk. pose proof (bs_pos k). destruct (rem_bounds k rel) as [Hm Hq]. unfold turns. rewrite (proj2 (Z.leb_gt size 0)) by lia. destruct (Z.leb_spec (size - chunk) 0).
  - assert (rel / bs k <= (rel + size - 1) / bs k) by (apply Z.div_le_mono; lia). lia.
  - replace (rel + chunk + (size - chunk) - 1) with (rel + size - 1) by lia. replace (rel + chunk) with ((rel / bs k + 1) * bs k) by lia. rewrite Z.div_mul by lia. lia.
Qed.

Lemma turns_below k rel size : 0 <= rel -> 0 < size -> turns k (rel mod bs (S k)) (Z.min size (bs (S k) - rel mod bs (S k))) + 2 <= turns (S k) rel size.
Proof.
  intros Hr Hs. pose proof (bs_pos k). pose proof (bs_S k). destruct (rem_bounds (S k) rel) as [Hm Hq]. unfold turns. rewrite (proj2 (Z.leb_gt size 0)), (proj2 (Z.leb_gt (Z.min _ _) 0)) by lia.
  set (lo := rel mod bs (S k)) in *. set (n := Z.min size (bs (S k) - lo)). assert ((lo + n - 1) / bs k < 512) by (apply Z.div_lt_upper_bound; lia). assert (0 <= lo / bs k) by (apply Z.div_pos; lia).
  assert (rel / bs (S k) <= (rel + size - 1) / bs (S k)) by (apply Z.div_le_mono; lia). lia.
Qed.

(** What is left of the range is in the entries behind. *)
Lemma flushed_cons k es i e e' asid va rel size l l' : 0 <= rel -> 0 < size -> rel + size <= 512 * bs k -> i = rel / bs k -> es !! Z.to_nat i = Some e -> flushed_entry k es asid va rel size i l ->
  flushed k (Node (<[Z.to_nat i := e']> es)) asid (u64 (va + Z.min size (bs k - rel mod bs k))) (rel + Z.min size (bs k - rel mod bs k)) (size - Z.min size (bs k - rel mod bs k)) l' ->
  flushed k (Node es) asid va rel size (l' ++ l).
Proof.
  intros Hr Hs Hb Hi He H1 H2 x w b Hx El Et. pose proof (bs_pos k). destruct (rem_bounds k rel) as [Hm Hq]. destruct (look_divides k _ x w b k El ltac:(lia)) as [Hd Hb0].
  set (chunk := Z.min size (bs k - rel mod bs k)) in *. destruct (rem_bounds k x) as [Hmx Hqx]. destruct (block_in (x mod bs k) b (bs k) Hb0 Hd ltac:(lia) Hmx) as (B1 & B2 & _). pose proof (div_block x b (bs k) Hb0 Hd ltac:(lia)) as Ex.
  destruct (decide (x / bs k = i)) as [E|E].
  - destruct (H1 x w b Hx E El Et) as (y & Hy1 & Hy2 & Hy3). exists y. split; [lia|]. split; [done|]. set_solver.
  - assert (i < x / bs k) as Hlt. { unfold touched in Et. apply Z.ltb_lt in Et. assert (x / bs k < i \/ i < x / bs k) as [?|?] by lia; [nia|done]. }
    assert (rel / bs k * bs k + bs k <= x / bs k * bs k) by nia. assert (0 <= x / bs k) by (apply Z.div_pos; lia). assert (0 <= i) by (subst i; apply Z.div_pos; lia).
    destruct (H2 x w b Hx) as (y & Hy1 & Hy2 & Hy3).
    + rewrite <- El. destruct k; cbn [look entries]; rewrite list_lookup_insert_ne by lia; done.
    + revert Et. unfold touched. rewrite !Z.ltb_lt. lia.
    + exists y. split; [lia|]. split; [done|]. apply elem_of_app. left. replace (u64 (va + (y - rel))) with (u64 (u64 (va + chunk) + (y - (rel + chunk)))); [done|].
      unfold u64. rewrite Zplus_mod_idemp_l. f_equal. lia.
Qed.

(** [arm64_mmu_unmap_pt] computes [unmap_tree]. *)
Lemma unmap_pt_wp f : forall k pt t T s va rel size asid, at_tree k pt t T s -> (k <= 3)%nat -> 0 <= rel -> 0 <= size -> rel + size <= 512 * bs k -> 0 <= va < 2 ^ 64 -> turns k rel size <= Z.of_nat f ->
  wp (arm64_mmu_unmap_pt kv free_list heap_free f va rel size (sh k) 12 pt asid) (fun _ => unmapped k pt t T asid va rel size (unmap_tree k t rel size) s) s.
Proof.
  induction f as [|f IH]; intros k pt t T s va rel size asid H Hk Hr Hs Hb Hva Hf; pose proof (bs_pos k); pose proof (bs_le k Hk).
  { unfold turns in Hf. destruct (Z.leb_spec size 0); [lia|]. assert (rel / bs k <= (rel + size - 1) / bs k) by (apply Z.div_le_mono; lia). lia. }
  cbn [arm64_mmu_unmap_pt]. destruct (Z.eqb_spec size 0) as [->|Hs0].
  { wp_step. rewrite unmap_nothing by lia. split; [done|done|lia|]. exists []. split; [done|]. intros x w b _ _ Et. unfold touched in Et. apply Z.ltb_lt in Et. lia. }
  destruct (land_block k rel Hr Hk) as (-> & -> & ->). destruct (rem_bounds k rel) as [Hm Hq]. set (chunk := Z.min size (bs k - rel mod bs k)).
  destruct t as [es]. destruct (lookup_table (Node es) k rel (shape_length _ _ (at_shape _ _ _ _ _ H)) ltac:(lia)) as [e He]. assert (0 <= rel / bs k) by (apply Z.div_pos; lia).
  wp_step. eapply get_pte_wp; [done|done|exact He|]. wp_step. eapply wp_mono.
  { apply (unmap_one_wp f va k pt es T s (rel / bs k) e rel size asid); try done; [|lia]. intros k' pt' t' T' s' Ek H'. subst k. apply IH; try done; try lia; [rewrite <- bs_S; lia|]. pose proof (turns_below k' rel size Hr ltac:(lia)). lia. }
  cbv beta. intros _ s1 [U1 U2 U3 (l & El & Hl)]. rewrite (u64_small (rel + chunk)) by (unfold chunk; lia). eapply wp_mono.
  { apply IH; [exact U1|done|lia|lia|lia|apply u64_range|]. pose proof (turns_next k rel size Hr ltac:(lia)) as Ht. cbv zeta in Ht. fold chunk in Ht. lia. }
  cbv beta. intros _ s2 [V1 V2 V3 (l' & El' & Hl')]. fold chunk in V1. unfold chunk in V1. rewrite unmap_step in V1 by (done || lia). split; [done|by eapply keeps_tables_trans|lia|].
  exists (l' ++ l). split; [by rewrite El', El, app_assoc|]. by eapply (flushed_cons k es _ e); try done; lia.
Qed.
End tables.
