(* ===== verification/Arm64Map.v ===== *)
(** * Mapping in the arm64 page tables

    [arm64_mmu_map_pt] maps exactly the range it is given where nothing was mapped, and undoes what it did when it cannot. *)

From stdpp Require Import base gmap list numbers.
From S2P Require Import Prelude Align Pmm Arm64Mmu Arm64Spec.

Section mapping.
Context {KM : KernelMap} {SRC : TableSource}.
Implicit Types (T : gset Z) (s : mmu).

(** ** Mapping *)

(** A descriptor of a page or a block, and the physical address it holds. *)
Definition leaf (attrs w p : Z) : Prop := good_page p /\ (w = Z.lor (Z.lor p attrs) 1 \/ w = Z.lor (Z.lor p attrs) 3).
Definition good_attrs (attrs : Z) : Prop := 0 <= attrs < 2 ^ 64 /\ Z.land attrs MMU_PTE_OUTPUT_ADDR_MASK = 0 /\ Z.land attrs 3 = 0.

(** Between [lo] and [hi] the addresses from [pa] on are mapped where nothing was; the rest is as before. *)
Record extends (k : nat) (t0 t : tree) (lo hi pa attrs : Z) : Prop := {
  ex_old : forall x, 0 <= x < 512 * bs k -> x < lo \/ hi <= x -> look k t x = look k t0 x;
  ex_new : forall x, lo <= x < hi -> look k t0 x = None /\ exists w b p, look k t x = Some (w, b) /\ lo <= x / b * b /\ x / b * b + b <= hi /\ leaf attrs w p /\ p + x mod b = pa + (x - lo) }.

(** The number of tables that a range can need. *)
Definition cnt (k : nat) (rel size : Z) : Z := if size <=? 0 then 0 else (rel + size - 1) / bs k - rel / bs k + 1.
Fixpoint need (k : nat) (rel size : Z) : Z := match k with O => 0 | S k' => cnt k rel size + need k' rel size end.

(** No table is there for nothing. *)
Fixpoint tidy (k : nat) (t : tree) : Prop :=
  match k with O => True | S k => forall i p t', entries t !! i = Some (Sub p t') -> is_clear t' = false /\ tidy k t' end.

Record mapped_ok (k : nat) (pt : Z) (t : tree) T (rel size pa attrs : Z) s (t' : tree) s' : Prop := {
  mo_ext : extends k t t' rel (rel + size) pa attrs;
  mo_room : src_room (ms_pmm s) - need k rel size <= src_room (ms_pmm s');
  mo_tidy : tidy k t -> tidy k t' }.

(** Why a mapping can fail: something is mapped there, memory is short, or a table is left over. *)
Definition obstacle (k : nat) (t : tree) (rel size : Z) s : Prop :=
  (exists x, rel <= x < rel + size /\ look k t x <> None) \/ src_room (ms_pmm s) < need k rel size \/ ~ tidy k t.

Definition map_post (k : nat) (pt : Z) (t : tree) T (rel size pa attrs : Z) s (r : Z) s' : Prop :=
  exists t', at_tree k pt t' T s' /\ keeps pt T s s' /\
    (r = 0 /\ mapped_ok k pt t T rel size pa attrs s t' s' \/
     r = ERR_GENERIC /\ (forall x, 0 <= x < 512 * bs k -> look k t' x = look k t x) /\ obstacle k t rel size s).

Lemma look_same k : forall t x y w b, look k t x = Some (w, b) -> 0 <= x -> y / b = x / b -> look k t y = Some (w, b).
Proof.
  induction k as [|k IH]; intros t x y w b El Hx Ey.
  - destruct (look_divides 0 t x w b 0 El ltac:(lia)) as [[q Eq] Hb]. pose proof (bs_pos 0). cbn [look] in *.
    assert (y / bs 0 = x / bs 0) as -> by (assert (0 < q) by nia; rewrite Eq, (Z.mul_comm q b), <- !Z.div_div by lia; congruence). done.
  - destruct (look_divides (S k) t x w b (S k) El ltac:(lia)) as [Hd Hb]. pose proof Hd as [q Eq]. pose proof (bs_pos (S k)).
    assert (y / bs (S k) = x / bs (S k)) as E by (assert (0 < q) by nia; rewrite Eq, (Z.mul_comm q b), <- !Z.div_div by lia; congruence).
    cbn [look] in *. rewrite E. destruct (entries t !! _) as [[w'|p t']|]; [done| |done]. apply (IH t' (x mod bs (S k))); [done|apply Z.mod_pos_bound; lia|].
    apply (same_block x (y mod bs (S k)) b (bs (S k))); [done|done|lia|]. destruct (rem_bounds (S k) y) as [_ Hy]. rewrite E in Hy. by rewrite <- Hy.
Qed.

Lemma extends_refl k t lo pa attrs : extends k t t lo lo pa attrs.
Proof. split; [done|lia]. Qed.

(** Taking away what has been added gives the tree as it was. *)
Lemma unmap_extends k t0 t lo hi pa attrs x : shape k t -> extends k t0 t lo hi pa attrs -> 0 <= lo <= hi -> hi <= 512 * bs k -> 0 <= x < 512 * bs k ->
  look k (unmap_tree k t lo (hi - lo)) x = look k t0 x.
Proof.
  intros Hs [H1 H2] Hlo Hhi Hx. rewrite unmap_look by done. destruct (decide (lo <= x < hi)) as [Hin|Hout].
  - destruct (H2 x Hin) as (-> & w & b & p & El & L1 & L2 & _). rewrite El. cbn. destruct (look_divides k t x w b k El ltac:(lia)) as [_ Hb]. unfold touched. rewrite (proj2 (Z.ltb_lt _ _)) by lia. done.
  - rewrite (H1 x) by lia. destruct (look k t0 x) as [[w b]|] eqn:El; [|done]. cbn. destruct (touched _ _ _ _) eqn:Et; [|done]. exfalso. apply Z.ltb_lt in Et.
    rewrite <- (H1 x) in El by lia. destruct (look_divides k t x w b k El ltac:(lia)) as [Hd Hb]. remember (Z.max lo (x / b * b)) as y eqn:Hy.
    assert (y / b = x / b) as Ey by (symmetry; apply (Z.div_unique_pos _ _ _ (y - b * (x / b))); lia). pose proof (look_same k t x y w b El ltac:(lia) Ey) as Ely.
    destruct (H2 y ltac:(lia)) as (_ & w' & b' & p & El' & L1 & L2 & _). rewrite Ely in El'. injection El' as <- <-. rewrite Ey in L1, L2.
    pose proof (Z.div_mod x b ltac:(lia)). pose proof (Z.mod_pos_bound x b Hb). lia.
Qed.

(** The end of [arm64_mmu_map_pt] when something failed. *)
Lemma map_err_wp k pt t0 t T s0 s va lo hi size size_in pa attrs asid : at_tree k pt t T s -> keeps pt T s0 s -> extends k t0 t lo hi pa attrs -> (k <= 3)%nat -> 0 <= lo <= hi -> hi <= 512 * bs k -> 0 <= va < 2 ^ 64 ->
  size_in - size = hi - lo -> obstacle k t0 lo size_in s0 ->
  wp (arm64_mmu_unmap_pt kv free_list heap_free levels_fuel va lo (size_in - size) (sh k) 12 pt asid ;; ret ERR_GENERIC) (map_post k pt t0 T lo size_in pa attrs s0) s.
Proof.
  intros H K He Hk Hlo Hhi Hva Es Ho. wp_step. rewrite Es. eapply wp_mono; [apply (unmap_pt_wp levels_fuel k pt t T s va lo (hi - lo) asid); try done; try lia|].
  - pose proof (bs_pos k). unfold turns. destruct (Z.leb_spec (hi - lo) 0); [change (Z.of_nat levels_fuel) with 2052; lia|]. assert ((lo + (hi - lo) - 1) / bs k < 512) by (apply Z.div_lt_upper_bound; lia).
    assert (0 <= lo / bs k) by (apply Z.div_pos; lia). change (Z.of_nat levels_fuel) with 2052. lia.
  - intros _ s' [U1 U2 U3 _]. wp_step. exists (unmap_tree k t lo (hi - lo)). split; [done|]. split; [by eapply keeps_tables_trans|]. right. split; [done|]. split; [|done].
    intros x Hx. apply (unmap_extends k t0 t lo hi pa attrs); try done. apply (at_shape _ _ _ _ _ H).
Qed.

(** *** Descriptors *)

Lemma leaf_bits attrs p ty : good_page p -> good_attrs attrs -> ty = 1 \/ ty = 3 -> let w := Z.lor (Z.lor p attrs) ty in
  0 <= w < 2 ^ 64 /\ Z.land w 3 = ty /\ Z.land w MMU_PTE_OUTPUT_ADDR_MASK = p /\ w <> 0.
Proof.
  intros Hp [Ha [Ha1 Ha2]] Hty w. destruct (sub_word p Hp) as [_ P1]. assert (Z.land p 3 = 0) as P2. { destruct Hp as [_ [q ->]]. change 3 with (Z.ones 2). rewrite Z.land_ones by lia. replace (q * 4096) with (q * 1024 * 2 ^ 2) by lia. by apply Z.mod_mul. }
  rewrite Z.land_lor_distr_l in P1. change (Z.land 3 MMU_PTE_OUTPUT_ADDR_MASK) with 0 in P1. rewrite Z.lor_0_r in P1.
  assert (Z.land ty 3 = ty /\ Z.land ty MMU_PTE_OUTPUT_ADDR_MASK = 0 /\ 0 <= ty < 2 ^ 64) as (T1 & T2 & T3) by (by destruct Hty as [-> | ->]).
  assert (Z.land w 3 = ty) as W1 by (unfold w; rewrite !Z.land_lor_distr_l, P2, Ha2, T1; done). split_and!; [| |done| |].
  - apply Z.lor_nonneg. split; [apply Z.lor_nonneg; split; [apply Hp|lia]|lia].
  - unfold w. destruct Hp as [Hp _]. assert (forall a b, 0 <= a < 2 ^ 64 -> 0 <= b < 2 ^ 64 -> Z.lor a b < 2 ^ 64) as Hlt.
    { intros a b A B. assert (Z.lor a b = Z.land (Z.lor a b) (Z.ones 64)) as ->; [rewrite Z.land_lor_distr_l, !Z.land_ones, !Z.mod_small by lia; done|]. rewrite Z.land_ones by lia. apply Z.mod_pos_bound. lia. }
    apply Hlt; [|done]. split; [apply Z.lor_nonneg; lia|]. apply Hlt; lia.
  - unfold w. rewrite !Z.land_lor_distr_l, P1, Ha1, T2, !Z.lor_0_r. done.
  - intros E. rewrite E, Z.land_0_l in W1. lia.
Qed.
(** *** One entry *)

Definition look_entry (k : nat) (e : entry) (x : Z) : option (Z * Z) :=
  match e with
  | Word w => if w =? 0 then None else Some (w, bs k)
  | Sub p t => match k with O => None | S k' => look k' t (x mod bs k) end
  end.

Lemma look_at k es i e x : es !! i = Some e -> Z.to_nat (x / bs k) = i -> look k (Node es) x = look_entry k e x.
Proof. intros He Hx. destruct k; cbn [look entries]; rewrite Hx, He; done. Qed.

Lemma look_insert k es i e x : (i < length es)%nat -> look k (Node (<[i := e]> es)) x = if decide (Z.to_nat (x / bs k) = i) then look_entry k e x else look k (Node es) x.
Proof.
  intros Hi. case_decide as Hx; [by apply (look_at k _ i); [apply list_lookup_insert_eq|]|]. destruct k; cbn [look entries]; rewrite list_lookup_insert_ne by done; done.
Qed.

Lemma extends_eq k t0 t t' lo hi pa attrs : extends k t0 t lo hi pa attrs -> 0 <= lo -> hi <= 512 * bs k -> (forall x, 0 <= x < 512 * bs k -> look k t' x = look k t x) -> extends k t0 t' lo hi pa attrs.
Proof.
  intros [H1 H2] Hlo Hhi E. split; [intros x Hx Ho; by rewrite E, H1|]. intros x Hx. rewrite E by lia. by apply H2.
Qed.

Lemma entry_of k x i : 0 <= x -> i = x / bs k -> Z.to_nat (x / bs k) = Z.to_nat i /\ i * bs k <= x < i * bs k + bs k.
Proof. intros Hx ->. destruct (rem_bounds k x) as [Hm Hq]. split; [done|lia]. Qed.

Lemma entry_is k x i : 0 <= i -> i * bs k <= x < i * bs k + bs k -> x / bs k = i.
Proof. intros Hi Hx. pose proof (bs_pos k). symmetry. apply (Z.div_unique_pos _ _ _ (x - bs k * i)); lia. Qed.

Lemma extends_leaf k t0 es lo rel pa attrs i w p : extends k t0 (Node es) lo rel pa attrs -> 0 <= lo <= rel -> rel + bs k <= 512 * bs k -> rel = i * bs k -> (Z.to_nat i < length es)%nat ->
  es !! Z.to_nat i = Some (Word 0) -> leaf attrs w p -> w <> 0 -> p = pa + (rel - lo) -> extends k t0 (Node (<[Z.to_nat i := Word w]> es)) lo (rel + bs k) pa attrs.
Proof.
  intros [H1 H2] Hlo Hhi Hi Hlt He Hw Hw0 Hp. pose proof (bs_pos k). assert (0 <= i) by nia. split.
  - intros x Hx Ho. rewrite look_insert by done. case_decide as Hc; [|apply H1; [done|lia]]. exfalso. assert (0 <= x / bs k) by (apply Z.div_pos; lia). destruct (entry_of k x i ltac:(lia) ltac:(lia)) as [_ Hb]. lia.
  - intros x Hx. rewrite look_insert by done. destruct (decide (rel <= x)) as [Hr|Hr].
    + assert (x / bs k = i) as Ex by (apply entry_is; lia). rewrite decide_True by congruence. split.
      * rewrite <- H1 by lia. rewrite (look_at k es _ (Word 0) x He) by congruence. done.
      * exists w, (bs k), p. cbn. rewrite (proj2 (Z.eqb_neq w 0)) by done. split; [done|]. rewrite Ex. split; [lia|]. split; [lia|]. split; [done|]. rewrite (Z.mod_eq x) by lia. rewrite Ex. lia.
    + assert (0 <= x / bs k) by (apply Z.div_pos; lia). rewrite decide_False; [|intros Hc; destruct (entry_of k x i ltac:(lia) ltac:(lia)) as [_ Hb]; lia].
      destruct (H2 x ltac:(lia)) as (E0 & w' & b & q & El & L1 & L2 & L3 & L4). split; [done|]. exists w', b, q. split_and!; try done. lia.
Qed.

Lemma extends_sub k t0 es lo rel chunk pa attrs i e p t t' : extends (S k) t0 (Node es) lo rel pa attrs -> 0 <= lo <= rel -> i = rel / bs (S k) -> 0 <= chunk -> rel mod bs (S k) + chunk <= bs (S k) -> rel + chunk <= 512 * bs (S k) ->
  es !! Z.to_nat i = Some e -> (forall x, look_entry (S k) e x = look k t (x mod bs (S k))) ->
  extends k t t' (rel mod bs (S k)) (rel mod bs (S k) + chunk) (pa + (rel - lo)) attrs -> extends (S k) t0 (Node (<[Z.to_nat i := Sub p t']> es)) lo (rel + chunk) pa attrs.
Proof.
  intros [H1 H2] Hlo Hi Hc Hcb Hhi He Hle [N1 N2]. pose proof (bs_pos (S k)) as HB. destruct (rem_bounds (S k) rel) as [Hm Hq]. rewrite <- Hi in Hq. assert (0 <= i) as Hi0 by (subst i; apply Z.div_pos; lia). set (rem := rel mod bs (S k)) in *.
  assert (Z.to_nat i < length es)%nat as Hlt by (by eapply lookup_lt_Some).
  assert (forall x, 0 <= x -> Z.to_nat (x / bs (S k)) = Z.to_nat i -> x = i * bs (S k) + x mod bs (S k) /\ 0 <= x mod bs (S k) < bs (S k) /\ look (S k) (Node es) x = look k t (x mod bs (S k))) as Hin.
  { intros x Hx Ex. destruct (rem_bounds (S k) x) as [A B]. assert (0 <= x / bs (S k)) by (apply Z.div_pos; lia). assert (x / bs (S k) = i) as Ei by lia. rewrite Ei in B. split; [done|]. split; [done|]. by rewrite (look_at (S k) es _ e x He), Hle. }
  split.
  - intros x Hx Ho. rewrite look_insert by done. case_decide as Hcs; [|apply H1; [done|lia]]. destruct (Hin x ltac:(lia) Hcs) as (Ex & Hxm & El). cbn [look_entry]. rewrite N1 by (try rewrite <- bs_S; lia). rewrite <- El. apply H1; [done|lia].
  - intros x Hx. rewrite look_insert by done. destruct (decide (rel <= x)) as [Hr|Hr].
    + assert (x / bs (S k) = i) as Ei by (apply entry_is; lia). rewrite decide_True by congruence. destruct (Hin x ltac:(lia) ltac:(congruence)) as (Ex & Hxm & El). cbn [look_entry].
      destruct (N2 (x mod bs (S k)) ltac:(lia)) as (E0 & w & b & q & Elk & L1 & L2 & L3 & L4). destruct (look_divides k t' _ w b (S k) Elk ltac:(lia)) as [Hd Hb]. split; [by rewrite <- H1, El by lia|].
      exists w, b, q. pose proof (div_block x b (bs (S k)) Hb Hd ltac:(lia)) as Ed. rewrite Ei in Ed. split; [done|]. split; [lia|]. split; [lia|]. split; [done|].
      rewrite (Z.mod_eq x b), (Z.mod_eq (x mod bs (S k)) b) in * by lia. lia.
    + destruct (H2 x ltac:(lia)) as (E0 & w & b & q & El & L1 & L2 & L3 & L4). split; [done|]. exists w, b, q. split; [|split_and!; try done; lia].
      case_decide as Hcs; [|done]. destruct (Hin x ltac:(lia) Hcs) as (Ex & Hxm & El'). cbn [look_entry]. rewrite N1 by (try rewrite <- bs_S; lia). by rewrite <- El'.
Qed.

(** *** Counting tables *)

Lemma cnt_split j rel chunk size : 0 <= rel -> 0 <= chunk <= size -> (bs j | rel + chunk) \/ chunk = size \/ chunk = 0 -> cnt j rel size = cnt j rel chunk + cnt j (rel + chunk) (size - chunk).
Proof.
  intros Hr Hc Hd. unfold cnt. destruct (Z.leb_spec size 0), (Z.leb_spec chunk 0), (Z.leb_spec (size - chunk) 0); try lia.
  - assert (chunk = 0) as -> by lia. by rewrite Z.add_0_r, Z.sub_0_r.
  - assert (chunk = size) as -> by lia. lia.
  - destruct Hd as [[q Hq]|Hd]; [|lia]. pose proof (bs_pos j). replace (rel + chunk + (size - chunk) - 1) with (rel + size - 1) by lia. rewrite Hq, Z.div_mul by lia.
    replace ((q * bs j - 1) / bs j) with (q - 1) by (apply (Z.div_unique_pos _ _ _ (bs j - 1)); lia). lia.
Qed.

Lemma need_split k rel chunk size : forall j, (j <= k)%nat -> 0 <= rel -> 0 <= chunk <= size -> (bs k | rel + chunk) \/ chunk = size \/ chunk = 0 -> need j rel size = need j rel chunk + need j (rel + chunk) (size - chunk).
Proof.
  induction j as [|j IH]; intros Hj Hr Hc Hd; cbn [need]; [done|].
  assert ((bs (S j) | rel + chunk) \/ chunk = size \/ chunk = 0) as Hd' by (destruct Hd as [Hd|Hd]; [left; apply (Z.divide_trans _ (bs k)); [by apply bs_divide|done]|by right]).
  rewrite (cnt_split (S j) rel chunk size Hr Hc Hd'), IH by (done || lia). lia.
Qed.

Lemma need_block k q rem n : forall j, (j <= k)%nat -> need j (q * bs k + rem) n = need j rem n.
Proof.
  induction j as [|j IH]; intros Hj; cbn [need]; [done|]. rewrite IH by lia. f_equal. unfold cnt. destruct (_ <=? 0); [done|]. destruct (bs_divide (S j) k Hj) as [d ->]. pose proof (bs_pos (S j)).
  replace (q * (d * bs (S j)) + rem + n - 1) with (q * d * bs (S j) + (rem + n - 1)) by ring. replace (q * (d * bs (S j)) + rem) with (q * d * bs (S j) + rem) by ring. rewrite !Z.div_add_l by lia. lia.
Qed.

Lemma need_entry k rel chunk : 0 <= rel -> 0 < chunk -> rel mod bs (S k) + chunk <= bs (S k) -> need (S k) rel chunk = 1 + need k (rel mod bs (S k)) chunk.
Proof.
  intros Hr Hc Hb. pose proof (bs_pos (S k)). destruct (rem_bounds (S k) rel) as [Hm Hq]. cbn [need]. rewrite Hq at 2. rewrite need_block by lia. f_equal. unfold cnt. rewrite (proj2 (Z.leb_gt chunk 0)) by lia.
  assert ((rel + chunk - 1) / bs (S k) = rel / bs (S k)) as ->; [|lia]. assert (0 <= rel / bs (S k)) by (apply Z.div_pos; lia). apply entry_is; lia.
Qed.

Lemma need_pos k rel size : 0 <= rel -> 0 <= need k rel size.
Proof.
  intros Hr. induction k as [|k IH]; cbn [need]; [lia|]. unfold cnt. destruct (Z.leb_spec size 0); [lia|]. pose proof (bs_pos (S k)). assert (rel / bs (S k) <= (rel + size - 1) / bs (S k)) by (apply Z.div_le_mono; lia). lia.
Qed.

(** *** A new table *)

Lemma empty_words : word <$> entries empty_table = replicate 512 0.
Proof. unfold empty_table. cbn [entries]. by rewrite fmap_replicate. Qed.

Lemma empty_phys k : phys k empty_table = [].
Proof. apply clear_phys; [apply shape_empty|done]. Qed.

Lemma look_empty k x : look k empty_table x = None.
Proof. apply look_clear; [done|]. intros p t' H%(sub_nonneg k); [done|apply shape_empty]. Qed.

Definition new_table (pt : Z) (i : nat) (p : Z) (pm : pmm) s : mmu :=
  put_pte pt i (Z.lor p 3) (set_tables (<[kv p := replicate 512 0]> (ms_tables s)) (set_ms_pmm pm s)).

Lemma at_new k pt es T s i p pm : at_tree (S k) pt (Node es) T s -> es !! i = Some (Word 0) -> good_page p -> p ∉ T ∪ list_to_set (phys (S k) (Node es)) ->
  src_ok pm ({[p]} ∪ (T ∪ list_to_set (phys (S k) (Node es)))) ->
  at_tree (S k) pt (Node (<[i := Sub p empty_table]> es)) T (new_table pt i p pm s) /\ keeps pt T s (new_table pt i p pm s).
Proof.
  intros H Hi Hp Hn Hok. pose proof H as [H1 H2 H3 H4 H5 H6]. assert (i < length es)%nat as Hlt by (by eapply lookup_lt_Some).
  pose proof (phys_split k es i _ Hi) as Ep. cbn [ptables app] in Ep. pose proof (phys_insert k es i (Sub p empty_table) Hlt) as Ep'. cbn [ptables] in Ep'. rewrite empty_phys in Ep'. cbn [app] in Ep'.
  assert (forall x, rooted T x -> kv p <> x) as Hr.
  { intros x [->|(q & Hq & ->)] E; [by destruct (src_addr _ _ p Hok ltac:(set_solver +))|]. apply (src_inj _ _ p q Hok) in E as ->; [|set_solver +|set_solver +Hq]. set_solver. }
  assert (forall q, q ∈ phys (S k) (Node es) -> kv p <> kv q) as Hq.
  { intros q Hq E. apply (src_inj _ _ p q Hok) in E as ->; [|set_solver +|set_solver +Hq]. set_solver. }
  assert (forall q, q ∈ phys (S k) (Node es) -> ms_tables (new_table pt i p pm s) !! kv q = ms_tables s !! kv q) as Hold.
  { intros q Hin. cbn. rewrite lookup_alter_ne by (apply not_eq_sym; by eapply root_ne). by rewrite lookup_insert_ne by (by apply Hq). }
  split; [split; try done|].
  - cbn [ms_pmm new_table put_pte set_tables set_ms_pmm]. apply (src_ok_eq _ _ _ Hok). intros x. rewrite !elem_of_union, !elem_of_list_to_set, Ep, Ep', elem_of_cons, elem_of_singleton. tauto.
  - apply (rep_put (S k) pt es i (Sub p empty_table) (ms_tables s)); [done| | |].
    + cbn. rewrite lookup_alter_eq, lookup_insert_ne by (by apply Hr). by rewrite (rep_root _ _ _ _ H2).
    + assert (ms_tables (new_table pt i p pm s) !! kv p = Some (word <$> entries empty_table)) as E.
      { rewrite empty_words. unfold new_table, put_pte. cbn [ms_tables set_tables set_ms_pmm]. rewrite lookup_alter_ne by (apply not_eq_sym; by apply Hr). by rewrite lookup_insert_eq. }
      destruct k; (split; [done|]); [done|]. intros j q t' Hj. unfold empty_table in Hj. cbn [entries] in Hj. by apply lookup_replicate in Hj as [? _].
    + intros j q tj Hne Hj. destruct (phys_sub k (Node es) j q tj Hj) as [P1 P2]. destruct H2 as [_ H2]. apply (rep_frame k _ _ (ms_tables s)); [by apply (H2 j)|by apply Hold|]. intros r Hr'. by apply Hold, P2.
  - rewrite Ep'. apply list.NoDup_cons. split; [|by rewrite Ep in H3]. intros Hin. apply Hn. rewrite Ep. set_solver +Hin.
  - intros q. rewrite Ep', elem_of_cons. intros [->|Hq']; [set_solver +Hn|]. apply H4. by rewrite Ep.
  - apply shape_insert; [done|]. split; [done|apply shape_empty].
  - split; try done. intros x Hx Hne. cbn. rewrite lookup_alter_ne by done. by rewrite lookup_insert_ne by (by apply Hr).
Qed.

Lemma get_page_table_wp k pt es T s i e : at_tree (S k) pt (Node es) T s -> 0 <= i -> es !! Z.to_nat i = Some e ->
  wp (arm64_mmu_get_page_table kv v2p heap_memalign heap_free i 12 pt) (fun r s' =>
    (r = 0 /\ s' = s /\ exists w, e = Word w /\ (w = 0 -> src_room (ms_pmm s) = 0)) \/
    exists p t, r = kv p /\ kv p <> 0 /\ at_tree (S k) pt (Node (<[Z.to_nat i := Sub p t]> es)) T s' /\ keeps pt T s s' /\
      (e = Sub p t /\ s' = s \/ e = Word 0 /\ t = empty_table /\ src_room (ms_pmm s') = src_room (ms_pmm s) - 1)) s.
Proof.
  intros H Hi He. pose proof (shape_entry (S k) (Node es) _ e (at_shape _ _ _ _ _ H) He) as Hsh. unfold arm64_mmu_get_page_table. wp_step. eapply get_pte_wp; [done..|]. destruct e as [w|p t]; cbn [word].
  - destruct Hsh as [->|[_ E]].
    + change (Z.land 0 MMU_PTE_DESCRIPTOR_MASK =? MMU_PTE_DESCRIPTOR_INVALID) with true. cbn iota. wp_step. unfold alloc_page_table. change (PAGE_SIZE <=? Z.shiftl 1 12) with true. change (Z.shiftl 1 12 / PAGE_SIZE) with 1. cbn iota zeta.
      wp_step. apply pool_wp. eapply wp_mono; [by apply src_alloc, (at_src _ _ _ _ _ H)|]. intros r pm [(-> & -> & Hroom)|(p & -> & Hp & Hn & Hok & Hroom)].
      * change (negb (0 =? 1)) with true. cbn iota. do 2 wp_step. left. split; [done|]. split; [by destruct s|]. by exists 0.
      * change (negb (1 =? 1)) with false. cbn iota. wp_step. cbv iota beta zeta. wp_step. unfold clear_table. wp_step. destruct (at_new k pt es T s _ p pm H He Hp Hn Hok) as [A1 A2]. wp_step.
        assert (kv p <> pt) as Hne. { intros E. destruct (at_root _ _ _ _ _ H) as [E'|(q & Hq & E')]; rewrite E' in E; [by destruct (src_addr _ _ p Hok ltac:(set_solver +))|]. apply (src_inj _ _ p q Hok) in E as ->; [|set_solver +|set_solver +Hq]. set_solver +Hn Hq. }
        unfold set_pte, get_pte. wp_step. do 3 wp_step. wp_step; [cbn; rewrite lookup_insert_ne by done; by apply (rep_root _ _ _ _ (at_rep _ _ _ _ _ H))|]. eapply wp_deref; [rewrite (proj2 (Z.leb_le 0 i)) by done; by rewrite list_lookup_fmap; cbn [entries]; rewrite He|].
        wp_step. wp_step. right. exists p, empty_table. split; [done|]. split; [apply (src_addr _ _ p Hok); set_solver +|]. split; [done|]. split; [done|]. right. split; [done|]. split; [done|]. done.
    + change MMU_PTE_DESCRIPTOR_MASK with 3. rewrite E. change (1 =? MMU_PTE_DESCRIPTOR_INVALID) with false. change (1 =? MMU_PTE_L012_DESCRIPTOR_TABLE) with false. change (1 =? MMU_PTE_L012_DESCRIPTOR_BLOCK) with true. cbn iota.
      wp_step. left. split; [done|]. split; [done|]. exists w. split; [done|]. intros ->. done.
  - destruct Hsh as [Hp _]. destruct (sub_word p Hp) as [-> ->]. change (3 =? MMU_PTE_DESCRIPTOR_INVALID) with false. change (3 =? MMU_PTE_L012_DESCRIPTOR_TABLE) with true. cbn iota. wp_step. right. exists p, t. split; [done|].
    split; [apply (src_addr _ _ p (at_src _ _ _ _ _ H)); apply elem_of_union; right; apply elem_of_list_to_set; exact (proj1 (phys_sub k (Node es) (Z.to_nat i) p t He))|]. rewrite list_insert_id by done. split; [done|]. split; [done|]. by left.
Qed.

(** *** Tidiness *)

Lemma tidy_insert k es i e : tidy k (Node es) -> match e with Word _ => True | Sub p t => match k with O => True | S k => is_clear t = false /\ tidy k t end end -> tidy k (Node (<[i := e]> es)).
Proof. destruct k as [|k]; [done|]. intros Ht He j p t' [(-> & -> & _)|(_ & Hj)]%list_lookup_insert_Some; [done|exact (Ht j p t' Hj)]. Qed.

Lemma not_clear t : is_clear t = false -> exists i e, entries t !! i = Some e /\ word e <> 0.
Proof.
  unfold is_clear. induction (entries t) as [|e l IH]; cbn; [done|]. destruct (Z.eqb_spec (word e) 0) as [E|E]; cbn; [|intros _; by exists 0%nat, e].
  intros (i & e' & Hi & Hw)%IH. by exists (S i), e'.
Qed.

Lemma tidy_look k : forall t, shape k t -> tidy k t -> is_clear t = false -> exists x, 0 <= x < 512 * bs k /\ look k t x <> None.
Proof.
  induction k as [|k IH]; intros t Hs Ht Hc; destruct (not_clear t Hc) as (i & e & Hi & Hw); pose proof (shape_entry _ t i e Hs Hi) as Hsh; apply lookup_lt_Some in Hi as Hlt; rewrite (shape_length _ t Hs) in Hlt; destruct t as [es].
  - destruct e as [w|]; [|done]. pose proof (bs_pos 0). exists (Z.of_nat i * bs 0). split; [nia|]. rewrite (look_at 0 es i (Word w)); [|done|rewrite Z.div_mul by lia; apply Nat2Z.id]. cbn in *. by rewrite (proj2 (Z.eqb_neq w 0)).
  - pose proof (bs_pos (S k)). destruct e as [w|p t'].
    + exists (Z.of_nat i * bs (S k)). split; [nia|]. rewrite (look_at (S k) es i (Word w)); [|done|rewrite Z.div_mul by lia; apply Nat2Z.id]. cbn in *. by rewrite (proj2 (Z.eqb_neq w 0)).
    + destruct (Ht i p t' Hi) as [Hc' Ht']. destruct (IH t' ltac:(by apply Hsh) Ht' Hc') as (x & Hx & Hl). rewrite <- bs_S in Hx. exists (Z.of_nat i * bs (S k) + x). split; [nia|].
      rewrite (look_at (S k) es i (Sub p t')); [|done|rewrite Z.div_add_l, Z.div_small, Z.add_0_r by lia; apply Nat2Z.id]. cbn [look_entry]. rewrite Z.add_comm, Z.mod_add, Z.mod_small by lia. done.
Qed.

Lemma extends_used k t0 t lo hi pa attrs : shape k t -> extends k t0 t lo hi pa attrs -> lo < hi -> is_clear t = false.
Proof.
  intros Hs [_ H2] Hlt. destruct (is_clear t) eqn:E; [|done]. destruct (H2 lo ltac:(lia)) as (_ & w & b & p & El & _). rewrite look_clear in El; [done|done|]. intros q t'. by apply (sub_nonneg k).
Qed.

(** *** The loop *)

Record range_ok (k : nat) (lo size pa attrs : Z) : Prop := {
  ro_level : (k <= 3)%nat;
  ro_lo : 0 <= lo /\ (4096 | lo);
  ro_size : 0 <= size /\ (4096 | size);
  ro_end : lo + size <= 512 * bs k;
  ro_pa : 0 <= pa /\ (4096 | pa) /\ pa + size <= 2 ^ 48;
  ro_attrs : good_attrs attrs }.

(** The loop has come from [lo] to [rel], with [size] to go. *)
Record midway (k : nat) (pt : Z) (t0 : tree) T (lo rel size_in size pa attrs : Z) s0 (t : tree) s : Prop := {
  md_at : at_tree k pt t T s;
  md_keeps : keeps pt T s0 s;
  md_ext : extends k t0 t lo rel pa attrs;
  md_tidy : tidy k t0 -> tidy k t;
  md_room : src_room (ms_pmm s0) - need k lo size_in <= src_room (ms_pmm s) - need k rel size;
  md_rel : lo <= rel /\ (4096 | rel);
  md_size : size_in = rel - lo + size /\ 0 <= size }.

Lemma midway_start k pt t T lo size pa attrs s : at_tree k pt t T s -> range_ok k lo size pa attrs -> midway k pt t T lo lo size size pa attrs s t s.
Proof. intros H [? [? ?] [? ?] ? ? ?]. split; try done; try lia; apply extends_refl. Qed.

Lemma midway_err_wp k pt t0 T lo rel size_in size pa attrs s0 t s va asid : midway k pt t0 T lo rel size_in size pa attrs s0 t s -> range_ok k lo size_in pa attrs -> 0 <= va < 2 ^ 64 ->
  (exists x, rel <= x < rel + size /\ look k t x <> None) \/ src_room (ms_pmm s) < need k rel size \/ ~ tidy k t ->
  wp (arm64_mmu_unmap_pt kv free_list heap_free levels_fuel va lo (size_in - size) (sh k) 12 pt asid ;; ret ERR_GENERIC) (map_post k pt t0 T lo size_in pa attrs s0) s.
Proof.
  intros [M1 M2 M3 M4 M5 [M6 _] [M7 M8]] [R1 [R2 _] [R3 _] R4 _ _] Hva Ho. apply (map_err_wp k pt t0 t T s0 s va lo rel); try done; try lia.
  destruct Ho as [(x & Hx & Hl)|[Ho|Ho]]; [left|right; left; lia|right; right; tauto]. exists x. split; [lia|]. by rewrite <- (ex_old _ _ _ _ _ _ _ M3) by lia.
Qed.

Lemma divide_min a b c : (c | a) -> (c | b) -> (c | Z.min a b).
Proof. intros. destruct (Z.min_spec a b) as [[_ ->]|[_ ->]]; done. Qed.

Lemma chunk_facts k rel size : (4096 | rel) -> (4096 | size) -> 0 <= rel -> 0 < size -> let chunk := Z.min size (bs k - rel mod bs k) in
  (4096 | rel mod bs k) /\ (4096 | chunk) /\ 4096 <= chunk <= size /\ rel mod bs k + chunk <= bs k /\ ((bs k | rel + chunk) \/ chunk = size \/ chunk = 0).
Proof.
  intros Hr Hs H0 Hs0 chunk. pose proof (bs_pos k). destruct (rem_bounds k rel) as [Hm Hq]. assert (4096 | bs k) as Hd by (apply (bs_divide 0 k); lia).
  assert (4096 | rel mod bs k) as Hd1 by (rewrite Z.mod_eq by lia; apply Z.divide_sub_r; [done|by apply Z.divide_mul_l]).
  assert (4096 | chunk) as Hd2 by (apply divide_min; [done|by apply Z.divide_sub_r]). assert (0 < chunk) by lia. destruct Hd2 as [c Hc]. split_and!; [done|by exists c|lia|lia|lia|].
  destruct (decide (chunk = size)); [by right; left|]. left. exists (rel / bs k + 1). lia.
Qed.

(** The step over a block. *)
Lemma midway_leaf k pt t0 T lo rel size_in size pa attrs s0 es s w : midway k pt t0 T lo rel size_in size pa attrs s0 (Node es) s -> range_ok k lo size_in pa attrs -> bs k <= size -> rel mod bs k = 0 ->
  es !! Z.to_nat (rel / bs k) = Some (Word 0) -> (bs k | pa + (rel - lo)) -> w = Z.lor (Z.lor (pa + (rel - lo)) attrs) (match k with O => 3 | S _ => 1 end) ->
  midway k pt t0 T lo (rel + bs k) size_in (size - bs k) pa attrs s0 (Node (<[Z.to_nat (rel / bs k) := Word w]> es)) (put_pte pt (Z.to_nat (rel / bs k)) w s).
Proof.
  intros [M1 M2 M3 M4 M5 [M6 M6'] [M7 M8]] [R1 [R2 R2'] [R3 R3'] R4 (R5 & R6 & R7) R8] Hb Hm He Hd Hw. pose proof (bs_pos k). destruct (rem_bounds k rel) as [_ Hq]. rewrite Hm, Z.add_0_r in Hq. assert (0 <= rel / bs k) as Hi by (apply Z.div_pos; lia).
  assert (4096 | bs k) as H4 by (apply (bs_divide 0 k); lia). assert (good_page (pa + (rel - lo))) as Hp. { split; [lia|]. apply (Z.divide_trans _ (bs k)); done. }
  assert (match k with O => 3 | S _ => 1 end = 1 \/ match k with O => 3 | S _ => 1 end = 3) as Hty by (destruct k; lia). destruct (leaf_bits attrs _ _ Hp R8 Hty) as (B1 & B2 & B3 & B4). cbv zeta in *. rewrite <- Hw in *.
  assert (Z.to_nat (rel / bs k) < length es)%nat as Hlt by (by eapply lookup_lt_Some). split.
  - apply (at_word k pt es T s _ 0 w); [done|done|]. right. split; [done|]. by destruct k.
  - eapply keeps_tables_trans; [done|apply keeps_tables_put].
  - apply (extends_leaf k t0 es lo rel pa attrs (rel / bs k) w (pa + (rel - lo))); try done; try lia. split; [done|]. rewrite Hw. destruct k; [by right|by left].
  - intros Ht. apply tidy_insert; [by apply M4|done].
  - cbn [ms_pmm put_pte set_tables]. rewrite (need_split k rel (bs k) size k) in M5 by (done || lia || (left; rewrite Hq; apply Z.divide_add_r; [by exists (rel / bs k)|done])). pose proof (need_pos k rel (bs k) ltac:(lia)). lia.
  - split; [lia|]. by apply Z.divide_add_r.
  - lia.
Qed.

(** The step over an entry with a table. *)
Lemma midway_sub k pt t0 T lo rel size_in size pa attrs s0 es s e p t1 s1 t2 s2 :
  let rem := rel mod bs (S k) in let chunk := Z.min size (bs (S k) - rem) in let i := Z.to_nat (rel / bs (S k)) in
  midway (S k) pt t0 T lo rel size_in size pa attrs s0 (Node es) s -> range_ok (S k) lo size_in pa attrs -> 0 < size -> (4096 | size) -> es !! i = Some e ->
  at_tree (S k) pt (Node (<[i := Sub p t1]> es)) T s1 -> keeps pt T s s1 -> (e = Sub p t1 /\ s1 = s \/ e = Word 0 /\ t1 = empty_table /\ src_room (ms_pmm s1) = src_room (ms_pmm s) - 1) ->
  at_tree k (kv p) t2 (below k T (<[i := Sub p t1]> es) i p) s2 -> keeps (kv p) (below k T (<[i := Sub p t1]> es) i p) s1 s2 ->
  mapped_ok k (kv p) t1 (below k T (<[i := Sub p t1]> es) i p) rem chunk (pa + (rel - lo)) attrs s1 t2 s2 ->
  midway (S k) pt t0 T lo (rel + chunk) size_in (size - chunk) pa attrs s0 (Node (<[i := Sub p t2]> es)) s2.
Proof.
  intros rem chunk i [M1 M2 M3 M4 M5 [M6 M6'] [M7 M8]] [R1 [R2 R2'] [R3 R3'] R4 (R5 & R6 & R7) R8] Hs Hs4 He A1 K1 He' A2 K2 [O1 O2 O3]. pose proof (bs_pos (S k)).
  destruct (chunk_facts (S k) rel size M6' Hs4 ltac:(lia) Hs) as (C1 & C2 & C3 & C4 & C5). fold rem in C1, C4. fold chunk in C2, C3, C4, C5.
  assert (i < length es)%nat as Hlt by (by eapply lookup_lt_Some). destruct (at_leave k pt _ T s1 s2 i p t1 t2 A1 ltac:(by apply list_lookup_insert_eq) K2 A2) as [L1 L2]. rewrite list_insert_insert_eq in L1.
  assert (0 <= rel / bs (S k)) by (apply Z.div_pos; lia).
  assert (forall x, look_entry (S k) e x = look k t1 (x mod bs (S k))) as Hle. { intros x. destruct He' as [[-> _]|(-> & -> & _)]; [done|]. cbn. by rewrite look_empty. }
  split; [done| | | | | |].
  - eapply keeps_tables_trans; [|exact L2]. by eapply keeps_tables_trans.
  - by apply (extends_sub k t0 es lo rel chunk pa attrs (rel / bs (S k)) e p t1 t2); try done; lia.
  - intros Ht. apply tidy_insert; [by apply M4|]. split; [apply (extends_used k t1 t2 rem (rem + chunk) (pa + (rel - lo)) attrs); [apply (at_shape _ _ _ _ _ A2)|done|lia]|]. apply O3.
    destruct He' as [[-> _]|(_ & -> & _)]; [exact (proj2 (M4 Ht i p t1 He))|]. destruct k; [done|]. intros j q t' Hj. unfold empty_table in Hj. cbn [entries] in Hj. by apply lookup_replicate in Hj as [? _].
  - rewrite (need_split (S k) rel chunk size (S k)) in M5 by (done || lia). rewrite (need_entry k rel chunk) in M5 by lia. fold rem in M5. destruct He' as [[_ ->]|(_ & _ & E)]; lia.
  - split; [lia|]. by apply Z.divide_add_r.
  - lia.
Qed.

Fixpoint tidyb (k : nat) (t : tree) : bool :=
  match k with O => true | S k => forallb (fun e => match e with Word _ => true | Sub p t => negb (is_clear t) && tidyb k t end) (entries t) end.

Lemma tidyb_spec k : forall t, tidyb k t = true <-> tidy k t.
Proof.
  induction k as [|k IH]; intros t; [done|]. cbn [tidyb tidy]. rewrite forallb_forall. split.
  - intros H i p t' Hi. apply list_elem_of_lookup_2, list_elem_of_In, H in Hi. apply andb_prop in Hi as [H1 H2]. split; [by apply negb_true_iff|by apply IH].
  - intros H e He%list_elem_of_In. apply list_elem_of_lookup in He as [i Hi]. destruct e as [|p t']; [done|]. destruct (H i p t' Hi) as [-> H2]. cbn. by apply IH.
Qed.

Lemma tidy_or_not k t : tidy k t \/ ~ tidy k t.
Proof. rewrite <- tidyb_spec. destruct (tidyb k t); [by left|by right]. Qed.

(** The descriptor is in use. *)
Lemma entry_busy k pt t0 T lo rel size_in size pa attrs s0 es s e : midway k pt t0 T lo rel size_in size pa attrs s0 (Node es) s -> 0 <= lo -> bs k <= size -> rel mod bs k = 0 -> es !! Z.to_nat (rel / bs k) = Some e -> word e <> 0 ->
  (exists x, rel <= x < rel + size /\ look k (Node es) x <> None) \/ src_room (ms_pmm s) < need k rel size \/ ~ tidy k (Node es).
Proof.
  intros [M1 M2 M3 M4 M5 [M6 M6'] [M7 M8]] Hlo Hb Hm He Hw. pose proof (bs_pos k). destruct (rem_bounds k rel) as [_ Hq]. rewrite Hm, Z.add_0_r in Hq. assert (0 <= rel / bs k) by (apply Z.div_pos; lia).
  pose proof (shape_entry k (Node es) _ e (at_shape _ _ _ _ _ M1) He) as Hsh. destruct e as [w|p t].
  - left. exists rel. split; [lia|]. rewrite (look_at k es _ (Word w) rel He) by done. cbn in *. by rewrite (proj2 (Z.eqb_neq w 0)).
  - destruct k as [|k]; [done|]. destruct (decide (is_clear t = true)) as [Hc|Hc%not_true_is_false].
    { right; right. intros Ht. destruct (Ht _ p t He) as [E _]. congruence. }
    destruct (tidy_or_not k t) as [Ht|Ht]; [left|right; right; intros Ht'; by apply Ht, (Ht' _ p t He)].
    destruct (tidy_look k t ltac:(by apply Hsh) Ht Hc) as (x & Hx & Hl). rewrite <- bs_S in Hx. exists (rel + x). split; [lia|].
    rewrite (look_at (S k) es _ (Sub p t) _ He) by (rewrite Hq, Z.div_add_l, (Z.div_small x), Z.add_0_r, <- Hq by lia; done). cbn [look_entry]. rewrite Hq, Z.add_comm, Z.mod_add, Z.mod_small by lia. done.
Qed.

Lemma map_done k pt t0 T lo rel size_in pa attrs s0 t s : midway k pt t0 T lo rel size_in 0 pa attrs s0 t s -> map_post k pt t0 T lo size_in pa attrs s0 0 s.
Proof.
  intros [M1 M2 M3 M4 M5 [M6 M6'] [M7 M8]]. exists t. split; [done|]. split; [done|]. left. split; [done|]. split; [by replace (lo + size_in) with rel by lia| |done].
  assert (forall j, need j rel 0 = 0) as E by (induction j as [|j IH]; cbn [need]; [done|]; rewrite IH; done). rewrite E in M5. lia.
Qed.

(** The conditions under which the loop goes down to the next level. *)
Lemma block_test k rel pa chunk : (k <= 3)%nat -> 0 <= rel -> 0 <= pa ->
  negb (Z.land (Z.lor rel pa) (bs k - 1) =? 0) || negb (chunk =? bs k) || (sh k >? MMU_PTE_DESCRIPTOR_BLOCK_MAX_SHIFT) = false ->
  rel mod bs k = 0 /\ pa mod bs k = 0 /\ chunk = bs k.
Proof.
  intros Hk Hr Hp H. apply orb_false_elim in H as [[H1 H2]%orb_false_elim _]. apply negb_false_iff, Z.eqb_eq in H1, H2.
  replace (bs k - 1) with (Z.ones (sh k)) in H1 by (rewrite Z.ones_equiv; unfold bs; lia). rewrite Z.land_lor_distr_l, !Z.land_ones in H1 by (unfold sh; lia). by apply Z.lor_eq_0_iff in H1 as [? ?].
Qed.

Lemma page_test rel pa chunk : (4096 | rel) -> (4096 | pa) -> (4096 | chunk) -> not_page_aligned rel pa chunk 12 = false.
Proof.
  intros H1 H2 H3. unfold not_page_aligned. change (Z.shiftl 1 12 - 1) with (Z.ones 12). rewrite !Z.land_lor_distr_l, !Z.land_ones by lia. change (2 ^ 12) with 4096.
  apply Z.mod_divide in H1, H2, H3; [|lia..]. by rewrite H1, H2, H3.
Qed.

Lemma level_0_pages rel size pa chunk : (4096 | rel) -> (4096 | pa) -> 4096 <= size -> chunk = Z.min size (bs 0 - rel mod bs 0) ->
  negb (Z.land (Z.lor rel pa) (bs 0 - 1) =? 0) || negb (chunk =? bs 0) || (sh 0 >? MMU_PTE_DESCRIPTOR_BLOCK_MAX_SHIFT) = false.
Proof.
  intros H1 H2 Hs ->. change (bs 0) with 4096. change (4096 - 1) with (Z.ones 12). rewrite Z.land_lor_distr_l, !Z.land_ones by lia. change (2 ^ 12) with 4096. apply Z.mod_divide in H1, H2; [|lia..]. rewrite H1, H2.
  replace (Z.min size (4096 - 0)) with 4096 by lia. done.
Qed.

Lemma empty_tidy k : tidy k empty_table.
Proof. destruct k; [done|]. intros j q t' Hj. unfold empty_table in Hj. cbn [entries] in Hj. by apply lookup_replicate in Hj as [? _]. Qed.

(** The next level has failed and is as it was. *)
Lemma sub_failed_wp k pt t0 T lo rel size_in size pa attrs s0 es s e p t1 s1 t2 s2 va asid :
  let rem := rel mod bs (S k) in let chunk := Z.min size (bs (S k) - rem) in let i := Z.to_nat (rel / bs (S k)) in
  midway (S k) pt t0 T lo rel size_in size pa attrs s0 (Node es) s -> range_ok (S k) lo size_in pa attrs -> 0 < size -> (4096 | size) -> 0 <= va < 2 ^ 64 -> es !! i = Some e ->
  at_tree (S k) pt (Node (<[i := Sub p t1]> es)) T s1 -> keeps pt T s s1 -> (e = Sub p t1 /\ s1 = s \/ e = Word 0 /\ t1 = empty_table /\ src_room (ms_pmm s1) = src_room (ms_pmm s) - 1) ->
  at_tree k (kv p) t2 (below k T (<[i := Sub p t1]> es) i p) s2 -> keeps (kv p) (below k T (<[i := Sub p t1]> es) i p) s1 s2 ->
  (forall x, 0 <= x < 512 * bs k -> look k t2 x = look k t1 x) -> obstacle k t1 rem chunk s1 ->
  wp (arm64_mmu_unmap_pt kv free_list heap_free levels_fuel va lo (size_in - size) (sh (S k)) 12 pt asid ;; ret ERR_GENERIC) (map_post (S k) pt t0 T lo size_in pa attrs s0) s2.
Proof.
  intros rem chunk i [M1 M2 M3 M4 M5 [M6 M6'] [M7 M8]] [R1 [R2 R2'] [R3 R3'] R4 (R5 & R6 & R7) R8] Hs Hs4 Hva He A1 K1 He' A2 K2 Hsame Hob. pose proof (bs_pos (S k)).
  destruct (chunk_facts (S k) rel size M6' Hs4 ltac:(lia) Hs) as (C1 & C2 & C3 & C4 & C5). fold rem in C1, C4. fold chunk in C2, C3, C4, C5. assert (0 <= rel / bs (S k)) by (apply Z.div_pos; lia). destruct (rem_bounds (S k) rel) as [Hm Hq]. fold rem in Hm, Hq.
  assert (i < length es)%nat as Hlt by (by eapply lookup_lt_Some). destruct (at_leave k pt _ T s1 s2 i p t1 t2 A1 ltac:(by apply list_lookup_insert_eq) K2 A2) as [L1 L2]. rewrite list_insert_insert_eq in L1.
  assert (forall x, look_entry (S k) e x = look k t1 (x mod bs (S k))) as Hle. { intros x. destruct He' as [[-> _]|(-> & -> & _)]; [done|]. cbn. by rewrite look_empty. }
  assert (keeps pt T s0 s2) as K by (eapply keeps_tables_trans; [|exact L2]; by eapply keeps_tables_trans).
  eapply (map_err_wp (S k) pt t0 _ T s0 s2 va lo rel); try done; try lia.
  - apply (extends_eq _ _ (Node es)); try done; try lia. intros x Hx. rewrite look_insert by done. case_decide as Hc; [|done]. rewrite (look_at (S k) es i e x He Hc), Hle. cbn [look_entry]. apply Hsame. rewrite <- bs_S. apply Z.mod_pos_bound. lia.
  - destruct Hob as [(x & Hx & Hl)|[Ho|Ho]].
    + left. exists (rel / bs (S k) * bs (S k) + x). split; [lia|]. rewrite <- (ex_old _ _ _ _ _ _ _ M3) by lia. rewrite (look_at (S k) es i e _ He), Hle by (rewrite Z.div_add_l, (Z.div_small x), Z.add_0_r by lia; done).
      rewrite Z.add_comm, Z.mod_add, Z.mod_small by lia. done.
    + right; left. rewrite (need_split (S k) rel chunk size (S k)) in M5 by (done || lia). rewrite (need_entry k rel chunk) in M5 by lia. fold rem in M5. pose proof (need_pos (S k) (rel + chunk) (size - chunk) ltac:(lia)). destruct He' as [[_ ->]|(_ & _ & E)]; lia.
    + right; right. destruct He' as [[-> _]|(_ & -> & _)]; [|by destruct Ho; apply empty_tidy]. intros Ht. apply Ho. exact (proj2 (M4 Ht i p t1 He)).
Qed.

Lemma map_loop_wp f : forall k pt t0 t T s0 s va_in va lo rel size_in size pa0 pa attrs asid,
  midway k pt t0 T lo rel size_in size pa0 attrs s0 t s -> range_ok k lo size_in pa0 attrs -> pa = pa0 + (rel - lo) -> 0 <= va_in < 2 ^ 64 -> 0 <= va < 2 ^ 64 -> turns k rel size <= Z.of_nat f ->
  wp (map_loop kv v2p free_list heap_memalign heap_free f va_in lo size_in va rel pa size attrs (sh k) 12 pt asid) (map_post k pt t0 T lo size_in pa0 attrs s0) s.
Proof.
  induction f as [|f IH]; intros k pt t0 t T s0 s va_in va lo rel size_in size pa0 pa attrs asid Hmid Hro Hpa Hvi Hva Hf; pose proof Hmid as [M1 M2 M3 M4 M5 [M6 M6'] [M7 M8]]; pose proof Hro as [R1 [R2 R2'] [R3 R3'] R4 (R5 & R6 & R7) R8]; pose proof (bs_pos k); pose proof (bs_le k R1).
  { unfold turns in Hf. destruct (Z.leb_spec size 0); [lia|]. assert (rel / bs k <= (rel + size - 1) / bs k) by (apply Z.div_le_mono; lia). lia. }
  cbn [map_loop]. destruct (Z.eqb_spec size 0) as [->|Hs0]; [wp_step; by apply (map_done k pt t0 T lo rel size_in pa0 attrs s0 t)|].
  destruct (land_block k rel ltac:(lia) R1) as (-> & -> & ->). set (chunk := Z.min size (bs k - rel mod bs k)).
  assert (4096 | size) as Hs4. { replace size with (size_in - (rel - lo)) by lia. apply Z.divide_sub_r; [done|by apply Z.divide_sub_r]. }
  destruct (chunk_facts k rel size M6' Hs4 ltac:(lia) ltac:(lia)) as (C1 & C2 & C3 & C4 & C5). fold chunk in C2, C3, C4, C5.
  assert (4096 | pa) as Hp4. { rewrite Hpa. apply Z.divide_add_r; [done|by apply Z.divide_sub_r]. }
  rewrite (u64_small (rel + chunk)), (u64_small (pa + chunk)) by lia. pose proof (turns_next k rel size ltac:(lia) ltac:(lia)) as Ht. cbv zeta in Ht. fold chunk in Ht.
  destruct t as [es]. destruct (lookup_table (Node es) k rel (shape_length _ _ (at_shape _ _ _ _ _ M1)) ltac:(lia)) as [e He]. cbn [entries] in He. assert (0 <= rel / bs k) by (apply Z.div_pos; lia).
  destruct (negb _ || _ || _) eqn:Etest.
  - destruct k as [|k]; [rewrite (level_0_pages rel size pa) in Etest; done || lia|]. wp_step. eapply wp_mono; [by apply (get_page_table_wp k pt es T s _ e)|]. cbv beta.
    intros r s1 [(-> & -> & w & -> & Hw)|(p & t1 & -> & Hp0 & A1 & K1 & He1)].
    + change (0 =? 0) with true. cbn iota. apply (midway_err_wp _ _ _ _ _ rel _ _ _ _ _ (Node es)); try done. destruct (Z.eqb_spec w 0) as [->|Hw0].
      * right; left. rewrite Hw by done. rewrite (need_split (S k) rel chunk size (S k)), need_entry by (done || lia). pose proof (need_pos k (rel mod bs (S k)) chunk ltac:(apply Z.mod_pos_bound; lia)). pose proof (need_pos (S k) (rel + chunk) (size - chunk) ltac:(lia)). lia.
      * left. exists rel. split; [lia|]. rewrite (look_at (S k) es _ (Word w) rel He) by done. cbn. by rewrite (proj2 (Z.eqb_neq w 0)).
    + rewrite (proj2 (Z.eqb_neq (kv p) 0)) by done. wp_step. rewrite page_test by done. replace (sh (S k) - (12 - 3)) with (sh k) by (unfold sh; lia).
      assert (Z.to_nat (rel / bs (S k)) < length es)%nat as Hlt by (by eapply lookup_lt_Some). pose proof (at_enter k pt _ T s1 _ p t1 A1 ltac:(by apply list_lookup_insert_eq)) as Hin.
      assert (range_ok k (rel mod bs (S k)) chunk pa attrs) as Hro'. { split; [lia|split; [apply Z.mod_pos_bound; lia|done]|split; [lia|done]|rewrite <- bs_S; lia|split_and!; [lia|done|lia]|done]. }
      eapply wp_mono; [apply (IH k (kv p) t1 t1 (below k T (<[Z.to_nat (rel / bs (S k)) := Sub p t1]> es) (Z.to_nat (rel / bs (S k))) p) s1 s1 va va _ _ chunk chunk pa); [by apply midway_start|done|lia|done|done|]|].
      { pose proof (turns_below k rel size ltac:(lia) ltac:(lia)) as Hb. fold chunk in Hb. lia. }
      cbv beta. intros r s2 (t2 & A2 & K2 & [(-> & Hok)|(-> & Hsame & Hob)]).
      * change (negb (0 =? 0)) with false. cbn iota. eapply IH; [eapply (midway_sub k pt t0 T lo rel size_in size pa0 attrs s0 es s e p t1 s1 t2 s2); try done; [lia|by rewrite <- Hpa]|done|rewrite Hpa; fold chunk; lia|done|apply u64_range|fold chunk; lia].
      * change (negb (ERR_GENERIC =? 0)) with true. cbn iota. by apply (sub_failed_wp k pt t0 T lo rel size_in size pa0 attrs s0 es s e p t1 s1 t2 s2); try done; lia.
  - destruct (block_test k rel pa chunk R1 ltac:(lia) ltac:(lia) Etest) as (B1 & B2 & B3). wp_step. eapply get_pte_wp; [done|done|exact He|]. destruct (Z.eqb_spec (word e) 0) as [Hw|Hw]; cbn [negb].
    + assert (e = Word 0) as ->. { pose proof (shape_entry k (Node es) _ e (at_shape _ _ _ _ _ M1) He) as Hsh. destruct e as [w|p t]; cbn in Hw; [by rewrite Hw|]. apply Z.lor_eq_0_iff in Hw. lia. }
      wp_step. eapply set_pte_wp; [done|done|exact He|]. rewrite sh_gt. eapply IH; [|done|rewrite Hpa; lia|done|apply u64_range|lia]. rewrite B3. apply (midway_leaf k pt t0 T lo rel size_in size pa0 attrs s0 es s); try done; [lia| |].
      * rewrite <- Hpa. apply Z.mod_divide; [lia|done].
      * rewrite <- Hpa. by destruct k.
    + apply (midway_err_wp _ _ _ _ _ rel _ _ _ _ _ (Node es)); try done. apply (entry_busy k pt t0 T lo rel size_in size pa0 attrs s0 es s e); try done. lia.
Qed.
End mapping.
