(* ===== verification/Arm64Aspace.v ===== *)
(** * The address spaces of the arm64 port

    The functions of [arch/mmu.h] on any number of address spaces: each has a tree of its own, a call changes the translations it is asked to
    change in the address space it is given and nothing else, and no call faults. *)

From stdpp Require Import base gmap list numbers.
From S2P Require Import Prelude Align Pmm Arm64Mmu Arm64Spec Arm64Map.

Section aspaces.
Context {KM : KernelMap} {SRC : TableSource}.
Implicit Types (T : gset Z) (s : mmu) (a : arch_aspace) (r : option Z) (t : tree).

(** ** Looking up an address *)

Lemma mod_block x b B : 0 < b -> (b | B) -> 0 < B -> (x mod B) mod b = x mod b.
Proof. intros Hb [q ->] HB. assert (0 < q) by nia. rewrite (Z.mul_comm q b), Z.rem_mul_r by lia. rewrite (Z.mul_comm b (_ mod _)), Z.mod_add, Z.mod_mod by lia. done. Qed.

Lemma next_rem k x : (k <= 3)%nat -> 0 <= x < 512 * bs k ->
  u32 (Z.shiftr x (sh k)) = x / bs k /\ u64 (x - u64 (Z.shiftl (x / bs k) (sh k))) = x mod bs k /\ 0 <= x / bs k.
Proof.
  intros Hk Hx. destruct (land_block k x ltac:(lia) Hk) as (_ & _ & ->). pose proof (bs_pos k). pose proof (bs_le k Hk).
  assert (0 <= x / bs k < 512) as Hi by (split; [apply Z.div_pos; lia|apply Z.div_lt_upper_bound; lia]). split; [apply u32_small; lia|]. split; [|lia].
  rewrite Z.shiftl_mul_pow2 by (unfold sh; lia). fold (bs k). destruct (rem_bounds k x) as [Hm Hq]. rewrite (u64_small (x / bs k * bs k)) by lia. rewrite u64_small; lia.
Qed.

Lemma query_loop_wp f : forall k pt t T s rem, at_tree k pt t T s -> (k <= 3)%nat -> 0 <= rem < 512 * bs k -> (k < f)%nat ->
  wp (query_loop kv f pt (sh k) 12 rem) (fun o s' => s' = s /\ o = (fun x => (x.1, rem mod x.2)) <$> look k t rem) s.
Proof.
  induction f as [|f IH]; intros k pt t T s rem H Hk Hr Hf; [lia|]. destruct t as [es]. cbn [query_loop].
  destruct (lookup_table (Node es) _ rem (shape_length _ _ (at_shape _ _ _ _ _ H)) Hr) as [e He]. cbn [entries] in He.
  pose proof (shape_entry _ (Node es) _ e (at_shape _ _ _ _ _ H) He) as Hsh. destruct (next_rem k rem Hk Hr) as (-> & -> & Hi).
  wp_step. eapply get_pte_wp; [done|done|exact He|]. rewrite (look_at k es _ e rem He) by done. rewrite sh_gt. destruct e as [w|p t]; cbn [word look_entry].
  - destruct (Z.eqb_spec w 0) as [->|Hw]; [change (Z.land 0 MMU_PTE_DESCRIPTOR_MASK =? MMU_PTE_DESCRIPTOR_INVALID) with true; cbn iota; by wp_step|].
    destruct Hsh as [?|[_ E]]; [done|]. change MMU_PTE_DESCRIPTOR_MASK with 3. rewrite E. destruct k; [change (3 =? MMU_PTE_DESCRIPTOR_INVALID) with false; change (3 =? MMU_PTE_L3_DESCRIPTOR_PAGE) with true|change (1 =? MMU_PTE_DESCRIPTOR_INVALID) with false; change (1 =? MMU_PTE_L012_DESCRIPTOR_BLOCK) with true]; cbn iota; by wp_step.
  - destruct k as [|k]; [done|]. destruct Hsh as [Hp _]. destruct (sub_word p Hp) as [-> ->]. change (3 =? MMU_PTE_DESCRIPTOR_INVALID) with false. change (3 =? MMU_PTE_L012_DESCRIPTOR_BLOCK) with false. change (negb (3 =? MMU_PTE_L012_DESCRIPTOR_TABLE)) with false.
    pose proof (sh_gt (S k)) as Hgt. rewrite Z.gtb_ltb in Hgt. rewrite Z.leb_antisym, Hgt. cbn [negb orb]. cbn iota. replace (sh (S k) - (12 - 3)) with (sh k) by (unfold sh; lia). pose proof (bs_pos (S k)).
    eapply wp_mono; [eapply (IH k); [by eapply at_enter|lia|rewrite <- bs_S; apply Z.mod_pos_bound; lia|lia]|]. cbv beta. intros o s' [-> ->]. split; [done|]. destruct (look k t _) as [[w b]|] eqn:El; [|done]. cbn. do 2 f_equal.
    destruct (look_divides k t _ w b (S k) El ltac:(lia)) as [Hd Hb]. apply mod_block; done || lia.
Qed.

(** ** The system *)

(** An address space is the page of its root, none for the kernel's, and its tree. *)
Definition root r : Z := match r with None => ktt | Some p => kv p end.
Definition origin r : Z := match r with None => kernel_base | Some _ => 0 end.
Definition own_pages (x : option Z * tree) : list Z := option_list x.1 ++ phys 3 x.2.
Definition all_pages (G : gmap nat (option Z * tree)) : list Z := map_to_list G ≫= (fun y => own_pages y.2).

Record good_aspace a r : Prop := {
  ga_magic : aa_magic a = ARCH_ASPACE_MAGIC;
  ga_table : aa_tt_virt a = root r;
  ga_kind : match r with
    | None => Z.land (aa_flags a) ARCH_ASPACE_FLAG_KERNEL <> 0 /\ aa_base a = kernel_base /\ aa_size a = 2 ^ 48
    | Some p => Z.land (aa_flags a) ARCH_ASPACE_FLAG_KERNEL = 0 /\ aa_tt_phys a = p /\ 0 <= aa_base a /\ 4096 < aa_size a /\ aa_base a + aa_size a <= 2 ^ 48
    end }.

(** [L] has the tables that nobody can reach any more. *)
Record sys (G : gmap nat (option Z * tree)) (L : list Z) s : Prop := {
  sy_src : src_ok (ms_pmm s) (list_to_set (L ++ all_pages G));
  sy_nodup : NoDup (L ++ all_pages G);
  sy_tree : forall id r t, G !! id = Some (r, t) -> rep 3 (root r) t (ms_tables s) /\ shape 3 t;
  sy_aspace : forall id r t, G !! id = Some (r, t) -> exists a, ms_aspaces s !! id = Some a /\ good_aspace a r;
  sy_kernel : forall i j t u, G !! i = Some (None, t) -> G !! j = Some (None, u) -> i = j }.

(** The physical address of a virtual one, and the descriptor that gives it. *)
Definition trans (x : option Z * tree) (va : Z) : option (Z * Z) :=
  (fun y => (Z.land y.1 MMU_PTE_OUTPUT_ADDR_MASK + (va - origin x.1) mod y.2, y.1)) <$> look 3 x.2 (va - origin x.1).

Definition rest (G : gmap nat (option Z * tree)) (L : list Z) (id : nat) r : gset Z := list_to_set (option_list r ++ L ++ all_pages (delete id G)).

Lemma all_insert G id x : all_pages (<[id := x]> G) ≡ₚ own_pages x ++ all_pages (delete id G).
Proof.
  unfold all_pages. rewrite <- (insert_delete_eq G id x). rewrite map_to_list_insert by apply lookup_delete_eq. done.
Qed.

Lemma all_split G id x : G !! id = Some x -> all_pages G ≡ₚ own_pages x ++ all_pages (delete id G).
Proof. intros H. rewrite <- all_insert. by rewrite insert_id. Qed.

Lemma all_elem G id x p : G !! id = Some x -> p ∈ own_pages x -> p ∈ all_pages G.
Proof. intros H Hp. rewrite (all_split G id x H). set_solver. Qed.

Lemma root_rooted G L id r t s : sys G L s -> G !! id = Some (r, t) -> rooted (rest G L id r) (root r).
Proof. intros _ _. destruct r as [p|]; [right; exists p; unfold rest; set_solver|by left]. Qed.

Lemma pages_perm G L id r t : all_pages G ≡ₚ own_pages (r, t) ++ all_pages (delete id G) -> L ++ all_pages G ≡ₚ (option_list r ++ L ++ all_pages (delete id G)) ++ phys 3 t.
Proof.
  intros ->. unfold own_pages. cbn [fst snd]. rewrite <- !app_assoc. rewrite (Permutation_app_comm (phys 3 t)). apply Permutation_app_swap_app.
Qed.

Lemma sys_enter G L id r t s : sys G L s -> G !! id = Some (r, t) -> at_tree 3 (root r) t (rest G L id r) s.
Proof.
  intros Hs Hid. pose proof Hs as [H1 H2 H3 H4 H5]. destruct (H3 id r t Hid) as [Hr Hsh]. pose proof (pages_perm G L id r t (all_split G id _ Hid)) as E. rewrite E in H1, H2. apply list.NoDup_app in H2 as (N1 & N2 & N3).
  split; try done.
  - apply (src_ok_eq _ _ _ H1). intros x. unfold rest. rewrite elem_of_union, !elem_of_list_to_set, elem_of_app. tauto.
  - intros p Hp Hx. unfold rest in Hx. apply elem_of_list_to_set in Hx. by apply (N2 p).
  - by eapply root_rooted.
Qed.

(** Roots and tables of other address spaces are not below this one. *)
Lemma sys_other G L s id r t j r' t' : sys G L s -> G !! id = Some (r, t) -> G !! j = Some (r', t') -> j <> id ->
  (rooted (rest G L id r) (root r') /\ root r' <> root r) /\ forall q, q ∈ phys 3 t' -> rooted (rest G L id r) (kv q) /\ kv q <> root r.
Proof.
  intros Hs Hid Hj Hne. pose proof Hs as [H1 H2 H3 H4 H5]. assert (delete id G !! j = Some (r', t')) as Hj' by (by rewrite lookup_delete_ne by done).
  assert (forall q, q ∈ own_pages (r', t') -> q ∈ L ++ all_pages G /\ q ∈ rest G L id r /\ (forall p, r = Some p -> q <> p)) as Hq.
  { intros q Hq. assert (q ∈ all_pages (delete id G)) as Hd by (by eapply all_elem). split; [apply elem_of_app; right; by apply (all_elem G j _ q Hj)|]. split; [unfold rest; apply elem_of_list_to_set; rewrite !elem_of_app; tauto|].
    intros p -> ->. rewrite (pages_perm G L id (Some p) t (all_split G id _ Hid)) in H2. cbn in H2. apply list.NoDup_cons in H2 as [H2 _]. apply H2. rewrite !elem_of_app. tauto. }
  assert (forall q, q ∈ own_pages (r', t') -> rooted (rest G L id r) (kv q) /\ kv q <> root r) as Hkv.
  { intros q Hin. destruct (Hq q Hin) as (Q1 & Q2 & Q3). split; [right; by exists q|]. destruct r as [p|]; cbn [root]; [|apply (src_addr _ _ q H1); by apply elem_of_list_to_set].
    intros E. apply (src_inj _ _ q p H1) in E; [by apply (Q3 p)|by apply elem_of_list_to_set|]. apply elem_of_list_to_set, elem_of_app. right. apply (all_elem G id _ p Hid). unfold own_pages. set_solver +. }
  split; [|intros q Hin; apply Hkv; unfold own_pages; cbn; set_solver +Hin]. destruct r' as [q|]; [apply Hkv; unfold own_pages; set_solver +|]. split; [by left|]. destruct r as [p|]; cbn [root]; [|by destruct Hne; apply (H5 j id t' t)].
  apply not_eq_sym, (src_addr _ _ p H1). apply elem_of_list_to_set, elem_of_app. right. apply (all_elem G id _ p Hid). unfold own_pages. set_solver +.
Qed.

Lemma sys_leave G L s s' id r t t' : sys G L s -> G !! id = Some (r, t) -> at_tree 3 (root r) t' (rest G L id r) s' -> keeps (root r) (rest G L id r) s s' -> sys (<[id := (r, t')]> G) L s'.
Proof.
  intros Hs Hid [A1 A2 A3 A4 A5 A6] [K1 K2 K3 K4]. pose proof Hs as [H1 H2 H3 H4 H5]. pose proof (pages_perm (<[id := (r, t')]> G) L id r t' ltac:(rewrite all_insert, delete_insert_eq; done)) as E. rewrite delete_insert_eq in E.
  assert (NoDup (option_list r ++ L ++ all_pages (delete id G))) as Hn. { rewrite (pages_perm G L id r t (all_split G id _ Hid)) in H2. by apply list.NoDup_app in H2 as [? _]. }
  split.
  - apply (src_ok_eq _ _ _ A1). intros x. unfold rest. rewrite elem_of_union, !elem_of_list_to_set, E, !elem_of_app. tauto.
  - rewrite E. apply list.NoDup_app. split; [done|]. split; [|done]. intros p Hp Hx. apply (A4 p Hx). unfold rest. by apply elem_of_list_to_set.
  - intros j r' t'' [(<- & [= <- <-])|(Hne & Hj)]%lookup_insert_Some; [done|]. destruct (H3 j r' t'' Hj) as [Hr Hsh]. split; [|done]. destruct (sys_other G L s id r t j r' t'' Hs Hid Hj ltac:(done)) as [[O1 O2] O3].
    apply (rep_frame 3 _ _ (ms_tables s)); [done|by apply K1|]. intros q Hq. destruct (O3 q Hq). by apply K1.
  - intros j r' t'' [(<- & [= <- <-])|(Hne & Hj)]%lookup_insert_Some; rewrite K2; [by apply (H4 id r t)|by apply (H4 j r' t'')].
  - intros i j u v Hi Hj. destruct (decide (i = id)) as [->|Hi'], (decide (j = id)) as [->|Hj']; [done| | |].
    + rewrite lookup_insert_eq in Hi. rewrite lookup_insert_ne in Hj by done. injection Hi as -> <-. by apply (H5 id j t v).
    + rewrite lookup_insert_eq in Hj. rewrite lookup_insert_ne in Hi by done. injection Hj as -> <-. by apply (H5 i id u t).
    + rewrite lookup_insert_ne in Hi, Hj by done. by apply (H5 i j u v).
Qed.

(** ** Flags *)

Lemma attr_low fl : mmu_flags_to_pte_attr fl = mmu_flags_to_pte_attr (Z.land fl 63).
Proof. unfold mmu_flags_to_pte_attr. rewrite <- !Z.land_assoc. done. Qed.

(** The flags that stand for a kind of memory. *)
Definition valid_flags (fl : Z) : Prop := Z.land fl ARCH_MMU_FLAG_CACHE_MASK <> ARCH_MMU_FLAG_CACHE_MASK.

Lemma flags_check fl : valid_flags fl -> let attr := mmu_flags_to_pte_attr fl in
  good_attrs attr /\ pte_flags attr = Some (Z.land fl 63).
Proof.
  intros Hv attr. unfold attr. rewrite attr_low. unfold valid_flags in Hv. change ARCH_MMU_FLAG_CACHE_MASK with 3 in Hv. assert (Z.land (Z.land fl 63) 3 <> 3) as Hv' by (rewrite <- Z.land_assoc; exact Hv).
  assert (0 <= Z.land fl 63 < 64) as Hr by (change 63 with (Z.ones 6); rewrite Z.land_ones by lia; apply Z.mod_pos_bound; lia). revert Hr Hv'. generalize (Z.land fl 63). clear. intros z Hr Hv.
  assert (forallb (fun n => (Z.land (Z.of_nat n) 3 =? 3) || (let a := mmu_flags_to_pte_attr (Z.of_nat n) in (0 <=? a) && (a <? 2 ^ 64) && (Z.land a MMU_PTE_OUTPUT_ADDR_MASK =? 0) && (Z.land a 3 =? 0) && bool_decide (pte_flags a = Some (Z.of_nat n)))) (seq 0 64) = true) as Hall by (by vm_compute).
  rewrite forallb_forall in Hall. specialize (Hall (Z.to_nat z) ltac:(apply in_seq; lia)). rewrite Z2Nat.id in Hall by lia. apply orb_prop in Hall as [?%Z.eqb_eq|Hall]; [done|]. cbv zeta in Hall.
  repeat (apply andb_prop in Hall as [Hall ?]). apply Z.leb_le in Hall. apply Z.ltb_lt in H2. apply Z.eqb_eq in H1, H0. apply bool_decide_eq_true in H. split; [split; [lia|done]|done].
Qed.

(** The flags of a descriptor are in its attributes. *)
Lemma leaf_flags attrs w p : leaf attrs w p -> pte_flags w = pte_flags attrs.
Proof.
  intros [Hp Hw]. destruct (sub_word p Hp) as [_ P1]. rewrite Z.land_lor_distr_l in P1. change (Z.land 3 MMU_PTE_OUTPUT_ADDR_MASK) with 0 in P1. rewrite Z.lor_0_r in P1.
  assert (forall m, Z.land MMU_PTE_OUTPUT_ADDR_MASK m = 0 -> Z.land 3 m = 0 -> Z.land w m = Z.land attrs m) as E.
  { intros m M1 M2. assert (Z.land 1 m = 0) as M3 by (change 1 with (Z.land 1 3); by rewrite <- Z.land_assoc, M2, Z.land_0_r). assert (Z.land p m = 0) as M4 by (by rewrite <- P1, <- Z.land_assoc, M1, Z.land_0_r).
    destruct Hw as [-> | ->]; rewrite !Z.land_lor_distr_l, M4; [rewrite M3|rewrite M2]; by rewrite Z.lor_0_r, Z.lor_0_l. }
  unfold pte_flags. rewrite !(E MMU_PTE_ATTR_NON_SECURE), !(E MMU_PTE_ATTR_ATTR_INDEX_MASK), !(E MMU_PTE_ATTR_AP_MASK) by done.
  destruct (if _ =? MMU_PTE_ATTR_STRONGLY_ORDERED then _ else _); [|done].
  match goal with |- context [if ?c then MMU_PTE_ATTR_UXN else MMU_PTE_ATTR_PXN] => destruct c end; by rewrite E by done.
Qed.

(** ** The calls *)

Lemma kernel_base_eq : kernel_base = 2 ^ 64 - 2 ^ 48.
Proof. done. Qed.

Definition inside_aspace a (va : Z) : Prop := aa_base a <= va < aa_base a + aa_size a.

Lemma valid_rel a r va : good_aspace a r -> inside_aspace a va -> is_valid_vaddr a va = true /\ 0 <= va - origin r < 512 * bs 3 /\ 0 <= va < 2 ^ 64.
Proof.
  intros [_ _ Hk] [H1 H2]. change (512 * bs 3) with (2 ^ 48). pose proof kernel_base_eq as Ek. destruct r as [p|]; cbn [origin].
  - destruct Hk as (_ & _ & B1 & B2 & B3). unfold is_valid_vaddr. rewrite u64_small by lia. rewrite (proj2 (Z.leb_le _ _)), (proj2 (Z.leb_le va _)) by lia. split; [done|lia].
  - destruct Hk as (_ & B1 & B2). unfold is_valid_vaddr. rewrite B1, B2 in *. rewrite Ek in *. rewrite u64_small by lia. rewrite (proj2 (Z.leb_le _ _)), (proj2 (Z.leb_le va _)) by lia. split; [done|lia].
Qed.

Lemma root_nonzero G L s id r t : sys G L s -> G !! id = Some (r, t) -> ktt <> 0 -> root r <> 0.
Proof.
  intros Hs Hid Hk. destruct r as [p|]; [|done]. apply (src_addr _ _ p (sy_src _ _ _ Hs)). apply elem_of_list_to_set, elem_of_app. right. apply (all_elem G id _ p Hid). unfold own_pages. set_solver +.
Qed.

Lemma kernel_bit a r : good_aspace a r -> negb (Z.land (aa_flags a) ARCH_ASPACE_FLAG_KERNEL =? 0) = match r with None => true | Some _ => false end.
Proof. intros [_ _ Hk]. destruct r; [destruct Hk as (-> & _); done|destruct Hk as (H & _)]. by rewrite (proj2 (Z.eqb_neq _ _) H). Qed.

(** The checks every call starts with. *)
Ltac enter Hs Hid Hktt Ha Hga Hva :=
  wp_step; unfold get_arch_aspace; do 2 wp_step; wp_step; [exact Ha|]; wp_step; wp_step; [by rewrite (ga_magic _ _ Hga)|]; wp_step; wp_step;
  [by rewrite (ga_table _ _ Hga), (proj2 (Z.eqb_neq _ _) (root_nonzero _ _ _ _ _ _ Hs Hid Hktt))|]; wp_step; wp_step; [exact Hva|]; rewrite Hva; cbn [negb]; cbn iota.

Context (Hktt : ktt <> 0).

Lemma addr_small w : 0 <= Z.land w MMU_PTE_OUTPUT_ADDR_MASK < 2 ^ 48.
Proof. change MMU_PTE_OUTPUT_ADDR_MASK with (Z.land MMU_PTE_OUTPUT_ADDR_MASK (Z.ones 48)). rewrite Z.land_assoc, Z.land_ones by lia. apply Z.mod_pos_bound. lia. Qed.

Definition query_result (o : option (Z * Z)) (want : bool) : Z * Z * Z :=
  match o with None => (ERR_NOT_FOUND, 0, 0) | Some (pa, w) => (0, pa, if want then default 0 (pte_flags w) else 0) end.

Lemma arch_mmu_query_wp G L s id r t a va want : sys G L s -> G !! id = Some (r, t) -> ms_aspaces s !! id = Some a -> inside_aspace a va ->
  (want = true -> forall pa w, trans (r, t) va = Some (pa, w) -> is_Some (pte_flags w)) ->
  wp (arch_mmu_query kv id va want) (fun o s' => s' = s /\ o = query_result (trans (r, t) va) want) s.
Proof.
  intros Hs Hid Ha Hin Hw. destruct (sy_aspace _ _ _ Hs id r t Hid) as (a' & Ha' & Hga). rewrite Ha in Ha'. injection Ha' as <-. destruct (valid_rel a r va Hga Hin) as (Hva & Hrel & H64).
  unfold arch_mmu_query. enter Hs Hid Hktt Ha Hga Hva. rewrite (kernel_bit a r Hga). pose proof (sys_enter G L id r t s Hs Hid) as Hat. rewrite (ga_table _ _ Hga).
  assert (forall c, c = (let rem := va - origin r in massert (u32 (Z.shiftr rem 39) <? 512) ;; ret (39, 12, rem)) -> wp (do ' (index_shift, page_size_shift, vaddr_rem) <- c;
    do o <- query_loop kv 4 (root r) index_shift page_size_shift vaddr_rem;
    match o with
    | None => ret (ERR_NOT_FOUND, 0, 0)
    | Some (pte, vaddr_rem) =>
        let paddr := u64 (Z.land pte MMU_PTE_OUTPUT_ADDR_MASK + vaddr_rem) in
        if want then match pte_flags pte with Some fl => ret (0, paddr, fl) | None => fail Panic end else ret (0, paddr, 0)
    end) (fun o s' => s' = s /\ o = query_result (trans (r, t) va) want) s) as Hmain.
  { intros c ->. cbv zeta. wp_step. wp_step. destruct (next_rem 3 (va - origin r) ltac:(lia) Hrel) as (Eu & _ & _). change (sh 3) with 39 in Eu. rewrite Eu. wp_step; [apply Z.ltb_lt, Z.div_lt_upper_bound; [done|]; change (bs 3) with (2 ^ 39) in *; lia|]. wp_step.
    wp_step. change 39 with (sh 3). eapply wp_mono; [by apply (query_loop_wp 4 3 (root r) t (rest G L id r)); try done; lia|]. cbv beta. intros o s' [-> ->]. unfold trans in *. cbn [fst snd] in *.
    destruct (look 3 t (va - origin r)) as [[w b]|] eqn:El; cbn [fmap option_fmap option_map query_result fst snd] in *; [|by wp_step].
    destruct (look_divides 3 t _ w b 3 El ltac:(lia)) as [Hd Hb]. apply Z.divide_pos_le in Hd; [|done]. pose proof (addr_small w). pose proof (Z.mod_pos_bound (va - origin r) b Hb). change (bs 3) with (2 ^ 39) in Hd. rewrite u64_small by lia.
    destruct want; [|by wp_step]. destruct (Hw eq_refl _ _ eq_refl) as [fl ->]. by wp_step. }
  destruct r as [p|]; apply Hmain; cbn [origin]; [by rewrite Z.sub_0_r|]. cbv zeta. cbn [origin] in Hrel. rewrite u64_small by (change (512 * bs 3) with (2 ^ 48) in Hrel; lia). done.
Qed.

Record map_args a (va pa count fl : Z) : Prop := {
  mg_va : inside_aspace a va /\ (4096 | va);
  mg_pa : 0 <= pa /\ (4096 | pa) /\ pa + count * 4096 <= 2 ^ 48;
  mg_count : 0 <= count < 2 ^ 32;
  mg_flags : valid_flags fl }.

Definition in_table r (va : Z) : Prop := 0 <= va - origin r < 2 ^ 48.

(** The range was free and is mapped now; everything else is as it was. *)
Definition maps_range r t t' (va pa count fl : Z) : Prop :=
  (forall v, va <= v < va + count * 4096 -> trans (r, t) v = None /\ exists w, trans (r, t') v = Some (pa + (v - va), w) /\ pte_flags w = Some (Z.land fl 63)) /\
  (forall v, in_table r v -> v < va \/ va + count * 4096 <= v -> trans (r, t') v = trans (r, t) v).

Definition same_translations r t t' : Prop := forall v, in_table r v -> trans (r, t') v = trans (r, t) v.

(** Why mapping can fail. *)
Definition no_way r t (va count : Z) s : Prop :=
  2 ^ 48 < va - origin r + count * 4096 \/ (exists v, va <= v < va + count * 4096 /\ trans (r, t) v <> None) \/
  src_room (ms_pmm s) < need 3 (va - origin r) (count * 4096) \/ ~ tidy 3 t.

Lemma extends_range r t t' va pa count fl : in_table r va -> va - origin r + count * 4096 <= 2 ^ 48 -> valid_flags fl -> extends 3 t t' (va - origin r) (va - origin r + count * 4096) pa (mmu_flags_to_pte_attr fl) -> maps_range r t t' va pa count fl.
Proof.
  intros Hv Hb Hfl [E1 E2]. destruct (flags_check fl Hfl) as [Hga Hfc]. unfold in_table in *. split.
  - intros v Hr. destruct (E2 (v - origin r) ltac:(lia)) as (N & w & b & p & El & L1 & L2 & L3 & L4). unfold trans. cbn [fst snd]. rewrite N, El. split; [done|]. exists w. cbn. split; [|by rewrite (leaf_flags _ w p L3)]. do 2 f_equal.
    destruct L3 as [Hp Hw]. assert (Z.land w MMU_PTE_OUTPUT_ADDR_MASK = p) as -> by (destruct Hw as [-> | ->]; [apply (leaf_bits _ p 1 Hp Hga); by left|apply (leaf_bits _ p 3 Hp Hga); by right]). lia.
  - intros v Hr Ho. unfold in_table in Hr. unfold trans. cbn [fst snd]. rewrite E1; [done|change (512 * bs 3) with (2 ^ 48); lia|lia].
Qed.

Lemma origin_aligned r : (4096 | origin r).
Proof. destruct r; cbn; [apply Z.divide_0_r|rewrite kernel_base_eq; by exists (2 ^ 52 - 2 ^ 36)]. Qed.

Definition map_result r t t' (va pa count fl : Z) s (err : Z) : Prop :=
  err = 0 /\ extends 3 t t' (va - origin r) (va - origin r + count * 4096) pa (mmu_flags_to_pte_attr fl) /\ maps_range r t t' va pa count fl /\ (tidy 3 t -> tidy 3 t') \/ err < 0 /\ same_translations r t t' /\ no_way r t va count s.

Lemma arm64_mmu_map_wp G L s id r t va pa count fl asid : sys G L s -> G !! id = Some (r, t) -> in_table r va -> 0 <= va < 2 ^ 64 -> (4096 | va) -> 0 <= pa -> (4096 | pa) -> pa + count * 4096 <= 2 ^ 48 -> 0 < count < 2 ^ 32 -> valid_flags fl ->
  wp (arm64_mmu_map kv v2p free_list heap_memalign heap_free va pa (u64 (count * PAGE_SIZE)) (mmu_flags_to_pte_attr fl) (origin r) 48 39 12 (root r) asid)
    (fun err s' => exists t', (sys (<[id := (r, t')]> G) L s' /\ ms_aspaces s' = ms_aspaces s) /\ map_result r t t' va pa count fl s err) s.
Proof.
  intros Hs Hid Hin Hva Hd Hpa Hpd Hpe Hc Hfl. unfold in_table in Hin. assert (u64 (count * PAGE_SIZE) = count * 4096) as -> by (change PAGE_SIZE with 4096; apply u64_small; lia).
  unfold arm64_mmu_map. change (u64 (Z.shiftl 1 48)) with (2 ^ 48). rewrite (u64_small (va - origin r)), (u64_small (2 ^ 48 - count * 4096)) by lia. destruct (_ || _) eqn:Eb.
  - wp_step. exists t. rewrite insert_id by done. split; [done|]. right. split; [done|]. split; [done|]. left. apply orb_prop in Eb as [Eb|Eb]; rewrite Z.gtb_ltb in Eb; apply Z.ltb_lt in Eb; lia.
  - apply orb_false_elim in Eb as [Eb _]. rewrite Z.gtb_ltb in Eb. apply Z.ltb_ge in Eb. rewrite (proj2 (Z.eqb_neq _ _) (root_nonzero G L s id r t Hs Hid Hktt)). unfold arm64_mmu_map_pt.
    assert (4096 | va - origin r) as Hd' by (apply Z.divide_sub_r; [done|apply origin_aligned]). rewrite page_test; [|done|done|by exists count]. pose proof (sys_enter G L id r t s Hs Hid) as Hat.
    assert (range_ok 3 (va - origin r) (count * 4096) pa (mmu_flags_to_pte_attr fl)) as Hro. { split; [lia|split; [lia|done]|split; [lia|by exists count]|change (512 * bs 3) with (2 ^ 48); lia|done|by apply flags_check]. }
    change 39 with (sh 3). eapply wp_mono; [eapply (map_loop_wp levels_fuel 3 (root r) t t); [by apply midway_start|done|lia|done|done|]|].
    { unfold turns. destruct (Z.leb_spec (count * 4096) 0); [lia|]. assert ((va - origin r + count * 4096 - 1) / bs 3 < 512) by (apply Z.div_lt_upper_bound; [done|change (bs 3) with (2 ^ 39); lia]). assert (0 <= (va - origin r) / bs 3) by (apply Z.div_pos; [lia|done]). change (Z.of_nat levels_fuel) with 2052. lia. }
    cbv beta. intros err s' (t' & A & K & Hres). exists t'. split; [split; [by eapply sys_leave|apply K]|]. destruct Hres as [(-> & [E _ Hti])|(-> & Hsame & Hob)]; [left|right].
    + split; [done|]. split; [done|]. split; [|done]. apply extends_range; try done. lia.
    + split; [done|]. split; [intros v Hv; unfold trans; cbn [fst snd]; rewrite Hsame; [done|change (512 * bs 3) with (2 ^ 48); exact Hv]|]. right. destruct Hob as [(x & Hx & Hl)|[Ho|Ho]]; [left|right; by left|right; by right].
      exists (x + origin r). split; [lia|]. unfold trans. cbn [fst snd]. replace (x + origin r - origin r) with x by lia. by destruct (look 3 t x).
Qed.

Lemma arch_mmu_map_wp G L s id r t a va pa count fl : sys G L s -> G !! id = Some (r, t) -> ms_aspaces s !! id = Some a -> map_args a va pa count fl ->
  wp (arch_mmu_map kv v2p free_list heap_memalign heap_free id va pa count fl) (fun err s' => exists t', (sys (<[id := (r, t')]> G) L s' /\ ms_aspaces s' = ms_aspaces s) /\ map_result r t t' va pa count fl s err) s.
Proof.
  intros Hs Hid Ha [[Hin Hd] (Hp1 & Hp2 & Hp3) Hc Hfl]. destruct (sy_aspace _ _ _ Hs id r t Hid) as (a' & Ha' & Hga). rewrite Ha in Ha'. injection Ha' as <-. destruct (valid_rel a r va Hga Hin) as (Hva & Hrel & H64).
  unfold arch_mmu_map. enter Hs Hid Hktt Ha Hga Hva. wp_step. rewrite !(proj2 (IS_PAGE_ALIGNED_spec _)) by done. wp_step; [done|]. wp_step. wp_step; [done|]. cbn [negb orb]. destruct (Z.eqb_spec count 0) as [->|Hc0].
  - wp_step. exists t. rewrite insert_id by done. split; [done|]. left. split; [done|]. replace (va - origin r + 0 * 4096) with (va - origin r) by lia. split; [apply extends_refl|]. split; [|done]. split; [lia|done].
  - rewrite (kernel_bit a r Hga), (ga_table _ _ Hga). destruct r as [p|]; [apply (arm64_mmu_map_wp G L s id (Some p) t va pa count fl MMU_ARM64_USER_ASID)|apply (arm64_mmu_map_wp G L s id None t va pa count fl MMU_ARM64_GLOBAL_ASID)]; try done; lia.
Qed.

(** What translates an address meets the range that is unmapped. *)
Definition meets r t (va count v : Z) : bool :=
  match look 3 t (v - origin r) with Some (_, b) => touched (va - origin r) (count * 4096) (v - origin r) b | None => false end.

Definition asid_of r : Z := match r with None => MMU_ARM64_GLOBAL_ASID | Some _ => MMU_ARM64_USER_ASID end.

Lemma unmap_tidy k : forall t rel size, tidy k t -> tidy k (unmap_tree k t rel size).
Proof.
  induction k as [|k IH]; intros t rel size Ht; [done|]. intros i p t'. rewrite unmap_tree_eq. cbn [entries]. rewrite list_lookup_imap. intros (e & He & E)%fmap_Some. destruct (_ <=? 0); [subst e; exact (Ht i p t' He)|].
  destruct e as [w|q u]; cbn in E; [done|]. destruct (_ || _) eqn:Ec; [done|]. injection E as -> ->. apply orb_false_elim in Ec as [_ Ec]. split; [done|]. apply IH. exact (proj2 (Ht i q u He)).
Qed.

Definition unmap_result r t t' (va count : Z) s s' (err : Z) : Prop :=
  (tidy 3 t -> tidy 3 t') /\
  (err = 0 /\ (forall v, in_table r v -> trans (r, t') v = if meets r t va count v then None else trans (r, t) v) /\
     (exists l, ms_tlbi s' = l ++ ms_tlbi s /\ flushed 3 t (asid_of r) va (va - origin r) (count * 4096) l) \/
   err < 0 /\ t' = t /\ 2 ^ 48 < va - origin r + count * 4096).

Lemma arm64_mmu_unmap_wp G L s id r t va count : sys G L s -> G !! id = Some (r, t) -> in_table r va -> 0 <= va < 2 ^ 64 -> 0 <= count < 2 ^ 32 ->
  wp (arm64_mmu_unmap kv free_list heap_free va (u64 (count * PAGE_SIZE)) (origin r) 48 39 12 (root r) (asid_of r))
    (fun err s' => exists t', (sys (<[id := (r, t')]> G) L s' /\ ms_aspaces s' = ms_aspaces s) /\ unmap_result r t t' va count s s' err) s.
Proof.
  intros Hs Hid Hin Hva Hc. unfold in_table in Hin. assert (u64 (count * PAGE_SIZE) = count * 4096) as -> by (change PAGE_SIZE with 4096; apply u64_small; lia).
  unfold arm64_mmu_unmap. change (u64 (Z.shiftl 1 48)) with (2 ^ 48). rewrite (u64_small (va - origin r)), (u64_small (2 ^ 48 - count * 4096)) by lia. destruct (_ || _) eqn:Eb.
  - wp_step. exists t. rewrite insert_id by done. split; [done|]. split; [done|]. right. split; [done|]. split; [done|]. apply orb_prop in Eb as [Eb|Eb]; rewrite Z.gtb_ltb in Eb; apply Z.ltb_lt in Eb; lia.
  - apply orb_false_elim in Eb as [Eb _]. rewrite Z.gtb_ltb in Eb. apply Z.ltb_ge in Eb. rewrite (proj2 (Z.eqb_neq _ _) (root_nonzero G L s id r t Hs Hid Hktt)). pose proof (sys_enter G L id r t s Hs Hid) as Hat. change 39 with (sh 3).
    wp_step. eapply wp_mono; [apply (unmap_pt_wp levels_fuel 3 (root r) t (rest G L id r)); try done; try lia; [change (512 * bs 3) with (2 ^ 48); lia|]|].
    { unfold turns. destruct (Z.leb_spec (count * 4096) 0); [done|]. assert ((va - origin r + count * 4096 - 1) / bs 3 < 512) by (apply Z.div_lt_upper_bound; [done|change (bs 3) with (2 ^ 39); lia]). assert (0 <= (va - origin r) / bs 3) by (apply Z.div_pos; [lia|done]). change (Z.of_nat levels_fuel) with 2052. lia. }
    cbv beta. intros _ s' [A K _ Hl]. wp_step. eexists. split; [split; [by eapply sys_leave|apply K]|]. split; [apply unmap_tidy|]. left. split; [done|]. split; [|done].
    intros v Hv. unfold trans, meets. cbn [fst snd]. rewrite unmap_look by (try apply (at_shape _ _ _ _ _ Hat); exact Hv). destruct (look 3 t _) as [[w b]|]; [|done]. cbn. by destruct (touched _ _ _ _).
Qed.

Lemma arch_mmu_unmap_wp G L s id r t a va count : sys G L s -> G !! id = Some (r, t) -> ms_aspaces s !! id = Some a -> inside_aspace a va -> (4096 | va) -> 0 <= count < 2 ^ 32 ->
  wp (arch_mmu_unmap kv free_list heap_free id va count) (fun err s' => exists t', (sys (<[id := (r, t')]> G) L s' /\ ms_aspaces s' = ms_aspaces s) /\ unmap_result r t t' va count s s' err) s.
Proof.
  intros Hs Hid Ha Hin Hd Hc. destruct (sy_aspace _ _ _ Hs id r t Hid) as (a' & Ha' & Hga). rewrite Ha in Ha'. injection Ha' as <-. destruct (valid_rel a r va Hga Hin) as (Hva & Hrel & H64).
  unfold arch_mmu_unmap. enter Hs Hid Hktt Ha Hga Hva. wp_step. rewrite !(proj2 (IS_PAGE_ALIGNED_spec _)) by done. wp_step; [done|]. cbn [negb]. rewrite (kernel_bit a r Hga), (ga_table _ _ Hga).
  destruct r as [p|]; [apply (arm64_mmu_unmap_wp G L s id (Some p) t va count)|apply (arm64_mmu_unmap_wp G L s id None t va count)]; done.
Qed.

(** ** The life of an address space *)

Lemma sys_unused G L s id a : sys G L s -> G !! id = None -> sys G L (set_arch_aspaces (<[id := a]> (ms_aspaces s)) s).
Proof.
  intros [H1 H2 H3 H4 H5] Hid. split; try done. intros j r t Hj. cbn. rewrite lookup_insert_ne by congruence. by apply (H4 j r t).
Qed.

Lemma not_live G L s id r t : sys G L s -> G !! id = Some (r, t) -> aa_magic (default blank_aspace (ms_aspaces s !! id)) = ARCH_ASPACE_MAGIC.
Proof. intros Hs Hid. destruct (sy_aspace _ _ _ Hs id r t Hid) as (a & -> & [Hm _ _]). done. Qed.

Lemma sys_new G L s id p pm a : sys G L s -> G !! id = None -> good_page p -> p ∉ (list_to_set (L ++ all_pages G) : gset Z) -> src_ok pm ({[p]} ∪ list_to_set (L ++ all_pages G)) -> good_aspace a (Some p) ->
  sys (<[id := (Some p, empty_table)]> G) L (set_tables (<[kv p := replicate 512 0]> (ms_tables s)) (set_arch_aspaces (<[id := a]> (ms_aspaces s)) (set_ms_pmm pm s))).
Proof.
  intros [H1 H2 H3 H4 H5] Hid Hp Hn Hok Ha. pose proof (all_insert G id (Some p, empty_table)) as E. change (own_pages (Some p, empty_table)) with (p :: phys 3 empty_table) in E. rewrite empty_phys, (delete_id G id) in E by done. cbn [app] in E.
  assert (forall j r t, G !! j = Some (r, t) -> root r <> kv p /\ forall q, q ∈ phys 3 t -> kv q <> kv p) as Hother.
  { intros j r t Hj. assert (forall q, q ∈ own_pages (r, t) -> kv q <> kv p) as Hq.
    { intros q Hq Eq. assert (q ∈ (list_to_set (L ++ all_pages G) : gset Z)) as Hin by (apply elem_of_list_to_set, elem_of_app; right; by apply (all_elem G j _ q Hj)). apply (src_inj _ _ q p Hok) in Eq as ->; [done|set_solver +Hin|set_solver +]. }
    split; [|intros q Hin; apply Hq; unfold own_pages; cbn; set_solver +Hin]. destruct r as [q|]; cbn [root]; [apply Hq; unfold own_pages; set_solver +|]. apply not_eq_sym, (src_addr _ _ p Hok). set_solver +. }
  split.
  - cbn [ms_pmm set_tables set_arch_aspaces set_ms_pmm]. apply (src_ok_eq _ _ _ Hok). intros x. rewrite elem_of_union, !elem_of_list_to_set, !elem_of_app, E, elem_of_cons, elem_of_singleton. tauto.
  - rewrite E. rewrite <- Permutation_middle. apply list.NoDup_cons. split; [|done]. rewrite <- (elem_of_list_to_set (C := gset Z)). done.
  - intros j r t [(<- & [= <- <-])|(Hne & Hj)]%lookup_insert_Some.
    + split; [|apply shape_empty]. cbn [ms_tables set_tables]. split; [rewrite lookup_insert_eq; by rewrite empty_words|]. intros i q u Hq. unfold empty_table in Hq. cbn [entries] in Hq. by apply lookup_replicate in Hq as [? _].
    + destruct (H3 j r t Hj) as [Hr Hsh]. destruct (Hother j r t Hj) as [O1 O2]. split; [|done]. apply (rep_frame 3 _ _ (ms_tables s)); [done|cbn [ms_tables set_tables]; by rewrite lookup_insert_ne by (by apply not_eq_sym)|]. intros q Hq. cbn [ms_tables set_tables]. by rewrite lookup_insert_ne by (apply not_eq_sym; by apply O2).
  - intros j r t [(<- & [= <- <-])|(Hne & Hj)]%lookup_insert_Some; cbn; [rewrite lookup_insert_eq; by exists a|]. rewrite lookup_insert_ne by done. by apply (H4 j r t).
  - intros i j u v Hi Hj. destruct (decide (i = id)) as [->|Hi']; [by rewrite lookup_insert_eq in Hi|]. destruct (decide (j = id)) as [->|Hj']; [by rewrite lookup_insert_eq in Hj|]. rewrite lookup_insert_ne in Hi, Hj by done. by apply (H5 i j u v).
Qed.

Lemma init_user_wp G L s id base size flags : sys G L s -> aa_magic (default blank_aspace (ms_aspaces s !! id)) <> ARCH_ASPACE_MAGIC -> 0 <= base -> 4096 < size -> base + size <= 2 ^ 48 -> Z.land flags ARCH_ASPACE_FLAG_KERNEL = 0 ->
  wp (arch_mmu_init_aspace kv v2p ktt id base size flags) (fun err s' => (err = ERR_NO_MEMORY /\ src_room (ms_pmm s) = 0 /\ sys G L s') \/ (err = 0 /\ exists p, sys (<[id := (Some p, empty_table)]> G) L s')) s.
Proof.
  intros Hs Hm Hb Hsz He Hf. assert (G !! id = None) as Hid. { destruct (G !! id) as [[r t]|] eqn:E; [|done]. by rewrite (not_live G L s id r t Hs E) in Hm. }
  unfold arch_mmu_init_aspace. do 2 wp_step. wp_step. wp_step; [by rewrite (proj2 (Z.eqb_neq _ _) Hm)|]. wp_step. wp_step; [rewrite Z.gtb_ltb; by apply Z.ltb_lt|]. wp_step. wp_step; [rewrite Z.gtb_ltb; apply Z.ltb_lt; rewrite u64_small; lia|].
  rewrite Hf. cbn [Z.eqb negb]. cbn iota. wp_step. wp_step; [apply Z.leb_le; change (u64 (Z.shiftl 1 MMU_USER_SIZE_SHIFT)) with (2 ^ 48); rewrite u64_small; lia|].
  wp_step. apply pool_wp. eapply wp_mono; [by apply src_kpage, (sy_src _ _ _ Hs)|]. cbv beta. intros v pm [(-> & -> & Hroom)|(p & -> & Hv & Hp & Hn & Hok & Hroom)].
  - change (0 =? 0) with true. cbn iota. unfold set_arch_aspace. wp_step. wp_step. wp_step. left. split; [done|]. split; [done|]. replace (set_ms_pmm (ms_pmm s) s) with s by (by destruct s). by apply sys_unused.
  - rewrite (proj2 (Z.eqb_neq (kv p) 0)) by (apply (src_addr _ _ p Hok); set_solver +). unfold set_arch_aspace, clear_table. do 5 wp_step. right. split; [done|]. exists p. apply (sys_new G L s id p pm); done.
Qed.

Lemma init_kernel_wp G L s id t flags : sys G (phys 3 t ++ L) s -> (forall j u, G !! j <> Some (None, u)) -> rep 3 ktt t (ms_tables s) -> shape 3 t ->
  aa_magic (default blank_aspace (ms_aspaces s !! id)) <> ARCH_ASPACE_MAGIC -> Z.land flags ARCH_ASPACE_FLAG_KERNEL <> 0 ->
  wp (arch_mmu_init_aspace kv v2p ktt id kernel_base (2 ^ 48) flags) (fun err s' => err = 0 /\ sys (<[id := (None, t)]> G) L s') s.
Proof.
  intros Hs Hk Hr Hsh Hm Hf. assert (G !! id = None) as Hid. { destruct (G !! id) as [[r u]|] eqn:E; [|done]. by rewrite (not_live G _ s id r u Hs E) in Hm. }
  unfold arch_mmu_init_aspace. do 2 wp_step. wp_step. wp_step; [by rewrite (proj2 (Z.eqb_neq _ _) Hm)|]. wp_step. wp_step; [done|]. wp_step. wp_step; [done|]. rewrite (proj2 (Z.eqb_neq _ _) Hf). cbn [negb]. cbn iota.
  wp_step. wp_step; [by apply Z.eqb_eq|]. wp_step. wp_step; [done|]. unfold set_arch_aspace. do 3 wp_step. split; [done|]. destruct Hs as [H1 H2 H3 H4 H5].
  assert (L ++ all_pages (<[id := (None, t)]> G) ≡ₚ (phys 3 t ++ L) ++ all_pages G) as E. { rewrite all_insert, delete_id by done. change (own_pages (None, t)) with (phys 3 t). rewrite <- app_assoc. apply Permutation_app_swap_app. }
  split.
  - cbn [ms_pmm set_arch_aspaces]. apply (src_ok_eq _ _ _ H1). intros x. by rewrite !elem_of_list_to_set, E.
  - by rewrite E.
  - intros j r u [(<- & [= <- <-])|(Hne & Hj)]%lookup_insert_Some; [done|by apply (H3 j r u)].
  - intros j r u [(<- & [= <- <-])|(Hne & Hj)]%lookup_insert_Some; cbn; [rewrite lookup_insert_eq; eexists; split; [done|]; by split|]. rewrite lookup_insert_ne by done. by apply (H4 j r u).
  - intros i j u v Hi Hj. destruct (decide (i = id)) as [->|Hi'], (decide (j = id)) as [->|Hj']; [done|rewrite lookup_insert_ne in Hj by done; by destruct (Hk j v)|rewrite lookup_insert_ne in Hi by done; by destruct (Hk i u)..].
Qed.

(** Destroying an address space loses the tables that are still below its root. *)
Lemma destroy_wp G L s id p t : sys G L s -> G !! id = Some (Some p, t) ->
  wp (arch_mmu_destroy_aspace free_list id) (fun err s' => err = 0 /\ sys (delete id G) (phys 3 t ++ L) s') s.
Proof.
  intros Hs Hid. pose proof (sy_aspace _ _ _ Hs id _ t Hid) as (a & Ha & Hga). pose proof Hga as [Gm Gt (Gk & Gp & _)]. pose proof Hs as [H1 H2 H3 H4 H5].
  assert (L ++ all_pages G ≡ₚ p :: (phys 3 t ++ L) ++ all_pages (delete id G)) as E. { rewrite (all_split G id _ Hid). change (own_pages (Some p, t)) with (p :: phys 3 t). cbn [app]. rewrite <- Permutation_middle. rewrite <- app_assoc. by rewrite Permutation_app_swap_app. }
  assert (p ∈ (list_to_set (L ++ all_pages G) : gset Z)) as Hp by (apply elem_of_list_to_set; rewrite E; set_solver +).
  unfold arch_mmu_destroy_aspace, get_arch_aspace. wp_step. do 2 wp_step. wp_step; [exact Ha|]. wp_step. wp_step; [by apply Z.eqb_eq|]. wp_step. wp_step; [by apply Z.eqb_eq|]. rewrite Gp.
  wp_step. apply pool_wp. eapply wp_mono; [exact (src_page (ms_pmm s) _ p H1 Hp)|]. intros o pm (-> & page & -> & Hw). wp_step. wp_step; [by apply bool_decide_eq_true|]. wp_step. wp_step; [done|]. wp_step. wp_step. wp_step. apply pool_wp. eapply wp_mono; [exact Hw|]. cbv beta.
  intros _ pm [Hok _]. unfold set_arch_aspace. do 3 wp_step. split; [done|]. rewrite Gt. cbn [root]. rewrite E in H2. apply list.NoDup_cons in H2 as [N1 N2]. split.
  - cbn [ms_pmm set_arch_aspaces set_ms_pmm]. apply (src_ok_eq _ _ _ Hok). intros x. rewrite elem_of_difference, !elem_of_list_to_set, E, elem_of_cons, elem_of_singleton. split; [tauto|]. intros Hx. split; [by right|]. by intros ->.
  - done.
  - intros j r u [Hne Hj]%lookup_delete_Some. destruct (H3 j r u Hj) as [Hr Hsh]. split; [|done]. destruct (sys_other G L s id (Some p) t j r u Hs Hid Hj ltac:(done)) as [[_ O1] O2]. cbn [root] in *.
    apply (rep_frame 3 _ _ (ms_tables s)); [done|cbn; by rewrite lookup_delete_ne by (by apply not_eq_sym)|]. intros q Hq. cbn. by rewrite lookup_delete_ne by (apply not_eq_sym; by apply O2).
  - intros j r u [Hne Hj]%lookup_delete_Some. cbn. rewrite lookup_insert_ne by done. by apply (H4 j r u).
  - intros i j u v [_ Hi]%lookup_delete_Some [_ Hj]%lookup_delete_Some. by apply (H5 i j u v).
Qed.

Lemma context_switch_wp G L s id p t tcr : sys G L s -> G !! id = Some (Some p, t) ->
  wp (arch_mmu_context_switch tcr (Some id)) (fun _ s' => sys G L s' /\ ms_ttbr0 s' = p) s.
Proof.
  intros Hs Hid. destruct (sy_aspace _ _ _ Hs id _ t Hid) as (a & Ha & [Gm Gt (Gk & Gp & _)]). unfold arch_mmu_context_switch, get_arch_aspace, ARM64_TLBI. wp_step. wp_step. do 2 wp_step. wp_step; [exact Ha|]. wp_step. wp_step; [by apply Z.eqb_eq|]. wp_step. wp_step; [by apply Z.eqb_eq|].
  do 6 wp_step. rewrite Gp. destruct Hs. by split.
Qed.
End aspaces.
