(* ===== verification/Arm64Pages.v ===== *)
(** * The pages of the arm64 page tables

    The page allocator of [vm/pmm.c] gives the page tables what they need, when the kernel maps its own memory linearly. *)

From stdpp Require Import base gmap list numbers.
From S2P Require Import Prelude Align ListNode Pmm PmmSpec HeapPages Arm64Mmu Arm64Spec.
Import Family.

Section pages.
Context {KM : KernelMap}.
Implicit Types (s : pmm) (a : pmm_arena) (T : gset Z) (p : Z).

(** An arena that the kernel has mapped at a distance, and that descriptors can point into. *)
Definition kernel_linear a : Prop := a_base a + a_size a <= 2 ^ 48 /\ exists off, forall pa, inside a pa -> kv pa = pa + off /\ v2p (pa + off) = pa /\ 0 < pa + off.

Definition kmap_arena s (id : nat) a : Prop := arenas s !! id = Some a /\ skip_arena PMM_ALLOC_FLAG_KMAP a = false.

(** The structure of a page that is mapped. *)
Definition page_struct s p (q : Z) : Prop := exists id a c, kmap_arena s id a /\ 0 <= c < page_count a /\ p = a_base a + c * 4096 /\ q = page_at a c.

Record tables_in s T : Prop := {
  ti_pinv : pinv s;
  ti_apart : mem_apart s;
  ti_mine : fq (plists s) (CallerList free_list) = [];
  ti_map : forall id a, kmap_arena s id a -> kernel_linear a;
  ti_free : forall p q, page_struct s p q -> pages s !! q = Some VM_PAGE_STATE_FREE -> kv p <> ktt;
  ti_pages : forall p, p ∈ T -> kv p <> ktt /\ exists q, page_struct s p q /\ pages s !! q = Some VM_PAGE_STATE_ALLOC /\ in_list q (plists s) = false }.

Definition room s : Z := Z.of_nat (length (avail PMM_ALLOC_FLAG_KMAP s)).

Lemma page_struct_alike s s' p q : alike s s' -> page_struct s p q -> page_struct s' p q.
Proof.
  intros E (id & a & c & [Ha Hk] & Hc & Ep & Eq). destruct (alike_lookup s' s id a (alike_sym _ _ E) Ha) as (b & Hb & E1 & E2 & E3 & E4). exists id, b, c.
  unfold page_count, page_at, kmap_arena, skip_arena in *. rewrite E1, E2, E3, E4. done.
Qed.

Lemma page_struct_inj s p p' q : pinv s -> page_struct s p q -> page_struct s p' q -> p = p'.
Proof.
  intros Hi (id & a & c & [Ha _] & Hc & -> & ->) (id' & b & d & [Hb _] & Hd & -> & E).
  assert (id = id') as <- by (apply (owner_unique s id id' a b (page_at a c)); [done|done|done|by exists c|by exists d]). rewrite Ha in Hb. injection Hb as <-. by apply page_at_inj in E as ->.
Qed.

Lemma page_struct_unique s p q q' : pinv s -> mem_apart s -> page_struct s p q -> page_struct s p q' -> q = q'.
Proof.
  intros Hi Hm (id & a & c & [Ha _] & Hc & -> & ->) (id' & b & d & [Hb _] & Hd & E & ->).
  assert (id = id') as <-. { apply (Hm id id' a b (a_base a + c * 4096)); [done|done|by eapply arena_inside|]. rewrite E. by eapply arena_inside. }
  rewrite Ha in Hb. injection Hb as <-. f_equal. lia.
Qed.

Lemma page_struct_facts s T p q : tables_in s T -> page_struct s p q -> good_page p /\ kv p <> 0 /\ v2p (kv p) = p.
Proof.
  intros [Hi _ _ Hm _ _] (id & a & c & [Ha Hk] & Hc & -> & ->). destruct (arena_inside s id a c Hi Ha Hc) as (Hin & Hb & H0). destruct (Hm id a ltac:(by split)) as (Hb48 & off & Hl). destruct (Hl _ Hin) as (E1 & E2 & E3).
  unfold inside in Hin. split; [split; [lia|]|rewrite E1; split; [lia|done]]. apply Z.divide_add_r; [done|by exists c].
Qed.

Lemma filter_out_length (l : list (nat * Z)) id p : NoDup l.*2 -> (id, p) ∈ l -> Z.of_nat (length (filter (fun x => x.2 <> p) l)) = Z.of_nat (length l) - 1.
Proof.
  induction l as [|[i q] l IH]; intros Hn Hin; [by apply not_elem_of_nil in Hin|]. cbn [fmap list_fmap snd] in Hn. apply list.NoDup_cons in Hn as [Hq Hn]. destruct (decide (q = p)) as [->|Hne].
  - rewrite filter_cons_False by (cbn; naive_solver). rewrite filter_id; [cbn [length]; lia|]. intros x Hx <-. apply Hq. by apply list_elem_of_fmap_2.
  - rewrite filter_cons_True by done. cbn [length]. rewrite !Nat2Z.inj_succ. rewrite IH; [lia|done|]. apply elem_of_cons in Hin as [[= _ ->]|Hin]; [done|done].
Qed.

Lemma run_of_one s id a c : kmap_arena s id a -> pinv s -> 0 <= c < page_count a -> pages s !! page_at a c = Some VM_PAGE_STATE_FREE ->
  takeable s [(id, page_at a c)] /\ (id, page_at a c) ∈ avail PMM_ALLOC_FLAG_KMAP s.
Proof.
  intros [Ha Hk] Hi Hc Hst. assert (page_at a c ∈ fq (plists s) (FreeList id)) as Hf by (apply (pi_free s Hi); exists a; split_and!; [done|by exists c|done]). split.
  - split; [cbn; apply NoDup_singleton|]. intros id' q [= -> ->]%list_elem_of_singleton. done.
  - apply list_elem_of_bind. exists id. split; [|apply (pi_arenas s Hi); eauto]. unfold avail_of. rewrite Ha, Hk. apply list_elem_of_fmap. by exists (page_at a c).
Qed.

(** Taking a free page. *)
Lemma tables_take s T id a c : tables_in s T -> kmap_arena s id a -> 0 <= c < page_count a -> pages s !! page_at a c = Some VM_PAGE_STATE_FREE ->
  let p := a_base a + c * 4096 in let s' := grabs None [(id, page_at a c)] s in
  good_page p /\ p ∉ T /\ tables_in s' ({[p]} ∪ T) /\ room s' = room s - 1 /\ v2p (kv p) = p.
Proof.
  intros H Hk Hc Hst p s'. pose proof H as [Hi Hm Hls Hl Hfr Hp]. destruct (run_of_one s id a c Hk Hi Hc Hst) as [Ht Hav]. assert (page_struct s p (page_at a c)) as Hq by (by exists id, a, c).
  destruct (page_struct_facts s T p _ H Hq) as (G1 & G2 & G3). assert (alike s s') as El by (intros id'; apply grabs_arenas). assert (pinv s') as Hi' by by apply grabs_pinv.
  split; [done|]. split; [|split; [|split; [|done]]].
  - intros Hin. destruct (Hp p Hin) as (_ & q & Hq' & Hst' & _). rewrite (page_struct_unique s p _ _ Hi Hm Hq Hq') in Hst. congruence.
  - split; [done|by apply (apart_alike s)|unfold s'; by rewrite grabs_caller, Hls| | |].
    + intros j b [Hb Hkb]. destruct (alike_lookup s s' j b El Hb) as (b' & Hb' & E1 & E2 & E3 & E4). unfold kernel_linear, inside. rewrite <- E2, <- E3. apply (Hl j b'). split; [done|]. unfold skip_arena in *. by rewrite E1.
    + intros p' q' Hq' Hst'. apply (Hfr p' q'); [by apply (page_struct_alike s' s), Hq'; apply alike_sym|]. unfold s' in Hst'. rewrite grabs_pages in Hst'. by case_decide.
    + intros p' [->%elem_of_singleton|Hin]%elem_of_union.
      * split; [by apply (Hfr p (page_at a c))|]. exists (page_at a c). split; [by apply (page_struct_alike s)|]. split; [by unfold s'; rewrite grabs_pages, decide_True by set_solver|]. apply grabs_unlinked; [done|done|set_solver +].
      * destruct (Hp p' Hin) as (Hne & q & Hq' & Hst' & Hnl). split; [done|]. exists q. assert (pages s' !! q = Some VM_PAGE_STATE_ALLOC) as Hs' by (unfold s'; rewrite grabs_pages; by case_decide). split; [by apply (page_struct_alike s)|]. split; [done|].
        apply unlisted; [done|done|]. intros l. unfold s'. rewrite grabs_caller, decide_False, app_nil_r by done. by apply in_list_false.
  - unfold room, avail, s'. cbn [grabs]. rewrite avail_in_grab. apply (filter_out_length _ id); [|exact Hav]. apply avail_nodup; [done|apply Hi].
Qed.

Lemma avail_of_give fl id p s i : in_list p (plists s) = false \/ (forall j, p ∉ fq (plists s) (FreeList j)) ->
  avail_of fl (give id p s) i = match arenas s !! i with Some a => if skip_arena fl a then [] else pair i <$> (if decide (i = id) then [p] else []) ++ fq (plists s) (FreeList i) | None => [] end.
Proof.
  intros Hp. assert (p ∉ fq (plists s) (FreeList i)) as Hn by (destruct Hp as [Hp|Hp]; [by apply in_list_false|done]).
  assert (fq (plists (give id p s)) (FreeList i) = (if decide (i = id) then [p] else []) ++ fq (plists s) (FreeList i)) as E.
  { cbn [plists give]. rewrite fq_add_head, fq_del, filter_id by (intros x Hx ->; done). destruct (decide (i = id)) as [->|Hne]; [by rewrite decide_True|by rewrite decide_False by congruence]. }
  unfold avail_of. rewrite E. cbn [arenas give]. rewrite recount_lookup. destruct (arenas s !! i) as [a|]; [|by repeat case_decide]. repeat case_decide; done || congruence.
Qed.

(** Giving a page back. *)
Lemma tables_give s T p q : tables_in s T -> p ∈ T -> page_struct s p q ->
  wp (pmm_free_page free_list q) (fun _ s' => tables_in s' (T ∖ {[p]}) /\ room s' = room s + 1) s.
Proof.
  intros H Hin Hq. pose proof H as [Hi Hm Hls Hl Hfr Hp]. destruct (Hp p Hin) as (Hkp & q' & Hq' & Hst & Hnl). rewrite <- (page_struct_unique s p _ _ Hi Hm Hq Hq') in *. clear q' Hq'.
  pose proof Hq as (id & a & c & [Ha Hk] & Hc & Ep & Eq). assert (in_array a q) as Hina by (by exists c). unfold pmm_free_page. apply wp_bind_assoc.
  eapply wp_mono; [by apply (free_page_setup s free_list q id a VM_PAGE_STATE_ALLOC)|]. intros _ s1 (Hi1 & Ea & Epg & E1 & El1 & Eal & Ef). eapply wp_mono; [by apply pmm_free_wp|]. rewrite E1. intros r s' (ips & E & Hr & -> & _).
  assert (exists id', ips = [(id', q)]) as [id' ->]. { destruct ips as [|[i x] [|y l]]; try done. cbn in E. injection E as ->. by exists i. }
  assert (id' = id) as ->. { destruct (proj2 Hr id' q ltac:(set_solver +)) as (b & st & Hb & Hinb & _). rewrite Ea in Hb. by apply (owner_unique s id' id b a q). }
  set (s' := gives [(id, q)] s1). assert (alike s s') as El by (intros j; unfold s'; rewrite gives_arenas; by rewrite Ea). assert (pinv s') as Hi' by by apply gives_pinv.
  split.
  - split; [done|by apply (apart_alike s)| | | |].
    + unfold s'. rewrite gives_caller, E1. apply filter_none. intros x ->%list_elem_of_singleton Hx. apply Hx. set_solver +.
    + intros j b [Hb Hkb]. destruct (alike_lookup s s' j b El Hb) as (b' & Hb' & F1 & F2 & F3 & F4). unfold kernel_linear, inside. rewrite <- F2, <- F3. apply (Hl j b'). split; [done|]. unfold skip_arena in *. by rewrite F1.
    + intros p' q' Hq' Hst'. assert (page_struct s p' q') as Hq0 by (by apply (page_struct_alike s' s), Hq'; apply alike_sym). unfold s' in Hst'. rewrite gives_pages in Hst'. case_decide as Hd; [|rewrite Epg in Hst'; by apply (Hfr p' q')].
      cbn in Hd. apply list_elem_of_singleton in Hd as ->. by rewrite (page_struct_inj s p' p q Hi Hq0 Hq).
    + intros p' [Hin' Hne%not_elem_of_singleton]%elem_of_difference. destruct (Hp p' Hin') as (Hkp' & q' & Hq' & Hst' & Hnl'). split; [done|]. exists q'. assert (q' <> q) as Hqq by (intros ->; by apply Hne, (page_struct_inj s p' p q)).
      assert (pages s' !! q' = Some VM_PAGE_STATE_ALLOC) as Hs' by (unfold s'; rewrite gives_pages, Epg; cbn; by rewrite decide_False by (by rewrite list_elem_of_singleton)). split; [by apply (page_struct_alike s)|]. split; [done|]. apply unlisted; [done|done|].
      intros l. unfold s'. rewrite gives_caller, list_elem_of_filter. intros [_ Hx]. destruct (decide (l = free_list)) as [->|Hlne]; [rewrite E1 in Hx; by apply list_elem_of_singleton in Hx|]. rewrite El1 in Hx by done. revert Hx. by apply in_list_false.
  - unfold room, avail, s'. cbn [gives arena_list give]. rewrite Eal. assert (NoDup (arena_list s) /\ id ∈ arena_list s) as [Hnd Hid] by (split; [apply Hi|apply (pi_arenas s Hi); eauto]).
    assert (forall j, q ∉ fq (plists s1) (FreeList j)) as Hnf by (intros j; rewrite Ef; by apply in_list_false). unfold avail_in.
    assert (forall l, NoDup l -> Z.of_nat (length (l ≫= avail_of PMM_ALLOC_FLAG_KMAP (give id q s1))) = Z.of_nat (length (l ≫= avail_of PMM_ALLOC_FLAG_KMAP s)) + if decide (id ∈ l) then 1 else 0) as Hlen; [|rewrite Hlen by done; by rewrite decide_True].
    induction l as [|i l IH]; intros Hn; [by rewrite decide_False by apply not_elem_of_nil|]. apply list.NoDup_cons in Hn as [Hi0 Hn]. rewrite !bind_cons, !length_app, !Nat2Z.inj_add, IH by done.
    assert (Z.of_nat (length (avail_of PMM_ALLOC_FLAG_KMAP (give id q s1) i)) = Z.of_nat (length (avail_of PMM_ALLOC_FLAG_KMAP s i)) + if decide (i = id) then 1 else 0) as ->.
    { rewrite avail_of_give by (by right). unfold avail_of. rewrite Ea, Ef. destruct (decide (i = id)) as [->|Hne]; [rewrite Ha, Hk; rewrite !length_fmap; cbn [app length]; lia|]. destruct (arenas s !! i) as [b|]; [|done]. destruct (skip_arena _ b); [done|]. cbn [app]. lia. }
    destruct (decide (i = id)) as [->|Hne]; [rewrite (decide_False (P := id ∈ l)), decide_True by (done || set_solver +); lia|]. destruct (decide (id ∈ l)); [rewrite decide_True by set_solver; lia|rewrite decide_False by set_solver; lia].
Qed.

(** ** The promises *)

Lemma room_pos : forall s, 0 <= room s.
Proof.
  intros s. unfold room. lia.
Qed.

Lemma tables_alloc : forall s T, tables_in s T ->
    wp (pmm_alloc_contiguous 1 PMM_ALLOC_FLAG_KMAP 12 None) (fun r s' =>
      (r = (0, None) /\ s' = s /\ room s = 0) \/
      exists p, r = (1, Some p) /\ good_page p /\ p ∉ T /\ tables_in s' ({[p]} ∪ T) /\ room s' = room s - 1) s.
Proof.
  intros s T H. pose proof (ti_pinv _ _ H) as Hi. eapply wp_mono; [by apply pmm_alloc_contiguous_wp; try done; lia|]. intros r s' [(-> & -> & Hno)|(id & a & c & _ & Ha & Hk & (C1 & C2 & _ & Hr) & -> & ->)].
  - left. split; [done|]. split; [done|]. unfold room. destruct (avail PMM_ALLOC_FLAG_KMAP s) as [|[id p] l] eqn:E; [done|]. exfalso. assert ((id, p) ∈ avail PMM_ALLOC_FLAG_KMAP s) as Hin by (rewrite E; set_solver +).
    apply list_elem_of_bind in Hin as (id' & Hin & Hid). pose proof (elem_of_avail_of _ _ _ _ _ Hin) as [<- Hf]. apply (pi_free s Hi) in Hf as (a & Ha & (c & Hc & ->) & Hst). unfold avail_of in Hin. rewrite Ha in Hin. destruct (skip_arena _ a) eqn:Hk; [set_solver|].
    apply (Hno id a c Hid Ha Hk). destruct (arena_inside s id a c Hi Ha Hc) as (_ & Hb & _). split; [lia|]. split; [lia|]. split; [apply Z.divide_add_r; [done|by exists c]|]. intros j Hj. by replace j with c by lia.
  - right. exists (a_base a + c * 4096). assert (0 <= c < page_count a) as Hc by lia. destruct (tables_take s T id a c H ltac:(by split) Hc (Hr c ltac:(lia))) as (T1 & T2 & T3 & T4 & _). split; [done|]. by split_and!.
Qed.

Lemma tables_kpage : forall s T, tables_in s T ->
    wp (pmm_alloc_kpages kv 1 None) (fun v s' =>
      (v = 0 /\ s' = s /\ room s = 0) \/
      exists p, v = kv p /\ v2p v = p /\ good_page p /\ p ∉ T /\ tables_in s' ({[p]} ∪ T) /\ room s' = room s - 1) s.
Proof.
  intros s T H. pose proof (ti_pinv _ _ H) as Hi. unfold pmm_alloc_kpages. change (1 =? 1) with true. cbn iota. wp_step. eapply wp_mono; [by apply pmm_alloc_page_wp|]. cbv beta. intros r s'. destruct (avail PMM_ALLOC_FLAG_KMAP s) as [|[id q] l] eqn:E.
  - intros [-> ->]. wp_step. left. split; [done|]. split; [done|]. unfold room. by rewrite E.
  - intros (-> & a & Ha & ->). assert ((id, q) ∈ avail PMM_ALLOC_FLAG_KMAP s) as Hin by (rewrite E; set_solver +). apply list_elem_of_bind in Hin as (id' & Hin & Hid). pose proof (elem_of_avail_of _ _ _ _ _ Hin) as [<- Hf].
    apply (pi_free s Hi) in Hf as (b & Hb & (c & Hc & ->) & Hst). rewrite Ha in Hb. injection Hb as <-. unfold avail_of in Hin. rewrite Ha in Hin. destruct (skip_arena _ a) eqn:Hk; [set_solver|].
    do 2 wp_step. wp_step. rewrite (page_address (boot_alloc_end s)) by (done || by apply (pi_arena s Hi id) || apply Hi). right. exists (a_base a + c * 4096).
    destruct (tables_take s T id a c H ltac:(by split) Hc Hst) as (T1 & T2 & T3 & T4 & T5). by split_and!.
Qed.

Lemma tables_page : forall s T p, tables_in s T -> p ∈ T -> wp (paddr_to_vm_page p) (fun r s' => s' = s /\ exists page, r = Some page /\
    wp (pmm_free_page free_list page) (fun _ s' => tables_in s' (T ∖ {[p]}) /\ room s' = room s + 1) s) s.
Proof.
  intros s T p H Hin. destruct (ti_pages _ _ H p Hin) as (_ & q & Hq & _). pose proof Hq as (id & a & c & [Ha Hk] & Hc & Ep & Eq). pose proof (ti_pinv _ _ H) as Hi.
  assert (inside a p) as Hins by (rewrite Ep; by eapply arena_inside). eapply wp_mono; [by apply (paddr_to_vm_page_wp s id a p Hi (ti_apart _ _ H) Ha)|]. intros r s' [-> ->]. split; [done|]. eexists. split; [done|].
  assert (page_of a p = q) as ->. { rewrite Ep, Eq. unfold page_of. f_equal. replace (a_base a + c * 4096 - a_base a) with (c * 4096) by lia. apply Z.div_mul. lia. }
  by apply tables_give.
Qed.

Lemma tables_addr : forall s T p, tables_in s T -> p ∈ T -> kv p <> 0 /\ kv p <> ktt.
Proof.
  intros s T p H Hin. destruct (ti_pages _ _ H p Hin) as (Hk & q & Hq & _). split; [|done]. by apply (page_struct_facts s T p q).
Qed.

Lemma tables_inj : forall s T p q, tables_in s T -> p ∈ T -> q ∈ T -> kv p = kv q -> p = q.
Proof.
  intros s T p p' H Hin Hin' E. destruct (ti_pages _ _ H p Hin) as (_ & q & Hq & _). destruct (ti_pages _ _ H p' Hin') as (_ & q' & Hq' & _). destruct (page_struct_facts s T p q H Hq) as (_ & _ & <-). destruct (page_struct_facts s T p' q' H Hq') as (_ & _ & <-). by rewrite E.
Qed.

#[export] Instance pmm_tables : TableSource := {|
  src_ok := tables_in; src_room := room; src_room_pos := room_pos; src_alloc := tables_alloc; src_kpage := tables_kpage;
  src_page := tables_page; src_addr := tables_addr; src_inj := tables_inj |}.
End pages.
