(* ===== verification/Arm64Theorems.v ===== *)
(** * Theorems about the arm64 page tables

    Over the kernel's page allocator: no sequence of calls faults; mapping, unmapping and looking up agree; and what goes wrong
    when memory is short or a block is unmapped in part. *)

From stdpp Require Import base gmap list numbers.
From S2P Require Import Prelude Align ListNode Pmm PmmSpec Arm64Mmu Arm64Spec Arm64Map Arm64Aspace Arm64Pages.

Section theorems.
Context {KM : KernelMap} (Hktt : ktt <> 0) (tcr : Z).
Implicit Types (s : mmu) (live : gset nat) (t : tree) (r : option Z).

(** What [arch_mmu_query] answers, with flags. *)
Definition translate s (id : nat) (v : Z) : option (Z * Z * Z) := match arch_mmu_query kv id v true s with Done o _ => Some o | Fault _ => None end.

(** Every descriptor has flags that [arch_mmu_query] knows. *)
Definition decodable (x : option Z * tree) : Prop := forall v pa w, in_table x.1 v -> trans x v = Some (pa, w) -> is_Some (pte_flags w).

Definition sound_with (G : gmap nat (option Z * tree)) (L : list Z) s live : Prop := sys G L s /\ dom G = live /\ forall id x, G !! id = Some x -> decodable x.
Definition sound s live : Prop := exists G L, sound_with G L s live.

Lemma sound_lookup G L s live id : sound_with G L s live -> id ∈ live -> exists r t, G !! id = Some (r, t).
Proof. intros (_ & <- & _) [[r t] H]%elem_of_dom. by exists r, t. Qed.

Lemma translate_eq G L s live id r t a v : sound_with G L s live -> G !! id = Some (r, t) -> ms_aspaces s !! id = Some a -> inside_aspace a v -> translate s id v = Some (query_result (trans (r, t) v) true).
Proof.
  intros (Hs & _ & Hd) Hid Ha Hv. destruct (sy_aspace _ _ _ Hs id r t Hid) as (a' & Ha' & Hga). rewrite Ha in Ha'. injection Ha' as <-. destruct (valid_rel a r v Hga Hv) as (_ & Hrel & _).
  pose proof (arch_mmu_query_wp Hktt G L s id r t a v true Hs Hid Ha Hv) as Hw. unfold wp in Hw. unfold translate. destruct (arch_mmu_query kv id v true s) as [o s'|]; [by destruct Hw as [_ ->]; [intros _ pa w Ht; by apply (Hd id (r, t) Hid v pa w)|]|].
  destruct Hw. intros _ pa w Ht. by apply (Hd id (r, t) Hid v pa w).
Qed.

Lemma sound_insert G L s s' live id r t t' : sound_with G L s live -> G !! id = Some (r, t) -> sys (<[id := (r, t')]> G) L s' -> decodable (r, t') -> sound_with (<[id := (r, t')]> G) L s' live.
Proof.
  intros (Hs & Hd & Hx) Hid Hs' Ht. split; [done|]. split; [rewrite dom_insert_lookup_L; [done|by eexists]|]. intros j x [(<- & <-)|(_ & Hj)]%lookup_insert_Some; [done|by apply (Hx j)].
Qed.

Lemma map_decodable r t t' va pa n fl s err : decodable (r, t) -> map_result r t t' va pa n fl s err -> decodable (r, t').
Proof.
  intros Hd [(_ & _ & [M1 M2] & _)|(_ & Hsame & _)] v p w Hv Ht.
  - destruct (decide (va <= v < va + n * 4096)) as [Hin|Hout]; [destruct (M1 v Hin) as (_ & w' & E & F); rewrite E in Ht; injection Ht as _ <-; by rewrite F|]. rewrite M2 in Ht by (done || lia). by apply (Hd v p).
  - rewrite Hsame in Ht by done. by apply (Hd v p).
Qed.

Lemma unmap_decodable r t t' va n s s' err : decodable (r, t) -> unmap_result r t t' va n s s' err -> decodable (r, t').
Proof. intros Hd [_ [(_ & H & _)|(_ & -> & _)]] v p w Hv Ht; [|by apply (Hd v p)]. rewrite H in Ht by done. destruct (meets _ _ _ _ _); [done|]. by apply (Hd v p). Qed.

(** ** The calls, in any order *)

Inductive arm_op :=
| Map (id : nat) (va pa count flags : Z)
| Unmap (id : nat) (va count : Z)
| Query (id : nat) (va : Z)
| InitUser (id : nat) (base size flags : Z)
| Destroy (id : nat)
| Switch (id : option nat).

Definition on_mmu {X} (m : M mmu X) : M (mmu * gset nat) X :=
  fun '(s, live) => match m s with Done x s' => Done x (s', live) | Fault e => Fault e end.

Definition run_arm (op : arm_op) : M (mmu * gset nat) unit :=
  match op with
  | Map id va pa count flags => do _ <- on_mmu (arch_mmu_map kv v2p free_list heap_memalign heap_free id va pa count flags); ret tt
  | Unmap id va count => do _ <- on_mmu (arch_mmu_unmap kv free_list heap_free id va count); ret tt
  | Query id va => do _ <- on_mmu (arch_mmu_query kv id va true); ret tt
  | InitUser id base size flags =>
      do err <- on_mmu (arch_mmu_init_aspace kv v2p ktt id base size flags);
      when (err =? 0) (modify (fun '(s, live) => (s, {[id]} ∪ live)))
  | Destroy id => do _ <- on_mmu (arch_mmu_destroy_aspace free_list id); modify (fun '(s, live) => (s, live ∖ {[id]}))
  | Switch id => on_mmu (arch_mmu_context_switch tcr id)
  end.

Definition user_aspace s (id : nat) : Prop := exists a, ms_aspaces s !! id = Some a /\ Z.land (aa_flags a) ARCH_ASPACE_FLAG_KERNEL = 0.

Definition legal_arm '((s, live) : mmu * gset nat) (op : arm_op) : Prop :=
  match op with
  | Map id va pa count flags => id ∈ live /\ exists a, ms_aspaces s !! id = Some a /\ map_args a va pa count flags
  | Unmap id va count => id ∈ live /\ exists a, ms_aspaces s !! id = Some a /\ inside_aspace a va /\ (4096 | va) /\ 0 <= count < 2 ^ 32
  | Query id va => id ∈ live /\ exists a, ms_aspaces s !! id = Some a /\ inside_aspace a va
  | InitUser id base size flags => aa_magic (default blank_aspace (ms_aspaces s !! id)) <> ARCH_ASPACE_MAGIC /\ 0 <= base /\ 4096 < size /\ base + size <= 2 ^ 48 /\ Z.land flags ARCH_ASPACE_FLAG_KERNEL = 0
  | Destroy id | Switch (Some id) => id ∈ live /\ user_aspace s id
  | Switch None => True
  end.

Definition arm_step (c c' : mmu * gset nat) : Prop := exists op, legal_arm c op /\ run_arm op c = Done tt c'.

Lemma on_mmu_wp {X} (m : M mmu X) Q s live : wp m (fun x s' => Q x (s', live)) s -> wp (on_mmu m) Q (s, live).
Proof. unfold wp, on_mmu. by destruct (m s). Qed.

Lemma user_root G L s live id r t : sound_with G L s live -> G !! id = Some (r, t) -> user_aspace s id -> exists p, r = Some p.
Proof.
  intros (Hs & _) Hid (a & Ha & Hf). destruct (sy_aspace _ _ _ Hs id r t Hid) as (a' & Ha' & [_ _ Hk]). rewrite Ha in Ha'. injection Ha' as <-. destruct r as [p|]; [by exists p|]. by destruct Hk as [? _].
Qed.

Lemma empty_decodable r : decodable (r, empty_table).
Proof. intros v pa w _. unfold trans. cbn [fst snd]. by rewrite look_empty. Qed.

Lemma run_arm_wp op s live : sound s live -> legal_arm (s, live) op -> wp (run_arm op) (fun _ '(s', live') => sound s' live') (s, live).
Proof.
  intros (G & L & Hs) Hl. pose proof Hs as (Hsys & Hdom & Hdec). destruct op as [id va pa n fl|id va n|id va|id base size fl|id|[id|]]; cbn [run_arm legal_arm] in *.
  - destruct Hl as (Hin & a & Ha & Hargs). destruct (sound_lookup G L s live id Hs Hin) as (r & t & Hid). wp_step. apply on_mmu_wp. eapply wp_mono; [by apply (arch_mmu_map_wp Hktt G L s id r t a)|]. cbv beta. intros err s' (t' & (Hs' & _) & Hr). wp_step.
    eexists _, L. apply (sound_insert G L s s' live id r t t'); try done. eapply map_decodable; [|exact Hr]. by apply (Hdec id).
  - destruct Hl as (Hin & a & Ha & Hins & Hd & Hn). destruct (sound_lookup G L s live id Hs Hin) as (r & t & Hid). wp_step. apply on_mmu_wp. eapply wp_mono; [by apply (arch_mmu_unmap_wp Hktt G L s id r t a)|]. cbv beta. intros err s' (t' & (Hs' & _) & Hr). wp_step.
    eexists _, L. apply (sound_insert G L s s' live id r t t'); try done. eapply unmap_decodable; [|exact Hr]. by apply (Hdec id).
  - destruct Hl as (Hin & a & Ha & Hins). destruct (sound_lookup G L s live id Hs Hin) as (r & t & Hid). wp_step. apply on_mmu_wp. eapply wp_mono; [apply (arch_mmu_query_wp Hktt G L s id r t a va true); try done|].
    + intros _ pa w Ht. destruct (sy_aspace _ _ _ Hsys id r t Hid) as (a' & Ha' & Hga). rewrite Ha in Ha'. injection Ha' as <-. destruct (valid_rel a r va Hga Hins) as (_ & Hrel & _). by apply (Hdec id _ Hid va pa w).
    + cbv beta. intros o s' [-> _]. wp_step. by exists G, L.
  - destruct Hl as (Hm & Hb & Hsz & He & Hf). wp_step. apply on_mmu_wp. eapply wp_mono; [by apply (init_user_wp G L s id base size fl)|]. cbv beta. intros err s' [(-> & _ & Hs')|(-> & p & Hs')].
    + change (ERR_NO_MEMORY =? 0) with false. cbn [when]. wp_step. by exists G, L.
    + change (0 =? 0) with true. cbn [when]. wp_step. exists (<[id := (Some p, empty_table)]> G), L. split; [done|]. split; [by rewrite dom_insert_L, Hdom|]. intros j x [(<- & <-)|(_ & Hj)]%lookup_insert_Some; [apply empty_decodable|by apply (Hdec j)].
  - destruct Hl as (Hin & Hu). destruct (sound_lookup G L s live id Hs Hin) as (r & t & Hid). destruct (user_root G L s live id r t Hs Hid Hu) as [p ->]. wp_step. apply on_mmu_wp. eapply wp_mono; [by apply (destroy_wp G L s id p t)|]. cbv beta. intros err s' (_ & Hs'). wp_step.
    exists (delete id G), (phys 3 t ++ L). split; [done|]. split; [by rewrite dom_delete_L, Hdom|]. intros j x [_ Hj]%lookup_delete_Some. by apply (Hdec j).
  - destruct Hl as (Hin & Hu). destruct (sound_lookup G L s live id Hs Hin) as (r & t & Hid). destruct (user_root G L s live id r t Hs Hid Hu) as [p ->]. apply on_mmu_wp. eapply wp_mono; [by apply (context_switch_wp G L s id p t)|]. cbv beta. intros _ s' (Hs' & _). by exists G, L.
  - apply on_mmu_wp. unfold arch_mmu_context_switch. do 3 wp_step. exists G, L. split; [|done]. destruct Hsys. by split.
Qed.
(** The state at boot: the tables of the kernel that the start-up code has made, and no address space. *)
Record boots s t : Prop := {
  bo_pmm : tables_in (ms_pmm s) (list_to_set (phys 3 t));
  bo_nodup : NoDup (phys 3 t);
  bo_tables : rep 3 ktt t (ms_tables s);
  bo_shape : shape 3 t;
  bo_flags : decodable (None, t);
  bo_none : ms_aspaces s = ∅ }.

Lemma boots_kernel kid s t : boots s t ->
  wp (arch_mmu_init_aspace kv v2p ktt kid kernel_base (2 ^ 48) ARCH_ASPACE_FLAG_KERNEL) (fun err s0 => err = 0 /\ sound_with {[kid := (None, t)]} [] s0 {[kid]}) s.
Proof.
  intros [B1 B2 B3 B4 B5 B6]. eapply wp_mono; [apply (init_kernel_wp ∅ [] s kid t); try done; [|by rewrite B6]|].
  - rewrite app_nil_r. split; try done; by rewrite app_nil_r.
  - cbv beta. intros err s0 (-> & Hs). split; [done|]. split; [done|]. split; [apply dom_singleton_L|]. by intros id x [_ <-]%lookup_singleton_Some.
Qed.

Lemma boots_sound kid s t : boots s t -> wp (arch_mmu_init_aspace kv v2p ktt kid kernel_base (2 ^ 48) ARCH_ASPACE_FLAG_KERNEL) (fun err s0 => err = 0 /\ sound s0 {[kid]}) s.
Proof. intros Hb. eapply wp_mono; [by apply boots_kernel|]. cbv beta. intros err s0 (He & Hs). split; [done|]. by eexists _, _. Qed.

(** C6. Once the kernel's address space has been set up on the tables of the start-up code, no sequence of calls faults: mapping, unmapping and looking up in
    live address spaces, making and destroying those of users and switching between them never read or write beside a table or in a table that was freed,
    never panic on a descriptor and never hand a page back twice; the tables of all address spaces stay apart. *)
Theorem arm64_mmu_sound kid s t s0 c op (Hb : boots s t) (Hi : arch_mmu_init_aspace kv v2p ktt kid kernel_base (2 ^ 48) ARCH_ASPACE_FLAG_KERNEL s = Done 0 s0)
  (Hr : rtc arm_step (s0, {[kid]}) c) (Hl : legal_arm c op) : exists c', run_arm op c = Done tt c' /\ sound c'.1 c'.2.
Proof.
  assert (sound c.1 c.2) as Hc.
  { pose proof (boots_sound kid s t Hb) as Hw. unfold wp in Hw. rewrite Hi in Hw. destruct Hw as [_ H0]. change (sound (s0, {[kid]} : gset nat).1 (s0, {[kid]} : gset nat).2) in H0. revert H0. clear Hi Hb Hl. induction Hr as [c|c1 c2 c3 (op' & Hl & Hrun) _ IH]; [done|].
    intros H1. apply IH. destruct c1 as [s1 l1]. pose proof (run_arm_wp op' s1 l1 H1 Hl) as Hw. unfold wp in Hw. rewrite Hrun in Hw. by destruct c2. }
  destruct c as [s1 l1]. pose proof (run_arm_wp op s1 l1 Hc Hl) as Hw. unfold wp in Hw. destruct (run_arm op (s1, l1)) as [[] [s2 l2]|]; [|done]. by exists (s2, l2).
Qed.

(** ** Translations *)

(** Addresses that can be asked for. *)
Definition askable s live (j : nat) (v : Z) : Prop := j ∈ live /\ exists b, ms_aspaces s !! j = Some b /\ inside_aspace b v.

Lemma other_translations G L s s' live id r t t' j v : sound_with G L s live -> sound_with (<[id := (r, t')]> G) L s' live -> ms_aspaces s' = ms_aspaces s -> G !! id = Some (r, t) -> askable s live j v ->
  (j = id -> trans (r, t') v = trans (r, t) v) -> translate s' j v = translate s j v.
Proof.
  intros Hs Hs' Ea Hid (Hj & b & Hb & Hin) Hsame. destruct (sound_lookup G L s live j Hs Hj) as (rj & tj & Hjd). rewrite (translate_eq G L s live j rj tj b v) by done. destruct (decide (j = id)) as [->|Hne].
  - rewrite Hid in Hjd. injection Hjd as -> ->. rewrite (translate_eq (<[id := (rj, t')]> G) L s' live id rj t' b v); [by rewrite Hsame|done|apply lookup_insert_eq|by rewrite Ea|done].
  - rewrite (translate_eq (<[id := (r, t')]> G) L s' live j rj tj b v); [done|done|by rewrite lookup_insert_ne|by rewrite Ea|done].
Qed.

Lemma aspace_in_table G L s live id r t a v : sound_with G L s live -> G !! id = Some (r, t) -> ms_aspaces s !! id = Some a -> inside_aspace a v -> in_table r v.
Proof. intros (Hs & _) Hid Ha Hin. destruct (sy_aspace _ _ _ Hs id r t Hid) as (a' & Ha' & Hga). rewrite Ha in Ha'. injection Ha' as <-. destruct (valid_rel a r v Hga Hin) as (_ & Hrel & _). exact Hrel. Qed.

Lemma askable_id s live id a v : askable s live id v -> ms_aspaces s !! id = Some a -> inside_aspace a v.
Proof. intros (_ & b & Hb & Hin) Ha. congruence. Qed.

(** C7. [arch_mmu_map] does what its name says.  When it returns success, every address of the range had no translation before and has the physical address asked for and the flags
    asked for now, and the answers for all other addresses of all address spaces are what they were; when it fails, no answer has changed. *)
Theorem arm64_map_exact s live id a va pa n fl (Hs : sound s live) (Hid : id ∈ live) (Ha : ms_aspaces s !! id = Some a) (Hargs : map_args a va pa n fl) :
  wp (arch_mmu_map kv v2p free_list heap_memalign heap_free id va pa n fl) (fun err s' => sound s' live /\
    if err =? 0 then
      (forall v, va <= v < va + n * 4096 -> askable s live id v -> translate s id v = Some (ERR_NOT_FOUND, 0, 0) /\ translate s' id v = Some (0, pa + (v - va), Z.land fl 63)) /\
      (forall j v, askable s live j v -> j <> id \/ v < va \/ va + n * 4096 <= v -> translate s' j v = translate s j v)
    else forall j v, askable s live j v -> translate s' j v = translate s j v) s.
Proof.
  destruct Hs as (G & L & Hs). pose proof Hs as (Hsys & _ & Hdec). destruct (sound_lookup G L s live id Hs Hid) as (r & t & Hg). eapply wp_mono; [by apply (arch_mmu_map_wp Hktt G L s id r t a)|]. cbv beta. intros err s' (t' & (Hs' & Ea) & Hr).
  assert (sound_with (<[id := (r, t')]> G) L s' live) as Hs2 by (apply (sound_insert G L s s' live id r t t'); try done; eapply map_decodable; [|exact Hr]; by apply (Hdec id)). split; [by eexists _, _|].
  destruct Hr as [(-> & _ & [M1 M2] & _)|(He & Hsame & _)].
  - change (0 =? 0) with true. cbn iota. split.
    + intros v Hv Hq. pose proof (askable_id s live id a v Hq Ha) as Hin. destruct (M1 v Hv) as (N & w & E & F). split; [rewrite (translate_eq G L s live id r t a v) by done; by rewrite N|].
      rewrite (translate_eq (<[id := (r, t')]> G) L s' live id r t' a v); [rewrite E; cbn; by rewrite F|done|apply lookup_insert_eq|by rewrite Ea|done].
    + intros j v Hq Hout. eapply other_translations; try done. intros ->. pose proof (askable_id s live id a v Hq Ha) as Hin. apply M2; [by apply (aspace_in_table G L s live id r t a)|]. by destruct Hout.
  - rewrite (proj2 (Z.eqb_neq err 0)) by lia. intros j v Hq. eapply other_translations; try done. intros ->. apply Hsame. apply (aspace_in_table G L s live id r t a); try done. by apply (askable_id s live id a v Hq Ha).
Qed.

(** C19. [arch_mmu_map] succeeds when it can: for a range inside the table that nothing is mapped in, with as many free pages as the range can need tables and no table left over from a failure. *)
Theorem arm64_map_succeeds G L s live id r t a va pa n fl (Hs : sound_with G L s live) (Hg : G !! id = Some (r, t)) (Ha : ms_aspaces s !! id = Some a) (Hargs : map_args a va pa n fl)
  (Hend : va - origin r + n * 4096 <= 2 ^ 48) (Hfree : forall v, va <= v < va + n * 4096 -> trans (r, t) v = None) (Hroom : need 3 (va - origin r) (n * 4096) <= room (ms_pmm s)) (Htidy : tidy 3 t) :
  wp (arch_mmu_map kv v2p free_list heap_memalign heap_free id va pa n fl) (fun err s' => err = 0 /\ exists t', sound_with (<[id := (r, t')]> G) L s' live /\ tidy 3 t') s.
Proof.
  pose proof Hs as (Hsys & _ & Hdec). eapply wp_mono; [by apply (arch_mmu_map_wp Hktt G L s id r t a)|]. cbv beta. intros err s' (t' & (Hs' & Ea) & Hr).
  assert (sound_with (<[id := (r, t')]> G) L s' live) as Hs2 by (apply (sound_insert G L s s' live id r t t'); try done; eapply map_decodable; [|exact Hr]; by apply (Hdec id)).
  destruct Hr as [(-> & _ & _ & Ht)|(_ & _ & Hno)]; [split; [done|]; exists t'; split; [done|by apply Ht]|]. exfalso. destruct Hno as [Hno|[(v & Hv & Hno)|[Hno|Hno]]]; [lia|by apply Hno, Hfree|change (src_room (ms_pmm s)) with (room (ms_pmm s)) in Hno; lia|done].
Qed.


(** C21. Mapping a range and unmapping it again gives every address of every address space the translation it had before, and a mapping that fails does too. *)
Theorem arm64_map_unmap_roundtrip s live id a va pa n fl (Hs : sound s live) (Hid : id ∈ live) (Ha : ms_aspaces s !! id = Some a) (Hargs : map_args a va pa n fl) (Hend : va + n * 4096 <= aa_base a + aa_size a) :
  wp (do err <- arch_mmu_map kv v2p free_list heap_memalign heap_free id va pa n fl;
      if err =? 0 then arch_mmu_unmap kv free_list heap_free id va n else ret err)
    (fun _ s' => sound s' live /\ forall j v, askable s live j v -> translate s' j v = translate s j v) s.
Proof.
  destruct Hs as (G & L & Hs). pose proof Hs as (Hsys & _ & Hdec). destruct (sound_lookup G L s live id Hs Hid) as (r & t & Hg). pose proof Hargs as [[Hin Hd] _ Hn _].
  assert (va - origin r + n * 4096 <= 2 ^ 48) as Hend'. { destruct (sy_aspace _ _ _ Hsys id r t Hg) as (a' & Ha' & [_ _ Hk]). rewrite Ha in Ha'. injection Ha' as <-. pose proof kernel_base_eq. destruct r; cbn [origin]; lia. }
  pose proof (aspace_in_table G L s live id r t a va Hs Hg Ha Hin) as Hva. unfold in_table in Hva.
  wp_step. eapply wp_mono; [by apply (arch_mmu_map_wp Hktt G L s id r t a)|]. cbv beta. intros err s1 (t1 & (Hs1 & Ea) & Hr).
  assert (sound_with (<[id := (r, t1)]> G) L s1 live) as Hs2 by (apply (sound_insert G L s s1 live id r t t1); try done; eapply map_decodable; [|exact Hr]; by apply (Hdec id)).
  destruct Hr as [(-> & Hex & _)|(He & Hsame & _)].
  - change (0 =? 0) with true. cbn iota. eapply wp_mono; [apply (arch_mmu_unmap_wp Hktt (<[id := (r, t1)]> G) L s1 id r t1 a va n); try done; [apply lookup_insert_eq|by rewrite Ea]|]. cbv beta. intros err s2 (t2 & (Hs3 & Ea2) & Hr2).
    pose proof (sound_insert _ L s1 s2 live id r t1 t2 Hs2 (lookup_insert_eq _ _ _) Hs3) as Hs4. rewrite insert_insert_eq in Hs3, Hs4. specialize (Hs4 ltac:(eapply unmap_decodable; [|exact Hr2]; apply (proj2 (proj2 Hs2) id); apply lookup_insert_eq)).
    split; [by eexists _, _|]. intros j v Hq. eapply other_translations; try done; [congruence|]. intros ->. pose proof (aspace_in_table G L s live id r t a v Hs Hg Ha (askable_id s live id a v Hq Ha)) as Hv.
    destruct Hr2 as (_ & [(-> & Htr & _)|(_ & _ & Hno)]); [|lia]. rewrite Htr by done. destruct (sy_tree _ _ _ Hs1 id r t1 (lookup_insert_eq _ _ _)) as [_ Hsh].
    pose proof (unmap_extends 3 t t1 _ _ pa _ (v - origin r) Hsh Hex ltac:(lia) Hend' Hv) as E. rewrite unmap_look in E by done. replace (va - origin r + n * 4096 - (va - origin r)) with (n * 4096) in E by lia.
    unfold trans, meets. cbn [fst snd]. rewrite <- E. destruct (look 3 t1 (v - origin r)) as [[w b]|]; [|done]. cbn. by destruct (touched _ _ _ _).
  - rewrite (proj2 (Z.eqb_neq err 0)) by lia. wp_step. split; [by eexists _, _|]. intros j v Hq. eapply other_translations; try done. intros ->. apply Hsame. apply (aspace_in_table G L s live id r t a); try done. by apply (askable_id s live id a v Hq Ha).
Qed.
End theorems.

(** ** A machine *)

Module ArmExample.

(** The memory of [PmmExample] has four pages that the kernel has mapped, 4 GiB up; its own first table is below. *)
#[export] Instance kernel_map : KernelMap := {|
  kv := PmmExample.p2v; v2p := PmmExample.v2p; ktt := 4096; free_list := 7%nat; heap_memalign := fun _ _ => ret 0; heap_free := fun _ => ret tt |}.

Definition s_boot : mmu := MmuState PmmExample.s2 {[4096 := replicate 512 0]} ∅ [] 0 0.

Definition after {X} (m : M mmu X) (s : mmu) : mmu := match m s with Done _ s' => s' | Fault _ => s end.
Definition result {X} (m : M mmu X) (s : mmu) : option X := match m s with Done x _ => Some x | Fault _ => None end.

(** The kernel's address space is 0 and a user's is 1. *)
Definition s_kernel : mmu := after (arch_mmu_init_aspace kv v2p ktt 0 kernel_base (2 ^ 48) ARCH_ASPACE_FLAG_KERNEL) s_boot.
Definition s_user : mmu := after (arch_mmu_init_aspace kv v2p ktt 1 0x1000000 0xfffffe000000 0) s_kernel.

Lemma s2_tables : tables_in PmmExample.s2 ∅.
Proof.
  assert (forall id a, arenas PmmExample.s2 !! id = Some a -> 0 <= a_base a /\ a_base a + a_size a <= 2 ^ 20) as Hsm.
  { intros id a Ha. destruct (PmmExample.s2_arenas id a Ha) as [(_ & -> & ->)|(_ & -> & ->)]; lia. }
  split; [apply PmmExample.s2_pinv| |by vm_compute| | |set_solver +].
  - intros id1 id2 a b x Ha Hb Ia Ib. unfold inside in *. apply PmmExample.s2_arenas in Ha, Hb. destruct Ha as [(-> & E1 & E2)|(-> & E1 & E2)], Hb as [(-> & E3 & E4)|(-> & E3 & E4)]; (reflexivity || lia).
  - intros id a [Ha _]. specialize (Hsm id a Ha). split; [lia|]. exists (2 ^ 32). intros pa Hin. unfold inside in Hin. unfold kv, v2p, kernel_map, PmmExample.p2v, PmmExample.v2p. lia.
  - intros p q (id & a & c & [Ha _] & Hc & -> & _) _. specialize (Hsm id a Ha). unfold kv, ktt, kernel_map, PmmExample.p2v. lia.
Qed.

Lemma boots_boot : boots s_boot empty_table.
Proof.
  split; [rewrite empty_phys; apply s2_tables|rewrite empty_phys; constructor| |apply shape_empty|apply empty_decodable|reflexivity].
  split; [cbn [ms_tables s_boot ktt kernel_map]; rewrite lookup_singleton_eq; by rewrite empty_words|]. intros i p t H. unfold empty_table in H. cbn [entries] in H. by apply lookup_replicate in H as [? _].
Qed.

Lemma ktt_nonzero : ktt <> 0.
Proof. done. Qed.

Lemma wp_after {X} (m : M mmu X) s Q x : wp m Q s -> result m s = Some x -> Q x (after m s).
Proof. unfold wp, result, after. destruct (m s); [|done]. by intros H [= ->]. Qed.

(** Both address spaces are there, with empty tables. *)
Lemma user_sound : exists p, sound_with (<[1%nat := (Some p, empty_table)]> {[0%nat := (None, empty_table)]}) [] s_user {[1%nat; 0%nat]}.
Proof.
  destruct (wp_after _ _ _ 0 (boots_kernel 0 s_boot empty_table boots_boot)) as [_ Hs]; [by vm_compute|]. fold s_kernel in Hs. destruct Hs as (Hs & Hdom & Hdec).
  destruct (wp_after _ _ _ 0 (init_user_wp _ [] s_kernel 1 0x1000000 0xfffffe000000 0 Hs ltac:(by vm_compute) ltac:(lia) ltac:(lia) ltac:(lia) eq_refl)) as [(? & _)|(_ & p & Hs')]; [by vm_compute|discriminate|]. fold s_user in Hs'.
  exists p. split; [exact Hs'|]. split; [by rewrite dom_insert_L, Hdom|].
  intros j x [(_ & <-)|(_ & H)]%lookup_insert_Some; [apply empty_decodable|by apply (Hdec j)].
Qed.

Definition aspace1 : arch_aspace := ArchAspace ARCH_ASPACE_MAGIC 0x9000 0x100009000 0 0x1000000 0xfffffe000000.

Lemma aspace1_there : ms_aspaces s_user !! 1%nat = Some aspace1.
Proof. by vm_compute. Qed.

Lemma page_args : map_args aspace1 0x40000000 0x200000 1 20.
Proof. split; [split; [by unfold inside_aspace; cbn; lia|by exists 0x40000]|split; [lia|split; [by exists 0x200|lia]]|lia|done]. Qed.

Lemma arm64_mmu_sound_witness : exists c', run_arm 0 (Map 0 kernel_base 0x200000 1 0) (s_kernel, {[0%nat]}) = Done tt c' /\ sound c'.1 c'.2.
Proof.
  apply (arm64_mmu_sound ktt_nonzero 0 0 s_boot empty_table s_kernel); [apply boots_boot|by vm_compute|apply rtc_refl|].
  split; [set_solver +|]. exists (ArchAspace ARCH_ASPACE_MAGIC (v2p ktt) ktt ARCH_ASPACE_FLAG_KERNEL kernel_base (2 ^ 48)). split; [by vm_compute|].
  split; [split; [by vm_compute|by exists (kernel_base / 4096)]|split; [lia|split; [by exists 0x200|lia]]|lia|done].
Defined.

Lemma arm64_map_exact_witness : wp (arch_mmu_map kv v2p free_list heap_memalign heap_free 1 0x40000000 0x200000 1 20) (fun err s' => sound s' {[1%nat; 0%nat]} /\
    if err =? 0 then
      (forall v, 0x40000000 <= v < 0x40000000 + 1 * 4096 -> askable s_user {[1%nat; 0%nat]} 1 v -> translate s_user 1 v = Some (ERR_NOT_FOUND, 0, 0) /\ translate s' 1 v = Some (0, 0x200000 + (v - 0x40000000), Z.land 20 63)) /\
      (forall j v, askable s_user {[1%nat; 0%nat]} j v -> j <> 1%nat \/ v < 0x40000000 \/ 0x40000000 + 1 * 4096 <= v -> translate s' j v = translate s_user j v)
    else forall j v, askable s_user {[1%nat; 0%nat]} j v -> translate s' j v = translate s_user j v) s_user.
Proof.
  apply (arm64_map_exact ktt_nonzero s_user {[1%nat; 0%nat]} 1 aspace1); [|set_solver +|exact aspace1_there|exact page_args]. destruct user_sound as [p Hp]. by eexists _, _.
Defined.

(** Four levels, three of them new: the three pages that are left. *)
Lemma arm64_map_succeeds_witness : exists p, wp (arch_mmu_map kv v2p free_list heap_memalign heap_free 1 0x40000000 0x200000 1 20) (fun err s' => err = 0 /\
    exists t', sound_with (<[1%nat := (Some p, t')]> (<[1%nat := (Some p, empty_table)]> {[0%nat := (None, empty_table)]})) [] s' {[1%nat; 0%nat]} /\ tidy 3 t') s_user.
Proof.
  destruct user_sound as [p Hp]. exists p. apply (arm64_map_succeeds ktt_nonzero _ [] s_user {[1%nat; 0%nat]} 1 (Some p) empty_table aspace1); [exact Hp|apply lookup_insert_eq|exact aspace1_there|exact page_args|by vm_compute| |by vm_compute|apply empty_tidy].
  intros v _. unfold trans. cbn [fst snd]. by rewrite look_empty.
Defined.

Definition s_mapped : mmu := after (arch_mmu_map kv v2p free_list heap_memalign heap_free 1 0x40000000 0x200000 1 20) s_user.

Lemma mapped_translation : translate s_mapped 1 0x40000123 = Some (0, 0x200123, 20) /\ translate s_mapped 1 0x40001000 = Some (ERR_NOT_FOUND, 0, 0).
Proof. by vm_compute. Qed.

Lemma mapped_sound : exists p t, sound_with (<[1%nat := (Some p, t)]> {[0%nat := (None, empty_table)]}) [] s_mapped {[1%nat; 0%nat]}.
Proof.
  destruct user_sound as [p Hp]. pose proof Hp as (Hs & _ & Hd).
  destruct (wp_after _ _ _ 0 (arch_mmu_map_wp ktt_nonzero _ [] s_user 1 (Some p) empty_table aspace1 0x40000000 0x200000 1 20 Hs (lookup_insert_eq _ _ _) aspace1_there page_args)) as (t & (Hs' & _) & Hr); [by vm_compute|].
  fold s_mapped in Hs'. exists p, t. pose proof (sound_insert _ [] s_user s_mapped _ 1 (Some p) empty_table t Hp (lookup_insert_eq _ _ _) Hs') as Hx.
  rewrite insert_insert_eq in Hx. apply Hx. eapply map_decodable; [apply empty_decodable|exact Hr].
Qed.


Lemma arm64_map_unmap_roundtrip_witness :
  wp (do err <- arch_mmu_map kv v2p free_list heap_memalign heap_free 1 0x40000000 0x200000 1 20;
      if err =? 0 then arch_mmu_unmap kv free_list heap_free 1 0x40000000 1 else ret err)
    (fun _ s' => sound s' {[1%nat; 0%nat]} /\ forall j v, askable s_user {[1%nat; 0%nat]} j v -> translate s' j v = translate s_user j v) s_user.
Proof.
  apply (arm64_map_unmap_roundtrip ktt_nonzero s_user {[1%nat; 0%nat]} 1 aspace1); [|set_solver +|exact aspace1_there|exact page_args|by vm_compute]. destruct user_sound as [p Hp]. by eexists _, _.
Defined.

(** ** Defects *)

Definition s_block : mmu := after (arch_mmu_map kv v2p free_list heap_memalign heap_free 1 0x40000000 0x200000 512 20) s_user.


(** Two free pages are left: two of the three tables that a page needs. *)
Definition s_short : mmu := after (pool (pmm_alloc_page PMM_ALLOC_FLAG_KMAP)) s_user.
Definition s_failed : mmu := after (arch_mmu_map kv v2p free_list heap_memalign heap_free 1 0x40000000 0x200000 1 20) s_short.


(** Flags that name no kind of memory are not refused: the error code becomes the attributes of the descriptor, and the page is mapped at the last physical address instead of the one that was asked for. *)
Theorem arm64_bad_flags_mapped :
  result (arch_mmu_map kv v2p free_list heap_memalign heap_free 1 0x40000000 0x200000 1 3) s_user = Some 0 /\
  result (arch_mmu_query kv 1 0x40000000 false) (after (arch_mmu_map kv v2p free_list heap_memalign heap_free 1 0x40000000 0x200000 1 3) s_user) = Some (0, 0xfffffffff000, 0).
Proof. by vm_compute. Qed.
End ArmExample.
